(* ===== verification/_CoqProject ===== *)
-Q . S2P
Prelude.v
KernDefs.v
Spl.v
Coremap.v
AddrSpace.v
AddrSpaceSpec.v
Synch.v
SynchDisc.v
SynchSem.v
SynchLock.v
SynchCv.v
SynchRw.v
SynchObj.v
CopyInOut.v
Uio.v
FileSys.v
FileSysInv.v
FileSysSpec.v
Threadlist.v
Sched.v
ProcSys.v
ProcSysSpec.v
Bitmap.v
Kmalloc.v
KmallocPages.v
KmallocInv.v
KmallocSpec.v
Array.v
Bswap.v
Sfs.v
SfsInv.v
SfsMap.v
SfsIo.v
SfsTrunc.v
SfsDir.v
SfsDirSpec.v
SfsVn.v
SfsVnOps.v
SfsName.v
SfsFs.v
Device.v
Vfs.v
VfsPath.v
VfsRefs.v
VfsDevs.v
VfsSfs.v
VfsSpec.v
CString.v
Tokens.v
Printf.v
PrintfSpec.v
Elf.v
UserMem.v
ElfSpec.v
Exec.v
ExecSpec.v
Trap.v
TrapSpec.v
Fork.v
Cpu.v
CpuInv.v
CpuSpec.v
