(* ===== verification/Prelude.v ===== *)
(** * The OS/161 kernel: memory, processors, processes and files

    A model of the kernel under [src/os161/src/kern], and of the library code it
    shares with user programs under [src/os161/src/common], and proofs that it does
    what it means to. Paths below are relative to [src/os161/src/kern]; those
    starting with [common] to [src/os161/src].

    ** The program

    OS/161 is a small multiprocessor Unix-like kernel for a simulated MIPS
    machine. Its parts, from the bottom up:
    - interrupt levels and spinlocks ([thread/spl.c], [thread/spinlock.c]);
    - the coremap, which hands out physical pages ([vm/coremap.c], [vm/vm.c],
      [arch/mips/vm/ram.c]), and the kernel heap on top of it ([vm/kmalloc.c]);
    - address spaces: page tables, page faults, the TLB, copies for fork, the heap
      break ([vm/addrspace.c], [vm/vm.c]);
    - copies between user and kernel memory ([vm/copyinout.c]);
    - wait channels, semaphores, locks, condition variables and reader-writer
      locks ([thread/synch.c], [thread/thread.c]);
    - thread lists, thread migration, the switch between threads, processors, the
      clock and interprocessor interrupts ([thread/threadlist.c],
      [thread/thread.c], [thread/clock.c]);
    - traps and the system call dispatcher ([arch/mips/locore/trap.c],
      [arch/mips/syscall/syscall.c]);
    - processes: table, fork, execv, waitpid, exit
      ([syscall/process_syscalls.c], [thread/thread.c]), and the loading of programs
      ([syscall/loadelf.c], [syscall/runprogram.c]);
    - file calls and descriptor tables ([syscall/file_syscalls.c]);
    - the virtual file system: device table, mounting, path names, current directory
      and calls on paths ([vfs/vfslist.c], [vfs/vfslookup.c], [vfs/vfscwd.c],
      [vfs/vfspath.c]), devices as files ([vfs/device.c], [vfs/devnull.c]);
    - the simple file system ([fs/sfs/sfs_vnode.c], [fs/sfs/sfs_io.c],
      [fs/sfs/sfs_fs.c]) over the disk driver ([dev/lamebus/lhd.c]), with vnode
      reference counts ([vfs/vnode.c]);
    - the kernel's library ([lib/bitmap.c], [lib/array.c], [lib/uio.c],
      [lib/bswap.c]) and the shared one: strings ([common/libc/string]) and
      formatted output ([common/libc/printf]).

    ** How code becomes definitions

    Stateful C functions are functions in the monad [M S A] of this file: they take
    the state of their component and return [Ok (value, state)], or [Panic] (a
    [panic] or a failed [KASSERT]), [Undef] (an access C leaves undefined: NULL, a
    freed block, an index outside its array) or [Diverge]. [wp m Q s] says that [m]
    returns and that [Q] holds of the result, so it excludes panics, undefined
    accesses and non-termination. Integers are [Z] with the wrap-around of their
    C type written out ([u32], [s32], [wrapu]). Functions that return an error
    number and a result through a pointer return [result A], [inl e] or [inr v].
    A component is embedded in a larger state through a lens ([Sub], [zoom]).

    ** Files

    - [Prelude]: the monad, its weakest preconditions, bounds-checked list access,
      machine integers, tactics and hints.
    - [KernDefs]: error numbers, limits, flags, the memory layout.
    - [Spl]: [splx], [splraise], [spllower], spinlocks, on one CPU.
    - [Coremap]: the page allocator. [cm_rep] relates the array of entries to a
      list of segments, free pages and allocated chunks.
    - [AddrSpace], [AddrSpaceSpec]: address spaces. [as_inv] relates page tables to
      the pages they own in the coremap; [AddrSpaceSpec] has the theorems.
    - [Synch]: the synchronisation primitives as sequences of atomic instructions of
      a machine that runs any number of threads under any schedule; [SynchDisc]:
      the discipline of spinlocks and wait channels that all of them keep;
      [SynchSem], [SynchLock], [SynchCv], [SynchRw]: semaphores, locks, condition
      variables, reader-writer locks. [SynchObj]: their creation and destruction.
    - [CopyInOut]: [copyin], [copyout] and their string versions.
    - [FileSys], [FileSysInv], [FileSysSpec]: the file calls over an interface
      [VfsOps] to the virtual file system; the invariant [fd_inv] of descriptor
      tables, handles and locks; the theorems.
    - [Threadlist]: doubly linked thread lists; [Sched]: thread migration, proved
      against the interface [ThreadLists] that [Threadlist] implements.
    - [Cpu]: processors and the switch between threads over the same interface, as
      actions of any number of processors that interleave; [CpuInv]: the invariant
      [inv], which says where each thread is ([place]) and what its interrupt level
      is; [CpuSpec]: every action keeps it, and the theorems.
    - [ProcSys], [ProcSysSpec]: the process table, thread creation, waitpid, exit.
    - [Elf]: the headers and [load_elf] over the interface [ElfOps]; [UserMem]: user
      memory through the TLB and the fault handler; [ElfSpec]: the two together.
    - [Exec], [ExecSpec]: [sys_execv] and [runprogram] over [ElfOps] and [ExecOps],
      whose laws are [ExecLaws].
    - [Trap], [TrapSpec]: the trap frame, the dispatcher and [mips_trap] over the
      interface [SysCalls] to the handlers; [Fork]: [sys_fork] with the start of the
      child and [sys__exit], over [ProcSys] and [Trap].
    - [Bitmap]: bitmaps; [Array]: resizable arrays; [Uio]: moving data over the
      vectors of a [uio]; [Bswap]: byte order.
    - [Kmalloc]: the kernel heap over the interface [PageAlloc]; [KmallocPages]: the
      coremap implements it; [KmallocInv]: the invariant of the heap's pages;
      [KmallocSpec]: runs of the heap over the coremap as a map of blocks.
    - [Sfs]: the state of a mounted file system and its disk, the sector loop of the
      driver, the block map, file reads and writes, truncation; [SfsInv]: blocks,
      which file owns which ([slot]), the bytes of a file ([content]) and the
      invariant [fs_ok]; [SfsMap]: allocation; [SfsIo]: reads and writes;
      [SfsTrunc]: truncation; [SfsDir]: directories, vnodes and the operations on
      them; [SfsDirSpec]: directories as maps, inodes on disk; [SfsVn], [SfsVnOps]:
      vnodes coming and going under the invariant [vn_ok]; [SfsName]: the name
      space ([fs_tree]); [SfsFs]: mounting and syncing.
    - [Device]: devices as files, over the functions of a driver.
    - [Vfs]: the virtual file system over the interface [FsOps]; [VfsPath]: path
      names; [VfsRefs]: references, against the laws [FsLawful]; [VfsDevs]: the
      device table; [VfsSfs]: the simple file system and the devices implement
      [FsOps] and keep [FsLawful]; [VfsSpec]: the theorems for that system.
    - [CString], [Tokens]: strings and the splitting of a command; [Printf],
      [PrintfSpec]: formatted output, and the text a format stands for.

    ** What the theorems show

    - Memory: page allocation is first fit and reversible; faults map exactly the
      page asked for or are refused without effect; loading, copying and destroying
      address spaces neither leaks nor shares pages; the heap break stays backed.
    - Programs: [load_elf] leaves the bytes of the file in memory with the right
      permissions; arguments are laid out on the stack, up to the store one past the
      array of their addresses, and found there if the compiler leaves a word of room
      for it; a failed exec restores the address space pointer and the semaphore, but
      not the translations; a fork returns twice.
    - Traps: for every call number the caller gets the result of its handler by the
      register convention, faults are served or end the process, interrupts leave the
      interrupted code alone.
    - Concurrency: semaphores count, locks and reader-writer locks exclude, no
      wakeup is lost, under every schedule.
    - Processors: in every interleaving each thread runs on one processor or waits
      on one list, stacks are not shared, address spaces stay apart, runnable
      threads run; thread lists refine plain lists, migration balances.
    - Processes: a fork adds one process, an exit code reaches the parent.
    - Files: handles count their descriptors over every run of calls; descriptors,
      positions and errors behave as the calls promise.
    - Virtual file system: path names mean what a parser on strings says, device names
      are unique, references balance over every run.
    - File system: a file is a size and a function from offsets to bytes, which
      reads return, writes update and truncation cuts; blocks are owned by one file
      at most; directories are finite maps; names are created, linked, renamed
      and removed without touching other files; a synced file system is the same
      after the next mount.
    - Library: kernel heap blocks are disjoint and keep their contents, as long as no
      block is freed right below a larger one of several pages, where [free_kpages]
      overruns; [memmove] handles every overlap; bitmaps,
      arrays and [uio]s behave as arrays of bits, lists and streams of bytes;
      [snprintf] stays in its buffer and numbers are read back as printed.
    - Defects: some lemmas show runs on which the code fails its purpose (they are
      listed as findings); they are proved from the same definitions.

    ** Bounds and fuel

    Loops whose bound is in the code run that many times. The loop of
    [removefromcoremap] gets one step more than the coremap has entries, the
    loop that puts threads back in [Sched] one more than the threads it holds, those
    over a list of threads in [Cpu] one more than the list is long, the loop of
    [uiomove] two for each vector and two more, that of [uiomovezeros] one for each
    byte and one more, the doubling loop of [array_setsize] 33 (doubling a 32-bit
    number 32 times gives 0), the loops over strings one more than the memory has
    bytes, the loop that makes digits 64 (a 64-bit number has at most 22), the loop
    over the arguments of [sys_execv] one more than its array has slots; the
    theorems prove that this is enough, since they show that the function returns.
    Schedules in [Synch] are lists and runs of [Cpu] sequences of any length. What
    the disk hardware and the kernel heap answer is a list in the state of [Sfs] and
    [Array]; the theorems about files are for a disk that does not fail, and one
    lemma shows what a failure does. The lemma about [sys_execv] as a whole is
    about the calls that return, since it reads user memory unchecked. The memory of
    the coremap array past its entries, which is never written, is taken to hold no
    count above 1 in the theorem about the kernel heap (zeros at boot).

    ** Grain of the models

    Where the code holds a lock over a section, the section is one step; some steps
    are coarser than the locking. In [Cpu], a thread arriving on a processor
    ([come_in]) is one action although the run queue lock is given up before it, and
    [as_activate] is one action although it takes the locks of the other processors
    in turn. In [FileSys] each call is one step and reference counts are unbounded
    ([sys_close] decrements an [int] without the lock). In [Fork] the read of the
    child's pid after the child can run is not a race. [sys_waitpid] returns the
    status as a value: a fault on an unmapped status pointer is not modelled.
    [user_store] takes every valid translation for writable, as [vm_fault] sets the
    dirty bit on all of them.

    ** Not modelled

    Device drivers but for the sector loop of the disk, the emulator's file system,
    the console; assembly (the switch of stacks, TLB instructions, exception entry);
    startup, [thread_panic], [cpu_hatch] and the guard words of kernel stacks; the
    commands of the menu, the kernel's self tests, [dumbvm], the locking of
    [kprintf]; user programs and the rest of the C library: input and output,
    hardware, or code that runs no part of the kernel. The interfaces [SysCalls] and
    [ExecOps] are not implemented by one state of the whole kernel: the calls behind
    them are modelled each over the state of its own component. The locks of the file
    systems, which all their functions hold, are left out; so are, in runs of the
    virtual file system, [sync] and [link], and one file system is mounted in them.
    Of the vnode operations of the simple file system those that only return an
    error are left out, and the projects of the repository outside [os161]. *)

From stdpp Require Import base tactics option list numbers strings gmap.

(** * Outcomes of kernel code

    A C function of the kernel either returns, stops the machine through
    [panic]/[KASSERT], performs an access the C language leaves undefined
    (NULL dereference, array index out of range) or never returns (spins on a
    lock nobody will release, or runs out of the fuel of a model loop). *)
Inductive res (A : Type) : Type :=
| Ok (a : A)
| Panic
| Undef
| Diverge.
Arguments Ok {A} a.
Arguments Panic {A}.
Arguments Undef {A}.
Arguments Diverge {A}.

(** The state-and-outcome monad in which stateful operations are written. *)
Definition M (S A : Type) : Type := S → res (A * S).

#[export] Instance M_ret (S : Type) : MRet (M S) := λ A a s, Ok (a, s).
#[export] Instance M_bind (S : Type) : MBind (M S) := λ A B f m s,
  match m s with
  | Ok (a, s') => f a s'
  | Panic => Panic
  | Undef => Undef
  | Diverge => Diverge
  end.

Section ops.
Context {S : Type}.

Definition getS : M S S := λ s, Ok (s, s).
Definition putS (s : S) : M S unit := λ _, Ok (tt, s).
Definition gets {A} (f : S → A) : M S A := λ s, Ok (f s, s).
Definition modify (f : S → S) : M S unit := λ s, Ok (tt, f s).
Definition panic {A} : M S A := λ _, Panic.
Definition undef {A} : M S A := λ _, Undef.
Definition diverge {A} : M S A := λ _, Diverge.
(** [KASSERT(b)]. *)
Definition kassert (b : bool) : M S unit := if b then mret tt else panic.
(** A partial access: [None] is an access outside the object. *)
Definition of_opt {A} (o : option A) : M S A :=
  match o with Some a => mret a | None => undef end.

(** [for (i = i0; i < i0 + n; i++) body(i)], where [body] yields [Some r] to
    leave the loop with [r] and [None] to go on. *)
Fixpoint for_ret {R} (n : nat) (i : Z) (body : Z → M S (option R)) : M S (option R) :=
  match n with
  | O => mret None
  | Datatypes.S n' =>
      o ← body i;
      match o with
      | Some r => mret (Some r)
      | None => for_ret n' (i + 1)%Z body
      end
  end.

(** The loop without an early exit. *)
Fixpoint for_do (n : nat) (i : Z) (body : Z → M S unit) : M S unit :=
  match n with
  | O => mret tt
  | Datatypes.S n' => _ ← body i; for_do n' (i + 1)%Z body
  end.
End ops.

(** ** Total-correctness weakest precondition

    [wp m Q s] holds when [m] run from [s] returns (no panic, no undefined
    access, no divergence) with a value and state that satisfy [Q]. *)
Definition wp {S A} (m : M S A) (Q : A → S → Prop) (s : S) : Prop :=
  match m s with Ok (a, s') => Q a s' | _ => False end.

Create HintDb wp.

Section wp_rules.
Context {S : Type}.
Implicit Types s : S.

Lemma wp_ret {A} (a : A) (Q : A → S → Prop) s : Q a s → wp (mret a) Q s.
Proof. done. Qed.

Lemma wp_bind {A B} (m : M S A) (f : A → M S B) Q s :
  wp (mbind f m) Q s ↔ wp m (λ a, wp (f a) Q) s.
Proof. unfold wp, mbind, M_bind. by destruct (m s) as [[]| | |]. Qed.

Lemma wp_bind_2 {A B} (m : M S A) (f : A → M S B) Q s :
  wp m (λ a, wp (f a) Q) s → wp (mbind f m) Q s.
Proof. apply wp_bind. Qed.

Lemma wp_mono {A} (m : M S A) (P Q : A → S → Prop) s :
  wp m P s → (∀ a s', P a s' → Q a s') → wp m Q s.
Proof. unfold wp. destruct (m s) as [[]| | |]; auto. Qed.

Lemma wp_ext {A} (m m' : M S A) (Q : A → S → Prop) s :
  (∀ t, m t = m' t) → wp m' Q s → wp m Q s.
Proof. intros H. unfold wp. by rewrite H. Qed.

Lemma wp_and {A} (m : M S A) (P Q : A → S → Prop) s :
  wp m P s → wp m Q s → wp m (λ a s', P a s' ∧ Q a s') s.
Proof. unfold wp. destruct (m s) as [[]| | |]; auto. Qed.

Lemma wp_exists {A} (m : M S A) Q s :
  wp m Q s ↔ ∃ a s', m s = Ok (a, s') ∧ Q a s'.
Proof.
  unfold wp. split; [|by intros (a & s' & -> & ?)].
  destruct (m s) as [[a s']| | |]; [by exists a, s'|done..].
Qed.

Lemma wp_gets {A} (f : S → A) (Q : A → S → Prop) s : Q (f s) s → wp (gets f) Q s.
Proof. done. Qed.
Lemma wp_get (Q : S → S → Prop) s : Q s s → wp getS Q s.
Proof. done. Qed.
Lemma wp_put s' (Q : unit → S → Prop) s : Q tt s' → wp (putS s') Q s.
Proof. done. Qed.
Lemma wp_modify f (Q : unit → S → Prop) s : Q tt (f s) → wp (modify f) Q s.
Proof. done. Qed.
Lemma wp_kassert b (Q : unit → S → Prop) s : b = true → Q tt s → wp (kassert b) Q s.
Proof. by intros ->. Qed.
Lemma wp_of_opt {A} (o : option A) a (Q : A → S → Prop) s :
  o = Some a → Q a s → wp (of_opt o) Q s.
Proof. by intros ->. Qed.

(** Invariant rule for the loop with an early exit. *)
Lemma wp_for_ret {R} (I : Z → S → Prop) (Q : option R → S → Prop) body n i s :
  I i s →
  (∀ j s', (i ≤ j < i + Z.of_nat n)%Z → I j s' →
    wp (body j) (λ o s'', match o with Some r => Q (Some r) s'' | None => I (j + 1)%Z s'' end) s') →
  (∀ s', I (i + Z.of_nat n)%Z s' → Q None s') →
  wp (for_ret n i body) Q s.
Proof.
  revert i s. induction n as [|n IH]; intros i s HI Hb HQ; cbn [for_ret].
  { apply wp_ret, HQ. by replace (i + Z.of_nat 0)%Z with i by lia. }
  apply wp_bind_2. eapply wp_mono; [apply Hb; [lia|done]|].
  intros [r|] s' H; [by apply wp_ret|].
  apply IH; [done|intros; apply Hb; [lia|done]|].
  intros s'' HI'. apply HQ. by replace (i + Z.of_nat (Datatypes.S n))%Z
    with (i + 1 + Z.of_nat n)%Z by lia.
Qed.

(** Invariant rule for the plain loop. *)
Lemma wp_for_do (I : Z → S → Prop) (Q : unit → S → Prop) body n i s :
  I i s →
  (∀ j s', (i ≤ j < i + Z.of_nat n)%Z → I j s' → wp (body j) (λ _, I (j + 1)%Z) s') →
  (∀ s', I (i + Z.of_nat n)%Z s' → Q tt s') →
  wp (for_do n i body) Q s.
Proof.
  revert i s. induction n as [|n IH]; intros i s HI Hb HQ; cbn [for_do].
  { apply wp_ret, HQ. by replace (i + Z.of_nat 0)%Z with i by lia. }
  apply wp_bind_2. eapply wp_mono; [apply Hb; [lia|done]|].
  intros [] s' H.
  apply IH; [done|intros; apply Hb; [lia|done]|].
  intros s'' HI'. apply HQ. by replace (i + Z.of_nat (Datatypes.S n))%Z
    with (i + 1 + Z.of_nat n)%Z by lia.
Qed.
End wp_rules.

#[export] Hint Resolve wp_ret wp_gets wp_get wp_put wp_modify : wp.

(** One symbolic-execution step of a monadic program under [wp]. *)
Ltac wp_step :=
  lazymatch goal with
  | |- wp (mbind _ _) _ _ => apply wp_bind_2
  | |- wp (mret _) _ _ => apply wp_ret
  | |- wp (gets _) _ _ => apply wp_gets
  | |- wp getS _ _ => apply wp_get
  | |- wp (putS _) _ _ => apply wp_put
  | |- wp (modify _) _ _ => apply wp_modify
  | |- wp (kassert true) _ _ => apply wp_kassert; [reflexivity|]
  | |- wp (of_opt (Some _)) _ _ => eapply wp_of_opt; [reflexivity|]
  end.
Ltac wp_steps := repeat (wp_step; cbv beta).

(** Computing a monadic program on a concrete or half-concrete state. *)
Ltac m_simpl :=
  unfold kassert, of_opt, mbind, M_bind, mret, M_ret, getS, putS, gets, modify,
    panic, undef, diverge; simpl.
Tactic Notation "m_simpl" "in" hyp(H) :=
  unfold kassert, of_opt, mbind, M_bind, mret, M_ret, getS, putS, gets, modify,
    panic, undef, diverge in H; simpl in H.

(** Boolean comparisons of integers turned into propositions, then [lia]. *)
Ltac zbool :=
  repeat match goal with
  | H : (_ =? _)%Z = true |- _ => apply Z.eqb_eq in H
  | H : (_ =? _)%Z = false |- _ => apply Z.eqb_neq in H
  | H : (_ <=? _)%Z = true |- _ => apply Z.leb_le in H
  | H : (_ <=? _)%Z = false |- _ => apply Z.leb_gt in H
  | H : (_ <? _)%Z = true |- _ => apply Z.ltb_lt in H
  | H : (_ <? _)%Z = false |- _ => apply Z.ltb_ge in H
  | H : negb _ = true |- _ => apply negb_true_iff in H
  | H : negb _ = false |- _ => apply negb_false_iff in H
  | H : (_ && _)%bool = true |- _ => apply andb_true_iff in H as [? ?]
  | H : (_ || _)%bool = false |- _ => apply orb_false_iff in H as [? ?]
  | |- true = _ => symmetry
  | |- false = _ => symmetry
  | |- (_ =? _)%Z = true => apply Z.eqb_eq
  | |- (_ =? _)%Z = false => apply Z.eqb_neq
  | |- (_ <=? _)%Z = true => apply Z.leb_le
  | |- (_ <=? _)%Z = false => apply Z.leb_gt
  | |- (_ <? _)%Z = true => apply Z.ltb_lt
  | |- (_ <? _)%Z = false => apply Z.ltb_ge
  end.
Ltac blia := zbool; lia.

(** * Sub-states

    A component's state lives inside the state of the components that call it;
    [zoom] runs the component's operation there. *)
Class Sub (S T : Type) : Type := {
  sub_get : S → T;
  sub_put : T → S → S;
  sub_get_put s t : sub_get (sub_put t s) = t;
  sub_put_get s : sub_put (sub_get s) s = s;
  sub_put_put s t t' : sub_put t (sub_put t' s) = sub_put t s;
}.

Definition zoom {S T A} `{Sub S T} (m : M T A) : M S A := λ s,
  match m (sub_get s) with
  | Ok (a, t) => Ok (a, sub_put t s)
  | Panic => Panic
  | Undef => Undef
  | Diverge => Diverge
  end.

(** ** Running the parts of a call *)
Lemma bind_ok {S A B} (m : M S A) (f : A → M S B) a s s' : m s = Ok (a, s') → (mbind f m) s = f a s'.
Proof. intros H. unfold mbind, M_bind. by rewrite H. Qed.
Lemma bind_of_opt {S A B} (o : option A) (f : A → M S B) a s : o = Some a → (mbind f (of_opt o)) s = f a s.
Proof. by intros ->. Qed.
Lemma bind_kassert {S B} b (f : unit → M S B) s : b = true → (mbind f (kassert b)) s = f tt s.
Proof. by intros ->. Qed.
Lemma bind_ext {S A B} (m : M S A) (f g : A → M S B) s : (∀ a s', f a s' = g a s') → (mbind f m) s = (mbind g m) s.
Proof. intros H. unfold mbind, M_bind. by destruct (m s) as [[]| | |]. Qed.
Lemma bind_assoc {S A B C} (m : M S A) (f : A → M S B) (g : B → M S C) s :
  (mbind g (mbind f m)) s = (mbind (λ a, mbind g (f a)) m) s.
Proof. unfold mbind, M_bind. by destruct (m s) as [[]| | |]. Qed.
Lemma wp_eq {S A} (m : M S A) (Q : A → S → Prop) (s : S) a s' : m s = Ok (a, s') → Q a s' → wp m Q s.
Proof. unfold wp. by intros ->. Qed.

Lemma wp_zoom {S T A} `{Sub S T} (m : M T A) (Q : A → S → Prop) (s : S) :
  wp m (λ a t, Q a (sub_put t s)) (sub_get s) → wp (zoom m) Q s.
Proof. unfold wp, zoom. by destruct (m (sub_get s)) as [[]| | |]. Qed.

(** * Arrays indexed by C integers *)
Definition zget {A} (l : list A) (i : Z) : option A :=
  if (0 <=? i)%Z then l !! Z.to_nat i else None.
Definition zset {A} (i : Z) (x : A) (l : list A) : option (list A) :=
  if ((0 <=? i) && (i <? Z.of_nat (length l)))%Z then Some (<[Z.to_nat i := x]> l) else None.

Section zarrays.
Context {A : Type}.
Implicit Types l : list A.
Local Open Scope Z_scope.

Lemma zget_Some l i x : zget l i = Some x ↔ 0 ≤ i ∧ l !! Z.to_nat i = Some x.
Proof. unfold zget. destruct (Z.leb_spec 0 i); naive_solver lia. Qed.

Lemma zget_nat l (i : nat) : zget l (Z.of_nat i) = l !! i.
Proof. unfold zget. rewrite (proj2 (Z.leb_le _ _)) by lia. by rewrite Nat2Z.id. Qed.

Lemma zget_is_Some l i : 0 ≤ i < Z.of_nat (length l) → is_Some (zget l i).
Proof.
  intros Hi. unfold zget. rewrite (proj2 (Z.leb_le _ _)) by lia.
  apply lookup_lt_is_Some. lia.
Qed.

Lemma zset_Some l i x : 0 ≤ i < Z.of_nat (length l) → zset i x l = Some (<[Z.to_nat i := x]> l).
Proof.
  intros Hi. unfold zset.
  by rewrite (proj2 (Z.leb_le _ _)), (proj2 (Z.ltb_lt _ _)) by lia.
Qed.

Lemma zset_nat l (i : nat) x :
  (i < length l)%nat → zset (Z.of_nat i) x l = Some (<[i := x]> l).
Proof. intros. rewrite zset_Some by lia. by rewrite Nat2Z.id. Qed.
End zarrays.

(** * Machine integers

    [u32]/[s32] are the conversions of C to [unsigned int]/[int] on this
    32-bit machine, [u8]..[s64] the other widths. *)
Local Open Scope Z_scope.
Definition wrapu (w x : Z) : Z := x mod 2 ^ w.
Definition wraps (w x : Z) : Z := (x + 2 ^ (w - 1)) mod 2 ^ w - 2 ^ (w - 1).
Abbreviation u8 := (wrapu 8).
Abbreviation u16 := (wrapu 16).
Abbreviation u32 := (wrapu 32).
Abbreviation u64 := (wrapu 64).
Abbreviation s32 := (wraps 32).
Abbreviation s64 := (wraps 64).

Lemma wrapu_id w x : 0 ≤ x < 2 ^ w → wrapu w x = x.
Proof. apply Z.mod_small. Qed.
Lemma wrapu_range w x : 0 ≤ w → 0 ≤ wrapu w x < 2 ^ w.
Proof. intros. apply Z.mod_pos_bound. by apply Z.pow_pos_nonneg. Qed.
Lemma wraps_id w x : 0 < w → - 2 ^ (w - 1) ≤ x < 2 ^ (w - 1) → wraps w x = x.
Proof.
  intros Hw Hx. unfold wraps. rewrite Z.mod_small; [lia|].
  replace (2 ^ w) with (2 * 2 ^ (w - 1)) by (rewrite <-Z.pow_succ_r by lia; f_equal; lia). lia.
Qed.
Lemma wraps_range w x : 0 < w → - 2 ^ (w - 1) ≤ wraps w x < 2 ^ (w - 1).
Proof.
  intros Hw. unfold wraps.
  pose proof (Z.mod_pos_bound (x + 2 ^ (w - 1)) (2 ^ w) (Z.pow_pos_nonneg 2 w ltac:(lia) ltac:(lia))).
  replace (2 ^ w) with (2 * 2 ^ (w - 1)) in * by (rewrite <-Z.pow_succ_r by lia; f_equal; lia). lia.
Qed.
Lemma u32_id x : 0 ≤ x < 4294967296 → u32 x = x.
Proof. apply (wrapu_id 32). Qed.
Lemma s32_id x : -2147483648 ≤ x < 2147483648 → s32 x = x.
Proof. intros. by apply (wraps_id 32). Qed.
Lemma s64_id x : -9223372036854775808 ≤ x < 9223372036854775808 → s64 x = x.
Proof. intros. by apply (wraps_id 64). Qed.
Lemma u32_range x : 0 ≤ u32 x < 4294967296.
Proof. by apply (wrapu_range 32). Qed.
Lemma s32_range x : -2147483648 ≤ s32 x < 2147483648.
Proof. by apply (wraps_range 32). Qed.
Lemma wrapu_add_l w x y : wrapu w (wrapu w x + y) = wrapu w (x + y).
Proof. apply Zplus_mod_idemp_l. Qed.
Lemma wrapu_add_r w x y : wrapu w (x + wrapu w y) = wrapu w (x + y).
Proof. apply Zplus_mod_idemp_r. Qed.
Lemma wrapu_idemp w x : wrapu w (wrapu w x) = wrapu w x.
Proof. apply Zmod_mod. Qed.

(** Rounding down to a multiple of [2^k] by masking. *)
Lemma land_lnot_ones x k : 0 ≤ k → Z.land x (Z.lnot (Z.ones k)) = x - x mod 2 ^ k.
Proof.
  intros Hk. rewrite <-Z.ldiff_land, Z.ldiff_ones_r by lia.
  rewrite Z.shiftl_mul_pow2, Z.shiftr_div_pow2 by lia.
  pose proof (Z.div_mod x (2 ^ k) (Z.pow_nonzero 2 k ltac:(lia) ltac:(lia))). lia.
Qed.

(** * Lists *)
Section filters.
Context {A : Type} (P : A → Prop) `{∀ x, Decision (P x)}.

Lemma filter_all l : Forall P l → filter P l = l.
Proof. induction 1 as [|x l Hx _ IH]; [done|]. by rewrite filter_cons_True, IH. Qed.

Lemma filter_none l : Forall (λ x, ¬ P x) l → filter P l = [].
Proof. induction 1 as [|x l Hx _ IH]; [done|]. by rewrite filter_cons_False. Qed.
End filters.

Lemma insert_mid {A} (l1 : list A) x y l2 : <[length l1 := x]> (l1 ++ y :: l2) = l1 ++ x :: l2.
Proof. induction l1; simpl; congruence. Qed.

Lemma zget_cases {A} (c : list A) p i : zget c p = Some i →
  ∃ k, (k < length c)%nat ∧ p = Z.of_nat k ∧ c !! k = Some i.
Proof.
  unfold zget. destruct (Z.leb_spec 0 p); [|done]. intros Hi. exists (Z.to_nat p).
  split_and!; [by eapply lookup_lt_Some|lia|done].
Qed.

Lemma zget_None {A} (c : list A) p : zget c p = None → p < 0 ∨ Z.of_nat (length c) ≤ p.
Proof.
  unfold zget. destruct (Z.leb_spec 0 p); [|lia]. intros ?%lookup_ge_None. lia.
Qed.

(** * C strings *)
(** The C string at the start of a block. *)
Fixpoint cstr (l : list Z) : list Z :=
  match l with
  | [] => []
  | b :: l => if (b =? 0)%Z then [] else b :: cstr l
  end.
Lemma cstr_end (s junk : list Z) : Forall (λ b, b ≠ 0%Z) s → cstr (s ++ 0%Z :: junk) = s.
Proof. induction 1 as [|b s Hb Hs IH]; [done|]. simpl. rewrite (proj2 (Z.eqb_neq b 0)) by done. by rewrite IH. Qed.

(** ** Words in memory, most significant byte first *)
Definition word_bytes (w : Z) : list Z := [w / 2 ^ 24 mod 256; w / 2 ^ 16 mod 256; w / 2 ^ 8 mod 256; w mod 256].
Definition bytes_word (l : list Z) : Z := foldl (λ a b, a * 256 + b) 0 l.
Lemma bytes_word_bytes w : 0 ≤ w < 4294967296 → bytes_word (word_bytes w) = w.
Proof.
  intros Hw. unfold bytes_word, word_bytes. cbn [foldl].
  change (2 ^ 24) with (256 * (256 * 256)). change (2 ^ 16) with (256 * 256). change (2 ^ 8) with 256.
  rewrite <-!Z.div_div by lia.
  pose proof (Z.div_mod w 256 ltac:(lia)). pose proof (Z.div_mod (w / 256) 256 ltac:(lia)).
  pose proof (Z.div_mod (w / 256 / 256) 256 ltac:(lia)). pose proof (Z.div_mod (w / 256 / 256 / 256) 256 ltac:(lia)).
  assert (w / 256 / 256 / 256 / 256 = 0) as E by (rewrite !Z.div_div by lia; apply Z.div_small; lia). lia.
Qed.
