(* ===== verification/KernDefs.v ===== *)
(** Constants shared by the kernel's components, from its headers: error
    numbers ([kern/include/kern/errno.h]), limits
    ([kern/include/kern/limits.h]), open flags ([kern/include/kern/fcntl.h]),
    seek codes, wait-status encoding and the machine-dependent memory layout
    ([kern/arch/mips/include/vm.h]). *)

From stdpp Require Import base tactics numbers list.
From S2P Require Import Prelude.
Local Open Scope Z_scope.

(** Error numbers of [kern/errno.h], in the order of the header. *)
Inductive errno : Type :=
| ENOSYS | EUNIMP | ENOMEM | EAGAIN | EINTR | EFAULT | ENAMETOOLONG | EINVAL
| EPERM | EACCES | EMPROC | ENPROC | ENOEXEC | E2BIG | ESRCH | ECHILD
| ENOTDIR | EISDIR | ENOENT | ELOOP | ENOTEMPTY | EEXIST | EMLINK | EXDEV
| ENODEV | ENXIO | EBUSY | EMFILE | ENFILE | EBADF | EIOCTL | EIO
| ESPIPE | EPIPE | EROFS | ENOSPC | EDQUOT | EFBIG | EFTYPE | EDOM
| ERANGE | EILSEQ | ENOTSOCK | EISSOCK | EISCONN | ENOTCONN | ESHUTDOWN
| EPFNOSUPPORT | ESOCKTNOSUPPORT | EPROTONOSUPPORT | EPROTOTYPE | EAFNOSUPPORT
| ENOPROTOOPT | EADDRINUSE | EADDRNOTAVAIL | ENETDOWN | ENETUNREACH | EHOSTDOWN
| EHOSTUNREACH | ECONNREFUSED | ETIMEDOUT | ECONNRESET | EMSGSIZE | ENOTSUP.

#[export] Instance errno_eq_dec : EqDecision errno.
Proof. solve_decision. Defined.

(** A function of the kernel that returns 0 or an error number and hands its
    result back through a pointer: [inl e] is the error, [inr v] the result. *)
Abbreviation result A := (errno + A)%type.

(** ** Limits *)
Definition NAME_MAX : Z := 255.
Definition PATH_MAX : Z := 1024.
Definition ARG_MAX : Z := 64 * 1024.
Definition PID_MIN : Z := 2.
Definition PID_MAX : Z := 32767.
Definition PROC_MAX : Z := 100.
Definition OPEN_MAX : Z := 128.

(** ** Open flags and seek codes *)
Definition O_RDONLY : Z := 0.
Definition O_WRONLY : Z := 1.
Definition O_RDWR : Z := 2.
Definition O_CREAT : Z := 4.
Definition O_EXCL : Z := 8.
Definition O_TRUNC : Z := 16.
Definition O_APPEND : Z := 32.
Definition O_ACCMODE : Z := 3.

(** [kern/stattypes.h] *)
Definition S_IFREG : Z := 0x1000.
Definition S_IFDIR : Z := 0x2000.
Definition S_IFCHR : Z := 0x6000.
Definition S_IFBLK : Z := 0x7000.
Definition SEEK_SET : Z := 0.
Definition SEEK_CUR : Z := 1.
Definition SEEK_END : Z := 2.

(** ** Memory layout *)
Definition PAGE_SIZE : Z := 4096.
Definition PAGE_FRAME : Z := 0xfffff000.
Definition MIPS_KSEG0 : Z := 0x80000000.
Definition USERSPACETOP : Z := MIPS_KSEG0.
Definition USERSTACK : Z := USERSPACETOP.
Definition PADDR_TO_KVADDR (paddr : Z) : Z := u32 (paddr + MIPS_KSEG0).
Definition KVADDR_TO_PADDR (vaddr : Z) : Z := u32 (vaddr - MIPS_KSEG0).

Lemma kvaddr_paddr p : 0 ≤ p < 2 ^ 32 → KVADDR_TO_PADDR (PADDR_TO_KVADDR p) = p.
Proof.
  intros Hp. unfold KVADDR_TO_PADDR, PADDR_TO_KVADDR.
  unfold Z.sub. rewrite wrapu_add_l, wrapu_id; lia.
Qed.

(** [x & PAGE_FRAME] is [x] rounded down to a page, for a 32-bit [x]. *)
Lemma land_PAGE_FRAME x : 0 ≤ x < 2 ^ 32 → Z.land x PAGE_FRAME = x - x mod PAGE_SIZE.
Proof.
  intros Hx. change PAGE_SIZE with (2 ^ 12). rewrite <-land_lnot_ones by lia.
  apply Z.bits_inj'. intros n Hn. rewrite !Z.land_spec, Z.lnot_spec by lia.
  destruct (decide (n < 32)).
  - f_equal. change PAGE_FRAME with (Z.ldiff (Z.ones 32) (Z.ones 12)).
    rewrite Z.ldiff_spec, Z.ones_spec_low by lia. done.
  - rewrite (Z.bits_above_log2 x n); [done|lia|].
    destruct (decide (x = 0)) as [->|]; [simpl; lia|].
    assert (Z.log2 x < 32) by (apply Z.log2_lt_pow2; lia). lia.
Qed.
