(* ===== verification/Spl.v ===== *)
(** Interrupt priority levels and spinlocks: [kern/thread/spl.c] and
    [kern/thread/spinlock.c].

    [cpustate] is what these functions touch of the running CPU and its current
    thread: whether interrupts are enabled, [t_iplhigh_count], [t_curspl], the
    identity of the CPU and whether [curcpu] exists yet. A spinlock is a value
    the operations take and give back, so a caller stores it where the C code
    has the [struct spinlock]. *)

From stdpp Require Import base tactics numbers list.
From S2P Require Import Prelude.
Local Open Scope Z_scope.

Definition IPL_NONE : Z := 0.
Definition IPL_HIGH : Z := 1.

Record cpustate := CpuState {
  c_exists : bool;
  c_self : Z;
  irq_on : bool;
  t_iplhigh_count : Z;
  t_curspl : Z;
}.

Definition set_irq (b : bool) (c : cpustate) : cpustate :=
  CpuState (c_exists c) (c_self c) b (t_iplhigh_count c) (t_curspl c).
Definition set_iplhigh (n : Z) (c : cpustate) : cpustate :=
  CpuState (c_exists c) (c_self c) (irq_on c) n (t_curspl c).
Definition set_curspl (n : Z) (c : cpustate) : cpustate :=
  CpuState (c_exists c) (c_self c) (irq_on c) (t_iplhigh_count c) n.

Definition splraise (oldspl newspl : Z) : M cpustate unit :=
  kassert (oldspl =? IPL_NONE);;
  kassert (newspl =? IPL_HIGH);;
  c ← getS;
  if negb (c_exists c) then mret tt
  else
    (if t_iplhigh_count c =? 0 then modify (set_irq false) else mret tt);;
    modify (λ c, set_iplhigh (t_iplhigh_count c + 1) c).

Definition spllower (oldspl newspl : Z) : M cpustate unit :=
  kassert (oldspl =? IPL_HIGH);;
  kassert (newspl =? IPL_NONE);;
  c ← getS;
  if negb (c_exists c) then mret tt
  else
    modify (λ c, set_iplhigh (t_iplhigh_count c - 1) c);;
    c ← getS;
    if t_iplhigh_count c =? 0 then modify (set_irq true) else mret tt.

Definition splx (spl : Z) : M cpustate Z :=
  c ← getS;
  if t_curspl c <? spl then
    splraise (t_curspl c) spl;;
    modify (set_curspl spl);;
    mret (t_curspl c)
  else if spl <? t_curspl c then
    modify (set_curspl spl);;
    spllower (t_curspl c) spl;;
    mret (t_curspl c)
  else mret spl.

Definition splhigh : M cpustate Z := splx IPL_HIGH.
Definition spl0 : M cpustate Z := splx IPL_NONE.

(** ** Spinlocks *)
Record spinlock := Spinlock { lk_lock : bool; lk_holder : option Z }.

Definition spinlock_init : spinlock := Spinlock false None.

Definition spinlock_cleanup (lk : spinlock) : M cpustate unit :=
  kassert (bool_decide (lk_holder lk = None));;
  kassert (negb (lk_lock lk)).

(** The test-and-set loop has one outcome on a machine on which nothing else
    runs: it takes a free lock at once and spins on a taken one. *)
Definition spinlock_acquire (lk : spinlock) : M cpustate spinlock :=
  splraise IPL_NONE IPL_HIGH;;
  c ← getS;
  mycpu ← (if c_exists c then
             if bool_decide (lk_holder lk = Some (c_self c)) then panic
             else mret (Some (c_self c))
           else mret None);
  if lk_lock lk then diverge else mret (Spinlock true mycpu).

Definition spinlock_release (lk : spinlock) : M cpustate spinlock :=
  c ← getS;
  (if c_exists c then kassert (bool_decide (lk_holder lk = Some (c_self c))) else mret tt);;
  spllower IPL_HIGH IPL_NONE;;
  mret (Spinlock false None).

Definition spinlock_do_i_hold (c : cpustate) (lk : spinlock) : bool :=
  if negb (c_exists c) then true else bool_decide (lk_holder lk = Some (c_self c)).

(** ** The interrupt discipline

    A thread's history, as far as interrupts are concerned, is a sequence of
    spinlock acquisitions, releases and [splx] calls on some family of locks;
    they need not nest. *)
Inductive splop := Acquire (k : nat) | Release (k : nat) | Splx (spl : Z).

Definition splsys : Type := cpustate * list spinlock.

Definition exec_op (o : splop) (s : splsys) : res splsys :=
  match o with
  | Acquire k =>
      match s.2 !! k with
      | None => Undef
      | Some lk => match spinlock_acquire lk s.1 with
                   | Ok (lk', c) => Ok (c, <[k := lk']> s.2)
                   | Panic => Panic | Undef => Undef | Diverge => Diverge
                   end
      end
  | Release k =>
      match s.2 !! k with
      | None => Undef
      | Some lk => match spinlock_release lk s.1 with
                   | Ok (lk', c) => Ok (c, <[k := lk']> s.2)
                   | Panic => Panic | Undef => Undef | Diverge => Diverge
                   end
      end
  | Splx l => match splx l s.1 with
              | Ok (_, c) => Ok (c, s.2)
              | Panic => Panic | Undef => Undef | Diverge => Diverge
              end
  end.

Fixpoint exec_ops (os : list splop) (s : splsys) : res splsys :=
  match os with
  | [] => Ok s
  | o :: os => match exec_op o s with Ok s' => exec_ops os s' | r => r end
  end.

(** How many of the locks CPU [me] holds. *)
Definition held (me : Z) (lks : list spinlock) : nat :=
  length (filter (λ lk, lk_holder lk = Some me) lks).

Definition spl_inv (s : splsys) : Prop :=
  c_exists s.1 = true ∧
  (t_curspl s.1 = IPL_NONE ∨ t_curspl s.1 = IPL_HIGH) ∧
  t_iplhigh_count s.1 = Z.of_nat (held (c_self s.1) s.2) + t_curspl s.1 ∧
  irq_on s.1 = (t_iplhigh_count s.1 =? 0).

Lemma held_insert me lks k lk lk' :
  lks !! k = Some lk →
  (held me (<[k := lk']> lks) + (if decide (lk_holder lk = Some me) then 1 else 0) =
   held me lks + (if decide (lk_holder lk' = Some me) then 1 else 0))%nat.
Proof.
  intros Hk. unfold held.
  rewrite <-(take_drop_middle lks k lk Hk) at 2.
  rewrite insert_take_drop by (by eapply lookup_lt_Some).
  rewrite !filter_app, !filter_cons, !length_app.
  repeat case_decide; simpl; lia.
Qed.

Lemma spl_inv_step o s s' : spl_inv s → exec_op o s = Ok s' → spl_inv s'.
Proof.
  destruct s as [[ex me irq n cur] lks]. intros (He & Hc & Hn & Hi). simpl in *. subst ex irq.
  destruct o as [k|k|l]; simpl.
  - destruct (lks !! k) as [lk|] eqn:Hk; [|done].
    unfold spinlock_acquire, splraise; m_simpl.
    destruct (decide (lk_holder lk = Some me)) as [|Hh].
    { destruct (n =? 0); simpl; (rewrite bool_decide_true by done); done. }
    pose proof (held_insert me lks k lk (Spinlock true (Some me)) Hk) as Hx.
    rewrite decide_False in Hx by done. rewrite decide_True in Hx by done.
    destruct (n =? 0) eqn:En; simpl; (rewrite bool_decide_false by done); simpl;
      destruct (lk_lock lk); intros; simplify_eq; unfold spl_inv; simpl;
      (split_and!; [done|done|lia|]); unfold IPL_NONE, IPL_HIGH in *; lia.
  - destruct (lks !! k) as [lk|] eqn:Hk; [|done].
    unfold spinlock_release, spllower; m_simpl.
    case_bool_decide as Hh; [|done]; simpl.
    pose proof (held_insert me lks k lk (Spinlock false None) Hk) as Hx.
    rewrite decide_True in Hx by done. rewrite decide_False in Hx by done.
    destruct (n - 1 =? 0) eqn:En; simpl; intros; simplify_eq; unfold spl_inv; simpl;
      (split_and!; [done|done|lia|]); unfold IPL_NONE, IPL_HIGH in *; lia.
  - unfold splx, splraise, spllower; m_simpl. unfold IPL_NONE, IPL_HIGH in *.
    destruct (cur <? l) eqn:E1; simpl.
    + destruct (cur =? 0) eqn:E2; [|done]. simpl. destruct (l =? 1) eqn:E3; [|done]. simpl.
      destruct (n =? 0) eqn:En; simpl; intros; simplify_eq; unfold spl_inv; simpl;
        unfold IPL_NONE, IPL_HIGH in *; (split_and!; [done|blia|blia|blia]).
    + destruct (l <? cur) eqn:E2; simpl.
      * destruct (cur =? 1) eqn:E3; [|done]. simpl. destruct (l =? 0) eqn:E4; [|done]. simpl.
        destruct (n - 1 =? 0) eqn:En; simpl; intros; simplify_eq; unfold spl_inv; simpl;
          unfold IPL_NONE, IPL_HIGH in *; (split_and!; [done|blia|blia|blia]).
      * intros; simplify_eq. unfold spl_inv; simpl. unfold IPL_NONE, IPL_HIGH in *. done.
Qed.

Lemma spl_inv_steps os s s' : spl_inv s → exec_ops os s = Ok s' → spl_inv s'.
Proof.
  revert s. induction os as [|o os IH]; intros s Hs; simpl; [by intros [= <-]|].
  destruct (exec_op o s) as [s1| | |] eqn:E; [|done..].
  intros. eapply IH; [|done]. by eapply spl_inv_step.
Qed.

(** What the code expects of its callers: only free locks are acquired, only
    locks this CPU holds are released, and only the two existing levels are
    asked for. *)
Definition legal_op (o : splop) (s : splsys) : Prop :=
  match o with
  | Acquire k => ∃ lk, s.2 !! k = Some lk ∧ lk_lock lk = false ∧ lk_holder lk = None
  | Release k => ∃ lk, s.2 !! k = Some lk ∧ lk_holder lk = Some (c_self s.1)
  | Splx l => l = IPL_NONE ∨ l = IPL_HIGH
  end.

Fixpoint legal_ops (os : list splop) (s : splsys) : Prop :=
  match os with
  | [] => True
  | o :: os => legal_op o s ∧ ∀ s', exec_op o s = Ok s' → legal_ops os s'
  end.

Lemma legal_op_returns o s : spl_inv s → legal_op o s → ∃ s', exec_op o s = Ok s'.
Proof.
  destruct s as [[ex me irq n cur] lks]. intros (He & Hc & Hn & Hi) Hl. simpl in *. subst ex irq.
  destruct o as [k|k|l]; simpl in Hl |- *.
  - destruct Hl as (lk & -> & Hlk & Hh). unfold spinlock_acquire, splraise; m_simpl.
    destruct (n =? 0); simpl; (rewrite bool_decide_false by congruence); simpl;
      rewrite Hlk; simpl; by eexists.
  - destruct Hl as (lk & -> & Hh). unfold spinlock_release, spllower; m_simpl.
    rewrite bool_decide_true by done. simpl. destruct (n - 1 =? 0); simpl; by eexists.
  - unfold splx, splraise, spllower; m_simpl. unfold IPL_NONE, IPL_HIGH in *.
    destruct Hl as [-> | ->], Hc as [-> | ->]; simpl; try (by eexists).
    + destruct (n - 1 =? 0); by eexists.
    + destruct (n =? 0); by eexists.
Qed.

(** Along any sequence of spinlock acquisitions, releases and [splx] calls,
    nested or not, no step panics, and interrupts are on exactly when the CPU
    holds no spinlock and the thread's level is [IPL_NONE]. *)
Theorem interrupts_on_iff_unlocked os s :
  spl_inv s → legal_ops os s →
  ∃ s', exec_ops os s = Ok s' ∧
    t_iplhigh_count s'.1 = Z.of_nat (held (c_self s'.1) s'.2) + t_curspl s'.1 ∧
    (irq_on s'.1 = true ↔ held (c_self s'.1) s'.2 = 0%nat ∧ t_curspl s'.1 = IPL_NONE).
Proof.
  revert s. induction os as [|o os IH]; intros s Hs Hl; simpl.
  - exists s. destruct Hs as (_ & Hc & Hn & ->). split_and!; [done..|].
    unfold IPL_NONE, IPL_HIGH in *. rewrite Z.eqb_eq. lia.
  - destruct Hl as [Ho Hos]. destruct (legal_op_returns o s Hs Ho) as [s1 E].
    rewrite E. apply IH; [by eapply spl_inv_step|by apply Hos].
Qed.

(** The example in the comment of [splraise]: red is lock 0, blue lock 1. *)
Definition red_blue : list splop :=
  [Acquire 0; Splx IPL_HIGH; Acquire 1; Splx IPL_NONE; Release 0; Release 1].
Definition red_blue_start : splsys :=
  (CpuState true 0 true 0 0, [spinlock_init; spinlock_init]).

Lemma interrupts_on_iff_unlocked_witness :
  ∃ s', exec_ops red_blue red_blue_start = Ok s' ∧
    t_iplhigh_count s'.1 = Z.of_nat (held (c_self s'.1) s'.2) + t_curspl s'.1 ∧
    (irq_on s'.1 = true ↔ held (c_self s'.1) s'.2 = 0%nat ∧ t_curspl s'.1 = IPL_NONE).
Proof.
  apply (interrupts_on_iff_unlocked red_blue red_blue_start).
  - split_and!; [done|by left|done|done].
  - unfold red_blue. cbn [legal_ops].
    repeat (split; [first [by left|by right|by eexists]|intros ? [= <-]]). done.
Defined.
