(* ===== verification/Coremap.v ===== *)
(** The physical page allocator: [kern/vm/coremap.c], the page-level entry
    points of [kern/vm/vm.c] ([vm_bootstrap], [alloc_kpages], [page_free],
    [free_kpages]) and the early allocator it takes its memory from
    ([kern/arch/mips/vm/ram.c]).

    [cmstate] gathers the static variables of these files, the spinlock that
    guards them and the CPU running the code. The coremap array is a list; it
    is as long as the memory set aside for it, which is more than the
    [cm_entries] entries in use, so that a read past the last entry in use
    reads the contents that memory had at boot, as the C code does. *)

From stdpp Require Import base tactics numbers list.
From S2P Require Import Prelude KernDefs Spl.
Local Open Scope Z_scope.

(** ** State *)
Record cm_entry := CmEntry {
  chunk_cnt : Z;          (* 17-bit field *)
  is_kern_page : bool;
  is_allocated : bool;
}.

Record cmstate := CmState {
  cm_cpu : cpustate;
  coremap_slock : spinlock;
  firstpaddr : Z;
  lastpaddr : Z;
  coremap : list cm_entry;
  cm_entries : Z;
  cm_lastentry : Z;
  freespace : Z;
}.

Definition set_slock (k : spinlock) (s : cmstate) : cmstate :=
  CmState (cm_cpu s) k (firstpaddr s) (lastpaddr s) (coremap s) (cm_entries s)
    (cm_lastentry s) (freespace s).
Definition set_ram (lo hi : Z) (s : cmstate) : cmstate :=
  CmState (cm_cpu s) (coremap_slock s) lo hi (coremap s) (cm_entries s)
    (cm_lastentry s) (freespace s).
Definition set_coremap (l : list cm_entry) (s : cmstate) : cmstate :=
  CmState (cm_cpu s) (coremap_slock s) (firstpaddr s) (lastpaddr s) l (cm_entries s)
    (cm_lastentry s) (freespace s).
Definition set_layout (n last free : Z) (s : cmstate) : cmstate :=
  CmState (cm_cpu s) (coremap_slock s) (firstpaddr s) (lastpaddr s) (coremap s) n last free.

#[export] Program Instance cm_cpu_sub : Sub cmstate cpustate := {|
  sub_get := cm_cpu;
  sub_put c s := CmState c (coremap_slock s) (firstpaddr s) (lastpaddr s) (coremap s)
    (cm_entries s) (cm_lastentry s) (freespace s)
|}.
Next Obligation. done. Qed.
Next Obligation. by intros []. Qed.
Next Obligation. done. Qed.

(** [spinlock_acquire(&coremap_slock)] and [spinlock_release(&coremap_slock)]. *)
Definition slock_acquire : M cmstate unit :=
  k ← gets coremap_slock; k' ← zoom (spinlock_acquire k); modify (set_slock k').
Definition slock_release : M cmstate unit :=
  k ← gets coremap_slock; k' ← zoom (spinlock_release k); modify (set_slock k').

(** ** ram.c *)
Definition ram_stealmem (npages : Z) : M cmstate Z :=
  s ← getS;
  let size := u32 (npages * PAGE_SIZE) in
  if lastpaddr s <? u32 (firstpaddr s + size) then mret 0
  else
    modify (set_ram (u32 (firstpaddr s + size)) (lastpaddr s));;
    mret (firstpaddr s).

Definition ram_getsize : M cmstate (Z * Z) :=
  s ← getS; modify (set_ram 0 0);; mret (firstpaddr s, lastpaddr s).

(** ** coremap.c *)
Definition roundUp (numToRound multiple : Z) : Z :=
  Z.land (u32 (numToRound + multiple - 1)) (u32 (Z.lnot (multiple - 1))).

(** [coremap[i]] and [coremap[i] = e]. *)
Definition rd (i : Z) : M cmstate cm_entry := s ← getS; of_opt (zget (coremap s) i).
Definition wr (i : Z) (e : cm_entry) : M cmstate unit :=
  s ← getS; l ← of_opt (zset i e (coremap s)); modify (set_coremap l).

Definition free_entry : cm_entry := CmEntry 0 false false.

Definition init_coremap : M cmstate unit :=
  n ← gets cm_entries; for_do (Z.to_nat n) 0 (λ i, wr i free_entry).

Definition sizeof_cm_entry : Z := 4.

(** [boot i] is what the memory of entry [i] holds before it is initialised. *)
Definition coremap_bootstrap (boot : nat → cm_entry) : M cmstate Z :=
  '(first, last) ← ram_getsize;
  let total_pages := u32 (last - first) / PAGE_SIZE in
  let coremap_size := roundUp (u32 (total_pages * sizeof_cm_entry)) PAGE_SIZE in
  modify (set_coremap (boot <$> seq 0 (Z.to_nat (coremap_size / sizeof_cm_entry))));;
  let first := u32 (first + coremap_size) in
  let first := if negb (first mod PAGE_SIZE =? 0)
               then u32 (Z.land first PAGE_FRAME + PAGE_SIZE) else first in
  s ← getS;
  modify (set_layout (u32 (last / PAGE_SIZE - first / PAGE_SIZE)) (cm_lastentry s) first);;
  init_coremap;;
  s ← getS;
  modify (set_layout (cm_entries s) 0 (freespace s));;
  mret first.

Definition getindex (paddr : Z) : M cmstate Z :=
  f ← gets freespace; mret (s32 (u32 (paddr - f) / PAGE_SIZE)).

Definition indextopaddr (index : Z) : M cmstate Z :=
  f ← gets freespace; mret (u32 (index * PAGE_SIZE + f)).

Definition addtocoremap (paddr npages : Z) (iskern : bool) : M cmstate unit :=
  index ← getindex paddr;
  for_do (Z.to_nat npages) 0
    (λ i, wr (index + i) (CmEntry (wrapu 17 npages) iskern true)).

Fixpoint removefromcoremap_loop (fuel : nat) (i index : Z) : M cmstate unit :=
  match fuel with
  | O => diverge
  | S fuel =>
      e ← rd index;
      if i <? chunk_cnt e then
        wr index free_entry;; removefromcoremap_loop fuel (i + 1) (index + 1)
      else mret tt
  end.

(** The loop reads a further entry on every round, so that it has stopped, or
    left the array, before it has made as many rounds as the array is long. *)
Definition removefromcoremap (paddr : Z) : M cmstate unit :=
  index ← getindex paddr;
  s ← getS;
  removefromcoremap_loop (S (length (coremap s))) 0 index.

Fixpoint getpaddr_loop (n : nat) (i count npages : Z) : M cmstate Z :=
  match n with
  | O => mret 0
  | S n =>
      e ← rd i;
      if negb (is_allocated e) then
        let count := count + 1 in
        if count =? npages then indextopaddr (s32 (u32 (i - count + 1)))
        else getpaddr_loop n (i + 1) count npages
      else getpaddr_loop n (i + 1) 0 npages
  end.

Definition getpaddr (npages : Z) : M cmstate Z :=
  n ← gets cm_entries; getpaddr_loop (Z.to_nat n) 0 0 npages.

(** ** vm.c *)
Definition vm_bootstrap (boot : nat → cm_entry) : M cmstate Z := coremap_bootstrap boot.

Definition alloc_kpages (npages : Z) : M cmstate Z :=
  slock_acquire;;
  paddr ← getpaddr npages;
  if (paddr =? 0) || (npages =? 0) then slock_release;; mret 0
  else
    addtocoremap paddr npages true;;
    slock_release;;
    mret (PADDR_TO_KVADDR paddr).

(** The code for one user page that [page_alloc], [vm_fault],
    [as_prepare_load] and [as_copy] each contain: take the lock, find a page,
    mark it; 0 when there is none. *)
Definition alloc_upage : M cmstate Z :=
  slock_acquire;;
  paddr ← getpaddr 1;
  if paddr =? 0 then slock_release;; mret 0
  else addtocoremap paddr 1 false;; slock_release;; mret paddr.

Definition page_free (paddr : Z) : M cmstate unit :=
  slock_acquire;; removefromcoremap paddr;; slock_release.

Definition free_kpages (vaddr : Z) : M cmstate unit :=
  slock_acquire;; removefromcoremap (KVADDR_TO_PADDR vaddr);; slock_release.

(** ** Abstract view: a sequence of free pages and allocated chunks *)
Inductive seg := Free | Used (n : nat) (kern : bool).
#[export] Instance seg_eq_dec : EqDecision seg.
Proof. solve_decision. Defined.

Definition seg_entries (g : seg) : list cm_entry :=
  match g with
  | Free => [free_entry]
  | Used n k => replicate n (CmEntry (Z.of_nat n) k true)
  end.
Definition flat (gs : list seg) : list cm_entry := gs ≫= seg_entries.
Definition seg_ok (g : seg) : Prop :=
  match g with Free => True | Used n _ => (0 < n)%nat ∧ Z.of_nat n < 2 ^ 17 end.

(** The lock is free and the CPU is in the state outside critical sections. *)
Definition unlocked (s : cmstate) : Prop :=
  coremap_slock s = spinlock_init ∧ c_exists (cm_cpu s) = true ∧
  t_iplhigh_count (cm_cpu s) = 0 ∧ irq_on (cm_cpu s) = true.

(** Where the managed pages lie: after physical page 0, below the 508 MB that
    [ram_bootstrap] limits the machine to. *)
Definition layout_ok (s : cmstate) : Prop :=
  0 < freespace s ∧ freespace s mod PAGE_SIZE = 0 ∧
  0 ≤ cm_entries s ∧ freespace s + cm_entries s * PAGE_SIZE ≤ 508 * 1024 * 1024.

(** [slack] is the part of the array past the entries in use. *)
Record cm_rep (s : cmstate) (gs : list seg) (slack : list cm_entry) : Prop := {
  rep_segs : Forall seg_ok gs;
  rep_map : coremap s = flat gs ++ slack;
  rep_slack : slack ≠ [];
  rep_len : cm_entries s = Z.of_nat (length (flat gs));
  rep_layout : layout_ok s;
  rep_unlocked : unlocked s;
}.

(** Entries [k .. k+n-1] exist and are free. *)
Definition run_free (l : list cm_entry) (k n : nat) : Prop :=
  ∀ j, (k ≤ j < k + n)%nat → ∃ e, l !! j = Some e ∧ is_allocated e = false.

(** *** Lists of segments *)
Lemma flat_app gs gs' : flat (gs ++ gs') = flat gs ++ flat gs'.
Proof. apply bind_app. Qed.
Lemma flat_cons g gs : flat (g :: gs) = seg_entries g ++ flat gs.
Proof. done. Qed.
Lemma flat_replicate_Free n : flat (replicate n Free) = replicate n free_entry.
Proof. induction n as [|n IH]; [done|]. simpl replicate. by rewrite flat_cons, IH. Qed.

Lemma flat_free_split gs k e :
  Forall seg_ok gs → flat gs !! k = Some e → is_allocated e = false →
  ∃ gs1 gs2, gs = gs1 ++ Free :: gs2 ∧ length (flat gs1) = k.
Proof.
  intros Hok. revert k. induction Hok as [|g gs Hg Hgs IH]; intros k Hk He; [done|].
  rewrite flat_cons in Hk. destruct (decide (k < length (seg_entries g))%nat) as [Hlt|].
  - rewrite lookup_app_l in Hk by done. destruct g as [|n kr]; simpl in *.
    + exists [], gs. split; [done|]. simpl. lia.
    + apply lookup_replicate in Hk as [-> _]. done.
  - rewrite lookup_app_r in Hk by lia.
    destruct (IH _ Hk He) as (gs1 & gs2 & -> & Hl).
    exists (g :: gs1), gs2. split; [done|]. rewrite flat_cons, length_app. lia.
Qed.

Lemma flat_run_split gs k n :
  Forall seg_ok gs → run_free (flat gs) k (S n) →
  ∃ gs1 gs2, gs = gs1 ++ replicate (S n) Free ++ gs2 ∧ length (flat gs1) = k.
Proof.
  intros Hok. revert gs k Hok. induction n as [|n IH]; intros gs k Hok Hr.
  - destruct (Hr k ltac:(lia)) as (e & He & Ha). by eapply flat_free_split.
  - destruct (IH gs (S k) Hok) as (gs1 & gs2 & Hgs & Hl).
    { intros j Hj. apply Hr. lia. }
    destruct (Hr k ltac:(lia)) as (e & He & Ha).
    assert (flat gs1 !! k = Some e) as He1.
    { rewrite Hgs, flat_app, lookup_app_l in He by lia. done. }
    destruct (flat_free_split gs1 k e) as (ga & gb & Hga & Hla); [|done..|].
    { subst gs. by apply Forall_app in Hok as [? _]. }
    assert (gb = []) as ->.
    { subst gs1. rewrite flat_app, flat_cons, !length_app in Hl. simpl in Hl.
      assert (length (flat gb) = 0)%nat as Hz by lia.
      destruct gb as [|[|m kr] gb]; [done|simpl in Hz; lia|].
      subst gs. apply Forall_app in Hok as [Hok _]. apply Forall_app in Hok as [_ Hok].
      apply Forall_cons_1 in Hok as [_ Hok]. apply Forall_cons_1 in Hok as [Hok _].
      rewrite flat_cons, length_app in Hz. simpl in *. rewrite length_replicate in Hz. lia. }
    exists ga, gs2. split; [|done]. subst gs gs1.
    rewrite <-app_assoc. simpl. done.
Qed.

(** *** Writes of consecutive entries *)
Lemma wp_wr i e (Q : unit → cmstate → Prop) s :
  0 ≤ i < Z.of_nat (length (coremap s)) →
  Q tt (set_coremap (<[Z.to_nat i := e]> (coremap s)) s) → wp (wr i e) Q s.
Proof. intros Hi HQ. unfold wr. wp_steps. by rewrite zset_Some by done. Qed.

Lemma wp_rd i e (Q : cm_entry → cmstate → Prop) s :
  zget (coremap s) i = Some e → Q e s → wp (rd i) Q s.
Proof. intros Hi HQ. unfold rd. wp_steps. by eapply wp_of_opt. Qed.

Lemma set_coremap_twice l l' s : set_coremap l (set_coremap l' s) = set_coremap l s.
Proof. done. Qed.

(** A loop that writes [e] over the entries from [index] on. *)
Lemma wp_fill (pre mid post : list cm_entry) e index s (Q : unit → cmstate → Prop) :
  coremap s = pre ++ mid ++ post → index = Z.of_nat (length pre) →
  Q tt (set_coremap (pre ++ replicate (length mid) e ++ post) s) →
  wp (for_do (length mid) 0 (λ i, wr (index + i) e)) Q s.
Proof.
  intros Hs -> HQ.
  eapply (wp_for_do (λ i s', ∃ m : nat, i = Z.of_nat m ∧ (m ≤ length mid)%nat ∧
    s' = set_coremap (pre ++ replicate m e ++ drop m mid ++ post) s)).
  - exists 0%nat. split_and!; [done|lia|]. simpl. rewrite drop_0, <-Hs. by destruct s.
  - intros j s' Hj (m & -> & Hm & ->).
    assert (m < length mid)%nat by lia.
    destruct (drop m mid) as [|y rest] eqn:Hd.
    { apply (f_equal length) in Hd. rewrite length_drop in Hd. simpl in Hd. lia. }
    apply wp_wr; simpl.
    { rewrite !length_app, length_replicate. simpl. lia. }
    exists (S m). split_and!; [lia|lia|]. rewrite set_coremap_twice. f_equal.
    replace (Z.to_nat (Z.of_nat (length pre) + Z.of_nat m)) with
      (length (pre ++ replicate m e)) by (rewrite length_app, length_replicate; lia).
    simpl. rewrite app_assoc, insert_mid, <-app_assoc.
    replace (drop (S m) mid) with rest.
    + f_equal. replace (e :: replicate m e ++ rest ++ post)
        with ((e :: replicate m e) ++ rest ++ post) by done.
      change (e :: replicate m e) with (replicate (S m) e). rewrite replicate_S_end.
      by rewrite <-app_assoc.
    + replace (S m) with (m + 1)%nat by lia. by rewrite <-drop_drop, Hd.
  - intros s' (m & Hm & Hm' & ->). assert (m = length mid) as -> by lia.
    by rewrite drop_all.
Qed.

(** *** The critical sections *)
(** [s] inside the critical section of [coremap_slock]. *)
Definition lock_st (s : cmstate) : cmstate :=
  CmState (CpuState true (c_self (cm_cpu s)) false 1 (t_curspl (cm_cpu s)))
    (Spinlock true (Some (c_self (cm_cpu s)))) (firstpaddr s) (lastpaddr s) (coremap s)
    (cm_entries s) (cm_lastentry s) (freespace s).

Lemma wp_slock_acquire (Q : unit → cmstate → Prop) s :
  unlocked s → Q tt (lock_st s) → wp slock_acquire Q s.
Proof.
  destruct s as [[ex me irq n cur] lk ? ? ? ? ? ?]. intros (Hk & He & Hn & Hi) HQ.
  simpl in *. subst. done.
Qed.

Lemma wp_slock_release (Q : unit → cmstate → Prop) s :
  unlocked s → Q tt s → wp slock_release Q (lock_st s).
Proof.
  destruct s as [[ex me irq n cur] lk ? ? ? ? ? ?]. intros (Hk & He & Hn & Hi) HQ.
  simpl in *. subst. unfold wp, slock_release, zoom, spinlock_release, spllower. m_simpl.
  rewrite bool_decide_true by done. simpl. done.
Qed.

(** *** [getpaddr] is a first-fit search *)
(** What [getpaddr] finds in entries [l]: the lowest start of [n] free entries. *)
Definition first_run (l : list cm_entry) (n k : nat) : Prop :=
  run_free l k n ∧ ∀ k', (k' < k)%nat → ¬ run_free l k' n.

Lemma run_free_app l l' k n : (k + n ≤ length l)%nat → run_free (l ++ l') k n ↔ run_free l k n.
Proof.
  intros Hl. unfold run_free. split; intros H j Hj; specialize (H j Hj);
    (rewrite lookup_app_l in * by lia); done.
Qed.

Lemma run_free_bound l k n : run_free l k (S n) → (k + S n ≤ length l)%nat.
Proof.
  intros Hr. destruct (Hr (k + n)%nat ltac:(lia)) as (e & He & _).
  apply lookup_lt_Some in He. lia.
Qed.

Lemma wp_getpaddr_loop (l : list cm_entry) (s : cmstate) n m i c (Q : Z → cmstate → Prop) :
  coremap s = l → (i + m ≤ length l)%nat → (c ≤ i)%nat → (c < n)%nat →
  Z.of_nat (i + m) < 2 ^ 31 →
  run_free l (i - c) c →
  (c = i ∨ ∃ e, l !! (i - c - 1)%nat = Some e ∧ is_allocated e = true) →
  (∀ k, (k + n ≤ i)%nat → ¬ run_free l k n) →
  (∀ k, (k + n ≤ i + m)%nat → first_run l n k →
     Q (u32 (Z.of_nat k * PAGE_SIZE + freespace s)) s) →
  ((∀ k, (k + n ≤ i + m)%nat → ¬ run_free l k n) → Q 0 s) →
  wp (getpaddr_loop m (Z.of_nat i) (Z.of_nat c) (Z.of_nat n)) Q s.
Proof.
  intros Hl. revert i c. induction m as [|m IH]; intros i c Hm Hci Hcn Hbig Hrun Hmax Hnone HQ HQ0;
    cbn [getpaddr_loop].
  { apply wp_ret, HQ0. intros k Hk. apply Hnone. lia. }
  apply wp_bind_2. destruct (lookup_lt_is_Some_2 l i ltac:(lia)) as [e He].
  apply wp_rd with e; [by rewrite Hl, zget_nat|].
  destruct (is_allocated e) eqn:Ha; simpl.
  - replace (Z.of_nat i + 1) with (Z.of_nat (S i)) by lia. change 0 with (Z.of_nat 0).
    apply IH; try lia; [intros j Hj; lia|right; exists e; by replace (S i - 0 - 1)%nat with i by lia| | |].
    + intros k Hk Hr. destruct (decide (k + n ≤ i)%nat); [by eapply Hnone|].
      destruct (Hr i ltac:(lia)) as (e' & He' & Ha'). congruence.
    + intros k Hk. apply HQ. lia.
    + intros H. apply HQ0. intros k Hk. apply H. lia.
  - assert (run_free l (i - c) (S c)) as Hrun'.
    { intros j Hj. destruct (decide (j = i)) as [->|]; [by exists e|]. apply Hrun. lia. }
    assert (∀ k, (k < i - c)%nat → (S i ≤ k + n)%nat → ¬ run_free l k n) as Hless.
    { intros k Hk Hkn Hr. destruct Hmax as [->|(e' & He' & Ha')]; [lia|].
      destruct (Hr (i - c - 1)%nat ltac:(lia)) as (e'' & He'' & Ha''). congruence. }
    destruct (Z.eqb_spec (Z.of_nat c + 1) (Z.of_nat n)) as [Heq|Hne].
    + unfold indextopaddr. wp_steps.
      replace (Z.of_nat i - (Z.of_nat c + 1) + 1) with (Z.of_nat (i - c)) by lia.
      rewrite (u32_id (Z.of_nat (i - c))), s32_id by lia. apply HQ; [lia|].
      replace n with (S c) by lia. split; [done|]. intros k' Hk' Hr.
      destruct (decide (k' + n ≤ i)%nat); [by apply (Hnone k'); [lia|replace n with (S c) by lia]|].
      apply (Hless k'); [done|lia|by replace n with (S c) by lia].
    + replace (Z.of_nat i + 1) with (Z.of_nat (S i)) by lia.
      replace (Z.of_nat c + 1) with (Z.of_nat (S c)) by lia.
      apply IH; try lia; [|destruct Hmax as [->|Hmax]; [by left|right]| | |].
      * by replace (S i - S c)%nat with (i - c)%nat by lia.
      * by replace (S i - S c - 1)%nat with (i - c - 1)%nat by lia.
      * intros k Hk Hr. destruct (decide (k + n ≤ i)%nat); [by eapply Hnone|].
        apply (Hless k); [lia|lia|done].
      * intros k Hk. apply HQ. lia.
      * intros H. apply HQ0. intros k Hk. apply H. lia.
Qed.

(** [getpaddr] on a represented coremap. *)
Lemma wp_getpaddr s gs slack n (Q : Z → cmstate → Prop) :
  cm_rep s gs slack → (0 < n)%nat →
  (∀ k, (k + n ≤ length (flat gs))%nat → first_run (flat gs) n k →
     Q (freespace s + Z.of_nat k * PAGE_SIZE) (lock_st s)) →
  ((∀ k, ¬ run_free (flat gs) k n) → Q 0 (lock_st s)) →
  wp (getpaddr (Z.of_nat n)) Q (lock_st s).
Proof.
  intros [Hsegs Hmap Hslack Hlen (Hf & Ha & Hpos & Hlim) _] Hn HQ HQ0.
  unfold PAGE_SIZE in *. unfold getpaddr. wp_steps. simpl. rewrite Hlen, Nat2Z.id.
  change 0 with (Z.of_nat 0).
  apply wp_getpaddr_loop with (l := flat gs ++ slack);
    [done|rewrite length_app; lia|lia|lia|lia|intros j Hj; lia|by left|intros; lia| |].
  - intros k Hk [Hr Hmin]. simpl.
    replace (Z.of_nat k * PAGE_SIZE + freespace s) with (freespace s + Z.of_nat k * PAGE_SIZE) by lia.
    rewrite u32_id by (unfold PAGE_SIZE; lia). apply HQ; [lia|].
    split; [by apply run_free_app in Hr; [|lia]|].
    intros k' Hk' Hr'. apply (Hmin k'); [done|]. apply run_free_app; [lia|done].
  - intros Hno. apply HQ0. intros k Hr. destruct n as [|n]; [lia|].
    pose proof (run_free_bound _ _ _ Hr). apply (Hno k); [lia|]. apply run_free_app; [lia|done].
Qed.

(** *** Marking and unmarking chunks *)
Lemma wp_getindex s k (Q : Z → cmstate → Prop) :
  layout_ok s → Z.of_nat k ≤ cm_entries s → Q (Z.of_nat k) (lock_st s) →
  wp (getindex (freespace s + Z.of_nat k * PAGE_SIZE)) Q (lock_st s).
Proof.
  intros (Hf & Ha & Hpos & Hlim) Hk HQ. unfold getindex. wp_steps. simpl. unfold PAGE_SIZE in *.
  replace (freespace s + Z.of_nat k * 4096 - freespace s) with (Z.of_nat k * 4096) by lia.
  by rewrite u32_id, Z.div_mul, s32_id by lia.
Qed.

Lemma cm_rep_limit s gs slack : cm_rep s gs slack → Z.of_nat (length (flat gs)) ≤ 130048.
Proof. intros [_ _ _ Hl (Hf & Ha & Hpos & Hlim) _]. unfold PAGE_SIZE in *. lia. Qed.

Lemma wp_addtocoremap s gs1 gs2 slack n kern (Q : unit → cmstate → Prop) :
  cm_rep s (gs1 ++ replicate n Free ++ gs2) slack → (0 < n)%nat →
  (let gs' := gs1 ++ Used n kern :: gs2 in
   let s' := set_coremap (flat gs' ++ slack) s in cm_rep s' gs' slack → Q tt (lock_st s')) →
  wp (addtocoremap (freespace s + Z.of_nat (length (flat gs1)) * PAGE_SIZE) (Z.of_nat n) kern)
    Q (lock_st s).
Proof.
  intros Hrep Hn HQ. pose proof (cm_rep_limit _ _ _ Hrep) as Hlim.
  rewrite !flat_app, flat_replicate_Free, !length_app, length_replicate in Hlim.
  destruct Hrep as [Hsegs Hmap Hslack Hlen Hlay Hun].
  rewrite !flat_app, flat_replicate_Free, ?length_app, ?length_replicate in Hlen.
  rewrite !flat_app, flat_replicate_Free, <-!app_assoc in Hmap.
  unfold addtocoremap. apply wp_bind_2. apply wp_getindex; [done|lia|].
  rewrite Nat2Z.id, wrapu_id by lia.
  rewrite <-(length_replicate n free_entry) at 1.
  eapply wp_fill; [exact Hmap|done|]. rewrite length_replicate.
  replace (flat gs1 ++ replicate n (CmEntry (Z.of_nat n) kern true) ++ flat gs2 ++ slack)
    with (flat (gs1 ++ Used n kern :: gs2) ++ slack)
    by (by rewrite flat_app, flat_cons, <-!app_assoc).
  apply HQ. constructor; try done.
  - rewrite !Forall_app, Forall_cons in *. destruct Hsegs as (? & _ & ?).
    split_and!; [done| |done]. simpl. lia.
  - simpl. rewrite flat_app, flat_cons, !length_app. simpl. rewrite length_replicate. lia.
Qed.

(** How many entries of [l] the loop of [removefromcoremap] clears when it
    starts with counter [i]; [None] when it runs off the array. *)
Fixpoint cleared (i : Z) (l : list cm_entry) : option nat :=
  match l with
  | [] => None
  | e :: l => if i <? chunk_cnt e then S <$> cleared (i + 1) l else Some 0%nat
  end.

Lemma removefromcoremap_loop_eq pre post i fuel s :
  coremap s = pre ++ post → (length post < fuel)%nat →
  removefromcoremap_loop fuel i (Z.of_nat (length pre)) s =
  match cleared i post with
  | Some m => Ok (tt, set_coremap (pre ++ replicate m free_entry ++ drop m post) s)
  | None => Undef
  end.
Proof.
  revert pre i fuel s. induction post as [|e post IH]; intros pre i fuel s Hs Hf;
    destruct fuel as [|fuel]; simpl in Hf; try lia; cbn [removefromcoremap_loop cleared].
  - unfold rd. m_simpl. rewrite zget_nat, Hs, app_nil_r.
    by rewrite lookup_ge_None_2 by done.
  - unfold rd, wr. m_simpl. rewrite zget_nat, Hs, list_lookup_middle by done. simpl.
    destruct (i <? chunk_cnt e) eqn:Ei.
    + rewrite Hs, zset_nat by (rewrite length_app; simpl; lia). rewrite insert_mid.
      replace (Z.of_nat (length pre) + 1) with (Z.of_nat (length (pre ++ [free_entry])))
        by (rewrite length_app; simpl; lia).
      rewrite (IH (pre ++ [free_entry])); [|simpl; by rewrite <-app_assoc|lia].
      destruct (cleared (i + 1) post) as [m|]; simpl; [|done].
      by rewrite set_coremap_twice, <-app_assoc.
    + rewrite drop_0. simpl. rewrite <-Hs. by destruct s.
Qed.

Lemma cleared_replicate a c k i rest :
  i + Z.of_nat a ≤ c →
  cleared i (replicate a (CmEntry c k true) ++ rest) = Nat.add a <$> cleared (i + Z.of_nat a) rest.
Proof.
  revert i. induction a as [|a IH]; intros i Hi; simpl.
  - rewrite Z.add_0_r. by destruct (cleared i rest).
  - rewrite (proj2 (Z.ltb_lt _ _)) by lia. rewrite IH by lia.
    replace (i + 1 + Z.of_nat a) with (i + Z.of_nat (S a)) by lia.
    by destruct (cleared _ rest).
Qed.

Lemma cleared_chunk n k rest e :
  head rest = Some e → chunk_cnt e ≤ Z.of_nat n →
  cleared 0 (replicate n (CmEntry (Z.of_nat n) k true) ++ rest) = Some n.
Proof.
  intros Hr He. rewrite cleared_replicate by lia. destruct rest as [|e' rest]; simplify_eq/=.
  rewrite (proj2 (Z.ltb_ge _ _)) by lia. simpl. f_equal. lia.
Qed.

(** The same when the next chunk is larger. *)
Lemma replicate_split {A} n m (x : A) :
  (n ≤ m)%nat → replicate m x = replicate (m - n) x ++ replicate n x.
Proof. intros. rewrite <-replicate_add. f_equal. lia. Qed.

Lemma cleared_overrun n k m k' rest :
  (0 < n < m)%nat →
  cleared 0 (replicate n (CmEntry (Z.of_nat n) k true) ++
             replicate m (CmEntry (Z.of_nat m) k' true) ++ rest) = Some m.
Proof.
  intros Hn. rewrite (replicate_split n m) by lia. rewrite <-app_assoc, !cleared_replicate by lia.
  destruct n as [|n]; [lia|]. simpl. rewrite (proj2 (Z.ltb_ge _ _)) by lia. simpl. f_equal. lia.
Qed.

Lemma drop_overrun {A} n m (x y : A) rest :
  (n ≤ m)%nat → drop m (replicate n x ++ replicate m y ++ rest) = replicate n y ++ rest.
Proof.
  intros. rewrite (replicate_split n m y) by done. rewrite <-app_assoc, app_assoc.
  apply drop_app_length'. rewrite length_app, !length_replicate. lia.
Qed.

Lemma cm_rep_seg s gs1 g gs2 slack : cm_rep s (gs1 ++ g :: gs2) slack → seg_ok g.
Proof. intros [H _ _ _ _ _]. rewrite Forall_app, Forall_cons in H. naive_solver. Qed.

Lemma cm_rep_free s gs1 n k gs2 slack :
  cm_rep s (gs1 ++ Used n k :: gs2) slack →
  let gs' := gs1 ++ replicate n Free ++ gs2 in
  cm_rep (set_coremap (flat gs' ++ slack) s) gs' slack.
Proof.
  intros [Hsegs Hmap Hslack Hlen Hlay Hun]. constructor; try done.
  - rewrite !Forall_app, Forall_cons in *. destruct Hsegs as (? & _ & ?).
    split_and!; [done| |done]. by apply Forall_replicate.
  - simpl. rewrite Hlen, !flat_app, flat_cons, flat_replicate_Free, !length_app. simpl.
    rewrite !length_replicate. done.
Qed.

Lemma wp_removefromcoremap s gs1 n k gs2 slack e (Q : unit → cmstate → Prop) :
  cm_rep s (gs1 ++ Used n k :: gs2) slack →
  head (flat gs2 ++ slack) = Some e → chunk_cnt e ≤ Z.of_nat n →
  (let gs' := gs1 ++ replicate n Free ++ gs2 in
   let s' := set_coremap (flat gs' ++ slack) s in cm_rep s' gs' slack → Q tt (lock_st s')) →
  wp (removefromcoremap (freespace s + Z.of_nat (length (flat gs1)) * PAGE_SIZE)) Q (lock_st s).
Proof.
  intros Hrep He Hle HQ. pose proof (cm_rep_free _ _ _ _ _ _ Hrep) as Hrep'.
  destruct Hrep as [Hsegs Hmap Hslack Hlen Hlay Hun]. unfold removefromcoremap.
  rewrite flat_app, flat_cons, !length_app in Hlen. simpl in Hlen.
  apply wp_bind_2. apply wp_getindex; [done|lia|]. wp_steps.
  rewrite flat_app, flat_cons, <-!app_assoc in Hmap. simpl in Hmap.
  unfold wp. rewrite (removefromcoremap_loop_eq _ _ _ _ (lock_st s) Hmap)
    by (simpl; rewrite Hmap, (length_app (flat gs1)); lia).
  rewrite (cleared_chunk n k (flat gs2 ++ slack) e He Hle).
  rewrite drop_app_length' by (by rewrite length_replicate).
  replace (flat gs1 ++ replicate n free_entry ++ flat gs2 ++ slack)
    with (flat (gs1 ++ replicate n Free ++ gs2) ++ slack)
    by (by rewrite !flat_app, flat_replicate_Free, <-!app_assoc).
  by apply HQ.
Qed.

(** *** The entry points *)
Lemma paddr_nonzero s k : layout_ok s → 0 ≤ k ≤ cm_entries s →
  0 < freespace s + k * PAGE_SIZE < 2 ^ 31.
Proof. intros (Hf & Ha & Hpos & Hlim) Hk. unfold PAGE_SIZE in *. lia. Qed.

(** The part the two allocating entry points have in common. *)
Lemma wp_alloc_chunk {A} (r0 : A) (f : Z → A) s gs slack n kern (Q : A → cmstate → Prop) :
  cm_rep s gs slack → (0 < n)%nat →
  (∀ gs1 gs2, gs = gs1 ++ replicate n Free ++ gs2 →
     first_run (flat gs) n (length (flat gs1)) →
     let gs' := gs1 ++ Used n kern :: gs2 in
     let s' := set_coremap (flat gs' ++ slack) s in
     cm_rep s' gs' slack →
     Q (f (freespace s + Z.of_nat (length (flat gs1)) * PAGE_SIZE)) s') →
  ((∀ k, ¬ run_free (flat gs) k n) → Q r0 s) →
  wp (slock_acquire;;
      paddr ← getpaddr (Z.of_nat n);
      if (paddr =? 0) || (Z.of_nat n =? 0) then slock_release;; mret r0
      else addtocoremap paddr (Z.of_nat n) kern;; slock_release;; mret (f paddr)) Q s.
Proof.
  intros Hrep Hn HQ HQ0. pose proof (rep_unlocked _ _ _ Hrep) as Hun.
  apply wp_bind_2. apply wp_slock_acquire; [done|]. apply wp_bind_2.
  rewrite (proj2 (Z.eqb_neq (Z.of_nat n) 0)) by lia.
  eapply wp_getpaddr; [done..| |].
  - intros k Hk Hfirst. destruct n as [|n]; [lia|].
    destruct (flat_run_split gs k n) as (gs1 & gs2 & Hgs & Hlen);
      [apply Hrep|apply Hfirst|]. subst k.
    pose proof (paddr_nonzero s (Z.of_nat (length (flat gs1)))) as Hnz.
    rewrite (rep_len _ _ _ Hrep) in Hnz.
    rewrite (proj2 (Z.eqb_neq _ _)) by (destruct Hnz; [apply Hrep|lia|lia]). simpl orb. cbv iota.
    apply wp_bind_2. subst gs. eapply wp_addtocoremap; [done|lia|].
    intros gs' s' Hrep'. apply wp_bind_2. apply wp_slock_release; [apply Hrep'|].
    apply wp_ret. by apply HQ.
  - intros Hno. simpl. apply wp_bind_2. apply wp_slock_release; [done|].
    apply wp_ret. by apply HQ0.
Qed.

Lemma wp_alloc_kpages s gs slack n (Q : Z → cmstate → Prop) :
  cm_rep s gs slack → (0 < n)%nat →
  (∀ gs1 gs2, gs = gs1 ++ replicate n Free ++ gs2 →
     first_run (flat gs) n (length (flat gs1)) →
     let gs' := gs1 ++ Used n true :: gs2 in
     let s' := set_coremap (flat gs' ++ slack) s in
     cm_rep s' gs' slack →
     Q (PADDR_TO_KVADDR (freespace s + Z.of_nat (length (flat gs1)) * PAGE_SIZE)) s') →
  ((∀ k, ¬ run_free (flat gs) k n) → Q 0 s) →
  wp (alloc_kpages (Z.of_nat n)) Q s.
Proof. apply (wp_alloc_chunk 0 PADDR_TO_KVADDR). Qed.

Lemma wp_alloc_upage s gs slack (Q : Z → cmstate → Prop) :
  cm_rep s gs slack →
  (∀ gs1 gs2, gs = gs1 ++ Free :: gs2 →
     let gs' := gs1 ++ Used 1 false :: gs2 in
     let s' := set_coremap (flat gs' ++ slack) s in
     cm_rep s' gs' slack →
     Q (freespace s + Z.of_nat (length (flat gs1)) * PAGE_SIZE) s') →
  (Free ∉ gs → Q 0 s) →
  wp alloc_upage Q s.
Proof.
  intros Hrep HQ HQ0.
  eapply wp_ext; [|eapply (wp_alloc_chunk 0 id s gs slack 1 false); [done|lia| |]].
  - intros t. unfold alloc_upage. change (Z.of_nat 1) with 1. m_simpl. destruct (slock_acquire t) as [[? t']| | |]; [|done..].
    destruct (getpaddr 1 t') as [[p t'']| | |]; [|done..]. by rewrite orb_false_r.
  - intros gs1 gs2 Hgs _. by apply HQ.
  - intros Hno. apply HQ0. intros (gs1 & gs2 & ->)%list_elem_of_split.
    apply (Hno (length (flat gs1))). intros j Hj. exists free_entry. split; [|done].
    rewrite flat_app, flat_cons. assert (j = length (flat gs1)) as -> by lia.
    by apply list_lookup_middle.
Qed.

(** Freeing: the chunk must not be followed by a larger one. *)
Lemma wp_page_free s gs1 n k gs2 slack e (Q : unit → cmstate → Prop) :
  cm_rep s (gs1 ++ Used n k :: gs2) slack →
  head (flat gs2 ++ slack) = Some e → chunk_cnt e ≤ Z.of_nat n →
  (let gs' := gs1 ++ replicate n Free ++ gs2 in
   let s' := set_coremap (flat gs' ++ slack) s in cm_rep s' gs' slack → Q tt s') →
  wp (page_free (freespace s + Z.of_nat (length (flat gs1)) * PAGE_SIZE)) Q s.
Proof.
  intros Hrep He Hle HQ. unfold page_free.
  apply wp_bind_2. apply wp_slock_acquire; [apply Hrep|]. apply wp_bind_2.
  eapply wp_removefromcoremap; [done..|]. intros gs' s' Hrep'.
  apply wp_slock_release; [apply Hrep'|]. by apply HQ.
Qed.

Lemma free_kpages_page_free p s :
  0 ≤ p < 2 ^ 32 → free_kpages (PADDR_TO_KVADDR p) s = page_free p s.
Proof. intros Hp. unfold free_kpages, page_free. by rewrite kvaddr_paddr. Qed.

(** *** Boot *)
Lemma roundUp_page x :
  0 ≤ x < 2 ^ 31 → roundUp x PAGE_SIZE = (x + 4095) / 4096 * 4096.
Proof.
  intros Hx. unfold roundUp. change (u32 (Z.lnot (PAGE_SIZE - 1))) with PAGE_FRAME.
  unfold PAGE_SIZE at 1. rewrite u32_id, land_PAGE_FRAME by lia. unfold PAGE_SIZE.
  replace (x + 4096 - 1) with (x + 4095) by lia.
  pose proof (Z.div_mod (x + 4095) 4096). lia.
Qed.

Lemma wp_init_coremap l slack s (Q : unit → cmstate → Prop) :
  coremap s = l ++ slack → cm_entries s = Z.of_nat (length l) →
  Q tt (set_coremap (replicate (length l) free_entry ++ slack) s) → wp init_coremap Q s.
Proof.
  intros Hl Hn HQ. unfold init_coremap. wp_steps. rewrite Hn, Nat2Z.id.
  by apply (wp_fill [] l slack free_entry 0).
Qed.

(** RAM as [ram_bootstrap] leaves it: page-aligned bounds below 508 MB. *)
Definition ram_ok (s : cmstate) : Prop :=
  0 < firstpaddr s < lastpaddr s ∧ lastpaddr s ≤ 508 * 1024 * 1024 ∧
  firstpaddr s mod PAGE_SIZE = 0 ∧ lastpaddr s mod PAGE_SIZE = 0.

(** Pages needed for a coremap that describes [t] pages. *)
Definition coremap_pages (t : Z) : Z := (t * sizeof_cm_entry + 4095) / 4096.

Lemma bootstrap_layout lo hi :
  0 < lo < hi → hi ≤ 508 * 1024 * 1024 → lo mod 4096 = 0 → hi mod 4096 = 0 →
  let t := (hi - lo) / 4096 in let c := coremap_pages t in
  hi - lo = t * 4096 ∧ 1 ≤ c ≤ t ∧ t ≤ 130047 ∧ t ≤ c * 1024 ∧
  hi / 4096 - (lo + c * 4096) / 4096 = t - c ∧ (lo + c * 4096) mod 4096 = 0.
Proof.
  intros H1 H2 Hlo Hhi t c. unfold c, coremap_pages, sizeof_cm_entry, t.
  rewrite Z.div_add by lia. rewrite Z_mod_plus_full.
  apply Z.div_exact in Hlo; [|lia]. apply Z.div_exact in Hhi; [|lia].
  assert (hi - lo = (hi / 4096 - lo / 4096) * 4096) as Ht by lia.
  rewrite Ht, Z.div_mul by lia.
  set (a := hi / 4096) in *. set (b := lo / 4096) in *.
  assert (((a - b) * 4 + 4095) / 4096 * 4096 ≤ (a - b) * 4 + 4095 <
    ((a - b) * 4 + 4095) / 4096 * 4096 + 4096)
    by (pose proof (Z.div_mod ((a - b) * 4 + 4095) 4096);
        pose proof (Z.mod_pos_bound ((a - b) * 4 + 4095) 4096); lia).
  split_and!; try lia. rewrite Hlo. fold b. rewrite Z.mul_comm. by apply Z_mod_mult.
Qed.

Lemma wp_coremap_bootstrap boot s :
  ram_ok s → unlocked s →
  wp (coremap_bootstrap boot) (λ r s', ∃ n slack,
    let t := (lastpaddr s - firstpaddr s) / 4096 in
    r = firstpaddr s + coremap_pages t * 4096 ∧ freespace s' = r ∧
    Z.of_nat n = t - coremap_pages t ∧ r + Z.of_nat n * PAGE_SIZE = lastpaddr s ∧
    cm_rep s' (replicate n Free) slack) s.
Proof.
  intros (Hr & Hm & Hlo & Hhi) Hun. unfold PAGE_SIZE in *.
  destruct (bootstrap_layout _ _ Hr Hm Hlo Hhi) as (Ht & Hc & Ht' & Hcap & Hn & Ha).
  set (lo := firstpaddr s) in *. set (hi := lastpaddr s) in *.
  set (t := (hi - lo) / 4096) in *. set (c := coremap_pages t) in *.
  unfold coremap_bootstrap, ram_getsize. wp_steps. fold lo hi.
  assert (roundUp (u32 (u32 (hi - lo) / PAGE_SIZE * sizeof_cm_entry)) PAGE_SIZE = c * 4096) as ->.
  { rewrite (u32_id (hi - lo)) by lia. change ((hi - lo) / PAGE_SIZE) with t.
    rewrite u32_id by (unfold sizeof_cm_entry; lia).
    by rewrite roundUp_page by (unfold sizeof_cm_entry; lia). }
  rewrite (u32_id (lo + c * 4096)) by lia. unfold PAGE_SIZE. rewrite Ha. simpl negb. cbv iota.
  rewrite Hn, (u32_id (t - c)) by lia.
  wp_steps. simpl.
  set (N := Z.to_nat (t - c)).
  set (l := boot <$> seq 0 (Z.to_nat (c * 4096 / sizeof_cm_entry))).
  assert (length l = Z.to_nat (c * 1024)) as Hlen.
  { unfold l, sizeof_cm_entry. rewrite length_fmap, length_seq. f_equal.
    replace (c * 4096) with (c * 1024 * 4) by lia. by rewrite Z.div_mul. }
  apply wp_init_coremap with (l := take N l) (slack := drop N l);
    [by rewrite take_drop|simpl; rewrite length_take; lia|].
  rewrite length_take_le by lia. wp_steps. simpl.
  exists N, (drop N l). split_and!; [lia|lia|lia|lia|]. constructor; simpl.
  - by apply Forall_replicate.
  - by rewrite flat_replicate_Free.
  - intros Hd. apply (f_equal length) in Hd. rewrite length_drop in Hd. simpl in Hd. lia.
  - rewrite flat_replicate_Free, length_replicate. lia.
  - split_and!; simpl; unfold PAGE_SIZE; try lia.
  - done.
Qed.

(** ** Properties *)

(** The chunk sizes that make every free exact: no chunk, and nothing in the
    unused tail of the array, counts more than [n] pages. *)
Definition at_most (n : nat) (gs : list seg) (slack : list cm_entry) : Prop :=
  Forall (λ g, match g with Free => True | Used m _ => (m ≤ n)%nat end) gs ∧
  Forall (λ e, chunk_cnt e ≤ Z.of_nat n) slack.

Lemma at_most_head n gs1 gs2 slack :
  at_most n (gs1 ++ gs2) slack → slack ≠ [] →
  ∃ e, head (flat gs2 ++ slack) = Some e ∧ chunk_cnt e ≤ Z.of_nat n.
Proof.
  intros [Hg Hs] Hne. apply Forall_app in Hg as [_ Hg].
  assert (Forall (λ e, chunk_cnt e ≤ Z.of_nat n) (flat gs2 ++ slack)) as Hall.
  { apply Forall_app. split; [|done]. induction Hg as [|g gs Hg _ IH]; [constructor|].
    rewrite flat_cons. apply Forall_app. split; [|done]. destruct g; simpl.
    - repeat constructor. simpl. lia.
    - apply Forall_replicate. simpl. lia. }
  destruct (flat gs2 ++ slack) as [|e l] eqn:E.
  { destruct slack; [done|]. by destruct (flat gs2). }
  apply Forall_cons_1 in Hall as [He _]. by exists e.
Qed.

(** *** Page-at-a-time view

    When every chunk is a single page the list of segments is the array of
    pages itself. This is the interface the address-space code relies on. *)
Definition pages (s : cmstate) (gs : list seg) : Prop :=
  ∃ slack, cm_rep s gs slack ∧ at_most 1 gs slack.

(** The physical address of managed page [i]. *)
Definition pgaddr (s : cmstate) (i : nat) : Z := freespace s + Z.of_nat i * PAGE_SIZE.

Lemma single_length gs slack : Forall seg_ok gs → at_most 1 gs slack → length (flat gs) = length gs.
Proof.
  intros Hok [Hm _]. induction Hok as [|g gs Hg _ IH]; [done|].
  apply Forall_cons_1 in Hm as [Hm1 Hm2]. rewrite flat_cons, length_app, IH by done.
  destruct g; simpl in *; [done|]. rewrite length_replicate. lia.
Qed.

Lemma at_most_app n gs1 gs2 slack :
  at_most n (gs1 ++ gs2) slack ↔ at_most n gs1 slack ∧ at_most n gs2 slack.
Proof. unfold at_most. rewrite Forall_app. tauto. Qed.

Lemma pages_split_length s gs1 g gs2 :
  pages s (gs1 ++ g :: gs2) → length (flat gs1) = length gs1.
Proof.
  intros (slack & [Hok _ _ _ _ _] & Hm). apply at_most_app in Hm as [Hm _].
  apply Forall_app in Hok as [Hok _]. by eapply single_length.
Qed.

Lemma pages_pgaddr s gs i : pages s gs → (i < length gs)%nat →
  0 < pgaddr s i < 2 ^ 31 ∧ pgaddr s i mod PAGE_SIZE = 0.
Proof.
  intros (slack & [Hok Hmap Hs Hl Hlay Hu] & Hm) Hi. split.
  - apply paddr_nonzero; [done|]. rewrite Hl, (single_length _ _ Hok Hm). lia.
  - unfold pgaddr. destruct Hlay as (? & Ha & _). by rewrite Z_mod_plus_full.
Qed.

Lemma pages_update s gs1 g g' gs2 slack l :
  at_most 1 (gs1 ++ g :: gs2) slack → at_most 1 [g'] slack →
  cm_rep (set_coremap l s) (gs1 ++ g' :: gs2) slack →
  pages (set_coremap l s) (<[length gs1 := g']> (gs1 ++ g :: gs2)).
Proof.
  intros Hm Hg Hrep. exists slack. rewrite insert_mid. split; [done|].
  replace (gs1 ++ g :: gs2) with (gs1 ++ [g] ++ gs2) in Hm by done.
  replace (gs1 ++ g' :: gs2) with (gs1 ++ [g'] ++ gs2) by done. rewrite !at_most_app in *. tauto.
Qed.

Lemma wp_alloc_upage1 s gs (Q : Z → cmstate → Prop) :
  pages s gs →
  (∀ i l, gs !! i = Some Free →
     pages (set_coremap l s) (<[i := Used 1 false]> gs) → Q (pgaddr s i) (set_coremap l s)) →
  (Free ∉ gs → Q 0 s) →
  wp alloc_upage Q s.
Proof.
  intros Hp HQ HQ0. pose proof Hp as (slack & Hrep & Hm).
  eapply wp_alloc_upage; [done| |done].
  intros gs1 gs2 Hgs gs' s' Hrep'. subst gs. rewrite (pages_split_length _ _ _ _ Hp).
  apply HQ; [by apply list_lookup_middle|].
  eapply pages_update; [done| |done]. split; [by repeat constructor|apply Hm].
Qed.

Lemma wp_alloc_kpage1 s gs (Q : Z → cmstate → Prop) :
  pages s gs →
  (∀ i l, gs !! i = Some Free →
     pages (set_coremap l s) (<[i := Used 1 true]> gs) →
     Q (PADDR_TO_KVADDR (pgaddr s i)) (set_coremap l s)) →
  (Free ∉ gs → Q 0 s) →
  wp (alloc_kpages 1) Q s.
Proof.
  intros Hp HQ HQ0. pose proof Hp as (slack & Hrep & Hm). change 1 with (Z.of_nat 1).
  eapply wp_alloc_kpages; [done|lia| |].
  - intros gs1 gs2 Hgs _ gs' s' Hrep'. simpl in Hgs. subst gs.
    rewrite (pages_split_length _ _ _ _ Hp). apply HQ; [by apply list_lookup_middle|].
    eapply pages_update; [done| |done]. split; [by repeat constructor|apply Hm].
  - intros Hno. apply HQ0. intros (gs1 & gs2 & ->)%list_elem_of_split.
    apply (Hno (length (flat gs1))). intros j Hj. exists free_entry. split; [|done].
    rewrite flat_app, flat_cons. assert (j = length (flat gs1)) as -> by lia.
    by apply list_lookup_middle.
Qed.

Lemma wp_page_free1 s gs i k (Q : unit → cmstate → Prop) :
  pages s gs → gs !! i = Some (Used 1 k) →
  (∀ l, pages (set_coremap l s) (<[i := Free]> gs) → Q tt (set_coremap l s)) →
  wp (page_free (pgaddr s i)) Q s.
Proof.
  intros Hp Hi HQ. pose proof Hp as (slack & Hrep & Hm).
  apply list_elem_of_split_length in Hi as (gs1 & gs2 & -> & ->).
  unfold pgaddr. rewrite <-(pages_split_length _ _ _ _ Hp).
  destruct (at_most_head 1 (gs1 ++ [Used 1 k]) gs2 slack) as (e & He & Hle);
    [by rewrite <-app_assoc|apply Hrep|].
  eapply wp_page_free; [done..|]. intros gs' s' Hrep'. apply HQ.
  rewrite insert_mid in *. eapply (pages_update s gs1 _ Free gs2 slack) in Hrep'; [|done|].
  - by rewrite insert_mid in Hrep'.
  - split; [by repeat constructor|apply Hm].
Qed.

Lemma wp_free_kpages1 s gs i k (Q : unit → cmstate → Prop) :
  pages s gs → gs !! i = Some (Used 1 k) →
  (∀ l, pages (set_coremap l s) (<[i := Free]> gs) → Q tt (set_coremap l s)) →
  wp (free_kpages (PADDR_TO_KVADDR (pgaddr s i))) Q s.
Proof.
  intros Hp Hi HQ. unfold wp.
  destruct (pages_pgaddr _ _ i Hp) as [? _]; [by eapply lookup_lt_Some|].
  rewrite free_kpages_page_free by lia. by eapply (wp_page_free1 _ _ _ _ Q).
Qed.

(** C4: on every well-formed coremap [alloc_kpages] of a positive number of
    pages returns without panic; it takes the lowest run of that many free
    pages, marks exactly that run as one kernel chunk, leaves every other
    segment alone and gives the lock back, and it returns 0, changing nothing,
    only when no such run exists. *)
Theorem alloc_kpages_first_fit s gs slack n :
  cm_rep s gs slack → (0 < n)%nat →
  wp (alloc_kpages (Z.of_nat n)) (λ r s',
    (∃ gs1 gs2, gs = gs1 ++ replicate n Free ++ gs2 ∧
       first_run (flat gs) n (length (flat gs1)) ∧
       r = PADDR_TO_KVADDR (freespace s + Z.of_nat (length (flat gs1)) * PAGE_SIZE) ∧
       cm_rep s' (gs1 ++ Used n true :: gs2) slack ∧ freespace s' = freespace s)
    ∨ (r = 0 ∧ s' = s ∧ ∀ k, ¬ run_free (flat gs) k n)) s.
Proof.
  intros Hrep Hn. eapply wp_alloc_kpages; [done..| |].
  - intros gs1 gs2 Hgs Hfirst gs' s' Hrep'. left. by exists gs1, gs2.
  - intros Hno. by right.
Qed.

(** Freeing what [alloc_kpages] returned restores the allocator state
    exactly, when no chunk is larger than the one freed. *)
Theorem alloc_free_roundtrip s gs slack n :
  cm_rep s gs slack → (0 < n)%nat → at_most n gs slack →
  wp (v ← alloc_kpages (Z.of_nat n); if v =? 0 then mret tt else free_kpages v)
    (λ _ s', s' = s) s.
Proof.
  intros Hrep Hn Hm. apply wp_bind_2. eapply wp_alloc_kpages; [done..| |].
  2:{ intros _. by apply wp_ret. }
  intros gs1 gs2 Hgs Hfirst gs' s' Hrep'.
  pose proof (paddr_nonzero s' (Z.of_nat (length (flat gs1))) ltac:(apply Hrep')) as Hp.
  rewrite (rep_len _ _ _ Hrep') in Hp. unfold gs' in Hp.
  rewrite flat_app, length_app in Hp. specialize (Hp ltac:(lia)). simpl freespace in Hp.
  rewrite (proj2 (Z.eqb_neq _ _)).
  2:{ unfold PADDR_TO_KVADDR, MIPS_KSEG0. rewrite u32_id by lia. lia. }
  unfold wp. rewrite free_kpages_page_free by lia.
  destruct (at_most_head n (gs1 ++ replicate n Free) gs2 slack) as (e & He & Hle);
    [by rewrite <-app_assoc, <-Hgs|apply Hrep|].
  change (freespace s) with (freespace s').
  eapply (wp_page_free s' gs1 n true gs2 slack e (λ _ t, t = s)); [done..|].
  intros gs'' s'' _. unfold s'', s', gs''. rewrite set_coremap_twice, <-Hgs.
  rewrite <-(rep_map _ _ _ Hrep). by destruct s.
Qed.

(** Freeing a chunk of [n] pages that lies directly below a chunk of
    [m > n] pages also marks the first [m - n] pages of that other chunk free:
    the loop of [removefromcoremap] bounds its counter by the [chunk_cnt] of
    the entry it is about to clear, not by that of the chunk being freed. *)
Theorem page_free_overruns s gs1 n k m k' gs2 slack :
  cm_rep s (gs1 ++ Used n k :: Used m k' :: gs2) slack → (n < m)%nat →
  wp (page_free (freespace s + Z.of_nat (length (flat gs1)) * PAGE_SIZE))
    (λ _ s', coremap s' = flat gs1 ++ replicate m free_entry
       ++ replicate n (CmEntry (Z.of_nat m) k' true) ++ flat gs2 ++ slack) s.
Proof.
  intros Hrep Hnm. pose proof (cm_rep_seg _ _ _ _ _ Hrep) as [Hn _].
  destruct Hrep as [Hsegs Hmap Hslack Hlen Hlay Hun].
  rewrite flat_app, !flat_cons, !length_app in Hlen. simpl in Hlen.
  rewrite flat_app, !flat_cons, <-!app_assoc in Hmap. simpl in Hmap.
  unfold page_free, removefromcoremap. apply wp_bind_2. apply wp_slock_acquire; [done|].
  apply wp_bind_2. apply wp_bind_2. apply wp_getindex; [done|lia|]. wp_steps.
  unfold wp at 1. rewrite (removefromcoremap_loop_eq _ _ _ _ (lock_st s) Hmap)
    by (simpl; rewrite Hmap, (length_app (flat gs1)); lia).
  rewrite cleared_overrun, drop_overrun by lia.
  apply (wp_slock_release _ (set_coremap _ s)); done.
Qed.

(** Booting on any page-aligned RAM below 508 MB gives a well-formed
    coremap whose pages are all free and tile the memory from the end of the
    coremap array to the top of RAM; the array, which has one 4-byte entry per
    page of RAM, is never overrun. *)
Theorem coremap_bootstrap_correct boot s :
  ram_ok s → unlocked s →
  wp (vm_bootstrap boot) (λ r s', ∃ n slack,
    let t := (lastpaddr s - firstpaddr s) / 4096 in
    r = firstpaddr s + coremap_pages t * 4096 ∧ freespace s' = r ∧
    Z.of_nat n = t - coremap_pages t ∧ r + Z.of_nat n * PAGE_SIZE = lastpaddr s ∧
    cm_rep s' (replicate n Free) slack) s.
Proof. apply wp_coremap_bootstrap. Qed.

(** *** Concrete instances *)
Definition cpu0 : cpustate := CpuState true 0 true 0 0.
(** Four managed pages from 0x1000 on: a kernel page, a two-page chunk, a free page. *)
Definition demo_segs : list seg := [Used 1 true; Used 2 true; Free].
Definition demo_cm : cmstate :=
  CmState cpu0 spinlock_init 0 0 (flat demo_segs ++ [free_entry]) 4 0 4096.

Lemma demo_cm_rep : cm_rep demo_cm demo_segs [free_entry].
Proof.
  constructor; [repeat constructor; simpl; lia|done|done|done| |done].
  by vm_compute.
Qed.

Lemma alloc_kpages_first_fit_witness :
  wp (alloc_kpages 1) (λ r s',
    (∃ gs1 gs2, demo_segs = gs1 ++ replicate 1 Free ++ gs2 ∧
       first_run (flat demo_segs) 1 (length (flat gs1)) ∧
       r = PADDR_TO_KVADDR (4096 + Z.of_nat (length (flat gs1)) * PAGE_SIZE) ∧
       cm_rep s' (gs1 ++ Used 1 true :: gs2) [free_entry] ∧ freespace s' = 4096)
    ∨ (r = 0 ∧ s' = demo_cm ∧ ∀ k, ¬ run_free (flat demo_segs) k 1)) demo_cm.
Proof. apply (alloc_kpages_first_fit demo_cm demo_segs [free_entry] 1 demo_cm_rep). lia. Defined.

Lemma alloc_free_roundtrip_witness :
  wp (v ← alloc_kpages 2; if v =? 0 then mret tt else free_kpages v) (λ _ s', s' = demo_cm) demo_cm.
Proof.
  apply (alloc_free_roundtrip demo_cm demo_segs [free_entry] 2 demo_cm_rep); [lia|].
  by split; repeat (apply Forall_cons_2; [simpl; lia|]).
Defined.

Lemma page_free_overruns_witness :
  wp (page_free 4096) (λ _ s', coremap s' = [free_entry; free_entry; CmEntry 2 true true;
                                              free_entry; free_entry]) demo_cm.
Proof. apply (page_free_overruns demo_cm [] 1 true 2 true [Free] [free_entry] demo_cm_rep). lia. Defined.

Lemma coremap_bootstrap_correct_witness :
  ∃ s, firstpaddr s = 4096 ∧ lastpaddr s = 16384 ∧
  wp (vm_bootstrap (λ _, CmEntry 7 true true)) (λ r s', ∃ n slack,
    let t := (lastpaddr s - firstpaddr s) / 4096 in
    r = firstpaddr s + coremap_pages t * 4096 ∧ freespace s' = r ∧
    Z.of_nat n = t - coremap_pages t ∧ r + Z.of_nat n * PAGE_SIZE = lastpaddr s ∧
    cm_rep s' (replicate n Free) slack) s.
Proof.
  exists (CmState cpu0 spinlock_init 4096 16384 [] 0 0 0). split; [done|split; [done|]].
  apply coremap_bootstrap_correct; [by vm_compute|done].
Defined.
