(* ===== verification/AddrSpace.v ===== *)
(** Address spaces and page faults: [kern/vm/addrspace.c] and the heap part of
    [kern/vm/vm.c] ([page_alloc], [sys_sbrk]).

    A page table is a [page_table] record; the chain
    [as->start -> nextPageTable -> ...] is the list [chain], and the pointer
    [as->end] is the position in that list of the table it points to, so that
    writing [end->nextPageTable] replaces what follows that table. Address
    spaces live in a store keyed by their kernel address, which is what the
    C pointers are; an access through a freed or NULL pointer is undefined.
    [vs_mem] is physical memory outside those kernel structures, byte by byte.

    What freshly allocated kernel memory contains is the parameter [junk], and
    the TLB slot that the hardware picks for [tlb_random] is the parameter
    [random_slot]. *)

From stdpp Require Import base tactics numbers list gmap.
From S2P Require Import Prelude KernDefs Spl Coremap.
Local Open Scope Z_scope.

Definition PTABLE_ARRAY_SIZE : Z := 338.
Definition STACK_BASE : Z := 0x7ff00000.
Definition NUM_TLB : Z := 64.
Definition TLBLO_DIRTY : Z := 0x400.
Definition TLBLO_VALID : Z := 0x200.
Definition TLBHI_INVALID (entryno : Z) : Z := u32 (Z.shiftl (0x80000 + entryno) 12).
Definition TLBLO_INVALID : Z := 0.
Definition VM_FAULT_READ : Z := 0.
Definition VM_FAULT_WRITE : Z := 1.
Definition VM_FAULT_READONLY : Z := 2.

Record page_entry := PageEntry {
  page_vaddr : Z;
  page_paddr : Z;
  isRead : bool;
  isWrite : bool;
  isExe : bool;
  isShared : bool;
}.

Record page_table := PageTable {
  pt_kaddr : Z;             (* where the struct lies *)
  table : list page_entry;  (* PTABLE_ARRAY_SIZE entries *)
  entry_count : Z;          (* 9-bit field *)
}.

Record addrspace := AddrSpace {
  vbreakbase : Z;
  vbreaktop : Z;
  heapNPages : Z;
  vstart : Z;
  chain : list page_table;  (* start, start.nextPageTable, ... *)
  as_end : nat;             (* the table [end] points to *)
  codeNPages : Z;
  dataNPages : Z;
}.

Record vmstate := VmState {
  vs_cm : cmstate;
  vs_mem : Z → Z;
  vs_tlb : list (Z * Z);
  vs_as : gmap Z addrspace;
  t_addrspace : Z;          (* curthread->t_addrspace *)
}.

Definition set_mem (m : Z → Z) (s : vmstate) : vmstate :=
  VmState (vs_cm s) m (vs_tlb s) (vs_as s) (t_addrspace s).
Definition set_tlb (t : list (Z * Z)) (s : vmstate) : vmstate :=
  VmState (vs_cm s) (vs_mem s) t (vs_as s) (t_addrspace s).
Definition set_ases (m : gmap Z addrspace) (s : vmstate) : vmstate :=
  VmState (vs_cm s) (vs_mem s) (vs_tlb s) m (t_addrspace s).
Definition set_chain (c : list page_table) (a : addrspace) : addrspace :=
  AddrSpace (vbreakbase a) (vbreaktop a) (heapNPages a) (vstart a) c (as_end a)
    (codeNPages a) (dataNPages a).
Definition set_end (e : nat) (a : addrspace) : addrspace :=
  AddrSpace (vbreakbase a) (vbreaktop a) (heapNPages a) (vstart a) (chain a) e
    (codeNPages a) (dataNPages a).
Definition set_vbreaktop (v : Z) (a : addrspace) : addrspace :=
  AddrSpace (vbreakbase a) v (heapNPages a) (vstart a) (chain a) (as_end a)
    (codeNPages a) (dataNPages a).
Definition set_heapNPages (n : Z) (a : addrspace) : addrspace :=
  AddrSpace (vbreakbase a) (vbreaktop a) n (vstart a) (chain a) (as_end a)
    (codeNPages a) (dataNPages a).
Definition set_paddr (p : Z) (e : page_entry) : page_entry :=
  PageEntry (page_vaddr e) p (isRead e) (isWrite e) (isExe e) (isShared e).

#[export] Program Instance vs_cm_sub : Sub vmstate cmstate := {|
  sub_get := vs_cm;
  sub_put c s := VmState c (vs_mem s) (vs_tlb s) (vs_as s) (t_addrspace s)
|}.
Next Obligation. done. Qed.
Next Obligation. by intros []. Qed.
Next Obligation. done. Qed.

#[export] Program Instance vs_cpu_sub : Sub vmstate cpustate := {|
  sub_get s := cm_cpu (vs_cm s);
  sub_put c s := VmState (sub_put c (vs_cm s)) (vs_mem s) (vs_tlb s) (vs_as s) (t_addrspace s)
|}.
Next Obligation. done. Qed.
Next Obligation. by intros [[] ? ? ? ?]. Qed.
Next Obligation. done. Qed.

(** Dereferencing, updating and freeing an address space. *)
Definition get_as (p : Z) : M vmstate addrspace := s ← getS; of_opt (vs_as s !! p).
Definition put_as (p : Z) (a : addrspace) : M vmstate unit :=
  modify (λ s, set_ases (<[p := a]> (vs_as s)) s).
Definition del_as (p : Z) : M vmstate unit := modify (λ s, set_ases (delete p (vs_as s)) s).

(** [kmalloc] and [kfree] of objects of [sz >= LARGEST_SUBPAGE_SIZE] bytes,
    which go straight to the page allocator. *)
Definition sizeof_page_table : Z := 4064.
Definition sizeof_addrspace : Z := 4092.
Definition kmalloc_large (sz : Z) : M vmstate Z :=
  zoom (alloc_kpages (s32 (u32 (sz + PAGE_SIZE - 1) / PAGE_SIZE))).
Definition kfree_large (ptr : Z) : M vmstate unit :=
  kassert (ptr mod PAGE_SIZE =? 0);; zoom (free_kpages ptr).

(** [bzero]/[memcpy] on pages of physical memory seen through kseg0. *)
Definition as_zero_region (paddr npages : Z) : M vmstate unit :=
  modify (λ s, set_mem (λ a, if (paddr <=? a) && (a <? paddr + npages * PAGE_SIZE)
                             then 0 else vs_mem s a) s).
Definition memcpy_page (dst src : Z) : M vmstate unit :=
  modify (λ s, set_mem (λ a, if (dst <=? a) && (a <? dst + PAGE_SIZE)
                             then vs_mem s (a - dst + src) else vs_mem s a) s).

(** ** TLB *)
Definition tlb_read (i : Z) : M vmstate (Z * Z) := s ← getS; of_opt (zget (vs_tlb s) i).
Definition tlb_write (ehi elo i : Z) : M vmstate unit :=
  s ← getS; t ← of_opt (zset i (ehi, elo) (vs_tlb s)); modify (set_tlb t).

Definition tlb_invalidate_all : M vmstate unit :=
  for_do (Z.to_nat NUM_TLB) 0 (λ i, tlb_write (TLBHI_INVALID i) TLBLO_INVALID i).

Definition vm_tlbshootdown_all : M vmstate unit :=
  spl ← zoom splhigh; tlb_invalidate_all;; _ ← zoom (splx spl); mret tt.

Definition vm_tlbshootdown : M vmstate unit := panic.

(** [as_activate]: the interrupts [tlb_broadcast] sends go to other CPUs. *)
Definition as_activate : M vmstate unit :=
  spl ← zoom splhigh; tlb_invalidate_all;; _ ← zoom (splx spl); mret tt.

(** ** Page tables *)
(** The scan of one table in [vm_fault]. *)
Fixpoint find_entry (v : Z) (l : list page_entry) : option page_entry :=
  match l with
  | [] => None
  | e :: l =>
      if negb (page_paddr e =? 0) && (page_vaddr e =? v) then Some e
      else if page_paddr e =? 0 then None
      else find_entry v l
  end.

Fixpoint find_page (v : Z) (c : list page_table) : option page_entry :=
  match c with
  | [] => None
  | pt :: c => match find_entry v (table pt) with Some e => Some e | None => find_page v c end
  end.

(** The first slot of a table whose [page_paddr] is 0, filled. *)
Fixpoint fill_slot (vaddr paddr : Z) (r w x : bool) (l : list page_entry) : option (list page_entry) :=
  match l with
  | [] => None
  | e :: l =>
      if page_paddr e =? 0 then Some (PageEntry vaddr paddr r w x (isShared e) :: l)
      else (e ::.) <$> fill_slot vaddr paddr r w x l
  end.

Fixpoint add_to_chain (vaddr paddr : Z) (r w x : bool) (c : list page_table) : option (list page_table) :=
  match c with
  | [] => None
  | pt :: c =>
      match (if negb (entry_count pt =? PTABLE_ARRAY_SIZE)
             then fill_slot vaddr paddr r w x (table pt) else None) with
      | Some l => Some (PageTable (pt_kaddr pt) l (wrapu 9 (entry_count pt + 1)) :: c)
      | None => (pt ::.) <$> add_to_chain vaddr paddr r w x c
      end
  end.

Section with_hardware.
Context (junk : Z → nat → page_entry) (random_slot : vmstate → Z).

Definition junk_table (kaddr : Z) : list page_entry :=
  junk kaddr <$> seq 0 (Z.to_nat PTABLE_ARRAY_SIZE).

Definition addPageEntry (vaddr paddr : Z) (r w x : bool) : M vmstate unit :=
  p ← gets t_addrspace;
  a ← get_as p;
  match add_to_chain vaddr paddr r w x (chain a) with
  | Some c => put_as p (set_chain c a)
  | None =>
      k ← kmalloc_large sizeof_page_table;
      if k =? 0 then undef
      else
        match junk_table k with
        | [] => undef
        | e0 :: rest =>
            let t := PageEntry vaddr paddr r w x (isShared e0) :: (set_paddr 0 <$> rest) in
            let n := as_end a in
            put_as p (set_end (S n) (set_chain (take (S n) (chain a) ++ [PageTable k t 1]) a))
        end
  end.

Fixpoint remove_slot (vaddr : Z) (l : list page_entry) : option (Z * list page_entry) :=
  match l with
  | [] => None
  | e :: l =>
      if page_vaddr e =? vaddr then Some (page_paddr e, set_paddr 0 e :: l)
      else '(p, l') ← remove_slot vaddr l; Some (p, e :: l')
  end.

Fixpoint remove_from_chain (vaddr : Z) (c : list page_table) : option (Z * list page_table) :=
  match c with
  | [] => None
  | pt :: c =>
      match remove_slot vaddr (table pt) with
      | Some (p, l) => Some (p, PageTable (pt_kaddr pt) l (wrapu 9 (entry_count pt - 1)) :: c)
      | None => '(p, c') ← remove_from_chain vaddr c; Some (p, pt :: c')
      end
  end.

Definition removePageEntry (vaddr : Z) : M vmstate Z :=
  p ← gets t_addrspace;
  a ← get_as p;
  match remove_from_chain vaddr (chain a) with
  | Some (pa, c) => put_as p (set_chain c a);; mret pa
  | None => mret 0
  end.

(** ** Page faults *)
Definition tlb_install (ehi paddr : Z) : M vmstate (result unit) :=
  spl ← zoom splhigh;
  let elo := Z.lor (Z.lor paddr TLBLO_DIRTY) TLBLO_VALID in
  o ← for_ret (Z.to_nat NUM_TLB) 0 (λ i,
        '(_, lo) ← tlb_read i;
        if negb (Z.land lo TLBLO_VALID =? 0) then mret None
        else tlb_write ehi elo i;; _ ← zoom (splx spl); mret (Some tt));
  match o with
  | Some _ => mret (inr tt)
  | None =>
      s ← getS;
      tlb_write ehi elo (random_slot s);; _ ← zoom (splx spl); mret (inr tt)
  end.

Definition vm_fault (faulttype faultaddress : Z) : M vmstate (result unit) :=
  let fa := Z.land faultaddress PAGE_FRAME in
  p ← gets t_addrspace;
  a ← get_as p;
  if (USERSTACK <=? fa) || (fa <? vstart a) then mret (inl EFAULT)
  else
    let m := find_page fa (chain a) in
    if faulttype =? VM_FAULT_READONLY then mret (inl EFAULT)
    else if faulttype =? VM_FAULT_READ then
      match m with
      | Some e => tlb_install fa (page_paddr e)
      | None => mret (inl EFAULT)
      end
    else if faulttype =? VM_FAULT_WRITE then
      match m with
      | Some e => if negb (isWrite e) then mret (inl EFAULT) else tlb_install fa (page_paddr e)
      | None =>
          if (STACK_BASE <=? fa) && (fa <? USERSTACK) then
            paddr ← zoom alloc_upage;
            if paddr =? 0 then mret (inl ENOMEM)
            else
              addPageEntry fa paddr true true false;;
              as_zero_region paddr 1;;
              tlb_install fa paddr
          else mret (inl EFAULT)
      end
    else mret (inl EINVAL).

(** ** Creation and destruction *)
Definition as_create : M vmstate Z :=
  k ← kmalloc_large sizeof_addrspace;
  if k =? 0 then mret 0
  else
    put_as k (AddrSpace 0 0 0 0 [PageTable k (set_paddr 0 <$> junk_table k) 0] 0 0 0);;
    mret k.

(** The scan of one table in [as_destroy]: free until the first empty slot. *)
Fixpoint free_entries (l : list page_entry) : M vmstate unit :=
  match l with
  | [] => mret tt
  | e :: l =>
      if negb (page_paddr e =? 0) then zoom (page_free (page_paddr e));; free_entries l
      else mret tt
  end.

Fixpoint free_tables (c : list page_table) : M vmstate unit :=
  match c with
  | [] => mret tt
  | pt :: c => free_entries (table pt);; free_tables c
  end.

Fixpoint kfree_tables (c : list page_table) : M vmstate unit :=
  match c with
  | [] => mret tt
  | pt :: c => kfree_large (pt_kaddr pt);; kfree_tables c
  end.

Definition as_destroy (p : Z) : M vmstate unit :=
  a ← get_as p;
  free_tables (chain a);;
  kfree_tables (tail (chain a));;
  kfree_large p;;
  del_as p.

(** ** Loading a program *)
Definition as_define_region (p vaddr sz : Z) : M vmstate (result unit) :=
  a ← get_as p;
  let sz := u32 (sz + Z.land vaddr (u32 (Z.lnot PAGE_FRAME))) in
  let vaddr := Z.land vaddr PAGE_FRAME in
  let sz := Z.land (u32 (sz + PAGE_SIZE - 1)) PAGE_FRAME in
  let npages := sz / PAGE_SIZE in
  let brk := u32 (npages * PAGE_SIZE + vaddr) in
  if codeNPages a =? 0 then
    put_as p (AddrSpace brk brk (heapNPages a) vaddr (chain a) (as_end a) npages (dataNPages a));;
    mret (inr tt)
  else if dataNPages a =? 0 then
    put_as p (AddrSpace brk brk (heapNPages a) (vstart a) (chain a) (as_end a) (codeNPages a) npages);;
    mret (inr tt)
  else mret (inl EUNIMP).

(** One of the two loops of [as_prepare_load]: [npages] zeroed pages from [v] on. *)
Definition load_region (p v npages : Z) : M vmstate (option errno) :=
  for_ret (Z.to_nat npages) 0 (λ i,
    paddr ← zoom alloc_upage;
    if paddr =? 0 then as_destroy p;; mret (Some ENOMEM)
    else
      addPageEntry (u32 (v + PAGE_SIZE * i)) paddr true true false;;
      as_zero_region paddr 1;;
      mret None).

Definition as_prepare_load (p : Z) : M vmstate (result unit) :=
  a ← get_as p;
  r ← load_region p (vstart a) (codeNPages a);
  match r with
  | Some e => mret (inl e)
  | None =>
      a ← get_as p;
      let vdataStart := u32 (vbreakbase a - u32 (dataNPages a * PAGE_SIZE)) in
      r ← load_region p vdataStart (dataNPages a);
      match r with
      | Some e => mret (inl e)
      | None => mret (inr tt)
      end
  end.

(** The pass of [as_complete_load] over one table. *)
Fixpoint complete_entries (codeTop dataTop : Z) (l : list page_entry) : list page_entry :=
  match l with
  | [] => []
  | e :: l =>
      if page_paddr e =? 0 then e :: l
      else
        (if page_vaddr e <? codeTop then
           PageEntry (page_vaddr e) (page_paddr e) true false true (isShared e)
         else if page_vaddr e <? dataTop then
           PageEntry (page_vaddr e) (page_paddr e) true true false (isShared e)
         else e) :: complete_entries codeTop dataTop l
  end.

Definition as_complete_load (p : Z) : M vmstate (result unit) :=
  a ← get_as p;
  let codeTop := u32 (vstart a + u32 (PAGE_SIZE * codeNPages a)) in
  let dataTop := vbreakbase a in
  put_as p (set_chain ((λ pt, PageTable (pt_kaddr pt)
                                (complete_entries codeTop dataTop (table pt)) (entry_count pt))
                         <$> chain a) a);;
  mret (inr tt).

Definition as_define_stack : M vmstate (result Z) := mret (inr USERSTACK).

(** ** Copying *)
(** [new->...->table[i]] of table number [ti], and its update. *)
Definition upd_entry (p : Z) (ti i : nat) (f : page_entry → page_entry) : M vmstate unit :=
  a ← get_as p;
  pt ← of_opt (chain a !! ti);
  e ← of_opt (table pt !! i);
  put_as p (set_chain (<[ti := PageTable (pt_kaddr pt) (<[i := f e]> (table pt)) (entry_count pt)]>
                         (chain a)) a).

Fixpoint copy_entries (new : Z) (ti i : nat) (l : list page_entry) : M vmstate (option errno) :=
  match l with
  | [] => mret None
  | e :: l =>
      upd_entry new ti i (λ n, PageEntry (page_vaddr e) (page_paddr n) (isRead e) (isWrite e)
                                 (isExe e) (isShared n));;
      if negb (page_paddr e =? 0) then
        paddr ← zoom alloc_upage;
        if paddr =? 0 then as_destroy new;; mret (Some ENOMEM)
        else
          upd_entry new ti i (set_paddr paddr);;
          memcpy_page paddr (page_paddr e);;
          copy_entries new ti (S i) l
      else
        upd_entry new ti i (set_paddr 0);;
        copy_entries new ti (S i) l
  end.

(** [newtemp->nextPageTable = kmalloc(...)], for every table but the first. *)
Definition extend_chain (new : Z) (ti : nat) : M vmstate unit :=
  match ti with
  | O => mret tt
  | S _ =>
      k ← kmalloc_large sizeof_page_table;
      if k =? 0 then undef
      else
        a ← get_as new;
        put_as new (set_chain (take ti (chain a) ++ [PageTable k (junk_table k) 0]) a)
  end.

Definition set_count (p : Z) (ti : nat) (n : Z) : M vmstate unit :=
  a ← get_as p;
  pt ← of_opt (chain a !! ti);
  put_as p (set_chain (<[ti := PageTable (pt_kaddr pt) (table pt) n]> (chain a)) a).

Fixpoint copy_tables (new : Z) (ti : nat) (c : list page_table) : M vmstate (option errno) :=
  match c with
  | [] => mret None
  | pt :: c =>
      extend_chain new ti;;
      set_count new ti (entry_count pt);;
      r ← copy_entries new ti 0 (table pt);
      match r with
      | Some e => mret (Some e)
      | None => copy_tables new (S ti) c
      end
  end.

Definition as_copy (old : Z) : M vmstate (result Z) :=
  new ← as_create;
  if new =? 0 then mret (inl ENOMEM)
  else
    a ← get_as old;
    r ← copy_tables new 0 (chain a);
    match r with
    | Some e => mret (inl e)
    | None => mret (inr new)
    end.

(** ** Heap *)
Definition page_alloc (npages vaddr : Z) : M vmstate Z :=
  r ← for_ret (Z.to_nat npages) 0 (λ i,
    paddr ← zoom alloc_upage;
    if paddr =? 0 then mret (Some 1)
    else
      addPageEntry (u32 (vaddr + i * PAGE_SIZE)) paddr true true false;;
      p ← gets t_addrspace;
      a ← get_as p;
      put_as p (set_heapNPages (u32 (heapNPages a + 1)) a);;
      mret None);
  mret (default 0 r).

Definition sys_sbrk (amount : Z) : M vmstate (result Z) :=
  p ← gets t_addrspace;
  a0 ← get_as p;
  let vaddr := vbreaktop a0 in
  let a := set_vbreaktop (u32 (vaddr + amount)) a0 in
  put_as p a;;
  if STACK_BASE - 4096 <=? vbreaktop a then mret (inl ENOMEM)
  else if vbreaktop a <? vbreakbase a then
    put_as p (set_vbreaktop vaddr a);; mret (inl EINVAL)
  else if u32 (heapNPages a * PAGE_SIZE) <=? u32 (vbreaktop a - vbreakbase a) then
    let npages := s32 (u32 (vbreaktop a - u32 (vbreakbase a + u32 (heapNPages a * PAGE_SIZE)))) in
    let npages := if Z.rem npages PAGE_SIZE =? 0 then Z.quot npages PAGE_SIZE
                  else Z.quot npages PAGE_SIZE + 1 in
    let temp := if vaddr mod PAGE_SIZE =? 0 then vaddr
                else u32 (Z.land vaddr PAGE_FRAME + PAGE_SIZE) in
    r ← page_alloc npages temp;
    if negb (r =? 0) then mret (inl ENOMEM) else mret (inr vaddr)
  else mret (inr vaddr).

End with_hardware.

(** * What a chain of page tables means

    A table is packed: entries in use, then empty slots. The meaning of a
    chain is the list of its entries in use, in order. *)
Fixpoint live (l : list page_entry) : list page_entry :=
  match l with
  | [] => []
  | e :: l => if page_paddr e =? 0 then [] else e :: live l
  end.

Definition live_chain (c : list page_table) : list page_entry := c ≫= (live ∘ table).

Fixpoint lookup_v (v : Z) (l : list page_entry) : option page_entry :=
  match l with
  | [] => None
  | e :: l => if page_vaddr e =? v then Some e else lookup_v v l
  end.

Record wf_table (pt : page_table) : Prop := {
  wf_len : length (table pt) = Z.to_nat PTABLE_ARRAY_SIZE;
  wf_count : entry_count pt = Z.of_nat (length (live (table pt)));
  wf_empty : Forall (λ e, page_paddr e = 0) (drop (length (live (table pt))) (table pt));
}.

(** Every table but the last is full, and [end] points to the last. *)
Record wf_as (a : addrspace) : Prop := {
  wf_split : ∃ full last, chain a = full ++ [last] ∧ as_end a = length full ∧ wf_table last ∧
    Forall (λ pt, wf_table pt ∧ entry_count pt = PTABLE_ARRAY_SIZE) full;
}.

Lemma live_app_dead l1 l2 :
  Forall (λ e, page_paddr e ≠ 0) l1 → Forall (λ e, page_paddr e = 0) l2 → live (l1 ++ l2) = l1.
Proof.
  induction 1 as [|e l1 He _ IH]; simpl; intros H2.
  - destruct H2 as [|e l2 He _]; simpl; [done|]. by rewrite He.
  - rewrite (proj2 (Z.eqb_neq _ _) He). by rewrite IH.
Qed.

Lemma live_dead l : Forall (λ e, page_paddr e = 0) l → live l = [].
Proof. by apply (live_app_dead []). Qed.

Lemma live_nonzero l : Forall (λ e, page_paddr e ≠ 0) (live l).
Proof.
  induction l as [|e l IH]; simpl; [constructor|].
  destruct (Z.eqb_spec (page_paddr e) 0); by constructor.
Qed.

Lemma live_prefix l : l = live l ++ drop (length (live l)) l.
Proof.
  induction l as [|e l IH]; simpl; [done|].
  destruct (Z.eqb_spec (page_paddr e) 0); simpl; [done|]. by f_equal.
Qed.

Lemma find_entry_live v l : find_entry v l = lookup_v v (live l).
Proof.
  induction l as [|e l IH]; simpl; [done|].
  destruct (Z.eqb_spec (page_paddr e) 0); simpl; [done|].
  by destruct (page_vaddr e =? v).
Qed.

Lemma lookup_v_app v l1 l2 :
  lookup_v v (l1 ++ l2) = match lookup_v v l1 with Some e => Some e | None => lookup_v v l2 end.
Proof. induction l1 as [|e l1 IH]; simpl; [done|]. by destruct (page_vaddr e =? v). Qed.

Lemma find_page_live v c : find_page v c = lookup_v v (live_chain c).
Proof.
  induction c as [|pt c IH]; simpl; [done|].
  change (live_chain (pt :: c)) with (live (table pt) ++ live_chain c).
  rewrite lookup_v_app, find_entry_live. by destruct (lookup_v v (live (table pt))).
Qed.

Lemma live_chain_cons pt c : live_chain (pt :: c) = live (table pt) ++ live_chain c.
Proof. done. Qed.

Lemma live_chain_app c1 c2 : live_chain (c1 ++ c2) = live_chain c1 ++ live_chain c2.
Proof. apply bind_app. Qed.

(** ** Adding an entry *)
Lemma fill_slot_packed v pa r w x used e rest :
  Forall (λ e, page_paddr e ≠ 0) used → page_paddr e = 0 →
  fill_slot v pa r w x (used ++ e :: rest) =
    Some (used ++ PageEntry v pa r w x (isShared e) :: rest).
Proof.
  induction 1 as [|u used Hu _ IH]; simpl; intros He; [by rewrite He|].
  rewrite (proj2 (Z.eqb_neq _ _) Hu), IH by done. done.
Qed.

Lemma wf_table_add pt v pa r w x :
  wf_table pt → entry_count pt ≠ PTABLE_ARRAY_SIZE → pa ≠ 0 →
  ∃ l sh, fill_slot v pa r w x (table pt) = Some l ∧
    live l = live (table pt) ++ [PageEntry v pa r w x sh] ∧
    wf_table (PageTable (pt_kaddr pt) l (wrapu 9 (entry_count pt + 1))).
Proof.
  intros [Hlen Hcnt Hemp] Hne Hpa. unfold PTABLE_ARRAY_SIZE in *.
  pose proof (live_prefix (table pt)) as Hp. pose proof (live_nonzero (table pt)) as Hnz.
  remember (live (table pt)) as used. remember (drop (length used) (table pt)) as rest.
  assert (length used + length rest = 338)%nat as Hsum
    by (rewrite Hp, length_app in Hlen; lia).
  destruct rest as [|e rest]; [simpl in Hsum; lia|].
  apply Forall_cons_1 in Hemp as [He Hrest].
  exists (used ++ PageEntry v pa r w x (isShared e) :: rest), (isShared e).
  assert (live (used ++ PageEntry v pa r w x (isShared e) :: rest) =
    used ++ [PageEntry v pa r w x (isShared e)]) as Hlive.
  { rewrite cons_middle, app_assoc. apply live_app_dead; [|done].
    apply Forall_app. split; [done|by repeat constructor]. }
  split; [rewrite Hp; by apply fill_slot_packed|split; [done|]].
  simpl in Hsum. constructor; simpl; rewrite ?Hlive, ?length_app; simpl; unfold PTABLE_ARRAY_SIZE.
  - lia.
  - rewrite wrapu_id by lia. lia.
  - rewrite cons_middle, app_assoc, drop_app_length' by (rewrite length_app; done). done.
Qed.

Lemma add_to_chain_full full c v pa r w x :
  Forall (λ pt, wf_table pt ∧ entry_count pt = PTABLE_ARRAY_SIZE) full →
  add_to_chain v pa r w x (full ++ c) = app full <$> add_to_chain v pa r w x c.
Proof.
  induction 1 as [|pt full [_ Hpt] _ IH]; simpl.
  - by destruct (add_to_chain v pa r w x c).
  - rewrite Hpt. simpl. rewrite IH. by destruct (add_to_chain v pa r w x c).
Qed.

(** Whether the last table has a free slot. *)
Definition room (a : addrspace) : Prop :=
  ∃ pt, last (chain a) = Some pt ∧ entry_count pt ≠ PTABLE_ARRAY_SIZE.

#[export] Instance room_dec a : Decision (room a).
Proof.
  unfold room. destruct (last (chain a)) as [pt|]; [|right; naive_solver].
  destruct (decide (entry_count pt = PTABLE_ARRAY_SIZE)).
  - right. naive_solver.
  - left. by exists pt.
Defined.

(** Kernel addresses of the separately allocated tables. *)
Definition kaddrs (a : addrspace) : list Z := pt_kaddr <$> tail (chain a).

Lemma add_room a v pa r w x :
  wf_as a → room a → pa ≠ 0 →
  ∃ c sh, add_to_chain v pa r w x (chain a) = Some c ∧
    live_chain c = live_chain (chain a) ++ [PageEntry v pa r w x sh] ∧
    pt_kaddr <$> c = pt_kaddr <$> chain a ∧ wf_as (set_chain c a).
Proof.
  intros [(full & lst & Hc & He & Hl & Hf)] (pt & Hlast & Hroom) Hpa.
  rewrite Hc, last_snoc in Hlast. injection Hlast as <-.
  destruct (wf_table_add lst v pa r w x Hl Hroom Hpa) as (l & sh & Hfill & Hlive & Hwf).
  exists (full ++ [PageTable (pt_kaddr lst) l (wrapu 9 (entry_count lst + 1))]), sh.
  split_and!.
  - rewrite Hc, add_to_chain_full by done. simpl.
    rewrite (proj2 (Z.eqb_neq _ _) Hroom). simpl. by rewrite Hfill.
  - rewrite Hc, !live_chain_app, <-app_assoc. f_equal.
    unfold live_chain. simpl. by rewrite !app_nil_r, Hlive.
  - by rewrite Hc, !fmap_app.
  - constructor. exists full, (PageTable (pt_kaddr lst) l (wrapu 9 (entry_count lst + 1))).
    by simpl.
Qed.

Lemma add_no_room a v pa r w x :
  wf_as a → ¬ room a → add_to_chain v pa r w x (chain a) = None.
Proof.
  intros [(full & lst & Hc & He & Hl & Hf)] Hno. rewrite Hc, add_to_chain_full by done. simpl.
  destruct (Z.eqb_spec (entry_count lst) PTABLE_ARRAY_SIZE) as [|Hne]; [done|].
  exfalso. apply Hno. exists lst. by rewrite Hc, last_snoc.
Qed.

Lemma wf_fresh_table k v pa r w x sh rest :
  pa ≠ 0 → length rest = 337%nat → Forall (λ e, page_paddr e = 0) rest →
  let l := PageEntry v pa r w x sh :: rest in
  live l = [PageEntry v pa r w x sh] ∧ wf_table (PageTable k l 1).
Proof.
  intros Hpa Hlen Hz l.
  assert (live l = [PageEntry v pa r w x sh]) as Hlive.
  { apply (live_app_dead [PageEntry v pa r w x sh] rest); [by repeat constructor|done]. }
  split; [done|]. constructor; simpl table; rewrite ?Hlive; simpl; [by rewrite Hlen|done|].
  by rewrite drop_0.
Qed.

(** The address space with a new table at the end. *)
Lemma add_table a pt v :
  wf_as a → ¬ room a → wf_table pt → live (table pt) = [v] →
  let n := as_end a in
  let a' := set_end (S n) (set_chain (take (S n) (chain a) ++ [pt]) a) in
  wf_as a' ∧ live_chain (chain a') = live_chain (chain a) ++ [v] ∧
  kaddrs a' = kaddrs a ++ [pt_kaddr pt].
Proof.
  intros [(full & lst & Hc & He & Hl & Hf)] Hno Hwf Hlive n a'.
  assert (entry_count lst = PTABLE_ARRAY_SIZE) as Hfull.
  { destruct (decide (entry_count lst = PTABLE_ARRAY_SIZE)) as [|Hne]; [done|].
    exfalso. apply Hno. exists lst. by rewrite Hc, last_snoc. }
  assert (take (S n) (chain a) = chain a) as Ht.
  { apply take_ge. unfold n. rewrite Hc, length_app, He. simpl. lia. }
  unfold a'. simpl. rewrite Ht. split_and!.
  - constructor. exists (chain a), pt. split_and!; simpl; [done| |done|].
    + unfold n. rewrite Hc, length_app, He. simpl. lia.
    + rewrite Hc. apply Forall_app. split; [done|by apply Forall_singleton].
  - rewrite live_chain_app. f_equal. unfold live_chain. simpl. by rewrite Hlive.
  - unfold kaddrs. simpl. rewrite Hc. by destruct full; simpl; rewrite ?fmap_app.
Qed.

(** * The state invariant *)
Lemma set_coremap_id cm : set_coremap (coremap cm) cm = cm.
Proof. by destruct cm. Qed.

(** [s] after a page operation: new coremap contents, new address spaces. *)
Definition upd_vm (l : list cm_entry) (m : gmap Z addrspace) (s : vmstate) : vmstate :=
  VmState (set_coremap l (vs_cm s)) (vs_mem s) (vs_tlb s) m (t_addrspace s).

(** Fields [addPageEntry] does not touch. *)
Definition same_regions (a a' : addrspace) : Prop :=
  vbreakbase a' = vbreakbase a ∧ vbreaktop a' = vbreaktop a ∧ heapNPages a' = heapNPages a ∧
  vstart a' = vstart a ∧ codeNPages a' = codeNPages a ∧ dataNPages a' = dataNPages a.

(** Pages [us], all different, are allocated. *)
Definition owned (gs : list seg) (us : list nat) : Prop :=
  NoDup us ∧ ∀ i, i ∈ us → ∃ k, gs !! i = Some (Used 1 k).

Definition own_all (us js : list nat) (j0 : nat) : list nat := us ++ js ++ [j0].

(** The pages an address space at [p] owns: user pages [us], kernel pages [js]
    of its tables after the first and the kernel page [j0] of the struct. *)
Record as_own (cm : cmstate) (gs : list seg) (p : Z) (a : addrspace)
    (us js : list nat) (j0 : nat) : Prop := {
  own_user : page_paddr <$> live_chain (chain a) = pgaddr cm <$> us;
  own_tables : kaddrs a = (λ j, PADDR_TO_KVADDR (pgaddr cm j)) <$> js;
  own_self : p = PADDR_TO_KVADDR (pgaddr cm j0);
  own_owned : owned gs (own_all us js j0);
}.

(** Giving back pages [us]. *)
Definition free_all (us : list nat) (gs : list seg) : list seg :=
  foldl (λ g i, <[i := Free]> g) gs us.

Lemma free_all_cons i us gs : free_all (i :: us) gs = free_all us (<[i := Free]> gs).
Proof. done. Qed.

Lemma free_all_app us js gs : free_all (us ++ js) gs = free_all js (free_all us gs).
Proof. apply foldl_app. Qed.

Lemma free_all_perm us js gs : us ≡ₚ js → NoDup us → free_all us gs = free_all js gs.
Proof.
  intros Hp. revert gs. induction Hp as [|x l l' Hp IH|x y l|l l' l'' H1 IH1 H2 IH2]; intros gs Hnd.
  - done.
  - apply NoDup_cons in Hnd as [_ Hnd]. apply (IH (<[x := Free]> gs)), Hnd.
  - apply NoDup_cons in Hnd as [Hx _]. rewrite !free_all_cons.
    rewrite list_insert_insert_ne; [done|]. intros ->. apply Hx. set_solver.
  - rewrite IH1 by done. apply IH2. by rewrite <-H1.
Qed.

Lemma owned_perm gs us js : us ≡ₚ js → owned gs us → owned gs js.
Proof. intros Hp [Hn Hu]. split; [by rewrite <-Hp|]. intros i Hi. apply Hu. by rewrite Hp. Qed.

(** A newly allocated page joins the owned ones; giving all of them back then
    leads to the same state as before. *)
Lemma owned_alloc gs us i k :
  owned gs us → gs !! i = Some Free →
  owned (<[i := Used 1 k]> gs) (i :: us) ∧
  free_all (i :: us) (<[i := Used 1 k]> gs) = free_all us gs.
Proof.
  intros [Hn Hu] Hi. assert (i ∉ us) as Hni.
  { intros Hin. destruct (Hu i Hin) as [k' Hk']. congruence. }
  split; [split; [by apply NoDup_cons|]|].
  - intros j [->|Hj]%elem_of_cons.
    + exists k. apply list_lookup_insert_eq. by eapply lookup_lt_Some.
    + rewrite list_lookup_insert_ne by set_solver. by apply Hu.
  - by rewrite free_all_cons, list_insert_insert_eq, list_insert_id.
Qed.

Lemma used_kept (gs : list seg) i g j k :
  gs !! i = Some Free → gs !! j = Some (Used 1 k) → <[i := g]> gs !! j = Some (Used 1 k).
Proof. intros Hi Hj. rewrite list_lookup_insert_ne; [done|congruence]. Qed.

Lemma free_back (gs : list seg) i n k j : <[i := Used n k]> gs !! j = Some Free → gs !! j = Some Free.
Proof. rewrite list_lookup_insert_Some. naive_solver. Qed.

Definition nfree (gs : list seg) : nat := length (filter (λ g, g = Free) gs).

Lemma nfree_insert gs i k : gs !! i = Some Free → S (nfree (<[i := Used 1 k]> gs)) = nfree gs.
Proof.
  intros Hi. unfold nfree. rewrite <-(take_drop_middle gs i Free Hi) at 2.
  rewrite insert_take_drop by (by eapply lookup_lt_Some).
  rewrite !filter_app, !filter_cons, !length_app.
  rewrite decide_False by done. rewrite decide_True by done. simpl. lia.
Qed.

Lemma nfree_pos gs : (0 < nfree gs)%nat → Free ∈ gs.
Proof.
  unfold nfree. destruct (filter (λ g, g = Free) gs) as [|g l] eqn:E; simpl; [lia|]. intros _.
  assert (g ∈ filter (λ g, g = Free) gs) as Hg by (rewrite E; set_solver).
  apply list_elem_of_filter in Hg as [-> ?]. done.
Qed.

#[global] Arguments junk_table : simpl never.

Set Default Proof Using "Type".
Section with_hardware_proofs.
Context (junk : Z → nat → page_entry) (random_slot : vmstate → Z).

Lemma wp_kmalloc_page sz s gs (Q : Z → vmstate → Prop) :
  pages (vs_cm s) gs → 1 ≤ sz ≤ PAGE_SIZE →
  (∀ i l, gs !! i = Some Free →
     pages (set_coremap l (vs_cm s)) (<[i := Used 1 true]> gs) →
     Q (PADDR_TO_KVADDR (pgaddr (vs_cm s) i)) (upd_vm l (vs_as s) s)) →
  (Free ∉ gs → Q 0 s) →
  wp (kmalloc_large sz) Q s.
Proof.
  intros Hp Hsz HQ HQ0. unfold kmalloc_large, PAGE_SIZE in *. apply wp_zoom.
  rewrite (u32_id (sz + 4096 - 1)) by lia.
  assert ((sz + 4096 - 1) / 4096 = 1) as -> by (symmetry; apply Z.div_unique with (sz - 1); lia).
  rewrite s32_id by lia. eapply wp_alloc_kpage1; [done| |].
  - intros i l Hi Hp'. by apply HQ.
  - intros Hno. specialize (HQ0 Hno). by destruct s.
Qed.

Lemma kvaddr_pgaddr cm gs i :
  pages cm gs → (i < length gs)%nat →
  PADDR_TO_KVADDR (pgaddr cm i) = pgaddr cm i + MIPS_KSEG0 ∧
  (PADDR_TO_KVADDR (pgaddr cm i) =? 0) = false ∧
  PADDR_TO_KVADDR (pgaddr cm i) mod PAGE_SIZE = 0.
Proof.
  intros Hp Hi. destruct (pages_pgaddr _ _ _ Hp Hi) as [Hr Hm].
  unfold PADDR_TO_KVADDR, MIPS_KSEG0, PAGE_SIZE in *. rewrite u32_id by lia.
  split_and!; [done|blia|]. by rewrite <-Zplus_mod_idemp_l, Hm.
Qed.

Lemma junk_table_cons k :
  ∃ e rest, junk_table junk k = e :: rest ∧ length rest = 337%nat.
Proof.
  unfold junk_table. change (Z.to_nat PTABLE_ARRAY_SIZE) with (S 337).
  rewrite <-cons_seq, fmap_cons. eexists _, _. split; [done|].
  by rewrite length_fmap, length_seq.
Qed.

Lemma Forall_set_paddr_0 l : Forall (λ e, page_paddr e = 0) (set_paddr 0 <$> l).
Proof. apply Forall_fmap, Forall_true. done. Qed.

(** [addPageEntry] appends one entry to the meaning of the current address
    space; when the last table is full it takes one kernel page for the next. *)
Lemma wp_addPageEntry s gs a v pa r w x (Q : unit → vmstate → Prop) :
  pages (vs_cm s) gs → vs_as s !! t_addrspace s = Some a → wf_as a → pa ≠ 0 →
  (room a ∨ Free ∈ gs) →
  (∀ l gs' a' sh, pages (set_coremap l (vs_cm s)) gs' → wf_as a' → same_regions a a' →
     live_chain (chain a') = live_chain (chain a) ++ [PageEntry v pa r w x sh] →
     ((gs' = gs ∧ kaddrs a' = kaddrs a) ∨
      (∃ i, gs !! i = Some Free ∧ gs' = <[i := Used 1 true]> gs ∧
            kaddrs a' = kaddrs a ++ [PADDR_TO_KVADDR (pgaddr (vs_cm s) i)])) →
     Q tt (upd_vm l (<[t_addrspace s := a']> (vs_as s)) s)) →
  wp (addPageEntry junk v pa r w x) Q s.
Proof.
  intros Hp Ha Hwf Hpa Hroom HQ. unfold addPageEntry, get_as, put_as. wp_steps.
  rewrite Ha. wp_steps. destruct (decide (room a)) as [Hr|Hno].
  - destruct (add_room a v pa r w x Hwf Hr Hpa) as (c & sh & -> & Hl & Hk & Hwf').
    wp_steps. pose proof (HQ (coremap (vs_cm s)) gs (set_chain c a) sh) as HQ'.
    unfold upd_vm in HQ'. rewrite set_coremap_id in HQ'. apply HQ'; [done|done|done|done|].
    left. split; [done|]. unfold kaddrs. simpl.
    by destruct c, (chain a); simplify_eq/=.
  - rewrite add_no_room by done. apply wp_bind_2. destruct Hroom as [?|Hfree]; [done|].
    eapply wp_kmalloc_page; [done|unfold sizeof_page_table, PAGE_SIZE; lia| |done].
    intros i l Hi Hp'.
    destruct (kvaddr_pgaddr _ _ i Hp) as (_ & -> & _); [by eapply lookup_lt_Some|].
    destruct (junk_table_cons (PADDR_TO_KVADDR (pgaddr (vs_cm s) i))) as (e0 & rest & -> & Hlen).
    wp_steps.
    destruct (wf_fresh_table (PADDR_TO_KVADDR (pgaddr (vs_cm s) i)) v pa r w x (isShared e0)
      (set_paddr 0 <$> rest)) as [Hlive Hwt]; [done|by rewrite length_fmap|apply Forall_set_paddr_0|].
    destruct (add_table a _ _ Hwf Hno Hwt Hlive) as (Hwf' & Hl' & Hk').
    eapply (HQ l _ _ (isShared e0)); [done|exact Hwf'|done|exact Hl'|].
    right. exists i. split_and!; [done..|exact Hk'].
Qed.

(** ** Mapping a fresh page *)
Record as_inv (s : vmstate) (gs : list seg) (p : Z) (a : addrspace)
    (us js : list nat) (j0 : nat) : Prop := {
  inv_pages : pages (vs_cm s) gs;
  inv_as : vs_as s !! p = Some a;
  inv_wf : wf_as a;
  inv_own : as_own (vs_cm s) gs p a us js j0;
}.

Lemma wp_alloc_add {B} (fail : M vmstate B) (k : Z → M vmstate B) s gs p a us js j0 v r w x Q :
  as_inv s gs p a us js j0 → t_addrspace s = p → (2 ≤ nfree gs)%nat →
  (∀ i l gs' a' js' sh, gs !! i = Some Free → (nfree gs ≤ 2 + nfree gs')%nat →
     let s' := upd_vm l (<[p := a']> (vs_as s)) s in
     as_inv s' gs' p a' (us ++ [i]) js' j0 → same_regions a a' →
     live_chain (chain a') = live_chain (chain a) ++ [PageEntry v (pgaddr (vs_cm s) i) r w x sh] →
     free_all (own_all (us ++ [i]) js' j0) gs' = free_all (own_all us js j0) gs →
     (∀ j k, gs !! j = Some (Used 1 k) → gs' !! j = Some (Used 1 k)) →
     (∀ j, gs' !! j = Some Free → gs !! j = Some Free) →
     wp (k (pgaddr (vs_cm s) i)) Q s') →
  wp (paddr ← zoom alloc_upage;
      if paddr =? 0 then fail else addPageEntry junk v paddr r w x;; k paddr) Q s.
Proof.
  intros [Hp Ha Hwf [Hou Hot Hos Hown]] <- Hn HQ. apply wp_bind_2, wp_zoom.
  eapply wp_alloc_upage1; [done| |intros Hno; exfalso; apply Hno, nfree_pos; lia].
  intros i l Hi Hp'. destruct (pages_pgaddr _ _ i Hp) as [Hpa _]; [by eapply lookup_lt_Some|].
  rewrite (proj2 (Z.eqb_neq _ _)) by (simpl; lia). apply wp_bind_2.
  pose proof (nfree_insert gs i false Hi) as Hn1.
  destruct (owned_alloc _ _ i false Hown Hi) as [Hown1 Hfa1].
  eapply wp_addPageEntry; [exact Hp'|done|done|simpl; lia|right; apply nfree_pos; lia|].
  intros l' gs' a' sh Hp'' Hwf' Hreg Hlive Hcase. simpl in *.
  change (wp (k (pgaddr (vs_cm s) i)) Q (upd_vm l' (<[t_addrspace s := a']> (vs_as s)) s)).
  assert (page_paddr <$> live_chain (chain a') = pgaddr (vs_cm s) <$> us ++ [i]) as Hou'.
  { by rewrite Hlive, !fmap_app, Hou. }
  destruct Hcase as [[-> Hk]|(i' & Hi' & -> & Hk)].
  - assert (i :: own_all us js j0 ≡ₚ own_all (us ++ [i]) js j0) as Hperm
      by (unfold own_all; solve_Permutation).
    apply (HQ i l' (<[i:=Used 1 false]> gs) a' js sh); [done|lia| |done|done| |by intros; apply used_kept|apply free_back].
    + constructor; [done|by simpl; apply lookup_insert_eq|done|].
      constructor; [done|by rewrite Hk|done|]. by eapply owned_perm.
    + rewrite <-(free_all_perm _ _ _ Hperm); [done|apply Hown1].
  - pose proof (nfree_insert _ i' true Hi') as Hn2.
    destruct (owned_alloc _ _ i' true Hown1 Hi') as [Hown2 Hfa2].
    assert (i' :: i :: own_all us js j0 ≡ₚ own_all (us ++ [i]) (js ++ [i']) j0) as Hperm
      by (unfold own_all; solve_Permutation).
    apply (HQ i l' (<[i' := Used 1 true]> (<[i := Used 1 false]> gs)) a' (js ++ [i']) sh); [done|lia| |done|done| | |].
    + constructor; [done|by simpl; apply lookup_insert_eq|done|].
      constructor; [done|by rewrite Hk, Hot, fmap_app|done|]. by eapply owned_perm.
    + rewrite <-(free_all_perm _ _ _ Hperm); [by rewrite Hfa2|apply Hown2].
    + intros. apply used_kept; [done|by apply used_kept].
    + intros. by eapply free_back, free_back.
Qed.

(** ** Destroying an address space *)
Lemma owned_cons_free gs i us : owned gs (i :: us) → owned (<[i := Free]> gs) us.
Proof.
  intros [Hn Hu]. apply NoDup_cons in Hn as [Hi Hn]. split; [done|].
  intros j Hj. rewrite list_lookup_insert_ne by set_solver. apply Hu. set_solver.
Qed.

Lemma owned_app_free gs us js : owned gs (us ++ js) → owned (free_all us gs) js.
Proof.
  revert gs. induction us as [|i us IH]; intros gs Ho; [done|].
  rewrite free_all_cons. apply IH. by apply owned_cons_free.
Qed.

Lemma owned_app_l gs us js : owned gs (us ++ js) → owned gs us.
Proof.
  intros [Hn Hu]. apply NoDup_app in Hn as (Hn & _ & _). split; [done|].
  intros i Hi. apply Hu. set_solver.
Qed.

Lemma wp_free_entries l us s gs (Q : unit → vmstate → Prop) :
  pages (vs_cm s) gs → page_paddr <$> live l = pgaddr (vs_cm s) <$> us → owned gs us →
  (∀ cl, pages (set_coremap cl (vs_cm s)) (free_all us gs) → Q tt (upd_vm cl (vs_as s) s)) →
  wp (free_entries l) Q s.
Proof.
  clear random_slot junk.
  revert us s gs. induction l as [|e l IH]; intros us s gs Hp Hl Ho HQ; simpl in *.
  - destruct us; [|done]. specialize (HQ (coremap (vs_cm s))). unfold upd_vm in HQ.
    rewrite set_coremap_id in HQ. apply wp_ret. destruct s. by apply HQ.
  - destruct (Z.eqb_spec (page_paddr e) 0) as [He|He]; simpl in *.
    + destruct us; [|done]. specialize (HQ (coremap (vs_cm s))). unfold upd_vm in HQ.
      rewrite set_coremap_id in HQ. apply wp_ret. destruct s. by apply HQ.
    + destruct us as [|i us]; [done|]. simpl in Hl. injection Hl as Hpa Hl.
      destruct Ho as [Hn Hu]. destruct (Hu i ltac:(set_solver)) as [k Hk].
      apply wp_bind_2, wp_zoom. rewrite Hpa. eapply wp_page_free1; [done|done|].
      intros cl Hp'. eapply (IH us (upd_vm cl (vs_as s) s)); [exact Hp'|done| |].
      * by apply owned_cons_free.
      * intros cl' Hp''. by apply HQ.
Qed.

Lemma wp_free_tables c us s gs (Q : unit → vmstate → Prop) :
  pages (vs_cm s) gs → page_paddr <$> live_chain c = pgaddr (vs_cm s) <$> us → owned gs us →
  (∀ cl, pages (set_coremap cl (vs_cm s)) (free_all us gs) → Q tt (upd_vm cl (vs_as s) s)) →
  wp (free_tables c) Q s.
Proof.
  revert us s gs. induction c as [|pt c IH]; intros us s gs Hp Hl Ho HQ; simpl in *.
  - destruct us; [|done]. specialize (HQ (coremap (vs_cm s))). unfold upd_vm in HQ.
    rewrite set_coremap_id in HQ. apply wp_ret. destruct s. by apply HQ.
  - change (live_chain (pt :: c)) with (live (table pt) ++ live_chain c) in Hl.
    rewrite fmap_app in Hl. symmetry in Hl. apply fmap_app_inv in Hl as (us1 & us2 & H1 & H2 & ->).
    apply wp_bind_2. eapply wp_free_entries; [done|done|by eapply owned_app_l|].
    intros cl Hp'. eapply (IH us2 (upd_vm cl (vs_as s) s)); [exact Hp'|done|by apply owned_app_free|].
    intros cl' Hp''. rewrite <-free_all_app in Hp''. by apply HQ.
Qed.

Lemma wp_kfree_tables c js s gs (Q : unit → vmstate → Prop) :
  pages (vs_cm s) gs →
  pt_kaddr <$> c = (λ j, PADDR_TO_KVADDR (pgaddr (vs_cm s) j)) <$> js → owned gs js →
  (∀ cl, pages (set_coremap cl (vs_cm s)) (free_all js gs) → Q tt (upd_vm cl (vs_as s) s)) →
  wp (kfree_tables c) Q s.
Proof.
  clear random_slot junk.
  revert js s gs. induction c as [|pt c IH]; intros js s gs Hp Hl Ho HQ; simpl in *.
  - destruct js; [|done]. specialize (HQ (coremap (vs_cm s))). unfold upd_vm in HQ.
    rewrite set_coremap_id in HQ. apply wp_ret. destruct s. by apply HQ.
  - destruct js as [|j js]; [done|]. simpl in Hl. injection Hl as Hk Hl.
    destruct Ho as [Hn Hu]. destruct (Hu j ltac:(set_solver)) as [k Hj].
    destruct (kvaddr_pgaddr _ _ j Hp) as (_ & _ & Ha); [by eapply lookup_lt_Some|].
    apply wp_bind_2. unfold kfree_large. rewrite Hk, Ha. wp_steps. apply wp_zoom.
    eapply wp_free_kpages1; [done|done|]. intros cl Hp'.
    eapply (IH js (upd_vm cl (vs_as s) s)); [exact Hp'|done| |].
    + by apply owned_cons_free.
    + intros cl' Hp''. by apply HQ.
Qed.

Lemma wp_as_destroy s gs p a us js j0 (Q : unit → vmstate → Prop) :
  as_inv s gs p a us js j0 →
  (∀ cl, pages (set_coremap cl (vs_cm s)) (free_all (own_all us js j0) gs) →
     Q tt (upd_vm cl (delete p (vs_as s)) s)) →
  wp (as_destroy p) Q s.
Proof.
  clear random_slot junk.
  intros [Hp Ha Hwf [Hou Hot Hos Ho]] HQ. unfold as_destroy, get_as, del_as. wp_steps.
  rewrite Ha. wp_steps. unfold own_all in *.
  eapply wp_free_tables; [done|done|by eapply owned_app_l|].
  intros cl Hp1. apply wp_bind_2. apply owned_app_free in Ho.
  eapply (wp_kfree_tables _ js (upd_vm cl (vs_as s) s)); [exact Hp1|done|by eapply owned_app_l|].
  intros cl2 Hp2. rewrite <-free_all_app in Hp2. apply wp_bind_2.
  apply owned_app_free in Ho. rewrite <-free_all_app in Ho.
  destruct Ho as [_ Hu]. destruct (Hu j0 ltac:(set_solver)) as [k Hj].
  destruct (kvaddr_pgaddr _ _ j0 Hp2) as (_ & _ & Hal); [by eapply lookup_lt_Some|].
  unfold kfree_large. simpl in Hal. change (pgaddr (set_coremap cl2 (set_coremap cl (vs_cm s))) j0)
    with (pgaddr (vs_cm s) j0) in Hal. rewrite Hos, Hal. wp_steps. apply wp_zoom.
  apply (wp_free_kpages1 (set_coremap cl2 (vs_cm s)) (free_all (us ++ js) gs) j0 k); [exact Hp2|done|].
  intros cl3 Hp3. wp_steps.
  rewrite <-Hos. apply HQ. rewrite app_assoc, free_all_app. exact Hp3.
Qed.

(** ** Growing an address space leaves everything allocated before alone *)
Definition same_page (m m' : Z → Z) (pa pa' : Z) : Prop :=
  ∀ o, 0 ≤ o < PAGE_SIZE → m (pa + o) = m' (pa' + o).
Definition zeroed (m : Z → Z) (pa : Z) : Prop := ∀ o, 0 ≤ o < PAGE_SIZE → m (pa + o) = 0.

Record vm_grow (p : Z) (s : vmstate) (gs : list seg) (s' : vmstate) (gs' : list seg) : Prop := {
  g_cm : ∃ l, vs_cm s' = set_coremap l (vs_cm s);
  g_tlb : vs_tlb s' = vs_tlb s;
  g_cur : t_addrspace s' = t_addrspace s;
  g_as : ∀ q, q ≠ p → vs_as s' !! q = vs_as s !! q;
  g_used : ∀ j k, gs !! j = Some (Used 1 k) → gs' !! j = Some (Used 1 k);
  g_free : ∀ j, gs' !! j = Some Free → gs !! j = Some Free;
  g_mem : ∀ j k, gs !! j = Some (Used 1 k) →
    same_page (vs_mem s) (vs_mem s') (pgaddr (vs_cm s) j) (pgaddr (vs_cm s) j);
}.

Lemma vm_grow_refl p s gs : vm_grow p s gs s gs.
Proof. constructor; try done. exists (coremap (vs_cm s)). by rewrite set_coremap_id. Qed.

Lemma vm_grow_pgaddr p s gs s' gs' i : vm_grow p s gs s' gs' → pgaddr (vs_cm s') i = pgaddr (vs_cm s) i.
Proof. intros [(l & ->) _ _ _ _ _ _]. done. Qed.

Lemma vm_grow_trans p s gs s1 gs1 s2 gs2 :
  vm_grow p s gs s1 gs1 → vm_grow p s1 gs1 s2 gs2 → vm_grow p s gs s2 gs2.
Proof.
  intros H1 H2. constructor.
  - destruct (g_cm _ _ _ _ _ H1) as (l & E1), (g_cm _ _ _ _ _ H2) as (l2 & E2).
    exists l2. by rewrite E2, E1.
  - by rewrite (g_tlb _ _ _ _ _ H2), (g_tlb _ _ _ _ _ H1).
  - by rewrite (g_cur _ _ _ _ _ H2), (g_cur _ _ _ _ _ H1).
  - intros q Hq. by rewrite (g_as _ _ _ _ _ H2), (g_as _ _ _ _ _ H1).
  - intros j k Hj. eapply H2, H1, Hj.
  - intros j Hj. eapply H1, H2, Hj.
  - intros j k Hj o Ho. rewrite (g_mem _ _ _ _ _ H1 j k Hj o Ho).
    pose proof (g_mem _ _ _ _ _ H2 j k (g_used _ _ _ _ _ H1 j k Hj) o Ho) as E.
    by rewrite (vm_grow_pgaddr _ _ _ _ _ _ H1) in E.
Qed.

Lemma pgaddr_disjoint cm i j o : i ≠ j → 0 ≤ o < PAGE_SIZE →
  ¬ (pgaddr cm j ≤ pgaddr cm i + o < pgaddr cm j + PAGE_SIZE).
Proof. intros Hij Ho. unfold pgaddr, PAGE_SIZE in *. nia. Qed.

(** A map [f] of memory that only changes page [i]. *)
Lemma vm_grow_write p s gs s' gs' i m :
  vm_grow p s gs s' gs' → gs !! i = Some Free →
  (∀ x, ¬ (pgaddr (vs_cm s) i ≤ x < pgaddr (vs_cm s) i + PAGE_SIZE) → m x = vs_mem s' x) →
  vm_grow p s gs (set_mem m s') gs'.
Proof.
  intros [H1 H2 H3 H4 H5 H5' H6] Hi Hm. constructor; try done.
  intros j k Hj o Ho. simpl. rewrite Hm; [by eapply H6|].
  apply pgaddr_disjoint; [congruence|done].
Qed.

Lemma vm_grow_upd p s gs l gs' a' :
  (∀ j k, gs !! j = Some (Used 1 k) → gs' !! j = Some (Used 1 k)) →
  (∀ j, gs' !! j = Some Free → gs !! j = Some Free) →
  vm_grow p s gs (upd_vm l (<[p := a']> (vs_as s)) s) gs'.
Proof.
  intros Hu Hf. constructor; try done; [by exists l|].
  intros q Hq. simpl. by rewrite lookup_insert_ne.
Qed.

Lemma vm_grow_set_as p s gs a' : vm_grow p s gs (set_ases (<[p := a']> (vs_as s)) s) gs.
Proof.
  constructor; try done; [exists (coremap (vs_cm s)); by rewrite set_coremap_id|].
  intros q Hq. simpl. by rewrite lookup_insert_ne.
Qed.

Lemma vm_grow_alloc p s gs l i k :
  gs !! i = Some Free → vm_grow p s gs (upd_vm l (vs_as s) s) (<[i := Used 1 k]> gs).
Proof. intros Hi. constructor; try done; [by exists l|by intros; apply used_kept|apply free_back]. Qed.

(** What a freshly loaded run of pages looks like. *)
Definition fresh_run (v : Z) (m : Z → Z) (es : list page_entry) : Prop :=
  ∀ k e, es !! k = Some e →
    page_vaddr e = u32 (v + PAGE_SIZE * Z.of_nat k) ∧ isRead e = true ∧ isWrite e = true ∧
    isExe e = false ∧ zeroed m (page_paddr e).

Lemma same_regions_trans a b c : same_regions a b → same_regions b c → same_regions a c.
Proof. unfold same_regions. intuition congruence. Qed.

Definition zero_page (pa : Z) (m : Z → Z) : Z → Z :=
  λ a, if (pa <=? a) && (a <? pa + 1 * PAGE_SIZE) then 0 else m a.

Lemma zero_page_zeroed pa m : zeroed (zero_page pa m) pa.
Proof.
  intros o Ho. unfold zero_page, PAGE_SIZE in *.
  by rewrite (proj2 (Z.leb_le _ _)), (proj2 (Z.ltb_lt _ _)) by lia.
Qed.
Lemma zero_page_keep pa m q : zeroed m q → zeroed (zero_page pa m) q.
Proof. intros Hz o Ho. unfold zero_page. rewrite Hz by done. by destruct (_ && _). Qed.
Lemma zero_page_other pa m x : ¬ (pa ≤ x < pa + PAGE_SIZE) → zero_page pa m x = m x.
Proof.
  intros Hx. unfold zero_page. destruct (Z.leb_spec pa x), (Z.ltb_spec x (pa + 1 * PAGE_SIZE));
    simpl; try done. lia.
Qed.

Lemma fresh_run_snoc v m pa es sh :
  fresh_run v m es →
  fresh_run v (zero_page pa m)
    (es ++ [PageEntry (u32 (v + PAGE_SIZE * Z.of_nat (length es))) pa true true false sh]).
Proof.
  intros He k e Hk. apply lookup_app_Some in Hk as [Hk|[Hk Hk']].
  - destruct (He k e Hk) as (? & ? & ? & ? & Hz). split_and!; try done. by apply zero_page_keep.
  - apply list_lookup_singleton_Some in Hk' as [Hk0 <-]. simpl.
    assert (k = length es) as -> by lia. split_and!; try done. apply zero_page_zeroed.
Qed.

(** The result of mapping fresh pages into the address space at [p]. *)
Record loaded (s : vmstate) gs p a us js j0 (s' : vmstate) gs' a' us' js'
    (es : list page_entry) : Prop := {
  ld_inv : as_inv s' gs' p a' us' js' j0;
  ld_grow : vm_grow p s gs s' gs';
  ld_regions : same_regions a a';
  ld_live : live_chain (chain a') = live_chain (chain a) ++ es;
  ld_free : free_all (own_all us' js' j0) gs' = free_all (own_all us js j0) gs;
  ld_zero : ∀ q, zeroed (vs_mem s) q → zeroed (vs_mem s') q;
}.

Lemma wp_load_region s gs p a us js j0 v n (Q : option errno → vmstate → Prop) :
  as_inv s gs p a us js j0 → t_addrspace s = p → (2 * n ≤ nfree gs)%nat →
  (∀ s' gs' a' us' js' es, loaded s gs p a us js j0 s' gs' a' us' js' es →
     length es = n → fresh_run v (vs_mem s') es → (nfree gs ≤ 2 * n + nfree gs')%nat → Q None s') →
  wp (load_region junk p v (Z.of_nat n)) Q s.
Proof.
  intros Hinv Hcur Hn HQ. unfold load_region. rewrite Nat2Z.id.
  eapply (wp_for_ret (λ j s', ∃ gs' a' us' js' es,
    loaded s gs p a us js j0 s' gs' a' us' js' es ∧ j = Z.of_nat (length es) ∧
    fresh_run v (vs_mem s') es ∧ (nfree gs ≤ 2 * length es + nfree gs')%nat)).
  - exists gs, a, us, js, []. split_and!; [|done|done|simpl; lia].
    constructor; [done|apply vm_grow_refl|done|by rewrite app_nil_r|done|done].
  - intros j s' Hj (gs' & a' & us' & js' & es & [Hi Hg Hr Hl Hf Hz] & -> & Hfr & Hnf).
    eapply wp_alloc_add; [exact Hi|by rewrite (g_cur _ _ _ _ _ Hg)|lia|].
    intros i l gs2 a2 js2 sh Hfree Hnf2 s2 Hinv2 Hr2 Hl2 Hf2 Hk2 Hb2.
    unfold as_zero_region. wp_steps. fold (zero_page (pgaddr (vs_cm s') i) (vs_mem s2)).
    set (e := PageEntry (u32 (v + PAGE_SIZE * Z.of_nat (length es))) (pgaddr (vs_cm s') i)
      true true false sh).
    exists gs2, a2, (us' ++ [i]), js2, (es ++ [e]). split_and!.
    + constructor.
      * destruct Hinv2 as [? ? ? ?]. by constructor.
      * eapply vm_grow_trans; [exact Hg|].
        eapply vm_grow_write; [by apply vm_grow_upd|exact Hfree|].
        intros x Hx. by rewrite zero_page_other.
      * by eapply same_regions_trans.
      * rewrite Hl2, Hl. by rewrite <-app_assoc.
      * by rewrite Hf2.
      * intros q Hq. by apply zero_page_keep, Hz.
    + rewrite length_app. simpl. lia.
    + by apply fresh_run_snoc.
    + rewrite length_app. simpl. lia.
  - intros s' (gs' & a' & us' & js' & es & Hld & Hle & Hfr & Hnf).
    assert (length es = n) by lia. subst n. by eapply HQ.
Qed.

Lemma loaded_trans s gs p a us js j0 s1 gs1 a1 us1 js1 es1 s2 gs2 a2 us2 js2 es2 :
  loaded s gs p a us js j0 s1 gs1 a1 us1 js1 es1 →
  loaded s1 gs1 p a1 us1 js1 j0 s2 gs2 a2 us2 js2 es2 →
  loaded s gs p a us js j0 s2 gs2 a2 us2 js2 (es1 ++ es2).
Proof.
  intros [I1 G1 R1 L1 F1 Z1] [I2 G2 R2 L2 F2 Z2]. constructor.
  - done.
  - by eapply vm_grow_trans.
  - by eapply same_regions_trans.
  - by rewrite L2, L1, app_assoc.
  - by rewrite F2.
  - auto.
Qed.

Lemma fresh_run_zero v m m' es :
  (∀ q, zeroed m q → zeroed m' q) → fresh_run v m es → fresh_run v m' es.
Proof. intros Hz He k e Hk. destruct (He k e Hk) as (? & ? & ? & ? & ?). split_and!; auto. Qed.

Lemma wp_as_prepare_load s gs p a us js j0 c d (Q : result unit → vmstate → Prop) :
  as_inv s gs p a us js j0 → t_addrspace s = p →
  codeNPages a = Z.of_nat c → dataNPages a = Z.of_nat d → (2 * (c + d) ≤ nfree gs)%nat →
  (∀ s' gs' a' us' js' es1 es2, loaded s gs p a us js j0 s' gs' a' us' js' (es1 ++ es2) →
     length es1 = c → length es2 = d → fresh_run (vstart a) (vs_mem s') es1 →
     fresh_run (u32 (vbreakbase a - u32 (Z.of_nat d * PAGE_SIZE))) (vs_mem s') es2 →
     Q (inr tt) s') →
  wp (as_prepare_load junk p) Q s.
Proof.
  intros Hinv Hcur Hc Hd Hn HQ. unfold as_prepare_load, get_as. wp_steps.
  rewrite (inv_as _ _ _ _ _ _ _ Hinv). wp_steps. rewrite Hc.
  eapply wp_load_region; [done|done|lia|].
  intros s1 gs1 a1 us1 js1 es1 Hld1 Hlen1 Hf1 Hn1. wp_steps.
  pose proof (ld_inv _ _ _ _ _ _ _ _ _ _ _ _ _ Hld1) as Hinv1.
  pose proof (ld_regions _ _ _ _ _ _ _ _ _ _ _ _ _ Hld1) as (Hb & _ & _ & _ & _ & Hd1).
  rewrite (inv_as _ _ _ _ _ _ _ Hinv1). wp_steps. rewrite Hb, Hd1, Hd.
  eapply wp_load_region; [done| |lia|].
  { by rewrite (g_cur _ _ _ _ _ (ld_grow _ _ _ _ _ _ _ _ _ _ _ _ _ Hld1)). }
  intros s2 gs2 a2 us2 js2 es2 Hld2 Hlen2 Hf2 Hn2. wp_steps.
  eapply HQ; [by eapply loaded_trans|done|done| |done].
  eapply fresh_run_zero; [|done]. apply Hld2.
Qed.

Lemma as_inv_regions s gs p a us js j0 b t h v c d :
  as_inv s gs p a us js j0 →
  let a' := AddrSpace b t h v (chain a) (as_end a) c d in
  as_inv (set_ases (<[p := a']> (vs_as s)) s) gs p a' us js j0.
Proof.
  intros [Hp Ha [Hwf] [Hou Hot Hos Ho]] a'. constructor; [done|by simpl; apply lookup_insert_eq| |].
  - constructor. exact Hwf.
  - by constructor.
Qed.

(** ** Protection bits *)
Definition prot (codeTop dataTop : Z) (e : page_entry) : page_entry :=
  if page_vaddr e <? codeTop then
    PageEntry (page_vaddr e) (page_paddr e) true false true (isShared e)
  else if page_vaddr e <? dataTop then
    PageEntry (page_vaddr e) (page_paddr e) true true false (isShared e)
  else e.

Lemma prot_paddr ct dt e : page_paddr (prot ct dt e) = page_paddr e.
Proof. unfold prot. by repeat case_match. Qed.
Lemma prot_vaddr ct dt e : page_vaddr (prot ct dt e) = page_vaddr e.
Proof. unfold prot. by repeat case_match. Qed.

Lemma complete_entries_split ct dt used rest :
  Forall (λ e, page_paddr e ≠ 0) used → Forall (λ e, page_paddr e = 0) rest →
  complete_entries ct dt (used ++ rest) = (prot ct dt <$> used) ++ rest.
Proof.
  induction 1 as [|e used He _ IH]; simpl; intros Hr.
  - destruct Hr as [|e rest He _]; simpl; [done|]. by rewrite He.
  - rewrite (proj2 (Z.eqb_neq _ _) He). by rewrite IH.
Qed.

Definition complete_table (ct dt : Z) (pt : page_table) : page_table :=
  PageTable (pt_kaddr pt) (complete_entries ct dt (table pt)) (entry_count pt).

Lemma live_complete ct dt pt : wf_table pt →
  live (table (complete_table ct dt pt)) = prot ct dt <$> live (table pt) ∧
  wf_table (complete_table ct dt pt).
Proof.
  intros [Hlen Hcnt Hemp]. pose proof (live_nonzero (table pt)) as Hnz.
  pose proof (live_prefix (table pt)) as Hp.
  remember (live (table pt)) as used. remember (drop (length used) (table pt)) as rest.
  assert (table (complete_table ct dt pt) = (prot ct dt <$> used) ++ rest) as Ht
    by (simpl; rewrite Hp; by apply complete_entries_split).
  assert (live (table (complete_table ct dt pt)) = prot ct dt <$> used) as Hl.
  { rewrite Ht. apply live_app_dead; [|done]. apply Forall_fmap.
    eapply Forall_impl; [exact Hnz|]. intros e He. simpl. by rewrite prot_paddr. }
  split; [done|]. constructor.
  - rewrite Ht, length_app, length_fmap. rewrite Hp, length_app in Hlen. done.
  - rewrite Hl, length_fmap. by rewrite <-Hcnt.
  - rewrite Hl, Ht, drop_app_length' by (by rewrite length_fmap). done.
Qed.

Lemma live_chain_complete ct dt c :
  Forall wf_table c → live_chain (complete_table ct dt <$> c) = prot ct dt <$> live_chain c.
Proof.
  induction 1 as [|pt c Hpt _ IH]; [done|].
  change (live_chain (complete_table ct dt <$> pt :: c)) with
    (live (table (complete_table ct dt pt)) ++ live_chain (complete_table ct dt <$> c)).
  change (live_chain (pt :: c)) with (live (table pt) ++ live_chain c).
  by rewrite fmap_app, (proj1 (live_complete ct dt pt Hpt)), IH.
Qed.

Lemma wf_as_tables a : wf_as a → Forall wf_table (chain a).
Proof.
  intros [(full & lst & -> & _ & Hl & Hf)]. apply Forall_app. split; [|by apply Forall_singleton].
  eapply Forall_impl; [exact Hf|]. naive_solver.
Qed.

Lemma wp_as_complete_load s gs p a us js j0 (Q : result unit → vmstate → Prop) :
  as_inv s gs p a us js j0 →
  (let ct := u32 (vstart a + u32 (PAGE_SIZE * codeNPages a)) in
   let a' := set_chain (complete_table ct (vbreakbase a) <$> chain a) a in
   let s' := set_ases (<[p := a']> (vs_as s)) s in
   live_chain (chain a') = prot ct (vbreakbase a) <$> live_chain (chain a) →
   as_inv s' gs p a' us js j0 → Q (inr tt) s') →
  wp (as_complete_load p) Q s.
Proof.
  intros [Hp Ha Hwf [Hou Hot Hos Ho]] HQ. unfold as_complete_load, get_as, put_as. wp_steps.
  rewrite Ha. wp_steps. pose proof (wf_as_tables _ Hwf) as Hall.
  set (ct := u32 (vstart a + u32 (PAGE_SIZE * codeNPages a))) in *.
  assert (live_chain (complete_table ct (vbreakbase a) <$> chain a) =
    prot ct (vbreakbase a) <$> live_chain (chain a)) as Hl by (by apply live_chain_complete).
  apply HQ; [done|]. constructor; [done|by simpl; apply lookup_insert_eq| |].
  - destruct Hwf as [(full & lst & Hc & He & Hlst & Hf)]. constructor.
    exists (complete_table ct (vbreakbase a) <$> full), (complete_table ct (vbreakbase a) lst).
    simpl. rewrite Hc, fmap_app, length_fmap. split_and!; [done|done|by apply live_complete|].
    apply Forall_fmap. eapply Forall_impl; [exact Hf|]. intros pt [Hpt Hcnt]. simpl.
    split; [by apply live_complete|done].
  - constructor; simpl; [|unfold kaddrs in *; simpl|done|done].
    + rewrite Hl, <-list_fmap_compose, <-Hou. apply list_fmap_ext. intros ? e _. apply prot_paddr.
    + rewrite <-Hot. destruct (chain a); [done|]. simpl. rewrite <-list_fmap_compose.
      by apply list_fmap_ext.
Qed.

(** ** Creation *)
Lemma wp_as_create s gs (Q : Z → vmstate → Prop) :
  pages (vs_cm s) gs →
  (∀ j0 cl, gs !! j0 = Some Free →
     let p := PADDR_TO_KVADDR (pgaddr (vs_cm s) j0) in
     let a := AddrSpace 0 0 0 0 [PageTable p (set_paddr 0 <$> junk_table junk p) 0] 0 0 0 in
     let s' := upd_vm cl (<[p := a]> (vs_as s)) s in
     let gs' := <[j0 := Used 1 true]> gs in
     as_inv s' gs' p a [] [] j0 → live_chain (chain a) = [] → free_all [j0] gs' = gs →
     (p =? 0) = false → Q p s') →
  (Free ∉ gs → Q 0 s) →
  wp (as_create junk) Q s.
Proof.
  intros Hp HQ HQ0. unfold as_create, put_as. apply wp_bind_2.
  eapply wp_kmalloc_page; [done|unfold sizeof_addrspace, PAGE_SIZE; lia| |].
  2:{ intros Hno. simpl. apply wp_ret. by apply HQ0. }
  intros i cl Hi Hp'. destruct (kvaddr_pgaddr _ _ i Hp) as (_ & Hnz & _); [by eapply lookup_lt_Some|].
  rewrite Hnz. wp_steps.
  set (p := PADDR_TO_KVADDR (pgaddr (vs_cm s) i)) in *.
  assert (live (set_paddr 0 <$> junk_table junk p) = []) as Hl.
  { apply live_dead, Forall_set_paddr_0. }
  assert (live_chain [PageTable p (set_paddr 0 <$> junk_table junk p) 0] = []) as Hlc.
  { rewrite live_chain_cons. cbn [table]. by rewrite Hl. }
  apply HQ; [done| |exact Hlc| |done].
  - constructor; [done|by simpl; apply lookup_insert_eq| |].
    + constructor. exists [], (PageTable p (set_paddr 0 <$> junk_table junk p) 0).
      split_and!; [done|done| |done]. constructor; cbn [table]; rewrite ?Hl.
      * unfold junk_table. by rewrite !length_fmap, length_seq.
      * done.
      * rewrite drop_0. apply Forall_set_paddr_0.
    + constructor; [exact (f_equal (fmap page_paddr) Hlc)|done|done|].
      apply (owned_alloc gs [] i true); [|done]. split; [constructor|by intros ? ?%elem_of_nil].
  - rewrite free_all_cons, list_insert_insert_eq. by apply list_insert_id.
Qed.

(** ** Installing a translation *)
(** [s] with interrupts off, between [splhigh] and [splx]. *)
Definition hi_st (s : vmstate) : vmstate :=
  sub_put (CpuState true (c_self (cm_cpu (vs_cm s))) false 1 1) s.

(** Outside any critical section. *)
Definition quiet (s : vmstate) : Prop :=
  unlocked (vs_cm s) ∧ t_curspl (cm_cpu (vs_cm s)) = 0 ∧ length (vs_tlb s) = 64%nat.

Lemma wp_splhigh s (Q : Z → vmstate → Prop) :
  quiet s → Q 0 (hi_st s) → wp (zoom splhigh) Q s.
Proof.
  destruct s as [[[ex me irq n cur] ? ? ? ? ? ? ?] ? ? ? ?].
  intros [(_ & He & Hn & Hi) [Hc _]] HQ. simpl in *. subst. exact HQ.
Qed.

Lemma wp_splx_low s (Q : Z → vmstate → Prop) :
  quiet s → (∀ z, Q z s) → wp (zoom (splx 0)) Q (hi_st s).
Proof.
  destruct s as [[[ex me irq n cur] ? ? ? ? ? ? ?] ? ? ? ?].
  intros [(_ & He & Hn & Hi) [Hc _]] HQ. simpl in *. subst. apply HQ.
Qed.

Lemma hi_tlb s : vs_tlb (hi_st s) = vs_tlb s.
Proof. done. Qed.

Definition tlb_entry (ehi paddr : Z) : Z * Z := (ehi, Z.lor (Z.lor paddr TLBLO_DIRTY) TLBLO_VALID).

Lemma wp_tlb_write s ehi elo i (Q : unit → vmstate → Prop) :
  0 ≤ i < Z.of_nat (length (vs_tlb s)) →
  Q tt (set_tlb (<[Z.to_nat i := (ehi, elo)]> (vs_tlb s)) s) → wp (tlb_write ehi elo i) Q s.
Proof. intros Hi HQ. unfold tlb_write. wp_steps. by rewrite zset_Some by done. Qed.

Lemma wp_tlb_install s ehi pa (Q : result unit → vmstate → Prop) :
  quiet s → (∀ t, 0 ≤ random_slot t < NUM_TLB) →
  (∀ i, (i < 64)%nat → Q (inr tt) (set_tlb (<[i := tlb_entry ehi pa]> (vs_tlb s)) s)) →
  wp (tlb_install random_slot ehi pa) Q s.
Proof.
  intros Hq Hrand HQ. pose proof Hq as (_ & _ & Hlen). unfold NUM_TLB in *.
  unfold tlb_install, NUM_TLB. apply wp_bind_2, wp_splhigh; [done|]. apply wp_bind_2.
  assert (∀ i, (i < 64)%nat → quiet (set_tlb (<[i := tlb_entry ehi pa]> (vs_tlb s)) s)) as Hq'.
  { intros i Hi. destruct Hq as (? & ? & ?). split_and!; [done..|]. simpl. by rewrite length_insert. }
  eapply (wp_for_ret (λ _ s', s' = hi_st s)); [done| |].
  - intros j s' Hj ->. unfold tlb_read. wp_steps.
    destruct (zget_is_Some (vs_tlb (hi_st s)) j) as [[h lo] Hlo]; [rewrite hi_tlb; lia|].
    rewrite Hlo. wp_steps. cbv iota.
    destruct (Z.land lo TLBLO_VALID =? 0); simpl negb; cbv iota; [|by wp_steps].
    apply wp_bind_2. apply wp_tlb_write; [rewrite hi_tlb; lia|]. apply wp_bind_2.
    apply (wp_splx_low (set_tlb (<[Z.to_nat j := tlb_entry ehi pa]> (vs_tlb s)) s)); [apply Hq'; lia|].
    intros _. wp_steps. apply HQ. lia.
  - intros s' ->. wp_steps. specialize (Hrand (hi_st s)).
    apply wp_tlb_write; [rewrite hi_tlb; lia|]. apply wp_bind_2.
    apply (wp_splx_low (set_tlb (<[Z.to_nat (random_slot (hi_st s)) := tlb_entry ehi pa]> (vs_tlb s)) s));
      [apply Hq'; lia|].
    intros _. wp_steps. apply HQ. lia.
Qed.

(** ** The heap *)
Lemma wp_page_alloc s gs p a us js j0 v n (Q : Z → vmstate → Prop) :
  as_inv s gs p a us js j0 → t_addrspace s = p → (2 * n ≤ nfree gs)%nat →
  0 ≤ heapNPages a → heapNPages a + Z.of_nat n < 2 ^ 32 →
  (∀ s' gs' a' us' js' es,
     loaded s gs p (set_heapNPages (heapNPages a + Z.of_nat n) a) us js j0 s' gs' a' us' js' es →
     length es = n → (∀ k e, es !! k = Some e → page_vaddr e = u32 (v + Z.of_nat k * PAGE_SIZE)) →
     Q 0 s') →
  wp (page_alloc junk (Z.of_nat n) v) Q s.
Proof.
  intros Hinv Hcur Hn Hh0 Hh HQ. unfold page_alloc. rewrite Nat2Z.id. apply wp_bind_2.
  eapply (wp_for_ret (λ j s', ∃ gs' a' us' js' es,
    loaded s gs p (set_heapNPages (heapNPages a + j) a) us js j0 s' gs' a' us' js' es ∧
    j = Z.of_nat (length es) ∧ (nfree gs ≤ 2 * length es + nfree gs')%nat ∧
    (∀ k e, es !! k = Some e → page_vaddr e = u32 (v + Z.of_nat k * PAGE_SIZE)))).
  - exists gs, a, us, js, []. split_and!; [|done|simpl; lia|done]. rewrite Z.add_0_r.
    constructor; [done|apply vm_grow_refl|done|by rewrite app_nil_r|done|done].
  - intros j s' Hj (gs' & a' & us' & js' & es & [Hi Hg Hr Hl Hf Hz] & -> & Hnf & Hes).
    eapply wp_alloc_add; [exact Hi|by rewrite (g_cur _ _ _ _ _ Hg)|lia|].
    intros i l gs2 a2 js2 sh Hfree Hnf2 s2 Hinv2 Hr2 Hl2 Hf2 Hk2 Hb2.
    unfold get_as, put_as. wp_steps.
    assert (t_addrspace s2 = p) as -> by (simpl; by rewrite (g_cur _ _ _ _ _ Hg)).
    rewrite (inv_as _ _ _ _ _ _ _ Hinv2). wp_steps.
    assert (heapNPages a2 = heapNPages a + Z.of_nat (length es)) as Hh2.
    { destruct Hr2 as (_ & _ & -> & _). destruct Hr as (_ & _ & -> & _). done. }
    set (e := PageEntry (u32 (v + Z.of_nat (length es) * PAGE_SIZE)) (pgaddr (vs_cm s') i)
      true true false sh).
    eexists gs2, (set_heapNPages (u32 (heapNPages a2 + 1)) a2), (us' ++ [i]), js2, (es ++ [e]).
    split_and!.
    + constructor.
      * by apply (as_inv_regions s2 gs2 p a2).
      * eapply vm_grow_trans; [exact Hg|].
        change (vm_grow p s' gs' (upd_vm l (<[p := set_heapNPages (u32 (heapNPages a2 + 1)) a2]>
          (<[p := a2]> (vs_as s'))) s') gs2).
        rewrite insert_insert_eq. by apply vm_grow_upd.
      * rewrite Hh2, u32_id by lia. destruct Hr2 as (? & ? & ? & ? & ? & ?).
        destruct Hr as (? & ? & ? & ? & ? & ?). unfold same_regions; simpl in *.
        split_and!; try congruence. lia.
      * simpl. rewrite Hl2, Hl. by rewrite <-app_assoc.
      * by rewrite Hf2.
      * done.
    + rewrite length_app. simpl. lia.
    + rewrite length_app. simpl. lia.
    + intros k e' Hk. apply lookup_app_Some in Hk as [Hk|[Hk Hk']]; [by eapply Hes|].
      apply list_lookup_singleton_Some in Hk' as [Hk0 <-]. simpl.
      by assert (k = length es) as -> by lia.
  - intros s' (gs' & a' & us' & js' & es & Hld & Hle & Hnf & Hes). wp_steps. simpl.
    assert (length es = n) by lia. subst n. by eapply HQ.
Qed.

(** The heap is exactly backed: pages from [vbreakbase], as many as the break
    needs, all of them mapped. *)
Record heap_tight (a : addrspace) : Prop := {
  ht_base : 0 ≤ vbreakbase a ∧ vbreakbase a mod PAGE_SIZE = 0;
  ht_top : vbreakbase a ≤ vbreaktop a < STACK_BASE - 4096;
  ht_pages : heapNPages a = (vbreaktop a - vbreakbase a + 4095) / 4096;
  ht_mapped : ∀ k, 0 ≤ k < heapNPages a →
    is_Some (find_page (vbreakbase a + k * PAGE_SIZE) (chain a));
}.

Lemma round_up_top base top :
  0 ≤ base → base mod 4096 = 0 → base ≤ top < 2 ^ 31 →
  (if top mod 4096 =? 0 then top else u32 (Z.land top PAGE_FRAME + 4096)) =
  base + (top - base + 4095) / 4096 * 4096.
Proof.
  intros Hb Hm Ht. rewrite land_PAGE_FRAME by lia. unfold PAGE_SIZE.
  apply Z.div_exact in Hm; [|lia]. set (q := base / 4096) in *.
  assert ((top - base + 4095) / 4096 = (top + 4095) / 4096 - q) as ->.
  { rewrite Hm. replace (top - 4096 * q + 4095) with (top + 4095 + (- q) * 4096) by lia.
    rewrite Z.div_add by lia. lia. }
  destruct (Z.eqb_spec (top mod 4096) 0) as [H0|H0].
  - apply Z.div_exact in H0; [|lia]. rewrite H0 at 2.
    replace (4096 * (top / 4096) + 4095) with (4095 + (top / 4096) * 4096) by lia.
    rewrite Z.div_add by lia. change (4095 / 4096) with 0. lia.
  - pose proof (Z.div_mod top 4096 ltac:(lia)). pose proof (Z.mod_pos_bound top 4096 ltac:(lia)).
    rewrite u32_id by lia.
    assert ((top + 4095) / 4096 = top / 4096 + 1) as ->; [|lia].
    symmetry. apply Z.div_unique with (top mod 4096 - 1); lia.
Qed.

Lemma ceil_rem n : 0 ≤ n →
  (if Z.rem n 4096 =? 0 then Z.quot n 4096 else Z.quot n 4096 + 1) = (n + 4095) / 4096.
Proof.
  intros Hn. rewrite Z.rem_mod_nonneg, Z.quot_div_nonneg by lia.
  pose proof (Z.div_mod n 4096 ltac:(lia)). pose proof (Z.mod_pos_bound n 4096 ltac:(lia)).
  destruct (Z.eqb_spec (n mod 4096) 0).
  - apply Z.div_unique with 4095; lia.
  - apply Z.div_unique with (n mod 4096 - 1); lia.
Qed.

Lemma div_ceil_step x n : 0 ≤ x → n * 4096 ≤ x →
  (x + 4095) / 4096 = n + (x - n * 4096 + 4095) / 4096.
Proof.
  intros Hx Hn. replace (x + 4095) with (x - n * 4096 + 4095 + n * 4096) by lia.
  rewrite Z.div_add by lia. lia.
Qed.

Lemma find_page_grow v c c' es :
  live_chain c' = live_chain c ++ es → is_Some (find_page v c) → is_Some (find_page v c').
Proof.
  rewrite !find_page_live. intros -> [e He]. rewrite lookup_v_app, He. by eexists.
Qed.

Lemma find_page_new v c c' es k e :
  live_chain c' = live_chain c ++ es → es !! k = Some e → page_vaddr e = v →
  is_Some (find_page v c').
Proof.
  rewrite find_page_live. intros -> Hk Hv. rewrite lookup_v_app.
  destruct (lookup_v v (live_chain c)) as [|]; [by eexists|].
  revert k Hk. induction es as [|e' es IH]; intros k Hk; [done|]. simpl.
  destruct (Z.eqb_spec (page_vaddr e') v); [by eexists|].
  destruct k; simplify_eq/=. by eapply IH.
Qed.

Lemma wp_sys_sbrk_grow s gs p a us js j0 amount (Q : result Z → vmstate → Prop) :
  as_inv s gs p a us js j0 → t_addrspace s = p → heap_tight a →
  0 ≤ amount → vbreaktop a + amount < STACK_BASE - 4096 →
  (2 * Z.to_nat ((amount + 4095) / 4096) ≤ nfree gs)%nat →
  (∀ s' gs' a' us' js', as_inv s' gs' p a' us' js' j0 → heap_tight a' →
     vbreakbase a' = vbreakbase a → vbreaktop a' = vbreaktop a + amount →
     vm_grow p s gs s' gs' →
     free_all (own_all us' js' j0) gs' = free_all (own_all us js j0) gs →
     Q (inr (vbreaktop a)) s') →
  wp (sys_sbrk junk amount) Q s.
Proof.
  intros Hinv Hcur Ht Ham Hmax Hn HQ. pose proof Ht as [[Hb0 Hbm] Htop Hpg Hmap].
  unfold STACK_BASE, PAGE_SIZE in *.
  unfold sys_sbrk, get_as, put_as, PAGE_SIZE, STACK_BASE. wp_steps. rewrite Hcur.
  rewrite (inv_as _ _ _ _ _ _ _ Hinv). wp_steps. simpl vbreaktop. simpl vbreakbase. simpl heapNPages.
  set (top := vbreaktop a) in *. set (base := vbreakbase a) in *.
  set (h := heapNPages a) in *.
  rewrite (u32_id (top + amount)) by lia.
  rewrite (proj2 (Z.leb_gt _ _)) by lia. rewrite (proj2 (Z.ltb_ge _ _)) by lia.
  assert (0 ≤ h ∧ h * 4096 < top - base + 4096) as [Hh0 Hh1].
  { rewrite Hpg. split; [apply Z.div_pos; lia|].
    pose proof (Z.div_mod (top - base + 4095) 4096 ltac:(lia)).
    pose proof (Z.mod_pos_bound (top - base + 4095) 4096 ltac:(lia)). lia. }
  rewrite (u32_id (h * 4096)), (u32_id (top + amount - base)) by lia.
  set (a1 := set_vbreaktop (top + amount) a). set (s1 := set_ases _ s).
  assert (as_inv s1 gs p a1 us js j0) as Hinv1 by (by apply (as_inv_regions s gs p a)).
  assert (vm_grow p s gs s1 gs) as Hg1 by apply vm_grow_set_as.
  destruct (Z.leb_spec (h * 4096) (top + amount - base)) as [Hge|Hlt].
  - rewrite (u32_id (base + h * 4096)), (u32_id (top + amount - (base + h * 4096))) by lia.
    rewrite s32_id by lia. rewrite ceil_rem, (round_up_top base top) by lia. rewrite <-Hpg.
    set (n := (top + amount - (base + h * 4096) + 4095) / 4096).
    assert (0 ≤ n) as Hn0 by (apply Z.div_pos; lia).
    assert (n ≤ (amount + 4095) / 4096) as Hn1.
    { apply Z.div_le_mono; [lia|]. pose proof (Z.div_mod (top - base + 4095) 4096 ltac:(lia)).
      pose proof (Z.mod_pos_bound (top - base + 4095) 4096 ltac:(lia)). lia. }
    assert (n * 4096 ≤ top + amount - (base + h * 4096) + 4095) as Hn3
      by (unfold n; rewrite Z.mul_comm; apply Z.mul_div_le; lia).
    assert (h + n < 2 ^ 20) as Hn2.
    { unfold n. replace (top + amount - (base + h * 4096) + 4095)
        with (top + amount - base - h * 4096 + 4095) by lia.
      rewrite <-div_ceil_step by lia. apply Z.div_lt_upper_bound; lia. }
    apply wp_bind_2. replace n with (Z.of_nat (Z.to_nat n)) by lia.
    eapply wp_page_alloc; [exact Hinv1|done|lia|done|simpl; fold h; lia|].
    intros s' gs' a' us' js' es [Hi Hg (R1 & R2 & R3 & R4 & R5 & R6) Hl Hf Hz] Hes Hv. simpl in *.
    wp_steps. eapply HQ; [exact Hi| |done|done|by eapply vm_grow_trans|done].
    constructor; rewrite ?R1, ?R2, ?R3; fold base; [done|unfold STACK_BASE; lia| |].
    + simpl. rewrite (div_ceil_step (top + amount - base) h) by lia. fold h.
      rewrite Z2Nat.id by done. unfold n. do 2 f_equal. lia.
    + simpl. fold h. intros k Hk. destruct (decide (k < h)).
      * eapply find_page_grow; [exact Hl|]. apply Hmap. lia.
      * destruct (lookup_lt_is_Some_2 es (Z.to_nat (k - h))) as [e He]; [lia|].
        eapply find_page_new; [exact Hl|exact He|]. rewrite (Hv _ _ He).
        unfold PAGE_SIZE. rewrite u32_id by lia. lia.
  - wp_steps. eapply HQ; [exact Hinv1| |done|done|done|done].
    constructor; simpl; fold base top h; unfold STACK_BASE, PAGE_SIZE; [done|lia| |done].
    assert (h ≤ (top + amount - base + 4095) / 4096) by (rewrite Hpg; apply Z.div_le_mono; lia).
    assert ((top + amount - base + 4095) / 4096 < h + 1); [|lia].
    apply Z.div_lt_upper_bound; lia.
Qed.

(** ** Copying an address space *)
Lemma wp_upd_entry s p dones kk (copied : list page_entry) n rest cnt anew f (Q : unit → vmstate → Prop) :
  vs_as s !! p = Some (set_chain (dones ++ [PageTable kk (copied ++ n :: rest) cnt]) anew) →
  (let a' := set_chain (dones ++ [PageTable kk (copied ++ f n :: rest) cnt]) anew in
   Q tt (set_ases (<[p := a']> (vs_as s)) s)) →
  wp (upd_entry p (length dones) (length copied) f) Q s.
Proof.
  intros Ha HQ. unfold upd_entry, get_as, put_as. wp_steps. rewrite Ha. wp_steps.
  simpl chain. rewrite list_lookup_middle by done. wp_steps. simpl table.
  rewrite list_lookup_middle by done. wp_steps. by rewrite !insert_mid.
Qed.

(** [e'] is the copy of [e]: same address and permissions, its own page (free
    in [gs], allocated in [gs']), same contents. *)
Definition copy_entry (cm : cmstate) (gs gs' : list seg) (m m' : Z → Z) (e e' : page_entry) : Prop :=
  page_vaddr e' = page_vaddr e ∧ isRead e' = isRead e ∧ isWrite e' = isWrite e ∧
  isExe e' = isExe e ∧
  (page_paddr e = 0 → page_paddr e' = 0) ∧
  (page_paddr e ≠ 0 → ∃ i, gs !! i = Some Free ∧ gs' !! i = Some (Used 1 false) ∧
     page_paddr e' = pgaddr cm i ∧ same_page m m' (page_paddr e) (page_paddr e')).

Lemma copy_entry_mono s gs m s1 gs1 s2 gs2 new e e' :
  vm_grow new s1 gs1 s2 gs2 → (∀ i, pgaddr (vs_cm s1) i = pgaddr (vs_cm s) i) →
  copy_entry (vs_cm s) gs gs1 m (vs_mem s1) e e' →
  copy_entry (vs_cm s) gs gs2 m (vs_mem s2) e e'.
Proof.
  intros Hg Hpg (? & ? & ? & ? & ? & Hc). unfold copy_entry. split_and!; [done..|].
  intros Hne. destruct (Hc Hne) as (i & Hi & Hi' & Hpa & Hsame). exists i.
  split_and!; [done|by eapply g_used|done|].
  intros o Ho. rewrite (Hsame o Ho), Hpa.
  pose proof (g_mem _ _ _ _ _ Hg i false Hi' o Ho) as E. by rewrite Hpg in E.
Qed.

(** The entries of [l] in use have pages that were allocated in [gs]. *)
Definition sources_ok (cm : cmstate) (gs : list seg) (l : list page_entry) : Prop :=
  Forall (λ e, page_paddr e ≠ 0 → ∃ j k, gs !! j = Some (Used 1 k) ∧ page_paddr e = pgaddr cm j) l.

Definition npages (l : list page_entry) : nat := length (filter (λ e, page_paddr e ≠ 0) l).

Fixpoint total_pages (c : list page_table) : nat :=
  match c with [] => 0 | pt :: c => npages (table pt) + total_pages c end%nat.

Definition copy_page (dst src : Z) (m : Z → Z) : Z → Z :=
  λ a, if (dst <=? a) && (a <? dst + PAGE_SIZE) then m (a - dst + src) else m a.

Lemma copy_page_same dst src m : same_page m (copy_page dst src m) src dst.
Proof.
  intros o Ho. unfold copy_page.
  rewrite (proj2 (Z.leb_le _ _)), (proj2 (Z.ltb_lt _ _)) by lia. simpl. f_equal. lia.
Qed.
Lemma copy_page_other dst src m x : ¬ (dst ≤ x < dst + PAGE_SIZE) → copy_page dst src m x = m x.
Proof.
  intros Hx. unfold copy_page. destruct (Z.leb_spec dst x), (Z.ltb_spec x (dst + PAGE_SIZE));
    simpl; try done. lia.
Qed.

(** The pages of the entries of [l] in use are all different, were free in [gs1]
    and are allocated in [gs2]. *)
Definition own_new (cm : cmstate) (gs1 gs2 : list seg) (l : list page_entry) : Prop :=
  ∃ ns, NoDup ns ∧ page_paddr <$> filter (λ e, page_paddr e ≠ 0) l = pgaddr cm <$> ns ∧
    ∀ i, i ∈ ns → gs1 !! i = Some Free ∧ ∃ k, gs2 !! i = Some (Used 1 k).

Lemma own_new_nil cm gs1 gs2 : own_new cm gs1 gs2 [].
Proof. exists []. split_and!; [constructor|done|by intros ? ?%elem_of_nil]. Qed.

Lemma own_new_free cm gs1 gs2 e : page_paddr e = 0 → own_new cm gs1 gs2 [e].
Proof.
  intros He. destruct (own_new_nil cm gs1 gs2) as (ns & ? & ? & ?). exists ns.
  split_and!; [done| |done]. rewrite filter_cons, decide_False by lia. done.
Qed.

Lemma own_new_page cm gs1 gs2 e i k : page_paddr e = pgaddr cm i → page_paddr e ≠ 0 →
  gs1 !! i = Some Free → gs2 !! i = Some (Used 1 k) → own_new cm gs1 gs2 [e].
Proof.
  intros He Hne H1 H2. exists [i]. split_and!; [apply NoDup_singleton| |].
  - rewrite filter_cons, decide_True by done. simpl. by rewrite He.
  - intros j ->%list_elem_of_singleton. eauto.
Qed.

Lemma own_new_app cm gs1 gs2 gs3 l1 l2 :
  (∀ j k, gs2 !! j = Some (Used 1 k) → gs3 !! j = Some (Used 1 k)) →
  (∀ j, gs2 !! j = Some Free → gs1 !! j = Some Free) →
  own_new cm gs1 gs2 l1 → own_new cm gs2 gs3 l2 → own_new cm gs1 gs3 (l1 ++ l2).
Proof.
  intros Hu Hf (n1 & D1 & E1 & F1) (n2 & D2 & E2 & F2). exists (n1 ++ n2). split_and!.
  - apply NoDup_app. split_and!; [done| |done]. intros i H1 H2.
    destruct (F1 i H1) as [_ [k Hk]], (F2 i H2) as [Hk' _]. congruence.
  - by rewrite filter_app, !fmap_app, E1, E2.
  - intros i [H1|H2]%elem_of_app.
    + destruct (F1 i H1) as [? [k ?]]. eauto.
    + destruct (F2 i H2) as [? [k ?]]. eauto.
Qed.

Lemma wp_copy_entries s gs new dones kk cnt anew l :
  ∀ s1 gs1 copied rest (Q : option errno → vmstate → Prop),
  vm_grow new s gs s1 gs1 → pages (vs_cm s1) gs1 →
  vs_as s1 !! new = Some (set_chain (dones ++ [PageTable kk (copied ++ rest) cnt]) anew) →
  length rest = length l → sources_ok (vs_cm s) gs l → (npages l ≤ nfree gs1)%nat →
  (∀ s2 gs2 es, vm_grow new s1 gs1 s2 gs2 → pages (vs_cm s2) gs2 →
     vs_as s2 !! new = Some (set_chain (dones ++ [PageTable kk (copied ++ es) cnt]) anew) →
     Forall2 (copy_entry (vs_cm s) gs gs2 (vs_mem s) (vs_mem s2)) l es →
     own_new (vs_cm s) gs1 gs2 es →
     nfree gs1 = (npages l + nfree gs2)%nat → Q None s2) →
  wp (copy_entries new (length dones) (length copied) l) Q s1.
Proof.
  induction l as [|e l IH]; intros s1 gs1 copied rest Q Hg Hp Ha Hlen Hsrc Hn HQ;
    cbn [copy_entries].
  { destruct rest; [|done]. apply wp_ret.
    eapply HQ; [apply vm_grow_refl|done|done|constructor|apply own_new_nil|done]. }
  destruct rest as [|n rest]; [done|]. simpl in Hlen.
  apply Forall_cons_1 in Hsrc as [He Hsrc].
  apply wp_bind_2. eapply wp_upd_entry; [exact Ha|].
  set (n1 := PageEntry _ _ _ _ _ _). intros a1. set (s1' := set_ases (<[new := a1]> (vs_as s1)) s1).
  assert (vm_grow new s1 gs1 s1' gs1) as G1 by apply vm_grow_set_as.
  unfold npages in Hn. rewrite filter_cons in Hn.
  destruct (Z.eqb_spec (page_paddr e) 0) as [Hz|Hz]; simpl negb; cbv iota.
  - (* an empty slot *)
    rewrite decide_False in Hn by lia. apply wp_bind_2.
    eapply wp_upd_entry; [by simpl; apply lookup_insert_eq|]. intros a2.
    set (s1'' := set_ases (<[new := a2]> (vs_as s1')) s1').
    assert (vm_grow new s1 gs1 s1'' gs1) as G2
      by (eapply vm_grow_trans; [exact G1|apply vm_grow_set_as]).
    replace (S (length copied)) with (length (copied ++ [set_paddr 0 n1]))
      by (rewrite length_app; simpl; lia).
    eapply (IH s1'' gs1 (copied ++ [set_paddr 0 n1]) rest);
      [by eapply vm_grow_trans|done| |lia|done|done|].
    { simpl. rewrite lookup_insert_eq. by rewrite <-app_assoc. }
    intros s2 gs2 es G3 Hp2 Ha2 Hall Hown Hn2.
    eapply (HQ s2 gs2 (set_paddr 0 n1 :: es)); [by eapply vm_grow_trans|done| | | |].
    + rewrite Ha2. by rewrite <-app_assoc.
    + constructor; [|done]. unfold copy_entry. simpl. split_and!; done.
    + eapply (own_new_app _ gs1 gs1 gs2 [_]); [apply G3|done| |exact Hown]. by apply own_new_free.
    + unfold npages. rewrite filter_cons, decide_False by lia. exact Hn2.
  - (* a page to copy *)
    rewrite decide_True in Hn by done. simpl in Hn. apply wp_bind_2, wp_zoom.
    eapply wp_alloc_upage1; [exact Hp| |intros Hno; exfalso; apply Hno, nfree_pos; lia].
    intros i cl Hi Hp'. destruct (pages_pgaddr _ _ i Hp) as [Hpa _]; [by eapply lookup_lt_Some|].
    rewrite (proj2 (Z.eqb_neq _ _)) by (simpl; lia).
    set (sa := upd_vm cl (vs_as s1') s1'). set (gsa := <[i := Used 1 false]> gs1) in *.
    assert (vm_grow new s1 gs1 sa gsa) as Ga
      by (eapply vm_grow_trans; [exact G1|by apply vm_grow_alloc]).
    apply wp_bind_2. eapply (wp_upd_entry sa); [by simpl; apply lookup_insert_eq|].
    intros a2. set (sb := set_ases (<[new := a2]> (vs_as sa)) sa).
    assert (vm_grow new s1 gs1 sb gsa) as Gb
      by (eapply vm_grow_trans; [exact Ga|apply vm_grow_set_as]).
    unfold memcpy_page. wp_steps.
    change (pgaddr (sub_get s1') i) with (pgaddr (vs_cm s1) i) in *.
    fold (copy_page (pgaddr (vs_cm s1) i) (page_paddr e) (vs_mem sb)).
    set (m2 := copy_page _ _ _). set (sc := set_mem m2 sb).
    assert (vm_grow new s1 gs1 sc gsa) as Gc.
    { eapply vm_grow_write; [exact Gb|exact Hi|]. intros x Hx. by apply copy_page_other. }
    set (n2 := set_paddr (pgaddr (vs_cm s1) i) n1).
    replace (S (length copied)) with (length (copied ++ [n2])) by (rewrite length_app; simpl; lia).
    pose proof (nfree_insert gs1 i false Hi) as Hni.
    eapply (IH sc gsa (copied ++ [n2]) rest);
      [by eapply vm_grow_trans|done| |lia|done|unfold npages; fold gsa in Hni; lia|].
    { simpl. rewrite lookup_insert_eq. by rewrite <-app_assoc. }
    intros s2 gs2 es G3 Hp2 Ha2 Hall Hown Hn2.
    eapply (HQ s2 gs2 (n2 :: es)); [by eapply vm_grow_trans|done| | | |].
    + rewrite Ha2. by rewrite <-app_assoc.
    + constructor; [|done].
      eapply (copy_entry_mono s gs _ sc gsa); [exact G3| |].
      { intros x. change (pgaddr (vs_cm sc) x) with (pgaddr (vs_cm s1) x).
        by rewrite (vm_grow_pgaddr _ _ _ _ _ _ Hg). }
      assert (gs !! i = Some Free) as Hi0.
      { by eapply g_free. }
      unfold copy_entry. simpl. split_and!; [done..|]. intros _. exists i.
      split_and!; [done| |by rewrite (vm_grow_pgaddr _ _ _ _ _ _ Hg)|].
      * unfold gsa. apply list_lookup_insert_eq. by eapply lookup_lt_Some.
      * destruct (He Hz) as (j & k & Hj & Hej). intros o Ho. rewrite Hej.
        rewrite (g_mem _ _ _ _ _ Hg j k Hj o Ho).
        unfold m2. rewrite <-Hej. apply (copy_page_same _ _ (vs_mem s1)). done.
    + eapply (own_new_app _ gs1 gsa gs2 [_]); [apply G3|apply free_back| |exact Hown].
      eapply own_new_page; [|simpl; lia|exact Hi|].
      * simpl. by rewrite (vm_grow_pgaddr _ _ _ _ _ _ Hg).
      * unfold gsa. apply list_lookup_insert_eq. by eapply lookup_lt_Some.
    + unfold npages. rewrite filter_cons, decide_True by done. simpl. fold gsa in Hni.
      unfold npages in Hn2. lia.
Qed.

Definition copy_table (cm : cmstate) (gs gs' : list seg) (m m' : Z → Z) (pt pt' : page_table) : Prop :=
  entry_count pt' = entry_count pt ∧ Forall2 (copy_entry cm gs gs' m m') (table pt) (table pt').

Lemma copy_table_mono s gs m s1 gs1 s2 gs2 new pt pt' :
  vm_grow new s1 gs1 s2 gs2 → (∀ i, pgaddr (vs_cm s1) i = pgaddr (vs_cm s) i) →
  copy_table (vs_cm s) gs gs1 m (vs_mem s1) pt pt' →
  copy_table (vs_cm s) gs gs2 m (vs_mem s2) pt pt'.
Proof.
  intros Hg Hpg [Hc Hall]. split; [done|]. eapply Forall2_impl; [exact Hall|].
  intros e e' He. by eapply copy_entry_mono.
Qed.

Lemma wp_set_count s p dones kk l cnt n anew (Q : unit → vmstate → Prop) :
  vs_as s !! p = Some (set_chain (dones ++ [PageTable kk l cnt]) anew) →
  (let a' := set_chain (dones ++ [PageTable kk l n]) anew in
   Q tt (set_ases (<[p := a']> (vs_as s)) s)) →
  wp (set_count p (length dones) n) Q s.
Proof.
  intros Ha HQ. unfold set_count, get_as, put_as. wp_steps. rewrite Ha. wp_steps.
  simpl chain. rewrite list_lookup_middle by done. wp_steps. by rewrite insert_mid.
Qed.

Lemma length_junk_table k : length (junk_table junk k) = 338%nat.
Proof. unfold junk_table. by rewrite length_fmap, length_seq. Qed.

(** One table, once there is room for it at the end of the new chain. *)
Lemma wp_copy_one s gs new dones kk l0 cnt0 anew pt s1 gs1 (Q : option errno → vmstate → Prop) :
  vm_grow new s gs s1 gs1 → pages (vs_cm s1) gs1 →
  vs_as s1 !! new = Some (set_chain (dones ++ [PageTable kk l0 cnt0]) anew) →
  length l0 = length (table pt) → sources_ok (vs_cm s) gs (table pt) →
  (npages (table pt) ≤ nfree gs1)%nat →
  (∀ s2 gs2 pt', vm_grow new s1 gs1 s2 gs2 → pages (vs_cm s2) gs2 →
     vs_as s2 !! new = Some (set_chain (dones ++ [pt']) anew) →
     copy_table (vs_cm s) gs gs2 (vs_mem s) (vs_mem s2) pt pt' →
     own_new (vs_cm s) gs1 gs2 (table pt') →
     nfree gs1 = (npages (table pt) + nfree gs2)%nat → Q None s2) →
  wp (set_count new (length dones) (entry_count pt))
    (λ _, wp (copy_entries new (length dones) 0 (table pt)) Q) s1.
Proof.
  intros Hg Hp Ha Hlen Hsrc Hn HQ. eapply wp_set_count; [exact Ha|].
  intros a1. set (s1' := set_ases (<[new := a1]> (vs_as s1)) s1).
  assert (vm_grow new s1 gs1 s1' gs1) as G1 by apply vm_grow_set_as.
  eapply (wp_copy_entries s gs new dones kk (entry_count pt) anew (table pt) s1' gs1 [] l0);
    [by eapply vm_grow_trans|done|by simpl; apply lookup_insert_eq|done|done|done|].
  intros s2 gs2 es G2 Hp2 Ha2 Hall Hown Hn2.
  eapply (HQ s2 gs2 (PageTable kk es (entry_count pt))); [by eapply vm_grow_trans|done|done| |done|done].
  by split.
Qed.

Lemma wp_copy_rest s gs new anew c :
  ∀ s1 gs1 dones (Q : option errno → vmstate → Prop),
  vm_grow new s gs s1 gs1 → pages (vs_cm s1) gs1 → dones ≠ [] →
  vs_as s1 !! new = Some (set_chain dones anew) →
  Forall (λ pt, length (table pt) = 338%nat ∧ sources_ok (vs_cm s) gs (table pt)) c →
  (length c + total_pages c ≤ nfree gs1)%nat →
  (∀ s2 gs2 news, vm_grow new s1 gs1 s2 gs2 → pages (vs_cm s2) gs2 →
     vs_as s2 !! new = Some (set_chain (dones ++ news) anew) →
     Forall2 (copy_table (vs_cm s) gs gs2 (vs_mem s) (vs_mem s2)) c news →
     own_new (vs_cm s) gs1 gs2 (news ≫= table) → Q None s2) →
  wp (copy_tables junk new (length dones) c) Q s1.
Proof.
  induction c as [|pt c IH]; intros s1 gs1 dones Q Hg Hp Hne Ha Hall Hn HQ; cbn [copy_tables].
  { apply wp_ret. apply (HQ s1 gs1 []); [apply vm_grow_refl|done|by rewrite app_nil_r|constructor|apply own_new_nil]. }
  apply Forall_cons_1 in Hall as [[Hlen Hsrc] Hall]. simpl in Hn.
  destruct (length dones) as [|nd] eqn:Hnd; [by destruct dones|]. cbn [extend_chain].
  apply wp_bind_2, wp_bind_2.
  eapply wp_kmalloc_page; [exact Hp|unfold sizeof_page_table, PAGE_SIZE; lia| |
    intros Hno; exfalso; apply Hno, nfree_pos; lia].
  intros i cl Hi Hp'. destruct (kvaddr_pgaddr _ _ i Hp) as (_ & -> & _); [by eapply lookup_lt_Some|].
  set (k := PADDR_TO_KVADDR (pgaddr (vs_cm s1) i)).
  unfold get_as, put_as. wp_steps. simpl vs_as. rewrite Ha. wp_steps. simpl chain.
  rewrite take_ge by lia. rewrite <-Hnd.
  set (s1a := set_ases _ _). set (gs1a := <[i := Used 1 true]> gs1) in *.
  assert (vm_grow new s1 gs1 s1a gs1a) as G1.
  { eapply vm_grow_trans; [by apply (vm_grow_alloc new s1 gs1 cl i true)|apply vm_grow_set_as]. }
  pose proof (nfree_insert gs1 i true Hi) as Hni. fold gs1a in Hni.
  eapply wp_mono; [|intros ? ? H; apply wp_bind_2; exact H].
  eapply (wp_copy_one s gs new dones k (junk_table junk k) 0 anew pt s1a gs1a);
    [by eapply vm_grow_trans|done|by simpl; apply lookup_insert_eq|
     by rewrite length_junk_table, Hlen|done|lia|].
  intros s2 gs2 pt' G2 Hp2 Ha2 Hct Hown Hn2. rewrite Hnd.
  replace (S (S nd)) with (length (dones ++ [pt'])) by (rewrite length_app; simpl; lia).
  assert (vm_grow new s1 gs1 s2 gs2) as G12 by (by eapply vm_grow_trans).
  eapply IH; [by eapply vm_grow_trans|done|by destruct dones|done|done|lia|].
  intros s3 gs3 news G3 Hp3 Ha3 Hrest Hrown.
  apply (HQ s3 gs3 (pt' :: news)); [by eapply vm_grow_trans|done|by rewrite Ha3, <-app_assoc| |].
  - constructor; [|done]. eapply copy_table_mono; [exact G3| |done].
    intros j. rewrite (vm_grow_pgaddr _ _ _ _ _ j G12). by rewrite (vm_grow_pgaddr _ _ _ _ _ j Hg).
  - eapply own_new_app; [apply G3|apply G12| |exact Hrown].
    eapply (own_new_app _ gs1 gs1a gs2 [] _); [apply G2|apply G1|apply own_new_nil|done].
Qed.

(** *** From tables to meanings *)
Lemma copy_live cm gs gs' m m' l l' :
  (∀ i, gs !! i = Some Free → pgaddr cm i ≠ 0) →
  Forall2 (copy_entry cm gs gs' m m') l l' →
  Forall2 (copy_entry cm gs gs' m m') (live l) (live l').
Proof.
  intros Hnz. induction 1 as [|e e' l l' He _ IH]; simpl; [constructor|].
  pose proof He as (_ & _ & _ & _ & H0 & H1).
  destruct (Z.eqb_spec (page_paddr e) 0) as [Hz|Hz].
  - rewrite (H0 Hz). constructor.
  - destruct (H1 Hz) as (i & Hi & _ & Hpa & _).
    rewrite (proj2 (Z.eqb_neq (page_paddr e') 0)) by (rewrite Hpa; by apply Hnz).
    by constructor.
Qed.

Lemma copy_live_chain cm gs gs' m m' c c' :
  (∀ i, gs !! i = Some Free → pgaddr cm i ≠ 0) →
  Forall2 (copy_table cm gs gs' m m') c c' →
  Forall2 (copy_entry cm gs gs' m m') (live_chain c) (live_chain c').
Proof.
  intros Hnz. induction 1 as [|pt pt' c c' [_ Hpt] _ IH]; [constructor|].
  rewrite !live_chain_cons. apply Forall2_app; [by apply copy_live|done].
Qed.

Lemma npages_live l : Forall (λ e, page_paddr e = 0) (drop (length (live l)) l) →
  npages l = length (live l).
Proof.
  intros Hd. unfold npages. rewrite (live_prefix l) at 1. rewrite filter_app, length_app.
  rewrite (filter_all _ (live l)), (filter_none _ (drop _ l)).
  - simpl. lia.
  - eapply Forall_impl; [exact Hd|]. intros e He Hne. by apply Hne.
  - apply live_nonzero.
Qed.

Lemma npages_chain c : Forall wf_table c → total_pages c = length (live_chain c).
Proof.
  induction 1 as [|pt c Hpt _ IH]; [done|].
  rewrite live_chain_cons, length_app, <-IH. simpl. f_equal. apply npages_live, Hpt.
Qed.

Lemma sources_ok_inv s gs p a us js j0 :
  as_inv s gs p a us js j0 →
  Forall (λ pt, length (table pt) = 338%nat ∧ sources_ok (vs_cm s) gs (table pt)) (chain a).
Proof.
  clear random_slot junk.
  intros [Hp Ha Hwf [Hou _ _ [_ Hu]]].
  assert (sources_ok (vs_cm s) gs (live_chain (chain a))) as Hs.
  { apply Forall_forall. intros e He _.
    assert (page_paddr e ∈ pgaddr (vs_cm s) <$> us) as Hin
      by (rewrite <-Hou; by apply list_elem_of_fmap_2).
    apply list_elem_of_fmap in Hin as (j & -> & Hj).
    destruct (Hu j) as [k Hk]; [unfold own_all; set_solver|]. by exists j, k. }
  clear Hou. pose proof (wf_as_tables _ Hwf) as Hall.
  induction Hall as [|pt c Hpt _ IH]; [constructor|].
  rewrite live_chain_cons in Hs. apply Forall_app in Hs as [Hs1 Hs2].
  constructor; [|by apply IH]. split; [apply Hpt|].
  rewrite (live_prefix (table pt)). apply Forall_app. split; [done|].
  eapply Forall_impl; [apply Hpt|]. intros e He. simpl. done.
Qed.

Lemma live_chain_sublist c :
  sublist (live_chain c) (filter (λ e, page_paddr e ≠ 0) (c ≫= table)).
Proof.
  induction c as [|pt c IH]; [constructor|]. rewrite live_chain_cons, bind_cons, filter_app.
  apply sublist_app; [|done]. rewrite (live_prefix (table pt)) at 2.
  rewrite filter_app, (filter_all _ (live _)) by apply live_nonzero.
  by apply sublist_inserts_r.
Qed.

Lemma own_new_NoDup cm gs1 gs2 c : own_new cm gs1 gs2 (c ≫= table) →
  NoDup (page_paddr <$> live_chain c).
Proof.
  intros (ns & Hd & E & _). eapply sublist_NoDup; [|apply fmap_sublist, live_chain_sublist].
  rewrite E. apply NoDup_fmap_2; [|done].
  intros i j H. unfold pgaddr, PAGE_SIZE in H. lia.
Qed.

Lemma wp_as_copy s gs old a us js j0 (Q : result Z → vmstate → Prop) :
  as_inv s gs old a us js j0 → (length us + length (chain a) ≤ nfree gs)%nat →
  (∀ new s' gs' c', vm_grow new s gs s' gs' → pages (vs_cm s') gs' → new ≠ old →
     vs_as s' !! new = Some (AddrSpace 0 0 0 0 c' 0 0 0) → vs_as s' !! old = Some a →
     Forall2 (copy_table (vs_cm s) gs gs' (vs_mem s) (vs_mem s')) (chain a) c' →
     Forall2 (copy_entry (vs_cm s) gs gs' (vs_mem s) (vs_mem s'))
       (live_chain (chain a)) (live_chain c') →
     NoDup (page_paddr <$> live_chain c') →
     Q (inr new) s') →
  wp (as_copy junk old) Q s.
Proof.
  clear random_slot.
  intros Hinv Hn HQ. pose proof Hinv as [Hp Ha Hwf Hown]. unfold as_copy, get_as.
  pose proof (sources_ok_inv _ _ _ _ _ _ _ Hinv) as Hsrc.
  pose proof (npages_chain _ (wf_as_tables _ Hwf)) as Hnp.
  assert (length us = length (live_chain (chain a))) as Hlu.
  { destruct Hown as [Hou _ _ _]. apply (f_equal length) in Hou. by rewrite !length_fmap in Hou. }
  destruct Hwf as [(full & lst & Hch & _)].
  assert (chain a ≠ []) as Hne by (rewrite Hch; by destruct full).
  apply wp_bind_2. eapply wp_as_create; [exact Hp| |].
  2:{ intros Hno. exfalso. apply Hno, nfree_pos. destruct (chain a); [done|]. simpl in *. lia. }
  intros j1 cl Hj1 new anew s1 gs1 Hinv1 _ _ Hnz. rewrite Hnz.
  assert (new ≠ old) as Hneq.
  { intros E. destruct Hown as [_ _ Hos Ho]. destruct Ho as [_ Hu].
    destruct (Hu j0) as [k Hk]; [unfold own_all; set_solver|].
    destruct (kvaddr_pgaddr _ _ j1 Hp) as (E1 & _); [by eapply lookup_lt_Some|].
    destruct (kvaddr_pgaddr _ _ j0 Hp) as (E0 & _); [by eapply lookup_lt_Some|].
    assert (j0 = j1) as ->; [|congruence].
    unfold new in E. rewrite Hos, E1, E0 in E. unfold pgaddr, PAGE_SIZE in E. lia. }
  assert (vm_grow new s gs s1 gs1) as G1.
  { apply vm_grow_upd; [by intros; apply used_kept|apply free_back]. }
  pose proof (inv_pages _ _ _ _ _ _ _ Hinv1) as Hp1.
  wp_steps. simpl vs_as. rewrite lookup_insert_ne, Ha by done. wp_steps.
  destruct (chain a) as [|pt c] eqn:Ec; [done|]. cbn [copy_tables extend_chain].
  apply Forall_cons_1 in Hsrc as [[Hl0 Hs0] Hsrc]. cbn [total_pages length] in Hnp, Hn.
  pose proof (nfree_insert gs j1 true Hj1) as Hni. fold gs1 in Hni.
  wp_steps. eapply wp_mono; [|intros ? ? H; apply wp_bind_2; exact H].
  eapply (wp_copy_one s gs new [] new (set_paddr 0 <$> junk_table junk new) 0 anew pt s1 gs1);
    [exact G1|exact Hp1|by simpl; apply lookup_insert_eq|
     by rewrite length_fmap, length_junk_table, Hl0|done|lia|].
  intros s2 gs2 pt' G2 Hp2 Ha2 Hct Hown1 Hn2.
  assert (vm_grow new s gs s2 gs2) as G12 by (by eapply vm_grow_trans).
  eapply (wp_copy_rest s gs new anew c s2 gs2 [pt']); [done|done|done|done|done|lia|].
  intros s3 gs3 news G3 Hp3 Ha3 Hrest Hown3. wp_steps.
  assert (vm_grow new s gs s3 gs3) as G13 by (by eapply vm_grow_trans).
  assert (Forall2 (copy_table (vs_cm s) gs gs3 (vs_mem s) (vs_mem s3)) (pt :: c) (pt' :: news)) as Hall.
  { constructor; [|done]. eapply copy_table_mono; [exact G3| |done].
    intros j. by rewrite (vm_grow_pgaddr _ _ _ _ _ j G12). }
  eapply HQ; [exact G13|done|done|exact Ha3| |exact Hall| |].
  - rewrite (g_as _ _ _ _ _ G13) by done. done.
  - eapply copy_live_chain; [|exact Hall].
    intros i Hi. destruct (pages_pgaddr _ _ i Hp) as [? _]; [by eapply lookup_lt_Some|]. lia.
  - apply (own_new_NoDup (vs_cm s) gs1 gs3).
    by apply (own_new_app _ gs1 gs2 gs3 (table pt')); [apply G3|apply G2|..].
Qed.
End with_hardware_proofs.
