(* ===== verification/AddrSpaceSpec.v ===== *)
(** What the address-space code promises: page faults, program loading,
    destruction, copying and the heap, stated on the definitions of
    [AddrSpace] and proved from its lemmas. *)

From stdpp Require Import base tactics numbers list gmap.
From S2P Require Import Prelude KernDefs Spl Coremap AddrSpace.
Local Open Scope Z_scope.

Set Default Proof Using "Type".
Section with_hardware.
Context (junk : Z → nat → page_entry) (random_slot : vmstate → Z).

(** ** Page faults *)
Definition user_range (a : addrspace) (fa : Z) : Prop := vstart a ≤ fa < USERSTACK.

Lemma wp_vm_fault_range ft addr s a (Q : result unit → vmstate → Prop) :
  let fa := Z.land addr PAGE_FRAME in
  vs_as s !! t_addrspace s = Some a → user_range a fa →
  wp (let m := find_page fa (chain a) in
      if ft =? VM_FAULT_READONLY then mret (inl EFAULT)
      else if ft =? VM_FAULT_READ then
        match m with
        | Some e => tlb_install random_slot fa (page_paddr e)
        | None => mret (inl EFAULT)
        end
      else if ft =? VM_FAULT_WRITE then
        match m with
        | Some e => if negb (isWrite e) then mret (inl EFAULT)
                    else tlb_install random_slot fa (page_paddr e)
        | None =>
            if (STACK_BASE <=? fa) && (fa <? USERSTACK) then
              paddr ← zoom alloc_upage;
              if paddr =? 0 then mret (inl ENOMEM)
              else
                addPageEntry junk fa paddr true true false;;
                as_zero_region paddr 1;;
                tlb_install random_slot fa paddr
            else mret (inl EFAULT)
        end
      else mret (inl EINVAL)) Q s →
  wp (vm_fault junk random_slot ft addr) Q s.
Proof.
  intros fa Ha [Hlo Hhi] Hwp. unfold vm_fault, get_as. wp_steps. rewrite Ha. wp_steps.
  fold fa. rewrite (proj2 (Z.leb_gt _ _)), (proj2 (Z.ltb_ge _ _)) by lia. exact Hwp.
Qed.

(** C1: a fault on a page that is mapped with enough permission (any mapped
    page for a read, a writable one for a write) installs in one TLB slot the
    translation to exactly that page and changes nothing else. *)
Theorem vm_fault_mapped s ft addr a e :
  quiet s → (∀ t, 0 ≤ random_slot t < NUM_TLB) →
  vs_as s !! t_addrspace s = Some a → user_range a (Z.land addr PAGE_FRAME) →
  find_page (Z.land addr PAGE_FRAME) (chain a) = Some e →
  ft = VM_FAULT_READ ∨ ft = VM_FAULT_WRITE ∧ isWrite e = true →
  wp (vm_fault junk random_slot ft addr) (λ r s', r = inr tt ∧ ∃ i, (i < 64)%nat ∧
    s' = set_tlb (<[i := (Z.land addr PAGE_FRAME,
                          Z.lor (Z.lor (page_paddr e) TLBLO_DIRTY) TLBLO_VALID)]> (vs_tlb s)) s) s.
Proof.
  intros Hq Hr Ha Hu He Hft. eapply wp_vm_fault_range; [done..|]. cbv zeta. rewrite He.
  destruct Hft as [->|[-> Hw]]; simpl; rewrite ?Hw; simpl;
    (apply wp_tlb_install; [done..|]); intros i Hi; (split; [done|]); by exists i.
Qed.

(** The faults that cannot be served are refused, and refusing changes
    nothing: an address outside the address space, a write to a mapped page
    without write permission, any access to a page that is neither mapped nor a
    stack page being written, and a write to a read-only TLB entry fail with
    [EFAULT], an unknown fault type with [EINVAL]. *)
Theorem vm_fault_refused s ft addr a :
  let fa := Z.land addr PAGE_FRAME in
  vs_as s !! t_addrspace s = Some a →
  (¬ user_range a fa ∨
   ft = VM_FAULT_READONLY ∨
   (ft = VM_FAULT_READ ∧ find_page fa (chain a) = None) ∨
   (ft = VM_FAULT_WRITE ∧ find_page fa (chain a) = None ∧ fa < STACK_BASE) ∨
   (ft = VM_FAULT_WRITE ∧ ∃ e, find_page fa (chain a) = Some e ∧ isWrite e = false) ∨
   ft ∉ [VM_FAULT_READ; VM_FAULT_WRITE; VM_FAULT_READONLY]) →
  wp (vm_fault junk random_slot ft addr) (λ r s', s' = s ∧
    r = inl (if bool_decide (user_range a fa ∧ ft ∉ [VM_FAULT_READ; VM_FAULT_WRITE; VM_FAULT_READONLY])
             then EINVAL else EFAULT)) s.
Proof.
  intros fa Ha Hc. destruct (decide (user_range a fa)) as [Hu|Hu].
  - eapply wp_vm_fault_range; [done..|]. fold fa. cbv zeta.
    destruct Hc as [?|[->|[[-> Hf]|[(-> & Hf & Hs)|[(-> & e & Hf & Hw)|Hft]]]]]; [done|..];
      rewrite ?Hf, ?Hw; simpl.
    + apply wp_ret. split; [done|]. rewrite bool_decide_false; [done|set_solver].
    + apply wp_ret. split; [done|]. rewrite bool_decide_false; [done|set_solver].
    + rewrite (proj2 (Z.leb_gt _ _)) by done. apply wp_ret.
      split; [done|]. rewrite bool_decide_false; [done|set_solver].
    + apply wp_ret. split; [done|]. rewrite bool_decide_false; [done|set_solver].
    + rewrite bool_decide_true by done.
      rewrite !(proj2 (Z.eqb_neq ft _)) by set_solver. by apply wp_ret.
  - rewrite bool_decide_false by tauto. unfold vm_fault, get_as. wp_steps. rewrite Ha. wp_steps.
    fold fa. unfold user_range in Hu.
    destruct (Z.leb_spec USERSTACK fa), (Z.ltb_spec fa (vstart a)); simpl; try by wp_steps.
    exfalso. lia.
Qed.

Lemma lookup_v_snoc v l e : lookup_v v l = None → page_vaddr e = v → lookup_v v (l ++ [e]) = Some e.
Proof. intros Hl He. rewrite lookup_v_app, Hl. simpl. by rewrite (proj2 (Z.eqb_eq _ _)). Qed.

(** The address space after one more entry: a fresh zeroed page for [fa]. *)
Record grown (s : vmstate) (gs : list seg) a us j0 fa (s' : vmstate) : Prop := {
  gr_ex : ∃ i gs' a' js' sh, let e := PageEntry fa (pgaddr (vs_cm s) i) true true false sh in
    gs !! i = Some Free ∧ as_inv s' gs' (t_addrspace s) a' (us ++ [i]) js' j0 ∧ same_regions a a' ∧
    live_chain (chain a') = live_chain (chain a) ++ [e] ∧ find_page fa (chain a') = Some e ∧
    zeroed (vs_mem s') (page_paddr e) ∧
    (∃ t, (t < 64)%nat ∧ vs_tlb s' = <[t := tlb_entry fa (page_paddr e)]> (vs_tlb s)) ∧
    (∀ j k, gs !! j = Some (Used 1 k) →
       same_page (vs_mem s) (vs_mem s') (pgaddr (vs_cm s) j) (pgaddr (vs_cm s) j)) ∧
    (∀ q, q ≠ t_addrspace s → vs_as s' !! q = vs_as s !! q);
}.

(** A write to an unmapped stack page grows the stack: with two free pages
    left (one for the page, one for a further page table) a fresh page is
    zeroed, appended to the page table with read and write permission and put
    in the TLB, every page in use keeps its contents and every other address
    space is untouched; without a free page the fault fails with [ENOMEM] and
    changes nothing. *)
Theorem vm_fault_grows_stack s gs a us js j0 addr :
  let fa := Z.land addr PAGE_FRAME in
  as_inv s gs (t_addrspace s) a us js j0 → quiet s → (∀ t, 0 ≤ random_slot t < NUM_TLB) →
  user_range a fa → STACK_BASE ≤ fa → find_page fa (chain a) = None →
  (2 ≤ nfree gs)%nat ∨ Free ∉ gs →
  wp (vm_fault junk random_slot VM_FAULT_WRITE addr) (λ r s',
    ((2 ≤ nfree gs)%nat ∧ r = inr tt ∧ grown s gs a us j0 fa s') ∨
    (Free ∉ gs ∧ r = inl ENOMEM ∧ s' = s)) s.
Proof.
  intros fa Hinv Hq Hr Hu Hs Hf Hfree. pose proof Hinv as [Hp Ha _ _].
  eapply wp_vm_fault_range; [done..|]. cbv zeta. fold fa. rewrite Hf. simpl.
  rewrite (proj2 (Z.leb_le _ _)), (proj2 (Z.ltb_lt _ _)) by (destruct Hu; lia). simpl.
  destruct Hfree as [Hn|Hno].
  - eapply wp_alloc_add; [exact Hinv|done|done|].
    intros i l gs' a' js' sh Hi _ s1 [Hp1 Ha1 Hwf1 Ho1] Hreg Hlive _ Hused _.
    unfold as_zero_region. wp_steps. fold (zero_page (pgaddr (vs_cm s) i) (vs_mem s1)).
    apply wp_tlb_install; [done..|]. intros t Ht. left. split_and!; [done..|]. constructor.
    exists i, gs', a', js', sh. split_and!; [done|by constructor|done|exact Hlive| | | | |].
    + rewrite find_page_live, Hlive. apply lookup_v_snoc; [|done]. by rewrite <-find_page_live.
    + apply zero_page_zeroed.
    + by exists t.
    + intros j k Hj o Ho. simpl. rewrite zero_page_other; [done|].
      apply pgaddr_disjoint; [congruence|done].
    + intros q Hne. simpl. by rewrite lookup_insert_ne.
  - apply wp_bind_2, wp_zoom. eapply wp_alloc_upage1; [done| |].
    + intros i ? Hi. exfalso. apply Hno. by eapply list_elem_of_lookup_2.
    + intros _. simpl. apply wp_ret. right. by destruct s.
Qed.

Lemma land_lor_keep x d : Z.land (Z.lor x d) d = d.
Proof.
  apply Z.bits_inj'. intros n _. rewrite Z.land_spec, Z.lor_spec.
  by destruct (Z.testbit x n), (Z.testbit d n).
Qed.

(** Protection can be defeated: on a page without write permission a write
    fault is refused, but a read fault on the same page installs a TLB entry
    with the dirty bit set, which is the bit that makes the hardware allow
    writes. *)
Theorem vm_fault_read_enables_writes s addr a e :
  quiet s → (∀ t, 0 ≤ random_slot t < NUM_TLB) →
  vs_as s !! t_addrspace s = Some a → user_range a (Z.land addr PAGE_FRAME) →
  find_page (Z.land addr PAGE_FRAME) (chain a) = Some e → isWrite e = false →
  wp (vm_fault junk random_slot VM_FAULT_WRITE addr) (λ r s', r = inl EFAULT ∧ s' = s) s ∧
  wp (vm_fault junk random_slot VM_FAULT_READ addr) (λ r s', r = inr tt ∧ ∃ i lo,
    vs_tlb s' !! i = Some (Z.land addr PAGE_FRAME, lo) ∧
    Z.land lo TLBLO_DIRTY = TLBLO_DIRTY ∧ Z.land lo TLBLO_VALID = TLBLO_VALID) s.
Proof.
  intros Hq Hr Ha Hu He Hw. split; (eapply wp_vm_fault_range; [done..|]); cbv zeta; rewrite He; simpl.
  - rewrite Hw. by apply wp_ret.
  - apply wp_tlb_install; [done..|]. intros i Hi. split; [done|]. eexists i, _. split_and!.
    + simpl. apply list_lookup_insert_eq. destruct Hq as (_ & _ & ->). done.
    + rewrite (Z.lor_comm _ TLBLO_VALID), Z.lor_assoc. apply land_lor_keep.
    + apply land_lor_keep.
Qed.

(** ** Loading a program *)
(** The pages a segment [vaddr, vaddr + sz) touches. *)
Definition seg_base (vaddr : Z) : Z := vaddr - vaddr mod 4096.
Definition seg_pages (vaddr sz : Z) : nat := Z.to_nat ((vaddr mod 4096 + sz + 4095) / 4096).
Definition seg_ok (vaddr sz : Z) : Prop := 0 ≤ vaddr ∧ 0 < sz ∧ vaddr + sz + 4096 < USERSTACK.

Lemma seg_arith vaddr sz : seg_ok vaddr sz →
  let sz' := u32 (sz + Z.land vaddr (u32 (Z.lnot PAGE_FRAME))) in
  let np := Z.land (u32 (sz' + PAGE_SIZE - 1)) PAGE_FRAME / PAGE_SIZE in
  Z.land vaddr PAGE_FRAME = seg_base vaddr ∧ np = Z.of_nat (seg_pages vaddr sz) ∧
  u32 (np * PAGE_SIZE + seg_base vaddr) = seg_base vaddr + np * PAGE_SIZE ∧
  (0 < seg_pages vaddr sz)%nat ∧ 0 ≤ seg_base vaddr ∧ seg_base vaddr mod 4096 = 0 ∧
  seg_base vaddr + np * PAGE_SIZE < vaddr + sz + 4096.
Proof.
  intros (Hv & Hs & Hm). cbv zeta. unfold USERSTACK, USERSPACETOP, MIPS_KSEG0, PAGE_SIZE in *.
  change (u32 (Z.lnot PAGE_FRAME)) with (Z.ones 12). rewrite Z.land_ones by done.
  change (2 ^ 12) with 4096. rewrite !land_PAGE_FRAME by lia.
  pose proof (Z.mod_pos_bound vaddr 4096 eq_refl) as Ho.
  rewrite (u32_id (sz + _)) by lia. rewrite (u32_id (_ - 1)) by lia.
  rewrite land_PAGE_FRAME by lia. unfold PAGE_SIZE.
  set (x := sz + vaddr mod 4096 + 4096 - 1).
  assert ((x - x mod 4096) / 4096 = x / 4096) as ->.
  { rewrite (Z.div_mod x 4096) at 1 by lia. rewrite Z.add_simpl_r, Z.mul_comm, Z.div_mul; lia. }
  unfold seg_pages. replace (vaddr mod 4096 + sz + 4095) with x by lia.
  assert (1 ≤ x / 4096) as Hx by (apply Z.div_le_lower_bound; lia).
  pose proof (Z.mul_div_le x 4096 eq_refl). pose proof (Z.div_mod vaddr 4096 ltac:(lia)).
  rewrite Z2Nat.id by lia. unfold seg_base.
  split_and!; [done|done|rewrite u32_id; lia|lia|lia| |lia].
  replace (vaddr - vaddr mod 4096) with (vaddr / 4096 * 4096) by lia. apply Z.mod_mul. lia.
Qed.

Lemma wp_as_define_region s gs p a us js j0 vaddr sz (Q : result unit → vmstate → Prop) :
  as_inv s gs p a us js j0 → seg_ok vaddr sz → codeNPages a = 0 ∨ dataNPages a = 0 →
  (let n := Z.of_nat (seg_pages vaddr sz) in
   let brk := seg_base vaddr + n * PAGE_SIZE in
   let a' := if codeNPages a =? 0
     then AddrSpace brk brk (heapNPages a) (seg_base vaddr) (chain a) (as_end a) n (dataNPages a)
     else AddrSpace brk brk (heapNPages a) (vstart a) (chain a) (as_end a) (codeNPages a) n in
   let s' := set_ases (<[p := a']> (vs_as s)) s in
   as_inv s' gs p a' us js j0 → Q (inr tt) s') →
  wp (as_define_region p vaddr sz) Q s.
Proof.
  clear random_slot junk.
  intros Hinv Hseg Hcase HQ. unfold as_define_region, get_as, put_as. wp_steps.
  rewrite (inv_as _ _ _ _ _ _ _ Hinv). wp_steps.
  destruct (seg_arith vaddr sz Hseg) as (-> & -> & -> & _).
  destruct (Z.eqb_spec (codeNPages a) 0) as [Hc|Hc].
  - wp_steps. apply HQ. by apply as_inv_regions.
  - rewrite (proj2 (Z.eqb_eq _ _)) by tauto. wp_steps. apply HQ. by apply as_inv_regions.
Qed.

Lemma lookup_v_prot v ct dt l : lookup_v v (prot ct dt <$> l) = prot ct dt <$> lookup_v v l.
Proof.
  induction l as [|e l IH]; [done|]. simpl. rewrite prot_vaddr.
  by destruct (page_vaddr e =? v).
Qed.

Lemma lookup_v_None v l : (∀ k e, l !! k = Some e → page_vaddr e ≠ v) → lookup_v v l = None.
Proof.
  induction l as [|e l IH]; [done|]. intros H. simpl.
  rewrite (proj2 (Z.eqb_neq _ _) (H 0%nat e eq_refl)). apply IH. intros k. exact (H (S k)).
Qed.

Lemma lookup_v_first v l k e : l !! k = Some e → page_vaddr e = v →
  (∀ j e', (j < k)%nat → l !! j = Some e' → page_vaddr e' ≠ v) → lookup_v v l = Some e.
Proof.
  intros Hk He Hlt. rewrite <-(take_drop_middle l k e Hk), lookup_v_app.
  rewrite lookup_v_None.
  - simpl. by rewrite He, Z.eqb_refl.
  - intros j e' [Hj Hjk]%lookup_take_Some. by eapply Hlt.
Qed.

(** In a fresh run without wrap-around, page [k] is found at its address. *)
Lemma fresh_run_at v m es k : fresh_run v m es → 0 ≤ v → v + PAGE_SIZE * Z.of_nat (length es) < 2 ^ 32 →
  (k < length es)%nat →
  ∃ e, es !! k = Some e ∧ lookup_v (v + PAGE_SIZE * Z.of_nat k) es = Some e ∧
    page_vaddr e = v + PAGE_SIZE * Z.of_nat k ∧ zeroed m (page_paddr e).
Proof.
  intros Hf Hv Hm Hk. unfold PAGE_SIZE in *. destruct (lookup_lt_is_Some_2 _ _ Hk) as [e He].
  destruct (Hf k e He) as (Hva & _ & _ & _ & Hz). unfold PAGE_SIZE in Hva.
  rewrite u32_id in Hva by lia. exists e. split_and!; [done| |done|done].
  eapply lookup_v_first; [done..|]. intros j e' Hj He'.
  destruct (Hf j e' He') as (-> & _). unfold PAGE_SIZE. rewrite u32_id by lia. lia.
Qed.

Lemma fresh_run_below v m es x : fresh_run v m es → v + PAGE_SIZE * Z.of_nat (length es) < 2 ^ 32 →
  0 ≤ v → v + PAGE_SIZE * Z.of_nat (length es) ≤ x → lookup_v x es = None.
Proof.
  intros Hf Hm Hv Hx. apply lookup_v_None. intros k e He. pose proof (lookup_lt_Some _ _ _ He).
  destruct (Hf k e He) as (-> & _). unfold PAGE_SIZE in *. rewrite u32_id by lia. lia.
Qed.

(** The calls [load_elf] makes on a fresh address space for a code segment
    and a data segment, in its order. *)
Definition load_regions (p cv csz dv dsz : Z) : M vmstate (result unit) :=
  r ← as_define_region p cv csz;
  match r with
  | inl e => mret (inl e)
  | inr _ =>
      r ← as_define_region p dv dsz;
      match r with
      | inl e => mret (inl e)
      | inr _ =>
          r ← as_prepare_load junk p;
          match r with
          | inl e => mret (inl e)
          | inr _ => as_complete_load p
          end
      end
  end.

(** The segments follow each other and leave room for heap and stack. *)
Record image_ok (cv csz dv dsz : Z) : Prop := {
  img_code : seg_ok cv csz;
  img_data : seg_ok dv dsz;
  img_order : seg_base cv + Z.of_nat (seg_pages cv csz) * PAGE_SIZE ≤ seg_base dv;
  img_top : seg_base dv + Z.of_nat (seg_pages dv dsz) * PAGE_SIZE < STACK_BASE - 4096;
}.

(** [k]th page of a segment: mapped once, with these permissions, zeroed. *)
Definition seg_mapped (s : vmstate) (a : addrspace) (vaddr sz : Z) (w x : bool) : Prop :=
  ∀ k, (k < seg_pages vaddr sz)%nat → ∃ e,
    find_page (seg_base vaddr + PAGE_SIZE * Z.of_nat k) (chain a) = Some e ∧
    isRead e = true ∧ isWrite e = w ∧ isExe e = x ∧ zeroed (vs_mem s) (page_paddr e).

Record image_loaded s gs p us js j0 cv csz dv dsz (s' : vmstate) gs' a' us' js' : Prop := {
  il_inv : as_inv s' gs' p a' us' js' j0;
  il_grow : vm_grow p s gs s' gs';
  il_free : free_all (own_all us' js' j0) gs' = free_all (own_all us js j0) gs;
  il_code : seg_mapped s' a' cv csz false true;
  il_data : seg_mapped s' a' dv dsz true false;
  il_only : length (live_chain (chain a')) = (seg_pages cv csz + seg_pages dv dsz)%nat;
  il_heap : heap_tight a';
  il_start : vstart a' = seg_base cv;
  il_break : vbreaktop a' = seg_base dv + Z.of_nat (seg_pages dv dsz) * PAGE_SIZE;
}.

Lemma image_found cv csz dv dsz m es1 es2 :
  image_ok cv csz dv dsz →
  length es1 = seg_pages cv csz → length es2 = seg_pages dv dsz →
  fresh_run (seg_base cv) m es1 → fresh_run (seg_base dv) m es2 →
  let ct := seg_base cv + Z.of_nat (seg_pages cv csz) * PAGE_SIZE in
  let dt := seg_base dv + Z.of_nat (seg_pages dv dsz) * PAGE_SIZE in
  (∀ k, (k < seg_pages cv csz)%nat → ∃ e, lookup_v (seg_base cv + PAGE_SIZE * Z.of_nat k)
     (prot ct dt <$> es1 ++ es2) = Some e ∧
     isRead e = true ∧ isWrite e = false ∧ isExe e = true ∧ zeroed m (page_paddr e)) ∧
  (∀ k, (k < seg_pages dv dsz)%nat → ∃ e, lookup_v (seg_base dv + PAGE_SIZE * Z.of_nat k)
     (prot ct dt <$> es1 ++ es2) = Some e ∧
     isRead e = true ∧ isWrite e = true ∧ isExe e = false ∧ zeroed m (page_paddr e)).
Proof.
  intros [Hc Hd Ho Ht] H1 H2 F1 F2 ct dt.
  destruct (seg_arith _ _ Hc) as (_ & Nc & _ & _ & Hc0 & _).
  destruct (seg_arith _ _ Hd) as (_ & Nd & _ & _ & Hd0 & _).
  unfold PAGE_SIZE, STACK_BASE in *. split; intros k Hk.
  - destruct (fresh_run_at _ _ _ k F1) as (e & _ & Hl & Hv & Hz); [lia|unfold PAGE_SIZE; lia|lia|].
    exists (prot ct dt e). rewrite lookup_v_prot, lookup_v_app. unfold PAGE_SIZE in *. rewrite Hl.
    split; [done|]. unfold prot. rewrite (proj2 (Z.ltb_lt _ ct)) by (unfold ct; lia). by split_and!.
  - destruct (fresh_run_at _ _ _ k F2) as (e & _ & Hl & Hv & Hz); [lia|unfold PAGE_SIZE; lia|lia|].
    exists (prot ct dt e). rewrite lookup_v_prot, lookup_v_app. unfold PAGE_SIZE in *.
    rewrite (fresh_run_below _ _ _ _ F1) by (unfold PAGE_SIZE; lia). rewrite Hl.
    split; [done|]. unfold prot. rewrite (proj2 (Z.ltb_ge _ ct)) by (unfold ct; lia).
    rewrite (proj2 (Z.ltb_lt _ dt)) by (unfold dt; lia). by split_and!.
Qed.

Lemma heap_tight_empty a :
  0 ≤ vbreakbase a → vbreakbase a mod 4096 = 0 → vbreaktop a = vbreakbase a →
  vbreaktop a < STACK_BASE - 4096 → heapNPages a = 0 → heap_tight a.
Proof.
  intros H0 Hm Ht Htop Hn. constructor; [done|lia| |rewrite Hn; lia].
  by rewrite Hn, Ht, Z.sub_diag.
Qed.

(** The pages are mapped, writable and zeroed; nothing is protected yet. *)
Record prepared s gs p us js j0 cv csz dv dsz (s' : vmstate) gs' a' us' js' es1 es2 : Prop := {
  pr_inv : as_inv s' gs' p a' us' js' j0;
  pr_grow : vm_grow p s gs s' gs';
  pr_free : free_all (own_all us' js' j0) gs' = free_all (own_all us js j0) gs;
  pr_live : live_chain (chain a') = es1 ++ es2;
  pr_code_len : length es1 = seg_pages cv csz;
  pr_data_len : length es2 = seg_pages dv dsz;
  pr_code : fresh_run (seg_base cv) (vs_mem s') es1;
  pr_data : fresh_run (seg_base dv) (vs_mem s') es2;
  pr_start : vstart a' = seg_base cv;
  pr_break : vbreakbase a' = seg_base dv + Z.of_nat (seg_pages dv dsz) * PAGE_SIZE;
  pr_top : vbreaktop a' = vbreakbase a';
  pr_heap : heapNPages a' = 0;
  pr_ncode : codeNPages a' = Z.of_nat (seg_pages cv csz);
}.

Lemma wp_prepare_regions s gs p a us js j0 cv csz dv dsz :
  as_inv s gs p a us js j0 → t_addrspace s = p → image_ok cv csz dv dsz →
  live_chain (chain a) = [] → codeNPages a = 0 → dataNPages a = 0 → heapNPages a = 0 →
  (2 * (seg_pages cv csz + seg_pages dv dsz) ≤ nfree gs)%nat →
  wp (as_define_region p cv csz) (λ r s1, r = inr tt ∧ t_addrspace s1 = p ∧
    wp (as_define_region p dv dsz) (λ r s2, r = inr tt ∧ t_addrspace s2 = p ∧
      wp (as_prepare_load junk p) (λ r s3, r = inr tt ∧ t_addrspace s3 = p ∧ ∃ gs' a' us' js' es1 es2,
        prepared s gs p us js j0 cv csz dv dsz s3 gs' a' us' js' es1 es2) s2) s1) s.
Proof.
  intros Hinv Hcur Himg Hlive Hc Hd Hh Hn. pose proof Himg as [Ic Id Io It].
  destruct (seg_arith _ _ Ic) as (_ & _ & _ & Hcn & Hc0 & Hcm & _).
  destruct (seg_arith _ _ Id) as (_ & _ & _ & Hdn & Hd0 & Hdm & _).
  eapply wp_as_define_region; [exact Hinv|done|by left|].
  rewrite Hc. simpl. intros Hinv1. split; [done|]. split; [done|].
  eapply wp_as_define_region; [exact Hinv1|done|by right|].
  simpl codeNPages. rewrite (proj2 (Z.eqb_neq (Z.of_nat (seg_pages cv csz)) 0)) by lia. simpl. intros Hinv2. split; [done|]. split; [done|].
  set (a2 := AddrSpace _ _ _ _ _ _ _ _) in Hinv2 |- *. set (s2 := set_ases _ _) in Hinv2 |- *.
  eapply (wp_as_prepare_load junk s2 gs p a2 us js j0 (seg_pages cv csz) (seg_pages dv dsz)); [done..|].
  intros s3 gs3 a3 us3 js3 es1 es2 [Hinv3 Hg3 Hr3 Hl3 Hf3 _] Hl1 Hl2 F1 F2. simpl in *.
  rewrite Hlive in Hl3. destruct Hr3 as (Rb & Rt & Rh & Rv & Rc & Rd).
  unfold a2 in Rb, Rt, Rh, Rv, Rc, Rd. simpl in Rb, Rt, Rh, Rv, Rc, Rd.
  unfold PAGE_SIZE, STACK_BASE in *.
  rewrite (u32_id (Z.of_nat (seg_pages dv dsz) * _)), Z.add_simpl_r, u32_id in F2 by lia.
  split; [done|]. split; [by rewrite (g_cur _ _ _ _ _ Hg3)|]. exists gs3, a3, us3, js3, es1, es2.
  constructor; [done| |done|done|done|done|done|done|done|done|congruence|congruence|done].
  eapply vm_grow_trans; [|exact Hg3]. eapply vm_grow_trans; apply vm_grow_set_as.
Qed.

Lemma wp_load_regions s gs p a us js j0 cv csz dv dsz (Q : result unit → vmstate → Prop) :
  as_inv s gs p a us js j0 → t_addrspace s = p → image_ok cv csz dv dsz →
  live_chain (chain a) = [] → codeNPages a = 0 → dataNPages a = 0 → heapNPages a = 0 →
  (2 * (seg_pages cv csz + seg_pages dv dsz) ≤ nfree gs)%nat →
  (∀ s' gs' a' us' js', image_loaded s gs p us js j0 cv csz dv dsz s' gs' a' us' js' →
     Q (inr tt) s') →
  wp (load_regions p cv csz dv dsz) Q s.
Proof.
  intros Hinv Hcur Himg Hlive Hc Hd Hh Hn HQ. unfold load_regions. pose proof Himg as [Ic Id Io It].
  destruct (seg_arith _ _ Ic) as (_ & _ & _ & Hcn & Hc0 & _), (seg_arith _ _ Id) as (_ & _ & _ & Hdn & Hd0 & Hdm & _).
  apply wp_bind_2. eapply wp_mono; [by eapply wp_prepare_regions|]. intros r s1 (-> & _ & H1).
  apply wp_bind_2. eapply wp_mono; [exact H1|]. intros r s2 (-> & _ & H2).
  apply wp_bind_2. eapply wp_mono; [exact H2|]. intros r s3 (-> & _ & gs3 & a3 & us3 & js3 & es1 & es2 & [Hinv3 Hg3 Hf3 Hl3 Hl1 Hl2 F1 F2 Rv Rb Rt Rh Rc]).
  destruct (image_found cv csz dv dsz (vs_mem s3) es1 es2 Himg Hl1 Hl2 F1 F2) as [Fc Fd].
  eapply wp_as_complete_load; [exact Hinv3|]. unfold PAGE_SIZE, STACK_BASE in *. rewrite Rv, Rc, Rb.
  rewrite (u32_id (4096 * _)), u32_id, (Z.mul_comm 4096) by lia. cbv zeta. rewrite Hl3.
  intros Hl4 Hinv4. simpl chain in Hl4.
  eapply HQ. constructor; [exact Hinv4| |done| | | | |done|by simpl; rewrite Rt, Rb].
  - eapply vm_grow_trans; [exact Hg3|apply vm_grow_set_as].
  - intros k Hk. rewrite find_page_live. simpl chain. rewrite Hl4. by apply Fc.
  - intros k Hk. rewrite find_page_live. simpl chain. rewrite Hl4. by apply Fd.
  - simpl chain. rewrite Hl4, length_fmap, length_app. by rewrite Hl1, Hl2.
  - apply heap_tight_empty; simpl; rewrite ?Rt, ?Rb, ?Rh; [lia| |done|unfold STACK_BASE; lia|done].
    by rewrite Z.add_comm, <-Zplus_mod_idemp_r, Hdm, Z.add_0_r, Z.mod_mul by lia.
Qed.

(** Loading a program whose code and data segments are disjoint and fit
    below the stack into a fresh address space succeeds when memory suffices:
    every page a segment touches is mapped to a zeroed page of its own, code
    pages readable and executable, data pages readable and writable, nothing
    else is mapped, and the empty heap starts right after the data. *)
Theorem program_loaded s gs p a us js j0 cv csz dv dsz :
  as_inv s gs p a us js j0 → t_addrspace s = p → image_ok cv csz dv dsz →
  live_chain (chain a) = [] → codeNPages a = 0 → dataNPages a = 0 → heapNPages a = 0 →
  (2 * (seg_pages cv csz + seg_pages dv dsz) ≤ nfree gs)%nat →
  wp (load_regions p cv csz dv dsz) (λ r s', r = inr tt ∧ ∃ gs' a' us' js',
    image_loaded s gs p us js j0 cv csz dv dsz s' gs' a' us' js') s.
Proof.
  intros. eapply wp_load_regions; [done..|]. intros s' gs' a' us' js' Hi.
  split; [done|]. by exists gs', a', us', js'.
Qed.

(** [curthread->t_addrspace = as]. *)
Definition set_current (p : Z) : M vmstate unit :=
  modify (λ s, VmState (vs_cm s) (vs_mem s) (vs_tlb s) (vs_as s) p).

Lemma as_inv_current s gs p a us js j0 q :
  as_inv s gs p a us js j0 →
  as_inv (VmState (vs_cm s) (vs_mem s) (vs_tlb s) (vs_as s) q) gs p a us js j0.
Proof. intros [? ? ? ?]. by constructor. Qed.

(** No page is leaked over the life of an address space: creating one,
    loading a program into it and destroying it leaves the page allocator with
    exactly the segments it had before, and the contents of every page that
    was in use are unchanged. *)
Theorem as_lifecycle_no_leak s gs cv csz dv dsz :
  pages (vs_cm s) gs → image_ok cv csz dv dsz →
  (1 + 2 * (seg_pages cv csz + seg_pages dv dsz) ≤ nfree gs)%nat →
  wp (p ← as_create junk;
      set_current p;;
      r ← load_regions p cv csz dv dsz;
      as_destroy p;;
      mret r) (λ r s', r = inr tt ∧ pages (vs_cm s') gs ∧
        ∀ j k, gs !! j = Some (Used 1 k) →
          same_page (vs_mem s) (vs_mem s') (pgaddr (vs_cm s) j) (pgaddr (vs_cm s) j)) s.
Proof.
  intros Hp Himg Hn. apply wp_bind_2. eapply wp_as_create; [done| |].
  2:{ intros Hno. exfalso. apply Hno, nfree_pos. lia. }
  intros j1 cl Hj p a s1 gs1 Hinv Hlive Hback _. wp_steps.
  pose proof (nfree_insert gs j1 true Hj) as Hni. fold gs1 in Hni.
  apply wp_bind_2.
  eapply wp_load_regions; [apply as_inv_current; exact Hinv|done|done|done|done|done|done|lia|].
  intros s' gs' a' us' js' [Hi Hg Hf _ _ _ _ _ _]. apply wp_bind_2.
  eapply wp_as_destroy; [exact Hi|]. intros cl' Hp'. wp_steps. split; [done|].
  rewrite Hf in Hp'. change (own_all [] [] j1) with [j1] in Hp'. rewrite Hback in Hp'.
  split; [done|]. intros j k Hj' o Ho. simpl.
  apply (g_mem _ _ _ _ _ Hg j k); [|done]. by apply used_kept.
Qed.

(** ** Copying *)
Lemma lookup_v_copy cm gs gs' m m' v l l' :
  Forall2 (copy_entry cm gs gs' m m') l l' →
  option_Forall2 (copy_entry cm gs gs' m m') (lookup_v v l) (lookup_v v l').
Proof.
  induction 1 as [|e e' l l' He _ IH]; simpl; [constructor|].
  pose proof He as (-> & _). by destruct (page_vaddr e =? v); [constructor|].
Qed.

(** C2: [as_copy] duplicates the mapping exactly: the copy maps the same
    addresses with the same permissions, each to a page of its own, different
    from one another and from every page that was in use, with the same
    contents; the original and every other address space keep their mapping
    and the contents of all their pages. *)
Theorem as_copy_exact s gs old a us js j0 :
  as_inv s gs old a us js j0 → (length us + length (chain a) ≤ nfree gs)%nat →
  wp (as_copy junk old) (λ r s', ∃ new gs' a', r = inr new ∧ new ≠ old ∧
    vs_as s' !! new = Some a' ∧ vs_as s' !! old = Some a ∧
    pages (vs_cm s') gs' ∧ vm_grow new s gs s' gs' ∧
    NoDup (page_paddr <$> live_chain (chain a')) ∧
    ∀ v, option_Forall2 (copy_entry (vs_cm s) gs gs' (vs_mem s) (vs_mem s'))
           (find_page v (chain a)) (find_page v (chain a'))) s.
Proof.
  intros Hinv Hn. eapply wp_as_copy; [done..|].
  intros new s' gs' c' Hg Hp Hne Hnew Hold _ Hlive Hnd.
  eexists new, gs', _. split_and!; [done|done|exact Hnew|done..|].
  intros v. rewrite !find_page_live. by apply lookup_v_copy.
Qed.

Lemma wp_sbrk_0_zero s a :
  vs_as s !! t_addrspace s = Some a → vbreakbase a = 0 → vbreaktop a = 0 → heapNPages a = 0 →
  wp (sys_sbrk junk 0) (λ r _, r = inr 0) s.
Proof.
  intros Ha Hb Ht Hh. unfold sys_sbrk, get_as, put_as. wp_steps. rewrite Ha. wp_steps.
  simpl vbreaktop. simpl vbreakbase. simpl heapNPages. rewrite Hb, Ht, Hh. simpl.
  change (u32 0) with 0. simpl. change (s32 0) with 0. simpl. unfold page_alloc. simpl. by wp_steps.
Qed.

(** The copy is not the exact copy its documentation announces: the break,
    the heap size and the region bounds are not copied, so [sbrk(0)] in the
    child of a fork returns 0 whatever the break of the parent is. *)
Theorem as_copy_forgets_break s gs old a us js j0 :
  as_inv s gs old a us js j0 → (length us + length (chain a) ≤ nfree gs)%nat →
  wp (r ← as_copy junk old;
      match r with
      | inl e => mret (inl e)
      | inr new => set_current new;; sys_sbrk junk 0
      end) (λ r _, r = inr 0) s.
Proof.
  intros Hinv Hn. apply wp_bind_2. eapply wp_as_copy; [done..|].
  intros new s' gs' c' _ _ _ Hnew _ _ _ _. wp_steps. by eapply wp_sbrk_0_zero.
Qed.

(** ** The heap *)
(** Growing the heap by a non-negative amount that stays below the stack
    returns the old break, moves the break by exactly that amount and keeps the
    heap backed: every page from the base of the heap up to the new break is
    mapped, every page in use keeps its contents, and no page is leaked. *)
Theorem sbrk_grow_backed s gs p a us js j0 amount :
  as_inv s gs p a us js j0 → t_addrspace s = p → heap_tight a →
  0 ≤ amount → vbreaktop a + amount < STACK_BASE - 4096 →
  (2 * Z.to_nat ((amount + 4095) / 4096) ≤ nfree gs)%nat →
  wp (sys_sbrk junk amount) (λ r s', r = inr (vbreaktop a) ∧ ∃ gs' a' us' js',
    as_inv s' gs' p a' us' js' j0 ∧ heap_tight a' ∧
    vbreakbase a' = vbreakbase a ∧ vbreaktop a' = vbreaktop a + amount ∧
    vm_grow p s gs s' gs' ∧
    free_all (own_all us' js' j0) gs' = free_all (own_all us js j0) gs) s.
Proof.
  intros. eapply wp_sys_sbrk_grow; [done..|]. intros s' gs' a' us' js' ? ? ? ? ? ?.
  split; [done|]. by exists gs', a', us', js'.
Qed.

(** A break request that would run into the stack fails with [ENOMEM] but
    has already moved the break, so that every later [sbrk(0)], which asks for
    nothing, fails with [ENOMEM] too. *)
Theorem sbrk_failure_moves_break s a amount :
  vs_as s !! t_addrspace s = Some a →
  STACK_BASE - 4096 ≤ vbreaktop a + amount < 2 ^ 32 →
  wp (r1 ← sys_sbrk junk amount; r2 ← sys_sbrk junk 0; mret (r1, r2))
    (λ r s', r = (inl ENOMEM, inl ENOMEM) ∧
       vs_as s' !! t_addrspace s' = Some (set_vbreaktop (vbreaktop a + amount) a)) s.
Proof.
  intros Ha Hm. unfold STACK_BASE in Hm. unfold sys_sbrk, get_as, put_as, STACK_BASE.
  wp_steps. rewrite Ha. wp_steps.
  simpl vbreaktop. rewrite (u32_id (_ + amount)), (proj2 (Z.leb_le _ _)) by lia. wp_steps.
  simpl vs_as. simpl t_addrspace. rewrite lookup_insert_eq. wp_steps. simpl vbreaktop.
  rewrite Z.add_0_r, u32_id, (proj2 (Z.leb_le _ _)) by lia. wp_steps. split; [done|].
  simpl. by rewrite lookup_insert_eq.
Qed.

(** Moving the break down returns the old break and only changes the break. *)
Lemma wp_sbrk_shrink s p a base n d (Q : result Z → vmstate → Prop) :
  vs_as s !! p = Some a → t_addrspace s = p → vbreakbase a = base → 0 ≤ base →
  heapNPages a = n → vbreaktop a = base + n * 4096 → 0 < d ≤ n → base + n * 4096 < STACK_BASE - 4096 →
  (let a' := set_vbreaktop (base + (n - d) * 4096) a in
   Q (inr (base + n * 4096)) (set_ases (<[p := a']> (vs_as s)) s)) →
  wp (sys_sbrk junk (- (d * 4096))) Q s.
Proof.
  intros Ha Hcur Hb Hb0 Hn Ht Hd Hmax HQ. unfold STACK_BASE in Hmax.
  unfold sys_sbrk, get_as, put_as, STACK_BASE, PAGE_SIZE. wp_steps. rewrite Hcur, Ha. wp_steps.
  simpl vbreaktop. simpl vbreakbase. simpl heapNPages. rewrite Hb, Ht, Hn.
  replace (base + n * 4096 + - (d * 4096)) with (base + (n - d) * 4096) by lia.
  rewrite (u32_id (base + (n - d) * 4096)) by lia.
  rewrite (proj2 (Z.leb_gt _ _)), (proj2 (Z.ltb_ge _ _)) by lia.
  rewrite (u32_id (n * 4096)), (u32_id (_ - base)), (proj2 (Z.leb_gt _ _)) by lia.
  wp_steps. exact HQ.
Qed.

Lemma sbrk_regrow_arith base n d : 0 ≤ base → base mod 4096 = 0 → 0 < d ≤ n →
  base + (n + 1) * 4096 < STACK_BASE - 4096 →
  let top := base + (n - d) * 4096 in
  let new := u32 (top + (d + 1) * 4096) in
  new = base + (n + 1) * 4096 ∧ u32 (n * 4096) <=? u32 (new - base) = true ∧
  s32 (u32 (new - u32 (base + u32 (n * 4096)))) = 4096 ∧ top mod 4096 = 0.
Proof.
  intros Hb Hm Hd Hmax top new. unfold STACK_BASE in Hmax. unfold new, top.
  replace (base + (n - d) * 4096 + (d + 1) * 4096) with (base + (n + 1) * 4096) by lia.
  rewrite (u32_id (base + (n + 1) * 4096)), (u32_id (n * 4096)), (u32_id (base + _)) by lia.
  rewrite (u32_id (_ - base)), (proj2 (Z.leb_le _ _)) by lia.
  replace (base + (n + 1) * 4096 - (base + n * 4096)) with 4096 by lia.
  split_and!; [done..|]. by rewrite Z.mod_add by lia.
Qed.

(** Shrinking the heap by [d] pages and growing it by [d + 1] leaves a hole:
    the one new page is mapped at the old (lower) break, where a page already
    is, instead of above the pages the heap has, so that the last page below
    the new break stays unmapped. *)
Theorem sbrk_shrink_grow_hole s gs p a us js j0 base n d :
  as_inv s gs p a us js j0 → t_addrspace s = p → vbreakbase a = base → 0 ≤ base →
  base mod 4096 = 0 → heapNPages a = n → vbreaktop a = base + n * 4096 → 0 < d ≤ n →
  base + (n + 1) * 4096 < STACK_BASE - 4096 → (2 ≤ nfree gs)%nat →
  find_page (base + n * 4096) (chain a) = None →
  wp (r1 ← sys_sbrk junk (- (d * 4096)); r2 ← sys_sbrk junk ((d + 1) * 4096); mret (r1, r2))
    (λ r s', r = (inr (base + n * 4096), inr (base + (n - d) * 4096)) ∧ ∃ a',
       vs_as s' !! p = Some a' ∧ vbreaktop a' = base + (n + 1) * 4096 ∧
       find_page (base + n * 4096) (chain a') = None) s.
Proof.
  intros Hinv Hcur Hb Hb0 Hbm Hn Ht Hd Hmax Hfree Hnone. pose proof Hinv as [_ Ha _ _].
  apply wp_bind_2. eapply (wp_sbrk_shrink s p a base n d); [done..|lia|]. intros a1.
  assert (as_inv (set_ases (<[p := a1]> (vs_as s)) s) gs p a1 us js j0) as Hinv1
    by (by apply as_inv_regions).
  set (s1 := set_ases _ s) in *. apply wp_bind_2.
  destruct (sbrk_regrow_arith base n d Hb0 Hbm Hd Hmax) as (E1 & E2 & E3 & E4).
  unfold sys_sbrk, get_as, put_as, PAGE_SIZE. wp_steps. simpl t_addrspace. rewrite Hcur.
  rewrite (inv_as _ _ _ _ _ _ _ Hinv1). wp_steps. simpl vbreaktop. simpl vbreakbase. simpl heapNPages.
  rewrite Hb, Hn, E2, E3, E4, E1. unfold STACK_BASE in *.
  rewrite (proj2 (Z.leb_gt _ _)), (proj2 (Z.ltb_ge _ _)) by lia. simpl Z.rem. simpl Z.quot.
  cbv iota. simpl Z.eqb. cbv iota. apply wp_bind_2.
  set (a2 := set_vbreaktop _ a1). set (s2 := set_ases _ s1).
  assert (as_inv s2 gs p a2 us js j0) as Hinv2 by (by apply as_inv_regions).
  eapply (wp_page_alloc junk s2 gs p a2 us js j0 _ 1); [done|done|lia|simpl; lia|simpl; lia|].
  intros s3 gs3 a3 us3 js3 es [Hi3 _ (_ & Ht3 & _) Hl3 _ _] Hlen Hes. wp_steps. split; [done|].
  exists a3. split_and!; [apply Hi3|done|].
  destruct es as [|e [|]]; [done| |done].
  rewrite find_page_live, Hl3, lookup_v_app. simpl chain.
  rewrite <-find_page_live, Hnone. simpl. rewrite (Hes 0%nat e eq_refl).
  unfold PAGE_SIZE. rewrite u32_id, (proj2 (Z.eqb_neq _ _)) by lia. done.
Qed.

Lemma as_destroy_dangling p s : vs_as s !! p = None → as_destroy p s = Undef.
Proof. intros H. unfold as_destroy, get_as. m_simpl. by rewrite H. Qed.

(** When memory runs out at the first page, [as_prepare_load] fails with
    [ENOMEM] after destroying the address space it was given, with all its
    pages given back; the [as_destroy] that its callers run on that error
    ([sys_execv], and [thread_exit] for [runprogram]) then works on a freed
    structure. *)
Theorem prepare_load_failure_double_destroy s gs p a us js j0 :
  as_inv s gs p a us js j0 → 0 < codeNPages a → Free ∉ gs →
  wp (as_prepare_load junk p) (λ r s', r = inl ENOMEM ∧
    pages (vs_cm s') (free_all (own_all us js j0) gs) ∧ as_destroy p s' = Undef) s.
Proof.
  intros Hinv Hc Hno. pose proof Hinv as [Hp Ha _ _]. unfold as_prepare_load, get_as, load_region.
  wp_steps. rewrite Ha. wp_steps.
  destruct (Z.to_nat (codeNPages a)) as [|n] eqn:E; [lia|]. cbn [for_ret]. apply wp_bind_2, wp_bind_2.
  apply wp_zoom. eapply wp_alloc_upage1; [done| |].
  - intros i ? Hi. exfalso. apply Hno. by eapply list_elem_of_lookup_2.
  - intros _. simpl. apply wp_bind_2. eapply wp_as_destroy; [by destruct s|].
    intros cl Hp'. wp_steps. split_and!; [done|done|].
    apply as_destroy_dangling. apply lookup_delete_eq.
Qed.
End with_hardware.

(** ** Concrete instances *)
Definition empty_entry : page_entry := PageEntry 0 0 false false false false.
Definition demo_junk (k : Z) (i : nat) : page_entry := empty_entry.
Definition demo_slot (s : vmstate) : Z := 5.
(** Page 0 holds the address space, pages 1 and 2 its code and heap pages,
    [nf] free pages follow. *)
Definition demo_gs (nf : nat) : list seg :=
  [Used 1 true; Used 1 false; Used 1 false] ++ replicate nf Free.
Definition demo_cm (nf : nat) : cmstate :=
  CmState cpu0 spinlock_init 0 0 (flat (demo_gs nf) ++ [free_entry]) (Z.of_nat (3 + nf)) 0 4096.
Definition demo_p : Z := 0x80001000.
Definition demo_as : addrspace :=
  AddrSpace 0x401000 0x402000 1 0x400000
    [PageTable demo_p (PageEntry 0x400000 0x2000 true false true false
       :: PageEntry 0x401000 0x3000 true true false false
       :: replicate 336 empty_entry) 2] 0 1 0.
Definition demo_vm (nf : nat) : vmstate :=
  VmState (demo_cm nf) (λ _, 0) (replicate 64 (0, 0)) {[ demo_p := demo_as ]} demo_p.

Lemma flat_free nf : flat (replicate nf Free) = replicate nf free_entry.
Proof. induction nf as [|n IH]; [done|]. by rewrite replicate_S, flat_cons, IH. Qed.

Lemma demo_pages nf : (nf ≤ 20)%nat → pages (demo_cm nf) (demo_gs nf).
Proof.
  intros Hnf. exists [free_entry]. split.
  - constructor; [|done|done| | |done].
    + apply Forall_app. split; [repeat (apply Forall_cons_2; [simpl; lia|]); constructor|].
      by apply Forall_replicate.
    + unfold demo_gs. rewrite flat_app, length_app, flat_free, length_replicate. simpl. lia.
    + do 21 (destruct nf as [|nf]; [by vm_compute|]). lia.
  - split; [|by repeat constructor]. apply Forall_app. split; [|by apply Forall_replicate].
    repeat (apply Forall_cons_2; [simpl; lia|]). constructor.
Qed.

Lemma demo_live : live_chain (chain demo_as) =
  [PageEntry 0x400000 0x2000 true false true false; PageEntry 0x401000 0x3000 true true false false].
Proof. by vm_compute. Qed.

Lemma demo_inv nf : (nf ≤ 20)%nat → as_inv (demo_vm nf) (demo_gs nf) demo_p demo_as [1; 2]%nat [] 0.
Proof.
  intros Hnf. constructor; [by apply demo_pages|done| |].
  - constructor. exists [], (PageTable demo_p (PageEntry 0x400000 0x2000 true false true false
      :: PageEntry 0x401000 0x3000 true true false false :: replicate 336 empty_entry) 2).
    split_and!; [done|done| |constructor].
    constructor; [done|done|]. apply (Forall_replicate _ 336 empty_entry). done.
  - constructor; [by rewrite demo_live|done|done|]. split.
    + repeat (constructor; [set_solver|]). constructor.
    + intros i Hi. unfold own_all in Hi. simpl in Hi.
      repeat (apply elem_of_cons in Hi as [->|Hi]; [by eexists|]). by apply elem_of_nil in Hi.
Qed.

Lemma demo_nfree nf : nfree (demo_gs nf) = nf.
Proof.
  unfold nfree, demo_gs. rewrite filter_app, length_app, (filter_all _ (replicate _ _)).
  - by rewrite length_replicate.
  - by apply Forall_replicate.
Qed.

Lemma demo_quiet nf : quiet (demo_vm nf).
Proof. by split_and!. Qed.
Lemma demo_slot_ok t : 0 ≤ demo_slot t < NUM_TLB.
Proof. done. Qed.

Lemma vm_fault_mapped_witness :
  wp (vm_fault demo_junk demo_slot VM_FAULT_WRITE 0x401004) (λ r s', r = inr tt ∧ ∃ i, (i < 64)%nat ∧
    s' = set_tlb (<[i := (0x401000, 0x3600)]> (vs_tlb (demo_vm 2))) (demo_vm 2)) (demo_vm 2).
Proof.
  apply (vm_fault_mapped demo_junk demo_slot (demo_vm 2) VM_FAULT_WRITE 0x401004 demo_as
    (PageEntry 0x401000 0x3000 true true false false));
    [apply demo_quiet|apply demo_slot_ok|done|done|done|by right].
Defined.

Lemma vm_fault_refused_witness :
  wp (vm_fault demo_junk demo_slot VM_FAULT_READ 0x500000) (λ r s', s' = demo_vm 2 ∧ r = inl EFAULT)
    (demo_vm 2).
Proof.
  apply (vm_fault_refused demo_junk demo_slot (demo_vm 2) VM_FAULT_READ 0x500000 demo_as); [done|].
  right; right; left. done.
Defined.

Lemma vm_fault_grows_stack_witness :
  wp (vm_fault demo_junk demo_slot VM_FAULT_WRITE 0x7ffffff0) (λ r s',
    ((2 ≤ 2)%nat ∧ r = inr tt ∧ grown (demo_vm 2) (demo_gs 2) demo_as [1; 2]%nat 0 0x7ffff000 s') ∨
    (Free ∉ demo_gs 2 ∧ r = inl ENOMEM ∧ s' = demo_vm 2)) (demo_vm 2).
Proof.
  apply (vm_fault_grows_stack demo_junk demo_slot (demo_vm 2) (demo_gs 2) demo_as [1; 2]%nat [] 0);
    [apply demo_inv; lia|apply demo_quiet|apply demo_slot_ok|done|done|done|].
  left. by rewrite demo_nfree.
Defined.

Lemma vm_fault_read_enables_writes_witness :
  wp (vm_fault demo_junk demo_slot VM_FAULT_WRITE 0x400000) (λ r s', r = inl EFAULT ∧ s' = demo_vm 2)
    (demo_vm 2) ∧
  wp (vm_fault demo_junk demo_slot VM_FAULT_READ 0x400000) (λ r s', r = inr tt ∧ ∃ i lo,
    vs_tlb s' !! i = Some (0x400000, lo) ∧
    Z.land lo TLBLO_DIRTY = TLBLO_DIRTY ∧ Z.land lo TLBLO_VALID = TLBLO_VALID) (demo_vm 2).
Proof.
  apply (vm_fault_read_enables_writes demo_junk demo_slot (demo_vm 2) 0x400000 demo_as
    (PageEntry 0x400000 0x2000 true false true false));
    [apply demo_quiet|apply demo_slot_ok|done|done|done|done].
Defined.

(** An address space with nothing loaded, beside the one above. *)
Definition blank_as : addrspace :=
  AddrSpace 0 0 0 0 [PageTable demo_p (replicate 338 empty_entry) 0] 0 0 0.
Definition blank_vm (nf : nat) : vmstate :=
  VmState (demo_cm nf) (λ _, 0) (replicate 64 (0, 0)) {[ demo_p := blank_as ]} demo_p.

Lemma blank_inv nf : (nf ≤ 20)%nat → as_inv (blank_vm nf) (demo_gs nf) demo_p blank_as [] [] 0.
Proof.
  intros Hnf. constructor; [by apply demo_pages|done| |].
  - constructor. exists [], (PageTable demo_p (replicate 338 empty_entry) 0).
    split_and!; [done|done| |constructor].
    constructor; [done|done|]. apply (Forall_replicate _ 338 empty_entry). done.
  - constructor; [done|done|done|]. split; [apply NoDup_singleton|].
    intros i ->%list_elem_of_singleton. by eexists.
Qed.

Lemma demo_image : image_ok 0x400000 6000 0x402100 100.
Proof. by constructor. Qed.

Lemma program_loaded_witness :
  wp (load_regions demo_junk demo_p 0x400000 6000 0x402100 100) (λ r s', r = inr tt ∧ ∃ gs' a' us' js',
    image_loaded (blank_vm 6) (demo_gs 6) demo_p [] [] 0 0x400000 6000 0x402100 100 s' gs' a' us' js')
    (blank_vm 6).
Proof.
  apply (program_loaded demo_junk (blank_vm 6) (demo_gs 6) demo_p blank_as [] [] 0);
    [apply blank_inv; lia|done|apply demo_image|done|done|done|done|].
  by rewrite demo_nfree.
Defined.

Lemma as_lifecycle_no_leak_witness :
  wp (p ← as_create demo_junk;
      set_current p;;
      r ← load_regions demo_junk p 0x400000 6000 0x402100 100;
      as_destroy p;;
      mret r) (λ r s', r = inr tt ∧ pages (vs_cm s') (demo_gs 7) ∧
        ∀ j k, demo_gs 7 !! j = Some (Used 1 k) →
          same_page (vs_mem (demo_vm 7)) (vs_mem s') (pgaddr (demo_cm 7) j) (pgaddr (demo_cm 7) j))
    (demo_vm 7).
Proof.
  apply (as_lifecycle_no_leak demo_junk (demo_vm 7) (demo_gs 7) 0x400000 6000 0x402100 100);
    [apply demo_pages; lia|apply demo_image|by rewrite demo_nfree].
Defined.

Lemma as_copy_exact_witness :
  wp (as_copy demo_junk demo_p) (λ r s', ∃ new gs' a', r = inr new ∧ new ≠ demo_p ∧
    vs_as s' !! new = Some a' ∧ vs_as s' !! demo_p = Some demo_as ∧
    pages (vs_cm s') gs' ∧ vm_grow new (demo_vm 3) (demo_gs 3) s' gs' ∧
    NoDup (page_paddr <$> live_chain (chain a')) ∧
    ∀ v, option_Forall2 (copy_entry (demo_cm 3) (demo_gs 3) gs' (λ _, 0) (vs_mem s'))
           (find_page v (chain demo_as)) (find_page v (chain a'))) (demo_vm 3).
Proof.
  apply (as_copy_exact demo_junk (demo_vm 3) (demo_gs 3) demo_p demo_as [1; 2]%nat [] 0);
    [apply demo_inv; lia|by rewrite demo_nfree].
Defined.

Lemma as_copy_forgets_break_witness :
  vbreaktop demo_as = 0x402000 ∧
  wp (r ← as_copy demo_junk demo_p;
      match r with
      | inl e => mret (inl e)
      | inr new => set_current new;; sys_sbrk demo_junk 0
      end) (λ r _, r = inr 0) (demo_vm 3).
Proof.
  split; [done|].
  apply (as_copy_forgets_break demo_junk (demo_vm 3) (demo_gs 3) demo_p demo_as [1; 2]%nat [] 0);
    [apply demo_inv; lia|by rewrite demo_nfree].
Defined.

Lemma demo_tight : heap_tight demo_as.
Proof.
  constructor; [done|done|done|]. intros k Hk. simpl heapNPages in Hk.
  assert (k = 0) as -> by lia. by eexists.
Qed.

Lemma sbrk_grow_backed_witness :
  wp (sys_sbrk demo_junk 5000) (λ r s', r = inr 0x402000 ∧ ∃ gs' a' us' js',
    as_inv s' gs' demo_p a' us' js' 0 ∧ heap_tight a' ∧
    vbreakbase a' = 0x401000 ∧ vbreaktop a' = 0x402000 + 5000 ∧
    vm_grow demo_p (demo_vm 4) (demo_gs 4) s' gs' ∧
    free_all (own_all us' js' 0) gs' = free_all (own_all [1; 2]%nat [] 0) (demo_gs 4)) (demo_vm 4).
Proof.
  apply (sbrk_grow_backed demo_junk (demo_vm 4) (demo_gs 4) demo_p demo_as [1; 2]%nat [] 0 5000);
    [apply demo_inv; lia|done|apply demo_tight|done|done|by rewrite demo_nfree].
Defined.

Lemma sbrk_failure_moves_break_witness :
  wp (r1 ← sys_sbrk demo_junk 0x7fb00000; r2 ← sys_sbrk demo_junk 0; mret (r1, r2))
    (λ r s', r = (inl ENOMEM, inl ENOMEM) ∧
       vs_as s' !! t_addrspace s' = Some (set_vbreaktop 0x7ff02000 demo_as)) (demo_vm 4).
Proof. apply (sbrk_failure_moves_break demo_junk (demo_vm 4) demo_as 0x7fb00000); done. Defined.

Lemma sbrk_shrink_grow_hole_witness :
  wp (r1 ← sys_sbrk demo_junk (- (1 * 4096)); r2 ← sys_sbrk demo_junk ((1 + 1) * 4096); mret (r1, r2))
    (λ r s', r = (inr (0x401000 + 1 * 4096), inr (0x401000 + (1 - 1) * 4096)) ∧ ∃ a',
       vs_as s' !! demo_p = Some a' ∧ vbreaktop a' = 0x401000 + (1 + 1) * 4096 ∧
       find_page (0x401000 + 1 * 4096) (chain a') = None) (demo_vm 4).
Proof.
  apply (sbrk_shrink_grow_hole demo_junk (demo_vm 4) (demo_gs 4) demo_p demo_as [1; 2]%nat [] 0
    0x401000 1 1);
    [apply demo_inv; lia|done|done|done|done|done|done|done|done|rewrite demo_nfree; lia|done].
Defined.

Lemma prepare_load_failure_double_destroy_witness :
  wp (as_prepare_load demo_junk demo_p) (λ r s', r = inl ENOMEM ∧
    pages (vs_cm s') (free_all (own_all [1; 2]%nat [] 0) (demo_gs 0)) ∧ as_destroy demo_p s' = Undef)
    (demo_vm 0).
Proof.
  apply (prepare_load_failure_double_destroy demo_junk (demo_vm 0) (demo_gs 0) demo_p demo_as
    [1; 2]%nat [] 0); [apply demo_inv; lia|done|].
  unfold demo_gs. simpl. set_solver.
Defined.
