(* ===== verification/Synch.v ===== *)
(** Synchronization primitives: [kern/thread/synch.c] and the wait channels of
    [kern/thread/thread.c] ([wchan_*], the [S_SLEEP] path of [thread_switch],
    [thread_make_runnable]).

    Threads interleave instruction by instruction on shared memory. Each C
    function is its sequence of accesses to shared state: taking and giving up
    a spinlock, reading or writing a shared field, putting the current thread
    on a wait channel, taking a thread off one, and making it runnable. Calls
    are inlined, loops and early returns are relative jumps, and a return is
    the end of the sequence.

    A thread that has put itself on a wait channel is not [ready] until some
    thread makes it runnable; [thread_switch] holds the run queue lock from
    before the thread is on the list until it has switched away, so a wakeup
    that comes in between takes effect when the thread has switched. *)

From stdpp Require Import base tactics numbers list.
From S2P Require Import Prelude.
Local Open Scope Z_scope.

(** Spinlocks: those of the primitives and the one of each wait channel. *)
Inductive spin := Spin (n : nat) | WcLock (w : nat).
#[export] Instance spin_eq_dec : EqDecision spin.
Proof. solve_decision. Defined.

Inductive instr :=
  | SpinAcq (l : spin)
  | SpinRel (l : spin)
  | Enqueue (w : nat)                  (* threadlist_addtail(&wc->wc_threads, cur) *)
  | Block                              (* the rest of thread_switch *)
  | Dequeue (w : nat)                  (* target = threadlist_remhead(&wc->wc_threads) *)
  | WakeNext                           (* thread_make_runnable(target, false) *)
  | JumpNoTarget (off : Z)             (* if (target == NULL) *)
  | JumpQEmpty (w : nat) (off : Z)     (* if the channel's list is empty *)
  | JumpIf (x : nat) (b : nat → Z → bool) (off : Z)
  | Jump (off : Z)
  | Assign (x : nat) (f : nat → Z → Z)
  | Assert (x : nat) (b : Z → bool)
  | AssertNoIntr                       (* KASSERT(!curthread->t_in_interrupt) *)
  | ForInit                            (* i = 0 *)
  | ForTest (n : Z) (off : Z)          (* leave the loop unless i < n *)
  | ForNext (off : Z).                 (* i++, back to the test *)

(** A thread runs a list of calls; [pc] is the place in the first of them.
    [target] is the local list of threads taken off a channel, [idx] the local
    loop counter. *)
Record thread (Op : Type) := Thread {
  ops : list Op;
  pc : Z;
  target : list nat;
  idx : Z;
  ready : bool;
  t_in_interrupt : bool;
}.
Arguments Thread {_}. Arguments ops {_}. Arguments pc {_}. Arguments target {_}.
Arguments idx {_}. Arguments ready {_}. Arguments t_in_interrupt {_}.

Record machine (Op : Type) := Machine {
  spins : spin → option nat;
  wc_threads : nat → list nat;
  vars : nat → Z;
  threads : list (thread Op);
}.
Arguments Machine {_}. Arguments spins {_}. Arguments wc_threads {_}. Arguments vars {_}.
Arguments threads {_}.

Inductive outcome (Op : Type) := Moved (m : machine Op) | Stuck | Crash.
Arguments Moved {_}. Arguments Stuck {_}. Arguments Crash {_}.

Definition upd {A B} `{EqDecision A} (f : A → B) (k : A) (v : B) : A → B :=
  λ x, if decide (x = k) then v else f x.

Section machine.
Context {Op : Type} (code_of : Op → list instr).

Definition at_pc (th : thread Op) (p : Z) : thread Op :=
  Thread (ops th) p (target th) (idx th) (ready th) (t_in_interrupt th).
Definition next (th : thread Op) : thread Op := at_pc th (pc th + 1).
Definition jump (th : thread Op) (off : Z) : thread Op := at_pc th (pc th + off).
Definition set_target (l : list nat) (th : thread Op) : thread Op :=
  Thread (ops th) (pc th) l (idx th) (ready th) (t_in_interrupt th).
Definition set_idx (i : Z) (th : thread Op) : thread Op :=
  Thread (ops th) (pc th) (target th) i (ready th) (t_in_interrupt th).
Definition set_ready (b : bool) (th : thread Op) : thread Op :=
  Thread (ops th) (pc th) (target th) (idx th) b (t_in_interrupt th).

Definition put_thread (t : nat) (th : thread Op) (m : machine Op) : machine Op :=
  Machine (spins m) (wc_threads m) (vars m) (<[t := th]> (threads m)).
Definition set_spin (l : spin) (h : option nat) (m : machine Op) : machine Op :=
  Machine (upd (spins m) l h) (wc_threads m) (vars m) (threads m).
Definition set_queue (w : nat) (q : list nat) (m : machine Op) : machine Op :=
  Machine (spins m) (upd (wc_threads m) w q) (vars m) (threads m).
Definition set_var (x : nat) (v : Z) (m : machine Op) : machine Op :=
  Machine (spins m) (wc_threads m) (upd (vars m) x v) (threads m).

(** One instruction of thread [t], which is [th]. A thread cannot move while it
    spins on a lock another one holds or while it sleeps. *)
Definition exec (t : nat) (th : thread Op) (i : instr) (m : machine Op) : outcome Op :=
  match i with
  | SpinAcq l =>
      match spins m l with
      | None => Moved (put_thread t (next th) (set_spin l (Some t) m))
      | Some h => if decide (h = t) then Crash else Stuck
      end
  | SpinRel l =>
      if decide (spins m l = Some t) then Moved (put_thread t (next th) (set_spin l None m))
      else Crash
  | Enqueue w =>
      Moved (put_thread t (set_ready false (next th)) (set_queue w (wc_threads m w ++ [t]) m))
  | Block => if ready th then Moved (put_thread t (next th) m) else Stuck
  | Dequeue w =>
      match wc_threads m w with
      | [] => Moved (put_thread t (next th) m)
      | h :: q => Moved (put_thread t (set_target (target th ++ [h]) (next th)) (set_queue w q m))
      end
  | WakeNext =>
      match target th with
      | [] => Crash
      | h :: r =>
          let m' := put_thread t (set_target r (next th)) m in
          match threads m' !! h with
          | Some w => Moved (put_thread h (set_ready true w) m')
          | None => Crash
          end
      end
  | JumpNoTarget off =>
      Moved (put_thread t (if decide (target th = []) then jump th off else next th) m)
  | JumpQEmpty w off =>
      Moved (put_thread t (if decide (wc_threads m w = []) then jump th off else next th) m)
  | JumpIf x b off => Moved (put_thread t (if b t (vars m x) then jump th off else next th) m)
  | Jump off => Moved (put_thread t (jump th off) m)
  | Assign x f => Moved (put_thread t (next th) (set_var x (f t (vars m x)) m))
  | Assert x b => if b (vars m x) then Moved (put_thread t (next th) m) else Crash
  | AssertNoIntr => if t_in_interrupt th then Crash else Moved (put_thread t (next th) m)
  | ForInit => Moved (put_thread t (set_idx 0 (next th)) m)
  | ForTest n off => Moved (put_thread t (if idx th <? n then next th else jump th off) m)
  | ForNext off => Moved (put_thread t (set_idx (idx th + 1) (jump th off)) m)
  end.

Definition step (t : nat) (m : machine Op) : outcome Op :=
  match threads m !! t with
  | None => Stuck
  | Some th =>
      match ops th with
      | [] => Stuck
      | o :: os =>
          match zget (code_of o) (pc th) with
          | Some i => exec t th i m
          | None => Moved (put_thread t (Thread os 0 (target th) (idx th) (ready th)
                                           (t_in_interrupt th)) m)
          end
      end
  end.

(** A schedule names the thread that tries to move next. *)
Fixpoint run (sched : list nat) (m : machine Op) : option (machine Op) :=
  match sched with
  | [] => Some m
  | t :: sched =>
      match step t m with
      | Moved m' => run sched m'
      | Stuck => run sched m
      | Crash => None
      end
  end.
End machine.

(** ** Wait channels *)
Definition wchan_lock (w : nat) : list instr := [SpinAcq (WcLock w)].
Definition wchan_unlock (w : nat) : list instr := [SpinRel (WcLock w)].

Definition wchan_sleep (w : nat) : list instr :=
  AssertNoIntr :: Enqueue w :: wchan_unlock w ++ [Block].

Definition wchan_wakeone (w : nat) : list instr :=
  [SpinAcq (WcLock w); Dequeue w; SpinRel (WcLock w); JumpNoTarget 2; WakeNext].

Definition wchan_wakeall (w : nat) : list instr :=
  [SpinAcq (WcLock w); JumpQEmpty w 3; Dequeue w; Jump (-2); SpinRel (WcLock w);
   JumpNoTarget 3; WakeNext; Jump (-2)].

(** [while (b(x)) body] *)
Definition while_ (x : nat) (b : nat → Z → bool) (body : list instr) : list instr :=
  JumpIf x (λ t v, negb (b t v)) (Z.of_nat (length body) + 2) ::
  body ++ [Jump (- (Z.of_nat (length body) + 1))].

(** [for (i = 0; i < n; i++) body] *)
Definition for_ (n : Z) (body : list instr) : list instr :=
  ForInit :: ForTest n (Z.of_nat (length body) + 2) ::
  body ++ [ForNext (- (Z.of_nat (length body) + 1))].

(** ** Semaphores *)
Record semaphore := Semaphore { sem_lock : nat; sem_wchan : nat; sem_count : nat }.

Definition P (s : semaphore) : list instr :=
  AssertNoIntr ::
  SpinAcq (Spin (sem_lock s)) ::
  while_ (sem_count s) (λ _ v, v =? 0)
    (wchan_lock (sem_wchan s) ++ [SpinRel (Spin (sem_lock s))] ++ wchan_sleep (sem_wchan s)
       ++ [SpinAcq (Spin (sem_lock s))]) ++
  [Assert (sem_count s) (λ v, 0 <? v);
   Assign (sem_count s) (λ _ v, s32 (v - 1));
   SpinRel (Spin (sem_lock s))].

Definition V (s : semaphore) : list instr :=
  SpinAcq (Spin (sem_lock s)) ::
  Assign (sem_count s) (λ _ v, s32 (v + 1)) ::
  Assert (sem_count s) (λ v, 0 <? v) ::
  wchan_wakeone (sem_wchan s) ++
  [SpinRel (Spin (sem_lock s))].

(** ** Locks *)
(** [owner_thread] holds NULL (0) or the owner, thread [t] as [t + 1]. *)
Definition NULL : Z := 0.
Definition curthread (t : nat) : Z := Z.of_nat t + 1.

Record lock := Lock { lk_spinlock : nat; lk_wchan : nat; owner_thread : nat }.

Definition lock_acquire_body (k : lock) : list instr :=
  SpinAcq (Spin (lk_spinlock k)) ::
  while_ (owner_thread k) (λ _ v, negb (v =? NULL))
    (wchan_lock (lk_wchan k) ++ [SpinRel (Spin (lk_spinlock k))] ++ wchan_sleep (lk_wchan k)
       ++ [SpinAcq (Spin (lk_spinlock k))]) ++
  [Assign (owner_thread k) (λ t _, curthread t);
   SpinRel (Spin (lk_spinlock k))].

Definition lock_acquire (k : lock) : list instr :=
  JumpIf (owner_thread k) (λ t v, v =? curthread t) (Z.of_nat (length (lock_acquire_body k)) + 1) ::
  lock_acquire_body k.

Definition lock_release_body (k : lock) : list instr :=
  SpinAcq (Spin (lk_spinlock k)) ::
  Assign (owner_thread k) (λ _ _, NULL) ::
  wchan_wakeone (lk_wchan k) ++
  [SpinRel (Spin (lk_spinlock k))].

Definition lock_release (k : lock) : list instr :=
  JumpIf (owner_thread k) (λ t v, negb (v =? curthread t))
    (Z.of_nat (length (lock_release_body k)) + 1) ::
  lock_release_body k.

Definition lock_do_i_hold {Op} (k : lock) (t : nat) (m : machine Op) : bool :=
  vars m (owner_thread k) =? curthread t.

(** ** Condition variables *)
Record cv := Cv { cv_spinlock : nat; cv_wchan : nat }.

Definition cv_wait (c : cv) (k : lock) : list instr :=
  SpinAcq (Spin (cv_spinlock c)) ::
  lock_release k ++
  wchan_lock (cv_wchan c) ++
  SpinRel (Spin (cv_spinlock c)) ::
  wchan_sleep (cv_wchan c) ++
  lock_acquire k.

Definition cv_signal (c : cv) (k : lock) : list instr := wchan_wakeone (cv_wchan c).
Definition cv_broadcast (c : cv) (k : lock) : list instr := wchan_wakeall (cv_wchan c).

(** ** Reader-writer locks *)
Record rwlock := Rwlock {
  lk_read : lock;
  lk_write : lock;
  sem_resource : semaphore;
  max_readers : Z;
}.

Definition rwlock_acquire_read (r : rwlock) : list instr :=
  lock_acquire (lk_read r) ++ P (sem_resource r) ++ lock_release (lk_read r).
Definition rwlock_release_read (r : rwlock) : list instr := V (sem_resource r).
Definition rwlock_acquire_write (r : rwlock) : list instr :=
  lock_acquire (lk_write r) ++ for_ (max_readers r) (P (sem_resource r)) ++ lock_release (lk_write r).
Definition rwlock_release_write (r : rwlock) : list instr :=
  for_ (max_readers r) (V (sem_resource r)).
