(* ===== verification/SynchDisc.v ===== *)
(** The locking and sleeping discipline of [Synch], checked on code.

    [check_code] walks a function's instructions and computes, for each place
    in it, which spinlocks the thread holds there, whether it is on its way to
    sleep on a channel and whether it carries a thread to wake up. For any
    family of functions that pass the check, every interleaving of any threads
    calling them respects what was computed ([disc_run]): a spinlock is held by
    exactly the threads that are at a place where the checker says so, and a
    thread that is not ready is on exactly one channel or about to be woken by
    exactly one thread. *)

From stdpp Require Import base tactics numbers list.
From S2P Require Import Prelude Synch.
Local Open Scope Z_scope.

Inductive tstate := TEmpty | TMaybe | TOne.
#[export] Instance tstate_eq_dec : EqDecision tstate.
Proof. solve_decision. Defined.

Record astate := AState { held : list spin; enq : option nat; tg : tstate }.
#[export] Instance astate_eq_dec : EqDecision astate.
Proof. solve_decision. Defined.

Definition start : astate := AState [] None TEmpty.

(** What an instruction does to the abstract state: state at the next
    instruction and, for jumps, the offset and the state there. *)
Definition flow (i : instr) (a : astate) : option (astate * option (Z * astate)) :=
  match i with
  | SpinAcq l =>
      if decide (l ∉ held a ∧ enq a = None) then Some (AState (l :: held a) None (tg a), None) else None
  | SpinRel l =>
      if decide (l ∈ held a ∧ NoDup (held a)) then
        Some (AState (filter (λ k, k ≠ l) (held a)) (enq a) (tg a), None)
      else None
  | Enqueue w =>
      if decide (WcLock w ∈ held a ∧ enq a = None ∧ tg a = TEmpty)
      then Some (AState (held a) (Some w) TEmpty, None) else None
  | Block =>
      match enq a with
      | Some w => if decide (WcLock w ∉ held a) then Some (AState (held a) None (tg a), None) else None
      | None => None
      end
  | Dequeue w =>
      if decide (WcLock w ∈ held a ∧ enq a = None ∧ tg a = TEmpty)
      then Some (AState (held a) None TMaybe, None) else None
  | WakeNext =>
      if decide (tg a = TOne ∧ enq a = None) then Some (AState (held a) None TEmpty, None) else None
  | JumpNoTarget off =>
      if decide (tg a = TMaybe) then
        Some (AState (held a) (enq a) TOne, Some (off, AState (held a) (enq a) TEmpty))
      else None
  | JumpQEmpty _ off | JumpIf _ _ off | ForTest _ off => Some (a, Some (off, a))
  | Jump off | ForNext off => Some (a, Some (off, a))
  | Assign _ _ | Assert _ _ | AssertNoIntr | ForInit => Some (a, None)
  end.

Fixpoint scan (a : astate) (c : list instr) : list astate :=
  match c with
  | [] => [a]
  | i :: c => a :: scan (from_option fst start (flow i a)) c
  end.

Definition ast (c : list instr) (p : Z) : astate := default start (zget (scan start c) p).

Definition check_at (c : list instr) (p : Z) (i : instr) : bool :=
  match flow i (ast c p) with
  | None => false
  | Some (nx, jp) =>
      bool_decide (ast c (p + 1) = nx) &&
      match jp with
      | None => true
      | Some (off, a) => bool_decide (ast c (p + off) = a)
      end
  end.

Definition check_code (c : list instr) : bool :=
  forallb (λ '(p, i), check_at c (Z.of_nat p) i) (zip (seq 0 (length c)) c) &&
  bool_decide (ast c (Z.of_nat (length c)) = start) && bool_decide (ast c 0 = start).

Lemma check_code_at c p i : check_code c = true → zget c p = Some i → check_at c p i = true.
Proof.
  unfold check_code. intros [[H _]%andb_prop _]%andb_prop Hp.
  unfold zget in Hp. destruct (Z.leb_spec 0 p) as [H0|]; [|done].
  rewrite forallb_forall in H.
  specialize (H (Z.to_nat p, i)). cbn beta iota in H. rewrite Z2Nat.id in H by done. apply H.
  apply list_elem_of_In, list_elem_of_lookup. exists (Z.to_nat p).
  apply lookup_zip_with_Some. eexists _, _. split_and!; [done| |done].
  apply lookup_seq. split; [lia|]. by eapply lookup_lt_Some.
Qed.

Set Default Proof Using "Type".
Section disc.
Context {Op : Type} (code_of : Op → list instr).
Implicit Types (m : machine Op) (th : thread Op).

(** The abstract state of a thread. *)
Definition A th : astate :=
  match ops th with [] => start | o :: _ => ast (code_of o) (pc th) end.

Definition target_ok th : Prop :=
  match tg (A th) with
  | TEmpty => target th = []
  | TMaybe => (length (target th) ≤ 1)%nat
  | TOne => ∃ h, target th = [h]
  end.

(** Threads taken off a channel and not yet made runnable. *)
Definition taken m : list nat := threads m ≫= target.

(** Thread [t] is not ready and on its way to sleep on [w]. *)
Definition sleeping m (t w : nat) : Prop :=
  ∃ th, threads m !! t = Some th ∧ ready th = false ∧ enq (A th) = Some w.

Record disc m : Prop := {
  d_spin : ∀ l t, spins m l = Some t ↔ ∃ th, threads m !! t = Some th ∧ l ∈ held (A th);
  d_nodup : ∀ t th, threads m !! t = Some th → NoDup (held (A th));
  d_target : ∀ t th, threads m !! t = Some th → target_ok th;
  d_intr : ∀ t th, threads m !! t = Some th → t_in_interrupt th = false;
  d_queue : ∀ w t, t ∈ wc_threads m w → sleeping m t w;
  d_qnodup : ∀ w, NoDup (wc_threads m w);
  d_taken : ∀ t, t ∈ taken m → (∀ w, t ∉ wc_threads m w) ∧
    ∃ th w, threads m !! t = Some th ∧ ready th = false ∧ enq (A th) = Some w ∧ WcLock w ∉ held (A th);
  d_tnodup : NoDup (taken m);
  d_asleep : ∀ t th, threads m !! t = Some th → ready th = false →
    t ∈ taken m ∨ ∃ w, t ∈ wc_threads m w;
  d_locked : ∀ t th w, threads m !! t = Some th → enq (A th) = Some w → WcLock w ∈ held (A th) →
    t ∈ wc_threads m w;
}.

Lemma taken_insert (l : list (thread Op)) t th : l !! t = Some th →
  ∃ R, l ≫= target ≡ₚ target th ++ R ∧ ∀ th', <[t := th']> l ≫= target ≡ₚ target th' ++ R.
Proof.
  intros (l1 & l2 & -> & ->)%list_elem_of_split_length.
  exists ((l1 ++ l2) ≫= target). split; [|intros th'; rewrite insert_mid];
    rewrite !bind_app, bind_cons; by rewrite Permutation_app_swap_app.
Qed.

Lemma taken_same (l : list (thread Op)) t th th' : l !! t = Some th → target th' = target th →
  <[t := th']> l ≫= target ≡ₚ l ≫= target.
Proof.
  intros Hl Ht. destruct (taken_insert l t th Hl) as (R & -> & H). rewrite (H th'). by rewrite Ht.
Qed.

(** A step that changes only the stepping thread and the spinlocks. *)
Lemma disc_plain m t th th' sp vs :
  disc m → threads m !! t = Some th →
  target th' = target th → ready th' = ready th → t_in_interrupt th' = t_in_interrupt th →
  (ready th = false → enq (A th') = enq (A th)) →
  (∀ w, enq (A th') = Some w → WcLock w ∈ held (A th') →
     enq (A th) = Some w ∧ WcLock w ∈ held (A th)) →
  (∀ l t', sp l = Some t' ↔ if decide (t' = t) then l ∈ held (A th') else spins m l = Some t') →
  NoDup (held (A th')) → target_ok th' →
  disc (Machine sp (wc_threads m) vs (<[t := th']> (threads m))).
Proof.
  intros [D1 D2 D3 D4 D5 D6 D7 D8 D9 D10] Ht Htg Hr Hi He Hw Hs Hnd Hok.
  assert (t < length (threads m))%nat as Hlt by (by eapply lookup_lt_Some).
  pose proof (taken_same _ _ _ th' Ht Htg) as Hperm.
  assert (∀ t' w, sleeping m t' w →
    sleeping (Machine sp (wc_threads m) vs (<[t := th']> (threads m))) t' w) as Hsl.
  { intros t' w (th0 & H0 & Hr0 & He0). destruct (decide (t' = t)) as [->|Hne].
    - simplify_eq. exists th'. simpl. rewrite list_lookup_insert_eq by done.
      split_and!; [done|congruence|rewrite He; congruence].
    - exists th0. simpl. by rewrite list_lookup_insert_ne by done. }
  constructor; simpl.
  - intros l t'. rewrite Hs. case_decide as Hd.
    + subst. rewrite list_lookup_insert_eq by done. naive_solver.
    + rewrite list_lookup_insert_ne by done. apply D1.
  - intros t' th0 [(<- & <- & _)|[_ H]]%list_lookup_insert_Some; [done|by eapply D2].
  - intros t' th0 [(<- & <- & _)|[_ H]]%list_lookup_insert_Some; [done|by eapply D3].
  - intros t' th0 [(<- & <- & _)|[_ H]]%list_lookup_insert_Some; [rewrite Hi|]; by eapply D4.
  - intros w t' H. by apply Hsl, D5.
  - done.
  - intros t' H. unfold taken in *. simpl in H. rewrite Hperm in H.
    destruct (D7 t' H) as (Hq & th0 & w & H0 & Hr0 & He0 & Hw0). split; [done|].
    destruct (decide (t' = t)) as [->|Hne].
    + simplify_eq. exists th', w. rewrite list_lookup_insert_eq by done.
      rewrite Hr, He by done. split_and!; [done..|]. intros Hin.
      destruct (Hw w) as [_ ?]; [by rewrite He|done|done].
    + exists th0, w. by rewrite list_lookup_insert_ne.
  - unfold taken in *. simpl. by rewrite Hperm.
  - intros t' th0 [(<- & <- & _)|[_ H]]%list_lookup_insert_Some Hr0; unfold taken in *; simpl;
      rewrite Hperm; [|by eapply D9]. rewrite Hr in Hr0. by eapply D9.
  - intros t' th0 w [(<- & <- & _)|[_ H]]%list_lookup_insert_Some He0 Hw0; [|by eapply D10].
    destruct (Hw w He0 Hw0). by eapply D10.
Qed.

(** Nobody who is not on the way to sleep is on a channel or taken off one. *)
Lemma disc_not_waiting m t th : disc m → threads m !! t = Some th → enq (A th) = None →
  t ∉ taken m ∧ ∀ w, t ∉ wc_threads m w.
Proof.
  intros Hd Ht He. split.
  - intros H. destruct (d_taken _ Hd t H) as (_ & th0 & w & H0 & _ & He0 & _). simplify_eq; congruence.
  - intros w H. destruct (d_queue _ Hd w t H) as (th0 & H0 & _ & He0). simplify_eq; congruence.
Qed.

Lemma disc_ready m t th : disc m → threads m !! t = Some th → enq (A th) = None → ready th = true.
Proof.
  intros Hd Ht He. destruct (disc_not_waiting _ _ _ Hd Ht He) as [H1 H2].
  destruct (ready th) eqn:E; [done|]. destruct (d_asleep _ Hd t th Ht E) as [?|[w ?]]; [done|].
  by destruct (H2 w).
Qed.

Lemma disc_enqueue m t th th' w vs :
  disc m → threads m !! t = Some th → enq (A th) = None → WcLock w ∈ held (A th) →
  A th' = AState (held (A th)) (Some w) (tg (A th)) → target th' = target th → ready th' = false →
  t_in_interrupt th' = t_in_interrupt th →
  disc (Machine (spins m) (upd (wc_threads m) w (wc_threads m w ++ [t])) vs (<[t := th']> (threads m))).
Proof.
  intros Hd Ht He Hw HA Htg Hr Hi. destruct (disc_not_waiting _ _ _ Hd Ht He) as [N1 N2].
  destruct Hd as [D1 D2 D3 D4 D5 D6 D7 D8 D9 D10].
  assert (t < length (threads m))%nat as Hlt by (by eapply lookup_lt_Some).
  pose proof (taken_same _ _ _ th' Ht Htg) as Hperm.
  assert (∀ w' t', t' ∈ upd (wc_threads m) w (wc_threads m w ++ [t]) w' ↔
    t' ∈ wc_threads m w' ∨ (t' = t ∧ w' = w)) as Hq.
  { intros w' t'. unfold upd. case_decide as E; subst; rewrite ?elem_of_app, ?list_elem_of_singleton;
      naive_solver. }
  constructor; simpl.
  - intros l t'. rewrite D1. destruct (decide (t' = t)) as [->|Hne].
    + rewrite list_lookup_insert_eq by done. rewrite Ht. split; intros (? & [= <-] & Hh);
        (eexists; split; [done|]); rewrite HA in *; done.
    + by rewrite list_lookup_insert_ne by done.
  - intros t' th0 [(<- & <- & _)|[_ H]]%list_lookup_insert_Some; [rewrite HA; simpl|]; by eapply D2.
  - intros t' th0 [(<- & <- & _)|[_ H]]%list_lookup_insert_Some; [|by eapply D3].
    pose proof (D3 t th Ht) as H. unfold target_ok in *. rewrite HA, Htg. simpl. done.
  - intros t' th0 [(<- & <- & _)|[_ H]]%list_lookup_insert_Some; [rewrite Hi|]; by eapply D4.
  - intros w' t' [H|[-> ->]]%Hq.
    + destruct (D5 w' t' H) as (th0 & H0 & Hr0 & He0). exists th0. simpl.
      rewrite list_lookup_insert_ne; [done|]. intros ->. simplify_eq; congruence.
    + exists th'. simpl. rewrite list_lookup_insert_eq by done. rewrite HA. done.
  - intros w'. unfold upd. case_decide; [|done]. subst. apply NoDup_app. split_and!; [done| |apply NoDup_singleton].
    intros x Hx ->%list_elem_of_singleton. by apply (N2 w).
  - intros t' H. unfold taken in *. simpl in H. rewrite Hperm in H.
    assert (t' ≠ t) as Hne by (by intros ->). destruct (D7 t' H) as (Hq' & th0 & w' & H0 & ? & ? & ?). split.
    + intros w0 [?|[? _]]%Hq; [by eapply Hq'|done].
    + exists th0, w'. by rewrite list_lookup_insert_ne.
  - unfold taken in *. simpl. by rewrite Hperm.
  - intros t' th0 [(<- & <- & _)|[_ H]]%list_lookup_insert_Some Hr0.
    + right. exists w. apply Hq. by right.
    + unfold taken in *. simpl. rewrite Hperm. destruct (D9 t' th0 H Hr0) as [?|[w' ?]]; [by left|].
      right. exists w'. apply Hq. by left.
  - intros t' th0 w' [(<- & <- & _)|[_ H]]%list_lookup_insert_Some He0 Hw0; apply Hq.
    + rewrite HA in He0. simpl in He0. simplify_eq. by right.
    + left. by eapply D10.
Qed.

Lemma disc_dequeue m t th th' w h q vs :
  disc m → threads m !! t = Some th → enq (A th) = None → WcLock w ∈ held (A th) →
  target th = [] → wc_threads m w = h :: q →
  A th' = AState (held (A th)) None TMaybe → target th' = [h] → ready th' = ready th →
  t_in_interrupt th' = t_in_interrupt th →
  disc (Machine (spins m) (upd (wc_threads m) w q) vs (<[t := th']> (threads m))).
Proof.
  intros Hd Ht He Hw Hnt Hwq HA Htg Hr Hi. destruct (disc_not_waiting _ _ _ Hd Ht He) as [N1 N2].
  destruct Hd as [D1 D2 D3 D4 D5 D6 D7 D8 D9 D10].
  assert (t < length (threads m))%nat as Hlt by (by eapply lookup_lt_Some).
  destruct (taken_insert _ _ _ Ht) as (R & Hp1 & Hp2). specialize (Hp2 th').
  rewrite Hnt in Hp1. rewrite Htg in Hp2. simpl in Hp1, Hp2. rewrite <-Hp1 in Hp2.
  pose proof (D6 w) as Hnq. rewrite Hwq in Hnq. apply NoDup_cons in Hnq as [Hhq Hnq].
  assert (h ∈ wc_threads m w) as Hhw by (rewrite Hwq; left).
  assert (h ≠ t) as Hht by (intros ->; by apply (N2 w)).
  destruct (D5 w h Hhw) as (thh & Hh & Hrh & Heh).
  assert (∀ w' t', t' ∈ upd (wc_threads m) w q w' ↔ t' ∈ wc_threads m w' ∧ (t' ≠ h)) as Hq.
  { intros w' t'. unfold upd. case_decide as E.
    - subst w'. rewrite Hwq, elem_of_cons. naive_solver.
    - split; [|naive_solver]. intros H. split; [done|]. intros ->.
      destruct (D5 w' h H) as (? & ? & _ & ?). simplify_eq; congruence. }
  constructor; simpl.
  - intros l t'. rewrite D1. destruct (decide (t' = t)) as [->|Hne].
    + rewrite list_lookup_insert_eq by done. rewrite Ht. split; intros (? & [= <-] & Hx);
        (eexists; split; [done|]); rewrite HA in *; done.
    + by rewrite list_lookup_insert_ne by done.
  - intros t' th0 [(<- & <- & _)|[_ H]]%list_lookup_insert_Some; [rewrite HA; simpl|]; by eapply D2.
  - intros t' th0 [(<- & <- & _)|[_ H]]%list_lookup_insert_Some; [|by eapply D3].
    unfold target_ok. rewrite HA, Htg. simpl. lia.
  - intros t' th0 [(<- & <- & _)|[_ H]]%list_lookup_insert_Some; [rewrite Hi|]; by eapply D4.
  - intros w' t' [H Hne]%Hq. destruct (D5 w' t' H) as (th0 & H0 & Hr0 & He0). exists th0. simpl.
    rewrite list_lookup_insert_ne; [done|]. intros ->. simplify_eq; congruence.
  - intros w'. unfold upd. by case_decide.
  - intros t' H. unfold taken in *. simpl in H. rewrite Hp2 in H. apply elem_of_cons in H as [->|H].
    + split; [by intros w' [_ ?]%Hq|]. exists thh, w. rewrite list_lookup_insert_ne by done.
      split_and!; [done..|]. intros Hx.
      assert (spins m (WcLock w) = Some h) as E1 by (apply D1; eauto).
      assert (spins m (WcLock w) = Some t) as E2 by (apply D1; eauto). congruence.
    + destruct (D7 t' H) as (Hq' & th0 & w' & H0 & ? & ? & ?). split.
      * intros w0 [? _]%Hq. by eapply Hq'.
      * exists th0, w'. rewrite list_lookup_insert_ne; [done|]. intros ->. done.
  - unfold taken in *. simpl. rewrite Hp2. constructor; [|done]. intros H.
    destruct (D7 h H) as [Hx _]. by apply (Hx w).
  - intros t' th0 [(<- & <- & _)|[Hne H]]%list_lookup_insert_Some Hr0.
    + rewrite Hr in Hr0. destruct (D9 t th Ht Hr0) as [?|[w' ?]]; [done|by destruct (N2 w')].
    + unfold taken in *. simpl. rewrite Hp2. destruct (decide (t' = h)) as [->|]; [left; left|].
      destruct (D9 t' th0 H Hr0) as [?|[w' ?]]; [left; by right|]. right. exists w'. by apply Hq.
  - intros t' th0 w' [(<- & <- & _)|[Hne H]]%list_lookup_insert_Some He0 Hw0.
    + rewrite HA in He0. done.
    + apply Hq. split; [by eapply D10|]. intros ->. simplify_eq.
      assert (spins m (WcLock w) = Some h) as E1 by (apply D1; eauto).
      assert (spins m (WcLock w) = Some t) as E2 by (apply D1; eauto). congruence.
Qed.

Lemma disc_target_other m t th h : disc m → threads m !! t = Some th → enq (A th) = None →
  h ∈ target th → h ≠ t ∧ h ∈ taken m ∧ ∃ thh, threads m !! h = Some thh.
Proof.
  intros Hd Ht He Hh. assert (h ∈ taken m) as Hin.
  { apply list_elem_of_bind. exists th. split; [done|]. by eapply list_elem_of_lookup_2. }
  split_and!; [|done|].
  - intros ->. by destruct (disc_not_waiting _ _ _ Hd Ht He).
  - destruct (d_taken _ Hd h Hin) as (_ & thh & w & H & _). eauto.
Qed.

Lemma disc_wake m t th th' h thh vs :
  disc m → threads m !! t = Some th → enq (A th) = None → target th = [h] →
  A th' = AState (held (A th)) None TEmpty → target th' = [] → ready th' = ready th →
  t_in_interrupt th' = t_in_interrupt th → threads m !! h = Some thh → h ≠ t →
  disc (Machine (spins m) (wc_threads m) vs
    (<[h := set_ready true thh]> (<[t := th']> (threads m)))).
Proof.
  intros Hd Ht He Hth HA Htg Hr Hi Hh Hht. destruct (disc_not_waiting _ _ _ Hd Ht He) as [N1 N2].
  pose proof (disc_ready _ _ _ Hd Ht He) as Hrt.
  destruct Hd as [D1 D2 D3 D4 D5 D6 D7 D8 D9 D10].
  assert (t < length (threads m))%nat as Hlt by (by eapply lookup_lt_Some).
  assert (h < length (<[t := th']> (threads m)))%nat as Hlh
    by (rewrite length_insert; by eapply lookup_lt_Some).
  destruct (taken_insert _ _ _ Ht) as (R & Hp1 & Hp2). specialize (Hp2 th').
  rewrite Hth in Hp1. rewrite Htg in Hp2. simpl in Hp1, Hp2.
  assert (<[t := th']> (threads m) !! h = Some thh) as Hh' by (by rewrite list_lookup_insert_ne).
  pose proof (taken_same _ _ _ (set_ready true thh) Hh' eq_refl) as Hp3. rewrite Hp2 in Hp3.
  assert (∀ t', t' ∈ R ↔ t' ∈ taken m ∧ t' ≠ h) as HR.
  { intros t'. unfold taken in *. rewrite Hp1, elem_of_cons. rewrite Hp1 in D8.
    apply NoDup_cons in D8 as [? _]. naive_solver. }
  destruct (D7 h) as [Hqh _]; [unfold taken; rewrite Hp1; left|].
  assert (∀ t' th0, <[h := set_ready true thh]> (<[t := th']> (threads m)) !! t' = Some th0 →
    t' = h ∧ th0 = set_ready true thh ∨ t' = t ∧ th0 = th' ∨
    t' ≠ h ∧ t' ≠ t ∧ threads m !! t' = Some th0) as Hcase.
  { intros t' th0 [(<- & <- & _)|[? [(<- & <- & _)|[? ?]]%list_lookup_insert_Some]]%list_lookup_insert_Some;
      [by left|by right; left|right; right; by split_and!]. }
  assert (∀ t' th0, t' ≠ h → t' ≠ t → threads m !! t' = Some th0 →
    <[h := set_ready true thh]> (<[t := th']> (threads m)) !! t' = Some th0) as Hkeep.
  { intros t' th0 ? ? ?. by rewrite !list_lookup_insert_ne. }
  constructor; simpl.
  - intros l t'. rewrite D1. destruct (decide (t' = h)) as [->|Hne1].
    { rewrite list_lookup_insert_eq by done. rewrite Hh. naive_solver. }
    rewrite list_lookup_insert_ne by done. destruct (decide (t' = t)) as [->|Hne].
    + rewrite list_lookup_insert_eq by done. rewrite Ht. split; intros (? & [= <-] & Hx);
        (eexists; split; [done|]); rewrite HA in *; done.
    + by rewrite list_lookup_insert_ne by done.
  - intros t' th0 [[-> ->]|[[-> ->]|(? & ? & ?)]]%Hcase; [by apply (D2 h thh)|rewrite HA|]; by eapply D2.
  - intros t' th0 [[-> ->]|[[-> ->]|(? & ? & ?)]]%Hcase; [by apply (D3 h thh)| |by eapply D3].
    unfold target_ok. by rewrite HA.
  - intros t' th0 [[-> ->]|[[-> ->]|(? & ? & ?)]]%Hcase; [by apply (D4 h thh)|rewrite Hi|]; by eapply D4.
  - intros w' t' H. destruct (D5 w' t' H) as (th0 & H0 & Hr0 & He0). exists th0. simpl.
    split; [|done]. apply Hkeep; [by intros ->; eapply Hqh|by intros ->; eapply N2|done].
  - done.
  - intros t' H. unfold taken in *. simpl in H. rewrite Hp3 in H. apply HR in H as [H Hne].
    destruct (D7 t' H) as (Hq' & th0 & w' & H0 & ? & ? & ?). split; [done|]. exists th0, w'.
    split_and!; [|done..]. apply Hkeep; [done|by intros ->|done].
  - unfold taken in *. simpl. rewrite Hp3. rewrite Hp1 in D8. by apply NoDup_cons in D8 as [_ ?].
  - intros t' th0 [[-> ->]|[[-> ->]|(? & ? & ?)]]%Hcase Hr0; [done|congruence|].
    unfold taken in *. simpl. rewrite Hp3. destruct (D9 t' th0) as [?|?]; [done|done| |by right].
    left. by apply HR.
  - intros t' th0 w' [[-> ->]|[[-> ->]|(? & ? & ?)]]%Hcase He0 Hw0; [by eapply (D10 h thh)| |by eapply D10].
    rewrite HA in He0. done.
Qed.

Hypothesis Hcheck : ∀ o, check_code (code_of o) = true.

Lemma flow_at th o os i : ops th = o :: os → zget (code_of o) (pc th) = Some i →
  ∃ nx jp, flow i (A th) = Some (nx, jp) ∧ A (next th) = nx ∧
    ∀ off a, jp = Some (off, a) → A (jump th off) = a.
Proof using Hcheck.
  intros Ho Hi. pose proof (check_code_at _ _ _ (Hcheck o) Hi) as Hc. unfold check_at in Hc.
  unfold A, next, jump. simpl. rewrite Ho.
  destruct (flow i (ast (code_of o) (pc th))) as [[nx jp]|]; [|done].
  apply andb_prop in Hc as [H1%bool_decide_eq_true H2]. exists nx, jp. split_and!; [done..|].
  intros off a ->. by apply bool_decide_eq_true in H2.
Qed.

Lemma A_end th o os : ops th = o :: os → zget (code_of o) (pc th) = None → A th = start.
Proof using Hcheck.
  intros Ho Hn. unfold A. rewrite Ho. pose proof (Hcheck o) as Hc. unfold check_code in Hc.
  apply andb_prop in Hc as [[_ H]%andb_prop _]. apply bool_decide_eq_true in H.
  assert (∀ a c, length (scan a c) = S (length c)) as Hlen.
  { intros a c. revert a. induction c as [|j c IH]; intros a; simpl; [done|]. by rewrite IH. }
  unfold ast in *. unfold zget in *. destruct (Z.leb_spec 0 (pc th)) as [H0|]; [|done].
  apply lookup_ge_None in Hn. destruct (decide (Z.to_nat (pc th) = length (code_of o))) as [E|].
  - rewrite (proj2 (Z.leb_le _ _)) in H by lia. by rewrite E, <-(Nat2Z.id (length (code_of o))).
  - rewrite lookup_ge_None_2; [done|]. rewrite Hlen. lia.
Qed.

Lemma A_begin os tgt i r b : A (Thread os 0 tgt i r b) = start.
Proof using Hcheck.
  unfold A. simpl. destruct os as [|o os]; [done|]. pose proof (Hcheck o) as Hc.
  unfold check_code in Hc. apply andb_prop in Hc as [_ H]. by apply bool_decide_eq_true in H.
Qed.

(** The stepping thread moves to a place with the same abstract state, up to
    what it knows about its target. *)
Lemma disc_move m t th th' vs :
  disc m → threads m !! t = Some th →
  target th' = target th → ready th' = ready th → t_in_interrupt th' = t_in_interrupt th →
  held (A th') = held (A th) → enq (A th') = enq (A th) → target_ok th' →
  disc (Machine (spins m) (wc_threads m) vs (<[t := th']> (threads m))).
Proof.
  intros Hd Ht Htg Hr Hi Hh He Hok. apply (disc_plain m t th th'); try done.
  - intros w. by rewrite He, Hh.
  - intros l t'. case_decide as E; [|done]. subst. rewrite Hh, (d_spin _ Hd). split.
    + intros (th0 & H0 & Hl). by simplify_eq.
    + eauto.
  - rewrite Hh. by eapply d_nodup.
Qed.

Lemma disc_same m t th th' vs :
  disc m → threads m !! t = Some th →
  target th' = target th → ready th' = ready th → t_in_interrupt th' = t_in_interrupt th →
  A th' = A th → disc (Machine (spins m) (wc_threads m) vs (<[t := th']> (threads m))).
Proof.
  intros Hd Ht Htg Hr Hi HA. apply (disc_move m t th); try done; try (by rewrite HA).
  unfold target_ok. rewrite HA, Htg. by apply (d_target _ Hd t th).
Qed.

Lemma disc_acquire m t th l vs :
  disc m → threads m !! t = Some th → spins m l = None →
  l ∉ held (A th) → enq (A th) = None → A (next th) = AState (l :: held (A th)) None (tg (A th)) →
  disc (Machine (upd (spins m) l (Some t)) (wc_threads m) vs (<[t := next th]> (threads m))).
Proof.
  intros Hd Ht Hf Hl He HA. apply (disc_plain m t th); try done.
  - intros _. by rewrite HA, He.
  - intros w. by rewrite HA.
  - intros l' t'. rewrite HA. simpl. unfold upd.
    destruct (decide (l' = l)) as [->|], (decide (t' = t)) as [->|]; rewrite ?elem_of_cons.
    + naive_solver.
    + rewrite Hf. naive_solver.
    + rewrite (d_spin _ Hd). naive_solver.
    + done.
  - rewrite HA. constructor; [done|]. by apply (d_nodup _ Hd t).
  - pose proof (d_target _ Hd t th Ht) as H. unfold target_ok in *. by rewrite HA.
Qed.

Lemma disc_release m t th l vs :
  disc m → threads m !! t = Some th → l ∈ held (A th) →
  A (next th) = AState (filter (λ k, k ≠ l) (held (A th))) (enq (A th)) (tg (A th)) →
  disc (Machine (upd (spins m) l None) (wc_threads m) vs (<[t := next th]> (threads m))).
Proof.
  intros Hd Ht Hl HA. assert (spins m l = Some t) as Hs by (apply (d_spin _ Hd); eauto).
  apply (disc_plain m t th); try done.
  - intros _. by rewrite HA.
  - intros w. rewrite HA. simpl. rewrite list_elem_of_filter. tauto.
  - intros l' t'. rewrite HA. simpl. unfold upd.
    destruct (decide (l' = l)) as [->|], (decide (t' = t)) as [->|]; rewrite ?list_elem_of_filter.
    + naive_solver.
    + rewrite Hs. naive_solver.
    + rewrite (d_spin _ Hd). naive_solver.
    + done.
  - rewrite HA. simpl. apply NoDup_filter. by apply (d_nodup _ Hd t).
  - pose proof (d_target _ Hd t th Ht) as H. unfold target_ok in *. by rewrite HA.
Qed.

(** Every step keeps the discipline; the only way to crash is an assertion on
    a shared variable. *)
Definition assert_fails m (t : nat) : Prop :=
  ∃ th o os x b, threads m !! t = Some th ∧ ops th = o :: os ∧
    zget (code_of o) (pc th) = Some (Assert x b) ∧ b (vars m x) = false.

Lemma disc_step m t : disc m →
  match step code_of t m with Moved m' => disc m' | Stuck => True | Crash => assert_fails m t end.
Proof using Hcheck.
  intros Hd. unfold step. destruct (threads m !! t) as [th|] eqn:Ht; [|done].
  destruct (ops th) as [|o os] eqn:Ho; [done|].
  destruct (zget (code_of o) (pc th)) as [i|] eqn:Hi.
  2:{ apply (disc_same m t th); try done. by rewrite A_begin, (A_end th o os). }
  destruct (flow_at th o os i Ho Hi) as (nx & jp & Hf & Hnx & Hj).
  pose proof (d_target _ Hd t th Ht) as Htok.
  destruct i; simpl in Hf |- *; unfold put_thread, set_spin, set_queue, set_var; simpl.
  - case_decide as Hc; [|done]. injection Hf as <- <-. destruct Hc as [Hl He].
    destruct (spins m l) as [h|] eqn:Hs; [|by apply (disc_acquire m t th l)].
    case_decide; [|done]. subst. apply (d_spin _ Hd) in Hs as (? & ? & ?). naive_solver.
  - case_decide as Hc; [|done]. injection Hf as <- <-. destruct Hc as [Hl _].
    rewrite decide_True by (apply (d_spin _ Hd); eauto). by apply (disc_release m t th l).
  - case_decide as Hc; [|done]. injection Hf as <- <-. destruct Hc as (Hl & He & Hg).
    apply (disc_enqueue m t th); try done. etrans; [exact Hnx|]. by rewrite Hg.
  - destruct (enq (A th)) as [w|] eqn:He; [|done]. case_decide as Hc; [|done]. injection Hf as <- <-.
    destruct (ready th) eqn:Hr; [|done]. apply (disc_plain m t th); try done.
    + by rewrite Hr.
    + intros w'. by rewrite Hnx.
    + intros l t'. rewrite Hnx. simpl. case_decide; [subst|done].
      rewrite (d_spin _ Hd). naive_solver.
    + rewrite Hnx. by apply (d_nodup _ Hd t).
    + unfold target_ok in *. by rewrite Hnx.
  - case_decide as Hc; [|done]. injection Hf as <- <-. destruct Hc as (Hl & He & Hg).
    unfold target_ok in Htok. rewrite Hg in Htok.
    destruct (wc_threads m w) as [|h q] eqn:Hq.
    + apply (disc_move m t th); try done; try (by rewrite Hnx).
      unfold target_ok. rewrite Hnx. simpl. rewrite Htok. simpl. lia.
    + eapply (disc_dequeue m t th _ w h q); try done. simpl. by rewrite Htok.
  - case_decide as Hc; [|done]. injection Hf as <- <-. destruct Hc as (Hg & He).
    unfold target_ok in Htok. rewrite Hg in Htok. destruct Htok as [h Hh]. rewrite Hh.
    destruct (disc_target_other m t th h Hd Ht He) as (Hne & _ & thh & Hhh); [rewrite Hh; left|].
    rewrite list_lookup_insert_ne, Hhh by done. by apply (disc_wake m t th).
  - case_decide as Hc; [|done]. injection Hf as <- <-. specialize (Hj _ _ eq_refl).
    unfold target_ok in Htok. rewrite Hc in Htok. case_decide as Hn.
    + apply (disc_move m t th); try done; try (by rewrite Hj). unfold target_ok. by rewrite Hj.
    + apply (disc_move m t th); try done; try (by rewrite Hnx). unfold target_ok. rewrite Hnx. simpl.
      destruct (target th) as [|h [|]]; simpl in *; [done|by exists h|lia].
  - injection Hf as <- <-. specialize (Hj _ _ eq_refl). case_decide; by apply (disc_same m t th).
  - injection Hf as <- <-. specialize (Hj _ _ eq_refl). destruct (b _ _); by apply (disc_same m t th).
  - injection Hf as <- <-. specialize (Hj _ _ eq_refl). by apply (disc_same m t th).
  - injection Hf as <- <-. by apply (disc_same m t th).
  - injection Hf as <- <-. destruct (b (vars m x)) eqn:Hb; [by apply (disc_same m t th)|].
    by exists th, o, os, x, b.
  - injection Hf as <- <-. rewrite (d_intr _ Hd t th Ht). by apply (disc_same m t th).
  - injection Hf as <- <-. by apply (disc_same m t th).
  - injection Hf as <- <-. specialize (Hj _ _ eq_refl). destruct (_ <? _); by apply (disc_same m t th).
  - injection Hf as <- <-. specialize (Hj _ _ eq_refl). by apply (disc_same m t th).
Qed.

Lemma other_free m t t' th th' l : disc m → threads m !! t = Some th → l ∈ held (A th) →
  threads m !! t' = Some th' → t ≠ t' → l ∉ held (A th').
Proof.
  intros Hd Ht Hl Ht' Hne Hl'.
  assert (spins m l = Some t) by (apply (d_spin _ Hd); eauto).
  assert (spins m l = Some t') by (apply (d_spin _ Hd); eauto). congruence.
Qed.

(** The machine before anything runs. *)
Definition fresh_thread (os : list Op) : thread Op := Thread os 0 [] 0 true false.
Definition init_machine (vs : nat → Z) (progs : list (list Op)) : machine Op :=
  Machine (λ _, None) (λ _, []) vs (fresh_thread <$> progs).

Lemma disc_init vs progs : disc (init_machine vs progs).
Proof using Hcheck.
  assert (∀ t th, threads (init_machine vs progs) !! t = Some th →
    A th = start ∧ target th = [] ∧ ready th = true ∧ t_in_interrupt th = false) as H.
  { intros t th H. simpl in H. apply list_lookup_fmap_Some in H as (os & -> & _).
    split_and!; [apply A_begin|done..]. }
  assert (taken (init_machine vs progs) = []) as Ht.
  { unfold taken. simpl. clear H. induction progs as [|os progs IH]; [done|]. by simpl. }
  constructor.
  - intros l t. split; [done|]. intros (th & Hth & Hl). destruct (H t th Hth) as [E _].
    rewrite E in Hl. by apply elem_of_nil in Hl.
  - intros t th Hth. destruct (H t th Hth) as [-> _]. constructor.
  - intros t th Hth. destruct (H t th Hth) as (E & E' & _). unfold target_ok. by rewrite E.
  - intros t th Hth. apply (H t th Hth).
  - by intros w t ?%elem_of_nil.
  - constructor.
  - intros t. rewrite Ht. by intros ?%elem_of_nil.
  - rewrite Ht. constructor.
  - intros t th Hth Hr. destruct (H t th Hth) as (_ & _ & E & _). congruence.
  - intros t th w Hth He. destruct (H t th Hth) as (E & _). by rewrite E in He.
Qed.
End disc.

(** Sums over the threads. *)
Lemma sum_insert {A} (f : A → nat) l i x y : l !! i = Some x →
  (sum_list_with f (<[i := y]> l) + f x = sum_list_with f l + f y)%nat.
Proof.
  intros (l1 & l2 & -> & ->)%list_elem_of_split_length.
  rewrite insert_mid, !sum_list_with_app. simpl. lia.
Qed.

Lemma sum_pos {A} (f : A → nat) l : (0 < sum_list_with f l)%nat → ∃ i x, l !! i = Some x ∧ (0 < f x)%nat.
Proof.
  induction l as [|x l IH]; simpl; [lia|]. intros H. destruct (decide (0 < f x)%nat).
  - by exists 0%nat, x.
  - destruct IH as (i & y & ? & ?); [lia|]. by exists (S i), y.
Qed.

Lemma sum_ge {A} (f : A → nat) l i x : l !! i = Some x → (f x ≤ sum_list_with f l)%nat.
Proof.
  intros (l1 & l2 & -> & _)%list_elem_of_split_length. rewrite sum_list_with_app. simpl. lia.
Qed.
