(* ===== verification/SynchSem.v ===== *)
(** Semaphores are correct: any number of threads calling [P] and [V] on one
    semaphore, in any order and under any interleaving. *)

From stdpp Require Import base tactics numbers sets list.
From S2P Require Import Prelude Synch SynchDisc.
Local Open Scope Z_scope.

Definition sem0 : semaphore := Semaphore 0 0 0.
Inductive semop := DoP | DoV.
#[export] Instance semop_eq_dec : EqDecision semop.
Proof. solve_decision. Defined.
Definition sem_code (o : semop) : list instr := match o with DoP => P sem0 | DoV => V sem0 end.

(** The two functions, flattened. *)
Lemma P_flat : P sem0 =
  [AssertNoIntr; SpinAcq (Spin 0); JumpIf 0 (λ _ v, negb (v =? 0)) 9;
   SpinAcq (WcLock 0); SpinRel (Spin 0); AssertNoIntr; Enqueue 0; SpinRel (WcLock 0); Block;
   SpinAcq (Spin 0); Jump (-8);
   Assert 0 (λ v, 0 <? v); Assign 0 (λ _ v, s32 (v - 1)); SpinRel (Spin 0)].
Proof. reflexivity. Qed.
Lemma V_flat : V sem0 =
  [SpinAcq (Spin 0); Assign 0 (λ _ v, s32 (v + 1)); Assert 0 (λ v, 0 <? v);
   SpinAcq (WcLock 0); Dequeue 0; SpinRel (WcLock 0); JumpNoTarget 2; WakeNext; SpinRel (Spin 0)].
Proof. reflexivity. Qed.

Lemma sem_checks o : check_code (sem_code o) = true.
Proof. by destruct o; vm_compute. Qed.

(** Calls of a kind that have not had their effect on the count yet. *)
Definition count_op (o : semop) (l : list semop) : nat := length (filter (λ x, x = o) l).
Definition pend (o : semop) (at_ : Z) (th : thread semop) : nat :=
  match ops th with
  | o' :: os =>
      if decide (o' = o) then ((if (pc th <? at_)%Z then 1 else 0) + count_op o os)%nat
      else count_op o os
  | [] => 0
  end.
Definition pendP : thread semop → nat := pend DoP 13.
Definition pendV : thread semop → nat := pend DoV 2.

(** In [P], between seeing a zero count and being on the channel. *)
Definition sleepy (th : thread semop) : nat :=
  match ops th with
  | DoP :: _ => if (3 <=? pc th) && (pc th <=? 6) then 1 else 0
  | _ => 0
  end.

(** About to look at the count again, or about to make another thread do so. *)
Definition eager (th : thread semop) : nat :=
  match ops th with
  | DoP :: _ =>
      if (pc th =? 2) || ((9 <=? pc th) && (pc th <=? 12)) || ((pc th =? 8) && ready th) then 1 else 0
  | DoV :: _ =>
      if ((2 <=? pc th) && (pc th <=? 4)) || negb (bool_decide (target th = [])) then 1 else 0
  | [] => 0
  end.

(** What a thread knows of the count. *)
Definition val_ok (th : thread semop) (v : Z) : Prop :=
  match ops th with
  | DoP :: _ => (pc th = 3 → v = 0) ∧ (pc th = 11 ∨ pc th = 12 → 0 < v)
  | DoV :: _ => pc th = 2 → 0 < v
  | [] => True
  end.

Local Notation disc := (disc sem_code).
Local Notation A := (A sem_code).

(** Who knows something of the count holds [sem_lock]. *)
Lemma val_ok_free th v : Spin 0 ∉ held (A th) → val_ok th v.
Proof.
  destruct th as [[|[] os] p tgt ix r b]; unfold val_ok; simpl; intros H; [done| |].
  - split; [intros ->|intros [-> | ->]]; exfalso; apply H; refine (bool_decide_unpack _ _); by vm_compute.
  - intros ->. exfalso. apply H. refine (bool_decide_unpack _ _). by vm_compute.
Qed.

Lemma pend_pos o k th os : ops th = o :: os → pc th < k → (1 ≤ pend o k th)%nat.
Proof. intros Ho Hk. unfold pend. rewrite Ho, decide_True, (proj2 (Z.ltb_lt _ _)) by done. lia. Qed.

Lemma asleep_at th w : enq (A th) = Some w → WcLock w ∉ held (A th) →
  ∃ os, ops th = DoP :: os ∧ pc th = 8.
Proof.
  unfold A. destruct (ops th) as [|o os] eqn:Ho; [done|]. unfold ast. intros He Hw.
  destruct (zget (scan start (sem_code o)) (pc th)) as [a|] eqn:Hp; [|done].
  simpl in He, Hw. apply zget_cases in Hp as (k & Hk & Hpc & Hp). exists os. destruct o.
  - do 15 (destruct k as [|k]; [vm_compute in Hp; simplify_eq; simpl in He, Hw; simplify_eq; set_solver|]).
    vm_compute in Hk. lia.
  - do 10 (destruct k as [|k]; [vm_compute in Hp; by simplify_eq|]). vm_compute in Hk. lia.
Qed.

Set Default Proof Using "Type".
Section sem.
Context (n0 : Z) (totV totP : nat).
Hypothesis Hmax : n0 + Z.of_nat totV < 2 ^ 31.

Record sem_inv (m : machine semop) : Prop := {
  si_disc : disc m;
  si_val : ∀ t th, threads m !! t = Some th → val_ok th (vars m 0);
  si_pc : ∀ t th, threads m !! t = Some th → 0 ≤ pc th;
  si_nonneg : 0 ≤ vars m 0;
  si_cons : vars m 0 + Z.of_nat (sum_list_with pendV (threads m)) + Z.of_nat totP =
            n0 + Z.of_nat totV + Z.of_nat (sum_list_with pendP (threads m));
  si_pendP : (sum_list_with pendP (threads m) ≤ totP)%nat ∧ (sum_list_with pendV (threads m) ≤ totV)%nat;
  si_wake : (0 < length (wc_threads m 0) + sum_list_with sleepy (threads m))%nat →
            vars m 0 ≤ Z.of_nat (sum_list_with eager (threads m));
}.

Lemma sem_inv_upd m t th th' m' :
  sem_inv m → threads m !! t = Some th → disc m' → threads m' = <[t := th']> (threads m) →
  vars m' 0 = vars m 0 ∨ Spin 0 ∈ held (A th) → val_ok th' (vars m' 0) → 0 ≤ pc th' → 0 ≤ vars m' 0 →
  vars m' 0 + Z.of_nat (pendV th') + Z.of_nat (pendP th) =
    vars m 0 + Z.of_nat (pendV th) + Z.of_nat (pendP th') →
  (pendP th' ≤ pendP th)%nat ∧ (pendV th' ≤ pendV th)%nat →
  ((0 < length (wc_threads m' 0) + sum_list_with sleepy (threads m'))%nat →
     vars m' 0 + Z.of_nat (eager th) ≤ Z.of_nat (sum_list_with eager (threads m)) + Z.of_nat (eager th')) →
  sem_inv m'.
Proof.
  intros [Hd Hv Hpc Hnn Hc Hp Hw] Ht Hd' Hth Hlk Hv' Hpc' Hnn' Hcons Hle Hwake.
  pose proof (sum_insert pendV _ t th th' Ht) as E1.
  pose proof (sum_insert pendP _ t th th' Ht) as E2.
  pose proof (sum_insert eager _ t th th' Ht) as E3.
  rewrite <-Hth in E1, E2, E3.
  constructor; [done| | |done|lia|lia|intros Hq; specialize (Hwake Hq); lia].
  2:{ intros t' th0. rewrite Hth. intros [(<- & <- & _)|[Hne H]]%list_lookup_insert_Some; [done|].
      by eapply Hpc. }
  intros t' th0. rewrite Hth. intros [(<- & <- & _)|[Hne H]]%list_lookup_insert_Some; [done|].
  destruct Hlk as [->|Hl]; [by eapply Hv|]. apply val_ok_free. by apply (other_free sem_code m t t' th).
Qed.

(** A step that changes neither the count nor the channel and for which the
    accounting of [th'] is the one of [th]. *)
Lemma sem_inv_move m t th th' m' :
  sem_inv m → threads m !! t = Some th → disc m' → threads m' = <[t := th']> (threads m) →
  vars m' 0 = vars m 0 → wc_threads m' 0 = wc_threads m 0 → val_ok th' (vars m 0) → 0 ≤ pc th' →
  pendV th' = pendV th → pendP th' = pendP th →
  (sleepy th' ≤ sleepy th)%nat ∨ vars m 0 = 0 → (eager th ≤ eager th')%nat ∨ vars m 0 = 0 → sem_inv m'.
Proof.
  intros Hi Ht Hd' Hth Hv Hq Hv' Hpc' Ep1 Ep2 Hs He. pose proof Hi as [_ _ _ Hnn _ _ Hw].
  apply (sem_inv_upd m t th th' m'); try done; rewrite ?Hv; try done; [by left|lia|lia|].
  rewrite Hq, Hth. pose proof (sum_insert sleepy _ t th th' Ht) as E1.
  pose proof (sum_ge eager _ t th Ht). intros Hpos.
  destruct Hs as [Hs|Hs]; [|lia]. specialize (Hw ltac:(lia)). destruct He; lia.
Qed.

(** What a step must keep, given that it keeps the discipline. *)
Definition keeps (o : outcome semop) : Prop :=
  match o with Moved m' => disc m' → sem_inv m' | _ => True end.

Ltac sem_move Hi Ht := intros Hs; eapply (sem_inv_move _ _ _ _ _ Hi Ht Hs);
  [done|done|done|try (first [split; cbn; lia|cbn; lia])|done|done|done|left; vm_compute; lia|left; vm_compute; lia].

Lemma sem_step_P m t os k tgt ix r b i :
  sem_inv m → threads m !! t = Some (Thread (DoP :: os) (Z.of_nat k) tgt ix r b) →
  P sem0 !! k = Some i → keeps (exec t (Thread (DoP :: os) (Z.of_nat k) tgt ix r b) i m).
Proof using Hmax.
  intros Hi Ht Hz. pose proof Hi as [Hd Hv Hpc0 Hnn Hc Hp Hw].
  pose proof (Hv t _ Ht) as Hvt. rewrite P_flat in Hz.
  assert (k < 14)%nat as Hk by (by apply lookup_lt_Some in Hz).
  destruct k as [|[|[|[|[|[|[|[|[|[|[|[|[|[|k]]]]]]]]]]]]]]; [..|exfalso; lia]; injection Hz as <-; cbn [exec keeps]; clear Hk.
  - destruct b; [done|]. sem_move Hi Ht.
  - destruct (spins m (Spin 0)); [by case_decide|]. sem_move Hi Ht.
  - intros Hs. destruct (Z.eqb_spec (vars m 0) 0) as [E|E]; simpl in Hs |- *.
    + eapply (sem_inv_move _ _ _ _ _ Hi Ht Hs); [done|done|done| |done|done|done|by right|by right].
      split; cbn; lia.
    + eapply (sem_inv_move _ _ _ _ _ Hi Ht Hs); [done|done|done| |done|done|done|left; vm_compute; lia|left; vm_compute; lia].
      split; cbn; lia.
  - destruct (spins m (WcLock 0)); [by case_decide|]. sem_move Hi Ht.
  - case_decide; [|done]. sem_move Hi Ht.
  - destruct b; [done|]. sem_move Hi Ht.
  - intros Hs. eapply (sem_inv_upd m t _ _ _ Hi Ht Hs); [done|by left|split; cbn; lia|done|done|done|by split; reflexivity|].
    intros _. pose proof (sum_ge sleepy _ t _ Ht) as H. change (1 ≤ sum_list_with sleepy (threads m))%nat in H.
    specialize (Hw ltac:(lia)). change (vars m 0 + 0 ≤ Z.of_nat (sum_list_with eager (threads m)) + 0). lia.
  - case_decide; [|done]. sem_move Hi Ht.
  - destruct r; [|done]. sem_move Hi Ht.
  - destruct (spins m (Spin 0)); [by case_decide|]. sem_move Hi Ht.
  - sem_move Hi Ht.
  - destruct (Z.ltb_spec 0 (vars m 0)); [|done]. sem_move Hi Ht.
  - intros Hs. destruct Hvt as [_ Hpos]. specialize (Hpos (or_intror eq_refl)).
    assert (s32 (vars m 0 - 1) = vars m 0 - 1) as E by (apply s32_id; lia).
    set (th := Thread _ _ _ _ _ _) in *. set (m' := put_thread _ _ _) in *.
    assert (vars m' 0 = vars m 0 - 1) as Ev by exact E.
    assert (pendP th = S (pendP (next th)) ∧ pendV (next th) = pendV th) as [E1 E2] by done.
    assert (eager th = 1%nat ∧ eager (next th) = 0%nat ∧ sleepy th = sleepy (next th)) as (E3 & E4 & E5) by done.
    eapply (sem_inv_upd m t th _ m' Hi Ht Hs); [done| |split; cbn; lia|done|lia|lia|lia|].
    + right. refine (bool_decide_unpack _ _). by vm_compute.
    + intros Hany. rewrite Ev, E3, E4.
      assert (0 < length (wc_threads m 0) + sum_list_with sleepy (threads m))%nat as Hq.
      { pose proof (sum_insert sleepy _ t th (next th) Ht) as E6.
        change (threads m') with (<[t := next th]> (threads m)) in Hany.
        change (wc_threads m') with (wc_threads m) in Hany. lia. }
      specialize (Hw Hq). lia.
  - case_decide; [|done]. sem_move Hi Ht.
Qed.

(** While some thread holds both locks, no other is on its way to the channel. *)
Lemma nobody_sleepy m t th : disc m → threads m !! t = Some th → sleepy th = 0%nat →
  Spin 0 ∈ held (A th) → WcLock 0 ∈ held (A th) → sum_list_with sleepy (threads m) = 0%nat.
Proof.
  clear Hmax totV totP n0. intros Hd Ht H0 Hl Hw. destruct (decide (sum_list_with sleepy (threads m) = 0%nat)) as [|Hne]; [done|].
  destruct (sum_pos sleepy (threads m)) as (t' & th' & Ht' & Hs); [lia|]. exfalso.
  destruct (decide (t = t')) as [->|Hneq]; [simplify_eq; lia|].
  pose proof (other_free sem_code m t t' th th' _ Hd Ht Hl Ht' Hneq) as F1.
  pose proof (other_free sem_code m t t' th th' _ Hd Ht Hw Ht' Hneq) as F2.
  destruct th' as [[|[] os] p tgt ix r b]; unfold sleepy in Hs; simpl in Hs; try lia.
  destruct (Z.leb_spec 3 p), (Z.leb_spec p 6); simpl in Hs; try lia.
  assert (p = 3 ∨ p = 4 ∨ p = 5 ∨ p = 6) as [->|[->|[-> | ->]]] by lia.
  - apply F1. refine (bool_decide_unpack _ _). by vm_compute.
  - apply F1. refine (bool_decide_unpack _ _). by vm_compute.
  - apply F2. refine (bool_decide_unpack _ _). by vm_compute.
  - apply F2. refine (bool_decide_unpack _ _). by vm_compute.
Qed.

Lemma sem_wake m t th h thh os w m' :
  sem_inv m → threads m !! t = Some th → threads m !! h = Some thh → h ≠ t →
  ops th = DoV :: os → pc th = 7 → target th = [h] → ready thh = false →
  enq (A thh) = Some w → WcLock w ∉ held (A thh) → disc m' →
  m' = put_thread h (set_ready true thh) (put_thread t (set_target [] (next th)) m) → sem_inv m'.
Proof.
  intros [Hd Hv Hpc0 Hnn Hc Hp Hw] Ht Hh Hne Ho Hpc Htg Hr He Hwl Hd' ->.
  destruct (asleep_at _ _ He Hwl) as (os' & Hoh & Hph).
  assert (<[t := set_target [] (next th)]> (threads m) !! h = Some thh) as Hh'
    by (by rewrite list_lookup_insert_ne).
  assert (∀ f : thread semop → nat,
    (sum_list_with f (<[h := set_ready true thh]> (<[t := set_target [] (next th)]> (threads m)))
      + f thh + f th =
     sum_list_with f (threads m) + f (set_ready true thh) + f (set_target [] (next th)))%nat) as Hsum.
  { intros f. pose proof (sum_insert f _ t th (set_target [] (next th)) Ht).
    pose proof (sum_insert f _ h thh (set_ready true thh) Hh'). lia. }
  destruct th as [ops0 pc0 tgt ix r b], thh as [opsh pch tgth ixh rh bh]. simpl in Ho, Hpc, Htg, Hr, Hoh, Hph. subst ops0 pc0 tgt rh opsh pch.
  set (th := Thread (DoV :: _) _ _ _ _ _) in *. set (thh := Thread (DoP :: _) _ _ _ _ _) in *.
  set (th' := set_target [] (next th)) in *. set (thh' := set_ready true thh) in *.
  constructor; cbn [threads put_thread vars wc_threads]; [done| | |done|..].
  - intros t' th0 [(<- & <- & _)|[? [(<- & <- & _)|[? ?]]%list_lookup_insert_Some]]%list_lookup_insert_Some;
      [apply (Hv h _ Hh)|cbn; lia|by eapply Hv].
  - intros t' th0 [(<- & <- & _)|[? [(<- & <- & _)|[? ?]]%list_lookup_insert_Some]]%list_lookup_insert_Some;
      [done|done|by eapply Hpc0].
  - assert (pendV th' = pendV th ∧ pendV thh' = pendV thh) as [E1 E2] by done.
    assert (pendP th' = pendP th ∧ pendP thh' = pendP thh) as [E3 E4] by done.
    pose proof (Hsum pendV). pose proof (Hsum pendP). lia.
  - assert (pendV th' = pendV th ∧ pendV thh' = pendV thh) as [E1 E2] by done.
    assert (pendP th' = pendP th ∧ pendP thh' = pendP thh) as [E3 E4] by done.
    pose proof (Hsum pendV). pose proof (Hsum pendP). lia.
  - assert (eager th' = 0%nat ∧ eager th = 1%nat ∧ eager thh = 0%nat ∧ eager thh' = 1%nat)
      as (E1 & E2 & E3 & E4) by done.
    assert (sleepy th' = 0%nat ∧ sleepy th = 0%nat ∧ sleepy thh = 0%nat ∧ sleepy thh' = 0%nat)
      as (F1 & F2 & F3 & F4) by done.
    pose proof (Hsum sleepy). pose proof (Hsum eager).
    intros Hany. specialize (Hw ltac:(lia)). lia.
Qed.

Lemma sem_step_V m t os k tgt ix r b i :
  sem_inv m → threads m !! t = Some (Thread (DoV :: os) (Z.of_nat k) tgt ix r b) →
  V sem0 !! k = Some i → keeps (exec t (Thread (DoV :: os) (Z.of_nat k) tgt ix r b) i m).
Proof using Hmax.
  intros Hi Ht Hz. pose proof Hi as [Hd Hv Hpc0 Hnn Hc Hp Hw].
  pose proof (Hv t _ Ht) as Hvt. pose proof (d_target _ _ Hd t _ Ht) as Htg. rewrite V_flat in Hz.
  assert (k < 9)%nat as Hk by (by apply lookup_lt_Some in Hz).
  destruct k as [|[|[|[|[|[|[|[|[|k]]]]]]]]]; [..|exfalso; lia]; injection Hz as <-; cbn [exec keeps]; clear Hk.
  - destruct (spins m (Spin 0)); [by case_decide|]. sem_move Hi Ht.
  - intros Hs. set (th := Thread _ _ _ _ _ _) in *. set (m' := put_thread _ _ _) in *.
    assert (pendV th = S (pendV (next th)) ∧ pendP (next th) = pendP th) as [E1 E2] by done.
    pose proof (sum_ge pendV _ t _ Ht) as G1.
    assert (s32 (vars m 0 + 1) = vars m 0 + 1) as E by (apply s32_id; lia).
    assert (vars m' 0 = vars m 0 + 1) as Ev by exact E.
    change (target_ok sem_code th) with (tgt = []) in Htg. subst tgt.
    eapply (sem_inv_upd m t th _ m' Hi Ht Hs); [done| |intros _; rewrite Ev; lia|done|lia|lia|lia|].
    + right. refine (bool_decide_unpack _ _). by vm_compute.
    + intros Hany. rewrite Ev. assert (eager th = 0%nat ∧ eager (next th) = 1%nat) as [-> ->] by done.
      assert (0 < length (wc_threads m 0) + sum_list_with sleepy (threads m))%nat as Hq.
      { pose proof (sum_insert sleepy _ t th (next th) Ht) as E6.
        change (threads m') with (<[t := next th]> (threads m)) in Hany.
        change (wc_threads m') with (wc_threads m) in Hany.
        assert (sleepy th = sleepy (next th)) by done. lia. }
      specialize (Hw Hq). lia.
  - destruct (0 <? vars m 0); [|done]. sem_move Hi Ht.
  - destruct (spins m (WcLock 0)); [by case_decide|]. sem_move Hi Ht.
  - change (tgt = []) in Htg. subst tgt. destruct (wc_threads m 0) as [|h q] eqn:Hq; cbn [keeps].
    + intros Hs. eapply (sem_inv_upd m t _ _ _ Hi Ht Hs);
        [done|by left|cbn; lia|done|done|done|by split; reflexivity|].
      change (wc_threads (put_thread _ _ _)) with (wc_threads m). rewrite Hq.
      set (th := Thread _ _ _ _ _ _) in *. intros Hany.
      pose proof (sum_insert sleepy _ t th (next th) Ht) as E6.
      change (threads (put_thread _ _ _)) with (<[t := next th]> (threads m)) in Hany.
      rewrite (nobody_sleepy m t th Hd Ht) in E6; [|done|refine (bool_decide_unpack _ _); by vm_compute..].
      change (sleepy (next th)) with 0%nat in E6. simpl length in Hany. lia.
    + intros Hs. eapply (sem_inv_upd m t _ _ _ Hi Ht Hs);
        [done|by left|cbn; lia|done|done|done|by split; reflexivity|].
      intros _. specialize (Hw ltac:(simpl; lia)).
      change (vars m 0 + 1 ≤ Z.of_nat (sum_list_with eager (threads m)) + 1). lia.
  - case_decide; [|done]. destruct tgt; sem_move Hi Ht.
  - destruct tgt; cbn [target]; [rewrite decide_True by done|rewrite decide_False by done]; sem_move Hi Ht.
  - destruct Htg as [h Hh]. cbn [target] in Hh. subst tgt. cbn [target].
    destruct (disc_target_other _ _ _ _ h Hd Ht) as (Hne & Htk & thh & Hth); [done|left|].
    cbn [put_thread threads]. rewrite list_lookup_insert_ne, Hth by done. cbn [keeps]. intros Hs.
    destruct (d_taken _ _ Hd h Htk) as (_ & ? & w & E & Hrh & Heh & Hwh). simplify_eq.
    by eapply (sem_wake m t _ h thh os).
  - case_decide; [|done]. change (tgt = []) in Htg. subst tgt. sem_move Hi Ht.
Qed.

Lemma no_assert_fails m t : sem_inv m → ¬ assert_fails sem_code m t.
Proof.
  intros [_ Hv _ _ _ _ _] (th & o & os & x & b & Ht & Ho & Hz & Hb). specialize (Hv t th Ht).
  unfold val_ok in Hv. rewrite Ho in Hv. apply zget_cases in Hz as (k & Hk & Hpc & Hz).
  destruct o; cbn [sem_code] in Hz; [rewrite P_flat in Hz|rewrite V_flat in Hz].
  - assert (k < 14)%nat as Hlt by (by apply lookup_lt_Some in Hz).
    destruct k as [|[|[|[|[|[|[|[|[|[|[|[|[|[|k]]]]]]]]]]]]]]; [..|lia]; try (by injection Hz). injection Hz as <- <-.
    destruct Hv as [_ Hv]. rewrite (proj2 (Z.ltb_lt _ _)) in Hb; [done|]. apply Hv. lia.
  - assert (k < 9)%nat as Hlt by (by apply lookup_lt_Some in Hz).
    destruct k as [|[|[|[|[|[|[|[|[|k]]]]]]]]]; [..|lia]; try (by injection Hz). injection Hz as <- <-.
    rewrite (proj2 (Z.ltb_lt _ _)) in Hb; [done|]. apply Hv. lia.
Qed.

Lemma sem_return m t th o os :
  sem_inv m → threads m !! t = Some th → ops th = o :: os → zget (sem_code o) (pc th) = None →
  keeps (Moved (put_thread t (Thread os 0 (target th) (idx th) (ready th) (t_in_interrupt th)) m)).
Proof.
  intros Hi Ht Ho Hz. pose proof Hi as [Hd _ Hpc _ _ _ _]. pose proof (Hpc t th Ht) as H0. cbn [keeps]. intros Hs.
  pose proof (A_end sem_code sem_checks th o os Ho Hz) as HA.
  pose proof (d_target _ _ Hd t th Ht) as Htg. unfold target_ok in Htg. rewrite HA in Htg. simpl in Htg.
  apply zget_None in Hz. destruct th as [ops0 p tgt ix r b]. simpl in Ho, Htg, Hz, H0. subst ops0 tgt.
  assert (∀ o', count_op o' os = pend o' 13 (Thread os 0 [] ix r b) ∧
    count_op o' os = pend o' 2 (Thread os 0 [] ix r b)) as Hpe.
  { intros o'. unfold count_op, pend. destruct os as [|o2 os]; [done|]. cbn [ops pc].
    rewrite filter_cons. by case_decide. }
  destruct (Hpe DoP) as [EP _], (Hpe DoV) as [_ EV].
  eapply (sem_inv_move _ _ _ _ _ Hi Ht Hs); [done|done|done|..]; cbn [target idx ready t_in_interrupt].
  - unfold val_ok. cbn [ops pc]. destruct os as [|[] ?]; [done|split; lia|lia].
  - done.
  - unfold pendV. rewrite <-EV. unfold pend. cbn [ops pc]. destruct o; [done|].
    change (Z.of_nat (length (sem_code DoV))) with 9 in Hz.
    rewrite decide_True, (proj2 (Z.ltb_ge _ _)) by (done || lia). done.
  - unfold pendP. rewrite <-EP. unfold pend. cbn [ops pc]. destruct o; [|done].
    change (Z.of_nat (length (sem_code DoP))) with 14 in Hz.
    rewrite decide_True, (proj2 (Z.ltb_ge _ _)) by (done || lia). done.
  - left. unfold sleepy. cbn [ops pc]. destruct os as [|[] ?]; simpl; lia.
  - left. transitivity 0%nat; [|lia]. unfold eager. cbn [ops pc target]. destruct o.
    + change (Z.of_nat (length (sem_code DoP))) with 14 in Hz.
      destruct (Z.eqb_spec p 2), (Z.leb_spec 9 p), (Z.leb_spec p 12), (Z.eqb_spec p 8); simpl; lia.
    + change (Z.of_nat (length (sem_code DoV))) with 9 in Hz.
      destruct (Z.leb_spec 2 p), (Z.leb_spec p 4); simpl; lia.
Qed.

Lemma sem_step m t : sem_inv m →
  match step sem_code t m with Moved m' => sem_inv m' | Stuck => True | Crash => False end.
Proof using Hmax.
  intros Hi. pose proof (disc_step sem_code sem_checks m t (si_disc _ Hi)) as Hs.
  pose proof (no_assert_fails m t Hi) as Hna.
  assert (keeps (step sem_code t m)) as Hk.
  { unfold step. destruct (threads m !! t) as [th|] eqn:Ht; [|done].
    destruct (ops th) as [|o os] eqn:Ho; [done|].
    destruct (zget (sem_code o) (pc th)) as [i|] eqn:Hz; [|by eapply sem_return].
    apply zget_cases in Hz as (k & _ & Hpc & Hz). destruct th as [ops0 p tgt ix r b].
    simpl in Ho, Hpc. subst. destruct o; [by apply sem_step_P|by apply sem_step_V]. }
  destruct (step sem_code t m); [by apply Hk|done|by apply Hna].
Qed.

Lemma sem_run sched m : sem_inv m → ∃ m', run sem_code sched m = Some m' ∧ sem_inv m'.
Proof using Hmax.
  revert m. induction sched as [|t sched IH]; intros m Hi; simpl; [by eexists|].
  pose proof (sem_step m t Hi) as Hs. destruct (step sem_code t m); [by apply IH|by apply IH|done].
Qed.
End sem.

(** What a thread is doing when it cannot move. *)
Lemma stuck_at m t th o os : disc m → threads m !! t = Some th → ops th = o :: os →
  step sem_code t m = Stuck →
  (o = DoP ∧ pc th = 8 ∧ ready th = false) ∨
  ∃ l h, spins m l = Some h ∧ h ≠ t ∧
    ((l = Spin 0 ∧ held (A th) = []) ∨ (l = WcLock 0 ∧ held (A th) = [Spin 0])).
Proof.
  intros Hd Ht Ho. unfold step. rewrite Ht, Ho.
  destruct (zget (sem_code o) (pc th)) as [i|] eqn:Hz; [|done].
  apply zget_cases in Hz as (k & Hk & Hpc & Hz).
  destruct th as [ops0 p tgt ix r b]. simpl in Ho, Hpc. subst ops0 p.
  assert (∀ l th', match spins m l with
    | None => Moved (put_thread t th' (set_spin l (Some t) m))
    | Some h => if decide (h = t) then Crash else Stuck end = Stuck →
    ∃ h, spins m l = Some h ∧ h ≠ t) as Hspin.
  { intros l th'. destruct (spins m l) as [h|]; [|done]. case_decide; [done|eauto]. }
  destruct o; cbn [sem_code] in Hz; [rewrite P_flat in Hz|rewrite V_flat in Hz].
  - assert (k < 14)%nat as Hlt by (by apply lookup_lt_Some in Hz).
    destruct k as [|[|[|[|[|[|[|[|[|[|[|[|[|[|k]]]]]]]]]]]]]]; [..|lia]; injection Hz as <-; cbn [exec]; intros Hs;
      try (destruct b; done); try (by case_decide); try done; try (by destruct (_ <? _));
      try (right; destruct (Hspin _ _ Hs) as (h & ? & ?); eexists _, h; split_and!; [done|done|];
           first [left; done|right; done]).
    left. by destruct r.
  - assert (k < 9)%nat as Hlt by (by apply lookup_lt_Some in Hz).
    destruct k as [|[|[|[|[|[|[|[|[|k]]]]]]]]]; [..|lia]; injection Hz as <-; cbn [exec]; intros Hs;
      try (by case_decide); try done; try (by destruct (_ <? _)); try (by destruct (wc_threads m 0));
      try (right; destruct (Hspin _ _ Hs) as (h & ? & ?); eexists _, h; split_and!; [done|done|];
           first [left; done|right; done]).
    cbn [target] in Hs. destruct tgt as [|x tgt]; [done|]. cbn [threads put_thread] in Hs.
    by destruct (_ !! x).
Qed.

Lemma held_at_block th os : ops th = DoP :: os → pc th = 8 → A th = AState [] (Some 0%nat) TEmpty.
Proof. intros Ho Hp. unfold A. rewrite Ho, Hp. by vm_compute. Qed.

Lemma all_stuck m : disc m → (∀ t, step sem_code t m = Stuck) →
  ∀ t th o os, threads m !! t = Some th → ops th = o :: os → o = DoP ∧ pc th = 8 ∧ ready th = false.
Proof.
  intros Hd Hst.
  assert (∀ l h, spins m l = Some h → ∃ h', spins m (WcLock 0) = Some h' ∧ l = Spin 0) as Hchain.
  { intros l h (thh & Hh & Hl)%(d_spin _ _ Hd). destruct (ops thh) as [|o os] eqn:Ho.
    - unfold A in Hl. rewrite Ho in Hl. by apply elem_of_nil in Hl.
    - destruct (stuck_at m h thh o os Hd Hh Ho (Hst h))
        as [(-> & Hp & _)|(l' & h' & Hs & _ & [[-> E]|[-> E]])].
      + rewrite (held_at_block thh os Ho Hp) in Hl. by apply elem_of_nil in Hl.
      + rewrite E in Hl. by apply elem_of_nil in Hl.
      + rewrite E in Hl. apply list_elem_of_singleton in Hl. eauto. }
  intros t th o os Ht Ho.
  destruct (stuck_at m t th o os Hd Ht Ho (Hst t)) as [H|(l & h & Hs & _ & _)]; [done|].
  destruct (Hchain l h Hs) as (h' & Hs' & _). by destruct (Hchain _ h' Hs') as (? & _ & ?).
Qed.

Lemma all_stuck_sums m : disc m → (∀ t, step sem_code t m = Stuck) →
  taken m = [] ∧ sum_list_with eager (threads m) = 0%nat.
Proof.
  intros Hd Hst. assert (∀ t th, threads m !! t = Some th → target th = [] ∧ eager th = 0%nat) as H.
  { intros t th Ht. pose proof (d_target _ _ Hd t th Ht) as Htg. unfold target_ok in Htg.
    destruct (ops th) as [|o os] eqn:Ho.
    - unfold A in Htg. unfold eager. by rewrite Ho in Htg |- *.
    - destruct (all_stuck m Hd Hst t th o os Ht Ho) as (-> & Hp & Hr).
      rewrite (held_at_block th os Ho Hp) in Htg. split; [done|].
      unfold eager. by rewrite Ho, Hp, Hr. }
  split.
  - destruct (taken m) as [|x l] eqn:E; [done|]. exfalso. assert (x ∈ taken m) as Hx by (rewrite E; left).
    apply list_elem_of_bind in Hx as (th & Hx & Hin). apply list_elem_of_lookup in Hin as (t & Ht).
    destruct (H t th Ht) as [Ht0 _]. rewrite Ht0 in Hx. by apply elem_of_nil in Hx.
  - destruct (decide (sum_list_with eager (threads m) = 0%nat)) as [|Hne]; [done|].
    destruct (sum_pos eager (threads m)) as (t & th & Ht & Hp); [lia|].
    destruct (H t th Ht) as [_ E]. lia.
Qed.

Definition total (o : semop) (progs : list (list semop)) : nat := sum_list_with (count_op o) progs.

Lemma init_pend o k vs progs : 0 < k →
  sum_list_with (pend o k) (threads (init_machine vs progs)) = total o progs.
Proof.
  intros Hk. unfold total. simpl. induction progs as [|os progs IH]; simpl; [done|]. f_equal; [|done].
  destruct os as [|o' os]; [done|]. unfold pend, count_op. cbn [ops pc fresh_thread].
  rewrite filter_cons. rewrite (proj2 (Z.ltb_lt _ _)) by done. by case_decide.
Qed.

Lemma sem_inv_init n0 progs : 0 ≤ n0 →
  sem_inv n0 (total DoV progs) (total DoP progs) (init_machine (λ _, n0) progs).
Proof.
  intros Hn. constructor; [apply disc_init, sem_checks|..].
  - intros t th Ht. simpl in Ht. apply list_lookup_fmap_Some in Ht as (os & -> & _).
    unfold val_ok. cbn [ops pc fresh_thread]. destruct os as [|[] ?]; [done|split; lia|lia].
  - intros t th Ht. simpl in Ht. by apply list_lookup_fmap_Some in Ht as (os & -> & _).
  - done.
  - unfold pendV, pendP. rewrite !init_pend by lia. simpl. lia.
  - unfold pendP, pendV. by rewrite !init_pend by lia.
  - simpl. intros H. exfalso.
    assert (sum_list_with sleepy (fresh_thread <$> progs) = 0%nat); [|lia].
    clear. induction progs as [|[|[] ?] ? IH]; simpl; done.
Qed.

(** C18: semaphores count correctly. Any number of threads making any calls of
    [P] and [V] on a semaphore created with count [n0], under any schedule,
    never fail an assertion or misuse a spinlock; the count is never negative
    and is always [n0] plus the [V]s less the [P]s that have taken effect. *)
Theorem semaphore_counts n0 progs sched :
  0 ≤ n0 → n0 + Z.of_nat (total DoV progs) < 2 ^ 31 →
  ∃ m, run sem_code sched (init_machine (λ _, n0) progs) = Some m ∧ 0 ≤ vars m 0 ∧
    vars m 0 = n0 + Z.of_nat (total DoV progs - sum_list_with pendV (threads m))
                  - Z.of_nat (total DoP progs - sum_list_with pendP (threads m)) ∧
    (sum_list_with pendV (threads m) ≤ total DoV progs)%nat ∧
    (sum_list_with pendP (threads m) ≤ total DoP progs)%nat.
Proof.
  intros Hn Hmax. destruct (sem_run n0 _ _ Hmax sched _ (sem_inv_init n0 progs Hn)) as (m & Hr & Hi).
  exists m. destruct Hi as [_ _ _ Hnn Hc Hp _]. split_and!; [done|done|lia|lia|lia].
Qed.

(** C19: no wakeup is lost. When no thread can move any more, every thread has
    either returned from all its calls or is asleep on the semaphore's channel
    inside [P], and if any is asleep then the count is 0. *)
Theorem semaphore_no_lost_wakeup n0 progs sched m :
  0 ≤ n0 → n0 + Z.of_nat (total DoV progs) < 2 ^ 31 →
  run sem_code sched (init_machine (λ _, n0) progs) = Some m →
  (∀ t, step sem_code t m = Stuck) →
  ∀ t th, threads m !! t = Some th → ops th ≠ [] →
    head (ops th) = Some DoP ∧ t ∈ wc_threads m 0 ∧ vars m 0 = 0.
Proof.
  intros Hn Hmax Hr Hst t th Ht Hne.
  destruct (sem_run n0 _ _ Hmax sched _ (sem_inv_init n0 progs Hn)) as (m' & Hr' & Hi).
  simplify_eq. destruct Hi as [Hd _ _ Hnn _ _ Hw]. destruct (all_stuck_sums m Hd Hst) as [Htk He].
  destruct (ops th) as [|o os] eqn:Ho; [done|].
  destruct (all_stuck m Hd Hst t th o os Ht Ho) as (-> & Hp & Hrd). split; [done|].
  destruct (d_asleep _ _ Hd t th Ht Hrd) as [Hin|[w Hin]]; [rewrite Htk in Hin; by apply elem_of_nil in Hin|].
  destruct (d_queue _ _ Hd w t Hin) as (th' & Ht' & _ & He'). simplify_eq.
  rewrite (held_at_block _ os Ho Hp) in He'. simpl in He'. simplify_eq. split; [done|].
  assert (0 < length (wc_threads m 0))%nat by (destruct (wc_threads m 0); [by apply elem_of_nil in Hin|simpl; lia]).
  rewrite He in Hw. specialize (Hw ltac:(lia)). lia.
Qed.

(** *** Concrete instances *)
(** A consumer and a producer on an empty semaphore: the consumer goes to sleep
    and is woken up. *)
Definition demo_progs : list (list semop) := [[DoP]; [DoV]].
Definition demo_sched : list nat := replicate 20 0%nat ++ replicate 20 1%nat ++ replicate 20 0%nat.

Lemma semaphore_counts_witness :
  ∃ m, run sem_code demo_sched (init_machine (λ _, 0) demo_progs) = Some m ∧ 0 ≤ vars m 0 ∧
    vars m 0 = 0 + Z.of_nat (1 - sum_list_with pendV (threads m))
                 - Z.of_nat (1 - sum_list_with pendP (threads m)) ∧
    (sum_list_with pendV (threads m) ≤ 1)%nat ∧
    (sum_list_with pendP (threads m) ≤ 1)%nat.
Proof. apply (semaphore_counts 0 demo_progs demo_sched); [lia|done]. Defined.

(** Two consumers and one producer: in the end one consumer sleeps. *)
Definition demo_progs2 : list (list semop) := [[DoP]; [DoP]; [DoV]].
Definition demo_end2 : machine semop :=
  default (init_machine (λ _, 0) []) (run sem_code
    (replicate 20 0%nat ++ replicate 20 1%nat ++ replicate 20 2%nat ++ replicate 20 0%nat)
    (init_machine (λ _, 0) demo_progs2)).

Lemma semaphore_no_lost_wakeup_witness :
  ∃ th, threads demo_end2 !! 1%nat = Some th ∧ ops th = [DoP] ∧
    head (ops th) = Some DoP ∧ 1%nat ∈ wc_threads demo_end2 0 ∧ vars demo_end2 0 = 0.
Proof.
  eexists. split; [by vm_compute|]. split; [done|].
  eapply (semaphore_no_lost_wakeup 0 demo_progs2
    (replicate 20 0%nat ++ replicate 20 1%nat ++ replicate 20 2%nat ++ replicate 20 0%nat) demo_end2 _ _ _ _ 1);
    [by vm_compute|done].
  Unshelve.
  - lia.
  - done.
  - by vm_compute.
  - intros t. do 3 (destruct t as [|t]; [by vm_compute|]). by vm_compute.
Defined.
