(* ===== verification/SynchLock.v ===== *)
(** Locks are correct: any number of threads that acquire and release one lock
    alternately, under any interleaving. *)

From stdpp Require Import base tactics numbers sets list.
From S2P Require Import Prelude Synch SynchDisc.
Local Open Scope Z_scope.

Definition lock0 : lock := Lock 0 0 0.
Inductive lockop := DoAcq | DoRel.
Definition lock_code (o : lockop) : list instr :=
  match o with DoAcq => lock_acquire lock0 | DoRel => lock_release lock0 end.

Lemma acquire_flat : lock_acquire lock0 =
  [JumpIf 0 (λ t v, v =? curthread t) 13; SpinAcq (Spin 0);
   JumpIf 0 (λ _ v, negb (negb (v =? NULL))) 9;
   SpinAcq (WcLock 0); SpinRel (Spin 0); AssertNoIntr; Enqueue 0; SpinRel (WcLock 0); Block;
   SpinAcq (Spin 0); Jump (-8);
   Assign 0 (λ t _, curthread t); SpinRel (Spin 0)].
Proof. reflexivity. Qed.
Lemma release_flat : lock_release lock0 =
  [JumpIf 0 (λ t v, negb (v =? curthread t)) 9; SpinAcq (Spin 0); Assign 0 (λ _ _, NULL);
   SpinAcq (WcLock 0); Dequeue 0; SpinRel (WcLock 0); JumpNoTarget 2; WakeNext; SpinRel (Spin 0)].
Proof. reflexivity. Qed.

Lemma lock_checks o : check_code (lock_code o) = true.
Proof. by destruct o; vm_compute. Qed.

Local Notation disc := (disc lock_code).
Local Notation A := (A lock_code).

(** Calls alternate, so that every acquire is followed by its release. *)
Fixpoint alternates (next : lockop) (l : list lockop) : Prop :=
  match next, l with
  | DoAcq, [] => True
  | DoAcq, DoAcq :: l => alternates DoRel l
  | DoRel, DoRel :: l => alternates DoAcq l
  | _, _ => False
  end.

(** The thread has the lock: from the assignment in [lock_acquire] to the one in
    [lock_release]. *)
Definition in_cs (th : thread lockop) : bool :=
  match ops th with
  | DoAcq :: _ => 12 <=? pc th
  | DoRel :: _ => pc th <=? 2
  | [] => false
  end.

Definition sleepy (th : thread lockop) : nat :=
  match ops th with
  | DoAcq :: _ => if (3 <=? pc th) && (pc th <=? 6) then 1 else 0
  | _ => 0
  end.
Definition eager (th : thread lockop) : nat :=
  match ops th with
  | DoAcq :: _ =>
      if (pc th =? 2) || ((9 <=? pc th) && (pc th <=? 11)) || ((pc th =? 8) && ready th) then 1 else 0
  | DoRel :: _ =>
      if ((3 <=? pc th) && (pc th <=? 4)) || negb (bool_decide (target th = [])) then 1 else 0
  | [] => 0
  end.
Definition avail (v : Z) : Z := if v =? NULL then 1 else 0.

(** What a thread knows while it holds the spinlock. *)
Definition val_ok (th : thread lockop) (v : Z) : Prop :=
  match ops th with
  | DoAcq :: _ => pc th = 11 → v = NULL
  | _ => True
  end.

Definition ops_ok (th : thread lockop) : Prop :=
  0 ≤ pc th ∧
  match ops th with
  | DoAcq :: l => alternates DoRel l
  | DoRel :: l => alternates DoAcq l
  | [] => True
  end.

Record lock_inv (m : machine lockop) : Prop := {
  li_disc : disc m;
  li_val : ∀ t th, threads m !! t = Some th → val_ok th (vars m 0);
  li_ops : ∀ t th, threads m !! t = Some th → ops_ok th;
  li_owner : ∀ t th, threads m !! t = Some th → in_cs th = (vars m 0 =? curthread t);
  li_some : vars m 0 ≠ NULL → ∃ t th, threads m !! t = Some th ∧ vars m 0 = curthread t;
  li_wake : (0 < length (wc_threads m 0) + sum_list_with sleepy (threads m))%nat →
            avail (vars m 0) ≤ Z.of_nat (sum_list_with eager (threads m));
}.

Lemma lock_val_free th v : Spin 0 ∉ held (A th) → val_ok th v.
Proof.
  destruct th as [[|[] os] p tgt ix r b]; unfold val_ok; simpl; intros H; [done| |done].
  intros ->. exfalso. apply H. refine (bool_decide_unpack _ _). by vm_compute.
Qed.

Lemma lock_asleep_at th w : enq (A th) = Some w → WcLock w ∉ held (A th) →
  ∃ os, ops th = DoAcq :: os ∧ pc th = 8.
Proof.
  unfold A. destruct (ops th) as [|o os] eqn:Ho; [done|]. unfold ast. intros He Hw.
  destruct (zget (scan start (lock_code o)) (pc th)) as [a|] eqn:Hp; [|done].
  simpl in He, Hw. apply zget_cases in Hp as (k & Hk & Hpc & Hp). exists os. destruct o.
  - do 14 (destruct k as [|k]; [vm_compute in Hp; simplify_eq; simpl in He, Hw; simplify_eq; set_solver|]).
    vm_compute in Hk. lia.
  - do 10 (destruct k as [|k]; [vm_compute in Hp; by simplify_eq|]). vm_compute in Hk. lia.
Qed.

(** A step that leaves the owner alone. *)
Lemma lock_inv_upd m t th th' m' :
  lock_inv m → threads m !! t = Some th → disc m' → threads m' = <[t := th']> (threads m) →
  vars m' 0 = vars m 0 → val_ok th' (vars m 0) → ops_ok th' → in_cs th' = in_cs th →
  ((0 < length (wc_threads m' 0) + sum_list_with sleepy (threads m'))%nat →
     avail (vars m 0) + Z.of_nat (eager th) ≤
     Z.of_nat (sum_list_with eager (threads m)) + Z.of_nat (eager th')) →
  lock_inv m'.
Proof.
  intros [Hd Hv Ho Hown Hsome Hw] Ht Hd' Hth Hvar Hv' Ho' Hcs Hwake.
  pose proof (sum_insert eager _ t th th' Ht) as E3. rewrite <-Hth in E3.
  constructor; [done|..]; rewrite ?Hvar.
  - intros t' th0. rewrite Hth. intros [(<- & <- & _)|[Hne H]]%list_lookup_insert_Some; [done|by eapply Hv].
  - intros t' th0. rewrite Hth. intros [(<- & <- & _)|[Hne H]]%list_lookup_insert_Some; [done|by eapply Ho].
  - intros t' th0. rewrite Hth. intros [(<- & <- & _)|[Hne H]]%list_lookup_insert_Some;
      [rewrite Hcs|]; by apply Hown.
  - intros Hne. destruct (Hsome Hne) as (t' & th0 & H & E). destruct (decide (t = t')) as [->|].
    + exists t', th'. rewrite Hth, list_lookup_insert_eq; [done|]. by eapply lookup_lt_Some.
    + exists t', th0. by rewrite Hth, list_lookup_insert_ne.
  - intros Hq. specialize (Hwake Hq). lia.
Qed.

Lemma avail_range v : 0 ≤ avail v ≤ 1.
Proof. unfold avail. destruct (v =? NULL); lia. Qed.

Lemma lock_inv_move m t th th' m' :
  lock_inv m → threads m !! t = Some th → disc m' → threads m' = <[t := th']> (threads m) →
  vars m' 0 = vars m 0 → wc_threads m' 0 = wc_threads m 0 → val_ok th' (vars m 0) → ops_ok th' →
  in_cs th' = in_cs th →
  (sleepy th' ≤ sleepy th)%nat ∨ avail (vars m 0) = 0 →
  (eager th ≤ eager th')%nat ∨ avail (vars m 0) = 0 → lock_inv m'.
Proof.
  intros Hi Ht Hd' Hth Hv Hq Hv' Ho' Hcs Hs He. pose proof Hi as [_ _ _ _ _ Hw].
  apply (lock_inv_upd m t th th' m'); try done.
  rewrite Hq, Hth. pose proof (sum_insert sleepy _ t th th' Ht) as E1.
  pose proof (sum_ge eager _ t th Ht). intros Hpos.
  destruct Hs as [Hs|Hs]; [|lia]. specialize (Hw ltac:(lia)). destruct He; lia.
Qed.

(** A step that changes the owner, by the thread that holds the spinlock. *)
Lemma lock_inv_own m t th th' m' :
  lock_inv m → threads m !! t = Some th → disc m' → threads m' = <[t := th']> (threads m) →
  wc_threads m' 0 = wc_threads m 0 → Spin 0 ∈ held (A th) → ops_ok th' → val_ok th' (vars m' 0) →
  (vars m 0 = NULL ∧ vars m' 0 = curthread t ∧ in_cs th' = true ∨
   vars m 0 = curthread t ∧ vars m' 0 = NULL ∧ in_cs th' = false) →
  sleepy th' = sleepy th →
  avail (vars m' 0) + Z.of_nat (eager th) ≤ avail (vars m 0) + Z.of_nat (eager th') →
  lock_inv m'.
Proof.
  intros [Hd Hv Ho Hown Hsome Hw] Ht Hd' Hth Hq Hl Ho' Hv' Hcase Hs He.
  pose proof (sum_insert eager _ t th th' Ht) as E3. rewrite <-Hth in E3.
  pose proof (sum_insert sleepy _ t th th' Ht) as E4. rewrite <-Hth in E4.
  assert (∀ t1 t2, curthread t1 = curthread t2 → t1 = t2) as Hinj by (unfold curthread; lia).
  assert (∀ t1, curthread t1 ≠ NULL) as Hnn by (unfold curthread, NULL; lia).
  constructor; [done|..].
  - intros t' th0. rewrite Hth. intros [(<- & <- & _)|[Hne H]]%list_lookup_insert_Some; [done|].
    apply lock_val_free. by apply (other_free lock_code m t t' th).
  - intros t' th0. rewrite Hth. intros [(<- & <- & _)|[Hne H]]%list_lookup_insert_Some; [done|by eapply Ho].
  - intros t' th0. rewrite Hth. intros [(<- & <- & _)|[Hne H]]%list_lookup_insert_Some.
    + destruct Hcase as [(_ & -> & ->)|(_ & -> & ->)]; [by rewrite Z.eqb_refl|].
      symmetry. apply Z.eqb_neq. by apply not_eq_sym.
    + rewrite (Hown t' th0 H). destruct Hcase as [(-> & -> & _)|(-> & -> & _)].
      * rewrite (proj2 (Z.eqb_neq NULL _)), (proj2 (Z.eqb_neq (curthread t) _)); [done| |];
          [intros ?%Hinj; done|by apply not_eq_sym].
      * rewrite (proj2 (Z.eqb_neq NULL _)), (proj2 (Z.eqb_neq (curthread t) _)); [done| |];
          [intros ?%Hinj; done|by apply not_eq_sym].
  - intros Hne. destruct Hcase as [(_ & E & _)|(_ & E & _)]; [|done]. exists t, th'.
    rewrite Hth, list_lookup_insert_eq; [done|]. by eapply lookup_lt_Some.
  - rewrite Hq. intros Hpos. specialize (Hw ltac:(lia)). lia.
Qed.

Definition keeps (o : outcome lockop) : Prop :=
  match o with Moved m' => disc m' → lock_inv m' | _ => True end.

Ltac lock_move Hi Ht Ho := intros Hs; eapply (lock_inv_move _ _ _ _ _ Hi Ht Hs);
  [done|done|done|try (cbn; lia)|by split; [cbn; lia|apply Ho]|done|left; vm_compute; lia|left; vm_compute; lia].

Lemma lock_step_acquire m t os k tgt ix r b i :
  lock_inv m → threads m !! t = Some (Thread (DoAcq :: os) (Z.of_nat k) tgt ix r b) →
  lock_acquire lock0 !! k = Some i →
  keeps (exec t (Thread (DoAcq :: os) (Z.of_nat k) tgt ix r b) i m).
Proof.
  intros Hi Ht Hz. pose proof Hi as [Hd Hv Ho Hown Hsome Hw].
  pose proof (Hv t _ Ht) as Hvt. pose proof (Ho t _ Ht) as Hot. pose proof (Hown t _ Ht) as Hcs.
  rewrite acquire_flat in Hz.
  assert (k < 13)%nat as Hk by (by apply lookup_lt_Some in Hz).
  destruct k as [|[|[|[|[|[|[|[|[|[|[|[|[|k]]]]]]]]]]]]]; [..|exfalso; lia]; injection Hz as <-; cbn [exec keeps]; clear Hk.
  - change (in_cs _) with false in Hcs. rewrite <-Hcs. cbn [keeps]. lock_move Hi Ht Hot.
  - destruct (spins m (Spin 0)); [by case_decide|]. lock_move Hi Ht Hot.
  - intros Hs. destruct (Z.eqb_spec (vars m 0) NULL) as [E|E]; simpl in Hs |- *.
    + eapply (lock_inv_move _ _ _ _ _ Hi Ht Hs);
        [done|done|done|by intros _|by split; [cbn; lia|apply Hot]|done|left; vm_compute; lia|left; vm_compute; lia].
    + assert (avail (vars m 0) = 0) by (unfold avail; by rewrite (proj2 (Z.eqb_neq _ _))).
      eapply (lock_inv_move _ _ _ _ _ Hi Ht Hs);
        [done|done|done|cbn; lia|by split; [cbn; lia|apply Hot]|done|by right|by right].
  - destruct (spins m (WcLock 0)); [by case_decide|]. lock_move Hi Ht Hot.
  - case_decide; [|done]. lock_move Hi Ht Hot.
  - destruct b; [done|]. lock_move Hi Ht Hot.
  - intros Hs. eapply (lock_inv_upd m t _ _ _ Hi Ht Hs);
      [done|done|cbn; lia|by split; [cbn; lia|apply Hot]|done|].
    intros _. pose proof (sum_ge sleepy _ t _ Ht) as H. change (1 ≤ sum_list_with sleepy (threads m))%nat in H.
    specialize (Hw ltac:(lia)).
    change (avail (vars m 0) + 0 ≤ Z.of_nat (sum_list_with eager (threads m)) + 0). lia.
  - case_decide; [|done]. lock_move Hi Ht Hot.
  - destruct r; [|done]. lock_move Hi Ht Hot.
  - destruct (spins m (Spin 0)); [by case_decide|]. lock_move Hi Ht Hot.
  - lock_move Hi Ht Hot.
  - intros Hs. specialize (Hvt eq_refl).
    eapply (lock_inv_own m t _ _ _ Hi Ht Hs); [done|done| |by split; [cbn; lia|apply Hot]|by cbn|
      left; split_and!; done|done|].
    + refine (bool_decide_unpack _ _). by vm_compute.
    + rewrite Hvt. change (vars (put_thread _ _ _) 0) with (curthread t).
      unfold avail. rewrite (proj2 (Z.eqb_neq _ _)) by (unfold curthread, NULL; lia).
      change (0 + 1 ≤ 1 + 0). lia.
  - case_decide; [|done]. lock_move Hi Ht Hot.
Qed.

Lemma lock_nobody_sleepy m t th : disc m → threads m !! t = Some th → sleepy th = 0%nat →
  Spin 0 ∈ held (A th) → WcLock 0 ∈ held (A th) → sum_list_with sleepy (threads m) = 0%nat.
Proof.
  intros Hd Ht H0 Hl Hw. destruct (decide (sum_list_with sleepy (threads m) = 0%nat)) as [|Hne]; [done|].
  destruct (sum_pos sleepy (threads m)) as (t' & th' & Ht' & Hs); [lia|]. exfalso.
  destruct (decide (t = t')) as [->|Hneq]; [simplify_eq; lia|].
  pose proof (other_free lock_code m t t' th th' _ Hd Ht Hl Ht' Hneq) as F1.
  pose proof (other_free lock_code m t t' th th' _ Hd Ht Hw Ht' Hneq) as F2.
  destruct th' as [[|[] os] p tgt ix r b]; unfold sleepy in Hs; simpl in Hs; try lia.
  destruct (Z.leb_spec 3 p), (Z.leb_spec p 6); simpl in Hs; try lia.
  assert (p = 3 ∨ p = 4 ∨ p = 5 ∨ p = 6) as [->|[->|[-> | ->]]] by lia.
  - apply F1. refine (bool_decide_unpack _ _). by vm_compute.
  - apply F1. refine (bool_decide_unpack _ _). by vm_compute.
  - apply F2. refine (bool_decide_unpack _ _). by vm_compute.
  - apply F2. refine (bool_decide_unpack _ _). by vm_compute.
Qed.

Lemma lock_wake m t th h thh os w m' :
  lock_inv m → threads m !! t = Some th → threads m !! h = Some thh → h ≠ t →
  ops th = DoRel :: os → pc th = 7 → target th = [h] → ready thh = false →
  enq (A thh) = Some w → WcLock w ∉ held (A thh) → disc m' →
  m' = put_thread h (set_ready true thh) (put_thread t (set_target [] (next th)) m) → lock_inv m'.
Proof.
  intros [Hd Hv Hop Hown Hsome Hw] Ht Hh Hne Ho Hpc Htg Hr He Hwl Hd' ->.
  destruct (lock_asleep_at _ _ He Hwl) as (os' & Hoh & Hph).
  assert (<[t := set_target [] (next th)]> (threads m) !! h = Some thh) as Hh'
    by (by rewrite list_lookup_insert_ne).
  assert (∀ f : thread lockop → nat,
    (sum_list_with f (<[h := set_ready true thh]> (<[t := set_target [] (next th)]> (threads m)))
      + f thh + f th =
     sum_list_with f (threads m) + f (set_ready true thh) + f (set_target [] (next th)))%nat) as Hsum.
  { intros f. pose proof (sum_insert f _ t th (set_target [] (next th)) Ht).
    pose proof (sum_insert f _ h thh (set_ready true thh) Hh'). lia. }
  destruct th as [ops0 pc0 tgt ix r b], thh as [opsh pch tgth ixh rh bh].
  simpl in Ho, Hpc, Htg, Hr, Hoh, Hph. subst ops0 pc0 tgt rh opsh pch.
  set (th := Thread (DoRel :: _) _ _ _ _ _) in *. set (thh := Thread (DoAcq :: _) _ _ _ _ _) in *.
  set (th' := set_target [] (next th)) in *. set (thh' := set_ready true thh) in *.
  pose proof (Hop t th Ht) as Hot. pose proof (Hop h thh Hh) as Hoh.
  constructor; cbn [threads put_thread vars wc_threads]; [done|..].
  - intros t' th0 [(<- & <- & _)|[? [(<- & <- & _)|[? ?]]%list_lookup_insert_Some]]%list_lookup_insert_Some;
      [apply (Hv h _ Hh)|done|by eapply Hv].
  - intros t' th0 [(<- & <- & _)|[? [(<- & <- & _)|[? ?]]%list_lookup_insert_Some]]%list_lookup_insert_Some;
      [apply Hoh|by split; [cbn; lia|apply Hot]|by eapply Hop].
  - intros t' th0 [(<- & <- & _)|[? [(<- & <- & _)|[? ?]]%list_lookup_insert_Some]]%list_lookup_insert_Some;
      [apply (Hown h _ Hh)|apply (Hown t _ Ht)|by eapply Hown].
  - intros Hnn. destruct (Hsome Hnn) as (t' & th0 & H & E).
    assert (t' < length (<[h := thh']> (<[t := th']> (threads m))))%nat as [x Hx]%lookup_lt_is_Some
      by (rewrite !length_insert; by eapply lookup_lt_Some). eauto.
  - assert (eager th' = 0%nat ∧ eager th = 1%nat ∧ eager thh = 0%nat ∧ eager thh' = 1%nat)
      as (E1 & E2 & E3 & E4) by done.
    assert (sleepy th' = 0%nat ∧ sleepy th = 0%nat ∧ sleepy thh = 0%nat ∧ sleepy thh' = 0%nat)
      as (F1 & F2 & F3 & F4) by done.
    pose proof (Hsum sleepy). pose proof (Hsum eager).
    intros Hany. specialize (Hw ltac:(lia)). lia.
Qed.

Lemma lock_step_release m t os k tgt ix r b i :
  lock_inv m → threads m !! t = Some (Thread (DoRel :: os) (Z.of_nat k) tgt ix r b) →
  lock_release lock0 !! k = Some i →
  keeps (exec t (Thread (DoRel :: os) (Z.of_nat k) tgt ix r b) i m).
Proof.
  intros Hi Ht Hz. pose proof Hi as [Hd Hv Hop Hown Hsome Hw].
  pose proof (Hop t _ Ht) as Hot. pose proof (Hown t _ Ht) as Hcs.
  pose proof (d_target _ _ Hd t _ Ht) as Htg. rewrite release_flat in Hz.
  assert (k < 9)%nat as Hk by (by apply lookup_lt_Some in Hz).
  destruct k as [|[|[|[|[|[|[|[|[|k]]]]]]]]]; [..|exfalso; lia]; injection Hz as <-; cbn [exec keeps]; clear Hk.
  - change (in_cs _) with true in Hcs. rewrite <-Hcs. cbn [negb keeps].
    change (tgt = []) in Htg. subst tgt. lock_move Hi Ht Hot.
  - destruct (spins m (Spin 0)); [by case_decide|]. change (tgt = []) in Htg. subst tgt. lock_move Hi Ht Hot.
  - intros Hs. change (in_cs _) with true in Hcs. symmetry in Hcs. apply Z.eqb_eq in Hcs.
    change (tgt = []) in Htg. subst tgt.
    eapply (lock_inv_own m t _ _ _ Hi Ht Hs); [done|done| |by split; [cbn; lia|apply Hot]|by cbn|
      right; split_and!; done|done|].
    + refine (bool_decide_unpack _ _). by vm_compute.
    + rewrite Hcs. change (vars (put_thread _ _ _) 0) with NULL.
      unfold avail. rewrite (proj2 (Z.eqb_neq (curthread t) _)) by (unfold curthread, NULL; lia).
      change (1 + 0 ≤ 0 + 1). lia.
  - destruct (spins m (WcLock 0)); [by case_decide|]. change (tgt = []) in Htg. subst tgt.
    lock_move Hi Ht Hot.
  - change (tgt = []) in Htg. subst tgt. destruct (wc_threads m 0) as [|h q] eqn:Hq; cbn [keeps].
    + intros Hs. eapply (lock_inv_upd m t _ _ _ Hi Ht Hs);
        [done|done|done|by split; [cbn; lia|apply Hot]|done|].
      change (wc_threads (put_thread _ _ _)) with (wc_threads m). rewrite Hq.
      set (th := Thread _ _ _ _ _ _) in *. intros Hany.
      pose proof (sum_insert sleepy _ t th (next th) Ht) as E6.
      change (threads (put_thread _ _ _)) with (<[t := next th]> (threads m)) in Hany.
      rewrite (lock_nobody_sleepy m t th Hd Ht) in E6; [|done|refine (bool_decide_unpack _ _); by vm_compute..].
      change (sleepy (next th)) with 0%nat in E6. simpl length in Hany. lia.
    + intros Hs. eapply (lock_inv_upd m t _ _ _ Hi Ht Hs);
        [done|done|done|by split; [cbn; lia|apply Hot]|done|].
      intros _. specialize (Hw ltac:(simpl; lia)).
      change (avail (vars m 0) + 1 ≤ Z.of_nat (sum_list_with eager (threads m)) + 1). lia.
  - case_decide; [|done]. destruct tgt; lock_move Hi Ht Hot.
  - destruct tgt; cbn [target]; [rewrite decide_True by done|rewrite decide_False by done];
      lock_move Hi Ht Hot.
  - destruct Htg as [h Hh]. cbn [target] in Hh. subst tgt. cbn [target].
    destruct (disc_target_other _ _ _ _ h Hd Ht) as (Hne & Htk & thh & Hth); [done|left|].
    cbn [put_thread threads]. rewrite list_lookup_insert_ne, Hth by done. cbn [keeps]. intros Hs.
    destruct (d_taken _ _ Hd h Htk) as (_ & ? & w & E & Hrh & Heh & Hwh). simplify_eq.
    by eapply (lock_wake m t _ h thh os).
  - case_decide; [|done]. change (tgt = []) in Htg. subst tgt. lock_move Hi Ht Hot.
Qed.

Lemma lock_return m t th o os :
  lock_inv m → threads m !! t = Some th → ops th = o :: os → zget (lock_code o) (pc th) = None →
  keeps (Moved (put_thread t (Thread os 0 (target th) (idx th) (ready th) (t_in_interrupt th)) m)).
Proof.
  intros Hi Ht Ho Hz. pose proof Hi as [Hd _ Hop Hown _ _]. destruct (Hop t th Ht) as [H0 Halt].
  rewrite Ho in Halt. cbn [keeps]. intros Hs.
  pose proof (A_end lock_code lock_checks th o os Ho Hz) as HA.
  pose proof (d_target _ _ Hd t th Ht) as Htg. unfold target_ok in Htg. rewrite HA in Htg. simpl in Htg.
  apply zget_None in Hz. destruct th as [ops0 p tgt ix r b]. simpl in Ho, Htg, Hz, H0. subst ops0 tgt.
  eapply (lock_inv_move _ _ _ _ _ Hi Ht Hs); [done|done|done|..]; cbn [target idx ready t_in_interrupt].
  - unfold val_ok. cbn [ops pc]. destruct os as [|[] ?]; [done|lia|done].
  - split; [done|]. cbn [ops]. by destruct o, os as [|[] ?].
  - unfold in_cs. cbn [ops pc]. destruct o.
    + change (Z.of_nat (length (lock_code DoAcq))) with 13 in Hz.
      rewrite (proj2 (Z.leb_le 12 p)) by lia. by destruct os as [|[] ?].
    + change (Z.of_nat (length (lock_code DoRel))) with 9 in Hz.
      rewrite (proj2 (Z.leb_gt p 2)) by lia. by destruct os as [|[] ?].
  - left. unfold sleepy. cbn [ops pc]. destruct os as [|[] ?]; simpl; lia.
  - left. transitivity 0%nat; [|lia]. unfold eager. cbn [ops pc target]. destruct o.
    + change (Z.of_nat (length (lock_code DoAcq))) with 13 in Hz.
      destruct (Z.eqb_spec p 2), (Z.leb_spec 9 p), (Z.leb_spec p 11), (Z.eqb_spec p 8); simpl; lia.
    + change (Z.of_nat (length (lock_code DoRel))) with 9 in Hz.
      destruct (Z.leb_spec 3 p), (Z.leb_spec p 4); simpl; lia.
Qed.

Lemma lock_no_assert m t : ¬ assert_fails lock_code m t.
Proof.
  intros (th & o & os & x & b & Ht & Ho & Hz & Hb). apply zget_cases in Hz as (k & Hk & Hpc & Hz).
  destruct o; cbn [lock_code] in Hz; [rewrite acquire_flat in Hz|rewrite release_flat in Hz].
  - assert (k < 13)%nat as Hlt by (by apply lookup_lt_Some in Hz).
    destruct k as [|[|[|[|[|[|[|[|[|[|[|[|[|k]]]]]]]]]]]]]; [..|lia]; by injection Hz.
  - assert (k < 9)%nat as Hlt by (by apply lookup_lt_Some in Hz).
    destruct k as [|[|[|[|[|[|[|[|[|k]]]]]]]]]; [..|lia]; by injection Hz.
Qed.

Lemma lock_step m t : lock_inv m →
  match step lock_code t m with Moved m' => lock_inv m' | Stuck => True | Crash => False end.
Proof.
  intros Hi. pose proof (disc_step lock_code lock_checks m t (li_disc _ Hi)) as Hs.
  pose proof (lock_no_assert m t) as Hna.
  assert (keeps (step lock_code t m)) as Hk.
  { unfold step. destruct (threads m !! t) as [th|] eqn:Ht; [|done].
    destruct (ops th) as [|o os] eqn:Ho; [done|].
    destruct (zget (lock_code o) (pc th)) as [i|] eqn:Hz; [|by eapply lock_return].
    apply zget_cases in Hz as (k & _ & Hpc & Hz). destruct th as [ops0 p tgt ix r b].
    simpl in Ho, Hpc. subst. destruct o; [by apply lock_step_acquire|by apply lock_step_release]. }
  destruct (step lock_code t m); [by apply Hk|done|by apply Hna].
Qed.

Lemma lock_run sched m : lock_inv m → ∃ m', run lock_code sched m = Some m' ∧ lock_inv m'.
Proof.
  revert m. induction sched as [|t sched IH]; intros m Hi; simpl; [by eexists|].
  pose proof (lock_step m t Hi) as Hs. destruct (step lock_code t m); [by apply IH|by apply IH|done].
Qed.

Lemma lock_stuck_at m t th o os : disc m → threads m !! t = Some th → ops th = o :: os →
  step lock_code t m = Stuck →
  (o = DoAcq ∧ pc th = 8 ∧ ready th = false) ∨
  ∃ l h, spins m l = Some h ∧ h ≠ t ∧
    ((l = Spin 0 ∧ held (A th) = []) ∨ (l = WcLock 0 ∧ held (A th) = [Spin 0])).
Proof.
  intros Hd Ht Ho. unfold step. rewrite Ht, Ho.
  destruct (zget (lock_code o) (pc th)) as [i|] eqn:Hz; [|done].
  apply zget_cases in Hz as (k & Hk & Hpc & Hz).
  destruct th as [ops0 p tgt ix r b]. simpl in Ho, Hpc. subst ops0 p.
  assert (∀ l th', match spins m l with
    | None => Moved (put_thread t th' (set_spin l (Some t) m))
    | Some h => if decide (h = t) then Crash else Stuck end = Stuck →
    ∃ h, spins m l = Some h ∧ h ≠ t) as Hspin.
  { intros l th'. destruct (spins m l) as [h|]; [|done]. case_decide; [done|eauto]. }
  destruct o; cbn [lock_code] in Hz; [rewrite acquire_flat in Hz|rewrite release_flat in Hz].
  - assert (k < 13)%nat as Hlt by (by apply lookup_lt_Some in Hz).
    destruct k as [|[|[|[|[|[|[|[|[|[|[|[|[|k]]]]]]]]]]]]]; [..|lia]; injection Hz as <-; cbn [exec]; intros Hs;
      try (destruct b; done); try (by case_decide); try done;
      try (right; destruct (Hspin _ _ Hs) as (h & ? & ?); eexists _, h; split_and!; [done|done|];
           first [left; done|right; done]).
    left. by destruct r.
  - assert (k < 9)%nat as Hlt by (by apply lookup_lt_Some in Hz).
    destruct k as [|[|[|[|[|[|[|[|[|k]]]]]]]]]; [..|lia]; injection Hz as <-; cbn [exec]; intros Hs;
      try (by case_decide); try done; try (by destruct (wc_threads m 0));
      try (right; destruct (Hspin _ _ Hs) as (h & ? & ?); eexists _, h; split_and!; [done|done|];
           first [left; done|right; done]).
    cbn [target] in Hs. destruct tgt as [|x tgt]; [done|]. cbn [threads put_thread] in Hs.
    by destruct (_ !! x).
Qed.

Lemma lock_at_block th os : ops th = DoAcq :: os → pc th = 8 → A th = AState [] (Some 0%nat) TEmpty.
Proof. intros Ho Hp. unfold A. rewrite Ho, Hp. by vm_compute. Qed.

Lemma lock_all_stuck m : disc m → (∀ t, step lock_code t m = Stuck) →
  ∀ t th o os, threads m !! t = Some th → ops th = o :: os → o = DoAcq ∧ pc th = 8 ∧ ready th = false.
Proof.
  intros Hd Hst.
  assert (∀ l h, spins m l = Some h → ∃ h', spins m (WcLock 0) = Some h' ∧ l = Spin 0) as Hchain.
  { intros l h (thh & Hh & Hl)%(d_spin _ _ Hd). destruct (ops thh) as [|o os] eqn:Ho.
    - unfold A in Hl. rewrite Ho in Hl. by apply elem_of_nil in Hl.
    - destruct (lock_stuck_at m h thh o os Hd Hh Ho (Hst h))
        as [(-> & Hp & _)|(l' & h' & Hs & _ & [[-> E]|[-> E]])].
      + rewrite (lock_at_block thh os Ho Hp) in Hl. by apply elem_of_nil in Hl.
      + rewrite E in Hl. by apply elem_of_nil in Hl.
      + rewrite E in Hl. apply list_elem_of_singleton in Hl. eauto. }
  intros t th o os Ht Ho.
  destruct (lock_stuck_at m t th o os Hd Ht Ho (Hst t)) as [H|(l & h & Hs & _ & _)]; [done|].
  destruct (Hchain l h Hs) as (h' & Hs' & _). by destruct (Hchain _ h' Hs') as (? & _ & ?).
Qed.

(** When nothing moves, nobody is about to wake a sleeper up. *)
Lemma lock_stuck_sums m : disc m → (∀ t, step lock_code t m = Stuck) →
  taken m = [] ∧ sum_list_with eager (threads m) = 0%nat.
Proof.
  intros Hd Hst. assert (∀ t th, threads m !! t = Some th → target th = [] ∧ eager th = 0%nat) as H.
  { intros t th Ht. pose proof (d_target _ _ Hd t th Ht) as Htg. unfold target_ok in Htg.
    destruct (ops th) as [|o os] eqn:Ho.
    - unfold A in Htg. unfold eager. by rewrite Ho in Htg |- *.
    - destruct (lock_all_stuck m Hd Hst t th o os Ht Ho) as (-> & Hp & Hr).
      rewrite (lock_at_block th os Ho Hp) in Htg. split; [done|].
      unfold eager. by rewrite Ho, Hp, Hr. }
  split.
  - destruct (taken m) as [|x l] eqn:E; [done|]. exfalso. assert (x ∈ taken m) as Hx by (rewrite E; left).
    apply list_elem_of_bind in Hx as (th & Hx & Hin). apply list_elem_of_lookup in Hin as (t & Ht).
    destruct (H t th Ht) as [Ht0 _]. rewrite Ht0 in Hx. by apply elem_of_nil in Hx.
  - destruct (decide (sum_list_with eager (threads m) = 0%nat)) as [|Hne]; [done|].
    destruct (sum_pos eager (threads m)) as (t & th & Ht & Hp); [lia|].
    destruct (H t th Ht) as [_ E]. lia.
Qed.

Lemma lock_inv_init progs : Forall (alternates DoAcq) progs →
  lock_inv (init_machine (λ _, NULL) progs).
Proof.
  intros Hp. assert (∀ t th, threads (init_machine (λ _, NULL) progs) !! t = Some th →
    ∃ os, th = fresh_thread os ∧ alternates DoAcq os) as H.
  { intros t th Ht. simpl in Ht. apply list_lookup_fmap_Some in Ht as (os & -> & Hos). exists os.
    split; [done|]. by eapply (Forall_lookup_1 _ _ _ _ Hp). }
  constructor; [apply disc_init, lock_checks|..].
  - intros t th (os & -> & _)%H. unfold val_ok. cbn [ops pc fresh_thread]. by destruct os as [|[] ?].
  - intros t th (os & -> & Ha)%H. split; [done|]. cbn [ops fresh_thread]. by destruct os as [|[] ?].
  - intros t th (os & -> & Ha)%H. unfold in_cs. cbn [ops pc fresh_thread].
    change (vars (init_machine _ progs) 0) with NULL.
    rewrite (proj2 (Z.eqb_neq _ _)) by (unfold curthread, NULL; lia). by destruct os as [|[] ?].
  - done.
  - simpl. intros Hq. exfalso.
    assert (sum_list_with sleepy (fresh_thread <$> progs) = 0%nat); [|lia].
    clear. induction progs as [|[|[] ?] ? IH]; simpl; done.
Qed.

(** C20: locks exclude. Any number of threads that acquire and release a lock
    alternately, under any schedule: nothing crashes, and at any time at most
    one thread is between its acquire and its release, namely the one the
    lock's owner field names (so [lock_do_i_hold] is right in every thread). *)
Theorem lock_mutual_exclusion progs sched :
  Forall (alternates DoAcq) progs →
  ∃ m, run lock_code sched (init_machine (λ _, NULL) progs) = Some m ∧
    (∀ t th, threads m !! t = Some th → in_cs th = lock_do_i_hold lock0 t m) ∧
    (∀ t1 t2 th1 th2, threads m !! t1 = Some th1 → threads m !! t2 = Some th2 →
       in_cs th1 = true → in_cs th2 = true → t1 = t2).
Proof.
  intros Hp. destruct (lock_run sched _ (lock_inv_init progs Hp)) as (m & Hr & Hi).
  exists m. destruct Hi as [_ _ _ Hown _ _]. split_and!; [done|exact Hown|].
  intros t1 t2 th1 th2 H1 H2. rewrite (Hown _ _ H1), (Hown _ _ H2), !Z.eqb_eq.
  unfold curthread. lia.
Qed.

(** C21: locks do not deadlock and lose no wakeup: when no thread can move any
    more, every thread has returned from all its calls. *)
Theorem lock_deadlock_free progs sched m :
  Forall (alternates DoAcq) progs →
  run lock_code sched (init_machine (λ _, NULL) progs) = Some m →
  (∀ t, step lock_code t m = Stuck) → ∀ t th, threads m !! t = Some th → ops th = [].
Proof.
  intros Hp Hr Hst t th Ht. destruct (lock_run sched _ (lock_inv_init progs Hp)) as (m' & Hr' & Hi).
  simplify_eq. destruct Hi as [Hd _ _ Hown Hsome Hw].
  destruct (lock_stuck_sums m Hd Hst) as [Htk He]. rewrite He in Hw.
  destruct (ops th) as [|o os] eqn:Ho; [done|]. exfalso.
  destruct (lock_all_stuck m Hd Hst t th o os Ht Ho) as (-> & Hpc & Hrd).
  destruct (d_asleep _ _ Hd t th Ht Hrd) as [Hin|[w Hin]]; [rewrite Htk in Hin; by apply elem_of_nil in Hin|].
  destruct (d_queue _ _ Hd w t Hin) as (th' & Ht' & _ & He'). simplify_eq.
  rewrite (lock_at_block _ os Ho Hpc) in He'. simpl in He'. simplify_eq.
  assert (0 < length (wc_threads m 0))%nat
    by (destruct (wc_threads m 0); [by apply elem_of_nil in Hin|simpl; lia]).
  specialize (Hw ltac:(lia)). unfold avail in Hw.
  destruct (Z.eqb_spec (vars m 0) NULL) as [|Hne]; [lia|].
  destruct (Hsome Hne) as (t2 & th2 & Ht2 & E). pose proof (Hown t2 th2 Ht2) as Hcs.
  rewrite E, Z.eqb_refl in Hcs. unfold in_cs in Hcs. destruct (ops th2) as [|o2 os2] eqn:Ho2; [done|].
  destruct (lock_all_stuck m Hd Hst t2 th2 o2 os2 Ht2 Ho2) as (-> & Hp2 & _). by rewrite Hp2 in Hcs.
Qed.

Definition lock_progs : list (list lockop) := [[DoAcq; DoRel]; [DoAcq; DoRel; DoAcq; DoRel]].
(** Thread 0 takes the lock, thread 1 goes to sleep on it, thread 0 releases it,
    thread 1 goes on. *)
Definition lock_sched : list nat :=
  replicate 14 0%nat ++ replicate 20 1%nat ++ replicate 20 0%nat ++ replicate 80 1%nat.

Lemma lock_mutual_exclusion_witness :
  ∃ m, run lock_code lock_sched (init_machine (λ _, NULL) lock_progs) = Some m ∧
    (∀ t th, threads m !! t = Some th → in_cs th = lock_do_i_hold lock0 t m) ∧
    (∀ t1 t2 th1 th2, threads m !! t1 = Some th1 → threads m !! t2 = Some th2 →
       in_cs th1 = true → in_cs th2 = true → t1 = t2).
Proof. apply (lock_mutual_exclusion lock_progs lock_sched). by repeat constructor. Defined.

Definition lock_end : machine lockop :=
  default (init_machine (λ _, NULL) []) (run lock_code lock_sched (init_machine (λ _, NULL) lock_progs)).

Lemma lock_deadlock_free_witness :
  run lock_code lock_sched (init_machine (λ _, NULL) lock_progs) = Some lock_end ∧
  ∀ t th, threads lock_end !! t = Some th → ops th = [].
Proof.
  split; [by vm_compute|]. apply (lock_deadlock_free lock_progs lock_sched lock_end).
  - by repeat constructor.
  - by vm_compute.
  - intros t. do 2 (destruct t as [|t]; [by vm_compute|]). by vm_compute.
Defined.
