(* ===== verification/SynchCv.v ===== *)
(** Condition variables: [cv_wait] can miss a signal. *)

From stdpp Require Import base tactics numbers list.
From S2P Require Import Prelude Synch SynchDisc.
Local Open Scope Z_scope.

Definition cv_lock : lock := Lock 0 0 0.
Definition cv0 : cv := Cv 1 1.

(** [Wait] is the usual call: with the lock held, wait and go on. *)
Inductive cvop := CAcquire | CRelease | CWait | CSignal | CBroadcast.
Definition cv_code (o : cvop) : list instr :=
  match o with
  | CAcquire => lock_acquire cv_lock
  | CRelease => lock_release cv_lock
  | CWait => cv_wait cv0 cv_lock
  | CSignal => cv_signal cv0 cv_lock
  | CBroadcast => cv_broadcast cv0 cv_lock
  end.

Definition cv_progs (wake : cvop) : list (list cvop) :=
  [[CAcquire; CWait; CRelease]; [CAcquire; wake; CRelease]].

(** Thread 0 takes the lock and runs [cv_wait] up to the return from
    [lock_release]; then thread 1 takes the lock, wakes up and releases the
    lock; then thread 0 goes on. *)
Definition cv_sched : list nat := replicate 15 0%nat ++ replicate 60 1%nat ++ replicate 60 0%nat.

(** A wakeup is lost. A thread waits on a condition variable with the lock
    held; another thread then takes that lock, signals (or broadcasts) and
    releases it, all of it correctly. There is a schedule on which the signal
    comes between the release of the lock and the locking of the wait channel
    in [cv_wait]: the waiting thread then sleeps for ever although it had
    released the lock before the signal was sent. *)
Theorem cv_wait_misses_signal wake : wake = CSignal ∨ wake = CBroadcast →
  ∃ m th, run cv_code cv_sched (init_machine (λ _, NULL) (cv_progs wake)) = Some m ∧
    (∀ t, step cv_code t m = Stuck) ∧
    threads m !! 1%nat = Some (Thread [] 0 [] 0 true false) ∧
    threads m !! 0%nat = Some th ∧ head (ops th) = Some CWait ∧ ready th = false ∧
    wc_threads m (cv_wchan cv0) = [0%nat] ∧ vars m (owner_thread cv_lock) = NULL.
Proof.
  intros [-> | ->]; eexists _, _; (split; [by vm_compute|]);
    (split; [intros t; do 2 (destruct t as [|t]; [by vm_compute|]); by vm_compute|]);
    split_and!; by vm_compute.
Qed.

Lemma cv_wait_misses_signal_witness :
  ∃ m th, run cv_code cv_sched (init_machine (λ _, NULL) (cv_progs CSignal)) = Some m ∧
    (∀ t, step cv_code t m = Stuck) ∧
    threads m !! 1%nat = Some (Thread [] 0 [] 0 true false) ∧
    threads m !! 0%nat = Some th ∧ head (ops th) = Some CWait ∧ ready th = false ∧
    wc_threads m (cv_wchan cv0) = [0%nat] ∧ vars m (owner_thread cv_lock) = NULL.
Proof. apply (cv_wait_misses_signal CSignal). by left. Defined.
