(* ===== verification/SynchRw.v ===== *)
(** Reader-writer locks are correct: any number of threads that acquire and
    release one for reading or for writing, under any interleaving of the
    instructions of the locks and the semaphore it is made of. *)

From stdpp Require Import base tactics numbers sets list.
From S2P Require Import Prelude Synch SynchDisc.
Local Open Scope Z_scope.

Definition rw0 : rwlock := Rwlock (Lock 0 0 0) (Lock 1 1 1) (Semaphore 2 2 2) 30.
Inductive rwop := RAcq | RRel | WAcq | WRel.
Definition rw_code (o : rwop) : list instr :=
  match o with
  | RAcq => rwlock_acquire_read rw0
  | RRel => rwlock_release_read rw0
  | WAcq => rwlock_acquire_write rw0
  | WRel => rwlock_release_write rw0
  end.

Lemma rw_checks o : check_code (rw_code o) = true.
Proof. by destruct o; vm_compute. Qed.

(** Acquires and releases alternate; [pend] is the release that is due. *)
Fixpoint rw_alternates (pend : option rwop) (l : list rwop) : Prop :=
  match pend, l with
  | None, [] => True
  | None, RAcq :: l => rw_alternates (Some RRel) l
  | None, WAcq :: l => rw_alternates (Some WRel) l
  | Some RRel, RRel :: l => rw_alternates None l
  | Some WRel, WRel :: l => rw_alternates None l
  | _, _ => False
  end.

(** How many of the units of [sem_resource] a thread has: [a * i + b], where [i]
    is its loop counter. *)
Definition units_at (o : rwop) (p : Z) : Z * Z :=
  match o with
  | RAcq => (0, if p <? 26 then 0 else 1)
  | RRel => (0, if p <? 2 then 1 else 0)
  | WAcq => if p <? 14 then (0, 0) else if p <? 28 then (1, 0) else if p <? 30 then (1, 1) else (0, 30)
  | WRel => if p <? 1 then (0, 30) else if p <? 4 then (-1, 30) else if p <? 12 then (-1, 29) else (0, 0)
  end.
Definition units (th : thread rwop) : Z :=
  match ops th with
  | [] => 0
  | o :: _ => (units_at o (pc th)).1 * idx th + (units_at o (pc th)).2
  end.

(** What a thread knows: its loop counter is in range, and it has looked at the
    count while holding the semaphore's spinlock. *)
Definition idx_ok (th : thread rwop) : Prop :=
  match ops th with
  | WAcq :: _ => (14 ≤ pc th < 30 → 0 ≤ idx th ≤ 30) ∧ (15 ≤ pc th < 30 → idx th < 30)
  | WRel :: _ => (1 ≤ pc th < 12 → 0 ≤ idx th ≤ 30) ∧ (2 ≤ pc th < 12 → idx th < 30)
  | _ => True
  end.
Definition count_ok (th : thread rwop) (v : Z) : Prop :=
  match ops th with
  | RAcq :: _ => pc th = 24 ∨ pc th = 25 → 0 < v
  | RRel :: _ => pc th = 2 → 0 < v
  | WAcq :: _ => pc th = 26 ∨ pc th = 27 → 0 < v
  | WRel :: _ => pc th = 4 → 0 < v
  | [] => True
  end.
Definition rw_ops_ok (th : thread rwop) : Prop :=
  0 ≤ pc th ∧
  match ops th with
  | [] => True
  | RAcq :: l => rw_alternates (Some RRel) l
  | WAcq :: l => rw_alternates (Some WRel) l
  | _ :: l => rw_alternates None l
  end.

Definition zsum {A} (f : A → Z) (l : list A) : Z := foldr (λ x a, f x + a) 0 l.

Lemma zsum_app {A} (f : A → Z) l1 l2 : zsum f (l1 ++ l2) = zsum f l1 + zsum f l2.
Proof. induction l1 as [|x l1 IH]; simpl; [done|]. rewrite IH. lia. Qed.
Lemma zsum_insert {A} (f : A → Z) l i x y : l !! i = Some x →
  zsum f (<[i := y]> l) = zsum f l - f x + f y.
Proof.
  intros (l1 & l2 & -> & ->)%list_elem_of_split_length. rewrite insert_mid, !zsum_app. simpl. lia.
Qed.

Local Notation disc := (disc rw_code).
Local Notation A := (A rw_code).

Record rw_inv (m : machine rwop) : Prop := {
  rw_disc : disc m;
  rw_ops : ∀ t th, threads m !! t = Some th → rw_ops_ok th;
  rw_idx : ∀ t th, threads m !! t = Some th → idx_ok th;
  rw_count : ∀ t th, threads m !! t = Some th → count_ok th (vars m 2);
  rw_nonneg : 0 ≤ vars m 2;
  rw_sum : vars m 2 + zsum units (threads m) = 30;
}.

Lemma units_range th : rw_ops_ok th → idx_ok th → 0 ≤ units th ≤ 30.
Proof.
  unfold rw_ops_ok, idx_ok, units. destruct (ops th) as [|[] l]; [lia|..]; intros [H0 _] Hi; simpl.
  - destruct (_ <? _); simpl; lia.
  - destruct (_ <? _); simpl; lia.
  - destruct (Z.ltb_spec (pc th) 14); [simpl; lia|]. destruct (Z.ltb_spec (pc th) 28); [simpl; lia|].
    destruct (Z.ltb_spec (pc th) 30); simpl; lia.
  - destruct (Z.ltb_spec (pc th) 1); [simpl; lia|]. destruct (Z.ltb_spec (pc th) 4); [simpl; lia|].
    destruct (Z.ltb_spec (pc th) 12); simpl; lia.
Qed.

Lemma count_ok_free th v : Spin 2 ∉ held (A th) → count_ok th v.
Proof.
  destruct th as [[|[] os] p tgt ix r b]; unfold count_ok; simpl; intros H; [done|..].
  - intros [-> | ->]; exfalso; apply H; refine (bool_decide_unpack _ _); by vm_compute.
  - intros ->; exfalso; apply H; refine (bool_decide_unpack _ _); by vm_compute.
  - intros [-> | ->]; exfalso; apply H; refine (bool_decide_unpack _ _); by vm_compute.
  - intros ->; exfalso; apply H; refine (bool_decide_unpack _ _); by vm_compute.
Qed.

Lemma rw_inv_upd m t th th' m' :
  rw_inv m → threads m !! t = Some th → disc m' → threads m' = <[t := th']> (threads m) →
  vars m' 2 = vars m 2 ∨ Spin 2 ∈ held (A th) →
  rw_ops_ok th' → idx_ok th' → count_ok th' (vars m' 2) → 0 ≤ vars m' 2 →
  vars m' 2 + units th' = vars m 2 + units th → rw_inv m'.
Proof.
  intros [Hd Ho Hi Hc Hn Hsum] Ht Hd' Hth Hlk Ho' Hi' Hc' Hn' Hu.
  constructor; [done|..|done|rewrite Hth, (zsum_insert _ _ _ _ _ Ht); lia];
    intros t' th0; rewrite Hth; intros [(<- & <- & _)|[Hne H]]%list_lookup_insert_Some; try done;
    [by eapply Ho|by eapply Hi|].
  destruct Hlk as [->|Hl]; [by eapply Hc|]. apply count_ok_free.
  by apply (other_free rw_code m t t' th).
Qed.

Definition keeps (o : outcome rwop) : Prop :=
  match o with Moved m' => disc m' → rw_inv m' | _ => True end.

(** Waking another thread up changes none of what is counted. *)
Lemma rw_wake m t th h w m' :
  rw_inv m → threads m !! t = Some th →
  <[t := set_target w (next th)]> (threads m) !! h = Some m'.2 → disc m'.1 →
  m'.1 = put_thread h (set_ready true m'.2) (put_thread t (set_target w (next th)) m) →
  rw_ops_ok (next th) → idx_ok (next th) → count_ok (next th) (vars m 2) →
  units (next th) = units th → rw_inv m'.1.
Proof.
  destruct m' as [m' thh]. simpl. intros Hi Ht Hh Hd' -> Ho Hx Hc Hu.
  destruct Hi as [Hd Ho0 Hi0 Hc0 Hn Hsum].
  assert (∀ t' th0, <[t := set_target w (next th)]> (threads m) !! t' = Some th0 →
    rw_ops_ok th0 ∧ idx_ok th0 ∧ count_ok th0 (vars m 2)) as Hall.
  { intros t' th0 [(<- & <- & _)|[Hne H]]%list_lookup_insert_Some; [done|].
    split_and!; [by eapply Ho0|by eapply Hi0|by eapply Hc0]. }
  constructor; cbn [put_thread threads vars]; [done|..].
  - intros t' th0 [(<- & <- & _)|[Hne H]]%list_lookup_insert_Some; [by apply (Hall h thh)|by eapply Hall].
  - intros t' th0 [(<- & <- & _)|[Hne H]]%list_lookup_insert_Some; [by apply (Hall h thh)|by eapply Hall].
  - intros t' th0 [(<- & <- & _)|[Hne H]]%list_lookup_insert_Some; [by apply (Hall h thh)|by eapply Hall].
  - done.
  - rewrite (zsum_insert _ _ _ _ _ Hh), (zsum_insert _ _ _ _ _ Ht).
    change (units (set_ready true thh)) with (units thh).
    change (units (set_target w (next th))) with (units (next th)). lia.
Qed.

(** The four functions, flattened. *)
Lemma RAcq_flat : rw_code RAcq =
  [JumpIf 0 (λ t v, v =? curthread t) 13; SpinAcq (Spin 0);
   JumpIf 0 (λ _ v, negb (negb (v =? NULL))) 9; SpinAcq (WcLock 0); SpinRel (Spin 0);
   AssertNoIntr; Enqueue 0; SpinRel (WcLock 0); Block; SpinAcq (Spin 0); Jump (-8);
   Assign 0 (λ t _, curthread t); SpinRel (Spin 0); AssertNoIntr; SpinAcq (Spin 2);
   JumpIf 2 (λ _ v, negb (v =? 0)) 9; SpinAcq (WcLock 2); SpinRel (Spin 2); AssertNoIntr;
   Enqueue 2; SpinRel (WcLock 2); Block; SpinAcq (Spin 2); Jump (-8); Assert 2 (λ v, 0 <? v);
   Assign 2 (λ _ v, s32 (v - 1)); SpinRel (Spin 2); JumpIf 0 (λ t v, negb (v =? curthread t)) 9;
   SpinAcq (Spin 0); Assign 0 (λ _ _, NULL); SpinAcq (WcLock 0); Dequeue 0; SpinRel (WcLock 0);
   JumpNoTarget 2; WakeNext; SpinRel (Spin 0)].
Proof. reflexivity. Qed.
Lemma RRel_flat : rw_code RRel =
  [SpinAcq (Spin 2); Assign 2 (λ _ v, s32 (v + 1)); Assert 2 (λ v, 0 <? v); SpinAcq (WcLock 2);
   Dequeue 2; SpinRel (WcLock 2); JumpNoTarget 2; WakeNext; SpinRel (Spin 2)].
Proof. reflexivity. Qed.
Lemma WAcq_flat : rw_code WAcq =
  [JumpIf 1 (λ t v, v =? curthread t) 13; SpinAcq (Spin 1);
   JumpIf 1 (λ _ v, negb (negb (v =? NULL))) 9; SpinAcq (WcLock 1); SpinRel (Spin 1);
   AssertNoIntr; Enqueue 1; SpinRel (WcLock 1); Block; SpinAcq (Spin 1); Jump (-8);
   Assign 1 (λ t _, curthread t); SpinRel (Spin 1); ForInit; ForTest 30 16; AssertNoIntr;
   SpinAcq (Spin 2); JumpIf 2 (λ _ v, negb (v =? 0)) 9; SpinAcq (WcLock 2); SpinRel (Spin 2);
   AssertNoIntr; Enqueue 2; SpinRel (WcLock 2); Block; SpinAcq (Spin 2); Jump (-8);
   Assert 2 (λ v, 0 <? v); Assign 2 (λ _ v, s32 (v - 1)); SpinRel (Spin 2); ForNext (-15);
   JumpIf 1 (λ t v, negb (v =? curthread t)) 9; SpinAcq (Spin 1); Assign 1 (λ _ _, NULL);
   SpinAcq (WcLock 1); Dequeue 1; SpinRel (WcLock 1); JumpNoTarget 2; WakeNext; SpinRel (Spin 1)].
Proof. reflexivity. Qed.
Lemma WRel_flat : rw_code WRel =
  [ForInit; ForTest 30 11; SpinAcq (Spin 2); Assign 2 (λ _ v, s32 (v + 1));
   Assert 2 (λ v, 0 <? v); SpinAcq (WcLock 2); Dequeue 2; SpinRel (WcLock 2); JumpNoTarget 2;
   WakeNext; SpinRel (Spin 2); ForNext (-10)].
Proof. reflexivity. Qed.

Lemma zsum_nonneg {A} (f : A → Z) l : (∀ i x, l !! i = Some x → 0 ≤ f x) → 0 ≤ zsum f l.
Proof.
  induction l as [|x l IH]; simpl; [lia|]. intros H. pose proof (H 0%nat x eq_refl).
  assert (0 ≤ zsum f l); [|lia]. apply IH. intros i y Hy. by apply (H (S i)).
Qed.

Lemma rw_bound m t th : rw_inv m → threads m !! t = Some th → vars m 2 + units th ≤ 30.
Proof.
  intros [Hd Ho Hx Hc Hn Hsum] Ht.
  apply list_elem_of_split_length in Ht as Hs. destruct Hs as (l1 & l2 & El & Elen).
  rewrite El, zsum_app in Hsum. simpl in Hsum.
  assert (0 ≤ zsum units l1).
  { apply zsum_nonneg. intros i x Hi. assert (threads m !! i = Some x) as H
      by (rewrite El; by apply lookup_app_l_Some). by apply units_range; [eapply Ho|eapply Hx]. }
  assert (0 ≤ zsum units l2).
  { apply zsum_nonneg. intros i x Hi. assert (threads m !! (length l1 + S i)%nat = Some x) as Hl.
    { rewrite El, lookup_app_r by lia. by replace (length l1 + S i - length l1)%nat with (S i) by lia. }
    by apply units_range; [eapply Ho|eapply Hx]. }
  lia.
Qed.

(** Comparisons of program points are computed. *)
Ltac rw_points :=
  repeat match goal with
  | |- context [?a <? ?b] =>
      let v := eval vm_compute in (a <? b) in
      lazymatch v with true => idtac | false => idtac end; change (a <? b) with v
  end.
Ltac rw_units := unfold units; cbn; rw_points; cbn; lia.
Ltac rw_arith := first [done | cbn; done | cbn; zbool; lia | cbn; split; lia | zbool; rw_units].
Ltac rw_finish Hi Ht Ho := intros Hs; eapply (rw_inv_upd _ _ _ _ _ Hi Ht Hs);
  [done|by left|split; [cbn; lia|apply Ho]|rw_arith|rw_arith|done|rw_arith].
(** One instruction of a function whose flattened form is [F]. *)
Ltac rw_instr F Hi Ht Ho Hx Hc Hz :=
  rewrite F in Hz; injection Hz as <-; lazy [Z.of_nat Pos.of_succ_nat Pos.succ] in *;
  cbn in Hx, Hc; cbn [exec];
  lazymatch goal with
  | |- keeps (match spins ?m ?l with _ => _ end) =>
      destruct (spins m l); [by case_decide|]; cbn [keeps]; rw_finish Hi Ht Ho
  | |- keeps (match wc_threads ?m ?w with _ => _ end) =>
      destruct (wc_threads m w); cbn [keeps]; rw_finish Hi Ht Ho
  | |- keeps (match target (Thread _ _ ?tgt _ _ _) with _ => _ end) =>
      let h := fresh "h" in let q := fresh "q" in let E := fresh "E" in
      destruct tgt as [|h q]; cbn [target]; [done|]; cbn [put_thread threads];
      destruct (_ !! h) as [thh|] eqn:E; [|done]; cbn [keeps]; intros Hs;
      eapply (rw_wake _ _ _ h q (_, thh) Hi Ht E Hs);
      [done|split; [cbn; lia|apply Ho]|rw_arith|rw_arith|rw_arith]
  | |- keeps (if decide (spins _ _ = _) then _ else _) =>
      case_decide; [|done]; cbn [keeps]; rw_finish Hi Ht Ho
  | |- keeps (if _ then _ else _) =>
      let E := fresh "E" in
      match goal with |- keeps (if ?b then _ else _) => destruct b eqn:E end;
      try done; cbn [keeps]; rw_finish Hi Ht Ho
  | |- keeps (Moved (put_thread _ (if decide ?b then _ else _) _)) =>
      destruct (decide b); cbn [keeps]; rw_finish Hi Ht Ho
  | |- keeps (Moved (put_thread _ (if ?b then _ else _) _)) =>
      let E := fresh "E" in
      destruct b eqn:E; cbn [keeps idx] in *; rw_finish Hi Ht Ho
  | |- _ => cbn [keeps]; rw_finish Hi Ht Ho
  end.

(** The two places where the count changes hands. *)
Lemma rw_take m t th :
  rw_inv m → threads m !! t = Some th → Spin 2 ∈ held (A th) → 0 < vars m 2 →
  rw_ops_ok (next th) → idx_ok (next th) → (∀ v, count_ok (next th) v) →
  units (next th) = units th + 1 →
  keeps (exec t th (Assign 2 (λ _ v, s32 (v - 1))) m).
Proof.
  intros Hi Ht Hl Hpos Ho Hx Hc Hu. cbn [exec keeps]. intros Hs.
  pose proof (rw_bound m t th Hi Ht) as Hb.
  assert (0 ≤ units th ≤ 30) by (destruct Hi; apply units_range; eauto).
  assert (s32 (vars m 2 - 1) = vars m 2 - 1) as E by (apply s32_id; lia).
  set (m' := put_thread _ _ _) in *. assert (vars m' 2 = vars m 2 - 1) as Ev by exact E.
  apply (rw_inv_upd m t th (next th) m' Hi Ht Hs); [done|by right|done|done|done|lia|lia].
Qed.

Lemma rw_give m t th :
  rw_inv m → threads m !! t = Some th → Spin 2 ∈ held (A th) →
  rw_ops_ok (next th) → idx_ok (next th) → (∀ v, 0 < v → count_ok (next th) v) →
  0 ≤ units (next th) → units th = units (next th) + 1 →
  keeps (exec t th (Assign 2 (λ _ v, s32 (v + 1))) m).
Proof.
  intros Hi Ht Hl Ho Hx Hc Hnn Hu. cbn [exec keeps]. intros Hs.
  pose proof (rw_bound m t th Hi Ht) as Hb. pose proof (rw_nonneg _ Hi) as Hv.
  assert (s32 (vars m 2 + 1) = vars m 2 + 1) as E by (apply s32_id; lia).
  set (m' := put_thread _ _ _) in *. assert (vars m' 2 = vars m 2 + 1) as Ev by exact E.
  apply (rw_inv_upd m t th (next th) m' Hi Ht Hs); [done|by right|done|done|apply Hc; lia|lia|lia].
Qed.

Ltac rw_assign F Hz L Hi Ht Hot := rewrite F in Hz; injection Hz as <-;
  lazy [Z.of_nat Pos.of_succ_nat Pos.succ] in *; apply L; [exact Hi|exact Ht|
  refine (bool_decide_unpack _ _); by vm_compute|..].

Lemma rw_step_at m t o os k tgt ix r b i :
  rw_inv m → threads m !! t = Some (Thread (o :: os) (Z.of_nat k) tgt ix r b) →
  rw_code o !! k = Some i →
  keeps (exec t (Thread (o :: os) (Z.of_nat k) tgt ix r b) i m).
Proof.
  intros Hi Ht Hz. pose proof Hi as [Hd Ho Hx Hc Hn Hsum].
  pose proof (Ho t _ Ht) as Hot. pose proof (Hx t _ Ht) as Hxt. pose proof (Hc t _ Ht) as Hct.
  clear Ho Hx Hc. destruct o.
  - do 25 (destruct k as [|k]; [rw_instr RAcq_flat Hi Ht Hot Hxt Hct Hz|]).
    destruct k as [|k].
    { rw_assign RAcq_flat Hz (rw_take m t) Hi Ht Hot; [apply Hct; by right|split; [cbn; lia|apply Hot]|done|
        intros v; cbn; lia|rw_units]. }
    do 10 (destruct k as [|k]; [rw_instr RAcq_flat Hi Ht Hot Hxt Hct Hz|]).
    by rewrite RAcq_flat in Hz.
  - destruct k as [|k]; [rw_instr RRel_flat Hi Ht Hot Hxt Hct Hz|].
    destruct k as [|k].
    { rw_assign RRel_flat Hz (rw_give m t) Hi Ht Hot; [split; [cbn; lia|apply Hot]|done|
        intros v; cbn; lia|rw_units|rw_units]. }
    do 7 (destruct k as [|k]; [rw_instr RRel_flat Hi Ht Hot Hxt Hct Hz|]).
    by rewrite RRel_flat in Hz.
  - do 27 (destruct k as [|k]; [rw_instr WAcq_flat Hi Ht Hot Hxt Hct Hz|]).
    destruct k as [|k].
    { rw_assign WAcq_flat Hz (rw_take m t) Hi Ht Hot; [apply Hct; by right|split; [cbn; lia|apply Hot]|
        cbn in Hxt |- *; lia|intros v; cbn; lia|rw_units]. }
    do 11 (destruct k as [|k]; [rw_instr WAcq_flat Hi Ht Hot Hxt Hct Hz|]).
    by rewrite WAcq_flat in Hz.
  - do 3 (destruct k as [|k]; [rw_instr WRel_flat Hi Ht Hot Hxt Hct Hz|]).
    destruct k as [|k].
    { rw_assign WRel_flat Hz (rw_give m t) Hi Ht Hot; [split; [cbn; lia|apply Hot]|
        cbn in Hxt |- *; lia|intros v; cbn; lia|cbn in Hxt; rw_units|rw_units]. }
    do 8 (destruct k as [|k]; [rw_instr WRel_flat Hi Ht Hot Hxt Hct Hz|]).
    by rewrite WRel_flat in Hz.
Qed.

Lemma rw_return m t th o os :
  rw_inv m → threads m !! t = Some th → ops th = o :: os → zget (rw_code o) (pc th) = None →
  keeps (Moved (put_thread t (Thread os 0 (target th) (idx th) (ready th) (t_in_interrupt th)) m)).
Proof.
  intros Hi Ht Ho Hz. pose proof Hi as [Hd Hop Hx Hc Hn Hsum]. destruct (Hop t th Ht) as [H0 Halt].
  rewrite Ho in Halt. cbn [keeps]. intros Hs. apply zget_None in Hz.
  destruct th as [ops0 p tgt ix r b]. simpl in Ho, Hz, H0. subst ops0.
  eapply (rw_inv_upd _ _ _ _ _ Hi Ht Hs); [done|by left|..]; cbn [target idx ready t_in_interrupt].
  - split; [done|]. cbn [ops]. by destruct o, os as [|[] ?].
  - unfold idx_ok. cbn [ops pc]. destruct os as [|[] ?]; try done; lia.
  - unfold count_ok. cbn [ops pc]. destruct os as [|[] ?]; try done; lia.
  - done.
  - cbn [put_thread vars]. f_equal. unfold units. cbn [ops pc idx]. destruct o.
    + change (Z.of_nat (length (rw_code RAcq))) with 36 in Hz. simpl units_at at 3 4.
      rewrite (proj2 (Z.ltb_ge p 26)) by lia. destruct os as [|[] ?]; done.
    + change (Z.of_nat (length (rw_code RRel))) with 9 in Hz. simpl units_at at 3 4.
      rewrite (proj2 (Z.ltb_ge p 2)) by lia. destruct os as [|[] ?]; done.
    + change (Z.of_nat (length (rw_code WAcq))) with 39 in Hz. simpl units_at at 3 4.
      rewrite !(proj2 (Z.ltb_ge p _)) by lia. destruct os as [|[] ?]; done.
    + change (Z.of_nat (length (rw_code WRel))) with 12 in Hz. simpl units_at at 3 4.
      rewrite !(proj2 (Z.ltb_ge p _)) by lia. destruct os as [|[] ?]; done.
Qed.

Lemma rw_no_assert m t : rw_inv m → ¬ assert_fails rw_code m t.
Proof.
  intros [_ _ _ Hc _ _] (th & o & os & x & b & Ht & Ho & Hz & Hb). specialize (Hc t th Ht).
  unfold count_ok in Hc. rewrite Ho in Hc. apply zget_cases in Hz as (k & Hk & Hpc & Hz).
  rewrite Hpc in Hc. destruct o;
    [rewrite RAcq_flat in Hz|rewrite RRel_flat in Hz|rewrite WAcq_flat in Hz|rewrite WRel_flat in Hz];
    repeat (destruct k as [|k]; [first [by injection Hz|injection Hz as <- <-;
      rewrite (proj2 (Z.ltb_lt _ _)) in Hb; [done|apply Hc; lia]]|]); done.
Qed.

Lemma rw_step m t : rw_inv m →
  match step rw_code t m with Moved m' => rw_inv m' | Stuck => True | Crash => False end.
Proof.
  intros Hi. pose proof (disc_step rw_code rw_checks m t (rw_disc _ Hi)) as Hs.
  pose proof (rw_no_assert m t Hi) as Hna.
  assert (keeps (step rw_code t m)) as Hk.
  { unfold step. destruct (threads m !! t) as [th|] eqn:Ht; [|done].
    destruct (ops th) as [|o os] eqn:Ho; [done|].
    destruct (zget (rw_code o) (pc th)) as [i|] eqn:Hz; [|by eapply rw_return].
    apply zget_cases in Hz as (k & _ & Hpc & Hz). destruct th as [ops0 p tgt ix r b].
    simpl in Ho, Hpc. subst. by apply rw_step_at. }
  destruct (step rw_code t m); [by apply Hk|done|by apply Hna].
Qed.

Lemma rw_run sched m : rw_inv m → ∃ m', run rw_code sched m = Some m' ∧ rw_inv m'.
Proof.
  revert m. induction sched as [|t sched IH]; intros m Hi; simpl; [by eexists|].
  pose proof (rw_step m t Hi) as Hs. destruct (step rw_code t m); [by apply IH|by apply IH|done].
Qed.

(** The count starts at [max_readers], the owners of the two locks at NULL. *)
Definition rw_vars (x : nat) : Z := if decide (x = 2%nat) then 30 else NULL.

Lemma rw_inv_init progs : Forall (rw_alternates None) progs → rw_inv (init_machine rw_vars progs).
Proof.
  intros Hp. assert (∀ t th, threads (init_machine rw_vars progs) !! t = Some th →
    ∃ os, th = fresh_thread os ∧ rw_alternates None os) as H.
  { intros t th Ht. simpl in Ht. apply list_lookup_fmap_Some in Ht as (os & -> & Hos). exists os.
    split; [done|]. by eapply (Forall_lookup_1 _ _ _ _ Hp). }
  constructor; [apply disc_init, rw_checks|..].
  - intros t th (os & -> & Ha)%H. split; [done|]. cbn [ops fresh_thread]. by destruct os as [|[] ?].
  - intros t th (os & -> & Ha)%H. unfold idx_ok. cbn [ops pc fresh_thread].
    destruct os as [|[] ?]; try done; lia.
  - intros t th (os & -> & Ha)%H. unfold count_ok. cbn [ops pc fresh_thread].
    destruct os as [|[] ?]; try done; lia.
  - done.
  - change (vars (init_machine rw_vars progs) 2) with 30.
    assert (zsum units (threads (init_machine rw_vars progs)) = 0) as ->; [|done].
    cbn [threads init_machine]. clear H. induction Hp as [|os progs Ha _ IH]; [done|].
    rewrite fmap_cons. change (units (fresh_thread os) + zsum units (fresh_thread <$> progs) = 0).
    rewrite IH. by destruct os as [|[] ?].
Qed.

(** Between the return of the acquire and the call of the release. *)
Definition reading (th : thread rwop) : Prop := head (ops th) = Some RRel ∧ pc th = 0.
Definition writing (th : thread rwop) : Prop := head (ops th) = Some WRel ∧ pc th = 0.
#[export] Instance rwop_eq_dec : EqDecision rwop.
Proof. solve_decision. Defined.
#[export] Instance reading_dec th : Decision (reading th).
Proof. unfold reading. apply _. Defined.

Lemma units_reading th : reading th → units th = 1.
Proof. intros [Ho Hp]. unfold units. destruct (ops th) as [|[] ?]; simplify_eq/=. by rewrite Hp. Qed.
Lemma units_writing th : writing th → units th = 30.
Proof. intros [Ho Hp]. unfold units. destruct (ops th) as [|[] ?]; simplify_eq/=. by rewrite Hp. Qed.

Lemma zsum_two {A} (f : A → Z) l i j x y : (∀ i x, l !! i = Some x → 0 ≤ f x) →
  l !! i = Some x → l !! j = Some y → i ≠ j → f x + f y ≤ zsum f l.
Proof.
  revert i j. induction l as [|z l IH]; intros i j Hf Hi Hj Hne; [done|].
  pose proof (Hf 0%nat z eq_refl) as Hz. assert (∀ i x, l !! i = Some x → 0 ≤ f x) as Hl
    by (intros k w Hk; by apply (Hf (S k))).
  assert (∀ k w, l !! k = Some w → f w ≤ zsum f l) as Hge.
  { clear -Hl. induction l as [|u l IH]; [done|]. intros [|k] w Hk; simplify_eq/=.
    - pose proof (zsum_nonneg f l) as H. specialize (H ltac:(intros k v Hv; by apply (Hl (S k)))). lia.
    - pose proof (Hl 0%nat u eq_refl). specialize (IH ltac:(intros i v Hv; by apply (Hl (S i))) k w Hk). lia. }
  destruct i as [|i], j as [|j]; simplify_eq/=.
  - specialize (Hge _ _ Hj). lia.
  - specialize (Hge _ _ Hi). lia.
  - specialize (IH i j Hl Hi Hj ltac:(congruence)). lia.
Qed.

Lemma readers_le l : (∀ i x, l !! i = Some x → 0 ≤ units x) →
  Z.of_nat (length (filter reading l)) ≤ zsum units l.
Proof.
  induction l as [|x l IH]; intros Hl; [done|]. rewrite filter_cons. simpl.
  pose proof (Hl 0%nat x eq_refl). specialize (IH ltac:(intros i v Hv; by apply (Hl (S i)))).
  case_decide as Hr; [|lia]. rewrite (units_reading _ Hr). simpl length. lia.
Qed.

(** C34: reader-writer locks exclude. Any number of threads that acquire and
    release the lock for reading or writing, under any schedule: nothing
    crashes, at most [max_readers] threads read at a time, and while a thread
    writes no other thread reads or writes. *)
Theorem rwlock_exclusion progs sched :
  Forall (rw_alternates None) progs →
  ∃ m, run rw_code sched (init_machine rw_vars progs) = Some m ∧
    Z.of_nat (length (filter reading (threads m))) ≤ max_readers rw0 ∧
    (∀ t1 t2 th1 th2, threads m !! t1 = Some th1 → threads m !! t2 = Some th2 →
       writing th1 → reading th2 ∨ writing th2 → t1 = t2).
Proof.
  intros Hp. destruct (rw_run sched _ (rw_inv_init progs Hp)) as (m & Hr & Hi). exists m.
  destruct Hi as [_ Ho Hx _ Hn Hsum].
  assert (∀ i x, threads m !! i = Some x → 0 ≤ units x) as Hnn
    by (intros i x Hx'; apply units_range; eauto).
  split_and!; [done| |].
  - pose proof (readers_le _ Hnn). simpl. lia.
  - intros t1 t2 th1 th2 H1 H2 Hw Hrw. destruct (decide (t1 = t2)) as [|Hne]; [done|]. exfalso.
    pose proof (zsum_two units _ _ _ _ _ Hnn H1 H2 Hne) as Hz. rewrite (units_writing _ Hw) in Hz.
    destruct Hrw as [Hr2|Hw2]; [rewrite (units_reading _ Hr2) in Hz|rewrite (units_writing _ Hw2) in Hz]; lia.
Qed.

Definition rw_progs : list (list rwop) := [[RAcq; RRel]; [WAcq; WRel]].
Definition rw_sched : list nat := replicate 40 0%nat ++ replicate 500 1%nat.

Lemma rwlock_exclusion_witness :
  ∃ m, run rw_code rw_sched (init_machine rw_vars rw_progs) = Some m ∧
    Z.of_nat (length (filter reading (threads m))) ≤ 30 ∧
    (∀ t1 t2 th1 th2, threads m !! t1 = Some th1 → threads m !! t2 = Some th2 →
       writing th1 → reading th2 ∨ writing th2 → t1 = t2).
Proof. apply (rwlock_exclusion rw_progs rw_sched). by repeat constructor. Defined.
