(* ===== verification/SynchObj.v ===== *)
(** Creation and destruction of the synchronization objects of
    [kern/thread/synch.c] and of wait channels ([kern/thread/thread.c]): what
    they allocate and free.

    The kernel heap is the set of live blocks; whether an allocation succeeds
    is read off an oracle, so that every combination of failures is covered.
    Freeing a block that is not live is undefined, freeing NULL does nothing. *)

From stdpp Require Import base tactics numbers list gmap.
From S2P Require Import Prelude Spl.
Local Open Scope Z_scope.

Record kheap := KHeap { kh_next : Z; kh_live : gset Z; kh_oracle : list bool }.

Definition kmalloc : M kheap Z :=
  h ← getS;
  match kh_oracle h with
  | true :: o => putS (KHeap (kh_next h + 1) ({[kh_next h]} ∪ kh_live h) o);; mret (kh_next h)
  | false :: o => putS (KHeap (kh_next h) (kh_live h) o);; mret 0
  | [] => mret 0
  end.
Definition kstrdup : M kheap Z := kmalloc.
Definition kfree (p : Z) : M kheap unit :=
  if p =? 0 then mret tt
  else
    h ← getS;
    if decide (p ∈ kh_live h) then putS (KHeap (kh_next h) (kh_live h ∖ {[p]}) (kh_oracle h)) else undef.

(** Live blocks are below the next address to be given out. *)
Definition kheap_ok (h : kheap) : Prop := 0 < kh_next h ∧ ∀ p, p ∈ kh_live h → 0 < p < kh_next h.

(** ** Wait channels *)
Record wchan := Wchan { wc_addr : Z; wc_lock : spinlock; wc_list : list nat }.

Definition wchan_create : M kheap (option wchan) :=
  wc ← kmalloc;
  if wc =? 0 then mret None else mret (Some (Wchan wc spinlock_init [])).

(** [spinlock_cleanup], [threadlist_cleanup] and [kfree]. *)
Definition cleanup_ok (lk : spinlock) : bool := bool_decide (lk_holder lk = None) && negb (lk_lock lk).
Definition wchan_destroy (wc : wchan) : M kheap unit :=
  kassert (cleanup_ok (wc_lock wc));;
  kassert (bool_decide (wc_list wc = []));;
  kfree (wc_addr wc).

(** ** Semaphores *)
Record sem_obj := SemObj {
  s_addr : Z; s_name : Z; s_wchan : wchan; s_lock : spinlock; s_count : Z;
}.

Definition sem_create (initial_count : Z) : M kheap (option sem_obj) :=
  kassert (0 <=? initial_count);;
  sem ← kmalloc;
  if sem =? 0 then mret None
  else
    name ← kstrdup;
    if name =? 0 then kfree sem;; mret None
    else
      wc ← wchan_create;
      match wc with
      | None => kfree name;; kfree sem;; mret None
      | Some wc => mret (Some (SemObj sem name wc spinlock_init initial_count))
      end.

Definition sem_destroy (s : sem_obj) : M kheap unit :=
  kassert (cleanup_ok (s_lock s));;
  wchan_destroy (s_wchan s);;
  kfree (s_name s);;
  kfree (s_addr s).

(** ** Locks *)
Record lock_obj := LockObj {
  l_addr : Z; l_name : Z; l_wchan : wchan; l_spinlock : spinlock; l_owner : Z;
}.

Definition lock_create : M kheap (option lock_obj) :=
  mylock ← kmalloc;
  if mylock =? 0 then mret None
  else
    name ← kstrdup;
    if name =? 0 then kfree mylock;; mret None
    else
      wc ← wchan_create;
      match wc with
      | None => kfree name;; kfree mylock;; mret None
      | Some wc => mret (Some (LockObj mylock name wc spinlock_init 0))
      end.

Definition lock_destroy (k : lock_obj) : M kheap unit :=
  kassert (cleanup_ok (l_spinlock k));;
  wchan_destroy (l_wchan k);;
  kfree (l_name k);;
  kfree (l_addr k).

(** ** Condition variables *)
Record cv_obj := CvObj { c_addr : Z; c_name : Z; c_wchan : wchan; c_spinlock : spinlock }.

Definition cv_create : M kheap (option cv_obj) :=
  mycv ← kmalloc;
  if mycv =? 0 then mret None
  else
    name ← kstrdup;
    if name =? 0 then kfree mycv;; mret None
    else
      wc ← wchan_create;
      match wc with
      | None => kfree name;; kfree mycv;; mret None
      | Some wc => mret (Some (CvObj mycv name wc spinlock_init))
      end.

Definition cv_destroy (c : cv_obj) : M kheap unit :=
  wchan_destroy (c_wchan c);;
  kfree (c_name c);;
  kfree (c_addr c).

(** ** Reader-writer locks *)
Record rw_obj := RwObj {
  r_addr : Z; r_name : Z;
  r_lk_read : option lock_obj; r_lk_write : option lock_obj;  (* NULL is not checked for *)
  r_max_readers : Z; r_sem : sem_obj;
}.

Definition rwlock_create : M kheap (option rw_obj) :=
  myrwlock ← kmalloc;
  if myrwlock =? 0 then mret None
  else
    name ← kstrdup;
    if name =? 0 then kfree myrwlock;; mret None
    else
      lkr ← lock_create;
      lkw ← lock_create;
      s ← sem_create 30;
      match s with
      | None => kfree myrwlock;; mret None
      | Some s => mret (Some (RwObj myrwlock name lkr lkw 30 s))
      end.

Definition rwlock_destroy (r : rw_obj) : M kheap unit :=
  lkr ← of_opt (r_lk_read r);
  lock_destroy lkr;;
  lkw ← of_opt (r_lk_write r);
  lock_destroy lkw;;
  sem_destroy (r_sem r);;
  kfree (r_name r);;
  kfree (r_addr r).

(** * No leaks *)
(** [m] either fails and leaves the live blocks as they were, or makes an object
    whose blocks [blocks x] are new and all that is new. *)
Definition makes {A} (m : M kheap (option A)) (blocks : A → gset Z) (good : A → Prop) : Prop :=
  ∀ h, kheap_ok h → wp m (λ o h', kheap_ok h' ∧ kh_next h ≤ kh_next h' ∧
    match o with
    | None => kh_live h' = kh_live h
    | Some x => good x ∧ kh_live h' = blocks x ∪ kh_live h ∧ blocks x ## kh_live h ∧
                (∀ p, p ∈ blocks x → kh_next h ≤ p)
    end) h.

Lemma wp_kmalloc h (Q : Z → kheap → Prop) :
  kheap_ok h → (∀ h', kheap_ok h' → kh_live h' = kh_live h → kh_next h' = kh_next h → Q 0 h') →
  (∀ h', kheap_ok h' → kh_next h' = kh_next h + 1 → kh_live h' = {[kh_next h]} ∪ kh_live h →
     kh_next h ∉ kh_live h → (kh_next h =? 0) = false → Q (kh_next h) h') →
  wp kmalloc Q h.
Proof.
  intros [Hn Hl] H0 H1. unfold kmalloc. wp_steps. destruct (kh_oracle h) as [|[] o].
  - wp_steps. by apply H0.
  - wp_steps. apply H1; simpl; [split; simpl; [lia|]|done|done| |blia].
    + intros p [->%elem_of_singleton|Hp]%elem_of_union; [lia|]. specialize (Hl p Hp). lia.
    + intros Hp. specialize (Hl _ Hp). lia.
  - wp_steps. by apply H0.
Qed.

Lemma wp_kfree h p (Q : unit → kheap → Prop) :
  kheap_ok h → p ∈ kh_live h →
  (∀ h', kheap_ok h' → kh_live h' = kh_live h ∖ {[p]} → kh_next h' = kh_next h → Q tt h') →
  wp (kfree p) Q h.
Proof.
  intros [Hn Hl] Hp HQ. unfold kfree. pose proof (Hl p Hp).
  rewrite (proj2 (Z.eqb_neq _ _)) by lia. wp_steps. rewrite decide_True by done. wp_steps.
  apply HQ; [split; [done|set_solver]|done|done].
Qed.

(** Freeing the block that was allocated last. *)
Lemma wp_kfree_last h0 h p (Q : unit → kheap → Prop) :
  kheap_ok h → kh_live h = {[p]} ∪ kh_live h0 → p ∉ kh_live h0 →
  (∀ h', kheap_ok h' → kh_live h' = kh_live h0 → Q tt h') → wp (kfree p) Q h.
Proof.
  intros Hh El Hp HQ. apply wp_kfree; [done|rewrite El; set_solver|].
  intros h' Hh' El' _. apply HQ; [done|]. rewrite El', El. set_solver.
Qed.

(** The three blocks of an object, allocated in this order and freed in the
    opposite one, leave the heap as it was. *)
Lemma wp_three_blocks {A} h (ok : Z → Z → wchan → A) (destroy : A → M kheap unit) :
  kheap_ok h →
  (∀ a n w h', wc_lock w = spinlock_init → wc_list w = [] →
     ∀ Q, wp (kfree (wc_addr w);; kfree n;; kfree a) Q h' → wp (destroy (ok a n w)) Q h') →
  wp (o ← (a ← kmalloc;
           if a =? 0 then mret None
           else
             n ← kstrdup;
             if n =? 0 then kfree a;; mret None
             else
               wc ← wchan_create;
               match wc with
               | None => kfree n;; kfree a;; mret None
               | Some w => mret (Some (ok a n w))
               end);
      match o with None => mret tt | Some x => destroy x end)
    (λ _ h', kheap_ok h' ∧ kh_live h' = kh_live h) h.
Proof.
  intros Hh Hd. apply wp_bind_2, wp_bind_2. apply wp_kmalloc; [done|by intros; simpl; wp_steps|].
  intros h1 Hh1 En1 El1 Hf1 Ez1. rewrite Ez1. apply wp_bind_2. unfold kstrdup.
  apply wp_kmalloc; [done| |].
  { intros h2 Hh2 El2 En2. simpl. apply wp_bind_2.
    apply (wp_kfree_last h); [done|by rewrite El2|done|]. intros h3 Hh3 El3. by wp_steps. }
  intros h2 Hh2 En2 El2 Hf2 Ez2. rewrite Ez2. apply wp_bind_2. unfold wchan_create. apply wp_bind_2.
  apply wp_kmalloc; [done| |].
  { intros h3 Hh3 El3 En3. simpl. wp_steps. apply (wp_kfree_last h1); [done|by rewrite El3|done|].
    intros h4 Hh4 El4. apply wp_bind_2. apply (wp_kfree_last h); [done|by rewrite El4|done|].
    intros h5 Hh5 El5. by wp_steps. }
  intros h3 Hh3 En3 El3 Hf3 Ez3. rewrite Ez3. wp_steps. apply Hd; [done|done|]. simpl. apply wp_bind_2.
  apply (wp_kfree_last h2); [done..|]. intros h4 Hh4 El4. apply wp_bind_2.
  apply (wp_kfree_last h1); [done|by rewrite El4|done|]. intros h5 Hh5 El5.
  apply (wp_kfree_last h); [done|by rewrite El5|done|]. done.
Qed.

Lemma wp_wchan_destroy {A} w (m : M kheap A) Q h : wc_lock w = spinlock_init → wc_list w = [] →
  wp (kfree (wc_addr w);; m) Q h → wp (wchan_destroy w;; m) Q h.
Proof.
  intros Hl Hw H. unfold wchan_destroy. rewrite Hl, Hw. wp_steps. by apply wp_bind in H.
Qed.

(** Semaphores, locks and condition variables do not leak: whichever
    allocations fail, creating an object and destroying it if it was created
    leaves exactly the blocks that were live before. *)
Theorem sync_objects_no_leak h n :
  kheap_ok h → 0 ≤ n →
  wp (o ← sem_create n; match o with None => mret tt | Some s => sem_destroy s end)
    (λ _ h', kheap_ok h' ∧ kh_live h' = kh_live h) h ∧
  wp (o ← lock_create; match o with None => mret tt | Some k => lock_destroy k end)
    (λ _ h', kheap_ok h' ∧ kh_live h' = kh_live h) h ∧
  wp (o ← cv_create; match o with None => mret tt | Some c => cv_destroy c end)
    (λ _ h', kheap_ok h' ∧ kh_live h' = kh_live h) h.
Proof.
  intros Hh Hn. split_and!.
  - unfold sem_create. rewrite (proj2 (Z.leb_le _ _)) by done.
    apply (wp_three_blocks h (λ a m w, SemObj a m w spinlock_init n) sem_destroy); [done|].
    intros a m w h' Hl Hw Q H. unfold sem_destroy. wp_steps. by apply wp_wchan_destroy.
  - apply (wp_three_blocks h (λ a m w, LockObj a m w spinlock_init 0) lock_destroy); [done|].
    intros a m w h' Hl Hw Q H. unfold lock_destroy. wp_steps. by apply wp_wchan_destroy.
  - apply (wp_three_blocks h (λ a m w, CvObj a m w spinlock_init) cv_destroy); [done|].
    intros a m w h' Hl Hw Q H. unfold cv_destroy. by apply wp_wchan_destroy.
Qed.

Lemma rwlock_destroy_null o h : r_lk_read o = None → rwlock_destroy o h = Undef.
Proof. intros H. unfold rwlock_destroy. m_simpl. by rewrite H. Qed.

(** [rwlock_create] does leak: when the semaphore cannot be created it
    frees only the outer structure, so the name and both locks stay allocated;
    and when a lock cannot be created it returns a lock with a NULL field,
    which cannot even be destroyed. *)
Theorem rwlock_create_leaks :
  wp rwlock_create (λ r h', r = None ∧ kh_live h' = list_to_set (seqZ 2 7))
    (KHeap 1 ∅ (replicate 8 true ++ [false])) ∧
  ∃ o h', rwlock_create (KHeap 1 ∅ ([true; true; false] ++ replicate 6 true)) = Ok (Some o, h') ∧
    r_lk_read o = None ∧ rwlock_destroy o h' = Undef.
Proof.
  split; [by vm_compute|]. eexists _, _. split; [vm_compute; reflexivity|].
  split; [reflexivity|]. by apply rwlock_destroy_null.
Qed.

Lemma sync_objects_no_leak_witness :
  let h := KHeap 1 ∅ [true; true; false] in
  wp (o ← sem_create 3; match o with None => mret tt | Some s => sem_destroy s end)
    (λ _ h', kheap_ok h' ∧ kh_live h' = ∅) h ∧
  wp (o ← lock_create; match o with None => mret tt | Some k => lock_destroy k end)
    (λ _ h', kheap_ok h' ∧ kh_live h' = ∅) h ∧
  wp (o ← cv_create; match o with None => mret tt | Some c => cv_destroy c end)
    (λ _ h', kheap_ok h' ∧ kh_live h' = ∅) h.
Proof. apply (sync_objects_no_leak (KHeap 1 ∅ [true; true; false]) 3); [by split|done]. Defined.
