(* ===== verification/CopyInOut.v ===== *)
(** Copying between user and kernel memory: [kern/vm/copyinout.c].

    User memory is what the current address space maps: [um_read a] is the byte
    at address [a], or [None] when touching it from the kernel faults, and
    [um_writable a] says whether writing it is allowed. A fault while a copy
    runs resumes in [copyfail], which makes the function return [EFAULT]; bytes
    stored before it stay stored. *)

From stdpp Require Import base tactics numbers list.
From S2P Require Import Prelude KernDefs.
Local Open Scope Z_scope.

Record umem := UMem { um_read : Z → option Z; um_writable : Z → bool }.

(** The kernel buffer [dest[i]], for the bytes stored in it. *)
Definition um_write (m : umem) (a b : Z) : umem :=
  UMem (λ x, if x =? a then Some b else um_read m x) (um_writable m).

Definition copycheck (userptr len : Z) : result Z :=
  let bot := userptr in
  let top := u32 (bot + len - 1) in
  if top <? bot then inl EFAULT
  else if USERSPACETOP <=? bot then inl EFAULT
  else if USERSPACETOP <=? top then inr (USERSPACETOP - bot)
  else inr len.

(** [memcpy] from user memory, up to a fault. *)
Fixpoint memcpy_in (m : umem) (src : Z) (n : nat) : option (list Z) :=
  match n with
  | O => Some []
  | S n => match um_read m src with
           | None => None
           | Some b => (b ::.) <$> memcpy_in m (src + 1) n
           end
  end.

Definition copyin (m : umem) (usersrc len : Z) : result (list Z) :=
  match copycheck usersrc len with
  | inl e => inl e
  | inr stoplen =>
      if negb (stoplen =? len) then inl EFAULT
      else match memcpy_in m usersrc (Z.to_nat len) with
           | Some l => inr l
           | None => inl EFAULT
           end
  end.

(** [memcpy] to user memory: the memory afterwards and whether it faulted. *)
Fixpoint memcpy_out (m : umem) (dst : Z) (l : list Z) : umem * bool :=
  match l with
  | [] => (m, true)
  | b :: l =>
      match um_read m dst with
      | Some _ => if um_writable m dst then memcpy_out (um_write m dst b) (dst + 1) l else (m, false)
      | None => (m, false)
      end
  end.

Definition copyout (m : umem) (src : list Z) (userdest len : Z) : umem * result unit :=
  match copycheck userdest len with
  | inl e => (m, inl e)
  | inr stoplen =>
      if negb (stoplen =? len) then (m, inl EFAULT)
      else let '(m', ok) := memcpy_out m userdest (take (Z.to_nat len) src) in
           (m', if ok then inr tt else inl EFAULT)
  end.

(** [copystr] reading user memory: what was stored in [dest], and the result. *)
Fixpoint copystr_in (m : umem) (src : Z) (n : nat) (short : bool) : list Z * result unit :=
  match n with
  | O => ([], inl (if short then EFAULT else ENAMETOOLONG))
  | S n =>
      match um_read m src with
      | None => ([], inl EFAULT)
      | Some b =>
          if b =? 0 then ([b], inr tt)
          else let '(l, r) := copystr_in m (src + 1) n short in (b :: l, r)
      end
  end.

(** The bytes stored in [dest] and, on success, the length including the
    terminator. *)
Definition copyinstr (m : umem) (usersrc len : Z) : list Z * result Z :=
  match copycheck usersrc len with
  | inl e => ([], inl e)
  | inr stoplen =>
      let '(l, r) := copystr_in m usersrc (Z.to_nat (Z.min len stoplen)) (stoplen <? len) in
      (l, match r with inl e => inl e | inr _ => inr (Z.of_nat (length l)) end)
  end.

(** [copystr] writing user memory; [src] is the kernel string with what follows
    it in memory. *)
Fixpoint copystr_out (m : umem) (src : list Z) (dst : Z) (n : nat) (short : bool) : umem * result Z :=
  match n, src with
  | O, _ => (m, inl (if short then EFAULT else ENAMETOOLONG))
  | S _, [] => (m, inl EFAULT)
  | S n, b :: src =>
      match um_read m dst with
      | None => (m, inl EFAULT)
      | Some _ =>
          if negb (um_writable m dst) then (m, inl EFAULT)
          else
            let m := um_write m dst b in
            if b =? 0 then (m, inr 1)
            else let '(m, r) := copystr_out m src (dst + 1) n short in
                 (m, match r with inl e => inl e | inr k => inr (k + 1) end)
      end
  end.

Definition copyoutstr (m : umem) (src : list Z) (userdest len : Z) : umem * result Z :=
  match copycheck userdest len with
  | inl e => (m, inl e)
  | inr stoplen => copystr_out m src userdest (Z.to_nat (Z.min len stoplen)) (stoplen <? len)
  end.

(** * What they do *)
Definition uptr (a : Z) : Prop := 0 ≤ a < 2 ^ 32.

Lemma copycheck_spec a len : uptr a → 0 < len < 2 ^ 32 →
  copycheck a len =
    if decide (2 ^ 32 < a + len ∨ USERSPACETOP ≤ a) then inl EFAULT
    else inr (Z.min len (USERSPACETOP - a)).
Proof.
  intros Ha Hl. unfold copycheck, uptr, USERSPACETOP, MIPS_KSEG0 in *.
  destruct (decide (a + len ≤ 2 ^ 32)) as [H|H].
  - rewrite u32_id by lia. rewrite (proj2 (Z.ltb_ge _ _)) by lia.
    destruct (Z.leb_spec 0x80000000 a).
    + rewrite decide_True by lia. done.
    + rewrite decide_False by lia. destruct (Z.leb_spec 0x80000000 (a + len - 1)); f_equal; lia.
  - rewrite decide_True by lia.
    assert (u32 (a + len - 1) = a + len - 1 - 2 ^ 32) as ->.
    { symmetry. apply Z.mod_unique with 1; lia. }
    by rewrite (proj2 (Z.ltb_lt _ _)) by lia.
Qed.

(** The user bytes from [a] on are [l]. *)
Definition user_bytes (m : umem) (a : Z) (l : list Z) : Prop :=
  ∀ i b, l !! i = Some b → um_read m (a + Z.of_nat i) = Some b.

Lemma user_bytes_cons m a b l : user_bytes m a (b :: l) ↔ um_read m a = Some b ∧ user_bytes m (a + 1) l.
Proof.
  split.
  - intros H. split; [specialize (H 0%nat b eq_refl); by rewrite Z.add_0_r in H|].
    intros i c Hi. specialize (H (S i) c Hi). replace (a + Z.of_nat (S i)) with (a + 1 + Z.of_nat i) in H by lia.
    done.
  - intros [H0 H] [|i] c Hc; simplify_eq/=; [by rewrite Z.add_0_r|].
    replace (a + Z.of_nat (S i)) with (a + 1 + Z.of_nat i) by lia. by apply H.
Qed.

Lemma memcpy_in_spec m n : ∀ a l, memcpy_in m a n = Some l ↔ length l = n ∧ user_bytes m a l.
Proof.
  induction n as [|n IH]; intros a l; simpl.
  - split; [intros [= <-]; by split|]. by intros [->%nil_length_inv _].
  - split.
    + destruct (um_read m a) as [b|] eqn:E; [|done]. intros (l' & Hl' & ->)%fmap_Some.
      apply IH in Hl' as [<- Hb]. split; [done|]. by apply user_bytes_cons.
    + destruct l as [|b l]; [by intros [? _]|]. intros [Hlen [-> Hb]%user_bytes_cons].
      simplify_eq/=. by rewrite (proj2 (IH (a + 1) l)).
Qed.

Lemma copystr_in_ok m n : ∀ a short l, copystr_in m a n short = (l, inr tt) ↔
  ∃ s, l = s ++ [0] ∧ Forall (λ b, b ≠ 0) s ∧ (length s < n)%nat ∧ user_bytes m a l.
Proof.
  induction n as [|n IH]; intros a short l; simpl.
  { split; [done|]. intros (s & _ & _ & ? & _). lia. }
  destruct (um_read m a) as [b|] eqn:E.
  2:{ split; [done|]. intros (s & -> & _ & _ & H).
      destruct s as [|c s]; apply user_bytes_cons in H as [H _]; congruence. }
  destruct (Z.eqb_spec b 0) as [->|Hb].
  - split.
    + intros [= <-]. exists []. split_and!; [done|constructor|simpl; lia|]. apply user_bytes_cons. split; [done|].
      by intros ? ? ?.
    + intros (s & -> & Hs & _ & H). destruct s as [|c s]; [done|].
      apply user_bytes_cons in H as [H _]. apply Forall_cons_1 in Hs as [Hc _]. congruence.
  - destruct (copystr_in m (a + 1) n short) as [l' r] eqn:E'. split.
    + intros [= <- ->]. apply IH in E' as (s & -> & Hs & Hlen & H). exists (b :: s).
      split_and!; [done|by constructor|simpl; lia|]. by apply user_bytes_cons.
    + intros (s & -> & Hs & Hlen & H). destruct s as [|c s].
      { apply user_bytes_cons in H as [H _]. congruence. }
      simpl in H. apply user_bytes_cons in H as [H H']. apply Forall_cons_1 in Hs as [_ Hs].
      assert (copystr_in m (a + 1) n short = (s ++ [0], inr tt)) as E2.
      { apply IH. exists s. split_and!; [done|done|simpl in Hlen; lia|done]. }
      rewrite E2 in E'. simplify_eq. done.
Qed.

Lemma copystr_in_len m n : ∀ a short, (length (copystr_in m a n short).1 ≤ n)%nat.
Proof.
  induction n as [|n IH]; intros a short; simpl; [lia|]. destruct (um_read m a) as [b|]; simpl; [|lia].
  destruct (b =? 0); simpl; [lia|]. specialize (IH (a + 1) short).
  destruct (copystr_in m (a + 1) n short). simpl in *. lia.
Qed.

(** [copyin] succeeds exactly when the whole block lies below
    [USERSPACETOP] and can be read, and then returns exactly its bytes;
    [copyinstr] succeeds exactly when the string and its terminator do and fit
    the given length, and then stores exactly the string. A kernel address is
    never read. *)
Theorem copyin_exact m a len l :
  uptr a → 0 < len < 2 ^ 32 →
  (copyin m a len = inr l ↔
     a + len ≤ USERSPACETOP ∧ Z.of_nat (length l) = len ∧ user_bytes m a l) ∧
  (∀ k, copyinstr m a len = (l, inr k) ↔
     ∃ s, l = s ++ [0] ∧ Forall (λ b, b ≠ 0) s ∧ k = Z.of_nat (length s) + 1 ∧ k ≤ len ∧
       a + k ≤ USERSPACETOP ∧ user_bytes m a l ∧ a + len ≤ 2 ^ 32).
Proof.
  intros Ha Hlen. unfold copyin, copyinstr. rewrite copycheck_spec by done.
  unfold uptr, USERSPACETOP, MIPS_KSEG0 in *. case_decide as Hd; simpl.
  { split; [split; [done|lia]|]. intros k. split; [done|].
    intros (s & _ & _ & -> & ? & ? & _ & ?). lia. }
  split.
  - destruct (Z.eqb_spec (Z.min len (0x80000000 - a)) len) as [E|E]; simpl.
    + destruct (memcpy_in m a (Z.to_nat len)) as [l'|] eqn:Hm.
      * split.
        -- intros [= ->]. apply memcpy_in_spec in Hm as [? ?]. split_and!; [lia|lia|done].
        -- intros (_ & Hl & Hb). assert (memcpy_in m a (Z.to_nat len) = Some l) as E2
             by (apply memcpy_in_spec; split; [lia|done]). congruence.
      * split; [done|]. intros (_ & Hl & Hb). assert (memcpy_in m a (Z.to_nat len) = Some l) as E2
          by (apply memcpy_in_spec; split; [lia|done]). congruence.
    + split; [done|lia].
  - intros k. set (n := Z.to_nat (Z.min len (Z.min len (0x80000000 - a)))).
    destruct (copystr_in m a n _) as [l' r] eqn:Hc. split.
    + intros [= -> Hr]. destruct r as [|[]]; [done|]. simplify_eq.
      apply copystr_in_ok in Hc as (s & -> & Hs & Hn & Hb). exists s. rewrite length_app. simpl.
      split_and!; [done|done|lia|lia|lia|done|lia].
    + intros (s & -> & Hs & -> & ? & ? & Hb & ?).
      assert (copystr_in m a n (Z.min len (0x80000000 - a) <? len) = (s ++ [0], inr tt)) as E2.
      { apply copystr_in_ok. exists s. split_and!; [done|done|lia|done]. }
      rewrite E2 in Hc. simplify_eq. rewrite length_app. simpl. do 2 f_equal. lia.
Qed.

Lemma memcpy_out_other l : ∀ m a x, ¬ (a ≤ x < a + Z.of_nat (length l)) →
  um_read (memcpy_out m a l).1 x = um_read m x.
Proof.
  induction l as [|b l IH]; intros m a x Hx; simpl; [done|]. simpl in Hx.
  destruct (um_read m a); [|done]. destruct (um_writable m a); [|done].
  rewrite IH by lia. simpl. by rewrite (proj2 (Z.eqb_neq _ _)) by lia.
Qed.

Lemma memcpy_out_ok l : ∀ m a, (memcpy_out m a l).2 = true → user_bytes (memcpy_out m a l).1 a l.
Proof.
  induction l as [|b l IH]; intros m a; simpl; [by intros _ ? ? ?|].
  destruct (um_read m a); [|done]. destruct (um_writable m a); [|done]. intros H.
  apply user_bytes_cons. split; [|by apply IH]. rewrite memcpy_out_other by lia. simpl. by rewrite Z.eqb_refl.
Qed.

(** The kernel can store a byte at [x]. *)
Definition storable (m : umem) (x : Z) : Prop := um_read m x ≠ None ∧ um_writable m x = true.

Lemma storable_write m a b x : x ≠ a → storable (um_write m a b) x ↔ storable m x.
Proof. intros Hx. unfold storable. simpl. by rewrite (proj2 (Z.eqb_neq _ _)). Qed.

Lemma memcpy_out_storable l : ∀ m a, (memcpy_out m a l).2 = true →
  ∀ x, a ≤ x < a + Z.of_nat (length l) → storable m x.
Proof.
  induction l as [|b l IH]; intros m a; simpl; [lia|].
  destruct (um_read m a) eqn:E; [|done]. destruct (um_writable m a) eqn:Ew; [|done]. intros H x Hx.
  destruct (decide (x = a)) as [->|Hne]; [by split; [rewrite E|]|].
  rewrite <-(storable_write m a b) by done. apply (IH _ _ H). lia.
Qed.

(** A fault stops the copy at the first byte that cannot be stored. *)
Lemma memcpy_out_fault l : ∀ m a, (memcpy_out m a l).2 = false →
  ∃ k, (k < length l)%nat ∧ ¬ storable m (a + Z.of_nat k) ∧ user_bytes (memcpy_out m a l).1 a (take k l) ∧
    ∀ x, a + Z.of_nat k ≤ x → um_read (memcpy_out m a l).1 x = um_read m x.
Proof.
  induction l as [|b l IH]; intros m a; simpl; [done|].
  assert (¬ storable m a → ∃ k, (k < S (length l))%nat ∧ ¬ storable m (a + Z.of_nat k) ∧
    user_bytes m a (take k (b :: l)) ∧ ∀ x, a + Z.of_nat k ≤ x → um_read m x = um_read m x) as Hstop.
  { intros Hn. exists 0%nat. rewrite Z.add_0_r. split_and!; [lia|done|by intros ? ? ?|done]. }
  destruct (um_read m a) eqn:E; [|intros _; apply Hstop; by intros [? _]].
  destruct (um_writable m a) eqn:Ew; [|intros _; apply Hstop; intros [_ ?]; congruence].
  intros (k & Hk & Hn & Hb & Hx)%IH. exists (S k). replace (a + Z.of_nat (S k)) with (a + 1 + Z.of_nat k) by lia.
  split_and!; [lia|by rewrite storable_write in Hn by lia| |].
  - apply user_bytes_cons. split; [|done]. rewrite memcpy_out_other by lia. simpl. by rewrite Z.eqb_refl.
  - intros x Hle. rewrite Hx by done. simpl. by rewrite (proj2 (Z.eqb_neq _ _)) by lia.
Qed.

(** C36: [copyout] writes nothing at all, and returns [EFAULT], when the given
    block does not lie wholly below [USERSPACETOP]; otherwise it changes nothing
    outside the block. It succeeds exactly when the block lies below and every
    byte of it is mapped and may be written, and then the block holds the
    source; else it returns [EFAULT], and what it has written is the source up
    to the first byte that faults. *)
Theorem copyout_confined m src a len :
  uptr a → 0 < len < 2 ^ 32 → Z.of_nat (length src) = len →
  let '(m', r) := copyout m src a len in
  (USERSPACETOP < a + len → m' = m ∧ r = inl EFAULT) ∧
  (∀ x, ¬ (a ≤ x < a + len) → um_read m' x = um_read m x) ∧
  (r = inr tt ↔ a + len ≤ USERSPACETOP ∧ ∀ x, a ≤ x < a + len → storable m x) ∧
  (r = inr tt → user_bytes m' a src) ∧
  (r ≠ inr tt → r = inl EFAULT ∧ (a + len ≤ USERSPACETOP → ∃ k, (k < length src)%nat ∧
     ¬ storable m (a + Z.of_nat k) ∧ user_bytes m' a (take k src) ∧
     ∀ x, a + Z.of_nat k ≤ x → um_read m' x = um_read m x)).
Proof.
  intros Ha Hlen Hsrc. unfold copyout. rewrite copycheck_spec by done.
  unfold uptr, USERSPACETOP, MIPS_KSEG0 in *. case_decide as Hd.
  { split_and!; [done|done|by split; [|lia]|done|]. intros _. split; [done|lia]. }
  destruct (Z.eqb_spec (Z.min len (0x80000000 - a)) len) as [E|E]; simpl.
  2:{ split_and!; [done|done|by split; [|lia]|done|]. intros _. split; [done|lia]. }
  rewrite take_ge by lia. pose proof (memcpy_out_other src m a) as Ho. pose proof (memcpy_out_ok src m a) as Hk.
  pose proof (memcpy_out_fault src m a) as Hf. pose proof (memcpy_out_storable src m a) as Hs.
  destruct (memcpy_out m a src) as [m' ok]. simpl in *. split_and!; [lia| | | |].
  - intros x Hx. apply Ho. lia.
  - destruct ok; simpl; (split; [intros Hr|intros [_ Hr]]); try done.
    + split; [lia|]. intros x Hx. apply Hs; [done|lia].
    + destruct (Hf eq_refl) as (k & Hk' & Hn & _). destruct Hn. apply Hr. lia.
  - destruct ok; [|done]. intros _. by apply Hk.
  - destruct ok; [done|]. intros _. split; [done|]. intros _. by apply Hf.
Qed.

(** "hi" at 0x1000 in a page that can be read and written. *)
Definition demo_um : umem :=
  UMem (λ x, if (0x1000 <=? x) && (x <? 0x2000) then
               Some (if x =? 0x1000 then 104 else if x =? 0x1001 then 105 else 0) else None)
       (λ x, true).

Lemma copyin_exact_witness :
  copyin demo_um 0x1000 3 = inr [104; 105; 0] ∧
  (copyin demo_um 0x1000 3 = inr [104; 105; 0] ↔
     0x1000 + 3 ≤ USERSPACETOP ∧ 3 = 3 ∧ user_bytes demo_um 0x1000 [104; 105; 0]) ∧
  (∀ k, copyinstr demo_um 0x1000 3 = ([104; 105; 0], inr k) ↔
     ∃ s, [104; 105; 0] = s ++ [0] ∧ Forall (λ b, b ≠ 0) s ∧ k = Z.of_nat (length s) + 1 ∧ k ≤ 3 ∧
       0x1000 + k ≤ USERSPACETOP ∧ user_bytes demo_um 0x1000 [104; 105; 0] ∧ 0x1000 + 3 ≤ 2 ^ 32).
Proof. split; [done|]. apply (copyin_exact demo_um 0x1000 3 [104; 105; 0]); done. Defined.

Lemma copyout_confined_witness :
  let '(m', r) := copyout demo_um [7; 8] 0x1800 2 in
  (USERSPACETOP < 0x1800 + 2 → m' = demo_um ∧ r = inl EFAULT) ∧
  (∀ x, ¬ (0x1800 ≤ x < 0x1800 + 2) → um_read m' x = um_read demo_um x) ∧
  (r = inr tt ↔ 0x1800 + 2 ≤ USERSPACETOP ∧ ∀ x, 0x1800 ≤ x < 0x1800 + 2 → storable demo_um x) ∧
  (r = inr tt → user_bytes m' 0x1800 [7; 8]) ∧
  (r ≠ inr tt → r = inl EFAULT ∧ (0x1800 + 2 ≤ USERSPACETOP → ∃ k, (k < 2)%nat ∧
     ¬ storable demo_um (0x1800 + Z.of_nat k) ∧ user_bytes m' 0x1800 (take k [7; 8]) ∧
     ∀ x, 0x1800 + Z.of_nat k ≤ x → um_read m' x = um_read demo_um x)).
Proof. apply (copyout_confined demo_um [7; 8] 0x1800 2); done. Defined.
