(* ===== verification/Uio.v ===== *)
(** Moving data between kernel buffers and the memory a [uio] describes:
    [kern/lib/uio.c].

    A [uio] points to kernel memory or to the memory of the current process; both
    are in the state [xmem]. The buffer of [uiomove] is passed by value, as a list
    of bytes, and handed back; it does not overlap the memory of the [uio]. *)

From stdpp Require Import base tactics numbers list.
From S2P Require Import Prelude KernDefs CopyInOut.
Local Open Scope Z_scope.

Inductive uio_rw := UIO_READ | UIO_WRITE.
Inductive uio_seg := UIO_USERISPACE | UIO_USERSPACE | UIO_SYSSPACE.
#[export] Instance uio_rw_eq_dec : EqDecision uio_rw.
Proof. solve_decision. Defined.
#[export] Instance uio_seg_eq_dec : EqDecision uio_seg.
Proof. solve_decision. Defined.

Record iovec := Iovec { iov_base : Z; iov_len : Z }.

(** [uio_iov] are the [uio_iovcnt] vectors from the pointer on. *)
Record uio := Uio {
  uio_iov : list iovec;
  uio_offset : Z;
  uio_resid : Z;
  uio_segflg : uio_seg;
  uio_rw_ : uio_rw;
  uio_space : Z;           (* address space, 0 for NULL *)
}.
Definition set_iov (l : list iovec) (u : uio) : uio :=
  Uio l (uio_offset u) (uio_resid u) (uio_segflg u) (uio_rw_ u) (uio_space u).
Definition set_offset (o : Z) (u : uio) : uio :=
  Uio (uio_iov u) o (uio_resid u) (uio_segflg u) (uio_rw_ u) (uio_space u).
Definition set_resid (r : Z) (u : uio) : uio :=
  Uio (uio_iov u) (uio_offset u) r (uio_segflg u) (uio_rw_ u) (uio_space u).

Record xmem := XMem { x_kern : Z → Z; x_user : umem; x_space : Z }.

(** [memmove] out of and into kernel memory. *)
Definition kget (m : Z → Z) (a n : Z) : list Z := m <$> seqZ a n.
Fixpoint kput (m : Z → Z) (a : Z) (l : list Z) : Z → Z :=
  match l with
  | [] => m
  | b :: l => kput (λ x, if x =? a then b else m x) (a + 1) l
  end.

(** The switch on [uio_segflg]: moves [size] bytes at [base]; [piece] is the part
    of the buffer concerned, and its contents afterwards are handed back. *)
Definition move_piece (u : uio) (base size : Z) (piece : list Z) : M xmem (result (list Z)) :=
  x ← getS;
  match uio_segflg u, uio_rw_ u with
  | UIO_SYSSPACE, UIO_READ =>
      putS (XMem (kput (x_kern x) base piece) (x_user x) (x_space x));; mret (inr piece)
  | UIO_SYSSPACE, UIO_WRITE => mret (inr (kget (x_kern x) base size))
  | _, UIO_READ =>
      let '(m, r) := copyout (x_user x) piece base size in
      putS (XMem (x_kern x) m (x_space x));;
      mret (match r with inl e => inl e | inr _ => inr piece end)
  | _, UIO_WRITE => mret (copyin (x_user x) base size)
  end.

(** The loop: [front] is the part of the buffer already passed, [rest] what [ptr]
    points to. *)
Fixpoint uiomove_loop (fuel : nat) (front rest : list Z) (n : Z) (u : uio) :
    M xmem (option errno * list Z * uio) :=
  match fuel with
  | O => diverge
  | S fuel =>
      if (0 <? n) && (0 <? uio_resid u) then
        match uio_iov u with
        | [] => undef
        | iov :: iovs =>
            let size := if n <? iov_len iov then n else iov_len iov in
            if size =? 0 then
              match iovs with
              | [] => panic
              | _ => uiomove_loop fuel front rest n (set_iov iovs u)
              end
            else
              r ← move_piece u (iov_base iov) size (take (Z.to_nat size) rest);
              match r with
              | inl e => mret (Some e, front ++ rest, u)
              | inr piece =>
                  uiomove_loop fuel (front ++ piece) (drop (Z.to_nat size) rest) (n - size)
                    (Uio (Iovec (iov_base iov + size) (iov_len iov - size) :: iovs)
                       (s64 (uio_offset u + size)) (u32 (uio_resid u - size))
                       (uio_segflg u) (uio_rw_ u) (uio_space u))
              end
        end
      else mret (None, front ++ rest, u)
  end.

(** Every vector is looked at twice at most: once to move data and once to see that
    it is used up. *)
Definition uiomove (buf : list Z) (n : Z) (u : uio) : M xmem (option errno * list Z * uio) :=
  x ← getS;
  kassert (if decide (uio_segflg u = UIO_SYSSPACE) then uio_space u =? 0 else uio_space u =? x_space x);;
  uiomove_loop (2 * length (uio_iov u) + 2) [] buf n u.

Fixpoint uiomovezeros_loop (fuel : nat) (n : Z) (u : uio) : M xmem (option errno * uio) :=
  match fuel with
  | O => diverge
  | S fuel =>
      if 0 <? n then
        let amt := if n <? 16 then n else 16 in
        '(r, _, u) ← uiomove (replicate 16 0) amt u;
        match r with
        | Some e => mret (Some e, u)
        | None => uiomovezeros_loop fuel (n - amt) u
        end
      else mret (None, u)
  end.
Definition uiomovezeros (n : Z) (u : uio) : M xmem (option errno * uio) :=
  kassert (bool_decide (uio_rw_ u = UIO_READ));;
  uiomovezeros_loop (Z.to_nat n + 1) n u.

Definition uio_kinit (kbuf len pos : Z) (rw : uio_rw) : uio :=
  Uio [Iovec kbuf len] pos len UIO_SYSSPACE rw 0.

(** * What they do *)
(** The addresses a list of vectors stands for, in order. *)
Definition addrs (l : list iovec) : list Z := l ≫= λ v, seqZ (iov_base v) (iov_len v).

Definition seg_read (seg : uio_seg) (x : xmem) (a : Z) : option Z :=
  match seg with UIO_SYSSPACE => Some (x_kern x a) | _ => um_read (x_user x) a end.
Definition seg_write (seg : uio_seg) (x : xmem) (p : Z * Z) : xmem :=
  match seg with
  | UIO_SYSSPACE => XMem (λ y, if y =? p.1 then p.2 else x_kern x y) (x_user x) (x_space x)
  | _ => XMem (x_kern x) (um_write (x_user x) p.1 p.2) (x_space x)
  end.
(** The address can be moved to or from. *)
Definition seg_can (seg : uio_seg) (rw : uio_rw) (x : xmem) (a : Z) : Prop :=
  match seg with
  | UIO_SYSSPACE => True
  | _ => 0 ≤ a < USERSPACETOP ∧ is_Some (um_read (x_user x) a) ∧ (rw = UIO_READ → um_writable (x_user x) a = true)
  end.
Definition seg_puts (seg : uio_seg) (x : xmem) (l : list (Z * Z)) : xmem := foldl (seg_write seg) x l.

Lemma seg_puts_app seg x l1 l2 : seg_puts seg x (l1 ++ l2) = seg_puts seg (seg_puts seg x l1) l2.
Proof. apply foldl_app. Qed.
Lemma seg_puts_space seg l : ∀ x, x_space (seg_puts seg x l) = x_space x.
Proof. induction l as [|p l IH]; intros x; [done|].
  change (seg_puts seg x (p :: l)) with (seg_puts seg (seg_write seg x p) l). rewrite IH. by destruct seg. Qed.
Lemma seg_can_write seg rw x p a : seg_can seg rw x a → seg_can seg rw (seg_write seg x p) a.
Proof.
  destruct seg; [| |done]; intros (H1 & H2 & H3); (split_and!; [lia|lia| |done]); simpl;
    destruct (a =? p.1); [done..|]; done.
Qed.
Lemma seg_can_puts seg rw l a : ∀ x, seg_can seg rw x a → seg_can seg rw (seg_puts seg x l) a.
Proof. induction l as [|p l IH]; intros x Ha; [done|]. apply IH. by apply seg_can_write. Qed.

Lemma addrs_cons v l : addrs (v :: l) = seqZ (iov_base v) (iov_len v) ++ addrs l.
Proof. done. Qed.

(** ** One vector *)
Lemma kput_puts l : ∀ x a, seg_puts UIO_SYSSPACE x (zip (seqZ a (Z.of_nat (length l))) l) =
  XMem (kput (x_kern x) a l) (x_user x) (x_space x).
Proof.
  induction l as [|b l IH]; intros x a; [by destruct x|]. cbn [length]. rewrite seqZ_cons by lia.
  replace (Z.pred (Z.of_nat (S (length l)))) with (Z.of_nat (length l)) by lia.
  cbn [zip zip_with]. change (seg_puts UIO_SYSSPACE x ((a, b) :: zip (seqZ (Z.succ a) (Z.of_nat (length l))) l))
    with (seg_puts UIO_SYSSPACE (seg_write UIO_SYSSPACE x (a, b)) (zip (seqZ (Z.succ a) (Z.of_nat (length l))) l)).
  by rewrite IH.
Qed.

Lemma memcpy_out_puts seg l : seg ≠ UIO_SYSSPACE → ∀ x a,
  (∀ y, y ∈ seqZ a (Z.of_nat (length l)) → seg_can seg UIO_READ x y) →
  memcpy_out (x_user x) a l = (x_user (seg_puts seg x (zip (seqZ a (Z.of_nat (length l))) l)), true) ∧
  x_kern (seg_puts seg x (zip (seqZ a (Z.of_nat (length l))) l)) = x_kern x.
Proof.
  intros Hs. induction l as [|b l IH]; intros x a Hc; [done|]. cbn [length] in *. rewrite seqZ_cons in * by lia.
  replace (Z.pred (Z.of_nat (S (length l)))) with (Z.of_nat (length l)) in * by lia.
  assert (seg_can seg UIO_READ x a) as Ha by (apply Hc; left).
  assert (is_Some (um_read (x_user x) a) ∧ um_writable (x_user x) a = true) as [[c Hr] Hw]
    by (destruct seg; naive_solver).
  cbn [memcpy_out zip zip_with]. rewrite Hr, Hw.
  change (seg_puts seg x ((a, b) :: zip (seqZ (Z.succ a) (Z.of_nat (length l))) l))
    with (seg_puts seg (seg_write seg x (a, b)) (zip (seqZ (Z.succ a) (Z.of_nat (length l))) l)).
  destruct (IH (seg_write seg x (a, b)) (Z.succ a)) as [E1 E2].
  { intros y Hy. apply seg_can_write, Hc. by right. }
  rewrite E2. destruct seg; [..|done]; by rewrite <-E1.
Qed.

(** What moving over the addresses [l] gives: the memory and the buffer afterwards. *)
Definition moved (seg : uio_seg) (rw : uio_rw) (x : xmem) (l old : list Z) (x' : xmem) (piece : list Z) : Prop :=
  match rw with
  | UIO_READ => piece = old ∧ x' = seg_puts seg x (zip l old)
  | UIO_WRITE => x' = x ∧ Forall2 (λ a b, seg_read seg x a = Some b) l piece
  end.

Lemma moved_nil seg rw x : moved seg rw x [] [] x [].
Proof. by destruct rw. Qed.
Lemma moved_app seg rw x x1 x2 l1 l2 o1 o2 p1 p2 : length l1 = length o1 →
  moved seg rw x l1 o1 x1 p1 → moved seg rw x1 l2 o2 x2 p2 → moved seg rw x (l1 ++ l2) (o1 ++ o2) x2 (p1 ++ p2).
Proof.
  intros Hl. destruct rw; simpl.
  - intros [-> ->] [-> ->]. split; [done|]. rewrite zip_with_app by done. symmetry. apply seg_puts_app.
  - intros [-> H1] [-> H2]. split; [done|]. by apply Forall2_app.
Qed.
Lemma moved_can seg rw x l o x' p a : moved seg rw x l o x' p → seg_can seg rw x a → seg_can seg rw x' a.
Proof. destruct rw; simpl; [intros [_ ->]; apply seg_can_puts|by intros [-> _]]. Qed.
Lemma moved_space seg rw x l o x' p : moved seg rw x l o x' p → x_space x' = x_space x.
Proof. destruct rw; simpl; [intros [_ ->]; apply seg_puts_space|by intros [-> _]]. Qed.

Lemma copy_range base size x seg : 0 < size → seg ≠ UIO_SYSSPACE →
  (∀ a, a ∈ seqZ base size → seg_can seg UIO_WRITE x a ∨ seg_can seg UIO_READ x a) →
  uptr base ∧ size < 2 ^ 32 ∧ base + size ≤ USERSPACETOP ∧ 
  copycheck base size = inr size.
Proof.
  intros Hs Hseg Hc. assert (∀ a, a ∈ seqZ base size → 0 ≤ a < USERSPACETOP) as Hin
    by (intros a Ha; destruct (Hc a Ha), seg; naive_solver).
  pose proof (Hin base ltac:(apply elem_of_seqZ; lia)). pose proof (Hin (base + size - 1) ltac:(apply elem_of_seqZ; lia)).
  unfold USERSPACETOP, MIPS_KSEG0 in *. split_and!; [unfold uptr; lia|lia|lia|].
  rewrite copycheck_spec by (unfold uptr; lia). unfold USERSPACETOP, MIPS_KSEG0.
  rewrite decide_False by lia. f_equal. lia.
Qed.

Lemma wp_move_piece u base size piece x : 0 < size → Z.of_nat (length piece) = size →
  (∀ a, a ∈ seqZ base size → seg_can (uio_segflg u) (uio_rw_ u) x a) →
  wp (move_piece u base size piece) (λ r x', ∃ l, r = inr l ∧ Z.of_nat (length l) = size ∧
    moved (uio_segflg u) (uio_rw_ u) x (seqZ base size) piece x' l) x.
Proof.
  intros Hs Hlen Hc. unfold move_piece, moved. wp_steps.
  destruct (decide (uio_segflg u = UIO_SYSSPACE)) as [E|Hseg].
  - rewrite E. destruct (uio_rw_ u); wp_steps.
    + exists piece. split_and!; [done..|]. rewrite <-Hlen. by rewrite kput_puts.
    + exists (kget (x_kern x) base size). unfold kget. split_and!; [done|rewrite length_fmap, length_seqZ; lia|done|].
      apply Forall2_fmap_r. apply Forall_Forall2_diag, Forall_true. done.
  - destruct (copy_range base size x (uio_segflg u) Hs Hseg) as (Hu & H32 & Htop & Hck).
    { intros a Ha. specialize (Hc a Ha). destruct (uio_rw_ u); [by right|by left]. }
    destruct (uio_rw_ u) eqn:Erw.
    + assert (wp (let '(m, r) := copyout (x_user x) piece base size in
        putS (XMem (x_kern x) m (x_space x));;
        mret (match r with inl e => inl e | inr _ => inr piece end))
        (λ r x', ∃ l, r = inr l ∧ Z.of_nat (length l) = size ∧ l = piece ∧
          x' = seg_puts (uio_segflg u) x (zip (seqZ base size) piece)) x) as Hw.
      { unfold copyout. rewrite Hck, Z.eqb_refl. cbn [negb]. rewrite take_ge by lia.
        destruct (memcpy_out_puts (uio_segflg u) piece Hseg x base) as [E1 E2]; [by rewrite Hlen|].
        rewrite Hlen in E1, E2. rewrite E1. wp_steps. exists piece. split_and!; try done.
        rewrite <-E2. rewrite <-(seg_puts_space (uio_segflg u) (zip (seqZ base size) piece) x) at 1.
        by destruct (seg_puts _ _ _). }
      destruct (uio_segflg u); [exact Hw..|done].
    + assert (∃ l, copyin (x_user x) base size = inr l ∧ Z.of_nat (length l) = size ∧
        Forall2 (λ a b, um_read (x_user x) a = Some b) (seqZ base size) l) as (l & E & Hl & HF).
      { unfold copyin. rewrite Hck, Z.eqb_refl. cbn [negb].
        assert (∀ a, a ∈ seqZ base size → is_Some (um_read (x_user x) a)) as Hr
          by (intros a Ha; specialize (Hc a Ha); destruct (uio_segflg u); naive_solver).
        clear -Hr Hs. rewrite <-(Z2Nat.id size) in * by lia. set (n := Z.to_nat size) in *. clearbody n. clear Hs size.
        revert base Hr. induction n as [|n IH]; intros base Hr; [exists []; done|].
        rewrite seqZ_cons in * by lia. replace (Z.pred (Z.of_nat (S n))) with (Z.of_nat n) in * by lia.
        rewrite Nat2Z.id. destruct (Hr base) as [b Hb]; [left|]. cbn [memcpy_in]. rewrite Hb.
        destruct (IH (Z.succ base)) as (l & E & Hl & HF); [intros a Ha; apply Hr; by right|].
        rewrite Nat2Z.id in E. change (base + 1) with (Z.succ base).
        destruct (memcpy_in _ (Z.succ base) n) as [l'|]; simplify_eq/=. exists (b :: l). split_and!; [done|simpl; lia|].
        by constructor. }
      rewrite E. destruct (uio_segflg u); [wp_steps; by exists l..|done].
Qed.

(** ** The loop over the vectors *)
Record advanced (u : uio) (n : Z) (u' : uio) : Prop := {
  ad_addrs : addrs (uio_iov u') = drop (Z.to_nat n) (addrs (uio_iov u));
  ad_offset : uio_offset u' = uio_offset u + n;
  ad_resid : uio_resid u' = uio_resid u - n;
  ad_same : uio_segflg u' = uio_segflg u ∧ uio_rw_ u' = uio_rw_ u ∧ uio_space u' = uio_space u;
  ad_lens : Forall (λ v, 0 ≤ iov_len v) (uio_iov u');
}.

(** A [uio] with room for [n] more bytes. *)
Record uio_ok (u : uio) (n : Z) : Prop := {
  uo_n : 0 ≤ n ≤ uio_resid u;
  uo_resid : uio_resid u ≤ Z.of_nat (length (addrs (uio_iov u))) ∧ uio_resid u < 4294967296;
  uo_offset : 0 ≤ uio_offset u ∧ uio_offset u + n < 9223372036854775808;
  uo_lens : Forall (λ v, 0 ≤ iov_len v) (uio_iov u);
}.

Lemma advanced_0 u : uio_ok u 0 → advanced u 0 u.
Proof. intros []. constructor; [done|lia|lia|done|done]. Qed.
Lemma advanced_trans u n u1 m u2 : 0 ≤ n → 0 ≤ m → advanced u n u1 → advanced u1 m u2 → advanced u (n + m) u2.
Proof.
  intros Hn Hm [A1 A2 A3 (A4 & A5 & A6) A7] [B1 B2 B3 (B4 & B5 & B6) B7].
  constructor; [|lia|lia|split_and!; congruence|done]. rewrite B1, A1, drop_drop. f_equal. lia.
Qed.

Definition can_move (u : uio) (x : xmem) (n : Z) : Prop :=
  ∀ a, a ∈ take (Z.to_nat n) (addrs (uio_iov u)) → seg_can (uio_segflg u) (uio_rw_ u) x a.

(** The result of moving [n] bytes from or to the front of [buf]. *)
Definition moved_all (u : uio) (x : xmem) (buf : list Z) (n : Z) (r : option errno * list Z * uio) (x' : xmem) : Prop :=
  ∃ piece u', r = (None, piece ++ drop (Z.to_nat n) buf, u') ∧ Z.of_nat (length piece) = n ∧
    moved (uio_segflg u) (uio_rw_ u) x (take (Z.to_nat n) (addrs (uio_iov u))) (take (Z.to_nat n) buf) x' piece ∧
    advanced u n u'.

Definition loop_ok (l : list iovec) : Prop := ∀ fuel front rest n u x, uio_iov u = l → (2 * length l + 1 ≤ fuel)%nat →
  uio_ok u n → n ≤ Z.of_nat (length rest) → can_move u x n →
  wp (uiomove_loop fuel front rest n u) (λ r x', ∃ r', moved_all u x rest n r' x' ∧ r = (r'.1.1, front ++ r'.1.2, r'.2)) x.

Lemma loop_done fuel front rest u x : uio_ok u 0 →
  wp (uiomove_loop (S fuel) front rest 0 u)
    (λ r x', ∃ r', moved_all u x rest 0 r' x' ∧ r = (r'.1.1, front ++ r'.1.2, r'.2)) x.
Proof.
  intros Hu. cbn [uiomove_loop]. simpl. wp_steps. exists (None, [] ++ drop 0 rest, u). split; [|done]. exists [], u.
  split_and!; [done|done|apply moved_nil|by apply advanced_0].
Qed.

(** A used-up vector is passed over. *)
Lemma loop_skip v l : loop_ok l → iov_len v = 0 → ∀ fuel front rest n u x, uio_iov u = v :: l →
  (2 * length l + 2 ≤ fuel)%nat → uio_ok u n → n ≤ Z.of_nat (length rest) → can_move u x n →
  wp (uiomove_loop fuel front rest n u) (λ r x', ∃ r', moved_all u x rest n r' x' ∧ r = (r'.1.1, front ++ r'.1.2, r'.2)) x.
Proof.
  intros IH Ev fuel front rest n u x Hl Hf Hu Hn Hc. pose proof Hu as [[Hn0 Hnr] [Hrt Hr32] [Ho1 Ho2] Hlens].
  destruct fuel as [|fuel]; [lia|]. destruct (decide (n = 0)) as [->|Hnz]; [by apply loop_done|].
  cbn [uiomove_loop]. rewrite !(proj2 (Z.ltb_lt 0 _)) by lia. simpl. rewrite Hl, Ev. rewrite Hl in Hlens.
  apply Forall_cons in Hlens as [_ Hlens]. rewrite (proj2 (Z.ltb_ge n 0)) by lia. simpl.
  rewrite Hl, addrs_cons, Ev in Hrt. change (seqZ (iov_base v) 0) with (@nil Z) in Hrt. simpl in Hrt.
  destruct l as [|w l]; [simpl in Hrt; lia|].
  assert (addrs (uio_iov (set_iov (w :: l) u)) = addrs (uio_iov u)) as Ea
    by (simpl uio_iov; rewrite Hl, (addrs_cons v), Ev; done).
  eapply wp_mono; [apply IH; [done|lia| |done|]|].
  - constructor; simpl; done.
  - unfold can_move. by rewrite Ea.
  - intros r x' (r' & (p & u' & -> & Hp & Hm & Had) & ->). exists (None, p ++ drop (Z.to_nat n) rest, u').
    split; [|done]. exists p, u'. rewrite Ea in Hm. split_and!; [done..|].
    destruct Had as [A1 A2 A3 A4 A5]. constructor; try done. by rewrite A1, Ea.
Qed.

Lemma moved_all_trans u n size x x1 x2 rest piece u1 r : 0 ≤ size ≤ n → n ≤ Z.of_nat (length rest) →
  Z.of_nat (length piece) = size → n ≤ Z.of_nat (length (addrs (uio_iov u))) →
  moved (uio_segflg u) (uio_rw_ u) x (take (Z.to_nat size) (addrs (uio_iov u))) (take (Z.to_nat size) rest) x1 piece →
  advanced u size u1 → moved_all u1 x1 (drop (Z.to_nat size) rest) (n - size) r x2 →
  moved_all u x rest n (r.1.1, piece ++ r.1.2, r.2) x2.
Proof.
  intros Hs Hn Hp Hna Hm Had (p2 & u2 & -> & Hp2 & Hm2 & Had2). exists (piece ++ p2), u2. simpl.
  pose proof Had as [A1 _ _ (A4 & A5 & A6) _]. rewrite A4, A5, A1 in Hm2.
  split_and!.
  - rewrite <-app_assoc, drop_drop. by replace (Z.to_nat size + Z.to_nat (n - size))%nat with (Z.to_nat n) by lia.
  - rewrite length_app. lia.
  - replace (Z.to_nat n) with (Z.to_nat size + Z.to_nat (n - size))%nat by lia. rewrite <-!take_take_drop.
    eapply moved_app; [|done|done]. rewrite !length_take. lia.
  - replace n with (size + (n - size)) by lia. eapply advanced_trans; [lia|lia|done|done].
Qed.

Lemma wp_uiomove_loop l : loop_ok l.
Proof.
  induction l as [|v l IH]; intros fuel front rest n u x Hl Hf Hu Hn Hc; (destruct fuel as [|fuel]; [simpl in Hf; lia|]);
    pose proof Hu as [[Hn0 Hnr] [Hrt Hr32] [Ho1 Ho2] Hlens].
  { rewrite Hl in Hrt. simpl in Hrt. assert (n = 0) as -> by lia. by apply loop_done. }
  destruct (decide (n = 0)) as [->|Hnz]; [by apply loop_done|]. destruct (decide (iov_len v = 0)) as [Ev|Hv].
  { by apply (loop_skip v l); [..|simpl in Hf; lia| | |]. }
  cbn [uiomove_loop]. rewrite !(proj2 (Z.ltb_lt 0 _)) by lia. cbn [andb]. rewrite Hl. rewrite Hl in Hlens.
  apply Forall_cons in Hlens as [Hv0 Hlens].
  set (size := if n <? iov_len v then n else iov_len v).
  assert (size = Z.min n (iov_len v)) as Es by (unfold size; destruct (Z.ltb_spec n (iov_len v)); lia).
  rewrite (proj2 (Z.eqb_neq size 0)) by lia. set (v' := Iovec (iov_base v + size) (iov_len v - size)).
  assert (addrs (uio_iov u) = seqZ (iov_base v) size ++ addrs (v' :: l)) as Ea.
  { rewrite Hl, !addrs_cons. simpl. rewrite app_assoc. f_equal.
    replace (iov_len v) with (size + (iov_len v - size)) at 1 by lia. by rewrite seqZ_app by lia. }
  assert (length (seqZ (iov_base v) size) = Z.to_nat size) as Lsz by apply length_seqZ.
  assert (take (Z.to_nat size) (addrs (uio_iov u)) = seqZ (iov_base v) size) as Et
    by (rewrite Ea, <-Lsz; apply take_app_length).
  wp_steps. eapply wp_mono; [apply wp_move_piece; [lia|rewrite length_take; lia|]|].
  { intros a Ha. apply Hc. rewrite Ea, take_app_ge by lia. apply elem_of_app. by left. }
  intros r x1 (piece & -> & Hp & Hm). cbv iota. rewrite s64_id, u32_id by lia.
  match goal with |- wp (uiomove_loop _ _ _ _ ?u') _ _ => set (u1 := u') end.
  assert (advanced u size u1) as Had.
  { constructor; try done. - by rewrite Ea, <-Lsz, drop_app_length. - constructor; [simpl; lia|done]. }
  assert (uio_ok u1 (n - size)) as Hu1.
  { constructor; simpl uio_resid; simpl uio_offset; [lia| |lia|apply Had]. rewrite (ad_addrs _ _ _ Had), length_drop. lia. }
  assert (can_move u1 x1 (n - size)) as Hc1.
  { intros a Ha. eapply moved_can; [exact Hm|]. apply Hc. rewrite (ad_addrs _ _ _ Had) in Ha.
    replace (Z.to_nat n) with (Z.to_nat size + Z.to_nat (n - size))%nat by lia. rewrite <-take_take_drop.
    apply elem_of_app. by right. }
  eapply wp_mono with (P := λ r x', ∃ r', moved_all u1 x1 (drop (Z.to_nat size) rest) (n - size) r' x' ∧
    r = (r'.1.1, (front ++ piece) ++ r'.1.2, r'.2)).
  - destruct (decide (n - size = 0)) as [E0|Hne].
    + rewrite E0 in *. destruct fuel as [|fuel]; [simpl in Hf; lia|]. by apply loop_done.
    + apply (loop_skip v' l); [done|simpl; lia|done|simpl in Hf; lia|done|rewrite length_drop; lia|done].
  - intros r x2 (r' & Hr' & ->). exists (r'.1.1, piece ++ r'.1.2, r'.2). split; [|by rewrite <-app_assoc].
    rewrite <-Et in Hm. eapply moved_all_trans; [..|exact Hr']; try done; lia.
Qed.

Definition space_ok (u : uio) (x : xmem) : Prop :=
  if decide (uio_segflg u = UIO_SYSSPACE) then uio_space u = 0 else uio_space u = x_space x.

Lemma space_ok_next u x u' x' n : space_ok u x → advanced u n u' → x_space x' = x_space x → space_ok u' x'.
Proof. unfold space_ok. intros Hs [_ _ _ (-> & _ & ->) _] ->. done. Qed.

Lemma wp_uiomove u x buf n : uio_ok u n → n ≤ Z.of_nat (length buf) → can_move u x n → space_ok u x →
  wp (uiomove buf n u) (moved_all u x buf n) x.
Proof.
  intros Hu Hn Hc Hs. unfold uiomove. wp_steps. apply wp_kassert.
  { unfold space_ok in Hs. destruct (decide _); by apply Z.eqb_eq. }
  eapply wp_mono; [by apply (wp_uiomove_loop (uio_iov u)); try lia|].
  intros r x' (r' & Hr & ->). by destruct r' as [[e b] u'].
Qed.

Lemma uio_ok_next u n m u' : uio_ok u (n + m) → 0 ≤ n → 0 ≤ m → advanced u n u' → uio_ok u' m.
Proof.
  intros [H1 H2 H3 H4] Hn Hm [A1 A2 A3 A4 A5]. constructor; rewrite ?A1, ?A2, ?A3, ?length_drop; try lia. done.
Qed.
Lemma can_move_next u n m x u' x' l o p : 0 ≤ n → 0 ≤ m → can_move u x (n + m) → advanced u n u' →
  moved (uio_segflg u) (uio_rw_ u) x l o x' p → can_move u' x' m.
Proof.
  intros Hn Hm Hc [A1 _ _ (A4 & A5 & _) _] Hmv a Ha. rewrite A1 in Ha. rewrite A4, A5.
  eapply moved_can; [done|]. apply Hc. rewrite Z2Nat.inj_add, <-take_take_drop by done. apply elem_of_app. by right.
Qed.
Lemma uio_ok_le u n m : uio_ok u n → 0 ≤ m ≤ n → uio_ok u m.
Proof. intros [] Hm. constructor; try done; lia. Qed.
Lemma can_move_le u x n m : can_move u x n → 0 ≤ m ≤ n → can_move u x m.
Proof.
  intros Hc Hm a Ha. apply Hc. replace (Z.to_nat n) with (Z.to_nat m + Z.to_nat (n - m))%nat by lia.
  rewrite <-take_take_drop. apply elem_of_app. by left.
Qed.

(** Zeros, in pieces of 16. *)
Lemma wp_uiomovezeros_loop fuel : ∀ n u x, n < Z.of_nat fuel → uio_ok u n → can_move u x n → space_ok u x →
  uio_rw_ u = UIO_READ →
  wp (uiomovezeros_loop fuel n u) (λ r x', ∃ u', r = (None, u') ∧ advanced u n u' ∧
    x' = seg_puts (uio_segflg u) x (zip (take (Z.to_nat n) (addrs (uio_iov u))) (replicate (Z.to_nat n) 0))) x.
Proof.
  induction fuel as [|fuel IH]; intros n u x Hf Hu Hc Hs Hrw; [destruct Hu; lia|]. cbn [uiomovezeros_loop].
  destruct (Z.ltb_spec 0 n).
  2:{ assert (n = 0) as -> by (destruct Hu; lia). wp_steps. exists u. split_and!; [done|by apply advanced_0|done]. }
  set (amt := if n <? 16 then n else 16). assert (0 < amt ≤ n ∧ amt ≤ 16) by (unfold amt; destruct (Z.ltb_spec n 16); lia).
  replace n with (amt + (n - amt)) in Hu, Hc by lia.
  wp_steps. eapply wp_mono; [apply wp_uiomove; [apply (uio_ok_le u (amt + (n - amt))); [done|lia]|rewrite length_replicate; lia|apply (can_move_le u x (amt + (n - amt))); [done|lia]|done]|].
  intros r x1 (p & u1 & -> & Hp & Hm & Had). pose proof Had as [A1 _ _ (A4 & A5 & _) _].
  eapply wp_mono; [apply IH|].
  { lia. } { eapply uio_ok_next; [done|lia|lia|done]. } { eapply can_move_next; [| |done|done|done]; lia. }
  { eapply space_ok_next; [done|done|by eapply moved_space]. } { congruence. }
  intros r x2 (u2 & -> & Had2 & ->). exists u2. split_and!; [done| |].
  - replace n with (amt + (n - amt)) by lia. eapply advanced_trans; [lia|lia|done|done].
  - rewrite Hrw in Hm. destruct Hm as [_ ->]. rewrite A4, A1, <-seg_puts_app.
    destruct Hu as [Hu1 [Hu2 _] _ _].
    replace (Z.to_nat n) with (Z.to_nat amt + Z.to_nat (n - amt))%nat by lia.
    rewrite replicate_add, <-take_take_drop, zip_with_app by (rewrite length_take, length_replicate; lia).
    rewrite take_replicate. by replace (Z.to_nat amt `min` 16)%nat with (Z.to_nat amt) by lia.
Qed.

Lemma wp_uiomovezeros n u x : uio_ok u n → can_move u x n → space_ok u x → uio_rw_ u = UIO_READ →
  wp (uiomovezeros n u) (λ r x', ∃ u', r = (None, u') ∧ advanced u n u' ∧
    x' = seg_puts (uio_segflg u) x (zip (take (Z.to_nat n) (addrs (uio_iov u))) (replicate (Z.to_nat n) 0))) x.
Proof.
  intros Hu Hc Hs Hrw. unfold uiomovezeros. wp_steps. apply wp_kassert; [by apply bool_decide_eq_true|].
  apply wp_uiomovezeros_loop; try done. lia.
Qed.

(** C17: [uiomove] of [n] bytes, with no more than [uio_resid] asked for and the
    memory accessible, returns; it moves exactly [n] bytes, in order, between the
    front of the buffer and the first [n] addresses of the vectors (however many
    vectors, empty ones included), advances the vectors and the offset by [n] and
    reduces the residue by [n]; [uiomovezeros] stores zeros in the same way. *)
Theorem uiomove_moves_in_order u x buf n : uio_ok u n → can_move u x n → space_ok u x →
  (n ≤ Z.of_nat (length buf) → ∃ piece u' x', uiomove buf n u x = Ok ((None, piece ++ drop (Z.to_nat n) buf, u'), x') ∧
    Z.of_nat (length piece) = n ∧
    moved (uio_segflg u) (uio_rw_ u) x (take (Z.to_nat n) (addrs (uio_iov u))) (take (Z.to_nat n) buf) x' piece ∧
    advanced u n u') ∧
  (uio_rw_ u = UIO_READ → ∃ u', uiomovezeros n u x = Ok ((None, u'),
      seg_puts (uio_segflg u) x (zip (take (Z.to_nat n) (addrs (uio_iov u))) (replicate (Z.to_nat n) 0))) ∧
    advanced u n u').
Proof.
  intros Hu Hc Hs. split.
  - intros Hn. pose proof (wp_uiomove u x buf n Hu Hn Hc Hs) as (r & x' & E & p & u' & -> & H)%wp_exists.
    exists p, u', x'. done.
  - intros Hrw. pose proof (wp_uiomovezeros n u x Hu Hc Hs Hrw) as (r & x' & E & u' & -> & H & ->)%wp_exists. by exists u'.
Qed.

(** Five bytes to user memory in two vectors, with an empty one between. *)
Definition scatter : uio := Uio [Iovec 0x1800 2; Iovec 0 0; Iovec 0x1900 8] 100 10 UIO_USERSPACE UIO_READ 7.

Lemma uiomove_moves_in_order_witness :
  ∃ u' x', uiomove [1; 2; 3; 4; 5; 6] 5 scatter (XMem (λ _, 0) demo_um 7) = Ok ((None, [1; 2; 3; 4; 5; 6], u'), x') ∧
    uio_resid u' = 5 ∧ um_read (x_user x') 0x1901 = Some 4.
Proof.
  destruct (uiomove_moves_in_order scatter (XMem (λ _, 0) demo_um 7) [1; 2; 3; 4; 5; 6] 5) as [H _].
  - constructor; simpl; [lia| |lia|by repeat constructor]. by vm_compute.
  - intros a Ha. change (take (Z.to_nat 5) (addrs (uio_iov scatter))) with [6144; 6145; 6400; 6401; 6402] in Ha.
    repeat (apply elem_of_cons in Ha as [->|Ha]; [by repeat split; eauto|]). by apply elem_of_nil in Ha.
  - done.
  - destruct H as (p & u' & x' & E & Hp & [-> ->] & Had); [simpl; lia|]. exists u'. eexists. split_and!; [exact E| |by vm_compute].
    by rewrite (ad_resid _ _ _ Had).
Defined.
