(* ===== verification/FileSys.v ===== *)
(** File system calls: [kern/syscall/file_syscalls.c], with the handling of file
    tables in [thread_fork] and [thread_exit] ([kern/thread/thread.c]).

    File handles are shared: [dup2] and [fork] make several table slots point to
    one handle, so the handles live in a store keyed by address and a table is
    a list of addresses, 0 for NULL. Reading a freed handle is undefined.

    The layer below is used through the interface [VfsOps]: the virtual file
    system entry points of [vfs.h], the vnode operations of [vnode.h] and the
    user memory of the running process. The theorems hold for every
    implementation of it. *)

From stdpp Require Import base tactics numbers list gmap.
From S2P Require Import Prelude KernDefs CopyInOut.
Local Open Scope Z_scope.

Definition bytes : Type := list Z.
(** "con:" *)
Definition con_name : bytes := [99; 111; 110; 58].

(** A path handed to the virtual file system: a buffer of the kernel, or the
    address of a string in user memory. *)
Inductive vpath : Type := KernPath (s : bytes) | UserPath (a : Z).

Class VfsOps (W : Type) := {
  user_mem : W → umem;
  (** What an uninitialised [off_t] of a fresh block at an address holds. *)
  junk_offset : Z → Z;
  vfs_open : vpath → Z → W → result Z * W;
  vfs_close : Z → W → W;
  (** [VOP_READ] and [VOP_WRITE] on a uio for [len] bytes at [buf] and file
      position [off]; on success, the new position and what is left. *)
  vop_read : Z → Z → Z → Z → W → result (Z * Z) * W;
  vop_write : Z → Z → Z → Z → W → result (Z * Z) * W;
  vop_stat : Z → W → result Z;          (* st_size *)
  vop_tryseek : Z → Z → W → result unit;
  vfs_chdir : bytes → W → result unit * W;
  (** [vfs_getcwd] into [len] bytes at [buf]; on success, what is left. *)
  vfs_getcwd : Z → Z → W → result Z * W;
  user_store : Z → Z → W → W;
  user_strlen : Z → W → Z;
}.

Record file_handle := FileHandle {
  filename : bytes;
  flags : Z;
  offset : Z;
  references : Z;
  filelock : Z;
  vnode : Z;
}.

Definition set_offset (o : Z) (h : file_handle) : file_handle :=
  FileHandle (filename h) (flags h) o (references h) (filelock h) (vnode h).
Definition set_references (n : Z) (h : file_handle) : file_handle :=
  FileHandle (filename h) (flags h) (offset h) n (filelock h) (vnode h).

Section filesys.
Context {W : Type} {VO : VfsOps W}.

Record fsys := FSys {
  handles : gmap Z file_handle;   (* live file handles *)
  flocks : gset Z;                (* live file locks *)
  tables : list (list Z);         (* fd_table of each thread *)
  cur : nat;                      (* curthread *)
  fresh : Z;                      (* next kernel address *)
  oracle : list bool;             (* whether the next allocations succeed *)
  world : W;
}.

Definition set_handles (m : gmap Z file_handle) (s : fsys) : fsys :=
  FSys m (flocks s) (tables s) (cur s) (fresh s) (oracle s) (world s).
Definition set_flocks (l : gset Z) (s : fsys) : fsys :=
  FSys (handles s) l (tables s) (cur s) (fresh s) (oracle s) (world s).
Definition set_tables (t : list (list Z)) (s : fsys) : fsys :=
  FSys (handles s) (flocks s) t (cur s) (fresh s) (oracle s) (world s).
Definition set_world (w : W) (s : fsys) : fsys :=
  FSys (handles s) (flocks s) (tables s) (cur s) (fresh s) (oracle s) w.

(** *** Memory *)
(** Whether an allocation succeeds, and the address it gives out. *)
Definition alloc : M fsys Z :=
  s ← getS;
  match oracle s with
  | true :: o =>
      putS (FSys (handles s) (flocks s) (tables s) (cur s) (fresh s + 1) o (world s));; mret (fresh s)
  | false :: o =>
      putS (FSys (handles s) (flocks s) (tables s) (cur s) (fresh s) o (world s));; mret 0
  | [] => mret 0
  end.
Definition get_handle (p : Z) : M fsys file_handle := s ← getS; of_opt (handles s !! p).
Definition put_handle (p : Z) (h : file_handle) : M fsys unit :=
  modify (λ s, set_handles (<[p := h]> (handles s)) s).
Definition free_handle (p : Z) : M fsys unit :=
  s ← getS;
  if decide (is_Some (handles s !! p)) then modify (set_handles (delete p (handles s))) else undef.
(** [lock_create] and [lock_destroy] of the lock of a file. *)
Definition new_lock : M fsys Z :=
  k ← alloc;
  if k =? 0 then mret 0 else modify (λ s, set_flocks ({[k]} ∪ flocks s) s);; mret k.
Definition kill_lock (k : Z) : M fsys unit :=
  s ← getS; if decide (k ∈ flocks s) then modify (set_flocks (flocks s ∖ {[k]})) else undef.
(** [lock_acquire] and [lock_release] touch the lock. *)
Definition use_lock (k : Z) : M fsys unit :=
  s ← getS; if decide (k ∈ flocks s) then mret tt else undef.

(** *** The table of the current thread *)
Definition my_table : M fsys (list Z) := s ← getS; of_opt (tables s !! cur s).
Definition fd_get (fd : Z) : M fsys Z := t ← my_table; of_opt (zget t fd).
Definition fd_set (fd p : Z) : M fsys unit :=
  t ← my_table; t' ← of_opt (zset fd p t);
  modify (λ s, set_tables (<[cur s := t']> (tables s)) s).

Definition bad_fd (fd : Z) : M fsys bool :=
  if (fd <? 0) || (OPEN_MAX <=? fd) then mret true
  else p ← fd_get fd; mret (p =? 0).

Definition do_vfs_close (v : Z) : M fsys unit := modify (λ s, set_world (vfs_close v (world s)) s).

(** ** sys_open *)
(** The first NULL slot at or after [i]; [OPEN_MAX] when there is none. *)
Fixpoint first_free (t : list Z) (i : Z) : Z :=
  match t with
  | [] => i
  | p :: t => if p =? 0 then i else first_free t (i + 1)
  end.

(** The tail of [sys_open]: opening the file for the new handle [p], whose lock
    is [k] ([file_syscalls.c:210-236]). *)
Definition open_vnode (dest : bytes) (fname flag index p k : Z) : M fsys (result Z) :=
  s ← getS;
  let '(r, w') := vfs_open (UserPath fname) flag (world s) in
  modify (set_world w');;
  match r with
  | inl e => kill_lock k;; free_handle p;; fd_set index 0;; mret (inl e)
  | inr v =>
      put_handle p (FileHandle dest flag (junk_offset p) 1 k v);;
      if flag =? O_APPEND then
        s ← getS;
        match vop_stat v (world s) with
        | inl e => kill_lock k;; free_handle p;; fd_set index 0;; mret (inl e)
        | inr size => put_handle p (FileHandle dest flag size 1 k v);; mret (inr index)
        end
      else put_handle p (FileHandle dest flag 0 1 k v);; mret (inr index)
  end.

(** Filling in the slot found by the loop ([file_syscalls.c:185-198]), then the tail. *)
Definition open_slot (dest : bytes) (fname flag index : Z) : M fsys (result Z) :=
  p ← alloc;
  if p =? 0 then mret (inl ENOMEM)
  else
    fd_set index p;;
    put_handle p (FileHandle dest flag (junk_offset p) 1 0 0);;
    k ← new_lock;
    if k =? 0 then free_handle p;; fd_set index 0;; mret (inl ENOMEM)
    else
      put_handle p (FileHandle dest flag (junk_offset p) 1 k 0);;
      open_vnode dest fname flag index p k.

Definition sys_open (fname flag : Z) : M fsys (result Z) :=
  if fname =? 0 then mret (inl EFAULT)
  else
    w ← gets world;
    match copyinstr (user_mem w) fname PATH_MAX with
    | (_, inl e) => mret (inl e)
    | (d, inr _) =>
        let dest := removelast d in
        if PATH_MAX <? Z.of_nat (length dest) then mret (inl ENAMETOOLONG)
        else
          t ← my_table;
          let index := first_free t 0 in
          if index <? OPEN_MAX then open_slot dest fname flag index
          else mret (inl ENFILE)
    end.

(** ** sys_read and sys_write *)
(** The check of the buffer: [copyinstr] of up to [NAME_MAX] bytes into a block
    of one byte, which the allocator rounds up to [CHECK_BLOCK]. Storing past
    the end of that block corrupts the heap. *)
Definition CHECK_BLOCK : Z := 16.
Definition check_buffer (buf : Z) : M fsys (option errno) :=
  check ← alloc;
  w ← gets world;
  let '(stored, r) := copyinstr (user_mem w) buf NAME_MAX in
  if check =? 0 then mret (Some EFAULT)
  else if CHECK_BLOCK <? Z.of_nat (length stored) then undef
  else mret (match r with inl e => Some e | inr _ => None end).

(** The transfer itself, under the lock of the file. *)
Definition file_io (op : Z → Z → Z → Z → W → result (Z * Z) * W) (fd buf buflen : Z) : M fsys (result Z) :=
  b ← bad_fd fd;
  if (b : bool) then mret (inl EBADF)
  else
    p ← fd_get fd;
    h ← get_handle p;
    use_lock (filelock h);;
    s ← getS;
    let '(r, w') := op (vnode h) buf buflen (offset h) (world s) in
    modify (set_world w');;
    match r with
    | inl e => use_lock (filelock h);; mret (inl e)
    | inr (off, resid) =>
        h ← get_handle p;
        put_handle p (set_offset off h);;
        use_lock (filelock h);;
        mret (inr (s32 (u32 (buflen - resid))))
    end.

Definition file_rw (op : Z → Z → Z → Z → W → result (Z * Z) * W) (fd buf buflen : Z) : M fsys (result Z) :=
  c ← check_buffer buf;
  match c with
  | Some e => mret (inl e)
  | None => file_io op fd buf buflen
  end.

Definition sys_write : Z → Z → Z → M fsys (result Z) := file_rw vop_write.
Definition sys_read : Z → Z → Z → M fsys (result Z) := file_rw vop_read.

(** ** sys_close *)
Definition sys_close (fd : Z) : M fsys (result unit) :=
  b ← bad_fd fd;
  if (b : bool) then mret (inl EBADF)
  else
    p ← fd_get fd;
    h ← get_handle p;
    if 1 <? references h then
      put_handle p (set_references (references h - 1) h);; fd_set fd 0;; mret (inr tt)
    else
      kill_lock (filelock h);;
      do_vfs_close (vnode h);;
      free_handle p;;
      fd_set fd 0;;
      mret (inr tt).

(** ** sys_lseek *)
(** [*retval] is an [int]: it receives the low half of the offset. *)
Definition sys_lseek (fd pos whence : Z) : M fsys (result Z) :=
  b ← bad_fd fd;
  if (b : bool) then mret (inl EBADF)
  else
    p ← fd_get fd;
    h ← get_handle p;
    if bool_decide (filename h = con_name) then mret (inl ESPIPE)
    else if negb ((whence =? SEEK_SET) || (whence =? SEEK_CUR) || (whence =? SEEK_END))
      then mret (inl EINVAL)
    else if pos <? 0 then mret (inl EINVAL)
    else
      use_lock (filelock h);;
      s ← getS;
      match vop_stat (vnode h) (world s) with
      | inl e => use_lock (filelock h);; mret (inl e)
      | inr file_size =>
          let new := if whence =? SEEK_SET then pos
                     else if whence =? SEEK_CUR then s64 (offset h + pos)
                     else s64 (file_size + pos) in
          put_handle p (set_offset new h);;
          s ← getS;
          match vop_tryseek (vnode h) new (world s) with
          | inl e => use_lock (filelock h);; mret (inl e)
          | inr _ => use_lock (filelock h);; mret (inr (s32 new))
          end
      end.

(** ** sys_dup2 *)
Definition sys_dup2 (oldfd newfd : Z) : M fsys (result Z) :=
  b ← (if (newfd <? 0) || (oldfd <? 0) || (OPEN_MAX <=? newfd) || (OPEN_MAX <=? oldfd) then mret true
       else p ← fd_get oldfd; mret (p =? 0));
  if (b : bool) then mret (inl EBADF)
  else if oldfd =? newfd then mret (inr newfd)
  else
    q ← fd_get newfd;
    (if q =? 0 then mret tt else _ ← sys_close newfd; mret tt);;
    p ← fd_get oldfd;
    fd_set newfd p;;
    h ← get_handle p;
    use_lock (filelock h);;
    put_handle p (set_references (references h + 1) h);;
    use_lock (filelock h);;
    mret (inr newfd).

Definition sys_chdir (pathname : Z) : M fsys (result unit) :=
  w ← gets world;
  match copyinstr (user_mem w) pathname PATH_MAX with
  | (_, inl e) => mret (inl e)
  | (d, inr _) =>
      s ← getS;
      let '(r, w') := vfs_chdir (removelast d) (world s) in
      modify (set_world w');; mret r
  end.

(** [buf] is a user address used as a kernel buffer; [sizeof(buf)] is the size
    of the pointer. *)
Definition sys__getcwd (buf buflen : Z) : M fsys (result Z) :=
  c ← check_buffer buf;
  match c with
  | Some e => mret (inl e)
  | None =>
      if buf =? 0 then mret (inl EFAULT)
      else
        s ← getS;
        let '(r, w') := vfs_getcwd buf buflen (world s) in
        modify (set_world w');;
        match r with
        | inl e => mret (inl e)
        | inr resid =>
            modify (λ s, set_world (user_store (u32 (buf + u32 (4 - 1 - resid))) 0 (world s)) s);;
            w ← gets world;
            mret (inr (s32 (user_strlen buf w)))
        end
  end.

(** ** init_filetable *)
(** The three console handles of a new table. [vs], [ks] and [ps] are the vnodes,
    locks and handles made so far, which a failure gives back in this order;
    the slots of the table keep pointing to the freed handles. *)
Definition undo_all (vs ks ps : list Z) : M fsys unit :=
  foldr (λ v m, do_vfs_close v;; m) (mret tt) vs;;
  foldr (λ k m, kill_lock k;; m) (mret tt) ks;;
  foldr (λ p m, free_handle p;; m) (mret tt) ps.

Fixpoint open_consoles (n : nat) (fl : list Z) (vs ks ps : list Z) (t : list Z) :
    M fsys (result unit * list Z) :=
  match fl with
  | [] => mret (inr tt, t)
  | f :: fl =>
      s ← getS;
      let '(r, w') := vfs_open (KernPath con_name) f (world s) in
      modify (set_world w');;
      match r with
      | inl e => undo_all vs ks ps;; mret (inl e, t)
      | inr v =>
          p ← alloc;
          if p =? 0 then undo_all (vs ++ [v]) ks ps;; mret (inl ENOMEM, t)
          else
            put_handle p (FileHandle con_name f (junk_offset p) 1 0 v);;
            k ← new_lock;
            if k =? 0 then undo_all (vs ++ [v]) ks (ps ++ [p]);; mret (inl ENOMEM, <[n := p]> t)
            else
              put_handle p (FileHandle con_name f (junk_offset p) 1 k v);;
              open_consoles (S n) fl (vs ++ [v]) (ks ++ [k]) (ps ++ [p]) (<[n := p]> t)
      end
  end.
(** The table it fills in and the result. *)
Definition init_filetable : M fsys (result unit * list Z) :=
  open_consoles 0 [O_RDONLY; O_WRONLY; O_WRONLY] [] [] [] (replicate (Z.to_nat OPEN_MAX) 0).

(** ** Tables in thread_fork and thread_exit *)
(** The loop of [thread_fork] over the parent's table. *)
Fixpoint share_all (t : list Z) : M fsys unit :=
  match t with
  | [] => mret tt
  | p :: t =>
      (if p =? 0 then mret tt
       else h ← get_handle p; put_handle p (set_references (references h + 1) h));;
      share_all t
  end.
Definition fork_table : M fsys nat :=
  t ← my_table;
  share_all t;;
  s ← getS;
  putS (set_tables (tables s ++ [t]) s);;
  mret (length (tables s)).

(** The loop of [thread_exit]; the table dies with the thread. *)
Fixpoint drop_all (t : list Z) : M fsys unit :=
  match t with
  | [] => mret tt
  | p :: t =>
      (if p =? 0 then mret tt
       else
         h ← get_handle p;
         if references h <=? 1 then
           kill_lock (filelock h);; do_vfs_close (vnode h);; free_handle p
         else put_handle p (set_references (references h - 1) h));;
      drop_all t
  end.
Definition exit_table : M fsys unit :=
  t ← my_table;
  drop_all t;;
  modify (λ s, set_tables (<[cur s := []]> (tables s)) s).
End filesys.
Arguments fsys : clear implicits.
