(* ===== verification/FileSysInv.v ===== *)
(** The reference counts of file handles are right after every operation of
    [FileSys]: a handle counts the table slots, over all threads, that point to
    it, so no slot dangles and no handle outlives its last slot. *)

From stdpp Require Import base tactics numbers list gmap.
From S2P Require Import Prelude KernDefs CopyInOut FileSys.
Local Open Scope Z_scope.

Definition occ (p : Z) (t : list Z) : nat := length (filter (λ q, q = p) t).
Definition occs (p : Z) (ts : list (list Z)) : nat := foldr (λ t n, (occ p t + n)%nat) 0%nat ts.

Lemma occ_insert p t i x y : t !! i = Some x →
  (occ p (<[i := y]> t) + (if decide (x = p) then 1 else 0) =
   occ p t + (if decide (y = p) then 1 else 0))%nat.
Proof.
  intros (l1 & l2 & -> & ->)%list_elem_of_split_length. unfold occ.
  rewrite insert_mid, !filter_app, !length_app, !filter_cons. repeat case_decide; simpl; lia.
Qed.

Lemma occs_insert p ts i t t' : ts !! i = Some t →
  (occs p (<[i := t']> ts) + occ p t = occs p ts + occ p t')%nat.
Proof.
  intros (l1 & l2 & -> & ->)%list_elem_of_split_length. rewrite insert_mid.
  induction l1 as [|u l1 IH]; simpl; lia.
Qed.

Lemma occs_slot p ts c t i x y : ts !! c = Some t → t !! i = Some x →
  (occs p (<[c := <[i := y]> t]> ts) + (if decide (x = p) then 1 else 0) =
   occs p ts + (if decide (y = p) then 1 else 0))%nat.
Proof.
  intros Ht Hi. pose proof (occs_insert p _ _ _ (<[i := y]> t) Ht). pose proof (occ_insert p _ _ _ y Hi). lia.
Qed.

Lemma occs_app p ts t : occs p (ts ++ [t]) = (occs p ts + occ p t)%nat.
Proof. induction ts as [|u ts IH]; simpl; lia. Qed.

Lemma occ_pos p t : p ∈ t ↔ (0 < occ p t)%nat.
Proof.
  unfold occ. split.
  - intros Hp. destruct (filter (λ q, q = p) t) as [|x l] eqn:E; [|simpl; lia].
    assert (p ∈ filter (λ q, q = p) t) as Hin by (by apply list_elem_of_filter).
    rewrite E in Hin. by apply elem_of_nil in Hin.
  - destruct (filter (λ q, q = p) t) as [|x l] eqn:E; [simpl; lia|]. intros _.
    assert (x ∈ filter (λ q, q = p) t) as Hin by (rewrite E; left).
    apply list_elem_of_filter in Hin as [-> ?]. done.
Qed.

Lemma occs_pos p ts : (0 < occs p ts)%nat ↔ ∃ t, t ∈ ts ∧ p ∈ t.
Proof.
  induction ts as [|t ts IH]; simpl.
  - split; [lia|]. by intros (t & ?%elem_of_nil & _).
  - split.
    + intros H. destruct (decide (0 < occ p t)%nat) as [Hp|]; [exists t; split; [left|by apply occ_pos]|].
      destruct (proj1 IH) as (u & Hu & Hp); [lia|]. exists u. by split; [right|].
    + intros (u & [->|Hu]%elem_of_cons & Hp); [apply occ_pos in Hp; lia|].
      assert (0 < occs p ts)%nat by (apply IH; eauto). lia.
Qed.

(** ** Handles against a count of the slots that point to them *)
Record hinv (H : gmap Z file_handle) (L : gset Z) (fr : Z) (c : Z → nat) : Prop := {
  hi_slot : ∀ p, p ≠ 0 → (0 < c p)%nat → is_Some (H !! p);
  hi_refs : ∀ p h, H !! p = Some h → references h = Z.of_nat (c p) ∧ 1 ≤ references h;
  hi_lock : ∀ p h, H !! p = Some h → filelock h ∈ L;
  hi_inj : ∀ p1 p2 h1 h2, H !! p1 = Some h1 → H !! p2 = Some h2 →
    filelock h1 = filelock h2 → p1 = p2;
  hi_used : ∀ k, k ∈ L → ∃ p h, H !! p = Some h ∧ filelock h = k;
  hi_fresh : 0 < fr ∧ (∀ p h, H !! p = Some h → 0 < p < fr) ∧ (∀ k, k ∈ L → 0 < k < fr);
}.

Lemma hinv_ext H L fr fr' c c' : hinv H L fr c → fr ≤ fr' → (∀ q, q ≠ 0 → c' q = c q) →
  hinv H L fr' c'.
Proof.
  intros [H1 H2 H3 H4 H5 (H6 & H7 & H8)] Hfr Hc. constructor; try done.
  - intros p Hp. rewrite Hc by done. by apply H1.
  - intros p h Hp. rewrite Hc by (specialize (H7 p h Hp); lia). by apply H2.
  - split_and!; [lia| |].
    + intros p h Hp. specialize (H7 p h Hp). lia.
    + intros k Hk. specialize (H8 k Hk). lia.
Qed.

(** Rewriting a handle, its lock unchanged. *)
Lemma hinv_update H L fr c c' p h h' : hinv H L fr c → H !! p = Some h →
  filelock h' = filelock h → references h' = Z.of_nat (c' p) → 1 ≤ references h' →
  (∀ q, q ≠ 0 → q ≠ p → c' q = c q) → hinv (<[p := h']> H) L fr c'.
Proof.
  intros [H1 H2 H3 H4 H5 (H6 & H7 & H8)] Hp Hl Hr Hr1 Hc.
  assert (∀ q g, <[p := h']> H !! q = Some g →
    ∃ g0, H !! q = Some g0 ∧ filelock g = filelock g0) as Hg.
  { intros q g. destruct (decide (q = p)) as [->|].
    - rewrite lookup_insert_eq. intros [= <-]. eauto.
    - rewrite lookup_insert_ne by done. eauto. }
  constructor.
  - intros q Hq. destruct (decide (q = p)) as [->|]; [rewrite lookup_insert_eq; eauto|].
    rewrite lookup_insert_ne, Hc by done. by apply H1.
  - intros q g. destruct (decide (q = p)) as [->|].
    + rewrite lookup_insert_eq. by intros [= <-].
    + rewrite lookup_insert_ne by done. intros Hq. rewrite Hc by (try specialize (H7 q g Hq); lia). by apply H2.
  - intros q g (g0 & Hg0 & ->)%Hg. by eapply H3.
  - intros p1 p2 h1 h2 (g1 & G1 & ->)%Hg (g2 & G2 & ->)%Hg. by eapply H4.
  - intros k (q & g & Hq & Hk)%H5. destruct (decide (q = p)) as [->|].
    + exists p, h'. rewrite lookup_insert_eq. split; [done|]. congruence.
    + exists q, g. by rewrite lookup_insert_ne.
  - split_and!; [done| |done]. intros q g (g0 & Hg0 & _)%Hg. by eapply H7.
Qed.

(** A fresh handle with one slot. *)
Lemma hinv_new H L fr fr' c c' p h : hinv H L fr c → fr ≤ p < fr' → fr ≤ filelock h < fr' →
  references h = 1 → (∀ q, q ≠ 0 → c' q = (c q + if decide (p = q) then 1 else 0)%nat) →
  hinv (<[p := h]> H) ({[filelock h]} ∪ L) fr' c'.
Proof.
  intros [H1 H2 H3 H4 H5 (H6 & H7 & H8)] Hp Hk Hr Hc.
  assert (H !! p = None) as Hnone.
  { destruct (H !! p) as [g|] eqn:E; [|done]. specialize (H7 p g E). lia. }
  assert (c p = 0%nat) as Hc0.
  { destruct (decide (0 < c p)%nat); [|lia]. destruct (H1 p) as [? ?]; [lia|done|congruence]. }
  assert (∀ q g, H !! q = Some g → filelock g ≠ filelock h) as Hk'.
  { intros q g Hg. apply H3, H8 in Hg. lia. }
  constructor.
  - intros q Hq. rewrite Hc by done. case_decide; [subst; rewrite lookup_insert_eq; eauto|].
    rewrite lookup_insert_ne by done. intros. apply H1; [done|lia].
  - intros q g. destruct (decide (p = q)) as [<-|Hne].
    + rewrite lookup_insert_eq. intros [= <-]. rewrite Hc, decide_True by (done || lia). lia.
    + rewrite lookup_insert_ne by done. intros Hg. rewrite Hc by (specialize (H7 q g Hg); lia).
      rewrite decide_False, Nat.add_0_r by done. by apply H2.
  - intros q g. destruct (decide (p = q)) as [<-|Hne].
    + rewrite lookup_insert_eq. intros [= <-]. set_solver.
    + rewrite lookup_insert_ne by done. intros Hg. apply elem_of_union_r. by eapply H3.
  - intros p1 p2 h1 h2. destruct (decide (p = p1)) as [<-|], (decide (p = p2)) as [<-|];
      rewrite ?lookup_insert_eq, ?lookup_insert_ne by done; intros E1 E2 E3; simplify_eq; try done.
    + exfalso. by eapply Hk'.
    + exfalso. by eapply Hk'.
    + by eapply H4.
  - intros k [->%elem_of_singleton|(q & g & Hq & Hg)%H5]%elem_of_union.
    + exists p, h. by rewrite lookup_insert_eq.
    + exists q, g. rewrite lookup_insert_ne; [done|congruence].
  - split_and!; [lia| |].
    + intros q g. destruct (decide (p = q)) as [<-|Hne]; [rewrite lookup_insert_eq; lia|].
      rewrite lookup_insert_ne by done. intros Hg. specialize (H7 q g Hg). lia.
    + intros k [->%elem_of_singleton|Hkk]%elem_of_union; [lia|]. specialize (H8 k Hkk). lia.
Qed.

(** Giving up the last slot of a handle. *)
Lemma hinv_free H L fr c c' p h : hinv H L fr c → H !! p = Some h → c' p = 0%nat →
  (∀ q, q ≠ 0 → q ≠ p → c' q = c q) → hinv (delete p H) (L ∖ {[filelock h]}) fr c'.
Proof.
  intros [H1 H2 H3 H4 H5 (H6 & H7 & H8)] Hp Hc0 Hc.
  assert (∀ q g, delete p H !! q = Some g → q ≠ p ∧ H !! q = Some g) as Hg.
  { intros q g [? ?]%lookup_delete_Some. done. }
  constructor.
  - intros q Hq Hpos. destruct (decide (q = p)) as [->|]; [lia|].
    rewrite lookup_delete_ne by done. apply H1; [done|]. by rewrite <-Hc.
  - intros q g (Hne & Hq)%Hg. rewrite Hc by (try specialize (H7 q g Hq); lia). by apply H2.
  - intros q g (Hne & Hq)%Hg. apply elem_of_difference. split; [by eapply H3|].
    intros E%elem_of_singleton. by eapply Hne, H4.
  - intros p1 p2 h1 h2 (_ & G1)%Hg (_ & G2)%Hg. by eapply H4.
  - intros k [(q & g & Hq & Hk)%H5 Hkn%not_elem_of_singleton]%elem_of_difference.
    exists q, g. rewrite lookup_delete_ne; [done|]. congruence.
  - split_and!; [done| |].
    + intros q g (_ & Hq)%Hg. by eapply H7.
    + intros k [? _]%elem_of_difference. by apply H8.
Qed.

(** A string without a terminator in its first [n] bytes stores them all. *)
Lemma copystr_in_stores m n : ∀ src k short, (n ≤ k)%nat →
  (∀ i : nat, (i < n)%nat → ∃ b, um_read m (src + Z.of_nat i) = Some b ∧ b ≠ 0) →
  (n ≤ length (copystr_in m src k short).1)%nat.
Proof.
  induction n as [|n IH]; intros src k short Hk Hb; [lia|]. destruct k as [|k]; [lia|]. simpl.
  destruct (Hb 0%nat) as (b & E & Hb0); [lia|]. rewrite Z.add_0_r in E. rewrite E.
  rewrite (proj2 (Z.eqb_neq _ _)) by done.
  assert (n ≤ length (copystr_in m (src + 1) k short).1)%nat as Hn.
  { apply IH; [lia|]. intros i Hi. destruct (Hb (S i)) as (b' & E' & ?); [lia|]. exists b'. split; [|done].
    by replace (src + 1 + Z.of_nat i) with (src + Z.of_nat (S i)) by lia. }
  destruct (copystr_in m (src + 1) k short) as [l r]. simpl in *. lia.
Qed.

Lemma copyinstr_stores m src len n : 0 ≤ src → src + len ≤ USERSPACETOP → 0 < n ≤ len →
  (∀ i, 0 ≤ i < n → ∃ b, um_read m (src + i) = Some b ∧ b ≠ 0) →
  n ≤ Z.of_nat (length (copyinstr m src len).1).
Proof.
  intros Hsrc Htop Hn Hb. unfold copyinstr. rewrite copycheck_spec
    by (unfold uptr; change USERSPACETOP with (2 ^ 31) in Htop; lia).
  rewrite decide_False by (change USERSPACETOP with (2 ^ 31) in *; lia).
  pose proof (copystr_in_stores m (Z.to_nat n) src
    (Z.to_nat (Z.min len (Z.min len (USERSPACETOP - src)))) (Z.min len (USERSPACETOP - src) <? len)) as Hs.
  destruct (copystr_in m src _ _) as [l r]. simpl in *. apply Nat2Z.inj_le in Hs; [lia|lia|].
  intros i Hi. apply Hb. lia.
Qed.

Set Default Proof Using "Type".
Section inv.
Context {W : Type} {VO : VfsOps W}.
Implicit Types (s : fsys W).

Definition table_ok (t : list Z) : Prop := Z.of_nat (length t) = OPEN_MAX ∨ t = [].

Record fd_inv s : Prop := {
  fi_tables : Forall table_ok (tables s);
  fi_handles : hinv (handles s) (flocks s) (fresh s) (λ p, occs p (tables s));
}.

(** The current thread has a table. *)
Definition live s (t : list Z) : Prop := tables s !! cur s = Some t ∧ Z.of_nat (length t) = OPEN_MAX.

(** *** Rules for the primitives *)
Lemma wp_alloc_head (Q : Z → fsys W → Prop) H L ts c fr o w :
  (head o ≠ Some true → Q 0 (FSys H L ts c fr (tail o) w)) →
  (head o = Some true → Q fr (FSys H L ts c (fr + 1) (tail o) w)) →
  wp alloc Q (FSys H L ts c fr o w).
Proof. intros Q0 Q1. unfold wp, alloc. destruct o as [|[] o]; m_simpl; auto. Qed.

Lemma wp_alloc (Q : Z → fsys W → Prop) H L ts c fr o w :
  (∀ o', Q 0 (FSys H L ts c fr o' w)) → (∀ o', Q fr (FSys H L ts c (fr + 1) o' w)) →
  wp alloc Q (FSys H L ts c fr o w).
Proof. intros. by apply wp_alloc_head. Qed.

Lemma wp_new_lock_head (Q : Z → fsys W → Prop) H L ts c fr o w : 0 < fr →
  (head o ≠ Some true → Q 0 (FSys H L ts c fr (tail o) w)) →
  (head o = Some true → Q fr (FSys H ({[fr]} ∪ L) ts c (fr + 1) (tail o) w)) →
  wp new_lock Q (FSys H L ts c fr o w).
Proof.
  intros Hfr Q0 Q1. unfold new_lock. apply wp_bind_2, wp_alloc_head; intros o'; [apply wp_ret; auto|].
  rewrite (proj2 (Z.eqb_neq _ _)) by lia. wp_steps. by apply Q1.
Qed.

Lemma wp_new_lock (Q : Z → fsys W → Prop) H L ts c fr o w : 0 < fr →
  (∀ o', Q 0 (FSys H L ts c fr o' w)) → (∀ o', Q fr (FSys H ({[fr]} ∪ L) ts c (fr + 1) o' w)) →
  wp new_lock Q (FSys H L ts c fr o w).
Proof. intros. by apply wp_new_lock_head. Qed.

Lemma wp_my_table (Q : list Z → fsys W → Prop) s t : tables s !! cur s = Some t → Q t s → wp my_table Q s.
Proof. intros Ht HQ. unfold my_table. wp_steps. by eapply wp_of_opt. Qed.

Lemma wp_fd_get (Q : Z → fsys W → Prop) s t fd p : tables s !! cur s = Some t → zget t fd = Some p →
  Q p s → wp (fd_get fd) Q s.
Proof. intros Ht Hp HQ. unfold fd_get. apply wp_bind_2. eapply wp_my_table; [done|]. by eapply wp_of_opt. Qed.

Lemma wp_fd_set (Q : unit → fsys W → Prop) H L ts c fr o w t fd p : ts !! c = Some t →
  0 ≤ fd < Z.of_nat (length t) →
  Q tt (FSys H L (<[c := <[Z.to_nat fd := p]> t]> ts) c fr o w) →
  wp (fd_set fd p) Q (FSys H L ts c fr o w).
Proof.
  intros Ht Hfd HQ. unfold fd_set. apply wp_bind_2. eapply wp_my_table; [done|].
  apply wp_bind_2. eapply wp_of_opt; [by apply zset_Some|]. by apply wp_modify.
Qed.

Lemma wp_get_handle (Q : file_handle → fsys W → Prop) s p h : handles s !! p = Some h → Q h s →
  wp (get_handle p) Q s.
Proof. intros Hp HQ. unfold get_handle. wp_steps. by eapply wp_of_opt. Qed.

Lemma wp_put_handle (Q : unit → fsys W → Prop) H L ts c fr o w p h :
  Q tt (FSys (<[p := h]> H) L ts c fr o w) → wp (put_handle p h) Q (FSys H L ts c fr o w).
Proof. intros HQ. by apply wp_modify. Qed.

Lemma wp_free_handle (Q : unit → fsys W → Prop) H L ts c fr o w p : is_Some (H !! p) →
  Q tt (FSys (delete p H) L ts c fr o w) → wp (free_handle p) Q (FSys H L ts c fr o w).
Proof. intros Hp HQ. unfold free_handle. wp_steps. rewrite decide_True by done. by apply wp_modify. Qed.

Lemma wp_kill_lock (Q : unit → fsys W → Prop) H L ts c fr o w k : k ∈ L →
  Q tt (FSys H (L ∖ {[k]}) ts c fr o w) → wp (kill_lock k) Q (FSys H L ts c fr o w).
Proof. intros Hp HQ. unfold kill_lock. wp_steps. rewrite decide_True by done. by apply wp_modify. Qed.

Lemma wp_use_lock (Q : unit → fsys W → Prop) s k : k ∈ flocks s → Q tt s → wp (use_lock k) Q s.
Proof. intros Hp HQ. unfold use_lock. wp_steps. rewrite decide_True by done. by apply wp_ret. Qed.

(** A descriptor the guards let through: its slot and its handle. *)
Record open_fd s (t : list Z) (fd p : Z) (h : file_handle) : Prop := {
  of_range : 0 ≤ fd < OPEN_MAX;
  of_slot : t !! Z.to_nat fd = Some p;
  of_nonnull : p ≠ 0;
  of_handle : handles s !! p = Some h;
}.

Lemma live_fd_get s t fd : live s t → 0 ≤ fd < OPEN_MAX →
  ∃ p, t !! Z.to_nat fd = Some p ∧ fd_get fd s = Ok (p, s).
Proof.
  intros [Ht Hlen] Hfd. destruct (zget_is_Some t fd) as [p Hp]; [lia|].
  exists p. split; [by apply zget_Some in Hp as [_ ?]|].
  unfold fd_get, my_table. m_simpl. rewrite Ht. m_simpl. by rewrite Hp.
Qed.

Lemma slot_handle s t fd p : fd_inv s → live s t → 0 ≤ fd < OPEN_MAX → t !! Z.to_nat fd = Some p → p ≠ 0 →
  ∃ h, open_fd s t fd p h.
Proof.
  intros [_ HI] [Ht Hlen] Hfd Hp Hp0. destruct (hi_slot _ _ _ _ HI p) as [h Hh]; [done| |by exists h].
  apply occs_pos. exists t. split; by eapply list_elem_of_lookup_2.
Qed.

Lemma open_fd_get s t fd p h : live s t → open_fd s t fd p h → fd_get fd s = Ok (p, s).
Proof.
  intros Hlive []. destruct (live_fd_get s t fd) as (q & Hq & E); [done..|]. by simplify_eq.
Qed.

(** The guard at the head of every call on a descriptor. *)
Lemma bad_fd_cases s t fd : fd_inv s → live s t →
  bad_fd fd s = Ok (true, s) ∧ (fd < 0 ∨ OPEN_MAX ≤ fd ∨ t !! Z.to_nat fd = Some 0)
  ∨ ∃ p h, open_fd s t fd p h ∧ bad_fd fd s = Ok (false, s).
Proof.
  intros HI Hlive. unfold bad_fd. destruct (Z.ltb_spec fd 0); [left; split; [done|lia]|].
  destruct (Z.leb_spec OPEN_MAX fd); [left; split; [done|lia]|]. simpl.
  destruct (live_fd_get s t fd) as (p & Hp & E); [done..|].
  m_simpl. rewrite E. destruct (Z.eqb_spec p 0) as [->|Hp0]; [left; auto|].
  destruct (slot_handle s t fd p) as [h Hh]; [done..|]. right. eauto.
Qed.

Lemma bad_fd_open s t fd p h : fd_inv s → live s t → open_fd s t fd p h → bad_fd fd s = Ok (false, s).
Proof.
  intros HI Hlive Ho. destruct (bad_fd_cases s t fd) as [[_ Hn]|(? & ? & _ & ?)]; [done..| |done].
  destruct Ho. exfalso. naive_solver lia.
Qed.

Lemma table_ok_insert ts c t i y : Forall table_ok ts → ts !! c = Some t → Forall table_ok (<[c := <[i := y]> t]> ts).
Proof.
  intros HF Ht. apply Forall_insert; [done|]. unfold table_ok.
  rewrite length_insert. pose proof (Forall_lookup_1 _ _ _ _ HF Ht) as [?| ->]; [by left|by right].
Qed.

Lemma live_insert H L ts c fr o w i y t : ts !! c = Some t → Z.of_nat (length t) = OPEN_MAX →
  live (FSys H L (<[c := <[i := y]> t]> ts) c fr o w) (<[i := y]> t).
Proof.
  intros Ht Hlen. split; simpl; [|by rewrite length_insert].
  apply list_lookup_insert_eq. by eapply lookup_lt_Some.
Qed.

(** *** sys_close *)
Lemma sys_close_open s t fd p h : fd_inv s → live s t → open_fd s t fd p h →
  wp (sys_close fd) (λ r s', r = inr tt ∧ fd_inv s' ∧ cur s' = cur s ∧ fresh s' = fresh s ∧
    live s' (<[Z.to_nat fd := 0]> t) ∧
    (∀ q g, q ≠ p → handles s !! q = Some g → handles s' !! q = Some g) ∧
    handles s' !! p = (if decide (1 < references h) then Some (set_references (references h - 1) h) else None) ∧
    world s' = (if decide (1 < references h) then world s else vfs_close (vnode h) (world s))) s.
Proof.
  intros HI Hlive Ho. unfold sys_close. apply wp_bind_2.
  eapply wp_eq; [by eapply bad_fd_open|]. apply wp_bind_2. eapply wp_eq; [by eapply open_fd_get|].
  apply wp_bind_2. destruct HI as [Hts HI], Hlive as [Ht Hlen], Ho as [Hfd Hp Hp0 Hh].
  eapply wp_get_handle; [done|]. destruct s as [H L ts c fr o w]; simpl in *.
  destruct (hi_refs _ _ _ _ HI p h Hh) as [Hr Hr1]. pose proof (λ q, occs_slot q ts c t _ p 0 Ht Hp) as Hocc.
  destruct (Z.ltb_spec 1 (references h)) as [H1|H1].
  - apply wp_bind_2, wp_put_handle, wp_bind_2. eapply wp_fd_set; [done|lia|]. apply wp_ret; simpl.
    split_and!; [done| |done|done|by apply live_insert| | |].
    + constructor; simpl; [by apply table_ok_insert|].
      eapply hinv_update; [done..| | |].
      * specialize (Hocc p). rewrite decide_True, decide_False in Hocc by done. simpl. lia.
      * simpl. lia.
      * intros q Hq Hqp. specialize (Hocc q). rewrite !decide_False in Hocc by done. lia.
    + intros q g Hq Hg. by rewrite lookup_insert_ne.
    + rewrite lookup_insert_eq, decide_True by lia. done.
    + by rewrite decide_True by lia.
  - apply wp_bind_2, wp_kill_lock; [by eapply hi_lock|]. apply wp_bind_2, wp_modify, wp_bind_2.
    apply wp_free_handle; [eauto|]. apply wp_bind_2. eapply wp_fd_set; [done|lia|]. apply wp_ret; simpl.
    split_and!; [done| |done|done|by apply live_insert| | |].
    + constructor; simpl; [by apply table_ok_insert|].
      eapply hinv_free; [done..| |].
      * specialize (Hocc p). rewrite decide_True, decide_False in Hocc by done. lia.
      * intros q Hq Hqp. specialize (Hocc q). rewrite !decide_False in Hocc by done. lia.
    + intros q g Hq Hg. by rewrite lookup_delete_ne.
    + rewrite lookup_delete_eq, decide_False by lia. done.
    + by rewrite decide_False by lia.
Qed.

(** What every call keeps: the invariant and the running thread. *)
Definition keeps {A} s : A → fsys W → Prop := λ _ s', fd_inv s' ∧ cur s' = cur s ∧ ∃ t, live s' t.

Lemma keeps_intro {A} s s' t (a : A) : fd_inv s' → live s' t → cur s' = cur s → keeps s a s'.
Proof. unfold keeps. eauto. Qed.

Lemma keeps_refl {A} s t (a : A) : fd_inv s → live s t → keeps s a s.
Proof. unfold keeps. eauto. Qed.

Lemma sys_close_keeps s t fd : fd_inv s → live s t → wp (sys_close fd) (keeps s) s.
Proof.
  intros HI Hlive. destruct (bad_fd_cases s t fd) as [[E _]|(p & h & Ho & _)]; [done..| |].
  - unfold sys_close. apply wp_bind_2. eapply wp_eq; [done|]. apply wp_ret. by eapply keeps_refl.
  - eapply wp_mono; [by eapply sys_close_open|]. intros r s' (_ & ? & ? & _ & ? & _). unfold keeps. eauto.
Qed.

(** *** sys_dup2 *)
(** The tail of [sys_dup2], once [newfd] is free. *)
Lemma dup2_tail s t old new p h : fd_inv s → live s t → open_fd s t old p h → 0 ≤ new < OPEN_MAX →
  t !! Z.to_nat new = Some 0 → ∀ (Q : result Z → fsys W → Prop),
  (∀ s', fd_inv s' → cur s' = cur s → world s' = world s → live s' (<[Z.to_nat new := p]> t) →
     handles s' = <[p := set_references (references h + 1) h]> (handles s) → Q (inr new) s') →
  wp (p ← fd_get old; fd_set new p;; h ← get_handle p; use_lock (filelock h);;
      put_handle p (set_references (references h + 1) h);; use_lock (filelock h);; mret (inr new)) Q s.
Proof.
  intros HI Hlive Ho Hnew Hn Q HQ. apply wp_bind_2. eapply wp_eq; [by eapply open_fd_get|].
  destruct HI as [Hts HI], Hlive as [Ht Hlen], Ho as [Hfd Hp Hp0 Hh]. apply wp_bind_2.
  destruct s as [H L ts c fr o w]; simpl in *.
  eapply wp_fd_set; [done|lia|]. apply wp_bind_2. eapply wp_get_handle; [done|].
  apply wp_bind_2, wp_use_lock; [by eapply hi_lock|]. apply wp_bind_2, wp_put_handle, wp_bind_2, wp_use_lock;
    [by eapply hi_lock|]. apply wp_ret, HQ; try done; [|by apply live_insert].
  destruct (hi_refs _ _ _ _ HI p h Hh) as [Hr Hr1]. pose proof (λ q, occs_slot q ts c t _ 0 p Ht Hn) as Hocc.
  constructor; simpl; [by apply table_ok_insert|]. eapply hinv_update; [done..| | |].
  - specialize (Hocc p). rewrite decide_False, decide_True in Hocc by done. simpl. lia.
  - simpl. lia.
  - intros q Hq Hqp. specialize (Hocc q). rewrite !decide_False in Hocc by done. lia.
Qed.

Lemma sys_dup2_open s t old new p h : fd_inv s → live s t → open_fd s t old p h →
  0 ≤ new < OPEN_MAX → old ≠ new →
  wp (sys_dup2 old new) (λ r s', r = inr new ∧ fd_inv s' ∧ cur s' = cur s ∧
    live s' (<[Z.to_nat new := p]> t) ∧ ∃ g, handles s' !! p = Some g ∧ vnode g = vnode h ∧ offset g = offset h) s.
Proof.
  intros HI Hlive Ho Hnew Hne. unfold sys_dup2. apply wp_bind_2.
  rewrite !(proj2 (Z.ltb_ge _ _)), !(proj2 (Z.leb_gt _ _)) by (destruct Ho; lia). simpl.
  apply wp_bind_2. eapply wp_eq; [by eapply open_fd_get|]. apply wp_ret.
  rewrite (proj2 (Z.eqb_neq _ _)) by (by destruct Ho). rewrite (proj2 (Z.eqb_neq _ _)) by done.
  apply wp_bind_2. destruct (live_fd_get s t new) as (q & Hq & E); [done..|].
  eapply wp_eq; [done|]. apply wp_bind_2. destruct (Z.eqb_spec q 0) as [->|Hq0].
  - apply wp_ret. eapply dup2_tail; [done..|]. intros s' ? ? _ ? Hh. split_and!; [done..|].
    exists (set_references (references h + 1) h). by rewrite Hh, lookup_insert_eq.
  - destruct (slot_handle s t new q) as [g Hg]; [done..|]. apply wp_bind_2.
    eapply wp_mono; [by eapply sys_close_open|]. intros r s' (_ & HI' & Hcur & _ & Hlive' & Hoth & Hpq & _).
    assert (∃ h', open_fd s' (<[Z.to_nat new := 0]> t) old p h' ∧ vnode h' = vnode h ∧ offset h' = offset h)
      as (h' & Ho' & Hv & Hoff).
    { destruct Ho as [Hfd Hp Hp0 Hh].
      destruct (slot_handle s' (<[Z.to_nat new := 0]> t) old p) as [h' Ho']; [done..| |done|].
      { rewrite list_lookup_insert_ne; [done|lia]. }
      exists h'. split; [done|]. destruct Ho' as [_ _ _ Hh'].
      destruct (decide (p = q)) as [->|Hpq']; [|rewrite (Hoth p h) in Hh' by done; by simplify_eq].
      destruct Hg as [_ _ _ Hg]. simplify_eq. rewrite Hpq in Hh'. case_decide; by simplify_eq. }
    apply wp_ret. eapply dup2_tail; [done..| |].
    { apply list_lookup_insert_eq. destruct Hlive as [_ Hlen]. lia. }
    intros s2 ? Hc _ Hl Hh2. rewrite list_insert_insert_eq in Hl. split_and!; [done|done|congruence|done|].
    exists (set_references (references h' + 1) h'). by rewrite Hh2, lookup_insert_eq.
Qed.

Lemma sys_dup2_keeps s t old new : fd_inv s → live s t → wp (sys_dup2 old new) (keeps s) s.
Proof.
  intros HI Hlive.
  assert (∀ m : M (fsys W) (result Z), wp (b ← mret true; if (b : bool) then mret (inl EBADF) else m) (keeps s) s)
    as Hbad by (intros m; wp_steps; by eapply keeps_refl).
  destruct (decide (0 ≤ old < OPEN_MAX ∧ 0 ≤ new < OPEN_MAX)) as [[Ho Hn]|Hout].
  2: { unfold sys_dup2. destruct ((new <? 0) || (old <? 0) || (OPEN_MAX <=? new) || (OPEN_MAX <=? old)) eqn:E;
         [apply Hbad|]. exfalso. apply Hout. zbool. lia. }
  destruct (live_fd_get s t old) as (p & Hp & E); [done..|].
  destruct (decide (p = 0)) as [->|Hp0].
  { unfold sys_dup2. rewrite !(proj2 (Z.ltb_ge _ _)), !(proj2 (Z.leb_gt _ _)) by lia. cbn [orb].
    apply wp_bind_2, wp_bind_2. eapply wp_eq; [done|]. wp_steps. by eapply keeps_refl. }
  destruct (slot_handle s t old p) as [h Hh]; [done..|]. destruct (decide (old = new)) as [->|Hne].
  - unfold sys_dup2. rewrite !(proj2 (Z.ltb_ge _ _)), !(proj2 (Z.leb_gt _ _)) by lia. cbn [orb].
    apply wp_bind_2, wp_bind_2. eapply wp_eq; [done|]. apply wp_ret.
    rewrite (proj2 (Z.eqb_neq _ _)), Z.eqb_refl by done. apply wp_ret. by eapply keeps_refl.
  - eapply wp_mono; [by eapply sys_dup2_open|]. intros r s' (_ & ? & ? & ? & _). unfold keeps. eauto.
Qed.

(** *** sys_read and sys_write *)
(** The string at [buf] fits the block that the check copies it to, if there is
    memory for the block. *)
Definition check_fits s (buf : Z) : Prop :=
  match oracle s with
  | true :: _ => Z.of_nat (length (copyinstr (user_mem (world s)) buf NAME_MAX).1) ≤ CHECK_BLOCK
  | _ => True
  end.
#[global] Instance check_fits_dec s buf : Decision (check_fits s buf).
Proof. unfold check_fits. destruct (oracle s) as [|[]]; apply _. Defined.

(** The result of the check for a block that was allocated. *)
Definition check_result (w : W) (buf : Z) : option errno :=
  match (copyinstr (user_mem w) buf NAME_MAX).2 with inl e => Some e | inr _ => None end.

Lemma fd_inv_bump H L ts c fr fr' o w o' w' : fr ≤ fr' → fd_inv (FSys H L ts c fr o w) →
  fd_inv (FSys H L ts c fr' o' w').
Proof. intros Hfr [Hts HI]. constructor; [done|]. by eapply hinv_ext. Qed.

Lemma wp_check_buffer (Q : option errno → fsys W → Prop) H L ts c fr o w buf : 0 < fr →
  check_fits (FSys H L ts c fr o w) buf →
  (∀ e o', Q (Some e) (FSys H L ts c fr o' w)) →
  (∀ o', Q (check_result w buf) (FSys H L ts c (fr + 1) o' w)) →
  wp (check_buffer buf) Q (FSys H L ts c fr o w).
Proof.
  intros Hfr Hfit Q0 Q1. unfold wp, check_buffer, check_fits, check_result, alloc in *. simpl in Hfit.
  destruct o as [|[] o]; m_simpl; destruct (copyinstr (user_mem w) buf NAME_MAX) as [l r]; simpl in *; try apply Q0.
  rewrite (proj2 (Z.eqb_neq _ _)) by lia. rewrite (proj2 (Z.ltb_ge _ _)) by done. apply Q1.
Qed.

(** A string that does not fit is stored past the end of the block. *)
Lemma check_buffer_overruns s buf : 0 < fresh s → ¬ check_fits s buf → check_buffer buf s = Undef.
Proof.
  intros Hfr Hfit. unfold check_buffer, check_fits, alloc in *. destruct s as [H L ts c fr o w]; simpl in *.
  destruct o as [|[] o]; [tauto| |tauto]. m_simpl.
  destruct (copyinstr (user_mem w) buf NAME_MAX) as [l r]; simpl in *.
  rewrite (proj2 (Z.eqb_neq _ _)) by lia. by rewrite (proj2 (Z.ltb_lt _ _)) by lia.
Qed.

Lemma fd_inv_fresh s : fd_inv s → 0 < fresh s.
Proof. intros [_ HI]. by destruct (hi_fresh _ _ _ _ HI). Qed.

(** Storing a handle with another offset. *)
Lemma fd_inv_offset H L ts c fr o w w' p h off : fd_inv (FSys H L ts c fr o w) → H !! p = Some h →
  fd_inv (FSys (<[p := set_offset off h]> H) L ts c fr o w').
Proof.
  intros [Hts HI] Hp. simpl in *. destruct (hi_refs _ _ _ _ HI p h Hp). constructor; [done|].
  by eapply hinv_update.
Qed.

Lemma open_fd_lock s t fd p h : fd_inv s → open_fd s t fd p h → filelock h ∈ flocks s.
Proof. intros [_ HI] []. by eapply hi_lock. Qed.

(** The transfer, once the check has passed. *)
Definition transfer (op : Z → Z → Z → Z → W → result (Z * Z) * W) s (buf buflen p : Z) h : result Z * fsys W :=
  match op (vnode h) buf buflen (offset h) (world s) with
  | (inl e, w') => (inl e, set_world w' s)
  | (inr (off, resid), w') =>
      (inr (s32 (u32 (buflen - resid))), set_handles (<[p := set_offset off h]> (handles s)) (set_world w' s))
  end.

Lemma file_io_open op s t fd buf buflen p h : fd_inv s → live s t → open_fd s t fd p h →
  file_io op fd buf buflen s = Ok (transfer op s buf buflen p h).
Proof.
  intros HI Hlive Ho. pose proof (open_fd_lock _ _ _ _ _ HI Ho) as Hk.
  assert (use_lock (filelock h) s = Ok (tt, s)) as Hu by (unfold use_lock; m_simpl; by rewrite decide_True).
  assert (get_handle p s = Ok (h, s)) as Hg by (unfold get_handle; m_simpl; by rewrite (of_handle _ _ _ _ _ Ho)).
  unfold file_io, mbind, M_bind. rewrite (bad_fd_open s t fd p h) by done.
  rewrite (open_fd_get s t fd p h) by done. rewrite Hg, Hu. unfold getS, transfer.
  destruct (op (vnode h) buf buflen (offset h) (world s)) as [[e|[off resid]] w'];
    unfold modify, use_lock, put_handle, get_handle, getS, of_opt; m_simpl.
  - by rewrite decide_True.
  - rewrite (of_handle _ _ _ _ _ Ho). m_simpl. by rewrite decide_True.
Qed.

Lemma file_rw_keeps op s t fd buf buflen : fd_inv s → live s t → check_fits s buf →
  wp (file_rw op fd buf buflen) (keeps s) s.
Proof.
  intros HI [Ht Hlen] Hfit. pose proof (fd_inv_fresh s HI) as Hfr. unfold file_rw. apply wp_bind_2.
  destruct s as [H L ts c fr o w]; simpl in *.
  apply wp_check_buffer; [done..| |].
  { intros e o'. apply wp_ret. eapply keeps_intro; [by eapply fd_inv_bump; [|done]|by split|done]. }
  intros o'. set (s := FSys H L ts c (fr + 1) o' w).
  assert (fd_inv s) as HI' by (eapply fd_inv_bump; [|done]; lia).
  assert (live s t) as Hlive by done.
  destruct (check_result w buf); [apply wp_ret; by eapply keeps_intro|].
  destruct (bad_fd_cases s t fd HI' Hlive) as [[E _]|(p & h & Ho & _)].
  { unfold file_io. apply wp_bind_2. eapply wp_eq; [done|]. apply wp_ret. by eapply keeps_intro. }
  destruct (transfer op s buf buflen p h) as [r s'] eqn:E.
  eapply wp_eq; [erewrite file_io_open by done; by rewrite E|].
  unfold transfer in E. destruct (op _ _ _ _ _) as [[e|[off resid]] w']; injection E as <- <-.
  - split_and!; [by eapply fd_inv_bump; [|done]|done|by exists t].
  - split_and!; [|done|by exists t]. destruct Ho. by eapply fd_inv_offset.
Qed.

(** *** sys_lseek *)
(** The position [sys_lseek] asks for. *)
Definition seek_target (pos whence cur_off size : Z) : Z :=
  if whence =? SEEK_SET then pos else if whence =? SEEK_CUR then s64 (cur_off + pos) else s64 (size + pos).

Definition seek s (p : Z) h (pos whence : Z) : result Z * fsys W :=
  if bool_decide (filename h = con_name) then (inl ESPIPE, s)
  else if negb ((whence =? SEEK_SET) || (whence =? SEEK_CUR) || (whence =? SEEK_END)) then (inl EINVAL, s)
  else if pos <? 0 then (inl EINVAL, s)
  else match vop_stat (vnode h) (world s) with
       | inl e => (inl e, s)
       | inr size =>
           let new := seek_target pos whence (offset h) size in
           (match vop_tryseek (vnode h) new (world s) with inl e => inl e | inr _ => inr (s32 new) end,
            set_handles (<[p := set_offset new h]> (handles s)) s)
       end.

Lemma sys_lseek_open s t fd pos whence p h : fd_inv s → live s t → open_fd s t fd p h →
  sys_lseek fd pos whence s = Ok (seek s p h pos whence).
Proof.
  intros HI Hlive Ho. pose proof (open_fd_lock _ _ _ _ _ HI Ho) as Hk.
  assert (get_handle p s = Ok (h, s)) as Hg by (unfold get_handle; m_simpl; by rewrite (of_handle _ _ _ _ _ Ho)).
  unfold sys_lseek, mbind, M_bind. rewrite (bad_fd_open s t fd p h) by done.
  rewrite (open_fd_get s t fd p h), Hg by done. unfold seek.
  case_bool_decide; [done|]. destruct (negb _); [done|]. destruct (pos <? 0); [done|].
  unfold use_lock; m_simpl. rewrite decide_True by done.
  destruct (vop_stat (vnode h) (world s)) as [e|size]; m_simpl; [by rewrite decide_True|].
  fold (seek_target pos whence (offset h) size).
  destruct (vop_tryseek _ _ _); m_simpl; by rewrite decide_True.
Qed.

Lemma sys_lseek_keeps s t fd pos whence : fd_inv s → live s t → wp (sys_lseek fd pos whence) (keeps s) s.
Proof.
  intros HI Hlive. destruct (bad_fd_cases s t fd HI Hlive) as [[E _]|(p & h & Ho & _)].
  { unfold sys_lseek. apply wp_bind_2. eapply wp_eq; [done|]. apply wp_ret. by eapply keeps_refl. }
  destruct (seek s p h pos whence) as [r s'] eqn:E.
  eapply wp_eq; [erewrite sys_lseek_open by done; by rewrite E|]. unfold seek in E.
  repeat (case_bool_decide || case_match); simplify_eq; try (by eapply keeps_refl);
    (split_and!; [|done|by exists t]; destruct s, Ho; by eapply fd_inv_offset).
Qed.

(** *** sys_open *)
(** What it leaves behind: the lowest free slot holds a new handle, or nothing
    of the tables and the handles has changed. *)
(** Why it can refuse, with the error it gives. *)
Inductive open_refused s (t : list Z) (fname flag : Z) : errno → Prop :=
| refuse_null : fname = 0 → open_refused s t fname flag EFAULT
| refuse_copy d e : copyinstr (user_mem (world s)) fname PATH_MAX = (d, inl e) → open_refused s t fname flag e
| refuse_long : PATH_MAX < Z.of_nat (length (removelast (copyinstr (user_mem (world s)) fname PATH_MAX).1)) →
    open_refused s t fname flag ENAMETOOLONG
| refuse_full : 0 ∉ t → open_refused s t fname flag ENFILE
| refuse_memory : take 2 (oracle s) ≠ [true; true] → open_refused s t fname flag ENOMEM
| refuse_vfs e w : vfs_open (UserPath fname) flag (world s) = (inl e, w) → open_refused s t fname flag e
| refuse_stat v e w : flag = O_APPEND → vfs_open (UserPath fname) flag (world s) = (inr v, w) →
    vop_stat v w = inl e → open_refused s t fname flag e.

Definition opened s (t : list Z) (fname flag : Z) (r : result Z) s' : Prop :=
  fd_inv s' ∧ cur s' = cur s ∧
  match r with
  | inl e => handles s' = handles s ∧ flocks s' = flocks s ∧ tables s' = tables s ∧
      open_refused s t fname flag e
  | inr fd =>
      ∃ p h v, t !! Z.to_nat fd = Some 0 ∧ 0 ≤ fd < OPEN_MAX ∧
        (∀ j : nat, Z.of_nat j < fd → t !! j ≠ Some 0) ∧
        live s' (<[Z.to_nat fd := p]> t) ∧ handles s !! p = None ∧ handles s' = <[p := h]> (handles s) ∧
        (vfs_open (UserPath fname) flag (world s)) = (inr v, world s') ∧
        references h = 1 ∧ vnode h = v ∧ flags h = flag ∧
        filename h = removelast (copyinstr (user_mem (world s)) fname PATH_MAX).1 ∧
        if flag =? O_APPEND then vop_stat v (world s') = inr (offset h) else offset h = 0
  end.

Lemma first_free_spec t i :
  (∃ k : nat, first_free t i = i + Z.of_nat k ∧ t !! k = Some 0 ∧ ∀ j : nat, (j < k)%nat → t !! j ≠ Some 0)
  ∨ first_free t i = i + Z.of_nat (length t) ∧ 0 ∉ t.
Proof.
  revert i. induction t as [|p t IH]; intros i; simpl.
  { right. split; [lia|]. apply not_elem_of_nil. }
  destruct (Z.eqb_spec p 0) as [->|Hp].
  - left. exists 0%nat. split_and!; [lia|done|]. intros j Hj. lia.
  - destruct (IH (i + 1)) as [(k & E & Hk & Hlow)|[E Hn]].
    + left. exists (S k). split_and!; [lia|done|]. intros [|j] Hj; [simpl; congruence|]. apply Hlow. lia.
    + right. split; [lia|]. apply not_elem_of_cons. done.
Qed.

Lemma undo_open (H : gmap Z file_handle) (L : gset Z) (ts : list (list Z)) (c : nat) (t : list Z) i p k h :
  H !! p = None → k ∉ L → ts !! c = Some t → t !! i = Some 0 →
  delete p (<[p := h]> H) = H ∧ ({[k]} ∪ L) ∖ {[k]} = L ∧
  <[c := <[i := 0]> (<[i := p]> t)]> (<[c := <[i := p]> t]> ts) = ts.
Proof.
  intros Hp Hk Ht Hi. split_and!; [by apply delete_insert_id| |].
  - apply leibniz_equiv. set_solver.
  - by rewrite list_insert_insert_eq, list_insert_insert_eq, (list_insert_id t), list_insert_id.
Qed.

(** Failing after the slot, the handle and perhaps the lock were made. *)
Lemma wp_open_undo (s0 : fsys W) H L ts c fr fr' o w w' t i p h e fname flag :
  s0 = FSys H L ts c fr o w → fd_inv s0 → live s0 t → t !! Z.to_nat i = Some 0 → 0 ≤ i < OPEN_MAX →
  H !! p = None → fr ≤ fr' → open_refused s0 t fname flag e → ∀ o' L', L' = L →
  wp (free_handle p;; fd_set i 0;; mret (inl e)) (opened s0 t fname flag)
    (FSys (<[p := h]> H) L' (<[c := <[Z.to_nat i := p]> t]> ts) c fr' o' w').
Proof.
  intros -> HI [Ht Hlen] Hi Hir Hp Hfr He o' L' ->. simpl in *.
  destruct (undo_open H L ts c t (Z.to_nat i) p fr h) as (E1 & _ & E3); [done| |done..|].
  { intros Hk. destruct HI as [_ HI]. simpl in HI. destruct (hi_fresh _ _ _ _ HI) as (_ & _ & Hk'). apply Hk' in Hk. lia. }
  apply wp_bind_2, wp_free_handle; [by rewrite lookup_insert_eq|]. apply wp_bind_2.
  eapply wp_fd_set; [apply list_lookup_insert_eq; by eapply lookup_lt_Some|rewrite length_insert; lia|].
  apply wp_ret. rewrite E1, E3. split_and!; [|done|done..]. by eapply fd_inv_bump; [|done].
Qed.

(** The part of [sys_open] that opens the vnode for the new handle [fr]. *)
Lemma open_vnode_spec s H L ts c fr o w t fname flag d len (i : nat) h0 o2 :
  s = FSys H L ts c fr o w → fd_inv s → live s t → H !! fr = None → fr + 1 ∉ L → 0 < fr →
  copyinstr (user_mem w) fname PATH_MAX = (d, inr len) → t !! i = Some 0 →
  (∀ j : nat, (j < i)%nat → t !! j ≠ Some 0) →
  wp (open_vnode (removelast d) fname flag (Z.of_nat i) fr (fr + 1)) (opened s t fname flag)
    (FSys (<[fr := h0]> H) ({[fr + 1]} ∪ L) (<[c := <[Z.to_nat (Z.of_nat i) := fr]> t]> ts) c (fr + 1 + 1) o2 w).
Proof.
  intros Es HI Hlive Hnone Hk1 Hfr Ecopy Hi Hlow. pose proof Hlive as [Ht Hlen]. rewrite Es in Ht; simpl in Ht.
  assert (i < length t)%nat as Hil by (by eapply lookup_lt_Some).
  assert (({[fr + 1]} ∪ L) ∖ {[fr + 1]} = L) as EL by (apply leibniz_equiv; set_solver).
  unfold open_vnode. apply wp_bind_2, wp_get. simpl.
  destruct (vfs_open (UserPath fname) flag w) as [[e|v] w'] eqn:Eopen; apply wp_bind_2, wp_modify;
    unfold set_world; simpl.
  { apply wp_bind_2, wp_kill_lock; [set_solver|].
    eapply wp_open_undo; try done; simpl; rewrite ?Nat2Z.id; try done; try lia.
    eapply refuse_vfs. by rewrite Es. }
  apply wp_bind_2, wp_put_handle. rewrite insert_insert_eq.
  assert (∀ off, (if flag =? O_APPEND then vop_stat v w' = inr off else off = 0) →
    wp (put_handle fr (FileHandle (removelast d) flag off 1 (fr + 1) v);; mret (inr (Z.of_nat i)))
      (opened s t fname flag)
      (FSys (<[fr := FileHandle (removelast d) flag (junk_offset fr) 1 (fr + 1) v]> H) ({[fr + 1]} ∪ L)
         (<[c := <[Z.to_nat (Z.of_nat i) := fr]> t]> ts) c (fr + 1 + 1) o2 w')) as Hdone.
  { intros off Hoff. apply wp_bind_2, wp_put_handle. rewrite insert_insert_eq. apply wp_ret.
    rewrite Nat2Z.id. rewrite Es in *. split_and!; [|done|].
    - destruct HI as [Hts HI]. constructor; [by apply table_ok_insert|]; simpl in *.
      eapply (hinv_new _ _ _ _ _ _ fr (FileHandle (removelast d) flag off 1 (fr + 1) v)); [done|simpl; lia..|done|].
      intros q Hq. pose proof (occs_slot q ts c t i 0 fr Ht Hi) as Hocc.
      rewrite (decide_False (P := 0 = q)) in Hocc by done. lia.
    - exists fr, (FileHandle (removelast d) flag off 1 (fr + 1) v), v. rewrite Nat2Z.id. simpl.
      rewrite Ecopy. split_and!; try done; [lia|lia| |by apply live_insert].
      intros j Hj. apply Hlow. lia. }
  destruct (Z.eqb_spec flag O_APPEND) as [->|Hflag]; [|by apply Hdone].
  apply wp_bind_2, wp_get. simpl. destruct (vop_stat v w') as [e|size] eqn:Estat; [|by apply Hdone].
  apply wp_bind_2, wp_kill_lock; [set_solver|].
  eapply wp_open_undo; try done; simpl; rewrite ?Nat2Z.id; try done; try lia.
  eapply refuse_stat; [done| |done]. by rewrite Es.
Qed.

(** The part of [sys_open] after the slot [i] was chosen. *)
Lemma sys_open_slot s t fname flag d len (i : nat) : fd_inv s → live s t →
  copyinstr (user_mem (world s)) fname PATH_MAX = (d, inr len) → t !! i = Some 0 →
  (∀ j : nat, (j < i)%nat → t !! j ≠ Some 0) →
  wp (open_slot (removelast d) fname flag (Z.of_nat i)) (opened s t fname flag) s.
Proof.
  intros HI Hlive Ecopy Hi Hlow. pose proof (fd_inv_fresh s HI) as Hfr0. pose proof Hlive as [Ht Hlen].
  assert (i < length t)%nat as Hil by (by eapply lookup_lt_Some).
  assert (head (oracle s) ≠ Some true ∨ head (tail (oracle s)) ≠ Some true →
    open_refused s t fname flag ENOMEM) as Hmem.
  { intros Ho. apply refuse_memory. destruct (oracle s) as [|[] [|[] ?]]; simpl in *; naive_solver. }
  destruct s as [H L ts c fr o w] eqn:Es; simpl in *. rewrite <-Es in *.
  destruct (hi_fresh _ _ _ _ (fi_handles _ HI)) as (_ & HfrH & HfrL). rewrite Es in HfrH, HfrL; simpl in *.
  assert (H !! fr = None) as Hnone.
  { destruct (H !! fr) as [g|] eqn:E; [|done]. specialize (HfrH _ _ E). lia. }
  assert (fr + 1 ∉ L) as Hk1 by (intros E; specialize (HfrL _ E); lia).
  unfold open_slot. rewrite Es at 2. apply wp_bind_2, wp_alloc_head; intros Ho1.
  { rewrite Z.eqb_refl. apply wp_ret. split_and!; [|by rewrite Es..|auto].
    rewrite Es in HI. by eapply fd_inv_bump; [|done]. }
  rewrite (proj2 (Z.eqb_neq _ _)) by lia.
  apply wp_bind_2. eapply wp_fd_set; [done|lia|]. apply wp_bind_2, wp_put_handle, wp_bind_2.
  apply wp_new_lock_head; [lia|..]; intros Ho2.
  { rewrite Z.eqb_refl. eapply wp_open_undo; try done; rewrite ?Nat2Z.id; try done; try lia. auto. }
  rewrite (proj2 (Z.eqb_neq _ _)) by lia.
  apply wp_bind_2, wp_put_handle. rewrite insert_insert_eq. by eapply open_vnode_spec.
Qed.

Lemma sys_open_spec s t fname flag : fd_inv s → live s t →
  wp (sys_open fname flag) (opened s t fname flag) s.
Proof.
  intros HI Hlive. pose proof (fd_inv_fresh s HI) as Hfr0.
  assert (∀ e, open_refused s t fname flag e → opened s t fname flag (inl e) s) as Hsame by done.
  unfold sys_open.
  destruct (Z.eqb_spec fname 0); [apply wp_ret; auto using refuse_null|]. apply wp_bind_2, wp_gets.
  destruct (copyinstr (user_mem (world s)) fname PATH_MAX) as [d [e|len]] eqn:Ecopy.
  { apply wp_ret, Hsame. by eapply refuse_copy. }
  cbv zeta. destruct (Z.ltb_spec PATH_MAX (Z.of_nat (length (removelast d)))).
  { apply wp_ret, Hsame, refuse_long. by rewrite Ecopy. }
  pose proof Hlive as [Ht Hlen].
  apply wp_bind_2. eapply wp_my_table; [done|]. cbv zeta.
  destruct (first_free_spec t 0) as [(i & Ei & Hi & Hlow)|[E Hfull]].
  2: { rewrite E, (proj2 (Z.ltb_ge _ _)) by lia. by apply wp_ret, Hsame, refuse_full. }
  rewrite Ei, Z.add_0_l. assert (i < length t)%nat as Hil by (by eapply lookup_lt_Some).
  rewrite (proj2 (Z.ltb_lt _ _)) by lia. by eapply sys_open_slot.
Qed.

(** *** Tables of threads *)
Lemma occ_cons p q t : occ p (q :: t) = ((if decide (q = p) then 1 else 0) + occ p t)%nat.
Proof. unfold occ. rewrite filter_cons. by case_decide. Qed.

Lemma share_all_spec t : ∀ H L ts c fr o w k,
  hinv H L fr k → (∀ p, p ∈ t → p ≠ 0 → is_Some (H !! p)) →
  wp (share_all t) (λ _ s', ∃ H', s' = FSys H' L ts c fr o w ∧
    hinv H' L fr (λ q, k q + occ q t)%nat) (FSys H L ts c fr o w).
Proof.
  induction t as [|p t IH]; intros H L ts c fr o w k HI Hall; cbn [share_all].
  { apply wp_ret. exists H. split; [done|]. eapply hinv_ext; [done..|]. intros q _. unfold occ. simpl. lia. }
  apply wp_bind_2. destruct (Z.eqb_spec p 0) as [->|Hp].
  - apply wp_ret. eapply wp_mono; [apply IH; [done|intros; apply Hall; [by right|done]]|].
    intros [] s' (H' & -> & HI'). exists H'. split; [done|]. eapply hinv_ext; [done..|].
    intros q Hq. rewrite occ_cons, decide_False by done. lia.
  - destruct (Hall p) as [h Hh]; [left|done|]. destruct (hi_refs _ _ _ _ HI p h Hh) as [Hr Hr1].
    apply wp_bind_2. eapply wp_get_handle; [done|]. apply wp_put_handle.
    eapply wp_mono; [eapply (IH _ _ _ _ _ _ _ (λ q, k q + if decide (p = q) then 1 else 0)%nat)|].
    + eapply hinv_update; [done..| | |]; simpl; [rewrite decide_True by done; lia|lia|].
      intros q _ Hq. rewrite decide_False by done. lia.
    + intros q Hq Hq0. destruct (decide (q = p)) as [->|]; [rewrite lookup_insert_eq; eauto|].
      rewrite lookup_insert_ne by done. apply Hall; [by right|done].
    + intros [] s' (H' & -> & HI'). exists H'. split; [done|]. eapply hinv_ext; [done..|].
      intros q Hq. rewrite occ_cons. simpl. lia.
Qed.

Lemma fork_table_spec s t : fd_inv s → live s t →
  wp fork_table (λ i s', fd_inv s' ∧ i = length (tables s) ∧ tables s' = tables s ++ [t] ∧
    cur s' = cur s ∧ world s' = world s) s.
Proof.
  intros [Hts HI] [Ht Hlen]. unfold fork_table. apply wp_bind_2. eapply wp_my_table; [done|]. apply wp_bind_2.
  destruct s as [H L ts c fr o w]; simpl in *. eapply wp_mono; [eapply share_all_spec; [done|]|].
  { intros p Hp Hp0. apply (hi_slot _ _ _ _ HI); [done|]. apply occs_pos. exists t.
    split; [by eapply list_elem_of_lookup_2|done]. }
  intros [] s' (H' & -> & HI'). wp_steps. simpl. split_and!; [|done..]. constructor; simpl.
  - apply Forall_app. split; [done|]. constructor; [by left|done].
  - eapply hinv_ext; [done..|]. intros q _. apply occs_app.
Qed.

Lemma drop_all_spec t : ∀ H L ts c fr o w k,
  hinv H L fr (λ q, k q + occ q t)%nat →
  wp (drop_all t) (λ _ s', ∃ H' L' w', s' = FSys H' L' ts c fr o w' ∧ hinv H' L' fr k)
    (FSys H L ts c fr o w).
Proof.
  induction t as [|p t IH]; intros H L ts c fr o w k HI; cbn [drop_all].
  { apply wp_ret. exists H, L, w. split; [done|]. eapply hinv_ext; [done..|]. intros q _. unfold occ. simpl. lia. }
  apply wp_bind_2. destruct (Z.eqb_spec p 0) as [->|Hp].
  - apply wp_ret. apply IH. eapply hinv_ext; [done..|].
    intros q Hq. cbv beta. rewrite occ_cons, decide_False by done. lia.
  - destruct (hi_slot _ _ _ _ HI p) as [h Hh]; [done|rewrite occ_cons, decide_True by done; lia|].
    destruct (hi_refs _ _ _ _ HI p h Hh) as [Hr Hr1]. rewrite occ_cons, decide_True in Hr by done.
    apply wp_bind_2. eapply wp_get_handle; [done|].
    assert (∀ q : Z, q ≠ 0 → q ≠ p → (k q + occ q t = k q + occ q (p :: t))%nat) as Hoth.
    { intros q _ Hq. by rewrite occ_cons, decide_False. }
    destruct (Z.leb_spec (references h) 1).
    + apply wp_bind_2, wp_kill_lock; [by eapply hi_lock|]. apply wp_bind_2, wp_modify.
      apply wp_free_handle; [by eexists|]. apply IH. eapply hinv_free; [done..| |done]. simpl. lia.
    + apply wp_put_handle, IH. eapply hinv_update; [done..| | |done]; simpl; lia.
Qed.

Lemma exit_table_spec s t : fd_inv s → live s t →
  wp exit_table (λ _ s', fd_inv s' ∧ tables s' = <[cur s := []]> (tables s) ∧ cur s' = cur s) s.
Proof.
  intros [Hts HI] [Ht Hlen]. unfold exit_table. apply wp_bind_2. eapply wp_my_table; [done|]. apply wp_bind_2.
  destruct s as [H L ts c fr o w]; simpl in *.
  eapply wp_mono; [eapply (drop_all_spec t _ _ _ _ _ _ _ (λ q, occs q (<[c := []]> ts)))|].
  { eapply hinv_ext; [done..|]. intros q _. pose proof (occs_insert q _ _ _ [] Ht) as E.
    replace (occ q []) with 0%nat in E by done. lia. }
  intros [] s' (H' & L' & w' & -> & HI'). apply wp_modify; simpl. split_and!; [|done..].
  constructor; [|done]. apply Forall_insert; [done|]. by right.
Qed.

(** *** init_filetable *)
(** The handles and locks made so far, over what was there before. *)
Record consoles (H0 : gmap Z file_handle) (L0 : gset Z) (ks ps : list Z) (H : gmap Z file_handle) (L : gset Z) : Prop := {
  co_ps : NoDup ps;
  co_ks : NoDup ks;
  co_new : ∀ p, p ∈ ps → H0 !! p = None ∧ is_Some (H !! p);
  co_old : ∀ p, p ∉ ps → H !! p = H0 !! p;
  co_locks : L = list_to_set ks ∪ L0;
  co_lnew : ∀ k, k ∈ ks → k ∉ L0;
}.

Lemma wp_close_all vs : ∀ (Q : unit → fsys W → Prop) H L ts c fr o w,
  (∀ w', Q tt (FSys H L ts c fr o w')) →
  wp (foldr (λ v m, do_vfs_close v;; m) (mret tt) vs) Q (FSys H L ts c fr o w).
Proof.
  induction vs as [|v vs IH]; intros Q H L ts c fr o w HQ; simpl; [by apply wp_ret|].
  apply wp_bind_2, wp_modify. by apply IH.
Qed.

Lemma wp_kill_all ks : ∀ (Q : unit → fsys W → Prop) H L L0 ts c fr o w, NoDup ks →
  (∀ k, k ∈ ks → k ∉ L0) → L = list_to_set ks ∪ L0 → Q tt (FSys H L0 ts c fr o w) →
  wp (foldr (λ k m, kill_lock k;; m) (mret tt) ks) Q (FSys H L ts c fr o w).
Proof.
  induction ks as [|k ks IH]; intros Q H L L0 ts c fr o w Hnd Hnew -> HQ; simpl.
  { apply wp_ret. by rewrite union_empty_l_L. }
  apply NoDup_cons in Hnd as [Hk Hnd].
  apply wp_bind_2, wp_kill_lock; [set_solver|]. eapply IH; [done| | |done].
  - intros k' Hk'. apply Hnew. by right.
  - assert (k ∉ L0) by (apply Hnew; left). assert (k ∉ (list_to_set ks : gset Z)) by set_solver. set_solver.
Qed.

Lemma wp_free_all ps : ∀ (Q : unit → fsys W → Prop) H H0 L ts c fr o w, NoDup ps →
  (∀ p, p ∈ ps → H0 !! p = None ∧ is_Some (H !! p)) → (∀ p, p ∉ ps → H !! p = H0 !! p) →
  Q tt (FSys H0 L ts c fr o w) →
  wp (foldr (λ p m, free_handle p;; m) (mret tt) ps) Q (FSys H L ts c fr o w).
Proof.
  induction ps as [|p ps IH]; intros Q H H0 L ts c fr o w Hnd Hnew Hold HQ; simpl.
  { apply wp_ret. replace H with H0; [done|]. apply map_eq. intros q. symmetry. apply Hold, not_elem_of_nil. }
  apply NoDup_cons in Hnd as [Hp Hnd].
  apply wp_bind_2, wp_free_handle; [apply Hnew; left|]. apply (IH _ _ H0); [done| | |done].
  - intros q Hq. rewrite lookup_delete_ne by (by intros ->). apply Hnew. by right.
  - intros q Hq. destruct (decide (p = q)) as [<-|Hne].
    + rewrite lookup_delete_eq. symmetry. apply Hnew. left.
    + rewrite lookup_delete_ne by done. apply Hold. by apply not_elem_of_cons.
Qed.

Lemma wp_undo_all vs ks ps H0 L0 H L ts c fr o w (Q : unit → fsys W → Prop) :
  consoles H0 L0 ks ps H L → (∀ w', Q tt (FSys H0 L0 ts c fr o w')) →
  wp (undo_all vs ks ps) Q (FSys H L ts c fr o w).
Proof.
  intros [] HQ. unfold undo_all. apply wp_bind_2, wp_close_all. intros w'.
  apply wp_bind_2. eapply wp_kill_all; [done..|]. by eapply wp_free_all.
Qed.

(** One more console, with or without its lock. *)
Lemma consoles_handle H0 L0 ks ps H L p h : consoles H0 L0 ks ps H L → H !! p = None → H0 !! p = None →
  consoles H0 L0 ks (ps ++ [p]) (<[p := h]> H) L.
Proof.
  intros [H1 H2 H3 H4 H5 H6] Hp Hp0. assert (p ∉ ps) as Hpn.
  { intros Hin. destruct (H3 p Hin) as [_ [? ?]]. congruence. }
  constructor; try done.
  - apply NoDup_app. split_and!; [done| |apply NoDup_singleton]. intros q Hq ->%list_elem_of_singleton. done.
  - intros q [Hq|Hq]%elem_of_app.
    + rewrite lookup_insert_ne by (by intros ->). by apply H3.
    + apply list_elem_of_singleton in Hq as ->. rewrite lookup_insert_eq. eauto.
  - intros q [Hq Hqp]%not_elem_of_app. rewrite list_elem_of_singleton in Hqp.
    rewrite lookup_insert_ne by done. by apply H4.
Qed.

Lemma consoles_lock H0 L0 ks ps H L p h h' k : consoles H0 L0 ks ps (<[p := h]> H) L → p ∈ ps → k ∉ L →
  consoles H0 L0 (ks ++ [k]) ps (<[p := h']> H) ({[k]} ∪ L).
Proof.
  intros [H1 H2 H3 H4 H5 H6] Hp Hk. rewrite H5, elem_of_union, elem_of_list_to_set in Hk. constructor; try done.
  - apply NoDup_app. split_and!; [done| |apply NoDup_singleton]. intros q Hq ->%list_elem_of_singleton. tauto.
  - intros q Hq. destruct (H3 q Hq) as [? Hs]. split; [done|]. destruct (decide (p = q)) as [<-|].
    + rewrite lookup_insert_eq. eauto.
    + by rewrite lookup_insert_ne in * by done.
  - intros q Hq. rewrite <-(H4 q Hq), !lookup_insert_ne; [done|by intros ->..].
  - rewrite H5. set_solver.
  - intros q [Hq| ->%list_elem_of_singleton]%elem_of_app; [by apply H6|tauto].
Qed.

(** A table of consoles, or no trace of the attempt. *)
Definition made (H0 : gmap Z file_handle) (L0 : gset Z) (fr0 : Z) (k : Z → nat) ts c
    (r : result unit * list Z) s' : Prop :=
  tables s' = ts ∧ cur s' = c ∧ fr0 ≤ fresh s' ∧
  match r.1 with
  | inr _ => Z.of_nat (length r.2) = OPEN_MAX ∧
      hinv (handles s') (flocks s') (fresh s') (λ q, k q + occ q r.2)%nat
  | inl _ => handles s' = H0 ∧ flocks s' = L0
  end.

Lemma open_consoles_spec H0 L0 fr0 k ts c fl : ∀ n vs ks ps t H L fr o w,
  consoles H0 L0 ks ps H L → (∀ p, fr0 ≤ p → H0 !! p = None) → fr0 ≤ fr →
  hinv H L fr (λ q, k q + occ q t)%nat → Z.of_nat (length t) = OPEN_MAX →
  (∀ j : nat, (n ≤ j < n + length fl)%nat → t !! j = Some 0) →
  wp (open_consoles n fl vs ks ps t) (made H0 L0 fr0 k ts c) (FSys H L ts c fr o w).
Proof.
  induction fl as [|f fl IH]; intros n vs ks ps t H L fr o w HC Hfr0 Hfr HI Hlen Ht; cbn [open_consoles].
  { apply wp_ret. by split_and!. }
  assert (∀ vs ks ps t H L fr o w e, consoles H0 L0 ks ps H L → fr0 ≤ fr →
    wp (undo_all vs ks ps;; mret (inl e, t)) (made H0 L0 fr0 k ts c) (FSys H L ts c fr o w)) as Hundo.
  { intros. apply wp_bind_2. eapply wp_undo_all; [done|]. intros w'. apply wp_ret. by split_and!. }
  apply wp_bind_2, wp_get. simpl.
  destruct (vfs_open (KernPath con_name) f w) as [[e|v] w']; apply wp_bind_2, wp_modify; unfold set_world; simpl.
  { by apply Hundo. }
  destruct (hi_fresh _ _ _ _ HI) as (Hpos & HfrH & HfrL).
  assert (H !! fr = None) as Hnone.
  { destruct (H !! fr) as [g|] eqn:E; [|done]. specialize (HfrH _ _ E). lia. }
  apply wp_bind_2, wp_alloc; intros o1; [by apply Hundo|].
  rewrite (proj2 (Z.eqb_neq _ _)) by lia. apply wp_bind_2, wp_put_handle.
  assert (∀ h, consoles H0 L0 ks (ps ++ [fr]) (<[fr := h]> H) L) as HC1.
  { intros h. apply consoles_handle; auto with lia. }
  apply wp_bind_2, wp_new_lock; [lia|..]; intros o2.
  { rewrite Z.eqb_refl. apply Hundo; [done|lia]. }
  rewrite (proj2 (Z.eqb_neq _ _)) by lia. apply wp_bind_2, wp_put_handle. rewrite insert_insert_eq.
  assert (t !! n = Some 0) as Hn by (apply Ht; simpl; lia).
  set (h := FileHandle con_name f (junk_offset fr) 1 (fr + 1) v). apply IH.
  - eapply consoles_lock; [apply (HC1 h)|by apply elem_of_app; right; left|].
    intros E. specialize (HfrL _ E). lia.
  - done.
  - lia.
  - apply (hinv_new _ _ _ _ _ _ fr h HI); simpl; [lia|lia|done|].
    intros q Hq. pose proof (occ_insert q t n 0 fr Hn) as E. rewrite decide_False in E by done. lia.
  - by rewrite length_insert.
  - intros j Hj. rewrite list_lookup_insert_ne by lia. apply Ht. simpl. lia.
Qed.

Lemma init_filetable_spec s : fd_inv s →
  wp init_filetable (made (handles s) (flocks s) (fresh s) (λ q, occs q (tables s)) (tables s) (cur s)) s.
Proof.
  intros [Hts HI]. destruct (hi_fresh _ _ _ _ HI) as (Hpos & HfrH & HfrL).
  destruct s as [H L ts c fr o w]; simpl in *. apply open_consoles_spec; try done.
  - constructor; try apply NoDup_nil_2; try done; try set_solver.
  - intros p Hp. destruct (H !! p) as [g|] eqn:E; [|done]. specialize (HfrH _ _ E). lia.
  - eapply hinv_ext; [done..|]. intros q Hq. cbv beta.
    replace (occ q _) with 0%nat; [lia|]. symmetry. unfold occ. rewrite filter_none; [done|].
    apply Forall_replicate. done.
  - intros j Hj. apply lookup_replicate_2. simpl in Hj. unfold OPEN_MAX. lia.
Qed.
End inv.
