(* ===== verification/FileSysSpec.v ===== *)
(** What the file system calls promise: file handles are counted right over
    every run, each call does what its manual page says, and where it does not. *)

From stdpp Require Import base tactics numbers list gmap relations.
From S2P Require Import Prelude KernDefs CopyInOut FileSys FileSysInv.
Local Open Scope Z_scope.

Set Default Proof Using "Type".
Section runs.
Context {W : Type} {VO : VfsOps W}.
Implicit Types (s : fsys W).

(** ** Runs of the calls by any threads *)
Inductive fcall : Type :=
| COpen (fname flag : Z) | CRead (fd buf len : Z) | CWrite (fd buf len : Z) | CClose (fd : Z)
| CLseek (fd pos whence : Z) | CDup2 (old new : Z) | CChdir (path : Z) | CGetcwd (buf len : Z)
| CFork | CExit | CSpawn.

(** A kernel thread gets a table of consoles of its own. *)
Definition spawn_table : M (fsys W) (result unit) :=
  r ← init_filetable;
  match r with
  | (inr _, t) => modify (λ s, set_tables (tables s ++ [t]) s);; mret (inr tt)
  | (inl e, _) => mret (inl e)
  end.

Definition fcall_run (k : fcall) : M (fsys W) unit :=
  match k with
  | COpen f fl => _ ← sys_open f fl; mret tt
  | CRead fd b n => _ ← sys_read fd b n; mret tt
  | CWrite fd b n => _ ← sys_write fd b n; mret tt
  | CClose fd => _ ← sys_close fd; mret tt
  | CLseek fd p wh => _ ← sys_lseek fd p wh; mret tt
  | CDup2 a b => _ ← sys_dup2 a b; mret tt
  | CChdir p => _ ← sys_chdir p; mret tt
  | CGetcwd b n => _ ← sys__getcwd b n; mret tt
  | CFork => _ ← fork_table; mret tt
  | CExit => exit_table
  | CSpawn => _ ← spawn_table; mret tt
  end.

(** The buffer check of a call stays inside its block. *)
Definition call_fits (k : fcall) s : Prop :=
  match k with
  | CRead _ b _ | CWrite _ b _ | CGetcwd b _ => check_fits s b
  | _ => True
  end.

Definition set_cur (i : nat) s : fsys W :=
  FSys (handles s) (flocks s) (tables s) i (fresh s) (oracle s) (world s).

(** Thread [i], which has not exited, makes a call. *)
Inductive fstep s : fsys W → Prop :=
| fstep_call i t k s' : tables s !! i = Some t → Z.of_nat (length t) = OPEN_MAX →
    fcall_run k (set_cur i s) = Ok (tt, s') → fstep s s'.

Lemma fd_inv_cur s i : fd_inv s → fd_inv (set_cur i s).
Proof. by intros []. Qed.

Lemma wp_drop {A} (m : M (fsys W) A) (Q : fsys W → Prop) s :
  wp m (λ _, Q) s → wp (_ ← m; mret tt) (λ _, Q) s.
Proof. intros Hm. by apply wp_bind_2. Qed.

Lemma sys_chdir_keeps s p : fd_inv s → wp (sys_chdir p) (λ _, fd_inv) s.
Proof.
  intros HI. unfold sys_chdir. apply wp_bind_2, wp_gets.
  destruct (copyinstr _ _ _) as [d [e|n]]; [by apply wp_ret|]. apply wp_bind_2, wp_get.
  destruct (vfs_chdir _ _) as [r w']. apply wp_bind_2, wp_modify, wp_ret. by destruct HI.
Qed.

Lemma sys__getcwd_keeps s buf len : fd_inv s → check_fits s buf →
  wp (sys__getcwd buf len) (λ _, fd_inv) s.
Proof.
  intros HI Hfit. pose proof (fd_inv_fresh s HI) as Hfr. unfold sys__getcwd. apply wp_bind_2.
  destruct s as [H L ts c fr o w]; simpl in *. apply wp_check_buffer; [done..| |].
  { intros e o'. apply wp_ret. by eapply fd_inv_bump; [|done]. }
  intros o'. assert (∀ w' : W, fd_inv (FSys H L ts c (fr + 1) o' w')) as HI'.
  { intros w'. eapply fd_inv_bump; [|done]. lia. }
  destruct (check_result w buf); [by apply wp_ret|]. destruct (buf =? 0); [by apply wp_ret|].
  apply wp_bind_2, wp_get. destruct (vfs_getcwd _ _ _) as [[e|n] w']; apply wp_bind_2, wp_modify;
    [apply wp_ret, HI'|]. wp_steps. apply HI'.
Qed.

Lemma spawn_table_keeps s : fd_inv s → wp spawn_table (λ _, fd_inv) s.
Proof.
  intros HI. unfold spawn_table. apply wp_bind_2. eapply wp_mono; [by apply init_filetable_spec|].
  intros [[e|[]] t] s' (Hts & Hc & Hfr & Hr); simpl in *.
  - apply wp_ret. destruct Hr as [HH HL], HI as [? HI]. constructor; [by rewrite Hts|].
    rewrite HH, HL. eapply hinv_ext; [done..|]. by rewrite Hts.
  - wp_steps. destruct Hr as [Hlen HH], HI as [? HI]. constructor; simpl; rewrite Hts.
    + apply Forall_app. split; [done|]. constructor; [by left|done].
    + eapply hinv_ext; [done..|]. intros q _. apply occs_app.
Qed.

Lemma fcall_run_keeps s i t k : fd_inv s → tables s !! i = Some t → Z.of_nat (length t) = OPEN_MAX →
  call_fits k s → wp (fcall_run k) (λ _, fd_inv) (set_cur i s).
Proof.
  intros HI Ht Hlen Hfit. pose proof (fd_inv_cur s i HI) as HI'.
  assert (live (set_cur i s) t) as Hlive by done.
  assert (∀ A (m : M (fsys W) A), wp m (keeps (set_cur i s)) (set_cur i s) →
    wp (_ ← m; mret tt) (λ _, fd_inv) (set_cur i s)) as Hk.
  { intros A m Hm. apply wp_drop. eapply wp_mono; [done|]. by intros a s' [? _]. }
  destruct k; cbn [fcall_run].
  - apply wp_drop. eapply wp_mono; [by eapply sys_open_spec|]. by intros r s' [? _].
  - eapply Hk, file_rw_keeps; [done..|exact Hfit].
  - eapply Hk, file_rw_keeps; [done..|exact Hfit].
  - by eapply Hk, sys_close_keeps.
  - by eapply Hk, sys_lseek_keeps.
  - by eapply Hk, sys_dup2_keeps.
  - by apply wp_drop, sys_chdir_keeps.
  - by apply wp_drop, sys__getcwd_keeps.
  - apply wp_drop. eapply wp_mono; [by eapply fork_table_spec|]. by intros r s' [? _].
  - eapply wp_mono; [by eapply exit_table_spec|]. by intros r s' [? _].
  - by apply wp_drop, spawn_table_keeps.
Qed.

Lemma fcall_run_unfit s i k : fd_inv s → ¬ call_fits k s → fcall_run k (set_cur i s) = Undef.
Proof.
  intros HI Hfit. pose proof (fd_inv_fresh _ (fd_inv_cur s i HI)) as Hfr.
  destruct k; simpl in Hfit; try tauto; cbn [fcall_run];
    unfold sys_read, sys_write, file_rw, sys__getcwd, mbind, M_bind;
    by rewrite (check_buffer_overruns (set_cur i s)).
Qed.

#[local] Instance call_fits_dec k s : Decision (call_fits k s).
Proof. destruct k; simpl; apply _. Defined.

Lemma fstep_inv s s' : fd_inv s → fstep s s' → fd_inv s'.
Proof.
  intros HI [i t k s2 Ht Hlen Hrun]. destruct (decide (call_fits k s)) as [Hfit|Hfit].
  - pose proof (fcall_run_keeps s i t k HI Ht Hlen Hfit) as Hk. unfold wp in Hk. by rewrite Hrun in Hk.
  - by rewrite fcall_run_unfit in Hrun.
Qed.


(** C33: [sys_open] always returns. On success it hands out the lowest free
    descriptor of the table, bound to a new handle with one reference for the
    vnode the virtual file system opened, at position 0 (or at the end of the file
    when the flags are exactly [O_APPEND]); on an error the tables, the handles and
    the locks are as before, and the error is one of those listed, for its cause. *)
Theorem open_lowest_descriptor s t fname flag : fd_inv s → live s t →
  ∃ r s', sys_open fname flag s = Ok (r, s') ∧ opened s t fname flag r s'.
Proof. intros HI Hlive. by apply wp_exists, sys_open_spec. Qed.

(** The buffer check when it passes: one block is taken and given back. *)
Lemma check_buffer_passes s o buf : oracle s = true :: o → 0 < fresh s → check_fits s buf →
  check_result (world s) buf = None →
  check_buffer buf s = Ok (None, FSys (handles s) (flocks s) (tables s) (cur s) (fresh s + 1) o (world s)).
Proof.
  intros Ho Hfr Hfit Hres. unfold check_fits, check_result, check_buffer, alloc in *. rewrite Ho in Hfit.
  m_simpl. rewrite Ho. m_simpl. destruct (copyinstr (user_mem (world s)) buf NAME_MAX) as [l r]; simpl in *.
  rewrite (proj2 (Z.eqb_neq _ _)) by lia. rewrite (proj2 (Z.ltb_ge _ _)) by done. by rewrite Hres.
Qed.

(** A read or write through an open descriptor whose buffer check passes
    returns the number of bytes moved and moves the position of the file, for
    every descriptor of any thread that shares the handle, to where the vnode
    operation stopped; when the operation fails, no position moves. *)
Theorem transfer_moves_shared_position (write : bool) s o t fd buf buflen p h r w' :
  fd_inv s → live s t → open_fd s t fd p h → 0 ≤ buflen < 2 ^ 31 →
  oracle s = true :: o → check_fits s buf → check_result (world s) buf = None →
  (if write then vop_write else vop_read) (vnode h) buf buflen (offset h) (world s) = (r, w') →
  (∀ off resid, r = inr (off, resid) → 0 ≤ resid ≤ buflen) →
  ∃ s', (if write then sys_write else sys_read) fd buf buflen s =
          Ok (match r with inl e => inl e | inr (_, resid) => inr (buflen - resid) end, s') ∧
    fd_inv s' ∧ tables s' = tables s ∧ world s' = w' ∧
    ∀ t2 fd2 p2 h2, t2 ∈ tables s → t2 !! fd2 = Some p2 → handles s !! p2 = Some h2 →
      ∃ h2', handles s' !! p2 = Some h2' ∧ vnode h2' = vnode h2 ∧
        offset h2' = match r with inr (off, _) => if decide (p2 = p) then off else offset h2 | inl _ => offset h2 end.
Proof.
  intros HI Hlive Ho Hlen Hor Hfit Hchk Hop Hres.
  replace (if write then sys_write else sys_read) with (file_rw (if write then vop_write else vop_read))
    by (by destruct write).
  revert Hop. generalize (if write then vop_write else vop_read). intros op Hop.
  unfold file_rw, mbind, M_bind. rewrite (check_buffer_passes s o) by (done || by apply fd_inv_fresh).
  set (s1 := FSys _ _ _ _ _ _ _). assert (fd_inv s1) as HI1.
  { destruct s. simpl in *. eapply fd_inv_bump; [|done]. lia. }
  rewrite (file_io_open _ s1 t fd buf buflen p h); [|done..|by destruct Ho].
  unfold transfer. simpl world. rewrite Hop. destruct r as [e|[off resid]].
  - eexists. split_and!; [done| |done..|by eauto]. by eapply fd_inv_bump; [|done].
  - assert (s32 (u32 (buflen - resid)) = buflen - resid) as ->.
    { specialize (Hres off resid eq_refl). rewrite u32_id, s32_id; lia. }
    eexists. split_and!; [done| |done..|]. { destruct Ho. by eapply fd_inv_offset. }
    simpl. intros t2 fd2 p2 h2 _ _ Hh2. destruct Ho as [_ _ _ Hh]. destruct (decide (p2 = p)) as [->|Hne].
    + rewrite lookup_insert_eq. simplify_eq. by eexists.
    + rewrite lookup_insert_ne by done. eauto.
Qed.

(** [sys_lseek] on a descriptor of a file moves its position to [pos], to
    [pos] past the position or to [pos] past the end of the file, and returns it,
    when [pos] is not negative, the target fits an [int] and the vnode accepts it;
    it refuses the console and an unknown [whence] and then moves nothing. *)
Theorem lseek_moves_position s t fd pos whence p h size : fd_inv s → live s t → open_fd s t fd p h →
  vop_stat (vnode h) (world s) = inr size → 0 ≤ pos → 0 ≤ offset h → 0 ≤ size →
  offset h + pos < 2 ^ 31 → size + pos < 2 ^ 31 →
  let target := if whence =? SEEK_SET then pos else if whence =? SEEK_CUR then offset h + pos else size + pos in
  vop_tryseek (vnode h) target (world s) = inr tt →
  ∃ s', sys_lseek fd pos whence s =
    (if bool_decide (filename h = con_name) then Ok (inl ESPIPE, s)
     else if bool_decide (whence ∈ [SEEK_SET; SEEK_CUR; SEEK_END]) then Ok (inr target, s')
     else Ok (inl EINVAL, s)) ∧
    handles s' = <[p := set_offset target h]> (handles s) ∧ tables s' = tables s ∧ fd_inv s'.
Proof.
  intros HI Hlive Ho Hstat Hpos Hoff Hsz H1 H2 target Htry. rewrite (sys_lseek_open s t fd pos whence p h) by done.
  exists (set_handles (<[p := set_offset target h]> (handles s)) s).
  split; [|split_and!; [done..|]; destruct s, Ho; by eapply fd_inv_offset].
  unfold seek. case_bool_decide as Hc; [done|]. rewrite Hstat, (proj2 (Z.ltb_ge pos 0)) by lia.
  assert (seek_target pos whence (offset h) size = target) as ->.
  { unfold seek_target, target. rewrite !(wraps_id 64) by lia. done. }
  assert (s32 target = target) as Et.
  { apply s32_id. unfold target. repeat case_match; lia. }
  rewrite Htry, Et. case_bool_decide as Hw.
  - assert (negb ((whence =? SEEK_SET) || (whence =? SEEK_CUR) || (whence =? SEEK_END)) = false) as ->; [|done].
    rewrite !elem_of_cons in Hw. destruct Hw as [->|[->|[->|[]%elem_of_nil]]]; done.
  - assert (negb ((whence =? SEEK_SET) || (whence =? SEEK_CUR) || (whence =? SEEK_END)) = true) as ->; [|done].
    rewrite !not_elem_of_cons in Hw. destruct Hw as (? & ? & ? & _).
    by rewrite !(proj2 (Z.eqb_neq _ _)) by done.
Qed.

(** Where [sys_lseek] departs from its manual page: an offset that the vnode
    refuses has already been stored when the call fails, so the next transfer
    happens there; and every negative [pos] is refused, also one that
    [SEEK_CUR] or [SEEK_END] turns into a valid position. *)
Theorem lseek_departs_from_manual s t fd pos p h : fd_inv s → live s t → open_fd s t fd p h →
  filename h ≠ con_name →
  (0 ≤ pos → ∀ size e, vop_stat (vnode h) (world s) = inr size → vop_tryseek (vnode h) pos (world s) = inl e →
    ∃ s', sys_lseek fd pos SEEK_SET s = Ok (inl e, s') ∧ handles s' !! p = Some (set_offset pos h)) ∧
  (pos < 0 → ∀ whence, whence ∈ [SEEK_SET; SEEK_CUR; SEEK_END] → sys_lseek fd pos whence s = Ok (inl EINVAL, s)).
Proof.
  intros HI Hlive Ho Hname. split.
  - intros Hpos size e Hstat Htry. rewrite (sys_lseek_open s t fd pos SEEK_SET p h) by done. unfold seek.
    rewrite bool_decide_eq_false_2 by done. cbn [negb orb Z.eqb SEEK_SET]. rewrite (proj2 (Z.ltb_ge _ _)) by done.
    rewrite Hstat. unfold seek_target. cbn [Z.eqb SEEK_SET]. rewrite Htry. eexists. split; [done|].
    simpl. by rewrite lookup_insert_eq.
  - intros Hpos whence Hw. rewrite (sys_lseek_open s t fd pos whence p h) by done. unfold seek.
    rewrite bool_decide_eq_false_2 by done. rewrite (proj2 (Z.ltb_lt _ _)) by done. by destruct (negb _).
Qed.

(** The open flag [O_APPEND] is only recognised alone: a file opened with
    [O_WRONLY|O_APPEND], the combination that can write, starts at position 0. *)
Theorem open_append_starts_at_zero s t fname fd s' : fd_inv s → live s t →
  sys_open fname (Z.lor O_WRONLY O_APPEND) s = Ok (inr fd, s') →
  ∃ p h, live s' (<[Z.to_nat fd := p]> t) ∧ handles s' !! p = Some h ∧ offset h = 0.
Proof.
  intros HI Hlive E. pose proof (sys_open_spec s t fname (Z.lor O_WRONLY O_APPEND) HI Hlive) as Hs.
  unfold wp in Hs. rewrite E in Hs. destruct Hs as (_ & _ & p & h & v & _ & _ & _ & Hl & _ & Hh & _ & _ & _ & _ & _ & Hoff).
  exists p, h. split_and!; [done| |done]. by rewrite Hh, lookup_insert_eq.
Qed.

(** [sys_write] checks its buffer by copying a string of up to [NAME_MAX]
    bytes from it into a block of one byte, 16 with the rounding of the allocator:
    a user buffer whose first 17 bytes are not 0 makes every write store past the
    end of the block, also one on a bad descriptor. *)
Theorem write_check_overruns s o fd buf buflen : fd_inv s → oracle s = true :: o → 0 ≤ buf →
  buf + NAME_MAX ≤ USERSPACETOP →
  (∀ i, 0 ≤ i ≤ CHECK_BLOCK → ∃ b, um_read (user_mem (world s)) (buf + i) = Some b ∧ b ≠ 0) →
  sys_write fd buf buflen s = Undef.
Proof.
  intros HI Ho Hbuf Htop Hbytes. unfold sys_write, file_rw, mbind, M_bind.
  rewrite check_buffer_overruns; [done|by apply fd_inv_fresh|]. unfold check_fits. rewrite Ho.
  pose proof (copyinstr_stores (user_mem (world s)) buf NAME_MAX 17 Hbuf Htop) as Hs.
  assert (17 ≤ Z.of_nat (length (copyinstr (user_mem (world s)) buf NAME_MAX).1)); [|unfold CHECK_BLOCK; lia].
  apply Hs; [done|]. intros i Hi. apply Hbytes. unfold CHECK_BLOCK. lia.
Qed.
End runs.

(** ** A small world
    One file, of which only the size is kept; it opens as vnode 500, refuses
    positions over 4000, and user memory holds the string "f" at 4096 and non-zero
    bytes from 8192 on. *)
Module Small.
Record tiny := Tiny { tsize : Z }.
Definition tmem : umem :=
  UMem (λ a, if a =? 4096 then Some 102 else if (4097 <=? a) && (a <? 8192) then Some 0
             else if (8192 <=? a) && (a <? 12288) then Some 7 else None) (λ _, true).
#[export] Instance tiny_ops : VfsOps tiny := {
  user_mem _ := tmem;
  junk_offset _ := 0;
  vfs_open _ _ w := (inr 500, w);
  vfs_close _ w := w;
  vop_read _ _ len off w :=
    let n := Z.max 0 (Z.min len (tsize w - off)) in (inr (off + n, len - n), w);
  vop_write _ _ len off w := (inr (off + len, 0), Tiny (Z.max (tsize w) (off + len)));
  vop_stat _ w := inr (tsize w);
  vop_tryseek _ off _ := if 4000 <? off then inl EINVAL else inr tt;
  vfs_chdir _ w := (inr tt, w);
  vfs_getcwd _ len w := (inr len, w);
  user_store _ _ w := w;
  user_strlen _ _ := 0;
}.

Definition boot : fsys tiny :=
  FSys ∅ ∅ [replicate 128 0] 0 1 (replicate 40 true) (Tiny 100).
Definition after (k : fcall) (s : fsys tiny) : fsys tiny :=
  match fcall_run k (set_cur 0 s) with Ok (_, s') => s' | _ => s end.
(** One open file, then the same with its handle shared by a dup. *)
Definition with_file : fsys tiny := after (COpen 4096 O_RDWR) boot.
Definition table0 : list Z := 1 :: replicate 127 0.
Definition handle0 : file_handle := FileHandle [102] O_RDWR 0 1 2 500.

Lemma boot_inv : fd_inv boot.
Proof.
  constructor; [constructor; [by left|done]|]. constructor; cbn [boot handles flocks fresh tables]; try done.
  - intros p Hp. cbn [occs foldr]. unfold occ. rewrite filter_none; [simpl; lia|].
    apply (Forall_replicate _ 128 0). done.
Qed.
Lemma boot_live : live boot (replicate 128 0).
Proof. done. Qed.

Lemma step_file : fstep boot with_file.
Proof. by apply (fstep_call _ 0 (replicate 128 0) (COpen 4096 O_RDWR)); [| |vm_compute]. Qed.
Lemma with_file_inv : fd_inv with_file.
Proof. exact (fstep_inv _ _ boot_inv step_file). Qed.
Lemma with_file_live : live with_file table0.
Proof. done. Qed.
Lemma with_file_open : open_fd with_file table0 0 1 handle0.
Proof. by constructor. Qed.
End Small.
Import Small.


Lemma open_lowest_descriptor_witness :
  ∃ r s', sys_open 4096 O_RDWR with_file = Ok (r, s') ∧ opened with_file table0 4096 O_RDWR r s' ∧ r = inr 1.
Proof.
  destruct (open_lowest_descriptor with_file table0 4096 O_RDWR with_file_inv with_file_live) as (r & s' & E & Ho).
  exists r, s'. split_and!; [done..|]. vm_compute in E. congruence.
Defined.

Lemma transfer_moves_shared_position_witness :
  ∃ s', sys_read 0 4096 30 with_file = Ok (inr 30, s') ∧ tables s' = tables with_file.
Proof.
  destruct (transfer_moves_shared_position false with_file (replicate 37 true) table0 0 4096 30 1 handle0
    (inr (30, 0)) (Tiny 100)) as (s' & E & _ & Ht & _);
    [exact with_file_inv|exact with_file_live|exact with_file_open|lia|reflexivity| |reflexivity|reflexivity| |].
  - refine (bool_decide_unpack _ _). by vm_compute.
  - intros off resid [= <- <-]. lia.
  - exists s'. by split.
Defined.

Lemma lseek_moves_position_witness : ∃ s', sys_lseek 0 50 SEEK_END with_file = Ok (inr 150, s') ∧ fd_inv s'.
Proof.
  destruct (lseek_moves_position with_file table0 0 50 SEEK_END 1 handle0 100) as (s' & E & _ & _ & HI);
    [exact with_file_inv|exact with_file_live|exact with_file_open|reflexivity|lia|simpl; lia|lia|simpl; lia|lia|
     reflexivity|]. by exists s'.
Defined.

Lemma lseek_departs_from_manual_witness :
  (∃ s', sys_lseek 0 5000 SEEK_SET with_file = Ok (inl EINVAL, s') ∧ handles s' !! 1 = Some (set_offset 5000 handle0)) ∧
  sys_lseek 0 (-10) SEEK_END with_file = Ok (inl EINVAL, with_file).
Proof.
  split.
  - apply (lseek_departs_from_manual with_file table0 0 5000 1 handle0 with_file_inv with_file_live with_file_open
      ltac:(done)) with (size := 100); [lia|reflexivity..].
  - apply (lseek_departs_from_manual with_file table0 0 (-10) 1 handle0 with_file_inv with_file_live with_file_open
      ltac:(done)); [lia|]. refine (bool_decide_unpack _ _). by vm_compute.
Defined.

Lemma open_append_starts_at_zero_witness :
  ∃ p h, live (after (COpen 4096 33) with_file) (<[1%nat := p]> table0) ∧
    handles (after (COpen 4096 33) with_file) !! p = Some h ∧ offset h = 0.
Proof.
  apply (open_append_starts_at_zero with_file table0 4096 1 (after (COpen 4096 33) with_file)
    with_file_inv with_file_live). by vm_compute.
Defined.

Lemma write_check_overruns_witness : sys_write 77 8192 5 boot = Undef.
Proof.
  apply (write_check_overruns boot (replicate 39 true)); [exact boot_inv|reflexivity|lia|by vm_compute|].
  intros i Hi. exists 7. split; [|done]. unfold CHECK_BLOCK in Hi. simpl.
  rewrite (proj2 (Z.eqb_neq _ _)) by lia. rewrite (proj2 (Z.leb_le 4097 _)), (proj2 (Z.ltb_ge _ 8192)) by lia.
  cbn [andb]. by rewrite (proj2 (Z.leb_le 8192 _)), (proj2 (Z.ltb_lt _ 12288)) by lia.
Defined.
