(* ===== verification/Threadlist.v ===== *)
(** Thread lists: [kern/thread/threadlist.c].

    A doubly linked list of thread nodes between two bookend nodes that live in
    the list structure. The store maps every node (the bookends of each list, the
    [t_listnode] of each thread) to its fields; a NULL pointer is [None] and
    following it is undefined. [DEBUGASSERT] is compiled out. The lists of the
    whole system share the store, so that the theorems speak about moving threads
    between run queues, wait channels and zombie lists. *)

From stdpp Require Import base tactics numbers functions sets list.
From S2P Require Import Prelude KernDefs.
Local Open Scope Z_scope.

Inductive nid : Type := NHead (tl : nat) | NTail (tl : nat) | NThread (t : nat).
#[export] Instance nid_eq_dec : EqDecision nid.
Proof. solve_decision. Defined.

Record threadlistnode := TLNode {
  tln_prev : option nid;
  tln_next : option nid;
  tln_self : option nat;
}.

Record tlstate := TLState { node : nid → threadlistnode; tl_count : nat → Z }.

Definition set_prev (p : option nid) (n : threadlistnode) : threadlistnode := TLNode p (tln_next n) (tln_self n).
Definition set_next (p : option nid) (n : threadlistnode) : threadlistnode := TLNode (tln_prev n) p (tln_self n).

(** [x->field = v] through a pointer. *)
Definition upd_node (x : nid) (f : threadlistnode → threadlistnode) (s : tlstate) : tlstate :=
  TLState (<[x := f (node s x)]> (node s)) (tl_count s).
Definition deref (p : option nid) : M tlstate nid := of_opt p.
Definition put_prev (x : nid) (p : option nid) : M tlstate unit := modify (upd_node x (set_prev p)).
Definition put_next (x : nid) (p : option nid) : M tlstate unit := modify (upd_node x (set_next p)).
Definition get_prev (x : nid) : M tlstate (option nid) := gets (λ s, tln_prev (node s x)).
Definition get_next (x : nid) : M tlstate (option nid) := gets (λ s, tln_next (node s x)).
Definition put_count (tl : nat) (n : Z) : M tlstate unit :=
  modify (λ s, TLState (node s) (<[tl := n]> (tl_count s))).

(** ** Operations *)
Definition threadlistnode_init (t : nat) : M tlstate unit :=
  modify (upd_node (NThread t) (λ _, TLNode None None (Some t))).

Definition is_None {A} (o : option A) : bool := match o with None => true | _ => false end.

Definition threadlistnode_cleanup (t : nat) : M tlstate unit :=
  s ← getS;
  let tln := node s (NThread t) in
  kassert (is_None (tln_next tln));;
  kassert (is_None (tln_prev tln));;
  kassert (negb (is_None (tln_self tln))).

Definition threadlist_init (tl : nat) : M tlstate unit :=
  modify (upd_node (NHead tl) (λ _, TLNode None (Some (NTail tl)) None));;
  modify (upd_node (NTail tl) (λ _, TLNode (Some (NHead tl)) None None));;
  put_count tl 0.

Definition threadlist_isempty (tl : nat) : M tlstate bool := gets (λ s, tl_count s tl =? 0).

Definition threadlist_cleanup (tl : nat) : M tlstate unit :=
  e ← threadlist_isempty tl;
  kassert e;;
  s ← getS; kassert (tl_count s tl =? 0).

Definition threadlist_insertafternode (onlist : nid) (t : nat) : M tlstate unit :=
  let addee := NThread t in
  put_prev addee (Some onlist);;
  n ← get_next onlist;
  put_next addee n;;
  p ← get_prev addee; p ← deref p; put_next p (Some addee);;
  n ← get_next addee; n ← deref n; put_prev n (Some addee).

Definition threadlist_insertbeforenode (t : nat) (onlist : nid) : M tlstate unit :=
  let addee := NThread t in
  p ← get_prev onlist;
  put_prev addee p;;
  put_next addee (Some onlist);;
  p ← get_prev addee; p ← deref p; put_next p (Some addee);;
  n ← get_next addee; n ← deref n; put_prev n (Some addee).

Definition threadlist_removenode (tln : nid) : M tlstate unit :=
  p ← get_prev tln; p ← deref p;
  n ← get_next tln;
  put_next p n;;
  n ← get_next tln; n ← deref n;
  p ← get_prev tln;
  put_prev n p;;
  put_prev tln None;;
  put_next tln None.

Definition count_up (tl : nat) : M tlstate unit := s ← getS; put_count tl (u32 (tl_count s tl + 1)).
Definition count_down (tl : nat) : M tlstate unit := s ← getS; put_count tl (u32 (tl_count s tl - 1)).

Definition threadlist_addhead (tl t : nat) : M tlstate unit :=
  threadlist_insertafternode (NHead tl) t;; count_up tl.

Definition threadlist_addtail (tl t : nat) : M tlstate unit :=
  threadlist_insertbeforenode t (NTail tl);; count_up tl.

Definition threadlist_remhead (tl : nat) : M tlstate (option nat) :=
  tln ← get_next (NHead tl); tln ← deref tln;
  n ← get_next tln;
  if is_None n then mret None
  else
    threadlist_removenode tln;;
    count_down tl;;
    gets (λ s, tln_self (node s tln)).

Definition threadlist_remtail (tl : nat) : M tlstate (option nat) :=
  tln ← get_prev (NTail tl); tln ← deref tln;
  p ← get_prev tln;
  if is_None p then mret None
  else
    threadlist_removenode tln;;
    count_down tl;;
    gets (λ s, tln_self (node s tln)).

Definition threadlist_insertafter (tl onlist addee : nat) : M tlstate unit :=
  threadlist_insertafternode (NThread onlist) addee;; count_up tl.

Definition threadlist_insertbefore (tl addee onlist : nat) : M tlstate unit :=
  threadlist_insertbeforenode addee (NThread onlist);; count_up tl.

Definition threadlist_remove (tl t : nat) : M tlstate unit :=
  threadlist_removenode (NThread t);; count_down tl.

(** ** What a list holds *)
(** Consecutive nodes point to each other. *)
Fixpoint linked (f : nid → threadlistnode) (l : list nid) : Prop :=
  match l with
  | a :: (b :: _) as l' => tln_next (f a) = Some b ∧ tln_prev (f b) = Some a ∧ linked f l'
  | _ => True
  end.

Definition nodes_of (tl : nat) (l : list nat) : list nid := NHead tl :: (NThread <$> l) ++ [NTail tl].

(** The store holds the lists [A], with every other thread on none. *)
Record tl_rep (s : tlstate) (A : nat → list nat) : Prop := {
  tr_linked : ∀ tl, linked (node s) (nodes_of tl (A tl));
  tr_ends : ∀ tl, tln_prev (node s (NHead tl)) = None ∧ tln_next (node s (NTail tl)) = None;
  tr_count : ∀ tl, tl_count s tl = Z.of_nat (length (A tl)) ∧ tl_count s tl < 2 ^ 32;
  tr_self : ∀ t, tln_self (node s (NThread t)) = Some t;
  tr_nodup : ∀ tl, NoDup (A tl);
  tr_disj : ∀ tl1 tl2 t, t ∈ A tl1 → t ∈ A tl2 → tl1 = tl2;
  tr_off : ∀ t, (∀ tl, t ∉ A tl) → tln_prev (node s (NThread t)) = None ∧ tln_next (node s (NThread t)) = None;
}.

Lemma linked_app f l1 a l2 : linked f (l1 ++ a :: l2) ↔ linked f (l1 ++ [a]) ∧ linked f (a :: l2).
Proof.
  induction l1 as [|b l1 IH]; simpl; [tauto|]. destruct l1 as [|c l1]; simpl in *; tauto.
Qed.

(** The links of a segment depend on the [next] of all but its last node and
    the [prev] of all but its first. *)
Lemma linked_ext f f' l : (∀ x, x ∈ removelast l → tln_next (f' x) = tln_next (f x)) →
  (∀ x, x ∈ tail l → tln_prev (f' x) = tln_prev (f x)) → linked f l → linked f' l.
Proof.
  induction l as [|a l IH]; intros Hn Hp; [done|]. destruct l as [|b l]; [done|].
  intros (H1 & H2 & H3). cbn [linked]. rewrite Hn, Hp by (simpl; left). split_and!; [done..|].
  apply IH; [|by intros x Hx; apply Hp; right|done]. intros x Hx. apply Hn. cbn [removelast]. by right.
Qed.

(** [x] put between the neighbours [a] and [b], and [x] taken out from between them. *)
Definition splice_in (f : nid → threadlistnode) (a x b : nid) (y : nid) : threadlistnode :=
  if decide (y = x) then TLNode (Some a) (Some b) (tln_self (f x))
  else if decide (y = a) then set_next (Some x) (f a)
  else if decide (y = b) then set_prev (Some x) (f b) else f y.
Definition splice_out (f : nid → threadlistnode) (a x b : nid) (y : nid) : threadlistnode :=
  if decide (y = x) then TLNode None None (tln_self (f x))
  else if decide (y = a) then set_next (Some b) (f a)
  else if decide (y = b) then set_prev (Some a) (f b) else f y.

Lemma elem_of_removelast {A} (x : A) l : x ∈ removelast l → x ∈ l.
Proof.
  induction l as [|c l IH]; [done|]. destruct l as [|d l]; [simpl; by intros ?%elem_of_nil|].
  cbn [removelast]. rewrite !elem_of_cons in *. tauto.
Qed.

Lemma linked_left f f' pre a : linked f (pre ++ [a]) → (∀ y, y ∈ pre → tln_next (f' y) = tln_next (f y)) →
  (∀ y, y ∈ pre ++ [a] → tln_prev (f' y) = tln_prev (f y)) → linked f' (pre ++ [a]).
Proof.
  intros Hl Hn Hp. eapply linked_ext; [| |done].
  - intros y. rewrite removelast_last. apply Hn.
  - intros y Hy. apply Hp. destruct pre; simpl in *; [by apply elem_of_nil in Hy|by right].
Qed.

Lemma linked_right f f' b post : linked f (b :: post) → (∀ y, y ∈ b :: post → tln_next (f' y) = tln_next (f y)) →
  (∀ y, y ∈ post → tln_prev (f' y) = tln_prev (f y)) → linked f' (b :: post).
Proof. intros Hl Hn Hp. eapply linked_ext; [|done|done]. intros y Hy%elem_of_removelast. by apply Hn. Qed.

(** Nodes off the splice keep their fields, its ends one of them. *)
Lemma splice_in_fields f a x b y : y ≠ x →
  (y ≠ a → tln_next (splice_in f a x b y) = tln_next (f y)) ∧
  (y ≠ b → tln_prev (splice_in f a x b y) = tln_prev (f y)) ∧
  tln_self (splice_in f a x b y) = tln_self (f y).
Proof. intros Hx. unfold splice_in. rewrite decide_False by done. repeat case_decide; by subst. Qed.

Lemma splice_out_fields f a x b y : y ≠ x →
  (y ≠ a → tln_next (splice_out f a x b y) = tln_next (f y)) ∧
  (y ≠ b → tln_prev (splice_out f a x b y) = tln_prev (f y)) ∧
  tln_self (splice_out f a x b y) = tln_self (f y).
Proof. intros Hx. unfold splice_out. rewrite decide_False by done. repeat case_decide; by subst. Qed.

Lemma splice_in_ends f a x b : x ≠ a → x ≠ b → a ≠ b →
  tln_next (splice_in f a x b a) = Some x ∧ tln_prev (splice_in f a x b x) = Some a ∧
  tln_next (splice_in f a x b x) = Some b ∧ tln_prev (splice_in f a x b b) = Some x.
Proof. intros. unfold splice_in. by repeat (case_decide; try congruence). Qed.

Lemma splice_out_ends f a x b : x ≠ a → x ≠ b → a ≠ b →
  tln_next (splice_out f a x b a) = Some b ∧ tln_prev (splice_out f a x b b) = Some a.
Proof. intros. unfold splice_out. by repeat (case_decide; try congruence). Qed.

(** How the nodes of a segment around [a] and [b] differ. *)
Lemma around {A} (pre post : list A) (a b x : A) : NoDup (pre ++ a :: b :: post) → x ∉ pre ++ a :: b :: post →
  x ≠ a ∧ x ≠ b ∧ a ≠ b ∧ (∀ y, y ∈ pre → y ≠ x ∧ y ≠ a ∧ y ≠ b) ∧ (∀ y, y ∈ post → y ≠ x ∧ y ≠ a ∧ y ≠ b).
Proof.
  intros (_ & Hd & [Ha [Hb _]%NoDup_cons]%NoDup_cons)%NoDup_app Hx.
  rewrite not_elem_of_app, !not_elem_of_cons in Hx. rewrite not_elem_of_cons in Ha.
  split_and!; try tauto.
  - intros y Hy. specialize (Hd y Hy). rewrite !not_elem_of_cons in Hd. split_and!; [intros ->; tauto|tauto..].
  - intros y Hy. split_and!; intros ->; tauto.
Qed.

Lemma linked_splice_in f f' pre a x b post : linked f (pre ++ a :: b :: post) → NoDup (pre ++ a :: b :: post) →
  x ∉ pre ++ a :: b :: post → (∀ y, f' y = splice_in f a x b y) → linked f' (pre ++ a :: x :: b :: post).
Proof.
  rewrite (linked_app f pre a), (linked_app f' pre a). intros [H1 (H2 & H3 & H4)] Hnd Hx Hf.
  destruct (around _ _ _ _ _ Hnd Hx) as (Hxa & Hxb & Hab & Hpre & Hpost).
  destruct (splice_in_ends f a x b Hxa Hxb Hab) as (E1 & E2 & E3 & E4). rewrite <-!Hf in E1, E2, E3, E4.
  split; [|repeat split; try done].
  - eapply linked_left; [done|..]; intros y Hy; rewrite Hf; apply splice_in_fields; try by apply Hpre.
    all: apply elem_of_app in Hy as [?%Hpre| ->%list_elem_of_singleton]; intuition congruence.
  - eapply linked_right; [done|..]; intros y Hy; rewrite Hf; apply splice_in_fields; try by apply Hpost.
    all: apply elem_of_cons in Hy as [->|?%Hpost]; intuition congruence.
Qed.

Lemma linked_splice_out f f' pre a x b post : linked f (pre ++ a :: x :: b :: post) →
  NoDup (pre ++ a :: b :: post) → x ∉ pre ++ a :: b :: post → (∀ y, f' y = splice_out f a x b y) →
  linked f' (pre ++ a :: b :: post).
Proof.
  rewrite (linked_app f pre a), (linked_app f' pre a). intros [H1 (H2 & H3 & _ & _ & H4)] Hnd Hx Hf.
  destruct (around _ _ _ _ _ Hnd Hx) as (Hxa & Hxb & Hab & Hpre & Hpost).
  destruct (splice_out_ends f a x b Hxa Hxb Hab) as (E1 & E2). rewrite <-!Hf in E1, E2.
  split; [|repeat split; try done].
  - eapply linked_left; [done|..]; intros y Hy; rewrite Hf; apply splice_out_fields; try by apply Hpre.
    all: apply elem_of_app in Hy as [?%Hpre| ->%list_elem_of_singleton]; intuition congruence.
  - eapply linked_right; [done|..]; intros y Hy; rewrite Hf; apply splice_out_fields; try by apply Hpost.
    all: apply elem_of_cons in Hy as [->|?%Hpost]; intuition congruence.
Qed.

(** ** The node operations splice *)
Ltac fn_cases :=
  unfold upd_node, insert, fn_insert; cbn [node tl_count];
  repeat (case_decide; simplify_eq/=; try congruence).
(** One field access or pointer check. *)
Ltac tl_step :=
  lazymatch goal with
  | |- wp (deref _) _ _ => eapply wp_of_opt; [fn_cases; eassumption || reflexivity|]
  | |- wp (put_prev _ _) _ _ => apply wp_modify
  | |- wp (put_next _ _) _ _ => apply wp_modify
  | |- wp (get_prev _) _ _ => apply wp_gets
  | |- wp (get_next _) _ _ => apply wp_gets
  | |- _ => wp_step
  end.

Definition spliced (splice : (nid → threadlistnode) → nid → nid → nid → nid → threadlistnode)
    (s : tlstate) (a x b : nid) : unit → tlstate → Prop :=
  λ _ s', (∀ y, node s' y = splice (node s) a x b y) ∧ tl_count s' = tl_count s.

Lemma wp_insertafternode s a b t : tln_next (node s a) = Some b → a ≠ NThread t → b ≠ NThread t → a ≠ b →
  wp (threadlist_insertafternode a t) (spliced splice_in s a (NThread t) b) s.
Proof.
  intros Hn Ha Hb Hab. unfold threadlist_insertafternode. cbv zeta. repeat (tl_step; cbv beta).
  split; [|done]. intros y. unfold splice_in, set_next, set_prev. fn_cases.
Qed.

Lemma wp_insertbeforenode s a b t : tln_prev (node s b) = Some a → a ≠ NThread t → b ≠ NThread t → a ≠ b →
  wp (threadlist_insertbeforenode t b) (spliced splice_in s a (NThread t) b) s.
Proof.
  intros Hn Ha Hb Hab. unfold threadlist_insertbeforenode. cbv zeta. repeat (tl_step; cbv beta).
  split; [|done]. intros y. unfold splice_in, set_next, set_prev. fn_cases.
Qed.

Lemma wp_removenode s a x b : tln_prev (node s x) = Some a → tln_next (node s x) = Some b →
  x ≠ a → x ≠ b → a ≠ b → wp (threadlist_removenode x) (spliced splice_out s a x b) s.
Proof.
  intros Hp Hn Ha Hb Hab. unfold threadlist_removenode. repeat (tl_step; cbv beta).
  split; [|done]. intros y. unfold splice_out, set_next, set_prev. fn_cases.
Qed.

(** ** Lists of threads and their nodes *)
Lemma elem_nodes_of y tl l : y ∈ nodes_of tl l ↔ y = NHead tl ∨ y = NTail tl ∨ ∃ t, y = NThread t ∧ t ∈ l.
Proof. unfold nodes_of. rewrite elem_of_cons, elem_of_app, list_elem_of_fmap, list_elem_of_singleton. tauto. Qed.

Lemma nodup_nodes_of tl l : NoDup l → NoDup (nodes_of tl l).
Proof.
  intros Hl. unfold nodes_of. apply NoDup_cons. split.
  - rewrite elem_of_app, list_elem_of_fmap, list_elem_of_singleton. naive_solver.
  - apply NoDup_app. split_and!; [apply NoDup_fmap; [by intros ?? [=]|done]| |apply NoDup_singleton].
    intros y (t & -> & _)%list_elem_of_fmap [=]%list_elem_of_singleton.
Qed.

Section reps.
Context (s s' : tlstate) (A : nat → list nat) (tl : nat).
Context (HR : tl_rep s A).

(** The nodes around a position of the list [tl]. *)
Definition split_at (l1 l2 : list nat) (pre : list nid) (a b : nid) (post : list nid) : Prop :=
  pre ++ [a] = NHead tl :: (NThread <$> l1) ∧ b :: post = (NThread <$> l2) ++ [NTail tl].

Lemma split_at_exists l1 l2 : ∃ pre a b post, split_at l1 l2 pre a b post.
Proof using Type.
  clear. destruct (exists_last (l := NHead tl :: (NThread <$> l1))) as (pre & a & E); [done|].
  destruct ((NThread <$> l2) ++ [NTail tl]) as [|b post] eqn:E2; [by destruct l2|].
  exists pre, a, b, post. by split.
Qed.

Lemma split_at_nodes l1 l2 pre a b post : split_at l1 l2 pre a b post →
  nodes_of tl (l1 ++ l2) = pre ++ a :: b :: post.
Proof using Type.
  clear. intros [E1 E2]. unfold nodes_of.
  rewrite fmap_app, <-app_assoc, <-E2, app_comm_cons, <-E1, <-app_assoc. done.
Qed.

Lemma split_at_mid t l1 l2 pre a b post : split_at l1 l2 pre a b post →
  nodes_of tl (l1 ++ t :: l2) = pre ++ a :: NThread t :: b :: post.
Proof using Type.
  clear. intros [E1 E2]. unfold nodes_of. rewrite fmap_app, <-app_assoc, fmap_cons.
  change (NHead tl :: (NThread <$> l1) ++ (NThread t :: (NThread <$> l2)) ++ [NTail tl])
    with ((NHead tl :: (NThread <$> l1)) ++ NThread t :: ((NThread <$> l2) ++ [NTail tl])).
  by rewrite <-E2, <-E1, <-app_assoc.
Qed.

(** Nodes of another list are none of these. *)
Lemma other_list tl' y : tl' ≠ tl → y ∈ nodes_of tl' (A tl') → y ∉ nodes_of tl (A tl).
Proof using HR.
  rewrite !elem_nodes_of. intros Hne Hy Hy'. destruct Hy as [->|[->|(t & -> & Ht)]], Hy' as [E|[E|(t' & E & Ht')]];
    simplify_eq. by apply Hne, (tr_disj _ _ HR _ _ t').
Qed.

Lemma insert_fn_eq {B} (f : nat → B) k v : <[k := v]> f k = v.
Proof using Type. clear. apply fn_lookup_insert. Qed.
Lemma insert_fn_ne {B} (f : nat → B) k k' v : k' ≠ k → <[k := v]> f k' = f k'.
Proof using Type. clear. intros. by apply fn_lookup_insert_ne. Qed.

Lemma end_neq pre a b post l1 l2 tl' : split_at l1 l2 pre a b post →
  (NHead tl' ≠ b) ∧ (NTail tl' ≠ a).
Proof using Type.
  clear. intros [E1 E2]. split.
  - intros <-. assert (NHead tl' ∈ (NThread <$> l2) ++ [NTail tl]) as Hin by (rewrite <-E2; left).
    rewrite elem_of_app, list_elem_of_fmap, list_elem_of_singleton in Hin. naive_solver.
  - intros <-. assert (NTail tl' ∈ NHead tl :: (NThread <$> l1)) as Hin by (rewrite <-E1; set_solver).
    rewrite elem_of_cons, list_elem_of_fmap in Hin. naive_solver.
Qed.

(** A thread that was on no list put at a position of [tl]. *)
Lemma tl_rep_insert t l1 l2 pre a b post : A tl = l1 ++ l2 → (∀ k, t ∉ A k) →
  Z.of_nat (length (A tl)) + 1 < 2 ^ 32 → split_at l1 l2 pre a b post →
  (∀ y, node s' y = splice_in (node s) a (NThread t) b y) →
  (∀ k, tl_count s' k = if decide (k = tl) then u32 (tl_count s k + 1) else tl_count s k) →
  tl_rep s' (<[tl := l1 ++ t :: l2]> A).
Proof using HR.
  intros HA Ht Hlen Hsp Hf Hc. pose proof (split_at_nodes _ _ _ _ _ _ Hsp) as Hns. rewrite <-HA in Hns.
  pose proof (nodup_nodes_of tl _ (tr_nodup _ _ HR tl)) as Hnd.
  assert (∀ k, NThread t ∉ nodes_of k (A k)) as Hnt by (intros k; rewrite elem_nodes_of; naive_solver).
  assert (a ∈ nodes_of tl (A tl) ∧ b ∈ nodes_of tl (A tl)) as [Hain Hbin] by (rewrite Hns; set_solver).
  assert (∀ k y, k ≠ tl → y ∈ nodes_of k (A k) → y ≠ NThread t ∧ y ≠ a ∧ y ≠ b) as Hoth.
  { intros k y Hk Hy. pose proof (other_list k y Hk Hy). split_and!; intros ->; naive_solver. }
  constructor.
  - intros k. destruct (decide (k = tl)) as [->|Hk].
    + rewrite insert_fn_eq, (split_at_mid _ _ _ _ _ _ _ Hsp). eapply linked_splice_in; [| | |done]; rewrite <-Hns;
        [apply HR|done|apply Hnt].
    + rewrite insert_fn_ne by done. eapply linked_ext; [| |apply (tr_linked _ _ HR k)]; intros y Hy; rewrite Hf.
      * apply elem_of_removelast in Hy. apply splice_in_fields; by eapply Hoth.
      * apply splice_in_fields; eapply Hoth; try done; by right.
  - intros k. destruct (end_neq _ _ _ _ _ _ k Hsp). rewrite !Hf. destruct (tr_ends _ _ HR k) as [E1 E2].
    split; [rewrite <-E1|rewrite <-E2]; by apply splice_in_fields.
  - intros k. rewrite Hc. destruct (tr_count _ _ HR k) as [E1 E2]. destruct (decide (k = tl)) as [->|Hk].
    + rewrite insert_fn_eq, length_app. rewrite HA, length_app in *. simpl. rewrite u32_id; lia.
    + by rewrite insert_fn_ne.
  - intros u. rewrite Hf. destruct (decide (u = t)) as [->|Hu].
    + unfold splice_in. rewrite decide_True by done. simpl. apply HR.
    + rewrite <-(tr_self _ _ HR u). apply splice_in_fields. congruence.
  - intros k. destruct (decide (k = tl)) as [->|Hk]; [|rewrite insert_fn_ne by done; apply HR].
    rewrite insert_fn_eq. pose proof (tr_nodup _ _ HR tl) as Hl. specialize (Ht tl). rewrite HA in Hl, Ht.
    rewrite <-(Permutation_middle l1 l2 t). by apply NoDup_cons.
  - intros k1 k2 u. destruct (decide (k1 = tl)) as [->|H1], (decide (k2 = tl)) as [->|H2];
      rewrite ?insert_fn_eq, ?insert_fn_ne by done; intros Hu1 Hu2; [done| | |by eapply HR].
    + apply (tr_disj _ _ HR _ _ u); [|done]. rewrite HA. set_solver.
    + apply (tr_disj _ _ HR _ _ u); [done|]. rewrite HA. set_solver.
  - intros u Hu. assert (u ≠ t) as Hut.
    { intros ->. apply (Hu tl). rewrite insert_fn_eq. set_solver. }
    assert (∀ k, u ∉ A k) as Hu'.
    { intros k Hk. apply (Hu k). destruct (decide (k = tl)) as [->|]; [rewrite insert_fn_eq; rewrite HA in Hk; set_solver|].
      by rewrite insert_fn_ne. }
    assert (NThread u ∉ nodes_of tl (A tl)) as Hun by (rewrite elem_nodes_of; naive_solver).
    destruct (tr_off _ _ HR u Hu') as [E1 E2]. rewrite !Hf.
    split; [rewrite <-E1|rewrite <-E2]; apply splice_in_fields; congruence.
Qed.

(** The thread at a position of [tl] taken off. *)
Lemma tl_rep_remove t l1 l2 pre a b post : A tl = l1 ++ t :: l2 → split_at l1 l2 pre a b post →
  (∀ y, node s' y = splice_out (node s) a (NThread t) b y) →
  (∀ k, tl_count s' k = if decide (k = tl) then u32 (tl_count s k - 1) else tl_count s k) →
  tl_rep s' (<[tl := l1 ++ l2]> A).
Proof using HR.
  intros HA Hsp Hf Hc. pose proof (split_at_mid t _ _ _ _ _ _ Hsp) as Hns. rewrite <-HA in Hns.
  pose proof (split_at_nodes _ _ _ _ _ _ Hsp) as Hns2.
  assert (NoDup (t :: l1 ++ l2)) as [Ht Hnd]%NoDup_cons.
  { rewrite Permutation_middle, <-HA. apply HR. }
  pose proof (nodup_nodes_of tl _ Hnd) as Hnd2.
  assert (NThread t ∉ nodes_of tl (l1 ++ l2)) as Hnt by (rewrite elem_nodes_of; naive_solver).
  assert (a ∈ nodes_of tl (A tl) ∧ b ∈ nodes_of tl (A tl) ∧ NThread t ∈ nodes_of tl (A tl)) as (Hain & Hbin & Htin)
    by (rewrite Hns; set_solver).
  assert (∀ k y, k ≠ tl → y ∈ nodes_of k (A k) → y ≠ NThread t ∧ y ≠ a ∧ y ≠ b) as Hoth.
  { intros k y Hk Hy. pose proof (other_list k y Hk Hy). split_and!; intros ->; naive_solver. }
  constructor.
  - intros k. destruct (decide (k = tl)) as [->|Hk].
    + rewrite insert_fn_eq, Hns2. eapply linked_splice_out; [| | |done]; [rewrite <-Hns; apply HR|by rewrite <-Hns2..].
    + rewrite insert_fn_ne by done. eapply linked_ext; [| |apply (tr_linked _ _ HR k)]; intros y Hy; rewrite Hf.
      * apply elem_of_removelast in Hy. apply splice_out_fields; by eapply Hoth.
      * apply splice_out_fields; eapply Hoth; try done; by right.
  - intros k. destruct (end_neq _ _ _ _ _ _ k Hsp). rewrite !Hf. destruct (tr_ends _ _ HR k) as [E1 E2].
    split; [rewrite <-E1|rewrite <-E2]; by apply splice_out_fields.
  - intros k. rewrite Hc. destruct (tr_count _ _ HR k) as [E1 E2]. destruct (decide (k = tl)) as [->|Hk].
    + rewrite insert_fn_eq, length_app. rewrite HA, length_app in E1. simpl in E1. rewrite u32_id; lia.
    + by rewrite insert_fn_ne.
  - intros u. rewrite Hf. destruct (decide (u = t)) as [->|Hu].
    + unfold splice_out. rewrite decide_True by done. simpl. apply HR.
    + rewrite <-(tr_self _ _ HR u). apply splice_out_fields. congruence.
  - intros k. destruct (decide (k = tl)) as [->|Hk]; [by rewrite insert_fn_eq|rewrite insert_fn_ne by done; apply HR].
  - intros k1 k2 u. destruct (decide (k1 = tl)) as [->|H1], (decide (k2 = tl)) as [->|H2];
      rewrite ?insert_fn_eq, ?insert_fn_ne by done; intros Hu1 Hu2; [done| | |by eapply HR].
    + apply (tr_disj _ _ HR _ _ u); [|done]. rewrite HA. set_solver.
    + apply (tr_disj _ _ HR _ _ u); [done|]. rewrite HA. set_solver.
  - intros u Hu. rewrite !Hf. destruct (decide (u = t)) as [->|Hut].
    { unfold splice_out. rewrite decide_True by done. done. }
    assert (∀ k, u ∉ A k) as Hu'.
    { intros k Hk. apply (Hu k). destruct (decide (k = tl)) as [->|]; [rewrite insert_fn_eq; rewrite HA in Hk; set_solver|].
      by rewrite insert_fn_ne. }
    assert (NThread u ∉ nodes_of tl (A tl)) as Hun by (rewrite elem_nodes_of; naive_solver).
    destruct (tr_off _ _ HR u Hu') as [E1 E2].
    split; [rewrite <-E1|rewrite <-E2]; apply splice_out_fields; congruence.
Qed.
End reps.

(** ** The operations refine lists of threads *)
Lemma wp_count_up (Q : unit → tlstate → Prop) s tl :
  Q tt (TLState (node s) (<[tl := u32 (tl_count s tl + 1)]> (tl_count s))) → wp (count_up tl) Q s.
Proof. intros. unfold count_up, put_count. by wp_steps. Qed.
Lemma wp_count_down (Q : unit → tlstate → Prop) s tl :
  Q tt (TLState (node s) (<[tl := u32 (tl_count s tl - 1)]> (tl_count s))) → wp (count_down tl) Q s.
Proof. intros. unfold count_down, put_count. by wp_steps. Qed.

Lemma count_insert (c : nat → Z) tl v k : <[tl := v]> c k = if decide (k = tl) then v else c k.
Proof. unfold insert, fn_insert. repeat case_decide; congruence. Qed.

(** The neighbours around a position of a list, with what the code reads there. *)
Lemma position s A tl l1 l2 : tl_rep s A → A tl = l1 ++ l2 →
  ∃ pre a b post, split_at tl l1 l2 pre a b post ∧ tln_next (node s a) = Some b ∧ tln_prev (node s b) = Some a ∧
    a ≠ b ∧ (∀ t, (∀ k, t ∉ A k) → a ≠ NThread t ∧ b ≠ NThread t) ∧
    (l1 = [] → a = NHead tl) ∧ (∀ l o, l1 = l ++ [o] → a = NThread o) ∧
    (l2 = [] → b = NTail tl) ∧ (∀ o l, l2 = o :: l → b = NThread o).
Proof.
  intros HR HA. destruct (split_at_exists tl l1 l2) as (pre & a & b & post & Hsp).
  pose proof (split_at_nodes _ _ _ _ _ _ _ Hsp) as Hns. rewrite <-HA in Hns.
  pose proof (tr_linked _ _ HR tl) as Hl. rewrite Hns in Hl. apply linked_app in Hl as [_ (H1 & H2 & _)].
  pose proof (nodup_nodes_of tl _ (tr_nodup _ _ HR tl)) as Hnd. rewrite Hns in Hnd.
  apply NoDup_app in Hnd as (_ & _ & [Hab _]%NoDup_cons).
  exists pre, a, b, post. split_and!; [done..| | | | | |].
  - intros ->. apply Hab. left.
  - intros t Ht. assert (∀ y, y ∈ nodes_of tl (A tl) → y ≠ NThread t) as Hy.
    { intros y Hy ->. apply elem_nodes_of in Hy. naive_solver. }
    rewrite Hns in Hy. split; apply Hy; set_solver.
  - intros ->. destruct Hsp as [E _]. by apply (app_inj_tail pre [] a (NHead tl)) in E as [_ ->].
  - intros l o ->. destruct Hsp as [E _]. rewrite fmap_app, app_comm_cons in E.
    by apply app_inj_tail in E as [_ ->].
  - intros ->. destruct Hsp as [_ E]. by injection E as -> _.
  - intros o l ->. destruct Hsp as [_ E]. by injection E as -> _.
Qed.

(** Both ways of inserting put the thread at the position of their argument. *)
Lemma insert_spec s A tl l1 l2 t a b (m : M tlstate unit) : tl_rep s A → A tl = l1 ++ l2 →
  (∀ k, t ∉ A k) → Z.of_nat (length (A tl)) + 1 < 2 ^ 32 →
  (∃ pre post, split_at tl l1 l2 pre a b post) → wp m (spliced splice_in s a (NThread t) b) s →
  wp (m;; count_up tl) (λ _ s', tl_rep s' (<[tl := l1 ++ t :: l2]> A)) s.
Proof.
  intros HR HA Ht Hlen (pre & post & Hsp) Hm. apply wp_bind_2. eapply wp_mono; [done|].
  intros [] s1 [Hf Hc]. apply wp_count_up. eapply tl_rep_insert; [done..|]. simpl.
  intros k. rewrite count_insert, Hc. by case_decide; subst.
Qed.

Lemma insertafternode_spec s A tl l1 l2 t a : tl_rep s A → A tl = l1 ++ l2 → (∀ k, t ∉ A k) →
  Z.of_nat (length (A tl)) + 1 < 2 ^ 32 → (l1 = [] ∧ a = NHead tl ∨ ∃ l o, l1 = l ++ [o] ∧ a = NThread o) →
  wp (threadlist_insertafternode a t;; count_up tl) (λ _ s', tl_rep s' (<[tl := l1 ++ t :: l2]> A)) s.
Proof.
  intros HR HA Ht Hlen Ha.
  destruct (position s A tl l1 l2 HR HA) as (pre & a' & b & post & Hsp & H1 & H2 & Hab & Hth & Ha1 & Ha2 & _).
  assert (a = a') as -> by (destruct Ha as [[E ->]|(l & o & E & ->)]; [by rewrite Ha1|by rewrite (Ha2 l o)]).
  eapply insert_spec; [done..|eauto|]. destruct (Hth t Ht). by apply wp_insertafternode.
Qed.

Lemma insertbeforenode_spec s A tl l1 l2 t b : tl_rep s A → A tl = l1 ++ l2 → (∀ k, t ∉ A k) →
  Z.of_nat (length (A tl)) + 1 < 2 ^ 32 → (l2 = [] ∧ b = NTail tl ∨ ∃ o l, l2 = o :: l ∧ b = NThread o) →
  wp (threadlist_insertbeforenode t b;; count_up tl) (λ _ s', tl_rep s' (<[tl := l1 ++ t :: l2]> A)) s.
Proof.
  intros HR HA Ht Hlen Hb.
  destruct (position s A tl l1 l2 HR HA) as (pre & a & b' & post & Hsp & H1 & H2 & Hab & Hth & _ & _ & Hb1 & Hb2).
  assert (b = b') as -> by (destruct Hb as [[E ->]|(l & o & E & ->)]; [by rewrite Hb1|by rewrite (Hb2 l o)]).
  eapply insert_spec; [done..|eauto|]. destruct (Hth t Ht). by apply wp_insertbeforenode.
Qed.

Lemma removenode_spec s A tl l1 l2 t : tl_rep s A → A tl = l1 ++ t :: l2 →
  wp (threadlist_removenode (NThread t);; count_down tl)
    (λ _ s', tl_rep s' (<[tl := l1 ++ l2]> A) ∧ tln_self (node s' (NThread t)) = Some t) s.
Proof.
  intros HR HA. destruct (split_at_exists tl l1 l2) as (pre & a & b & post & Hsp).
  pose proof (split_at_mid tl t _ _ _ _ _ _ Hsp) as Hns. rewrite <-HA in Hns.
  pose proof (tr_linked _ _ HR tl) as Hl. rewrite Hns in Hl.
  apply linked_app in Hl as [_ (H1 & H2 & H3 & H4 & _)].
  pose proof (nodup_nodes_of tl _ (tr_nodup _ _ HR tl)) as Hnd. rewrite Hns in Hnd.
  apply NoDup_app in Hnd as (_ & _ & [Ha [Hx _]%NoDup_cons]%NoDup_cons).
  rewrite !not_elem_of_cons in Ha. rewrite not_elem_of_cons in Hx.
  apply wp_bind_2. eapply wp_mono; [eapply wp_removenode; try done; naive_solver|].
  intros [] s1 [Hf Hc]. apply wp_count_down. split.
  - eapply tl_rep_remove; [done..|]. simpl. intros k. rewrite count_insert, Hc. by case_decide; subst.
  - simpl. rewrite Hf. unfold splice_out. rewrite decide_True by done. apply HR.
Qed.

(** *** One call against the abstract lists *)
Inductive tlop : Type :=
| AddHead (tl t : nat) | AddTail (tl t : nat) | RemHead (tl : nat) | RemTail (tl : nat)
| InsertAfter (tl onlist addee : nat) | InsertBefore (tl addee onlist : nat) | Remove (tl t : nat).

Definition tlop_run (o : tlop) : M tlstate (option nat) :=
  match o with
  | AddHead tl t => threadlist_addhead tl t;; mret None
  | AddTail tl t => threadlist_addtail tl t;; mret None
  | RemHead tl => threadlist_remhead tl
  | RemTail tl => threadlist_remtail tl
  | InsertAfter tl o t => threadlist_insertafter tl o t;; mret None
  | InsertBefore tl t o => threadlist_insertbefore tl t o;; mret None
  | Remove tl t => threadlist_remove tl t;; mret None
  end.

(** What the caller may ask, and the lists and the result it gets. *)
Inductive tlspec (A : nat → list nat) : tlop → option nat → (nat → list nat) → Prop :=
| sp_addhead tl t : (∀ k, t ∉ A k) → tlspec A (AddHead tl t) None (<[tl := t :: A tl]> A)
| sp_addtail tl t : (∀ k, t ∉ A k) → tlspec A (AddTail tl t) None (<[tl := A tl ++ [t]]> A)
| sp_remhead tl t l : A tl = t :: l → tlspec A (RemHead tl) (Some t) (<[tl := l]> A)
| sp_remhead_empty tl : A tl = [] → tlspec A (RemHead tl) None A
| sp_remtail tl t l : A tl = l ++ [t] → tlspec A (RemTail tl) (Some t) (<[tl := l]> A)
| sp_remtail_empty tl : A tl = [] → tlspec A (RemTail tl) None A
| sp_insertafter tl o t l1 l2 : A tl = l1 ++ o :: l2 → (∀ k, t ∉ A k) →
    tlspec A (InsertAfter tl o t) None (<[tl := l1 ++ o :: t :: l2]> A)
| sp_insertbefore tl o t l1 l2 : A tl = l1 ++ o :: l2 → (∀ k, t ∉ A k) →
    tlspec A (InsertBefore tl t o) None (<[tl := l1 ++ t :: o :: l2]> A)
| sp_remove tl t l1 l2 : A tl = l1 ++ t :: l2 → tlspec A (Remove tl t) None (<[tl := l1 ++ l2]> A).

Lemma wp_assoc {S B C} (m : M S unit) (n : M S B) (k : B → M S C) Q s :
  wp (m;; n) (λ b, wp (k b) Q) s → wp (m;; b ← n; k b) Q s.
Proof. rewrite !wp_bind. intros H. eapply wp_mono; [exact H|]. intros [] s'. cbv beta. by rewrite wp_bind. Qed.

Lemma remhead_spec s A tl : tl_rep s A →
  wp (threadlist_remhead tl) (λ r s', match A tl with
    | [] => r = None ∧ s' = s | t :: l => r = Some t ∧ tl_rep s' (<[tl := l]> A) end) s.
Proof.
  intros HR. unfold threadlist_remhead.
  destruct (position s A tl [] (A tl) HR eq_refl) as (pre & a & b & post & Hsp & H1 & H2 & Hab & Hth & Ha & _ & Hb & Hb2).
  specialize (Ha eq_refl) as ->. destruct (A tl) as [|t l] eqn:E.
  - specialize (Hb eq_refl) as ->. repeat (tl_step; cbv beta).
    destruct (tr_ends _ _ HR tl) as [_ ->]. by apply wp_ret.
  - rewrite (Hb2 t l) in * by done. repeat (tl_step; cbv beta).
    destruct (position s A tl [t] l HR E) as (_ & a' & b' & _ & _ & H3 & _ & _ & _ & _ & Ha' & _).
    rewrite (Ha' [] t) in H3 by done. rewrite H3. cbn [is_None].
    apply wp_assoc. eapply wp_mono; [by apply (removenode_spec s A tl [] l t)|].
    intros [] s1 [HR1 Hself]. apply wp_gets. by rewrite Hself.
Qed.

Lemma remtail_spec s A tl : tl_rep s A →
  wp (threadlist_remtail tl) (λ r s', match reverse (A tl) with
    | [] => r = None ∧ s' = s | t :: l => r = Some t ∧ tl_rep s' (<[tl := reverse l]> A) end) s.
Proof.
  intros HR. unfold threadlist_remtail.
  destruct (position s A tl (A tl) [] HR (eq_sym (app_nil_r _))) as
    (pre & a & b & post & Hsp & H1 & H2 & Hab & Hth & Ha & Ha2 & Hb & _).
  specialize (Hb eq_refl) as ->. destruct (reverse (A tl)) as [|t l] eqn:E.
  - apply (f_equal reverse) in E. rewrite reverse_involutive in E. rewrite (Ha E) in *.
    repeat (tl_step; cbv beta). destruct (tr_ends _ _ HR tl) as [-> _]. by apply wp_ret.
  - apply (f_equal reverse) in E. rewrite reverse_involutive, reverse_cons in E.
    rewrite (Ha2 (reverse l) t) in * by done. repeat (tl_step; cbv beta).
    destruct (position s A tl (reverse l) [t] HR E) as (_ & a' & b' & _ & _ & _ & H3 & _ & _ & _ & _ & _ & Hb').
    rewrite (Hb' t []) in H3 by done. rewrite H3. cbn [is_None].
    apply wp_assoc. eapply wp_mono; [by apply (removenode_spec s A tl (reverse l) [] t)|].
    intros [] s1 [HR1 Hself]. apply wp_gets. rewrite Hself, app_nil_r in *. done.
Qed.

Lemma tlspec_ok s A o r A' : tl_rep s A → tlspec A o r A' → (∀ tl, Z.of_nat (length (A tl)) + 1 < 2 ^ 32) →
  wp (tlop_run o) (λ r' s', r' = r ∧ tl_rep s' A') s.
Proof.
  intros HR Hsp Hlen.
  assert (∀ (m : M tlstate unit), wp m (λ _ s', tl_rep s' A') s →
    wp (m;; mret (None : option nat)) (λ r' s', r' = None ∧ tl_rep s' A') s) as Hret.
  { intros m Hm. apply wp_bind_2. eapply wp_mono; [done|]. intros [] s' ?. by apply wp_ret. }
  destruct Hsp as [tl t Ht|tl t Ht|tl t l HA|tl HA|tl t l HA|tl HA|tl o t l1 l2 HA Ht|tl o t l1 l2 HA Ht|tl t l1 l2 HA];
    cbn [tlop_run].
  - apply Hret, (insertafternode_spec s A tl [] (A tl)); auto.
  - apply Hret, (insertbeforenode_spec s A tl (A tl) []); [done|by rewrite app_nil_r|auto..].
  - eapply wp_mono; [by apply remhead_spec|]. intros r s'. by rewrite HA.
  - eapply wp_mono; [by apply remhead_spec|]. intros r s'. rewrite HA. by intros [-> ->].
  - eapply wp_mono; [by apply remtail_spec|]. intros r s'. rewrite HA, reverse_app. simpl. by rewrite reverse_involutive.
  - eapply wp_mono; [by apply remtail_spec|]. intros r s'. rewrite HA. by intros [-> ->].
  - apply Hret. change (l1 ++ o :: t :: l2) with (l1 ++ [o] ++ t :: l2). rewrite app_assoc.
    apply insertafternode_spec; [done|by rewrite HA, <-app_assoc|done..|]. right. eauto.
  - apply Hret, insertbeforenode_spec; [done..|]. right. eauto.
  - apply Hret. eapply wp_mono; [by apply removenode_spec|]. by intros [] s' [? _].
Qed.

(** Runs of calls with their results. *)
Fixpoint tlops_run (os : list tlop) : M tlstate (list (option nat)) :=
  match os with
  | [] => mret []
  | o :: os => r ← tlop_run o; rs ← tlops_run os; mret (r :: rs)
  end.
Inductive tlspecs : (nat → list nat) → list tlop → list (option nat) → (nat → list nat) → Prop :=
| sps_nil A : tlspecs A [] [] A
| sps_cons A o r A1 os rs A2 : tlspec A o r A1 → tlspecs A1 os rs A2 → tlspecs A (o :: os) (r :: rs) A2.

Lemma tlspec_length A o r A' tl : tlspec A o r A' → (length (A' tl) ≤ length (A tl) + 1)%nat.
Proof.
  intros [k ? ?|k ? ?|k ? ? HA|k ?|k ? ? HA|k ?|k ? ? ? ? HA ?|k ? ? ? ? HA ?|k ? ? ? HA]; try lia;
    (destruct (decide (tl = k)) as [->|Hne]; [rewrite insert_fn_eq; rewrite ?HA|rewrite insert_fn_ne by done; lia]);
    rewrite ?length_app; simpl; rewrite ?length_app; simpl; lia.
Qed.

Lemma tlspecs_ok A os rs A' : tlspecs A os rs A' → ∀ s, tl_rep s A →
  (∀ tl, Z.of_nat (length (A tl) + length os) < 2 ^ 32) →
  wp (tlops_run os) (λ rs' s', rs' = rs ∧ tl_rep s' A') s.
Proof.
  induction 1 as [A|A o r A1 os rs A2 H1 _ IH]; intros s HR Hlen; cbn [tlops_run]; [by apply wp_ret|].
  apply wp_bind_2. eapply wp_mono; [eapply tlspec_ok; [done..|]|].
  { intros tl. specialize (Hlen tl). simpl in Hlen. lia. }
  intros r' s1 [-> HR1]. apply wp_bind_2. eapply wp_mono; [apply IH; [done|]|].
  { intros tl. specialize (Hlen tl). pose proof (tlspec_length _ _ _ _ tl H1). simpl in Hlen. lia. }
  intros rs' s2 [-> HR2]. by apply wp_ret.
Qed.

(** C25: Any sequence of calls on the thread lists of the system behaves like the
    same sequence on plain lists: the results are theirs, the links and the count
    of every list spell out its threads in order in both directions, and a thread
    on no list has its links cleared. Asking whether a list is empty tells. *)
Theorem threadlists_refine_lists s A os rs A' : tl_rep s A → tlspecs A os rs A' →
  (∀ tl, Z.of_nat (length (A tl) + length os) < 2 ^ 32) →
  ∃ s', tlops_run os s = Ok (rs, s') ∧ tl_rep s' A' ∧
    ∀ tl, threadlist_isempty tl s' = Ok (bool_decide (A' tl = []), s').
Proof.
  intros HR Hsp Hlen. destruct (proj1 (wp_exists _ _ _) (tlspecs_ok _ _ _ _ Hsp s HR Hlen)) as (rs' & s' & E & -> & HR').
  exists s'. split_and!; [done..|]. intros tl. unfold threadlist_isempty, gets.
  destruct (tr_count _ _ HR' tl) as [-> _]. by destruct (A' tl).
Qed.

(** All lists empty and all threads off them, as the init functions leave them. *)
Definition empty_lists : tlstate := TLState
  (λ n, match n with
        | NHead tl => TLNode None (Some (NTail tl)) None
        | NTail tl => TLNode (Some (NHead tl)) None None
        | NThread t => TLNode None None (Some t)
        end) (λ _, 0).

Lemma empty_lists_rep : tl_rep empty_lists (λ _, []).
Proof.
  constructor; try done; intros; try apply NoDup_nil_2.
  by match goal with H : _ ∈ [] |- _ => apply elem_of_nil in H end.
Qed.

Lemma threadlists_refine_lists_witness :
  ∃ s', tlops_run [AddTail 0 7; AddTail 0 8; InsertAfter 0 7 9; RemTail 0; RemHead 0] empty_lists =
    Ok ([None; None; None; Some 8%nat; Some 7%nat], s') ∧ threadlist_isempty 0 s' = Ok (false, s').
Proof.
  set (A0 := λ _ : nat, [] : list nat).
  destruct (threadlists_refine_lists empty_lists A0 [AddTail 0 7; AddTail 0 8; InsertAfter 0 7 9; RemTail 0; RemHead 0]
    [None; None; None; Some 8%nat; Some 7%nat]
    (<[0%nat := [9%nat]]> (<[0%nat := [7; 9]%nat]> (<[0%nat := [7; 9; 8]%nat]> (<[0%nat := [7; 8]%nat]>
      (<[0%nat := [7%nat]]> A0)))))) as (s' & E & _ & He).
  - exact empty_lists_rep.
  - assert (∀ (l l' : list nat) (A : nat → list nat) t, (∀ k, A k = if decide (k = 0%nat) then l else []) →
      t ∉ l → ∀ k, t ∉ A k) as Hno.
    { intros l l' A t HA Ht k. rewrite HA. case_decide; [done|apply not_elem_of_nil]. }
    eapply sps_cons; [by apply (sp_addtail A0 0 7); intros k; apply not_elem_of_nil|].
    eapply sps_cons; [apply (sp_addtail (<[0%nat := [7%nat]]> A0) 0 8); eapply (Hno [7%nat] []); [by intros []|set_solver]|].
    eapply sps_cons; [apply (sp_insertafter (<[0%nat := [7; 8]%nat]> (<[0%nat := [7%nat]]> A0)) 0 7 9 [] [8%nat]);
      [done|]; eapply (Hno [7; 8]%nat []); [by intros []|set_solver]|].
    eapply sps_cons; [by apply (sp_remtail _ 0 8 [7; 9]%nat)|].
    eapply sps_cons; [by apply (sp_remhead _ 0 7 [9%nat])|]. apply sps_nil.
  - intros tl. simpl. lia.
  - exists s'. split; [done|]. exact (He 0%nat).
Defined.
