(* ===== verification/Sched.v ===== *)
(** Moving threads between the run queues of the processors:
    [thread_consider_migration] of [kern/thread/thread.c].

    The function uses thread lists through the interface [ThreadLists], which
    says of each operation what it does to the lists; [Threadlist] implements it.
    The model is the run of one processor while the others leave the queues alone;
    the locks of the queues it takes and gives back around each access are then
    free, and are left out. *)

From stdpp Require Import base tactics numbers functions sets list.
From S2P Require Import Prelude KernDefs Threadlist.
Local Open Scope Z_scope.

(** ** What the scheduler needs of thread lists *)
Class ThreadLists (S : Type) := {
  tl_holds : S → (nat → list nat) → Prop;
  tl_addhead : nat → nat → M S unit;
  tl_addtail : nat → nat → M S unit;
  tl_remhead : nat → M S (option nat);
  tl_remtail : nat → M S (option nat);
  tl_num : nat → S → Z;
  tl_addhead_law s A tl t : tl_holds s A → (∀ k, t ∉ A k) → Z.of_nat (length (A tl)) + 1 < 2 ^ 32 →
    wp (tl_addhead tl t) (λ _ s', tl_holds s' (<[tl := t :: A tl]> A)) s;
  tl_addtail_law s A tl t : tl_holds s A → (∀ k, t ∉ A k) → Z.of_nat (length (A tl)) + 1 < 2 ^ 32 →
    wp (tl_addtail tl t) (λ _ s', tl_holds s' (<[tl := A tl ++ [t]]> A)) s;
  tl_remhead_law s A tl : tl_holds s A →
    wp (tl_remhead tl) (λ r s', match A tl with
      | [] => r = None ∧ tl_holds s' A | t :: l => r = Some t ∧ tl_holds s' (<[tl := l]> A) end) s;
  tl_remtail_law s A tl l t : tl_holds s A → A tl = l ++ [t] →
    wp (tl_remtail tl) (λ r s', r = Some t ∧ tl_holds s' (<[tl := l]> A)) s;
  tl_num_law s A tl : tl_holds s A → tl_num tl s = Z.of_nat (length (A tl));
  tl_disjoint s A tl1 tl2 t : tl_holds s A → t ∈ A tl1 → t ∈ A tl2 → tl1 = tl2;
  tl_nodup s A tl : tl_holds s A → NoDup (A tl);
}.

#[export] Program Instance threadlist_lists : ThreadLists tlstate := {
  tl_holds := tl_rep;
  tl_addhead := threadlist_addhead;
  tl_addtail := threadlist_addtail;
  tl_remhead := threadlist_remhead;
  tl_remtail := threadlist_remtail;
  tl_num tl s := tl_count s tl;
}.
Next Obligation. intros s A tl t HR Ht Hl. apply (insertafternode_spec s A tl [] (A tl)); auto. Qed.
Next Obligation.
  intros s A tl t HR Ht Hl. apply (insertbeforenode_spec s A tl (A tl) []); auto. by rewrite app_nil_r.
Qed.
Next Obligation.
  intros s A tl HR. eapply wp_mono; [by apply remhead_spec|]. intros r s'. destruct (A tl); [|done].
  by intros [-> ->].
Qed.
Next Obligation.
  intros s A tl l t HR HA. eapply wp_mono; [by apply remtail_spec|]. intros r s'.
  rewrite HA, reverse_app. simpl. by rewrite reverse_involutive.
Qed.
Next Obligation. intros s A tl HR. apply HR. Qed.
Next Obligation. intros s A tl1 tl2 t HR. apply HR. Qed.
Next Obligation. intros s A tl HR. apply HR. Qed.

(** ** The code *)
Set Default Proof Using "Type".
Section sched.
Context {S : Type} {TL : ThreadLists S}.

(** Thread lists, the processor of each thread, which processors idle, and the
    interrupts sent. The run queue of processor [c] is the list [c]. *)
Record sched := Sched { lists : S; t_cpu : nat → nat; c_isidle : nat → bool; ipis : list nat }.

#[local] Instance sched_sub : Sub sched S.
Proof.
  refine {| sub_get := lists; sub_put l s := Sched l (t_cpu s) (c_isidle s) (ipis s) |}; by intros [].
Defined.

Context (numcpus me cur victims : nat).

Definition set_t_cpu (t c : nat) : M sched unit :=
  modify (λ s, Sched (lists s) (<[t := c]> (t_cpu s)) (c_isidle s) (ipis s)).
Definition ipi_send (c : nat) : M sched unit :=
  modify (λ s, Sched (lists s) (t_cpu s) (c_isidle s) (ipis s ++ [c])).
Definition num (tl : nat) : M sched Z := gets (λ s, tl_num tl (lists s)).

(** [my_count] and [total_count], with unsigned sums. *)
Fixpoint count_queues (n : nat) (i : nat) (my total : Z) : M sched (Z * Z) :=
  match n with
  | O => mret (my, total)
  | Datatypes.S n =>
      k ← num i;
      count_queues n (i + 1) (if decide (i = me) then k else my) (u32 (total + k))
  end.

Definition DIVROUNDUP (a b : Z) : Z := u32 (a + b - 1) / b.

(** The first loop: [to_send] threads off the tail of our queue. *)
Fixpoint take_victims (to_send : nat) : M sched unit :=
  match to_send with
  | O => mret tt
  | Datatypes.S k =>
      t ← zoom (tl_remtail me); t ← of_opt t;
      zoom (tl_addhead victims t);;
      take_victims k
  end.

(** The inner loop for processor [c]; gives back what is left of [to_send]. *)
Fixpoint fill_cpu (one_share : Z) (c : nat) (to_send : nat) : M sched nat :=
  match to_send with
  | O => mret O
  | Datatypes.S k =>
      n ← num c;
      if n <? one_share then
        t ← zoom (tl_remhead victims);
        if decide (t = Some cur) then
          zoom (tl_addtail victims cur);; fill_cpu one_share c k
        else
          t ← of_opt t;
          set_t_cpu t c;;
          zoom (tl_addtail c t);;
          s ← getS;
          (if c_isidle s c then ipi_send c else mret tt);;
          fill_cpu one_share c k
      else mret to_send
  end.

Fixpoint fill_cpus (one_share : Z) (n : nat) (i : nat) (to_send : nat) : M sched nat :=
  match n, to_send with
  | Datatypes.S n, Datatypes.S _ =>
      k ← (if decide (i = me) then mret to_send else fill_cpu one_share i to_send);
      fill_cpus one_share n (i + 1) k
  | _, _ => mret to_send
  end.

(** Leftovers go back; at most as many rounds as the list is long, and one. *)
Fixpoint put_back (fuel : nat) : M sched unit :=
  match fuel with
  | O => diverge
  | Datatypes.S fuel =>
      t ← zoom (tl_remhead victims);
      match t with
      | None => mret tt
      | Some t => zoom (tl_addtail me t);; put_back fuel
      end
  end.

Definition thread_consider_migration : M sched unit :=
  '(my_count, total_count) ← count_queues numcpus 0 0 0;
  let one_share := DIVROUNDUP total_count (Z.of_nat numcpus) in
  if my_count <? one_share then mret tt
  else
    let to_send := Z.to_nat (my_count - one_share) in
    take_victims to_send;;
    fill_cpus one_share numcpus 0 to_send;;
    n ← num victims;
    (if n =? 0 then mret tt else put_back (Datatypes.S (Z.to_nat n)));;
    n ← num victims;
    kassert (n =? 0).

(** ** No thread is lost *)
Implicit Types A : nat → list nat.
Definition queues A : list nat := seq 0 numcpus ≫= A.
Definition pool A : list nat := A victims ++ queues A.
Definition in_pool (k : nat) : Prop := k = victims ∨ (k < numcpus)%nat.

Lemma app_swap (x b c : list nat) : (x ++ b) ++ c ≡ₚ (c ++ b) ++ x.
Proof using Type.
  clear. rewrite (Permutation_app_comm (x ++ b) c), <-app_assoc. apply Permutation_app_head, Permutation_app_comm.
Qed.

Lemma bind_insert (l : list nat) A k x : k ∉ l → (l ≫= <[k := x]> A) = l ≫= A.
Proof using Type.
  clear. induction l as [|c l IH]; intros Hk; [done|]. apply not_elem_of_cons in Hk as [Hc Hk].
  by rewrite !bind_cons, IH, insert_fn_ne.
Qed.

Lemma bind_insert_perm (l : list nat) A k x : NoDup l → k ∈ l →
  (l ≫= <[k := x]> A) ++ A k ≡ₚ (l ≫= A) ++ x.
Proof using Type.
  clear. induction l as [|c l IH]; intros Hnd Hk; [by apply elem_of_nil in Hk|].
  apply NoDup_cons in Hnd as [Hc Hnd]. rewrite !bind_cons. destruct (decide (k = c)) as [->|Hne].
  - rewrite insert_fn_eq, bind_insert by done. apply app_swap.
  - rewrite insert_fn_ne by done. rewrite <-!app_assoc. apply Permutation_app_head, IH; [done|].
    apply elem_of_cons in Hk as [?|?]; [congruence|done].
Qed.

Context (Hme : (me < numcpus)%nat) (Hvic : (numcpus ≤ victims)%nat).

Lemma pool_insert A k x : in_pool k → pool (<[k := x]> A) ++ A k ≡ₚ pool A ++ x.
Proof using Hme Hvic.
  unfold pool, queues. intros [->|Hk].
  - rewrite insert_fn_eq, bind_insert by (rewrite elem_of_seq; lia). apply app_swap.
  - rewrite insert_fn_ne by lia. rewrite <-!app_assoc. apply Permutation_app_head, bind_insert_perm;
      [apply NoDup_seq|apply elem_of_seq; lia].
Qed.

(** Moving a thread from the list [k1] to the list [k2]. *)
Lemma pool_move A k1 k2 t l1 l2 : in_pool k1 → in_pool k2 → A k1 ≡ₚ t :: l1 →
  l2 ≡ₚ t :: <[k1 := l1]> A k2 → pool (<[k2 := l2]> (<[k1 := l1]> A)) ≡ₚ pool A.
Proof using Hme Hvic.
  intros H1 H2 E1 E2. pose proof (pool_insert A k1 l1 H1) as P1.
  pose proof (pool_insert (<[k1 := l1]> A) k2 l2 H2) as P2.
  assert (t :: pool (<[k1 := l1]> A) ≡ₚ pool A) as P1'.
  { apply (Permutation_app_inv_r l1). etrans; [|exact P1]. rewrite E1. apply Permutation_middle. }
  etrans; [|exact P1']. apply (Permutation_app_inv_r (<[k1 := l1]> A k2)). etrans; [exact P2|].
  rewrite E2. symmetry. apply Permutation_middle.
Qed.

Lemma pool_length A k : in_pool k → (length (A k) ≤ length (pool A))%nat.
Proof using Hme Hvic.
  intros Hk. pose proof (Permutation_length (pool_insert A k [] Hk)) as E.
  rewrite !length_app in E. simpl in E. lia.
Qed.

Lemma pool_length_lt A k1 k2 t l1 : in_pool k1 → in_pool k2 → A k1 ≡ₚ t :: l1 →
  (length (<[k1 := l1]> A k2) + 1 ≤ length (pool A))%nat.
Proof using Hme Hvic.
  intros H1 H2 E. pose proof (pool_length (<[k1 := l1]> A) k2 H2) as L.
  pose proof (Permutation_length (pool_insert A k1 l1 H1)) as P. rewrite !length_app, E in P. simpl in P. lia.
Qed.

Lemma removed_fresh (l : S) A k1 t l1 : tl_holds l A → A k1 ≡ₚ t :: l1 → ∀ k, t ∉ <[k1 := l1]> A k.
Proof using Type.
  clear -TL. intros HL E k Hin. assert (t ∈ A k1) as Ht by (rewrite E; left).
  destruct (decide (k = k1)) as [->|Hne].
  - rewrite insert_fn_eq in Hin. pose proof (tl_nodup _ _ k1 HL) as Hnd. rewrite E in Hnd.
    by apply NoDup_cons in Hnd as [? _].
  - rewrite insert_fn_ne in Hin by done. apply Hne. by eapply tl_disjoint.
Qed.

(** ** The state while threads move *)
Context (A0 : nat → list nat) (Hlen : Z.of_nat (length (pool A0)) + Z.of_nat numcpus < 2 ^ 32).

Record minv A (s : sched) : Prop := {
  mi_holds : tl_holds (lists s) A;
  mi_pool : pool A ≡ₚ pool A0;
  mi_frame : ∀ k, ¬ in_pool k → A k = A0 k;
  mi_cpu : ∀ k t, in_pool k → t ∈ A k → t_cpu s t = if decide (k = victims) then me else k;
  mi_cur : ∀ c, (c < numcpus)%nat → c ≠ me → cur ∈ A c → cur ∈ A0 c;
}.

Lemma minv_move A s s' k1 k2 t l1 l2 : minv A s → in_pool k1 → in_pool k2 → A k1 ≡ₚ t :: l1 →
  l2 ≡ₚ t :: <[k1 := l1]> A k2 → tl_holds (lists s') (<[k2 := l2]> (<[k1 := l1]> A)) →
  t_cpu s' t = (if decide (k2 = victims) then me else k2) → (∀ u, u ≠ t → t_cpu s' u = t_cpu s u) →
  (t = cur → k2 = me ∨ k2 = victims) → minv (<[k2 := l2]> (<[k1 := l1]> A)) s'.
Proof using Hme Hvic.
  intros HM H1 H2 E1 E2 HL Ht Hu Hcur.
  pose proof (removed_fresh _ _ _ _ _ (mi_holds _ _ HM) E1) as Hfresh.
  assert (∀ k u, u ∈ <[k1 := l1]> A k → u ∈ A k) as Hsub.
  { intros k u. destruct (decide (k = k1)) as [->|Hne]; [|by rewrite insert_fn_ne].
    rewrite insert_fn_eq, E1. by right. }
  constructor; [done| | | |].
  - etrans; [by eapply pool_move|apply HM].
  - intros k Hk. rewrite !insert_fn_ne; [by apply HM|by intros ->..].
  - intros k u Hk Hin. destruct (decide (k = k2)) as [->|Hne].
    + rewrite insert_fn_eq, E2 in Hin. apply elem_of_cons in Hin as [->|Hin]; [done|].
      rewrite Hu by (intros ->; by eapply Hfresh). by apply HM, Hsub.
    + rewrite insert_fn_ne in Hin by done. rewrite Hu by (intros ->; by eapply Hfresh). by apply HM, Hsub.
  - intros c Hc Hcm Hin. destruct (decide (c = k2)) as [->|Hne].
    + rewrite insert_fn_eq, E2 in Hin. apply elem_of_cons in Hin as [<-|Hin].
      * destruct (Hcur eq_refl); [done|lia].
      * by apply (mi_cur _ _ HM), Hsub.
    + rewrite insert_fn_ne in Hin by done. by apply (mi_cur _ _ HM), Hsub.
Qed.

Lemma minv_bound A s k1 k2 t l1 : minv A s → in_pool k1 → in_pool k2 → A k1 ≡ₚ t :: l1 →
  Z.of_nat (length (<[k1 := l1]> A k2)) + 1 < 2 ^ 32.
Proof using Hme Hvic Hlen.
  intros HM H1 H2 E. pose proof (pool_length_lt A k1 k2 t l1 H1 H2 E) as L.
  rewrite (Permutation_length (mi_pool _ _ HM)) in L. lia.
Qed.

Lemma num_spec (Q : Z → sched → Prop) A s k : tl_holds (lists s) A → Q (Z.of_nat (length (A k))) s → wp (num k) Q s.
Proof. intros HL HQ. unfold num. apply wp_gets. by rewrite (tl_num_law _ A). Qed.

(** Taking from one list and adding to another. *)
Lemma me_victims : me ≠ victims ∧ in_pool me ∧ in_pool victims.
Proof using Hme Hvic. clear A0 Hlen. unfold in_pool. lia. Qed.

Lemma take_victims_spec k : ∀ A s l vs, minv A s → A me = l ++ vs → length vs = k →
  wp (take_victims k) (λ _ s', ∃ A', minv A' s' ∧ A' me = l ∧ A' victims = vs ++ A victims ∧
    ∀ j, j ≠ me → j ≠ victims → A' j = A j) s.
Proof using Hme Hvic Hlen.
  destruct me_victims as (Hmv & Hpm & Hpv).
  induction k as [|k IH]; intros A s l vs HM HA Hk; cbn [take_victims].
  { apply nil_length_inv in Hk as ->. apply wp_ret. exists A. rewrite app_nil_r in HA. done. }
  destruct (exists_last (l := vs)) as (vs' & t & ->); [by intros ->|].
  rewrite length_app in Hk. simpl in Hk. rewrite app_assoc in HA.
  assert (A me ≡ₚ t :: (l ++ vs')) as E by (rewrite HA; symmetry; apply Permutation_cons_append).
  apply wp_bind_2, wp_zoom. eapply wp_mono; [by apply (tl_remtail_law _ A _ (l ++ vs') t), HA; apply HM|].
  intros r l1 [-> HL1]. apply wp_bind_2. eapply wp_of_opt; [done|].
  apply wp_bind_2, wp_zoom. eapply wp_mono; [apply (tl_addhead_law _ (<[me := l ++ vs']> A) victims t); [done| |]|].
  - by eapply removed_fresh; [apply HM|].
  - by eapply minv_bound.
  - intros [] l2 HL2. cbn in HL2. rewrite (insert_fn_ne A me victims) in HL2 by done.
    eapply wp_mono; [eapply (IH _ _ l vs')|].
    + eapply (minv_move A s _ me victims t (l ++ vs')); [done..| |exact HL2| |done|by right].
      * by rewrite insert_fn_ne.
      * rewrite decide_True by done. simpl. rewrite (mi_cpu _ _ HM me t); [by rewrite decide_False|done|]. rewrite E. left.
    + by rewrite insert_fn_ne, insert_fn_eq.
    + lia.
    + intros [] s' (A' & HM' & E1 & E2 & E3). exists A'. split_and!; [done..| |].
      * rewrite E2, insert_fn_eq, <-app_assoc. done.
      * intros j H1 H2. rewrite E3, !insert_fn_ne by done. done.
Qed.

(** Enough victims for what is still to be sent; all of them unless [curthread] is one. *)
Definition sendable A (k : nat) : Prop :=
  (k ≤ length (A victims))%nat ∧ (cur ∉ A victims → k = length (A victims)).

Definition filled (os : Z) (c : nat) A A' : Prop :=
  (cur ∉ A victims → cur ∉ A' victims) ∧ (∀ j, j ≠ victims → j ≠ c → A' j = A j) ∧
  A c `prefix_of` A' c ∧ Z.of_nat (length (A' c)) ≤ Z.max (Z.of_nat (length (A c))) os.

Lemma fill_cpu_spec os c k : (c < numcpus)%nat → c ≠ me → ∀ A s, minv A s → sendable A k →
  wp (fill_cpu os c k) (λ k' s', ∃ A', minv A' s' ∧ sendable A' k' ∧ filled os c A A' ∧
    (k' = 0%nat ∨ os ≤ Z.of_nat (length (A' c)))) s.
Proof using Hme Hvic Hlen.
  intros Hc Hcm. destruct me_victims as (Hmv & Hpm & Hpv).
  assert (in_pool c ∧ c ≠ victims) as [Hpc Hcv] by (unfold in_pool; lia).
  assert (∀ A, filled os c A A) as Hrefl by (intros A; split_and!; [done..|lia]).
  induction k as [|k IH]; intros A s HM [HS1 HS2]; cbn [fill_cpu].
  { apply wp_ret. exists A. split_and!; [done|by split|done|by left]. }
  apply wp_bind_2. eapply num_spec; [apply HM|]. destruct (Z.ltb_spec (Z.of_nat (length (A c))) os) as [Hlt|Hge].
  2: { apply wp_ret. exists A. split_and!; [done|by split|done|by right]. }
  destruct (A victims) as [|t V] eqn:EV; [simpl in HS1; lia|].
  assert (A victims ≡ₚ t :: V) as PV by (by rewrite EV).
  apply wp_bind_2, wp_zoom. eapply wp_mono; [apply (tl_remhead_law _ A victims), HM|].
  rewrite EV. intros r l1 [-> HL1].
  pose proof (removed_fresh _ _ _ _ _ (mi_holds _ _ HM) PV) as Hfresh.
  destruct (decide (Some t = Some cur)) as [[= ->]|Hne].
  - apply wp_bind_2, wp_zoom. eapply wp_mono; [apply (tl_addtail_law _ (<[victims := V]> A) victims cur); [done..|]|].
    { by eapply minv_bound. }
    intros [] l2 HL2. rewrite insert_fn_eq in HL2. eapply wp_mono; [eapply IH|].
    + eapply (minv_move A s _ victims victims cur V); [done..| |exact HL2| |done|by right].
      * rewrite insert_fn_eq. symmetry. apply Permutation_cons_append.
      * simpl. apply (mi_cpu _ _ HM victims cur); [done|]. rewrite EV. left.
    + unfold sendable. rewrite insert_fn_eq, length_app. simpl in HS1. split; [lia|]. intros Hn. exfalso. set_solver.
    + intros k' s' (A' & HM' & HS' & (F1 & F2 & F3 & F4) & Hk). exists A'. split_and!; [done..| |done].
      rewrite !insert_fn_ne in F3, F4 by done. split_and!; [|intros j H1 H2; by rewrite F2, !insert_fn_ne|done..].
      rewrite EV. intros Hn. exfalso. apply Hn. left.
  - apply wp_bind_2. eapply wp_of_opt; [done|]. apply wp_bind_2, wp_modify. apply wp_bind_2, wp_zoom.
    eapply wp_mono; [apply (tl_addtail_law _ (<[victims := V]> A) c t); [done..|]|].
    { by eapply minv_bound. }
    intros [] l2 HL2. rewrite (insert_fn_ne A victims c) in HL2 by done. apply wp_bind_2, wp_get, wp_bind_2.
    match goal with |- wp (if ?b then _ else _) _ ?st => set (s1 := st) end.
    assert (∀ ip, minv (<[c := A c ++ [t]]> (<[victims := V]> A))
      (Sched (lists s1) (t_cpu s1) (c_isidle s1) ip)) as HM1.
    { intros ip. eapply (minv_move A s _ victims c t V); [done..| |exact HL2| | |].
      - rewrite insert_fn_ne by done. symmetry. apply Permutation_cons_append.
      - simpl. by rewrite insert_fn_eq, decide_False.
      - intros u Hu. simpl. by rewrite insert_fn_ne.
      - intros ->. by destruct Hne. }
    assert (∀ ip, wp (fill_cpu os c k) (λ k' s', ∃ A', minv A' s' ∧ sendable A' k' ∧ filled os c A A' ∧
      (k' = 0%nat ∨ os ≤ Z.of_nat (length (A' c)))) (Sched (lists s1) (t_cpu s1) (c_isidle s1) ip)) as Hgo.
    { intros ip. eapply wp_mono; [eapply IH; [apply HM1|]|].
      - unfold sendable. rewrite (insert_fn_ne _ c victims), insert_fn_eq by done. simpl in HS1, HS2.
        split; [lia|]. intros Hn. cut (Datatypes.S k = Datatypes.S (length V)); [lia|]. apply HS2.
        apply not_elem_of_cons. split; [congruence|done].
      - intros k' s' (A' & HM' & HS' & (F1 & F2 & F3 & F4) & Hk). exists A'. split_and!; [done..| |done].
        rewrite (insert_fn_ne _ c victims), insert_fn_eq in F1 by done. rewrite insert_fn_eq in F3, F4.
        split_and!.
        + rewrite EV, not_elem_of_cons. intros [_ ?]. auto.
        + intros j H1 H2. by rewrite F2, !insert_fn_ne.
        + etrans; [|exact F3]. by apply prefix_app_r.
        + rewrite length_app in F4. simpl in F4. lia. }
    destruct (c_isidle s1 c); [apply wp_modify|apply wp_ret].
    + apply Hgo.
    + specialize (Hgo (ipis s1)). by destruct s1.
Qed.

Lemma fill_cpus_spec os n : ∀ i k A s, (i + n = numcpus)%nat → minv A s → sendable A k →
  wp (fill_cpus os n i k) (λ k' s', ∃ A', minv A' s' ∧ sendable A' k' ∧ (k = 0%nat → k' = 0%nat) ∧
    (cur ∉ A victims → cur ∉ A' victims) ∧ A' me = A me ∧
    (∀ j, (j < i)%nat → A' j = A j) ∧
    (∀ c, (c < numcpus)%nat → A c `prefix_of` A' c ∧
       Z.of_nat (length (A' c)) ≤ Z.max (Z.of_nat (length (A c))) os) ∧
    (k' = 0%nat ∨ ∀ c, (i ≤ c < numcpus)%nat → c ≠ me → os ≤ Z.of_nat (length (A' c)))) s.
Proof using Hme Hvic Hlen.
  induction n as [|n IH]; intros i k A s Hin HM HS; cbn [fill_cpus].
  { apply wp_ret. exists A. split_and!; try done; [intros; split; [done|lia]|right; lia]. }
  destruct k as [|k].
  { apply wp_ret. exists A. split_and!; try done; [intros; split; [done|lia]|by left]. }
  apply wp_bind_2. destruct (decide (i = me)) as [->|Hne].
  - apply wp_ret. eapply wp_mono; [apply IH; [lia|done..]|].
    intros k' s' (A' & HM' & HS' & F0 & F1 & F2 & F3 & F4 & F5). exists A'. split_and!; try done.
    + intros j Hj. apply F3. lia.
    + destruct F5 as [?|F5]; [by left|right]. intros c Hc Hcm. apply F5; [lia|done].
  - eapply wp_mono; [apply (fill_cpu_spec os i (Datatypes.S k)); [lia|done..]|].
    intros k1 s1 (A1 & HM1 & HS1 & (G1 & G2 & G3 & G4) & G5).
    eapply wp_mono; [apply IH; [lia|done..]|].
    intros k' s' (A' & HM' & HS' & F0 & F1 & F2 & F3 & F4 & F5). exists A'.
    assert (A' i = A1 i) as Ei by (apply F3; lia). split_and!; try done; [auto| | | |].
    + rewrite F2. apply G2; lia.
    + intros j Hj. rewrite F3 by lia. apply G2; lia.
    + intros c Hc. destruct (F4 c Hc) as [P1 P2]. destruct (decide (c = i)) as [->|Hci].
      * by rewrite Ei.
      * by rewrite (G2 c) in P1, P2 by lia.
    + destruct F5 as [?|F5]; [by left|]. destruct (decide (k' = 0%nat)) as [?|Hk']; [by left|right].
      intros c Hc Hcm. destruct (decide (c = i)) as [->|]; [|apply F5; [lia|done]].
      rewrite Ei. destruct G5 as [->|G5]; [|done].
      by destruct Hk'; apply F0.
Qed.

Lemma put_back_spec fuel : ∀ A s, minv A s → (length (A victims) < fuel)%nat →
  wp (put_back fuel) (λ _ s', ∃ A', minv A' s' ∧ A' victims = [] ∧ A' me = A me ++ A victims ∧
    ∀ j, j ≠ me → j ≠ victims → A' j = A j) s.
Proof using Hme Hvic Hlen.
  destruct me_victims as (Hmv & Hpm & Hpv).
  induction fuel as [|fuel IH]; intros A s HM Hf; [lia|]. cbn [put_back].
  apply wp_bind_2, wp_zoom. eapply wp_mono; [apply (tl_remhead_law _ A victims), HM|].
  destruct (A victims) as [|t V] eqn:EV; intros r l1 [-> HL1].
  { apply wp_ret. exists A. split_and!; [|done|by rewrite app_nil_r|done].
    destruct HM. constructor; try done. }
  assert (A victims ≡ₚ t :: V) as PV by (by rewrite EV).
  apply wp_bind_2, wp_zoom. eapply wp_mono; [apply (tl_addtail_law _ (<[victims := V]> A) me t); [done| |]|].
  - by eapply removed_fresh; [apply HM|].
  - by eapply minv_bound.
  - intros [] l2 HL2. rewrite (insert_fn_ne A victims me) in HL2 by done. eapply wp_mono; [apply IH|].
    + eapply (minv_move A s _ victims me t V); [done..| |exact HL2| |done|by left].
      * rewrite insert_fn_ne by done. symmetry. apply Permutation_cons_append.
      * simpl. rewrite (mi_cpu _ _ HM victims t); [by rewrite decide_True, decide_False|done|]. rewrite EV. left.
    + rewrite insert_fn_ne, insert_fn_eq by done. simpl in Hf. lia.
    + intros [] s' (A' & HM' & E1 & E2 & E3). exists A'. split_and!; [done..| |].
      * rewrite E2, insert_fn_eq, insert_fn_ne, insert_fn_eq, <-app_assoc by done. done.
      * intros j H1 H2. by rewrite E3, !insert_fn_ne.
Qed.

Lemma count_queues_spec n : ∀ i my A s, (i + n = numcpus)%nat → tl_holds (lists s) A →
  Z.of_nat (length (queues A)) < 2 ^ 32 →
  wp (count_queues n i my (Z.of_nat (length (seq 0 i ≫= A)))) (λ r s', s' = s ∧
    r = (if decide (i ≤ me)%nat then Z.of_nat (length (A me)) else my, Z.of_nat (length (queues A)))) s.
Proof using Hme.
  clear Hvic Hlen A0. induction n as [|n IH]; intros i my A s Hi HL Hb; cbn [count_queues].
  { apply wp_ret. split; [done|]. rewrite decide_False by lia. unfold queues. by replace numcpus with i by lia. }
  apply wp_bind_2. eapply num_spec; [done|].
  assert (length (seq 0 (i + 1) ≫= A) = length (seq 0 i ≫= A) + length (A i))%nat as E.
  { rewrite seq_app, bind_app, length_app. simpl. by rewrite app_nil_r. }
  assert (length (seq 0 (i + 1) ≫= A) ≤ length (queues A))%nat as Hle.
  { unfold queues. replace numcpus with (i + 1 + n)%nat by lia. rewrite (seq_app (i + 1) n), bind_app, length_app. lia. }
  rewrite u32_id by lia.
  replace (Z.of_nat (length (seq 0 i ≫= A)) + Z.of_nat (length (A i)))
    with (Z.of_nat (length (seq 0 (i + 1) ≫= A))) by lia.
  eapply wp_mono; [apply IH; [lia|done..]|]. intros r s' [-> ->]. split; [done|]. f_equal.
  destruct (decide (i = me)) as [->|]; [rewrite decide_False, decide_True by lia; done|].
  by repeat case_decide; try lia.
Qed.

Lemma queues_at_least A os : (∀ c, (c < numcpus)%nat → os ≤ Z.of_nat (length (A c))) →
  Z.of_nat numcpus * os ≤ Z.of_nat (length (queues A)).
Proof using Type.
  clear. unfold queues. induction numcpus as [|n IH]; intros Hc; [simpl; lia|].
  rewrite seq_S, bind_app, length_app. simpl. rewrite app_nil_r.
  assert (Z.of_nat n * os ≤ Z.of_nat (length (seq 0 n ≫= A))) by (apply IH; intros; apply Hc; lia).
  pose proof (Hc n). lia.
Qed.

(** The share of each processor: enough for all threads together. *)
Lemma share_enough (total n : Z) : 0 ≤ total → 0 < n → total + n < 2 ^ 32 →
  DIVROUNDUP total n = (total + n - 1) / n ∧ total ≤ n * DIVROUNDUP total n ∧ 0 ≤ DIVROUNDUP total n.
Proof using Type.
  clear. intros H1 H2 H3. unfold DIVROUNDUP. rewrite u32_id by lia. split; [done|].
  pose proof (Z.div_mod (total + n - 1) n ltac:(lia)). pose proof (Z.mod_pos_bound (total + n - 1) n H2).
  split; [lia|]. apply Z.div_pos; lia.
Qed.

Definition share A : Z := (Z.of_nat (length (queues A)) + Z.of_nat numcpus - 1) / Z.of_nat numcpus.

(** The part after the counting. *)
Lemma migrate_spec A s (k : nat) os : A victims = [] → minv A s → os = share A → A = A0 →
  Z.of_nat (length (A me)) = os + Z.of_nat k →
  wp (take_victims k;; fill_cpus os numcpus 0 k;; n ← num victims;
      (if n =? 0 then mret tt else put_back (Datatypes.S (Z.to_nat n)));; n ← num victims; kassert (n =? 0))
    (λ _ s', ∃ A', minv A' s' ∧ A' victims = [] ∧
      (∀ c, (c < numcpus)%nat → c ≠ me → A c `prefix_of` A' c ∧
         Z.of_nat (length (A' c)) ≤ Z.max (Z.of_nat (length (A c))) os) ∧
      (cur ∉ A me → Z.of_nat (length (A' me)) = os)) s.
Proof using Hme Hvic Hlen.
  intros HV HM Hos HA0 Hk. destruct me_victims as (Hmv & Hpm & Hpv).
  assert (Z.of_nat (length (queues A)) ≤ Z.of_nat numcpus * os ∧ 0 ≤ os) as [Hroom Hos0].
  { pose proof Hlen as HL. rewrite <-HA0 in HL. unfold pool in HL. rewrite HV in HL. simpl in HL.
    destruct (share_enough (Z.of_nat (length (queues A))) (Z.of_nat numcpus)) as (E & E1 & E2); [lia..|].
    rewrite E in E1, E2. rewrite Hos. done. }
  set (l := take (length (A me) - k) (A me)). set (vs := drop (length (A me) - k) (A me)).
  assert (length vs = k ∧ Z.of_nat (length l) = os) as [Hvs Hl].
  { unfold vs, l. rewrite length_drop, length_take. lia. }
  apply wp_bind_2. eapply wp_mono; [apply (take_victims_spec k A s l vs); [done| |done]|].
  { symmetry. apply take_drop. }
  intros [] s1 (A1 & HM1 & E1 & E2 & E3). rewrite HV, app_nil_r in E2.
  apply wp_bind_2. eapply wp_mono; [apply (fill_cpus_spec os numcpus 0 k A1 s1); [done..|]|].
  { unfold sendable. rewrite E2, Hvs. done. }
  intros k' s2 (A2 & HM2 & HS2 & _ & F1 & F2 & _ & F4 & F5).
  assert (k' = 0%nat) as ->.
  { destruct F5 as [?|F5]; [done|]. destruct (decide (k' = 0%nat)) as [?|Hk']; [done|exfalso].
    assert (Z.of_nat numcpus * os ≤ Z.of_nat (length (queues A2))) as Hq.
    { apply queues_at_least. intros c Hc. destruct (decide (c = me)) as [->|]; [rewrite F2, E1; lia|].
      apply F5; [lia|done]. }
    pose proof (Permutation_length (mi_pool _ _ HM2)) as P. rewrite <-HA0 in P. unfold pool in P.
    rewrite HV, length_app in P. simpl in P. destruct HS2 as [HS2 _]. lia. }
  assert (∀ A3 s3, minv A3 s3 → A3 victims = [] → (∀ j, j ≠ me → j ≠ victims → A3 j = A2 j) →
    A3 me = A2 me ++ A2 victims → wp (n ← num victims; kassert (n =? 0)) (λ _ s', ∃ A', minv A' s' ∧ A' victims = [] ∧
      (∀ c, (c < numcpus)%nat → c ≠ me → A c `prefix_of` A' c ∧
         Z.of_nat (length (A' c)) ≤ Z.max (Z.of_nat (length (A c))) os) ∧
      (cur ∉ A me → Z.of_nat (length (A' me)) = os)) s3) as Hend.
  { intros A3 s3 HM3 EV Hoth Eme. apply wp_bind_2. eapply num_spec; [apply HM3|]. rewrite EV. apply wp_kassert; [done|].
    exists A3. split_and!; [done..| |].
    - intros c Hc Hcm. rewrite (Hoth c), <-(E3 c) by lia. by apply F4.
    - intros Hn. rewrite Eme, F2, E1, length_app. destruct HS2 as [_ HS2].
      rewrite <-HS2; [lia|]. apply F1. rewrite E2. unfold vs. intros Hin. apply Hn. rewrite <-(take_drop (length (A me) - k) (A me)).
      by apply elem_of_app; right. }
  apply wp_bind_2. eapply num_spec; [apply HM2|]. apply wp_bind_2.
  destruct (Z.eqb_spec (Z.of_nat (length (A2 victims))) 0) as [Hz|Hz].
  - apply wp_ret. assert (A2 victims = []) as EV by (apply nil_length_inv; lia).
    apply (Hend A2); [done..|]. by rewrite EV, app_nil_r.
  - eapply wp_mono; [apply (put_back_spec _ A2); [done|rewrite Nat2Z.id; lia]|].
    intros [] s3 (A3 & HM3 & G1 & G2 & G3). by apply (Hend A3).
Qed.
End sched.
Arguments sched : clear implicits.

(** What is left of the queues [A] by a round of migration. *)
Definition balanced {S} {TL : ThreadLists S} (numcpus me cur : nat) (A : nat → list nat) (s' : sched S)
    (A' : nat → list nat) : Prop :=
  tl_holds (lists s') A' ∧
  queues numcpus A' ≡ₚ queues numcpus A ∧ (∀ k, (numcpus ≤ k)%nat → A' k = A k) ∧
  (∀ c t, (c < numcpus)%nat → t ∈ A' c → t_cpu s' t = c) ∧
  (∀ c, (c < numcpus)%nat → c ≠ me → A c `prefix_of` A' c ∧
     Z.of_nat (length (A' c)) ≤ Z.max (Z.of_nat (length (A c))) (share numcpus A)) ∧
  (cur ∉ A me → Z.of_nat (length (A' me)) = Z.min (Z.of_nat (length (A me))) (share numcpus A)) ∧
  (cur ∈ A me → cur ∈ A' me).

(** C26: While the other processors leave the queues alone, migration loses and
    duplicates no thread: the run queues together hold the same threads, each
    marked with the processor it is queued on; other lists are untouched. A queue
    that had more than its share is brought down to exactly the share (the threads
    of all queues divided by the processors, rounded up) unless [curthread] is on
    it, which stays; the others only grow at their tail, up to the share. The
    function returns: its loops end, and its final assertion holds. *)
Theorem migration_balances {S} {TL : ThreadLists S} (numcpus me cur victims : nat) (A : nat → list nat) (s : sched S) :
  (me < numcpus)%nat → (numcpus ≤ victims)%nat → tl_holds (lists s) A → A victims = [] →
  (∀ c t, (c < numcpus)%nat → t ∈ A c → t_cpu s t = c) →
  Z.of_nat (length (queues numcpus A)) + Z.of_nat numcpus < 2 ^ 32 →
  ∃ s' A', thread_consider_migration numcpus me cur victims s = Ok (tt, s') ∧ balanced numcpus me cur A s' A'.
Proof.
  intros Hme Hvic HL HV Hcpu Hb.
  assert (length (pool numcpus victims A) = length (queues numcpus A)) as Epool by (unfold pool; by rewrite HV).
  assert (Z.of_nat (length (pool numcpus victims A)) + Z.of_nat numcpus < 2 ^ 32) as Hb' by (by rewrite Epool).
  assert (minv numcpus me cur victims A A s) as HM.
  { constructor; try done. intros k t [->|Hk] Ht; [rewrite HV in Ht; by apply elem_of_nil in Ht|].
    rewrite decide_False by lia. by apply Hcpu. }
  destruct (share_enough (Z.of_nat (length (queues numcpus A))) (Z.of_nat numcpus)) as (Es & _ & Es0); [lia..|].
  fold (share numcpus A) in Es. rewrite Es in Es0.
  assert (∀ s' A', minv numcpus me cur victims A A' s' → A' victims = [] →
    (∀ c, (c < numcpus)%nat → c ≠ me → A c `prefix_of` A' c ∧
       Z.of_nat (length (A' c)) ≤ Z.max (Z.of_nat (length (A c))) (share numcpus A)) →
    (cur ∉ A me → Z.of_nat (length (A' me)) = Z.min (Z.of_nat (length (A me))) (share numcpus A)) →
    balanced numcpus me cur A s' A') as Hfin.
  { intros s' A' [HL' HP HF HC HU] HV' H1 H2. unfold pool in HP. rewrite HV, HV' in HP. split_and!; try done.
    - intros k Hk. destruct (decide (k = victims)) as [->|]; [congruence|]. apply HF. unfold in_pool. lia.
    - intros c t Hc Ht. rewrite (HC c t); [|by right|done]. by rewrite decide_False by lia.
    - intros Hin. assert (cur ∈ queues numcpus A') as Hq.
      { simpl in HP. rewrite HP. apply list_elem_of_bind. exists me. split; [done|]. apply elem_of_seq. lia. }
      apply list_elem_of_bind in Hq as (c & Hc & Hcs). apply elem_of_seq in Hcs.
      destruct (decide (c = me)) as [->|Hcm]; [done|]. exfalso. apply Hcm.
      eapply (tl_disjoint _ _ c me cur HL); [|done]. apply HU; [lia|done..]. }
  cut (wp (thread_consider_migration numcpus me cur victims) (λ _ s', ∃ A', balanced numcpus me cur A s' A') s).
  { intros ([] & s' & E & A' & HB)%wp_exists. by exists s', A'. }
  unfold thread_consider_migration. apply wp_bind_2.
  eapply wp_mono; [apply (count_queues_spec numcpus me Hme numcpus 0 0 A s); [lia|done|lia]|].
  intros r s0 [-> ->]. rewrite decide_True by lia. rewrite Es.
  destruct (Z.ltb_spec (Z.of_nat (length (A me))) (share numcpus A)) as [Hlt|Hge].
  - apply wp_ret. exists A. apply Hfin; [done..| |].
    + intros c _ _. split; [done|lia].
    + intros _. lia.
  - eapply wp_mono; [eapply (migrate_spec numcpus me cur victims Hme Hvic A Hb' A s _ (share numcpus A)); try done; lia|].
    intros [] s' (A' & HM' & HV' & H1 & H2). exists A'. apply Hfin; [done..|].
    intros Hn. rewrite H2 by done. lia.
Qed.

(** Two processors, the first with threads 1, 2 and 3 on its queue, list 9 for the
    victims. *)
Definition two_cpus : sched tlstate :=
  Sched (match tlops_run [AddTail 0 1; AddTail 0 2; AddTail 0 3] empty_lists with
         | Ok (_, l) => l | _ => empty_lists end) (λ _, 0%nat) (λ _, true) [].
Definition two_queues : nat → list nat := λ k, if decide (k = 0%nat) then [1; 2; 3]%nat else [].

Lemma two_cpus_holds : tl_holds (lists two_cpus) two_queues.
Proof.
  constructor.
  - intros [|tl]; [by repeat split|done].
  - intros [|tl]; by split.
  - by intros [|tl].
  - by intros [|[|[|[|t]]]].
  - intros [|tl]; simpl; [|apply NoDup_nil_2]. refine (bool_decide_unpack _ _). by vm_compute.
  - intros [|tl1] [|tl2] t H1 H2; try done; by apply elem_of_nil in H1 || apply elem_of_nil in H2.
  - intros t Ht. specialize (Ht 0%nat). unfold two_queues in Ht. simpl in Ht.
    destruct t as [|[|[|[|t]]]]; try done; exfalso; apply Ht; set_solver.
Qed.

Lemma migration_balances_witness :
  ∃ s' A', thread_consider_migration 2 0 8 9 two_cpus = Ok (tt, s') ∧ balanced 2 0 8 two_queues s' A' ∧
    length (A' 0%nat) = 2%nat.
Proof.
  destruct (migration_balances 2 0 8 9 two_queues two_cpus) as (s' & A' & E & HB);
    [lia|lia|exact two_cpus_holds|reflexivity| |by vm_compute|].
  - intros [|c] t _ Ht; [done|by apply elem_of_nil in Ht].
  - exists s', A'. split_and!; [done..|]. destruct HB as (_ & _ & _ & _ & _ & Hl & _).
    apply Nat2Z.inj. rewrite Hl; [by vm_compute|]. set_solver.
Defined.
