(* ===== verification/ProcSys.v ===== *)
(** Processes: [kern/syscall/process_syscalls.c] with the creation and the
    destruction of threads in [kern/thread/thread.c].

    The kernel heap is [SynchObj.kheap]: the set of live blocks and the outcomes
    of the coming allocations. The copies of the address space and of the file
    table that a fork makes are the operations of [AddrSpace] and [FileSys]; here
    they are used through the interface [ForkEnv]. *)

From stdpp Require Import base tactics numbers list gmap.
From S2P Require Import Prelude KernDefs Spl SynchObj.
Local Open Scope Z_scope.

Class ForkEnv (E : Type) := {
  env_as_copy : M E (result Z);          (* as_copy of the caller's address space *)
  env_share_files : M E unit;            (* references++ and memcpy of the table *)
  env_init_filetable : M E (result unit);
}.

Record process := Process {
  p_addr : Z;          (* the block of the structure *)
  p_pid : Z;
  p_ppid : Z;
  exitsem : sem_obj;
  exited : bool;
  exitcode : Z;
  p_self : Z;
}.

Record thread := Thread {
  th_addr : Z;         (* the block of the structure *)
  t_name : Z;
  t_stack : Z;         (* 0 for NULL *)
  t_pid : Z;
  ptable_index : Z;
  t_addrspace : Z;
  t_cwd : Z;
}.

(** [_MKWAIT_EXIT]: the value shifted by two, [__WEXITED] is 0. *)
Definition MKWAIT_EXIT (x : Z) : Z := s32 (Z.shiftl x 2).
Definition WNOHANG : Z := 1.

Section proc.
Context {E : Type} {FE : ForkEnv E}.

Record psys := PSys {
  heap : kheap;
  process_table : list (option process);
  pid_counter : Z;
  curthread : thread;
  env : E;
}.

Definition set_table (t : list (option process)) (s : psys) : psys :=
  PSys (heap s) t (pid_counter s) (curthread s) (env s).

#[export] Instance psys_heap : Sub psys kheap.
Proof.
  refine {| sub_get := heap; sub_put h s := PSys h (process_table s) (pid_counter s) (curthread s) (env s) |};
    by intros [].
Defined.
#[export] Instance psys_env : Sub psys E.
Proof.
  refine {| sub_get := env; sub_put e s := PSys (heap s) (process_table s) (pid_counter s) (curthread s) e |};
    by intros [].
Defined.

(** [process_table[i]], the pointer; an index outside the array is undefined. *)
Definition pt_get (i : Z) : M psys (option process) := s ← getS; of_opt (zget (process_table s) i).
Definition pt_set (i : Z) (p : option process) : M psys unit :=
  s ← getS; t ← of_opt (zset i p (process_table s)); putS (set_table t s).
(** [process_table[i]->...], which follows the pointer. *)
Definition pt_deref (i : Z) : M psys process := o ← pt_get i; of_opt o.

(** ** Process table *)
(** The first NULL entry from [i] on, of [n] entries; [PROC_MAX] when none. *)
Fixpoint find_free (t : list (option process)) (n : nat) (i : Z) : Z :=
  match n with
  | O => i
  | Datatypes.S n => match zget t i with Some None => i | _ => find_free t n (i + 1) end
  end.

Definition pid_alloc : M psys Z :=
  s ← getS;
  let i := find_free (process_table s) (Z.to_nat (PROC_MAX - 1)) 1 in
  if i =? PROC_MAX then mret (-1)
  else
    let c := s32 (pid_counter s + 1) in
    putS (PSys (heap s) (process_table s) c (curthread s) (env s));;
    if c =? PID_MAX then mret (-2) else mret i.

(** [pid] and [self] are not set here: what they hold is [junk]. *)
Definition init_process (junk : Z) (idx : Z) : M psys (option errno) :=
  p ← zoom kmalloc;
  if p =? 0 then mret (Some ENOMEM)
  else
    o ← zoom (sem_create 0);
    match o with
    | None => zoom (kfree p);; mret (Some ENOMEM)
    | Some sem => pt_set idx (Some (Process p junk 0 sem false 0 junk));; mret None
    end.

Definition destroy_process (idx : Z) : M psys unit :=
  p ← pt_deref idx;
  zoom (sem_destroy (exitsem p));;
  zoom (kfree (p_addr p));;
  pt_set idx None.

Definition sys_getpid : M psys Z := gets (λ s, t_pid (curthread s)).

Fixpoint find_pid (t : list (option process)) (i pid : Z) : Z :=
  match t with
  | [] => -1
  | Some p :: t => if p_pid p =? pid then i else find_pid t (i + 1) pid
  | None :: t => find_pid t (i + 1) pid
  end.
Definition getptable_index (pid : Z) : M psys Z := gets (λ s, find_pid (process_table s) 0 pid).

(** ** sys_waitpid *)
(** [P] on the exit semaphore of the child: takes a unit, or sleeps; the call
    never returns when nothing else runs. *)
Definition set_count (n : Z) (o : sem_obj) : sem_obj :=
  SemObj (s_addr o) (s_name o) (s_wchan o) (s_lock o) n.
Definition set_exitsem (o : sem_obj) (p : process) : process :=
  Process (p_addr p) (p_pid p) (p_ppid p) o (exited p) (exitcode p) (p_self p).
Definition exitsem_P (idx : Z) : M psys unit :=
  p ← pt_deref idx;
  if 0 <? s_count (exitsem p) then pt_set idx (Some (set_exitsem (set_count (s_count (exitsem p) - 1) (exitsem p)) p))
  else diverge.
Definition exitsem_V (idx : Z) : M psys unit :=
  p ← pt_deref idx;
  pt_set idx (Some (set_exitsem (set_count (s32 (s_count (exitsem p) + 1)) (exitsem p)) p)).

(** The exit status goes to [*status]; the entry is freed. *)
Definition reap (idx : Z) : M psys Z :=
  p ← pt_deref idx;
  destroy_process idx;;
  mret (MKWAIT_EXIT (exitcode p)).

(** The result is the value for [*retval] and, when one is stored, for [*status]. *)
Definition sys_waitpid (pid status options : Z) : M psys (result (Z * option Z)) :=
  if (pid <? 1) || (PID_MAX <=? pid) then mret (inl ESRCH)
  else
    idx ← getptable_index pid;
    if idx =? -1 then mret (inl ESRCH)
    else
      o ← pt_get idx;
      match o with
      | None => mret (inl ESRCH)
      | Some p =>
          s ← getS;
          if (status =? 0) || (status <=? 0x40000000) || negb (status mod 4 =? 0) then mret (inl EFAULT)
          else if negb (t_pid (curthread s) =? 0) && (USERSPACETOP <=? status) then mret (inl EFAULT)
          else if negb (p_ppid p =? t_pid (curthread s)) then mret (inl ECHILD)
          else if options =? WNOHANG then
            if exited p then st ← reap idx; mret (inr (pid, Some st))
            else mret (inr (0, None))
          else if options =? 0 then
            (if exited p then mret tt else exitsem_P idx);;
            st ← reap idx; mret (inr (pid, Some st))
          else mret (inl EINVAL)
      end.

(** ** sys__exit, in its statements *)
Definition exit_code (code : Z) : M psys unit :=
  s ← getS;
  p ← pt_deref (ptable_index (curthread s));
  pt_set (ptable_index (curthread s))
    (Some (Process (p_addr p) (p_pid p) (p_ppid p) (exitsem p) (exited p) code (p_self p))).
Definition exit_flag : M psys unit :=
  s ← getS;
  p ← pt_deref (ptable_index (curthread s));
  pt_set (ptable_index (curthread s))
    (Some (Process (p_addr p) (p_pid p) (p_ppid p) (exitsem p) true (exitcode p) (p_self p))).
Definition exit_signal : M psys unit := s ← getS; exitsem_V (ptable_index (curthread s)).
(** The part that concerns the process; the thread then exits. *)
Definition exit_process (code : Z) : M psys unit := exit_code code;; exit_flag;; exit_signal.

(** ** Threads *)
Definition thread_create : M psys (option thread) :=
  t ← zoom kmalloc;
  if t =? 0 then mret None
  else
    n ← zoom kstrdup;
    if n =? 0 then zoom (kfree t);; mret None
    else mret (Some (Thread t n 0 0 0 0 0)).

Definition thread_destroy (t : thread) : M psys unit :=
  s ← getS;
  kassert (negb (th_addr t =? th_addr (curthread s)));;
  kassert (t_cwd t =? 0);;
  kassert (t_addrspace t =? 0);;
  (if t_stack t =? 0 then mret tt else zoom (kfree (t_stack t)));;
  zoom (kfree (t_name t));;
  zoom (kfree (th_addr t)).

Definition with_stack (st : Z) (t : thread) : thread :=
  Thread (th_addr t) (t_name t) st (t_pid t) (ptable_index t) (t_addrspace t) (t_cwd t).
Definition with_pid (pid idx : Z) (t : thread) : thread :=
  Thread (th_addr t) (t_name t) (t_stack t) pid idx (t_addrspace t) (t_cwd t).
Definition with_as (a cwd : Z) (t : thread) : thread :=
  Thread (th_addr t) (t_name t) (t_stack t) (t_pid t) (ptable_index t) a cwd.

(** The error paths after the stack was allocated. *)
Definition fork_abandon {A} (t : thread) (e : errno) : M psys (result A) :=
  zoom (kfree (t_stack t));; thread_destroy t;; mret (inl e).
(** The same once the process entry exists. *)
Definition fork_abandon_process {A} (t : thread) (e : errno) : M psys (result A) :=
  p ← pt_deref (ptable_index t);
  zoom (sem_destroy (exitsem p));;
  zoom (kfree (p_addr p));;
  pt_set (ptable_index t) None;;
  fork_abandon t e.

(** The part of [thread_fork] after the stack was allocated: the process entry,
    then the copies of the parent's address space and files, or fresh consoles
    when the kernel itself forks. *)
Definition fork_rest (junk : Z) (t : thread) : M psys (result thread) :=
  i ← pid_alloc;
  if i <? 0 then fork_abandon t (if i =? -1 then ENPROC else EMPROC)
  else
    s ← getS;
    let t := with_pid (pid_counter s) i t in
    r ← init_process junk i;
    match r with
    | Some e => fork_abandon t e
    | None =>
        s ← getS;
        p ← pt_deref i;
        pt_set i (Some (Process (p_addr p) (t_pid t) (t_pid (curthread s)) (exitsem p) (exited p)
                          (exitcode p) (th_addr t)));;
        r ← (if negb (t_pid (curthread s) =? 0) then
               r ← zoom env_as_copy;
               match r with
               | inl e => mret (inl e)
               | inr a => zoom env_share_files;; mret (inr a)
               end
             else
               r ← zoom env_init_filetable;
               match r with inl e => mret (inl e) | inr _ => mret (inr 0) end);
        match r with
        | inl e => fork_abandon_process t e
        | inr a => mret (inr (with_as a (t_cwd (curthread s)) t))
        end
    end.

(** [thread_fork] up to making the new thread runnable. *)
Definition thread_fork (junk : Z) : M psys (result thread) :=
  o ← thread_create;
  match o with
  | None => mret (inl ENOMEM)
  | Some t =>
      st ← zoom kmalloc;
      if st =? 0 then thread_destroy t;; mret (inl ENOMEM)
      else fork_rest junk (with_stack st t)
  end.

(** ** Well-formed tables *)
Definition blocks (p : process) : list Z :=
  [p_addr p; s_addr (exitsem p); s_name (exitsem p); wc_addr (s_wchan (exitsem p))].
(** A process whose blocks are live and whose semaphore nobody sleeps on. *)
Record proc_ok (h : kheap) (p : process) : Prop := {
  po_live : ∀ b, b ∈ blocks p → b ∈ kh_live h;
  po_nodup : NoDup (blocks p);
  po_lock : s_lock (exitsem p) = spinlock_init;
  po_wlock : wc_lock (s_wchan (exitsem p)) = spinlock_init;
  po_wlist : wc_list (s_wchan (exitsem p)) = [];
}.

Record pinv (s : psys) : Prop := {
  pi_heap : kheap_ok (heap s);
  pi_len : Z.of_nat (length (process_table s)) = PROC_MAX;
  pi_zero : process_table s !! 0%nat = Some None;
  pi_procs : ∀ i p, process_table s !! i = Some (Some p) → proc_ok (heap s) p;
  pi_pids : ∀ i j p q, process_table s !! i = Some (Some p) → process_table s !! j = Some (Some q) →
    p_pid p = p_pid q → i = j;
  pi_disj : ∀ i j p q b, process_table s !! i = Some (Some p) → process_table s !! j = Some (Some q) →
    b ∈ blocks p → b ∈ blocks q → i = j;
  pi_counter : ∀ i p, process_table s !! i = Some (Some p) → p_pid p ≤ pid_counter s;
}.

Lemma pt_get_ok s (i : nat) o : process_table s !! i = Some o → pt_get (Z.of_nat i) s = Ok (o, s).
Proof. intros Hi. unfold pt_get. m_simpl. by rewrite zget_nat, Hi. Qed.
Lemma pt_deref_ok s (i : nat) p : process_table s !! i = Some (Some p) → pt_deref (Z.of_nat i) s = Ok (p, s).
Proof. intros Hi. unfold pt_deref, mbind, M_bind. by rewrite (pt_get_ok s i (Some p)). Qed.
Lemma pt_set_ok s (i : nat) o o' : process_table s !! i = Some o →
  pt_set (Z.of_nat i) o' s = Ok (tt, set_table (<[i := o']> (process_table s)) s).
Proof.
  intros Hi. unfold pt_set. m_simpl. rewrite zset_nat; [done|]. by eapply lookup_lt_Some.
Qed.

(** Freeing the blocks of a process. *)
Lemma wp_sem_destroy h p (Q : unit → kheap → Prop) : kheap_ok h → proc_ok h p →
  (∀ h', kheap_ok h' → kh_next h' = kh_next h → kh_live h' = kh_live h ∖ list_to_set (tail (blocks p)) →
     Q tt h') →
  wp (sem_destroy (exitsem p)) Q h.
Proof.
  intros Hh [Hl Hnd Hlk Hwl Hwq] HQ. unfold sem_destroy, wchan_destroy. rewrite Hlk, Hwl, Hwq.
  unfold blocks in *. apply NoDup_cons in Hnd as [_ [Ha [Hn _]%NoDup_cons]%NoDup_cons].
  apply wp_bind_2, wp_kassert; [done|]. apply wp_bind_2, wp_bind_2, wp_kassert; [done|].
  apply wp_bind_2, wp_kassert; [by rewrite bool_decide_eq_true_2|].
  apply wp_kfree; [done|apply Hl; set_solver|]. intros h1 Hh1 El1 En1. apply wp_bind_2.
  apply wp_kfree; [done|rewrite El1; set_solver|]. intros h2 Hh2 El2 En2.
  apply wp_kfree; [done|rewrite El2, El1; set_solver|]. intros h3 Hh3 El3 En3.
  apply HQ; [done|congruence|]. rewrite El3, El2, El1. simpl. set_solver.
Qed.

Lemma destroy_process_spec s (i : nat) p : kheap_ok (heap s) → process_table s !! i = Some (Some p) →
  proc_ok (heap s) p →
  wp (destroy_process (Z.of_nat i)) (λ _ s', ∃ h', kheap_ok h' ∧ kh_next h' = kh_next (heap s) ∧
    kh_live h' = kh_live (heap s) ∖ list_to_set (blocks p) ∧
    s' = PSys h' (<[i := None]> (process_table s)) (pid_counter s) (curthread s) (env s)) s.
Proof.
  intros Hh Hi Hp. unfold destroy_process. apply wp_bind_2. eapply wp_eq; [by apply pt_deref_ok|].
  apply wp_bind_2, wp_zoom. eapply wp_sem_destroy; [done..|]. intros h1 Hh1 En1 El1.
  apply wp_bind_2, wp_zoom. simpl. pose proof Hp as [Hl Hnd _ _ _]. unfold blocks in Hnd.
  apply NoDup_cons in Hnd as [Ha _]. apply wp_kfree; [done| |].
  { rewrite El1. apply elem_of_difference. split; [apply Hl; left|]. simpl. set_solver. }
  intros h2 Hh2 El2 En2. eapply wp_eq; [by apply (pt_set_ok _ i (Some p))|].
  exists h2. simpl in *. split_and!; [done|congruence| |done]. rewrite El2, El1. set_solver.
Qed.

(** ** Waiting for a child *)
Lemma find_pid_ok t k (i : nat) p : t !! i = Some (Some p) →
  (∀ j q, t !! j = Some (Some q) → p_pid q = p_pid p → j = i) → find_pid t k (p_pid p) = k + Z.of_nat i.
Proof.
  revert k i. induction t as [|o t IH]; intros k i Hi Hu; [done|].
  assert (∀ i', i = Datatypes.S i' → find_pid t (k + 1) (p_pid p) = k + Z.of_nat i) as Hrec.
  { intros i' ->. rewrite (IH (k + 1) i'); [lia|done|]. intros j q Hj Hq.
    specialize (Hu (Datatypes.S j) q Hj Hq). lia. }
  destruct i as [|i]; simpl in Hi.
  - simplify_eq. simpl. rewrite Z.eqb_refl. lia.
  - destruct o as [q|]; simpl; [|by eapply Hrec]. destruct (Z.eqb_spec (p_pid q) (p_pid p)) as [Hq|]; [|by eapply Hrec].
    by specialize (Hu 0%nat q eq_refl Hq).
Qed.

Lemma find_pid_none t k pid : (∀ j q, t !! j = Some (Some q) → p_pid q ≠ pid) → find_pid t k pid = -1.
Proof.
  revert k. induction t as [|o t IH]; intros k Hu; [done|].
  assert (find_pid t (k + 1) pid = -1) as Hrec by (apply IH; intros j q Hj; apply (Hu (Datatypes.S j) q Hj)).
  destruct o as [q|]; simpl; [|done]. destruct (Z.eqb_spec (p_pid q) pid) as [Hq|]; [|done].
  by destruct (Hu 0%nat q eq_refl Hq).
Qed.

(** Entry [i] is a child of the caller, which asks for it properly. *)
Record may_wait (s : psys) (i : nat) (p : process) (pid status : Z) : Prop := {
  mw_entry : process_table s !! i = Some (Some p);
  mw_pid : p_pid p = pid;
  mw_range : 1 ≤ pid < PID_MAX;
  mw_status : 0x40000000 < status < USERSPACETOP;
  mw_align : status mod 4 = 0;
  mw_parent : p_ppid p = t_pid (curthread s);
}.

(** The call, past its checks. *)
Lemma waitpid_enter s i p pid status options : pinv s → may_wait s i p pid status →
  sys_waitpid pid status options s =
    (if options =? WNOHANG then
       if exited p then st ← reap (Z.of_nat i); mret (inr (pid, Some st)) else mret (inr (0, None))
     else if options =? 0 then
       (if exited p then mret tt else exitsem_P (Z.of_nat i));;
       st ← reap (Z.of_nat i); mret (inr (pid, Some st))
     else mret (inl EINVAL)) s.
Proof.
  intros HI [Hi Hp Hr Hs Ha Hpp]. unfold sys_waitpid.
  rewrite (proj2 (Z.ltb_ge pid 1)), (proj2 (Z.leb_gt PID_MAX pid)) by lia. cbn [orb].
  unfold mbind at 1, M_bind at 1. unfold getptable_index, gets.
  rewrite <-Hp, (find_pid_ok _ 0 i p Hi) by (intros j q Hj Hq; by eapply pi_pids).
  rewrite Z.add_0_l, (proj2 (Z.eqb_neq (Z.of_nat i) (-1))) by lia.
  unfold mbind at 1, M_bind at 1. rewrite (pt_get_ok s i (Some p) Hi). cbn beta iota.
  unfold mbind at 1, M_bind at 1. unfold getS. rewrite (proj2 (Z.eqb_neq status 0)), (proj2 (Z.leb_gt status _)) by lia.
  rewrite Ha, Z.eqb_refl, (proj2 (Z.leb_gt USERSPACETOP status)), andb_false_r by lia. cbn [orb negb].
  by rewrite Hpp, Z.eqb_refl.
Qed.

Lemma reap_spec s (i : nat) p : pinv s → process_table s !! i = Some (Some p) →
  wp (reap (Z.of_nat i)) (λ st s', st = MKWAIT_EXIT (exitcode p) ∧ ∃ h', kheap_ok h' ∧
    kh_live h' = kh_live (heap s) ∖ list_to_set (blocks p) ∧
    s' = PSys h' (<[i := None]> (process_table s)) (pid_counter s) (curthread s) (env s)) s.
Proof.
  intros HI Hi. unfold reap. apply wp_bind_2. eapply wp_eq; [by apply pt_deref_ok|]. apply wp_bind_2.
  eapply wp_mono; [apply (destroy_process_spec s i p); [apply HI|done|by eapply pi_procs]|].
  intros [] s' (h' & Hh' & _ & El & ->). apply wp_ret. eauto.
Qed.

(** Changing the exit fields of entry [i] keeps the table well formed. *)
Definition same_shape (p q : process) : Prop :=
  p_addr q = p_addr p ∧ p_pid q = p_pid p ∧ p_ppid q = p_ppid p ∧
  s_addr (exitsem q) = s_addr (exitsem p) ∧ s_name (exitsem q) = s_name (exitsem p) ∧
  s_wchan (exitsem q) = s_wchan (exitsem p) ∧ s_lock (exitsem q) = s_lock (exitsem p).

Lemma same_shape_blocks p q : same_shape p q → blocks q = blocks p.
Proof. intros (E1 & _ & _ & E2 & E3 & E4 & _). unfold blocks. by rewrite E1, E2, E3, E4. Qed.

Lemma pinv_update s (i : nat) p q : pinv s → process_table s !! i = Some (Some p) → same_shape p q →
  pinv (set_table (<[i := Some q]> (process_table s)) s).
Proof.
  intros [H1 H2 H3 H4 H5 H6 H7] Hi Hq. pose proof (same_shape_blocks p q Hq) as Eb.
  assert (∀ j r, <[i := Some q]> (process_table s) !! j = Some (Some r) →
    ∃ r0, process_table s !! j = Some (Some r0) ∧ same_shape r0 r) as Hl.
  { intros j r [(<- & [= <-] & _)|[Hne Hj]]%list_lookup_insert_Some; [by eauto|]. exists r. done. }
  constructor; simpl.
  - done.
  - by rewrite length_insert.
  - rewrite list_lookup_insert_ne; [done|]. intros ->. congruence.
  - intros j r (r0 & Hj & Hs)%Hl. pose proof (H4 j r0 Hj) as [P1 P2 P3 P4 P5].
    pose proof (same_shape_blocks r0 r Hs) as Er. destruct Hs as (_ & _ & _ & _ & _ & E4 & E5).
    constructor; [by rewrite Er|by rewrite Er|congruence..].
  - intros j k r r' (r0 & Hj & S1)%Hl (r1 & Hk & S2)%Hl Epid. eapply H5; [done..|].
    destruct S1 as (_ & <- & _), S2 as (_ & <- & _). done.
  - intros j k r r' b (r0 & Hj & S1)%Hl (r1 & Hk & S2)%Hl.
    rewrite (same_shape_blocks _ _ S1), (same_shape_blocks _ _ S2). by apply H6.
  - intros j r (r0 & Hj & S1)%Hl. destruct S1 as (_ & -> & _). by eapply H7.
Qed.

(** What an exit leaves in the entry. *)
Definition exit_entry (code : Z) (p : process) : process :=
  Process (p_addr p) (p_pid p) (p_ppid p)
    (set_count (s32 (s_count (exitsem p) + 1)) (exitsem p)) true code (p_self p).

Lemma exit_marks s (i : nat) p code : ptable_index (curthread s) = Z.of_nat i → process_table s !! i = Some (Some p) →
  (exit_code code;; exit_flag) s = Ok (tt, set_table (<[i := Some
    (Process (p_addr p) (p_pid p) (p_ppid p) (exitsem p) true code (p_self p))]> (process_table s)) s).
Proof.
  intros Hidx Hi. assert (i < length (process_table s))%nat by (by eapply lookup_lt_Some).
  unfold exit_code, exit_flag, mbind, M_bind, getS. rewrite Hidx, (pt_deref_ok s i p Hi), (pt_set_ok s i (Some p)) by done.
  cbn beta iota. simpl (curthread _). rewrite Hidx. erewrite pt_deref_ok; [|by apply list_lookup_insert_eq].
  erewrite pt_set_ok; [|by apply list_lookup_insert_eq]. cbn [set_table process_table]. by rewrite list_insert_insert_eq.
Qed.

Lemma exit_process_ok s (i : nat) p code : ptable_index (curthread s) = Z.of_nat i →
  process_table s !! i = Some (Some p) →
  exit_process code s = Ok (tt, set_table (<[i := Some (exit_entry code p)]> (process_table s)) s).
Proof.
  intros Hidx Hi. assert (i < length (process_table s))%nat by (by eapply lookup_lt_Some).
  pose proof (exit_marks s i p code Hidx Hi) as Hm. unfold exit_process. unfold mbind, M_bind in *.
  destruct (exit_code code s) as [[[] s1]| | |]; try done. rewrite Hm. unfold exit_signal, exitsem_V, mbind, M_bind, getS.
  cbn [set_table process_table curthread]. rewrite Hidx. erewrite pt_deref_ok; [|by apply list_lookup_insert_eq].
  erewrite pt_set_ok; [|by apply list_lookup_insert_eq]. cbn [set_table process_table].
  by rewrite list_insert_insert_eq.
Qed.

(** The processor switches to another thread. *)
Definition set_curthread (t : thread) (s : psys) : psys :=
  PSys (heap s) (process_table s) (pid_counter s) t (env s).
End proc.
Arguments psys : clear implicits.
