(* ===== verification/ProcSysSpec.v ===== *)
(** What processes get from exit, waitpid and fork. *)

From stdpp Require Import base tactics numbers list gmap.
From S2P Require Import Prelude KernDefs Spl SynchObj ProcSys.
Local Open Scope Z_scope.

(** The encoding of the exit status ([_WVAL], [_WWHAT] of [kern/wait.h]). *)
Lemma mkwait_exit_value c : - 2 ^ 29 ≤ c < 2 ^ 29 →
  Z.shiftr (MKWAIT_EXIT c) 2 = c ∧ Z.land (MKWAIT_EXIT c) 3 = 0.
Proof.
  intros Hc. unfold MKWAIT_EXIT. rewrite Z.shiftl_mul_pow2 by lia. rewrite s32_id by lia.
  split; [rewrite Z.shiftr_div_pow2 by lia; by rewrite Z.div_mul|].
  change 3 with (Z.ones 2). rewrite Z.land_ones by lia. by apply Z.mod_mul.
Qed.

Set Default Proof Using "Type".
Section spec.
Context {E : Type} {FE : ForkEnv E}.
Implicit Types s : psys E.

Lemma pinv_remove s (i : nat) p h' : pinv s → process_table s !! i = Some (Some p) → kheap_ok h' →
  kh_live h' = kh_live (heap s) ∖ list_to_set (blocks p) →
  pinv (PSys h' (<[i := None]> (process_table s)) (pid_counter s) (curthread s) (env s)).
Proof.
  intros [H1 H2 H3 H4 H5 H6 H7] Hi Hh' El.
  assert (∀ j q, <[i := None]> (process_table s) !! j = Some (Some q) → i ≠ j ∧ process_table s !! j = Some (Some q)) as Hl.
  { intros j q [(<- & [=] & _)|[Hne Hj]]%list_lookup_insert_Some. done. }
  constructor; simpl.
  - done.
  - by rewrite length_insert.
  - rewrite list_lookup_insert_ne; [done|]. intros ->. congruence.
  - intros j q (Hne & Hj)%Hl. destruct (H4 j q Hj) as [P1 P2 P3 P4 P5]. constructor; try done.
    intros b Hb. rewrite El. apply elem_of_difference. split; [by apply P1|].
    rewrite elem_of_list_to_set. intros Hb'. apply Hne. by eapply H6.
  - intros j k q r (_ & Hj)%Hl (_ & Hk)%Hl. by eapply H5.
  - intros j k q r b (_ & Hj)%Hl (_ & Hk)%Hl. by eapply H6.
  - intros j q (_ & Hj)%Hl. by eapply H7.
Qed.

Lemma pinv_cur s t : pinv s → pinv (set_curthread t s).
Proof. by intros []. Qed.

(** The entry of an exited child is given up to its parent. *)
Lemma waitpid_exited s (i : nat) p pid status options : pinv s → may_wait s i p pid status →
  exited p = true → options = 0 ∨ options = WNOHANG →
  ∃ h', sys_waitpid pid status options s = Ok (inr (pid, Some (MKWAIT_EXIT (exitcode p))),
      PSys h' (<[i := None]> (process_table s)) (pid_counter s) (curthread s) (env s)) ∧ kheap_ok h' ∧
    kh_live h' = kh_live (heap s) ∖ list_to_set (blocks p).
Proof.
  intros HI HW Hx Ho. rewrite (waitpid_enter s i p) by done. rewrite Hx.
  pose proof (reap_spec s i p HI (mw_entry _ _ _ _ _ HW)) as (st & s' & Er & -> & h' & Hh' & El & ->)%wp_exists.
  exists h'. split_and!; [|done..]. destruct Ho as [-> | ->]; simpl;
    unfold mbind, M_bind, mret, M_ret; by rewrite Er.
Qed.

Lemma waitpid_unknown s pid status options : (∀ j q, process_table s !! j = Some (Some q) → p_pid q ≠ pid) →
  sys_waitpid pid status options s = Ok (inl ESRCH, s).
Proof.
  intros Hn. unfold sys_waitpid. destruct (_ || _); [done|].
  unfold mbind at 1, M_bind at 1, getptable_index, gets. by rewrite find_pid_none.
Qed.

Lemma removed_pid s (i : nat) p j q : pinv s → process_table s !! i = Some (Some p) →
  <[i := None]> (process_table s) !! j = Some (Some q) → p_pid q ≠ p_pid p.
Proof.
  intros HI Hi [(<- & [=] & _)|[Hne Hj]]%list_lookup_insert_Some Hq. apply Hne. by eapply (pi_pids s HI i j p q).
Qed.

(** C27: A process that exits with a code of 30 bits hands it to its parent: the
    parent's [waitpid], blocking or not, returns the pid of the child and a status
    that decodes to the code, gives back the four blocks of the process and its
    table entry, and nothing else; waiting again finds no such process. A parent
    that asked before the exit sleeps, and continues with the same result. *)
Theorem exit_code_reaches_parent s (i : nat) p parent code pid status options :
  pinv s → process_table s !! i = Some (Some p) → ptable_index (curthread s) = Z.of_nat i →
  may_wait (set_curthread parent s) i p pid status → options = 0 ∨ options = WNOHANG →
  - 2 ^ 29 ≤ code < 2 ^ 29 → s_count (exitsem p) = 0 →
  ∃ s1 s2 st,
    exit_process code s = Ok (tt, s1) ∧
    sys_waitpid pid status options (set_curthread parent s1) = Ok (inr (pid, Some st), s2) ∧
    Z.shiftr st 2 = code ∧ Z.land st 3 = 0 ∧
    process_table s2 = <[i := None]> (process_table s) ∧
    kh_live (heap s2) = kh_live (heap s) ∖ list_to_set (blocks p) ∧ pinv s2 ∧
    sys_waitpid pid status options s2 = Ok (inl ESRCH, s2) ∧
    (exited p = false → sys_waitpid pid status 0 (set_curthread parent s) = Diverge ∧
       ∃ s3, (exitsem_P (Z.of_nat i);; reap (Z.of_nat i)) (set_curthread parent s1) = Ok (st, s3) ∧
         process_table s3 = process_table s2).
Proof.
  intros HI Hi Hidx HW Ho Hc Hcount. destruct (mkwait_exit_value code Hc) as [Hv Hw].
  set (s1 := set_table (<[i := Some (exit_entry code p)]> (process_table s)) s).
  assert (i < length (process_table s))%nat as Hlt by (by eapply lookup_lt_Some).
  assert (pinv (set_curthread parent s1)) as HI1 by (by apply pinv_cur, (pinv_update s i p)).
  assert (process_table (set_curthread parent s1) !! i = Some (Some (exit_entry code p))) as Hi1
    by (by apply list_lookup_insert_eq).
  assert (may_wait (set_curthread parent s1) i (exit_entry code p) pid status) as HW1.
  { destruct HW. by constructor. }
  destruct (waitpid_exited _ i _ pid status options HI1 HW1 eq_refl Ho) as (h' & Er & Hh' & El).
  assert (<[i := None]> (<[i := Some (exit_entry code p)]> (process_table s)) = <[i := None]> (process_table s)) as Et
    by apply list_insert_insert_eq.
  exists s1, (PSys h' (<[i := None]> (process_table (set_curthread parent s1))) (pid_counter s) parent (env s)), (MKWAIT_EXIT code).
  split_and!; [by apply exit_process_ok|exact Er|done|done|exact Et|exact El| | |].
  - eapply (pinv_remove _ i (exit_entry code p) h' HI1); done.
  - apply waitpid_unknown. simpl. intros j q Hj Hq. eapply (removed_pid _ i _ j q HI1 Hi1 Hj). simpl.
    rewrite Hq. symmetry. apply HW.
  - intros Hx. split.
    + rewrite (waitpid_enter _ i p) by (done || by apply pinv_cur). rewrite Hx. simpl.
      unfold exitsem_P, mbind, M_bind. by rewrite (pt_deref_ok _ i p), Hcount.
    + set (q := set_exitsem (set_count 0 (exitsem p)) (exit_entry code p)).
      set (s1' := set_table (<[i := Some q]> (process_table (set_curthread parent s1))) (set_curthread parent s1)).
      assert (pinv s1') as HI1' by (by apply (pinv_update _ i (exit_entry code p))).
      assert (process_table s1' !! i = Some (Some q)) as Hiq.
      { apply list_lookup_insert_eq. simpl. by rewrite length_insert. }
      pose proof (reap_spec s1' i q HI1' Hiq) as (st & s3 & Er' & -> & h3 & _ & _ & ->)%wp_exists.
      eexists. split.
      * unfold mbind, M_bind, exitsem_P. unfold mbind, M_bind. rewrite (pt_deref_ok _ i _ Hi1). cbn [exit_entry exitsem set_count s_count].
        rewrite Hcount. change (s32 (0 + 1)) with 1. cbn [Z.ltb Z.compare].
        erewrite pt_set_ok by exact Hi1. exact Er'.
      * simpl. by rewrite !list_insert_insert_eq.
Qed.

(** C40: The order of the statements in [sys__exit] is wrong: it raises the
    [exited] flag before it signals the exit semaphore. A parent whose [waitpid],
    blocking or not, runs in between reaps the child and frees the entry, and the
    child then follows a NULL pointer to signal a freed semaphore. *)
Theorem exit_races_with_waitpid s (i : nat) p parent child code pid status options :
  pinv s → curthread s = child → ptable_index child = Z.of_nat i →
  may_wait (set_curthread parent s) i p pid status → options = 0 ∨ options = WNOHANG →
  ∃ s1 s2 st,
    (exit_code code;; exit_flag) s = Ok (tt, s1) ∧
    sys_waitpid pid status options (set_curthread parent s1) = Ok (inr (pid, Some st), s2) ∧
    exit_signal (set_curthread child s2) = Undef.
Proof.
  intros HI Hch Hidx HW Ho. pose proof (mw_entry _ _ _ _ _ HW) as Hi. change (process_table s !! i = Some (Some p)) in Hi.
  set (q := Process (p_addr p) (p_pid p) (p_ppid p) (exitsem p) true code (p_self p)).
  set (s1 := set_table (<[i := Some q]> (process_table s)) s).
  assert (i < length (process_table s))%nat as Hlt by (by eapply lookup_lt_Some).
  assert (pinv (set_curthread parent s1)) as HI1 by (by apply pinv_cur, (pinv_update s i p)).
  assert (may_wait (set_curthread parent s1) i q pid status) as HW1.
  { destruct HW. constructor; try done. by apply list_lookup_insert_eq. }
  destruct (waitpid_exited _ i _ pid status options HI1 HW1 eq_refl Ho) as (h' & Er & _).
  eexists s1, _, _. split_and!; [by apply exit_marks; [rewrite Hch|]|exact Er|].
  unfold exit_signal, exitsem_V, mbind, M_bind, getS. simpl. rewrite Hidx. unfold pt_deref, mbind, M_bind.
  rewrite (pt_get_ok _ i None); [done|]. simpl. apply list_lookup_insert_eq. by rewrite length_insert.
Qed.

(** ** Fork *)
(** A heap after [k] allocations that all succeed. *)
Definition heap_after (h : kheap) (k : nat) : kheap :=
  KHeap (kh_next h + Z.of_nat k) (list_to_set (seqZ (kh_next h) (Z.of_nat k)) ∪ kh_live h) (drop k (kh_oracle h)).

Lemma heap_after_0 h : heap_after h 0 = h.
Proof. destruct h as [n l o]. unfold heap_after. simpl. rewrite Z.add_0_r, union_empty_l_L, drop_0. done. Qed.

Lemma kmalloc_after h k o : kheap_ok h → drop k (kh_oracle h) = true :: o →
  kmalloc (heap_after h k) = Ok (kh_next h + Z.of_nat k, heap_after h (S k)) ∧
  (kh_next h + Z.of_nat k =? 0) = false.
Proof.
  intros [Hn _] Ho. split; [|blia]. unfold kmalloc, heap_after. m_simpl. rewrite Ho. m_simpl. do 2 f_equal. f_equal.
  - lia.
  - rewrite <-(Nat.add_1_r k), Nat2Z.inj_add, seqZ_app, list_to_set_app_L by lia.
    change (seqZ (kh_next h + Z.of_nat k) (Z.of_nat 1)) with [kh_next h + Z.of_nat k]. simpl. set_solver.
  - rewrite <-(Nat.add_1_r k), <-drop_drop, Ho. done.
Qed.

Lemma kheap_ok_after h k : kheap_ok h → kheap_ok (heap_after h k).
Proof.
  intros [H1 H2]. split; simpl; [lia|]. intros p [Hp|Hp]%elem_of_union.
  - apply elem_of_list_to_set, elem_of_seqZ in Hp. lia.
  - specialize (H2 p Hp). lia.
Qed.

(** [s] with the first [k] allocations done. *)
Definition with_heap s (k : nat) : psys E :=
  PSys (heap_after (heap s) k) (process_table s) (pid_counter s) (curthread s) (env s).

Lemma zoom_kmalloc s k o : kheap_ok (heap s) → drop k (kh_oracle (heap s)) = true :: o →
  zoom kmalloc (with_heap s k) = Ok (kh_next (heap s) + Z.of_nat k, with_heap s (S k)).
Proof. intros Hh Ho. unfold zoom. simpl. by rewrite (proj1 (kmalloc_after (heap s) k o Hh Ho)). Qed.

(** The head of [thread_fork]: the thread, its name and its stack. *)
Definition new_thread s : thread := Thread (kh_next (heap s)) (kh_next (heap s) + 1) (kh_next (heap s) + 2) 0 0 0 0.

Lemma thread_fork_head s o junk : kheap_ok (heap s) → kh_oracle (heap s) = true :: true :: true :: o →
  thread_fork junk s = fork_rest junk (new_thread s) (with_heap s 3).
Proof.
  intros Hh Ho. replace s with (with_heap s 0) at 1 by (unfold with_heap; rewrite heap_after_0; by destruct s).
  pose proof (zoom_kmalloc s 0 (true :: true :: o) Hh ltac:(by rewrite Ho)) as E0.
  pose proof (zoom_kmalloc s 1 (true :: o) Hh ltac:(by rewrite Ho)) as E1.
  pose proof (zoom_kmalloc s 2 o Hh ltac:(by rewrite Ho)) as E2.
  pose proof Hh as [Hn _].
  assert (thread_create (with_heap s 0) = Ok (Some (Thread (kh_next (heap s)) (kh_next (heap s) + 1) 0 0 0 0 0), with_heap s 2)) as Ec.
  { unfold thread_create, kstrdup. erewrite bind_ok by exact E0. rewrite (proj2 (Z.eqb_neq _ _)) by lia.
    erewrite bind_ok by exact E1. rewrite (proj2 (Z.eqb_neq _ _)) by lia. by rewrite Z.add_0_r. }
  unfold thread_fork. erewrite bind_ok by exact Ec. cbv iota. erewrite bind_ok by exact E2.
  by rewrite (proj2 (Z.eqb_neq _ _)) by lia.
Qed.

Lemma kfree_live h p : kheap_ok h → p ∈ kh_live h → kfree p h = Ok (tt, KHeap (kh_next h) (kh_live h ∖ {[p]}) (kh_oracle h)).
Proof.
  intros [_ Hl] Hp. specialize (Hl p Hp). unfold kfree. rewrite (proj2 (Z.eqb_neq _ _)) by lia. m_simpl.
  by rewrite decide_True.
Qed.
Lemma kfree_dead h p : p ≠ 0 → p ∉ kh_live h → kfree p h = Undef.
Proof. intros Hp Hn. unfold kfree. rewrite (proj2 (Z.eqb_neq _ _)) by done. m_simpl. by rewrite decide_False. Qed.

(** Every error path after the stack was allocated frees the stack twice. *)
Lemma fork_abandon_undef s t e : kheap_ok (heap s) → t_stack t ∈ kh_live (heap s) →
  th_addr t ≠ th_addr (curthread s) → t_cwd t = 0 → t_addrspace t = 0 →
  fork_abandon (A := thread) t e s = Undef.
Proof.
  intros Hh Hst Hth Hcwd Has. pose proof Hh as [_ Hl]. specialize (Hl _ Hst) as Hpos. unfold fork_abandon.
  unfold mbind at 1, M_bind at 1, zoom at 1. simpl. rewrite (kfree_live _ _ Hh Hst). cbn beta iota.
  unfold mbind at 1, M_bind at 1. replace (thread_destroy t _) with (Undef (A := unit * psys E)); [done|]. symmetry.
  unfold thread_destroy. m_simpl. rewrite (proj2 (Z.eqb_neq _ _)) by done. rewrite Hcwd, Has, !Z.eqb_refl. m_simpl.
  rewrite (proj2 (Z.eqb_neq _ _)) by lia. unfold zoom. simpl. rewrite kfree_dead; [done|lia|simpl; set_solver].
Qed.

(** The first free entry. *)
Lemma find_free_ok t n k (i : nat) : 1 ≤ k → k ≤ Z.of_nat i < k + Z.of_nat n → t !! i = Some None →
  (∀ j : nat, k ≤ Z.of_nat j < Z.of_nat i → t !! j ≠ Some None) → find_free t n k = Z.of_nat i.
Proof.
  revert k. induction n as [|n IH]; intros k Hk Hi Ht Hlow; simpl; [lia|].
  replace k with (Z.of_nat (Z.to_nat k)) at 1 by lia. rewrite zget_nat.
  destruct (decide (k = Z.of_nat i)) as [->|Hne]; [by rewrite Nat2Z.id, Ht|].
  assert (t !! Z.to_nat k ≠ Some None) as Hkn by (apply Hlow; lia).
  assert (find_free t n (k + 1) = Z.of_nat i) as Hrec.
  { apply IH; [lia|lia|done|]. intros j Hj. apply Hlow. lia. }
  by destruct (t !! Z.to_nat k) as [[]|].
Qed.

(** The entry a fork makes: [n] is the address of the thread. *)
Definition child_entry (n pid ppid : Z) : process :=
  Process (n + 3) pid ppid (SemObj (n + 4) (n + 5) (Wchan (n + 6) spinlock_init []) spinlock_init 0) false 0 n.

Lemma init_process_ok s (i : nat) junk o pc : pinv s → process_table s !! i = Some None →
  kh_oracle (heap s) = replicate 7 true ++ o →
  init_process junk (Z.of_nat i) (PSys (heap_after (heap s) 3) (process_table s) pc (curthread s) (env s)) =
    Ok (None, PSys (heap_after (heap s) 7)
          (<[i := Some (Process (kh_next (heap s) + 3) junk 0 (exitsem (child_entry (kh_next (heap s)) 0 0)) false 0 junk)]>
             (process_table s)) pc (curthread s) (env s)).
Proof.
  intros HI Hi Ho. pose proof (pi_heap _ HI) as Hh. pose proof Hh as [Hn _].
  assert (∀ k : nat, (k < 7)%nat → kmalloc (heap_after (heap s) k) = Ok (kh_next (heap s) + Z.of_nat k, heap_after (heap s) (S k)))
    as Hk.
  { intros k Hk. apply (proj1 (kmalloc_after (heap s) k (replicate (6 - k) true ++ o) Hh
      ltac:(rewrite Ho; by do 7 (destruct k as [|k]; [done|]); lia))). }
  assert (sem_create 0 (heap_after (heap s) 4) =
    Ok (Some (exitsem (child_entry (kh_next (heap s)) 0 0)), heap_after (heap s) 7)) as Es.
  { assert (wchan_create (heap_after (heap s) 6) =
      Ok (Some (Wchan (kh_next (heap s) + 6) spinlock_init []), heap_after (heap s) 7)) as Ew.
    { unfold wchan_create. erewrite bind_ok by (apply Hk; lia). by rewrite (proj2 (Z.eqb_neq _ _)) by lia. }
    unfold sem_create, kstrdup. erewrite bind_ok by reflexivity. erewrite bind_ok by (apply Hk; lia).
    rewrite (proj2 (Z.eqb_neq _ _)) by lia. erewrite bind_ok by (apply Hk; lia).
    rewrite (proj2 (Z.eqb_neq _ _)) by lia. by erewrite bind_ok by exact Ew. }
  unfold init_process. erewrite bind_ok by (unfold zoom; simpl; by rewrite (Hk 3%nat) by lia).
  rewrite (proj2 (Z.eqb_neq _ _)) by lia. erewrite bind_ok by (unfold zoom; simpl; by rewrite Es). cbv iota.
  erewrite bind_ok by (by apply (pt_set_ok _ i None)). reflexivity.
Qed.

(** The table and heap with the child in them satisfy the invariant. *)
Lemma pinv_child s (i : nat) ppid o (e' : E) : pinv s → process_table s !! i = Some None → (1 ≤ i)%nat →
  kh_oracle (heap s) = replicate 7 true ++ o →
  pinv (PSys (heap_after (heap s) 7)
    (<[i := Some (child_entry (kh_next (heap s)) (pid_counter s + 1) ppid)]> (process_table s))
    (pid_counter s + 1) (curthread s) e').
Proof.
  intros [H1 H2 H3 H4 H5 H6 H7] Hi Hi1 Ho. pose proof H1 as [Hn Hl].
  set (c := child_entry _ _ _). assert (∀ b, b ∈ blocks c → kh_next (heap s) ≤ b < kh_next (heap s) + 7) as Hb.
  { unfold blocks, c. simpl. intros b. rewrite !elem_of_cons. intros [->|[->|[->|[->|[]%elem_of_nil]]]]; lia. }
  assert (∀ j q b, process_table s !! j = Some (Some q) → b ∈ blocks q → b < kh_next (heap s)) as Hold.
  { intros j q b Hj Hbq. apply (H4 j q Hj), Hl in Hbq. lia. }
  assert (∀ j q, <[i := Some c]> (process_table s) !! j = Some (Some q) →
    i = j ∧ q = c ∨ i ≠ j ∧ process_table s !! j = Some (Some q)) as Hlk.
  { intros j q [(<- & [= <-] & _)|[Hne Hj]]%list_lookup_insert_Some; [by left|by right]. }
  constructor; cbn [heap process_table pid_counter].
  - by apply kheap_ok_after.
  - by rewrite length_insert.
  - rewrite list_lookup_insert_ne by lia. done.
  - intros j q [[<- ->]|[Hne Hj]]%Hlk.
    + constructor; try done.
      * intros b Hb'%Hb. apply elem_of_union_l, elem_of_list_to_set, elem_of_seqZ. lia.
      * unfold blocks, c. simpl. repeat (apply NoDup_cons; split; [rewrite ?elem_of_cons, elem_of_nil; lia|]).
        apply NoDup_nil_2.
    + destruct (H4 j q Hj) as [P1 P2 P3 P4 P5]. constructor; try done.
      intros b Hb'. apply elem_of_union_r. by apply P1.
  - intros j k q r [[<- ->]|[Hne Hj]]%Hlk [[<- ->]|[Hne' Hk]]%Hlk Hpid; [done| | |by eapply H5].
    + pose proof (H7 _ _ Hk). simpl in Hpid. lia.
    + pose proof (H7 _ _ Hj). simpl in Hpid. lia.
  - intros j k q r b [[<- ->]|[Hne Hj]]%Hlk [[<- ->]|[Hne' Hk]]%Hlk B1 B2; [done| | |by eapply H6].
    + apply Hb in B1. pose proof (Hold _ _ _ Hk B2). lia.
    + apply Hb in B2. pose proof (Hold _ _ _ Hj B1). lia.
  - intros j q [[<- ->]|[Hne Hj]]%Hlk; [simpl; lia|]. pose proof (H7 _ _ Hj). lia.
Qed.

Lemma thread_fork_ok s (i : nat) junk o a e1 e2 : pinv s →
  (1 ≤ i)%nat → Z.of_nat i < PROC_MAX → process_table s !! i = Some None →
  (∀ j : nat, (1 ≤ j < i)%nat → process_table s !! j ≠ Some None) →
  kh_oracle (heap s) = replicate 7 true ++ o → 0 ≤ pid_counter s → pid_counter s + 1 < PID_MAX →
  t_pid (curthread s) ≠ 0 → env_as_copy (env s) = Ok (inr a, e1) → env_share_files e1 = Ok (tt, e2) →
  ∃ t s', thread_fork junk s = Ok (inr t, s') ∧
    t_pid t = pid_counter s + 1 ∧ ptable_index t = Z.of_nat i ∧ t_addrspace t = a ∧
    process_table s' = <[i := Some (child_entry (th_addr t) (t_pid t) (t_pid (curthread s)))]> (process_table s) ∧
    (∀ j q, process_table s !! j = Some (Some q) → p_pid q ≠ t_pid t) ∧
    kh_live (heap s') = list_to_set (seqZ (kh_next (heap s)) 7) ∪ kh_live (heap s) ∧ env s' = e2 ∧ pinv s'.
Proof.
  intros HI Hi1 HiM Hi Hlow Ho Hc0 Hc Hpid Hcopy Hshare. pose proof (pi_heap _ HI) as Hh.
  assert (i < length (process_table s))%nat as Hlt by (by eapply lookup_lt_Some).
  rewrite (thread_fork_head s (replicate 4 true ++ o) junk Hh) by (by rewrite Ho).
  assert (pid_alloc (with_heap s 3) = Ok (Z.of_nat i,
    PSys (heap_after (heap s) 3) (process_table s) (pid_counter s + 1) (curthread s) (env s))) as Ep.
  { unfold pid_alloc. erewrite bind_ok by reflexivity. cbn [process_table with_heap].
    rewrite (find_free_ok _ (Z.to_nat (PROC_MAX - 1)) 1 i); [|lia|unfold PROC_MAX in *; lia|done|].
    2: { intros j Hj. apply Hlow. lia. }
    rewrite (proj2 (Z.eqb_neq _ _)) by lia. cbn [pid_counter with_heap]. unfold PID_MAX in *. rewrite s32_id by lia.
    erewrite bind_ok by reflexivity. by rewrite (proj2 (Z.eqb_neq _ _)) by lia. }
  unfold fork_rest. erewrite bind_ok by exact Ep. rewrite (proj2 (Z.ltb_ge _ _)) by lia.
  erewrite bind_ok by reflexivity. cbv zeta. erewrite bind_ok by (by apply (init_process_ok s i junk o)). cbv iota.
  erewrite bind_ok by reflexivity. erewrite bind_ok by (apply pt_deref_ok; by apply list_lookup_insert_eq).
  erewrite bind_ok by (eapply pt_set_ok; by apply list_lookup_insert_eq).
  cbn [set_table process_table heap pid_counter curthread env]. rewrite list_insert_insert_eq.
  rewrite (proj2 (Z.eqb_neq _ _)) by done. cbn [negb].
  erewrite bind_ok; [|erewrite bind_ok by (unfold zoom; simpl; by rewrite Hcopy); cbv iota;
    erewrite bind_ok by (unfold zoom; simpl; by rewrite Hshare); reflexivity].
  eexists _, _. split; [reflexivity|]. split_and!; try done.
  - intros j q Hj. pose proof (pi_counter _ HI j q Hj). simpl. lia.
  - by eapply pinv_child.
Qed.

(** A fork of a user process, with memory and a free entry, adds exactly one
    process: it takes the lowest free entry from 1 on, a pid one above the last
    one handed out and so different from every pid in the table, the caller as its
    parent and an exit semaphore at 0; the other entries are as before and the heap
    gains seven blocks. *)
Theorem fork_adds_one_process s (i : nat) junk o a e1 e2 : pinv s →
  (1 ≤ i)%nat → Z.of_nat i < PROC_MAX → process_table s !! i = Some None →
  (∀ j : nat, (1 ≤ j < i)%nat → process_table s !! j ≠ Some None) →
  kh_oracle (heap s) = replicate 7 true ++ o → 0 ≤ pid_counter s → pid_counter s + 1 < PID_MAX →
  t_pid (curthread s) ≠ 0 → env_as_copy (env s) = Ok (inr a, e1) → env_share_files e1 = Ok (tt, e2) →
  ∃ t s', thread_fork junk s = Ok (inr t, s') ∧
    t_pid t = pid_counter s + 1 ∧ ptable_index t = Z.of_nat i ∧ t_addrspace t = a ∧
    process_table s' = <[i := Some (child_entry (th_addr t) (t_pid t) (t_pid (curthread s)))]> (process_table s) ∧
    (∀ j q, process_table s !! j = Some (Some q) → p_pid q ≠ t_pid t) ∧
    kh_live (heap s') = list_to_set (seqZ (kh_next (heap s)) 7) ∪ kh_live (heap s) ∧ env s' = e2 ∧ pinv s'.
Proof. apply thread_fork_ok. Qed.

Lemma pinv_with_heap s k : pinv s → pinv (with_heap s k).
Proof.
  intros [H1 H2 H3 H4 H5 H6 H7]. constructor; try done; [by apply kheap_ok_after|]. intros i p Hp. destruct (H4 i p Hp) as [P1 P2 P3 P4 P5].
  constructor; try done. intros b Hb. apply elem_of_union_r. by apply P1.
Qed.

(** When a fork fails after the stack of the new thread was allocated (no free
    process entry, no memory for it, no memory for the copy of the address space),
    the kernel frees the stack twice: once in [thread_fork], once more in
    [thread_destroy]. *)
Theorem failed_fork_frees_stack_twice s o junk : pinv s → kh_oracle (heap s) = true :: true :: true :: o →
  th_addr (curthread s) ∈ kh_live (heap s) →
  (∀ i : nat, (1 ≤ i)%nat → Z.of_nat i < PROC_MAX → ∃ p, process_table s !! i = Some (Some p)) →
  thread_fork junk s = Undef.
Proof.
  intros HI Ho Hcur Hfull. pose proof (pi_heap _ HI) as Hh. rewrite (thread_fork_head s o) by done.
  assert (∀ n k, 1 ≤ k → k + Z.of_nat n = PROC_MAX → find_free (process_table s) n k = PROC_MAX) as Hff.
  { clear -Hfull. induction n as [|n IH]; intros k Hk Hn; simpl; [lia|].
    destruct (Hfull (Z.to_nat k)) as [p Hp]; [lia|lia|]. replace k with (Z.of_nat (Z.to_nat k)) at 1 by lia.
    rewrite zget_nat, Hp. apply IH; lia. }
  assert (pid_alloc (with_heap s 3) = Ok (-1, with_heap s 3)) as Ep.
  { unfold pid_alloc. erewrite bind_ok by reflexivity. cbn [process_table with_heap].
    rewrite Hff by (unfold PROC_MAX; lia). done. }
  unfold fork_rest. erewrite bind_ok by exact Ep. cbn [Z.ltb Z.compare].
  pose proof (kheap_ok_after (heap s) 3 Hh) as Hh3. pose proof Hh as [Hn Hl]. specialize (Hl _ Hcur).
  apply fork_abandon_undef; [done| | |done..]; cbn [heap with_heap heap_after kh_live new_thread t_stack th_addr curthread].
  - apply elem_of_union_l, elem_of_list_to_set, elem_of_seqZ. lia.
  - lia.
Qed.
End spec.

(** ** A small system
    Process 5, whose thread is the block 1, and an empty table. *)
Module SmallProc.
#[export] Instance unit_env : ForkEnv unit := {
  env_as_copy := mret (inr 77);
  env_share_files := mret tt;
  env_init_filetable := mret (inr tt);
}.
Definition parent : thread := Thread 1 2 3 5 0 44 0.
Definition start : psys unit :=
  PSys (KHeap 10 (list_to_set [1; 2; 3]) (replicate 7 true)) (replicate 100 None) 5 parent tt.
(** With a child, process 6, in entry 1; and the same with the child running. *)
Definition child_proc : process := child_entry 10 6 5.
Definition forked : psys unit :=
  PSys (heap_after (heap start) 7) (<[1%nat := Some child_proc]> (process_table start)) 6 parent tt.
Definition child : thread := Thread 10 11 12 6 1 77 0.
Definition in_child : psys unit := set_curthread child forked.

Lemma start_inv : pinv start.
Proof.
  constructor; cbn [heap process_table pid_counter start]; try done;
    try (intros; match goal with H : replicate _ _ !! _ = Some (Some _) |- _ =>
           by apply lookup_replicate_1 in H as [[=] _] end).
  split; [simpl; lia|]. intros p Hp. apply elem_of_list_to_set in Hp.
  rewrite !elem_of_cons in Hp. destruct Hp as [->|[->|[->|[]%elem_of_nil]]]; simpl; lia.
Qed.
Lemma forked_inv : pinv forked.
Proof. apply (pinv_child start 1 5 [] tt start_inv); [done|lia|done]. Qed.
Lemma child_waits : may_wait (set_curthread parent in_child) 1 child_proc 6 0x50000000.
Proof. by constructor. Qed.

(** Every entry from 1 on in use. *)
Definition full_entry (k : nat) : option process :=
  match k with O => None | _ => Some (child_entry (100 + 10 * Z.of_nat k) (Z.of_nat k) 5) end.
Definition full : psys unit :=
  PSys (KHeap 2000 (list_to_set (seqZ 1 1999)) (replicate 3 true)) (full_entry <$> seq 0 100) 99 parent tt.

Lemma full_lookup i p : process_table full !! i = Some (Some p) →
  (1 ≤ i < 100)%nat ∧ p = child_entry (100 + 10 * Z.of_nat i) (Z.of_nat i) 5.
Proof.
  cbn [process_table full]. rewrite list_lookup_fmap. intros (k & [-> Hlt]%lookup_seq & Hk)%fmap_Some.
  destruct i; simpl in Hk; [done|]. simplify_eq. split; [lia|done].
Qed.

Lemma in_range n m b : b ∈ (list_to_set (seqZ n m) : gset Z) ↔ n ≤ b < n + m.
Proof. by rewrite elem_of_list_to_set, elem_of_seqZ. Qed.

Lemma full_inv : pinv full.
Proof.
  assert (∀ n b, b ∈ blocks (child_entry n 0 0) → n + 3 ≤ b ≤ n + 6) as Hb.
  { intros n b. unfold blocks. simpl. rewrite !elem_of_cons. intros [->|[->|[->|[->|[]%elem_of_nil]]]]; lia. }
  constructor.
  - split; [simpl; lia|]. cbn [heap full kh_live kh_next]. intros p Hp. apply (in_range 1 1999) in Hp. lia.
  - done.
  - done.
  - intros i p [Hi ->]%full_lookup. constructor; [| |reflexivity..].
    + intros b [? ?]%Hb. cbn [heap full kh_live]. apply (in_range 1 1999). lia.
    + unfold blocks. simpl. repeat (apply NoDup_cons; split; [rewrite ?elem_of_cons, elem_of_nil; lia|]).
      apply NoDup_nil_2.
  - intros i j p q [Hi ->]%full_lookup [Hj ->]%full_lookup. simpl. lia.
  - intros i j p q b [Hi ->]%full_lookup [Hj ->]%full_lookup [? ?]%Hb [? ?]%Hb. lia.
  - intros i p [Hi ->]%full_lookup. simpl. lia.
Qed.
End SmallProc.
Import SmallProc.

Lemma exit_code_reaches_parent_witness :
  ∃ s1 s2 st, exit_process 42 in_child = Ok (tt, s1) ∧
    sys_waitpid 6 0x50000000 0 (set_curthread parent s1) = Ok (inr (6, Some st), s2) ∧ Z.shiftr st 2 = 42.
Proof.
  destruct (exit_code_reaches_parent in_child 1 child_proc parent 42 6 0x50000000 0) as (s1 & s2 & st & E1 & E2 & E3 & _);
    [exact (pinv_cur _ _ forked_inv)|reflexivity|reflexivity|exact child_waits|by left|lia|reflexivity|].
  by exists s1, s2, st.
Defined.

Lemma exit_races_with_waitpid_witness :
  ∃ s1 s2 st, (exit_code 42;; exit_flag) in_child = Ok (tt, s1) ∧
    sys_waitpid 6 0x50000000 WNOHANG (set_curthread parent s1) = Ok (inr (6, Some st), s2) ∧
    exit_signal (set_curthread child s2) = Undef.
Proof.
  apply (exit_races_with_waitpid in_child 1 child_proc parent child 42 6 0x50000000 WNOHANG);
    [exact (pinv_cur _ _ forked_inv)|reflexivity|reflexivity|exact child_waits|by right].
Defined.

Lemma fork_adds_one_process_witness :
  ∃ t s', thread_fork 0 start = Ok (inr t, s') ∧ t_pid t = 6 ∧ ptable_index t = 1.
Proof.
  destruct (fork_adds_one_process start 1 0 [] 77 tt tt) as (t & s' & E1 & E2 & E3 & _);
    [exact start_inv|lia|done|reflexivity|lia|reflexivity|simpl; lia|by vm_compute|done|reflexivity|reflexivity|].
  by exists t, s'.
Defined.

Lemma failed_fork_frees_stack_twice_witness : thread_fork 0 full = Undef.
Proof.
  apply (failed_fork_frees_stack_twice full []); [exact full_inv|reflexivity| |].
  - cbn [heap full kh_live curthread parent th_addr]. apply (in_range 1 1999). lia.
  - intros i Hi Hm. exists (child_entry (100 + 10 * Z.of_nat i) (Z.of_nat i) 5). cbn [process_table full].
    rewrite list_lookup_fmap, lookup_seq_lt by (unfold PROC_MAX in Hm; lia). by destruct i; [lia|].
Defined.
