(* ===== verification/Bitmap.v ===== *)
(** Fixed-size arrays of bits: [kern/lib/bitmap.c], which the file system keeps its
    free blocks in. Words are bytes; whether the two allocations of
    [bitmap_create] succeed is an argument. *)

From stdpp Require Import base tactics numbers list.
From S2P Require Import Prelude KernDefs.
Local Open Scope Z_scope.

Definition BITS_PER_WORD : Z := 8.
Definition WORD_ALLBITS : Z := 0xff.

Record bitmap := Bitmap { nbits : Z; v : list Z }.

Definition DIVROUNDUP_BITS (n : Z) : Z := u32 (n + BITS_PER_WORD - 1) / BITS_PER_WORD.

(** [for (j=overbits; j<BITS_PER_WORD; j++) w |= 1 << j]. *)
Fixpoint fill_over (n : nat) (j w : Z) : Z :=
  match n with
  | O => w
  | S n => fill_over n (j + 1) (u8 (Z.lor w (u8 (Z.shiftl 1 j))))
  end.

Definition bitmap_create (b_ok v_ok : bool) (nb : Z) : M unit (option bitmap) :=
  let words := DIVROUNDUP_BITS nb in
  if negb b_ok then mret None
  else if negb v_ok then mret None
  else
    let vs := replicate (Z.to_nat words) 0 in
    if nb / BITS_PER_WORD <? words then
      let ix := words - 1 in
      let overbits := nb - ix * BITS_PER_WORD in
      kassert (nb / BITS_PER_WORD =? words - 1);;
      kassert ((0 <? overbits) && (overbits <? BITS_PER_WORD));;
      w ← of_opt (zget vs ix);
      vs ← of_opt (zset ix (fill_over (Z.to_nat (BITS_PER_WORD - overbits)) overbits w) vs);
      mret (Some (Bitmap nb vs))
    else mret (Some (Bitmap nb vs)).

Definition bm_get (ix : Z) : M bitmap Z := b ← getS; of_opt (zget (v b) ix).
Definition bm_put (ix w : Z) : M bitmap unit :=
  b ← getS; vs ← of_opt (zset ix w (v b)); putS (Bitmap (nbits b) vs).

(** The search inside a word that is not full; running off its end panics. *)
Fixpoint alloc_word (n : nat) (ix offset : Z) : M bitmap Z :=
  match n with
  | O => panic
  | S n =>
      w ← bm_get ix;
      let mask := u8 (Z.shiftl 1 offset) in
      if Z.land w mask =? 0 then
        bm_put ix (u8 (Z.lor w mask));;
        let index := u32 (ix * BITS_PER_WORD + offset) in
        b ← getS;
        kassert (index <? nbits b);;
        mret index
      else alloc_word n ix (offset + 1)
  end.

Fixpoint alloc_loop (n : nat) (ix : Z) : M bitmap (result Z) :=
  match n with
  | O => mret (inl ENOSPC)
  | S n =>
      w ← bm_get ix;
      if negb (w =? WORD_ALLBITS) then i ← alloc_word 8 ix 0; mret (inr i)
      else alloc_loop n (ix + 1)
  end.

Definition bitmap_alloc : M bitmap (result Z) :=
  b ← getS; alloc_loop (Z.to_nat (DIVROUNDUP_BITS (nbits b))) 0.

Definition bitmap_translate (bitno : Z) : Z * Z :=
  (bitno / BITS_PER_WORD, u8 (Z.shiftl 1 (bitno mod BITS_PER_WORD))).

Definition bitmap_mark (index : Z) : M bitmap unit :=
  b ← getS;
  kassert (index <? nbits b);;
  let '(ix, mask) := bitmap_translate index in
  w ← bm_get ix;
  kassert (Z.land w mask =? 0);;
  bm_put ix (u8 (Z.lor w mask)).

Definition bitmap_unmark (index : Z) : M bitmap unit :=
  b ← getS;
  kassert (index <? nbits b);;
  let '(ix, mask) := bitmap_translate index in
  w ← bm_get ix;
  kassert (negb (Z.land w mask =? 0));;
  bm_put ix (u8 (Z.land w (Z.lnot mask))).

Definition bitmap_isset (index : Z) : M bitmap Z :=
  let '(ix, mask) := bitmap_translate index in
  w ← bm_get ix;
  mret (Z.land w mask).

(** ** What a bitmap holds *)
Definition bit (b : bitmap) (i : Z) : bool := Z.testbit (default 0 (zget (v b) (i / 8))) (i mod 8).

Record bm_ok (b : bitmap) : Prop := {
  bo_bits : 0 ≤ nbits b < 2 ^ 32 - 8;
  bo_len : Z.of_nat (length (v b)) = (nbits b + 7) / 8;
  bo_bytes : ∀ i w, v b !! i = Some w → 0 ≤ w < 256;
  bo_over : ∀ i, nbits b ≤ i < 8 * Z.of_nat (length (v b)) → bit b i = true;
}.

(** [b] holds the bits [f], with the leftover bits marked in use. *)
Definition holds (b : bitmap) (n : Z) (f : Z → bool) : Prop :=
  bm_ok b ∧ nbits b = n ∧ ∀ i, 0 ≤ i < n → bit b i = f i.

Lemma mask_bits k : 0 ≤ k < 8 → u8 (Z.shiftl 1 k) = 2 ^ k.
Proof.
  intros Hk. rewrite Z.shiftl_1_l. apply wrapu_id. split; [lia|].
  apply Z.pow_lt_mono_r; lia.
Qed.

Lemma byte_or w k : 0 ≤ w < 256 → 0 ≤ k < 8 → u8 (Z.lor w (2 ^ k)) = Z.setbit w k ∧ 0 ≤ Z.setbit w k < 256.
Proof.
  intros Hw Hk. rewrite <-Z.setbit_spec'.
  assert (0 ≤ Z.setbit w k < 2 ^ 8) as Hb.
  { assert (0 ≤ Z.setbit w k) as H0.
    { rewrite Z.setbit_spec'. apply Z.lor_nonneg. split; [lia|]. apply Z.pow_nonneg. lia. }
    split; [done|]. apply Z.bounded_iff_bits_nonneg; [lia|done|]. intros l Hl.
    rewrite Z.setbit_eqb by lia. rewrite (proj2 (Z.eqb_neq k l)) by lia. simpl.
    apply (proj1 (Z.bounded_iff_bits_nonneg 8 w ltac:(lia) ltac:(lia))); [|done]. lia. }
  split; [by apply (wrapu_id 8)|done].
Qed.

Lemma byte_clear w k : 0 ≤ w < 256 → 0 ≤ k < 8 →
  u8 (Z.land w (Z.lnot (2 ^ k))) = Z.clearbit w k ∧ 0 ≤ Z.clearbit w k < 256.
Proof.
  intros Hw Hk. rewrite <-Z.ldiff_land, <-Z.clearbit_spec'.
  assert (0 ≤ Z.clearbit w k < 2 ^ 8) as Hb.
  { assert (0 ≤ Z.clearbit w k) as H0 by (rewrite Z.clearbit_spec'; apply Z.ldiff_nonneg; lia).
    split; [done|]. apply Z.bounded_iff_bits_nonneg; [lia|done|]. intros l Hl. rewrite Z.clearbit_eqb by lia.
    rewrite (proj1 (Z.bounded_iff_bits_nonneg 8 w ltac:(lia) ltac:(lia))); [done|lia|done]. }
  split; [by apply (wrapu_id 8)|done].
Qed.

Lemma land_mask w k : 0 ≤ k → (Z.land w (2 ^ k) =? 0) = negb (Z.testbit w k).
Proof.
  intros Hk. destruct (Z.testbit w k) eqn:Hb; simpl.
  - apply Z.eqb_neq. intros E. assert (Z.testbit (Z.land w (2 ^ k)) k = false) as E' by (rewrite E; apply Z.bits_0).
    rewrite Z.land_spec, Hb, Z.pow2_bits_true in E' by lia. done.
  - apply Z.eqb_eq, Z.bits_inj'. intros n Hn. rewrite Z.land_spec, Z.pow2_bits_eqb, Z.bits_0 by lia.
    destruct (Z.eqb_spec k n) as [<-|]; [by rewrite Hb|by rewrite andb_false_r].
Qed.

(** Reading and writing one bit through its word. *)
Lemma word_of b i : bm_ok b → 0 ≤ i < 8 * Z.of_nat (length (v b)) →
  ∃ w, zget (v b) (i / 8) = Some w ∧ 0 ≤ w < 256 ∧ bit b i = Z.testbit w (i mod 8) ∧ 0 ≤ i mod 8 < 8.
Proof.
  intros Hb Hi. assert (0 ≤ i / 8 < Z.of_nat (length (v b))) as Hd.
  { split; [apply Z.div_pos; lia|]. apply Z.div_lt_upper_bound; lia. }
  destruct (zget_is_Some (v b) (i / 8) Hd) as [w Hw]. exists w. split_and!; try done.
  - apply zget_Some in Hw as [_ Hw]. by eapply bo_bytes.
  - apply zget_Some in Hw as [_ Hw]. eapply bo_bytes; done.
  - unfold bit. by rewrite Hw.
  - apply Z.mod_pos_bound. lia.
  - apply Z.mod_pos_bound. lia.
Qed.

Definition set_word (b : bitmap) (ix w : Z) : bitmap := Bitmap (nbits b) (<[Z.to_nat ix := w]> (v b)).

Lemma bit_set_word b ix w i : 0 ≤ ix < Z.of_nat (length (v b)) → 0 ≤ i →
  bit (set_word b ix w) i = if decide (i / 8 = ix) then Z.testbit w (i mod 8) else bit b i.
Proof.
  intros Hix Hi. unfold bit, set_word, zget; simpl. assert (0 ≤ i / 8) by (apply Z.div_pos; lia).
  rewrite (proj2 (Z.leb_le _ _)) by done. case_decide as Hd.
  - subst ix. rewrite list_lookup_insert_eq by lia. done.
  - rewrite list_lookup_insert_ne by lia. done.
Qed.

(** Changing bit [i] of a bitmap to [x]. *)
Lemma put_bit b i w w' x : bm_ok b → 0 ≤ i < 8 * Z.of_nat (length (v b)) → zget (v b) (i / 8) = Some w →
  0 ≤ w' < 256 → (∀ k, 0 ≤ k < 8 → Z.testbit w' k = if decide (k = i mod 8) then x else Z.testbit w k) →
  (nbits b ≤ i → x = true) →
  bm_put (i / 8) w' b = Ok (tt, set_word b (i / 8) w') ∧ bm_ok (set_word b (i / 8) w') ∧
  ∀ j, 0 ≤ j → bit (set_word b (i / 8) w') j = if decide (j = i) then x else bit b j.
Proof.
  intros Hb Hi Hw Hw' Hbits Hover. assert (0 ≤ i / 8 < Z.of_nat (length (v b))) as Hd.
  { split; [apply Z.div_pos; lia|]. apply Z.div_lt_upper_bound; lia. }
  assert (∀ j, 0 ≤ j → bit (set_word b (i / 8) w') j = if decide (j = i) then x else bit b j) as Hget.
  { intros j Hj. rewrite bit_set_word by lia. pose proof (Z.mod_pos_bound j 8 ltac:(lia)).
    pose proof (Z.div_mod j 8 ltac:(lia)). pose proof (Z.div_mod i 8 ltac:(lia)). case_decide as Hjd.
    - rewrite Hbits by lia. repeat case_decide; try lia; [done|]. unfold bit. by rewrite Hjd, Hw.
    - rewrite decide_False; [done|]. intros ->. done. }
  split_and!; [|constructor|done]; simpl.
  - unfold bm_put. m_simpl. rewrite zset_Some by lia. done.
  - apply Hb.
  - rewrite length_insert. apply Hb.
  - intros j u [(_ & <- & _)|[_ Hu]]%list_lookup_insert_Some; [done|]. by eapply bo_bytes.
  - rewrite length_insert. intros j Hj. rewrite Hget by (destruct (bo_bits _ Hb); lia). case_decide; [subst; apply Hover; lia|].
    apply Hb. lia.
Qed.

(** *** Allocation *)
Lemma full_byte w : 0 ≤ w < 256 → (w = 255 ↔ ∀ k, 0 ≤ k < 8 → Z.testbit w k = true).
Proof.
  intros Hw. split; [intros ->; intros k Hk|].
  - change 255 with (Z.ones 8). apply Z.ones_spec_low. lia.
  - intros H. change 255 with (Z.ones 8). apply Z.bits_inj'. intros k Hk. destruct (decide (k < 8)).
    + rewrite Z.ones_spec_low, H by lia. done.
    + rewrite Z.ones_spec_high by lia. apply (proj1 (Z.bounded_iff_bits_nonneg 8 w ltac:(lia) ltac:(lia))); lia.
Qed.

(** The result of an allocation of bit [i]. *)
Definition allocated (b : bitmap) (i : Z) (b' : bitmap) : Prop :=
  bm_ok b' ∧ nbits b' = nbits b ∧ 0 ≤ i < nbits b ∧ bit b i = false ∧
  (∀ j, 0 ≤ j < i → bit b j = true) ∧ (∀ j, 0 ≤ j → bit b' j = if decide (j = i) then true else bit b j).

Lemma alloc_word_spec b ix w n : ∀ off, bm_ok b → 0 ≤ ix → zget (v b) ix = Some w → w ≠ 255 →
  off + Z.of_nat n = 8 → 0 ≤ off → (∀ j, 0 ≤ j < 8 * ix + off → bit b j = true) →
  wp (alloc_word n ix off) (λ i b', allocated b i b') b.
Proof.
  induction n as [|n IH]; intros off Hb Hix Hw Hw255 Hoff Hoff0 Hlow; cbn [alloc_word].
  all: assert (ix < Z.of_nat (length (v b))) as Hlt
    by (apply zget_Some in Hw as [_ Hw]; apply lookup_lt_Some in Hw; lia).
  all: assert (∀ k, 0 ≤ k < 8 → (8 * ix + k) / 8 = ix ∧ (8 * ix + k) mod 8 = k) as Hdm.
  1, 3: intros k Hk; split; [symmetry; by apply Z.div_unique with k; lia|symmetry; by apply Z.mod_unique with ix; lia].
  all: assert (∀ k, 0 ≤ k < 8 → bit b (8 * ix + k) = Z.testbit w k) as Hbit
    by (intros k Hk; unfold bit; destruct (Hdm k Hk) as [-> ->]; by rewrite Hw).
  { exfalso. apply Hw255. apply full_byte; [apply zget_Some in Hw as [_ Hw]; by eapply bo_bytes|].
    intros k Hk. rewrite <-Hbit by done. apply Hlow. lia. }
  assert (0 ≤ w < 256) as Hwb by (apply zget_Some in Hw as [_ Hw]; by eapply bo_bytes).
  unfold bm_get. wp_steps. eapply wp_of_opt; [done|]. cbv zeta. rewrite mask_bits, land_mask by lia.
  destruct (Z.testbit w off) eqn:Eb; cbn [negb].
  { apply IH; try done; try lia. intros j Hj. destruct (decide (j < 8 * ix + off)); [apply Hlow; lia|].
    replace j with (8 * ix + off) by lia. by rewrite Hbit by lia. }
  destruct (byte_or w off Hwb ltac:(lia)) as [-> Hs]. destruct (Hdm off ltac:(lia)) as [Ed Em].
  destruct (put_bit b (8 * ix + off) w (Z.setbit w off) true Hb) as (Eput & Hok & Hget); [lia|by rewrite Ed|done| |done|].
  { intros k Hk. rewrite Em, Z.setbit_eqb by lia. case_decide; [subst; by rewrite Z.eqb_refl|].
    rewrite (proj2 (Z.eqb_neq off k)) by lia. done. }
  rewrite Ed in Eput, Hok, Hget.
  assert (8 * ix + off < nbits b) as Hn.
  { destruct (decide (8 * ix + off < nbits b)); [done|]. pose proof (bo_over b Hb (8 * ix + off) ltac:(lia)) as Ho.
    rewrite Hbit, Eb in Ho by lia. done. }
  apply wp_bind_2. unfold wp at 1. rewrite Eput. wp_steps. cbv zeta.
  pose proof (bo_bits _ Hb). rewrite u32_id by (unfold BITS_PER_WORD; lia).
  apply wp_kassert; [simpl; unfold BITS_PER_WORD; blia|]. apply wp_ret.
  replace (ix * BITS_PER_WORD + off) with (8 * ix + off) by (unfold BITS_PER_WORD; lia).
  split_and!; try done; [lia|]. by rewrite Hbit by lia.
Qed.

Lemma alloc_loop_spec b n : ∀ ix, bm_ok b → 0 ≤ ix → ix + Z.of_nat n = Z.of_nat (length (v b)) →
  (∀ j, 0 ≤ j < 8 * ix → bit b j = true) →
  wp (alloc_loop n ix) (λ r b', match r with
    | inr i => allocated b i b'
    | inl e => e = ENOSPC ∧ b' = b ∧ ∀ j, 0 ≤ j < nbits b → bit b j = true end) b.
Proof.
  induction n as [|n IH]; intros ix Hb Hix Hlen Hlow; cbn [alloc_loop].
  { apply wp_ret. split_and!; [done..|]. intros j Hj. apply Hlow. pose proof (bo_len _ Hb).
    pose proof (Z.div_mod (nbits b + 7) 8 ltac:(lia)). pose proof (Z.mod_pos_bound (nbits b + 7) 8 ltac:(lia)). lia. }
  destruct (zget_is_Some (v b) ix) as [w Hw]; [lia|].
  unfold bm_get. wp_steps. eapply wp_of_opt; [done|]. unfold WORD_ALLBITS. destruct (Z.eqb_spec w 0xff) as [->|Hne]; simpl.
  - apply IH; [done|lia|lia|]. intros j Hj. destruct (decide (j < 8 * ix)); [apply Hlow; lia|].
    unfold bit. replace (j / 8) with ix by (apply Z.div_unique with (j - 8 * ix); lia). rewrite Hw. simpl.
    pose proof (Z.mod_pos_bound j 8 ltac:(lia)). apply (full_byte 255); lia.
  - apply wp_bind_2. eapply wp_mono; [eapply (alloc_word_spec b ix w 8 0); try done; try lia; intros j Hj; apply Hlow; lia|].
    intros i b' Hi. by apply wp_ret.
Qed.

Lemma words_ok b : bm_ok b → Z.to_nat (DIVROUNDUP_BITS (nbits b)) = length (v b).
Proof.
  intros Hb. pose proof (bo_bits _ Hb). pose proof (bo_len _ Hb). unfold DIVROUNDUP_BITS, BITS_PER_WORD.
  rewrite u32_id by lia. replace (nbits b + 8 - 1) with (nbits b + 7) by lia. lia.
Qed.

(** *** Creation *)
Lemma fill_over_spec n : ∀ j w, 0 ≤ j → j + Z.of_nat n = 8 → 0 ≤ w < 256 →
  0 ≤ fill_over n j w < 256 ∧ ∀ k, 0 ≤ k < 8 → Z.testbit (fill_over n j w) k = (Z.testbit w k || (j <=? k)).
Proof.
  induction n as [|n IH]; intros j w Hj Hn Hw; simpl.
  { split; [done|]. intros k Hk. rewrite (proj2 (Z.leb_gt j k)) by lia. by rewrite orb_false_r. }
  rewrite mask_bits by lia. destruct (byte_or w j Hw ltac:(lia)) as [-> Hs].
  destruct (IH (j + 1) (Z.setbit w j) ltac:(lia) ltac:(lia) Hs) as [H1 H2]. split; [done|].
  intros k Hk. rewrite H2, Z.setbit_eqb by lia. destruct (Z.testbit w k), (Z.eqb_spec j k), (Z.leb_spec (j + 1) k), (Z.leb_spec j k);
    try done; lia.
Qed.

Lemma create_ok nb : 0 ≤ nb < 2 ^ 32 - 8 →
  wp (bitmap_create true true nb) (λ o _, ∃ b, o = Some b ∧ holds b nb (λ _, false)) tt.
Proof.
  intros Hnb. unfold bitmap_create, DIVROUNDUP_BITS, BITS_PER_WORD. cbv zeta. cbn [negb].
  rewrite u32_id by lia. replace (nb + 8 - 1) with (nb + 7) by lia.
  pose proof (Z.div_mod (nb + 7) 8 ltac:(lia)) as D1. pose proof (Z.mod_pos_bound (nb + 7) 8 ltac:(lia)) as M1.
  pose proof (Z.div_mod nb 8 ltac:(lia)) as D2. pose proof (Z.mod_pos_bound nb 8 ltac:(lia)) as M2.
  set (words := (nb + 7) / 8) in *. set (vs := replicate (Z.to_nat words) 0).
  assert (Z.of_nat (length vs) = words) as Hlen by (unfold vs; rewrite length_replicate; lia).
  assert (∀ i w, vs !! i = Some w → w = 0) as Hz by (intros i w [-> _]%lookup_replicate_1; done).
  assert (∀ i, bit (Bitmap nb vs) i = false) as Hbz.
  { intros i. unfold bit; simpl. destruct (zget vs (i / 8)) as [w|] eqn:Ew; simpl; [|by rewrite Z.bits_0].
    apply zget_Some in Ew as [_ Ew]. rewrite (Hz _ _ Ew). apply Z.bits_0. }
  destruct (Z.ltb_spec (nb / 8) words) as [Hlt|Hge].
  - wp_steps. apply wp_kassert; [blia|]. apply wp_bind_2, wp_kassert.
    { apply andb_true_iff. split; blia. }
    destruct (zget_is_Some vs (words - 1)) as [w Hw]; [lia|]. apply wp_bind_2. eapply wp_of_opt; [done|].
    assert (w = 0) as -> by (apply zget_Some in Hw as [_ Hw]; by eapply Hz).
    destruct (fill_over_spec (Z.to_nat (8 - (nb - (words - 1) * 8))) (nb - (words - 1) * 8) 0) as [Hf1 Hf2]; [lia..|].
    set (fw := fill_over _ _ _) in *. apply wp_bind_2. eapply wp_of_opt; [by apply zset_Some; lia|]. apply wp_ret.
    set (b := Bitmap nb vs). change (Bitmap nb (<[Z.to_nat (words - 1) := fw]> vs)) with (set_word b (words - 1) fw).
    assert (∀ i, 0 ≤ i → bit (set_word b (words - 1) fw) i = if decide (i / 8 = words - 1) then nb <=? i else false) as Hget.
    { intros i Hi. rewrite bit_set_word by (simpl; lia). case_decide as Hd; [|apply Hbz].
      pose proof (Z.div_mod i 8 ltac:(lia)). pose proof (Z.mod_pos_bound i 8 ltac:(lia)).
      rewrite Hf2, Z.bits_0 by lia. simpl. destruct (Z.leb_spec (nb - (words - 1) * 8) (i mod 8)), (Z.leb_spec nb i); lia || done. }
    eexists. split; [done|]. split_and!; [constructor|done|]; simpl.
    + lia.
    + rewrite length_insert. lia.
    + intros i w [(_ & <- & _)|[_ Hi]]%list_lookup_insert_Some; [done|]. rewrite (Hz _ _ Hi). lia.
    + rewrite length_insert. intros i Hi. rewrite Hget by lia.
      rewrite decide_True by (symmetry; apply Z.div_unique with (i - 8 * (words - 1)); lia). blia.
    + intros i Hi. rewrite Hget by lia. case_decide; [blia|done].
  - apply wp_ret. eexists. split; [done|]. split_and!; [constructor|done|]; simpl.
    + lia.
    + lia.
    + intros i w Hi. rewrite (Hz _ _ Hi). lia.
    + intros i Hi. lia.
    + intros i _. apply Hbz.
Qed.

(** Changing bit [i] of a held bitmap through its word. *)
Lemma holds_put b n f i w w' x : holds b n f → 0 ≤ i < n → 0 ≤ i < 8 * Z.of_nat (length (v b)) →
  zget (v b) (i / 8) = Some w → 0 ≤ w' < 256 →
  (∀ k, 0 ≤ k < 8 → Z.testbit w' k = if decide (k = i mod 8) then x else Z.testbit w k) →
  ∃ b', bm_put (i / 8) w' b = Ok (tt, b') ∧ holds b' n (λ j, if decide (j = i) then x else f j).
Proof.
  intros (Hb & <- & Hf) Hi Hil Hw Hw' Hk.
  destruct (put_bit b i w w' x Hb Hil Hw Hw' Hk) as (Ep & Hok & Hget); [lia|].
  eexists. split; [exact Ep|]. split; [done|]. split; [done|]. intros j Hj. rewrite Hget by lia.
  case_decide; [done|]. by apply Hf.
Qed.

Lemma holds_alloc b n f : holds b n f →
  (∃ i b', bitmap_alloc b = Ok (inr i, b') ∧ 0 ≤ i < n ∧ f i = false ∧ (∀ j, 0 ≤ j < i → f j = true) ∧
     holds b' n (λ j, if decide (j = i) then true else f j)) ∨
  (∀ j, 0 ≤ j < n → f j = true) ∧ bitmap_alloc b = Ok (inl ENOSPC, b).
Proof.
  intros (Hb & <- & Hf).
  pose proof (alloc_loop_spec b (length (v b)) 0 Hb ltac:(lia) ltac:(lia) ltac:(lia)) as (r & b' & E & Hr)%wp_exists.
  assert (bitmap_alloc b = Ok (r, b')) as Ea.
  { unfold bitmap_alloc, mbind, M_bind, getS. by rewrite (words_ok b Hb). }
  destruct r as [e|i].
  - destruct Hr as (-> & -> & Hfull). right. split; [|done]. intros j Hj. by rewrite <-Hf, Hfull.
  - destruct Hr as (H1 & H2 & H3 & H4 & H5 & H6). left. exists i, b'. split_and!; try done; try lia.
    + by rewrite <-Hf.
    + intros j Hj. rewrite <-Hf by lia. by apply H5.
    + split; [done|]. split; [done|]. intros j Hj. rewrite H6 by lia. case_decide; [done|]. by apply Hf.
Qed.

(** Marking, clearing and testing one bit of a held bitmap. *)
Lemma holds_bit b n f i : holds b n f → 0 ≤ i < n →
  (if f i then bitmap_mark i b = Panic
   else ∃ b', bitmap_mark i b = Ok (tt, b') ∧ holds b' n (λ j, if decide (j = i) then true else f j)) ∧
  (if f i then ∃ b', bitmap_unmark i b = Ok (tt, b') ∧ holds b' n (λ j, if decide (j = i) then false else f j)
   else bitmap_unmark i b = Panic) ∧
  (∃ w, bitmap_isset i b = Ok (w, b) ∧ (w ≠ 0 ↔ f i = true)).
Proof.
  intros HB Hi. pose proof HB as (Hb & Hn & Hf).
  pose proof (bo_len _ Hb) as Hl. assert (0 ≤ i < 8 * Z.of_nat (length (v b))) as Hil.
  { pose proof (Z.div_mod (nbits b + 7) 8 ltac:(lia)). pose proof (Z.mod_pos_bound (nbits b + 7) 8 ltac:(lia)). lia. }
  destruct (word_of b i Hb Hil) as (w & Hw & Hwb & Hbit & Hm). rewrite Hf in Hbit by done.
  unfold bitmap_mark, bitmap_unmark, bitmap_isset, bitmap_translate, bm_get, BITS_PER_WORD.
  rewrite mask_bits by done. m_simpl. rewrite (proj2 (Z.ltb_lt _ _)) by lia. m_simpl. rewrite Hw. m_simpl.
  rewrite land_mask, Hbit by lia. split_and!.
  - destruct (Z.testbit w (i mod 8)) eqn:Eb; simpl; [done|]. destruct (byte_or w (i mod 8) Hwb Hm) as [-> Hs].
    apply (holds_put b n f i w); try done. intros k Hk. rewrite Z.setbit_eqb by lia.
    case_decide; [subst; by rewrite Z.eqb_refl|]. by rewrite (proj2 (Z.eqb_neq _ k)) by lia.
  - destruct (Z.testbit w (i mod 8)) eqn:Eb; simpl; [|done]. destruct (byte_clear w (i mod 8) Hwb Hm) as [-> Hs].
    apply (holds_put b n f i w); try done. intros k Hk. rewrite Z.clearbit_eqb by lia.
    case_decide; [subst; by rewrite Z.eqb_refl, andb_false_r|].
    rewrite (proj2 (Z.eqb_neq _ k)) by lia. by rewrite andb_true_r.
  - eexists. split; [done|]. pose proof (land_mask w (i mod 8) ltac:(lia)) as E.
    destruct (Z.eqb_spec (Z.land w (2 ^ (i mod 8))) 0), (Z.testbit w (i mod 8)); simpl in E; naive_solver.
Qed.

(** A bitmap is an array of bits. A new one of [n] bits is clear;
    [bitmap_alloc] marks and returns the lowest clear bit, and says [ENOSPC] only
    when all [n] are set (the bits left over in the last byte are never handed out);
    [bitmap_mark] sets and [bitmap_unmark] clears exactly the bit asked for when it
    was clear or set, and panics otherwise; [bitmap_isset] tests it. *)
Theorem bitmap_is_array_of_bits :
  (∀ n, 0 ≤ n < 2 ^ 32 - 8 → ∃ b, bitmap_create true true n tt = Ok (Some b, tt) ∧ holds b n (λ _, false)) ∧
  (∀ b n f, holds b n f →
    ((∃ i b', bitmap_alloc b = Ok (inr i, b') ∧ 0 ≤ i < n ∧ f i = false ∧ (∀ j, 0 ≤ j < i → f j = true) ∧
        holds b' n (λ j, if decide (j = i) then true else f j)) ∨
     (∀ j, 0 ≤ j < n → f j = true) ∧ bitmap_alloc b = Ok (inl ENOSPC, b)) ∧
    (∀ i, 0 ≤ i < n →
      (if f i then bitmap_mark i b = Panic
       else ∃ b', bitmap_mark i b = Ok (tt, b') ∧ holds b' n (λ j, if decide (j = i) then true else f j)) ∧
      (if f i then ∃ b', bitmap_unmark i b = Ok (tt, b') ∧ holds b' n (λ j, if decide (j = i) then false else f j)
       else bitmap_unmark i b = Panic) ∧
      (∃ w, bitmap_isset i b = Ok (w, b) ∧ (w ≠ 0 ↔ f i = true)))).
Proof.
  split.
  { intros n Hn. destruct (proj1 (wp_exists _ _ _) (create_ok n Hn)) as (o & [] & E & b & -> & Hb). eauto. }
  intros b n f HB. split; [by apply holds_alloc|]. intros i Hi. by apply holds_bit.
Qed.

Lemma bitmap_is_array_of_bits_witness : ∃ b, bitmap_create true true 12 tt = Ok (Some b, tt) ∧ holds b 12 (λ _, false).
Proof. apply (proj1 bitmap_is_array_of_bits 12). lia. Defined.
