(* ===== verification/Kmalloc.v ===== *)
(** The kernel heap: [kern/vm/kmalloc.c], a subpage allocator over whole pages.

    Memory is a map from word addresses to words. The free list of a page runs
    through the first word of its free blocks, as in the code. The lists of page
    references, which the code links through [next_samesize] and [next_all], are
    kept as lists of indices into the array [pagerefs]. The allocator of pages is
    used through the interface [PageAlloc]. The spinlock, which is held except
    around the calls of the page allocator, is left out: the theorems are about
    calls that do not overlap. The debugging checks are compiled out. *)

From stdpp Require Import base tactics numbers list gmap.
From S2P Require Import Prelude KernDefs.
Local Open Scope Z_scope.

(** ** Pages, as [kmalloc] uses them

    What [alloc_kpages] and [free_kpages] promise: runs of pages that do not
    overlap. A run is given back whole, and nothing else with it, when no larger
    run starts where it ends: [removefromcoremap] goes on into a larger one
    ([page_free_overruns]). [KmallocPages] proves this of the coremap. *)
Class PageAlloc (P : Type) := {
  pg_alloc : Z → M P Z;                (* alloc_kpages *)
  pg_free : Z → M P unit;              (* free_kpages *)
  pg_owned : P → gmap Z Z;             (* allocated runs: address and number of pages *)
  pg_ok : P → Prop;
  pg_range p a n : pg_ok p → pg_owned p !! a = Some n →
    0 < n ∧ a mod PAGE_SIZE = 0 ∧ MIPS_KSEG0 ≤ a ∧ a + n * PAGE_SIZE ≤ 2 ^ 32;
  pg_apart p a n b m : pg_ok p → pg_owned p !! a = Some n → pg_owned p !! b = Some m → a ≠ b →
    a + n * PAGE_SIZE ≤ b ∨ b + m * PAGE_SIZE ≤ a;
  pg_alloc_law p n : pg_ok p → 0 < n → wp (pg_alloc n) (λ a p', pg_ok p' ∧
    (a = 0 ∧ pg_owned p' = pg_owned p ∨
     pg_owned p !! a = None ∧ pg_owned p' = <[a := n]> (pg_owned p))) p;
  pg_free_law p a n : pg_ok p → pg_owned p !! a = Some n →
    (∀ m, pg_owned p !! (a + n * PAGE_SIZE) = Some m → m ≤ n) →
    wp (pg_free a) (λ _ p', pg_ok p' ∧ pg_owned p' = delete a (pg_owned p)) p;
}.

Definition NSIZES : Z := 8.
Definition sizes : list Z := [16; 32; 64; 128; 256; 512; 1024; 2048].
Definition LARGEST_SUBPAGE_SIZE : Z := 2048.
Definition INVALID_OFFSET : Z := 0xffff.
Definition NPAGEREFS : Z := 256.

Record pageref := PageRef {
  pageaddr_and_blocktype : Z;
  freelist_offset : Z;
  nfree : Z;
}.
Definition PR_PAGEADDR (pr : pageref) : Z := Z.land (pageaddr_and_blocktype pr) PAGE_FRAME.
Definition PR_BLOCKTYPE (pr : pageref) : Z := Z.land (pageaddr_and_blocktype pr) (Z.lnot PAGE_FRAME).
Definition MKPAB (pa blk : Z) : Z := Z.lor (Z.land pa PAGE_FRAME) (Z.land blk (Z.lnot PAGE_FRAME)).

Section kmalloc.
Context {P : Type} {PA : PageAlloc P}.

Record kmstate := KmState {
  kmem : Z → Z;
  pagerefs : list pageref;
  pagerefs_inuse : list Z;
  sizebases : list (list nat);
  allbase : list nat;
  pages : P;
}.

#[export] Instance km_pages : Sub kmstate P.
Proof.
  refine {| sub_get := pages;
            sub_put p s := KmState (kmem s) (pagerefs s) (pagerefs_inuse s) (sizebases s) (allbase s) p |};
    by intros [].
Defined.

Definition rd (a : Z) : M kmstate Z := gets (λ s, kmem s a).
Definition wr (a w : Z) : M kmstate unit :=
  modify (λ s, KmState (λ x, if x =? a then w else kmem s x) (pagerefs s) (pagerefs_inuse s) (sizebases s) (allbase s) (pages s)).
Definition get_pr (r : nat) : M kmstate pageref := s ← getS; of_opt (pagerefs s !! r).
Definition put_pr (r : nat) (pr : pageref) : M kmstate unit :=
  s ← getS;
  if (r <? length (pagerefs s))%nat then
    putS (KmState (kmem s) (<[r := pr]> (pagerefs s)) (pagerefs_inuse s) (sizebases s) (allbase s) (pages s))
  else undef.
Definition put_inuse (l : list Z) : M kmstate unit :=
  modify (λ s, KmState (kmem s) (pagerefs s) l (sizebases s) (allbase s) (pages s)).
Definition size_of (t : Z) : M kmstate Z := of_opt (zget sizes t).

Definition fill_deadbeef (a len : Z) : M kmstate unit :=
  for_do (Z.to_nat (len / 4)) 0 (λ i, wr (a + 4 * i) 0xdeadbeef).

(** ** Page references *)
(** The inner loop: [k] runs over the bits of the word [i]. *)
Fixpoint ref_bit (n : nat) (i : nat) (j : Z) : M kmstate nat :=
  match n with
  | O => panic
  | S n =>
      s ← getS;
      w ← of_opt (pagerefs_inuse s !! i);
      let k := u32 (Z.shiftl 1 j) in
      if Z.land w k =? 0 then
        put_inuse (<[i := u32 (Z.lor w k)]> (pagerefs_inuse s));;
        mret (i * 32 + Z.to_nat j)%nat
      else ref_bit n i (j + 1)
  end.
Fixpoint ref_word (n : nat) (i : nat) : M kmstate (option nat) :=
  match n with
  | O => mret None
  | S n =>
      s ← getS;
      w ← of_opt (pagerefs_inuse s !! i);
      if w =? 0xffffffff then ref_word n (i + 1)
      else r ← ref_bit 32 i 0; mret (Some r)
  end.
Definition allocpageref : M kmstate (option nat) := ref_word 8 0.

Definition freepageref (r : nat) : M kmstate unit :=
  kassert (Z.of_nat r <? NPAGEREFS);;
  s ← getS;
  w ← of_opt (pagerefs_inuse s !! (r / 32)%nat);
  let k := u32 (Z.shiftl 1 (Z.of_nat (r mod 32))) in
  kassert (negb (Z.land w k =? 0));;
  put_inuse (<[(r / 32)%nat := u32 (Z.land w (Z.lnot k))]> (pagerefs_inuse s)).

(** Unlinking the first occurrence. *)
Fixpoint unlink (r : nat) (l : list nat) : list nat :=
  match l with
  | [] => []
  | x :: l => if (x =? r)%nat then l else x :: unlink r l
  end.
Definition remove_lists (r : nat) (blktype : Z) : M kmstate unit :=
  kassert ((0 <=? blktype) && (blktype <? NSIZES));;
  s ← getS;
  b ← of_opt (zget (sizebases s) blktype);
  putS (KmState (kmem s) (pagerefs s) (pagerefs_inuse s)
          (<[Z.to_nat blktype := unlink r b]> (sizebases s)) (unlink r (allbase s)) (pages s)).

Fixpoint blocktype_from (l : list Z) (i sz : Z) : M kmstate Z :=
  match l with
  | [] => panic
  | x :: l => if sz <=? x then mret i else blocktype_from l (i + 1) sz
  end.
Definition blocktype (sz : Z) : M kmstate Z := blocktype_from sizes 0 sz.

(** ** Allocation *)
(** From the label [doalloc] on: the first free block of the page. *)
Definition doalloc (r : nat) : M kmstate Z :=
  pr ← get_pr r;
  kassert (freelist_offset pr <? PAGE_SIZE);;
  let prpage := PR_PAGEADDR pr in
  let fla := prpage + freelist_offset pr in
  fl ← rd fla;
  let n := wrapu 16 (nfree pr - 1) in
  (if negb (fl =? 0) then
     kassert (0 <? n);;
     kassert (u32 (fl - prpage) <? PAGE_SIZE);;
     put_pr r (PageRef (pageaddr_and_blocktype pr) (wrapu 16 (fl - prpage)) n)
   else
     kassert (n =? 0);;
     put_pr r (PageRef (pageaddr_and_blocktype pr) INVALID_OFFSET n));;
  mret fla.

(** The loop over the pages of a size. *)
Fixpoint find_page_with_room (blktype : Z) (l : list nat) : M kmstate (option nat) :=
  match l with
  | [] => mret None
  | r :: l =>
      pr ← get_pr r;
      kassert (PR_BLOCKTYPE pr =? blktype);;
      if 0 <? nfree pr then mret (Some r) else find_page_with_room blktype l
  end.

(** Threading the free list through a fresh page. *)
Definition thread_page (prpage sz n : Z) : M kmstate unit :=
  wr prpage 0;;
  for_do (Z.to_nat (n - 1)) 1 (λ i,
    wr (prpage + i * sz) (prpage + (i - 1) * sz);;
    nxt ← rd (prpage + i * sz);
    kassert (negb (prpage + i * sz =? nxt))).

Definition fresh_page (blktype sz : Z) : M kmstate Z :=
  prpage ← zoom (pg_alloc 1);
  if prpage =? 0 then mret 0
  else
    o ← allocpageref;
    match o with
    | None => zoom (pg_free prpage);; mret 0
    | Some r =>
        let n := PAGE_SIZE / sz in
        thread_page prpage sz n;;
        put_pr r (PageRef (MKPAB prpage blktype) (wrapu 16 ((n - 1) * sz)) (wrapu 16 n));;
        kassert (wrapu 16 ((n - 1) * sz) =? (n - 1) * sz);;
        s ← getS;
        b ← of_opt (zget (sizebases s) blktype);
        putS (KmState (kmem s) (pagerefs s) (pagerefs_inuse s)
                (<[Z.to_nat blktype := r :: b]> (sizebases s)) (r :: allbase s) (pages s));;
        doalloc r
    end.

Definition subpage_kmalloc (sz : Z) : M kmstate Z :=
  blktype ← blocktype sz;
  sz ← size_of blktype;
  s ← getS;
  b ← of_opt (zget (sizebases s) blktype);
  o ← find_page_with_room blktype b;
  match o with
  | Some r => doalloc r
  | None => fresh_page blktype sz
  end.

(** ** Freeing *)
Fixpoint find_page_of (ptr : Z) (l : list nat) : M kmstate (option nat) :=
  match l with
  | [] => mret None
  | r :: l =>
      pr ← get_pr r;
      kassert ((0 <=? PR_BLOCKTYPE pr) && (PR_BLOCKTYPE pr <? NSIZES));;
      if (PR_PAGEADDR pr <=? ptr) && (ptr <? PR_PAGEADDR pr + PAGE_SIZE) then mret (Some r)
      else find_page_of ptr l
  end.

(** [false] is the code's -1: not a subpage block. *)
Definition subpage_kfree (ptr : Z) : M kmstate bool :=
  s ← getS;
  o ← find_page_of ptr (allbase s);
  match o with
  | None => mret false
  | Some r =>
      pr ← get_pr r;
      let prpage := PR_PAGEADDR pr in
      let blktype := PR_BLOCKTYPE pr in
      sz ← size_of blktype;
      let offset := ptr - prpage in
      if (PAGE_SIZE <=? offset) || negb (offset mod sz =? 0) then panic
      else
        fill_deadbeef ptr sz;;
        (if freelist_offset pr =? INVALID_OFFSET then wr ptr 0 else wr ptr (prpage + freelist_offset pr));;
        let n := wrapu 16 (nfree pr + 1) in
        put_pr r (PageRef (pageaddr_and_blocktype pr) (wrapu 16 offset) n);;
        kassert (n <=? PAGE_SIZE / sz);;
        (if n =? PAGE_SIZE / sz then
           remove_lists r blktype;;
           freepageref r;;
           zoom (pg_free prpage)
         else mret tt);;
        mret true
  end.

Definition kmalloc (sz : Z) : M kmstate Z :=
  if LARGEST_SUBPAGE_SIZE <=? sz then zoom (pg_alloc (u32 (sz + PAGE_SIZE - 1) / PAGE_SIZE))
  else subpage_kmalloc sz.

Definition kfree (ptr : Z) : M kmstate unit :=
  if ptr =? 0 then mret tt
  else
    b ← subpage_kfree ptr;
    if (b : bool) then mret tt
    else kassert (ptr mod PAGE_SIZE =? 0);; zoom (pg_free ptr).
End kmalloc.
Arguments kmstate : clear implicits.
