(* ===== verification/KmallocPages.v ===== *)
(** The coremap as the page allocator of the kernel heap: [alloc_kpages] and
    [free_kpages] of [Coremap] satisfy the interface [PageAlloc] that
    [kern/vm/kmalloc.c] is verified against. The runs of pages [kmalloc] owns
    are the chunks of kernel pages in the coremap array. *)

From stdpp Require Import base tactics numbers list gmap.
From S2P Require Import Prelude KernDefs Spl Coremap Kmalloc.
Local Open Scope Z_scope.

(** The chunks of kernel pages in a part of the array that starts at address
    [a], [skip] entries into a chunk. *)
Fixpoint kernel_runs (l : list cm_entry) (skip : nat) (a : Z) : gmap Z Z :=
  match l with
  | [] => ∅
  | e :: l =>
      match skip with
      | S skip => kernel_runs l skip (a + PAGE_SIZE)
      | O =>
          let rest := kernel_runs l (Z.to_nat (chunk_cnt e) - 1) (a + PAGE_SIZE) in
          if is_kern_page e then <[a := chunk_cnt e]> rest else rest
      end
  end.
Definition kernel_owned (s : cmstate) : gmap Z Z :=
  kernel_runs (take (Z.to_nat (cm_entries s)) (coremap s)) 0 (MIPS_KSEG0 + freespace s).

(** The same, of the segments. *)
Fixpoint runs_of (gs : list seg) (a : Z) : gmap Z Z :=
  match gs with
  | [] => ∅
  | Free :: gs => runs_of gs (a + PAGE_SIZE)
  | Used n k :: gs =>
      let rest := runs_of gs (a + Z.of_nat n * PAGE_SIZE) in
      if k then <[a := Z.of_nat n]> rest else rest
  end.

Definition seg_len (g : seg) : nat := length (seg_entries g).
Definition after (a : Z) (gs : list seg) : Z := a + Z.of_nat (length (flat gs)) * PAGE_SIZE.
Lemma after_cons a g gs : after a (g :: gs) = after (a + Z.of_nat (seg_len g) * PAGE_SIZE) gs.
Proof. unfold after. rewrite flat_cons, length_app. fold (seg_len g). lia. Qed.

Lemma kernel_runs_skip l1 : ∀ l a,
  kernel_runs (l1 ++ l) (length l1) a = kernel_runs l 0 (a + Z.of_nat (length l1) * PAGE_SIZE).
Proof.
  induction l1 as [|e l1 IH]; intros l a; [simpl; f_equal; lia|].
  change (kernel_runs (l1 ++ l) (length l1) (a + PAGE_SIZE) = kernel_runs l 0 (a + Z.of_nat (S (length l1)) * PAGE_SIZE)).
  rewrite IH. f_equal. lia.
Qed.

Lemma kernel_runs_flat gs : Forall seg_ok gs → ∀ a, kernel_runs (flat gs) 0 a = runs_of gs a.
Proof.
  induction 1 as [|g gs Hg _ IH]; intros a; [done|]. rewrite flat_cons. destruct g as [|n k].
  - cbn. by rewrite IH.
  - destruct Hg as [Hn _]. destruct n as [|n]; [lia|]. cbn [seg_entries replicate app kernel_runs chunk_cnt is_kern_page runs_of].
    replace (Z.to_nat (Z.of_nat (S n)) - 1)%nat with (length (replicate n (CmEntry (Z.of_nat (S n)) k true)))
      by (rewrite length_replicate; lia).
    rewrite kernel_runs_skip, IH, length_replicate.
    replace (a + PAGE_SIZE + Z.of_nat n * PAGE_SIZE) with (a + Z.of_nat (S n) * PAGE_SIZE) by lia. done.
Qed.

Lemma kernel_owned_rep s gs slack : cm_rep s gs slack → kernel_owned s = runs_of gs (MIPS_KSEG0 + freespace s).
Proof.
  intros [Hok Hmap _ Hlen _ _]. unfold kernel_owned. rewrite Hlen, Hmap, Nat2Z.id, take_app_length.
  by apply kernel_runs_flat.
Qed.

(** ** Runs and segments *)
Lemma runs_split gs : ∀ a x m, runs_of gs a !! x = Some m →
  ∃ gs1 n gs2, gs = gs1 ++ Used n true :: gs2 ∧ x = after a gs1 ∧ m = Z.of_nat n.
Proof.
  induction gs as [|g gs IH]; intros a x m; [done|]. destruct g as [|n [|]]; cbn [runs_of].
  - intros (gs1 & n & gs2 & -> & -> & ->)%IH. exists (Free :: gs1), n, gs2. rewrite after_cons.
    split_and!; [done|simpl; f_equal; lia|done].
  - intros [[<- <-]|[_ (gs1 & n' & gs2 & -> & -> & ->)%IH]]%lookup_insert_Some.
    + exists [], n, gs. unfold after. simpl. split_and!; [done|lia|done].
    + exists (Used n true :: gs1), n', gs2. rewrite after_cons. unfold seg_len. simpl. by rewrite length_replicate.
  - intros (gs1 & n' & gs2 & -> & -> & ->)%IH. exists (Used n false :: gs1), n', gs2. rewrite after_cons.
    unfold seg_len. simpl. by rewrite length_replicate.
Qed.

Lemma runs_above gs a x m : runs_of gs a !! x = Some m → a ≤ x.
Proof. intros (gs1 & n & gs2 & _ & -> & _)%runs_split. unfold after, PAGE_SIZE. lia. Qed.

Lemma runs_below gs a x : x < a → runs_of gs a !! x = None.
Proof. intros Hx. destruct (runs_of gs a !! x) eqn:E; [|done]. apply runs_above in E. lia. Qed.

Lemma runs_free n : ∀ gs a, runs_of (replicate n Free ++ gs) a = runs_of gs (a + Z.of_nat n * PAGE_SIZE).
Proof. induction n as [|n IH]; intros gs a; [simpl; f_equal; lia|]. simpl. rewrite IH. f_equal. lia. Qed.

Lemma after_ge a gs : a ≤ after a gs.
Proof. unfold after, PAGE_SIZE. lia. Qed.

(** A run of free pages, and the same pages as one chunk. *)
Lemma runs_mark gs1 n gs2 : Forall seg_ok gs1 → (0 < n)%nat → ∀ a,
  runs_of (gs1 ++ Used n true :: gs2) a =
    <[after a gs1 := Z.of_nat n]> (runs_of (gs1 ++ replicate n Free ++ gs2) a) ∧
  runs_of (gs1 ++ replicate n Free ++ gs2) a !! after a gs1 = None.
Proof.
  intros Hok Hn. induction Hok as [|g gs1 Hg _ IH]; intros a.
  - cbn [app runs_of]. rewrite runs_free. unfold after. simpl. rewrite Z.add_0_r. split; [done|].
    apply runs_below. unfold PAGE_SIZE. lia.
  - rewrite after_cons. destruct g as [|k [|]]; cbn [app runs_of]; unfold seg_len; cbn [seg_entries length];
      rewrite ?length_replicate, ?Z.mul_1_l; [apply IH| |apply IH].
    destruct Hg as [Hk _]. destruct (IH (a + Z.of_nat k * PAGE_SIZE)) as [-> Hnone].
    pose proof (after_ge (a + Z.of_nat k * PAGE_SIZE) gs1).
    assert (a ≠ after (a + Z.of_nat k * PAGE_SIZE) gs1) by (unfold PAGE_SIZE in *; lia).
    split; [by apply insert_insert_ne|]. by rewrite lookup_insert_ne.
Qed.

Lemma runs_apart gs : Forall seg_ok gs → ∀ a x n y m, runs_of gs a !! x = Some n → runs_of gs a !! y = Some m → x ≠ y →
  x + n * PAGE_SIZE ≤ y ∨ y + m * PAGE_SIZE ≤ x.
Proof.
  induction 1 as [|g gs Hg _ IH]; intros a x n y m; [done|]. destruct g as [|k [|]]; cbn [runs_of]; [apply IH| |apply IH].
  intros [[<- <-]|[_ Hx]]%lookup_insert_Some [[<- <-]|[_ Hy]]%lookup_insert_Some Hne; [done|..].
  - left. by apply runs_above in Hy.
  - right. by apply runs_above in Hx.
  - by eapply IH.
Qed.

(** ** The interface *)
Definition user_single (g : seg) : Prop := match g with Used m false => m = 1%nat | _ => True end.
(** A coremap as [vm_bootstrap] makes it and the kernel uses it: users get
    single pages, and the memory of the array past the entries in use, which is
    never written, holds no count above 1 (zeros, when memory is clear at boot). *)
Definition cm_ok (s : cmstate) : Prop := ∃ gs slack,
  cm_rep s gs slack ∧ Forall user_single gs ∧ Forall (λ e, chunk_cnt e ≤ 1) slack.

Lemma kvaddr s x : layout_ok s → 0 ≤ x ≤ cm_entries s * PAGE_SIZE →
  PADDR_TO_KVADDR (freespace s + x) = MIPS_KSEG0 + freespace s + x.
Proof.
  intros (H1 & _ & H2 & H3) Hx. unfold PADDR_TO_KVADDR, MIPS_KSEG0 in *. rewrite u32_id by lia. lia.
Qed.

Lemma owned_split s x m : cm_ok s → kernel_owned s !! x = Some m → ∃ gs1 n gs2 slack,
  cm_rep s (gs1 ++ Used n true :: gs2) slack ∧ (Forall user_single gs1 ∧ Forall user_single gs2) ∧ Forall (λ e, chunk_cnt e ≤ 1) slack ∧
  m = Z.of_nat n ∧ (0 < n)%nat ∧ x = after (MIPS_KSEG0 + freespace s) gs1 ∧
  Z.of_nat (length (flat gs1)) + m ≤ cm_entries s.
Proof.
  intros (gs & slack & Hrep & Hu & Hs) Hx. rewrite (kernel_owned_rep _ _ _ Hrep) in Hx.
  apply runs_split in Hx as (gs1 & n & gs2 & -> & -> & ->). exists gs1, n, gs2, slack.
  pose proof (cm_rep_seg _ _ _ _ _ Hrep) as [Hn _]. apply Forall_app in Hu as [Hu1 [_ Hu2]%Forall_cons_1].
  split_and!; try done. rewrite (rep_len _ _ _ Hrep), flat_app, flat_cons, !length_app. simpl.
  rewrite length_replicate. lia.
Qed.

#[export] Program Instance coremap_pages : PageAlloc cmstate := {|
  pg_alloc := alloc_kpages; pg_free := free_kpages; pg_owned := kernel_owned; pg_ok := cm_ok |}.
Next Obligation.
  intros s x m Hok Hx. destruct (owned_split _ _ _ Hok Hx) as (gs1 & n & gs2 & slack & Hrep & _ & _ & -> & Hn & -> & Hle).
  destruct (rep_layout _ _ _ Hrep) as (H1 & H2 & H3 & H4). unfold after, MIPS_KSEG0 in *.
  split_and!; [lia| |unfold PAGE_SIZE; lia|unfold PAGE_SIZE in *; lia].
  rewrite Z_mod_plus_full, <-Zplus_mod_idemp_r, H2. done.
Qed.
Next Obligation.
  intros s x n y m (gs & slack & Hrep & _) Hx Hy Hne. rewrite (kernel_owned_rep _ _ _ Hrep) in Hx, Hy.
  by eapply runs_apart; [apply Hrep|..].
Qed.
Next Obligation.
  intros s n (gs & slack & Hrep & Hu & Hs) Hn. assert (n = Z.of_nat (Z.to_nat n)) as -> by lia.
  set (k := Z.to_nat n) in *. assert (0 < k)%nat as Hk by lia.
  eapply wp_alloc_kpages; [done..| |].
  - intros gs1 gs2 Hgs _ gs' s' Hrep'. split.
    { exists gs', slack. split_and!; [done| |done]. subst gs. unfold gs'.
      apply Forall_app in Hu as [Hu1 [_ Hu2]%Forall_app]. apply Forall_app. by split; [|constructor]. }
    right. pose proof (rep_segs _ _ _ Hrep) as Hok. subst gs. apply Forall_app in Hok as [Hok1 _].
    pose proof (rep_len _ _ _ Hrep) as Hlen. rewrite flat_app, length_app in Hlen.
    rewrite kvaddr by (by apply Hrep || unfold PAGE_SIZE; lia).
    fold (after (MIPS_KSEG0 + freespace s) gs1).
    rewrite (kernel_owned_rep _ _ _ Hrep), (kernel_owned_rep _ _ _ Hrep').
    destruct (runs_mark gs1 k gs2 Hok1 Hk (MIPS_KSEG0 + freespace s)) as [E1 E2]. by split.
  - intros _. split; [by exists gs, slack|by left].
Qed.
Next Obligation.
  intros s x m Hok Hx Hnext. destruct (owned_split _ _ _ Hok Hx) as (gs1 & n & gs2 & slack & Hrep & [Hu1 Hu] & Hs & -> & Hn & -> & Hle).
  set (a0 := MIPS_KSEG0 + freespace s) in *.
  pose proof (rep_segs _ _ _ Hrep) as Hseg. apply Forall_app in Hseg as [Hseg1 [_ Hseg2]%Forall_cons_1].
  assert (∃ e, head (flat gs2 ++ slack) = Some e ∧ chunk_cnt e ≤ Z.of_nat n) as (e & He & Hcnt).
  { destruct gs2 as [|g gs2].
    { destruct slack as [|e slack]; [by destruct (rep_slack _ _ _ Hrep)|]. exists e.
      apply Forall_cons_1 in Hs as [He _]. split; [done|lia]. }
    rewrite flat_cons. apply Forall_cons_1 in Hseg2 as [Hg _]. destruct g as [|k kr]; [by exists free_entry; split; [|simpl; lia]|].
    destruct Hg as [Hk _]. exists (CmEntry (Z.of_nat k) kr true). split; [by destruct k; [lia|]|]. simpl.
    destruct kr; [|apply Forall_cons_1 in Hu as [-> _]; lia]. apply Hnext.
    rewrite (kernel_owned_rep _ _ _ Hrep). fold a0.
    replace (gs1 ++ Used n true :: Used k true :: gs2) with ((gs1 ++ [Used n true]) ++ Used k true :: gs2) by (by rewrite <-app_assoc).
    replace (after a0 gs1 + Z.of_nat n * PAGE_SIZE) with (after a0 (gs1 ++ [Used n true])).
    2:{ unfold after. rewrite flat_app, length_app. simpl. rewrite app_nil_r, length_replicate. lia. }
    destruct (runs_mark (gs1 ++ [Used n true]) k gs2) with (a := a0) as [-> _]; [|done|apply lookup_insert_eq].
    apply Forall_app. split; [done|]. repeat constructor; [done|]. by destruct (cm_rep_seg _ _ _ _ _ Hrep). }
  unfold after, a0. rewrite <-kvaddr by (by apply Hrep || unfold PAGE_SIZE; lia).
  pose proof (paddr_nonzero s (Z.of_nat (length (flat gs1))) ltac:(apply Hrep) ltac:(lia)) as Hp.
  unfold wp. rewrite free_kpages_page_free by lia.
  eapply (wp_page_free s gs1 n true gs2 slack e); [done..|]. intros gs' s' Hrep'. split.
  - exists gs', slack. split_and!; [done| |done]. repeat (apply Forall_app; split); [done| |done].
    by apply Forall_replicate.
  - rewrite (kernel_owned_rep _ _ _ Hrep), (kernel_owned_rep _ _ _ Hrep'). change (freespace s') with (freespace s).
    rewrite kvaddr by (by apply Hrep || unfold PAGE_SIZE; lia). fold a0. fold (after a0 gs1).
    destruct (runs_mark gs1 n gs2 Hseg1 Hn a0) as [-> Hnone]. by rewrite delete_insert_id.
Qed.

(** Sixteen free pages from physical address 0x10000 on. *)
Definition free_ram : cmstate :=
  CmState cpu0 spinlock_init 0 0 (replicate 17 free_entry) 16 0 0x10000.
Lemma free_ram_ok : cm_ok free_ram ∧ kernel_owned free_ram = ∅.
Proof.
  split; [|done]. exists (replicate 16 Free), [free_entry]. split_and!; [|by apply Forall_replicate|by repeat constructor].
  constructor; [by apply Forall_replicate|done..| |done]. by vm_compute.
Qed.
