(* ===== verification/KmallocInv.v ===== *)
(** The heap keeps the blocks it has handed out apart. *)

From stdpp Require Import base tactics numbers list gmap.
From S2P Require Import Prelude KernDefs Bitmap Kmalloc.
Local Open Scope Z_scope.

(** ** Free lists *)
Fixpoint chain (m : Z → Z) (p : Z) (l : list Z) : Prop :=
  match l with
  | [] => p = 0
  | a :: l => p = a ∧ a ≠ 0 ∧ chain m (m a) l
  end.

Lemma chain_ext m m' p l : (∀ a, a ∈ l → m' a = m a) → chain m p l → chain m' p l.
Proof.
  revert p. induction l as [|a l IH]; intros p He; simpl; [done|]. intros (-> & Ha & Hc).
  split_and!; [done..|]. rewrite He by left. apply IH; [|done]. intros b Hb. apply He. by right.
Qed.

(** ** The blocks of a page *)
Definition blocks_of (pa sz : Z) : list Z := (λ i, pa + i * sz) <$> seqZ 0 (PAGE_SIZE / sz).

Lemma elem_blocks_of pa sz a : 0 < sz →
  a ∈ blocks_of pa sz ↔ ∃ i, a = pa + i * sz ∧ 0 ≤ i < PAGE_SIZE / sz.
Proof.
  intros Hsz. unfold blocks_of. rewrite list_elem_of_fmap. setoid_rewrite elem_of_seqZ.
  split; intros (i & E & Hi); exists i; (split; [done|lia]).
Qed.

(** A size class: it divides a page into at least two blocks of whole words. *)
Record size_ok (sz : Z) : Prop := {
  so_pos : 16 ≤ sz ≤ 2048;
  so_div : PAGE_SIZE mod sz = 0;
  so_align : sz mod 16 = 0;
}.

Lemma sizes_ok t sz : zget sizes t = Some sz → size_ok sz ∧ 0 ≤ t < 8.
Proof.
  intros H. apply zget_cases in H as (k & Hk & -> & Hs). simpl in Hk. unfold sizes in Hs.
  do 8 (destruct k as [|k]; [simpl in Hs; injection Hs as <-; split; [by constructor|lia]|]). lia.
Qed.

Lemma size_count sz : size_ok sz → PAGE_SIZE = PAGE_SIZE / sz * sz ∧ 2 ≤ PAGE_SIZE / sz ≤ 256.
Proof.
  intros [H1 H2 _]. unfold PAGE_SIZE in *. pose proof (Z.div_mod 4096 sz ltac:(lia)) as E. rewrite H2 in E.
  split; [lia|]. nia.
Qed.

Lemma blocks_range pa sz a : size_ok sz → a ∈ blocks_of pa sz → pa ≤ a ∧ a + sz ≤ pa + PAGE_SIZE ∧ (a - pa) mod sz = 0.
Proof.
  intros Hs (i & -> & Hi)%elem_blocks_of; [|destruct Hs; lia]. destruct (size_count sz Hs) as [E _]. destruct Hs as [H1 _ _].
  split_and!; [nia|nia|]. replace (pa + i * sz - pa) with (i * sz) by lia. apply Z.mod_mul. lia.
Qed.

Lemma blocks_disjoint pa sz a b : size_ok sz → a ∈ blocks_of pa sz → b ∈ blocks_of pa sz → a ≠ b →
  a + sz ≤ b ∨ b + sz ≤ a.
Proof.
  intros Hs (i & -> & Hi)%elem_blocks_of (j & -> & Hj)%elem_blocks_of; [|destruct Hs; lia..]. destruct Hs as [H1 _ _].
  intros Hne. assert (i ≠ j) by (by intros ->). nia.
Qed.

Lemma blocks_nodup pa sz : size_ok sz → NoDup (blocks_of pa sz).
Proof.
  intros [H1 _ _]. unfold blocks_of. apply NoDup_fmap_2; [|apply NoDup_seqZ]. intros i j. nia.
Qed.

Lemma blocks_length pa sz : size_ok sz → Z.of_nat (length (blocks_of pa sz)) = PAGE_SIZE / sz.
Proof. intros Hs. destruct (size_count sz Hs). unfold blocks_of. rewrite length_fmap, length_seqZ. lia. Qed.

(** ** A page in use: free blocks in the order of the list, and live blocks *)
Definition fl_head (pr : pageref) : Z :=
  if freelist_offset pr =? INVALID_OFFSET then 0 else PR_PAGEADDR pr + freelist_offset pr.

Record page_ok (m : Z → Z) (pr : pageref) (sz : Z) (F L : list Z) : Prop := {
  pk_size : zget sizes (PR_BLOCKTYPE pr) = Some sz;
  pk_addr : PR_PAGEADDR pr mod PAGE_SIZE = 0 ∧ MIPS_KSEG0 ≤ PR_PAGEADDR pr ∧ PR_PAGEADDR pr + PAGE_SIZE ≤ 2 ^ 32;
  pk_nfree : nfree pr = Z.of_nat (length F);
  pk_blocks : F ++ L ≡ₚ blocks_of (PR_PAGEADDR pr) sz;
  pk_offset : freelist_offset pr = INVALID_OFFSET ∨ 0 ≤ freelist_offset pr < PAGE_SIZE;
  pk_chain : chain m (fl_head pr) F;
}.

Lemma page_ok_size m pr sz F L : page_ok m pr sz F L → size_ok sz.
Proof. intros []. by eapply sizes_ok. Qed.

Lemma page_block m pr sz F L a : page_ok m pr sz F L → a ∈ F ++ L → a ∈ blocks_of (PR_PAGEADDR pr) sz.
Proof. intros [] Ha. by rewrite <-pk_blocks0. Qed.

(** What is stored outside the free blocks does not matter. *)
Lemma page_ok_mem m m' pr sz F L : page_ok m pr sz F L → (∀ a, a ∈ F → m' a = m a) → page_ok m' pr sz F L.
Proof. intros [H1 H2 H3 H4 H5 H6] He. constructor; try done. by eapply chain_ext. Qed.

Lemma page_length m pr sz F L : page_ok m pr sz F L →
  Z.of_nat (length F + length L) = PAGE_SIZE / sz ∧ 2 ≤ PAGE_SIZE / sz ≤ 256.
Proof.
  intros Hp. pose proof (page_ok_size _ _ _ _ _ Hp) as Hs. destruct (size_count sz Hs) as [_ Hn].
  split; [|done]. rewrite <-length_app, (Permutation_length (pk_blocks _ _ _ _ _ Hp)). by apply blocks_length.
Qed.

Lemma page_nodup m pr sz F L : page_ok m pr sz F L → NoDup (F ++ L).
Proof. intros Hp. rewrite (pk_blocks _ _ _ _ _ Hp). eapply blocks_nodup, page_ok_size, Hp. Qed.

(** ** Building the free list of a page *)
Fixpoint down (pa sz : Z) (k : nat) : list Z :=
  match k with O => [] | S k => pa + Z.of_nat k * sz :: down pa sz k end.

Lemma down_blocks pa sz k : down pa sz k ≡ₚ (λ i, pa + i * sz) <$> seqZ 0 (Z.of_nat k).
Proof.
  induction k as [|k IH]; [done|]. rewrite seqZ_S.
  rewrite fmap_app, <-IH. cbn [down fmap list_fmap]. rewrite Z.add_0_l. apply Permutation_cons_append.
Qed.

Lemma chain_down m pa sz n k : 0 < pa → 0 < sz → m pa = 0 →
  (∀ i, 0 < i < n → m (pa + i * sz) = pa + (i - 1) * sz) → Z.of_nat k < n →
  chain m (pa + Z.of_nat k * sz) (down pa sz (S k)).
Proof.
  intros Hpa Hsz H0 Hm. induction k as [|k IH]; intros Hk.
  - simpl. rewrite Z.mul_0_l, Z.add_0_r. split_and!; [done|lia|done].
  - refine (conj eq_refl (conj _ _)); [nia|].
    change (chain m (m (pa + Z.of_nat (S k) * sz)) (down pa sz (S k))). rewrite Hm by lia.
    replace (Z.of_nat (S k) - 1) with (Z.of_nat k) by lia. apply IH. lia.
Qed.

Lemma u16_id x : 0 ≤ x < 65536 → wrapu 16 x = x.
Proof. apply (wrapu_id 16). Qed.

(** ** Running the code *)
Section ops.
Context {P : Type} {PA : PageAlloc P}.
Implicit Types s : kmstate P.

Definition set_pr (r : nat) (pr : pageref) s : kmstate P :=
  KmState (kmem s) (<[r := pr]> (pagerefs s)) (pagerefs_inuse s) (sizebases s) (allbase s) (pages s).
Definition set_kmem (m : Z → Z) s : kmstate P :=
  KmState m (pagerefs s) (pagerefs_inuse s) (sizebases s) (allbase s) (pages s).

Lemma wp_get_pr r pr (Q : pageref → kmstate P → Prop) s : pagerefs s !! r = Some pr → Q pr s → wp (get_pr r) Q s.
Proof. intros Hr HQ. unfold get_pr. wp_steps. by eapply wp_of_opt. Qed.
Lemma wp_put_pr r pr pr' (Q : unit → kmstate P → Prop) s : pagerefs s !! r = Some pr → Q tt (set_pr r pr' s) →
  wp (put_pr r pr') Q s.
Proof.
  intros Hr HQ. unfold put_pr. wp_steps. apply lookup_lt_Some in Hr. rewrite (proj2 (Nat.ltb_lt _ _)) by done.
  by wp_steps.
Qed.

(** Taking the first free block. *)
Lemma wp_doalloc s r pr sz a F L (Q : Z → kmstate P → Prop) :
  pagerefs s !! r = Some pr → page_ok (kmem s) pr sz (a :: F) L →
  (∀ pr', pageaddr_and_blocktype pr' = pageaddr_and_blocktype pr → page_ok (kmem s) pr' sz F (a :: L) →
    Q a (set_pr r pr' s)) →
  wp (doalloc r) Q s.
Proof.
  intros Hr Hp HQ. pose proof (page_length _ _ _ _ _ Hp) as [Hlen Hn]. cbn [length] in Hlen.
  pose proof (pk_chain _ _ _ _ _ Hp) as (Hh & Ha0 & Hc). unfold fl_head in Hh.
  destruct (Z.eqb_spec (freelist_offset pr) INVALID_OFFSET) as [|Hoff]; [congruence|].
  destruct (pk_offset _ _ _ _ _ Hp) as [|Hr2]; [done|].
  unfold doalloc, Kmalloc.rd. wp_steps. eapply wp_get_pr; [done|]. wp_steps. apply wp_kassert; [blia|]. wp_steps.
  rewrite Hh. rewrite (pk_nfree _ _ _ _ _ Hp). cbn [length].
  replace (Z.of_nat (S (length F)) - 1) with (Z.of_nat (length F)) by lia.
  rewrite (u16_id (Z.of_nat (length F))) by lia.
  assert (∀ off, (off = INVALID_OFFSET ∧ F = []) ∨ (0 ≤ off < PAGE_SIZE ∧ head F = Some (PR_PAGEADDR pr + off)) →
    page_ok (kmem s) (PageRef (pageaddr_and_blocktype pr) off (Z.of_nat (length F))) sz F (a :: L)) as Hnew.
  { intros off Hcase. destruct Hp as [H1 H2 H3 H4 H5 H6]. constructor; try done.
    - rewrite <-H4. simpl. by rewrite <-Permutation_middle.
    - simpl. destruct Hcase as [[-> _]|[? _]]; [by left|by right].
    - unfold fl_head, PR_PAGEADDR. simpl. destruct Hcase as [[-> ->]|[Hrg Hhd]]; [done|].
      destruct (Z.eqb_spec off INVALID_OFFSET) as [->|_]; [unfold INVALID_OFFSET, PAGE_SIZE in *; lia|].
      destruct F as [|b F]; [done|]. simpl in Hhd. injection Hhd as ->. simpl in Hc |- *.
      destruct Hc as (Hb & Hb0 & Hc). by split_and!. }
  destruct F as [|b F].
  - simpl in Hc. rewrite Hc. cbn [negb Z.eqb]. wp_steps. apply wp_kassert; [done|].
    eapply wp_put_pr; [done|]. wp_steps. apply HQ; [done|]. apply Hnew. by left.
  - destruct Hc as (-> & Hb0 & Hc).
    assert (b ∈ blocks_of (PR_PAGEADDR pr) sz) as Hb by (eapply page_block; [done|set_solver]).
    apply blocks_range in Hb as (Hb1 & Hb2 & _); [|by eapply page_ok_size]. pose proof (so_pos _ (page_ok_size _ _ _ _ _ Hp)).
    assert (b - PR_PAGEADDR pr < 65536) by (unfold PAGE_SIZE in *; lia).
    rewrite (proj2 (Z.eqb_neq _ _)) by done. cbn [negb]. wp_steps.
    apply wp_kassert; [cbn [length]; blia|]. wp_steps.
    rewrite u32_id by (unfold PAGE_SIZE in *; lia). apply wp_kassert; [blia|].
    rewrite u16_id by lia. eapply wp_put_pr; [done|]. wp_steps. apply HQ; [done|]. apply Hnew. right. simpl.
    split; [lia|f_equal; lia].
Qed.

Lemma wp_heap_wr a w (Q : unit → kmstate P → Prop) s :
  Q tt (set_kmem (λ x, if x =? a then w else kmem s x) s) → wp (Kmalloc.wr a w) Q s.
Proof. intros HQ. unfold Kmalloc.wr. by wp_steps. Qed.

Lemma wp_fill_deadbeef a len (Q : unit → kmstate P → Prop) s : 0 ≤ len →
  (∀ m, (∀ x, x < a ∨ a + len ≤ x → m x = kmem s x) → Q tt (set_kmem m s)) →
  wp (fill_deadbeef a len) Q s.
Proof.
  intros Hl HQ. unfold fill_deadbeef.
  apply wp_for_do with (I := λ j s', ∃ m, s' = set_kmem m s ∧ ∀ x, x < a ∨ a + len ≤ x → m x = kmem s x).
  - exists (kmem s). by destruct s.
  - intros j s' Hj (m & -> & Hm). apply wp_heap_wr. eexists. split; [done|]. intros x Hx. simpl.
    destruct (Z.eqb_spec x (a + 4 * j)); [|by apply Hm].
    pose proof (Z.mul_div_le len 4 ltac:(lia)). pose proof (Z.div_pos len 4 Hl ltac:(lia)). lia.
  - intros s' (m & -> & Hm). by apply HQ.
Qed.

Lemma wp_thread_page pa sz n (Q : unit → kmstate P → Prop) s : 0 < sz → 1 ≤ n →
  (∀ m, m pa = 0 → (∀ i, 0 < i < n → m (pa + i * sz) = pa + (i - 1) * sz) →
    (∀ x, x < pa ∨ pa + n * sz ≤ x → m x = kmem s x) → Q tt (set_kmem m s)) →
  wp (thread_page pa sz n) Q s.
Proof.
  intros Hsz Hn HQ. unfold thread_page. wp_steps. apply wp_heap_wr.
  apply wp_for_do with (I := λ j s', ∃ m, s' = set_kmem m s ∧ m pa = 0 ∧
    (∀ i, 0 < i < j → m (pa + i * sz) = pa + (i - 1) * sz) ∧
    (∀ x, x < pa ∨ pa + n * sz ≤ x → m x = kmem s x)).
  - eexists. split; [done|]. cbv beta. split_and!; [by rewrite Z.eqb_refl|lia|].
    intros x Hx. rewrite (proj2 (Z.eqb_neq _ _)); [done|nia].
  - intros j s' Hj (m & -> & H0 & Hi & Hx). wp_steps. apply wp_heap_wr. unfold Kmalloc.rd. wp_steps. simpl.
    rewrite Z.eqb_refl. apply wp_kassert; [apply negb_true_iff, Z.eqb_neq; nia|]. eexists. split; [done|].
    cbv beta. split_and!.
    + rewrite (proj2 (Z.eqb_neq _ _)); [done|nia].
    + intros i Hi'. destruct (decide (i = j)) as [->|]; [by rewrite Z.eqb_refl|].
      rewrite (proj2 (Z.eqb_neq _ _)) by nia. apply Hi. lia.
    + intros x Hx'. rewrite (proj2 (Z.eqb_neq _ _)) by nia. by apply Hx.
  - intros s' (m & -> & H0 & Hi & Hx). apply HQ; [done| |done]. intros i Hi'. apply Hi. lia.
Qed.

(** ** The bits of the page references in use *)
Definition ubit (l : list Z) (r : nat) : bool :=
  Z.testbit (default 0 (l !! (r / 32)%nat)) (Z.of_nat (r mod 32)).
Definition words_ok (l : list Z) : Prop := length l = 8%nat ∧ Forall (λ w, 0 ≤ w < 2 ^ 32) l.

Definition set_inuse (l : list Z) s : kmstate P :=
  KmState (kmem s) (pagerefs s) l (sizebases s) (allbase s) (pages s).

Lemma word_set w j : 0 ≤ w < 2 ^ 32 → 0 ≤ j < 32 →
  u32 (Z.shiftl 1 j) = 2 ^ j ∧ u32 (Z.lor w (2 ^ j)) = Z.setbit w j ∧ 0 ≤ Z.setbit w j < 2 ^ 32 ∧
  u32 (Z.land w (Z.lnot (2 ^ j))) = Z.clearbit w j ∧ 0 ≤ Z.clearbit w j < 2 ^ 32.
Proof.
  intros Hw Hj. pose proof (proj1 (Z.bounded_iff_bits_nonneg 32 w ltac:(lia) ltac:(lia)) (proj2 Hw)) as Hb.
  assert (0 ≤ Z.setbit w j < 2 ^ 32) as Hs.
  { assert (0 ≤ Z.setbit w j) by (rewrite Z.setbit_spec'; apply Z.lor_nonneg; lia). split; [done|].
    apply Z.bounded_iff_bits_nonneg; [lia|done|]. intros l Hl. rewrite Z.setbit_neq by lia. by apply Hb. }
  assert (0 ≤ Z.clearbit w j < 2 ^ 32) as Hc.
  { assert (0 ≤ Z.clearbit w j) by (rewrite Z.clearbit_spec'; apply Z.ldiff_nonneg; lia). split; [done|].
    apply Z.bounded_iff_bits_nonneg; [lia|done|]. intros l Hl. rewrite Z.clearbit_neq by lia. by apply Hb. }
  rewrite Z.shiftl_1_l, <-Z.ldiff_land, <-Z.setbit_spec', <-Z.clearbit_spec'.
  rewrite !wrapu_id; try done. split; [lia|]. apply Z.pow_lt_mono_r; lia.
Qed.

Lemma ubit_insert l i w r : (i < length l)%nat →
  ubit (<[i := w]> l) r = if decide (r / 32 = i)%nat then Z.testbit w (Z.of_nat (r mod 32)) else ubit l r.
Proof.
  intros Hi. unfold ubit. destruct (decide _) as [->|Hne]; [by rewrite list_lookup_insert_eq|].
  by rewrite list_lookup_insert_ne.
Qed.

Lemma wp_put_inuse l (Q : unit → kmstate P → Prop) s : Q tt (set_inuse l s) → wp (put_inuse l) Q s.
Proof. intros HQ. unfold put_inuse. by wp_steps. Qed.

Lemma full_word w : 0 ≤ w < 2 ^ 32 → (∀ k, 0 ≤ k < 32 → Z.testbit w k = true) → w = 0xffffffff.
Proof.
  intros Hw Hb. change 0xffffffff with (Z.ones 32). apply Z.bits_inj'. intros k Hk.
  destruct (Z.lt_ge_cases k 32); [rewrite Z.ones_spec_low, Hb; [done|lia..]|].
  rewrite Z.ones_spec_high by lia.
  by apply (proj1 (Z.bounded_iff_bits_nonneg 32 w ltac:(lia) ltac:(lia)) (proj2 Hw)).
Qed.

Lemma ref_index (i j : nat) : (j < 32)%nat → ((i * 32 + j) / 32 = i)%nat ∧ ((i * 32 + j) mod 32 = j)%nat.
Proof.
  intros Hj. split.
  - rewrite Nat.div_add_l by lia. rewrite Nat.div_small by done. lia.
  - rewrite Nat.add_comm, Nat.Div0.mod_add. by apply Nat.mod_small.
Qed.

(** A reference is handed out when one is not in use. *)
Definition ref_taken s (r : nat) s' : Prop :=
  ∃ l, s' = set_inuse l s ∧ words_ok l ∧ (r < 256)%nat ∧ ubit (pagerefs_inuse s) r = false ∧
    ∀ r', ubit l r' = if decide (r' = r) then true else ubit (pagerefs_inuse s) r'.

Lemma wp_ref_bit s i w n : ∀ j, words_ok (pagerefs_inuse s) → pagerefs_inuse s !! i = Some w →
  w ≠ 0xffffffff → 0 ≤ j → j + Z.of_nat n = 32 → (∀ k, 0 ≤ k < j → Z.testbit w k = true) →
  wp (ref_bit n i j) (λ r s', ref_taken s r s') s.
Proof.
  induction n as [|n IH]; intros j Hok Hw Hf Hj Hn Hb; cbn [ref_bit].
  { destruct Hf. apply full_word; [|intros; apply Hb; lia]. by eapply (Forall_lookup_1 _ _ _ _ (proj2 Hok)). }
  pose proof (Forall_lookup_1 _ _ _ _ (proj2 Hok) Hw) as Hwr.
  destruct (word_set w j Hwr ltac:(lia)) as (E1 & E2 & E3 & _).
  wp_steps. eapply wp_of_opt; [done|]. rewrite E1, land_mask by done. destruct (Z.testbit w j) eqn:Hbit; cbn [negb].
  { apply IH; try done; try lia. intros k Hk. destruct (decide (k = j)) as [->|]; [done|]. apply Hb. lia. }
  wp_steps. rewrite E2. apply wp_put_inuse. wp_steps.
  pose proof (lookup_lt_Some _ _ _ Hw) as Hi. destruct Hok as [Hl8 Hall]. pose proof Hi as Hi8. rewrite Hl8 in Hi8.
  destruct (ref_index i (Z.to_nat j) ltac:(lia)) as [Hd Hm].
  eexists. split; [done|]. split_and!.
  - split; [by rewrite length_insert|]. by apply Forall_insert.
  - lia.
  - unfold ubit. by rewrite Hd, Hm, Hw, Z2Nat.id by lia.
  - intros r'. rewrite ubit_insert by done. destruct (decide (r' = _)) as [->|Hne].
    { rewrite Hd, Hm. rewrite decide_True by done. rewrite Z2Nat.id by done. by apply Z.setbit_eq. }
    destruct (decide _) as [<-|]; [|done]. unfold ubit. rewrite Hw. change (default 0 (Some w)) with w.
    rewrite Z.setbit_neq; [done|lia|]. intros E. apply Hne.
    pose proof (Nat.div_mod_eq r' 32). lia.
Qed.

Lemma wp_ref_word s n : ∀ i, words_ok (pagerefs_inuse s) → (i + n = 8)%nat →
  (∀ r, (r < i * 32)%nat → ubit (pagerefs_inuse s) r = true) →
  wp (ref_word n i) (λ o s', match o with
    | Some r => ref_taken s r s'
    | None => s' = s ∧ ∀ r, (r < 256)%nat → ubit (pagerefs_inuse s) r = true end) s.
Proof.
  induction n as [|n IH]; intros i Hok Hn Hb; cbn [ref_word].
  { wp_steps. split; [done|]. intros r Hr. apply Hb. lia. }
  destruct (lookup_lt_is_Some_2 (pagerefs_inuse s) i) as [w Hw]; [destruct Hok as [-> _]; lia|].
  wp_steps. eapply wp_of_opt; [done|]. destruct (Z.eqb_spec w 0xffffffff) as [->|Hne].
  - apply IH; [done|lia|]. intros r Hr. destruct (decide (r < i * 32)%nat); [by apply Hb|].
    destruct (ref_index i (r - i * 32) ltac:(lia)) as [Hd Hm].
    replace (i * 32 + (r - i * 32))%nat with r in Hd, Hm by lia. unfold ubit. rewrite Hd, Hw, Hm. simpl.
    change 4294967295 with (Z.ones 32). apply Z.ones_spec_low. lia.
  - wp_steps. eapply wp_mono; [by apply (wp_ref_bit s i w 32 0); try done; lia|]. intros r s' Hr. by wp_steps.
Qed.

Lemma wp_freepageref s r (Q : unit → kmstate P → Prop) : words_ok (pagerefs_inuse s) → (r < 256)%nat →
  ubit (pagerefs_inuse s) r = true →
  (∀ l, words_ok l → (∀ r', ubit l r' = if decide (r' = r) then false else ubit (pagerefs_inuse s) r') →
    Q tt (set_inuse l s)) →
  wp (freepageref r) Q s.
Proof.
  intros [Hl Hall] Hr Hb HQ. unfold freepageref. wp_steps. apply wp_kassert; [unfold NPAGEREFS; blia|]. wp_steps.
  assert (r / 32 < 8)%nat as Hd by (apply Nat.Div0.div_lt_upper_bound; lia).
  destruct (lookup_lt_is_Some_2 (pagerefs_inuse s) (r / 32)) as [w Hw]; [by rewrite Hl|].
  assert (r mod 32 < 32)%nat as Hm by (apply Nat.mod_upper_bound; lia).
  eapply wp_of_opt; [done|]. pose proof (Forall_lookup_1 _ _ _ _ Hall Hw) as Hwr.
  destruct (word_set w (Z.of_nat (r mod 32)) Hwr ltac:(lia)) as (E1 & _ & _ & E2 & E3).
  unfold ubit in Hb. rewrite Hw in Hb. change (default 0 (Some w)) with w in Hb. rewrite E1, land_mask by lia. rewrite Hb. wp_steps. rewrite E2.
  apply wp_put_inuse. apply HQ.
  - split; [by rewrite length_insert|]. by apply Forall_insert.
  - intros r'. rewrite ubit_insert by (by rewrite Hl). destruct (decide (r' = r)) as [->|Hne].
    { rewrite decide_True by done. apply Z.clearbit_eq. }
    destruct (decide _) as [E|]; [|done]. unfold ubit. rewrite E, Hw. change (default 0 (Some w)) with w.
    apply Z.clearbit_neq. intros Hc. apply Hne.
    pose proof (Nat.div_mod_eq r' 32). pose proof (Nat.div_mod_eq r 32). lia.
Qed.
End ops.
