(* ===== verification/Array.v ===== *)
(** Resizable arrays of pointers: [kern/lib/array.c] and [kern/include/array.h].

    The block [v] points to is a list of cells; a cell that was never stored to is
    [None]. The kernel heap is a parameter: [a_heap] holds the answers to the coming
    allocations, and none succeeds once the list is used up. *)

From stdpp Require Import base tactics numbers list.
From S2P Require Import Prelude KernDefs.
Local Open Scope Z_scope.

Record array := Array { a_v : list (option Z); a_num : Z; a_max : Z }.
Record aheap := AHeap { a_arr : array; a_heap : list (option Z) }.

Definition put_arr (a : array) : M aheap unit := modify (λ h, AHeap a (a_heap h)).

Definition array_init : array := Array [] 0 0.

(** [while (num > newmax) newmax = newmax ? newmax*2 : 4]. *)
Fixpoint grow_max (fuel : nat) (newmax num : Z) : res Z :=
  match fuel with
  | O => Diverge
  | S fuel =>
      if newmax <? num then grow_max fuel (if newmax =? 0 then 4 else u32 (newmax * 2)) num
      else Ok newmax
  end.

#[global] Arguments grow_max : simpl never.

(** The outcome of a pure computation. *)
Definition of_res {S A} (r : res A) : M S A := λ s,
  match r with Ok a => Ok (a, s) | Panic => Panic | Undef => Undef | Diverge => Diverge end.

(** Doubling a 32-bit number 32 times gives 0, so that 33 steps show all there is to
    see. *)
Definition array_setsize (num : Z) : M aheap (option errno) :=
  h ← getS;
  let a := a_arr h in
  if a_max a <? num then
    newmax ← of_res (grow_max 33 (a_max a) num);
    match a_heap h with
    | Some _ :: rest =>
        let cells := u32 (newmax * 4) / 4 in
        if a_num a <=? cells then
          putS (AHeap (Array (take (Z.to_nat (a_num a)) (a_v a) ++ replicate (Z.to_nat (cells - a_num a)) None) num newmax) rest);;
          mret None
        else undef
    | answers => putS (AHeap a (tail answers));; mret (Some ENOMEM)
    end
  else
    put_arr (Array (a_v a) num (a_max a));; mret None.

Definition array_num : M aheap Z := gets (λ h, a_num (a_arr h)).

Definition array_get (index : Z) : M aheap Z :=
  h ← getS;
  kassert (index <? a_num (a_arr h));;
  c ← of_opt (zget (a_v (a_arr h)) index);
  of_opt c.

Definition array_store (index val : Z) : M aheap unit :=
  h ← getS;
  let a := a_arr h in
  v ← of_opt (zset index (Some val) (a_v a));
  put_arr (Array v (a_num a) (a_max a)).
Definition array_set (index val : Z) : M aheap unit :=
  h ← getS;
  kassert (index <? a_num (a_arr h));;
  array_store index val.

Definition array_add (val : Z) : M aheap (result Z) :=
  index ← array_num;
  ret ← array_setsize (u32 (index + 1));
  match ret with
  | Some e => mret (inl e)
  | None => array_store index val;; mret (inr index)
  end.

(** The [memmove] slides the entries after [index] down; the last cell keeps its
    contents. *)
Definition array_remove (index : Z) : M aheap unit :=
  h ← getS;
  let a := a_arr h in
  kassert (a_num a <=? a_max a);;
  kassert (index <? a_num a);;
  let n := Z.to_nat (a_num a) in
  let i := Z.to_nat index in
  put_arr (Array (take i (a_v a) ++ take (n - (i + 1)) (drop (i + 1) (a_v a)) ++ drop (n - 1) (a_v a))
             (a_num a - 1) (a_max a)).

Definition array_cleanup : M aheap unit :=
  h ← getS;
  kassert (a_num (a_arr h) =? 0);;
  put_arr (Array [] (a_num (a_arr h)) (a_max (a_arr h))).

(** * Arrays as lists *)
Record arr_rep (a : array) (l : list Z) : Prop := {
  ar_num : a_num a = Z.of_nat (length l);
  ar_max : a_num a ≤ a_max a < 1073741824;
  ar_cells : Z.of_nat (length (a_v a)) = a_max a;
  ar_vals : take (length l) (a_v a) = Some <$> l;
}.

Lemma arr_rep_cells a l : arr_rep a l → a_v a = (Some <$> l) ++ drop (length l) (a_v a).
Proof. intros [_ _ _ H]. by rewrite <-H, take_drop. Qed.

(** ** Growing *)
Lemma grow_max_S fuel m num : grow_max (S fuel) m num =
  if m <? num then grow_max fuel (if m =? 0 then 4 else u32 (m * 2)) num else Ok m.
Proof. done. Qed.

Lemma grow_max_ok fuel : ∀ m num, 0 < m → num ≤ m * 2 ^ Z.of_nat fuel → num ≤ 536870912 →
  ∃ m', grow_max (S fuel) m num = Ok m' ∧ num ≤ m' ∧ m ≤ m' ∧ (m' = m ∨ m' < 2 * num).
Proof.
  induction fuel as [|fuel IH]; intros m num Hm Hn Hmax; rewrite grow_max_S.
  { rewrite Z.pow_0_r in Hn. rewrite (proj2 (Z.ltb_ge m num)) by lia. exists m. split_and!; [done|lia|lia|by left]. }
  destruct (Z.ltb_spec m num) as [Hlt|Hge]; [|exists m; split_and!; [done|lia|lia|by left]].
  rewrite (proj2 (Z.eqb_neq m 0)), u32_id by lia.
  destruct (IH (m * 2) num) as (m' & E & H1 & H2 & H3); [lia| |lia|].
  { rewrite Nat2Z.inj_succ, Z.pow_succ_r in Hn by lia. lia. }
  exists m'. split_and!; [exact E|lia|lia|]. right. lia.
Qed.

Lemma grow_max_33 m num : 0 ≤ m < num → num ≤ 536870912 →
  ∃ m', grow_max 33 m num = Ok m' ∧ num ≤ m' < 1073741824.
Proof.
  intros Hm Hn. destruct (decide (m = 0)) as [->|Hne].
  - rewrite grow_max_S, (proj2 (Z.ltb_lt 0 num)), Z.eqb_refl by lia.
    assert (num ≤ 4 * 2 ^ Z.of_nat 31) as Hb by (change (2 ^ Z.of_nat 31) with 2147483648; lia).
    destruct (grow_max_ok 31 4 num eq_refl Hb Hn) as (m' & E & H1 & H2 & H3). clear Hb. exists m'. split; [done|lia].
  - assert (num ≤ m * 2 ^ Z.of_nat 32) as Hb by (change (2 ^ Z.of_nat 32) with 4294967296; lia).
    assert (0 < m) as Hm0 by lia. destruct (grow_max_ok 32 m num Hm0 Hb Hn) as (m' & E & H1 & H2 & H3). clear Hb.
    exists m'. split; [done|lia].
Qed.

Lemma wp_array_add a l h v : arr_rep a l → Z.of_nat (length l) < 536870912 →
  wp (array_add v) (λ r h', match r with
    | inr i => i = Z.of_nat (length l) ∧ arr_rep (a_arr h') (l ++ [v]) ∧ (a_heap h' = h ∨ a_heap h' = tail h)
    | inl e => e = ENOMEM ∧ a_arr h' = a ∧ a_max a = Z.of_nat (length l) ∧ (∀ x h0, h ≠ Some x :: h0) ∧
        a_heap h' = tail h
    end) (AHeap a h).
Proof.
  intros Hr Hl. pose proof Hr as [R1 R2 R3 R4]. pose proof (arr_rep_cells _ _ Hr) as Ec. unfold array_add, array_num. wp_steps. simpl.
  rewrite u32_id by lia. unfold array_setsize. wp_steps. simpl. rewrite R1.
  assert (∀ (cells : list (option Z)) m h', m < 1073741824 → Z.of_nat (length l) < m → Z.of_nat (length cells) = m → take (length l) cells = Some <$> l →
    wp (array_store (Z.of_nat (length l)) v) (λ _ h'', arr_rep (a_arr h'') (l ++ [v]) ∧ a_heap h'' = h')
      (AHeap (Array cells (Z.of_nat (length l) + 1) m) h')) as Hst.
  { intros cells m h' Hm Hlm Hc Ht. unfold array_store. wp_steps. eapply wp_of_opt; [simpl; apply zset_Some; lia|]. unfold put_arr. wp_steps. simpl.
    split; [|done]. constructor; simpl; rewrite ?length_app, ?length_insert; simpl; try lia.
    rewrite Nat2Z.id. rewrite fmap_app. simpl. rewrite <-Ht. replace (length l + 1)%nat with (S (length l)) by lia.
    erewrite take_S_r by (apply list_lookup_insert_eq; lia). by rewrite take_insert_ge by lia. }
  destruct (Z.ltb_spec (a_max a) (Z.of_nat (length l) + 1)) as [Hlt|Hge].
  - destruct (grow_max_33 (a_max a) (Z.of_nat (length l) + 1)) as (m & E & Hm); [lia|lia|]. rewrite E.
    wp_steps. unfold wp at 1. cbn [of_res]. destruct h as [|[x|] h]; wp_steps.
    + split_and!; [done..|lia|done|done].
    + rewrite (u32_id (m * 4)), Z.div_mul by lia. rewrite (proj2 (Z.leb_le _ _)) by lia. wp_steps. simpl.
      eapply wp_mono; [apply Hst; [lia|lia| |]|].
      * rewrite length_app, length_take, length_replicate. lia.
      * rewrite Nat2Z.id, R4. rewrite take_app_le by (rewrite length_fmap; lia). rewrite take_ge by (rewrite length_fmap; lia). done.
      * intros [] h' [H E']. wp_steps. split_and!; [done|done|by right].
    + split_and!; [done..|lia|done|done].
  - unfold put_arr. wp_steps. simpl. eapply wp_mono; [apply Hst; [lia|lia|done|done]|].
    intros [] h' [H E']. wp_steps. split_and!; [done|done|by left].
Qed.

Section reads.
Context (a : array) (l : list Z) (h : list (option Z)).
Hypothesis Hr : arr_rep a l.

Lemma array_get_spec i : 0 ≤ i →
  array_get i (AHeap a h) = match zget l i with Some x => Ok (x, AHeap a h) | None => Panic end.
Proof using Hr.
  intros Hi. pose proof Hr as [R1 R2 R3 R4]. unfold array_get, mbind, M_bind, getS. simpl. rewrite R1.
  destruct (zget l i) as [x|] eqn:E.
  - apply zget_Some in E as [_ E]. pose proof (lookup_lt_Some _ _ _ E). rewrite (proj2 (Z.ltb_lt _ _)) by lia.
    unfold kassert, mret, M_ret, zget. rewrite (proj2 (Z.leb_le 0 i)), (arr_rep_cells _ _ Hr) by lia.
    rewrite lookup_app_l by (rewrite length_fmap; lia). rewrite list_lookup_fmap, E. done.
  - apply zget_None in E. by rewrite (proj2 (Z.ltb_ge _ _)) by lia.
Qed.

Lemma array_set_spec i v : 0 ≤ i →
  match zset i v l with
  | Some l' => ∃ a', array_set i v (AHeap a h) = Ok (tt, AHeap a' h) ∧ arr_rep a' l'
  | None => array_set i v (AHeap a h) = Panic
  end.
Proof using Hr.
  intros Hi. pose proof Hr as [R1 R2 R3 R4]. unfold array_set, array_store, mbind, M_bind, getS. simpl. rewrite R1.
  destruct (Z.ltb_spec i (Z.of_nat (length l))) as [Hlt|Hge].
  2:{ unfold zset at 1. by rewrite (proj2 (Z.leb_le 0 i)), (proj2 (Z.ltb_ge i (Z.of_nat (length l)))) by lia. }
  unfold kassert, mret, M_ret. rewrite (zset_Some l), (zset_Some (a_v a)) by lia. simpl. unfold put_arr, modify. simpl. eexists. split; [done|].
  constructor; simpl; rewrite ?length_insert; try done; try lia.
  rewrite list_fmap_insert, <-R4. by rewrite take_insert_lt by lia.
Qed.

Lemma array_remove_spec i : 0 ≤ i →
  if decide (i < Z.of_nat (length l))
  then ∃ a', array_remove i (AHeap a h) = Ok (tt, AHeap a' h) ∧ arr_rep a' (delete (Z.to_nat i) l)
  else array_remove i (AHeap a h) = Panic.
Proof using Hr.
  intros Hi. pose proof Hr as [R1 R2 R3 R4]. unfold array_remove, mbind, M_bind, getS. simpl.
  rewrite (proj2 (Z.leb_le _ _)) by lia. rewrite R1. case_decide as Hlt.
  - rewrite (proj2 (Z.ltb_lt _ _)) by lia. unfold kassert, mret, M_ret, put_arr, modify. simpl. eexists. split; [done|].
    rewrite Nat2Z.id. set (k := Z.to_nat i). assert (k < length l)%nat as Hk by lia.
    assert (length (delete k l) = length l - 1)%nat as Hdl by (rewrite length_delete; [lia|by apply lookup_lt_is_Some]).
    constructor; simpl; rewrite ?Hdl.
    + lia.
    + lia.
    + rewrite !length_app, !length_take, !length_drop. lia.
    + rewrite app_assoc, take_app_le by (rewrite length_app, !length_take, length_drop; lia).
      rewrite take_ge by (rewrite length_app, !length_take, length_drop; lia).
      rewrite delete_take_drop, fmap_app, fmap_take, fmap_drop, <-R4, take_take, Nat.min_l by lia. f_equal.
      rewrite take_drop_commute. f_equal; [lia|]. f_equal. lia.
  - by rewrite (proj2 (Z.ltb_ge _ _)) by lia.
Qed.
End reads.

(** An array is a list of pointers: a new one is empty; [array_get] and
    [array_set] read and replace an element and fail an assertion outside the
    array; [array_add] appends, or says [ENOMEM] and changes nothing, which happens
    only when the block is full and the heap gives no new one; [array_remove] takes
    an element out and closes the gap. *)
Theorem arrays_refine_lists : arr_rep array_init [] ∧ ∀ a l h, arr_rep a l →
  (∀ i, 0 ≤ i → array_get i (AHeap a h) = match zget l i with Some x => Ok (x, AHeap a h) | None => Panic end) ∧
  (∀ i v, 0 ≤ i → match zset i v l with
    | Some l' => ∃ a', array_set i v (AHeap a h) = Ok (tt, AHeap a' h) ∧ arr_rep a' l'
    | None => array_set i v (AHeap a h) = Panic end) ∧
  (∀ i, 0 ≤ i → if decide (i < Z.of_nat (length l))
    then ∃ a', array_remove i (AHeap a h) = Ok (tt, AHeap a' h) ∧ arr_rep a' (delete (Z.to_nat i) l)
    else array_remove i (AHeap a h) = Panic) ∧
  (∀ v, Z.of_nat (length l) < 536870912 →
    (∃ a' h', array_add v (AHeap a h) = Ok (inr (Z.of_nat (length l)), AHeap a' h') ∧ arr_rep a' (l ++ [v])) ∨
    (array_add v (AHeap a h) = Ok (inl ENOMEM, AHeap a (tail h)) ∧ a_max a = Z.of_nat (length l) ∧
      ∀ x h0, h ≠ Some x :: h0)).
Proof.
  split; [by constructor|]. intros a l h Hr.
  split_and!; [intros i; by apply array_get_spec|intros i v; by apply array_set_spec|intros i; by apply array_remove_spec|].
  intros v Hl. pose proof (wp_array_add a l h v Hr Hl) as (r & [a' h'] & E & H)%wp_exists. destruct r as [e|i].
  - destruct H as (-> & H1 & H2 & H3 & H4). simpl in *. subst. right. done.
  - destruct H as (-> & H & _). left. by exists a', h'.
Qed.

(** The loop of [array_setsize] that doubles the capacity never ends when more than
    2^31 elements are asked for: 2^31 doubled is 0. *)
Lemma setsize_loops num : 2147483648 < num → ∀ fuel, grow_max fuel 0 num = Diverge.
Proof.
  intros Hn fuel. assert (∀ m, m = 0 ∨ (∃ k : nat, (k ≤ 29)%nat ∧ m = 4 * 2 ^ Z.of_nat k) → grow_max fuel m num = Diverge) as H; [|by apply H; left].
  induction fuel as [|fuel IH]; intros m Hm; [done|]. rewrite grow_max_S.
  assert (∀ k : nat, (k ≤ 29)%nat → 0 < 2 ^ Z.of_nat k ≤ 536870912) as Hp.
  { intros k Hk. split; [lia|]. change 536870912 with (2 ^ 29). apply Z.pow_le_mono_r; lia. }
  destruct Hm as [->|(k & Hk & ->)].
  - rewrite (proj2 (Z.ltb_lt 0 num)), Z.eqb_refl by lia. apply IH. right. exists 0%nat. split; [lia|done].
  - specialize (Hp k Hk). rewrite (proj2 (Z.ltb_lt _ num)), (proj2 (Z.eqb_neq _ 0)) by lia. apply IH.
    destruct (decide (k = 29)%nat) as [->|]; [by left|]. right. exists (S k). split; [lia|].
    rewrite Nat2Z.inj_succ, Z.pow_succ_r by lia. assert (2 ^ Z.of_nat k ≤ 268435456).
    { change 268435456 with (2 ^ 28). apply Z.pow_le_mono_r; lia. }
    rewrite u32_id; lia.
Qed.

Lemma arrays_refine_lists_witness :
  ∃ a' h', array_add 7 (AHeap array_init [Some 100]) = Ok (inr 0, AHeap a' h') ∧ arr_rep a' [7].
Proof.
  destruct (proj2 (proj2 (proj2 (proj2 arrays_refine_lists array_init [] [Some 100] (proj1 arrays_refine_lists)))) 7)
    as [H|(_ & _ & H)]; [simpl; lia|exact H|]. destruct (H 100 []). done.
Defined.
