(* ===== verification/Bswap.v ===== *)
(** Byte order: [kern/lib/bswap.c]. The machine is big-endian. *)

From stdpp Require Import base tactics numbers list.
From S2P Require Import Prelude.
Local Open Scope Z_scope.

Definition bswap16 (val : Z) : Z :=
  u16 (Z.lor (Z.shiftl (Z.land val 0x00ff) 8) (Z.shiftr (Z.land val 0xff00) 8)).
Definition bswap32 (val : Z) : Z :=
  Z.lor (Z.lor (Z.lor (u32 (Z.shiftl (Z.land val 0x000000ff) 24)) (u32 (Z.shiftl (Z.land val 0x0000ff00) 8)))
    (Z.shiftr (Z.land val 0x00ff0000) 8)) (Z.shiftr (Z.land val 0xff000000) 24).
Definition bswap64 (val : Z) : Z :=
  Z.lor (Z.lor (Z.lor (Z.lor (Z.lor (Z.lor (Z.lor
    (u64 (Z.shiftl (Z.land val 0x00000000000000ff) 56))
    (u64 (Z.shiftl (Z.land val 0x000000000000ff00) 40)))
    (u64 (Z.shiftl (Z.land val 0x0000000000ff0000) 24)))
    (u64 (Z.shiftl (Z.land val 0x00000000ff000000) 8)))
    (u64 (Z.shiftl (Z.land val 0x000000ff00000000) 8)))
    (u64 (Z.shiftl (Z.land val 0x0000ff0000000000) 24)))
    (Z.shiftr (Z.land val 0x00ff000000000000) 40))
    (Z.shiftr (Z.land val 0xff00000000000000) 56).

(** [ntoh] and [hton] for each size. *)
Definition ntoh (val : Z) : Z := val.
Definition hton (val : Z) : Z := val.

Definition join32to64 (x1 x2 : Z) : Z := Z.lor (u64 (Z.shiftl x1 32)) x2.
Definition split64to32 (x : Z) : Z * Z := (u32 (Z.shiftr x 32), u32 (Z.land x 0xffffffff)).

(** * Bits *)
(** Byte [i] of a number, from the least significant. *)
Definition byte (i v : Z) : Z := Z.shiftr v (8 * i) mod 256.

Lemma wrapu_bits w x n : 0 ≤ w → 0 ≤ n → Z.testbit (wrapu w x) n = (n <? w) && Z.testbit x n.
Proof.
  intros Hw Hn. unfold wrapu. destruct (Z.ltb_spec n w); [by rewrite Z.mod_pow2_bits_low|by rewrite Z.mod_pow2_bits_high by lia].
Qed.
Lemma byte_bits i v n : 0 ≤ i → 0 ≤ n → Z.testbit (byte i v) n = (n <? 8) && Z.testbit v (n + 8 * i).
Proof.
  intros Hi Hn. unfold byte. change 256 with (2 ^ 8). destruct (Z.ltb_spec n 8); [rewrite Z.mod_pow2_bits_low by done; by rewrite Z.shiftr_spec|by rewrite Z.mod_pow2_bits_high by lia].
Qed.
Lemma high_bits w v n : 0 ≤ v < 2 ^ w → w ≤ n → 0 ≤ w → Z.testbit v n = false.
Proof. intros Hv Hn Hw. rewrite <-(Z.mod_small v (2 ^ w)) by lia. by rewrite Z.mod_pow2_bits_high by lia. Qed.
Lemma case_range (n k : Z) (P : Z → Prop) : 0 ≤ n < k → Forall P (seqZ 0 k) → P n.
Proof. intros Hn H. eapply Forall_forall; [exact H|]. apply elem_of_seqZ. lia. Qed.
(** One case for each [n] below [k]. *)
Ltac each_bit n k Hn :=
  pattern n; apply (case_range n k _ Hn);
  let l := eval vm_compute in (seqZ 0 k) in change (seqZ 0 k) with l;
  repeat (constructor; [cbv beta; rewrite ?wrapu_bits, ?Z.lor_spec, ?wrapu_bits, ?Z.shiftl_spec, ?Z.shiftr_spec, ?Z.land_spec by lia;
    cbn; rewrite ?andb_false_r, ?andb_true_r, ?orb_false_r; try reflexivity|]); constructor.

Lemma bswap16_bits v n : 0 ≤ n < 16 → Z.testbit (bswap16 v) n = Z.testbit v (8 * (1 - n / 8) + n mod 8).
Proof. intros Hn. unfold bswap16. each_bit n 16 Hn. Qed.
Lemma bswap32_bits v n : 0 ≤ n < 32 → Z.testbit (bswap32 v) n = Z.testbit v (8 * (3 - n / 8) + n mod 8).
Proof. intros Hn. unfold bswap32. each_bit n 32 Hn. Qed.

(** From bits to bytes. *)
Section reversed.
Context (k : Z) (f : Z → Z).
Hypothesis (Hk : 0 < k) (Hf : ∀ v n, 0 ≤ n < 8 * k → Z.testbit (f v) n = Z.testbit v (8 * (k - 1 - n / 8) + n mod 8)).
Hypothesis (Hr : ∀ v, 0 ≤ v < 2 ^ (8 * k) → 0 ≤ f v < 2 ^ (8 * k)).
Lemma bytes_reversed v i : 0 ≤ i < k → byte i (f v) = byte (k - 1 - i) v.
Proof using Hf.
  intros Hi. apply Z.bits_inj'. intros n Hn. rewrite !byte_bits by lia. destruct (Z.ltb_spec n 8) as [Hlt|]; [|done]. cbn [andb]. rewrite Hf by lia. f_equal.
  pose proof (Z.div_mod (n + 8 * i) 8 ltac:(lia)). pose proof (Z.mod_pos_bound (n + 8 * i) 8 ltac:(lia)). lia.
Qed.
Lemma reversed_twice v : 0 ≤ v < 2 ^ (8 * k) → f (f v) = v.
Proof using All.
  intros Hv. apply Z.bits_inj'. intros n Hn. destruct (Z.ltb_spec n (8 * k)).
  - pose proof (Z.div_mod n 8 ltac:(lia)) as E. pose proof (Z.mod_pos_bound n 8 ltac:(lia)) as B. rewrite Hf by lia. set (n' := 8 * (k - 1 - n / 8) + n mod 8).
    assert (n' / 8 = k - 1 - n / 8 ∧ n' mod 8 = n mod 8) as [E1 E2].
    { unfold n'. rewrite Z.add_comm, Z.mul_comm. rewrite Z.div_add, Z.mod_add by lia. rewrite (Z.div_small (n mod 8)), Z.mod_mod by lia. lia. }
    rewrite Hf by lia. f_equal. lia.
  - rewrite (high_bits (8 * k) v), (high_bits (8 * k) (f (f v))) by (lia || auto). done.
Qed.
End reversed.
Lemma lor_lt a b w : 0 ≤ w → 0 ≤ a < 2 ^ w → 0 ≤ b < 2 ^ w → 0 ≤ Z.lor a b < 2 ^ w.
Proof.
  intros Hw Ha Hb. assert (Z.lor a b = wrapu w (Z.lor a b)) as ->; [|by apply wrapu_range]. apply Z.bits_inj'. intros n Hn. rewrite wrapu_bits, Z.lor_spec by done.
  destruct (Z.ltb_spec n w); [done|]. by rewrite (high_bits w a), (high_bits w b).
Qed.
Lemma land_shiftr_lt v m s w : 0 ≤ s → 0 ≤ w → 0 ≤ m < 2 ^ w → 0 ≤ Z.shiftr (Z.land v m) s < 2 ^ w.
Proof.
  intros Hs Hw Hm. assert (Z.shiftr (Z.land v m) s = wrapu w (Z.shiftr (Z.land v m) s)) as ->; [|by apply wrapu_range].
  apply Z.bits_inj'. intros n Hn. rewrite wrapu_bits, Z.shiftr_spec, Z.land_spec by done. destruct (Z.ltb_spec n w); [done|]. by rewrite (high_bits w m), andb_false_r by lia.
Qed.
Lemma bswap32_range v : 0 ≤ bswap32 v < 2 ^ 32.
Proof. unfold bswap32. repeat apply lor_lt; try done; try (by apply wrapu_range); apply land_shiftr_lt; done. Qed.

Lemma join_split x : 0 ≤ x < 2 ^ 64 → join32to64 (split64to32 x).1 (split64to32 x).2 = x.
Proof.
  intros Hx. unfold join32to64, split64to32. cbn [fst snd]. change 0xffffffff with (Z.ones 32). rewrite Z.land_ones by done. apply Z.bits_inj'. intros n Hn.
  rewrite Z.lor_spec, !wrapu_bits, Z.shiftl_spec by done. destruct (Z.ltb_spec n 64); [|rewrite (high_bits 64 x) by lia; destruct (Z.ltb_spec n 32); [lia|done]].
  cbn [andb]. destruct (Z.ltb_spec n 32); cbn [andb].
  - rewrite Z.testbit_neg_r, Z.mod_pow2_bits_low by lia. done.
  - rewrite wrapu_bits, Z.shiftr_spec by lia. rewrite (proj2 (Z.ltb_lt _ _)) by lia. cbn [andb]. rewrite orb_false_r. f_equal. lia.
Qed.
Lemma split_join x1 x2 : 0 ≤ x1 < 2 ^ 32 → 0 ≤ x2 < 2 ^ 32 → split64to32 (join32to64 x1 x2) = (x1, x2).
Proof.
  intros H1 H2. unfold join32to64, split64to32. change 0xffffffff with (Z.ones 32). rewrite Z.land_ones by done. f_equal; apply Z.bits_inj'; intros n Hn.
  - rewrite wrapu_bits, Z.shiftr_spec, Z.lor_spec, wrapu_bits, Z.shiftl_spec by lia. rewrite (high_bits 32 x2), orb_false_r by lia.
    replace (n + 32 - 32) with n by lia. destruct (Z.ltb_spec n 32); [by rewrite (proj2 (Z.ltb_lt _ _)) by lia|]. by rewrite (high_bits 32 x1) by lia.
  - rewrite wrapu_bits by lia. destruct (Z.ltb_spec n 32); [|by rewrite (high_bits 32 x2) by lia]. rewrite Z.mod_pow2_bits_low, Z.lor_spec, wrapu_bits, Z.shiftl_spec by lia.
    rewrite Z.testbit_neg_r by lia. by rewrite andb_false_r.
Qed.
(** Nothing arrives in bytes 2 and 3 of [bswap64]. *)
Lemma bswap64_hole v n : 0 ≤ n < 8 → Z.testbit (bswap64 v) (n + 8 * 2) = false.
Proof. intros Hn. unfold bswap64. each_bit n 8 Hn. Qed.
(** Byte 5 is shifted out. *)
Lemma bswap64_drops b : 0 ≤ b < 256 → bswap64 (b * 2 ^ 40) = 0.
Proof. intros Hb. apply (case_range b 256 (λ b, bswap64 (b * 2 ^ 40) = 0) Hb), (bool_decide_unpack _). by vm_compute. Qed.

(** [bswap16] and [bswap32] reverse the bytes of a number and undo themselves, and
    [split64to32] and [join32to64] undo each other; but [bswap64] does neither: it throws away
    byte 5 and puts byte 4 in the place of byte 5. *)
Theorem bswap_reverses_bytes :
  (∀ v i, 0 ≤ i < 2 → byte i (bswap16 v) = byte (1 - i) v) ∧ (∀ v, 0 ≤ v < 2 ^ 16 → bswap16 (bswap16 v) = v) ∧
  (∀ v i, 0 ≤ i < 4 → byte i (bswap32 v) = byte (3 - i) v) ∧ (∀ v, 0 ≤ v < 2 ^ 32 → bswap32 (bswap32 v) = v) ∧
  (∀ x, 0 ≤ x < 2 ^ 64 → join32to64 (split64to32 x).1 (split64to32 x).2 = x) ∧
  (∀ x1 x2, 0 ≤ x1 < 2 ^ 32 → 0 ≤ x2 < 2 ^ 32 → split64to32 (join32to64 x1 x2) = (x1, x2)) ∧
  (∀ v, byte 2 (bswap64 v) = 0) ∧ ∀ b, 0 ≤ b < 256 → bswap64 (b * 2 ^ 40) = 0.
Proof.
  split_and!.
  - intros v i Hi. apply (bytes_reversed 2); [apply bswap16_bits|lia].
  - intros v Hv. apply (reversed_twice 2); [lia|apply bswap16_bits| |done]. intros x _. by apply wrapu_range.
  - intros v i Hi. apply (bytes_reversed 4); [apply bswap32_bits|lia].
  - intros v Hv. apply (reversed_twice 4); [lia|apply bswap32_bits| |done]. intros x _. apply bswap32_range.
  - apply join_split.
  - apply split_join.
  - intros v. apply Z.bits_inj'. intros n Hn. rewrite byte_bits, Z.bits_0 by lia. destruct (Z.ltb_spec n 8); [|done]. by rewrite bswap64_hole by lia.
  - intros b Hb. apply bswap64_drops. lia.
Qed.
Lemma bswap_reverses_bytes_witness : bswap32 0x11223344 = 0x44332211 ∧ bswap32 (bswap32 0x11223344) = 0x11223344.
Proof. split; [reflexivity|]. destruct bswap_reverses_bytes as (_ & _ & _ & H & _). apply H. lia. Defined.
