(* ===== verification/Sfs.v ===== *)
(** The simple file system, file level: [kern/fs/sfs/sfs_vnode.c] (block map, file
    I/O, truncation, inodes) and [kern/fs/sfs/sfs_io.c] over the disk driver
    [kern/dev/lamebus/lhd.c].

    The disk is an array of bytes. The disk hardware is a parameter: [s_hw] holds
    the outcomes of its coming operations, and every operation succeeds once the
    list is used up. The big lock of the virtual file system is held in all these
    functions and is left out. The static buffers [idbuf] and [iobuf] are local
    values. *)

From stdpp Require Import base tactics numbers list gmap.
From S2P Require Import Prelude KernDefs CopyInOut Bitmap Uio Array.
Local Open Scope Z_scope.

Definition SFS_BLOCKSIZE : Z := 512.
Definition SFS_NDIRECT : Z := 15.
Definition SFS_DBPERIDB : Z := 128.
Definition SFS_TYPE_INVAL : Z := 0.
Definition SFS_TYPE_FILE : Z := 1.
Definition SFS_TYPE_DIR : Z := 2.
Definition LHD_SECTSIZE : Z := 512.

Record sfs_inode := Inode {
  sfi_size : Z;
  sfi_type : Z;
  sfi_linkcount : Z;
  sfi_direct : list Z;
  sfi_indirect : Z;
  sfi_waste : list Z;               (* bytes *)
}.
Definition set_size (n : Z) (i : sfs_inode) : sfs_inode :=
  Inode n (sfi_type i) (sfi_linkcount i) (sfi_direct i) (sfi_indirect i) (sfi_waste i).
Definition set_direct (l : list Z) (i : sfs_inode) : sfs_inode :=
  Inode (sfi_size i) (sfi_type i) (sfi_linkcount i) l (sfi_indirect i) (sfi_waste i).
Definition set_indirect (b : Z) (i : sfs_inode) : sfs_inode :=
  Inode (sfi_size i) (sfi_type i) (sfi_linkcount i) (sfi_direct i) b (sfi_waste i).
Definition set_linkcount (n : Z) (i : sfs_inode) : sfs_inode :=
  Inode (sfi_size i) (sfi_type i) n (sfi_direct i) (sfi_indirect i) (sfi_waste i).

Definition set_type (n : Z) (i : sfs_inode) : sfs_inode :=
  Inode (sfi_size i) n (sfi_linkcount i) (sfi_direct i) (sfi_indirect i) (sfi_waste i).

Record sfs_vnode := SfsVnode {
  sv_i : sfs_inode;
  sv_ino : Z;
  sv_dirty : bool;
  vn_refcount : Z;
  vn_opencount : Z;
}.
(** Changing the inode marks it dirty. *)
Definition upd_inode (f : sfs_inode → sfs_inode) (v : sfs_vnode) : sfs_vnode :=
  SfsVnode (f (sv_i v)) (sv_ino v) true (vn_refcount v) (vn_opencount v).

Record sfs := Sfs {
  s_mem : xmem;                     (* the memory [uio]s point to *)
  s_disk : Z → Z;
  s_hw : list (option errno);       (* [None]: the operation succeeds *)
  d_blocks : Z;                     (* sectors of the device *)
  sp_nblocks : Z;                   (* blocks of the file system *)
  sfs_freemap : bitmap;
  sfs_freemapdirty : bool;
  vnodes : gmap Z sfs_vnode;        (* loaded vnodes, by address *)
  sfs_vnodes : array;               (* the table of their addresses *)
  s_heap : list (option Z);         (* what the kernel heap will answer *)
}.
Definition set_mem (m : xmem) (s : sfs) : sfs :=
  Sfs m (s_disk s) (s_hw s) (d_blocks s) (sp_nblocks s) (sfs_freemap s) (sfs_freemapdirty s) (vnodes s)
    (sfs_vnodes s) (s_heap s).
Definition set_disk (d : Z → Z) (h : list (option errno)) (s : sfs) : sfs :=
  Sfs (s_mem s) d h (d_blocks s) (sp_nblocks s) (sfs_freemap s) (sfs_freemapdirty s) (vnodes s)
    (sfs_vnodes s) (s_heap s).
Definition set_freemap (b : bitmap) (d : bool) (s : sfs) : sfs :=
  Sfs (s_mem s) (s_disk s) (s_hw s) (d_blocks s) (sp_nblocks s) b d (vnodes s)
    (sfs_vnodes s) (s_heap s).
Definition set_vnodes (m : gmap Z sfs_vnode) (s : sfs) : sfs :=
  Sfs (s_mem s) (s_disk s) (s_hw s) (d_blocks s) (sp_nblocks s) (sfs_freemap s) (sfs_freemapdirty s) m
    (sfs_vnodes s) (s_heap s).

Definition set_table (l : array) (s : sfs) : sfs :=
  Sfs (s_mem s) (s_disk s) (s_hw s) (d_blocks s) (sp_nblocks s) (sfs_freemap s) (sfs_freemapdirty s) (vnodes s)
    l (s_heap s).
Definition set_heap (h : list (option Z)) (s : sfs) : sfs :=
  Sfs (s_mem s) (s_disk s) (s_hw s) (d_blocks s) (sp_nblocks s) (sfs_freemap s) (sfs_freemapdirty s) (vnodes s)
    (sfs_vnodes s) h.

#[export] Instance sfs_mem : Sub sfs xmem.
Proof. refine {| sub_get := s_mem; sub_put := set_mem |}; by intros []. Defined.
#[export] Instance sfs_map : Sub sfs bitmap.
Proof. refine {| sub_get := sfs_freemap; sub_put b s := set_freemap b (sfs_freemapdirty s) s |}; by intros []. Defined.
#[export] Instance sfs_table : Sub sfs aheap.
Proof.
  refine {| sub_get s := AHeap (sfs_vnodes s) (s_heap s); sub_put h s := set_heap (a_heap h) (set_table (a_arr h) s) |};
    by try intros [] []; try intros []; try intros [] [] [].
Defined.

Definition get_sv (p : Z) : M sfs sfs_vnode := s ← getS; of_opt (vnodes s !! p).
Definition put_sv (p : Z) (v : sfs_vnode) : M sfs unit := modify (λ s, set_vnodes (<[p := v]> (vnodes s)) s).

(** ** The disk driver *)
(** One sector operation of the hardware, on the on-card buffer [buf]: the result
    code and the buffer afterwards. *)
Definition hw_op (rw : uio_rw) (sector : Z) (buf : list Z) : M sfs (option errno * list Z) :=
  s ← getS;
  match s_hw s with
  | Some e :: h => putS (set_disk (s_disk s) h s);; mret (Some e, buf)
  | h =>
      match rw with
      | UIO_READ => putS (set_disk (s_disk s) (tail h) s);; mret (None, kget (s_disk s) (sector * LHD_SECTSIZE) LHD_SECTSIZE)
      | UIO_WRITE => putS (set_disk (kput (s_disk s) (sector * LHD_SECTSIZE) buf) (tail h) s);; mret (None, buf)
      end
  end.

Definition lhd_uiomove (buf : list Z) (u : uio) : M sfs (option errno * list Z * uio) :=
  zoom (uiomove buf LHD_SECTSIZE u).

(** The loop over the sectors; the buffer is handed from one to the next. *)
Fixpoint lhd_sectors (n : nat) (sector : Z) (buf : list Z) (u : uio) : M sfs (option errno * uio) :=
  match n with
  | O => mret (None, u)
  | S n =>
      '(r, buf, u) ← (match uio_rw_ u with
                      | UIO_WRITE => lhd_uiomove buf u
                      | UIO_READ => mret (None, buf, u)
                      end);
      match r with
      | Some e => mret (Some e, u)
      | None =>
          '(r, buf) ← hw_op (uio_rw_ u) sector buf;
          '(r, buf, u) ← (match r, uio_rw_ u with
                          | None, UIO_READ => lhd_uiomove buf u
                          | _, _ => mret (r, buf, u)
                          end);
          match r with
          | Some e => mret (Some e, u)
          | None => lhd_sectors n (sector + 1) buf u
          end
      end
  end.

Definition lhd_io (u : uio) : M sfs (option errno * uio) :=
  s ← getS;
  let sector := u32 (uio_offset u / LHD_SECTSIZE) in
  let sectoff := uio_offset u mod LHD_SECTSIZE in
  let len := uio_resid u / LHD_SECTSIZE in
  let lenoff := uio_resid u mod LHD_SECTSIZE in
  if negb (sectoff =? 0) || negb (lenoff =? 0) then mret (Some EINVAL, u)
  else if d_blocks s <? u32 (sector + len) then mret (Some EINVAL, u)
  else lhd_sectors (Z.to_nat len) sector (replicate (Z.to_nat LHD_SECTSIZE) 0) u.

(** ** Block I/O *)
(** [retries] is how often an I/O error is tried again. *)
Fixpoint rwblock_try (retries : nat) (u : uio) : M sfs (option errno * uio) :=
  '(r, u) ← lhd_io u;
  if decide (r = Some EINVAL) then panic
  else if decide (r = Some EIO) then
    match retries with
    | O => mret (r, u)
    | S retries => rwblock_try retries u
    end
  else mret (r, u).
Definition sfs_rwblock (u : uio) : M sfs (option errno * uio) := rwblock_try 10 u.

(** A kernel buffer of the caller, at address 0 of a memory of its own. *)
Definition with_kbuf {A} (buf : list Z) (m : M sfs A) : M sfs (A * list Z) :=
  s ← getS;
  let x := s_mem s in
  putS (set_mem (XMem (kput (λ _, 0) 0 buf) (x_user x) (x_space x)) s);;
  a ← m;
  s' ← getS;
  putS (set_mem (XMem (x_kern x) (x_user (s_mem s')) (x_space (s_mem s'))) s');;
  mret (a, kget (x_kern (s_mem s')) 0 SFS_BLOCKSIZE).

Definition SFSUIO (block : Z) (rw : uio_rw) : uio := uio_kinit 0 SFS_BLOCKSIZE (block * SFS_BLOCKSIZE) rw.

Definition sfs_rblock (block : Z) : M sfs (result (list Z)) :=
  '((r, _), buf) ← with_kbuf (replicate 512 0) (sfs_rwblock (SFSUIO block UIO_READ));
  mret (match r with Some e => inl e | None => inr buf end).
Definition sfs_wblock (data : list Z) (block : Z) : M sfs (option errno) :=
  '((r, _), _) ← with_kbuf data (sfs_rwblock (SFSUIO block UIO_WRITE));
  mret r.

Definition sfs_clearblock (block : Z) : M sfs (option errno) := sfs_wblock (replicate 512 0) block.

(** ** Space allocation *)
Definition sfs_balloc : M sfs (result Z) :=
  r ← zoom bitmap_alloc;
  match r with
  | inl e => mret (inl e)
  | inr diskblock =>
      s ← getS;
      putS (set_freemap (sfs_freemap s) true s);;
      if sp_nblocks s <=? diskblock then panic
      else
        r ← sfs_clearblock diskblock;
        mret (match r with Some e => inl e | None => inr diskblock end)
  end.

Definition sfs_bfree (diskblock : Z) : M sfs unit :=
  zoom (bitmap_unmark diskblock);;
  modify (λ s, set_freemap (sfs_freemap s) true s).

Definition sfs_bused (diskblock : Z) : M sfs bool :=
  s ← getS;
  if sp_nblocks s <=? diskblock then panic
  else
    r ← zoom (bitmap_isset diskblock);
    mret (negb (r =? 0)).

(** ** Words of a block, most significant byte first *)
Definition word_at (buf : list Z) (i : Z) : Z := bytes_word (take 4 (drop (Z.to_nat (4 * i)) buf)).
Definition set_word (i w : Z) (buf : list Z) : list Z :=
  take (Z.to_nat (4 * i)) buf ++ word_bytes w ++ drop (Z.to_nat (4 * i + 4)) buf.

(** ** Block map *)
(** The checks and the result at the end of [sfs_bmap]. *)
Definition bmap_done (block : Z) : M sfs (result Z) :=
  if block =? 0 then mret (inr 0)
  else
    b ← sfs_bused block;
    if (b : bool) then mret (inr block) else panic.

Definition bmap_direct (p fileblock : Z) (doalloc : bool) : M sfs (result Z) :=
  sv ← get_sv p;
  block ← of_opt (zget (sfi_direct (sv_i sv)) fileblock);
  if (block =? 0) && doalloc then
    r ← sfs_balloc;
    match r with
    | inl e => mret (inl e)
    | inr block =>
        sv ← get_sv p;
        l ← of_opt (zset fileblock block (sfi_direct (sv_i sv)));
        put_sv p (upd_inode (set_direct l) sv);;
        bmap_done block
    end
  else bmap_done block.

(** The part after the indirect block [idblock] is in [idbuf]. *)
Definition bmap_indirect (idblock idoff : Z) (idbuf : list Z) (doalloc : bool) : M sfs (result Z) :=
  let block := word_at idbuf idoff in
  if (block =? 0) && doalloc then
    r ← sfs_balloc;
    match r with
    | inl e => mret (inl e)
    | inr block =>
        r ← sfs_wblock (set_word idoff block idbuf) idblock;
        match r with
        | Some e => mret (inl e)
        | None => bmap_done block
        end
    end
  else bmap_done block.

Definition sfs_bmap (p fileblock : Z) (doalloc : bool) : M sfs (result Z) :=
  if fileblock <? SFS_NDIRECT then bmap_direct p fileblock doalloc
  else
    let fileblock := fileblock - SFS_NDIRECT in
    let idnum := fileblock / SFS_DBPERIDB in
    let idoff := fileblock mod SFS_DBPERIDB in
    if 0 <? idnum then mret (inl EFBIG)
    else
      sv ← get_sv p;
      let idblock := sfi_indirect (sv_i sv) in
      if (idblock =? 0) && negb doalloc then mret (inr 0)
      else if idblock =? 0 then
        r ← sfs_balloc;
        match r with
        | inl e => mret (inl e)
        | inr idblock =>
            sv ← get_sv p;
            put_sv p (upd_inode (set_indirect idblock) sv);;
            bmap_indirect idblock idoff (replicate 512 0) doalloc
        end
      else
        r ← sfs_rblock idblock;
        match r with
        | inl e => mret (inl e)
        | inr idbuf => bmap_indirect idblock idoff idbuf doalloc
        end.

(** ** File I/O *)
Definition is_write (u : uio) : bool := bool_decide (uio_rw_ u = UIO_WRITE).

(** [uiomove(iobuf+skipstart, len, uio)]: the buffer and the [uio] afterwards. *)
Definition iobuf_move (iobuf : list Z) (skip len : Z) (u : uio) : M sfs (option errno * list Z * uio) :=
  '(r, b, u) ← zoom (uiomove (drop (Z.to_nat skip) iobuf) len u);
  mret (r, take (Z.to_nat skip) iobuf ++ b, u).

Definition sfs_partialio (p : Z) (u : uio) (skipstart len : Z) : M sfs (option errno * uio) :=
  kassert (u32 (skipstart + len) <=? SFS_BLOCKSIZE);;
  let fileblock := u32 (uio_offset u / SFS_BLOCKSIZE) in
  r ← sfs_bmap p fileblock (is_write u);
  match r with
  | inl e => mret (Some e, u)
  | inr diskblock =>
      r ← (if diskblock =? 0 then
             kassert (negb (is_write u));; mret (inr (replicate 512 0))
           else sfs_rblock diskblock);
      match r with
      | inl e => mret (Some e, u)
      | inr iobuf =>
          '(r, iobuf, u) ← iobuf_move iobuf skipstart len u;
          match r with
          | Some e => mret (Some e, u)
          | None =>
              if is_write u then r ← sfs_wblock iobuf diskblock; mret (r, u)
              else mret (None, u)
          end
      end
  end.

Definition sfs_blockio (p : Z) (u : uio) : M sfs (option errno * uio) :=
  let fileblock := u32 (uio_offset u / SFS_BLOCKSIZE) in
  r ← sfs_bmap p fileblock (is_write u);
  match r with
  | inl e => mret (Some e, u)
  | inr diskblock =>
      if diskblock =? 0 then
        kassert (negb (is_write u));;
        zoom (uiomovezeros SFS_BLOCKSIZE u)
      else
        let saveoff := uio_offset u in
        let diskoff := u32 (diskblock * SFS_BLOCKSIZE) in
        kassert (SFS_BLOCKSIZE <=? uio_resid u);;
        let saveres := uio_resid u in
        '(r, u) ← sfs_rwblock (set_resid SFS_BLOCKSIZE (set_offset diskoff u));
        mret (r, set_resid (u32 (uio_resid u - SFS_BLOCKSIZE + saveres))
                   (set_offset (s64 (uio_offset u - diskoff + saveoff)) u))
  end.

Fixpoint io_blocks (n : nat) (p : Z) (u : uio) : M sfs (option errno * uio) :=
  match n with
  | O => mret (None, u)
  | S n =>
      '(r, u) ← sfs_blockio p u;
      match r with
      | Some e => mret (Some e, u)
      | None => io_blocks n p u
      end
  end.

(** From the leading partial block up to the label [out]. *)
Definition io_body (p : Z) (u : uio) : M sfs (option errno * uio) :=
  let blkoff := uio_offset u mod SFS_BLOCKSIZE in
  '(r, u) ← (if negb (blkoff =? 0) then
               let len := SFS_BLOCKSIZE - blkoff in
               sfs_partialio p u blkoff (if uio_resid u <? len then uio_resid u else len)
             else mret (None, u));
  match r with
  | Some e => mret (Some e, u)
  | None =>
      if uio_resid u =? 0 then mret (None, u)
      else
        kassert (uio_offset u mod SFS_BLOCKSIZE =? 0);;
        '(r, u) ← io_blocks (Z.to_nat (uio_resid u / SFS_BLOCKSIZE)) p u;
        match r with
        | Some e => mret (Some e, u)
        | None =>
            kassert (uio_resid u <? SFS_BLOCKSIZE);;
            if 0 <? uio_resid u then sfs_partialio p u 0 (uio_resid u) else mret (None, u)
        end
  end.

Definition sfs_io (p : Z) (u : uio) : M sfs (option errno * uio) :=
  sv ← get_sv p;
  let size := sfi_size (sv_i sv) in
  let endpos := s64 (uio_offset u + uio_resid u) in
  if negb (is_write u) && (size <=? uio_offset u) then mret (None, u)
  else
    let extraresid := if negb (is_write u) && (size <? endpos) then u32 (endpos - size) else 0 in
    kassert ((extraresid =? 0) || (extraresid <? uio_resid u));;
    '(r, u) ← io_body p (set_resid (uio_resid u - extraresid) u);
    sv ← get_sv p;
    (if is_write u && (sfi_size (sv_i sv) <? uio_offset u)
     then put_sv p (upd_inode (set_size (u32 (uio_offset u))) sv) else mret tt);;
    mret (r, set_resid (u32 (uio_resid u + extraresid)) u).

Definition sfs_read (p : Z) (u : uio) : M sfs (option errno * uio) :=
  kassert (negb (is_write u));; sfs_io p u.
Definition sfs_write (p : Z) (u : uio) : M sfs (option errno * uio) :=
  kassert (is_write u);; sfs_io p u.

(** ** Truncation *)
Fixpoint trunc_direct (l : list Z) (i blocklen : Z) : M sfs (list Z) :=
  match l with
  | [] => mret []
  | block :: l =>
      b ← (if (blocklen <=? i) && negb (block =? 0) then sfs_bfree block;; mret 0 else mret block);
      l ← trunc_direct l (i + 1) blocklen;
      mret (b :: l)
  end.

(** The loop over the indirect block; hands back the block and whether anything is
    left in it and whether it changed. *)
Fixpoint trunc_indirect (n : nat) (j blocklen : Z) (idbuf : list Z) (hasnonzero iddirty : bool) :
    M sfs (list Z * bool * bool) :=
  match n with
  | O => mret (idbuf, hasnonzero, iddirty)
  | S n =>
      '(idbuf, iddirty) ← (if (blocklen <? SFS_NDIRECT + j) && negb (word_at idbuf j =? 0)
                           then sfs_bfree (word_at idbuf j);; mret (set_word j 0 idbuf, true)
                           else mret (idbuf, iddirty));
      trunc_indirect n (j + 1) blocklen idbuf (if word_at idbuf j =? 0 then hasnonzero else true) iddirty
  end.

Definition sfs_truncate (p len : Z) : M sfs (option errno) :=
  let blocklen := u32 ((len + SFS_BLOCKSIZE - 1) / SFS_BLOCKSIZE) in
  sv ← get_sv p;
  l ← trunc_direct (sfi_direct (sv_i sv)) 0 blocklen;
  (if bool_decide (l = sfi_direct (sv_i sv)) then mret tt else put_sv p (upd_inode (set_direct l) sv));;
  sv ← get_sv p;
  let idblock := sfi_indirect (sv_i sv) in
  let highblock := SFS_NDIRECT + SFS_DBPERIDB - 1 in
  r ← (if (blocklen <? highblock) && negb (idblock =? 0) then
         r ← sfs_rblock idblock;
         match r with
         | inl e => mret (Some e)
         | inr idbuf =>
             '(idbuf, hasnonzero, iddirty) ← trunc_indirect 128 0 blocklen idbuf false false;
             if negb (hasnonzero : bool) then
               sfs_bfree idblock;; put_sv p (upd_inode (set_indirect 0) sv);; mret None
             else if (iddirty : bool) then sfs_wblock idbuf idblock
             else mret None
         end
       else mret None);
  match r with
  | Some e => mret (Some e)
  | None =>
      sv ← get_sv p;
      put_sv p (upd_inode (set_size (u32 len)) sv);;
      mret None
  end.
