(* ===== verification/SfsInv.v ===== *)
(** Blocks of the simple file system: reading and writing them, the words of an
    indirect block, which blocks a file owns, and the invariant [fs_ok] of the
    state in memory and on disk. *)

From stdpp Require Import base tactics numbers list gmap.
From S2P Require Import Prelude KernDefs CopyInOut Bitmap Uio Sfs.
Local Open Scope Z_scope.

(** * Bytes of the disk *)
Lemma kput_lookup l : ∀ d a x, kput d a l x = default (d x) (zget l (x - a)).
Proof.
  induction l as [|b l IH]; intros d a x; simpl; [unfold zget; by destruct (0 <=? x - a)|].
  rewrite IH. unfold zget. destruct (Z.eqb_spec x a) as [->|Hne].
  - rewrite (proj2 (Z.leb_gt 0 (a - (a + 1)))), (proj2 (Z.leb_le 0 (a - a))) by lia.
    by replace (Z.to_nat (a - a)) with 0%nat by lia.
  - destruct (Z.leb_spec 0 (x - a)).
    + rewrite (proj2 (Z.leb_le _ _)) by lia. by replace (Z.to_nat (x - a)) with (S (Z.to_nat (x - (a + 1)))) by lia.
    + by rewrite (proj2 (Z.leb_gt _ _)) by lia.
Qed.
Lemma kput_out d a l x : x < a ∨ a + Z.of_nat (length l) ≤ x → kput d a l x = d x.
Proof.
  intros H. rewrite kput_lookup. unfold zget. destruct (Z.leb_spec 0 (x - a)); [|done].
  by rewrite lookup_ge_None_2 by lia.
Qed.
Lemma kget_length d a n : length (kget d a n) = Z.to_nat n.
Proof. unfold kget. by rewrite length_fmap, length_seqZ. Qed.
Lemma kget_lookup d a n (i : nat) : Z.of_nat i < n → kget d a n !! i = Some (d (a + Z.of_nat i)).
Proof. intros Hi. unfold kget. rewrite list_lookup_fmap, lookup_seqZ_lt by lia. done. Qed.
Lemma kget_ext d d' a n : (∀ x, a ≤ x < a + n → d x = d' x) → kget d a n = kget d' a n.
Proof. intros H. unfold kget. apply list_fmap_ext. intros i x [-> Hi]%lookup_seqZ. apply H. lia. Qed.
Lemma kget_kput d a l : kget (kput d a l) a (Z.of_nat (length l)) = l.
Proof.
  apply list_eq. intros i. destruct (decide (i < length l)%nat) as [Hi|Hi].
  - rewrite kget_lookup by lia. rewrite kput_lookup. replace (a + Z.of_nat i - a) with (Z.of_nat i) by lia.
    rewrite zget_nat. destruct (lookup_lt_is_Some_2 l i Hi) as [x ->]. done.
  - rewrite !lookup_ge_None_2; [done|lia|rewrite kget_length; lia].
Qed.

(** A block as a list of bytes. *)
Definition dblk (d : Z → Z) (b : Z) : list Z := kget d (b * 512) 512.
Definition zeros : list Z := replicate 512 0.
#[global] Arguments kput : simpl never.
#[global] Arguments zeros : simpl never.
#[global] Arguments dblk : simpl never.
#[global] Arguments replicate : simpl never.

Lemma dblk_length d b : length (dblk d b) = 512%nat.
Proof. apply kget_length. Qed.
Lemma dblk_at d b k : 0 ≤ k < 512 → dblk d b !! Z.to_nat k = Some (d (b * 512 + k)).
Proof. intros Hk. unfold dblk. rewrite kget_lookup by lia. by rewrite Z2Nat.id by lia. Qed.
Lemma dblk_put_same d b l : length l = 512%nat → dblk (kput d (b * 512) l) b = l.
Proof. intros Hl. pose proof (kget_kput d (b * 512) l) as E. rewrite Hl in E. exact E. Qed.
Lemma dblk_put_ne d b c l : length l = 512%nat → b ≠ c → dblk (kput d (b * 512) l) c = dblk d c.
Proof. intros Hl Hne. apply kget_ext. intros x Hx. apply kput_out. lia. Qed.
Lemma dblk_eq_at d d' b k : 0 ≤ k < 512 → dblk d' b = dblk d b → d' (b * 512 + k) = d (b * 512 + k).
Proof. intros Hk E. apply (f_equal (lookup (Z.to_nat k))) in E. rewrite !dblk_at in E by done. congruence. Qed.

(** * Words of a block *)

Lemma set_word_length i w l : 0 ≤ i < 128 → length l = 512%nat → length (set_word i w l) = 512%nat.
Proof.
  intros Hi Hl. unfold set_word. rewrite !length_app, length_take, length_drop. cbn [length word_bytes]. lia.
Qed.
Lemma word_at_set i j w l : length l = 512%nat → 0 ≤ i < 128 → 0 ≤ j < 128 → 0 ≤ w < 4294967296 →
  word_at (set_word i w l) j = if decide (j = i) then w else word_at l j.
Proof.
  intros Hl Hi Hj Hw. unfold word_at, set_word. case_decide as Hd; [subst j|].
  - rewrite drop_app_ge by (rewrite length_take; lia).
    rewrite length_take. replace (Z.to_nat (4 * i) - Z.to_nat (4 * i) `min` length l)%nat with 0%nat by lia.
    rewrite drop_0, take_app_ge by (cbn [length word_bytes]; lia). cbn [length word_bytes Nat.sub].
    rewrite take_0, app_nil_r. by apply bytes_word_bytes.
  - f_equal. apply list_eq. intros k. destruct (decide (k < 4)%nat) as [Hk|]; [|by rewrite !lookup_take_ge by lia].
    rewrite !lookup_take_lt, !lookup_drop by lia. destruct (decide (j < i)).
    + rewrite lookup_app_l by (rewrite length_take; lia). by rewrite lookup_take_lt by lia.
    + rewrite lookup_app_r by (rewrite length_take; lia).
      rewrite lookup_app_r by (rewrite length_take; cbn [length word_bytes]; lia).
      rewrite lookup_drop, length_take. cbn [length word_bytes]. f_equal. lia.
Qed.
Lemma word_at_zeros j : 0 ≤ j < 128 → word_at zeros j = 0.
Proof.
  intros Hj. unfold word_at, zeros. rewrite drop_replicate, take_replicate.
  by replace (4 `min` (512 - Z.to_nat (4 * j)))%nat with 4%nat by lia.
Qed.

(** * What a file owns

    Slot [-1] of a file is its indirect block, slot [k] its block number [k]. *)
Definition NBLK : Z := 143.   (* SFS_NDIRECT + SFS_DBPERIDB *)
Definition slot_of (d : Z → Z) (i : sfs_inode) (k : Z) : Z :=
  if k =? -1 then sfi_indirect i
  else if k <? 15 then default 0 (zget (sfi_direct i) k)
  else if (k <? NBLK) && negb (sfi_indirect i =? 0) then word_at (dblk d (sfi_indirect i)) (k - 15) else 0.
Definition inode_of (s : sfs) (p : Z) : option sfs_inode := sv_i <$> vnodes s !! p.
Definition slot (s : sfs) (p k : Z) : Z := default 0 ((λ i, slot_of (s_disk s) i k) <$> inode_of s p).
Definition size_of (s : sfs) (p : Z) : Z := default 0 (sfi_size <$> inode_of s p).

(** The byte at offset [o] of the file; a hole reads as zeros. *)
Definition content (s : sfs) (p o : Z) : Z :=
  let b := slot s p (o / 512) in if b =? 0 then 0 else s_disk s (b * 512 + o mod 512).

Definition used (s : sfs) (b : Z) : bool := bit (sfs_freemap s) b.

Record fs_ok (s : sfs) : Prop := {
  ok_hw : s_hw s = [];
  ok_geom : 0 < sp_nblocks s ≤ d_blocks s ∧ d_blocks s ≤ 8388608;
  ok_map : bm_ok (sfs_freemap s) ∧ sp_nblocks s ≤ nbits (sfs_freemap s);
  ok_over : ∀ b, sp_nblocks s ≤ b < nbits (sfs_freemap s) → used s b = true;
  ok_super : used s 0 = true;
  ok_direct : ∀ p sv, vnodes s !! p = Some sv → length (sfi_direct (sv_i sv)) = 15%nat;
  ok_slot : ∀ p k, slot s p k ≠ 0 → 0 < slot s p k < sp_nblocks s ∧ used s (slot s p k) = true;
  ok_inj : ∀ p k q l, slot s p k = slot s q l → slot s p k ≠ 0 → p = q ∧ k = l;
}.

Lemma slot_of_ext d d' i k : (sfi_indirect i ≠ 0 → dblk d' (sfi_indirect i) = dblk d (sfi_indirect i)) →
  slot_of d' i k = slot_of d i k.
Proof.
  intros H. unfold slot_of. destruct (Z.eqb_spec (sfi_indirect i) 0) as [|Hne]; [by rewrite andb_false_r|].
  by rewrite H.
Qed.
Lemma slot_eq s p sv k : vnodes s !! p = Some sv → slot s p k = slot_of (s_disk s) (sv_i sv) k.
Proof. intros H. unfold slot, inode_of. by rewrite H. Qed.
Lemma slot_indirect s p sv : vnodes s !! p = Some sv → slot s p (-1) = sfi_indirect (sv_i sv).
Proof. intros H. by rewrite (slot_eq _ _ _ _ H). Qed.
Lemma slot_none s p k : vnodes s !! p = None → slot s p k = 0.
Proof. intros H. unfold slot, inode_of. by rewrite H. Qed.
Lemma slot_word s p sv k : vnodes s !! p = Some sv → 15 ≤ k < NBLK → sfi_indirect (sv_i sv) ≠ 0 →
  slot s p k = word_at (dblk (s_disk s) (sfi_indirect (sv_i sv))) (k - 15).
Proof.
  intros H Hk Hi. rewrite (slot_eq _ _ _ _ H). unfold slot_of. rewrite (proj2 (Z.eqb_neq k (-1))) by lia.
  rewrite (proj2 (Z.ltb_ge k 15)), (proj2 (Z.ltb_lt k NBLK)), (proj2 (Z.eqb_neq _ _) Hi) by lia. done.
Qed.
Lemma slot_far s p k : k < -1 ∨ NBLK ≤ k → slot s p k = 0.
Proof.
  intros Hk. unfold slot. destruct (inode_of s p) as [i|]; [|done]. simpl. unfold slot_of, NBLK in *.
  rewrite (proj2 (Z.eqb_neq k (-1))) by lia. destruct (Z.ltb_spec k 15); [|by rewrite (proj2 (Z.ltb_ge k 143)) by lia].
  unfold zget. by rewrite (proj2 (Z.leb_gt 0 k)) by lia.
Qed.

(** The slot of a file whose inode and indirect block are as before. *)
Lemma slot_same s s' q k : inode_of s' q = inode_of s q →
  (slot s q (-1) ≠ 0 → dblk (s_disk s') (slot s q (-1)) = dblk (s_disk s) (slot s q (-1))) → slot s' q k = slot s q k.
Proof.
  unfold slot. intros ->. destruct (inode_of s q) as [i|]; [|done]. simpl. intros H. by apply slot_of_ext.
Qed.

Lemma content_ext s s' p q o o' : slot s' p (o / 512) = slot s q (o' / 512) → o mod 512 = o' mod 512 →
  (slot s q (o' / 512) ≠ 0 → dblk (s_disk s') (slot s q (o' / 512)) = dblk (s_disk s) (slot s q (o' / 512))) →
  content s' p o = content s q o'.
Proof.
  intros Es Em Hd. unfold content. rewrite Es, Em. destruct (Z.eqb_spec (slot s q (o' / 512)) 0); [done|].
  apply dblk_eq_at; [apply Z.mod_pos_bound; lia|auto].
Qed.

(** No block is free. *)
Definition full (s : sfs) : Prop := ∀ b, 0 ≤ b < sp_nblocks s → used s b = true.

(** * Reading and writing blocks *)
Lemma set_disk_id s : s_hw s = [] → set_disk (s_disk s) [] s = s.
Proof. destruct s; simpl. by intros ->. Qed.
Lemma set_mem_id s : set_mem (s_mem s) s = s.
Proof. by destruct s. Qed.

(** The effect of moving block [b] between the disk and the memory of [u]. *)
Definition block_moved (u : uio) (b : Z) (s s' : sfs) : Prop :=
  match uio_rw_ u with
  | UIO_READ => s' = set_mem (seg_puts (uio_segflg u) (s_mem s) (zip (take 512 (addrs (uio_iov u))) (dblk (s_disk s) b))) s
  | UIO_WRITE => ∃ l, length l = 512%nat ∧
      Forall2 (λ a c, seg_read (uio_segflg u) (s_mem s) a = Some c) (take 512 (addrs (uio_iov u))) l ∧
      s' = set_disk (kput (s_disk s) (b * 512) l) [] s
  end.

Section transfer.
Context (u : uio) (b : Z) (s : sfs).
Hypotheses (Hhw : s_hw s = []) (Hb : 0 ≤ b < d_blocks s) (Hd : d_blocks s ≤ 8388608).
Hypotheses (Hoff : uio_offset u = b * 512) (Hres : uio_resid u = 512).
Hypotheses (Hu : uio_ok u 512) (Hc : can_move u (s_mem s) 512) (Hs : space_ok u (s_mem s)).

Lemma wp_lhd_io : wp (lhd_io u) (λ r s', ∃ u', r = (None, u') ∧ advanced u 512 u' ∧ block_moved u b s s') s.
Proof using All.
  unfold lhd_io. wp_steps. unfold LHD_SECTSIZE. rewrite Hoff, Hres, Z.mod_mul, Z.div_mul by lia.
  change (512 mod 512) with 0. change (512 / 512) with 1. cbn [Z.eqb negb orb].
  rewrite (u32_id b) by lia. rewrite u32_id by lia. rewrite (proj2 (Z.ltb_ge _ _)) by lia.
  change (Z.to_nat 1) with 1%nat. change (Z.to_nat 512) with 512%nat. cbn [lhd_sectors]. unfold block_moved.
  destruct (uio_rw_ u) eqn:Erw.
  - unfold hw_op. wp_steps. rewrite Hhw. wp_steps. rewrite Erw. unfold lhd_uiomove. simpl tail. rewrite set_disk_id by done.
    wp_steps. apply wp_zoom. eapply wp_mono; [by apply wp_uiomove|].
    intros r x' (p & u' & -> & Hp & Hm & Had). rewrite Erw in Hm. destruct Hm as [-> ->]. wp_steps.
    exists u'. split_and!; [done..|]. change (kget (s_disk s) (b * LHD_SECTSIZE) LHD_SECTSIZE) with (dblk (s_disk s) b).
    rewrite (take_ge (dblk _ _)) by (rewrite dblk_length; unfold LHD_SECTSIZE; lia). done.
  - unfold lhd_uiomove. wp_steps. apply wp_zoom. eapply wp_mono; [by apply wp_uiomove|].
    intros r x' (p & u' & -> & Hp & Hm & Had). rewrite Erw in Hm. destruct Hm as [-> HF]. simpl sub_put.
    rewrite set_mem_id, drop_ge, app_nil_r by done. destruct Had as [A1 A2 A3 (A4 & A5 & A6) A7].
    cbv beta iota. wp_steps. unfold hw_op. wp_steps. rewrite Hhw, !A5, Erw. wp_steps.
    exists u'. split_and!; [done|by constructor|]. exists p. unfold LHD_SECTSIZE in Hp. split_and!; [lia|done|done].
Qed.

Lemma wp_rwblock : wp (sfs_rwblock u) (λ r s', ∃ u', r = (None, u') ∧ advanced u 512 u' ∧ block_moved u b s s') s.
Proof using All.
  unfold sfs_rwblock. change (rwblock_try 10 u) with ('(r, u) ← lhd_io u;
  if decide (r = Some EINVAL) then panic
  else if decide (r = Some EIO) then rwblock_try 9 u else mret (r, u) : M sfs _).
  apply wp_bind_2. eapply wp_mono; [apply wp_lhd_io|]. intros r s' (u' & -> & H). rewrite !decide_False by done.
  wp_steps. eauto.
Qed.
End transfer.

Lemma kput_puts_512 l x : length l = 512%nat →
  seg_puts UIO_SYSSPACE x (zip (seqZ 0 512) l) = XMem (kput (x_kern x) 0 l) (x_user x) (x_space x).
Proof. intros Hl. rewrite <-kput_puts, Hl. done. Qed.

Section blocks.
Context (s : sfs) (b : Z).
Hypotheses (Hhw : s_hw s = []) (Hb : 0 ≤ b < d_blocks s) (Hd : d_blocks s ≤ 8388608).

Lemma kbuf_ok rw : uio_ok (SFSUIO b rw) 512.
Proof using Hb Hd.
  constructor; simpl; unfold SFS_BLOCKSIZE; [done|split; [by vm_compute|done]|lia|by repeat constructor].
Qed.
Lemma kbuf_addrs rw : take 512 (addrs (uio_iov (SFSUIO b rw))) = seqZ 0 512.
Proof. by vm_compute. Qed.

Lemma wp_rblock : wp (sfs_rblock b) (λ r s', r = inr (dblk (s_disk s) b) ∧ s' = s) s.
Proof using Hhw Hb Hd.
  unfold sfs_rblock, with_kbuf. wp_steps.
  eapply wp_mono; [apply (wp_rwblock _ b); [done|done|done|done|done|apply kbuf_ok|done|done]|].
  intros r s' (u' & -> & _ & ->). wp_steps. rewrite kbuf_addrs.
  rewrite (kput_puts_512 (dblk (s_disk s) b)) by apply dblk_length. cbn [x_kern s_mem set_mem].
  split; [|by destruct s as [[]]]. f_equal.
Qed.

Lemma wp_wblock l : length l = 512%nat →
  wp (sfs_wblock l b) (λ r s', r = None ∧ s' = set_disk (kput (s_disk s) (b * 512) l) [] s) s.
Proof using Hhw Hb Hd.
  intros Hl. unfold sfs_wblock, with_kbuf. wp_steps.
  eapply wp_mono; [apply (wp_rwblock _ b); [done|done|done|done|done|apply kbuf_ok|done|done]|].
  intros r s' (u' & -> & _ & l' & Hl' & HF & ->). wp_steps. rewrite kbuf_addrs in HF.
  assert (l' = l) as ->.
  { rewrite <-(kget_kput (λ _, 0) 0 l). rewrite Hl. unfold kget. clear -HF. simpl in HF.
    change (Z.of_nat 512) with 512. remember (seqZ 0 512) as q eqn:Eq. clear Eq.
    induction HF; simpl; [done|]. f_equal; [congruence|done]. }
  by destruct s as [[]].
Qed.
End blocks.
