(* ===== verification/SfsMap.v ===== *)
(** Allocation of blocks and the block map of a file ([sfs_balloc], [sfs_bmap]):
    a new block goes to exactly one slot, reads as zeros, and changes no file. *)

From stdpp Require Import base tactics numbers list gmap.
From S2P Require Import Prelude KernDefs CopyInOut Bitmap Uio Sfs SfsInv.
Local Open Scope Z_scope.

Lemma zget_app {A} (l1 l2 : list A) i :
  zget (l1 ++ l2) i = match zget l1 i with Some x => Some x | None => zget l2 (i - Z.of_nat (length l1)) end.
Proof.
  unfold zget. destruct (Z.leb_spec 0 i); [|by rewrite (proj2 (Z.leb_gt _ _)) by lia].
  destruct (decide (i < Z.of_nat (length l1))).
  - rewrite lookup_app_l by lia. destruct (lookup_lt_is_Some_2 l1 (Z.to_nat i)) as [x ->]; [lia|done].
  - rewrite (lookup_ge_None_2 l1), lookup_app_r, (proj2 (Z.leb_le 0 (i - _))) by lia. f_equal. lia.
Qed.

(** The parts of a vnode that writing data leaves alone; a changed inode is marked. *)
Record keep_meta (v v' : sfs_vnode) : Prop := {
  km_ino : sv_ino v' = sv_ino v;
  km_refcount : vn_refcount v' = vn_refcount v;
  km_opencount : vn_opencount v' = vn_opencount v;
  km_type : sfi_type (sv_i v') = sfi_type (sv_i v);
  km_linkcount : sfi_linkcount (sv_i v') = sfi_linkcount (sv_i v);
  km_waste : sfi_waste (sv_i v') = sfi_waste (sv_i v);
  km_dirty : sv_dirty v' = true ∨ v' = v;
}.
Definition same_meta (v v' : sfs_vnode) : Prop := keep_meta v v' ∧ sfi_size (sv_i v') = sfi_size (sv_i v).

Lemma keep_meta_refl v : keep_meta v v.
Proof. constructor; (done || by right). Qed.
Lemma same_meta_refl v : same_meta v v.
Proof. split; [apply keep_meta_refl|done]. Qed.
Lemma keep_meta_trans v1 v2 v3 : keep_meta v1 v2 → keep_meta v2 v3 → keep_meta v1 v3.
Proof.
  intros [A1 A2 A3 A4 A5 A6 A7] [B1 B2 B3 B4 B5 B6 B7]. constructor; try congruence.
  destruct B7 as [| ->]; [by left|done].
Qed.

(** From [s] to [s'] the bytes [data] were written to file [p] from offset [off] on. *)
Record wrote (p off : Z) (data : list Z) (s s' : sfs) : Prop := {
  wr_ok : fs_ok s';
  wr_mem : s_mem s' = s_mem s;
  wr_geom : d_blocks s' = d_blocks s ∧ sp_nblocks s' = sp_nblocks s ∧ sfs_vnodes s' = sfs_vnodes s ∧ s_heap s' = s_heap s;
  wr_others : ∀ q, q ≠ p → vnodes s' !! q = vnodes s !! q;
  wr_file : ∃ sv sv', vnodes s !! p = Some sv ∧ vnodes s' !! p = Some sv' ∧ same_meta sv sv';
  wr_slots : ∀ k, slot s' p k = slot s p k ∨ slot s p k = 0 ∧ used s (slot s' p k) = false;
  wr_used : ∀ b, 0 ≤ b < sp_nblocks s → used s b = true → used s' b = true;
  wr_frame : ∀ b, 0 ≤ b < sp_nblocks s → used s b = true → (∀ k, slot s p k ≠ b) → dblk (s_disk s') b = dblk (s_disk s) b;
  wr_content : ∀ q o, 0 ≤ o →
    content s' q o = if decide (q = p) then default (content s p o) (zget data (o - off)) else content s q o;
}.

Lemma zget_nil {A} i : zget (@nil A) i = None.
Proof. unfold zget. by destruct (0 <=? i). Qed.
Lemma wrote_nil p off s sv : fs_ok s → vnodes s !! p = Some sv → wrote p off [] s s.
Proof.
  intros Hok Hp. constructor; try done; [exists sv, sv; split_and!; [done..|apply same_meta_refl]|by left|].
  intros q o Ho. case_decide; [subst; by rewrite zget_nil|done].
Qed.

Lemma wrote_trans p off d1 d2 s s1 s2 : wrote p off d1 s s1 → wrote p (off + Z.of_nat (length d1)) d2 s1 s2 →
  wrote p off (d1 ++ d2) s s2.
Proof.
  intros [A1 A2 (A3 & A3' & A3a & A3b) A4 A5 A6 A7 A8 A9] [B1 B2 (B3 & B3' & B3a & B3b) B4 B5 B6 B7 B8 B9].
  rewrite !A3' in *. constructor.
  - done.
  - congruence.
  - split_and!; congruence.
  - intros q Hq. by rewrite B4, A4.
  - destruct A5 as (v & v1 & E1 & E2 & K1 & Z1), B5 as (w & v2 & E3 & E4 & K2 & Z2).
    exists v, v2. simplify_eq. split_and!; [done..|]. split; [by eapply keep_meta_trans|congruence].
  - intros k. destruct (A6 k) as [E1|[E1 U1]], (B6 k) as [E2|[E2 U2]].
    + left. congruence.
    + right. split; [congruence|]. destruct (used s (slot s2 p k)) eqn:U; [|done]. exfalso.
      destruct (decide (slot s2 p k = 0)) as [E|E]; [rewrite E, (ok_super _ A1) in U2; done|].
      rewrite A7 in U2; [done| |done]. pose proof (ok_slot _ B1 p k E). lia.
    + right. split; [done|]. congruence.
    + right. split; [done|]. destruct (used s (slot s2 p k)) eqn:U; [|done]. exfalso.
      destruct (decide (slot s2 p k = 0)) as [E|E]; [rewrite E, (ok_super _ A1) in U2; done|].
      rewrite A7 in U2; [done| |done]. pose proof (ok_slot _ B1 p k E). lia.
  - auto.
  - intros b Hb Hu Hk. rewrite B8; [by apply A8|by rewrite ?A3'|by apply A7|].
    intros k E. destruct (A6 k) as [E1|[E1 U1]]; [by apply (Hk k); congruence|congruence].
  - intros q o Ho. rewrite B9 by done. case_decide; [|by rewrite A9, decide_False].
    rewrite A9, decide_True by done. rewrite zget_app.
    replace (o - off - Z.of_nat (length d1)) with (o - (off + Z.of_nat (length d1))) by lia.
    destruct (zget d1 (o - off)) as [x|] eqn:E1; [|done].
    apply zget_Some in E1 as [_ E1]. apply lookup_lt_Some in E1.
    unfold zget at 1. by rewrite (proj2 (Z.leb_gt _ _)) by lia.
Qed.

(** * Allocation *)
Lemma fs_ok_dblocks s b : fs_ok s → 0 ≤ b < sp_nblocks s → 0 ≤ b < d_blocks s ∧ d_blocks s ≤ 8388608.
Proof. intros Hok. pose proof (ok_geom s Hok). lia. Qed.

Lemma wp_balloc s : fs_ok s → wp sfs_balloc (λ r s', match r with
  | inr b => 0 < b < sp_nblocks s ∧ used s b = false ∧
      ∃ fm, s' = set_freemap fm true (set_disk (kput (s_disk s) (b * 512) zeros) [] s) ∧
        bm_ok fm ∧ nbits fm = nbits (sfs_freemap s) ∧
        ∀ j, 0 ≤ j < nbits fm → bit fm j = if decide (j = b) then true else used s j
  | inl e => e = ENOSPC ∧ full s ∧ s' = s end) s.
Proof.
  intros Hok. pose proof Hok as [Hhw [Hg1 Hg2] [Hm Hn] Hover Hsup _ _ _]. unfold sfs_balloc.
  destruct (holds_alloc (sfs_freemap s) (nbits (sfs_freemap s)) (used s)) as [(b & fm & E & Hb & Hf & _ & (H1 & H2 & H3))|[Hfull E]].
  { done. }
  - apply wp_bind_2, wp_zoom. unfold wp at 1. simpl sub_get. rewrite E. wp_steps. simpl sp_nblocks.
    assert (b < sp_nblocks s) as Hlt.
    { destruct (decide (b < sp_nblocks s)); [done|]. rewrite Hover in Hf by lia. done. }
    assert (b ≠ 0) by (intros ->; congruence).
    rewrite (proj2 (Z.leb_gt _ _)) by done. wp_steps. unfold sfs_clearblock.
    eapply wp_mono; [apply wp_wblock; [done|simpl; lia|simpl; lia|done]|]. intros r s' [-> ->]. wp_steps.
    split_and!; [lia|lia|done|]. exists fm. split_and!; try done. rewrite H2. done.
  - apply wp_bind_2, wp_zoom. unfold wp at 1. simpl sub_get. rewrite E. wp_steps.
    split_and!; [done| |by destruct s]. intros b Hb. apply Hfull. lia.
Qed.

(** A block taken from the free ones becomes slot [k0] of file [p]. *)
Record grown (p k0 b : Z) (s s' : sfs) : Prop := {
  gr_state : s_hw s' = [] ∧ s_mem s' = s_mem s ∧ d_blocks s' = d_blocks s ∧ sp_nblocks s' = sp_nblocks s ∧
    sfs_vnodes s' = sfs_vnodes s ∧ s_heap s' = s_heap s;
  gr_map : bm_ok (sfs_freemap s') ∧ nbits (sfs_freemap s') = nbits (sfs_freemap s);
  gr_used : ∀ j, 0 ≤ j < nbits (sfs_freemap s) → used s' j = if decide (j = b) then true else used s j;
  gr_new : 0 < b < sp_nblocks s ∧ used s b = false ∧ slot s p k0 = 0;
  gr_others : ∀ q, q ≠ p → vnodes s' !! q = vnodes s !! q;
  gr_file : ∃ sv sv', vnodes s !! p = Some sv ∧ vnodes s' !! p = Some sv' ∧ same_meta sv sv' ∧
    length (sfi_direct (sv_i sv')) = 15%nat;
  gr_slots : ∀ k, slot s' p k = if decide (k = k0) then b else slot s p k;
  gr_disk : ∀ c, 0 ≤ c → used s c = true → c ≠ slot s p (-1) → dblk (s_disk s') c = dblk (s_disk s) c;
  gr_zero : 0 ≤ k0 → dblk (s_disk s') b = zeros;
}.

Section growth.
Context (p k0 b : Z) (s s' : sfs).
Hypotheses (Hok : fs_ok s) (Hg : grown p k0 b s s').

Lemma gr_other_slots q k : q ≠ p → slot s' q k = slot s q k.
Proof using All.
  intros Hq. apply slot_same; [unfold inode_of; by rewrite (gr_others _ _ _ _ _ Hg)|]. intros Hne.
  destruct (ok_slot _ Hok q (-1) Hne) as [Hr Hu]. apply (gr_disk _ _ _ _ _ Hg); [lia|done|].
  intros E. destruct (ok_inj _ Hok _ _ _ _ E Hne) as [-> _]. done.
Qed.
Lemma gr_slot q k : slot s' q k = if decide (q = p ∧ k = k0) then b else slot s q k.
Proof using All.
  destruct (decide (q = p)) as [->|Hq].
  - rewrite (gr_slots _ _ _ _ _ Hg). repeat case_decide; naive_solver.
  - rewrite gr_other_slots by done. by rewrite decide_False by naive_solver.
Qed.
Lemma gr_fresh q k : slot s q k ≠ b.
Proof using All.
  destruct (gr_new _ _ _ _ _ Hg) as (Hb & Hf & _). intros E. destruct (ok_slot _ Hok q k) as [_ Hu]; [lia|congruence].
Qed.
Lemma grown_ok : fs_ok s'.
Proof using All.
  pose proof Hok as [O1 [O2 O2'] [O3 O4] O5 O6 O7 O8 O9].
  pose proof Hg as [(G1 & _ & G2 & G3 & _) [G4 G5] G6 (G7 & G8 & G9) G10 G11 _ _ _].
  constructor; rewrite ?G2, ?G3, ?G5; try done; try lia.
  - intros c Hc. rewrite G6 by lia. case_decide; [done|]. apply O5. lia.
  - rewrite G6 by lia. by case_decide.
  - intros q v Hv. destruct (decide (q = p)) as [->|Hq]; [|rewrite G10 in Hv by done; eauto].
    destruct G11 as (v0 & v1 & _ & E & _ & Hl). by simplify_eq.
  - intros q k Hne. rewrite gr_slot in *. case_decide.
    + split; [done|]. rewrite G6 by lia. by rewrite decide_True.
    + destruct (O8 q k Hne). split; [done|]. rewrite G6 by lia. by case_decide.
  - intros q k r l E Hne. rewrite !gr_slot in *.
    destruct (decide (q = p ∧ k = k0)) as [[-> ->]|], (decide (r = p ∧ l = k0)) as [[-> ->]|].
    + done.
    + exfalso. by apply (gr_fresh r l).
    + exfalso. by apply (gr_fresh q k).
    + by apply O9.
Qed.

Lemma grown_wrote off : wrote p off [] s s'.
Proof using All.
  pose proof Hok as [O1 [O2 O2'] [O3 O4] O5 O6 O7 O8 O9].
  pose proof Hg as [(G1 & G0 & G2 & G3 & G3a & G3b) [G4 G5] G6 (G7 & G8 & G9) G10 G11 G12 G13 G14].
  constructor; try done; [by apply grown_ok| | | | |].
  - destruct G11 as (v & v' & ? & ? & ? & _). eauto.
  - intros k. rewrite G12. case_decide; [subst; by right|by left].
  - intros c Hc Hu. rewrite G6 by lia. by case_decide.
  - intros c Hc Hu Hk. apply G13; [lia|done|]. intros E. by apply (Hk (-1)).
  - intros q o Ho. assert (content s' q o = content s q o) as ->; [|case_decide; [subst; by rewrite zget_nil|done]].
    assert (0 ≤ o / 512) as Hk by (apply Z.div_pos; lia).
    destruct (decide (q = p ∧ o / 512 = k0)) as [[-> Ek]|Hne].
    + unfold content. rewrite Ek, gr_slot, decide_True, G9 by done. simpl. rewrite (proj2 (Z.eqb_neq b 0)) by lia.
      pose proof (Z.mod_pos_bound o 512 ltac:(lia)) as Hm.
      pose proof (dblk_at (s_disk s') b (o mod 512) Hm) as E. rewrite G14 in E by lia.
      unfold zeros in E. rewrite lookup_replicate_2 in E by lia. congruence.
    + apply content_ext; [by rewrite gr_slot, decide_False by naive_solver|done|]. intros Hs.
      destruct (O8 q (o / 512) Hs). apply G13; [lia|done|]. intros E.
      destruct (O9 _ _ _ _ E Hs). lia.
Qed.
End growth.

(** ** The three places a block can go *)
Section places.
Context (p : Z) (sv : sfs_vnode) (s : sfs) (b : Z) (fm : bitmap).
Hypotheses (Hok : fs_ok s) (Hp : vnodes s !! p = Some sv).
Hypotheses (Hb : 0 < b < sp_nblocks s) (Hfree : used s b = false).
Hypotheses (Hfm : bm_ok fm) (Hfmn : nbits fm = nbits (sfs_freemap s)).
Hypothesis Hfmb : ∀ j, 0 ≤ j < nbits fm → bit fm j = if decide (j = b) then true else used s j.

(** The state after [sfs_balloc]. *)
Let s1 := set_freemap fm true (set_disk (kput (s_disk s) (b * 512) zeros) [] s).

Lemma fresh_slot q k : slot s q k ≠ b.
Proof using Hok Hb Hfree. intros E. destruct (ok_slot _ Hok q k) as [_ Hu]; [lia|congruence]. Qed.
Lemma fresh_disk c : used s c = true → dblk (s_disk s1) c = dblk (s_disk s) c.
Proof using Hfree. intros Hu. apply dblk_put_ne; [done|congruence]. Qed.
Lemma fresh_indirect k : slot_of (s_disk s1) (sv_i sv) k = slot s p k.
Proof using Hok Hp Hfree.
  rewrite (slot_eq _ _ _ _ Hp). apply slot_of_ext. intros Hi. apply fresh_disk.
  rewrite <-(slot_indirect _ _ _ Hp) in *. by apply ok_slot.
Qed.

(** The parts of [grown] that hold whatever becomes of inode [i] of [p]. *)
Lemma grown_intro k0 d i : slot s p k0 = 0 → length (sfi_direct i) = 15%nat →
  sfi_size i = sfi_size (sv_i sv) → sfi_type i = sfi_type (sv_i sv) → sfi_linkcount i = sfi_linkcount (sv_i sv) →
  sfi_waste i = sfi_waste (sv_i sv) → (∀ k, slot_of d i k = if decide (k = k0) then b else slot s p k) →
  (∀ c, 0 ≤ c → used s c = true → c ≠ slot s p (-1) → dblk d c = dblk (s_disk s) c) →
  (0 ≤ k0 → dblk d b = zeros) → ∀ dirty, dirty = true ∨ i = sv_i sv ∧ dirty = sv_dirty sv →
  grown p k0 b s (set_vnodes (<[p := SfsVnode i (sv_ino sv) dirty (vn_refcount sv) (vn_opencount sv)]> (vnodes s)) (set_disk d [] s1)).
Proof using Hp Hb Hfree Hfm Hfmn Hfmb.
  intros H1 H2 H3 H4 H5 H5' H6 H7 H8 dirty Hd. constructor; simpl; try done.
  - intros j Hj. apply Hfmb. lia.
  - intros q Hq. by rewrite lookup_insert_ne.
  - exists sv. eexists. rewrite lookup_insert_eq. split_and!; [done..|split; [constructor; try done|done]|done].
    simpl. destruct Hd as [|[-> ->]]; [by left|right; by destruct sv].
  - intros k. rewrite <-H6. unfold slot, inode_of. simpl. by rewrite lookup_insert_eq.
Qed.

Lemma grown_direct k : 0 ≤ k < 15 → slot s p k = 0 →
  grown p k b s (set_vnodes (<[p := upd_inode (set_direct (<[Z.to_nat k := b]> (sfi_direct (sv_i sv)))) sv]> (vnodes s)) s1).
Proof using All.
  intros Hk Hz. pose proof (ok_direct _ Hok _ _ Hp) as Hl.
  refine (grown_intro k (s_disk s1) (set_direct _ (sv_i sv)) Hz _ _ _ _ _ _ _ _ true (or_introl eq_refl)); try done; simpl.
  - by rewrite length_insert.
  - intros j. rewrite <-fresh_indirect. unfold slot_of. simpl. destruct (Z.eqb_spec j (-1)); [by rewrite decide_False by lia|].
    destruct (Z.ltb_spec j 15); [|by rewrite decide_False by lia]. unfold zget. destruct (Z.leb_spec 0 j).
    + case_decide as E; [subst j; by rewrite list_lookup_insert_eq by lia|]. by rewrite list_lookup_insert_ne by lia.
    + by rewrite decide_False by lia.
  - intros c _ Hu _. by apply fresh_disk.
  - intros _. by apply dblk_put_same.
Qed.

Lemma grown_indirect : slot s p (-1) = 0 →
  grown p (-1) b s (set_vnodes (<[p := upd_inode (set_indirect b) sv]> (vnodes s)) s1).
Proof using All.
  intros Hz. refine (grown_intro (-1) (s_disk s1) (set_indirect b (sv_i sv)) Hz _ _ _ _ _ _ _ _ true (or_introl eq_refl)); try done; simpl.
  - by apply (ok_direct _ Hok _ _ Hp).
  - intros j. rewrite <-fresh_indirect. unfold slot_of. simpl. rewrite (slot_indirect _ _ _ Hp) in Hz. rewrite Hz. simpl.
    rewrite (proj2 (Z.eqb_neq b 0)) by lia. destruct (Z.eqb_spec j (-1)); [by rewrite decide_True|].
    rewrite decide_False by done. destruct (Z.ltb_spec j 15); [done|]. destruct (Z.ltb_spec j NBLK); [|done]. simpl.
    change (kput (s_disk s) (b * 512) zeros) with (s_disk s1).
    replace (dblk (s_disk s1) b) with zeros by (symmetry; by apply dblk_put_same).
    apply word_at_zeros. unfold NBLK in *. lia.
  - intros c _ Hu _. by apply fresh_disk.
Qed.

Lemma grown_word k : 15 ≤ k < NBLK → slot s p (-1) ≠ 0 → slot s p k = 0 →
  let ib := sfi_indirect (sv_i sv) in
  grown p k b s (set_disk (kput (s_disk s1) (ib * 512) (set_word (k - 15) b (dblk (s_disk s) ib))) [] s1).
Proof using All.
  intros Hk Hne Hz ib. unfold NBLK in *. pose proof (slot_indirect _ _ _ Hp) as Ei. fold ib in Ei. rewrite Ei in *.
  assert (used s ib = true ∧ 0 < ib < sp_nblocks s) as [Hu Hib].
  { rewrite <-Ei. destruct (ok_slot _ Hok p (-1)); [by rewrite Ei|done]. }
  set (l := set_word _ _ _). assert (length l = 512%nat) as Hl by (apply set_word_length; [lia|apply dblk_length]).
  assert (ib ≠ b) by congruence. set (d := kput (s_disk s1) (ib * 512) l).
  assert (grown p k b s (set_vnodes (<[p := SfsVnode (sv_i sv) (sv_ino sv) (sv_dirty sv) (vn_refcount sv) (vn_opencount sv)]> (vnodes s)) (set_disk d [] s1))) as Hgr.
  2:{ rewrite insert_id in Hgr by (by destruct sv). exact Hgr. }
  apply grown_intro; try done.
  - by apply (ok_direct _ Hok _ _ Hp).
  - intros j. rewrite <-fresh_indirect. unfold slot_of. fold ib. rewrite (proj2 (Z.eqb_neq ib 0)) by done.
    destruct (Z.eqb_spec j (-1)); [by rewrite decide_False by lia|]. destruct (Z.ltb_spec j 15); [by rewrite decide_False by lia|].
    destruct (Z.ltb_spec j NBLK); unfold NBLK in *; simpl; [|by rewrite decide_False by lia].
    unfold d. rewrite dblk_put_same by done. unfold l. pose proof (ok_geom _ Hok).
    rewrite word_at_set by (apply dblk_length || lia). change (kput (s_disk s) (b * 512) zeros) with (s_disk s1).
    rewrite fresh_disk by done. repeat case_decide; lia.
  - intros c _ Hcu Hc. unfold d. rewrite dblk_put_ne by (done || congruence). by apply fresh_disk.
  - intros _. unfold d. rewrite dblk_put_ne by done. by apply dblk_put_same.
  - by right.
Qed.
End places.

(** * The block map *)
Lemma wp_bmap_done s b : fs_ok s → (b ≠ 0 → 0 < b < sp_nblocks s ∧ used s b = true) →
  wp (bmap_done b) (λ r s', r = inr b ∧ s' = s) s.
Proof.
  intros Hok Hb. unfold bmap_done. destruct (Z.eqb_spec b 0) as [->|Hne]; [by wp_steps|]. destruct (Hb Hne) as [Hr Hu].
  unfold sfs_bused. wp_steps. rewrite (proj2 (Z.leb_gt _ _)) by lia. wp_steps. apply wp_zoom.
  pose proof (ok_map _ Hok) as [Hm Hn].
  destruct (holds_bit (sfs_freemap s) (nbits (sfs_freemap s)) (used s) b) as (_ & _ & w & E & Hw); [done|lia|].
  unfold wp at 1. simpl sub_get. rewrite E. wp_steps. rewrite (proj2 (Z.eqb_neq w 0)) by by apply Hw. simpl. wp_steps.
  by destruct s.
Qed.

Lemma wp_get_sv s p sv (Q : sfs_vnode → sfs → Prop) : vnodes s !! p = Some sv → Q sv s → wp (get_sv p) Q s.
Proof. intros Hp HQ. unfold get_sv. wp_steps. by eapply wp_of_opt. Qed.

(** What looking up block [k] of a file comes to. *)
Definition mapped (p k : Z) (s : sfs) (r : result Z) (s' : sfs) : Prop :=
  (∀ off, wrote p off [] s s') ∧
  match r with
  | inr b => b = slot s' p k ∧ b ≠ 0
  | inl e => e = ENOSPC ∧ full s' ∧ slot s' p k = 0
  end.
Lemma mapped_grown p k b s s' : fs_ok s → grown p k b s s' → mapped p k s (inr b) s'.
Proof.
  intros Hok Hg. split; [intros off; by eapply grown_wrote|]. rewrite (gr_slots _ _ _ _ _ Hg), decide_True by done.
  pose proof (gr_new _ _ _ _ _ Hg). split; [done|lia].
Qed.
Lemma slot_done s p k : fs_ok s → slot s p k ≠ 0 → 0 < slot s p k < sp_nblocks s ∧ used s (slot s p k) = true.
Proof. intros Hok. apply (ok_slot _ Hok). Qed.

Section bmap.
Context (p : Z) (s : sfs) (sv : sfs_vnode).
Hypotheses (Hok : fs_ok s) (Hp : vnodes s !! p = Some sv).

Lemma mapped_same k : slot s p k ≠ 0 → mapped p k s (inr (slot s p k)) s.
Proof using All. intros Hne. split; [|done]. intros off. by eapply wrote_nil. Qed.
Lemma mapped_full k : full s → slot s p k = 0 → mapped p k s (inl ENOSPC) s.
Proof using All. intros Hf Hz. split; [|done]. intros off. by eapply wrote_nil. Qed.

Lemma direct_slot k : 0 ≤ k < 15 → zget (sfi_direct (sv_i sv)) k = Some (slot s p k).
Proof using All.
  intros Hk. rewrite (slot_eq _ _ _ _ Hp). unfold slot_of.
  rewrite (proj2 (Z.eqb_neq k (-1))), (proj2 (Z.ltb_lt k 15)) by lia. pose proof (ok_direct _ Hok _ _ Hp).
  by destruct (zget_is_Some (sfi_direct (sv_i sv)) k) as [x ->]; [lia|].
Qed.

Lemma wp_bmap_direct k : 0 ≤ k < 15 → wp (bmap_direct p k true) (mapped p k s) s.
Proof using All.
  intros Hk. unfold bmap_direct. apply wp_bind_2. eapply wp_get_sv; [done|]. apply wp_bind_2.
  eapply wp_of_opt; [by apply direct_slot|]. destruct (Z.eqb_spec (slot s p k) 0) as [Ez|Hne]; simpl.
  - apply wp_bind_2. eapply wp_mono; [by apply wp_balloc|]. intros [e|b] s1.
    { intros (-> & Hf & ->). wp_steps. by apply mapped_full. }
    intros (Hb & Hf & fm & -> & Hfm & Hn & Hbits). apply wp_bind_2. eapply wp_get_sv; [done|]. wp_steps.
    pose proof (ok_direct _ Hok _ _ Hp). eapply wp_of_opt; [apply zset_Some; lia|].
    pose proof (grown_direct p sv s b fm Hok Hp Hb Hf Hfm Hn Hbits k Hk Ez) as Hg.
    unfold put_sv. wp_steps. eapply wp_mono; [apply wp_bmap_done; [by eapply grown_ok|]|].
    { intros _. pose proof (ok_slot _ (grown_ok _ _ _ _ _ Hok Hg) p k) as Hs.
      rewrite (gr_slots _ _ _ _ _ Hg), decide_True in Hs by done. apply Hs. lia. }
    intros r s' [-> ->]. by apply mapped_grown.
  - eapply wp_mono; [apply wp_bmap_done; [done|by apply slot_done]|]. intros r s' [-> ->]. by apply mapped_same.
Qed.

Lemma wp_bmap_indirect k : 15 ≤ k < NBLK → sfi_indirect (sv_i sv) ≠ 0 →
  wp (bmap_indirect (sfi_indirect (sv_i sv)) (k - 15) (dblk (s_disk s) (sfi_indirect (sv_i sv))) true) (mapped p k s) s.
Proof using All.
  intros Hk Hi. unfold bmap_indirect. rewrite <-(slot_word _ _ _ _ Hp Hk Hi).
  pose proof (slot_indirect _ _ _ Hp) as Ei. rewrite <-Ei in Hi. destruct (ok_slot _ Hok p (-1) Hi) as [Hir Hiu].
  rewrite Ei in *. destruct (Z.eqb_spec (slot s p k) 0) as [Ez|Hne]; simpl.
  - apply wp_bind_2. eapply wp_mono; [by apply wp_balloc|]. intros [e|b] s1.
    { intros (-> & Hf & ->). wp_steps. by apply mapped_full. }
    intros (Hb & Hf & fm & -> & Hfm & Hn & Hbits). apply wp_bind_2. pose proof (ok_geom _ Hok).
    eapply wp_mono; [apply wp_wblock; [done|simpl; lia|simpl; lia|]|].
    { apply set_word_length; [unfold NBLK in *; lia|apply dblk_length]. }
    intros r s' [-> ->]. rewrite <-Ei in Hi.
    pose proof (grown_word p sv s b fm Hok Hp Hb Hf Hfm Hn Hbits k Hk Hi Ez) as Hg.
    eapply wp_mono; [apply wp_bmap_done; [by eapply grown_ok|]|].
    { intros _. pose proof (ok_slot _ (grown_ok _ _ _ _ _ Hok Hg) p k) as Hs.
      rewrite (gr_slots _ _ _ _ _ Hg), decide_True in Hs by done. apply Hs. lia. }
    intros r s' [-> ->]. by apply mapped_grown.
  - eapply wp_mono; [apply wp_bmap_done; [done|by apply slot_done]|]. intros r s' [-> ->]. by apply mapped_same.
Qed.
End bmap.

Lemma mapped_after p k s s1 r s2 : (∀ off, wrote p off [] s s1) → mapped p k s1 r s2 → mapped p k s r s2.
Proof.
  intros H1 [H2 H3]. split; [|done]. intros off. change (@nil Z) with (@nil Z ++ []).
  eapply wrote_trans; [apply H1|apply H2].
Qed.

Lemma wp_bmap_alloc p s sv k : fs_ok s → vnodes s !! p = Some sv → 0 ≤ k < NBLK →
  wp (sfs_bmap p k true) (mapped p k s) s.
Proof.
  intros Hok Hp Hk. unfold sfs_bmap, SFS_NDIRECT, SFS_DBPERIDB. destruct (Z.ltb_spec k 15); [apply (wp_bmap_direct p s sv Hok Hp); lia|].
  unfold NBLK in Hk. rewrite Z.div_small, Z.mod_small by lia. cbn [Z.ltb Z.compare]. apply wp_bind_2.
  eapply wp_get_sv; [done|]. cbn [negb]. rewrite andb_false_r.
  pose proof (slot_indirect _ _ _ Hp) as Ei. pose proof (ok_geom _ Hok).
  destruct (Z.eqb_spec (sfi_indirect (sv_i sv)) 0) as [Ez|Hne].
  - apply wp_bind_2. eapply wp_mono; [by apply wp_balloc|]. intros [e|b] s1.
    { intros (-> & Hf & ->). wp_steps. eapply mapped_full; [done..|]. rewrite (slot_eq _ _ _ _ Hp). unfold slot_of.
      rewrite Ez, andb_false_r. by rewrite (proj2 (Z.eqb_neq k (-1))), (proj2 (Z.ltb_ge k 15)) by lia. }
    intros (Hb & Hf & fm & -> & Hfm & Hn & Hbits). apply wp_bind_2. eapply wp_get_sv; [done|]. unfold put_sv. wp_steps.
    rewrite Ez in Ei. pose proof (grown_indirect p sv s b fm Hok Hp Hb Hf Hfm Hn Hbits Ei) as Hg.
    match goal with |- wp _ _ ?t => set (s2 := t) in * end.
    assert (vnodes s2 !! p = Some (upd_inode (set_indirect b) sv)) as Hp2 by (unfold s2; simpl; by rewrite lookup_insert_eq).
    replace (replicate 512 0) with (dblk (s_disk s2) b) by (by apply (dblk_put_same (s_disk s) b zeros)).
    eapply wp_mono; [apply (wp_bmap_indirect p s2 _ (grown_ok _ _ _ _ _ Hok Hg) Hp2 k); [unfold NBLK; lia|simpl; lia]|].
    intros r s' Hr. eapply mapped_after; [|done]. intros off. by eapply grown_wrote.
  - rewrite <-Ei in Hne. destruct (ok_slot _ Hok p (-1) Hne) as [Hir Hiu]. rewrite Ei in *.
    apply wp_bind_2. eapply wp_mono; [apply wp_rblock; [by apply ok_hw|lia|lia]|]. intros r s' [-> ->].
    apply (wp_bmap_indirect p s sv Hok Hp k); [unfold NBLK; lia|done].
Qed.

(** Without allocation nothing changes. *)
Lemma wp_bmap_lookup p s sv k : fs_ok s → vnodes s !! p = Some sv → 0 ≤ k < NBLK →
  wp (sfs_bmap p k false) (λ r s', r = inr (slot s p k) ∧ s' = s) s.
Proof.
  intros Hok Hp Hk. unfold sfs_bmap, SFS_NDIRECT, SFS_DBPERIDB. unfold NBLK in Hk. destruct (Z.ltb_spec k 15).
  { unfold bmap_direct. apply wp_bind_2. eapply wp_get_sv; [done|]. apply wp_bind_2.
    eapply wp_of_opt; [apply (direct_slot p s sv Hok Hp); lia|]. rewrite andb_false_r. apply wp_bmap_done; [done|by apply slot_done]. }
  rewrite Z.div_small, Z.mod_small by lia. cbn [Z.ltb Z.compare]. apply wp_bind_2. eapply wp_get_sv; [done|].
  cbn [negb]. rewrite andb_true_r. pose proof (slot_indirect _ _ _ Hp) as Ei. pose proof (ok_geom _ Hok).
  destruct (Z.eqb_spec (sfi_indirect (sv_i sv)) 0) as [Ez|Hne].
  - wp_steps. split; [|done]. rewrite (slot_eq _ _ _ _ Hp). unfold slot_of. rewrite Ez.
    rewrite (proj2 (Z.eqb_neq k (-1))), (proj2 (Z.ltb_ge k 15)), andb_false_r by lia. done.
  - rewrite <-Ei in Hne. destruct (ok_slot _ Hok p (-1) Hne) as [Hir Hiu]. rewrite Ei in *.
    apply wp_bind_2. eapply wp_mono; [apply wp_rblock; [by apply ok_hw|lia|lia]|]. intros r s' [-> ->].
    unfold bmap_indirect. rewrite <-(slot_word s p sv k Hp); [|unfold NBLK; lia|done]. rewrite andb_false_r.
    apply wp_bmap_done; [done|by apply slot_done].
Qed.

Lemma bmap_too_big p k doalloc s : NBLK ≤ k → sfs_bmap p k doalloc s = Ok (inl EFBIG, s).
Proof.
  unfold NBLK, sfs_bmap, SFS_NDIRECT, SFS_DBPERIDB. intros Hk. rewrite (proj2 (Z.ltb_ge k 15)) by lia.
  rewrite (proj2 (Z.ltb_lt 0 _)); [done|]. apply Z.div_str_pos. lia.
Qed.
