(* ===== verification/SfsIo.v ===== *)
(** Reading and writing files of the simple file system ([sfs_partialio],
    [sfs_blockio], [sfs_io], [sfs_read], [sfs_write]): a file is a size and a
    function from offsets to bytes. *)

From stdpp Require Import base tactics numbers list gmap.
From S2P Require Import Prelude KernDefs CopyInOut Bitmap Uio Array Sfs SfsInv SfsMap.
Local Open Scope Z_scope.

(** * One block *)
(** The block of a file as it is read. *)
Definition fblock (s : sfs) (p k : Z) : list Z := if slot s p k =? 0 then zeros else dblk (s_disk s) (slot s p k).

Lemma fblock_length s p k : length (fblock s p k) = 512%nat.
Proof. unfold fblock. destruct (_ =? 0); [done|apply dblk_length]. Qed.
Lemma fblock_at s p k j : 0 ≤ k → 0 ≤ j < 512 → fblock s p k !! Z.to_nat j = Some (content s p (k * 512 + j)).
Proof.
  intros Hk Hj. unfold fblock, content. replace ((k * 512 + j) / 512) with k by (apply Z.div_unique with j; lia).
  replace ((k * 512 + j) mod 512) with j by (apply Z.mod_unique with k; lia).
  destruct (slot s p k =? 0); [apply lookup_replicate_2; lia|]. by apply dblk_at.
Qed.
Lemma fblock_part s p k sk n : 0 ≤ k → 0 ≤ sk → 0 ≤ n → sk + n ≤ 512 →
  take (Z.to_nat n) (drop (Z.to_nat sk) (fblock s p k)) = kget (content s p) (k * 512 + sk) n.
Proof.
  intros Hk Hsk Hn H. apply list_eq. intros i. destruct (decide (Z.of_nat i < n)) as [Hi|Hi].
  - rewrite lookup_take_lt, lookup_drop, kget_lookup by lia.
    replace (Z.to_nat sk + i)%nat with (Z.to_nat (sk + Z.of_nat i)) by lia.
    rewrite fblock_at by lia. do 2 f_equal. lia.
  - rewrite lookup_take_ge, lookup_ge_None_2; [done|rewrite kget_length; lia|lia].
Qed.

(** Storing a block of a file. *)
Lemma wrote_block p k l s sv : fs_ok s → vnodes s !! p = Some sv → 0 ≤ k → slot s p k ≠ 0 → length l = 512%nat →
  wrote p (k * 512) l s (set_disk (kput (s_disk s) (slot s p k * 512) l) [] s).
Proof.
  intros Hok Hp Hk Hne Hl. set (b := slot s p k) in *. set (s' := set_disk _ _ _).
  assert (∀ c, c ≠ b → dblk (s_disk s') c = dblk (s_disk s) c) as Hd
    by (intros c Hc; apply dblk_put_ne; [done|congruence]).
  assert (∀ q j, slot s' q j = slot s q j) as Hs.
  { intros q j. apply slot_same; [done|]. intros Hq. apply Hd. intros E. destruct (ok_inj _ Hok _ _ _ _ E Hq). lia. }
  constructor; try done.
  - destruct Hok. constructor; try done; intros; rewrite ?Hs in *; eauto.
  - exists sv, sv. split_and!; [done..|apply same_meta_refl].
  - intros j. left. apply Hs.
  - intros c _ _ Hc. apply Hd. intros ->. by apply (Hc k).
  - intros q o Ho. pose proof (Z.div_mod o 512 ltac:(lia)) as Edm. pose proof (Z.mod_pos_bound o 512 ltac:(lia)) as Hm.
    destruct (decide (q = p ∧ o / 512 = k)) as [[-> Ek]|Hqk].
    + rewrite decide_True by done. unfold content. rewrite Hs, Ek. fold b. rewrite (proj2 (Z.eqb_neq b 0)) by done.
      simpl. rewrite kput_lookup. replace (b * 512 + o mod 512 - b * 512) with (o - k * 512) by lia.
      destruct (zget l (o - k * 512)) eqn:E; [done|]. apply zget_None in E. lia.
    + assert (content s' q o = content s q o) as ->.
      { apply content_ext; [apply Hs|done|]. intros Hne'. apply Hd. intros E. destruct (ok_inj _ Hok _ _ _ _ E Hne'). naive_solver. }
      case_decide; [|done]. subst q. destruct (zget l (o - k * 512)) eqn:E; [|done].
      apply zget_Some in E as [E1 E2%lookup_lt_Some]. exfalso. apply Hqk. split; [done|].
      symmetry. apply Z.div_unique with (o - k * 512); lia.
Qed.

(** Bytes stored around [piece] are those already there. *)
Lemma wrote_part p k sk s s' piece : 0 ≤ k → 0 ≤ sk → sk + Z.of_nat (length piece) ≤ 512 →
  wrote p (k * 512) (take (Z.to_nat sk) (fblock s p k) ++ piece ++
    drop (length piece) (drop (Z.to_nat sk) (fblock s p k))) s s' → wrote p (k * 512 + sk) piece s s'.
Proof.
  intros Hk Hsk Hlen [W1 W2 W3 W4 W5 W6 W7 W8 W9]. constructor; try done. intros q o Ho. rewrite W9 by done.
  case_decide; [|done]. subst q. pose proof (fblock_length s p k) as Hl. set (old := fblock s p k) in *.
  rewrite zget_app. replace (Z.of_nat (length (take (Z.to_nat sk) old))) with sk by (rewrite length_take; lia).
  rewrite zget_app. rewrite drop_drop. replace (o - k * 512 - sk) with (o - (k * 512 + sk)) by lia.
  destruct (zget (take (Z.to_nat sk) old) (o - k * 512)) as [x|] eqn:E1.
  - apply zget_Some in E1 as [E0 E1]. apply lookup_take_Some in E1 as [E1 E2].
    unfold old in E1. rewrite fblock_at in E1 by lia. simplify_eq.
    unfold zget. rewrite (proj2 (Z.leb_gt _ _)) by lia. simpl. f_equal. lia.
  - destruct (zget piece (o - (k * 512 + sk))) as [x|] eqn:E2; [done|]. simpl.
    match goal with |- default _ ?z = _ => destruct z as [x|] eqn:E3 end; [|done]. simpl.
    apply zget_Some in E3 as [E0 E3]. rewrite lookup_drop in E3. pose proof (lookup_lt_Some _ _ _ E3) as Hlt.
    replace (Z.to_nat sk + length piece + Z.to_nat (o - (k * 512 + sk) - Z.of_nat (length piece)))%nat
      with (Z.to_nat (o - k * 512)) in E3, Hlt by lia.
    unfold old in E3. rewrite fblock_at in E3 by lia. simplify_eq. f_equal. lia.
Qed.

(** * Transfers *)
(** [m] bytes moved between the memory of [u] and file [p] at the offset of [u]. *)
Definition xfer (p : Z) (u : uio) (m : Z) (s : sfs) (u' : uio) (s' : sfs) : Prop :=
  advanced u m u' ∧
  match uio_rw_ u with
  | UIO_READ => s' = set_mem (seg_puts (uio_segflg u) (s_mem s)
      (zip (take (Z.to_nat m) (addrs (uio_iov u))) (kget (content s p) (uio_offset u) m))) s
  | UIO_WRITE => ∃ data,
      Forall2 (λ a b, seg_read (uio_segflg u) (s_mem s) a = Some b) (take (Z.to_nat m) (addrs (uio_iov u))) data ∧
      wrote p (uio_offset u) data s s'
  end.

Lemma xfer_0 p u s sv : fs_ok s → vnodes s !! p = Some sv → uio_ok u 0 → xfer p u 0 s u s.
Proof.
  intros Hok Hp Hu. split; [by apply advanced_0|]. destruct (uio_rw_ u); [simpl; by destruct s|].
  exists []. split; [constructor|by eapply wrote_nil].
Qed.

Lemma xfer_trans p u m n s u1 s1 u2 s2 : 0 ≤ m → 0 ≤ n → m ≤ Z.of_nat (length (addrs (uio_iov u))) →
  xfer p u m s u1 s1 → xfer p u1 n s1 u2 s2 → xfer p u (m + n) s u2 s2.
Proof.
  intros Hm Hn Hl [Ha H1] [Hb H2]. split; [by eapply advanced_trans|].
  pose proof Ha as [A1 A2 A3 (A4 & A5 & A6) A7]. rewrite A5, A4, A2, A1 in H2.
  replace (Z.to_nat (m + n)) with (Z.to_nat m + Z.to_nat n)%nat by lia. rewrite <-take_take_drop.
  destruct (uio_rw_ u).
  - subst s1 s2. unfold set_mem. simpl. f_equal. rewrite <-seg_puts_app. f_equal.
    rewrite <-zip_with_app by (rewrite length_take, kget_length; lia). f_equal.
    unfold kget. rewrite <-fmap_app. by rewrite seqZ_app.
  - destruct H1 as (d1 & F1 & W1), H2 as (d2 & F2 & W2). exists (d1 ++ d2). rewrite (wr_mem _ _ _ _ _ W1) in F2.
    split; [by apply Forall2_app|]. eapply wrote_trans; [done|]. apply Forall2_length in F1. rewrite length_take in F1.
    by replace (uio_offset u + Z.of_nat (length d1)) with (uio_offset u + m) by lia.
Qed.

Lemma fs_ok_mem x s : fs_ok s → fs_ok (set_mem x s).
Proof. intros []. constructor; try done. Qed.

(** What holds again after a transfer. *)
Lemma xfer_next p u m s u' s' sv : fs_ok s → vnodes s !! p = Some sv → xfer p u m s u' s' →
  fs_ok s' ∧ (∃ sv', vnodes s' !! p = Some sv' ∧ same_meta sv sv') ∧
  (∀ n, 0 ≤ m → 0 ≤ n → can_move u (s_mem s) (m + n) → can_move u' (s_mem s') n) ∧
  (space_ok u (s_mem s) → space_ok u' (s_mem s')).
Proof.
  intros Hok Hp [Ha Hx]. assert (∃ l o piece, moved (uio_segflg u) (uio_rw_ u) (s_mem s) l o (s_mem s') piece) as (l & o & pc & Hm).
  { destruct (uio_rw_ u).
    - subst s'. eexists _, _, _. by split.
    - destruct Hx as (d & F & W). exists (take (Z.to_nat m) (addrs (uio_iov u))), [], d. split; [by apply (wr_mem _ _ _ _ _ W)|done]. }
  split_and!.
  - destruct (uio_rw_ u); [subst s'; by apply fs_ok_mem|]. destruct Hx as (d & F & W). apply W.
  - destruct (uio_rw_ u); [subst s'; exists sv; split; [done|apply same_meta_refl]|]. destruct Hx as (d & F & W).
    destruct (wr_file _ _ _ _ _ W) as (v & v' & ? & ? & ?). simplify_eq. eauto.
  - intros n H1 H2 Hc. eapply (can_move_next u m n); [exact H1|exact H2|exact Hc|exact Ha|exact Hm].
  - intros Hsp. eapply space_ok_next; [done|done|by eapply moved_space].
Qed.

(** * The pieces of [sfs_io] *)
Definition maxsize : Z := 73216.   (* 143 blocks *)

(** Why a transfer stops early: the file would get too large, or it needs a block
    and the disk is full. *)
Definition io_error (p : Z) (u' : uio) (s' : sfs) (e : errno) : Prop :=
  e = EFBIG ∧ maxsize ≤ uio_offset u' ∨
  e = ENOSPC ∧ uio_rw_ u' = UIO_WRITE ∧ full s' ∧ slot s' p (uio_offset u' / 512) = 0.

Definition io_post (p : Z) (u : uio) (n : Z) (s : sfs) (r : option errno * uio) (s' : sfs) : Prop :=
  ∃ m, 0 ≤ m ≤ n ∧ xfer p u m s r.2 s' ∧
    match r.1 with
    | None => m = n
    | Some e => io_error p r.2 s' e ∧ (m < n ∨ n = 0) ∧ (m = 0 ∨ (uio_offset u + m) mod 512 = 0)
    end.

(** A file, a [uio] that can move [n] bytes. *)
Record io_pre (p : Z) (u : uio) (n : Z) (s : sfs) : Prop := {
  ip_ok : fs_ok s;
  ip_file : is_Some (vnodes s !! p);
  ip_uio : uio_ok u n;
  ip_mem : can_move u (s_mem s) n;
  ip_space : space_ok u (s_mem s);
  ip_offset : uio_offset u + n < 4294967296;
}.

Lemma io_pre_next p u m n s u' s' : io_pre p u (m + n) s → 0 ≤ m → 0 ≤ n → xfer p u m s u' s' → io_pre p u' n s'.
Proof.
  intros [I1 [sv I2] I3 I4 I5 I6] Hm Hn Hx. destruct (xfer_next _ _ _ _ _ _ _ I1 I2 Hx) as (H1 & (sv' & H2 & _) & H3 & H4).
  destruct Hx as [Ha _]. constructor; [done|by exists sv'|by eapply uio_ok_next|by apply H3|by apply H4|].
  rewrite (ad_offset _ _ _ Ha). lia.
Qed.
Lemma io_pre_le p u n m s : io_pre p u n s → 0 ≤ m ≤ n → io_pre p u m s.
Proof. intros [] Hm. constructor; try done; [by eapply uio_ok_le|by eapply can_move_le|lia]. Qed.

(** The block map as [sfs_partialio] and [sfs_blockio] call it: on an error nothing
    is moved. *)
Lemma wp_bmap_io p u n s (Q : result Z → sfs → Prop) : io_pre p u n s →
  (∀ e s', io_post p u n s (Some e, u) s' → Q (inl e) s') →
  (∀ s1 b, b = slot s1 p (uio_offset u / 512) → uio_offset u / 512 < NBLK →
    (uio_rw_ u = UIO_READ → s1 = s) → (uio_rw_ u = UIO_WRITE → (∀ off, wrote p off [] s s1) ∧ b ≠ 0) → Q (inr b) s1) →
  wp (sfs_bmap p (u32 (uio_offset u / SFS_BLOCKSIZE)) (is_write u)) Q s.
Proof.
  intros [I1 [sv I2] I3 I4 I5 I6] Herr Hok. pose proof I3 as [Hn _ [Ho _] _]. unfold SFS_BLOCKSIZE.
  assert (0 ≤ uio_offset u / 512) as Hk by (apply Z.div_pos; lia).
  assert (uio_offset u / 512 < 8388608) by (apply Z.div_lt_upper_bound; lia).
  rewrite u32_id by lia. assert (uio_ok u 0) as Hu0 by (apply (uio_ok_le u n); [done|lia]).
  destruct (decide (uio_offset u / 512 < NBLK)) as [Hlt|Hge].
  - unfold is_write. destruct (uio_rw_ u) eqn:Erw; simpl.
    + eapply wp_mono; [by eapply wp_bmap_lookup|]. intros r s' [-> ->]. by apply Hok.
    + eapply wp_mono; [by eapply wp_bmap_alloc|]. intros [e|b] s' [Hw Hr].
      * destruct Hr as (-> & Hf & Hz). apply Herr. exists 0. simpl. split; [lia|]. split; [|split_and!; [right; done|lia|by left]].
        split; [by apply advanced_0|]. rewrite Erw. exists []. split; [constructor|done].
      * destruct Hr as [-> Hb]. by apply Hok.
  - unfold wp. rewrite bmap_too_big by lia. apply Herr. exists 0. simpl. split; [lia|]. split; [by eapply xfer_0|].
    split_and!; [left; split; [done|]|lia|by left]. unfold maxsize, NBLK in *. pose proof (Z.mul_div_le (uio_offset u) 512). lia.
Qed.

(** Reading the block into the buffer. *)
Lemma wp_read_block p k s sv rw : fs_ok s → vnodes s !! p = Some sv → (rw = UIO_WRITE → slot s p k ≠ 0) →
  wp (if slot s p k =? 0 then kassert (negb (bool_decide (rw = UIO_WRITE)));; mret (inr (replicate 512 0))
      else sfs_rblock (slot s p k)) (λ r s', r = inr (fblock s p k) ∧ s' = s) s.
Proof.
  intros Hok Hp Hw. unfold fblock. destruct (Z.eqb_spec (slot s p k) 0) as [E|Hne].
  - wp_steps. apply wp_kassert; [|by wp_steps]. destruct rw; [done|]. by destruct (Hw eq_refl).
  - destruct (ok_slot _ Hok _ _ Hne). pose proof (ok_geom _ Hok). apply wp_rblock; [by apply ok_hw|lia|lia].
Qed.

Lemma xfer_read_part p u n s u' k sk : 0 ≤ k → 0 ≤ sk → 0 ≤ n → sk + n ≤ 512 → uio_offset u = k * 512 + sk →
  uio_rw_ u = UIO_READ → advanced u n u' →
  xfer p u n s u' (set_mem (seg_puts (uio_segflg u) (s_mem s)
    (zip (take (Z.to_nat n) (addrs (uio_iov u))) (take (Z.to_nat n) (drop (Z.to_nat sk) (fblock s p k))))) s).
Proof.
  intros Hk Hsk Hn H Eo Erw Ha. split; [done|]. rewrite Erw, Eo. by rewrite fblock_part.
Qed.

Lemma xfer_wrote p u n s s1 u' s' data : uio_rw_ u = UIO_WRITE → advanced u n u' → (∀ off, wrote p off [] s s1) →
  Forall2 (λ a b, seg_read (uio_segflg u) (s_mem s1) a = Some b) (take (Z.to_nat n) (addrs (uio_iov u))) data →
  wrote p (uio_offset u) data s1 s' → xfer p u n s u' s'.
Proof.
  intros Erw Ha H0 HF Hw. split; [done|]. rewrite Erw. exists data. rewrite (wr_mem _ _ _ _ _ (H0 0)) in HF.
  split; [done|]. change data with ([] ++ data). eapply wrote_trans; [apply H0|]. simpl. by rewrite Z.add_0_r.
Qed.

Lemma io_pre_after p u n s s1 : io_pre p u n s → (∀ off, wrote p off [] s s1) → io_pre p u n s1.
Proof.
  intros [I1 I2 I3 I4 I5 I6] H. specialize (H 0). destruct (wr_file _ _ _ _ _ H) as (v & v' & _ & Hv & _).
  constructor; rewrite ?(wr_mem _ _ _ _ _ H); try done. apply H.
Qed.

Lemma wp_partialio p u sk n s : io_pre p u n s → sk = uio_offset u mod 512 → sk + n ≤ 512 →
  wp (sfs_partialio p u sk n) (io_post p u n s) s.
Proof.
  intros Hpre Esk Hsk. pose proof Hpre as [I1 [sv I2] I3 I4 I5 I6]. pose proof I3 as [Hn _ [Ho _] _].
  pose proof (Z.mod_pos_bound (uio_offset u) 512 ltac:(lia)) as Hm. rewrite <-Esk in Hm.
  assert (uio_offset u = uio_offset u / 512 * 512 + sk) as Eo by (pose proof (Z.div_mod (uio_offset u) 512); lia).
  assert (0 ≤ uio_offset u / 512) as Hk by (apply Z.div_pos; lia). set (k := uio_offset u / 512) in *.
  unfold sfs_partialio. apply wp_bind_2, wp_kassert; [unfold SFS_BLOCKSIZE; rewrite u32_id by lia; blia|].
  apply wp_bind_2. eapply wp_bmap_io; [done| |]; fold k.
  { intros e s' He. by wp_steps. }
  intros s1 b -> Hk' Hr Hw.
  assert (io_pre p u n s1) as Hpre1.
  { destruct (uio_rw_ u); [by rewrite Hr|]. destruct Hw; [done|]. by eapply io_pre_after. }
  pose proof Hpre1 as [J1 [sv1 J2] _ J4 J5 _]. apply wp_bind_2.
  eapply wp_mono; [apply (wp_read_block p k s1 sv1 (uio_rw_ u)); [done|done|by intros ?; apply Hw]|].
  intros r s2 [-> ->]. unfold iobuf_move. wp_steps. apply wp_zoom.
  eapply wp_mono; [apply wp_uiomove; [done| |done|done]|].
  { rewrite length_drop, fblock_length. lia. }
  intros r x' (pc & u' & -> & Hpc & Hmv & Ha). wp_steps. pose proof Ha as [A1 A2 A3 (A4 & A5 & A6) A7].
  unfold is_write. rewrite A5. destruct (uio_rw_ u) eqn:Erw; simpl.
  - destruct Hmv as [-> ->]. rewrite (Hr eq_refl) in *. wp_steps. exists n. simpl. split; [lia|]. split; [|done].
    apply (xfer_read_part p u n s u' k sk); done || lia.
  - destruct Hmv as [-> HF]. rewrite set_mem_id. destruct (Hw eq_refl) as [H0 Hb]. wp_steps.
    destruct (ok_slot _ J1 _ _ Hb). pose proof (ok_geom _ J1).
    eapply wp_mono; [apply wp_wblock; [by apply ok_hw|lia|lia|]|].
    { rewrite !length_app, length_take, !length_drop, fblock_length. lia. }
    intros r s' [-> ->]. wp_steps. exists n. simpl. split; [lia|]. split; [|done].
    eapply xfer_wrote; [done|done|done|done|]. rewrite Eo. apply wrote_part; [done|lia|lia|].
    replace (length pc) with (Z.to_nat n) by lia. eapply wrote_block; try done.
    rewrite !length_app, length_take, !length_drop, fblock_length. lia.
Qed.

Lemma wp_blockio p u s : io_pre p u 512 s → uio_offset u mod 512 = 0 → wp (sfs_blockio p u) (io_post p u 512 s) s.
Proof.
  intros Hpre Em. pose proof Hpre as [I1 [sv I2] I3 I4 I5 I6]. pose proof I3 as [Hn [Hres Hr32] [Ho _] Hlens].
  assert (uio_offset u = uio_offset u / 512 * 512) as Eo by (pose proof (Z.div_mod (uio_offset u) 512); lia).
  assert (0 ≤ uio_offset u / 512) as Hk by (apply Z.div_pos; lia). set (k := uio_offset u / 512) in *.
  unfold sfs_blockio. apply wp_bind_2. eapply wp_bmap_io; [done| |]; fold k.
  { intros e s' He. by wp_steps. }
  intros s1 b -> Hk' Hr Hw. unfold SFS_BLOCKSIZE.
  assert (io_pre p u 512 s1) as Hpre1.
  { destruct (uio_rw_ u); [by rewrite Hr|]. destruct Hw; [done|]. by eapply io_pre_after. }
  pose proof Hpre1 as [J1 [sv1 J2] _ J4 J5 _].
  destruct (Z.eqb_spec (slot s1 p k) 0) as [Ez|Hne].
  - destruct (uio_rw_ u) eqn:Erw; [|by destruct (Hw eq_refl)]. rewrite (Hr eq_refl) in *. unfold is_write. rewrite Erw. wp_steps.
    apply wp_zoom. eapply wp_mono; [by apply wp_uiomovezeros|]. intros r x' (u' & -> & Ha & ->).
    exists 512. simpl. split; [lia|]. split; [|done].
    pose proof (xfer_read_part p u 512 s u' k 0 Hk ltac:(lia) ltac:(lia) ltac:(lia) ltac:(lia) Erw Ha) as Hx.
    unfold fblock in Hx. by rewrite Ez in Hx.
  - destruct (ok_slot _ J1 _ _ Hne) as [Hb _]. pose proof (ok_geom _ J1). rewrite (u32_id (_ * _)) by lia.
    apply wp_bind_2, wp_kassert; [blia|]. set (ut := set_resid 512 (set_offset (slot s1 p k * 512) u)).
    apply wp_bind_2. eapply wp_mono.
    { apply (wp_rwblock ut (slot s1 p k)); [by apply ok_hw|lia|lia|done|done| |done|done].
      constructor; simpl; [lia|lia|lia|done]. }
    intros r s' (u1 & -> & [A1 A2 A3 (A4 & A5 & A6) A7] & Hbm). wp_steps. simpl in A1, A2, A3, A4, A5, A6.
    rewrite s64_id, u32_id by lia. exists 512. simpl. split; [lia|]. split; [|done].
    match goal with |- xfer _ _ _ _ ?v _ => set (u' := v) end.
    assert (advanced u 512 u') as Ha by (constructor; simpl; [done|lia|lia|done|done]).
    unfold block_moved in Hbm. simpl in Hbm. destruct (uio_rw_ u) eqn:Erw.
    + rewrite (Hr eq_refl) in *. subst s'.
      pose proof (xfer_read_part p u 512 s u' k 0 Hk ltac:(lia) ltac:(lia) ltac:(lia) ltac:(lia) Erw Ha) as Hx.
      unfold fblock in Hx. rewrite (proj2 (Z.eqb_neq _ _) Hne) in Hx. change (Z.to_nat 0) with 0%nat in Hx.
      change (Z.to_nat 512) with 512%nat in Hx. rewrite drop_0, (take_ge (dblk _ _)) in Hx by (rewrite dblk_length; lia). done.
    + destruct Hbm as (l & Hl & HF & ->). destruct (Hw eq_refl) as [H0 _].
      eapply xfer_wrote; [done|done|done|done|]. rewrite Eo. by eapply wrote_block.
Qed.

(** ** Putting the pieces together *)
Lemma io_post_trans p u m n s u1 s1 r s2 : io_pre p u (m + n) s → 0 ≤ m →
  (0 < n ∧ (uio_offset u + m) mod 512 = 0) ∨ m = 0 ∨ r.1 = None → 0 ≤ n →
  xfer p u m s u1 s1 → io_post p u1 n s1 r s2 → io_post p u (m + n) s r s2.
Proof.
  intros Hpre Hm Hn Hn0 Hx (j & Hj & Hx2 & Hr). exists (m + j). split; [lia|]. split.
  - eapply xfer_trans; [lia|lia| |done|done]. destruct (ip_uio _ _ _ _ Hpre) as [? [? ?] _ _]. lia.
  - destruct (r.1) as [e|]; [|lia]. destruct Hr as (He & Hlt & Hal). split; [done|]. destruct Hx as [Ha _].
    rewrite (ad_offset _ _ _ Ha) in Hal. rewrite Z.add_assoc.
    destruct Hn as [[Hn Hm']|[->|]]; [|lia|done]. split; [lia|]. right. destruct Hal as [->|Hal]; [by rewrite Z.add_0_r|done].
Qed.
Lemma io_post_stop p u m n s e u1 s1 : 0 ≤ m → 0 ≤ n → io_post p u m s (Some e, u1) s1 → io_post p u (m + n) s (Some e, u1) s1.
Proof. intros Hm Hn (j & Hj & Hx & He & Hlt & Hal). exists j. split; [lia|]. split; [done|]. split; [done|]. split; [lia|done]. Qed.

(** A piece of [m] bytes, and then the rest. *)
Lemma wp_io_then {p u m n s} (f : M sfs (option errno * uio)) (g : uio → M sfs (option errno * uio)) :
  io_pre p u (m + n) s → 0 ≤ m → 0 ≤ n → wp f (io_post p u m s) s →
  (∀ u' s', xfer p u m s u' s' → io_pre p u' n s' →
    wp (g u') (λ r s'', io_post p u' n s' r s'' ∧ ((0 < n ∧ (uio_offset u + m) mod 512 = 0) ∨ m = 0 ∨ r.1 = None)) s') →
  wp ('(r, u) ← f; match r with Some e => mret (Some e, u) | None => g u end) (io_post p u (m + n) s) s.
Proof.
  intros Hpre Hm Hn Hf Hg. apply wp_bind_2. eapply wp_mono; [exact Hf|]. intros [[e|] u1] s1 Hp.
  - wp_steps. by apply io_post_stop.
  - destruct Hp as (j & Hj & Hx & ->). eapply wp_mono; [apply Hg; [done|by eapply io_pre_next]|].
    intros r s2 [H1 H2]. by eapply io_post_trans.
Qed.

Lemma io_post_0 p u s : io_pre p u 0 s → io_post p u 0 s (None, u) s.
Proof. intros [H1 [sv H2] H3 _ _ _]. exists 0. split; [lia|]. split; [by eapply xfer_0|done]. Qed.

Lemma mod_512_add o k : (o + 512 * k) mod 512 = o mod 512.
Proof. rewrite Z.mul_comm. apply Z_mod_plus_full. Qed.

Lemma wp_io_blocks N p : ∀ u s, io_pre p u (512 * Z.of_nat N) s → uio_offset u mod 512 = 0 →
  wp (io_blocks N p u) (λ r s', io_post p u (512 * Z.of_nat N) s r s' ∧ (N = 0%nat → r.1 = None)) s.
Proof.
  induction N as [|N IH]; intros u s Hpre Em; cbn [io_blocks].
  { wp_steps. split; [by apply io_post_0|done]. }
  eapply wp_mono with (P := io_post p u (512 + 512 * Z.of_nat N) s).
  2:{ intros r s' H. split; [|done]. by replace (512 * Z.of_nat (S N)) with (512 + 512 * Z.of_nat N) by lia. }
  replace (512 * Z.of_nat (S N)) with (512 + 512 * Z.of_nat N) in Hpre by lia.
  apply wp_io_then; [done|lia|lia|apply wp_blockio; [|done]; eapply io_pre_le; [done|lia]|].
  intros u' s' Hx Hpre'. eapply wp_mono; [apply IH; [done|]|].
  { destruct Hx as [Ha _]. rewrite (ad_offset _ _ _ Ha). by rewrite (mod_512_add _ 1). }
  intros r s2 [H1 H2]. split; [done|]. destruct N; [right; right; by apply H2|]. left. split; [lia|].
  by rewrite (mod_512_add _ 1).
Qed.

(** The part from the first block boundary on. *)
Definition io_tail (p : Z) (u : uio) : M sfs (option errno * uio) :=
  if uio_resid u =? 0 then mret (None, u)
  else
    kassert (uio_offset u mod SFS_BLOCKSIZE =? 0);;
    '(r, u) ← io_blocks (Z.to_nat (uio_resid u / SFS_BLOCKSIZE)) p u;
    match r with
    | Some e => mret (Some e, u)
    | None =>
        kassert (uio_resid u <? SFS_BLOCKSIZE);;
        if 0 <? uio_resid u then sfs_partialio p u 0 (uio_resid u) else mret (None, u)
    end.

Lemma wp_io_tail p u s : io_pre p u (uio_resid u) s → (uio_resid u ≠ 0 → uio_offset u mod 512 = 0) →
  wp (io_tail p u) (λ r s', io_post p u (uio_resid u) s r s' ∧ (0 < uio_resid u ∨ r.1 = None)) s.
Proof.
  intros Hpre Hal. pose proof (uo_n _ _ (ip_uio _ _ _ _ Hpre)) as Hn. unfold io_tail, SFS_BLOCKSIZE.
  destruct (Z.eqb_spec (uio_resid u) 0) as [E|Hne].
  { wp_steps. split; [|by right]. rewrite E in *. by apply io_post_0. }
  specialize (Hal Hne). apply wp_bind_2, wp_kassert; [blia|].
  set (n := uio_resid u) in *. pose proof (Z.div_mod n 512 ltac:(lia)). pose proof (Z.mod_pos_bound n 512 ltac:(lia)).
  assert (0 ≤ n / 512) by (apply Z.div_pos; lia). set (N := Z.to_nat (n / 512)).
  assert (n = 512 * Z.of_nat N + n mod 512) as En by lia.
  eapply wp_mono with (P := io_post p u (512 * Z.of_nat N + n mod 512) s).
  2:{ intros r s' Hr. rewrite <-En in Hr. split; [done|lia]. }
  rewrite En in Hpre. apply wp_io_then; [done|lia|lia| |].
  { eapply wp_mono; [apply wp_io_blocks; [eapply io_pre_le; [done|lia]|done]|]. by intros r s' [Hr _]. }
  intros u' s' [Ha Hx] Hpre'. assert (uio_resid u' = n mod 512) as Er by (rewrite (ad_resid _ _ _ Ha); fold n; lia).
  apply wp_bind_2, wp_kassert; [rewrite Er; blia|]. destruct (Z.ltb_spec 0 (uio_resid u')).
  - rewrite <-Er in *. eapply wp_mono; [apply wp_partialio; [done| |lia]|].
    { rewrite (ad_offset _ _ _ Ha), mod_512_add. lia. }
    intros r s2 Hr. split; [done|]. left. split; [lia|]. by rewrite mod_512_add.
  - assert (n mod 512 = 0) as E0 by lia. rewrite E0 in *. wp_steps. split; [by apply io_post_0|by right; right].
Qed.

Lemma wp_io_body p u s : io_pre p u (uio_resid u) s → wp (io_body p u) (io_post p u (uio_resid u) s) s.
Proof.
  intros Hpre. pose proof (uo_n _ _ (ip_uio _ _ _ _ Hpre)) as Hn.
  pose proof (uo_offset _ _ (ip_uio _ _ _ _ Hpre)) as Ho.
  pose proof (Z.mod_pos_bound (uio_offset u) 512 ltac:(lia)) as Hm. unfold io_body, SFS_BLOCKSIZE.
  set (sk := uio_offset u mod 512) in *. set (n := uio_resid u) in *.
  set (m := if sk =? 0 then 0 else if n <? 512 - sk then n else 512 - sk).
  assert (0 ≤ m ≤ n ∧ (sk ≠ 0 → m = Z.min n (512 - sk)) ∧ (sk = 0 → m = 0)) as (Hm1 & Hm2 & Hm3).
  { unfold m. destruct (Z.eqb_spec sk 0), (Z.ltb_spec n (512 - sk)); lia. }
  assert (n = m + (n - m)) as En by lia. eapply wp_mono with (P := io_post p u (m + (n - m)) s).
  2:{ intros r s'. by rewrite <-En. }
  rewrite En in Hpre. apply wp_io_then; [done|lia|lia| |].
  - destruct (Z.eqb_spec sk 0) as [E|Hne]; simpl.
    + rewrite Hm3 by done. wp_steps. apply io_post_0. eapply io_pre_le; [done|lia].
    + replace (if n <? 512 - sk then n else 512 - sk) with m
        by (rewrite Hm2 by done; destruct (Z.ltb_spec n (512 - sk)); lia).
      apply wp_partialio; [eapply io_pre_le; [done|lia]|done|lia].
  - intros u' s' [Ha Hx] Hpre'. assert (uio_resid u' = n - m) as Er by (by rewrite (ad_resid _ _ _ Ha)).
    rewrite <-Er in *. assert (uio_resid u' ≠ 0 → (uio_offset u + m) mod 512 = 0) as Hal.
    2:{ eapply wp_mono; [apply wp_io_tail; [done|by rewrite (ad_offset _ _ _ Ha)]|].
        intros r s2 [H1 [H2|H2]]; (split; [done|]); [left; split; [done|apply Hal; lia]|by right; right]. }
    + intros Hne. destruct (decide (sk = 0)) as [E|E].
      * rewrite Hm3 by done. by rewrite Z.add_0_r.
      * rewrite Hm2 by done. replace (uio_offset u + n `min` (512 - sk)) with (0 + (uio_offset u / 512 + 1) * 512).
        { by rewrite Z_mod_plus_full. }
        pose proof (Z.div_mod (uio_offset u) 512 ltac:(lia)) as Hdm. change (uio_offset u mod 512) with sk in Hdm. lia.
Qed.

(** * Whole reads and writes *)
(** The new size of an inode. *)
Lemma fs_ok_resize s p sv n : fs_ok s → vnodes s !! p = Some sv →
  let s' := set_vnodes (<[p := upd_inode (set_size n) sv]> (vnodes s)) s in
  fs_ok s' ∧ (∀ q k, slot s' q k = slot s q k) ∧ (∀ q o, content s' q o = content s q o).
Proof.
  intros Hok Hp s'. assert (∀ q k, slot s' q k = slot s q k) as Hs.
  { intros q k. destruct (decide (q = p)) as [->|Hq].
    - rewrite (slot_eq _ _ _ _ Hp). unfold slot, inode_of, s'. simpl. by rewrite lookup_insert_eq.
    - unfold slot, inode_of, s'. simpl. by rewrite lookup_insert_ne. }
  split_and!; [|done|].
  - pose proof Hok as []. constructor; try done; intros; rewrite ?Hs in *; eauto.
    unfold s' in *. simpl in *. destruct (decide (p0 = p)) as [->|]; simplify_map_eq; eauto.
  - intros q o. unfold content. by rewrite Hs.
Qed.

(** The memory a read leaves: [m] bytes of the file at the offset of [u]. *)
Definition read_into (p : Z) (u : uio) (m : Z) (s : sfs) : sfs :=
  set_mem (seg_puts (uio_segflg u) (s_mem s)
    (zip (take (Z.to_nat m) (addrs (uio_iov u))) (kget (content s p) (uio_offset u) m))) s.

Lemma wp_sfs_read p u s sv : io_pre p u (uio_resid u) s → vnodes s !! p = Some sv → uio_rw_ u = UIO_READ →
  wp (sfs_read p u) (λ r s', ∃ m, 0 ≤ m ∧ s' = read_into p u m s ∧ advanced u m r.2 ∧
    match r.1 with
    | None => m = Z.max 0 (Z.min (uio_resid u) (sfi_size (sv_i sv) - uio_offset u))
    | Some e => e = EFBIG ∧ maxsize ≤ uio_offset u + m < sfi_size (sv_i sv)
    end) s.
Proof.
  intros Hpre Hp Erw. pose proof Hpre as [I1 _ I3 I4 I5 I6]. pose proof I3 as [Hn [Hr1 Hr2] [Ho _] Hlens].
  unfold sfs_read, sfs_io, is_write. rewrite Erw. simpl. wp_steps. eapply wp_get_sv; [done|].
  set (size := sfi_size (sv_i sv)). rewrite s64_id by lia. destruct (Z.leb_spec size (uio_offset u)) as [Hle|Hlt].
  { wp_steps. exists 0. split; [lia|]. split; [unfold read_into; simpl; by destruct s|]. split; [|simpl; lia].
    apply advanced_0. apply (uio_ok_le u (uio_resid u)); [done|lia]. }
  set (x := if size <? uio_offset u + uio_resid u then u32 (uio_offset u + uio_resid u - size) else 0).
  assert (x = Z.max 0 (uio_offset u + uio_resid u - size)) as Ex.
  { unfold x. destruct (Z.ltb_spec size (uio_offset u + uio_resid u)); [rewrite u32_id by lia|]; lia. }
  apply wp_bind_2, wp_kassert.
  { destruct (Z.eqb_spec x 0); [done|]. simpl. blia. }
  set (n := uio_resid u - x). assert (n = Z.min (uio_resid u) (size - uio_offset u)) as En by lia.
  set (ur := set_resid n u). apply wp_bind_2. eapply wp_mono; [apply (wp_io_body p ur)|].
  { constructor; [done|by exists sv|constructor; simpl; try done; lia| |done|simpl; lia].
    apply (can_move_le u (s_mem s) (uio_resid u)); [done|simpl; lia]. }
  intros [r u1] s1 (m & Hm & [Ha Hx] & Hres). simpl in Hm, Ha, Hx, Hres. rewrite Erw in Hx. subst s1.
  pose proof Ha as [A1 A2 A3 (A4 & A5 & A6) A7]. simpl in A1, A2, A3, A4, A5, A6.
  wp_steps. eapply wp_get_sv; [done|]. rewrite A5, Erw. simpl. wp_steps. exists m.
  split; [lia|]. split; [done|]. split.
  - constructor; simpl; try done. rewrite u32_id; lia.
  - simpl. destruct r as [e|]; [|lia]. destruct Hres as [[[-> He]|(_ & Hw & _)] Hlt']; [|congruence]. split; [done|]. lia.
Qed.

(** What a write comes to: the bytes [data] are in the file and nothing else has
    changed. *)
Record written (p : Z) (u : uio) (data : list Z) (s : sfs) (r : option errno) (u' : uio) (s' : sfs) : Prop := {
  wn_uio : advanced u (Z.of_nat (length data)) u';
  wn_data : Forall2 (λ a b, seg_read (uio_segflg u) (s_mem s) a = Some b) (take (length data) (addrs (uio_iov u))) data;
  wn_ok : fs_ok s' ∧ s_mem s' = s_mem s;
  wn_size : size_of s' p = Z.max (size_of s p) (uio_offset u + Z.of_nat (length data));
  wn_content : ∀ o, 0 ≤ o → content s' p o = default (content s p o) (zget data (o - uio_offset u));
  wn_others : ∀ q, q ≠ p → vnodes s' !! q = vnodes s !! q ∧ ∀ o, 0 ≤ o → content s' q o = content s q o;
  wn_blocks : ∀ b, 0 ≤ b < sp_nblocks s → used s b = true → (∀ k, slot s p k ≠ b) →
    used s' b = true ∧ dblk (s_disk s') b = dblk (s_disk s) b;
  wn_result : match r with
    | None => Z.of_nat (length data) = uio_resid u
    | Some e => io_error p u' s' e ∧ (data = [] ∨ uio_offset u' mod 512 = 0) ∧
        (Z.of_nat (length data) < uio_resid u ∨ uio_resid u = 0)
    end;
  wn_meta : ∃ sv sv', vnodes s !! p = Some sv ∧ vnodes s' !! p = Some sv' ∧ keep_meta sv sv';
  wn_slots : ∀ k, slot s' p k = slot s p k ∨ slot s p k = 0 ∧ used s (slot s' p k) = false;
  wn_geom : d_blocks s' = d_blocks s ∧ sp_nblocks s' = sp_nblocks s ∧ sfs_vnodes s' = sfs_vnodes s ∧ s_heap s' = s_heap s;
}.

Lemma wp_sfs_write p u s : io_pre p u (uio_resid u) s → uio_rw_ u = UIO_WRITE →
  wp (sfs_write p u) (λ r s', ∃ data, written p u data s r.1 r.2 s') s.
Proof.
  intros Hpre Erw. pose proof Hpre as [I1 [sv Hp] I3 I4 I5 I6]. pose proof I3 as [Hn [Hr1 Hr2] [Ho _] Hlens].
  unfold sfs_write, sfs_io, is_write. rewrite Erw. simpl. wp_steps. eapply wp_get_sv; [done|].
  rewrite Z.sub_0_r. replace (set_resid (uio_resid u) u) with u by (by destruct u).
  wp_steps. eapply wp_mono; [by apply wp_io_body|]. intros [r u1] s1 (m & Hm & [Ha Hx] & Hres). simpl in Ha, Hres.
  rewrite Erw in Hx. destruct Hx as (data & HF & Hw).
  pose proof Ha as [A1 A2 A3 (A4 & A5 & A6) A7].
  assert (m = Z.of_nat (length data)) as ->.
  { apply Forall2_length in HF. rewrite length_take in HF. lia. }
  rewrite Nat2Z.id in HF. destruct (wr_file _ _ _ _ _ Hw) as (v0 & sv1 & E0 & E1 & (HM & M3)).
  simplify_eq. wp_steps. eapply wp_get_sv; [done|]. rewrite A5, Erw, M3. simpl.
  set (u' := set_resid _ u1). assert (u' = u1) as Eu.
  { unfold u'. rewrite Z.add_0_r, u32_id by lia. by destruct u1. }
  rewrite Eu. assert (size_of s p = sfi_size (sv_i sv)) as Esz by (unfold size_of, inode_of; by rewrite Hp).
  destruct Hw as [W1 W2 W3 W4 W5 W6 W7 W8 W9].
  destruct (Z.ltb_spec (sfi_size (sv_i sv)) (uio_offset u1)) as [Hlt|Hge]; wp_steps.
  - rewrite u32_id by lia. unfold put_sv. wp_steps. exists data.
    destruct (fs_ok_resize s1 p sv1 (uio_offset u1) W1 E1) as (R1 & R2 & R3).
    constructor; try done.
    + rewrite Esz. unfold size_of, inode_of. simpl. rewrite lookup_insert_eq. simpl. lia.
    + intros o Hoo. rewrite R3, W9 by done. by rewrite decide_True.
    + intros q Hq. split; [simpl; by rewrite lookup_insert_ne, W4|]. intros o Hoo. rewrite R3, W9 by done. by rewrite decide_False.
    + intros b Hb Hu Hk. split; [by apply W7|by apply W8].
    + simpl. destruct r; [|done]. destruct Hres as (He & Hlt' & Hal). split; [unfold io_error; by rewrite R2|]. rewrite A2. split; [|done].
      destruct Hal as [Hal|]; [|by right]. left. by destruct data.
    + exists sv. eexists. simpl. rewrite lookup_insert_eq. split_and!; [done..|].
      destruct HM. constructor; try done. by left.
    + intros k. rewrite R2. apply W6.
  - exists data. constructor; try done.
    + rewrite Esz. unfold size_of, inode_of. rewrite E1. simpl. rewrite M3. lia.
    + intros o Hoo. rewrite W9 by done. by rewrite decide_True.
    + intros q Hq. split; [by apply W4|]. intros o Hoo. rewrite W9 by done. by rewrite decide_False.
    + intros b Hb Hu Hk. split; [by apply W7|by apply W8].
    + simpl. destruct r; [|done]. destruct Hres as (He & Hlt' & Hal). split; [done|]. rewrite A2. split; [|done].
      destruct Hal as [Hal|]; [|by right]. left. by destruct data.
    + by exists sv, sv1.
Qed.

(** C7: Reading a file. [sfs_read] returns, changes nothing but the memory of the
    [uio], and stores there, in order, the bytes of the file from the offset on, up
    to the end of the file or of the request; holes read as zeros; at or past the
    end nothing is read. The only error is [EFBIG], for a file whose size is beyond
    the largest block the map can hold. *)
Theorem sfs_read_returns_content p u s sv :
  io_pre p u (uio_resid u) s → vnodes s !! p = Some sv → uio_rw_ u = UIO_READ →
  ∃ r u' m, 0 ≤ m ∧ sfs_read p u s = Ok ((r, u'), read_into p u m s) ∧ advanced u m u' ∧
    match r with
    | None => m = Z.max 0 (Z.min (uio_resid u) (sfi_size (sv_i sv) - uio_offset u))
    | Some e => e = EFBIG ∧ maxsize ≤ uio_offset u + m < sfi_size (sv_i sv)
    end.
Proof.
  intros Hpre Hp Erw. pose proof (wp_sfs_read p u s sv Hpre Hp Erw) as ([r u'] & s' & E & m & Hm & -> & Ha & Hr)%wp_exists.
  by exists r, u', m.
Qed.

(** C6: Writing a file. [sfs_write] returns; some prefix [data] of the memory of the
    [uio] is now in the file at its offset, the rest of the file, every other loaded
    file and every block in use that is not the file's own are as before (the
    blocks allocated on the way were free and hold zeros around the data); the size
    is the larger of the old one and the end of the data. Without an error all of
    it is written; the errors are [EFBIG], past block 142, and [ENOSPC], with
    no block free, and come with nothing or whole blocks written. *)
Theorem sfs_write_updates_content p u s : io_pre p u (uio_resid u) s → uio_rw_ u = UIO_WRITE →
  ∃ r u' s' data, sfs_write p u s = Ok ((r, u'), s') ∧ written p u data s r u' s'.
Proof.
  intros Hpre Erw. pose proof (wp_sfs_write p u s Hpre Erw) as ([r u'] & s' & E & data & Hw)%wp_exists.
  by exists r, u', s', data.
Qed.

(** A small file system: 64 blocks, one file of 5 bytes in block 3. *)
Module Demo.
Definition inode : sfs_inode := Inode 5 SFS_TYPE_FILE 1 (3 :: replicate 14 0) 0 (replicate 440 0).
Definition fs : sfs := Sfs (XMem (λ x, x mod 256) demo_um 7) (λ x, x mod 256) [] 64 64
  (Bitmap 64 (15 :: replicate 7 0)) false {[ 1000 := SfsVnode inode 2 false 1 0 ]}
  (Array [Some 1000; None; None; None] 1 4) [].

Lemma fs_slot p k : slot fs p k = if decide (p = 1000 ∧ k = 0) then 3 else 0.
Proof.
  unfold slot, inode_of. simpl. destruct (decide (p = 1000)) as [->|Hp].
  - rewrite lookup_singleton_eq. simpl. unfold slot_of. simpl. destruct (Z.eqb_spec k (-1)); [by rewrite decide_False by lia|].
    rewrite andb_false_r. destruct (Z.ltb_spec k 15); [|by rewrite decide_False by lia].
    unfold zget. destruct (Z.leb_spec 0 k); [|by rewrite decide_False by lia].
    destruct (decide (k = 0)) as [->|Hk]; [done|]. rewrite decide_False by naive_solver.
    replace (Z.to_nat k) with (S (Z.to_nat (k - 1))) by lia. simpl. rewrite lookup_replicate_2 by lia. done.
  - rewrite lookup_singleton_ne by done. simpl. by rewrite decide_False by naive_solver.
Qed.

Lemma fs_map_ok : bm_ok (sfs_freemap fs).
Proof.
  constructor; simpl; [lia|done| |intros i Hi; simpl in Hi; lia].
  intros [|i] w Hi; simpl in Hi; simplify_eq; [lia|]. apply lookup_replicate_1 in Hi as [-> _]. lia.
Qed.

Lemma fs_is_ok : fs_ok fs.
Proof.
  constructor; simpl; try done; try lia.
  - split; [apply fs_map_ok|simpl; lia].
  - intros p sv [<- <-]%lookup_singleton_Some. done.
  - intros p k. rewrite fs_slot. case_decide; [|done]. intros _. split; [lia|done].
  - intros p k q l. rewrite !fs_slot. repeat case_decide; naive_solver.
Qed.

Definition user_uio (rw : uio_rw) (off n : Z) : uio := Uio [Iovec 0 n] off n UIO_SYSSPACE rw 0.

Lemma fs_pre rw off n : 0 ≤ off → 0 ≤ n → off + n < 4294967296 → io_pre 1000 (user_uio rw off n) n fs.
Proof.
  intros Ho Hn H. constructor; [apply fs_is_ok|by eexists| |done|done|done].
  constructor; simpl; [lia| |lia|by repeat constructor]. rewrite app_nil_r, length_seqZ. lia.
Qed.
End Demo.

Lemma sfs_read_returns_content_witness : ∃ r u' m, 0 ≤ m ∧
  sfs_read 1000 (Demo.user_uio UIO_READ 1 600) Demo.fs = Ok ((r, u'), read_into 1000 (Demo.user_uio UIO_READ 1 600) m Demo.fs) ∧
  r = None ∧ m = 4.
Proof.
  destruct (sfs_read_returns_content 1000 (Demo.user_uio UIO_READ 1 600) Demo.fs (SfsVnode Demo.inode 2 false 1 0))
    as (r & u' & m & Hm & E & _ & Hr).
  - apply (Demo.fs_pre UIO_READ 1 600); lia.
  - done.
  - done.
  - exists r, u', m. split; [done|]. split; [done|]. destruct r as [e|]; simpl in Hr; [|done].
    destruct Hr as [_ [? ?]]. unfold maxsize in *. lia.
Defined.

Lemma sfs_write_updates_content_witness : ∃ r u' s' data,
  sfs_write 1000 (Demo.user_uio UIO_WRITE 3 1200) Demo.fs = Ok ((r, u'), s') ∧
  written 1000 (Demo.user_uio UIO_WRITE 3 1200) data Demo.fs r u' s'.
Proof. apply sfs_write_updates_content; [apply (Demo.fs_pre UIO_WRITE 3 1200); lia|done]. Defined.

(** * Defects *)
Section too_big.
Context (p : Z) (u : uio) (s : sfs).
Hypothesis Hoff : maxsize ≤ uio_offset u < 1099511627776.

Lemma far_block : NBLK ≤ u32 (uio_offset u / SFS_BLOCKSIZE).
Proof using All.
  unfold maxsize, SFS_BLOCKSIZE, NBLK in *. assert (143 ≤ uio_offset u / 512) by (apply Z.div_le_lower_bound; lia).
  assert (uio_offset u / 512 < 4294967296) by (apply Z.div_lt_upper_bound; lia). rewrite u32_id; lia.
Qed.
Lemma partialio_too_big sk n : 0 ≤ sk → 0 ≤ n → sk + n ≤ 512 → sfs_partialio p u sk n s = Ok ((Some EFBIG, u), s).
Proof using All.
  intros H1 H2 H3. unfold sfs_partialio. rewrite (u32_id (sk + n)) by lia. unfold SFS_BLOCKSIZE at 1.
  rewrite (proj2 (Z.leb_le _ _)) by done. unfold kassert, mbind, M_bind, mret, M_ret.
  by rewrite bmap_too_big by apply far_block.
Qed.
Lemma blockio_too_big : sfs_blockio p u s = Ok ((Some EFBIG, u), s).
Proof using All. unfold sfs_blockio, mbind, M_bind. by rewrite bmap_too_big by apply far_block. Qed.

Lemma io_body_too_big : 0 < uio_resid u → io_body p u s = Ok ((Some EFBIG, u), s).
Proof using All.
  intros Hr. pose proof (Z.mod_pos_bound (uio_offset u) 512 ltac:(lia)) as Hm.
  unfold io_body. unfold mbind, M_bind at 1. unfold SFS_BLOCKSIZE. destruct (Z.eqb_spec (uio_offset u mod 512) 0) as [E|E]; simpl.
  - unfold mret at 1, M_ret at 1. rewrite (proj2 (Z.eqb_neq (uio_resid u) 0)) by lia.
    rewrite E. unfold M_bind, kassert, mret, M_ret. destruct (Z.to_nat (uio_resid u / 512)) eqn:EN; simpl.
    + assert (uio_resid u < 512). { apply Z.nle_gt. intros H. apply (Z.div_le_mono _ _ 512) in H; [|lia]. rewrite Z.div_same in H; lia. }
      rewrite (proj2 (Z.ltb_lt (uio_resid u) 512)), (proj2 (Z.ltb_lt 0 _)) by lia. apply partialio_too_big; lia.
    + unfold mbind, M_bind. by rewrite blockio_too_big.
  - rewrite partialio_too_big; [done|lia|destruct (Z.ltb_spec (uio_resid u) (512 - uio_offset u mod 512)); lia..].
Qed.
End too_big.

(** A write beyond the largest file fails with [EFBIG] and moves no byte, but the
    size of the file becomes the offset of the failed write all the same, reduced
    to 32 bits: the file claims data no block can hold, or, from 4 GiB on, loses
    what is beyond the remainder. *)
Theorem failed_write_changes_size p u s sv : vnodes s !! p = Some sv → uio_rw_ u = UIO_WRITE →
  maxsize ≤ uio_offset u < 1099511627776 → 0 < uio_resid u < 4294967296 → sfi_size (sv_i sv) < uio_offset u →
  sfs_write p u s =
    Ok ((Some EFBIG, u), set_vnodes (<[p := upd_inode (set_size (u32 (uio_offset u))) sv]> (vnodes s)) s).
Proof.
  intros Hp Erw Hoff Hr Hs. unfold sfs_write, sfs_io, is_write, get_sv. rewrite Erw. simpl.
  unfold kassert, of_opt, mbind, M_bind, mret, M_ret, getS. rewrite Hp. simpl.
  rewrite Z.sub_0_r. replace (set_resid (uio_resid u) u) with u by (by destruct u).
  rewrite io_body_too_big by lia. rewrite Hp, Erw. simpl. rewrite (proj2 (Z.ltb_lt _ _)) by done.
  unfold put_sv, modify. rewrite Z.add_0_r, u32_id by lia. by destruct u.
Qed.

Lemma failed_write_changes_size_witness :
  sfs_write 1000 (Demo.user_uio UIO_WRITE 4294967296 10) Demo.fs = Ok ((Some EFBIG, Demo.user_uio UIO_WRITE 4294967296 10),
    set_vnodes (<[1000 := SfsVnode (Inode 0 SFS_TYPE_FILE 1 (3 :: replicate 14 0) 0 (replicate 440 0)) 2 true 1 0]> (vnodes Demo.fs)) Demo.fs).
Proof.
  apply (failed_write_changes_size 1000 (Demo.user_uio UIO_WRITE 4294967296 10) Demo.fs (SfsVnode Demo.inode 2 false 1 0));
    simpl; [done|done|unfold maxsize; lia|lia|lia].
Defined.

Section retry.
Context (s : sfs) (b : Z) (h : list (option errno)).
Hypotheses (Hb : 0 ≤ b < d_blocks s) (Hd : d_blocks s ≤ 8388608).

Lemma lhd_write_fails : s_hw s = Some EIO :: h →
  wp (lhd_io (SFSUIO b UIO_WRITE)) (λ r s', ∃ u', r = (Some EIO, u') ∧ advanced (SFSUIO b UIO_WRITE) 512 u' ∧
    s' = set_disk (s_disk s) h s) s.
Proof using Hb Hd.
  intros Hhw. unfold lhd_io. wp_steps. unfold LHD_SECTSIZE, SFSUIO, SFS_BLOCKSIZE. simpl. rewrite Z.mod_mul, Z.div_mul by lia.
  change (512 mod 512) with 0. change (512 / 512) with 1. cbn [Z.eqb negb orb].
  rewrite (u32_id b), u32_id, (proj2 (Z.ltb_ge _ _)) by lia.
  change (Z.to_nat 1) with 1%nat. cbn [lhd_sectors]. wp_steps. apply wp_zoom.
  eapply wp_mono; [apply wp_uiomove; [apply (kbuf_ok s b Hb Hd)|done|done|done]|].
  intros r x' (pc & u' & -> & Hp & Hm & Ha). destruct Hm as [-> HF]. pose proof Ha as [_ _ _ (_ & A5 & _) _].
  simpl in A5. cbv beta iota. wp_steps. unfold hw_op. wp_steps. simpl. rewrite Hhw. wp_steps.
  exists u'. split_and!; [done..|]. by destruct s.
Qed.

(** The [uio] is used up: nothing is left to do. *)
Lemma lhd_nothing_left u' : advanced (SFSUIO b UIO_WRITE) 512 u' → lhd_io u' s = Ok ((None, u'), s).
Proof using Hb Hd.
  intros [_ A2 A3 _ _]. simpl in A2, A3. unfold SFS_BLOCKSIZE in *.
  unfold lhd_io, mbind, M_bind, getS, LHD_SECTSIZE. rewrite A2, A3. simpl.
  replace (b * 512 + 512) with ((b + 1) * 512) by lia. rewrite Z.mod_mul, Z.div_mul by lia. simpl.
  rewrite Z.add_0_r, wrapu_idemp, u32_id, (proj2 (Z.ltb_ge _ _)) by lia. done.
Qed.
End retry.

Lemma rwblock_try_eq n u : rwblock_try n u = ('(r, u) ← lhd_io u;
  if decide (r = Some EINVAL) then panic
  else if decide (r = Some EIO) then match n with O => mret (r, u) | S n => rwblock_try n u end
  else mret (r, u)).
Proof. by destruct n. Qed.

(** A write the disk fails once is lost. The driver has used up the [uio] when
    the error comes, so that the retry of [sfs_rwblock] has nothing to do and
    reports success: [sfs_wblock] returns 0 and the block on disk is unchanged. *)
Theorem write_retry_loses_block s b data h : s_hw s = Some EIO :: h → 0 ≤ b < d_blocks s → d_blocks s ≤ 8388608 →
  length data = 512%nat → sfs_wblock data b s = Ok (None, set_disk (s_disk s) h s).
Proof.
  intros Hhw Hb Hd Hl. assert (wp (sfs_wblock data b) (λ r s', r = None ∧ s' = set_disk (s_disk s) h s) s)
    as (r & s' & -> & -> & ->)%wp_exists; [|done].
  unfold sfs_wblock, with_kbuf, sfs_rwblock. wp_steps. rewrite rwblock_try_eq. wp_steps.
  eapply wp_mono; [by apply (lhd_write_fails _ b h)|]. intros r s1 (u' & -> & Ha & ->).
  rewrite decide_False, decide_True, rwblock_try_eq by done. wp_steps.
  unfold wp at 1. rewrite (lhd_nothing_left _ b) by done. rewrite !decide_False by done. wp_steps.
  split; [done|]. by destruct s as [[]].
Qed.

Lemma write_retry_loses_block_witness :
  let s := set_disk (s_disk Demo.fs) [Some EIO] Demo.fs in sfs_wblock zeros 3 s = Ok (None, Demo.fs).
Proof. apply (write_retry_loses_block (set_disk (s_disk Demo.fs) [Some EIO] Demo.fs) 3 zeros []); simpl; [done|lia|lia|done]. Defined.
