(* ===== verification/SfsTrunc.v ===== *)
(** Truncation of files of the simple file system ([sfs_bfree], [sfs_truncate]):
    which blocks it frees, and which it keeps by mistake. *)

From stdpp Require Import base tactics numbers list gmap.
From S2P Require Import Prelude KernDefs CopyInOut Bitmap Uio Sfs SfsInv SfsMap SfsIo.
Local Open Scope Z_scope.

(** * Freeing blocks *)
(** [s'] is [s] with the blocks of [P] no longer in use. *)
Definition freed (P : Z → Prop) (s s' : sfs) : Prop :=
  ∃ fm dirty, s' = set_freemap fm dirty s ∧ bm_ok fm ∧ nbits fm = nbits (sfs_freemap s) ∧
    ∀ c, 0 ≤ c < nbits fm → (bit fm c = true ↔ used s c = true ∧ ¬ P c).

Lemma freed_none s (P : Z → Prop) : bm_ok (sfs_freemap s) → (∀ c, ¬ P c) → freed P s s.
Proof. intros Hb HP. exists (sfs_freemap s), (sfs_freemapdirty s). split_and!; [by destruct s|done|done|]. intros c Hc. naive_solver. Qed.
Lemma freed_trans (P Q R : Z → Prop) s s1 s2 : (∀ c, R c ↔ P c ∨ Q c) → freed P s s1 → freed Q s1 s2 → freed R s s2.
Proof.
  intros HR (f1 & d1 & -> & B1 & N1 & H1) (f2 & d2 & -> & B2 & N2 & H2). exists f2, d2. simpl in *.
  split_and!; [done|done|congruence|]. intros c Hc. rewrite H2, HR by done. unfold used at 1. simpl. rewrite H1 by lia. naive_solver.
Qed.
Lemma freed_iff (P Q : Z → Prop) s s' : (∀ c, P c ↔ Q c) → freed P s s' → freed Q s s'.
Proof. intros H (f & d & -> & B & N & HP). exists f, d. split_and!; try done. intros c Hc. rewrite HP, H by done. done. Qed.

Lemma wp_bfree b s : bm_ok (sfs_freemap s) → 0 ≤ b < nbits (sfs_freemap s) → used s b = true →
  wp (sfs_bfree b) (λ _ s', freed (λ c, c = b) s s') s.
Proof.
  intros Hb Hr Hu. unfold sfs_bfree. apply wp_bind_2, wp_zoom.
  destruct (holds_bit (sfs_freemap s) (nbits (sfs_freemap s)) (used s) b) as (_ & H & _); [done|done|].
  rewrite Hu in H. destruct H as (fm & E & B1 & B2 & B3). unfold wp at 1. simpl sub_get. rewrite E. wp_steps.
  exists fm, true. split_and!; [done|done|done|]. intros c Hc. rewrite B3 by lia. case_decide; naive_solver.
Qed.

(** The blocks to be freed are in use, each once. *)
Definition freeable {I} (P : I → Prop) (f : I → Z) (s : sfs) : Prop :=
  (∀ j, P j → f j ≠ 0 → 0 ≤ f j < nbits (sfs_freemap s) ∧ used s (f j) = true) ∧
  (∀ i j, P i → P j → f i = f j → f i ≠ 0 → i = j).

Lemma freeable_next {I} (P Q : I → Prop) (f : I → Z) j0 s s1 : freeable P f s → P j0 → f j0 ≠ 0 →
  (∀ j, Q j → P j ∧ j ≠ j0) → freed (λ c, c = f j0) s s1 → freeable Q f s1.
Proof.
  intros [H1 H2] Hj0 Hf0 HQ (fm & d & -> & Hb & Hn & Hbits). split.
  - intros j Hj Hne. destruct (HQ j Hj) as [HPj Hjj]. destruct (H1 j HPj Hne) as [Hr Hu]. simpl. rewrite Hn.
    split; [done|]. unfold used. simpl. apply Hbits; [lia|]. split; [done|]. intros E. apply Hjj. by apply H2.
  - intros i j Hi Hj. apply H2; by apply HQ.
Qed.
Lemma freeable_sub {I} (P Q : I → Prop) (f : I → Z) s : freeable P f s → (∀ j, Q j → P j) → freeable Q f s.
Proof. intros [H1 H2] HQ. split; eauto. Qed.
Lemma freed_ok P s s' : freed P s s' → bm_ok (sfs_freemap s').
Proof. by intros (fm & d & -> & H & _). Qed.

Lemma freeable_tail bl i b l s :
  freeable (λ j, (j < length (b :: l))%nat ∧ bl ≤ i + Z.of_nat j ∧ j ≠ 0%nat) (λ j, default 0 ((b :: l) !! j)) s →
  freeable (λ j, (j < length l)%nat ∧ bl ≤ i + 1 + Z.of_nat j) (λ j, default 0 (l !! j)) s.
Proof.
  intros [H1 H2]. split.
  - intros j [Hj Hj']. apply (H1 (S j)). cbn [length]. lia.
  - intros j k [Hj Hj'] [Hk Hk'] E Hz. apply Nat.succ_inj. apply (H2 (S j) (S k)); cbn [length]; [lia|lia|done|done].
Qed.

Lemma wp_trunc_direct bl l : ∀ i s, bm_ok (sfs_freemap s) →
  freeable (λ j, (j < length l)%nat ∧ bl ≤ i + Z.of_nat j) (λ j, default 0 (l !! j)) s →
  wp (trunc_direct l i bl) (λ l' s', length l' = length l ∧
    (∀ j, default 0 (l' !! j) = if decide (bl ≤ i + Z.of_nat j) then 0 else default 0 (l !! j)) ∧
    freed (λ c, c ≠ 0 ∧ ∃ j, bl ≤ i + Z.of_nat j ∧ default 0 (l !! j) = c) s s') s.
Proof.
  induction l as [|b l IH]; intros i s Hb Hf; cbn [trunc_direct].
  { wp_steps. split_and!; [done|intros j; by case_decide|]. apply freed_none; [done|]. intros c (Hc & j & _ & E).
    rewrite lookup_nil in E. done. }
  assert (∀ (P : Z → Prop) s1, P = (λ c, b = c ∧ c ≠ 0 ∧ bl ≤ i) → bm_ok (sfs_freemap s1) →
    freeable (λ j, (j < length l)%nat ∧ bl ≤ i + 1 + Z.of_nat j) (λ j, default 0 (l !! j)) s1 → freed P s s1 →
    wp (trunc_direct l (i + 1) bl) (λ l' s', let l'' := (if decide (bl ≤ i) then 0 else b) :: l' in
      length l'' = length (b :: l) ∧
      (∀ j, default 0 (l'' !! j) = if decide (bl ≤ i + Z.of_nat j) then 0 else default 0 ((b :: l) !! j)) ∧
      freed (λ c, c ≠ 0 ∧ ∃ j, bl ≤ i + Z.of_nat j ∧ default 0 ((b :: l) !! j) = c) s s') s1) as Hrest.
  { intros P s1 -> Hb1 Hf1 Hfr. eapply wp_mono; [by apply IH|]. intros l' s' (L1 & L2 & L3). simpl. split_and!.
    - by rewrite L1.
    - intros [|j]; [by rewrite Z.add_0_r|]. simpl. rewrite L2. by replace (i + 1 + Z.of_nat j) with (i + Z.of_nat (S j)) by lia.
    - eapply freed_trans; [|exact Hfr|exact L3]. intros c. simpl. split.
      + intros (Hc & [|j] & Hj & E); [left; simpl in *; rewrite Z.add_0_r in Hj; done|right].
        split; [done|]. exists j. split; [lia|done].
      + intros [(-> & Hc & Hi)|(Hc & j & Hj & E)]; (split; [done|]); [exists 0%nat; split; [lia|done]|].
        exists (S j). split; [lia|done]. }
  apply wp_bind_2. destruct (Z.leb_spec bl i) as [Hle|Hgt]; simpl.
  - destruct (Z.eqb_spec b 0) as [->|Hne]; simpl; wp_steps.
    + eapply wp_mono; [eapply Hrest; [done|done| |]|].
      * apply (freeable_tail _ _ 0). eapply freeable_sub; [exact Hf|]. naive_solver.
      * apply freed_none; [done|]. naive_solver.
      * intros l' s'. rewrite decide_True by done. intros H. by wp_steps.
    + destruct (proj1 Hf 0%nat) as [Hr Hu]; [simpl; lia|done|]. simpl in Hr, Hu.
      eapply wp_mono; [by apply wp_bfree|]. intros [] s1 Hs1. wp_steps.
      eapply wp_mono; [eapply Hrest; [done|by eapply freed_ok| |]|].
      * apply (freeable_tail _ _ b).
        eapply (freeable_next _ _ _ 0%nat); [exact Hf|simpl; lia|done|naive_solver|done].
      * eapply freed_iff; [|done]. naive_solver.
      * intros l' s'. rewrite decide_True by done. intros H. by wp_steps.
  - wp_steps. eapply wp_mono; [eapply Hrest; [done|done| |]|].
    + apply (freeable_tail _ _ b). eapply freeable_sub; [exact Hf|]. naive_solver.
    + apply freed_none; [done|]. intros c (_ & _ & H). lia.
    + intros l' s'. rewrite decide_False by lia. intros H. by wp_steps.
Qed.

(** What the loop over the words from [j] on leaves. *)
Definition cut_words (bl j : Z) (buf : list Z) (hn : bool) (s : sfs) (r : list Z * bool * bool) (s' : sfs) : Prop :=
  let '(buf', hn', d') := r in
  length buf' = 512%nat ∧
  (∀ t, 0 ≤ t < 128 → word_at buf' t = if decide (j ≤ t ∧ bl < 15 + t) then 0 else word_at buf t) ∧
  (hn' = true ↔ hn = true ∨ ∃ t, j ≤ t < 128 ∧ word_at buf' t ≠ 0) ∧
  (d' = false → buf' = buf) ∧
  freed (λ c, c ≠ 0 ∧ ∃ t, j ≤ t < 128 ∧ bl < 15 + t ∧ word_at buf t = c) s s'.

(** The loop from [j + 1] on, after the word [j] was dealt with. *)
Lemma cut_words_step bl j buf buf1 hn dirty s s1 r s' : length buf = 512%nat → 0 ≤ j < 128 →
  (∀ t, 0 ≤ t < 128 → word_at buf1 t = if decide (t = j ∧ bl < 15 + j) then 0 else word_at buf t) →
  (dirty = false → buf1 = buf) →
  freed (λ c, c ≠ 0 ∧ bl < 15 + j ∧ word_at buf j = c) s s1 →
  (r.2 = false → dirty = false) →
  cut_words bl (j + 1) buf1 (if word_at buf1 j =? 0 then hn else true) s1 r s' → cut_words bl j buf hn s r s'.
Proof.
  intros Hl Hj Hw Hd Hfr Hr. destruct r as [[buf' hn'] d']. intros (L & W & H & D & F). simpl in Hr.
  assert (word_at buf' j = word_at buf1 j) as Ej by (rewrite W by lia; by rewrite decide_False by lia).
  split_and!; [done| | | |].
  - intros t Ht. rewrite W, Hw by lia. repeat case_decide; try lia; done.
  - rewrite H. split.
    + intros [Hh|(t & Ht & Hne)]; [|right; exists t; split; [lia|done]].
      destruct (Z.eqb_spec (word_at buf1 j) 0); [by left|]. right. exists j. split; [lia|congruence].
    + intros [->|(t & Ht & Hne)]; [left; by destruct (_ =? 0)|]. destruct (decide (t = j)) as [->|].
      * left. by rewrite <-Ej, (proj2 (Z.eqb_neq _ _)).
      * right. exists t. split; [lia|done].
  - intros ->. rewrite D by done. by apply Hd, Hr.
  - eapply freed_trans; [|exact Hfr|exact F]. intros c. split.
    + intros (Hc & t & Ht & Hb & E). destruct (decide (t = j)) as [->|]; [by left|]. right. split; [done|]. exists t.
      split_and!; [lia|lia|lia|]. rewrite Hw by lia. by rewrite decide_False by naive_solver.
    + intros [(Hc & Hb & E)|(Hc & t & Ht & Hb & E)]; (split; [done|]); [exists j; split; [lia|done]|].
      exists t. split_and!; [lia|lia|lia|]. rewrite Hw in E by lia. by rewrite decide_False in E by lia.
Qed.

Lemma wp_trunc_indirect bl n : ∀ j buf hn dirty s, length buf = 512%nat → 0 ≤ j → j + Z.of_nat n = 128 →
  bm_ok (sfs_freemap s) → freeable (λ t, j ≤ t < 128 ∧ bl < 15 + t) (word_at buf) s →
  wp (trunc_indirect n j bl buf hn dirty) (λ r s', cut_words bl j buf hn s r s' ∧ (r.2 = false → dirty = false)) s.
Proof.
  induction n as [|n IH]; intros j buf hn dirty s Hl Hj Hn Hb Hf; cbn [trunc_indirect].
  { wp_steps. split; [|done]. split_and!; [done| | |done|].
    - intros t Ht. by rewrite decide_False by lia.
    - split; [by left|]. intros [?|(t & Ht & _)]; [done|lia].
    - apply freed_none; [done|]. intros c (_ & t & Ht & _). lia. }
  unfold SFS_NDIRECT. apply wp_bind_2. destruct (Z.ltb_spec bl (15 + j)) as [Hlt|Hge]; simpl.
  - destruct (Z.eqb_spec (word_at buf j) 0) as [E|Hne]; simpl; wp_steps.
    + eapply wp_mono; [apply IH; try done; try lia|].
      { eapply freeable_sub; [exact Hf|]. intros t [? ?]. lia. }
      intros r s' [Hc Hd]. split; [|done]. eapply (cut_words_step bl j buf buf hn dirty); try done; [lia| |].
      * intros t Ht. case_decide as Hc'; [|done]. by destruct Hc' as [-> _].
      * apply freed_none; [done|]. naive_solver.
    + destruct (proj1 Hf j) as [Hr Hu]; [lia|done|]. eapply wp_mono; [by apply wp_bfree|]. intros [] s1 Hs1. wp_steps.
      assert (∀ t, 0 ≤ t < 128 → word_at (set_word j 0 buf) t = if decide (t = j ∧ bl < 15 + j) then 0 else word_at buf t) as Hw.
      { intros t Ht. rewrite word_at_set by (done || lia). repeat case_decide; naive_solver. }
      eapply wp_mono; [apply IH; [by apply set_word_length; [lia|]|lia|lia|by eapply freed_ok|]|].
      { assert (freeable (λ t, j + 1 ≤ t < 128 ∧ bl < 15 + t) (word_at buf) s1) as [F1 F2].
        { eapply (freeable_next _ _ _ j); [exact Hf|simpl; lia|done| |done]. intros t [? ?]. split; lia. }
        split.
        - intros t [Ht Ht'] Hz. rewrite Hw, decide_False in * by lia. by apply F1.
        - intros t t' [Ht Ht'] [Hu1 Hu2]. rewrite !Hw, !decide_False by lia. apply F2; lia. }
      intros r s' [Hc Hd]. split; [|intros E; specialize (Hd E); done].
      eapply (cut_words_step bl j buf (set_word j 0 buf) hn true); try done; [lia|].
      eapply freed_iff; [|done]. naive_solver.
  - wp_steps. eapply wp_mono; [apply IH; try done; try lia|].
    { eapply freeable_sub; [exact Hf|]. intros t [? ?]. lia. }
    intros r s' [Hc Hd]. split; [|done]. eapply (cut_words_step bl j buf buf hn dirty); try done; [lia| |].
    + intros t Ht. by rewrite decide_False by lia.
    + apply freed_none; [done|]. intros c (_ & ? & _). lia.
Qed.

(** * The whole of [sfs_truncate] *)
(** The blocks a truncation to [bl] blocks keeps. *)
Definition kept (bl k : Z) : bool := (k <? bl) || ((15 <=? k) && (k =? bl)).

(** File [p] has lost blocks and nothing else has changed. *)
Record shrunk (p bl : Z) (s s' : sfs) : Prop := {
  sh_state : s_hw s' = [] ∧ s_mem s' = s_mem s ∧ d_blocks s' = d_blocks s ∧ sp_nblocks s' = sp_nblocks s ∧
    sfs_vnodes s' = sfs_vnodes s ∧ s_heap s' = s_heap s;
  sh_map : bm_ok (sfs_freemap s') ∧ nbits (sfs_freemap s') = nbits (sfs_freemap s);
  sh_used : ∀ c, 0 ≤ c < nbits (sfs_freemap s) →
    (used s' c = true ↔ used s c = true ∧ ¬ ∃ k, slot s p k = c ∧ c ≠ 0 ∧ slot s' p k = 0);
  sh_others : ∀ q, q ≠ p → vnodes s' !! q = vnodes s !! q;
  sh_file : ∃ sv sv', vnodes s !! p = Some sv ∧ vnodes s' !! p = Some sv' ∧ length (sfi_direct (sv_i sv')) = 15%nat ∧ keep_meta sv sv';
  sh_slots : ∀ k, 0 ≤ k → slot s' p k = if kept bl k then slot s p k else 0;
  sh_ind : slot s' p (-1) = slot s p (-1) ∨ slot s' p (-1) = 0;
  sh_empty : bl < 142 → (∀ k, 15 ≤ k < NBLK → slot s' p k = 0) → slot s' p (-1) = 0;
  sh_disk : ∀ c, c ≠ slot s p (-1) → dblk (s_disk s') c = dblk (s_disk s) c;
}.

Section shrinking.
Context (p bl : Z) (s s' : sfs).
Hypotheses (Hok : fs_ok s) (Hs : shrunk p bl s s').

Lemma sh_less k : slot s' p k ≠ 0 → slot s' p k = slot s p k.
Proof using All.
  intros Hne. destruct (decide (k < -1)); [by rewrite slot_far in Hne by lia|].
  destruct (decide (k = -1)) as [->|]; [by destruct (sh_ind _ _ _ _ Hs)|].
  rewrite (sh_slots _ _ _ _ Hs) in * by lia. by destruct (kept bl k).
Qed.
Lemma sh_other_slots q k : q ≠ p → slot s' q k = slot s q k.
Proof using All.
  intros Hq. apply slot_same; [unfold inode_of; by rewrite (sh_others _ _ _ _ Hs)|]. intros Hne. apply (sh_disk _ _ _ _ Hs).
  intros E. by destruct (ok_inj _ Hok _ _ _ _ E Hne) as [-> _].
Qed.
Lemma sh_slot q k : slot s' q k ≠ 0 → slot s' q k = slot s q k.
Proof using All. destruct (decide (q = p)) as [->|]; [apply sh_less|by rewrite sh_other_slots]. Qed.
Lemma sh_keeps q k : slot s' q k ≠ 0 → used s' (slot s' q k) = true.
Proof using All.
  intros Hne. pose proof (sh_slot q k Hne) as E. rewrite E in *. destruct (ok_slot _ Hok q k Hne) as [Hr Hu].
  pose proof (ok_map _ Hok). apply (sh_used _ _ _ _ Hs); [lia|]. split; [done|]. intros (j & Ej & _ & Ez).
  destruct (ok_inj _ Hok q k p j) as [-> ->]; [congruence|done|]. congruence.
Qed.

Lemma shrunk_ok : fs_ok s'.
Proof using All.
  pose proof Hok as [O1 [O2 O2'] [O3 O4] O5 O6 O7 O8 O9].
  pose proof Hs as [(G1 & _ & G2 & G3 & _) [G4 G5] G6 G7 G8 G9 _ _ _].
  constructor; rewrite ?G2, ?G3, ?G5; try done.
  - intros c Hc. apply G6; [lia|]. split; [by apply O5|]. intros (k & E & Hne & _). rewrite <-E in Hne.
    destruct (O8 p k Hne). lia.
  - apply G6; [lia|]. split; [done|]. naive_solver.
  - intros q v Hv. destruct (decide (q = p)) as [->|Hq]; [|rewrite G7 in Hv by done; eauto].
    destruct G8 as (v0 & v1 & _ & E & Hl & _). by simplify_eq.
  - intros q k Hne. split; [|by apply sh_keeps]. rewrite sh_slot in * by done. by apply O8.
  - intros q k r l E Hne. pose proof (sh_slot q k Hne). pose proof (sh_slot r l ltac:(congruence)). apply O9; congruence.
Qed.

Lemma shrunk_content q o : 0 ≤ o →
  content s' q o = if decide (q = p ∧ kept bl (o / 512) = false) then 0 else content s q o.
Proof using All.
  intros Ho. assert (0 ≤ o / 512) by (apply Z.div_pos; lia). case_decide as Hd.
  - destruct Hd as [-> Hk]. unfold content. by rewrite (sh_slots _ _ _ _ Hs), Hk by done.
  - assert (slot s' q (o / 512) = slot s q (o / 512)) as E.
    { destruct (decide (q = p)) as [->|]; [|by apply sh_other_slots]. rewrite (sh_slots _ _ _ _ Hs) by done.
      destruct (kept bl (o / 512)); naive_solver. }
    apply content_ext; [done|done|]. intros Hne. apply (sh_disk _ _ _ _ Hs). intros Ei.
    destruct (ok_inj _ Hok _ _ _ _ Ei Hne). lia.
Qed.
End shrinking.

Section trunc.
Context (p : Z) (s : sfs) (sv : sfs_vnode) (bl : Z).
Hypotheses (Hok : fs_ok s) (Hp : vnodes s !! p = Some sv).

(** The state with another inode for [p], another free map and another disk. *)
Definition trunc_state (i : sfs_inode) (dirty : bool) (fm : bitmap) (fd : bool) (disk : Z → Z) : sfs :=
  set_vnodes (<[p := SfsVnode i (sv_ino sv) dirty (vn_refcount sv) (vn_opencount sv)]> (vnodes s)) (set_freemap fm fd (set_disk disk [] s)).

Lemma trunc_slot i dirty fm fd disk k : slot (trunc_state i dirty fm fd disk) p k = slot_of disk i k.
Proof. unfold slot, inode_of, trunc_state. simpl. by rewrite lookup_insert_eq. Qed.

Lemma shrunk_intro (P : Z → Prop) i fm fd disk : length (sfi_direct i) = 15%nat →
  sfi_type i = sfi_type (sv_i sv) → sfi_linkcount i = sfi_linkcount (sv_i sv) → sfi_waste i = sfi_waste (sv_i sv) →
  bm_ok fm → nbits fm = nbits (sfs_freemap s) →
  (∀ c, 0 ≤ c < nbits fm → (bit fm c = true ↔ used s c = true ∧ ¬ P c)) →
  (∀ k, 0 ≤ k → slot_of disk i k = if kept bl k then slot s p k else 0) →
  sfi_indirect i = slot s p (-1) ∨ sfi_indirect i = 0 →
  (∀ c, c ≠ slot s p (-1) → dblk disk c = dblk (s_disk s) c) →
  (∀ c, P c ↔ ∃ k, slot s p k = c ∧ c ≠ 0 ∧ slot_of disk i k = 0) →
  (bl < 142 → (∀ k, 15 ≤ k < NBLK → slot_of disk i k = 0) → sfi_indirect i = 0) →
  shrunk p bl s (trunc_state i true fm fd disk).
Proof using Hp.
  intros H1 H1a H1b H1c H2 H3 H4 H5 H6 H7 H8 H9. constructor; try done.
  - intros c Hc. unfold used at 1. simpl. rewrite H4, H8 by lia. setoid_rewrite trunc_slot. done.
  - intros q Hq. simpl. by rewrite lookup_insert_ne.
  - exists sv. eexists. simpl. rewrite lookup_insert_eq. split_and!; [done..|]. constructor; try done. by left.
  - intros k Hk. rewrite trunc_slot. by apply H5.
  - by rewrite trunc_slot.
  - intros Hbl. setoid_rewrite trunc_slot. by apply H9.
Qed.

(** *** The direct blocks *)
Definition cut_direct (l' : list Z) : Prop := length l' = 15%nat ∧
  ∀ j : nat, default 0 (l' !! j) = if decide (bl ≤ 0 + Z.of_nat j) then 0 else default 0 (sfi_direct (sv_i sv) !! j).
Definition gone_direct (c : Z) : Prop :=
  c ≠ 0 ∧ ∃ j : nat, bl ≤ 0 + Z.of_nat j ∧ default 0 (sfi_direct (sv_i sv) !! j) = c.

Lemma direct_slot_nat (j : nat) : default 0 (sfi_direct (sv_i sv) !! j) = if decide (j < 15)%nat then slot s p (Z.of_nat j) else 0.
Proof using Hok Hp.
  pose proof (ok_direct _ Hok _ _ Hp) as Hl. case_decide.
  - rewrite (slot_eq _ _ _ _ Hp). unfold slot_of. rewrite (proj2 (Z.eqb_neq _ (-1))), (proj2 (Z.ltb_lt _ 15)) by lia. by rewrite zget_nat.
  - by rewrite lookup_ge_None_2 by lia.
Qed.
Lemma gone_direct_iff c : gone_direct c ↔ c ≠ 0 ∧ ∃ k, bl ≤ k ∧ 0 ≤ k < 15 ∧ slot s p k = c.
Proof using Hok Hp.
  unfold gone_direct. split.
  - intros (Hc & j & Hj & E). split; [done|]. rewrite direct_slot_nat in E. case_decide; [|done].
    exists (Z.of_nat j). split_and!; [lia|lia|lia|done].
  - intros (Hc & k & Hk & Hk' & E). split; [done|]. exists (Z.to_nat k). split; [lia|].
    rewrite direct_slot_nat, decide_True by lia. by rewrite Z2Nat.id by lia.
Qed.
Lemma cut_direct_slot l' i disk k : cut_direct l' → sfi_direct i = l' → 0 ≤ k < 15 →
  slot_of disk i k = if kept bl k then slot s p k else 0.
Proof using Hok Hp.
  intros [Hl Hd] <- Hk. unfold slot_of. rewrite (proj2 (Z.eqb_neq k (-1))), (proj2 (Z.ltb_lt k 15)) by lia.
  unfold zget. rewrite (proj2 (Z.leb_le 0 k)), Hd, direct_slot_nat by lia.
  destruct (decide (Z.to_nat k < 15)%nat); [|lia]. rewrite Z2Nat.id by lia.
  unfold kept. rewrite (proj2 (Z.leb_gt 15 k)) by lia. rewrite orb_false_r. case_decide; destruct (Z.ltb_spec k bl); lia || done.
Qed.

(** The first half of the function. *)
Lemma wp_trunc_first (Q : unit → sfs → Prop) :
  (∀ l' dirty fm fd, cut_direct l' → freed gone_direct s (set_freemap fm fd s) →
    Q tt (trunc_state (set_direct l' (sv_i sv)) dirty fm fd (s_disk s))) →
  wp (l ← trunc_direct (sfi_direct (sv_i sv)) 0 bl;
      if bool_decide (l = sfi_direct (sv_i sv)) then mret tt else put_sv p (upd_inode (set_direct l) sv)) Q s.
Proof using Hok Hp.
  intros HQ. pose proof (ok_map _ Hok) as [Hm Hn]. pose proof (ok_direct _ Hok _ _ Hp) as Hl. apply wp_bind_2.
  eapply wp_mono; [apply wp_trunc_direct; [done|]|].
  { split.
    - intros j [Hj _]. rewrite direct_slot_nat. rewrite Hl in Hj. rewrite decide_True by done. intros Hne. destruct (ok_slot _ Hok _ _ Hne). split; [lia|done].
    - intros i j [Hi _] [Hj _]. rewrite Hl in Hi, Hj.
      rewrite !direct_slot_nat, !decide_True by done. intros E Hne.
      destruct (ok_inj _ Hok _ _ _ _ E Hne). lia. }
  intros l' s1 (L1 & L2 & Hfr). rewrite Hl in L1. pose proof Hfr as (fm & fd & -> & _).
  assert (set_disk (s_disk s) [] s = s) as Es by (apply set_disk_id, Hok).
  case_bool_decide as Hd.
  - wp_steps. subst l'. specialize (HQ _ (sv_dirty sv) fm fd (conj Hl L2) Hfr). unfold trunc_state in HQ.
    replace (set_direct (sfi_direct (sv_i sv)) (sv_i sv)) with (sv_i sv) in HQ by (by destruct sv as [[]]).
    rewrite insert_id, Es in HQ by (by destruct sv). by destruct s.
  - unfold put_sv. wp_steps. specialize (HQ _ true fm fd (conj L1 L2) Hfr). unfold trunc_state in HQ. rewrite Es in HQ.
    by destruct s.
Qed.

Lemma wp_trunc_first_then {B} (k : M sfs B) (Q : B → sfs → Prop) :
  (∀ l' dirty fm fd, cut_direct l' → freed gone_direct s (set_freemap fm fd s) →
    wp k Q (trunc_state (set_direct l' (sv_i sv)) dirty fm fd (s_disk s))) →
  wp (l ← trunc_direct (sfi_direct (sv_i sv)) 0 bl;
      (if bool_decide (l = sfi_direct (sv_i sv)) then mret tt else put_sv p (upd_inode (set_direct l) sv));; k) Q s.
Proof using Hok Hp.
  intros H. pose proof (wp_trunc_first (λ _ s', wp k Q s') H) as H1. apply (proj1 (wp_bind _ _ _ _)) in H1. apply wp_bind_2.
  eapply wp_mono; [exact H1|]. intros l s' H2. by apply wp_bind_2.
Qed.

(** *** The indirect block *)
(** An inode, free map and disk that are right up to the size. *)
Definition tr (i : sfs_inode) (fm : bitmap) (disk : Z → Z) : Prop :=
  ∀ fd n, shrunk p bl s (trunc_state (set_size n i) true fm fd disk).

Lemma wp_set_len i dirty fm fd disk n : tr i fm disk →
  wp (sv ← get_sv p; put_sv p (upd_inode (set_size n) sv);; mret (@None errno))
    (λ r s', r = None ∧ shrunk p bl s s' ∧ size_of s' p = n) (trunc_state i dirty fm fd disk).
Proof using Type.
  intros H. apply wp_bind_2. eapply wp_get_sv; [simpl; by rewrite lookup_insert_eq|]. unfold put_sv. wp_steps.
  specialize (H fd n). unfold trunc_state in *. unfold set_vnodes in *. simpl in *. rewrite insert_insert_eq.
  split_and!; [done|done|]. unfold size_of, inode_of. simpl. by rewrite lookup_insert_eq.
Qed.

Definition gone_indirect (c : Z) : Prop := c ≠ 0 ∧ ∃ k, bl < k ∧ 15 ≤ k < NBLK ∧ slot s p k = c.

Lemma kept_high k : 15 ≤ k → kept bl k = negb (bl <? k).
Proof. intros Hk. unfold kept. destruct (Z.ltb_spec k bl), (Z.leb_spec 15 k), (Z.eqb_spec k bl), (Z.ltb_spec bl k); lia || done. Qed.
Lemma kept_low k : k < 15 → kept bl k = negb (bl <=? k).
Proof. intros Hk. unfold kept. destruct (Z.ltb_spec k bl), (Z.leb_spec 15 k), (Z.leb_spec bl k); lia || done. Qed.

(** The slots from 15 on tell the rest. *)
Lemma tr_intro (P : Z → Prop) l' i fm disk : cut_direct l' → sfi_direct i = l' →
  sfi_type i = sfi_type (sv_i sv) → sfi_linkcount i = sfi_linkcount (sv_i sv) → sfi_waste i = sfi_waste (sv_i sv) →
  bm_ok fm → nbits fm = nbits (sfs_freemap s) →
  (∀ c, 0 ≤ c < nbits fm → (bit fm c = true ↔ used s c = true ∧ ¬ (gone_direct c ∨ P c))) →
  sfi_indirect i = slot s p (-1) ∨ sfi_indirect i = 0 →
  (∀ c, c ≠ slot s p (-1) → dblk disk c = dblk (s_disk s) c) →
  (∀ k, 15 ≤ k < NBLK → slot_of disk i k = if kept bl k then slot s p k else 0) →
  (∀ c, P c ↔ gone_indirect c ∨ c ≠ 0 ∧ c = slot s p (-1) ∧ sfi_indirect i = 0) →
  (∀ k, 15 ≤ k < NBLK → slot s p k ≠ 0 → slot_of disk i k = 0 → bl < k) →
  (bl < 142 → (∀ k, 15 ≤ k < NBLK → slot_of disk i k = 0) → sfi_indirect i = 0) →
  tr i fm disk.
Proof using Hok Hp.
  intros Hc Hdir Hm1 Hm2 Hm3 Hfm Hn Hbits Hi Hd Hsl HP Hbl Hem fd n.
  assert (∀ k, slot_of disk (set_size n i) k = slot_of disk i k) as Es by done.
  eapply (shrunk_intro (λ c, gone_direct c ∨ P c)); try done.
  - simpl. rewrite Hdir. apply Hc.
  - intros k Hk. rewrite Es. destruct (decide (k < 15)); [by eapply cut_direct_slot|].
    destruct (decide (k < NBLK)); [by apply Hsl; lia|]. rewrite (slot_far s p k) by lia.
    unfold slot_of. rewrite (proj2 (Z.eqb_neq k (-1))), (proj2 (Z.ltb_ge k 15)), (proj2 (Z.ltb_ge k NBLK)) by lia. simpl. by destruct (kept bl k).
  - intros c. setoid_rewrite Es. rewrite HP, gone_direct_iff. split.
    + intros [(Hc0 & k & Hk & Hk' & E)|[(Hc0 & k & Hk & Hk' & E)|(Hc0 & -> & Ez)]].
      * exists k. split_and!; [done..|]. rewrite (cut_direct_slot l') by done. rewrite kept_low by lia.
        by rewrite (proj2 (Z.leb_le bl k)).
      * exists k. split_and!; [done..|]. rewrite Hsl, kept_high by lia. by rewrite (proj2 (Z.ltb_lt bl k)).
      * exists (-1). split_and!; [done..|]. by unfold slot_of.
    + intros (k & E & Hc0 & Ez). destruct (decide (k < -1)); [rewrite slot_far in E by lia; congruence|].
      destruct (decide (k = -1)) as [->|]; [right; right; split_and!; [done..|]; by unfold slot_of in Ez|].
      destruct (decide (k < 15)).
      * left. split; [done|]. exists k. rewrite (cut_direct_slot l') in Ez by (done || lia). rewrite kept_low in Ez by lia.
        destruct (Z.leb_spec bl k); simpl in Ez; [split_and!; [lia..|done]|congruence].
      * destruct (decide (k < NBLK)); [|rewrite slot_far in E by lia; congruence].
        right. left. split; [done|]. exists k. split_and!; [|lia|lia|done]. apply Hbl; [lia|congruence|done].
Qed.

(** Slots from 15 on when the direct blocks alone have changed. *)
Lemma slot_of_direct l' k : 15 ≤ k → slot_of (s_disk s) (set_direct l' (sv_i sv)) k = slot s p k.
Proof using Hp.
  intros Hk. rewrite (slot_eq _ _ _ _ Hp). unfold slot_of.
  by rewrite (proj2 (Z.eqb_neq k (-1))), (proj2 (Z.ltb_ge k 15)) by lia.
Qed.

Lemma tr_direct_only l' fm fd : cut_direct l' → freed gone_direct s (set_freemap fm fd s) →
  142 ≤ bl ∨ slot s p (-1) = 0 → tr (set_direct l' (sv_i sv)) fm (s_disk s).
Proof using Hok Hp.
  intros Hl (fm' & fd' & E & Hfm & Hn & Hbits) Hbl. apply (f_equal sfs_freemap) in E. simpl in E. subst fm'.
  assert (∀ k, 15 ≤ k < NBLK → kept bl k = false → slot s p k = 0) as Hk0.
  { intros k Hk Hkk. rewrite kept_high in Hkk by lia. zbool. unfold NBLK in *. destruct Hbl as [?|Hz]; [lia|].
    rewrite (slot_indirect _ _ _ Hp) in Hz. rewrite (slot_eq _ _ _ _ Hp). unfold slot_of. rewrite Hz.
    by rewrite (proj2 (Z.eqb_neq k (-1))), (proj2 (Z.ltb_ge k 15)), andb_false_r by lia. }
  eapply (tr_intro (λ _, False)); try done.
  - intros c Hc. rewrite Hbits by done. naive_solver.
  - left. by rewrite (slot_indirect _ _ _ Hp).
  - intros k Hk. rewrite slot_of_direct by lia. destruct (kept bl k) eqn:E; [done|by apply Hk0].
  - intros c. split; [done|]. intros [(Hc & k & Hk & Hk' & E)|(Hc & -> & Ez)].
    + apply Hc. rewrite <-E. apply Hk0; [done|]. rewrite kept_high by lia. by rewrite (proj2 (Z.ltb_lt bl k)).
    + apply Hc. by rewrite (slot_indirect _ _ _ Hp).
  - intros k Hk Hne Ez. by rewrite slot_of_direct in Ez by lia.
  - intros Hlt _. simpl. rewrite <-(slot_indirect _ _ _ Hp). destruct Hbl; [lia|done].
Qed.

(** The states after the loop over the indirect block. *)
Section indirect.
Context (l' : list Z) (fm fm3 : bitmap) (fd fd3 : bool) (buf : list Z).
Let ib := slot s p (-1).
Let i1 := set_direct l' (sv_i sv).
Hypotheses (Hl : cut_direct l') (Hfr : freed gone_direct s (set_freemap fm fd s)) (Hib : ib ≠ 0).
Hypotheses (Hbuf : length buf = 512%nat).
Hypothesis Hw : ∀ t, 0 ≤ t < 128 → word_at buf t = if decide (0 ≤ t ∧ bl < 15 + t) then 0 else word_at (dblk (s_disk s) ib) t.
Hypotheses (Hfm3 : bm_ok fm3) (Hn3 : nbits fm3 = nbits fm).
Hypothesis Hb3 : ∀ c, 0 ≤ c < nbits fm3 → (bit fm3 c = true ↔ bit fm c = true ∧
  ¬ (c ≠ 0 ∧ ∃ t, 0 ≤ t < 128 ∧ bl < 15 + t ∧ word_at (dblk (s_disk s) ib) t = c)).

Lemma ind_word k : 15 ≤ k < NBLK → word_at (dblk (s_disk s) ib) (k - 15) = slot s p k.
Proof using Hp Hib.
  intros Hk. unfold ib. pose proof Hib as Hi. unfold ib in Hi. rewrite (slot_indirect _ _ _ Hp) in Hi |- *.
  by rewrite <-(slot_word _ _ _ _ Hp).
Qed.

Lemma ind_bits : nbits fm3 = nbits (sfs_freemap s) ∧
  ∀ c, 0 ≤ c < nbits fm3 → (bit fm3 c = true ↔ used s c = true ∧ ¬ (gone_direct c ∨ gone_indirect c)).
Proof using All.
  destruct Hfr as (fm' & fd' & E & Hfm & Hn & Hbits). apply (f_equal sfs_freemap) in E. simpl in E. subst fm'. split; [congruence|].
  intros c Hc. rewrite Hb3, Hbits by lia. unfold gone_indirect. split.
  - intros ((Hu & Hg) & Hi). split; [done|]. intros [H|(Hc0 & k & Hk & Hk' & E)]; [done|]. apply Hi. split; [done|].
    exists (k - 15). unfold NBLK in *. rewrite ind_word by (unfold NBLK; lia). split_and!; [lia..|done].
  - intros (Hu & Hg). split; [split; [done|naive_solver]|]. intros (Hc0 & t & Ht & Hb & E). apply Hg. right. split; [done|].
    exists (t + 15). unfold NBLK in *. split_and!; [lia..|]. rewrite <-ind_word by (unfold NBLK; lia). by replace (t + 15 - 15) with t by lia.
Qed.

Lemma tr_kept disk : (∃ t, 0 ≤ t < 128 ∧ word_at buf t ≠ 0) → dblk disk ib = buf → (∀ c, c ≠ ib → dblk disk c = dblk (s_disk s) c) → tr i1 fm3 disk.
Proof using All.
  intros (t0 & Ht0 & Hne0) Hd Hdo. destruct ind_bits as [Hn Hbits]. assert (ib = sfi_indirect (sv_i sv)) as Ei by apply (slot_indirect _ _ _ Hp).
  assert (∀ k, 15 ≤ k < NBLK → slot_of disk i1 k = if kept bl k then slot s p k else 0) as Hsl.
  { intros k Hk. unfold slot_of, i1. simpl. rewrite <-Ei.
    rewrite (proj2 (Z.eqb_neq k (-1))), (proj2 (Z.ltb_ge k 15)), (proj2 (Z.ltb_lt k NBLK)), (proj2 (Z.eqb_neq _ 0)) by (done || lia).
    simpl. unfold NBLK in Hk. rewrite Hd, Hw by lia. rewrite ind_word by (unfold NBLK; lia).
    rewrite kept_high by lia. case_decide; destruct (Z.ltb_spec bl k); lia || done. }
  eapply (tr_intro gone_indirect); try done.
  - by left.
  - intros c. split; [by left|]. intros [?|(_ & _ & Ez)]; [done|]. simpl in Ez. congruence.
  - intros k Hk Hne Ez. rewrite Hsl, kept_high in Ez by lia. destruct (bl <? k) eqn:E; [by zbool|]. simpl in Ez. congruence.
  - intros _ Hall. exfalso. apply Hne0. specialize (Hall (t0 + 15)). unfold NBLK in Hall.
    unfold slot_of, i1 in Hall. simpl in Hall. rewrite <-Ei in Hall. unfold NBLK in Hall.
    rewrite (proj2 (Z.eqb_neq _ (-1))), (proj2 (Z.ltb_ge _ 15)), (proj2 (Z.ltb_lt _ 143)), (proj2 (Z.eqb_neq ib 0)) in Hall by (done || lia).
    simpl in Hall. rewrite Hd, Z.add_simpl_r in Hall. apply Hall. lia.
Qed.

Lemma tr_emptied fm4 fd4 : (∀ t, 0 ≤ t < 128 → word_at buf t = 0) →
  freed (λ c, c = ib) (set_freemap fm3 fd3 s) (set_freemap fm4 fd4 s) → tr (set_indirect 0 i1) fm4 (s_disk s).
Proof using All.
  intros Hz (fm' & fd' & E & Hfm4 & Hn4 & Hb4). apply (f_equal sfs_freemap) in E. simpl in E. subst fm'. simpl in Hn4.
  destruct ind_bits as [Hn Hbits].
  assert (∀ k, 15 ≤ k < NBLK → kept bl k = true → slot s p k = 0) as Hk0.
  { intros k Hk Hkk. rewrite kept_high in Hkk by lia. zbool. rewrite <-ind_word by done. unfold NBLK in *.
    pose proof (Hw (k - 15) ltac:(lia)) as Ew. rewrite Hz, decide_False in Ew by lia. done. }
  eapply (tr_intro (λ c, gone_indirect c ∨ c = ib)); try done.
  - congruence.
  - intros c Hc. rewrite Hb4 by lia. unfold used at 1. simpl. rewrite Hbits by lia. naive_solver.
  - by right.
  - intros k Hk. unfold slot_of. simpl. rewrite (proj2 (Z.eqb_neq k (-1))), (proj2 (Z.ltb_ge k 15)), andb_false_r by lia.
    destruct (kept bl k) eqn:Ek; [by rewrite Hk0|done].
  - intros c. fold ib. split; [intros [?| ->]; [by left|by right]|]. intros [?|(? & -> & _)]; [by left|by right].
  - intros k Hk Hne _. destruct (kept bl k) eqn:Ek; [by rewrite Hk0 in Hne|]. rewrite kept_high in Ek by lia. by zbool.
Qed.
End indirect.
End trunc.

Lemma wp_sfs_truncate p s sv len : fs_ok s → vnodes s !! p = Some sv → 0 ≤ len < 4294966784 →
  wp (sfs_truncate p len) (λ r s', r = None ∧ shrunk p ((len + 511) / 512) s s' ∧ size_of s' p = len) s.
Proof.
  intros Hok Hp Hlen. unfold sfs_truncate, SFS_BLOCKSIZE, SFS_NDIRECT, SFS_DBPERIDB.
  replace (len + 512 - 1) with (len + 511) by lia. assert (0 ≤ (len + 511) / 512 < 8388608) as Hbl.
  { split; [apply Z.div_pos; lia|apply Z.div_lt_upper_bound; lia]. }
  rewrite (u32_id (_ / _)), (u32_id len) by lia. set (bl := (len + 511) / 512) in *.
  apply wp_bind_2. eapply wp_get_sv; [done|]. apply wp_trunc_first_then; [done|done|].
  intros l' dirty fm fd Hl Hfr. set (i1 := set_direct l' (sv_i sv)). apply wp_bind_2.
  eapply wp_get_sv; [simpl; by rewrite lookup_insert_eq|]. simpl sv_i. simpl sfi_indirect. change (15 + 128 - 1) with 142.
  pose proof (slot_indirect _ _ _ Hp) as Ei. rewrite <-Ei. set (ib := slot s p (-1)) in *. pose proof (ok_geom _ Hok).
  destruct ((bl <? 142) && negb (ib =? 0)) eqn:Eb.
  2:{ apply wp_bind_2, wp_ret. apply wp_set_len. eapply tr_direct_only; try done. fold ib.
      apply andb_false_iff in Eb as [Eb|Eb]; zbool; [left; lia|by right]. }
  zbool. destruct (ok_slot _ Hok p (-1)) as [Hir Hiu]; [done|]. fold ib in Hir, Hiu.
  apply wp_bind_2, wp_bind_2. eapply wp_mono; [apply wp_rblock; [done|simpl; lia|simpl; lia]|].
  intros r t [-> ->]. simpl s_disk. pose proof Hfr as (fm' & fd' & E & Hfm & Hn & Hbits).
  apply (f_equal sfs_freemap) in E. simpl in E. subst fm'. apply wp_bind_2.
  eapply wp_mono; [apply wp_trunc_indirect; [apply dblk_length|lia|done|done|]|].
  { split.
    - intros t [Ht Ht']. rewrite <-(Z.add_simpl_r t 15), (ind_word p s sv Hp) by (done || unfold NBLK; lia). intros Hne.
      destruct (ok_slot _ Hok _ _ Hne). pose proof (ok_map _ Hok). simpl. split; [lia|]. apply Hbits; [lia|]. split; [done|].
      rewrite (gone_direct_iff p s sv) by done. intros (_ & k & Hk & Hk' & E). destruct (ok_inj _ Hok p k p (t + 15)); [done|congruence|lia].
    - intros t t' [Ht Ht'] [Hu Hu']. rewrite <-(Z.add_simpl_r t 15), <-(Z.add_simpl_r t' 15).
      rewrite !(ind_word p s sv Hp) by (done || unfold NBLK; lia). intros E Hne. destruct (ok_inj _ Hok _ _ _ _ E Hne). lia. }
  intros [[buf hn] dr] s3 [(L & W & H3 & D & (fm3 & fd3 & -> & Hfm3 & Hn3 & Hb3)) _]. simpl in Hn3, Hb3.
  destruct hn; simpl negb; cbv iota.
  - pose proof (tr_kept p s sv bl Hok Hp l' fm fm3 fd fd3 buf Hl Hfr) as Htr.
    destruct dr.
    + eapply wp_mono; [apply wp_wblock; [done|simpl; lia|simpl; lia|done]|]. intros r s4 [-> ->]. cbv iota.
      eapply wp_mono; [eapply (wp_set_len p s sv bl i1 dirty fm3 fd3 (kput (s_disk s) (ib * 512) buf))|done].
      apply Htr; try done; [by destruct (proj1 H3 eq_refl)|by apply dblk_put_same|]. intros c Hc. apply dblk_put_ne; [done|]. intros <-. by apply Hc.
    + apply wp_ret. eapply wp_mono; [eapply (wp_set_len p s sv bl i1 dirty fm3 fd3 (s_disk s))|done].
      apply Htr; try done; [by destruct (proj1 H3 eq_refl)|]. symmetry. by apply D.
  - pose proof (ok_map _ Hok). apply wp_bind_2. eapply wp_mono; [apply wp_bfree; [done|simpl; lia|]|].
    { unfold used. simpl. apply Hb3; [lia|]. split.
      - apply Hbits; [lia|]. split; [done|]. rewrite (gone_direct_iff p s sv) by done. intros (_ & k & Hk & Hk' & E).
        destruct (ok_inj _ Hok p k p (-1)); [done|congruence|lia].
      - intros (_ & t & Ht & _ & E). rewrite <-(Z.add_simpl_r t 15), (ind_word p s sv Hp) in E by (done || unfold NBLK; lia).
        destruct (ok_inj _ Hok p (t + 15) p (-1)); [done|congruence|lia]. }
    intros [] s4 Hf4. pose proof Hf4 as (fm4 & fd4 & -> & _). unfold put_sv. apply wp_bind_2, wp_modify, wp_ret. simpl.
    unfold trunc_state, set_vnodes. simpl. rewrite insert_insert_eq.
    eapply (wp_set_len p s sv bl (set_indirect 0 i1) true fm4 fd4 (s_disk s)).
    eapply (tr_emptied p s sv bl Hok Hp l' fm fm3 fd fd3 buf Hl Hfr); try done.
    { intros t Ht. destruct (decide (word_at buf t = 0)) as [|Hne]; [done|]. enough (false = true) by done. apply H3. right. by exists t. }
    destruct Hf4 as (fm' & fd5 & E & H4). apply (f_equal sfs_freemap) in E. simpl in E. subst fm'. by exists fm4, fd4.
Qed.

(** C16: Truncation. [sfs_truncate] to [len] bytes returns, sets the size, and frees
    every block of the file from number [len/512], rounded up, on, except that one
    block itself when it is in the indirect block: it stays, with its contents, past
    the end of the file. Freed blocks are marked free and read as zeros, nothing
    else is freed, the indirect block goes when it is empty, and other files keep
    their blocks and contents. *)
Theorem sfs_truncate_frees_blocks p s sv len : fs_ok s → vnodes s !! p = Some sv → 0 ≤ len < 4294966784 →
  let bl := (len + 511) / 512 in
  ∃ s', sfs_truncate p len s = Ok (None, s') ∧ fs_ok s' ∧ s_mem s' = s_mem s ∧ size_of s' p = len ∧
    (∀ o, 0 ≤ o → content s' p o = if (o / 512 <? bl) || (15 <=? o / 512) && (o / 512 =? bl) then content s p o else 0) ∧
    (∀ b, 0 ≤ b < sp_nblocks s →
      (used s' b = true ↔ used s b = true ∧ ¬ ∃ k, slot s p k = b ∧ b ≠ 0 ∧ slot s' p k = 0)) ∧
    (bl < 15 → ∀ k, bl ≤ k → slot s' p k = 0) ∧ (bl < 15 → slot s' p (-1) = 0) ∧
    (∀ q, q ≠ p → vnodes s' !! q = vnodes s !! q ∧ ∀ o, 0 ≤ o → content s' q o = content s q o).
Proof.
  intros Hok Hp Hlen bl. pose proof (wp_sfs_truncate p s sv len Hok Hp Hlen) as (r & s' & E & -> & Hs & Hsz)%wp_exists.
  fold bl in Hs. exists s'. pose proof Hs as [(G1 & G2 & _) _ G6 G7 _ G9 _ G10 _]. pose proof (ok_map _ Hok).
  assert (0 ≤ bl) by (apply Z.div_pos; lia).
  assert (bl < 15 → ∀ k, bl ≤ k → slot s' p k = 0) as Hz.
  { intros Hlt k Hk. rewrite G9 by lia. unfold kept. rewrite (proj2 (Z.ltb_ge k bl)) by lia.
    destruct (Z.leb_spec 15 k); [|done]. by rewrite (proj2 (Z.eqb_neq k bl)) by lia. }
  split_and!; try done.
  - by eapply shrunk_ok.
  - intros o Ho. rewrite (shrunk_content p bl s) by done. unfold kept.
    destruct ((o / 512 <? bl) || (15 <=? o / 512) && (o / 512 =? bl)); case_decide; naive_solver.
  - intros b Hb. apply G6. lia.
  - intros Hlt. apply G10; [lia|]. intros k Hk. apply Hz; lia.
  - intros q Hq. split; [by apply G7|]. intros o Ho. rewrite (shrunk_content p bl s) by done. by rewrite decide_False by naive_solver.
Qed.

Lemma sfs_truncate_frees_blocks_witness :
  ∃ s', sfs_truncate 1000 0 Demo.fs = Ok (None, s') ∧ size_of s' 1000 = 0 ∧ used s' 3 = false.
Proof.
  destruct (sfs_truncate_frees_blocks 1000 Demo.fs (SfsVnode Demo.inode 2 false 1 0) 0) as (s' & E & _ & _ & Hsz & _ & Hu & Hz & _ & _).
  - apply Demo.fs_is_ok.
  - done.
  - lia.
  - exists s'. split_and!; [done|done|]. destruct (used s' 3) eqn:E3; [|done]. apply Hu in E3 as [_ H]; [|simpl; lia].
    exfalso. apply H. exists 0. split_and!; [by rewrite Demo.fs_slot|done|]. apply Hz; by vm_compute.
Defined.
