(* ===== verification/SfsDir.v ===== *)
(** The simple file system, directories and vnodes: the rest of
    [kern/fs/sfs/sfs_vnode.c] with the reference counts of [kern/vfs/vnode.c].

    A file name is the list of its bytes, without the final zero. [vnode_check] has
    nothing to say about the vnodes of this file system and is left out. The
    structure [sfs_dir] on the stack of a function is the list of its 64 bytes. *)

From stdpp Require Import base tactics numbers list gmap.
From S2P Require Import Prelude KernDefs CopyInOut Bitmap Uio Array Sfs.
Local Open Scope Z_scope.

Definition SFS_NAMELEN : Z := 60.
Definition SFS_ROOT_LOCATION : Z := 1.
Definition SFS_NOINO : Z := 0.
Definition sizeof_sfs_dir : Z := 64.

(** ** Inodes on disk *)
Definition half_bytes (w : Z) : list Z := [w / 2 ^ 8 mod 256; w mod 256].
Definition half_at (buf : list Z) (i : Z) : Z := bytes_word (take 2 (drop (Z.to_nat (2 * i)) buf)).
Definition inode_bytes (i : sfs_inode) : list Z :=
  word_bytes (sfi_size i) ++ half_bytes (sfi_type i) ++ half_bytes (sfi_linkcount i) ++
  (sfi_direct i ≫= word_bytes) ++ word_bytes (sfi_indirect i) ++ sfi_waste i.
Definition bytes_inode (buf : list Z) : sfs_inode :=
  Inode (word_at buf 0) (half_at buf 2) (half_at buf 3) (word_at buf <$> seqZ 2 15) (word_at buf 17) (drop 72 buf).

Definition set_dirty (d : bool) (v : sfs_vnode) : sfs_vnode :=
  SfsVnode (sv_i v) (sv_ino v) d (vn_refcount v) (vn_opencount v).
Definition set_refcount (n : Z) (v : sfs_vnode) : sfs_vnode :=
  SfsVnode (sv_i v) (sv_ino v) (sv_dirty v) n (vn_opencount v).
Definition set_opencount (n : Z) (v : sfs_vnode) : sfs_vnode :=
  SfsVnode (sv_i v) (sv_ino v) (sv_dirty v) (vn_refcount v) n.

Definition sfs_sync_inode (p : Z) : M sfs (option errno) :=
  sv ← get_sv p;
  if sv_dirty sv then
    r ← sfs_wblock (inode_bytes (sv_i sv)) (sv_ino sv);
    match r with
    | Some e => mret (Some e)
    | None => put_sv p (set_dirty false sv);; mret None
    end
  else mret None.

(** ** Directory I/O *)
Definition sfd_ino (sd : list Z) : Z := word_at sd 0.
Definition sfd_name (sd : list Z) : list Z := drop 4 sd.

Definition sfs_readdir (p slot : Z) : M sfs (result (list Z)) :=
  '((r, u), buf) ← with_kbuf (replicate 64 0) (sfs_io p (uio_kinit 0 sizeof_sfs_dir (u32 (slot * sizeof_sfs_dir)) UIO_READ));
  match r with
  | Some e => mret (inl e)
  | None => if 0 <? uio_resid u then panic else mret (inr (take 64 buf))
  end.

Definition sfs_writedir (p : Z) (sd : list Z) (slot : Z) : M sfs (option errno) :=
  kassert (0 <=? slot);;
  '((r, u), _) ← with_kbuf sd (sfs_io p (uio_kinit 0 sizeof_sfs_dir (u32 (slot * sizeof_sfs_dir)) UIO_WRITE));
  match r with
  | Some e => mret (Some e)
  | None => if 0 <? uio_resid u then panic else mret None
  end.

Definition sfs_dir_nentries (p : Z) : M sfs Z :=
  sv ← get_sv p;
  kassert (sfi_type (sv_i sv) =? SFS_TYPE_DIR);;
  let size := sfi_size (sv_i sv) in
  if negb (size mod sizeof_sfs_dir =? 0) then panic else mret (size / sizeof_sfs_dir).

(** The loop over the slots; [found] is the inode number and slot seen, [empty] the
    last free slot. *)
Fixpoint find_loop (n : nat) (p i : Z) (name : list Z) (found : option (Z * Z)) (empty : Z) :
    M sfs (option errno * option (Z * Z) * Z) :=
  match n with
  | O => mret (match found with Some _ => None | None => Some ENOENT end, found, empty)
  | S n =>
      r ← sfs_readdir p i;
      match r with
      | inl e => mret (Some e, found, empty)
      | inr tsd =>
          if sfd_ino tsd =? SFS_NOINO then find_loop n p (i + 1) name found i
          else
            let tsd := <[63%nat := 0]> tsd in
            if bool_decide (cstr (sfd_name tsd) = name) then
              kassert (match found with Some _ => false | None => true end);;
              find_loop n p (i + 1) name (Some (sfd_ino tsd, i)) empty
            else find_loop n p (i + 1) name found empty
      end
  end.
Definition sfs_dir_findname (p : Z) (name : list Z) : M sfs (option errno * option (Z * Z) * Z) :=
  nentries ← sfs_dir_nentries p;
  find_loop (Z.to_nat nentries) p 0 name None (-1).

(** The error and the slot. *)
Definition sfs_dir_link (p : Z) (name : list Z) (ino : Z) : M sfs (option errno * Z) :=
  '(r, _, emptyslot) ← sfs_dir_findname p name;
  match r with
  | None => mret (Some EEXIST, 0)
  | Some e =>
      if bool_decide (e ≠ ENOENT) then mret (Some e, 0)
      else if SFS_NAMELEN <? Z.of_nat (length name) + 1 then mret (Some ENAMETOOLONG, 0)
      else
        emptyslot ← (if emptyslot <? 0 then sfs_dir_nentries p else mret emptyslot);
        let sd := word_bytes ino ++ name ++ replicate (60 - length name) 0 in
        r ← sfs_writedir p sd emptyslot;
        mret (r, emptyslot)
  end.

Definition sfs_dir_unlink (p slot : Z) : M sfs (option errno) := sfs_writedir p (replicate 64 0) slot.

(** ** Vnodes in memory *)
Definition kmalloc_sv : M sfs (option Z) :=
  s ← getS;
  match s_heap s with
  | [] => mret None
  | a :: h => putS (set_heap h s);; mret a
  end.
Definition kfree_sv (p : Z) : M sfs unit := modify (λ s, set_vnodes (delete p (vnodes s)) s).

Definition vnode_incref (p : Z) : M sfs unit :=
  sv ← get_sv p; put_sv p (set_refcount (s32 (vn_refcount sv + 1)) sv).
Definition vnode_cleanup (p : Z) : M sfs unit :=
  sv ← get_sv p;
  kassert (vn_refcount sv =? 1);;
  kassert (vn_opencount sv =? 0).

Definition bused_or_panic (ino : Z) : M sfs unit :=
  b ← sfs_bused ino; if (b : bool) then mret tt else panic.

(** The search of the table. *)
Fixpoint load_search (n : nat) (i ino forcetype : Z) : M sfs (option Z) :=
  match n with
  | O => mret None
  | S n =>
      v ← zoom (array_get i);
      sv ← get_sv v;
      bused_or_panic (sv_ino sv);;
      if sv_ino sv =? ino then
        kassert (forcetype =? SFS_TYPE_INVAL);;
        vnode_incref v;;
        mret (Some v)
      else load_search n (i + 1) ino forcetype
  end.

(** The type and the dirty flag of a new vnode. *)
Definition force_type (forcetype : Z) (i : sfs_inode) : M sfs (sfs_inode * bool) :=
  if forcetype =? SFS_TYPE_INVAL then mret (i, false)
  else kassert (sfi_type i =? SFS_TYPE_INVAL);; mret (set_type forcetype i, true).

Definition sfs_loadvnode (ino forcetype : Z) : M sfs (result Z) :=
  num ← zoom array_num;
  r ← load_search (Z.to_nat num) 0 ino forcetype;
  match r with
  | Some v => mret (inr v)
  | None =>
      a ← kmalloc_sv;
      match a with
      | None => mret (inl ENOMEM)
      | Some p =>
          bused_or_panic ino;;
          r ← sfs_rblock ino;
          match r with
          | inl e => kfree_sv p;; mret (inl e)
          | inr buf =>
              '(i, dirty) ← force_type forcetype (bytes_inode buf);
              if (sfi_type i =? SFS_TYPE_FILE) || (sfi_type i =? SFS_TYPE_DIR) then
                put_sv p (SfsVnode i ino dirty 1 0);;
                r ← zoom (array_add p);
                match r with
                | inl e => vnode_cleanup p;; kfree_sv p;; mret (inl e)
                | inr _ => mret (inr p)
                end
              else panic
          end
      end
  end.

Definition sfs_makeobj (type : Z) : M sfs (result Z) :=
  r ← sfs_balloc;
  match r with
  | inl e => mret (inl e)
  | inr ino => sfs_loadvnode ino type
  end.

(** ** Giving vnodes back *)
Fixpoint table_search (n : nat) (i p : Z) : M sfs (option Z) :=
  match n with
  | O => mret None
  | S n =>
      v ← zoom (array_get i);
      if v =? p then mret (Some i) else table_search n (i + 1) p
  end.

(** [VOP_TRUNCATE], by the table of the vnode's type. *)
Definition vop_truncate (p len : Z) : M sfs (option errno) :=
  sv ← get_sv p;
  if sfi_type (sv_i sv) =? SFS_TYPE_FILE then sfs_truncate p len else mret (Some EISDIR).

(** From the removal of the vnode from the table on. *)
Definition reclaim_drop (p : Z) : M sfs unit :=
  num ← zoom array_num;
  ix ← table_search (Z.to_nat num) 0 p;
  match ix with
  | None => panic
  | Some ix => zoom (array_remove ix);; vnode_cleanup p;; kfree_sv p
  end.

Definition sfs_reclaim (p : Z) : M sfs (option errno) :=
  sv ← get_sv p;
  if negb (vn_refcount sv =? 1) then
    kassert (1 <? vn_refcount sv);;
    put_sv p (set_refcount (vn_refcount sv - 1) sv);;
    mret (Some EBUSY)
  else
    r ← (if sfi_linkcount (sv_i sv) =? 0 then vop_truncate p 0 else mret None);
    match r with
    | Some e => mret (Some e)
    | None =>
        r ← sfs_sync_inode p;
        match r with
        | Some e => mret (Some e)
        | None =>
            (if sfi_linkcount (sv_i sv) =? 0 then sfs_bfree (sv_ino sv) else mret tt);;
            reclaim_drop p;;
            mret None
        end
    end.

Definition vnode_decref (p : Z) : M sfs unit :=
  sv ← get_sv p;
  kassert (0 <? vn_refcount sv);;
  if 1 <? vn_refcount sv then put_sv p (set_refcount (vn_refcount sv - 1) sv)
  else _ ← sfs_reclaim p; mret tt.

Definition sfs_fsync (p : Z) : M sfs (option errno) := sfs_sync_inode p.
Definition sfs_close (p : Z) : M sfs (option errno) := sfs_fsync p.

Definition vnode_incopen (p : Z) : M sfs unit :=
  sv ← get_sv p; put_sv p (set_opencount (s32 (vn_opencount sv + 1)) sv).
Definition vnode_decopen (p : Z) : M sfs unit :=
  sv ← get_sv p;
  kassert (0 <? vn_opencount sv);;
  put_sv p (set_opencount (vn_opencount sv - 1) sv);;
  if 0 <? vn_opencount sv - 1 then mret tt
  else _ ← sfs_close p; mret tt.

(** ** Operations on directories *)
(** The vnode and the slot. *)
Definition sfs_lookonce (p : Z) (name : list Z) : M sfs (result (Z * Z)) :=
  '(r, found, _) ← sfs_dir_findname p name;
  match r, found with
  | Some e, _ => mret (inl e)
  | None, Some (ino, slot) =>
      r ← sfs_loadvnode ino SFS_TYPE_INVAL;
      match r with
      | inl e => mret (inl e)
      | inr q =>
          sv ← get_sv q;
          if sfi_linkcount (sv_i sv) =? 0 then panic else mret (inr (q, slot))
      end
  | None, None => undef
  end.

Definition link_inc (q : Z) : M sfs unit :=
  sv ← get_sv q; put_sv q (upd_inode (set_linkcount (u16 (sfi_linkcount (sv_i sv) + 1))) sv).
Definition link_dec (q : Z) : M sfs unit :=
  sv ← get_sv q;
  kassert (0 <? sfi_linkcount (sv_i sv));;
  put_sv q (upd_inode (set_linkcount (sfi_linkcount (sv_i sv) - 1)) sv).

Definition sfs_creat (p : Z) (name : list Z) (excl : bool) : M sfs (result Z) :=
  '(r, found, _) ← sfs_dir_findname p name;
  match r, found with
  | None, Some (ino, _) => if excl then mret (inl EEXIST) else sfs_loadvnode ino SFS_TYPE_INVAL
  | None, None => undef
  | Some e, _ =>
      if bool_decide (e ≠ ENOENT) then mret (inl e)
      else
        r ← sfs_makeobj SFS_TYPE_FILE;
        match r with
        | inl e => mret (inl e)
        | inr newguy =>
            sv ← get_sv newguy;
            '(r, _) ← sfs_dir_link p name (sv_ino sv);
            match r with
            | Some e => vnode_decref newguy;; mret (inl e)
            | None => link_inc newguy;; mret (inr newguy)
            end
        end
  end.

Definition sfs_link (p : Z) (name : list Z) (f : Z) : M sfs (option errno) :=
  sv ← get_sv f;
  '(r, _) ← sfs_dir_link p name (sv_ino sv);
  match r with
  | Some e => mret (Some e)
  | None => link_inc f;; mret None
  end.

Definition sfs_remove (p : Z) (name : list Z) : M sfs (option errno) :=
  r ← sfs_lookonce p name;
  match r with
  | inl e => mret (Some e)
  | inr (victim, slot) =>
      r ← sfs_dir_unlink p slot;
      (if bool_decide (r = None) then link_dec victim else mret tt);;
      vnode_decref victim;;
      mret r
  end.

Definition sfs_rename (d1 : Z) (n1 : list Z) (d2 : Z) (n2 : list Z) : M sfs (option errno) :=
  sv ← get_sv d1;
  kassert (d1 =? d2);;
  kassert (sv_ino sv =? SFS_ROOT_LOCATION);;
  r ← sfs_lookonce d1 n1;
  match r with
  | inl e => mret (Some e)
  | inr (g1, slot1) =>
      g ← get_sv g1;
      kassert (sfi_type (sv_i g) =? SFS_TYPE_FILE);;
      '(r, slot2) ← sfs_dir_link d1 n2 (sv_ino g);
      match r with
      | Some e => vnode_decref g1;; mret (Some e)
      | None =>
          link_inc g1;;
          r ← sfs_dir_unlink d1 slot1;
          match r with
          | None => link_dec g1;; vnode_decref g1;; mret None
          | Some e =>
              r2 ← sfs_dir_unlink d1 slot2;
              match r2 with
              | Some _ => panic
              | None =>
                  g ← get_sv g1;
                  put_sv g1 (SfsVnode (set_linkcount (u16 (sfi_linkcount (sv_i g) - 1)) (sv_i g))
                               (sv_ino g) (sv_dirty g) (vn_refcount g) (vn_opencount g));;
                  vnode_decref g1;;
                  mret (Some e)
              end
          end
      end
  end.

(** The directory vnode and the name. *)
Definition sfs_lookparent (p : Z) (path : list Z) (buflen : Z) : M sfs (result (Z * list Z)) :=
  sv ← get_sv p;
  if negb (sfi_type (sv_i sv) =? SFS_TYPE_DIR) then mret (inl ENOTDIR)
  else if buflen <? Z.of_nat (length path) + 1 then mret (inl ENAMETOOLONG)
  else vnode_incref p;; mret (inr (p, path)).

Definition sfs_lookup (p : Z) (path : list Z) : M sfs (result Z) :=
  sv ← get_sv p;
  if negb (sfi_type (sv_i sv) =? SFS_TYPE_DIR) then mret (inl ENOTDIR)
  else
    r ← sfs_lookonce p path;
    mret (match r with inl e => inl e | inr (q, _) => inr q end).

Definition sfs_getroot : M sfs Z :=
  r ← sfs_loadvnode SFS_ROOT_LOCATION SFS_TYPE_INVAL;
  match r with inl _ => panic | inr p => mret p end.

(** ** The small operations *)
Definition sfs_gettype (p : Z) : M sfs Z :=
  sv ← get_sv p;
  if sfi_type (sv_i sv) =? SFS_TYPE_FILE then mret S_IFREG
  else if sfi_type (sv_i sv) =? SFS_TYPE_DIR then mret S_IFDIR
  else panic.
Record stat := Stat { st_mode : Z; st_size : Z; st_nlink : Z; st_blocks : Z }.
Definition sfs_stat (p : Z) : M sfs stat :=
  mode ← sfs_gettype p;
  sv ← get_sv p;
  mret (Stat mode (sfi_size (sv_i sv)) 0 0).
Definition sfs_tryseek (pos : Z) : option errno := if pos <? 0 then Some EINVAL else None.
Definition sfs_open (openflags : Z) : option errno :=
  if negb (Z.land openflags O_APPEND =? 0) then Some EUNIMP else None.
Definition sfs_opendir (openflags : Z) : option errno :=
  if negb (Z.land openflags O_ACCMODE =? O_RDONLY) then Some EISDIR
  else if negb (Z.land openflags O_APPEND =? 0) then Some EISDIR else None.
Definition sfs_namefile (p : Z) : M sfs (option errno) :=
  sv ← get_sv p; kassert (sv_ino sv =? SFS_ROOT_LOCATION);; mret None.
