(* ===== verification/SfsDirSpec.v ===== *)
(** Directories of the simple file system as finite maps from names to inode numbers
    ([sfs_readdir], [sfs_writedir], [sfs_dir_findname], [sfs_dir_link],
    [sfs_dir_unlink]), and inodes on disk. *)

From stdpp Require Import base tactics numbers list gmap.
From S2P Require Import Prelude KernDefs CopyInOut Bitmap Uio Array Sfs SfsInv SfsMap SfsIo SfsDir.
Local Open Scope Z_scope.

(** * One entry *)
Lemma wp_with_kbuf {A} buf (m : M sfs A) Q s :
  wp m (λ a s', Q (a, kget (x_kern (s_mem s')) 0 512)
    (set_mem (XMem (x_kern (s_mem s)) (x_user (s_mem s')) (x_space (s_mem s'))) s'))
    (set_mem (XMem (kput (λ _, 0) 0 buf) (x_user (s_mem s)) (x_space (s_mem s))) s) →
  wp (with_kbuf buf m) Q s.
Proof.
  intros H. unfold with_kbuf. wp_steps. eapply wp_mono; [exact H|]. intros a s' HQ. wp_steps. exact HQ.
Qed.

Lemma kget_take d a n m : 0 ≤ n ≤ m → take (Z.to_nat n) (kget d a m) = kget d a n.
Proof.
  intros Hn. apply list_eq. intros i. destruct (decide (Z.of_nat i < n)).
  - rewrite lookup_take_lt, !kget_lookup by lia. done.
  - rewrite lookup_take_ge, lookup_ge_None_2; [done|rewrite kget_length; lia|lia].
Qed.

(** The bytes of slot [i]. *)
Definition dirent (s : sfs) (p i : Z) : list Z := kget (content s p) (i * 64) 64.

Lemma dirent_length s p i : length (dirent s p i) = 64%nat.
Proof. apply kget_length. Qed.
Lemma dirent_ext s s' p q i : 0 ≤ i → (∀ o, 0 ≤ o → content s' q o = content s p o) → dirent s' q i = dirent s p i.
Proof. intros Hi H. apply kget_ext. intros o Ho. apply H. lia. Qed.

Section entry.
Context (p : Z) (s : sfs) (sv : sfs_vnode) (i : Z).
Hypotheses (Hok : fs_ok s) (Hp : vnodes s !! p = Some sv) (Hi : 0 ≤ i) (Hmax : i * 64 + 64 ≤ maxsize).
Hypothesis Hsz : sfi_size (sv_i sv) ≤ maxsize.

Lemma dir_pre rw x : io_pre p (uio_kinit 0 64 (i * 64) rw) 64 (set_mem (XMem x (x_user (s_mem s)) (x_space (s_mem s))) s).
Proof using All.
  unfold maxsize in *. constructor; [by apply fs_ok_mem|by exists sv| |done|done|simpl; lia].
  constructor; simpl; [done|split; [by vm_compute|done]|lia|by repeat constructor].
Qed.
Lemma dir_addrs rw : take (Z.to_nat 64) (addrs (uio_iov (uio_kinit 0 64 (i * 64) rw))) = seqZ 0 64.
Proof. by vm_compute. Qed.
Lemma dir_offset : u32 (i * 64) = i * 64.
Proof using Hi Hmax. unfold maxsize in *. apply u32_id. lia. Qed.

Lemma wp_readdir : i * 64 + 64 ≤ sfi_size (sv_i sv) →
  wp (sfs_readdir p i) (λ r s', r = inr (dirent s p i) ∧ s' = s) s.
Proof using All.
  intros Hin. unfold sfs_readdir, sizeof_sfs_dir. rewrite dir_offset. apply wp_bind_2, wp_with_kbuf.
  set (s1 := set_mem _ s). set (u := uio_kinit 0 64 (i * 64) UIO_READ).
  pose proof (wp_sfs_read p u s1 sv (dir_pre UIO_READ _) Hp eq_refl) as H. unfold sfs_read in H.
  apply (proj1 (wp_bind _ _ _ _)) in H. eapply wp_mono; [exact H|]. clear H.
  intros [r u'] s' (m & Hm & -> & Ha & Hr). simpl in Ha, Hr. unfold maxsize in *. cbv beta iota.
  destruct r as [e|]; [simpl in Hr; lia|]. assert (m = 64) as -> by lia. pose proof (ad_resid _ _ _ Ha) as Er. simpl in Er. rewrite Er.
  cbn [Z.ltb Z.compare]. wp_steps.
  assert (seg_puts UIO_SYSSPACE (s_mem s1) (zip (seqZ 0 64) (kget (content s1 p) (i * 64) 64)) =
    XMem (kput (x_kern (s_mem s1)) 0 (dirent s p i)) (x_user (s_mem s)) (x_space (s_mem s))) as Em.
  { pose proof (kput_puts (dirent s p i) (s_mem s1) 0) as E. rewrite dirent_length in E. exact E. }
  unfold read_into, u. rewrite dir_addrs. simpl uio_segflg. simpl uio_offset. rewrite Em.
  split; [|by destruct s as [[]]]. f_equal.
Qed.

(** Writing an entry: all of it or, without a free block, nothing. *)
Lemma wp_writedir sd : length sd = 64%nat →
  wp (sfs_writedir p sd i) (λ r s', ∃ data u', written p (uio_kinit 0 64 (i * 64) UIO_WRITE) data
      (set_mem (XMem (kput (λ _, 0) 0 sd) (x_user (s_mem s)) (x_space (s_mem s))) s) r u'
      (set_mem (XMem (kput (λ _, 0) 0 sd) (x_user (s_mem s)) (x_space (s_mem s))) s') ∧
    s_mem s' = s_mem s ∧
    match r with None => data = sd | Some e => data = [] ∧ e = ENOSPC ∧ full s' ∧ slot s' p (i * 64 / 512) = 0 end) s.
Proof using All.
  intros Hl. unfold sfs_writedir, sizeof_sfs_dir. apply wp_bind_2, wp_kassert; [blia|].
  rewrite dir_offset. apply wp_bind_2, wp_with_kbuf. set (s1 := set_mem _ s). set (u := uio_kinit 0 64 (i * 64) UIO_WRITE).
  pose proof (wp_sfs_write p u s1 (dir_pre UIO_WRITE _) eq_refl) as H. unfold sfs_write in H.
  apply (proj1 (wp_bind _ _ _ _)) in H. eapply wp_mono; [exact H|]. clear H. intros [r u'] s' (data & Hw). simpl in Hw.
  pose proof Hw as [W1 W2 [W3 W4] _ _ _ _ W8 _ _ _]. pose proof W1 as [_ A2 A3 _ _]. change (uio_offset u) with (i * 64) in A2. change (uio_resid u) with 64 in A3, W8.
  assert (set_mem (XMem (kput (λ _, 0) 0 sd) (x_user (s_mem s)) (x_space (s_mem s)))
    (set_mem (XMem (x_kern (s_mem s)) (x_user (s_mem s')) (x_space (s_mem s'))) s') = s') as Es.
  { destruct s' as [m ? ? ? ? ? ? ? ? ?]. simpl in *. by rewrite W4. }
  assert (s_mem (set_mem (XMem (x_kern (s_mem s)) (x_user (s_mem s')) (x_space (s_mem s'))) s') = s_mem s) as Em.
  { simpl. rewrite W4. simpl. by destruct (s_mem s). }
  assert (Z.of_nat (length data) = 64 → data = sd) as Hdata.
  { intros E. assert (length data = 64)%nat as E' by lia. rewrite E' in W2.
    rewrite <-(kget_kput (λ _, 0) 0 sd), Hl. unfold kget. change (take 64 (addrs (uio_iov u))) with (seqZ 0 64) in W2.
    simpl uio_segflg in W2. change (Z.of_nat 64) with 64. clear -W2. remember (seqZ 0 64) as q eqn:Eq. clear Eq.
    induction W2; simpl; [done|]. f_equal; [simpl in H; congruence|done]. }
  simpl in W8. destruct r as [e|]; cbv beta iota.
  - wp_steps. exists data, u'. rewrite Es. split; [done|]. split; [done|]. destruct W8 as [He Hal].
    pose proof (ok_hw _ W3) as _. unfold maxsize in *.
    destruct Hal as [Hal Hlt].
    assert (data = []) as ->.
    { destruct Hal as [|Hal]; [done|]. rewrite A2 in Hal. destruct (decide (data = [])) as [|Hne]; [done|]. exfalso.
      assert (0 < Z.of_nat (length data)) as Hpos by (destruct data; [done|simpl; lia]).
      pose proof (Z.div_mod (i * 64 + Z.of_nat (length data)) 512 ltac:(lia)). lia. }
    destruct He as [[-> He]|(-> & _ & Hf & Hz)]; [rewrite A2 in He; unfold maxsize in He; simpl in He; lia|].
    rewrite A2 in Hz. simpl in Hz. rewrite Z.add_0_r in Hz. done.
  - simpl in A3. rewrite A3, W8. cbn [Z.sub Z.ltb Z.compare Z.opp Z.add Z.pos_sub]. simpl. wp_steps. exists data, u'. rewrite Es.
    split; [done|]. split; [done|]. by apply Hdata.
Qed.
End entry.

(** What a change of directory [p] leaves alone. *)
Record dir_step (p : Z) (s s' : sfs) : Prop := {
  ds_ok : fs_ok s';
  ds_mem : s_mem s' = s_mem s;
  ds_geom : d_blocks s' = d_blocks s ∧ sp_nblocks s' = sp_nblocks s ∧ sfs_vnodes s' = sfs_vnodes s ∧ s_heap s' = s_heap s;
  ds_others : ∀ q, q ≠ p → vnodes s' !! q = vnodes s !! q ∧ ∀ o, 0 ≤ o → content s' q o = content s q o;
  ds_blocks : ∀ b, 0 ≤ b < sp_nblocks s → used s b = true → (∀ k, slot s p k ≠ b) →
    used s' b = true ∧ dblk (s_disk s') b = dblk (s_disk s) b;
  ds_slots : ∀ k, slot s' p k = slot s p k ∨ slot s p k = 0 ∧ used s (slot s' p k) = false;
  ds_file : ∃ sv sv', vnodes s !! p = Some sv ∧ vnodes s' !! p = Some sv' ∧ keep_meta sv sv';
}.

Lemma dir_step_refl p s sv : fs_ok s → vnodes s !! p = Some sv → dir_step p s s.
Proof. intros Hok Hp. constructor; try done; [by left|exists sv, sv; split_and!; [done..|apply keep_meta_refl]]. Qed.

(** Entry [i] of the directory is now [sd]. *)
Record dir_put (p i : Z) (sd : list Z) (s s' : sfs) : Prop := {
  dp_step : dir_step p s s';
  dp_size : size_of s' p = Z.max (size_of s p) (i * 64 + 64);
  dp_ents : ∀ j, 0 ≤ j → dirent s' p j = if decide (j = i) then sd else dirent s p j;
}.

Lemma wp_writedir_put p s sv i sd : fs_ok s → vnodes s !! p = Some sv → 0 ≤ i → i * 64 + 64 ≤ maxsize → i * 64 ≤ sfi_size (sv_i sv) →
  sfi_size (sv_i sv) ≤ maxsize → length sd = 64%nat →
  wp (sfs_writedir p sd i) (λ r s', match r with
    | None => dir_put p i sd s s'
    | Some e => e = ENOSPC ∧ full s' ∧ dir_step p s s' ∧ size_of s' p = size_of s p ∧
        (∀ j, 0 ≤ j → dirent s' p j = dirent s p j) ∧ slot s p (i * 64 / 512) = 0
    end) s.
Proof.
  intros Hok Hp Hi Hmax Hin Hsz Hl. eapply wp_mono; [by eapply wp_writedir|]. intros r s' (data & u' & W & Hm & Hr).
  assert (size_of s p = sfi_size (sv_i sv)) as Esz by (unfold size_of, inode_of; by rewrite Hp).
  destruct W as [_ _ [W3 _] W4 W5 W6 W7 _ W9 W10 W11].
  assert (dir_step p s s') as Hst.
  { constructor; try done. rewrite <-(set_mem_id s'), Hm. apply (fs_ok_mem (s_mem s)) in W3. exact W3. }
  destruct r as [e|].
  - destruct Hr as (-> & -> & Hf & Hz). split_and!; [done|done|done| | |].
    3:{ destruct (ds_slots _ _ _ Hst (i * 64 / 512)) as [E|[E _]]; congruence. }
    + change (size_of s' p = Z.max (size_of s p) (i * 64 + Z.of_nat 0)) in W4. lia.
    + intros j Hj. apply dirent_ext; [done|]. intros o Ho. specialize (W5 o Ho). rewrite zget_nil in W5. exact W5.
  - subst data. constructor; [done| |].
    + change (size_of s' p = Z.max (size_of s p) (i * 64 + Z.of_nat (length sd))) in W4. rewrite Hl in W4. exact W4.
    + intros j Hj. apply list_eq. intros k. destruct (decide (k < 64)%nat) as [Hk|Hk].
      2:{ rewrite !lookup_ge_None_2; [done| |rewrite dirent_length; lia]. case_decide; [lia|rewrite dirent_length; lia]. }
      unfold dirent at 1. rewrite kget_lookup by lia. specialize (W5 (j * 64 + Z.of_nat k) ltac:(lia)).
      change (content s' p (j * 64 + Z.of_nat k) = default (content s p (j * 64 + Z.of_nat k)) (zget sd (j * 64 + Z.of_nat k - i * 64))) in W5.
      rewrite W5. case_decide as Hd.
      * subst j. replace (i * 64 + Z.of_nat k - i * 64) with (Z.of_nat k) by lia. rewrite zget_nat.
        by destruct (lookup_lt_is_Some_2 sd k) as [x ->]; [lia|].
      * destruct (zget sd (j * 64 + Z.of_nat k - i * 64)) eqn:E.
        { apply zget_Some in E as [E1 E2%lookup_lt_Some]. lia. }
        simpl. unfold dirent. by rewrite kget_lookup by lia.
Qed.

(** * Directories as maps *)
Definition ent_used (e : list Z) : Prop := sfd_ino e ≠ SFS_NOINO.
Definition ent_name (e : list Z) : list Z := cstr (sfd_name (<[63%nat := 0]> e)).

Record dir_ok (s : sfs) (p : Z) : Prop := {
  do_dir : ∃ sv, vnodes s !! p = Some sv ∧ sfi_type (sv_i sv) = SFS_TYPE_DIR;
  do_size : 0 ≤ size_of s p ≤ maxsize ∧ size_of s p mod 64 = 0;
  do_names : ∀ i j, 0 ≤ i < size_of s p / 64 → 0 ≤ j < size_of s p / 64 → ent_used (dirent s p i) → ent_used (dirent s p j) →
    ent_name (dirent s p i) = ent_name (dirent s p j) → i = j;
}.

(** The map of a directory. *)
Definition dir_rep (s : sfs) (p : Z) (D : gmap (list Z) Z) : Prop := dir_ok s p ∧
  ∀ name ino, D !! name = Some ino ↔
    ∃ i, 0 ≤ i < size_of s p / 64 ∧ ent_used (dirent s p i) ∧ ent_name (dirent s p i) = name ∧ sfd_ino (dirent s p i) = ino.

Lemma sfd_ino_term e : sfd_ino (<[63%nat := 0]> e) = sfd_ino e.
Proof. unfold sfd_ino, word_at. change (Z.to_nat (4 * 0)) with 0%nat. rewrite !drop_0. by rewrite take_insert_ge by lia. Qed.

Lemma wp_nentries s p : dir_ok s p → wp (sfs_dir_nentries p) (λ n s', n = size_of s p / 64 ∧ s' = s) s.
Proof.
  intros [(sv & Hp & Ht) [_ Hm] _]. unfold sfs_dir_nentries, sizeof_sfs_dir. apply wp_bind_2. eapply wp_get_sv; [done|].
  assert (size_of s p = sfi_size (sv_i sv)) as E by (unfold size_of, inode_of; by rewrite Hp).
  apply wp_bind_2, wp_kassert; [rewrite Ht; done|]. rewrite <-E, Hm. simpl. by wp_steps.
Qed.

(** What the search has seen before slot [i]. *)
Record searched (s : sfs) (p : Z) (name : list Z) (i : Z) (found : option (Z * Z)) (empty : Z) : Prop := {
  se_found : match found with
    | Some (ino, k) => 0 ≤ k < i ∧ ent_used (dirent s p k) ∧ ent_name (dirent s p k) = name ∧ ino = sfd_ino (dirent s p k)
    | None => ∀ k, 0 ≤ k < i → ent_used (dirent s p k) → ent_name (dirent s p k) ≠ name
    end;
  se_empty : empty = -1 ∧ (∀ k, 0 ≤ k < i → ent_used (dirent s p k)) ∨ 0 ≤ empty < i ∧ ¬ ent_used (dirent s p empty);
}.

Lemma wp_find_loop s p name n : fs_ok s → dir_ok s p → ∀ i found empty, 0 ≤ i → i + Z.of_nat n = size_of s p / 64 →
  searched s p name i found empty →
  wp (find_loop n p i name found empty) (λ r s', s' = s ∧ ∃ found' empty', searched s p name (size_of s p / 64) found' empty' ∧
    r = (match found' with Some _ => None | None => Some ENOENT end, found', empty')) s.
Proof.
  intros Hok Hd. pose proof Hd as [(sv & Hp & Ht) [Hs Hm] Hu].
  assert (size_of s p = sfi_size (sv_i sv)) as Esz by (unfold size_of, inode_of; by rewrite Hp).
  pose proof (Z.div_mod (size_of s p) 64 ltac:(lia)) as Hdm.
  induction n as [|n IH]; intros i found empty Hi Hn [Hf He]; cbn [find_loop].
  { wp_steps. split; [done|]. exists found, empty. replace (size_of s p / 64) with i by lia. split; [by constructor|done]. }
  apply wp_bind_2. eapply wp_mono; [eapply wp_readdir; try done; lia|]. intros r s' [-> ->].
  unfold SFS_NOINO in *. destruct (Z.eqb_spec (sfd_ino (dirent s p i)) 0) as [E0|Hne].
  - apply IH; [lia|lia|]. constructor.
    + destruct found as [[ino k]|]; [naive_solver lia|]. intros k Hk Hus. destruct (decide (k = i)) as [->|]; [done|apply Hf; [lia|done]].
    + right. split; [lia|]. unfold ent_used, SFS_NOINO. lia.
  - assert (∀ em, em = -1 ∧ (∀ k, 0 ≤ k < i → ent_used (dirent s p k)) ∨ 0 ≤ em < i ∧ ¬ ent_used (dirent s p em) →
      em = -1 ∧ (∀ k, 0 ≤ k < i + 1 → ent_used (dirent s p k)) ∨ 0 ≤ em < i + 1 ∧ ¬ ent_used (dirent s p em)) as Hem.
    { intros em [[-> H]|[H1 H2]]; [left; split; [done|]|right; split; [lia|done]]. intros k Hk.
      destruct (decide (k = i)) as [->|]; [done|apply H; lia]. }
    case_bool_decide as Hnm; change (cstr _) with (ent_name (dirent s p i)) in Hnm.
    + destruct found as [[ino k]|].
      { exfalso. destruct Hf as (Hk & Hus & Hna & _). assert (k = i) by (apply Hu; try lia; try done; congruence). lia. }
      wp_steps. rewrite sfd_ino_term. apply IH; [lia|lia|]. constructor; [|by apply Hem]. split_and!; try lia; try done.
    + apply IH; [lia|lia|]. constructor; [|by apply Hem]. destruct found as [[ino k]|]; [naive_solver lia|].
      intros k Hk Hus. destruct (decide (k = i)) as [->|]; [done|apply Hf; [lia|done]].
Qed.

Lemma wp_findname s p name : fs_ok s → dir_ok s p →
  wp (sfs_dir_findname p name) (λ r s', s' = s ∧ ∃ found empty, searched s p name (size_of s p / 64) found empty ∧
    r = (match found with Some _ => None | None => Some ENOENT end, found, empty)) s.
Proof.
  intros Hok Hd. unfold sfs_dir_findname. apply wp_bind_2. eapply wp_mono; [by apply wp_nentries|]. intros n s' [-> ->].
  destruct (do_size _ _ Hd) as [Hs _]. assert (0 ≤ size_of s p / 64) by (apply Z.div_pos; lia).
  apply wp_find_loop; [done|done|lia|lia|]. constructor; [intros k Hk; lia|left; split; [done|intros k Hk; lia]].
Qed.

(** ** Entries written *)
Lemma cstr_app_zeros name n : Forall (λ b, b ≠ 0) name → (0 < n)%nat → cstr (name ++ replicate n 0) = name.
Proof.
  intros H Hn. induction H as [|b name Hb _ IH]; simpl; [by destruct n; [lia|]|].
  rewrite (proj2 (Z.eqb_neq b 0)) by done. by rewrite IH.
Qed.

Section new_entry.
Context (name : list Z) (ino : Z).
Hypotheses (Hname : Forall (λ b, b ≠ 0) name) (Hlen : (length name ≤ 59)%nat) (Hino : 0 < ino < 4294967296).
Let sd := word_bytes ino ++ name ++ replicate (60 - length name) 0.

Lemma new_entry_length : length sd = 64%nat.
Proof using Hlen. unfold sd. rewrite !length_app, length_replicate. cbn [length word_bytes]. lia. Qed.
Lemma new_entry_ino : sfd_ino sd = ino.
Proof using Hino Hlen. unfold sfd_ino, word_at, sd. change (Z.to_nat (4 * 0)) with 0%nat. rewrite drop_0. change 4%nat with (length (word_bytes ino)).
  rewrite take_app_length. apply bytes_word_bytes. lia.
Qed.
Lemma new_entry_name : ent_name sd = name.
Proof using Hname Hlen.
  unfold ent_name. rewrite list_insert_id.
  - unfold sfd_name, sd. change 4%nat with (length (word_bytes ino)) at 1. rewrite drop_app_length. apply cstr_app_zeros; [done|lia].
  - unfold sd. rewrite !lookup_app_r by (cbn [length word_bytes]; lia). cbn [length word_bytes].
    rewrite lookup_replicate_2; [done|lia].
Qed.
End new_entry.

(** ** Changing the map *)
Section change.
Context (s s' : sfs) (p i : Z) (sd : list Z) (D : gmap (list Z) Z).
Hypotheses (Hrep : dir_rep s p D) (Hput : dir_put p i sd s s') (Hi : 0 ≤ i ≤ size_of s p / 64) (Hmax : i * 64 + 64 ≤ maxsize).
Let n := size_of s p / 64.
Let n' := Z.max n (i + 1).

Lemma put_size : size_of s p = n * 64 ∧ size_of s' p = n' * 64 ∧ size_of s' p / 64 = n'.
Proof using All.
  destruct Hrep as [[_ [Hs Hm] _] _]. pose proof (Z.div_mod (size_of s p) 64 ltac:(lia)) as Hdm. fold n in Hdm.
  assert (size_of s' p = n' * 64) as E by (rewrite (dp_size _ _ _ _ _ Hput); lia).
  split_and!; [lia|done|]. rewrite E. by apply Z.div_mul.
Qed.

Lemma put_dir_ok : (∀ j, 0 ≤ j < n → j ≠ i → ent_used sd → ent_used (dirent s p j) → ent_name (dirent s p j) ≠ ent_name sd) → dir_ok s' p.
Proof using All.
  intros Hun. destruct put_size as (E1 & E2 & E3). destruct Hrep as [[(sv & Hp & Ht) [Hs Hm] Hu] _]. constructor.
  - destruct (ds_file _ _ _ (dp_step _ _ _ _ _ Hput)) as (v & v' & H1 & H2 & [_ _ _ H3 _ _ _]). simplify_eq. exists v'. split; [done|congruence].
  - rewrite E2. split; [unfold maxsize in *; lia|]. by apply Z.mod_mul.
  - rewrite E3. intros j k Hj Hk. rewrite !(dp_ents _ _ _ _ _ Hput) by lia.
    destruct (decide (j = i)) as [->|], (decide (k = i)) as [->|]; intros U1 U2 E.
    + done.
    + exfalso. apply (Hun k); [lia|done|done|done|done].
    + exfalso. apply (Hun j); [lia|done|done|done|done].
    + apply Hu; (done || fold n; lia).
Qed.

Lemma put_linked : (i < n → ¬ ent_used (dirent s p i)) → ent_used sd → D !! ent_name sd = None →
  dir_rep s' p (<[ent_name sd := sfd_ino sd]> D).
Proof using All.
  intros Hfree Hus HD. destruct put_size as (E1 & E2 & E3). pose proof Hrep as [Hd HDD].
  assert (∀ j, 0 ≤ j < n → ent_used (dirent s p j) → ent_name (dirent s p j) ≠ ent_name sd) as Hno.
  { intros j Hj Hu E. assert (D !! ent_name sd = Some (sfd_ino (dirent s p j))) by (apply HDD; exists j; fold n; naive_solver). congruence. }
  split; [apply put_dir_ok; intros j Hj _ _ Hu; by apply Hno|]. intros name ino. rewrite E3. rewrite lookup_insert_Some. split.
  - intros [[<- <-]|[Hne H]].
    + exists i. rewrite (dp_ents _ _ _ _ _ Hput), decide_True by lia. split; [lia|done].
    + apply HDD in H as (j & Hj & Hu & Hna & Hin). fold n in Hj. exists j. rewrite (dp_ents _ _ _ _ _ Hput) by lia.
      rewrite decide_False by (intros ->; apply Hfree; [lia|done]). split; [lia|done].
  - intros (j & Hj & Hu & Hna & Hin). rewrite (dp_ents _ _ _ _ _ Hput) in * by lia. destruct (decide (j = i)) as [->|Hne].
    + left. done.
    + right. split; [intros E; apply (Hno j); [lia|done|congruence]|]. apply HDD. exists j. fold n. split; [lia|done].
Qed.

Lemma put_unlinked : i < n → ent_used (dirent s p i) → ¬ ent_used sd → dir_rep s' p (delete (ent_name (dirent s p i)) D).
Proof using All.
  intros Hlt Hus Hz. destruct put_size as (E1 & E2 & E3). pose proof Hrep as [Hd HDD].
  split; [apply put_dir_ok; done|]. intros name ino. rewrite E3. rewrite lookup_delete_Some. split.
  - intros [Hne H]. apply HDD in H as (j & Hj & Hu & Hna & Hin). fold n in Hj. exists j. rewrite (dp_ents _ _ _ _ _ Hput) by lia.
    rewrite decide_False by (intros ->; done). split; [lia|done].
  - intros (j & Hj & Hu & Hna & Hin). rewrite (dp_ents _ _ _ _ _ Hput) in * by lia. destruct (decide (j = i)) as [->|Hne]; [done|].
    split; [|apply HDD; exists j; fold n; split; [lia|done]].
    intros E. apply Hne. apply (do_names _ _ Hd); (done || fold n; lia || congruence).
Qed.
End change.

Lemma dir_rep_same s s' p D : dir_rep s p D → dir_step p s s' → size_of s' p = size_of s p →
  (∀ j, 0 ≤ j → dirent s' p j = dirent s p j) → dir_rep s' p D.
Proof.
  intros [[(sv & Hp & Ht) Hs Hu] HDD] Hst Es Ee. split; [constructor|].
  - destruct (ds_file _ _ _ Hst) as (v & v' & H1 & H2 & [_ _ _ H3 _ _ _]). simplify_eq. exists v'. split; [done|congruence].
  - by rewrite Es.
  - rewrite Es. intros i j Hi Hj. rewrite !Ee by lia. by apply Hu.
  - intros name ino. rewrite HDD, Es. split; intros (i & Hi & H); exists i; (split; [done|]); by rewrite ?Ee in * by lia.
Qed.

(** ** The operations *)
Lemma writedir_too_big p s sv sd i : vnodes s !! p = Some sv → maxsize ≤ i * 64 < 4294967296 → i * 64 ≤ sfi_size (sv_i sv) →
  wp (sfs_writedir p sd i) (λ r s', r = Some EFBIG ∧ s' = s) s.
Proof.
  intros Hp Hi Hsz. unfold sfs_writedir, sizeof_sfs_dir. unfold maxsize in Hi. apply wp_bind_2, wp_kassert; [blia|].
  rewrite u32_id by lia. apply wp_bind_2, wp_with_kbuf. set (s1 := set_mem _ s). set (u := uio_kinit 0 64 (i * 64) UIO_WRITE).
  assert (sfs_io p u s1 = Ok ((Some EFBIG, u), s1)) as E.
  { unfold sfs_io, get_sv, kassert, of_opt, mbind, M_bind, mret, M_ret, getS. simpl. rewrite Hp. simpl.
    change (set_resid 64 u) with u. rewrite io_body_too_big by (unfold maxsize; simpl; lia). simpl. rewrite Hp. simpl.
    rewrite (proj2 (Z.ltb_ge _ _)) by done. done. }
  unfold wp at 1. rewrite E. wp_steps. split; [done|]. by destruct s as [[]].
Qed.

Lemma rep_found s p D name ino k : dir_rep s p D → 0 ≤ k < size_of s p / 64 → ent_used (dirent s p k) → ent_name (dirent s p k) = name →
  ino = sfd_ino (dirent s p k) → D !! name = Some ino.
Proof. intros [_ H] Hk Hu Hn ->. apply H. by exists k. Qed.
Lemma rep_not_found s p D name : dir_rep s p D →
  (∀ k, 0 ≤ k < size_of s p / 64 → ent_used (dirent s p k) → ent_name (dirent s p k) ≠ name) → D !! name = None.
Proof.
  intros [_ H] Hn. destruct (D !! name) as [ino|] eqn:E; [|done]. apply H in E as (k & Hk & Hu & Hna & _). by destruct (Hn k).
Qed.

(** What linking a name gives. *)
Definition linked (p : Z) (D : gmap (list Z) Z) (name : list Z) (ino : Z) (s : sfs) (r : option errno * Z) (s' : sfs) : Prop :=
  match r.1 with
  | None => D !! name = None ∧ (length name ≤ 59)%nat ∧ dir_rep s' p (<[name := ino]> D) ∧ dir_step p s s' ∧
      0 ≤ r.2 < size_of s' p / 64 ∧ ent_used (dirent s' p r.2) ∧ ent_name (dirent s' p r.2) = name ∧
      (∀ j, 0 ≤ j → j ≠ r.2 → dirent s' p j = dirent s p j) ∧ size_of s p / 64 ≤ size_of s' p / 64 ∧
      (r.2 < size_of s p / 64 → ¬ ent_used (dirent s p r.2))
  | Some EEXIST => is_Some (D !! name) ∧ s' = s
  | Some ENAMETOOLONG => D !! name = None ∧ (60 ≤ length name)%nat ∧ s' = s
  | Some EFBIG => D !! name = None ∧ size_of s p = maxsize ∧ (∀ k, 0 ≤ k < 1144 → ent_used (dirent s p k)) ∧ s' = s
  | Some ENOSPC => D !! name = None ∧ full s' ∧ dir_rep s' p D ∧ dir_step p s s'
  | _ => False
  end.

Lemma wp_dir_link s p D name ino : fs_ok s → dir_rep s p D → Forall (λ b, b ≠ 0) name → 0 < ino < 4294967296 →
  wp (sfs_dir_link p name ino) (linked p D name ino s) s.
Proof.
  intros Hok Hrep Hname Hino. pose proof Hrep as [Hd _]. pose proof Hd as [(sv & Hp & Ht) [Hs Hm] _].
  assert (size_of s p = sfi_size (sv_i sv)) as Esz by (unfold size_of, inode_of; by rewrite Hp).
  pose proof (Z.div_mod (size_of s p) 64 ltac:(lia)) as Hdm. assert (0 ≤ size_of s p / 64) by (apply Z.div_pos; lia).
  unfold sfs_dir_link. apply wp_bind_2. eapply wp_mono; [by apply wp_findname|].
  intros r s0 [-> (found & empty & [Hf He] & ->)]. destruct found as [[ino' k]|].
  { wp_steps. destruct Hf as (Hk & Hu & Hn & Hi). split; [|done]. exists ino'. by eapply rep_found. }
  pose proof (rep_not_found s p D name Hrep Hf) as HD. rewrite bool_decide_eq_false_2 by naive_solver. unfold SFS_NAMELEN.
  destruct (Z.ltb_spec 60 (Z.of_nat (length name) + 1)) as [Hlong|Hlen]; [wp_steps; split_and!; [done|lia|done]|].
  set (sd := word_bytes ino ++ _). set (n := size_of s p / 64) in *.
  assert (∃ e, 0 ≤ e ≤ n ∧ (e < n → ¬ ent_used (dirent s p e)) ∧ (e = n → ∀ k, 0 ≤ k < n → ent_used (dirent s p k)) ∧
    ∀ Q, Q e s → wp (if empty <? 0 then sfs_dir_nentries p else mret empty) Q s) as (e & He1 & He2 & He3 & Hwp).
  { destruct He as [[-> Hall]|[Hr Hfree]].
    - exists n. split_and!; [lia|lia|lia|done|]. intros Q HQ. simpl. eapply wp_mono; [by apply wp_nentries|]. by intros ? ? [-> ->].
    - exists empty. split_and!; [lia|lia|done|lia|]. intros Q HQ. rewrite (proj2 (Z.ltb_ge _ _)) by lia. by wp_steps. }
  apply wp_bind_2, Hwp. apply wp_bind_2. unfold maxsize in *.
  destruct (decide (e * 64 + 64 ≤ 73216)) as [Hfit|Hbig].
  - eapply wp_mono; [apply (wp_writedir_put p s sv e sd); try done; try lia; unfold maxsize; try lia|].
    { apply new_entry_length. lia. }
    intros [er|] s'.
    + intros (-> & Hfu & Hst & Hsz & Hent & _). wp_steps. split_and!; [done|done| |done]. by eapply dir_rep_same.
    + intros Hput. wp_steps. assert (ent_name sd = name) as Hnm by (apply new_entry_name; [done|lia]).
      assert (sfd_ino sd = ino) as Hin by (apply new_entry_ino; lia). unfold linked. simpl.
      assert (ent_used sd) as Hus by (unfold ent_used, SFS_NOINO; lia).
      pose proof (put_size s s' p e sd D Hrep Hput ltac:(lia) ltac:(unfold maxsize; lia)) as (P1 & P2 & P3). fold n in P1, P2, P3.
      rewrite P3, (dp_ents _ _ _ _ _ Hput), decide_True by lia. split_and!; try done; try lia.
      * pose proof (put_linked s s' p e sd D Hrep Hput ltac:(lia) ltac:(unfold maxsize; lia) He2 Hus) as HL.
        rewrite Hnm, Hin in HL. by apply HL.
      * apply Hput.
      * intros j Hj Hne. rewrite (dp_ents _ _ _ _ _ Hput) by lia. by rewrite decide_False.
  - assert (e = n ∧ n = 1144) as [-> En] by lia.
    eapply wp_mono; [apply (writedir_too_big p s sv); [done|unfold maxsize; lia|lia]|]. intros r s' [-> ->]. wp_steps.
    split_and!; [done|unfold maxsize; lia| |done]. intros k Hk. apply He3; lia.
Qed.

(** An entry in use is in a block of the directory. *)
Lemma used_entry_block s p i : ent_used (dirent s p i) → slot s p (i * 64 / 512) ≠ 0.
Proof.
  intros Hu Hz. apply Hu. assert (dirent s p i = replicate 64 0) as ->; [|by vm_compute].
  apply list_eq. intros k. destruct (decide (k < 64)%nat) as [Hk|Hk].
  2:{ rewrite !lookup_ge_None_2; [done|rewrite length_replicate; lia|rewrite dirent_length; lia]. }
  unfold dirent. rewrite kget_lookup, lookup_replicate_2 by lia. f_equal. unfold content.
  replace ((i * 64 + Z.of_nat k) / 512) with (i * 64 / 512); [by rewrite Hz|].
  pose proof (Z.div_mod (i * 64) 512 ltac:(lia)). pose proof (Z.mod_pos_bound (i * 64) 512 ltac:(lia)).
  apply (Z.div_unique _ _ _ (i * 64 mod 512 + Z.of_nat k)); lia.
Qed.

(** What clearing the slot of a name gives. *)
Lemma wp_dir_unlink s p D i : fs_ok s → dir_rep s p D → 0 ≤ i < size_of s p / 64 → ent_used (dirent s p i) →
  wp (sfs_dir_unlink p i) (λ r s', r = None ∧ dir_step p s s' ∧ dir_rep s' p (delete (ent_name (dirent s p i)) D)) s.
Proof.
  intros Hok Hrep Hi Hu. pose proof Hrep as [Hd _]. pose proof Hd as [(sv & Hp & Ht) [Hs Hm] _].
  assert (size_of s p = sfi_size (sv_i sv)) as Esz by (unfold size_of, inode_of; by rewrite Hp).
  pose proof (Z.div_mod (size_of s p) 64 ltac:(lia)) as Hdm. unfold sfs_dir_unlink.
  eapply wp_mono; [apply (wp_writedir_put p s sv i); try done; lia|]. intros [e|] s'.
  - intros (_ & _ & _ & _ & _ & Hz). by destruct (used_entry_block s p i Hu).
  - intros Hput. split; [done|]. split; [apply Hput|]. eapply put_unlinked; try done; try lia. by vm_compute.
Qed.

(** C8: A directory is a finite map from names to inode numbers. Looking a name up
    changes nothing and finds its number and its slot, or says [ENOENT]; linking a
    new name adds exactly this name, in a free slot or at the end, and otherwise
    says [EEXIST], [ENAMETOOLONG] (60 bytes and more), [EFBIG] (all 1144 slots
    taken) or [ENOSPC] (no free block) and leaves the map as it was; clearing the
    slot of a name never fails and removes exactly this name. All other files keep their contents. *)
Theorem sfs_directory_is_a_map s p D : fs_ok s → dir_rep s p D →
  (∀ name, ∃ found empty,
    sfs_dir_findname p name s = Ok ((match found with Some _ => None | None => Some ENOENT end, found, empty), s) ∧
    fst <$> found = D !! name ∧
    ∀ ino i, found = Some (ino, i) → 0 ≤ i < size_of s p / 64 ∧ ent_used (dirent s p i) ∧ ent_name (dirent s p i) = name) ∧
  (∀ name ino, Forall (λ b, b ≠ 0) name → 0 < ino < 4294967296 →
    ∃ r s', sfs_dir_link p name ino s = Ok (r, s') ∧ linked p D name ino s r s') ∧
  (∀ i, 0 ≤ i < size_of s p / 64 → ent_used (dirent s p i) →
    ∃ s', sfs_dir_unlink p i s = Ok (None, s') ∧ dir_step p s s' ∧ dir_rep s' p (delete (ent_name (dirent s p i)) D)).
Proof.
  intros Hok Hrep. split_and!.
  - intros name. pose proof (wp_findname s p name Hok (proj1 Hrep)) as (r & s' & E & -> & found & empty & [Hf _] & ->)%wp_exists.
    exists found, empty. split; [done|]. destruct found as [[ino k]|]; simpl.
    + destruct Hf as (Hk & Hu & Hn & Hi). split; [symmetry; by eapply rep_found|]. intros ? ? [= <- <-]. done.
    + split; [symmetry; by eapply rep_not_found|done].
  - intros name ino Hn Hi. pose proof (wp_dir_link s p D name ino Hok Hrep Hn Hi) as (r & s' & E & H)%wp_exists. eauto.
  - intros i Hi Hu. pose proof (wp_dir_unlink s p D i Hok Hrep Hi Hu) as (r & s' & E & -> & H)%wp_exists. eauto.
Qed.

(** An empty directory whose inode, in block 1, is not on disk yet. *)
Module DirDemo.
Definition fs : sfs := set_vnodes {[ 2000 := SfsVnode (Inode 0 SFS_TYPE_DIR 1 (replicate 15 0) 0 (replicate 440 0)) 1 true 1 0 ]} Demo.fs.

Lemma no_slots p k : slot fs p k = 0.
Proof.
  unfold slot, inode_of, fs. simpl. destruct (decide (p = 2000)) as [->|Hp]; [|by rewrite lookup_singleton_ne].
  rewrite lookup_singleton_eq. simpl. unfold slot_of. simpl. destruct (k =? -1); [done|]. rewrite andb_false_r.
  destruct (Z.ltb_spec k 15); [|done]. unfold zget. destruct (Z.leb_spec 0 k); [|done]. by rewrite lookup_replicate_2 by lia.
Qed.
Lemma ok : fs_ok fs.
Proof.
  pose proof Demo.fs_is_ok as []. constructor; try done.
  - intros p sv H. unfold fs in H. simpl in H. apply lookup_singleton_Some in H as [<- <-]. done.
  - intros p k H. by rewrite no_slots in H.
  - intros p k q l _ H. by rewrite no_slots in H.
Qed.
Lemma rep : dir_rep fs 2000 ∅.
Proof.
  split; [constructor|].
  - eexists. done.
  - done.
  - intros i j Hi. change (size_of fs 2000 / 64) with 0 in Hi. lia.
  - intros name ino. split; [done|]. intros (i & Hi & _). change (size_of fs 2000 / 64) with 0 in Hi. lia.
Qed.
End DirDemo.

Lemma sfs_directory_is_a_map_witness :
  ∃ r s', sfs_dir_link 2000 [104; 105] 9 DirDemo.fs = Ok (r, s') ∧ linked 2000 ∅ [104; 105] 9 DirDemo.fs r s'.
Proof.
  apply (sfs_directory_is_a_map DirDemo.fs 2000 ∅ DirDemo.ok DirDemo.rep); [|lia]. repeat constructor; lia.
Defined.

(** * Inodes on disk *)
Lemma word_at_app l1 w l2 k : 0 ≤ k → Z.of_nat (length l1) = 4 * k → 0 ≤ w < 4294967296 → word_at (l1 ++ word_bytes w ++ l2) k = w.
Proof.
  intros Hk Hl Hw. unfold word_at. replace (Z.to_nat (4 * k)) with (length l1) by lia. rewrite drop_app_length.
  change 4%nat with (length (word_bytes w)). rewrite take_app_length. by apply bytes_word_bytes.
Qed.
Lemma half_at_app l1 w l2 k : 0 ≤ k → Z.of_nat (length l1) = 2 * k → 0 ≤ w < 65536 → half_at (l1 ++ half_bytes w ++ l2) k = w.
Proof.
  intros Hk Hl Hw. unfold half_at. replace (Z.to_nat (2 * k)) with (length l1) by lia. rewrite drop_app_length.
  change 2%nat with (length (half_bytes w)). rewrite take_app_length. unfold bytes_word, half_bytes. cbn [foldl].
  change (2 ^ 8) with 256. pose proof (Z.div_mod w 256 ltac:(lia)). rewrite (Z.mod_small (w / 256)); [lia|].
  split; [apply Z.div_pos; lia|apply Z.div_lt_upper_bound; lia].
Qed.
Lemma words_length ws : length (ws ≫= word_bytes) = (4 * length ws)%nat.
Proof. induction ws as [|w ws IH]; [done|]. rewrite bind_cons, length_app, IH. cbn [length word_bytes]. lia. Qed.
Lemma word_at_words l1 ws l2 k0 (j : nat) w : 0 ≤ k0 → Z.of_nat (length l1) = 4 * k0 → ws !! j = Some w → 0 ≤ w < 4294967296 →
  word_at (l1 ++ (ws ≫= word_bytes) ++ l2) (k0 + Z.of_nat j) = w.
Proof.
  intros Hk Hl Hj Hw. rewrite <-(take_drop_middle ws j w Hj). rewrite bind_app, bind_cons.
  rewrite <-!app_assoc. rewrite (app_assoc l1). apply word_at_app; [lia| |done].
  rewrite length_app, words_length, length_take. apply lookup_lt_Some in Hj. lia.
Qed.

(** An inode whose fields fit their types. *)
Record inode_wf (i : sfs_inode) : Prop := {
  iw_size : 0 ≤ sfi_size i < 4294967296;
  iw_type : 0 ≤ sfi_type i < 65536;
  iw_link : 0 ≤ sfi_linkcount i < 65536;
  iw_direct : length (sfi_direct i) = 15%nat ∧ Forall (λ b, 0 ≤ b < 4294967296) (sfi_direct i);
  iw_indirect : 0 ≤ sfi_indirect i < 4294967296;
  iw_waste : length (sfi_waste i) = 440%nat;
}.

Lemma inode_bytes_length i : inode_wf i → length (inode_bytes i) = 512%nat.
Proof.
  intros [_ _ _ [Hd _] _ Hw]. unfold inode_bytes. rewrite !length_app, words_length, Hd, Hw. done.
Qed.

Lemma inode_decode i : inode_wf i → bytes_inode (inode_bytes i) = i.
Proof.
  intros [H1 H2 H3 [H4 H4'] H5 H6]. unfold bytes_inode, inode_bytes.
  set (l := word_bytes (sfi_size i) ++ half_bytes (sfi_type i) ++ half_bytes (sfi_linkcount i) ++
    (sfi_direct i ≫= word_bytes) ++ word_bytes (sfi_indirect i) ++ sfi_waste i).
  assert (word_at l 0 = sfi_size i) as -> by (by apply (word_at_app [])).
  assert (half_at l 2 = sfi_type i) as -> by (by apply (half_at_app (word_bytes (sfi_size i)))).
  assert (half_at l 3 = sfi_linkcount i) as ->.
  { unfold l. rewrite app_assoc. by apply half_at_app. }
  assert (word_at l <$> seqZ 2 15 = sfi_direct i) as ->.
  { apply list_eq. intros j. rewrite list_lookup_fmap. destruct (decide (j < 15)%nat) as [Hj|Hj].
    - rewrite lookup_seqZ_lt by lia. destruct (lookup_lt_is_Some_2 (sfi_direct i) j) as [w Hw]; [lia|]. rewrite Hw. simpl. f_equal.
      unfold l. rewrite !(app_assoc (word_bytes _)), (app_assoc _ (half_bytes (sfi_linkcount i))).
      apply word_at_words; [lia|done|done|]. rewrite Forall_lookup in H4'. by eapply H4'.
    - rewrite lookup_seqZ_ge by lia. by rewrite lookup_ge_None_2 by lia. }
  assert (word_at l 17 = sfi_indirect i) as ->.
  { unfold l. rewrite !app_assoc. rewrite <-(app_assoc _ (word_bytes (sfi_indirect i))). apply word_at_app; [lia| |done].
    rewrite !length_app, words_length, H4. done. }
  assert (drop 72 l = sfi_waste i) as ->.
  { unfold l. rewrite !app_assoc. apply drop_app_length'. rewrite !length_app, words_length, H4. done. }
  by destruct i.
Qed.

(** Writing a block no file owns. *)
Lemma put_unowned s b l : fs_ok s → length l = 512%nat → (∀ q k, slot s q k ≠ b) →
  let s' := set_disk (kput (s_disk s) (b * 512) l) [] s in
  fs_ok s' ∧ (∀ q k, slot s' q k = slot s q k) ∧ (∀ q o, content s' q o = content s q o) ∧
  dblk (s_disk s') b = l ∧ (∀ c, c ≠ b → dblk (s_disk s') c = dblk (s_disk s) c).
Proof.
  intros Hok Hl Hb s'. assert (∀ c, c ≠ b → dblk (s_disk s') c = dblk (s_disk s) c) as Hd by (intros c Hc; by apply dblk_put_ne).
  assert (∀ q k, slot s' q k = slot s q k) as Hs.
  { intros q k. apply slot_same; [done|]. intros _. apply Hd, Hb. }
  split_and!; [|done| |by apply dblk_put_same|done].
  - destruct Hok. constructor; try done; intros; rewrite ?Hs in *; eauto.
  - intros q o. apply content_ext; [apply Hs|done|]. intros _. apply Hd, Hb.
Qed.

(** Marking a vnode changes no file. *)
Lemma put_same_inode s p sv sv' : fs_ok s → vnodes s !! p = Some sv → sv_i sv' = sv_i sv →
  let s' := set_vnodes (<[p := sv']> (vnodes s)) s in
  fs_ok s' ∧ (∀ q k, slot s' q k = slot s q k) ∧ (∀ q o, content s' q o = content s q o).
Proof.
  intros Hok Hp Hi s'. assert (∀ q k, slot s' q k = slot s q k) as Hs.
  { intros q k. unfold slot, inode_of, s'. simpl. destruct (decide (q = p)) as [->|]; [|by rewrite lookup_insert_ne].
    rewrite lookup_insert_eq, Hp. simpl. by rewrite Hi. }
  split_and!; [|done|intros q o; unfold content; by rewrite Hs].
  pose proof Hok as []. constructor; try done; intros; rewrite ?Hs in *; eauto.
  unfold s' in *. simpl in *. destruct (decide (p0 = p)) as [->|]; simplify_map_eq; [rewrite Hi|]; eauto.
Qed.

(** A synced inode survives on disk: after [sfs_sync_inode] the vnode is clean
    and decoding its block gives back the inode (provided a clean vnode had its
    inode on disk before), no other block changes, and no file changes. *)
Theorem inode_survives_sync s p sv : fs_ok s → vnodes s !! p = Some sv → inode_wf (sv_i sv) →
  0 < sv_ino sv < sp_nblocks s → (∀ q k, slot s q k ≠ sv_ino sv) →
  (sv_dirty sv = false → bytes_inode (dblk (s_disk s) (sv_ino sv)) = sv_i sv) →
  ∃ s', sfs_sync_inode p s = Ok (None, s') ∧ fs_ok s' ∧
    vnodes s' = <[p := set_dirty false sv]> (vnodes s) ∧
    bytes_inode (dblk (s_disk s') (sv_ino sv)) = sv_i sv ∧
    (∀ b, b ≠ sv_ino sv → dblk (s_disk s') b = dblk (s_disk s) b) ∧
    (∀ q o, content s' q o = content s q o).
Proof.
  intros Hok Hp Hwf Hino Hsl Hclean. pose proof (ok_geom _ Hok).
  assert (wp (sfs_sync_inode p) (λ r s', r = None ∧ fs_ok s' ∧ vnodes s' = <[p := set_dirty false sv]> (vnodes s) ∧
    bytes_inode (dblk (s_disk s') (sv_ino sv)) = sv_i sv ∧ (∀ b, b ≠ sv_ino sv → dblk (s_disk s') b = dblk (s_disk s) b) ∧
    (∀ q o, content s' q o = content s q o)) s) as (r & s' & E & -> & H')%wp_exists; [|by exists s'].
  unfold sfs_sync_inode. apply wp_bind_2. eapply wp_get_sv; [done|]. destruct (sv_dirty sv) eqn:Ed.
  - pose proof (inode_bytes_length _ Hwf) as Hl. apply wp_bind_2.
    eapply wp_mono; [apply wp_wblock; [by apply ok_hw|lia|lia|done]|]. intros r s1 [-> ->]. unfold put_sv. wp_steps.
    destruct (put_unowned s (sv_ino sv) (inode_bytes (sv_i sv)) Hok Hl) as (O1 & O2 & O3 & O4 & O5); [intros q k; apply Hsl|].
    set (s1 := set_disk _ _ s) in *. destruct (put_same_inode s1 p sv (set_dirty false sv) O1 Hp eq_refl) as (P1 & P2 & P3).
    split_and!; [done|done|done| |done|].
    + change (s_disk (set_vnodes _ s1)) with (s_disk s1). rewrite O4. by apply inode_decode.
    + intros q o. by rewrite P3, O3.
  - wp_steps. split_and!; [done|done| |by apply Hclean|done|done]. rewrite insert_id; [done|]. rewrite Hp. f_equal.
    destruct sv as [? ? d ? ?]. simpl in Ed. by subst d.
Qed.

Lemma inode_survives_sync_witness : ∃ s', sfs_sync_inode 2000 DirDemo.fs = Ok (None, s') ∧
  sfi_type (bytes_inode (dblk (s_disk s') 1)) = SFS_TYPE_DIR.
Proof.
  destruct (inode_survives_sync DirDemo.fs 2000 (SfsVnode (Inode 0 SFS_TYPE_DIR 1 (replicate 15 0) 0 (replicate 440 0)) 1 true 1 0))
    as (s' & E & _ & _ & Hi & _).
  - apply DirDemo.ok.
  - done.
  - constructor; simpl; try done. split; [done|]. apply Forall_replicate. lia.
  - simpl. lia.
  - intros q k. by rewrite DirDemo.no_slots.
  - done.
  - exists s'. split; [done|]. simpl in Hi. by rewrite Hi.
Defined.
