(* ===== verification/SfsVn.v ===== *)
(** The files of a mounted file system: the invariant [vn_ok] ties the vnodes in
    memory, their table, the free map and the disk to one map [F] from inode
    numbers to inodes, whether a file is loaded or not, and is kept by whatever
    changes one file, one vnode or one block no file owns. *)

From stdpp Require Import base tactics numbers list gmap.
From S2P Require Import Prelude KernDefs CopyInOut Bitmap Uio Array Sfs SfsInv SfsMap SfsIo SfsTrunc SfsDir SfsDirSpec.
Local Open Scope Z_scope.

(** The byte at offset [o] of the file with inode [i]. *)
Definition fcont (d : Z → Z) (i : sfs_inode) (o : Z) : Z :=
  let b := slot_of d i (o / 512) in if b =? 0 then 0 else d (b * 512 + o mod 512).

(** The file with inode [i] has the same blocks and contents on both disks. *)
Definition same_file (d d' : Z → Z) (i : sfs_inode) : Prop :=
  (∀ k, slot_of d' i k = slot_of d i k) ∧ ∀ o, fcont d' i o = fcont d i o.

Lemma content_fcont s p sv o : vnodes s !! p = Some sv → content s p o = fcont (s_disk s) (sv_i sv) o.
Proof. intros H. unfold content, fcont. by rewrite (slot_eq _ _ _ _ H). Qed.

(** Slot [k] of file [j]. *)
Definition fsl (d : Z → Z) (F : gmap Z sfs_inode) (j k : Z) : Z := default 0 ((λ i, slot_of d i k) <$> F !! j).

Record vn_ok (s : sfs) (tbl : list Z) (F : gmap Z sfs_inode) : Prop := {
  vo_fs : fs_ok s;
  vo_tbl : arr_rep (sfs_vnodes s) tbl ∧ NoDup tbl ∧ ∀ p, p ∈ tbl ↔ is_Some (vnodes s !! p);
  vo_vn : ∀ p sv, vnodes s !! p = Some sv → F !! sv_ino sv = Some (sv_i sv) ∧ 1 ≤ vn_refcount sv < 2147483648;
  vo_one : ∀ p q sv sv', vnodes s !! p = Some sv → vnodes s !! q = Some sv' → sv_ino sv = sv_ino sv' → p = q;
  vo_disk : ∀ j i, F !! j = Some i → bytes_inode (dblk (s_disk s) j) = i ∨
    ∃ p sv, vnodes s !! p = Some sv ∧ sv_ino sv = j ∧ sv_dirty sv = true;
  vo_file : ∀ j i, F !! j = Some i → 0 < j < sp_nblocks s ∧ used s j = true ∧ inode_wf i ∧
    (sfi_type i = SFS_TYPE_FILE ∨ sfi_type i = SFS_TYPE_DIR);
  vo_slot : ∀ j k, fsl (s_disk s) F j k ≠ 0 → 0 < fsl (s_disk s) F j k < sp_nblocks s ∧
    used s (fsl (s_disk s) F j k) = true ∧ F !! fsl (s_disk s) F j k = None;
  vo_inj : ∀ j k j' k', fsl (s_disk s) F j k = fsl (s_disk s) F j' k' → fsl (s_disk s) F j k ≠ 0 → j = j' ∧ k = k';
}.

(** All files but those of [J] are the same in both states. *)
Definition untouched (J : Z → Prop) (s : sfs) (F : gmap Z sfs_inode) (s' : sfs) (F' : gmap Z sfs_inode) : Prop :=
  ∀ j, ¬ J j → F' !! j = F !! j ∧ ∀ i, F !! j = Some i → same_file (s_disk s) (s_disk s') i.

Lemma untouched_refl J s F : untouched J s F s F.
Proof. done. Qed.
Lemma untouched_trans (J1 J2 J : Z → Prop) s F s1 F1 s2 F2 : (∀ j, J1 j ∨ J2 j → J j) →
  untouched J1 s F s1 F1 → untouched J2 s1 F1 s2 F2 → untouched J s F s2 F2.
Proof.
  intros HJ H1 H2 j Hj. destruct (H1 j) as [E1 C1]; [naive_solver|]. destruct (H2 j) as [E2 C2]; [naive_solver|].
  split; [congruence|]. intros i Hi. destruct (C1 i Hi), (C2 i) as [S2 O2]; [congruence|].
  split; [intros k; rewrite S2|intros o; rewrite O2]; done.
Qed.
Lemma untouched_or (J1 J2 : Z → Prop) s F s1 F1 s2 F2 :
  untouched J1 s F s1 F1 → untouched J2 s1 F1 s2 F2 → untouched (λ j, J1 j ∨ J2 j) s F s2 F2.
Proof. apply untouched_trans. done. Qed.
Lemma untouched_mono (J J' : Z → Prop) s F s' F' : (∀ j, J j → J' j) → untouched J s F s' F' → untouched J' s F s' F'.
Proof. intros HJ H j Hj. apply H. naive_solver. Qed.

Section facts.
Context (s : sfs) (tbl : list Z) (F : gmap Z sfs_inode).
Hypothesis Hv : vn_ok s tbl F.

Lemma slot_fsl p sv k : vnodes s !! p = Some sv → slot s p k = fsl (s_disk s) F (sv_ino sv) k.
Proof using Hv. intros H. rewrite (slot_eq _ _ _ _ H). unfold fsl. by rewrite (proj1 (vo_vn _ _ _ Hv _ _ H)). Qed.
Lemma fsl_indirect j i : F !! j = Some i → fsl (s_disk s) F j (-1) = sfi_indirect i.
Proof. intros H. unfold fsl. by rewrite H. Qed.
Lemma slot_not_file p k j i : F !! j = Some i → slot s p k ≠ j.
Proof using Hv.
  intros Hj E. pose proof (vo_file _ _ _ Hv _ _ Hj) as [Hr _]. destruct (vnodes s !! p) as [sv|] eqn:Hp.
  - rewrite (slot_fsl _ _ _ Hp) in E. destruct (vo_slot _ _ _ Hv (sv_ino sv) k) as (_ & _ & HN); [lia|]. congruence.
  - rewrite slot_none in E by done. lia.
Qed.
Lemma vn_ino p sv : vnodes s !! p = Some sv → 0 < sv_ino sv < sp_nblocks s ∧ used s (sv_ino sv) = true ∧ inode_wf (sv_i sv).
Proof using Hv. intros H. destruct (vo_vn _ _ _ Hv _ _ H) as [HF _]. naive_solver (eapply vo_file; eauto). Qed.

(** A file keeps its slots and contents when its own blocks keep theirs. *)
Lemma fsl_kept s' j i : F !! j = Some i → (∀ k, fsl (s_disk s) F j k ≠ 0 →
    dblk (s_disk s') (fsl (s_disk s) F j k) = dblk (s_disk s) (fsl (s_disk s) F j k)) →
  (∀ k, slot_of (s_disk s') i k = fsl (s_disk s) F j k) ∧ same_file (s_disk s) (s_disk s') i.
Proof using Type.
  intros Hj Hd. assert (∀ k, slot_of (s_disk s) i k = fsl (s_disk s) F j k) as Es by (intros k; unfold fsl; by rewrite Hj).
  assert (∀ k, slot_of (s_disk s') i k = fsl (s_disk s) F j k) as E.
  { intros k. rewrite <-Es. apply slot_of_ext. intros Hi. rewrite <-(fsl_indirect _ _ Hj) in *. by apply Hd. }
  split; [done|]. split; [intros k; by rewrite E, Es|]. intros o. unfold fcont. rewrite E, Es. destruct (Z.eqb_spec (fsl (s_disk s) F j (o / 512)) 0); [done|].
  apply dblk_eq_at; [apply Z.mod_pos_bound; lia|by apply Hd].
Qed.
End facts.

(** * A change of one file *)
Record file_step (p : Z) (s s' : sfs) : Prop := {
  fst_ok : fs_ok s';
  fst_geom : d_blocks s' = d_blocks s ∧ sp_nblocks s' = sp_nblocks s ∧ sfs_vnodes s' = sfs_vnodes s ∧ s_heap s' = s_heap s;
  fst_others : ∀ q, q ≠ p → vnodes s' !! q = vnodes s !! q;
  fst_file : ∃ sv sv', vnodes s !! p = Some sv ∧ vnodes s' !! p = Some sv' ∧ keep_meta sv sv';
  fst_blocks : ∀ b, 0 ≤ b < sp_nblocks s → used s b = true → (∀ k, slot s p k ≠ b) →
    used s' b = true ∧ dblk (s_disk s') b = dblk (s_disk s) b;
  fst_slots : ∀ k, slot s' p k = 0 ∨ slot s' p k = slot s p k ∨ used s (slot s' p k) = false;
}.

Lemma dir_file_step p s s' : dir_step p s s' → file_step p s s'.
Proof.
  intros [D1 D2 D3 D4 D5 D6 D7]. constructor; try done; [intros q Hq; by apply D4|].
  intros k. destruct (D6 k) as [|[_ ?]]; auto.
Qed.
Lemma shrunk_file_step p bl s s' : fs_ok s → shrunk p bl s s' → file_step p s s'.
Proof.
  intros Hok Hs. pose proof Hs as [(G1 & G2 & G3) G4 G5 G6 G7 G8 G9 G10 G11]. pose proof (ok_map _ Hok). constructor; try done.
  - by eapply shrunk_ok.
  - destruct G7 as (v & v' & ? & ? & _ & ?). eauto.
  - intros b Hb Hu Hk. split; [|apply G11; naive_solver]. apply G5; [lia|]. split; [done|]. intros (k & E & _). by apply (Hk k).
  - intros k. destruct (decide (slot s' p k = 0)); [by left|]. right. left. by eapply sh_less.
Qed.

(** The inode of a loaded file is well formed when its slots are. *)
Lemma inode_wf_intro s p sv i : fs_ok s → vnodes s !! p = Some sv → inode_wf i →
  sfi_type (sv_i sv) = sfi_type i → sfi_linkcount (sv_i sv) = sfi_linkcount i → sfi_waste (sv_i sv) = sfi_waste i →
  0 ≤ sfi_size (sv_i sv) < 4294967296 → inode_wf (sv_i sv).
Proof.
  intros Hok Hp [_ W2 W3 _ _ W6] E1 E2 E3 Hsz. pose proof (ok_geom _ Hok). pose proof (ok_direct _ Hok _ _ Hp) as Hl.
  constructor; try congruence; try done.
  - split; [done|]. apply Forall_lookup. intros k b Hb. pose proof (lookup_lt_Some _ _ _ Hb).
    destruct (decide (b = 0)) as [->|Hne]; [lia|]. assert (slot s p (Z.of_nat k) = b) as E.
    { rewrite (slot_eq _ _ _ _ Hp). unfold slot_of. rewrite (proj2 (Z.eqb_neq _ (-1))), (proj2 (Z.ltb_lt _ 15)) by lia.
      by rewrite zget_nat, Hb. }
    pose proof (ok_slot _ Hok p (Z.of_nat k)). rewrite E in *. naive_solver lia.
  - pose proof (ok_slot _ Hok p (-1)) as Hs. rewrite (slot_indirect _ _ _ Hp) in Hs.
    destruct (decide (sfi_indirect (sv_i sv) = 0)) as [->|Hne]; [lia|]. naive_solver lia.
Qed.

Section file_step.
Context (s s' : sfs) (tbl : list Z) (F : gmap Z sfs_inode) (p : Z) (sv sv' : sfs_vnode).
Hypotheses (Hv : vn_ok s tbl F) (Hs : file_step p s s') (Hp : vnodes s !! p = Some sv) (Hp' : vnodes s' !! p = Some sv').
Hypothesis Hsz : 0 ≤ sfi_size (sv_i sv') < 4294967296.
Let ino := sv_ino sv.
Let F' := <[ino := sv_i sv']> F.

Lemma step_meta : keep_meta sv sv'.
Proof using Hs Hp Hp'. destruct (fst_file _ _ _ Hs) as (v & v' & E1 & E2 & Hm). by simplify_eq. Qed.

Lemma step_other j i : j ≠ ino → F !! j = Some i → (∀ k, slot_of (s_disk s') i k = fsl (s_disk s) F j k) ∧
  same_file (s_disk s) (s_disk s') i.
Proof using Hv Hs Hp.
  intros Hne Hj. apply (fsl_kept s F s' j i Hj). intros k Hk. destruct (vo_slot _ _ _ Hv j k Hk) as (Hr & Hu & _).
  apply (fst_blocks _ _ _ Hs); [lia|done|]. intros k' E. rewrite (slot_fsl _ _ _ Hv _ _ _ Hp) in E.
  unfold ino in *. destruct (vo_inj _ _ _ Hv (sv_ino sv) k' j k) as [E' _]; congruence.
Qed.

Lemma step_fsl j k : fsl (s_disk s') F' j k = if decide (j = ino) then slot s' p k else fsl (s_disk s) F j k.
Proof using Hv Hs Hp Hp'.
  unfold fsl at 1, F'. case_decide as Hd.
  - subst j. rewrite lookup_insert_eq. simpl. symmetry. by apply slot_eq.
  - rewrite lookup_insert_ne by done. unfold fsl. destruct (F !! j) as [i|] eqn:Hj; [|done]. simpl.
    rewrite (proj1 (step_other j i Hd Hj)). unfold fsl. by rewrite Hj.
Qed.

(** The slots of the changed file are no one else's. *)
Lemma step_slot_new k : slot s' p k ≠ 0 → F !! slot s' p k = None ∧
  ∀ j k', j ≠ ino → fsl (s_disk s) F j k' ≠ slot s' p k.
Proof using Hv Hs Hp.
  intros Hne. destruct (fst_slots _ _ _ Hs k) as [?|[E|Hu]]; [done| |].
  - rewrite E in *. rewrite (slot_fsl _ _ _ Hv _ _ _ Hp) in *. split; [by apply (vo_slot _ _ _ Hv)|].
    intros j k' Hj E'. unfold ino in Hj. destruct (vo_inj _ _ _ Hv _ _ _ _ E'); congruence.
  - split.
    + destruct (F !! slot s' p k) eqn:E; [|done]. destruct (vo_file _ _ _ Hv _ _ E) as (_ & Hu' & _). congruence.
    + intros j k' _ E. destruct (vo_slot _ _ _ Hv j k') as (_ & Hu' & _); congruence.
Qed.

Lemma file_step_vn : vn_ok s' tbl F' ∧ untouched (λ j, j = ino) s F s' F'.
Proof using All.
  pose proof step_meta as [M1 M2 M3 M4 M5 M6 M7]. pose proof (fst_geom _ _ _ Hs) as (G1 & G2 & G3 & G4).
  pose proof (vo_vn _ _ _ Hv _ _ Hp) as [HF Href]. pose proof (fst_ok _ _ _ Hs) as Hok'.
  assert (∀ j i, F !! j = Some i → used s' j = true ∧ dblk (s_disk s') j = dblk (s_disk s) j) as Hblk.
  { intros j i Hj. destruct (vo_file _ _ _ Hv _ _ Hj) as (Hr & Hu & _). apply (fst_blocks _ _ _ Hs); [lia|done|].
    intros k. by eapply slot_not_file. }
  assert (∀ q v, vnodes s' !! q = Some v → q = p ∧ v = sv' ∨ q ≠ p ∧ vnodes s !! q = Some v) as Hvn.
  { intros q v. destruct (decide (q = p)) as [->|]; [left; split; congruence|]. rewrite (fst_others _ _ _ Hs) by done. by right. }
  assert (∀ q, is_Some (vnodes s' !! q) ↔ is_Some (vnodes s !! q)) as Hdom.
  { intros q. destruct (decide (q = p)) as [->|]; [by rewrite Hp, Hp'|by rewrite (fst_others _ _ _ Hs)]. }
  split.
  2:{ intros j Hj. unfold F'. rewrite lookup_insert_ne by done. split; [done|]. intros i Hi. by apply (step_other j). }
  constructor; rewrite ?G2, ?G3; try done.
  - destruct (vo_tbl _ _ _ Hv) as (T1 & T2 & T3). split_and!; [done..|]. intros q. by rewrite Hdom.
  - intros q v [[-> ->]|[Hq Hqv]]%Hvn; unfold F'.
    + rewrite M1, M2. split; [by apply lookup_insert_eq|done].
    + rewrite lookup_insert_ne; [exact (vo_vn _ _ _ Hv _ _ Hqv)|]. intros E. apply Hq. symmetry. by eapply (vo_one _ _ _ Hv).
  - intros q r v v' Hq Hr E. pose proof (vo_one _ _ _ Hv) as H1. apply Hvn in Hq as [[-> ->]|[_ Hq]], Hr as [[-> ->]|[_ Hr]].
    + done.
    + eapply H1; [exact Hp|exact Hr|congruence].
    + eapply H1; [exact Hq|exact Hp|congruence].
    + by eapply H1.
  - intros j i. unfold F'. rewrite lookup_insert_Some. intros [[<- <-]|[Hj Hi]].
    + destruct M7 as [Hd| ->]; [right; by exists p, sv'|]. destruct (vo_disk _ _ _ Hv _ _ HF) as [E|(q & v & Hq & E & Hd)].
      * left. unfold ino. by rewrite (proj2 (Hblk _ _ HF)).
      * right. assert (q = p) as -> by by eapply (vo_one _ _ _ Hv). simplify_eq. by exists p, sv.
    + destruct (vo_disk _ _ _ Hv _ _ Hi) as [E|(q & v & Hq & E & Hd)]; [left; by rewrite (proj2 (Hblk _ _ Hi))|].
      right. exists q, v. rewrite (fst_others _ _ _ Hs); [done|]. intros ->. simplify_eq.
  - intros j i. unfold F'. rewrite lookup_insert_Some. intros [[<- <-]|[Hj Hi]].
    + destruct (vo_file _ _ _ Hv _ _ HF) as (F1 & F2 & F3 & F4). split_and!; [apply F1..| | |].
      * by apply (Hblk _ _ HF).
      * by eapply inode_wf_intro.
      * by rewrite M4.
    + destruct (vo_file _ _ _ Hv _ _ Hi) as (F1 & F2 & F3 & F4). split_and!; [apply F1..| |done|done]. by apply (Hblk _ _ Hi).
  - intros j k. rewrite step_fsl. case_decide as Hd; intros Hne.
    + destruct (ok_slot _ Hok' p k Hne) as [S1 S2]. split_and!; [lia|lia|done|]. unfold F'.
      apply lookup_insert_None. split; [by apply step_slot_new|]. intros E.
      destruct (step_slot_new k Hne) as [HN _]. rewrite <-E in HN. unfold ino in HN. congruence.
    + destruct (vo_slot _ _ _ Hv j k Hne) as (S1 & S2 & S3). split_and!; [lia..| |].
      * apply (fst_blocks _ _ _ Hs); [lia|done|]. intros k' E. rewrite (slot_fsl _ _ _ Hv _ _ _ Hp) in E.
        unfold ino in *. destruct (vo_inj _ _ _ Hv (sv_ino sv) k' j k) as [E' _]; congruence.
      * unfold F'. apply lookup_insert_None. split; [done|]. intros E. rewrite <-E in S3. unfold ino in S3. congruence.
  - intros j k j' k'. rewrite !step_fsl. repeat case_decide; intros E Hne; subst.
    + split; [done|]. by eapply (ok_inj _ Hok').
    + exfalso. by apply (proj2 (step_slot_new k Hne) j' k').
    + exfalso. rewrite E in Hne. by apply (proj2 (step_slot_new k' Hne) j k).
    + by apply (vo_inj _ _ _ Hv).
Qed.
End file_step.

(** * Changes that leave the blocks of all files alone *)
(** The part of [fs_ok] that says nothing of files. *)
Definition geom_ok (s : sfs) : Prop :=
  s_hw s = [] ∧ 0 < sp_nblocks s ≤ d_blocks s ∧ d_blocks s ≤ 8388608 ∧
  bm_ok (sfs_freemap s) ∧ sp_nblocks s ≤ nbits (sfs_freemap s) ∧
  (∀ b, sp_nblocks s ≤ b < nbits (sfs_freemap s) → used s b = true) ∧ used s 0 = true.
Lemma geom_of s : fs_ok s → geom_ok s.
Proof. intros [H1 [H2 H3] [H4 H5] H6 H7 _ _ _]. done. Qed.

(** The files alone make [fs_ok]. *)
Lemma vn_intro s tbl F : geom_ok s →
  arr_rep (sfs_vnodes s) tbl ∧ NoDup tbl ∧ (∀ p, p ∈ tbl ↔ is_Some (vnodes s !! p)) →
  (∀ p sv, vnodes s !! p = Some sv → F !! sv_ino sv = Some (sv_i sv) ∧ 1 ≤ vn_refcount sv < 2147483648) →
  (∀ p q sv sv', vnodes s !! p = Some sv → vnodes s !! q = Some sv' → sv_ino sv = sv_ino sv' → p = q) →
  (∀ j i, F !! j = Some i → bytes_inode (dblk (s_disk s) j) = i ∨
    ∃ p sv, vnodes s !! p = Some sv ∧ sv_ino sv = j ∧ sv_dirty sv = true) →
  (∀ j i, F !! j = Some i → 0 < j < sp_nblocks s ∧ used s j = true ∧ inode_wf i ∧
    (sfi_type i = SFS_TYPE_FILE ∨ sfi_type i = SFS_TYPE_DIR)) →
  (∀ j k, fsl (s_disk s) F j k ≠ 0 → 0 < fsl (s_disk s) F j k < sp_nblocks s ∧
    used s (fsl (s_disk s) F j k) = true ∧ F !! fsl (s_disk s) F j k = None) →
  (∀ j k j' k', fsl (s_disk s) F j k = fsl (s_disk s) F j' k' → fsl (s_disk s) F j k ≠ 0 → j = j' ∧ k = k') →
  vn_ok s tbl F.
Proof.
  intros (G1 & G2 & G3 & G4 & G5 & G6 & G7) Ht Hvn Hone Hd Hf Hs Hi.
  assert (∀ p sv k, vnodes s !! p = Some sv → slot s p k = fsl (s_disk s) F (sv_ino sv) k) as Es.
  { intros p sv k H. rewrite (slot_eq _ _ _ _ H). unfold fsl. by rewrite (proj1 (Hvn _ _ H)). }
  constructor; try done. constructor; try done.
  - intros p sv H. destruct (Hf _ _ (proj1 (Hvn _ _ H))) as (_ & _ & W & _). apply W.
  - intros p k Hne. destruct (vnodes s !! p) as [sv|] eqn:Hp; [|by rewrite slot_none in Hne].
    rewrite (Es _ _ _ Hp) in *. naive_solver.
  - intros p k q l E Hne. destruct (vnodes s !! p) as [sv|] eqn:Hp; [|by rewrite slot_none in Hne].
    destruct (vnodes s !! q) as [sv'|] eqn:Hq; [|rewrite E, slot_none in Hne by done; done].
    rewrite (Es _ _ _ Hp), (Es _ _ _ Hq) in *. destruct (Hi _ _ _ _ E Hne) as [Ej ->]. split; [by eapply Hone|done].
Qed.

Section moves.
Context (s : sfs) (tbl : list Z) (F : gmap Z sfs_inode).
Hypothesis Hv : vn_ok s tbl F.

(** Another link count, reference count or mark. *)
Lemma vn_put p sv n d r o : vnodes s !! p = Some sv → 0 ≤ n < 65536 → 1 ≤ r < 2147483648 →
  d = true ∨ n = sfi_linkcount (sv_i sv) ∧ d = sv_dirty sv →
  vn_ok (set_vnodes (<[p := SfsVnode (set_linkcount n (sv_i sv)) (sv_ino sv) d r o]> (vnodes s)) s) tbl
    (<[sv_ino sv := set_linkcount n (sv_i sv)]> F).
Proof using Hv.
  intros Hp Hn Hr Hd. set (i' := set_linkcount n (sv_i sv)). set (F' := <[sv_ino sv := i']> F).
  pose proof (vo_vn _ _ _ Hv _ _ Hp) as [HF _]. destruct (vo_tbl _ _ _ Hv) as (T1 & T2 & T3).
  assert (∀ j k, fsl (s_disk s) F' j k = fsl (s_disk s) F j k) as Es.
  { intros j k. unfold fsl, F'. destruct (decide (j = sv_ino sv)) as [->|]; [by rewrite lookup_insert_eq, HF|by rewrite lookup_insert_ne]. }
  assert (∀ j, F' !! j = None ↔ F !! j = None) as HN.
  { intros j. unfold F'. rewrite lookup_insert_None. naive_solver congruence. }
  apply vn_intro; simpl; try setoid_rewrite Es.
  - exact (geom_of _ (vo_fs _ _ _ Hv)).
  - split_and!; [done..|]. intros q. rewrite T3. destruct (decide (q = p)) as [->|]; [by rewrite lookup_insert_eq, Hp|by rewrite lookup_insert_ne].
  - intros q v. rewrite lookup_insert_Some. intros [[<- <-]|[Hq Hqv]]; [simpl; split; [by apply lookup_insert_eq|done]|].
    unfold F'. rewrite lookup_insert_ne; [exact (vo_vn _ _ _ Hv _ _ Hqv)|]. intros E. apply Hq. by eapply (vo_one _ _ _ Hv).
  - intros q q' v v'. rewrite !lookup_insert_Some. pose proof (vo_one _ _ _ Hv) as H1.
    intros [[<- <-]|[_ Hq]] [[<- <-]|[_ Hq']]; simpl; [done|by eapply H1..].
  - intros j i. unfold F'. rewrite lookup_insert_Some. intros [[<- <-]|[Hj Hi]].
    + destruct Hd as [->|[-> ->]]; [right; eexists p, _; rewrite lookup_insert_eq; done|].
      destruct (vo_disk _ _ _ Hv _ _ HF) as [E|(q & v & Hq & E & Hdd)].
      * left. rewrite E. unfold i'. by destruct (sv_i sv).
      * right. assert (q = p) as -> by by eapply (vo_one _ _ _ Hv). simplify_eq. eexists p, _. rewrite lookup_insert_eq. done.
    + destruct (vo_disk _ _ _ Hv _ _ Hi) as [E|(q & v & Hq & E & Hdd)]; [by left|]. right. exists q, v.
      rewrite lookup_insert_ne; [done|]. intros ->. simplify_eq.
  - intros j i. unfold F'. rewrite lookup_insert_Some. intros [[<- <-]|[Hj Hi]]; [|by apply (vo_file _ _ _ Hv)].
    destruct (vo_file _ _ _ Hv _ _ HF) as (F1 & F2 & [] & F4). split_and!; [apply F1..|done| |done]. by constructor.
  - intros j k. rewrite HN. apply (vo_slot _ _ _ Hv).
  - apply (vo_inj _ _ _ Hv).
Qed.

(** A block no file owns is taken, or written. *)
Lemma vn_block b fm fd l : 0 < b < sp_nblocks s → F !! b = None → (∀ j k, fsl (s_disk s) F j k ≠ b) →
  length l = 512%nat → bm_ok fm → nbits fm = nbits (sfs_freemap s) →
  (∀ j, 0 ≤ j < nbits fm → bit fm j = if decide (j = b) then true else used s j) →
  let s' := set_freemap fm fd (set_disk (kput (s_disk s) (b * 512) l) [] s) in
  vn_ok s' tbl F ∧ (∀ j k, fsl (s_disk s') F j k = fsl (s_disk s) F j k) ∧ untouched (λ _, False) s F s' F.
Proof using Hv.
  intros Hb HFb Hsb Hl Hfm Hn Hbits s'. pose proof (vo_fs _ _ _ Hv) as Hok. pose proof (ok_map _ Hok) as [_ Hnb].
  assert (∀ c, c ≠ b → dblk (s_disk s') c = dblk (s_disk s) c) as Hd by (intros c Hc; by apply dblk_put_ne).
  assert (∀ c, 0 ≤ c < nbits (sfs_freemap s) → used s c = true → used s' c = true) as Hu.
  { intros c Hc Hcu. unfold used, s'. simpl. rewrite Hbits by lia. by case_decide. }
  assert (∀ j k, fsl (s_disk s') F j k = fsl (s_disk s) F j k) as Es.
  { intros j k. unfold fsl at 1. destruct (F !! j) as [i|] eqn:Hj; [|unfold fsl; by rewrite Hj]. simpl.
    apply (fsl_kept s F s' j i Hj). intros k' _. apply Hd, Hsb. }
  split_and!; [|done|].
  2:{ intros j _. split; [done|]. intros i Hi. apply (fsl_kept s F s' j i Hi). intros k' _. apply Hd, Hsb. }
  destruct (geom_of _ Hok) as (G1 & G2 & G3 & G4 & G5 & G6 & G7).
  apply vn_intro; try setoid_rewrite Es.
  - unfold geom_ok. simpl. rewrite Hn. split_and!; try done; try lia.
    + intros c Hc. apply Hu; [lia|]. by apply G6.
    + apply Hu; [lia|done].
  - apply (vo_tbl _ _ _ Hv).
  - apply (vo_vn _ _ _ Hv).
  - apply (vo_one _ _ _ Hv).
  - intros j i Hi. rewrite Hd by congruence. by apply (vo_disk _ _ _ Hv).
  - intros j i Hi. destruct (vo_file _ _ _ Hv _ _ Hi) as (F1 & F2 & F3). split_and!; [apply F1..| |apply F3|apply F3]. apply Hu; [lia|done].
  - intros j k Hne. destruct (vo_slot _ _ _ Hv j k Hne) as (S1 & S2 & S3). split_and!; [apply S1..| |done]. apply Hu; [lia|done].
  - apply (vo_inj _ _ _ Hv).
Qed.

(** The inode of a loaded file goes to disk. *)
Lemma vn_write_inode p sv : vnodes s !! p = Some sv →
  let s' := set_vnodes (<[p := set_dirty false sv]> (vnodes s)) (set_disk (kput (s_disk s) (sv_ino sv * 512) (inode_bytes (sv_i sv))) [] s) in
  vn_ok s' tbl F ∧ untouched (λ _, False) s F s' F ∧ bytes_inode (dblk (s_disk s') (sv_ino sv)) = sv_i sv.
Proof using Hv.
  intros Hp s'. pose proof (vo_vn _ _ _ Hv _ _ Hp) as [HF Hr]. destruct (vn_ino _ _ _ Hv _ _ Hp) as (Hi & Hu & Hw).
  destruct (vo_tbl _ _ _ Hv) as (T1 & T2 & T3). pose proof (inode_bytes_length _ Hw) as Hl.
  assert (∀ c, c ≠ sv_ino sv → dblk (s_disk s') c = dblk (s_disk s) c) as Hd by (intros c Hc; by apply dblk_put_ne).
  assert (dblk (s_disk s') (sv_ino sv) = inode_bytes (sv_i sv)) as Hd' by by apply dblk_put_same.
  assert (∀ j k, fsl (s_disk s) F j k ≠ 0 → fsl (s_disk s) F j k ≠ sv_ino sv) as Hsl.
  { intros j k Hne E. destruct (vo_slot _ _ _ Hv j k Hne) as (_ & _ & HN). congruence. }
  assert (∀ j k, fsl (s_disk s') F j k = fsl (s_disk s) F j k) as Es.
  { intros j k. unfold fsl at 1. destruct (F !! j) as [i|] eqn:Hj; [|unfold fsl; by rewrite Hj]. simpl.
    apply (fsl_kept s F s' j i Hj). intros k' Hk'. by apply Hd, Hsl. }
  split_and!; [| |by rewrite Hd', inode_decode].
  2:{ intros j _. split; [done|]. intros i Hij. apply (fsl_kept s F s' j i Hij). intros k' Hk'. by apply Hd, Hsl. }
  apply vn_intro; try setoid_rewrite Es.
  - pose proof (geom_of _ (vo_fs _ _ _ Hv)) as (_ & G). split; [done|exact G].
  - split_and!; [done..|]. intros q. rewrite T3. simpl. destruct (decide (q = p)) as [->|]; [by rewrite lookup_insert_eq, Hp|by rewrite lookup_insert_ne].
  - intros q v. simpl. rewrite lookup_insert_Some. intros [[<- <-]|[Hq Hqv]]; [done|exact (vo_vn _ _ _ Hv _ _ Hqv)].
  - intros q q' v v'. simpl. rewrite !lookup_insert_Some. pose proof (vo_one _ _ _ Hv) as H1.
    intros [[<- <-]|[_ Hq]] [[<- <-]|[_ Hq']]; simpl; [done|by eapply H1..].
  - intros j i Hij. destruct (decide (j = sv_ino sv)) as [->|Hj]; [left; rewrite Hd', inode_decode by done; congruence|].
    rewrite Hd by done. destruct (vo_disk _ _ _ Hv _ _ Hij) as [E|(q & v & Hq & E & Hdd)]; [by left|]. right. exists q, v.
    simpl. rewrite lookup_insert_ne; [done|]. intros ->. simplify_eq.
  - apply (vo_file _ _ _ Hv).
  - apply (vo_slot _ _ _ Hv).
  - apply (vo_inj _ _ _ Hv).
Qed.

Lemma wp_sync_inode p sv : vnodes s !! p = Some sv →
  wp (sfs_sync_inode p) (λ r s', r = None ∧ vn_ok s' tbl F ∧ untouched (λ _, False) s F s' F ∧
    vnodes s' = <[p := set_dirty false sv]> (vnodes s) ∧ bytes_inode (dblk (s_disk s') (sv_ino sv)) = sv_i sv ∧
    sfs_freemap s' = sfs_freemap s ∧ sp_nblocks s' = sp_nblocks s ∧ s_heap s' = s_heap s ∧ sfs_vnodes s' = sfs_vnodes s ∧
    sfs_freemapdirty s' = sfs_freemapdirty s ∧ (∀ b, b ≠ sv_ino sv → dblk (s_disk s') b = dblk (s_disk s) b)) s.
Proof using Hv.
  intros Hp. destruct (vn_ino _ _ _ Hv _ _ Hp) as (Hi & Hu & Hw). pose proof (vo_fs _ _ _ Hv) as Hok. pose proof (ok_geom _ Hok).
  pose proof (vo_vn _ _ _ Hv _ _ Hp) as [HF _]. unfold sfs_sync_inode. apply wp_bind_2. eapply wp_get_sv; [done|].
  destruct (sv_dirty sv) eqn:Ed.
  - apply wp_bind_2. eapply wp_mono; [apply wp_wblock; [by apply ok_hw|lia|lia|by apply inode_bytes_length]|].
    intros r s1 [-> ->]. unfold put_sv. wp_steps. destruct (vn_write_inode p sv Hp) as (V1 & V2 & V3). split_and!; try done.
    intros b Hb. apply dblk_put_ne; [by apply inode_bytes_length|done].
  - wp_steps. split_and!; try done.
    + rewrite insert_id; [done|]. rewrite Hp. f_equal. destruct sv. simpl in Ed. by subst.
    + destruct (vo_disk _ _ _ Hv _ _ HF) as [?|(q & v & Hq & E & Hdd)]; [done|].
      assert (q = p) as -> by by eapply (vo_one _ _ _ Hv). congruence.
Qed.

(** A vnode for file [j] enters the table: the one of the map, or a new file. *)
Lemma vn_add p j i d arr h : vnodes s !! p = None → arr_rep arr (tbl ++ [p]) → 0 < j < sp_nblocks s → used s j = true →
  inode_wf i → sfi_type i = SFS_TYPE_FILE ∨ sfi_type i = SFS_TYPE_DIR → (∀ q v, vnodes s !! q = Some v → sv_ino v ≠ j) →
  F !! j = Some i ∨ F !! j = None ∧ d = true ∧ (∀ k, slot_of (s_disk s) i k = 0) ∧ (∀ j' k, fsl (s_disk s) F j' k ≠ j) →
  vn_ok (set_heap h (set_table arr (set_vnodes (<[p := SfsVnode i j d 1 0]> (vnodes s)) s))) (tbl ++ [p]) (<[j := i]> F).
Proof using Hv.
  intros Hp Ha Hj Hu Hw Ht Hnl HF. destruct (vo_tbl _ _ _ Hv) as (T1 & T2 & T3).
  assert (∀ j' k, fsl (s_disk s) (<[j := i]> F) j' k = fsl (s_disk s) F j' k) as Es.
  { intros j' k. unfold fsl. destruct (decide (j' = j)) as [->|]; [|by rewrite lookup_insert_ne]. rewrite lookup_insert_eq.
    destruct HF as [->|(-> & _ & Hz & _)]; [done|]. simpl. apply Hz. }
  apply vn_intro; simpl; try setoid_rewrite Es.
  - exact (geom_of _ (vo_fs _ _ _ Hv)).
  - split_and!; [done| |].
    + apply NoDup_app. split_and!; [done| |by apply NoDup_singleton]. intros q Hq%T3 ->%list_elem_of_singleton. rewrite Hp in Hq. by destruct Hq.
    + intros q. rewrite elem_of_app, list_elem_of_singleton, T3. destruct (decide (q = p)) as [->|]; [rewrite lookup_insert_eq; naive_solver|].
      rewrite lookup_insert_ne by done. naive_solver.
  - intros q v. rewrite lookup_insert_Some. intros [[<- <-]|[Hq Hqv]]; [simpl; split; [by apply lookup_insert_eq|lia]|].
    rewrite lookup_insert_ne; [exact (vo_vn _ _ _ Hv _ _ Hqv)|]. intros E. by eapply Hnl.
  - intros q q' v v'. rewrite !lookup_insert_Some. intros [[<- <-]|[_ Hq]] [[<- <-]|[_ Hq']] E; simpl in E; [done| | |by eapply (vo_one _ _ _ Hv)].
    + by destruct (Hnl _ _ Hq').
    + by destruct (Hnl _ _ Hq).
  - intros j' i'. rewrite lookup_insert_Some. intros Hor. assert (F !! j' = Some i' ∨ j = j' ∧ d = true) as Hc by naive_solver.
    destruct Hc as [Hi|[<- ->]]; [|right; eexists p, _; rewrite lookup_insert_eq; done].
    destruct (vo_disk _ _ _ Hv _ _ Hi) as [E|(q & v & Hq & E & Hdd)]; [by left|]. right. exists q, v.
    rewrite lookup_insert_ne; [done|]. naive_solver congruence.
  - intros j' i'. rewrite lookup_insert_Some. intros [[<- <-]|[Hne Hi]]; [done|by apply (vo_file _ _ _ Hv)].
  - intros j' k Hne. destruct (vo_slot _ _ _ Hv _ _ Hne) as (S1 & S2 & S3). split_and!; [apply S1..|done|]. apply lookup_insert_None.
    split; [done|]. intros E. destruct HF as [HF|(_ & _ & _ & HF)]; [congruence|by apply (HF j' k)].
  - apply (vo_inj _ _ _ Hv).
Qed.

(** A clean vnode leaves the table. *)
Lemma vn_unload p sv arr tbl' : vnodes s !! p = Some sv → bytes_inode (dblk (s_disk s) (sv_ino sv)) = sv_i sv →
  arr_rep arr tbl' → NoDup tbl' → (∀ q, q ∈ tbl' ↔ q ∈ tbl ∧ q ≠ p) →
  vn_ok (set_vnodes (delete p (vnodes s)) (set_table arr s)) tbl' F.
Proof using Hv.
  intros Hp Hb Ha Hnd Hel. destruct (vo_tbl _ _ _ Hv) as (T1 & T2 & T3). pose proof (vo_vn _ _ _ Hv _ _ Hp) as [HF _].
  apply vn_intro; simpl.
  - exact (geom_of _ (vo_fs _ _ _ Hv)).
  - split_and!; [done..|]. intros q. rewrite Hel, T3. destruct (decide (q = p)) as [->|]; [rewrite lookup_delete_eq; split; [by intros [_ ?]|by intros []]|].
    rewrite lookup_delete_ne by done. naive_solver.
  - intros q v [_ Hq]%lookup_delete_Some. exact (vo_vn _ _ _ Hv _ _ Hq).
  - intros q q' v v' [_ Hq]%lookup_delete_Some [_ Hq']%lookup_delete_Some. by eapply (vo_one _ _ _ Hv).
  - intros j i Hi. destruct (vo_disk _ _ _ Hv _ _ Hi) as [E|(q & v & Hq & E & Hdd)]; [by left|].
    destruct (decide (q = p)) as [->|Hne]; [left; simplify_eq; congruence|]. right. exists q, v. by rewrite lookup_delete_ne.
  - apply (vo_file _ _ _ Hv).
  - apply (vo_slot _ _ _ Hv).
  - apply (vo_inj _ _ _ Hv).
Qed.

(** The block of a file without blocks and without a vnode is given back. *)
Lemma vn_free j i s' : F !! j = Some i → (∀ k, slot_of (s_disk s) i k = 0) → (∀ q v, vnodes s !! q = Some v → sv_ino v ≠ j) →
  freed (λ c, c = j) s s' → vn_ok s' tbl (delete j F) ∧ untouched (λ c, c = j) s F s' (delete j F).
Proof using Hv.
  intros Hj Hz Hnl (fm & fd & -> & Hfm & Hn & Hbits). pose proof (vo_fs _ _ _ Hv) as Hok. pose proof (ok_map _ Hok) as [_ Hnb].
  destruct (vo_file _ _ _ Hv _ _ Hj) as (Hr & _ & _).
  assert (∀ c, 0 ≤ c < nbits (sfs_freemap s) → c ≠ j → used s c = true → bit fm c = true) as Hu.
  { intros c Hc Hne Hcu. apply Hbits; [lia|done]. }
  assert (∀ j' k, fsl (s_disk s) (delete j F) j' k = fsl (s_disk s) F j' k) as Es.
  { intros j' k. unfold fsl. destruct (decide (j' = j)) as [->|]; [|by rewrite lookup_delete_ne]. rewrite lookup_delete_eq, Hj. simpl. by rewrite Hz. }
  split; [|intros j' Hj'; rewrite lookup_delete_ne; done].
  destruct (geom_of _ Hok) as (G1 & G2 & G3 & G4 & G5 & G6 & G7). apply vn_intro; simpl; try setoid_rewrite Es.
  - unfold geom_ok, used. simpl. rewrite Hn. split_and!; try done; try lia.
    + intros c Hc. apply Hu; [lia|lia|]. by apply G6.
    + apply Hu; [lia|lia|done].
  - apply (vo_tbl _ _ _ Hv).
  - intros q v Hq. rewrite lookup_delete_ne; [exact (vo_vn _ _ _ Hv _ _ Hq)|]. intros E. by eapply Hnl.
  - apply (vo_one _ _ _ Hv).
  - intros j' i' [Hne Hi]%lookup_delete_Some. by apply (vo_disk _ _ _ Hv).
  - intros j' i' [Hne Hi]%lookup_delete_Some. destruct (vo_file _ _ _ Hv _ _ Hi) as (F1 & F2 & F3).
    split_and!; [apply F1..| |apply F3|apply F3]. apply Hu; [lia|done|done].
  - intros j' k Hne. destruct (vo_slot _ _ _ Hv _ _ Hne) as (S1 & S2 & S3). split_and!; [apply S1..| |by apply lookup_delete_None; right].
    apply Hu; [lia|congruence|done].
  - apply (vo_inj _ _ _ Hv).
Qed.
End moves.
