(* ===== verification/SfsVnOps.v ===== *)
(** Vnodes coming and going: [sfs_loadvnode], [sfs_makeobj], [sfs_reclaim] and the
    reference counts. There is at most one vnode for a file, it is loaded from disk
    the first time it is asked for and goes away, with the file when that has no
    name left, when the last reference is given back. *)

From stdpp Require Import base tactics numbers list gmap.
From S2P Require Import Prelude KernDefs CopyInOut Bitmap Uio Array Sfs SfsInv SfsMap SfsIo SfsTrunc SfsDir SfsDirSpec SfsVn.
Local Open Scope Z_scope.

(** The next block the heap gives is not that of a vnode. *)
Definition heap_fresh (s : sfs) : Prop := ∀ a h, s_heap s = Some a :: h → vnodes s !! a = None.

(** No vnode has inode number [j]. *)
Definition not_loaded (s : sfs) (j : Z) : Prop := ∀ q v, vnodes s !! q = Some v → sv_ino v ≠ j.

(** The same memory, disk and free map. *)
Definition same_store (s s' : sfs) : Prop :=
  s_mem s' = s_mem s ∧ s_disk s' = s_disk s ∧ sfs_freemap s' = sfs_freemap s ∧ sp_nblocks s' = sp_nblocks s ∧ d_blocks s' = d_blocks s.

Lemma same_store_untouched J s s' F : same_store s s' → untouched J s F s' F.
Proof. intros (_ & E & _) j _. split; [done|]. intros i _. split; by rewrite E. Qed.

Lemma wp_bused s b : fs_ok s → 0 ≤ b < sp_nblocks s → used s b = true → wp (bused_or_panic b) (λ _ s', s' = s) s.
Proof.
  intros Hok Hr Hu. unfold bused_or_panic, sfs_bused. wp_steps. rewrite (proj2 (Z.leb_gt _ _)) by lia. wp_steps. apply wp_zoom.
  pose proof (ok_map _ Hok) as [Hm Hn].
  destruct (holds_bit (sfs_freemap s) (nbits (sfs_freemap s)) (used s) b) as (_ & _ & w & E & Hw); [done|lia|].
  unfold wp at 1. simpl sub_get. rewrite E. wp_steps. rewrite (proj2 (Z.eqb_neq w 0)) by by apply Hw. simpl. wp_steps. by destruct s.
Qed.

(** ** The table *)
Section array.
Context (s : sfs) (tbl : list Z).
Hypothesis Ha : arr_rep (sfs_vnodes s) tbl.

Lemma wp_table_get (k : nat) p (Q : Z → sfs → Prop) : tbl !! k = Some p → Q p s → wp (zoom (array_get (Z.of_nat k))) Q s.
Proof using Ha.
  intros Hk HQ. apply wp_zoom. unfold wp. simpl sub_get. rewrite (array_get_spec _ _ _ Ha), zget_nat, Hk by lia. by destruct s.
Qed.
Lemma wp_table_num (Q : Z → sfs → Prop) : Q (Z.of_nat (length tbl)) s → wp (zoom array_num) Q s.
Proof using Ha. intros HQ. apply wp_zoom. unfold array_num. apply wp_gets. simpl. rewrite (ar_num _ _ Ha). by destruct s. Qed.

(** The search for a vnode. *)
Lemma wp_table_search p n : ∀ k : nat, (k + n = length tbl)%nat → (∀ k' : nat, (k' < k)%nat → tbl !! k' ≠ Some p) → p ∈ tbl →
  wp (table_search n (Z.of_nat k) p) (λ r s', ∃ m : nat, r = Some (Z.of_nat m) ∧ tbl !! m = Some p ∧ s' = s) s.
Proof using Ha.
  induction n as [|n IH]; intros k Hk Hbefore Hin; cbn [table_search].
  { exfalso. apply list_elem_of_lookup in Hin as [k' Hk']. apply (Hbefore k'); [|done]. apply lookup_lt_Some in Hk'. lia. }
  destruct (lookup_lt_is_Some_2 tbl k) as [q Hq]; [lia|]. apply wp_bind_2. eapply wp_table_get; [done|].
  destruct (Z.eqb_spec q p) as [->|Hne]; [wp_steps; by exists k|].
  replace (Z.of_nat k + 1) with (Z.of_nat (S k)) by lia. apply IH; [lia| |done]. intros k' Hk'.
  destruct (decide (k' = k)) as [->|]; [congruence|]. apply Hbefore. lia.
Qed.

(** A vnode with one reference and not open leaves the table and the memory. *)
Lemma wp_reclaim_drop p sv : p ∈ tbl → NoDup tbl → vnodes s !! p = Some sv → vn_refcount sv = 1 → vn_opencount sv = 0 →
  wp (reclaim_drop p) (λ _ s', ∃ arr tbl', s' = set_vnodes (delete p (vnodes s)) (set_table arr s) ∧ arr_rep arr tbl' ∧
    NoDup tbl' ∧ ∀ q, q ∈ tbl' ↔ q ∈ tbl ∧ q ≠ p) s.
Proof using Ha.
  intros Hin Hnd Hp Hr Ho. unfold reclaim_drop. apply wp_bind_2. eapply wp_table_num. rewrite Nat2Z.id. apply wp_bind_2.
  eapply wp_mono; [apply (wp_table_search p (length tbl) 0); [lia|intros k' Hk'; lia|done]|]. intros r s' (m & -> & Hm & ->).
  pose proof (lookup_lt_Some _ _ _ Hm) as Hlt.
  pose proof (array_remove_spec (sfs_vnodes s) tbl (s_heap s) Ha (Z.of_nat m) ltac:(lia)) as H. rewrite decide_True, Nat2Z.id in H by lia.
  destruct H as (arr & E & Ha'). apply wp_bind_2, wp_zoom. unfold wp at 1. simpl sub_get. rewrite E. simpl.
  unfold vnode_cleanup, kfree_sv. apply wp_bind_2, wp_bind_2. eapply wp_get_sv; [done|]. rewrite Hr, Ho. simpl. wp_steps.
  exists arr, (delete m tbl). split_and!; [by destruct s|done| |].
  - eapply sublist_NoDup; [exact Hnd|]. apply sublist_delete.
  - intros q. rewrite delete_take_drop, elem_of_app. rewrite <-(take_drop_middle tbl m p Hm) in Hnd |- * at 3.
    rewrite elem_of_app, elem_of_cons. apply NoDup_app in Hnd as (_ & N1 & N2). apply NoDup_cons in N2 as [N2 _].
    split; [|naive_solver]. intros [Hq|Hq]; (split; [naive_solver|]); intros ->; [|done]. apply (N1 p Hq). left.
Qed.
End array.

Section table.
Context (s : sfs) (tbl : list Z) (F : gmap Z sfs_inode).
Hypothesis Hv : vn_ok s tbl F.

Lemma tbl_bound : Z.of_nat (length tbl) < 536870912.
Proof using Hv.
  destruct (vo_tbl _ _ _ Hv) as (_ & Hnd & Hel). pose proof (ok_geom _ (vo_fs _ _ _ Hv)) as [Hg1 Hg2].
  set (f p := default 0 (sv_ino <$> vnodes s !! p)).
  assert (f <$> tbl ⊆+ seqZ 0 (sp_nblocks s)) as Hsub.
  { apply NoDup_submseteq.
    - apply NoDup_fmap_2_strong; [|done]. intros p q [v Hp]%Hel [v' Hq]%Hel. unfold f. rewrite Hp, Hq. simpl. by apply (vo_one _ _ _ Hv).
    - intros j (p & -> & [v Hp]%Hel)%list_elem_of_fmap. unfold f. rewrite Hp. simpl. destruct (vn_ino _ _ _ Hv _ _ Hp). apply elem_of_seqZ. lia. }
  apply submseteq_length in Hsub. rewrite length_fmap, length_seqZ in Hsub. lia.
Qed.

Lemma tbl_lookup (k : nat) p : tbl !! k = Some p → ∃ sv, vnodes s !! p = Some sv.
Proof using Hv. intros Hk. destruct (vo_tbl _ _ _ Hv) as (_ & _ & Hel). apply Hel. by eapply list_elem_of_lookup_2. Qed.

(** The search of the table for an inode number. *)
Lemma wp_load_search j ft n : ∀ k : nat, (k + n = length tbl)%nat →
  (∀ (k' : nat) p sv, (k' < k)%nat → tbl !! k' = Some p → vnodes s !! p = Some sv → sv_ino sv ≠ j) →
  ft = SFS_TYPE_INVAL ∨ not_loaded s j →
  wp (load_search n (Z.of_nat k) j ft) (λ r s', match r with
    | Some p => ∃ sv, vnodes s !! p = Some sv ∧ sv_ino sv = j ∧
        s' = set_vnodes (<[p := set_refcount (s32 (vn_refcount sv + 1)) sv]> (vnodes s)) s
    | None => not_loaded s j ∧ s' = s
    end) s.
Proof using Hv.
  induction n as [|n IH]; intros k Hk Hbefore Hft; cbn [load_search].
  { wp_steps. split; [|done]. intros q v Hq. destruct (vo_tbl _ _ _ Hv) as (_ & _ & Hel).
    assert (q ∈ tbl) as [k' Hk']%list_elem_of_lookup by by apply Hel. apply (Hbefore k' q v); [|done|done]. apply lookup_lt_Some in Hk'. lia. }
  destruct (lookup_lt_is_Some_2 tbl k) as [p Hp]; [lia|]. destruct (tbl_lookup _ _ Hp) as [sv Hsv].
  apply wp_bind_2. eapply wp_table_get; [apply Hv|done|]. apply wp_bind_2. eapply wp_get_sv; [done|].
  destruct (vn_ino _ _ _ Hv _ _ Hsv) as (Hi & Hu & _). apply wp_bind_2.
  eapply wp_mono; [apply wp_bused; [apply Hv|lia|done]|]. intros [] s' ->.
  destruct (Z.eqb_spec (sv_ino sv) j) as [E|Hne].
  - destruct Hft as [->|Hnl]; [|by destruct (Hnl _ _ Hsv)]. apply wp_bind_2, wp_kassert; [done|].
    apply wp_bind_2. unfold vnode_incref. apply wp_bind_2. eapply wp_get_sv; [done|].
    unfold put_sv. wp_steps. by exists sv.
  - replace (Z.of_nat k + 1) with (Z.of_nat (S k)) by lia. apply IH; [lia| |done]. intros k' q v Hk' Hq Hqv.
    destruct (decide (k' = k)) as [->|]; [by simplify_eq|]. apply (Hbefore k' q); [lia|done|done].
Qed.

End table.

(** ** Reference counts *)
Definition rc (s : sfs) (a : Z) : Z := match vnodes s !! a with Some v => vn_refcount v | None => 0 end.
Definition oc (s : sfs) (a : Z) : Z := match vnodes s !! a with Some v => vn_opencount v | None => 0 end.
(** Heap answers are used up from the front, and a new vnode is one of them. *)
Definition hstep (s s' : sfs) : Prop :=
  ∃ l, s_heap s = l ++ s_heap s' ∧ ∀ a, is_Some (vnodes s' !! a) → is_Some (vnodes s !! a) ∨ Some a ∈ l.
(** The references change by [d], and nothing else about a vnode that stays. *)
Record vstep (d : Z → Z) (s s' : sfs) : Prop := {
  vs_rc : ∀ a, rc s' a = rc s a + d a;
  vs_oc : ∀ a, oc s' a = oc s a;
  vs_id : ∀ a v v', vnodes s !! a = Some v → vnodes s' !! a = Some v' → sv_ino v' = sv_ino v ∧ sfi_type (sv_i v') = sfi_type (sv_i v);
  vs_heap : hstep s s';
}.
Definition ref0 (a : Z) : Z := 0.
Definition ref1 (q a : Z) : Z := if decide (a = q) then 1 else 0.

Lemma hstep_same s s' : s_heap s' = s_heap s → (∀ a, is_Some (vnodes s' !! a) → is_Some (vnodes s !! a)) → hstep s s'.
Proof. intros E H. exists []. split; [by rewrite E|]. intros a Ha. left. by apply H. Qed.
Lemma hstep_trans s s1 s2 : hstep s s1 → hstep s1 s2 → hstep s s2.
Proof.
  intros (l1 & E1 & H1) (l2 & E2 & H2). exists (l1 ++ l2). split; [by rewrite E1, E2, app_assoc|]. intros a Ha.
  destruct (H2 a Ha) as [Ha1|Ha1]; [|right; apply elem_of_app; by right]. destruct (H1 a Ha1); [by left|right; apply elem_of_app; by left].
Qed.
Lemma hstep_pop s s' p h : s_heap s = Some p :: h → s_heap s' = h ∨ s_heap s' = tail h →
  (∀ a, is_Some (vnodes s' !! a) → is_Some (vnodes s !! a) ∨ a = p) → hstep s s'.
Proof.
  intros E [E'|E'] H; [exists [Some p]|exists (Some p :: take 1 h)]; rewrite E, E'.
  - split; [done|]. intros a [?| ->]%H; [by left|right; constructor].
  - split; [by destruct h|]. intros a [?| ->]%H; [by left|right; constructor].
Qed.
(** Counts, inode numbers and types are the same. *)
Lemma vstep_same s s' : s_heap s' = s_heap s →
  (∀ a, (λ v, (vn_refcount v, vn_opencount v, sv_ino v, sfi_type (sv_i v))) <$> vnodes s' !! a =
        (λ v, (vn_refcount v, vn_opencount v, sv_ino v, sfi_type (sv_i v))) <$> vnodes s !! a) → vstep ref0 s s'.
Proof.
  intros Eh H. constructor.
  - intros a. specialize (H a). unfold rc, ref0. destruct (vnodes s !! a), (vnodes s' !! a); simplify_eq/=; lia.
  - intros a. specialize (H a). unfold oc. destruct (vnodes s !! a), (vnodes s' !! a); simplify_eq/=; done.
  - intros a v v' Hv Hv'. specialize (H a). rewrite Hv, Hv' in H. by simplify_eq/=.
  - apply hstep_same; [done|]. intros a Ha. specialize (H a). destruct (vnodes s !! a); [done|]. destruct Ha as [v Ha]. by rewrite Ha in H.
Qed.
Lemma vstep_refl s : vstep ref0 s s.
Proof. by apply vstep_same. Qed.
Lemma vstep_vnodes s s' : vnodes s' = vnodes s → hstep s s' → vstep ref0 s s'.
Proof.
  intros E H. constructor; [intros a; unfold rc, ref0; rewrite E; lia|intros a; unfold oc; by rewrite E| |done].
  intros a v v' Hv Hv'. rewrite E in Hv'. by simplify_eq.
Qed.
Lemma vstep_trans d1 d2 d s s1 s2 : vstep d1 s s1 → vstep d2 s1 s2 → (∀ a, is_Some (vnodes s !! a) → is_Some (vnodes s1 !! a)) →
  (∀ a, d a = d1 a + d2 a) → vstep d s s2.
Proof.
  intros [R1 O1 I1 H1] [R2 O2 I2 H2] Hl Hd. constructor.
  - intros a. rewrite R2, R1, Hd. lia.
  - intros a. by rewrite O2, O1.
  - intros a v v' Hv Hv'. destruct (Hl a) as [v1 Hv1]; [eauto|]. destruct (I1 _ _ _ Hv Hv1), (I2 _ _ _ Hv1 Hv'). split; congruence.
  - by eapply hstep_trans.
Qed.
Lemma vstep_loaded d s s' tbl F a : vn_ok s tbl F → vstep d s s' → 0 ≤ d a → is_Some (vnodes s !! a) → is_Some (vnodes s' !! a).
Proof.
  intros Hv Hs Hd [v Ha]. pose proof (vs_rc _ _ _ Hs a) as E. unfold rc in E. rewrite Ha in E. destruct (vo_vn _ _ _ Hv _ _ Ha).
  destruct (vnodes s' !! a); [eauto|lia].
Qed.
Lemma dir_step_vstep p s s' : dir_step p s s' → vstep ref0 s s'.
Proof.
  intros [_ _ (_ & _ & _ & Eh) H _ _ (sv & sv' & Hp & Hp' & [K1 K2 K3 K4 _ _ _])]. apply vstep_same; [done|]. intros a.
  destruct (decide (a = p)) as [->|Ha]; [|by destruct (H a Ha) as [-> _]]. rewrite Hp, Hp'. simpl. congruence.
Qed.

(** * Loading *)
(** Vnode [p] of file [j] has one reference more; it was made when the file had no
    vnode. *)
Definition got (j : Z) (i : sfs_inode) (s : sfs) (p : Z) (s' : sfs) : Prop :=
  ∃ sv', vnodes s' = <[p := sv']> (vnodes s) ∧ sv_ino sv' = j ∧ sv_i sv' = i ∧
    match vnodes s !! p with
    | Some sv => sv' = set_refcount (vn_refcount sv + 1) sv
    | None => vn_refcount sv' = 1 ∧ vn_opencount sv' = 0 ∧ not_loaded s j
    end.

Lemma got_vstep j i s p s' : got j i s p s' → hstep s s' → vstep (ref1 p) s s'.
Proof.
  intros (sv' & E & E1 & E2 & H) Hh. constructor; [..|done]; unfold rc, oc, ref1; rewrite E.
  - intros a. case_decide as Ha; [subst a|by rewrite lookup_insert_ne, Z.add_0_r]. rewrite lookup_insert_eq. destruct (vnodes s !! p); [by subst sv'|].
    destruct H as [-> _]. lia.
  - intros a. destruct (decide (a = p)) as [->|Ha]; [|by rewrite lookup_insert_ne]. rewrite lookup_insert_eq. destruct (vnodes s !! p); [by subst sv'|].
    by destruct H as (_ & -> & _).
  - intros a v v' Hv Hv'. destruct (decide (a = p)) as [->|Ha]; [|rewrite lookup_insert_ne in Hv' by done; by simplify_eq].
    rewrite lookup_insert_eq in Hv'. rewrite Hv in H. by simplify_eq.
Qed.

Lemma force_inval i s : force_type SFS_TYPE_INVAL i s = Ok ((i, false), s).
Proof. done. Qed.
Lemma force_file i s : sfi_type i = SFS_TYPE_INVAL → force_type SFS_TYPE_FILE i s = Ok ((set_type SFS_TYPE_FILE i, true), s).
Proof. intros E. unfold force_type, kassert, mbind, M_bind. rewrite E. done. Qed.

Section load.
Context (s : sfs) (tbl : list Z) (F : gmap Z sfs_inode) (j : Z) (i : sfs_inode).
Hypothesis Hv : vn_ok s tbl F.

(** The file has a vnode. *)
Lemma wp_load_old q sv : F !! j = Some i → vnodes s !! q = Some sv → sv_ino sv = j → vn_refcount sv < 2147483647 →
  wp (sfs_loadvnode j SFS_TYPE_INVAL) (λ r s', r = inr q ∧ same_store s s' ∧ hstep s s' ∧ vn_ok s' tbl F ∧ got j i s q s') s.
Proof using Hv.
  intros Hj Hq Hqj Href. unfold sfs_loadvnode. apply wp_bind_2. eapply wp_table_num; [apply Hv|]. rewrite Nat2Z.id. apply wp_bind_2.
  eapply wp_mono; [apply (wp_load_search s tbl F Hv j SFS_TYPE_INVAL (length tbl) 0); [lia|intros k' p v Hk'; lia|by left]|].
  intros [p|] s'.
  - intros (v & Hp & E & ->). assert (p = q) as -> by (eapply (vo_one _ _ _ Hv); [done|done|congruence]). simplify_eq.
    destruct (vo_vn _ _ _ Hv _ _ Hq) as [HF Hr]. rewrite s32_id by lia. wp_steps. split_and!; [done|done| | |].
    + apply hstep_same; [done|]. simpl. intros a. destruct (decide (a = q)) as [->|]; [by rewrite Hq|by rewrite lookup_insert_ne].
    + pose proof (vn_put s tbl F Hv q sv (sfi_linkcount (sv_i sv)) (sv_dirty sv) (vn_refcount sv + 1) (vn_opencount sv) Hq) as H.
      destruct (vn_ino _ _ _ Hv _ _ Hq) as (_ & _ & [_ _ W _ _ _]).
      replace (set_linkcount (sfi_linkcount (sv_i sv)) (sv_i sv)) with (sv_i sv) in H by (by destruct (sv_i sv)).
      rewrite (insert_id F) in H by done. apply H; [lia|lia|by right].
    + eexists. split; [done|]. rewrite Hq. split_and!; [done| |done]. simpl. congruence.
  - intros [Hnl ->]. by destruct (Hnl _ _ Hq).
Qed.

(** The file has none yet. *)
Context (ft : Z) (d : bool).
Hypotheses (Hj : 0 < j < sp_nblocks s) (Hu : used s j = true) (Hnl : not_loaded s j) (Hfresh : heap_fresh s).
Hypotheses (Hw : inode_wf i) (Ht : sfi_type i = SFS_TYPE_FILE ∨ sfi_type i = SFS_TYPE_DIR).
Hypothesis Hforce : ∀ s', force_type ft (bytes_inode (dblk (s_disk s) j)) s' = Ok ((i, d), s').
Hypothesis HF : F !! j = Some i ∨ F !! j = None ∧ d = true ∧ (∀ k, slot_of (s_disk s) i k = 0) ∧ (∀ j' k, fsl (s_disk s) F j' k ≠ j).

Lemma wp_load_new : wp (sfs_loadvnode j ft) (λ r s', same_store s s' ∧ hstep s s' ∧ match r with
  | inr p => vnodes s !! p = None ∧ vnodes s' = <[p := SfsVnode i j d 1 0]> (vnodes s) ∧ vn_ok s' (tbl ++ [p]) (<[j := i]> F)
  | inl e => e = ENOMEM ∧ vnodes s' = vnodes s ∧ vn_ok s' tbl F ∧ ∀ a b h, s_heap s ≠ Some a :: Some b :: h
  end) s.
Proof using All.
  assert (∀ arr h, arr_rep arr tbl → vn_ok (set_heap h (set_table arr s)) tbl F) as Hsame.
  { intros arr h Ha. destruct Hv as [V1 (_ & V2) V3 V4 V5 V6 V7 V8]. constructor; try done. destruct V1. by constructor. }
  destruct (vo_tbl _ _ _ Hv) as (Ha & Hnd & Hel). pose proof (vo_fs _ _ _ Hv) as Hok. pose proof (ok_geom _ Hok).
  unfold sfs_loadvnode. apply wp_bind_2. eapply wp_table_num; [apply Hv|]. rewrite Nat2Z.id. apply wp_bind_2.
  eapply wp_mono; [apply (wp_load_search s tbl F Hv j ft (length tbl) 0); [lia|intros k' p v Hk'; lia|by right]|].
  intros [p|] s'; [intros (sv & Hp & E & _); by destruct (Hnl _ _ Hp)|]. intros [_ ->].
  apply wp_bind_2. unfold kmalloc_sv. apply wp_bind_2, wp_get. destruct (s_heap s) as [|[p|] h] eqn:Eh.
  { wp_steps. split; [done|]. split; [by apply hstep_same|]. split_and!; try done. }
  2:{ wp_steps. split; [done|]. split; [exists [None]; split; [by rewrite Eh|auto]|]. split_and!; [done..| |].
      - replace (set_heap h s) with (set_heap h (set_table (sfs_vnodes s) s)) by by destruct s.
        by apply Hsame.
      - done. }
  apply wp_bind_2, wp_put, wp_ret. set (s1 := set_heap h s).
  assert (fs_ok s1) as Hok1 by (destruct Hok; by constructor). assert (vnodes s !! p = None) as Hp by by eapply Hfresh.
  apply wp_bind_2. eapply wp_mono; [apply (wp_bused s1); [done|simpl; lia|done]|]. intros [] s' ->.
  apply wp_bind_2. eapply wp_mono; [apply wp_rblock; [by apply ok_hw|simpl; lia|simpl; lia]|]. intros r s' [-> ->].
  apply wp_bind_2. unfold wp at 1. rewrite Hforce.
  replace ((sfi_type i =? SFS_TYPE_FILE) || (sfi_type i =? SFS_TYPE_DIR)) with true by (by destruct Ht as [-> | ->]).
  unfold put_sv. apply wp_bind_2, wp_modify. apply wp_bind_2, wp_zoom.
  eapply wp_mono; [apply (wp_array_add _ tbl h p Ha); by eapply tbl_bound|]. intros [e|ix] [arr h'].
  - intros (-> & E1 & _ & Hno & Hsuf). simpl in E1. subst arr. unfold vnode_cleanup, kfree_sv.
    apply wp_bind_2, wp_bind_2. eapply wp_get_sv; [simpl; by rewrite lookup_insert_eq|]. simpl. wp_steps. unfold set_vnodes, set_heap, set_table. simpl.
    rewrite delete_insert_id by done. split; [done|]. split; [eapply hstep_pop; [exact Eh|by right|by left]|]. split_and!; [done..|exact (Hsame _ h' Ha)|]. intros a b h0 [= <- E]. by eapply Hno.
  - intros (-> & Ha' & Hsuf). simpl in Ha'. wp_steps. simpl. split; [done|]. split; [eapply hstep_pop; [exact Eh|exact Hsuf|]; simpl; intros a; destruct (decide (a = p)) as [->|]; [by right|rewrite lookup_insert_ne by done; by left]|]. split_and!; [done..|].
    exact (vn_add s tbl F Hv p j i d arr h' Hp Ha' Hj Hu Hw Ht Hnl HF).
Qed.
End load.

Lemma wp_loadvnode s tbl F j i : vn_ok s tbl F → F !! j = Some i → heap_fresh s →
  (∀ q sv, vnodes s !! q = Some sv → sv_ino sv = j → vn_refcount sv < 2147483647) →
  wp (sfs_loadvnode j SFS_TYPE_INVAL) (λ r s', same_store s s' ∧ hstep s s' ∧ match r with
    | inr p => got j i s p s' ∧ ∃ tbl', vn_ok s' tbl' F
    | inl e => e = ENOMEM ∧ not_loaded s j ∧ vnodes s' = vnodes s ∧ vn_ok s' tbl F ∧ ∀ a b h, s_heap s ≠ Some a :: Some b :: h
    end) s.
Proof.
  intros Hv Hj Hh Href. destruct (decide (map_Exists (λ _ v, sv_ino v = j) (vnodes s))) as [(q & sv & Hq & Ej)|Hno].
  - eapply wp_mono; [by apply (wp_load_old s tbl F j i Hv q sv); eauto|]. intros r s' (-> & H1 & H2 & H3 & H4). split; [done|]. eauto.
  - assert (not_loaded s j) as Hnl by (intros q v Hq E; apply Hno; by exists q, v).
    destruct (vo_file _ _ _ Hv _ _ Hj) as (Hr & Hu & Hw & Ht).
    assert (bytes_inode (dblk (s_disk s) j) = i) as Eb.
    { destruct (vo_disk _ _ _ Hv _ _ Hj) as [|(q & v & Hq & E & _)]; [done|]. by destruct (Hnl _ _ Hq). }
    eapply wp_mono; [apply (wp_load_new s tbl F j i Hv SFS_TYPE_INVAL false); try done|].
    { intros s'. by rewrite Eb. }
    { by left. }
    intros [e|p] s'; [naive_solver|]. intros (Hss & Hhs & Hp & Hvn & Hok). split; [done|]. split; [done|]. rewrite insert_id in Hok by done. split; [|eauto].
    eexists. split; [done|]. by rewrite Hp.
Qed.

(** ** New files *)
Definition new_file : sfs_inode := Inode 0 SFS_TYPE_FILE 0 (replicate 15 0) 0 (replicate 440 0).

Lemma new_file_slot d k : slot_of d new_file k = 0.
Proof.
  unfold slot_of. simpl. destruct (k =? -1); [done|]. rewrite andb_false_r. destruct (k <? 15); [|done].
  unfold zget. destruct (0 <=? k); [|done]. destruct (replicate 15 0 !! Z.to_nat k) eqn:E; [|done]. by apply lookup_replicate in E as [-> _].
Qed.
Lemma new_file_wf n : 0 ≤ n < 65536 → inode_wf (set_linkcount n new_file).
Proof. intros Hn. constructor; try done. split; [done|]. by apply Forall_replicate. Qed.

Lemma wp_makeobj s tbl F : vn_ok s tbl F → heap_fresh s →
  wp (sfs_makeobj SFS_TYPE_FILE) (λ r s', s_mem s' = s_mem s ∧ sp_nblocks s' = sp_nblocks s ∧ hstep s s' ∧ match r with
    | inr p => ∃ j, 0 < j < sp_nblocks s ∧ used s j = false ∧ F !! j = None ∧ vnodes s !! p = None ∧
        vnodes s' = <[p := SfsVnode new_file j true 1 0]> (vnodes s) ∧ vn_ok s' (tbl ++ [p]) (<[j := new_file]> F) ∧
        untouched (λ c, c = j) s F s' (<[j := new_file]> F)
    | inl e => (e = ENOSPC ∧ full s ∨ e = ENOMEM) ∧ vnodes s' = vnodes s ∧ vn_ok s' tbl F ∧ untouched (λ _, False) s F s' F
    end) s.
Proof.
  intros Hv Hh. pose proof (vo_fs _ _ _ Hv) as Hok. pose proof (ok_geom _ Hok). unfold sfs_makeobj. apply wp_bind_2.
  eapply wp_mono; [by apply wp_balloc|]. intros [e|j] s1.
  { intros (-> & Hf & ->). wp_steps. split_and!; [done..|by apply hstep_same|by left|done|done|done]. }
  intros (Hj & Hfree & fm & -> & Hfm & Hn & Hbits). pose proof (ok_map _ Hok) as [_ Hnb].
  assert (F !! j = None) as HFj.
  { destruct (F !! j) eqn:E; [|done]. destruct (vo_file _ _ _ Hv _ _ E) as (_ & Hu & _). congruence. }
  assert (∀ j' k, fsl (s_disk s) F j' k ≠ j) as Hsl.
  { intros j' k E. destruct (vo_slot _ _ _ Hv j' k) as (_ & Hu & _); [lia|]. congruence. }
  pose proof (vn_block s tbl F Hv j fm true zeros Hj HFj Hsl eq_refl Hfm Hn Hbits) as Hb.
  set (s1 := set_freemap fm true _) in *. destruct Hb as (V1 & E1 & U1).
  eapply wp_mono; [apply (wp_load_new s1 tbl F j new_file V1 SFS_TYPE_FILE true); try done|].
  - unfold used, s1. simpl. rewrite Hbits by lia. by rewrite decide_True.
  - intros q v Hq E. destruct (vo_vn _ _ _ Hv _ _ Hq). congruence.
  - by apply (new_file_wf 0).
  - by left.
  - intros s'. change (s_disk s1) with (kput (s_disk s) (j * 512) zeros). rewrite dblk_put_same by done. by rewrite force_file.
  - right. split_and!; [done|done|apply new_file_slot|]. intros j' k. by rewrite E1.
  - intros [e|p] s' ((S1 & S2 & S3 & S4 & S5) & Hhs & Hr); (split; [done|]); (split; [done|]); (split; [exact Hhs|]).
    + destruct Hr as (-> & Hvn & Hv' & _). split_and!; [by right|done|done|]. intros c Hc. split; [done|]. intros i Hi. rewrite S2. by apply (U1 c).
    + destruct Hr as (Hp & Hvn & Hv'). exists j. split_and!; [lia|lia|done..|]. intros c Hc. rewrite lookup_insert_ne by done. split; [done|].
      intros i Hi. rewrite S2. apply (U1 c); [tauto|done].
Qed.

(** ** Link counts *)
Lemma wp_link_inc s tbl F p sv : vn_ok s tbl F → vnodes s !! p = Some sv → sfi_linkcount (sv_i sv) < 65535 →
  wp (link_inc p) (λ _ s', let i := set_linkcount (sfi_linkcount (sv_i sv) + 1) (sv_i sv) in
    s' = set_vnodes (<[p := upd_inode (λ _, i) sv]> (vnodes s)) s ∧ vn_ok s' tbl (<[sv_ino sv := i]> F)) s.
Proof.
  intros Hv Hp Hl. destruct (vn_ino _ _ _ Hv _ _ Hp) as (_ & _ & [_ _ W _ _ _]). destruct (vo_vn _ _ _ Hv _ _ Hp) as [_ Hr].
  unfold link_inc, put_sv. apply wp_bind_2. eapply wp_get_sv; [done|].
  assert (u16 (sfi_linkcount (sv_i sv) + 1) = sfi_linkcount (sv_i sv) + 1) as ->.
  { apply wrapu_id. change (2 ^ 16) with 65536. lia. }
  wp_steps. split; [done|]. apply vn_put; [done|done|lia|done|by left].
Qed.
Lemma wp_link_dec s tbl F p sv : vn_ok s tbl F → vnodes s !! p = Some sv → 0 < sfi_linkcount (sv_i sv) →
  wp (link_dec p) (λ _ s', let i := set_linkcount (sfi_linkcount (sv_i sv) - 1) (sv_i sv) in
    s' = set_vnodes (<[p := upd_inode (λ _, i) sv]> (vnodes s)) s ∧ vn_ok s' tbl (<[sv_ino sv := i]> F)) s.
Proof.
  intros Hv Hp Hl. destruct (vn_ino _ _ _ Hv _ _ Hp) as (_ & _ & [_ _ W _ _ _]). destruct (vo_vn _ _ _ Hv _ _ Hp) as [_ Hr].
  unfold link_dec, put_sv. apply wp_bind_2. eapply wp_get_sv; [done|]. apply wp_bind_2, wp_kassert; [blia|].
  wp_steps. split; [done|]. apply vn_put; [done|done|lia|done|by left].
Qed.

(** * Giving references back *)
(** The vnode of a file that keeps a name goes, after its inode was written. *)
Definition unloaded (p : Z) (s : sfs) (F : gmap Z sfs_inode) (s' : sfs) : Prop :=
  vnodes s' = delete p (vnodes s) ∧ sfs_freemap s' = sfs_freemap s ∧ untouched (λ _, False) s F s' F ∧ ∃ tbl', vn_ok s' tbl' F.
(** A file without a name goes with all its blocks. *)
Definition destroyed (p j : Z) (s : sfs) (F : gmap Z sfs_inode) (s' : sfs) : Prop :=
  vnodes s' = delete p (vnodes s) ∧ untouched (λ c, c = j) s F s' (delete j F) ∧ (∃ tbl', vn_ok s' tbl' (delete j F)) ∧
  ∀ c, 0 < c < sp_nblocks s → (used s' c = true ↔ used s c = true ∧ c ≠ j ∧ ∀ k, slot s p k ≠ c).

Section reclaim.
Context (s : sfs) (tbl : list Z) (F : gmap Z sfs_inode) (p : Z) (sv : sfs_vnode).
Hypotheses (Hv : vn_ok s tbl F) (Hp : vnodes s !! p = Some sv) (Hr : vn_refcount sv = 1) (Ho : vn_opencount sv = 0).

Lemma in_table : p ∈ tbl ∧ NoDup tbl.
Proof using Hv Hp. destruct (vo_tbl _ _ _ Hv) as (_ & H1 & H2). split; [|done]. apply H2. by rewrite Hp. Qed.

Lemma wp_reclaim_named : sfi_linkcount (sv_i sv) ≠ 0 →
  wp (sfs_reclaim p) (λ r s', r = None ∧ s_heap s' = s_heap s ∧ unloaded p s F s') s.
Proof using All.
  intros Hl. destruct in_table as [Hin Hnd]. unfold sfs_reclaim. apply wp_bind_2. eapply wp_get_sv; [done|].
  rewrite Hr, (proj2 (Z.eqb_neq _ _) Hl). simpl. apply wp_bind_2, wp_ret, wp_bind_2.
  eapply wp_mono; [by apply (wp_sync_inode s tbl F Hv p sv)|]. intros r s1 (-> & V1 & U1 & E1 & D1 & M1 & N1 & H1 & _).
  apply wp_bind_2, wp_ret, wp_bind_2.
  assert (vnodes s1 !! p = Some (set_dirty false sv)) as Hp1 by by rewrite E1, lookup_insert_eq.
  eapply wp_mono; [eapply (wp_reclaim_drop s1 tbl); [apply V1|done|done|exact Hp1|done|done]|].
  intros [] s2 (arr & tbl' & -> & Ha & Hnd' & Hel). wp_steps. split_and!; [done|done|]. split_and!; [|done| |].
  - simpl. by rewrite E1, delete_insert_eq.
  - exact U1.
  - exists tbl'. by eapply vn_unload.
Qed.

Lemma wp_reclaim_nameless : sfi_linkcount (sv_i sv) = 0 → sfi_type (sv_i sv) = SFS_TYPE_FILE →
  wp (sfs_reclaim p) (λ r s', r = None ∧ s_heap s' = s_heap s ∧ destroyed p (sv_ino sv) s F s') s.
Proof using All.
  intros Hl Ht. destruct in_table as [Hin Hnd]. pose proof (vo_fs _ _ _ Hv) as Hok. unfold sfs_reclaim. apply wp_bind_2. eapply wp_get_sv; [done|].
  rewrite Hr, Hl. simpl. apply wp_bind_2. unfold vop_truncate. apply wp_bind_2. eapply wp_get_sv; [done|]. rewrite Ht. simpl.
  eapply wp_mono; [apply (wp_sfs_truncate p s sv 0 Hok Hp); lia|]. change ((0 + 511) / 512) with 0.
  intros r s1 (-> & Hs & Hsz). pose proof (shrunk_file_step _ _ _ _ Hok Hs) as Hst.
  destruct (sh_file _ _ _ _ Hs) as (v & sv1 & E0 & Hp1 & _ & [M1 M2 M3 M4 M5 M6 _]). simplify_eq.
  assert (sfi_size (sv_i sv1) = 0) as Hsz1 by (unfold size_of, inode_of in Hsz; by rewrite Hp1 in Hsz).
  destruct (file_step_vn s s1 tbl F p sv sv1 Hv Hst Hp Hp1) as [V1 U1]; [lia|]. set (F1 := <[sv_ino sv := sv_i sv1]> F) in *.
  assert (∀ k, slot s1 p k = 0) as Hz.
  { assert (∀ k, 0 ≤ k → slot s1 p k = 0) as Hz0.
    { intros k Hk. rewrite (sh_slots _ _ _ _ Hs) by done. unfold kept. rewrite (proj2 (Z.ltb_ge k 0)) by done.
      destruct (Z.leb_spec 15 k); [|done]. by rewrite (proj2 (Z.eqb_neq k 0)) by lia. }
    intros k. destruct (decide (0 ≤ k)); [by apply Hz0|]. destruct (decide (k = -1)) as [->|]; [|apply slot_far; lia].
    apply (sh_empty _ _ _ _ Hs); [lia|]. intros k' Hk'. apply Hz0. lia. }
  apply wp_bind_2. eapply wp_mono; [by apply (wp_sync_inode s1 tbl F1 V1 p sv1)|].
  intros r s2 (-> & V2 & U2 & E2 & D2 & FM2 & N2 & H2 & _). rewrite M1 in D2. destruct (vn_ino _ _ _ Hv _ _ Hp) as (Hi & Hu & _).
  assert (vnodes s2 !! p = Some (set_dirty false sv1)) as Hp2 by by rewrite E2, lookup_insert_eq.
  assert (F1 !! sv_ino sv = Some (sv_i sv1)) as HF1 by by apply lookup_insert_eq.
  destruct (vo_file _ _ _ V2 _ _ HF1) as (Hi2 & Hu2 & _). pose proof (ok_map _ (vo_fs _ _ _ V2)) as [Hm2 Hn2].
  apply wp_bind_2. eapply wp_mono; [apply wp_bfree; [done|lia|done]|]. intros [] s3 Hfr.
  apply wp_bind_2. destruct (vo_tbl _ _ _ V2) as (Ha2 & _ & _).
  eapply wp_mono; [apply (wp_reclaim_drop s3 tbl) with (sv := set_dirty false sv1); try done|].
  { by destruct Hfr as (fm & fd & -> & _). }
  { by destruct Hfr as (fm & fd & -> & _). }
  { simpl. congruence. }
  { simpl. congruence. }
  intros [] s4 (arr & tbl' & -> & Ha & Hnd' & Hel). wp_steps.
  pose proof (vn_unload s2 tbl F1 V2 p _ arr tbl' Hp2 ltac:(simpl; congruence) Ha Hnd' Hel) as V3.
  pose proof (ok_map _ Hok) as [_ Hnb]. pose proof (fst_geom _ _ _ Hst) as (G1 & G2 & G3 & G4). destruct (sh_map _ _ _ _ Hs) as [_ Hnb1].
  destruct Hfr as (fm & fd & -> & Hfm & Hn & Hbits). simpl.
  destruct (vn_free _ tbl' F1 V3 (sv_ino sv) (sv_i sv1)
    (set_vnodes (delete p (vnodes s2)) (set_table arr (set_freemap fm fd s2))) HF1) as [V4 U4].
  { intros k. simpl. rewrite <-(Hz k), (slot_fsl _ _ _ V1 _ _ _ Hp1), M1. unfold fsl. rewrite HF1. simpl.
    apply (slot_of_ext (s_disk s1)). rewrite <-(fsl_indirect s1 F1 (sv_ino sv) _ HF1), <-M1, <-(slot_fsl _ _ _ V1 _ _ _ Hp1).
    intros Hne. by rewrite Hz in Hne. }
  { simpl. intros q w [Hq Hqw]%lookup_delete_Some E. apply Hq. eapply (vo_one _ _ _ V2); [exact Hp2|exact Hqw|]. simpl. congruence. }
  { exists fm, fd. by split_and!. }
  assert (delete (sv_ino sv) F1 = delete (sv_ino sv) F) as EF by apply delete_insert_eq.
  split_and!; [done|congruence|]. rewrite EF in *. split_and!.
  - simpl. rewrite E2, delete_insert_eq. apply map_eq. intros q. destruct (decide (q = p)) as [->|Hq]; [by rewrite !lookup_delete_eq|].
    rewrite !lookup_delete_ne by done. by apply (sh_others _ _ _ _ Hs).
  - eapply untouched_trans; [|exact U1|eapply untouched_trans; [|exact U2|]]; [| |exact U4]; naive_solver.
  - by exists tbl'.
  - intros c Hc. unfold used at 1. simpl. rewrite Hbits by (rewrite Hn, FM2; lia). unfold used at 1. rewrite FM2. fold (used s1 c).
    rewrite (sh_used _ _ _ _ Hs) by lia. split.
    + intros [[Huc Hno] Hne]. split_and!; [done..|]. intros k E. apply Hno. exists k. split_and!; [done|lia|apply Hz].
    + intros (Huc & Hne & Hno). split; [split; [done|]|done]. intros (k & E & _). by apply (Hno k).
Qed.
End reclaim.

(** What [vnode_decref] does to vnode [p]. *)
Definition put_back (p : Z) (sv : sfs_vnode) (s : sfs) (F : gmap Z sfs_inode) (s' : sfs) : Prop :=
  if 1 <? vn_refcount sv then s' = set_vnodes (<[p := set_refcount (vn_refcount sv - 1) sv]> (vnodes s)) s ∧ ∃ tbl', vn_ok s' tbl' F
  else if sfi_linkcount (sv_i sv) =? 0 then destroyed p (sv_ino sv) s F s'
  else unloaded p s F s'.

Lemma wp_decref s tbl F p sv : vn_ok s tbl F → vnodes s !! p = Some sv →
  (vn_refcount sv = 1 → vn_opencount sv = 0 ∧ (sfi_linkcount (sv_i sv) = 0 → sfi_type (sv_i sv) = SFS_TYPE_FILE)) →
  wp (vnode_decref p) (λ _ s', s_heap s' = s_heap s ∧ put_back p sv s F s') s.
Proof.
  intros Hv Hp Hlast. destruct (vo_vn _ _ _ Hv _ _ Hp) as [HF Hr]. unfold vnode_decref, put_back. apply wp_bind_2. eapply wp_get_sv; [done|].
  apply wp_bind_2, wp_kassert; [blia|]. destruct (Z.ltb_spec 1 (vn_refcount sv)) as [Hlt|Hge].
  - unfold put_sv. wp_steps. split_and!; [done..|]. exists tbl.
    pose proof (vn_put s tbl F Hv p sv (sfi_linkcount (sv_i sv)) (sv_dirty sv) (vn_refcount sv - 1) (vn_opencount sv) Hp) as H.
    destruct (vn_ino _ _ _ Hv _ _ Hp) as (_ & _ & [_ _ W _ _ _]).
    replace (set_linkcount (sfi_linkcount (sv_i sv)) (sv_i sv)) with (sv_i sv) in H by (by destruct (sv_i sv)).
    rewrite (insert_id F) in H by done. apply H; [lia|lia|by right].
  - assert (vn_refcount sv = 1) as E1 by lia. destruct (Hlast E1) as [Ho Ht]. apply wp_bind_2.
    destruct (Z.eqb_spec (sfi_linkcount (sv_i sv)) 0) as [El|El].
    + eapply wp_mono; [by apply (wp_reclaim_nameless s tbl F p sv); auto|]. intros r s' (-> & H1 & H2). by wp_steps.
    + eapply wp_mono; [by apply (wp_reclaim_named s tbl F p sv)|]. intros r s' (-> & H1 & H2). by wp_steps.
Qed.

Lemma put_back_vstep p sv s F s' : vnodes s !! p = Some sv → 1 ≤ vn_refcount sv → (vn_refcount sv = 1 → vn_opencount sv = 0) →
  s_heap s' = s_heap s → put_back p sv s F s' → vstep (λ a, - ref1 p a) s s'.
Proof.
  intros Hp Hr Ho Hh H. assert (vnodes s' = if 1 <? vn_refcount sv then <[p := set_refcount (vn_refcount sv - 1) sv]> (vnodes s) else delete p (vnodes s)) as E.
  { unfold put_back in H. destruct (1 <? vn_refcount sv); [by destruct H as [-> _]|]. destruct (_ =? 0); by destruct H as [-> _]. }
  destruct (Z.ltb_spec 1 (vn_refcount sv)); constructor; unfold rc, oc, ref1; rewrite ?E.
  - intros a. case_decide as Ha; [subst a; rewrite lookup_insert_eq, Hp; simpl; lia|rewrite lookup_insert_ne by done; lia].
  - intros a. destruct (decide (a = p)) as [->|]; [by rewrite lookup_insert_eq, Hp|by rewrite lookup_insert_ne].
  - intros a v v' Hv. destruct (decide (a = p)) as [->|]; [rewrite lookup_insert_eq|rewrite lookup_insert_ne by done]; intros; by simplify_eq.
  - apply hstep_same; [done|]. rewrite E. intros a. destruct (decide (a = p)) as [->|]; [by rewrite Hp|by rewrite lookup_insert_ne].
  - intros a. case_decide as Ha; [subst a; rewrite lookup_delete_eq, Hp; lia|rewrite lookup_delete_ne by done; lia].
  - intros a. destruct (decide (a = p)) as [->|]; [rewrite lookup_delete_eq, Hp; symmetry; apply Ho; lia|by rewrite lookup_delete_ne].
  - intros a v v' Hv [_ Hv']%lookup_delete_Some. by simplify_eq.
  - apply hstep_same; [done|]. rewrite E. intros a [v [_ Ha]%lookup_delete_Some]. by eexists.
Qed.
