(* ===== verification/SfsName.v ===== *)
(** The name space of the simple file system: the operations on names ([sfs_lookup],
    [sfs_creat], [sfs_link], [sfs_remove], [sfs_rename]) keep the invariant
    [fs_tree]: the root directory is a map [D] from names to files, the link count
    of a file is the number of its names, and a file without a name is in memory. *)

From stdpp Require Import base tactics numbers list gmap.
From S2P Require Import Prelude KernDefs CopyInOut Bitmap Uio Array Sfs SfsInv SfsMap SfsIo SfsTrunc SfsDir SfsDirSpec SfsVn SfsVnOps.
Local Open Scope Z_scope.

(** * Link counts *)
(** The number of names of file [j]. *)
Definition nlinks (D : gmap (list Z) Z) (j : Z) : Z := Z.of_nat (size (filter (λ x, x.2 = j) D)).

Lemma nlinks_insert D name j j' : D !! name = None → nlinks (<[name := j]> D) j' = nlinks D j' + (if decide (j' = j) then 1 else 0).
Proof.
  intros HN. unfold nlinks. rewrite map_filter_insert. simpl. destruct (decide (j = j')) as [->|Hne].
  - rewrite decide_True by done. rewrite map_size_insert_None; [lia|]. apply map_lookup_filter_None. by left.
  - rewrite decide_False by done. rewrite delete_id by done. lia.
Qed.
Lemma nlinks_delete D name j j' : D !! name = Some j → nlinks (delete name D) j' = nlinks D j' - (if decide (j' = j) then 1 else 0).
Proof.
  intros HS. rewrite <-(insert_delete_id D name j HS) at 2. rewrite nlinks_insert by apply lookup_delete_eq. lia.
Qed.
Lemma nlinks_pos D name j : D !! name = Some j → 1 ≤ nlinks D j.
Proof. intros HS. pose proof (nlinks_delete D name j j HS) as E. rewrite decide_True in E by done. unfold nlinks at 1 in E. lia. Qed.
Lemma nlinks_none D j : (∀ name, D !! name ≠ Some j) → nlinks D j = 0.
Proof.
  intros H. unfold nlinks. enough (filter (λ x, x.2 = j) D = ∅) as -> by done. apply map_eq. intros name. rewrite lookup_empty.
  apply map_lookup_filter_None. right. intros j' Hj E. simpl in E. subst j'. by apply (H name).
Qed.

(** A directory holds at most 1144 names. *)
Lemma dir_size s p D : dir_rep s p D → Z.of_nat (size D) ≤ 1144.
Proof.
  intros [[_ [Hs _] _] HD]. set (n := size_of s p / 64) in *. unfold maxsize in Hs.
  assert (0 ≤ n ≤ 1144) by (unfold n; split; [apply Z.div_pos; lia|change 1144 with (73216 / 64); apply Z.div_le_mono; lia]).
  assert ((map_to_list D).*1 ⊆+ (λ i, ent_name (dirent s p i)) <$> seqZ 0 n) as Hsub.
  { apply NoDup_submseteq; [apply NoDup_fst_map_to_list|]. intros name ([name' j] & -> & Hin)%list_elem_of_fmap.
    apply elem_of_map_to_list in Hin. apply HD in Hin as (i & Hi & _ & Hn & _). simpl. apply list_elem_of_fmap. exists i.
    split; [done|]. apply elem_of_seqZ. lia. }
  apply submseteq_length in Hsub. rewrite !length_fmap, length_seqZ in Hsub. rewrite length_map_to_list in Hsub. lia.
Qed.
Lemma nlinks_size D j : nlinks D j ≤ Z.of_nat (size D).
Proof. unfold nlinks. apply Nat2Z.inj_le, map_subseteq_size, map_filter_subseteq. Qed.

(** Names lead to files, and link counts count names. *)
Definition links_ok (F : gmap Z sfs_inode) (D : gmap (list Z) Z) : Prop :=
  (∀ name j, D !! name = Some j → ∃ i, F !! j = Some i ∧ sfi_type i = SFS_TYPE_FILE) ∧
  (∀ j i, F !! j = Some i → sfi_type i = SFS_TYPE_FILE → sfi_linkcount i = nlinks D j).

Section links.
Context (F : gmap Z sfs_inode) (D : gmap (list Z) Z).
Hypothesis Hl : links_ok F D.

Lemma links_dir r i i' : F !! r = Some i → sfi_type i = SFS_TYPE_DIR → sfi_type i' = SFS_TYPE_DIR → links_ok (<[r := i']> F) D.
Proof using Hl.
  intros Hr Ht Ht'. destruct Hl as [H1 H2]. split.
  - intros name j Hj. destruct (H1 _ _ Hj) as (i0 & Hi0 & Hf). exists i0. rewrite lookup_insert_ne; [done|].
    intros <-. rewrite Hr in Hi0. injection Hi0 as ->. by rewrite Ht in Hf.
  - intros j i0. rewrite lookup_insert_Some. intros [[<- <-]|[_ Hi]]; [by rewrite Ht'|by apply H2].
Qed.
Lemma links_new j i : F !! j = None → sfi_linkcount i = 0 → links_ok (<[j := i]> F) D.
Proof using Hl.
  intros Hj Hi. destruct Hl as [H1 H2]. assert (∀ name, D !! name ≠ Some j) as Hno.
  { intros name E. destruct (H1 _ _ E) as (? & ? & _). congruence. }
  split.
  - intros name j' Hj'. destruct (H1 _ _ Hj') as (i0 & Hi0 & Hf). exists i0. rewrite lookup_insert_ne by congruence. done.
  - intros j' i0. rewrite lookup_insert_Some. intros [[<- <-]|[_ Hi0]]; [by rewrite nlinks_none|by apply H2].
Qed.
Lemma links_insert name j i : D !! name = None → F !! j = Some i → sfi_type i = SFS_TYPE_FILE →
  links_ok (<[j := set_linkcount (sfi_linkcount i + 1) i]> F) (<[name := j]> D).
Proof using Hl.
  intros HN Hj Ht. destruct Hl as [H1 H2]. split.
  - intros name' j'. rewrite lookup_insert_Some. intros Hor. destruct (decide (j' = j)) as [->|Hne]; [rewrite lookup_insert_eq; eauto|].
    rewrite lookup_insert_ne by done. destruct Hor as [[_ <-]|[_ Hj']]; [done|eauto].
  - intros j' i0. rewrite nlinks_insert by done. rewrite lookup_insert_Some. intros [[<- <-]|[Hne Hi0]] Ht0.
    + rewrite decide_True by done. simpl. by rewrite (H2 _ _ Hj Ht).
    + rewrite decide_False by done. rewrite Z.add_0_r. by apply H2.
Qed.
Lemma links_delete name j i : D !! name = Some j → F !! j = Some i →
  links_ok (<[j := set_linkcount (sfi_linkcount i - 1) i]> F) (delete name D).
Proof using Hl.
  intros HS Hj. destruct Hl as [H1 H2]. destruct (H1 _ _ HS) as (i' & Hi' & Ht). simplify_eq. split.
  - intros name' j' [_ Hj']%lookup_delete_Some. destruct (decide (j' = j)) as [->|Hne]; [rewrite lookup_insert_eq; eauto|].
    rewrite lookup_insert_ne by done. eauto.
  - intros j' i0. rewrite (nlinks_delete _ _ j) by done. rewrite lookup_insert_Some. intros [[<- <-]|[Hne Hi0]] Ht0.
    + rewrite decide_True by done. simpl. by rewrite (H2 _ _ Hj Ht).
    + rewrite decide_False by done. rewrite Z.sub_0_r. by apply H2.
Qed.
Lemma links_forget j : nlinks D j = 0 → links_ok (delete j F) D.
Proof using Hl.
  intros Hz. destruct Hl as [H1 H2]. split.
  - intros name j' Hj'. destruct (H1 _ _ Hj') as (i & Hi & Ht). exists i. rewrite lookup_delete_ne; [done|].
    intros <-. pose proof (nlinks_pos _ _ _ Hj'). lia.
  - intros j' i [_ Hi]%lookup_delete_Some. by apply H2.
Qed.
End links.

(** * The invariant *)
(** A directory whose inode and contents are as before holds the same names. *)
Lemma dir_rep_move s s' p p' D sv sv' : dir_rep s p D → vnodes s !! p = Some sv → vnodes s' !! p' = Some sv' → sv_i sv' = sv_i sv →
  (∀ o, fcont (s_disk s') (sv_i sv) o = fcont (s_disk s) (sv_i sv) o) →
  dir_rep s' p' D ∧ size_of s' p' = size_of s p ∧ ∀ i, dirent s' p' i = dirent s p i.
Proof.
  intros [[(v & Hv & Ht) Hs Hu] HD] Hp Hp' Ei Hc. assert (v = sv) as -> by congruence. clear Hv.
  assert (size_of s' p' = size_of s p) as Es by (unfold size_of, inode_of; rewrite Hp, Hp'; simpl; by rewrite Ei).
  assert (∀ i, dirent s' p' i = dirent s p i) as Ed.
  { intros i. apply kget_ext. intros o _. rewrite (content_fcont _ _ _ _ Hp), (content_fcont _ _ _ _ Hp'), Ei. apply Hc. }
  split_and!; [|done|done]. split; [constructor|].
  - exists sv'. by rewrite Ei.
  - by rewrite Es.
  - rewrite Es. intros i j. rewrite !Ed. apply Hu.
  - intros name ino. rewrite HD, Es. by setoid_rewrite Ed.
Qed.

(** The directory of vnode [root] holds the names [D], the files are [F]. *)
Record dir_at (root : Z) (s : sfs) (F : gmap Z sfs_inode) (D : gmap (list Z) Z) : Prop := {
  da_vn : ∃ tbl, vn_ok s tbl F;
  da_root : ∃ rv, vnodes s !! root = Some rv ∧ sv_ino rv = SFS_ROOT_LOCATION;
  da_dir : dir_rep s root D;
}.
(** A file without a name is in memory. *)
Definition open_ok (s : sfs) (F : gmap Z sfs_inode) : Prop :=
  ∀ j i, F !! j = Some i → sfi_type i = SFS_TYPE_FILE → sfi_linkcount i = 0 → ¬ not_loaded s j.

Record fs_tree (root : Z) (s : sfs) (F : gmap Z sfs_inode) (D : gmap (list Z) Z) : Prop := {
  ft_at : dir_at root s F D;
  ft_links : links_ok F D;
  ft_open : open_ok s F;
}.

Lemma loaded_iff s j : ¬ not_loaded s j ↔ ∃ q v, vnodes s !! q = Some v ∧ sv_ino v = j.
Proof.
  split; [|intros (q & v & Hq & E) H; by apply (H q v)]. intros H.
  destruct (decide (map_Exists (λ _ v, sv_ino v = j) (vnodes s))) as [(q & v & Hq)|Hno]; [eauto|].
  exfalso. apply H. intros q v Hq E. apply Hno. by exists q, v.
Qed.

Section at_root.
Context (root : Z) (s : sfs) (F : gmap Z sfs_inode) (D : gmap (list Z) Z).
Hypothesis Hat : dir_at root s F D.

Lemma root_inode : ∃ rv, vnodes s !! root = Some rv ∧ sv_ino rv = SFS_ROOT_LOCATION ∧ F !! SFS_ROOT_LOCATION = Some (sv_i rv) ∧
  sfi_type (sv_i rv) = SFS_TYPE_DIR.
Proof using Hat.
  destruct Hat as [[tbl Hv] (rv & Hr & Ei) [[(v & Hv' & Ht) _ _] _]]. exists rv. destruct (vo_vn _ _ _ Hv _ _ Hr) as [HF _].
  rewrite Ei in HF. assert (v = rv) as -> by congruence. done.
Qed.
Lemma not_root q v i : vnodes s !! q = Some v → F !! sv_ino v = Some i → sfi_type i = SFS_TYPE_FILE → q ≠ root ∧ sv_ino v ≠ SFS_ROOT_LOCATION.
Proof using Hat.
  assert (SFS_TYPE_FILE ≠ SFS_TYPE_DIR) by done. intros Hq Hi Ht. destruct root_inode as (rv & Hr & Ei & HF & Htr). split; [|congruence]. intros ->. congruence.
Qed.
Lemma file_not_root j i : F !! j = Some i → sfi_type i = SFS_TYPE_FILE → j ≠ SFS_ROOT_LOCATION.
Proof using Hat. assert (SFS_TYPE_FILE ≠ SFS_TYPE_DIR) by done. intros Hj Ht ->. destruct root_inode as (rv & _ & _ & HF & Htr). congruence. Qed.

(** Other files and vnodes change. *)
Lemma at_move J s' F' : (∃ tbl, vn_ok s' tbl F') → vnodes s' !! root = vnodes s !! root → untouched J s F s' F' → ¬ J SFS_ROOT_LOCATION →
  dir_at root s' F' D ∧ size_of s' root = size_of s root ∧ ∀ i, dirent s' root i = dirent s root i.
Proof using Hat.
  intros Hv Er Hu HJ. destruct root_inode as (rv & Hr & Ei & HF & Ht).
  destruct (dir_rep_move s s' root root D rv rv (da_dir _ _ _ _ Hat) Hr) as (H1 & H2 & H3); [by rewrite Er|done| |].
  { by apply (Hu SFS_ROOT_LOCATION). }
  split_and!; [|done|done]. constructor; [done| |done]. exists rv. by rewrite Er.
Qed.

(** The directory changes. *)
Lemma at_step s' D' : dir_step root s s' → dir_rep s' root D' → ∃ i', sfi_type i' = SFS_TYPE_DIR ∧
  dir_at root s' (<[SFS_ROOT_LOCATION := i']> F) D' ∧ untouched (λ c, c = SFS_ROOT_LOCATION) s F s' (<[SFS_ROOT_LOCATION := i']> F) ∧
  (∀ q, q ≠ root → vnodes s' !! q = vnodes s !! q) ∧ ∀ j, not_loaded s' j ↔ not_loaded s j.
Proof using Hat.
  intros Hst HD'. pose proof (dir_file_step _ _ _ Hst) as Hfs. destruct root_inode as (rv & Hr & Ei & HF & Ht).
  destruct (da_vn _ _ _ _ Hat) as [tbl Hv]. destruct (fst_file _ _ _ Hfs) as (v & rv' & E & Hr' & Hm). assert (v = rv) as -> by congruence.
  pose proof (do_size _ _ (proj1 HD')) as [Hsz _]. unfold size_of, inode_of, maxsize in Hsz. rewrite Hr' in Hsz. simpl in Hsz.
  destruct (file_step_vn s s' tbl F root rv rv' Hv Hfs Hr Hr') as [V U]; [lia|]. rewrite Ei in V, U. destruct Hm as [M1 _ _ M4 _ _ _].
  exists (sv_i rv'). split_and!; [congruence| |done|apply (fst_others _ _ _ Hfs)|].
  - constructor; [by exists tbl| |done]. exists rv'. split; [done|congruence].
  - intros j. split; intros Hn q w Hq; (destruct (decide (q = root)) as [->|Hne]; [|pose proof (fst_others _ _ _ Hfs q Hne); apply (Hn q); congruence]).
    + assert (w = rv) as -> by congruence. rewrite <-M1. by apply (Hn root).
    + assert (w = rv') as -> by congruence. rewrite M1. by apply (Hn root).
Qed.
End at_root.

(** * Looking up *)
Definition refs_ok (s : sfs) : Prop := ∀ p sv, vnodes s !! p = Some sv → vn_refcount sv < 2147483647.

Lemma got_others j i s q s' a v : got j i s q s' → vnodes s !! a = Some v →
  ∃ v', vnodes s' !! a = Some v' ∧ sv_ino v' = sv_ino v ∧ sv_i v' = sv_i v ∧ (a ≠ q → v' = v).
Proof.
  intros (sv' & E & E1 & E2 & H) Ha. rewrite E. destruct (decide (a = q)) as [->|Hne]; [|rewrite lookup_insert_ne by done; eauto].
  rewrite lookup_insert_eq. rewrite Ha in H. subst sv'. eexists. by split_and!.
Qed.

Section lookup.
Context (root : Z) (s : sfs) (F : gmap Z sfs_inode) (D : gmap (list Z) Z).
Hypotheses (Htree : fs_tree root s F D) (Hheap : heap_fresh s) (Hrefs : refs_ok s).

(** Getting the vnode of a named file. *)
Lemma wp_load_named j i : F !! j = Some i → sfi_type i = SFS_TYPE_FILE →
  wp (sfs_loadvnode j SFS_TYPE_INVAL) (λ r s', same_store s s' ∧ hstep s s' ∧ fs_tree root s' F D ∧
    size_of s' root = size_of s root ∧ (∀ k, dirent s' root k = dirent s root k) ∧ match r with
    | inr q => got j i s q s' ∧ q ≠ root
    | inl e => e = ENOMEM ∧ not_loaded s j ∧ vnodes s' = vnodes s
    end) s.
Proof using All.
  intros Hj Ht. destruct Htree as [Hat Hl Ho]. destruct (da_vn _ _ _ _ Hat) as [tbl Hv].
  destruct (root_inode _ _ _ _ Hat) as (rv & Hr & Er & HFr & Htr). assert (j ≠ SFS_ROOT_LOCATION) as Hjr by (by eapply file_not_root).
  eapply wp_mono; [apply (wp_loadvnode s tbl F j i Hv Hj Hheap)|].
  { intros q v Hq _. by eapply Hrefs. }
  intros r s' (Hss & Hhs & Hr'). pose proof (same_store_untouched (λ _, False) s s' F Hss) as Hu. destruct r as [e|q].
  - destruct Hr' as (-> & Hnl & Evn & Hv' & _).
    destruct (at_move root s F D Hat (λ _, False) s' F) as (A1 & A2 & A3); [by exists tbl|by rewrite Evn|done|by intros []|].
    split_and!; try done. constructor; [done|done|]. intros j' i' H1 H2 H3 H4. apply (Ho j' i'); try done. unfold not_loaded in *. by rewrite Evn in H4.
  - destruct Hr' as [Hg Hv']. pose proof Hg as (sv' & E & E1 & E2 & Hm). assert (q ≠ root) as Hq.
    { intros ->. rewrite Hr in Hm. subst sv'. simpl in E1. congruence. }
    destruct (at_move root s F D Hat (λ _, False) s' F) as (A1 & A2 & A3); [done|by rewrite E, lookup_insert_ne|done|by intros []|].
    split_and!; try done. constructor; [done|done|]. intros j' i' H1 H2 H3. apply loaded_iff. apply (Ho j' i') in H1; [|done|done].
    apply loaded_iff in H1 as (a & v & Ha & Ea). destruct (got_others _ _ _ _ _ _ _ Hg Ha) as (v' & H4 & H5 & _). exists a, v'. split; [done|congruence].
Qed.

Lemma wp_lookonce name : wp (sfs_lookonce root name) (λ r s', same_store s s' ∧ hstep s s' ∧ fs_tree root s' F D ∧ match r with
    | inr (q, slot) => ∃ j i, D !! name = Some j ∧ F !! j = Some i ∧ sfi_type i = SFS_TYPE_FILE ∧ got j i s q s' ∧ q ≠ root ∧
        0 ≤ slot < size_of s' root / 64 ∧ ent_used (dirent s' root slot) ∧ ent_name (dirent s' root slot) = name
    | inl e => e = ENOENT ∧ D !! name = None ∧ s' = s ∨
        e = ENOMEM ∧ vnodes s' = vnodes s ∧ ∃ j, D !! name = Some j ∧ not_loaded s j
    end) s.
Proof using All.
  pose proof Htree as [Hat Hl Ho]. destruct (da_vn _ _ _ _ Hat) as [tbl Hv]. pose proof (da_dir _ _ _ _ Hat) as Hrep.
  unfold sfs_lookonce. apply wp_bind_2. eapply wp_mono; [apply wp_findname; [apply Hv|apply Hrep]|].
  intros r s0 [-> (found & empty & [Hf _] & ->)]. destruct found as [[j k]|].
  2:{ wp_steps. split_and!; [done|by apply hstep_same|done|]. left. split_and!; [done| |done]. by eapply rep_not_found. }
  destruct Hf as (Hk & Hus & Hn & Ei). pose proof (rep_found _ _ _ _ _ _ Hrep Hk Hus Hn Ei) as HD.
  destruct (proj1 Hl _ _ HD) as (i & Hi & Ht). apply wp_bind_2. eapply wp_mono; [by eapply wp_load_named|].
  intros [e|q] s' (Hss & Hhs & Ht' & Hsz & Hde & Hr).
  - destruct Hr as (-> & Hnl & Evn). wp_steps. split_and!; [done..|]. right. split_and!; [done..|]. by exists j.
  - destruct Hr as [Hg Hq]. pose proof Hg as (sv' & E & E1 & E2 & _). apply wp_bind_2. eapply wp_get_sv; [by rewrite E, lookup_insert_eq|].
    rewrite E2. pose proof (nlinks_pos _ _ _ HD). rewrite (proj2 Hl j i Hi Ht). rewrite (proj2 (Z.eqb_neq _ 0)) by lia. wp_steps.
    split_and!; [done..|]. exists j, i. rewrite Hsz, Hde. split_and!; try done; lia.
Qed.
End lookup.

(** A vnode is looked up, used and given back. *)
Lemma vstep_borrow j i q F s s1 s2 s3 tbl1 F1 : (∃ tbl, vn_ok s tbl F) → vn_ok s1 tbl1 F1 → got j i s q s1 → hstep s s1 → vstep ref0 s1 s2 →
  vstep (λ a, - ref1 q a) s2 s3 → vstep ref0 s s3.
Proof.
  intros [tbl Hv] Hv1 Hg Hh V2 V3. pose proof (got_vstep _ _ _ _ _ Hg Hh) as V1.
  assert (vstep (ref1 q) s s2) as V12.
  { eapply vstep_trans; [exact V1|exact V2|intros a; eapply vstep_loaded; [done..|]; unfold ref1; by case_decide|]. intros a. unfold ref0. lia. }
  eapply vstep_trans; [exact V12|exact V3|intros a; eapply vstep_loaded; [done..|]; unfold ref1; by case_decide|]. intros a. unfold ref0. lia.
Qed.

(** * Names and vnodes *)
Section names.
Context (root : Z) (s : sfs) (F : gmap Z sfs_inode) (D : gmap (list Z) Z) (q : Z) (sv : sfs_vnode).
Hypotheses (Htree : fs_tree root s F D) (Hq : vnodes s !! q = Some sv) (Hft : sfi_type (sv_i sv) = SFS_TYPE_FILE).
Let j := sv_ino sv.

Lemma held : F !! j = Some (sv_i sv) ∧ q ≠ root ∧ j ≠ SFS_ROOT_LOCATION ∧ sfi_linkcount (sv_i sv) = nlinks D j ∧
  1 ≤ vn_refcount sv < 2147483648.
Proof using All.
  destruct Htree as [Hat Hl _]. destruct (da_vn _ _ _ _ Hat) as [tbl Hv]. destruct (vo_vn _ _ _ Hv _ _ Hq) as [HF Hr].
  destruct (not_root root s F D Hat q sv (sv_i sv) Hq HF Hft). split_and!; try done; try lia. by apply Hl.
Qed.

(** The vnode in hand gets another link count after the directory was changed. *)
Lemma relinked s1 i1 D1 n s2 : dir_at root s1 (<[SFS_ROOT_LOCATION := i1]> F) D1 → sfi_type i1 = SFS_TYPE_DIR →
  untouched (λ c, c = SFS_ROOT_LOCATION) s F s1 (<[SFS_ROOT_LOCATION := i1]> F) →
  (∀ a, a ≠ root → vnodes s1 !! a = vnodes s !! a) → (∀ c, not_loaded s1 c ↔ not_loaded s c) →
  links_ok (<[j := set_linkcount n (sv_i sv)]> F) D1 →
  s2 = set_vnodes (<[q := upd_inode (λ _, set_linkcount n (sv_i sv)) sv]> (vnodes s1)) s1 →
  (∃ tbl, vn_ok s2 tbl (<[j := set_linkcount n (sv_i sv)]> (<[SFS_ROOT_LOCATION := i1]> F))) →
  let F2 := <[j := set_linkcount n (sv_i sv)]> (<[SFS_ROOT_LOCATION := i1]> F) in
  fs_tree root s2 F2 D1 ∧ untouched (λ c, c = SFS_ROOT_LOCATION ∨ c = j) s F s2 F2 ∧
  same_file (s_disk s) (s_disk s2) (sv_i sv) ∧
  (∀ a, a ≠ root → a ≠ q → vnodes s2 !! a = vnodes s !! a) ∧ (∀ c, not_loaded s2 c ↔ not_loaded s c) ∧
  size_of s2 root = size_of s1 root ∧ ∀ k, dirent s2 root k = dirent s1 root k.
Proof using All.
  intros Hat1 Ht1 U1 Hoth Hnl1 Hl2 -> Hv2 F2. destruct held as (HF & Hqr & Hjr & Hn & _). pose proof Htree as [Hat Hl Ho].
  set (s2 := set_vnodes _ s1). set (F1 := <[SFS_ROOT_LOCATION := i1]> F) in *.
  assert (untouched (λ c, c = j) s1 F1 s2 F2) as U2.
  { intros c Hc. unfold F2. rewrite lookup_insert_ne by done. done. }
  destruct (at_move root s1 F1 D1 Hat1 (λ c, c = j) s2 F2 Hv2) as (A1 & A2 & A3); [simpl; by rewrite lookup_insert_ne|done|done|].
  destruct (root_inode _ _ _ _ Hat) as (rv & Hr & Er & HFr & Htr).
  assert (∀ c, not_loaded s2 c ↔ not_loaded s c) as Hnl2.
  { intros c. rewrite <-Hnl1. unfold not_loaded, s2. simpl. split; intros H a v Ha.
    - destruct (decide (a = q)) as [->|]; [|apply (H a); by rewrite lookup_insert_ne].
      rewrite Hoth, Hq in Ha by done. simplify_eq. exact (H q _ (lookup_insert_eq _ _ _)).
    - rewrite lookup_insert_Some in Ha. destruct Ha as [[<- <-]|[_ Ha]]; [|by eapply H]. simpl. apply (H q). by rewrite Hoth. }
  split_and!; try done.
  - constructor; [done| |].
    + unfold F2, F1. rewrite insert_insert_ne by done. eapply links_dir; [done|rewrite lookup_insert_ne; done|done|done].
    + intros c i Hi Ht Hz. rewrite Hnl2. destruct (decide (c = j)) as [->|Hc].
      * apply loaded_iff. exists q, sv. done.
      * unfold F2 in Hi. rewrite lookup_insert_ne in Hi by done. destruct (decide (c = SFS_ROOT_LOCATION)) as [->|Hc'].
        { unfold F1 in Hi. rewrite lookup_insert_eq in Hi. injection Hi as <-. by rewrite Ht1 in Ht. }
        unfold F1 in Hi. rewrite lookup_insert_ne in Hi by done. by apply (Ho c i).
  - eapply untouched_trans; [|exact U1|exact U2]. done.
  - by apply (U1 j).
  - intros a Ha Haq. unfold s2. simpl. rewrite lookup_insert_ne by done. by apply Hoth.
Qed.

Lemma relink_vstep s1 n : dir_step root s s1 →
  vstep ref0 s (set_vnodes (<[q := upd_inode (λ _, set_linkcount n (sv_i sv)) sv]> (vnodes s1)) s1).
Proof using All.
  intros Hst. destruct held as (_ & Hqr & _). pose proof (dir_step_vstep _ _ _ Hst) as V. assert (vnodes s1 !! q = Some sv) as Hq1.
  { by rewrite (proj1 (ds_others _ _ _ Hst q Hqr)). }
  eapply (vstep_trans ref0 ref0); [exact V| | |done].
  - apply vstep_same; [done|]. intros a. simpl. destruct (decide (a = q)) as [->|]; [by rewrite lookup_insert_eq, Hq1|by rewrite lookup_insert_ne].
  - intros a Ha. destruct (da_vn _ _ _ _ (ft_at _ _ _ _ Htree)) as [tbl Hv]. by eapply vstep_loaded.
Qed.

(** A name was linked. *)
Lemma wp_tree_link name slot s1 : linked root D name j s (None, slot) s1 →
  wp (link_inc q) (λ _ s2, ∃ F2, let i2 := set_linkcount (sfi_linkcount (sv_i sv) + 1) (sv_i sv) in
    fs_tree root s2 F2 (<[name := j]> D) ∧ vstep ref0 s s2 ∧ untouched (λ c, c = SFS_ROOT_LOCATION ∨ c = j) s F s2 F2 ∧
    F2 !! j = Some i2 ∧ same_file (s_disk s) (s_disk s2) (sv_i sv) ∧
    vnodes s2 !! q = Some (upd_inode (λ _, i2) sv) ∧
    (∀ a, a ≠ root → a ≠ q → vnodes s2 !! a = vnodes s !! a) ∧ (∀ c, not_loaded s2 c ↔ not_loaded s c) ∧
    size_of s2 root = size_of s1 root ∧ (∀ k, dirent s2 root k = dirent s1 root k) ∧ s_heap s2 = s_heap s) s1.
Proof using All.
  intros (HN & Hlen & Hrep1 & Hst & _). destruct held as (HF & Hqr & Hjr & Hn & Hr). pose proof Htree as [Hat Hl Ho].
  destruct (at_step root s F D Hat s1 _ Hst Hrep1) as (i1 & Ht1 & Hat1 & U1 & Hoth & Hnl). destruct (da_vn _ _ _ _ Hat1) as [tbl Hv1].
  pose proof (dir_size _ _ _ (da_dir _ _ _ _ Hat)). pose proof (nlinks_size D j).
  eapply wp_mono; [apply (wp_link_inc s1 tbl _ q sv Hv1); [by rewrite Hoth|lia]|]. intros [] s2 [E2 V2].
  exists (<[j := set_linkcount (sfi_linkcount (sv_i sv) + 1) (sv_i sv)]> (<[SFS_ROOT_LOCATION := i1]> F)).
  destruct (relinked s1 i1 _ (sfi_linkcount (sv_i sv) + 1) s2 Hat1 Ht1 U1 Hoth Hnl) as (R1 & R2 & R3 & R4 & R5 & R6 & R7);
    [by apply links_insert|done|by exists tbl|].
  split_and!; try done; [rewrite E2; by apply relink_vstep|by rewrite lookup_insert_eq|rewrite E2; simpl; by rewrite lookup_insert_eq|].
  rewrite E2. simpl. apply (ds_geom _ _ _ Hst).
Qed.

(** A name was unlinked. *)
Lemma wp_tree_unlink name s1 : D !! name = Some j → dir_step root s s1 → dir_rep s1 root (delete name D) →
  wp (link_dec q) (λ _ s2, ∃ F2, let i2 := set_linkcount (sfi_linkcount (sv_i sv) - 1) (sv_i sv) in
    fs_tree root s2 F2 (delete name D) ∧ vstep ref0 s s2 ∧ untouched (λ c, c = SFS_ROOT_LOCATION ∨ c = j) s F s2 F2 ∧
    F2 !! j = Some i2 ∧ same_file (s_disk s) (s_disk s2) (sv_i sv) ∧
    vnodes s2 !! q = Some (upd_inode (λ _, i2) sv) ∧
    (∀ a, a ≠ root → a ≠ q → vnodes s2 !! a = vnodes s !! a) ∧ (∀ c, not_loaded s2 c ↔ not_loaded s c)) s1.
Proof using All.
  intros HS Hst Hrep1. destruct held as (HF & Hqr & Hjr & Hn & Hr). pose proof Htree as [Hat Hl Ho].
  destruct (at_step root s F D Hat s1 _ Hst Hrep1) as (i1 & Ht1 & Hat1 & U1 & Hoth & Hnl). destruct (da_vn _ _ _ _ Hat1) as [tbl Hv1].
  pose proof (nlinks_pos D name j HS).
  eapply wp_mono; [apply (wp_link_dec s1 tbl _ q sv Hv1); [by rewrite Hoth|lia]|]. intros [] s2 [E2 V2].
  exists (<[j := set_linkcount (sfi_linkcount (sv_i sv) - 1) (sv_i sv)]> (<[SFS_ROOT_LOCATION := i1]> F)).
  destruct (relinked s1 i1 _ (sfi_linkcount (sv_i sv) - 1) s2 Hat1 Ht1 U1 Hoth Hnl) as (R1 & R2 & R3 & R4 & R5 & R6 & R7);
    [by apply links_delete|done|by exists tbl|].
  split_and!; try done; [rewrite E2; by apply relink_vstep|by rewrite lookup_insert_eq|rewrite E2; simpl; by rewrite lookup_insert_eq].
Qed.

(** The vnode in hand is given back. *)
Lemma wp_tree_decref : (vn_refcount sv = 1 → vn_opencount sv = 0) →
  wp (vnode_decref q) (λ _ s', put_back q sv s F s' ∧ vstep (λ a, - ref1 q a) s s' ∧
    let F' := if (vn_refcount sv =? 1) && (nlinks D j =? 0) then delete j F else F in
    fs_tree root s' F' D ∧ untouched (λ c, c = j ∧ vn_refcount sv = 1 ∧ nlinks D j = 0) s F s' F' ∧
    (∀ a, a ≠ q → vnodes s' !! a = vnodes s !! a)) s.
Proof using All.
  intros Hop. destruct held as (HF & Hqr & Hjr & Hn & Hr). pose proof Htree as [Hat Hl Ho]. destruct (da_vn _ _ _ _ Hat) as [tbl Hv].
  eapply wp_mono; [apply (wp_decref s tbl F q sv Hv Hq); auto|]. intros [] s' [Hhp Hpb]. split; [done|]. split; [apply (put_back_vstep q sv s F s' Hq); [lia|done..]|]. unfold put_back in Hpb. rewrite Hn in Hpb.
  set (F' := if (vn_refcount sv =? 1) && (nlinks D j =? 0) then delete j F else F).
  set (J := λ c, c = j ∧ vn_refcount sv = 1 ∧ nlinks D j = 0).
  assert ((∃ tbl', vn_ok s' tbl' F') ∧ untouched J s F s' F' ∧ (∀ a, a ≠ q → vnodes s' !! a = vnodes s !! a) ∧ links_ok F' D ∧
    (F' !! j = Some (sv_i sv) → nlinks D j = 0 → ¬ not_loaded s' j)) as (H1 & H2 & H3 & H4 & H5).
  { unfold F', J. destruct (Z.ltb_spec 1 (vn_refcount sv)) as [Hlt|Hge].
    - destruct Hpb as [-> Hv']. rewrite (proj2 (Z.eqb_neq _ 1)) by lia. simpl. split_and!; try done.
      + intros a Ha. by rewrite lookup_insert_ne.
      + intros _ _. apply loaded_iff. eexists q, _. simpl. rewrite lookup_insert_eq. done.
    - assert (vn_refcount sv = 1) as -> by lia. simpl. destruct (Z.eqb_spec (nlinks D j) 0) as [Hz|Hnz].
      + destruct Hpb as (E & U & V & _). split_and!; [done| | |by apply links_forget|by rewrite lookup_delete_eq].
        * eapply untouched_mono; [|exact U]. done.
        * intros a Ha. by rewrite E, lookup_delete_ne.
      + destruct Hpb as (E & _ & U & V). split_and!; [done| | |done|done].
        * eapply untouched_mono; [|exact U]. done.
        * intros a Ha. by rewrite E, lookup_delete_ne. }
  destruct (at_move root s F D Hat J s' F' H1) as (A1 & _); [by apply H3|done|by intros [? _]|].
  split_and!; [|done|done]. constructor; [done|done|]. intros c i Hi Ht Hz. destruct (decide (c = j)) as [->|Hc].
  - assert (F' !! j = Some (sv_i sv)) as E. { unfold F' in *. destruct (_ && _); [by rewrite lookup_delete_eq in Hi|done]. }
    apply H5; [done|]. rewrite <-(proj2 H4 j i Hi Ht). done.
  - assert (F !! c = Some i) as Hi'. { rewrite <-Hi. symmetry. apply H2. by intros [? _]. }
    pose proof (Ho c i Hi' Ht Hz) as (a & v & Ha & Ea)%loaded_iff. apply loaded_iff. exists a, v. rewrite H3; [done|].
    intros ->. simplify_eq.
Qed.
End names.

(** Why a name cannot be linked. *)
Definition link_error (root : Z) (s : sfs) (D : gmap (list Z) Z) (name : list Z) (e : errno) : Prop :=
  e = EEXIST ∧ is_Some (D !! name) ∨
  D !! name = None ∧ (e = ENAMETOOLONG ∧ (60 ≤ length name)%nat ∨ e = EFBIG ∧ size_of s root = maxsize ∨ e = ENOSPC).

(** All vnodes but the directory's are as they were. *)
Definition same_vnodes (root : Z) (s s' : sfs) : Prop := ∀ q, q ≠ root → vnodes s' !! q = vnodes s !! q.

(** A link that failed. *)
Lemma tree_link_failed root s F D name j e slot s1 : fs_tree root s F D → linked root D name j s (Some e, slot) s1 →
  link_error root s D name e ∧ vstep ref0 s s1 ∧
  ∃ F1, fs_tree root s1 F1 D ∧ untouched (λ c, c = SFS_ROOT_LOCATION) s F s1 F1 ∧ same_vnodes root s s1.
Proof.
  intros Htree Hlk. assert (s1 = s ∧ link_error root s D name e ∨ e = ENOSPC ∧ D !! name = None ∧ dir_rep s1 root D ∧ dir_step root s s1) as Hc.
  { unfold linked in Hlk. simpl in Hlk. unfold link_error. destruct e; naive_solver. }
  destruct Hc as [[-> He]|(-> & HN & Hrep & Hst)]; [split; [done|]; split; [apply vstep_refl|]; by exists F|]. split; [right; auto|].
  split; [by apply (dir_step_vstep root)|]. pose proof Htree as [Hat Hl Ho].
  destruct (at_step root s F D Hat s1 D Hst Hrep) as (i1 & Ht1 & Hat1 & U1 & Hoth & Hnl).
  destruct (root_inode _ _ _ _ Hat) as (rv & Hr & Er & HFr & Htr). exists (<[SFS_ROOT_LOCATION := i1]> F).
  split_and!; [|done|done]. constructor; [done|by eapply links_dir|]. intros c i Hi Ht Hz. rewrite Hnl.
  rewrite lookup_insert_Some in Hi. destruct Hi as [[<- <-]|[_ Hi]]; [by rewrite Ht1 in Ht|by apply (Ho c i)].
Qed.

Section operations.
Context (root : Z) (s : sfs) (F : gmap Z sfs_inode) (D : gmap (list Z) Z) (name : list Z).
Hypotheses (Htree : fs_tree root s F D) (Hheap : heap_fresh s) (Hrefs : refs_ok s) (Hname : Forall (λ b, b ≠ 0) name).

Lemma tree_ino j i : F !! j = Some i → 0 < j < 4294967296.
Proof using Htree.
  intros Hj. destruct (da_vn _ _ _ _ (ft_at _ _ _ _ Htree)) as [tbl Hv]. destruct (vo_file _ _ _ Hv _ _ Hj) as (Hr & _).
  pose proof (ok_geom _ (vo_fs _ _ _ Hv)). lia.
Qed.
Lemma tree_fs : fs_ok s ∧ dir_rep s root D.
Proof using Htree. destruct Htree as [[[tbl Hv] _ Hd] _ _]. split; [apply Hv|done]. Qed.

(** The new file is put into the directory. *)
Lemma wp_creat_link s1 F1 tbl q j : vn_ok s1 tbl F1 → F1 = <[j := new_file]> F → F !! j = None → vnodes s !! q = None →
  vnodes s1 = <[q := SfsVnode new_file j true 1 0]> (vnodes s) → untouched (λ c, c = j) s F s1 F1 →
  wp ('(r, _) ← sfs_dir_link root name j;
      match r with
      | Some e => vnode_decref q;; mret (inl e)
      | None => link_inc q;; mret (inr q)
      end) (λ r s', match r with
    | inl e => link_error root s D name e ∧ vstep (λ a, - ref1 q a) s1 s' ∧
        ∃ F', fs_tree root s' F' D ∧ untouched (λ c, c = SFS_ROOT_LOCATION) s F s' F' ∧ same_vnodes root s s'
    | inr q' => q' = q ∧ D !! name = None ∧ vstep ref0 s1 s' ∧ ∃ F', fs_tree root s' F' (<[name := j]> D) ∧
        untouched (λ c, c = SFS_ROOT_LOCATION ∨ c = j) s F s' F' ∧
        F' !! j = Some (set_linkcount 1 new_file) ∧ vnodes s' !! q = Some (SfsVnode (set_linkcount 1 new_file) j true 1 0) ∧
        ∀ a, a ≠ root → a ≠ q → vnodes s' !! a = vnodes s !! a
    end) s1.
Proof using Htree Hname.
  intros Hv1 -> HNj HNq Evn U1. set (F1 := <[j := new_file]> F) in *. pose proof Htree as [Hat Hl Ho].
  destruct (root_inode _ _ _ _ Hat) as (rv & Hr & Er & HFr & Htr). assert (j ≠ SFS_ROOT_LOCATION) as Hjr by congruence. assert (q ≠ root) as Hqr by congruence.
  destruct (at_move root s F D Hat (λ c, c = j) s1 F1) as (A1 & A2 & A3); [by exists tbl|by rewrite Evn, lookup_insert_ne|done|done|].
  assert (vnodes s1 !! q = Some (SfsVnode new_file j true 1 0)) as Hq1 by by rewrite Evn, lookup_insert_eq.
  assert (fs_tree root s1 F1 D) as Ht1.
  { constructor; [done|by apply links_new|]. intros c i Hi Ht Hz. apply loaded_iff. destruct (decide (c = j)) as [->|Hc].
    - exists q. eexists. done.
    - unfold F1 in Hi. rewrite lookup_insert_ne in Hi by done. pose proof (Ho c i Hi Ht Hz) as (a & v & Ha & Ea)%loaded_iff.
      exists a, v. rewrite Evn, lookup_insert_ne by congruence. done. }
  destruct (held root s1 F1 D q _ Ht1 Hq1 eq_refl) as (HF1 & _). simpl in HF1.
  assert (0 < j < 4294967296) as Hj.
  { destruct (vo_file _ _ _ Hv1 _ _ HF1) as (Hr' & _). pose proof (ok_geom _ (vo_fs _ _ _ Hv1)). lia. }
  apply wp_bind_2. eapply wp_mono; [apply (wp_dir_link s1 root D name j); [apply Hv1|apply A1|done|done]|]. intros [[e|] slot] s2 Hlk.
  - destruct (tree_link_failed _ _ _ _ _ _ _ _ _ Ht1 Hlk) as (He & V2 & F2 & Ht2 & U2 & Hsv). apply wp_bind_2.
    assert (vnodes s2 !! q = Some (SfsVnode new_file j true 1 0)) as Hq2 by by rewrite Hsv.
    destruct (held root s2 F2 D q _ Ht2 Hq2 eq_refl) as (HF2 & _ & _ & Hn & _). simpl in HF2, Hn.
    eapply wp_mono; [by apply (wp_tree_decref root s2 F2 D q _ Ht2 Hq2 eq_refl)|].
    intros [] s3 (Hpb & V3 & Ht3 & U3 & Hoth). simpl in Ht3, U3. rewrite <-Hn in Ht3, U3. simpl in Ht3, U3. wp_steps.
    split; [unfold link_error in *; by rewrite A2 in He|]. split; [eapply vstep_trans; [exact V2|exact V3|intros a; by eapply vstep_loaded|done]|].
    exists (delete j F2). split_and!; [done| |].
    + assert (untouched (λ c, c = SFS_ROOT_LOCATION ∨ c = j) s F s3 (delete j F2)) as U.
      { eapply untouched_mono; [|exact (untouched_or _ _ _ _ _ _ _ _ U1 (untouched_or _ _ _ _ _ _ _ _ U2 U3))]. simpl. tauto. }
      intros c Hc. destruct (decide (c = j)) as [->|Hcj]; [rewrite lookup_delete_eq; split; congruence|]. apply U. tauto.
    + intros a Ha. destruct (decide (a = q)) as [->|Haq].
      * unfold put_back in Hpb. simpl in Hpb. destruct Hpb as (-> & _). by rewrite lookup_delete_eq.
      * rewrite Hoth, Hsv, Evn, lookup_insert_ne by done. done.
  - apply wp_bind_2. eapply wp_mono; [by apply (wp_tree_link root s1 F1 D q _ Ht1 Hq1 eq_refl name slot s2)|].
    intros [] s3 (F3 & Ht3 & V3 & U3 & HF3 & _ & Hq3 & Hoth & _). simpl in Ht3, U3, HF3, Hq3. wp_steps. split; [done|]. split; [by apply Hlk|].
    split; [done|].
    exists F3. split_and!; try done.
    + eapply untouched_mono; [|exact (untouched_or _ _ _ _ _ _ _ _ U1 U3)]. simpl. tauto.
    + intros a Ha Haq. rewrite Hoth, Evn, lookup_insert_ne by done. done.
Qed.

Lemma wp_creat excl : wp (sfs_creat root name excl) (λ r s', match r with
    | inl e => vstep ref0 s s' ∧ (∃ F', fs_tree root s' F' D ∧ untouched (λ c, c = SFS_ROOT_LOCATION) s F s' F' ∧ same_vnodes root s s') ∧
        (link_error root s D name e ∧ (e = EEXIST → excl = true) ∨ e = ENOMEM)
    | inr q => vstep (ref1 q) s s' ∧ match D !! name with
      | Some j => excl = false ∧ ∃ i, F !! j = Some i ∧ got j i s q s' ∧ fs_tree root s' F D ∧ same_store s s'
      | None => ∃ j F', used s j = false ∧ F !! j = None ∧ vnodes s !! q = None ∧ fs_tree root s' F' (<[name := j]> D) ∧
          untouched (λ c, c = SFS_ROOT_LOCATION ∨ c = j) s F s' F' ∧ F' !! j = Some (set_linkcount 1 new_file) ∧
          vnodes s' !! q = Some (SfsVnode (set_linkcount 1 new_file) j true 1 0)
      end
    end) s.
Proof using All.
  destruct tree_fs as [Hok Hrep]. unfold sfs_creat. apply wp_bind_2. eapply wp_mono; [apply wp_findname; [done|apply Hrep]|].
  intros r s0 [-> (found & empty & [Hf _] & ->)]. destruct found as [[j k]|].
  - destruct Hf as (Hk & Hus & Hn & Ei). pose proof (rep_found _ _ _ _ _ _ Hrep Hk Hus Hn Ei) as HD. destruct excl.
    { wp_steps. split; [apply vstep_refl|]. split; [by exists F|]. left. split; [left; eauto|done]. }
    destruct (proj1 (ft_links _ _ _ _ Htree) _ _ HD) as (i & Hi & Ht). eapply wp_mono; [by eapply wp_load_named|].
    intros [e|q] s' (Hss & Hhs & Ht' & _ & _ & Hr).
    + destruct Hr as (-> & _ & Evn). split; [by apply vstep_vnodes|]. split; [|by right]. exists F. split_and!; [done|by apply same_store_untouched|]. intros q _. by rewrite Evn.
    + rewrite HD. destruct Hr as [Hg _]. split; [by apply (got_vstep j i)|]. split; [done|]. by exists i.
  - pose proof (rep_not_found _ _ _ _ Hrep Hf) as HN. rewrite bool_decide_eq_false_2 by naive_solver. pose proof Htree as [Hat Hl Ho].
    destruct (da_vn _ _ _ _ Hat) as [tbl Hv]. apply wp_bind_2. eapply wp_mono; [by apply (wp_makeobj s tbl F Hv)|].
    intros [e|q] s1 (Em & Enb & Hhs & Hr).
    + destruct Hr as (He & Evn & Hv1 & U1). wp_steps. split; [by apply vstep_vnodes|].
      destruct (at_move root s F D Hat (λ _, False) s1 F) as (A1 & _); [by exists tbl|by rewrite Evn|done|by intros []|]. split.
      * exists F. split_and!; [|eapply untouched_mono; [|exact U1]; naive_solver|intros q _; by rewrite Evn]. constructor; [done|done|].
        intros c i Hi Ht Hz. unfold not_loaded. rewrite Evn. by apply (Ho c i).
      * destruct He as [[-> _]| ->]; [left|by right]. split; [|done]. right. auto.
    + destruct Hr as (j & Hj & Hfree & HNj & HNq & Evn & Hv1 & U1). apply wp_bind_2. eapply wp_get_sv; [by rewrite Evn, lookup_insert_eq|].
      assert (vstep (ref1 q) s s1) as V1. { apply (got_vstep j new_file); [|done]. eexists. split; [done|]. rewrite HNq. split_and!; try done.
        intros a v Ha E. destruct (vo_vn _ _ _ Hv _ _ Ha). congruence. }
      simpl sv_ino. eapply wp_mono; [exact (wp_creat_link s1 _ (tbl ++ [q]) q j Hv1 eq_refl HNj HNq Evn U1)|]. intros [e|q'] s'.
      * intros (He & V2 & HF'). split.
        { eapply vstep_trans; [exact V1|exact V2|intros a; eapply vstep_loaded; [done..|]; unfold ref1; by case_decide|]. intros a. unfold ref0. lia. }
        split; [done|]. left. split; [done|]. intros ->. destruct He as [[_ He]|[_ He]]; [by rewrite HN in He; destruct He|naive_solver].
      * intros (-> & _ & V2 & F' & H1 & H2 & H3 & H4 & _). split.
        { eapply vstep_trans; [exact V1|exact V2|intros a; eapply vstep_loaded; [done..|]; unfold ref1; by case_decide|]. intros a. unfold ref0. lia. }
        rewrite HN. exists j, F'. by split_and!.
Qed.

Lemma wp_link f sv : vnodes s !! f = Some sv → sfi_type (sv_i sv) = SFS_TYPE_FILE →
  wp (sfs_link root name f) (λ r s', match r with
    | Some e => link_error root s D name e ∧ vstep ref0 s s' ∧
        ∃ F', fs_tree root s' F' D ∧ untouched (λ c, c = SFS_ROOT_LOCATION) s F s' F' ∧ same_vnodes root s s'
    | None => D !! name = None ∧ vstep ref0 s s' ∧ ∃ F', fs_tree root s' F' (<[name := sv_ino sv]> D) ∧
        untouched (λ c, c = SFS_ROOT_LOCATION ∨ c = sv_ino sv) s F s' F' ∧ same_file (s_disk s) (s_disk s') (sv_i sv) ∧
        F' !! sv_ino sv = Some (set_linkcount (sfi_linkcount (sv_i sv) + 1) (sv_i sv))
    end) s.
Proof using Htree Hname.
  intros Hf Ht. destruct tree_fs as [Hok Hrep]. destruct (held root s F D f sv Htree Hf Ht) as (HF & _).
  unfold sfs_link. apply wp_bind_2. eapply wp_get_sv; [done|]. apply wp_bind_2.
  eapply wp_mono; [apply (wp_dir_link s root D name (sv_ino sv)); [done|done|done|by eapply tree_ino]|]. intros [[e|] slot] s1 Hlk.
  - wp_steps. by apply (tree_link_failed _ _ _ _ _ _ _ _ _ Htree Hlk).
  - apply wp_bind_2. eapply wp_mono; [by apply (wp_tree_link root s F D f sv Htree Hf Ht name slot s1)|].
    intros [] s2 (F2 & H1 & HV & H2 & H3 & H4 & _). wp_steps. split; [apply Hlk|]. split; [done|]. by exists F2.
Qed.

(** The vnode of a looked up file: one of a file not loaded before has one reference. *)
Lemma got_vnode j i q s1 : got j i s q s1 → ∃ sv, vnodes s1 !! q = Some sv ∧ sv_ino sv = j ∧ sv_i sv = i ∧
  (vn_refcount sv = 1 → vn_opencount sv = 0) ∧ (vn_refcount sv = 1 ↔ not_loaded s j).
Proof using Htree.
  intros (sv & E & E1 & E2 & Hm). exists sv. rewrite E, lookup_insert_eq. split_and!; try done.
  - destruct (vnodes s !! q) as [v|] eqn:Hq; [|naive_solver]. subst sv. simpl.
    destruct (da_vn _ _ _ _ (ft_at _ _ _ _ Htree)) as [tbl Hv]. destruct (vo_vn _ _ _ Hv _ _ Hq). lia.
  - destruct (vnodes s !! q) as [v|] eqn:Hq; [|naive_solver]. subst sv. simpl in *.
    destruct (da_vn _ _ _ _ (ft_at _ _ _ _ Htree)) as [tbl Hv]. destruct (vo_vn _ _ _ Hv _ _ Hq). split; [lia|].
    intros Hn. by destruct (Hn _ _ Hq).
Qed.

Lemma wp_remove : wp (sfs_remove root name) (λ r s', vstep ref0 s s' ∧ match r with
    | Some e => e = ENOENT ∧ D !! name = None ∧ s' = s ∨
        e = ENOMEM ∧ is_Some (D !! name) ∧ fs_tree root s' F D ∧ same_store s s' ∧ vnodes s' = vnodes s
    | None => ∃ j i F', D !! name = Some j ∧ F !! j = Some i ∧ fs_tree root s' F' (delete name D) ∧
        untouched (λ c, c = SFS_ROOT_LOCATION ∨ c = j) s F s' F' ∧
        (nlinks D j = 1 → not_loaded s j → F' !! j = None ∧ used s' j = false ∧
          ∀ k, slot_of (s_disk s) i k ≠ 0 → used s' (slot_of (s_disk s) i k) = false) ∧
        (1 < nlinks D j ∨ ¬ not_loaded s j → F' !! j = Some (set_linkcount (sfi_linkcount i - 1) i) ∧
          same_file (s_disk s) (s_disk s') i)
    end) s.
Proof using All.
  unfold sfs_remove. apply wp_bind_2. eapply wp_mono; [by apply (wp_lookonce root s F D)|].
  intros [e|[q sl]] s1 (Hss & Hhs & Ht1 & Hr).
  { wp_steps. destruct Hr as [(-> & HN & ->)|(-> & Evn & j & HD & _)]; [split; [apply vstep_refl|by left]|].
    split; [by apply vstep_vnodes|]. right. by split_and!. }
  destruct Hr as (j & i & HD & Hj & Hti & Hg & Hqr & Hsl & Hus & Hnm).
  destruct (got_vnode j i q s1 Hg) as (sv & Hq1 & Esv & Ei & Hop & Hone).
  pose proof Ht1 as [Hat1 Hl1 Ho1]. destruct (da_vn _ _ _ _ Hat1) as [tbl1 Hv1]. assert (sfi_type (sv_i sv) = SFS_TYPE_FILE) as Hft by congruence.
  apply wp_bind_2. eapply wp_mono; [apply (wp_dir_unlink s1 root D sl); [apply Hv1|apply Hat1|done|done]|].
  intros r s2 (-> & Hst & Hrep2). rewrite Hnm in Hrep2. rewrite bool_decide_eq_true_2 by done. apply wp_bind_2.
  rewrite <-Esv in HD. eapply wp_mono; [by apply (wp_tree_unlink root s1 F D q sv Ht1 Hq1 Hft name s2)|].
  intros [] s3 (F3 & Ht3 & V3 & U3 & HF3 & Hsf & Hq3 & Hoth & Hnl). rewrite Esv, Ei in *.
  pose proof (same_store_untouched (λ _, False) s s1 F Hss) as U1. destruct Hss as (_ & Ed1 & _ & Enb & _). rewrite Ed1 in Hsf.
  set (sv3 := upd_inode _ sv) in Hq3. apply wp_bind_2.
  eapply wp_mono; [by apply (wp_tree_decref root s3 F3 (delete name D) q sv3 Ht3 Hq3)|].
  intros [] s4 (Hpb & V4 & Ht4 & U4 & Hoth4). simpl sv_ino in *. rewrite Esv in *. simpl in Ht4, U4. wp_steps.
  split; [exact (vstep_borrow _ _ _ _ _ _ _ _ _ _ (da_vn _ _ _ _ (ft_at _ _ _ _ Htree)) Hv1 Hg Hhs V3 V4)|].
  pose proof (nlinks_delete D name j j HD) as Hnd. rewrite decide_True in Hnd by done. pose proof (nlinks_pos D name j HD).
  assert (sfi_linkcount i = nlinks D j) as Hlc by (by apply (ft_links _ _ _ _ Htree)).
  exists j, i. eexists. split_and!; [done|done|exact Ht4| | |].
  - eapply untouched_mono; [|exact (untouched_or _ _ _ _ _ _ _ _ U1 (untouched_or _ _ _ _ _ _ _ _ U3 U4))]. simpl. tauto.
  - intros E1 Hnot. apply Hone in Hnot as Er. rewrite Er in *. replace (nlinks (delete name D) j) with 0 in * by lia. simpl.
    rewrite lookup_delete_eq. split; [done|]. unfold put_back in Hpb. simpl in Hpb. rewrite Er, Hlc in Hpb. simpl in Hpb.
    replace (nlinks D j - 1) with 0 in Hpb by lia. simpl in Hpb. rewrite Esv in Hpb. destruct Hpb as (_ & _ & _ & Hfree).
    destruct (da_vn _ _ _ _ (ft_at _ _ _ _ Ht3)) as [tbl3 Hv3].
    assert (∀ c, 0 < c < sp_nblocks s3 → c = j ∨ (∃ k, slot s3 q k = c) → used s4 c = false) as Hf.
    { intros c Hc Hor. destruct (used s4 c) eqn:U; [|done]. apply Hfree in U as (_ & N1 & N2); [|done]. destruct Hor as [?|[k ?]]; [done|by destruct (N2 k)]. }
    split; [apply Hf; [|by left]; by apply (vo_file _ _ _ Hv3 _ _ HF3)|]. intros k Hk.
    assert (slot s3 q k = slot_of (s_disk s) i k) as Es by (rewrite (slot_eq _ _ _ _ Hq3); apply Hsf).
    rewrite <-Es in *. apply Hf; [|by right; exists k]. by apply (ok_slot _ (vo_fs _ _ _ Hv3)).
  - intros Hor. destruct ((vn_refcount sv =? 1) && (nlinks (delete name D) j =? 0)) eqn:Eb.
    { zbool. exfalso. destruct Hor as [?|Hor]; [lia|]. apply Hor. by apply Hone. }
    split; [done|]. assert (same_file (s_disk s3) (s_disk s4) (set_linkcount (sfi_linkcount i - 1) i)) as Hs4.
    { apply (U4 j); [|done]. intros (_ & E1 & E2). rewrite E1, E2 in Eb. done. }
    destruct Hsf as [S1 S2], Hs4 as [S3 S4]. split; [intros k; etrans; [exact (S3 k)|exact (S1 k)]|intros o; etrans; [exact (S4 o)|exact (S2 o)]].
Qed.
End operations.

Lemma wp_rename root s F D n1 n2 : fs_tree root s F D → heap_fresh s → refs_ok s → Forall (λ b, b ≠ 0) n1 → Forall (λ b, b ≠ 0) n2 →
  wp (sfs_rename root n1 root n2) (λ r s', vstep ref0 s s' ∧ match r with
    | Some e => (e = ENOENT ∧ D !! n1 = None ∨ e = ENOMEM ∨ is_Some (D !! n1) ∧ link_error root s D n2 e) ∧
        ∃ F', fs_tree root s' F' D ∧ untouched (λ c, c = SFS_ROOT_LOCATION) s F s' F'
    | None => ∃ j i F', D !! n1 = Some j ∧ D !! n2 = None ∧ F !! j = Some i ∧ fs_tree root s' F' (<[n2 := j]> (delete n1 D)) ∧
        untouched (λ c, c = SFS_ROOT_LOCATION ∨ c = j) s F s' F' ∧ F' !! j = Some i ∧ same_file (s_disk s) (s_disk s') i
    end) s.
Proof.
  intros Htree Hheap Hrefs H1 H2. destruct (root_inode _ _ _ _ (ft_at _ _ _ _ Htree)) as (rv & Hr & Er & _).
  unfold sfs_rename. apply wp_bind_2. eapply wp_get_sv; [done|]. rewrite Er. apply wp_bind_2, wp_kassert; [blia|].
  apply wp_bind_2, wp_kassert; [done|]. apply wp_bind_2. eapply wp_mono; [by apply (wp_lookonce root s F D)|].
  intros [e|[q sl]] s1 (Hss & Hhs & Ht1 & Hres).
  { wp_steps. split; [destruct Hres as [(_ & _ & ->)|(_ & Evn & _)]; [apply vstep_refl|by apply vstep_vnodes]|]. split; [naive_solver|]. exists F. split; [done|]. by apply same_store_untouched. }
  destruct Hres as (j & i & HD & Hj & Hti & Hg & Hqr & Hsl & Hus & Hnm).
  destruct (got_vnode root s F D Htree j i q s1 Hg) as (sv & Hq1 & Esv & Ei & Hop & Hone).
  pose proof (same_store_untouched (λ _, False) s s1 F Hss) as U1. destruct Hss as (_ & Ed1 & _).
  pose proof Ht1 as [Hat1 Hl1 Ho1]. destruct (da_vn _ _ _ _ Hat1) as [tbl1 Hv1]. assert (sfi_type (sv_i sv) = SFS_TYPE_FILE) as Hft by congruence.
  pose proof (nlinks_pos D n1 j HD) as Hnp. assert (sfi_linkcount i = nlinks D j) as Hlc by (by apply Hl1).
  apply wp_bind_2. eapply wp_get_sv; [done|]. rewrite Hft. apply wp_bind_2, wp_kassert; [done|]. rewrite Esv.
  destruct (vo_file _ _ _ Hv1 _ _ Hj) as (Hjr & _). pose proof (ok_geom _ (vo_fs _ _ _ Hv1)).
  apply wp_bind_2. eapply wp_mono; [apply (wp_dir_link s1 root D n2 j); [apply Hv1|apply Hat1|done|lia]|]. intros [[e|] sl2] s2 Hlk.
  - destruct (tree_link_failed _ _ _ _ _ _ _ _ _ Ht1 Hlk) as (He & V2 & F2 & Ht2 & U2 & Hsv). apply wp_bind_2.
    assert (vnodes s2 !! q = Some sv) as Hq2 by by rewrite Hsv.
    eapply wp_mono; [by apply (wp_tree_decref root s2 F2 D q sv Ht2 Hq2 Hft)|]. intros [] s3 (_ & V3 & Ht3 & U3 & _). wp_steps.
    split; [exact (vstep_borrow _ _ _ _ _ _ _ _ _ _ (da_vn _ _ _ _ (ft_at _ _ _ _ Htree)) Hv1 Hg Hhs V2 V3)|]. split.
    + right. right. split; [done|]. unfold link_error in *. replace (size_of s root) with (size_of s1 root); [done|].
      destruct (got_others _ _ _ _ _ _ _ Hg Hr) as (rv' & Hr' & _ & Ei' & _). unfold size_of, inode_of. rewrite Hr, Hr'. simpl. by rewrite Ei'.
    + rewrite Esv in *. rewrite (proj2 (Z.eqb_neq _ 0)), andb_false_r in Ht3, U3 by lia. exists F2. split; [done|].
      eapply untouched_mono; [|exact (untouched_or _ _ _ _ _ _ _ _ U1 (untouched_or _ _ _ _ _ _ _ _ U2 U3))]. simpl. intros c [[]|[?|(_ & _ & ?)]]; [done|lia].
  - rewrite <-Esv in Hlk. apply wp_bind_2. eapply wp_mono; [by apply (wp_tree_link root s1 F D q sv Ht1 Hq1 Hft n2 sl2 s2)|].
    intros [] s3 (F3 & Ht3 & V3 & U3 & HF3 & Hsf3 & Hq3 & _ & _ & Esz3 & Hde3 & _). rewrite Esv, Ei in *.
    destruct Hlk as (HN2 & _ & _ & _ & _ & _ & _ & Hsame & Hgrow & Hfree). cbn [fst snd] in Hsame, Hfree.
    assert (sl ≠ sl2) as Hne by (intros <-; apply Hfree; [lia|done]).
    assert (dirent s3 root sl = dirent s1 root sl) as Ede by (rewrite Hde3; apply Hsame; [lia|done]).
    destruct (da_vn _ _ _ _ (ft_at _ _ _ _ Ht3)) as [tbl3 Hv3].
    apply wp_bind_2. eapply wp_mono; [apply (wp_dir_unlink s3 root (<[n2 := j]> D) sl); [apply Hv3|apply Ht3|rewrite Esz3; lia|by rewrite Ede]|].
    intros r s4 (-> & Hst & Hrep4). rewrite Ede, Hnm in Hrep4. assert (n1 ≠ n2) as Hnn by congruence.
    set (sv3 := upd_inode _ sv) in Hq3. apply wp_bind_2.
    eapply wp_mono; [apply (wp_tree_unlink root s3 F3 (<[n2 := j]> D) q sv3 Ht3 Hq3 Hti n1 s4); [|done|done]|].
    { rewrite lookup_insert_ne by done. simpl. by rewrite Esv. }
    intros [] s5 (F5 & Ht5 & V5 & U5 & HF5 & Hsf5 & Hq5 & _ & _). simpl in HF5, U5. rewrite Esv in *.
    assert (∀ n, n = sfi_linkcount i → set_linkcount n (set_linkcount (sfi_linkcount i + 1) i) = i) as Hset by (intros n ->; by destruct i).
    rewrite Hset in HF5 by lia. rewrite Hset in Hq5 by (simpl; lia).
    apply wp_bind_2. eapply wp_mono; [by apply (wp_tree_decref root s5 F5 _ q _ Ht5 Hq5)|]. intros [] s6 (_ & V6 & Ht6 & U6 & _).
    simpl in Ht6, U6. rewrite Esv in *. pose proof (nlinks_delete (<[n2 := j]> D) n1 j j ltac:(by rewrite lookup_insert_ne)) as Hn5.
    rewrite decide_True, nlinks_insert, decide_True in Hn5 by done. rewrite (proj2 (Z.eqb_neq _ 0)), andb_false_r in Ht6, U6 by lia. wp_steps.
    assert (vstep ref0 s1 s5) as V15 by (eapply vstep_trans; [exact V3|exact V5|intros a; by eapply vstep_loaded|done]).
    split; [exact (vstep_borrow _ _ _ _ _ _ _ _ _ _ (da_vn _ _ _ _ (ft_at _ _ _ _ Htree)) Hv1 Hg Hhs V15 V6)|].
    exists j, i, F5. rewrite <-delete_insert_ne by done. split_and!; try done.
    + eapply untouched_mono; [|exact (untouched_or _ _ _ _ _ _ _ _ U1 (untouched_or _ _ _ _ _ _ _ _ U3 (untouched_or _ _ _ _ _ _ _ _ U5 U6)))]. simpl. tauto.
    + assert (same_file (s_disk s5) (s_disk s6) i) as [S5 O5] by (apply (U6 j); [lia|done]).
      destruct Hsf3 as [S1 O1], Hsf5 as [S3 O3]. rewrite Ed1 in *.
      split; [intros k; rewrite S5; etrans; [exact (S3 k)|exact (S1 k)]|intros o; rewrite O5; etrans; [exact (O3 o)|exact (O1 o)]].
Qed.

(** * A small file system *)
(** A root directory with one file [a], whose vnode is not loaded. *)
Module TreeDemo.
Definition one_block (size type b : Z) : sfs_inode := Inode size type 1 (b :: replicate 14 0) 0 (replicate 440 0).
Definition root_inode : sfs_inode := one_block 64 SFS_TYPE_DIR 5.
Definition a_inode : sfs_inode := one_block 3 SFS_TYPE_FILE 4.
Definition disk : Z → Z :=
  kput (kput (kput (λ _, 7) 0 (word_bytes 0xabadf001 ++ word_bytes 64 ++ replicate 504 0)) (3 * 512) (inode_bytes a_inode))
    (5 * 512) (word_bytes 3 ++ [97] ++ replicate 507 0).
Definition root_vn : sfs_vnode := SfsVnode root_inode 1 true 1 0.
Definition fs : sfs := Sfs (XMem (λ _, 0) demo_um 7) disk [] 64 64 (Bitmap 4096 (63 :: replicate 7 0 ++ replicate 504 255)) true {[ 2000 := root_vn ]}
  (Array [Some 2000; None; None; None] 1 4) [Some 3000; Some 4000; Some 5000].
Definition files : gmap Z sfs_inode := <[1 := root_inode]> {[ 3 := a_inode ]}.
Definition names : gmap (list Z) Z := {[ [97] := 3 ]}.

Lemma one_slot d size type b k : slot_of d (one_block size type b) k = if decide (k = 0) then b else 0.
Proof.
  unfold slot_of, one_block. simpl. destruct (Z.eqb_spec k (-1)); [by rewrite decide_False by lia|].
  rewrite andb_false_r. destruct (Z.ltb_spec k 15); [|by rewrite decide_False by lia].
  unfold zget. destruct (Z.leb_spec 0 k); [|by rewrite decide_False by lia].
  destruct (decide (k = 0)) as [->|Hk]; [done|]. replace (Z.to_nat k) with (S (Z.to_nat (k - 1))) by lia. simpl.
  by rewrite lookup_replicate_2 by lia.
Qed.
Lemma files_slot j k : fsl disk files j k = if decide (k = 0) then (if decide (j = 1) then 5 else if decide (j = 3) then 4 else 0) else 0.
Proof.
  unfold fsl, files. destruct (decide (j = 1)) as [->|]; [rewrite lookup_insert_eq; apply one_slot|].
  rewrite lookup_insert_ne by done. destruct (decide (j = 3)) as [->|]; [rewrite lookup_singleton_eq; apply one_slot|].
  rewrite lookup_singleton_ne by done. by case_decide.
Qed.
Lemma files_lookup j i : files !! j = Some i ↔ j = 1 ∧ i = root_inode ∨ j = 3 ∧ i = a_inode.
Proof. unfold files. rewrite lookup_insert_Some, lookup_singleton_Some. naive_solver. Qed.
Lemma loaded p sv : vnodes fs !! p = Some sv ↔ p = 2000 ∧ sv = root_vn.
Proof. change (vnodes fs) with ({[2000 := root_vn]} : gmap Z sfs_vnode). rewrite lookup_singleton_Some. naive_solver. Qed.
Lemma one_wf size type b : 0 ≤ size < 4294967296 → 0 ≤ type < 65536 → 0 ≤ b < 4294967296 → inode_wf (one_block size type b).
Proof.
  intros Hs Ht Hb. constructor; simpl; try done; try lia. split; [done|]. constructor; [lia|]. by apply Forall_replicate.
Qed.
Lemma map_ok : bm_ok (sfs_freemap fs).
Proof.
  assert (Forall (λ w, 0 ≤ w < 256) (v (sfs_freemap fs))) as HF.
  { constructor; [lia|]. apply Forall_app. split; apply Forall_replicate; lia. }
  constructor; [simpl; lia|done| |].
  - intros i w Hi. by apply (Forall_lookup_1 _ _ _ _ HF Hi).
  - intros i Hi. change (4096 ≤ i < 4096) in Hi. lia.
Qed.

Lemma over c : 64 ≤ c < 4096 → used fs c = true.
Proof.
  intros Hc. unfold used, bit. change (v (sfs_freemap fs)) with ([63; 0; 0; 0; 0; 0; 0; 0] ++ replicate 504 255).
  pose proof (Z.mod_pos_bound c 8 ltac:(lia)). pose proof (Z.div_mod c 8 ltac:(lia)).
  unfold zget. rewrite (proj2 (Z.leb_le 0 (c / 8))) by lia. rewrite lookup_app_r by (simpl; lia).
  rewrite lookup_replicate_2 by (simpl; lia). simpl. change 255 with (Z.ones 8). by apply Z.ones_spec_low.
Qed.
Lemma vn : vn_ok fs [2000] files.
Proof.
  apply vn_intro.
  - unfold geom_ok. split_and!; try done; [apply map_ok|apply over].
  - split_and!; [by constructor|by apply NoDup_singleton|]. intros p. rewrite list_elem_of_singleton. split.
    + intros ->. by eexists.
    + intros [v [-> _]%loaded]. done.
  - intros p sv [-> ->]%loaded. done.
  - intros p q sv sv' [-> ->]%loaded [-> ->]%loaded. done.
  - intros j i [[-> ->]|[-> ->]]%files_lookup; [right; by exists 2000, root_vn|]. left. by vm_compute.
  - intros j i [[-> ->]|[-> ->]]%files_lookup; (split; [simpl; lia|]); (split; [done|]); (split; [by apply one_wf|]); [by right|by left].
  - intros j k. change (s_disk fs) with disk. rewrite files_slot. repeat case_decide; intros Hne; try done; (split; [simpl; lia|]); by split.
  - intros j k j' k'. change (s_disk fs) with disk. rewrite !files_slot. repeat case_decide; intros; subst; done || lia.
Qed.
Lemma entry : dirent fs 2000 0 = word_bytes 3 ++ [97] ++ replicate 59 0.
Proof. by vm_compute. Qed.
Lemma names_rep : dir_rep fs 2000 names.
Proof.
  split; [constructor|].
  - by exists root_vn.
  - done.
  - intros i j Hi Hj _ _ _. change (size_of fs 2000 / 64) with 1 in *. lia.
  - intros name ino. unfold names. rewrite lookup_singleton_Some. change (size_of fs 2000 / 64) with 1. split.
    + intros [<- <-]. exists 0. rewrite entry. split; [lia|]. by vm_compute.
    + intros (i & Hi & _ & Hn & Hino). assert (i = 0) as -> by lia. rewrite entry in *. by rewrite <-Hn, <-Hino.
Qed.
Lemma tree : fs_tree 2000 fs files names.
Proof.
  constructor; [constructor; [exists [2000]; exact vn|by exists root_vn|exact names_rep]|split|].
  - unfold names. intros name j [<- <-]%lookup_singleton_Some. exists a_inode. by split.
  - intros j i [[-> ->]|[-> ->]]%files_lookup Ht; [done|]. by vm_compute.
  - intros j i [[-> ->]|[-> ->]]%files_lookup Ht Hz; done.
Qed.
Lemma fresh : heap_fresh fs.
Proof. intros a h [= <- <-]. done. Qed.
Lemma refs : refs_ok fs.
Proof. intros p sv [-> ->]%loaded. simpl. lia. Qed.
Lemma unloaded_a : not_loaded fs 3.
Proof. intros p sv [-> ->]%loaded. done. Qed.
End TreeDemo.

(** * The theorems *)
(** C9: Creating a file. [sfs_creat] returns; for a name the directory has, it hands
    out the one vnode of the file with one more reference (or says [EEXIST], if the
    creation is to be exclusive); for a new name it takes a free block for the
    inode and adds exactly this name, leading to a new empty file with one link and
    one reference. On an error ([ENAMETOOLONG], [EFBIG], [ENOSPC], [ENOMEM]) the
    names are as before and every vnode but the directory's is. No other reference
    count changes, all other files keep their blocks and contents, and the file
    system stays consistent. *)
Theorem sfs_creat_adds_file root s F D name excl : fs_tree root s F D → heap_fresh s → refs_ok s → Forall (λ b, b ≠ 0) name →
  ∃ r s', sfs_creat root name excl s = Ok (r, s') ∧ match r with
  | inl e => vstep ref0 s s' ∧ (∃ F', fs_tree root s' F' D ∧ untouched (λ c, c = SFS_ROOT_LOCATION) s F s' F' ∧ same_vnodes root s s') ∧
      (link_error root s D name e ∧ (e = EEXIST → excl = true) ∨ e = ENOMEM)
  | inr q => vstep (ref1 q) s s' ∧ match D !! name with
    | Some j => excl = false ∧ ∃ i, F !! j = Some i ∧ got j i s q s' ∧ fs_tree root s' F D ∧ same_store s s'
    | None => ∃ j F', used s j = false ∧ F !! j = None ∧ vnodes s !! q = None ∧ fs_tree root s' F' (<[name := j]> D) ∧
        untouched (λ c, c = SFS_ROOT_LOCATION ∨ c = j) s F s' F' ∧ F' !! j = Some (set_linkcount 1 new_file) ∧
        vnodes s' !! q = Some (SfsVnode (set_linkcount 1 new_file) j true 1 0)
    end
  end.
Proof.
  intros H1 H2 H3 H4. pose proof (wp_creat root s F D name H1 H2 H3 H4 excl) as (r & s' & E & H)%wp_exists. by exists r, s'.
Qed.
Lemma sfs_creat_adds_file_witness : ∃ q s', sfs_creat 2000 [98] false TreeDemo.fs = Ok (inr q, s') ∧
  ∃ j F', fs_tree 2000 s' F' (<[[98] := j]> TreeDemo.names).
Proof.
  destruct (sfs_creat_adds_file 2000 TreeDemo.fs TreeDemo.files TreeDemo.names [98] false TreeDemo.tree TreeDemo.fresh TreeDemo.refs)
    as (r & s' & E & H).
  { repeat constructor; lia. }
  assert (∃ q, r = inr q) as [q ->]. { assert (is_ok : match sfs_creat 2000 [98] false TreeDemo.fs with Ok (inr _, _) => True | _ => False end) by by vm_compute.
    rewrite E in is_ok. clear E H. destruct r as [?|q]; [destruct is_ok|by exists q]. }
  exists q, s'. split; [exact E|]. clear E. destruct H as (_ & j & F' & _ & _ & _ & H & _). by exists j, F'.
Defined.

(** C10: Removing a name. [sfs_remove] returns; a name the directory has is taken
    out, and nothing else. The last name of a file that is not in memory takes the
    file along: its inode block and all its blocks, the indirect block included,
    become free. A file with other names, or one in memory, keeps its blocks and
    contents and has one link less. Without the name, [ENOENT] and nothing
    changes; [ENOMEM] leaves files, names and disk as they were. Reference counts
    are as before in all cases. *)
Theorem sfs_remove_frees_file root s F D name : fs_tree root s F D → heap_fresh s → refs_ok s → Forall (λ b, b ≠ 0) name →
  ∃ r s', sfs_remove root name s = Ok (r, s') ∧ vstep ref0 s s' ∧ match r with
  | Some e => e = ENOENT ∧ D !! name = None ∧ s' = s ∨
      e = ENOMEM ∧ is_Some (D !! name) ∧ fs_tree root s' F D ∧ same_store s s' ∧ vnodes s' = vnodes s
  | None => ∃ j i F', D !! name = Some j ∧ F !! j = Some i ∧ fs_tree root s' F' (delete name D) ∧
      untouched (λ c, c = SFS_ROOT_LOCATION ∨ c = j) s F s' F' ∧
      (nlinks D j = 1 → not_loaded s j → F' !! j = None ∧ used s' j = false ∧
        ∀ k, slot_of (s_disk s) i k ≠ 0 → used s' (slot_of (s_disk s) i k) = false) ∧
      (1 < nlinks D j ∨ ¬ not_loaded s j → F' !! j = Some (set_linkcount (sfi_linkcount i - 1) i) ∧
        same_file (s_disk s) (s_disk s') i)
  end.
Proof.
  intros H1 H2 H3 H4. pose proof (wp_remove root s F D name H1 H2 H3 H4) as (r & s' & E & H)%wp_exists. by exists r, s'.
Qed.
Lemma sfs_remove_frees_file_witness : ∃ s', sfs_remove 2000 [97] TreeDemo.fs = Ok (None, s') ∧ used s' 3 = false ∧ used s' 4 = false.
Proof.
  destruct (sfs_remove_frees_file 2000 TreeDemo.fs TreeDemo.files TreeDemo.names [97] TreeDemo.tree TreeDemo.fresh TreeDemo.refs)
    as (r & s' & E & H).
  { repeat constructor; lia. }
  assert (r = None) as ->. { assert (is_ok : match sfs_remove 2000 [97] TreeDemo.fs with Ok (None, _) => True | _ => False end) by by vm_compute.
    rewrite E in is_ok. clear E H. destruct r; [destruct is_ok|reflexivity]. }
  exists s'. split; [exact E|]. clear E. destruct H as (_ & j & i & F' & HD & HF & _ & _ & Hlast & _).
  injection HD as <-. injection HF as <-. destruct Hlast as (_ & U & Hb); [by vm_compute|apply TreeDemo.unloaded_a|].
  split; [done|]. specialize (Hb 0). by apply Hb.
Defined.

(** C12: Renaming. [sfs_rename] within the directory returns; if the old name is
    there, the new one is not and can be linked, the file has the new name in place
    of the old one and is otherwise the same, inode, blocks and contents. Otherwise
    the names are as before. All other files keep their blocks and contents, and
    all vnodes their reference counts. *)
Theorem sfs_rename_moves_name root s F D n1 n2 : fs_tree root s F D → heap_fresh s → refs_ok s →
  Forall (λ b, b ≠ 0) n1 → Forall (λ b, b ≠ 0) n2 →
  ∃ r s', sfs_rename root n1 root n2 s = Ok (r, s') ∧ vstep ref0 s s' ∧ match r with
  | Some e => (e = ENOENT ∧ D !! n1 = None ∨ e = ENOMEM ∨ is_Some (D !! n1) ∧ link_error root s D n2 e) ∧
      ∃ F', fs_tree root s' F' D ∧ untouched (λ c, c = SFS_ROOT_LOCATION) s F s' F'
  | None => ∃ j i F', D !! n1 = Some j ∧ D !! n2 = None ∧ F !! j = Some i ∧ fs_tree root s' F' (<[n2 := j]> (delete n1 D)) ∧
      untouched (λ c, c = SFS_ROOT_LOCATION ∨ c = j) s F s' F' ∧ F' !! j = Some i ∧ same_file (s_disk s) (s_disk s') i
  end.
Proof.
  intros H1 H2 H3 H4 H5. pose proof (wp_rename root s F D n1 n2 H1 H2 H3 H4 H5) as (r & s' & E & H)%wp_exists. by exists r, s'.
Qed.
Lemma sfs_rename_moves_name_witness : ∃ s' F', sfs_rename 2000 [97] 2000 [98] TreeDemo.fs = Ok (None, s') ∧
  fs_tree 2000 s' F' (<[[98] := 3]> (delete [97] TreeDemo.names)).
Proof.
  destruct (sfs_rename_moves_name 2000 TreeDemo.fs TreeDemo.files TreeDemo.names [97] [98] TreeDemo.tree TreeDemo.fresh TreeDemo.refs)
    as (r & s' & E & H); [by repeat constructor; lia..|].
  assert (r = None) as ->. { assert (is_ok : match sfs_rename 2000 [97] 2000 [98] TreeDemo.fs with Ok (None, _) => True | _ => False end) by by vm_compute.
    rewrite E in is_ok. clear E H. destruct r; [destruct is_ok|reflexivity]. }
  destruct H as (_ & j & i & F' & HD & _ & _ & Ht & _). injection HD as <-. exists s', F'. split; [exact E|exact Ht].
Defined.
