(* ===== verification/SfsFs.v ===== *)
(** The simple file system as a whole: [kern/fs/sfs/sfs_fs.c]. Mounting reads the
    superblock and the free map, syncing writes what has changed, and what was
    synced is there again after the next mount.

    The superblock in memory is the list of its 512 bytes; [sp_nblocks], which the
    other files use, is its second word. Messages on the console are left out. *)

From stdpp Require Import base tactics numbers list gmap.
From S2P Require Import Prelude KernDefs CopyInOut Bitmap Uio Array Sfs SfsInv SfsMap SfsIo SfsTrunc SfsDir SfsDirSpec SfsVn SfsVnOps SfsName.
Local Open Scope Z_scope.

Definition SFS_MAGIC : Z := 0xabadf001.
Definition SFS_SB_LOCATION : Z := 0.
Definition SFS_MAP_LOCATION : Z := 2.
Definition SFS_BLOCKBITS : Z := 4096.
Definition SFS_BITMAPSIZE (nblocks : Z) : Z := u32 (u32 (nblocks + SFS_BLOCKBITS - 1) / SFS_BLOCKBITS * SFS_BLOCKBITS).
Definition SFS_BITBLOCKS (nblocks : Z) : Z := SFS_BITMAPSIZE nblocks / SFS_BLOCKBITS.

Record sfs_fs := SfsFs {
  fs_sfs : sfs;
  sfs_super : list Z;
  sfs_superdirty : bool;
}.
#[export] Instance fs_sub : Sub sfs_fs sfs.
Proof. refine {| sub_get := fs_sfs; sub_put s m := SfsFs s (sfs_super m) (sfs_superdirty m) |}; by intros []. Defined.

Definition sp_magic (super : list Z) : Z := word_at super 0.
Definition super_nblocks (super : list Z) : Z := word_at super 1.
(** The last byte of [sp_volname]. *)
Definition end_volname (super : list Z) : list Z := <[39%nat := 0]> super.

Definition set_nblocks (n : Z) (s : sfs) : sfs :=
  Sfs (s_mem s) (s_disk s) (s_hw s) (d_blocks s) n (sfs_freemap s) (sfs_freemapdirty s) (vnodes s) (sfs_vnodes s) (s_heap s).

(** ** The free map *)
(** The 512 bytes at [bitdata + j*SFS_BLOCKSIZE]. *)
Definition map_block (j : Z) (data : list Z) : list Z := take 512 (drop (Z.to_nat (512 * j)) data).
Definition set_map_block (j : Z) (buf data : list Z) : list Z :=
  take (Z.to_nat (512 * j)) data ++ buf ++ drop (Z.to_nat (512 * j + 512)) data.

Definition mapio_block (rw : uio_rw) (j : Z) : M sfs (option errno) :=
  s ← getS;
  let data := v (sfs_freemap s) in
  if Z.of_nat (length data) <? 512 * j + 512 then undef
  else
    match rw with
    | UIO_READ =>
        r ← sfs_rblock (SFS_MAP_LOCATION + j);
        match r with
        | inl e => mret (Some e)
        | inr buf =>
            modify (λ s, set_freemap (Bitmap (nbits (sfs_freemap s)) (set_map_block j buf data)) (sfs_freemapdirty s) s);;
            mret None
        end
    | UIO_WRITE => sfs_wblock (map_block j data) (SFS_MAP_LOCATION + j)
    end.
Fixpoint mapio_loop (n : nat) (j : Z) (rw : uio_rw) : M sfs (option errno) :=
  match n with
  | O => mret None
  | S n =>
      r ← mapio_block rw j;
      match r with
      | Some e => mret (Some e)
      | None => mapio_loop n (j + 1) rw
      end
  end.
Definition sfs_mapio (rw : uio_rw) : M sfs (option errno) :=
  s ← getS; mapio_loop (Z.to_nat (SFS_BITBLOCKS (sp_nblocks s))) 0 rw.

(** ** Syncing *)
(** The results of [VOP_FSYNC] are not looked at. *)
Fixpoint sync_loop (n : nat) (i : Z) : M sfs unit :=
  match n with
  | O => mret tt
  | S n => v ← zoom (array_get i); _ ← sfs_fsync v; sync_loop n (i + 1)
  end.

Definition sync_map : M sfs (option errno) :=
  s ← getS;
  if sfs_freemapdirty s then
    r ← sfs_mapio UIO_WRITE;
    match r with
    | Some e => mret (Some e)
    | None => modify (λ s, set_freemap (sfs_freemap s) false s);; mret None
    end
  else mret None.

Definition sfs_sync : M sfs_fs (option errno) :=
  num ← zoom (zoom array_num : M sfs Z);
  zoom (sync_loop (Z.to_nat num) 0);;
  r ← zoom sync_map;
  match r with
  | Some e => mret (Some e)
  | None =>
      m ← getS;
      if sfs_superdirty m then
        r ← zoom (sfs_wblock (sfs_super m) SFS_SB_LOCATION);
        match r with
        | Some e => mret (Some e)
        | None => modify (λ m, SfsFs (fs_sfs m) (sfs_super m) false);; mret None
        end
      else mret None
  end.

Definition sfs_getvolname (m : sfs_fs) : list Z := cstr (drop 8 (sfs_super m)).

Definition sfs_unmount : M sfs_fs (option errno) :=
  num ← zoom (zoom array_num : M sfs Z);
  if 0 <? num then mret (Some EBUSY)
  else
    m ← getS;
    kassert (negb (sfs_superdirty m));;
    kassert (negb (sfs_freemapdirty (fs_sfs m)));;
    zoom (zoom array_cleanup : M sfs unit);;
    mret None.

(** ** Mounting *)
(** [bitmap_create], with its two allocations. *)
Definition create_freemap (nb : Z) : M sfs (option bitmap) :=
  b ← kmalloc_sv;
  match b with
  | None => mret None
  | Some _ =>
      w ← kmalloc_sv;
      match bitmap_create true (match w with Some _ => true | None => false end) nb tt with
      | Ok (r, _) => mret r
      | Panic => panic
      | Undef => undef
      | Diverge => diverge
      end
  end.

(** From the superblock on: the superblock in memory. *)
Definition domount_load : M sfs (result (list Z)) :=
  r ← sfs_rblock SFS_SB_LOCATION;
  match r with
  | inl e => mret (inl e)
  | inr super =>
      if negb (sp_magic super =? SFS_MAGIC) then mret (inl EINVAL)
      else
        let super := end_volname super in
        modify (set_nblocks (super_nblocks super));;
        fm ← create_freemap (SFS_BITMAPSIZE (super_nblocks super));
        match fm with
        | None => mret (inl ENOMEM)
        | Some fm =>
            modify (λ s, set_freemap fm (sfs_freemapdirty s) s);;
            r ← sfs_mapio UIO_READ;
            match r with
            | Some e => mret (inl e)
            | None => modify (λ s, set_freemap (sfs_freemap s) false s);; mret (inr super)
            end
        end
  end.

Definition sfs_domount (d_blocksize : Z) : M sfs (result (list Z)) :=
  if negb (d_blocksize =? SFS_BLOCKSIZE) then mret (inl ENXIO)
  else
    a ← kmalloc_sv;
    match a with
    | None => mret (inl ENOMEM)
    | Some _ =>
        vs ← kmalloc_sv;
        match vs with
        | None => mret (inl ENOMEM)
        | Some _ => modify (set_table array_init);; domount_load
        end
    end.

(** The device alone: no file system is in memory yet, whatever the fields hold. *)
Definition device (s : sfs) (n : Z) (fm : bitmap) (dirty : bool) (arr : array) (heap : list (option Z)) : sfs :=
  Sfs (s_mem s) (s_disk s) (s_hw s) (d_blocks s) n fm dirty ∅ arr heap.

(** * Blocks of the free map *)
Lemma map_block_length j data : 0 ≤ j → 512 * j + 512 ≤ Z.of_nat (length data) → length (map_block j data) = 512%nat.
Proof. intros Hj Hl. unfold map_block. rewrite length_take, length_drop. lia. Qed.
Lemma map_block_at j k data : 0 ≤ j → (k < 512)%nat → map_block j data !! k = data !! (Z.to_nat (512 * j) + k)%nat.
Proof. intros Hj Hk. unfold map_block. by rewrite lookup_take_lt, lookup_drop. Qed.
Lemma map_blocks_eq n l l' : Z.of_nat (length l) = 512 * n → Z.of_nat (length l') = 512 * n →
  (∀ j, 0 ≤ j < n → map_block j l = map_block j l') → l = l'.
Proof.
  intros Hl Hl' H. apply list_eq. intros k. destruct (decide (Z.of_nat k < 512 * n)).
  2:{ rewrite !lookup_ge_None_2 by lia. done. }
  set (j := Z.of_nat k / 512). pose proof (Z.div_mod (Z.of_nat k) 512 ltac:(lia)) as E. fold j in E.
  pose proof (Z.mod_pos_bound (Z.of_nat k) 512 ltac:(lia)). assert (0 ≤ j < n) as Hj by lia.
  specialize (H j Hj). apply (f_equal (lookup (Z.to_nat (Z.of_nat k mod 512)))) in H. rewrite !map_block_at in H by lia.
  by replace (Z.to_nat (512 * j) + Z.to_nat (Z.of_nat k mod 512))%nat with k in H by lia.
Qed.
Lemma set_map_block_length j buf data : 0 ≤ j → length buf = 512%nat → 512 * j + 512 ≤ Z.of_nat (length data) →
  length (set_map_block j buf data) = length data.
Proof. intros Hj Hb Hl. unfold set_map_block. rewrite !length_app, length_take, length_drop. lia. Qed.
Lemma map_block_set i j buf data : 0 ≤ i → 0 ≤ j → length buf = 512%nat → 512 * j + 512 ≤ Z.of_nat (length data) →
  map_block i (set_map_block j buf data) = if decide (i = j) then buf else map_block i data.
Proof.
  intros Hi Hj Hb Hl. apply list_eq. intros k. destruct (decide (k < 512)%nat) as [Hk|Hk].
  2:{ unfold map_block. rewrite !lookup_take_ge by lia. case_decide; [by rewrite lookup_ge_None_2 by lia|].
      by rewrite lookup_take_ge by lia. }
  rewrite map_block_at by done. unfold set_map_block. case_decide as Hd; [subst i|rewrite map_block_at by done].
  - rewrite lookup_app_r by (rewrite length_take; lia). rewrite lookup_app_l by (rewrite length_take; lia). f_equal. rewrite length_take. lia.
  - destruct (decide (i < j)).
    + rewrite lookup_app_l by (rewrite length_take; lia). by rewrite lookup_take_lt by lia.
    + rewrite !lookup_app_r by (rewrite ?length_take; lia). rewrite lookup_drop. f_equal. rewrite length_take. lia.
Qed.

(** ** The sizes *)
Lemma bitmapsize n : 0 < n ≤ 8388608 → SFS_BITMAPSIZE n = 4096 * SFS_BITBLOCKS n ∧ n ≤ SFS_BITMAPSIZE n ≤ 8388608 ∧ 0 < SFS_BITBLOCKS n.
Proof.
  intros Hn. unfold SFS_BITBLOCKS, SFS_BITMAPSIZE, SFS_BLOCKBITS. rewrite (u32_id (n + _ - _)) by lia.
  pose proof (Z.div_mod (n + 4096 - 1) 4096 ltac:(lia)). pose proof (Z.mod_pos_bound (n + 4096 - 1) 4096 ltac:(lia)).
  assert (0 < (n + 4096 - 1) / 4096 ≤ 2048) as Hq by lia. rewrite u32_id, Z.div_mul by lia. lia.
Qed.

(** * A mounted file system *)
Record mounted (m : sfs_fs) (tbl : list Z) (F : gmap Z sfs_inode) : Prop := {
  mo_vn : vn_ok (fs_sfs m) tbl F;
  mo_super : end_volname (dblk (s_disk (fs_sfs m)) SFS_SB_LOCATION) = sfs_super m ∧
    sp_magic (sfs_super m) = SFS_MAGIC ∧ super_nblocks (sfs_super m) = sp_nblocks (fs_sfs m) ∧ sfs_superdirty m = false;
  mo_map : nbits (sfs_freemap (fs_sfs m)) = SFS_BITMAPSIZE (sp_nblocks (fs_sfs m));
  mo_reserved : ∀ j, 0 ≤ j < SFS_BITBLOCKS (sp_nblocks (fs_sfs m)) → SFS_MAP_LOCATION + j < sp_nblocks (fs_sfs m) ∧
    used (fs_sfs m) (SFS_MAP_LOCATION + j) = true ∧ F !! (SFS_MAP_LOCATION + j) = None ∧
    ∀ i k, fsl (s_disk (fs_sfs m)) F i k ≠ SFS_MAP_LOCATION + j;
  mo_disk : sfs_freemapdirty (fs_sfs m) = false → ∀ j, 0 ≤ j < SFS_BITBLOCKS (sp_nblocks (fs_sfs m)) →
    dblk (s_disk (fs_sfs m)) (SFS_MAP_LOCATION + j) = map_block j (v (sfs_freemap (fs_sfs m)));
}.

Lemma mounted_length m tbl F : mounted m tbl F → Z.of_nat (length (v (sfs_freemap (fs_sfs m)))) = 512 * SFS_BITBLOCKS (sp_nblocks (fs_sfs m)).
Proof.
  intros [Hv _ Hm _ _]. pose proof (vo_fs _ _ _ Hv) as Hok. pose proof (ok_geom _ Hok) as [Hg1 Hg2]. destruct (ok_map _ Hok) as [Hb _].
  rewrite (bo_len _ Hb), Hm. destruct (bitmapsize (sp_nblocks (fs_sfs m))) as (E & _); [lia|]. rewrite E.
  symmetry. apply (Z.div_unique _ _ _ 7); lia.
Qed.

(** ** Writing the map *)
Lemma wp_mapio_write tbl F data B n : ∀ j s, vn_ok s tbl F → v (sfs_freemap s) = data → Z.of_nat (length data) = 512 * B →
  0 ≤ j → j + Z.of_nat n = B →
  (∀ i, 0 ≤ i < B → SFS_MAP_LOCATION + i < sp_nblocks s ∧ used s (SFS_MAP_LOCATION + i) = true ∧ F !! (SFS_MAP_LOCATION + i) = None ∧
    ∀ c k, fsl (s_disk s) F c k ≠ SFS_MAP_LOCATION + i) →
  wp (mapio_loop n j UIO_WRITE) (λ r s', r = None ∧ vn_ok s' tbl F ∧ untouched (λ _, False) s F s' F ∧
    (∃ d, s' = set_disk d [] s) ∧ (∀ c k, fsl (s_disk s') F c k = fsl (s_disk s) F c k) ∧
    ∀ b, dblk (s_disk s') b = if decide (SFS_MAP_LOCATION + j ≤ b < SFS_MAP_LOCATION + B) then map_block (b - SFS_MAP_LOCATION) data else dblk (s_disk s) b) s.
Proof.
  unfold SFS_MAP_LOCATION. induction n as [|n IH]; intros j s Hv Hd Hl Hj Hn Hres; cbn [mapio_loop]; pose proof (vo_fs _ _ _ Hv) as Hok; pose proof (ok_geom _ Hok).
  { wp_steps. split_and!; [done|done|done| |done|intros b; by rewrite decide_False by lia].
    exists (s_disk s). symmetry. by apply set_disk_id, Hok. }
  destruct (Hres j ltac:(lia)) as (R1 & R2 & R3 & R4). apply wp_bind_2. unfold mapio_block, SFS_MAP_LOCATION. apply wp_bind_2, wp_get.
  rewrite Hd, (proj2 (Z.ltb_ge _ _)) by lia. pose proof (map_block_length j data Hj ltac:(lia)) as Hbl.
  eapply wp_mono; [apply wp_wblock; [by apply ok_hw|lia|lia|done]|]. intros r s1 [-> ->].
  destruct (ok_map _ Hok) as [Hm _]. destruct (vn_block s tbl F Hv (2 + j) (sfs_freemap s) (sfs_freemapdirty s) (map_block j data)) as (V1 & E1 & U1);
    try done; [lia|intros i Hi; case_decide; [by subst|done]|].
  set (s1 := set_freemap _ _ _) in V1, E1, U1. replace (set_disk _ [] s) with s1 by by destruct s.
  eapply wp_mono; [apply IH; try done; [lia|lia|]|].
  { intros i Hi. destruct (Hres i Hi) as (S1 & S2 & S3 & S4). split_and!; try done. intros c k. by rewrite E1. }
  intros r s2 (-> & V2 & U2 & [d ->] & E2 & D2). split_and!; [done|done| | | |].
  - eapply untouched_trans; [|exact U1|exact U2]. tauto.
  - exists d. by destruct s.
  - intros c k. by rewrite E2, E1.
  - intros b. rewrite D2. simpl. destruct (decide (b = 2 + j)) as [->|Hb].
    + rewrite decide_False, decide_True by lia. rewrite dblk_put_same by done. f_equal. lia.
    + rewrite dblk_put_ne by done. repeat case_decide; lia || done.
Qed.

(** ** Reading the map *)
Lemma wp_mapio_read B n : ∀ j s, s_hw s = [] → 2 + B ≤ d_blocks s ≤ 8388608 → Z.of_nat (length (v (sfs_freemap s))) = 512 * B →
  0 ≤ j → j + Z.of_nat n = B →
  wp (mapio_loop n j UIO_READ) (λ r s', r = None ∧ ∃ w, s' = set_freemap (Bitmap (nbits (sfs_freemap s)) w) (sfs_freemapdirty s) s ∧
    Z.of_nat (length w) = 512 * B ∧
    ∀ i, 0 ≤ i < B → map_block i w = if decide (j ≤ i) then dblk (s_disk s) (SFS_MAP_LOCATION + i) else map_block i (v (sfs_freemap s))) s.
Proof.
  unfold SFS_MAP_LOCATION. induction n as [|n IH]; intros j s Hhw Hg Hl Hj Hn; cbn [mapio_loop].
  { wp_steps. split; [done|]. exists (v (sfs_freemap s)). split_and!; [by destruct s as [? ? ? ? ? []]|done|]. intros i Hi. by rewrite decide_False by lia. }
  apply wp_bind_2. unfold mapio_block, SFS_MAP_LOCATION. apply wp_bind_2, wp_get. rewrite (proj2 (Z.ltb_ge _ _)) by lia.
  apply wp_bind_2. eapply wp_mono; [apply wp_rblock; [done|lia|lia]|]. intros r s1 [-> ->]. apply wp_bind_2, wp_modify, wp_ret.
  set (data := v (sfs_freemap s)) in *. pose proof (dblk_length (s_disk s) (2 + j)) as Hbl.
  eapply wp_mono; [apply IH; simpl; try done; [rewrite set_map_block_length; lia|lia|lia]|].
  intros r s2 (-> & w & -> & Hw & Hb). simpl in Hb. split; [done|]. exists w. split_and!; [by destruct s|done|]. intros i Hi.
  rewrite Hb by done. rewrite map_block_set by lia. repeat case_decide; subst; lia || done.
Qed.

(** * Syncing *)
Lemma untouched_fsl s F s' : untouched (λ _, False) s F s' F → ∀ c k, fsl (s_disk s') F c k = fsl (s_disk s) F c k.
Proof.
  intros U c k. unfold fsl. destruct (F !! c) as [i|] eqn:Hc; [|done]. simpl. apply (U c); [by intros []|done].
Qed.

(** All that syncing the vnodes from number [k] on changes. *)
Record vn_synced (F : gmap Z sfs_inode) (s s' : sfs) : Prop := {
  vs_files : untouched (λ _, False) s F s' F;
  vs_rest : sfs_freemap s' = sfs_freemap s ∧ sfs_freemapdirty s' = sfs_freemapdirty s ∧ sp_nblocks s' = sp_nblocks s ∧
    sfs_vnodes s' = sfs_vnodes s;
  vs_vnodes : ∀ p, set_dirty false <$> vnodes s' !! p = set_dirty false <$> vnodes s !! p;
  vs_blocks : ∀ b, F !! b = None → dblk (s_disk s') b = dblk (s_disk s) b;
}.

Lemma wp_sync_loop tbl F n : ∀ (k : nat) s, vn_ok s tbl F → (k + n = length tbl)%nat →
  (∀ (k' : nat) p sv, (k' < k)%nat → tbl !! k' = Some p → vnodes s !! p = Some sv → sv_dirty sv = false) →
  wp (sync_loop n (Z.of_nat k)) (λ _ s', vn_ok s' tbl F ∧ vn_synced F s s' ∧ ∀ p sv, vnodes s' !! p = Some sv → sv_dirty sv = false) s.
Proof.
  induction n as [|n IH]; intros k s Hv Hk Hcl; cbn [sync_loop].
  { wp_steps. split; [done|]. split; [by constructor|]. intros p sv Hp. destruct (vo_tbl _ _ _ Hv) as (_ & _ & Hel).
    assert (p ∈ tbl) as [k' Hk']%list_elem_of_lookup by by apply Hel. apply (Hcl k' p); [|done|done]. apply lookup_lt_Some in Hk'. lia. }
  destruct (lookup_lt_is_Some_2 tbl k) as [p Hp]; [lia|]. destruct (tbl_lookup _ _ _ Hv _ _ Hp) as [sv Hsv].
  apply wp_bind_2. eapply wp_table_get; [apply Hv|done|]. apply wp_bind_2. unfold sfs_fsync.
  eapply wp_mono; [by apply (wp_sync_inode s tbl F Hv p sv)|]. intros r s1 (-> & V1 & U1 & E1 & _ & A1 & A2 & _ & A3 & A4 & A5).
  replace (Z.of_nat k + 1) with (Z.of_nat (S k)) by lia. destruct (vo_vn _ _ _ Hv _ _ Hsv) as [HF _].
  eapply wp_mono; [apply IH; [done|lia|]|].
  { intros k' q v Hk' Hq Hqv. rewrite E1, lookup_insert_Some in Hqv. destruct Hqv as [[<- <-]|[Hne Hqv]]; [done|].
    apply (Hcl k' q); [|done|done]. destruct (decide (k' = k)) as [->|]; [congruence|lia]. }
  intros [] s2 (V2 & [B1 (B2 & B3 & B4 & B5) B6 B7] & Hcl2). split_and!; [done| |done]. constructor.
  - eapply untouched_trans; [|exact U1|exact B1]. tauto.
  - split_and!; congruence.
  - intros q. rewrite B6, E1. destruct (decide (q = p)) as [->|]; [by rewrite lookup_insert_eq, Hsv|by rewrite lookup_insert_ne].
  - intros b Hb. rewrite B7, A5 by congruence. done.
Qed.

(** The map is on disk. *)
Lemma wp_sync_map s tbl F sup : mounted (SfsFs s sup false) tbl F →
  wp sync_map (λ r s', r = None ∧ mounted (SfsFs s' sup false) tbl F ∧ untouched (λ _, False) s F s' F ∧ sfs_freemapdirty s' = false ∧
    vnodes s' = vnodes s ∧ sfs_freemap s' = sfs_freemap s ∧ sp_nblocks s' = sp_nblocks s) s.
Proof.
  intros Hm. pose proof (mounted_length _ _ _ Hm) as Hlen. simpl in Hlen. pose proof Hm as [M1 M2 M3 M4 M5]. simpl in M1, M2, M3, M4, M5.
  pose proof (vo_fs _ _ _ M1) as Hok. pose proof (ok_geom _ Hok) as [Hg1 Hg2]. destruct (bitmapsize (sp_nblocks s)) as (_ & _ & Hb); [lia|].
  unfold sync_map. apply wp_bind_2, wp_get. destruct (sfs_freemapdirty s) eqn:Ed; [|wp_steps; by split_and!].
  unfold sfs_mapio. apply wp_bind_2, wp_bind_2, wp_get.
  eapply wp_mono; [apply (wp_mapio_write tbl F (v (sfs_freemap s)) (SFS_BITBLOCKS (sp_nblocks s)) _ 0 s); try done; lia|].
  intros r s1 (-> & V1 & U1 & [d ->] & E1 & D1). wp_steps. unfold SFS_MAP_LOCATION in *. cbn [s_disk set_disk] in D1. split_and!; try done.
  constructor; simpl.
  - destruct V1 as [W1 W2 W3 W4 W5 W6 W7 W8]. constructor; try done. destruct W1. by constructor.
  - rewrite D1. by rewrite decide_False by (unfold SFS_SB_LOCATION; lia).
  - done.
  - intros j Hj. destruct (M4 j Hj) as (R1 & R2 & R3 & R4). split_and!; try done. intros i k. specialize (E1 i k). simpl in E1. by rewrite E1.
  - intros _ j Hj. unfold SFS_MAP_LOCATION. rewrite D1, decide_True by lia. f_equal. lia.
Qed.

Lemma wp_sfs_sync m tbl F : mounted m tbl F →
  wp sfs_sync (λ r m', r = None ∧ mounted m' tbl F ∧ untouched (λ _, False) (fs_sfs m) F (fs_sfs m') F ∧
    sfs_freemapdirty (fs_sfs m') = false ∧ sfs_superdirty m' = false ∧
    (∀ p sv, vnodes (fs_sfs m') !! p = Some sv → sv_dirty sv = false) ∧
    (∀ p, set_dirty false <$> vnodes (fs_sfs m') !! p = set_dirty false <$> vnodes (fs_sfs m) !! p) ∧
    sfs_freemap (fs_sfs m') = sfs_freemap (fs_sfs m) ∧ sfs_super m' = sfs_super m) m.
Proof.
  intros Hm. pose proof Hm as [M1 (M2a & M2b & M2c & M2d) M3 M4 M5]. destruct m as [s sup d]. simpl in *. subst d.
  unfold sfs_sync. apply wp_bind_2, wp_zoom. simpl. eapply wp_table_num; [apply M1|]. rewrite Nat2Z.id.
  apply wp_bind_2, wp_zoom. simpl. eapply wp_mono; [apply (wp_sync_loop tbl F (length tbl) 0 s M1); [lia|intros k' p sv Hk'; lia]|].
  intros [] s1 (V1 & [B1 (B2 & B3 & B4 & B5) B6 B7] & Hcl). apply wp_bind_2, wp_zoom. simpl.
  eapply wp_mono; [apply (wp_sync_map s1 tbl F sup)|].
  { constructor; simpl; rewrite ?B2, ?B3, ?B4; try done.
    - rewrite B7; [done|]. destruct (F !! SFS_SB_LOCATION) eqn:E; [|done]. destruct (vo_file _ _ _ M1 _ _ E) as (H & _). unfold SFS_SB_LOCATION in H. lia.
    - intros j Hj. destruct (M4 j Hj) as (R1 & R2 & R3 & R4). split_and!; try done; [unfold used in *; by rewrite B2|].
      intros i k. rewrite (untouched_fsl s F s1 B1). apply R4.
    - intros Hd j Hj. rewrite B7; [by apply M5|]. by apply M4. }
  intros r s2 (-> & Hm2 & U2 & Hd2 & E2 & E3 & E4). simpl. apply wp_bind_2, wp_get. simpl. apply wp_ret. simpl. split_and!; try done.
  - eapply untouched_trans; [|exact B1|exact U2]. tauto.
  - by rewrite E2.
  - intros p. by rewrite E2, B6.
  - congruence.
Qed.

(** * Mounting *)
Lemma end_volname_word l k : 0 ≤ k < 9 → word_at (end_volname l) k = word_at l k.
Proof.
  intros Hk. unfold word_at, end_volname. f_equal. apply list_eq. intros i. destruct (decide (i < 4)%nat); [|by rewrite !lookup_take_ge by lia].
  rewrite !lookup_take_lt, !lookup_drop by done. by rewrite list_lookup_insert_ne by lia.
Qed.

Lemma wp_kmalloc_sv s a h (Q : option Z → sfs → Prop) : s_heap s = a :: h → Q a (set_heap h s) → wp kmalloc_sv Q s.
Proof. intros E HQ. unfold kmalloc_sv. apply wp_bind_2, wp_get. rewrite E. by wp_steps. Qed.

Lemma wp_create_freemap s nb a1 a2 h : 0 ≤ nb < 2 ^ 32 - 8 → s_heap s = Some a1 :: Some a2 :: h →
  wp (create_freemap nb) (λ r s', ∃ b, r = Some b ∧ bm_ok b ∧ nbits b = nb ∧ s' = set_heap h s) s.
Proof.
  intros Hnb Hh. unfold create_freemap. apply wp_bind_2. eapply wp_kmalloc_sv; [done|]. apply wp_bind_2. eapply wp_kmalloc_sv; [done|].
  pose proof (create_ok nb Hnb) as (r & [] & E & b & -> & B1 & B2 & _)%wp_exists. rewrite E. wp_steps. exists b. split_and!; [done..|by destruct s].
Qed.

(** What is on disk of a clean file system is mounted again. *)
Lemma wp_domount m tbl F n fm d arr a1 a2 a3 a4 h : mounted m tbl F → sfs_freemapdirty (fs_sfs m) = false →
  (∀ p sv, vnodes (fs_sfs m) !! p = Some sv → sv_dirty sv = false) →
  wp (sfs_domount SFS_BLOCKSIZE) (λ r s', r = inr (sfs_super m) ∧ mounted (SfsFs s' (sfs_super m) false) [] F ∧
    s_disk s' = s_disk (fs_sfs m) ∧ sfs_freemap s' = sfs_freemap (fs_sfs m) ∧ vnodes s' = ∅ ∧ s_heap s' = h ∧ sp_nblocks s' = sp_nblocks (fs_sfs m))
    (device (fs_sfs m) n fm d arr (Some a1 :: Some a2 :: Some a3 :: Some a4 :: h)).
Proof.
  intros Hm Hd Hcl. pose proof (mounted_length _ _ _ Hm) as Hlen. pose proof Hm as [M1 (M2a & M2b & M2c & M2d) M3 M4 M5]. specialize (M5 Hd).
  set (s := fs_sfs m) in *. pose proof (vo_fs _ _ _ M1) as Hok. pose proof (ok_geom _ Hok) as [Hg1 Hg2]. destruct (ok_map _ Hok) as [Hbm Hnb].
  destruct (bitmapsize (sp_nblocks s)) as (Z1 & Z2 & Z3); [lia|]. set (B := SFS_BITBLOCKS (sp_nblocks s)) in *.
  destruct (M4 (B - 1) ltac:(lia)) as (Hlast & _). unfold SFS_MAP_LOCATION in Hlast.
  unfold sfs_domount, device. cbn [negb Z.eqb SFS_BLOCKSIZE Pos.eqb]. apply wp_bind_2. eapply wp_kmalloc_sv; [done|]. apply wp_bind_2. eapply wp_kmalloc_sv; [done|].
  apply wp_bind_2, wp_modify. unfold domount_load. apply wp_bind_2. eapply wp_mono; [apply wp_rblock; [apply Hok|unfold SFS_SB_LOCATION; simpl; lia|simpl; lia]|].
  intros r s1 [-> ->]. cbn [s_disk set_table set_heap]. set (sup := dblk (s_disk s) SFS_SB_LOCATION) in *.
  assert (sp_magic sup = SFS_MAGIC ∧ super_nblocks (end_volname sup) = sp_nblocks s) as [E1 E2].
  { split; [|by rewrite M2a]. rewrite <-M2b, <-M2a. symmetry. by apply end_volname_word. }
  rewrite E1, Z.eqb_refl. cbn [negb]. rewrite E2. apply wp_bind_2, wp_modify. apply wp_bind_2.
  eapply wp_mono; [eapply wp_create_freemap; [lia|done]|]. intros r s1 (b & -> & B1 & B2 & ->). apply wp_bind_2, wp_modify.
  unfold sfs_mapio. apply wp_bind_2, wp_bind_2, wp_get. cbn [sp_nblocks set_freemap set_heap set_nblocks set_table]. fold B.
  eapply wp_mono; [apply (wp_mapio_read B); simpl; [by apply ok_hw|lia| |lia|lia]|].
  { rewrite (bo_len _ B1), B2, Z1. symmetry. apply (Z.div_unique _ _ _ 7); lia. }
  intros r s2 (-> & w & -> & Hw & Hblk). apply wp_bind_2, wp_modify, wp_ret. simpl. rewrite B2.
  assert (w = v (sfs_freemap s)) as ->.
  { apply (map_blocks_eq B); [done..|]. intros j Hj. rewrite Hblk, decide_True by lia. simpl. by apply M5. }
  rewrite <-M3. assert (Bitmap (nbits (sfs_freemap s)) (v (sfs_freemap s)) = sfs_freemap s) as -> by by destruct (sfs_freemap s).
  split; [by rewrite M2a|]. split; [|done]. constructor; simpl; try done.
  apply vn_intro; simpl.
  - destruct (geom_of _ Hok) as (G1 & G). done.
  - split_and!; [by constructor|by apply NoDup_nil|]. intros p. rewrite lookup_empty. split; [by intros ?%elem_of_nil|by intros []].
  - intros p sv. by rewrite lookup_empty.
  - intros p q sv sv'. by rewrite lookup_empty.
  - intros j i Hi. left. destruct (vo_disk _ _ _ M1 _ _ Hi) as [?|(p & sv & Hp & _ & Hdd)]; [done|]. by rewrite (Hcl _ _ Hp) in Hdd.
  - apply (vo_file _ _ _ M1).
  - apply (vo_slot _ _ _ M1).
  - apply (vo_inj _ _ _ M1).
Qed.

(** The root directory of a file system just mounted. *)
Lemma wp_getroot s F j i a b h : mounted s [] F → j = SFS_ROOT_LOCATION → F !! j = Some i → vnodes (fs_sfs s) = ∅ →
  s_heap (fs_sfs s) = Some a :: Some b :: h →
  wp sfs_getroot (λ p s', same_store (fs_sfs s) s' ∧ got j i (fs_sfs s) p s' ∧ ∃ tbl, vn_ok s' tbl F) (fs_sfs s).
Proof.
  intros Hm -> HF Hvn Hh. unfold sfs_getroot. apply wp_bind_2. eapply wp_mono; [apply (wp_loadvnode _ [] F _ i (mo_vn _ _ _ Hm) HF)|].
  - intros x h0 _. by rewrite Hvn, lookup_empty.
  - intros q sv Hq. by rewrite Hvn, lookup_empty in Hq.
  - intros [e|p] s' (Hss & _ & Hr).
    + destruct Hr as (_ & _ & _ & _ & Hno). by destruct (Hno a b h).
    + wp_steps. by destruct Hr.
Qed.

(** C11: A file system survives on disk. [sfs_sync] of a mounted file system returns
    success, writes what is dirty and changes no file. Mounting the device again,
    into whatever memory, and getting the root directory gives the same superblock
    and free map and a consistent file system with the same names, the same files
    and the same contents; only files that had no name any more are left out. *)
Theorem synced_fs_survives_remount m tbl F D root : mounted m tbl F → fs_tree root (fs_sfs m) F D →
  (∀ j i, F !! j = Some i → sfi_type i = SFS_TYPE_FILE → sfi_linkcount i ≠ 0) →
  ∃ m', sfs_sync m = Ok (None, m') ∧ mounted m' tbl F ∧ untouched (λ _, False) (fs_sfs m) F (fs_sfs m') F ∧
    ∀ n fm d arr a1 a2 a3 a4 a5 a6 h, ∃ s1 p s2,
      sfs_domount SFS_BLOCKSIZE (device (fs_sfs m') n fm d arr (Some a1 :: Some a2 :: Some a3 :: Some a4 :: Some a5 :: Some a6 :: h)) =
        Ok (inr (sfs_super m), s1) ∧
      sfs_getroot s1 = Ok (p, s2) ∧ fs_tree p s2 F D ∧ sfs_freemap s2 = sfs_freemap (fs_sfs m) ∧
      s_disk s2 = s_disk (fs_sfs m') ∧ untouched (λ _, False) (fs_sfs m) F s2 F.
Proof.
  intros Hm Ht Hnamed. pose proof (wp_sfs_sync m tbl F Hm) as (r & m' & E & -> & Hm' & U & Hd & Hsd & Hcl & Hvn & Efm & Esup)%wp_exists.
  exists m'. split_and!; [done..|]. intros n fm d arr a1 a2 a3 a4 a5 a6 h.
  pose proof (wp_domount m' tbl F n fm d arr a1 a2 a3 a4 (Some a5 :: Some a6 :: h) Hm' Hd Hcl)
    as (r & s1 & E1 & -> & Hm1 & D1 & FM1 & V1 & H1 & N1)%wp_exists.
  destruct (root_inode _ _ _ _ (ft_at _ _ _ _ Ht)) as (rv & Hr & Er & HFr & Htr).
  pose proof (wp_getroot _ F _ (sv_i rv) a5 a6 h Hm1 eq_refl HFr V1 H1) as (p & s2 & E2 & (S1 & S2 & S3 & S4 & S5) & Hg & Hv2)%wp_exists.
  simpl in E2, S1, S2, S3, Hg. exists s1, p, s2. rewrite Esup in E1.
  assert (untouched (λ _, False) (fs_sfs m) F s2 F) as U2.
  { intros c Hc. split; [done|]. intros i Hi. rewrite S2, D1. by apply (U c). }
  split_and!; try done; [|congruence|congruence]. destruct Hg as (v' & Ev & Ei & Eii & _).
  assert (vnodes s2 !! p = Some v') as Hp2 by by rewrite Ev, lookup_insert_eq.
  constructor; [constructor; [done|by exists v'|]|apply Ht|].
  - eapply dir_rep_move; [apply Ht|exact Hr|exact Hp2|done|]. apply (U2 SFS_ROOT_LOCATION); [by intros []|done].
  - intros j i Hi Hf Hz. by destruct (Hnamed j i).
Qed.

Module MountDemo.
Definition fs : sfs_fs := SfsFs TreeDemo.fs (word_bytes SFS_MAGIC ++ word_bytes 64 ++ replicate 504 0) false.
Lemma is_mounted : mounted fs [2000] TreeDemo.files.
Proof.
  constructor.
  - exact TreeDemo.vn.
  - split_and!; by vm_compute.
  - done.
  - intros j Hj. change (0 ≤ j < 1) in Hj. assert (j = 0) as -> by lia. split_and!; [done|done|done|].
    intros i k. change (s_disk (fs_sfs fs)) with TreeDemo.disk. rewrite TreeDemo.files_slot. repeat case_decide; done.
  - done.
Qed.
End MountDemo.

Lemma synced_fs_survives_remount_witness : ∃ m', sfs_sync MountDemo.fs = Ok (None, m') ∧
  ∃ s1 p s2, sfs_domount SFS_BLOCKSIZE (device (fs_sfs m') 0 (Bitmap 0 []) true array_init [Some 1; Some 2; Some 3; Some 4; Some 5; Some 6]) =
      Ok (inr (sfs_super MountDemo.fs), s1) ∧ sfs_getroot s1 = Ok (p, s2) ∧ fs_tree p s2 TreeDemo.files TreeDemo.names.
Proof.
  destruct (synced_fs_survives_remount MountDemo.fs [2000] TreeDemo.files TreeDemo.names 2000 MountDemo.is_mounted TreeDemo.tree)
    as (m' & E & _ & _ & H).
  - intros j i [[-> ->]|[-> ->]]%TreeDemo.files_lookup Ht; done.
  - exists m'. split; [exact E|]. destruct (H 0 (Bitmap 0 []) true array_init 1 2 3 4 5 6 []) as (s1 & p & s2 & E1 & E2 & Ht & _).
    exists s1, p, s2. split; [exact E1|]. split; [exact E2|exact Ht].
Defined.

(** What [sfs_domount] refuses: a device with other sectors, memory that is not
    there, another magic number. Nothing is written. *)
Lemma domount_refuses s : (∀ bs, bs ≠ SFS_BLOCKSIZE → sfs_domount bs s = Ok (inl ENXIO, s)) ∧
  (s_hw s = [] → 0 < d_blocks s ≤ 8388608 → ∀ a1 a2 h, s_heap s = Some a1 :: Some a2 :: h →
    sp_magic (dblk (s_disk s) SFS_SB_LOCATION) ≠ SFS_MAGIC →
    ∃ s', sfs_domount SFS_BLOCKSIZE s = Ok (inl EINVAL, s') ∧ s_disk s' = s_disk s).
Proof.
  split.
  - intros bs Hbs. unfold sfs_domount. by rewrite (proj2 (Z.eqb_neq _ _) Hbs).
  - intros Hhw Hd a1 a2 h Hh Hmag. assert (wp (sfs_domount SFS_BLOCKSIZE) (λ r s', r = inl EINVAL ∧ s_disk s' = s_disk s) s) as (r & s' & E & -> & H)%wp_exists; [|eauto].
    unfold sfs_domount. cbn [negb Z.eqb SFS_BLOCKSIZE Pos.eqb]. apply wp_bind_2. eapply wp_kmalloc_sv; [done|]. apply wp_bind_2. eapply wp_kmalloc_sv; [done|].
    apply wp_bind_2, wp_modify. unfold domount_load. apply wp_bind_2.
    eapply wp_mono; [apply wp_rblock; [done|unfold SFS_SB_LOCATION; simpl; lia|simpl; lia]|]. intros r s1 [-> ->].
    cbn [s_disk set_table set_heap]. rewrite (proj2 (Z.eqb_neq _ _) Hmag). simpl. by wp_steps.
Qed.

(** A file system with loaded vnodes is busy; a synced one without them goes. *)
Lemma unmount_spec m tbl F : mounted m tbl F → sfs_freemapdirty (fs_sfs m) = false →
  ∃ m', sfs_unmount m = Ok (if decide (tbl = []) then None else Some EBUSY, m') ∧ s_disk (fs_sfs m') = s_disk (fs_sfs m).
Proof.
  intros Hm Hd. destruct m as [s sup d]. pose proof Hm as [M1 (_ & _ & _ & M2d) _ _ _]. simpl in *. subst d. destruct (vo_tbl _ _ _ M1) as (Ha & _).
  assert (wp sfs_unmount (λ r m', r = (if decide (tbl = []) then None else Some EBUSY) ∧ s_disk (fs_sfs m') = s_disk s) (SfsFs s sup false))
    as (r & m' & E & -> & H)%wp_exists; [|eauto].
  unfold sfs_unmount. apply wp_bind_2, wp_zoom. simpl. eapply wp_table_num; [done|]. case_decide as Ht.
  - subst tbl. simpl. apply wp_bind_2, wp_get, wp_bind_2, wp_kassert; [done|]. simpl. rewrite Hd. apply wp_bind_2, wp_kassert; [done|].
    apply wp_bind_2, wp_zoom. simpl. apply wp_zoom. simpl. unfold array_cleanup. apply wp_bind_2, wp_get, wp_bind_2, wp_kassert.
    { simpl. rewrite (ar_num _ _ Ha). done. }
    unfold put_arr. apply wp_modify, wp_ret. done.
  - rewrite (proj2 (Z.ltb_lt 0 _)) by (destruct tbl; [done|simpl; lia]). by apply wp_ret.
Qed.
