(* ===== verification/Device.v ===== *)
(** Devices as files: [kern/vfs/device.c], with the null device
    ([kern/vfs/devnull.c]) and the reference counts of [kern/vfs/vnode.c].

    The functions of a driver are operations on a state [X], the hardware and the
    memory a [uio] describes. Vnodes of devices and the devices themselves are kept
    by address. *)

From stdpp Require Import base tactics numbers list gmap.
From S2P Require Import Prelude KernDefs CopyInOut Uio.
Local Open Scope Z_scope.


Section device.
Context {X : Type}.

Record device := Device {
  d_open : Z → M X (option errno);
  d_close : M X (option errno);
  d_io : uio → M X (option errno * uio);
  d_ioctl : Z → Z → M X (option errno);
  d_blocks : Z;
  d_blocksize : Z;
  d_devnumber : Z;
}.
Record dev_vnode := DevVnode { dv_refcount : Z; dv_opencount : Z; dv_data : Z }.
Record devs := Devs { dv_vnodes : gmap Z dev_vnode; dv_devices : gmap Z device; dv_x : X }.

#[export] Instance devs_x : Sub devs X.
Proof. refine {| sub_get := dv_x; sub_put x d := Devs (dv_vnodes d) (dv_devices d) x |}; by intros []. Defined.

Definition get_dv (p : Z) : M devs dev_vnode := d ← getS; of_opt (dv_vnodes d !! p).
Definition put_dv (p : Z) (v : dev_vnode) : M devs unit :=
  modify (λ d, Devs (<[p := v]> (dv_vnodes d)) (dv_devices d) (dv_x d)).
(** [v->vn_data]. *)
Definition get_dev (p : Z) : M devs device := v ← get_dv p; d ← getS; of_opt (dv_devices d !! dv_data v).

(** ** Operations *)
Definition dev_open (v flags : Z) : M devs (option errno) :=
  d ← get_dev v;
  if negb (Z.land flags (Z.lor (Z.lor (Z.lor O_CREAT O_TRUNC) O_EXCL) O_APPEND) =? 0) then mret (Some EINVAL)
  else zoom (d_open d flags).
Definition dev_close (v : Z) : M devs (option errno) := d ← get_dev v; zoom (d_close d).
Definition dev_reclaim (v : Z) : M devs (option errno) := mret None.
Definition dev_read (v : Z) (u : uio) : M devs (option errno * uio) :=
  d ← get_dev v; kassert (bool_decide (uio_rw_ u = UIO_READ));; zoom (d_io d u).
Definition dev_write (v : Z) (u : uio) : M devs (option errno * uio) :=
  d ← get_dev v; kassert (bool_decide (uio_rw_ u = UIO_WRITE));; zoom (d_io d u).
Definition null_io (v : Z) (u : uio) : M devs (option errno * uio) := mret (Some EINVAL, u).
Definition dev_ioctl (v op data : Z) : M devs (option errno) := d ← get_dev v; zoom (d_ioctl d op data).

Definition dev_gettype (v : Z) : M devs (result Z) :=
  d ← get_dev v; mret (inr (if 0 <? d_blocks d then S_IFBLK else S_IFCHR)).
(** The fields the function sets; the others are 0. *)
Record dev_statbuf := DevStat {
  dst_size : Z; dst_mode : Z; dst_nlink : Z; dst_blocks : Z; dst_rdev : Z; dst_blksize : Z;
}.
Definition dev_stat (v : Z) : M devs (result dev_statbuf) :=
  d ← get_dev v;
  let '(size, blksize) := if 0 <? d_blocks d then (u32 (d_blocks d * d_blocksize d), d_blocksize d) else (0, 0) in
  r ← dev_gettype v;
  match r with
  | inl e => mret (inl e)
  | inr mode => mret (inr (DevStat size (Z.lor mode 0x180) 1 (d_blocks d) (d_devnumber d) blksize))
  end.

(** [pos] is a signed 64-bit number; [%] and [/] truncate. *)
Definition dev_tryseek (v pos : Z) : M devs (option errno) :=
  d ← get_dev v;
  if 0 <? d_blocks d then
    if d_blocksize d =? 0 then undef
    else if negb (Z.rem pos (d_blocksize d) =? 0) then mret (Some EINVAL)
    else if pos <? 0 then mret (Some EINVAL)
    else if d_blocks d <=? Z.quot pos (d_blocksize d) then mret (Some EINVAL)
    else mret None
  else mret (Some ESPIPE).
Definition null_fsync (v : Z) : M devs (option errno) := mret None.
Definition dev_mmap (v : Z) : M devs (option errno) := mret (Some EUNIMP).
Definition dev_truncate (v len : Z) : M devs (option errno) :=
  d ← get_dev v;
  if (0 <? d_blocks d) && (u32 (d_blocks d * d_blocksize d) =? len) then mret None else mret (Some EINVAL).
Definition dev_namefile (v : Z) (u : uio) : M devs (option errno * uio) := mret (None, u).

Definition null_creat (v : Z) (name : list Z) (excl : bool) (mode : Z) : M devs (result Z) := mret (inl ENOTDIR).
Definition null_mkdir (v : Z) (name : list Z) (mode : Z) : M devs (option errno) := mret (Some ENOTDIR).
Definition null_symlink (v : Z) (contents name : list Z) : M devs (option errno) := mret (Some ENOTDIR).
Definition null_nameop (v : Z) (name : list Z) : M devs (option errno) := mret (Some ENOTDIR).
Definition null_link (v : Z) (name : list Z) (file : Z) : M devs (option errno) := mret (Some ENOTDIR).
Definition null_rename (v : Z) (n1 : list Z) (v2 : Z) (n2 : list Z) : M devs (option errno) := mret (Some ENOTDIR).

(** ** Reference counts *)
Definition dev_incref (p : Z) : M devs unit :=
  v ← get_dv p; put_dv p (DevVnode (s32 (dv_refcount v + 1)) (dv_opencount v) (dv_data v)).
Definition dev_decref (p : Z) : M devs unit :=
  v ← get_dv p;
  kassert (0 <? dv_refcount v);;
  if 1 <? dv_refcount v then put_dv p (DevVnode (dv_refcount v - 1) (dv_opencount v) (dv_data v))
  else _ ← dev_reclaim p; mret tt.
Definition dev_incopen (p : Z) : M devs unit :=
  v ← get_dv p; put_dv p (DevVnode (dv_refcount v) (s32 (dv_opencount v + 1)) (dv_data v)).
Definition dev_decopen (p : Z) : M devs unit :=
  v ← get_dv p;
  kassert (0 <? dv_opencount v);;
  put_dv p (DevVnode (dv_refcount v) (dv_opencount v - 1) (dv_data v));;
  if 0 <? dv_opencount v - 1 then mret tt else _ ← dev_close p; mret tt.

(** ** Names *)
Definition dev_lookup (dir : Z) (pathname : list Z) : M devs (result Z) :=
  if 0 <? Z.of_nat (length pathname) then mret (inl ENOENT) else dev_incref dir;; mret (inr dir).
Definition dev_lookparent (dir : Z) (pathname : list Z) (buflen : Z) : M devs (result (Z * list Z)) := mret (inl ENOTDIR).

(** [VOP_INIT] in [dev_create_vnode]. *)
Definition dev_vnode_init (p dev : Z) : M devs unit := put_dv p (DevVnode 1 0 dev).
(** [dev->d_devnumber = n]. *)
Definition put_devnumber (dev n : Z) : M devs unit :=
  d ← getS;
  v ← of_opt (dv_devices d !! dev);
  putS (Devs (dv_vnodes d) (<[dev := Device (d_open v) (d_close v) (d_io v) (d_ioctl v) (d_blocks v) (d_blocksize v) n]> (dv_devices d)) (dv_x d)).

(** ** The null device *)
Definition nullopen (openflags : Z) : M X (option errno) := mret None.
Definition nullclose : M X (option errno) := mret None.
Definition nullio (u : uio) : M X (option errno * uio) :=
  mret (None, match uio_rw_ u with UIO_WRITE => set_resid 0 u | UIO_READ => u end).
Definition nullioctl (op data : Z) : M X (option errno) := mret (Some EINVAL).
Definition null_device : device := Device nullopen nullclose nullio nullioctl 0 1 0.
Definition devnull_init (dev : Z) : M devs unit :=
  modify (λ d, Devs (dv_vnodes d) (<[dev := null_device]> (dv_devices d)) (dv_x d)).
End device.
Arguments device : clear implicits.
Arguments devs : clear implicits.

Lemma get_dev_bind {X B} (d : devs X) v vn dev (f : device X → M (devs X) B) : dv_vnodes d !! v = Some vn → dv_devices d !! dv_data vn = Some dev →
  (mbind f (get_dev v)) d = f dev d.
Proof.
  intros Hv Hd. unfold get_dev, get_dv. rewrite bind_assoc, bind_assoc, (bind_ok getS _ d d d eq_refl), (bind_of_opt _ _ vn) by done.
  by rewrite bind_assoc, (bind_ok getS _ d d d eq_refl), (bind_of_opt _ _ dev).
Qed.

(** C35: On a block device a seek is accepted exactly to the beginnings of its blocks, whatever
    the sign of the position, and is [EINVAL] elsewhere; on a character device it is always
    [ESPIPE]. The size that [dev_stat] reports, to which alone the device may be truncated, is
    the number of blocks times their size only up to 4 gigabytes, and wrong above. *)
Theorem dev_seek_and_size {X} (d : devs X) (v : Z) (vn : dev_vnode) (dev : device X) :
  dv_vnodes d !! v = Some vn → dv_devices d !! dv_data vn = Some dev → 0 ≤ d_blocks dev < 4294967296 → 0 < d_blocksize dev < 4294967296 →
  (∀ pos, dev_tryseek v pos d = Ok
     (if decide (d_blocks dev = 0) then Some ESPIPE
      else if decide (0 ≤ pos < d_blocks dev * d_blocksize dev ∧ pos mod d_blocksize dev = 0) then None else Some EINVAL, d)) ∧
  ∃ size mode blksize, dev_stat v d = Ok (inr (DevStat size mode 1 (d_blocks dev) (d_devnumber dev) blksize), d) ∧
    (∀ len, dev_truncate v len d = Ok (if decide (d_blocks dev ≠ 0 ∧ len = size) then None else Some EINVAL, d)) ∧
    (size = d_blocks dev * d_blocksize dev ↔ d_blocks dev * d_blocksize dev < 4294967296).
Proof.
  intros Hv Hd Hb Hs. split.
  - intros pos. unfold dev_tryseek. rewrite (get_dev_bind _ _ _ _ _ Hv Hd). destruct (Z.ltb_spec 0 (d_blocks dev)); [|by rewrite decide_True by lia].
    rewrite (proj2 (Z.eqb_neq _ _)) by lia. rewrite decide_False by lia.
    assert (Z.rem pos (d_blocksize dev) = 0 ↔ pos mod d_blocksize dev = 0) as Hrem.
    { rewrite Z.rem_divide, <-Z.mod_divide by lia. done. }
    destruct (Z.eqb_spec (Z.rem pos (d_blocksize dev)) 0) as [E|E]; cbn [negb]; [|rewrite decide_False by tauto; done].
    destruct (Z.ltb_spec pos 0); [by rewrite decide_False by lia|]. rewrite Z.quot_div_nonneg by lia.
    pose proof (Z.div_mod pos (d_blocksize dev) ltac:(lia)) as Hdm. rewrite (proj1 Hrem E) in Hdm.
    destruct (Z.leb_spec (d_blocks dev) (pos / d_blocksize dev)); [rewrite decide_False by nia|rewrite decide_True by (split; [nia|tauto])]; done.
  - eexists _, _, _. unfold dev_stat, dev_truncate. split_and!.
    + rewrite (get_dev_bind _ _ _ _ _ Hv Hd). unfold dev_gettype. 
      instantiate (1 := if 0 <? d_blocks dev then d_blocksize dev else 0). instantiate (1 := Z.lor (if 0 <? d_blocks dev then S_IFBLK else S_IFCHR) 0x180).
      instantiate (1 := if 0 <? d_blocks dev then u32 (d_blocks dev * d_blocksize dev) else 0).
      destruct (0 <? d_blocks dev) eqn:E; rewrite bind_assoc, (get_dev_bind _ _ _ _ _ Hv Hd), E; done.
    + intros len. rewrite (get_dev_bind _ _ _ _ _ Hv Hd). destruct (Z.ltb_spec 0 (d_blocks dev)); [|by rewrite decide_False by lia].
      destruct (Z.eqb_spec (u32 (d_blocks dev * d_blocksize dev)) len); [rewrite decide_True by lia|rewrite decide_False by lia]; done.
    + unfold u32. destruct (Z.ltb_spec 0 (d_blocks dev)); [|nia]. rewrite Z.mod_small_iff by lia. nia.
Qed.
(** A disk of 64 blocks of 512 bytes. *)
Lemma dev_seek_and_size_witness :
  let d := Devs {[ 600 := DevVnode 1 0 700 ]} {[ 700 := Device (λ _, mret None) (mret None) (λ u, mret (None, u)) (λ _ _, mret None) 64 512 1 ]} tt in
  dev_tryseek 600 32256 d = Ok (None, d) ∧ dev_tryseek 600 32768 d = Ok (Some EINVAL, d).
Proof.
  cbv zeta. set (dev := Device _ _ _ _ _ _ _). set (d := Devs _ _ tt).
  destruct (dev_seek_and_size d 600 (DevVnode 1 0 700) dev eq_refl eq_refl) as [H _]; [simpl; lia..|]. by split; rewrite H.
Defined.
