(* ===== verification/Vfs.v ===== *)
(** The virtual file system: the table of devices and mounted file systems
    ([kern/vfs/vfslist.c]), path names ([kern/vfs/vfslookup.c],
    [kern/vfs/vfscwd.c]) and the operations on them ([kern/vfs/vfspath.c]).

    What is below, vnodes, devices and file systems, is used through the interface
    [FsOps]: the macros of [vnode.h] and [fs.h], as operations on a state [W].
    A pointer is an integer, 0 for NULL. A path is a buffer of bytes that holds a
    C string; reading past its end is undefined. The view is that of one thread: a
    [lock_acquire] of the big lock returns with the lock held, and its recursion
    depth counts. File systems take and give back the big lock too, which has no
    effect here, and console messages are left out. *)

From stdpp Require Import base tactics numbers list gmap.
From S2P Require Import Prelude KernDefs CopyInOut Uio Array.
Local Open Scope Z_scope.

Definition COLON : Z := 58.
Definition SLASH : Z := 47.
(** "raw" *)
Definition raw : list Z := [114; 97; 119].
(** "null" *)
Definition null : list Z := [110; 117; 108; 108].

Class FsOps (W : Type) := {
  fs_mem :: Sub W xmem;
  vn_fs : Z → M W Z;
  vop_incref : Z → M W unit;
  vop_decref : Z → M W unit;
  vop_incopen : Z → M W unit;
  vop_decopen : Z → M W unit;
  vop_open : Z → Z → M W (option errno);
  vop_truncate : Z → Z → M W (option errno);
  vop_gettype : Z → M W (result Z);
  vop_namefile : Z → uio → M W (option errno * uio);
  vop_readlink : Z → uio → M W (option errno * uio);
  vop_creat : Z → list Z → bool → Z → M W (result Z);
  vop_symlink : Z → list Z → list Z → M W (option errno);
  vop_mkdir : Z → list Z → Z → M W (option errno);
  vop_link : Z → list Z → Z → M W (option errno);
  vop_remove : Z → list Z → M W (option errno);
  vop_rmdir : Z → list Z → M W (option errno);
  vop_rename : Z → list Z → Z → list Z → M W (option errno);
  vop_lookup : Z → list Z → M W (result Z);
  (** The directory, and the name stored into the buffer of the given length. *)
  vop_lookparent : Z → list Z → Z → M W (result (Z * list Z));
  fsop_sync : Z → M W (option errno);
  fsop_getvolname : Z → M W (option (list Z));
  fsop_getroot : Z → M W Z;
  fsop_unmount : Z → M W (option errno);
  (** The initialisation of the block at an address as the vnode of a device. *)
  dev_init_vnode : Z → Z → M W unit;
  set_devnumber : Z → Z → M W unit;
  (** The initialisation of the block at an address as the null device. *)
  init_null_device : Z → M W unit;
}.

Record knowndev := Knowndev {
  kd_name : list Z;
  kd_rawname : option (list Z);
  kd_device : Z;
  kd_vnode : Z;
  kd_fs : Z;
}.
Definition set_kd_fs (fs : Z) (kd : knowndev) : knowndev :=
  Knowndev (kd_name kd) (kd_rawname kd) (kd_device kd) (kd_vnode kd) fs.

Section vfs.
Context {W : Type} {FO : FsOps W}.

(** [v_kds] holds the [knowndev] structures by address; [knowndevs] is the array of
    their addresses. [v_heap] are the answers of the kernel heap to come, [v_live] the
    blocks it has handed out. *)
Record vfs := Vfs {
  knowndevs : array;
  v_kds : gmap Z knowndev;
  v_heap : list (option Z);
  v_live : gset Z;
  biglock_mine : bool;          (* lock_do_i_hold(vfs_biglock) *)
  vfs_biglock_depth : Z;
  bootfs_vnode : Z;
  t_cwd : Z;                    (* of the current thread *)
  v_world : W;
}.
Definition set_devs (a : array) (h : list (option Z)) (s : vfs) : vfs :=
  Vfs a (v_kds s) h (v_live s) (biglock_mine s) (vfs_biglock_depth s) (bootfs_vnode s) (t_cwd s) (v_world s).
Definition set_kds (m : gmap Z knowndev) (s : vfs) : vfs :=
  Vfs (knowndevs s) m (v_heap s) (v_live s) (biglock_mine s) (vfs_biglock_depth s) (bootfs_vnode s) (t_cwd s) (v_world s).
Definition set_live (l : gset Z) (s : vfs) : vfs :=
  Vfs (knowndevs s) (v_kds s) (v_heap s) l (biglock_mine s) (vfs_biglock_depth s) (bootfs_vnode s) (t_cwd s) (v_world s).
Definition set_lock (b : bool) (d : Z) (s : vfs) : vfs :=
  Vfs (knowndevs s) (v_kds s) (v_heap s) (v_live s) b d (bootfs_vnode s) (t_cwd s) (v_world s).
Definition set_boot (p : Z) (s : vfs) : vfs :=
  Vfs (knowndevs s) (v_kds s) (v_heap s) (v_live s) (biglock_mine s) (vfs_biglock_depth s) p (t_cwd s) (v_world s).
Definition set_cwd (p : Z) (s : vfs) : vfs :=
  Vfs (knowndevs s) (v_kds s) (v_heap s) (v_live s) (biglock_mine s) (vfs_biglock_depth s) (bootfs_vnode s) p (v_world s).
Definition set_world (w : W) (s : vfs) : vfs :=
  Vfs (knowndevs s) (v_kds s) (v_heap s) (v_live s) (biglock_mine s) (vfs_biglock_depth s) (bootfs_vnode s) (t_cwd s) w.

#[export] Instance vfs_world : Sub vfs W.
Proof. refine {| sub_get := v_world; sub_put := set_world |}; by intros []. Defined.
#[export] Instance vfs_devs : Sub vfs aheap.
Proof.
  refine {| sub_get s := AHeap (knowndevs s) (v_heap s); sub_put h s := set_devs (a_arr h) (a_heap h) s |}.
  - by intros s [].
  - by intros [].
  - done.
Defined.

(** A call into the file system layer. *)
Definition below {A} (m : M W A) : M vfs A := zoom m.

(** ** The heap *)
Definition kmalloc : M vfs Z :=
  s ← getS;
  match v_heap s with
  | Some a :: h => putS (set_live ({[a]} ∪ v_live s) (set_devs (knowndevs s) h s));; mret a
  | None :: h => putS (set_devs (knowndevs s) h s);; mret 0
  | [] => mret 0
  end.
Definition kfree (p : Z) : M vfs unit :=
  s ← getS;
  if decide (p ∈ v_live s) then putS (set_live (v_live s ∖ {[p]}) s) else undef.
(** [if (p) kfree(p)]. *)
Definition kfree_if (p : Z) : M vfs unit := if p =? 0 then mret tt else kfree p.

Definition get_kd (p : Z) : M vfs knowndev := s ← getS; of_opt (v_kds s !! p).
Definition put_kd (p : Z) (kd : knowndev) : M vfs unit := modify (λ s, set_kds (<[p := kd]> (v_kds s)) s).

(** ** The big lock *)
Definition vfs_biglock_do_i_hold : M vfs bool := gets biglock_mine.
Definition vfs_biglock_acquire : M vfs unit :=
  modify (λ s, set_lock true (u32 (vfs_biglock_depth s + 1)) s).
Definition vfs_biglock_release : M vfs unit :=
  s ← getS;
  kassert (biglock_mine s);;
  kassert (0 <? vfs_biglock_depth s);;
  let d := vfs_biglock_depth s - 1 in
  putS (set_lock (negb (d =? 0)) d s).

(** ** The device table *)
(** The loops over the table, from index [i] on, [n] entries: [body] returns
    [Some r] to leave the function with [r]. *)
Definition for_devs {R} (body : Z → knowndev → M vfs (option R)) (dflt : R) : M vfs R :=
  num ← zoom array_num;
  r ← for_ret (Z.to_nat num) 0 (λ i, p ← zoom (array_get i); kd ← get_kd p; body p kd);
  mret (default dflt r).

Definition vfs_sync : M vfs (option errno) :=
  vfs_biglock_acquire;;
  _ ← for_devs (λ _ dev, if negb (kd_fs dev =? 0) then _ ← below (fsop_sync (kd_fs dev)); mret None else mret None) tt;
  vfs_biglock_release;;
  mret None.

(** The part of the loop of [vfs_getroot] after the file system has been looked at. *)
Definition getroot_device (kd : knowndev) (devname : list Z) : M vfs (option (result Z)) :=
  if bool_decide (kd_name kd = devname) then
    kassert (kd_fs kd =? 0);;
    kassert (bool_decide (kd_rawname kd = None));;
    kassert (negb (kd_device kd =? 0));;
    below (vop_incref (kd_vnode kd));;
    mret (Some (inr (kd_vnode kd)))
  else if bool_decide (kd_rawname kd = Some devname) then
    kassert (negb (kd_device kd =? 0));;
    below (vop_incref (kd_vnode kd));;
    mret (Some (inr (kd_vnode kd)))
  else mret None.
Definition getroot_body (devname : list Z) (kd : knowndev) : M vfs (option (result Z)) :=
  if negb (kd_fs kd =? 0) then
    volname ← below (fsop_getvolname (kd_fs kd));
    if bool_decide (kd_name kd = devname) || bool_decide (volname = Some devname) then
      r ← below (fsop_getroot (kd_fs kd));
      mret (Some (inr r))
    else getroot_device kd devname
  else if bool_decide (is_Some (kd_rawname kd)) && bool_decide (kd_name kd = devname) then
    mret (Some (inl ENXIO))
  else getroot_device kd devname.
Definition vfs_getroot (devname : list Z) : M vfs (result Z) :=
  h ← vfs_biglock_do_i_hold;
  kassert h;;
  for_devs (λ _, getroot_body devname) (inl ENODEV).

Definition vfs_getdevname (fs : Z) : M vfs (option (list Z)) :=
  kassert (negb (fs =? 0));;
  h ← vfs_biglock_do_i_hold;
  kassert h;;
  for_devs (λ _ kd, mret (if kd_fs kd =? fs then Some (Some (kd_name kd)) else None)) None.

(** The block at the address, and what it holds. *)
Definition mkrawname (name : list Z) : M vfs (Z * list Z) := p ← kmalloc; mret (p, name ++ raw).

Definition samestring (a b : option (list Z)) : bool :=
  match a, b with
  | Some a, Some b => bool_decide (a = b)
  | _, _ => false
  end.
Definition samestring3 (a b c d : option (list Z)) : bool := samestring a b || samestring a c || samestring a d.

Definition badnames_body (n1 n2 n3 : option (list Z)) (kd : knowndev) : M vfs (option bool) :=
  v ← (if negb (kd_fs kd =? 0) then
         volname ← below (fsop_getvolname (kd_fs kd));
         mret (samestring3 volname n1 n2 n3)
       else mret false);
  if v || samestring3 (kd_rawname kd) n1 n2 n3 || samestring3 (Some (kd_name kd)) n1 n2 n3
  then mret (Some true) else mret None.
Definition badnames (n1 n2 n3 : option (list Z)) : M vfs bool :=
  h ← vfs_biglock_do_i_hold;
  kassert h;;
  for_devs (λ _, badnames_body n1 n2 n3) false.

(** [kern/vfs/device.c] *)
Definition dev_create_vnode (dev : Z) : M vfs Z :=
  v ← kmalloc;
  if v =? 0 then mret 0 else below (dev_init_vnode v dev);; mret v.

(** The end of [vfs_doadd] without memory. *)
Definition doadd_nomem (name rawname vnode kd : Z) : M vfs (option errno) :=
  kfree_if name;; kfree_if rawname;; kfree_if vnode;; kfree_if kd;;
  vfs_biglock_release;;
  mret (Some ENOMEM).
(** From the allocation of the entry on. *)
Definition doadd_enter (dname : list Z) (rawname : option (list Z)) (kd : Z) (dev fs : Z) : M vfs (option errno) :=
  volname ← (if negb (fs =? 0) then below (fsop_getvolname fs) else mret None);
  bad ← badnames (Some dname) rawname volname;
  if bad : bool then vfs_biglock_release;; mret (Some EEXIST)
  else
    r ← zoom (array_add kd);
    match r with
    | inr index =>
        (if negb (dev =? 0) then below (set_devnumber dev (u32 (index + 1))) else mret tt);;
        vfs_biglock_release;; mret None
    | inl e => vfs_biglock_release;; mret (Some e)
    end.
Definition vfs_doadd (dname : list Z) (mountable : bool) (dev fs : Z) : M vfs (option errno) :=
  vfs_biglock_acquire;;
  name ← kmalloc;
  if name =? 0 then doadd_nomem 0 0 0 0
  else
    '(rawname, rawstr) ← (if mountable then mkrawname dname else mret (0, []));
    if mountable && (rawname =? 0) then doadd_nomem name 0 0 0
    else
      vnode ← dev_create_vnode dev;
      if vnode =? 0 then doadd_nomem name rawname 0 0
      else
        kd ← kmalloc;
        if kd =? 0 then doadd_nomem name rawname vnode 0
        else
          let rawname := if mountable then Some rawstr else None in
          put_kd kd (Knowndev dname rawname dev vnode fs);;
          doadd_enter dname rawname kd dev fs.
Definition vfs_adddev (devname : list Z) (dev : Z) (mountable : bool) : M vfs (option errno) :=
  vfs_doadd devname mountable dev 0.
Definition vfs_addfs (devname : list Z) (fs : Z) : M vfs (option errno) := vfs_doadd devname false 0 fs.

Definition devnull_create : M vfs unit :=
  dev ← kmalloc;
  if dev =? 0 then panic
  else
    below (init_null_device dev);;
    r ← vfs_adddev null dev false;
    match r with Some _ => panic | None => mret tt end.
(** The array and the lock take one block each. *)
Definition vfs_bootstrap : M vfs unit :=
  a ← kmalloc;
  if a =? 0 then panic
  else
    modify (λ s, set_devs array_init (v_heap s) s);;
    l ← kmalloc;
    if l =? 0 then panic
    else
      modify (set_lock false 0);;
      devnull_create.

(** ** Mounting *)
Definition findmount (devname : list Z) : M vfs (result Z) :=
  h ← vfs_biglock_do_i_hold;
  kassert h;;
  for_devs (λ p dev,
    mret (if bool_decide (kd_rawname dev = None) then None
          else if bool_decide (devname = kd_name dev) then Some (inr p) else None)) (inl ENODEV).

Definition vfs_mount (devname : list Z) (mountfunc : Z → M W (result Z)) : M vfs (option errno) :=
  vfs_biglock_acquire;;
  r ← findmount devname;
  match r with
  | inl e => vfs_biglock_release;; mret (Some e)
  | inr p =>
      kd ← get_kd p;
      if negb (kd_fs kd =? 0) then vfs_biglock_release;; mret (Some EBUSY)
      else
        kassert (bool_decide (is_Some (kd_rawname kd)));;
        kassert (negb (kd_device kd =? 0));;
        r ← below (mountfunc (kd_device kd));
        match r with
        | inl e => vfs_biglock_release;; mret (Some e)
        | inr fs =>
            kassert (negb (fs =? 0));;
            put_kd p (set_kd_fs fs kd);;
            _ ← below (fsop_getvolname fs);
            vfs_biglock_release;;
            mret None
        end
  end.

Definition unmount_kd (p : Z) (kd : knowndev) : M vfs (option errno) :=
  if kd_fs kd =? 0 then mret (Some EINVAL)
  else
    kassert (bool_decide (is_Some (kd_rawname kd)));;
    kassert (negb (kd_device kd =? 0));;
    r ← below (fsop_sync (kd_fs kd));
    match r with
    | Some e => mret (Some e)
    | None =>
        r ← below (fsop_unmount (kd_fs kd));
        match r with
        | Some e => mret (Some e)
        | None => put_kd p (set_kd_fs 0 kd);; mret None
        end
    end.
Definition vfs_unmount (devname : list Z) : M vfs (option errno) :=
  vfs_biglock_acquire;;
  r ← findmount devname;
  r ← (match r with
       | inl e => mret (Some e)
       | inr p => kd ← get_kd p; unmount_kd p kd
       end);
  vfs_biglock_release;;
  mret r.

Definition unmountall_body (p : Z) (dev : knowndev) : M vfs (option unit) :=
  if bool_decide (kd_rawname dev = None) then mret None
  else if kd_fs dev =? 0 then mret None
  else
    r ← below (fsop_sync (kd_fs dev));
    r ← (match r with Some _ => below (fsop_sync (kd_fs dev)) | None => mret None end);
    match r with
    | Some _ => mret None
    | None =>
        r ← below (fsop_unmount (kd_fs dev));
        match r with
        | Some _ => mret None
        | None => put_kd p (set_kd_fs 0 dev);; mret None
        end
    end.
Definition vfs_unmountall : M vfs (option errno) :=
  vfs_biglock_acquire;;
  _ ← for_devs unmountall_body tt;
  vfs_biglock_release;;
  mret None.

(** ** The current directory *)
Definition vfs_getcurdir : M vfs (result Z) :=
  s ← getS;
  if negb (t_cwd s =? 0) then below (vop_incref (t_cwd s));; mret (inr (t_cwd s))
  else mret (inl ENOENT).
Definition replace_cwd (dir : Z) : M vfs unit :=
  s ← getS;
  let old := t_cwd s in
  putS (set_cwd dir s);;
  if negb (old =? 0) then below (vop_decref old) else mret tt.
Definition vfs_setcurdir (dir : Z) : M vfs (option errno) :=
  r ← below (vop_gettype dir);
  match r with
  | inl e => mret (Some e)
  | inr vtype =>
      if negb (vtype =? S_IFDIR) then mret (Some ENOTDIR)
      else below (vop_incref dir);; replace_cwd dir;; mret None
  end.
Definition vfs_clearcurdir : M vfs (option errno) := replace_cwd 0;; mret None.

(** ** Path names *)
(** The loop for the first colon or slash: their positions, -1 for none. *)
Fixpoint scan_path (n : nat) (path : list Z) (i : Z) : M vfs (Z * Z) :=
  match n with
  | O => undef
  | S n =>
      c ← of_opt (zget path i);
      if c =? 0 then mret (-1, -1)
      else if c =? COLON then mret (i, -1)
      else if c =? SLASH then mret (-1, i)
      else scan_path n path (i + 1)
  end.
(** [while (path[i+1]=='/') i++]. *)
Fixpoint skip_slashes (n : nat) (path : list Z) (i : Z) : M vfs Z :=
  match n with
  | O => undef
  | S n =>
      c ← of_opt (zget path (i + 1));
      if c =? SLASH then skip_slashes n path (i + 1) else mret i
  end.

(** The buffer afterwards, where the subpath starts in it, and the vnode. *)
Definition getdevice (path : list Z) : M vfs (result (list Z * Z * Z)) :=
  h ← vfs_biglock_do_i_hold;
  kassert h;;
  '(colon, slash) ← scan_path (length path) path 0;
  if (colon <? 0) && negb (slash =? 0) then
    r ← vfs_getcurdir;
    mret (match r with inl e => inl e | inr vn => inr (path, 0, vn) end)
  else if 0 <? colon then
    path ← of_opt (zset colon 0 path);
    i ← skip_slashes (length path) path colon;
    r ← vfs_getroot (cstr path);
    mret (match r with inl e => inl e | inr vn => inr (path, i + 1, vn) end)
  else
    kassert ((colon =? 0) || (slash =? 0));;
    c ← of_opt (zget path 0);
    r ← (if c =? SLASH then
           s ← getS;
           if bootfs_vnode s =? 0 then mret (inl ENOENT)
           else below (vop_incref (bootfs_vnode s));; mret (inr (bootfs_vnode s))
         else
           kassert (c =? COLON);;
           r ← vfs_getcurdir;
           match r with
           | inl e => mret (inl e)
           | inr vn =>
               fs ← below (vn_fs vn);
               kassert (negb (fs =? 0));;
               root ← below (fsop_getroot fs);
               below (vop_decref vn);;
               mret (inr root)
           end);
    match r with
    | inl e => mret (inl e)
    | inr vn => i ← skip_slashes (length path) path 0; mret (inr (path, i + 1, vn))
    end.

Definition subpath (path : list Z) (i : Z) : list Z := cstr (drop (Z.to_nat i) path).

Definition vfs_lookparent (path : list Z) (buflen : Z) : M vfs (result (Z * list Z)) :=
  vfs_biglock_acquire;;
  r ← getdevice path;
  match r with
  | inl e => vfs_biglock_release;; mret (inl e)
  | inr (path, i, startvn) =>
      let path := subpath path i in
      r ← (if Z.of_nat (length path) =? 0 then mret (inl EINVAL)
           else below (vop_lookparent startvn path buflen));
      below (vop_decref startvn);;
      vfs_biglock_release;;
      mret r
  end.

Definition vfs_lookup (path : list Z) : M vfs (result Z) :=
  vfs_biglock_acquire;;
  r ← getdevice path;
  match r with
  | inl e => vfs_biglock_release;; mret (inl e)
  | inr (path, i, startvn) =>
      let path := subpath path i in
      if Z.of_nat (length path) =? 0 then vfs_biglock_release;; mret (inr startvn)
      else
        r ← below (vop_lookup startvn path);
        below (vop_decref startvn);;
        vfs_biglock_release;;
        mret r
  end.

Definition vfs_chdir (path : list Z) : M vfs (option errno) :=
  r ← vfs_lookup path;
  match r with
  | inl e => mret (Some e)
  | inr vn =>
      r ← vfs_setcurdir vn;
      below (vop_decref vn);;
      mret r
  end.

(** [uiomove] of bytes of the kernel to a reading [uio]. *)
Definition uio_put (buf : list Z) (u : uio) : M vfs (option errno * uio) :=
  '(r, _, u) ← below (zoom (uiomove buf (Z.of_nat (length buf)) u));
  mret (r, u).
Definition vfs_getcwd (u : uio) : M vfs (option errno * uio) :=
  kassert (bool_decide (uio_rw_ u = UIO_READ));;
  r ← vfs_getcurdir;
  match r with
  | inl e => mret (Some e, u)
  | inr cwd =>
      fs ← below (vn_fs cwd);
      kassert (negb (fs =? 0));;
      volname ← below (fsop_getvolname fs);
      name ← (match volname with
              | Some n => mret (Some n)
              | None => vfs_biglock_acquire;; n ← vfs_getdevname fs; vfs_biglock_release;; mret n
              end);
      match name with
      | None => panic
      | Some name =>
          '(r, u) ← uio_put name u;
          '(r, u) ← (match r with Some e => mret (Some e, u) | None => uio_put [COLON] u end);
          '(r, u) ← (match r with Some e => mret (Some e, u) | None => below (vop_namefile cwd u) end);
          below (vop_decref cwd);;
          mret (r, u)
      end
  end.

(** ** The boot file system *)
Definition change_bootfs (newvn : Z) : M vfs unit :=
  s ← getS;
  let oldvn := bootfs_vnode s in
  putS (set_boot newvn s);;
  if negb (oldvn =? 0) then below (vop_decref oldvn) else mret tt.
(** [tmp] has [NAME_MAX+1] bytes, of which [snprintf] gets all but one. *)
Definition vfs_setbootfs (fsname : list Z) : M vfs (option errno) :=
  vfs_biglock_acquire;;
  let tmp := take (Z.to_nat (NAME_MAX - 1)) fsname in
  if decide (COLON ∈ tmp) then vfs_biglock_release;; mret (Some EINVAL)
  else
    r ← vfs_chdir (tmp ++ [COLON; 0]);
    match r with
    | Some e => vfs_biglock_release;; mret (Some e)
    | None =>
        r ← vfs_getcurdir;
        match r with
        | inl e => vfs_biglock_release;; mret (Some e)
        | inr newguy => change_bootfs newguy;; vfs_biglock_release;; mret None
        end
    end.
Definition vfs_clearbootfs : M vfs unit :=
  vfs_biglock_acquire;; change_bootfs 0;; vfs_biglock_release.

(** ** Operations on paths *)
Definition vfs_open_trunc (vn openflags : Z) (canwrite : bool) : M vfs (result Z) :=
  if negb (Z.land openflags O_TRUNC =? 0) then
    r ← (if canwrite then below (vop_truncate vn 0) else mret (Some EINVAL));
    match r with
    | Some e => below (vop_decopen vn);; below (vop_decref vn);; mret (inl e)
    | None => mret (inr vn)
    end
  else mret (inr vn).
Definition vfs_open_vnode (vn openflags : Z) (canwrite : bool) : M vfs (result Z) :=
  kassert (negb (vn =? 0));;
  r ← below (vop_open vn openflags);
  match r with
  | Some e => below (vop_decref vn);; mret (inl e)
  | None => below (vop_incopen vn);; vfs_open_trunc vn openflags canwrite
  end.
Definition vfs_open (path : list Z) (openflags mode : Z) : M vfs (result Z) :=
  let how := Z.land openflags O_ACCMODE in
  if negb ((how =? O_RDONLY) || (how =? O_WRONLY) || (how =? O_RDWR)) then mret (inl EINVAL)
  else
    let canwrite := negb (how =? O_RDONLY) in
    r ← (if negb (Z.land openflags O_CREAT =? 0) then
           let excl := negb (Z.land openflags O_EXCL =? 0) in
           r ← vfs_lookparent path (NAME_MAX + 1);
           match r with
           | inl e => mret (inl e)
           | inr (dir, name) =>
               r ← below (vop_creat dir name excl mode);
               below (vop_decref dir);;
               mret r
           end
         else vfs_lookup path);
    match r with
    | inl e => mret (inl e)
    | inr vn => vfs_open_vnode vn openflags canwrite
    end.

Definition vfs_close (vn : Z) : M vfs unit := below (vop_decopen vn);; below (vop_decref vn).

(** The common shape of [vfs_remove], [vfs_symlink], [vfs_mkdir] and [vfs_rmdir]. *)
Definition with_parent (path : list Z) (op : Z → list Z → M W (option errno)) : M vfs (option errno) :=
  r ← vfs_lookparent path (NAME_MAX + 1);
  match r with
  | inl e => mret (Some e)
  | inr (dir, name) =>
      r ← below (op dir name);
      below (vop_decref dir);;
      mret r
  end.
Definition vfs_remove (path : list Z) : M vfs (option errno) := with_parent path vop_remove.
Definition vfs_symlink (contents path : list Z) : M vfs (option errno) :=
  with_parent path (λ dir name, vop_symlink dir name contents).
Definition vfs_mkdir (path : list Z) (mode : Z) : M vfs (option errno) :=
  with_parent path (λ dir name, vop_mkdir dir name mode).
Definition vfs_rmdir (path : list Z) : M vfs (option errno) := with_parent path vop_rmdir.

Definition vfs_readlink (path : list Z) (u : uio) : M vfs (option errno * uio) :=
  r ← vfs_lookup path;
  match r with
  | inl e => mret (Some e, u)
  | inr vn =>
      r ← below (vop_readlink vn u);
      below (vop_decref vn);;
      mret r
  end.

(** Whether two vnodes are on the same file system. *)
Definition same_fs (v1 v2 : Z) : M vfs bool :=
  f1 ← below (vn_fs v1);
  f2 ← below (vn_fs v2);
  mret (negb (f1 =? 0) && negb (f2 =? 0) && (f1 =? f2)).
Definition vfs_rename (oldpath newpath : list Z) : M vfs (option errno) :=
  r ← vfs_lookparent oldpath (NAME_MAX + 1);
  match r with
  | inl e => mret (Some e)
  | inr (olddir, oldname) =>
      r ← vfs_lookparent newpath (NAME_MAX + 1);
      match r with
      | inl e => below (vop_decref olddir);; mret (Some e)
      | inr (newdir, newname) =>
          same ← same_fs olddir newdir;
          r ← (if same : bool then below (vop_rename olddir oldname newdir newname) else mret (Some EXDEV));
          below (vop_decref newdir);;
          below (vop_decref olddir);;
          mret r
      end
  end.
Definition vfs_link (oldpath newpath : list Z) : M vfs (option errno) :=
  r ← vfs_lookup oldpath;
  match r with
  | inl e => mret (Some e)
  | inr oldfile =>
      r ← vfs_lookparent newpath (NAME_MAX + 1);
      match r with
      | inl e => below (vop_decref oldfile);; mret (Some e)
      | inr (newdir, newname) =>
          same ← same_fs oldfile newdir;
          r ← (if same : bool then below (vop_link newdir newname oldfile) else mret (Some EXDEV));
          below (vop_decref newdir);;
          below (vop_decref oldfile);;
          mret r
      end
  end.
End vfs.
