(* ===== verification/VfsPath.v ===== *)
(** Path names: what [getdevice] makes of the buffer of a path is what a parser on
    strings says. *)

From stdpp Require Import base tactics numbers list gmap.
From S2P Require Import Prelude KernDefs CopyInOut Uio Array Vfs.
Local Open Scope Z_scope.

(** * The reference *)
(** Where the lookup of a path starts. *)
Inductive start_point :=
| FromCwd                  (* name: the current directory *)
| FromDevice (d : list Z)  (* dev:name: the root of a device *)
| FromBoot                 (* /name: the boot file system *)
| FromCurFs.               (* :name: the root of the current file system *)

(** The part before the first colon or slash, and the rest. *)
Fixpoint split_sep (s : list Z) : list Z * list Z :=
  match s with
  | [] => ([], [])
  | c :: t => if decide (c = COLON ∨ c = SLASH) then ([], s) else (c :: (split_sep t).1, (split_sep t).2)
  end.
Fixpoint strip (s : list Z) : list Z :=
  match s with
  | c :: t => if decide (c = SLASH) then strip t else s
  | [] => []
  end.
Definition parse_path (s : list Z) : start_point * list Z :=
  match split_sep s with
  | ([], c :: t) => (if decide (c = COLON) then FromCurFs else FromBoot, strip t)
  | (d, c :: t) => if decide (c = COLON) then (FromDevice d, strip t) else (FromCwd, s)
  | _ => (FromCwd, s)
  end.

Section path.
Context {W : Type} {FO : FsOps W}.
Implicit Types (st : vfs (W := W)).

Definition start_vnode (p : start_point) : M (vfs (W := W)) (result Z) :=
  match p with
  | FromCwd => vfs_getcurdir
  | FromDevice d => vfs_getroot d
  | FromBoot =>
      s ← getS;
      if bootfs_vnode s =? 0 then mret (inl ENOENT)
      else below (vop_incref (bootfs_vnode s));; mret (inr (bootfs_vnode s))
  | FromCurFs =>
      r ← vfs_getcurdir;
      match r with
      | inl e => mret (inl e)
      | inr vn =>
          fs ← below (vn_fs vn);
          kassert (negb (fs =? 0));;
          root ← below (fsop_getroot fs);
          below (vop_decref vn);;
          mret (inr root)
      end
  end.

(** * The loops *)
Lemma split_sep_app s : s = (split_sep s).1 ++ (split_sep s).2.
Proof. induction s as [|c t IH]; [done|]. cbn [split_sep]. case_decide; [done|]. simpl. by rewrite <-IH. Qed.
Lemma split_sep_head s c t : (split_sep s).2 = c :: t → c = COLON ∨ c = SLASH.
Proof. induction s as [|x s IH]; [done|]. cbn [split_sep]. case_decide; simpl; [by intros [= <- <-]|done]. Qed.

Lemma zget_app_here (l l' : list Z) i : i = Z.of_nat (length l) → zget (l ++ l') i = head l'.
Proof.
  intros ->. unfold zget. rewrite (proj2 (Z.leb_le _ _)) by lia. rewrite Nat2Z.id, lookup_app_r by lia. rewrite Nat.sub_diag.
  by destruct l'.
Qed.

Lemma scan_path_eq s : Forall (λ b, b ≠ 0) s → ∀ n pre junk st, (length s < n)%nat →
  scan_path n (pre ++ s ++ 0 :: junk) (Z.of_nat (length pre)) st =
  Ok (match split_sep s with
      | (d, c :: _) => if decide (c = COLON) then (Z.of_nat (length pre + length d), -1) else (-1, Z.of_nat (length pre + length d))
      | _ => (-1, -1)
      end, st).
Proof.
  induction 1 as [|c t Hc Ht IH]; intros n pre junk st Hn; (destruct n as [|n]; [simpl in Hn; lia| ]); cbn [scan_path].
  - by rewrite (bind_of_opt _ _ 0) by by apply zget_app_here.
  - rewrite (bind_of_opt _ _ c) by by apply zget_app_here. cbv beta. rewrite (proj2 (Z.eqb_neq c 0)) by done. cbn [split_sep].
    destruct (decide (c = COLON ∨ c = SLASH)) as [H|H].
    + rewrite Nat.add_0_r. case_decide; [subst c; done|]. destruct H as [-> | ->]; done.
    + rewrite (proj2 (Z.eqb_neq c COLON)), (proj2 (Z.eqb_neq c SLASH)) by tauto.
      specialize (IH n (pre ++ [c]) junk st). rewrite <-app_assoc in IH. simpl in IH. rewrite length_app in IH. simpl in IH.
      replace (Z.of_nat (length pre) + 1) with (Z.of_nat (length pre + 1)) by lia. change ((c :: t) ++ 0 :: junk) with (c :: t ++ 0 :: junk). rewrite IH by (simpl in Hn; lia).
      destruct (split_sep t) as [d [|c' t']]; [done|]. simpl. by replace (length pre + 1 + length d)%nat with (length pre + S (length d))%nat by lia.
Qed.

Lemma skip_slashes_eq t : ∀ n pre junk st, (length t < n)%nat →
  skip_slashes n (pre ++ t ++ 0 :: junk) (Z.of_nat (length pre) - 1) st =
  Ok (Z.of_nat (length pre + (length t - length (strip t))) - 1, st).
Proof.
  induction t as [|c t IH]; intros n pre junk st Hn; (destruct n as [|n]; [simpl in Hn; lia| ]); cbn [skip_slashes].
  - rewrite (bind_of_opt _ _ 0) by (apply zget_app_here; lia). simpl. by rewrite Nat.add_0_r.
  - rewrite (bind_of_opt _ _ c) by (apply zget_app_here; lia). cbn [strip]. case_decide as Hc.
    + subst c. simpl (SLASH =? SLASH). cbv iota. specialize (IH n (pre ++ [SLASH]) junk st). rewrite <-app_assoc in IH. simpl in IH.
      rewrite length_app in IH. simpl in IH. replace (Z.of_nat (length pre) - 1 + 1) with (Z.of_nat (length pre + 1) - 1) by lia.
      change ((SLASH :: t) ++ 0 :: junk) with (SLASH :: t ++ 0 :: junk). rewrite IH by (simpl in Hn; lia). do 2 f_equal. assert (length (strip t) ≤ length t)%nat; [|simpl; lia].
      clear. induction t as [|x t IH]; [done|]. cbn [strip]. case_decide; simpl; lia.
    + rewrite (proj2 (Z.eqb_neq c SLASH)) by done. rewrite Nat.sub_diag, Nat.add_0_r. done.
Qed.
Lemma strip_suffix t : ∃ l, t = l ++ strip t ∧ length l = (length t - length (strip t))%nat.
Proof.
  induction t as [|c t (l & E & H)]; [by exists []|]. cbn [strip]. case_decide.
  - exists (c :: l). split; [simpl; by rewrite <-E|]. rewrite E at 1. simpl. rewrite length_app. lia.
  - exists []. split; [done|]. simpl. lia.
Qed.
Lemma subpath_strip pre t junk i : Forall (λ b, b ≠ 0) t → i = Z.of_nat (length pre + (length t - length (strip t))) →
  subpath (pre ++ t ++ 0 :: junk) i = strip t.
Proof.
  intros Hz ->. unfold subpath. rewrite Nat2Z.id. destruct (strip_suffix t) as (l & E & <-). rewrite E in Hz at 1. rewrite E at 1.
  replace (pre ++ (l ++ strip t) ++ 0 :: junk) with ((pre ++ l) ++ strip t ++ 0 :: junk) by by rewrite <-!app_assoc.
  rewrite drop_app_length' by (rewrite length_app; lia). apply cstr_end. by apply Forall_app in Hz as [_ ?].
Qed.

(** * [getdevice] *)
(** The result with the subpath at index [i] of the buffer [path]. *)
Definition started (path : list Z) (i : Z) (r : result Z) : result (list Z * Z * Z) :=
  match r with inl e => inl e | inr vn => inr (path, i, vn) end.


Lemma zset_app (l l' : list Z) i x y : i = Z.of_nat (length l) → zset i y (l ++ x :: l') = Some (l ++ y :: l').
Proof.
  intros ->. unfold zset. rewrite length_app. simpl. rewrite (proj2 (Z.leb_le _ _)), (proj2 (Z.ltb_lt _ _)) by lia. simpl.
  rewrite Nat2Z.id. f_equal. rewrite <-(Nat.add_0_r (length l)). by rewrite insert_app_r.
Qed.

(** [dev:name]. *)
Lemma device_eq b d t junk st : Forall (λ b, b ≠ 0) (b :: d) →
  let path := (b :: d) ++ 0 :: t ++ 0 :: junk in
  (path ← of_opt (zset (Z.of_nat (length (b :: d))) 0 ((b :: d) ++ COLON :: t ++ 0 :: junk));
   i ← skip_slashes (length path) path (Z.of_nat (length (b :: d)));
   r ← vfs_getroot (cstr path);
   mret (match r with inl e => inl e | inr vn => inr (path, i + 1, vn) end)) st =
  (r ← vfs_getroot (b :: d); mret (started path (Z.of_nat (length (b :: d) + 1 + (length t - length (strip t)))) r)) st.
Proof.
  intros Hz path. rewrite (bind_of_opt _ _ path) by by apply zset_app.
  pose proof (skip_slashes_eq t (length path) ((b :: d) ++ [0]) junk st) as H. rewrite <-app_assoc in H.
  change ([0] ++ t ++ 0 :: junk) with (0 :: t ++ 0 :: junk) in H. fold path in H. rewrite length_app in H. simpl (length [0]) in H.
  replace (Z.of_nat (length (b :: d))) with (Z.of_nat (length (b :: d) + 1) - 1) by lia. erewrite bind_ok.
  2:{ apply H. unfold path. rewrite length_app. simpl. rewrite length_app. simpl. lia. }
  assert (cstr path = b :: d) as -> by by apply cstr_end. by rewrite Z.sub_add.
Qed.

(** After the first separator, with the start in hand. *)
Lemma finish_eq (m : M (vfs (W := W)) (result Z)) c t junk st : c ≠ 0 → Forall (λ b, b ≠ 0) t →
  let path := c :: t ++ 0 :: junk in
  (r ← m; match r with
          | inl e => mret (inl e)
          | inr vn => i ← skip_slashes (length path) path 0; mret (inr (path, i + 1, vn))
          end) st =
  (r ← m; mret (started path (Z.of_nat (1 + (length t - length (strip t)))) r)) st.
Proof.
  intros Hc Hz path. apply bind_ext. intros [e|vn] s'; [done|].
  rewrite (bind_ok _ _ _ _ _ (skip_slashes_eq t (length path) [c] junk s' ltac:(unfold path; simpl; rewrite length_app; simpl; lia))).
  simpl length. unfold started. by rewrite Z.sub_add.
Qed.

Lemma getdevice_eq s junk st : Forall (λ b, b ≠ 0) s → biglock_mine st = true →
  ∃ path i, subpath path i = (parse_path s).2 ∧
    getdevice (s ++ 0 :: junk) st = (r ← start_vnode (parse_path s).1; mret (started path i r)) st.
Proof.
  intros Hz Hm. unfold getdevice. rewrite (bind_ok _ _ true st st) by (unfold vfs_biglock_do_i_hold, gets; by rewrite Hm).
  rewrite bind_kassert by done.
  rewrite (bind_ok _ _ _ _ _ (scan_path_eq s Hz (length (s ++ 0 :: junk)) [] junk st ltac:(rewrite length_app; simpl; lia))).
  unfold parse_path. pose proof (split_sep_app s) as Es. pose proof (split_sep_head s) as Hsep.
  assert (subpath (s ++ 0 :: junk) 0 = s) as Hwhole by by apply cstr_end.
  destruct (split_sep s) as [d [|c t]]; simpl in Es, Hsep.
  { exists (s ++ 0 :: junk), 0. destruct d; done. }
  assert (Forall (λ b, b ≠ 0) d ∧ Forall (λ b, b ≠ 0) t) as [Hzd Hzt].
  { rewrite Es, Forall_app, Forall_cons in Hz. tauto. }
  destruct (Hsep c t eq_refl) as [-> | ->]; destruct d as [|b d]; simpl in Es.
  - subst s. eexists _, _. split; [|by apply (finish_eq (start_vnode FromCurFs) COLON t junk st)].
    by apply (subpath_strip [COLON]).
  - subst s. eexists _, _. split; cycle 1.
    + change (b :: d ++ COLON :: t) with ((b :: d) ++ COLON :: t). rewrite <-app_assoc. rewrite !decide_True by done. apply (device_eq b d t junk st Hzd).
    + pose proof (subpath_strip ((b :: d) ++ [0]) t junk) as H. rewrite <-app_assoc, length_app in H. simpl in H. by apply H.
  - subst s. eexists _, _. split; [|by apply (finish_eq (start_vnode FromBoot) SLASH t junk st)].
    by apply (subpath_strip [SLASH]).
  - by exists (s ++ 0 :: junk), 0.
Qed.
End path.
