(* ===== verification/VfsRefs.v ===== *)
(** References: whatever is called on path names, in whatever order and with
    whatever errors, the virtual file system holds exactly one reference for each open
    file, for the current directory and for the boot file system, and gives the big
    lock back.

    The proofs are against the class [FsLawful], which says what a file system promises:
    how each operation changes the references and open counts of vnodes. *)

From stdpp Require Import base tactics numbers list gmap.
From S2P Require Import Prelude KernDefs CopyInOut Uio Array Vfs VfsPath.
Local Open Scope Z_scope.

Definition cstring (s : list Z) : Prop := Forall (λ b, b ≠ 0) s.
(** One reference to [p], none to NULL. *)
Definition one (p q : Z) : Z := if decide (p ≠ 0 ∧ q = p) then 1 else 0.
Definition zero (q : Z) : Z := 0.
Definition REF_MAX : Z := 2147483646.

Class FsView (W : Type) {FO : FsOps W} := {
  fs_inv : W → Prop;
  (** References and opens of a vnode, without those that a device table or the file
      system keeps for itself. *)
  refs : W → Z → Z;
  opens : W → Z → Z;
  (** The file system of a vnode, and whether it is a directory. *)
  attr : W → Z → Z * bool;
  live_fs : W → Z → Prop;
  dev_node : W → Z → Prop;
}.

(** A step that adds the references [dr] and the opens [dp]; vnodes that stay in use
    stay what they are. *)
Record wstep {W} {FO : FsOps W} {FV : FsView W} (dr dp : Z → Z) (w w' : W) : Prop := {
  ws_inv : fs_inv w';
  ws_refs : ∀ q, refs w' q = refs w q + dr q;
  ws_opens : ∀ q, opens w' q = opens w q + dp q;
  ws_attr : ∀ q, 1 ≤ refs w q → 1 ≤ refs w' q → attr w' q = attr w q;
  ws_live : ∀ f, live_fs w f → live_fs w' f;
  ws_dev : ∀ q, dev_node w q → dev_node w' q;
}.

Class FsLawful (W : Type) {FO : FsOps W} {FV : FsView W} : Prop := {
  law_null w : fs_inv w → refs w 0 = 0;
  law_nonneg w p : fs_inv w → 0 ≤ refs w p;
  law_dir_fs w p : fs_inv w → 1 ≤ refs w p → (attr w p).2 = true → (attr w p).1 ≠ 0;
  law_fs_live w p : fs_inv w → 1 ≤ refs w p → (attr w p).1 ≠ 0 → live_fs w (attr w p).1;
  law_incref w p : fs_inv w → 1 ≤ refs w p ∨ dev_node w p → refs w p < REF_MAX →
    wp (vop_incref p) (λ _ w', p ≠ 0 ∧ wstep (one p) zero w w') w;
  law_decref w p : fs_inv w → 1 ≤ refs w p → (refs w p = 1 → opens w p = 0) →
    wp (vop_decref p) (λ _ w', wstep (λ q, - one p q) zero w w') w;
  law_incopen w p : fs_inv w → 1 ≤ refs w p → 0 ≤ opens w p < REF_MAX →
    wp (vop_incopen p) (λ _ w', wstep zero (one p) w w') w;
  law_decopen w p : fs_inv w → 1 ≤ refs w p → 1 ≤ opens w p →
    wp (vop_decopen p) (λ _ w', wstep zero (λ q, - one p q) w w') w;
  law_open w p fl : fs_inv w → 1 ≤ refs w p → wp (vop_open p fl) (λ _ w', wstep zero zero w w') w;
  law_truncate w p : fs_inv w → 1 ≤ refs w p → wp (vop_truncate p 0) (λ _ w', wstep zero zero w w') w;
  law_gettype w p : fs_inv w → 1 ≤ refs w p →
    wp (vop_gettype p) (λ r w', w' = w ∧ ∀ t, r = inr t → t = S_IFDIR ↔ (attr w p).2 = true) w;
  law_vn_fs w p : fs_inv w → 1 ≤ refs w p → wp (vn_fs p) (λ f w', w' = w ∧ f = (attr w p).1) w;
  law_creat w p name excl mode : fs_inv w → 1 ≤ refs w p → (attr w p).2 = true → cstring name → (∀ q, refs w q < REF_MAX) →
    wp (vop_creat p name excl mode) (λ r w', match r with
      | inl _ => wstep zero zero w w'
      | inr q => q ≠ 0 ∧ wstep (one q) zero w w'
      end) w;
  law_symlink w p name contents : fs_inv w → 1 ≤ refs w p → (attr w p).2 = true → cstring name →
    wp (vop_symlink p name contents) (λ _ w', wstep zero zero w w') w;
  law_mkdir w p name mode : fs_inv w → 1 ≤ refs w p → (attr w p).2 = true → cstring name →
    wp (vop_mkdir p name mode) (λ _ w', wstep zero zero w w') w;
  law_rmdir w p name : fs_inv w → 1 ≤ refs w p → (attr w p).2 = true → cstring name →
    wp (vop_rmdir p name) (λ _ w', wstep zero zero w w') w;
  law_remove w p name : fs_inv w → 1 ≤ refs w p → (attr w p).2 = true → cstring name → (∀ q, refs w q < REF_MAX) →
    wp (vop_remove p name) (λ _ w', wstep zero zero w w') w;
  law_rename w p n p' n' : fs_inv w → 1 ≤ refs w p → 1 ≤ refs w p' → (attr w p).2 = true → (attr w p').2 = true →
    (attr w p).1 = (attr w p').1 → cstring n → cstring n' → (∀ q, refs w q < REF_MAX) →
    wp (vop_rename p n p' n') (λ _ w', wstep zero zero w w') w;
  law_lookup w p path : fs_inv w → 1 ≤ refs w p → cstring path → (∀ q, refs w q < REF_MAX) →
    wp (vop_lookup p path) (λ r w', match r with
      | inl _ => wstep zero zero w w'
      | inr q => q ≠ 0 ∧ wstep (one q) zero w w'
      end) w;
  law_lookparent w p path n : fs_inv w → 1 ≤ refs w p → cstring path → (∀ q, refs w q < REF_MAX) →
    wp (vop_lookparent p path n) (λ r w', match r with
      | inl _ => wstep zero zero w w'
      | inr (q, name) => q ≠ 0 ∧ cstring name ∧ (attr w' q).2 = true ∧ wstep (one q) zero w w'
      end) w;
  law_getvolname w f : fs_inv w → live_fs w f → wp (fsop_getvolname f) (λ _ w', w' = w) w;
  law_getroot w f : fs_inv w → live_fs w f → (∀ q, refs w q < REF_MAX) →
    wp (fsop_getroot f) (λ p w', p ≠ 0 ∧ wstep (one p) zero w w') w;
}.

Section refs.
Context {W : Type} {FO : FsOps W} {FV : FsView W} {FW : FsLawful W}.
Implicit Types (s : vfs (W := W)) (X Y : Z → Z).

(** * The invariant *)
Definition kd_good (w : W) (kd : knowndev) : Prop :=
  (kd_fs kd ≠ 0 → live_fs w (kd_fs kd)) ∧ (kd_device kd ≠ 0 → dev_node w (kd_vnode kd)) ∧
  (kd_fs kd = 0 ∨ is_Some (kd_rawname kd) → kd_device kd ≠ 0).
(** [X] and [Y] are the references and opens that callers hold; [d] is the depth of
    the big lock. *)
Record vfs_inv (X Y : Z → Z) (d : Z) (s : vfs) : Prop := {
  vi_lock : biglock_mine s = (0 <? d) ∧ vfs_biglock_depth s = d ∧ 0 ≤ d < 1000;
  vi_world : fs_inv (v_world s);
  vi_refs : ∀ p, refs (v_world s) p = X p + one (t_cwd s) p + one (bootfs_vnode s) p;
  vi_opens : ∀ p, opens (v_world s) p = Y p;
  vi_le : ∀ p, 0 ≤ Y p ≤ X p;
  vi_cwd : t_cwd s ≠ 0 → (attr (v_world s) (t_cwd s)).2 = true;
  vi_devs : ∃ l, arr_rep (knowndevs s) l ∧ Forall (λ p, ∃ kd, v_kds s !! p = Some kd ∧ kd_good (v_world s) kd) l;
}.
(** The callers' vnodes are what they were. *)
Definition kept (X : Z → Z) (s s' : vfs) : Prop := ∀ q, 1 ≤ X q → attr (v_world s') q = attr (v_world s) q.
(** Room for [k] more references to any vnode. *)
Definition roomy (k : Z) (X : Z → Z) : Prop := ∀ q, X q + k + 2 < REF_MAX.

Definition plus X Y (q : Z) : Z := X q + Y q.

Lemma one_bounds p q : 0 ≤ one p q ≤ 1.
Proof. unfold one. case_decide; lia. Qed.
Lemma one_self p : p ≠ 0 → one p p = 1.
Proof. intros. unfold one. by rewrite decide_True. Qed.
Lemma one_pos p q : 1 ≤ one p q → q = p ∧ p ≠ 0.
Proof. unfold one. case_decide; [naive_solver|lia]. Qed.

Lemma kept_refl X s : kept X s s.
Proof. done. Qed.
Lemma kept_trans X X' s s1 s2 : kept X s s1 → kept X' s1 s2 → (∀ q, X q ≤ X' q) → kept X s s2.
Proof. intros H1 H2 HX q Hq. rewrite H2, H1; [done|done|]. specialize (HX q). lia. Qed.

(** A step below, seen from above. *)
Lemma inv_step X Y d s dr dp w' X' Y' : vfs_inv X Y d s → wstep dr dp (v_world s) w' →
  (∀ q, X' q = X q + dr q) → (∀ q, Y' q = Y q + dp q) → (∀ q, 0 ≤ Y' q ≤ X' q) →
  vfs_inv X' Y' d (set_world w' s).
Proof.
  intros [H1 H2 H3 H4 H5 H6 (l & Hl & Hd)] [S1 S2 S3 S4 S5 S6] HX HY Hle. constructor; simpl; try done.
  - intros p. rewrite S2, H3, HX. lia.
  - intros p. by rewrite S3, H4, HY.
  - intros Hc. pose proof (one_self _ Hc). pose proof (one_bounds (bootfs_vnode s) (t_cwd s)).
    rewrite S4; [by apply H6| |]; [|rewrite S2]; rewrite H3; specialize (Hle (t_cwd s)); specialize (H5 (t_cwd s)); specialize (HX (t_cwd s)); lia.
  - exists l. split; [done|]. eapply Forall_impl; [done|]. intros p (kd & Hk & G1 & G2 & G3). exists kd. split; [done|]. split_and!; auto.
Qed.
Lemma kept_step X Y d s dr dp w' : vfs_inv X Y d s → wstep dr dp (v_world s) w' → (∀ q, 1 ≤ X q → 1 ≤ X q + dr q) →
  kept X s (set_world w' s).
Proof.
  intros Hi Hs Hd q Hq. simpl. apply (ws_attr _ _ _ _ Hs); [|rewrite (ws_refs _ _ _ _ Hs)]; rewrite (vi_refs _ _ _ _ Hi);
    pose proof (one_bounds (t_cwd s) q); pose proof (one_bounds (bootfs_vnode s) q); specialize (Hd q Hq); lia.
Qed.
Lemma wp_below {A} (m : M W A) (Q : A → vfs → Prop) s : wp m (λ a w', Q a (set_world w' s)) (v_world s) → wp (below m) Q s.
Proof. intros H. unfold below. apply wp_zoom. exact H. Qed.
Lemma wp_bind_assoc {S A B C} (m : M S A) (f : A → M S B) (g : B → M S C) Q (t : S) :
  wp (mbind g (mbind f m)) Q t → wp (mbind (λ a, mbind g (f a)) m) Q t.
Proof. unfold wp. by rewrite bind_assoc. Qed.
Lemma set_world_same s : set_world (v_world s) s = s.
Proof. by destruct s. Qed.

Lemma inv_ext X Y X' Y' d s : vfs_inv X Y d s → (∀ q, X' q = X q) → (∀ q, Y' q = Y q) → vfs_inv X' Y' d s.
Proof.
  intros [H1 H2 H3 H4 H5 H6 H7] HX HY. constructor; try done; intros p; rewrite ?HX, ?HY; auto.
Qed.

(** * Single steps *)
Definition same X Y d s s' : Prop := vfs_inv X Y d s' ∧ kept X s s'.
Definition up (p : Z) X Y d s s' : Prop := p ≠ 0 ∧ vfs_inv (plus X (one p)) Y d s' ∧ kept X s s'.

Lemma same_refl X Y d s : vfs_inv X Y d s → same X Y d s s.
Proof. by split. Qed.
Lemma same_trans X Y d d' s s1 s2 : same X Y d s s1 → same X Y d' s1 s2 → same X Y d' s s2.
Proof. intros [_ H1] [H2 H3]. split; [done|]. by eapply kept_trans. Qed.
Lemma same_up p X Y d d' s s1 s2 : same X Y d s s1 → up p X Y d' s1 s2 → up p X Y d' s s2.
Proof. intros [_ H1] (H2 & H3 & H4). split_and!; [done..|]. by eapply kept_trans. Qed.
Lemma up_drop p X Y d d' s s1 s2 : up p X Y d s s1 → same X Y d' s1 s2 → same X Y d' s s2.
Proof. intros (_ & _ & H1) [H2 H3]. split; [done|]. by eapply kept_trans. Qed.
Lemma roomy_le k k' X : roomy k X → k' ≤ k → roomy k' X.
Proof. intros H Hk q. specialize (H q). lia. Qed.
Lemma roomy_plus k X p : roomy (k + 1) X → roomy k (plus X (one p)).
Proof. intros H q. specialize (H q). pose proof (one_bounds p q). unfold plus. lia. Qed.
Lemma roomy_refs k X Y d s : vfs_inv X Y d s → roomy k X → 0 ≤ k → ∀ q, refs (v_world s) q < REF_MAX.
Proof.
  intros Hi Hr Hk q. rewrite (vi_refs _ _ _ _ Hi). specialize (Hr q). pose proof (one_bounds (t_cwd s) q).
  pose proof (one_bounds (bootfs_vnode s) q). lia.
Qed.
Lemma inv_held X Y d s q : vfs_inv X Y d s → 1 ≤ X q → 1 ≤ refs (v_world s) q.
Proof. intros Hi Hq. rewrite (vi_refs _ _ _ _ Hi). pose proof (one_bounds (t_cwd s) q). pose proof (one_bounds (bootfs_vnode s) q). lia. Qed.
Lemma held_not_null X Y d s q : vfs_inv X Y d s → 1 ≤ X q → q ≠ 0.
Proof. intros Hi Hq ->. pose proof (inv_held _ _ _ _ _ Hi Hq). rewrite law_null in H; [lia|apply Hi]. Qed.
Lemma plus_self X p : p ≠ 0 → 0 ≤ X p → 1 ≤ plus X (one p) p.
Proof. intros. unfold plus. rewrite one_self by done. lia. Qed.

(** Steps below that change no counts, and steps that give out a reference. *)
Lemma same_step X Y d s w' : vfs_inv X Y d s → wstep zero zero (v_world s) w' → same X Y d s (set_world w' s).
Proof.
  intros Hi Hs. split; [|by eapply kept_step; [done..|unfold zero; lia]].
  eapply inv_step; [done..| | |]; intros; unfold zero; [lia|lia|apply Hi].
Qed.
Lemma up_step X Y d s p w' : vfs_inv X Y d s → p ≠ 0 → wstep (one p) zero (v_world s) w' → up p X Y d s (set_world w' s).
Proof.
  intros Hi Hp Hs. pose proof (one_bounds p). split_and!; [done| |].
  - eapply inv_step; [done..| | |]; intros; unfold plus, zero; [lia|lia|]. pose proof (vi_le _ _ _ _ Hi q). specialize (H q). lia.
  - eapply kept_step; [done..|]. intros q. specialize (H q). lia.
Qed.

Lemma wp_take X Y d s p : vfs_inv X Y d s → 1 ≤ refs (v_world s) p ∨ dev_node (v_world s) p → roomy 0 X →
  wp (below (vop_incref p)) (λ _ s', up p X Y d s s' ∧ t_cwd s' = t_cwd s ∧ bootfs_vnode s' = bootfs_vnode s) s.
Proof.
  intros Hi Hp Hr. apply wp_below. eapply wp_mono; [apply law_incref; [apply Hi|done|by eapply roomy_refs]|].
  intros [] w' [Hn Hs]. split; [by apply up_step|done].
Qed.
Lemma wp_vn_drop X Y d s p : vfs_inv (plus X (one p)) Y d s → p ≠ 0 → (∀ q, 0 ≤ Y q ≤ X q) →
  wp (below (vop_decref p)) (λ _ s', same X Y d s s') s.
Proof.
  intros Hi Hp Hle. pose proof (one_bounds p) as Hb. apply wp_below.
  assert (1 ≤ plus X (one p) p) as Hh by (apply plus_self; [done|]; specialize (Hle p); lia).
  eapply wp_mono; [apply law_decref; [apply Hi|by eapply inv_held|]|].
  - rewrite (vi_refs _ _ _ _ Hi), (vi_opens _ _ _ _ Hi). unfold plus. rewrite one_self by done. pose proof (one_bounds (t_cwd s) p).
    pose proof (one_bounds (bootfs_vnode s) p). specialize (Hle p). lia.
  - intros [] w' Hs. split.
    + eapply inv_step; [done..| | |]; intros; unfold plus, zero; [lia|lia|apply Hle].
    + intros q Hq. simpl. apply (ws_attr _ _ _ _ Hs); [|rewrite (ws_refs _ _ _ _ Hs)]; rewrite (vi_refs _ _ _ _ Hi); unfold plus;
        pose proof (one_bounds (t_cwd s) q); pose proof (one_bounds (bootfs_vnode s) q); specialize (Hb q); lia.
Qed.
(** After [up]. *)
Lemma wp_put_down X Y d d' s s' p : vfs_inv X Y d s → up p X Y d' s s' → wp (below (vop_decref p)) (λ _, same X Y d' s) s'.
Proof.
  intros Hi Hu. pose proof Hu as (Hp & Hi' & _). eapply wp_mono; [apply (wp_vn_drop X Y d' s' p Hi' Hp), Hi|]. intros [] s2 Hs.
  by eapply up_drop.
Qed.

(** ** The lock *)
Lemma wp_acquire X Y d s : vfs_inv X Y d s → d < 999 → wp vfs_biglock_acquire (λ _ s', same X Y (d + 1) s s' ∧ biglock_mine s' = true) s.
Proof.
  intros [(H0 & H1 & H2) H3 H4 H5 H6 H7 H8] Hd. unfold vfs_biglock_acquire. apply wp_modify. split; [|done]. split; [|done].
  constructor; try done. simpl. rewrite H1, u32_id by lia. rewrite (proj2 (Z.ltb_lt _ _)) by lia. lia.
Qed.
Lemma wp_release X Y d s : vfs_inv X Y (d + 1) s → 0 ≤ d → wp vfs_biglock_release (λ _ s', same X Y d s s' ∧
  t_cwd s' = t_cwd s ∧ bootfs_vnode s' = bootfs_vnode s ∧ v_world s' = v_world s) s.
Proof.
  intros [(H0 & H1 & H2) H3 H4 H5 H6 H7 H8] Hd. unfold vfs_biglock_release. apply wp_bind_2, wp_get, wp_bind_2, wp_kassert.
  { rewrite H0. blia. }
  apply wp_bind_2, wp_kassert; [rewrite H1; blia|]. apply wp_put. split; [|done]. split; [|done]. constructor; try done. simpl.
  rewrite H1. replace (d + 1 - 1) with d by lia. destruct (Z.eqb_spec d 0), (Z.ltb_spec 0 d); split_and!; (done || lia).
Qed.

(** * Looking up names *)
Lemma set_devs_same s : set_devs (knowndevs s) (v_heap s) s = s.
Proof. by destruct s. Qed.
Lemma arr_rep_inj a l l' : arr_rep a l → arr_rep a l' → l = l'.
Proof.
  intros [H1 _ _ H2] [H1' _ _ H2']. assert (length l = length l') as E by lia. rewrite E, H2' in H2.
  by apply (inj (fmap Some)) in H2.
Qed.

Lemma wp_getcurdir X Y d s : vfs_inv X Y d s → roomy 0 X →
  wp vfs_getcurdir (λ r s', match r with
    | inl _ => s' = s ∧ t_cwd s = 0
    | inr vn => up vn X Y d s s' ∧ vn = t_cwd s ∧ t_cwd s' = t_cwd s ∧ bootfs_vnode s' = bootfs_vnode s ∧ (attr (v_world s') vn).2 = true
    end) s.
Proof.
  intros Hi Hr. unfold vfs_getcurdir. apply wp_bind_2, wp_get. destruct (Z.eqb_spec (t_cwd s) 0) as [E|E]; simpl.
  { by apply wp_ret. }
  pose proof (one_self _ E). pose proof (one_bounds (bootfs_vnode s) (t_cwd s)). pose proof (vi_le _ _ _ _ Hi (t_cwd s)).
  apply wp_bind_2. eapply wp_mono; [apply (wp_take X Y d s (t_cwd s) Hi); [|done]|].
  { left. rewrite (vi_refs _ _ _ _ Hi). lia. }
  intros [] s' (Hu & Ec & Eb). wp_steps. split_and!; [done..|]. rewrite <-Ec. apply Hu. by rewrite Ec.
Qed.

Lemma wp_for_devs {R} X Y d s (body : Z → knowndev → M vfs (option R)) dflt (Q : R → vfs → Prop) :
  let J s' := same X Y d s s' ∧ knowndevs s' = knowndevs s ∧ v_kds s' = v_kds s in
  vfs_inv X Y d s →
  (∀ p kd s', J s' → kd_good (v_world s') kd → wp (body p kd) (λ o s2, match o with Some r => Q r s2 | None => J s2 end) s') →
  (∀ s', J s' → Q dflt s') → wp (for_devs body dflt) Q s.
Proof.
  intros J Hi Hb HQ. destruct (vi_devs _ _ _ _ Hi) as (l & Hl & Hgood). unfold for_devs.
  apply wp_bind_2, wp_zoom, wp_gets, wp_bind_2. simpl. rewrite set_devs_same, (ar_num _ _ Hl), Nat2Z.id.
  apply (wp_for_ret (λ _, J)); [by split; [apply same_refl|]| |intros s' Hj; by apply wp_ret, HQ].
  intros i s' Hi0 Hj. pose proof Hj as (_ & Ek & Ed). apply wp_bind_2, wp_zoom. simpl. rewrite Ek.
  pose proof (array_get_spec _ l (v_heap s') Hl i ltac:(lia)) as E. destruct (lookup_lt_is_Some_2 l (Z.to_nat i) ltac:(lia)) as [p Hp].
  assert (zget l i = Some p) as Hz by (apply zget_Some; split; [lia|done]). rewrite Hz in E. unfold wp at 1. rewrite E. simpl. rewrite <-Ek, set_devs_same.
  destruct (proj1 (Forall_lookup _ _) Hgood _ _ Hp) as (kd & Hkd & _). unfold get_kd. apply wp_bind_2, wp_bind_2, wp_get. rewrite Ed, Hkd. simpl.
  apply wp_ret. eapply wp_mono; [apply Hb; [done|]|by intros [r|] s2; [intros H; by apply wp_ret|]].
  destruct Hj as [[Hi' _] _]. destruct (vi_devs _ _ _ _ Hi') as (l' & Hl' & Hgood'). rewrite Ek in Hl'.
  destruct (arr_rep_inj _ _ _ Hl Hl'). destruct (proj1 (Forall_lookup _ _) Hgood' _ _ Hp) as (kd' & Hkd' & H). rewrite Ed in Hkd'. by simplify_eq.
Qed.

(** The result of a lookup: an error and no reference, or a vnode and one. *)
Definition found X Y d s (r : result Z) s' : Prop :=
  match r with inl _ => same X Y d s s' | inr vn => up vn X Y d s s' end.
Lemma found_trans X Y d s s1 r s2 : same X Y d s s1 → found X Y d s1 r s2 → found X Y d s r s2.
Proof. destruct r; simpl; [apply same_trans|apply same_up]. Qed.

Lemma wp_getvolname X Y d s f (Q : option (list Z) → vfs → Prop) : vfs_inv X Y d s → live_fs (v_world s) f →
  (∀ v, Q v s) → wp (below (fsop_getvolname f)) Q s.
Proof.
  intros Hi Hf HQ. apply wp_below. eapply wp_mono; [apply law_getvolname; [apply Hi|done]|]. intros v w' ->. by rewrite set_world_same.
Qed.
Lemma wp_getroot_of X Y d s f : vfs_inv X Y d s → live_fs (v_world s) f → roomy 0 X →
  wp (below (fsop_getroot f)) (λ p, up p X Y d s) s.
Proof.
  intros Hi Hf Hr. apply wp_below. eapply wp_mono; [apply law_getroot; [apply Hi|done|by eapply roomy_refs]|]. intros p w' [Hp Hs]. by apply up_step.
Qed.

Lemma wp_getroot_device X Y d s kd name : vfs_inv X Y d s → kd_good (v_world s) kd → roomy 0 X →
  (kd_name kd = name → kd_fs kd = 0 ∧ kd_rawname kd = None) →
  wp (getroot_device kd name) (λ o s', match o with
    | Some r => found X Y d s r s'
    | None => s' = s
    end) s.
Proof.
  intros Hi (G1 & G2 & G3) Hr Hn. assert (∀ x, kd_device kd ≠ 0 →
    wp (below (vop_incref (kd_vnode kd));; mret (Some (inr (kd_vnode kd) : result Z))) (λ o s', match o with
    | Some r => found X Y d s r s'
    | None => x
    end) s) as Htake.
  { intros x Hd. apply wp_bind_2. eapply wp_mono; [apply wp_take; [done|right; by apply G2|done]|]. intros [] s' (H & _). by apply wp_ret. }
  unfold getroot_device. case_bool_decide as E1; [|case_bool_decide as E2; [|by apply wp_ret]].
  - destruct (Hn E1) as [Hf Hw]. rewrite Hf, Hw. rewrite bool_decide_true by done. apply wp_bind_2, wp_kassert, wp_bind_2, wp_kassert; [done..|].
    apply wp_bind_2, wp_kassert; [apply negb_true_iff, Z.eqb_neq; by apply G3; left|]. eapply wp_mono; [apply (Htake False)|by intros [r|]].
    apply G3. by left.
  - apply wp_bind_2, wp_kassert; [apply negb_true_iff, Z.eqb_neq; by apply G3; right; rewrite E2; eauto|].
    eapply wp_mono; [apply (Htake False)|by intros [r|]]. apply G3. right. rewrite E2. eauto.
Qed.
Lemma wp_vfs_getroot X Y d s name : vfs_inv X Y d s → 0 < d → roomy 0 X → wp (vfs_getroot name) (found X Y d s) s.
Proof.
  intros Hi Hd Hr. unfold vfs_getroot. apply wp_bind_2. unfold vfs_biglock_do_i_hold. apply wp_gets, wp_bind_2, wp_kassert.
  { destruct (vi_lock _ _ _ _ Hi) as [-> _]. blia. }
  apply (wp_for_devs X Y d s); [done| |by intros s' [H _]]. intros p kd s1 (Hs & Ek & Ed) Hg. pose proof Hs as [Hi1 _].
  assert (∀ o s2, match o with Some r => found X Y d s1 r s2 | None => s2 = s1 end →
    match o with Some r => found X Y d s r s2 | None => same X Y d s s2 ∧ knowndevs s2 = knowndevs s ∧ v_kds s2 = v_kds s end) as Hend.
  { intros [r|] s2; [by apply found_trans|by intros ->]. }
  unfold getroot_body. destruct (Z.eqb_spec (kd_fs kd) 0) as [E|E]; simpl.
  - destruct (kd_rawname kd) as [rn|] eqn:Ern; simpl; [case_bool_decide as En|].
    + apply wp_ret. done.
    + eapply wp_mono; [by apply (wp_getroot_device X Y d)|exact Hend].
    + eapply wp_mono; [by apply (wp_getroot_device X Y d)|exact Hend].
  - apply wp_bind_2. eapply wp_getvolname; [done|by apply Hg|]. intros v. case_bool_decide as En; simpl.
    2: case_bool_decide as Ev; simpl.
    3:{ eapply wp_mono; [by apply (wp_getroot_device X Y d)|exact Hend]. }
    all: apply wp_bind_2; (eapply wp_mono; [by apply (wp_getroot_of X Y d s1); [..|apply Hg|]|]); intros q s2 H; apply wp_ret; by eapply same_up.
Qed.

Lemma wp_start X Y d s p : vfs_inv X Y d s → 0 < d → roomy 1 X → wp (start_vnode p) (found X Y d s) s.
Proof.
  intros Hi Hd Hr. assert (roomy 0 X) as Hr0 by (eapply roomy_le; [exact Hr|lia]). destruct p as [|dev| |]; simpl.
  - eapply wp_mono; [by apply wp_getcurdir|]. intros [e|vn] s'; [intros [-> _]; by apply same_refl|by intros [H _]].
  - by apply wp_vfs_getroot.
  - apply wp_bind_2, wp_get. destruct (Z.eqb_spec (bootfs_vnode s) 0) as [E|E]; [by apply wp_ret, same_refl|]. apply wp_bind_2.
    eapply wp_mono; [apply wp_take; [done|left|done]|intros [] s' [H _]; by apply wp_ret].
    pose proof (one_self _ E). pose proof (one_bounds (t_cwd s) (bootfs_vnode s)). pose proof (vi_le _ _ _ _ Hi (bootfs_vnode s)).
    rewrite (vi_refs _ _ _ _ Hi). lia.
  - apply wp_bind_2. eapply wp_mono; [by apply wp_getcurdir|]. intros [e|vn] s1; [intros [-> _]; by apply wp_ret, same_refl|].
    intros (Hu & _ & _ & _ & Hdir). pose proof Hu as (Hn & Hi1 & Hk1). set (X1 := plus X (one vn)) in *.
    assert (1 ≤ refs (v_world s1) vn) as Hh. { eapply inv_held; [done|]. apply plus_self; [done|]. pose proof (vi_le _ _ _ _ Hi vn). lia. }
    apply wp_bind_2, wp_below. eapply wp_mono; [apply law_vn_fs; [apply Hi1|done]|]. intros f w' [-> ->]. rewrite set_world_same.
    pose proof (law_dir_fs _ _ (vi_world _ _ _ _ Hi1) Hh Hdir) as Hf. apply wp_bind_2, wp_kassert; [by apply negb_true_iff, Z.eqb_neq|].
    apply wp_bind_2. eapply wp_mono; [apply (wp_getroot_of X1 Y d s1); [done|by apply law_fs_live; [apply Hi1|..]|by apply roomy_plus]|].
    intros root s2 Hu2. pose proof Hu2 as (Hn2 & Hi2 & Hk2).
    apply wp_bind_2. eapply wp_mono; [apply (wp_vn_drop (plus X (one root)) Y d s2 vn); [|done|]|].
    + eapply inv_ext; [exact Hi2|intros q; unfold X1, plus; lia|done].
    + intros q. pose proof (vi_le _ _ _ _ Hi q). pose proof (one_bounds root q). unfold plus. lia.
    + intros [] s3 [Hi3 Hk3]. apply wp_ret. split_and!; [done..|]. eapply kept_trans; [exact Hk1| |intros q; reflexivity].
      eapply kept_trans; [|exact Hk3|intros q; pose proof (one_bounds root q); unfold plus; lia].
      intros q Hq. apply Hk2. unfold X1, plus. pose proof (one_bounds vn q). lia.
Qed.

Lemma strip_cstring t : cstring t → cstring (strip t).
Proof. induction 1 as [|c t Hc Ht IH]; [constructor|]. cbn [strip]. case_decide; [done|by constructor]. Qed.
Lemma parse_cstring path : cstring path → cstring (parse_path path).2.
Proof.
  intros Hs. unfold parse_path. pose proof (split_sep_app path) as E. destruct (split_sep path) as [d l]. simpl in E.
  assert (cstring l) as Hl. { unfold cstring in *. rewrite E in Hs. by apply Forall_app in Hs as [_ ?]. }
  destruct d as [|b d], l as [|c t]; simpl; try done; [by inversion Hl; apply strip_cstring|]. case_decide; [|done]. simpl. inversion Hl. by apply strip_cstring.
Qed.

(** [getdevice] of the buffer of a path. *)
Lemma wp_getdevice X Y d s path junk (Q : result (list Z * Z * Z) → vfs → Prop) :
  vfs_inv X Y d s → 0 < d → roomy 1 X → cstring path →
  (∀ e s', same X Y d s s' → Q (inl e) s') →
  (∀ buf i vn s', cstring (subpath buf i) → up vn X Y d s s' → Q (inr (buf, i, vn)) s') →
  wp (getdevice (path ++ 0 :: junk)) Q s.
Proof.
  intros Hi Hd Hr Hp He Hv. destruct (getdevice_eq path junk s Hp) as (buf & i & Esub & E).
  { destruct (vi_lock _ _ _ _ Hi) as [-> _]. blia. }
  unfold wp. rewrite E. change (wp (r ← start_vnode (parse_path path).1; mret (started buf i r)) Q s). apply wp_bind_2.
  eapply wp_mono; [by apply (wp_start X Y d)|]. intros [e|vn] s' H; apply wp_ret; simpl; [by apply He|]. apply Hv; [|done].
  rewrite Esub. by apply parse_cstring.
Qed.

Lemma wp_release_same X Y d s s' : 0 ≤ d → same X Y (d + 1) s s' → wp vfs_biglock_release (λ _, same X Y d s) s'.
Proof. intros Hd Hs. eapply wp_mono; [apply wp_release; [apply Hs|done]|]. intros [] s2 [H _]. by eapply same_trans. Qed.
Lemma wp_release_up p X Y d s s' : 0 ≤ d → up p X Y (d + 1) s s' → wp vfs_biglock_release (λ _, up p X Y d s) s'.
Proof.
  intros Hd (Hp & Hi & Hk). eapply wp_mono; [apply wp_release; [exact Hi|done]|]. intros [] s2 [[H1 H2] _]. split_and!; [done..|].
  eapply kept_trans; [exact Hk|exact H2|]. intros q. pose proof (one_bounds p q). unfold plus. lia.
Qed.

Lemma wp_release_found X Y d s r s' : 0 ≤ d → found X Y (d + 1) s r s' →
  wp vfs_biglock_release (λ _ s2, found X Y d s r s2 ∧ v_world s2 = v_world s') s'.
Proof.
  intros Hd H. apply wp_and; [destruct r; [by apply wp_release_same|by apply wp_release_up]|].
  assert (∃ X', vfs_inv X' Y (d + 1) s') as [X' Hi] by (destruct r; [exists X; apply H|destruct H as (_ & H & _); eauto]).
  eapply wp_mono; [by apply (wp_release X' Y d)|]. by intros [] s2 (_ & _ & _ & E).
Qed.
(** Giving back the vnode the lookup started from, whatever was found. *)
Lemma wp_drop_found X Y d d' s s2 s3 vn r : vfs_inv X Y d s → up vn X Y d' s s2 → found (plus X (one vn)) Y d' s2 r s3 →
  wp (below (vop_decref vn)) (λ _ s4, found X Y d' s r s4 ∧ ∀ p, r = inr p → attr (v_world s4) p = attr (v_world s3) p) s3.
Proof.
  intros Hi (Hn & Hi2 & K2) H3. pose proof (vi_le _ _ _ _ Hi) as Hle. pose proof (one_bounds vn) as Hb.
  assert (∀ q, X q ≤ plus X (one vn) q) as HX by (intros q; specialize (Hb q); unfold plus; lia). destruct r as [e|p].
  - destruct H3 as [H3 K3]. eapply wp_mono; [by apply (wp_vn_drop X Y d')|]. intros [] s4 [H4 K4]. split; [|done]. split; [done|].
    eapply kept_trans; [|exact K4|done]. by eapply kept_trans.
  - destruct H3 as (Hp & H3 & K3). pose proof (one_bounds p) as Hb'. eapply wp_mono; [apply (wp_vn_drop (plus X (one p)) Y d'); [|done|]|].
    + eapply inv_ext; [exact H3|intros q; unfold plus; lia|done].
    + intros q. specialize (Hle q). specialize (Hb' q). unfold plus. lia.
    + intros [] s4 [H4 K4]. split; [split_and!; [done..|]|].
      * eapply kept_trans; [|exact K4|intros q; specialize (Hb' q); unfold plus; lia]. by eapply kept_trans.
      * intros ? [= <-]. apply K4. apply plus_self; [done|]. specialize (Hle p). lia.
Qed.
Lemma up_held X Y d d' s s' p : vfs_inv X Y d s → up p X Y d' s s' → 1 ≤ refs (v_world s') p.
Proof.
  intros Hi (Hn & Hi' & _). eapply inv_held; [done|]. apply plus_self; [done|]. pose proof (vi_le _ _ _ _ Hi p). lia.
Qed.

Lemma wp_lookup X Y d s path junk : vfs_inv X Y d s → d < 999 → roomy 1 X → cstring path →
  wp (vfs_lookup (path ++ 0 :: junk)) (found X Y d s) s.
Proof.
  intros Hi Hd Hr Hp. pose proof (vi_lock _ _ _ _ Hi) as (_ & _ & Hd0). unfold vfs_lookup. apply wp_bind_2.
  eapply wp_mono; [by apply (wp_acquire X Y d)|]. intros [] s1 [Hs1 _]. pose proof Hs1 as [Hi1 _]. apply wp_bind_2.
  eapply wp_getdevice; [exact Hi1|lia|done|done| |].
  { intros e s2 H2. apply wp_bind_2. eapply wp_mono; [apply (wp_release_same X Y d s); [lia|by eapply same_trans]|]. intros [] s3 H3. by apply wp_ret. }
  intros buf i vn s2 Hc H2. pose proof (same_up _ _ _ _ _ _ _ _ Hs1 H2) as Hu. pose proof Hu as (Hn & Hi2 & Hk2). destruct (_ =? 0).
  { apply wp_bind_2. eapply wp_mono; [apply (wp_release_up vn X Y d s); [lia|done]|]. intros [] s3 H3. by apply wp_ret. }
  apply wp_bind_2, wp_below. eapply wp_mono; [apply law_lookup; [apply Hi2|exact (up_held _ _ _ _ _ _ _ Hi Hu)|done|]|].
  { eapply (roomy_refs 0); [done| |lia]. by apply roomy_plus. }
  intros r w' H. apply wp_bind_2. eapply wp_mono; [apply (wp_drop_found X Y d (d + 1) s s2 _ vn r Hi Hu)|].
  { destruct r; [by apply same_step|destruct H; by apply up_step]. }
  intros [] s4 H4. apply wp_bind_2. eapply wp_mono; [apply (wp_release_found X Y d s r); [lia|apply H4]|]. intros [] s5 [H5 _]. by apply wp_ret.
Qed.

(** With the name and a directory. *)
Definition found_parent X Y d s (r : result (Z * list Z)) s' : Prop :=
  match r with
  | inl _ => same X Y d s s'
  | inr (vn, name) => up vn X Y d s s' ∧ cstring name ∧ (attr (v_world s') vn).2 = true
  end.
Lemma wp_lookparent X Y d s path junk n : vfs_inv X Y d s → d < 999 → roomy 1 X → cstring path →
  wp (vfs_lookparent (path ++ 0 :: junk) n) (found_parent X Y d s) s.
Proof.
  intros Hi Hd Hr Hp. pose proof (vi_lock _ _ _ _ Hi) as (_ & _ & Hd0). unfold vfs_lookparent. apply wp_bind_2.
  eapply wp_mono; [by apply (wp_acquire X Y d)|]. intros [] s1 [Hs1 _]. pose proof Hs1 as [Hi1 _]. apply wp_bind_2.
  eapply wp_getdevice; [exact Hi1|lia|done|done| |].
  { intros e s2 H2. apply wp_bind_2. eapply wp_mono; [apply (wp_release_same X Y d s); [lia|by eapply same_trans]|]. intros [] s3 H3. by apply wp_ret. }
  intros buf i vn s2 Hc H2. pose proof (same_up _ _ _ _ _ _ _ _ Hs1 H2) as Hu. pose proof Hu as (Hn & Hi2 & Hk2).
  apply wp_bind_2. apply (wp_mono _ (λ r s3, found_parent (plus X (one vn)) Y (d + 1) s2 r s3)).
  { destruct (_ =? 0); [by apply wp_ret, same_refl|]. apply wp_below.
    eapply wp_mono; [apply law_lookparent; [apply Hi2|exact (up_held _ _ _ _ _ _ _ Hi Hu)|done|eapply (roomy_refs 0); [done|by apply roomy_plus|lia]]|].
    intros [e|[q name]] w'; [by apply same_step|]. intros (Hq & Hname & Hdir & Hs). split_and!; [by apply up_step|done|done]. }
  intros r s3 H3. apply wp_bind_2.
  set (r' := match r with inl e => inl e | inr (q, _) => inr q end : result Z).
  assert (found (plus X (one vn)) Y (d + 1) s2 r' s3) as H3' by (destruct r as [e|[q name]]; [done|apply H3]).
  eapply wp_mono; [exact (wp_drop_found X Y d (d + 1) s s2 s3 vn r' Hi Hu H3')|]. intros [] s4 [H4 A4]. apply wp_bind_2.
  eapply wp_mono; [apply (wp_release_found X Y d s r'); [lia|exact H4]|]. intros [] s5 [H5 E5]. apply wp_ret. destruct r as [e|[q name]]; [done|].
  split_and!; [done|apply H3|]. rewrite E5, (A4 q eq_refl). apply H3.
Qed.

(** * The current directory and the boot file system *)
Lemma wp_replace_cwd X Y d s dir : vfs_inv (plus X (one dir)) Y d s → (dir ≠ 0 → (attr (v_world s) dir).2 = true) →
  (∀ q, 0 ≤ Y q ≤ X q) → wp (replace_cwd dir) (λ _, same X Y d s) s.
Proof.
  intros Hi Hdir Hle. unfold replace_cwd. apply wp_bind_2, wp_get, wp_bind_2, wp_put. pose proof Hi as [H1 H2 H3 H4 H5 H6 H7].
  assert (vfs_inv (plus X (one (t_cwd s))) Y d (set_cwd dir s)) as Hi'.
  { constructor; try done.
    - intros p. simpl. rewrite H3. unfold plus. lia.
    - intros p. specialize (Hle p). pose proof (one_bounds (t_cwd s) p). unfold plus. lia. }
  destruct (Z.eqb_spec (t_cwd s) 0) as [E|E]; simpl.
  - apply wp_ret. split; [|done]. rewrite E in Hi'. eapply inv_ext; [exact Hi'|intros q; unfold plus, one; case_decide; naive_solver lia|done].
  - eapply wp_mono; [apply (wp_vn_drop X Y d); [exact Hi'|done|done]|]. by intros [] s' [H K].
Qed.
Lemma wp_setcurdir X Y d s dir : vfs_inv X Y d s → 1 ≤ X dir → roomy 0 X → wp (vfs_setcurdir dir) (λ _, same X Y d s) s.
Proof.
  intros Hi Hh Hr. pose proof (inv_held _ _ _ _ _ Hi Hh) as Hd. unfold vfs_setcurdir. apply wp_bind_2, wp_below.
  eapply wp_mono; [apply law_gettype; [apply Hi|done]|]. intros [e|ty] w' [-> Ht]; rewrite set_world_same; [by apply wp_ret, same_refl|].
  destruct (Z.eqb_spec ty S_IFDIR) as [E|E]; simpl; [|by apply wp_ret, same_refl]. apply wp_bind_2.
  eapply wp_mono; [apply (wp_take X Y d); [done|by left|done]|]. intros [] s1 (Hu & _). pose proof Hu as (Hn & Hi1 & K1). apply wp_bind_2.
  eapply wp_mono; [apply (wp_replace_cwd X Y d s1 dir Hi1)|intros [] s2 H2; apply wp_ret; by eapply up_drop].
  - intros _. rewrite K1 by done. by apply (Ht ty).
  - apply Hi.
Qed.
Lemma wp_chdir X Y d s path junk : vfs_inv X Y d s → d < 999 → roomy 1 X → cstring path →
  wp (vfs_chdir (path ++ 0 :: junk)) (λ _, same X Y d s) s.
Proof.
  intros Hi Hd Hr Hp. unfold vfs_chdir. apply wp_bind_2. eapply wp_mono; [by apply (wp_lookup X Y d)|].
  intros [e|vn] s1 Hu; [by apply wp_ret|]. pose proof Hu as (Hn & Hi1 & K1). apply wp_bind_2.
  eapply wp_mono; [apply (wp_setcurdir _ Y d s1 vn Hi1); [|by apply roomy_plus]|].
  { apply plus_self; [done|]. pose proof (vi_le _ _ _ _ Hi vn). lia. }
  intros r s2 [Hi2 K2]. apply wp_bind_2. eapply wp_mono; [apply (wp_put_down X Y d d s s2 vn Hi)|intros [] s3 H3; by apply wp_ret].
  split_and!; [done..|]. eapply kept_trans; [done..|]. intros q. pose proof (one_bounds vn q). unfold plus. lia.
Qed.
Lemma wp_change_bootfs X Y d s vn : vfs_inv (plus X (one vn)) Y d s → (∀ q, 0 ≤ Y q ≤ X q) → wp (change_bootfs vn) (λ _, same X Y d s) s.
Proof.
  intros Hi Hle. unfold change_bootfs. apply wp_bind_2, wp_get, wp_bind_2, wp_put. pose proof Hi as [H1 H2 H3 H4 H5 H6 H7].
  assert (vfs_inv (plus X (one (bootfs_vnode s))) Y d (set_boot vn s)) as Hi'.
  { constructor; try done.
    - intros p. simpl. rewrite H3. unfold plus. lia.
    - intros p. specialize (Hle p). pose proof (one_bounds (bootfs_vnode s) p). unfold plus. lia. }
  destruct (Z.eqb_spec (bootfs_vnode s) 0) as [E|E]; simpl.
  - apply wp_ret. split; [|done]. rewrite E in Hi'. eapply inv_ext; [exact Hi'|intros q; unfold plus, one; case_decide; naive_solver lia|done].
  - eapply wp_mono; [apply (wp_vn_drop X Y d); [exact Hi'|done|done]|]. by intros [] s' [H K].
Qed.
Lemma inv_plus_null X Y d s : vfs_inv X Y d s → vfs_inv (plus X (one 0)) Y d s.
Proof. intros Hi. eapply inv_ext; [exact Hi|intros q; unfold plus, one; case_decide; naive_solver lia|done]. Qed.
Lemma wp_setbootfs X Y d s name : vfs_inv X Y d s → d < 998 → roomy 1 X → cstring name → wp (vfs_setbootfs name) (λ _, same X Y d s) s.
Proof.
  intros Hi Hd Hr Hp. pose proof (vi_lock _ _ _ _ Hi) as (_ & _ & Hd0). unfold vfs_setbootfs. apply wp_bind_2.
  eapply wp_mono; [by apply (wp_acquire X Y d); [|lia]|]. intros [] s1 [Hs1 _]. pose proof Hs1 as [Hi1 _].
  assert (∀ e s2, same X Y (d + 1) s s2 → wp (vfs_biglock_release;; mret e) (λ (_ : option errno), same X Y d s) s2) as Hout.
  { intros e s2 H. apply wp_bind_2. eapply wp_mono; [apply (wp_release_same X Y d s); [lia|done]|]. intros [] s3 H3. by apply wp_ret. }
  case_decide; [by apply Hout|]. apply wp_bind_2. change ([COLON; 0]) with ([COLON] ++ [0]). rewrite app_assoc.
  eapply wp_mono; [apply (wp_chdir X Y (d + 1) s1); [done|lia|done|]|].
  { apply Forall_app. split; [by apply Forall_take|by repeat constructor]. }
  intros [e|] s2 H2; [apply Hout; by eapply same_trans|]. pose proof H2 as [Hi2 _]. apply wp_bind_2.
  eapply wp_mono; [apply (wp_getcurdir X Y (d + 1) s2); [done|by eapply roomy_le; [exact Hr|lia]]|].
  intros [e|vn] s3; [intros [-> _]; apply Hout; by eapply same_trans|]. intros (Hu & _). pose proof Hu as (_ & Hi3 & _). apply wp_bind_2.
  eapply wp_mono; [apply (wp_change_bootfs X Y (d + 1) s3 vn Hi3), Hi|]. intros [] s4 H4. apply Hout.
  eapply same_trans; [exact Hs1|]. eapply same_trans; [exact H2|]. by eapply up_drop.
Qed.
Lemma wp_clearbootfs X Y d s : vfs_inv X Y d s → d < 999 → wp vfs_clearbootfs (λ _, same X Y d s) s.
Proof.
  intros Hi Hd. pose proof (vi_lock _ _ _ _ Hi) as (_ & _ & Hd0). unfold vfs_clearbootfs. apply wp_bind_2.
  eapply wp_mono; [by apply (wp_acquire X Y d)|]. intros [] s1 [Hs1 _]. apply wp_bind_2.
  eapply wp_mono; [apply (wp_change_bootfs X Y (d + 1) s1 0); [apply inv_plus_null, Hs1|apply Hi]|]. intros [] s2 H2.
  apply wp_release_same; [lia|]. by eapply same_trans.
Qed.
Lemma wp_clearcurdir X Y d s : vfs_inv X Y d s → wp vfs_clearcurdir (λ _, same X Y d s) s.
Proof.
  intros Hi. unfold vfs_clearcurdir. apply wp_bind_2. eapply wp_mono; [apply (wp_replace_cwd X Y d s 0); [by apply inv_plus_null|done|apply Hi]|].
  intros [] s' H. by apply wp_ret.
Qed.
Lemma wp_sync X Y d s : (∀ w f, fs_inv w → live_fs w f → wp (fsop_sync f) (λ _ w', wstep zero zero w w') w) →
  vfs_inv X Y d s → d < 999 → wp vfs_sync (λ _, same X Y d s) s.
Proof.
  intros law_sync Hi Hd. pose proof (vi_lock _ _ _ _ Hi) as (_ & _ & Hd0). unfold vfs_sync. apply wp_bind_2.
  eapply wp_mono; [by apply (wp_acquire X Y d)|]. intros [] s1 [Hs1 _]. pose proof Hs1 as [Hi1 _]. apply wp_bind_2.
  apply (wp_for_devs X Y (d + 1) s1); [done| |].
  - intros p kd s2 (H2 & Ek & Ed) Hg. pose proof H2 as [Hi2 _]. destruct (Z.eqb_spec (kd_fs kd) 0) as [E|E]; simpl; [by apply wp_ret|].
    apply wp_bind_2, wp_below. eapply wp_mono; [apply law_sync; [apply Hi2|by apply Hg]|]. intros r w' Hs. apply wp_ret. split; [|done].
    eapply same_trans; [exact H2|]. by apply same_step.
  - intros s2 [H2 _]. apply wp_bind_2. eapply wp_mono; [apply (wp_release_same X Y d s); [lia|by eapply same_trans]|]. intros [] s3 H3. by apply wp_ret.
Qed.

(** * Operations on paths *)
Definition opened X Y d s (r : result Z) s' : Prop :=
  match r with
  | inl _ => same X Y d s s'
  | inr vn => vn ≠ 0 ∧ vfs_inv (plus X (one vn)) (plus Y (one vn)) d s' ∧ kept X s s'
  end.
Lemma wp_shut X Y d s vn : vfs_inv (plus X (one vn)) (plus Y (one vn)) d s → vn ≠ 0 → (∀ q, 0 ≤ Y q ≤ X q) →
  wp (below (vop_decopen vn);; below (vop_decref vn)) (λ _, same X Y d s) s.
Proof.
  intros Hi Hn Hle. pose proof (one_bounds vn) as Hb. pose proof (one_self vn Hn) as H1. pose proof (Hle vn).
  assert (1 ≤ refs (v_world s) vn) as Hh by (eapply inv_held; [done|]; unfold plus; lia).
  apply wp_bind_2, wp_below. eapply wp_mono; [apply law_decopen; [apply Hi|done|rewrite (vi_opens _ _ _ _ Hi); unfold plus; lia]|].
  intros [] w' Hs. assert (vfs_inv (plus X (one vn)) Y d (set_world w' s)) as Hi1.
  { eapply inv_step; [exact Hi|exact Hs|..]; intros q; unfold zero, plus; [lia|lia|]. specialize (Hle q). specialize (Hb q). lia. }
  eapply wp_mono; [by apply (wp_vn_drop X Y d)|]. intros [] s2 [H2 K2]. split; [done|]. eapply kept_trans; [|exact K2|done].
  intros q Hq. eapply kept_step; [exact Hi|exact Hs|unfold zero; lia|]. unfold plus. specialize (Hb q). lia.
Qed.
Lemma wp_vfs_close X Y d s vn : vfs_inv (plus X (one vn)) (plus Y (one vn)) d s → vn ≠ 0 → (∀ q, 0 ≤ Y q ≤ X q) →
  wp (vfs_close vn) (λ _, same X Y d s) s.
Proof. apply wp_shut. Qed.

Lemma wp_open_vnode X Y d s s1 vn fl cw : vfs_inv X Y d s → roomy 1 X → up vn X Y d s s1 →
  wp (vfs_open_vnode vn fl cw) (opened X Y d s) s1.
Proof.
  intros Hi Hr Hu. pose proof Hu as (Hn & Hi1 & K1). pose proof (up_held _ _ _ _ _ _ _ Hi Hu) as Hh. pose proof (vi_le _ _ _ _ Hi) as Hle.
  pose proof (one_bounds vn) as Hb. unfold vfs_open_vnode. apply wp_bind_2, wp_kassert; [by apply negb_true_iff, Z.eqb_neq|].
  apply wp_bind_2, wp_below. eapply wp_mono; [apply law_open; [apply Hi1|done]|]. intros r w' Hs.
  pose proof (same_step _ _ _ _ _ Hi1 Hs) as [Hi2 K2]. set (s2 := set_world w' s1) in *.
  assert (∀ q, X q ≤ plus X (one vn) q) as HX by (intros q; specialize (Hb q); unfold plus; lia).
  assert (up vn X Y d s s2) as Hu2 by (split_and!; [done..|by eapply kept_trans]). destruct r as [e|].
  { apply wp_bind_2. eapply wp_mono; [by apply (wp_put_down X Y d d s s2 vn)|]. intros [] s3 H3. by apply wp_ret. }
  apply wp_bind_2, wp_below. pose proof (up_held _ _ _ _ _ _ _ Hi Hu2) as Hh2.
  eapply wp_mono; [apply law_incopen; [apply Hi2|done|rewrite (vi_opens _ _ _ _ Hi2); specialize (Hle vn); specialize (Hr vn); lia]|].
  intros [] w3 Hs3. set (s3 := set_world w3 s2).
  assert (vfs_inv (plus X (one vn)) (plus Y (one vn)) d s3) as Hi3.
  { eapply inv_step; [exact Hi2|exact Hs3|..]; intros q; unfold zero, plus; [lia|lia|]. specialize (Hle q). specialize (Hb q). lia. }
  assert (kept X s s3) as K3. { eapply kept_trans; [apply Hu2|eapply kept_step; [exact Hi2|exact Hs3|unfold zero; lia]|done]. }
  assert (opened X Y d s (inr vn) s3) as Hok by done. unfold vfs_open_trunc. destruct (Z.land fl O_TRUNC =? 0); simpl; [by apply wp_ret|].
  apply wp_bind_2, (wp_mono _ (λ _ s4, same (plus X (one vn)) (plus Y (one vn)) d s3 s4)).
  { destruct cw; [|by apply wp_ret, same_refl]. apply wp_below.
    eapply wp_mono; [apply law_truncate; [apply Hi3|eapply inv_held; [exact Hi3|]]|intros r w4 H4; by apply same_step].
    unfold plus. rewrite one_self by done. specialize (Hle vn). lia. }
  intros [e|] s4 [Hi4 K4].
  - apply wp_bind_assoc, wp_bind_2. eapply wp_mono; [by apply (wp_shut X Y d s4 vn)|]. intros [] s5 [Hi5 K5]. apply wp_ret. split; [done|].
    eapply kept_trans; [|exact K5|done]. by eapply kept_trans.
  - apply wp_ret. split_and!; [done..|]. by eapply kept_trans.
Qed.
Lemma wp_vfs_open X Y d s path junk fl mode : vfs_inv X Y d s → d < 999 → roomy 1 X → cstring path →
  wp (vfs_open (path ++ 0 :: junk) fl mode) (opened X Y d s) s.
Proof.
  intros Hi Hd Hr Hp. unfold vfs_open. destruct (_ || _); simpl; [|by apply wp_ret, same_refl]. apply wp_bind_2.
  apply (wp_mono _ (found X Y d s)).
  2:{ intros [e|vn] s1 H; [by apply wp_ret|]. by apply (wp_open_vnode X Y d s). }
  destruct (Z.land fl O_CREAT =? 0); simpl; [by apply wp_lookup|]. apply wp_bind_2.
  eapply wp_mono; [by apply (wp_lookparent X Y d)|]. intros [e|[dir name]] s1; [intros H; by apply wp_ret|]. intros (Hu & Hname & Hdir).
  pose proof Hu as (Hn & Hi1 & K1). pose proof (up_held _ _ _ _ _ _ _ Hi Hu) as Hh. apply wp_bind_2, wp_below.
  eapply wp_mono; [apply law_creat; [apply Hi1|done..|eapply (roomy_refs 0); [done|by apply roomy_plus|lia]]|].
  intros r w' H. apply wp_bind_2. eapply wp_mono; [apply (wp_drop_found X Y d d s s1 _ dir r Hi Hu)|intros [] s3 [H3 _]; by apply wp_ret].
  destruct r as [e|q]; [by apply same_step|destruct H; by apply up_step].
Qed.

Lemma wp_with_parent X Y d s path junk op : vfs_inv X Y d s → d < 999 → roomy 1 X → cstring path →
  (∀ w p name, fs_inv w → 1 ≤ refs w p → (attr w p).2 = true → cstring name → (∀ q, refs w q < REF_MAX) →
    wp (op p name) (λ _ w', wstep zero zero w w') w) →
  wp (with_parent (path ++ 0 :: junk) op) (λ _, same X Y d s) s.
Proof.
  intros Hi Hd Hr Hp Hop. unfold with_parent. apply wp_bind_2. eapply wp_mono; [by apply (wp_lookparent X Y d)|].
  intros [e|[dir name]] s1; [intros H; by apply wp_ret|]. intros (Hu & Hname & Hdir).
  pose proof Hu as (Hn & Hi1 & K1). pose proof (up_held _ _ _ _ _ _ _ Hi Hu) as Hh. apply wp_bind_2, wp_below.
  eapply wp_mono; [apply Hop; [apply Hi1|done..|eapply (roomy_refs 0); [done|by apply roomy_plus|lia]]|].
  intros r w' H. apply wp_bind_2.
  eapply wp_mono; [apply (wp_drop_found X Y d d s s1 _ dir (inl ENOENT) Hi Hu); by apply same_step|]. intros [] s3 [H3 _]. by apply wp_ret.
Qed.

Lemma wp_vfs_rename X Y d s path junk path' junk' : vfs_inv X Y d s → d < 999 → roomy 2 X → cstring path → cstring path' →
  wp (vfs_rename (path ++ 0 :: junk) (path' ++ 0 :: junk')) (λ _, same X Y d s) s.
Proof.
  intros Hi Hd Hr Hp Hp'. unfold vfs_rename. apply wp_bind_2. eapply wp_mono; [apply (wp_lookparent X Y d); [done..| |done]|].
  { by eapply roomy_le; [exact Hr|lia]. }
  intros [e|[dir name]] s1; [intros H; by apply wp_ret|]. intros (Hu & Hname & Hdir).
  pose proof Hu as (Hn & Hi1 & K1). apply wp_bind_2. eapply wp_mono; [apply (wp_lookparent (plus X (one dir)) Y d); [done..| |done]|].
  { by apply roomy_plus. }
  assert (1 ≤ plus X (one dir) dir) as H1. { apply plus_self; [done|]. pose proof (vi_le _ _ _ _ Hi dir). lia. }
  assert (∀ (r : option errno) s3, same (plus X (one dir)) Y d s1 s3 → wp (below (vop_decref dir);; mret r) (λ _, same X Y d s) s3) as Hout.
  { intros r s3 H. apply wp_bind_2. eapply wp_mono; [apply (wp_drop_found X Y d d s s1 _ dir (inl ENOENT) Hi Hu H)|]. intros [] s4 [H4 _]. by apply wp_ret. }
  intros [e|[dir' name']] s2; [apply Hout|]. intros (Hu' & Hname' & Hdir'). pose proof Hu' as (Hn' & Hi2 & K2).
  pose proof (up_held _ _ _ _ _ _ _ Hi1 Hu') as Hh'. set (X2 := plus (plus X (one dir)) (one dir')) in *.
  assert (1 ≤ refs (v_world s2) dir) as Hh. { eapply inv_held; [exact Hi2|]. unfold X2, plus in *. pose proof (one_bounds dir' dir). lia. }
  unfold same_fs. apply wp_bind_2, wp_bind_2, wp_below. eapply wp_mono; [apply law_vn_fs; [apply Hi2|done]|]. intros f1 w [-> ->]. rewrite set_world_same.
  apply wp_bind_2, wp_below. eapply wp_mono; [apply law_vn_fs; [apply Hi2|done]|]. intros f2 w [-> ->]. rewrite set_world_same. apply wp_ret.
  apply wp_bind_2, (wp_mono _ (λ _ s3, same X2 Y d s2 s3)).
  - destruct (_ && _) eqn:E; [|by apply wp_ret, same_refl]. zbool. apply wp_below.
    eapply wp_mono; [apply law_rename; [apply Hi2|done|done|by rewrite K2|done|done|done|done|]|intros r w' Hst; by apply same_step].
    eapply (roomy_refs 0); [exact Hi2| |lia]. by apply roomy_plus, roomy_plus.
  - intros r s3 H3. apply wp_bind_2. eapply wp_mono; [apply (wp_drop_found _ Y d d s1 s2 s3 dir' (inl ENOENT) Hi1 Hu' H3)|]. intros [] s4 [H4 _]. by apply Hout.
Qed.

(** * Runs *)
(** A call, with the bytes after the end of a path in its buffer. *)
Inductive vfs_call :=
| COpen (path junk : list Z) (flags mode : Z)
| CClose (i : nat)
| CRemove (path junk : list Z)
| CRename (path junk path' junk' : list Z)
| CSymlink (contents path junk : list Z)
| CMkdir (path junk : list Z) (mode : Z)
| CRmdir (path junk : list Z)
| CChdir (path junk : list Z)
| CClearcurdir
| CSetbootfs (name : list Z)
| CClearbootfs.
Definition call_ok (c : vfs_call) : Prop :=
  match c with
  | COpen p _ _ _ | CRemove p _ | CSymlink _ p _ | CMkdir p _ _ | CRmdir p _ | CChdir p _ | CSetbootfs p => cstring p
  | CRename p _ p' _ => cstring p ∧ cstring p'
  | _ => True
  end.
(** [files] are the vnodes of the open files. *)
Definition run_call (c : vfs_call) (files : list Z) : M (vfs (W := W)) (list Z) :=
  match c with
  | COpen p j fl mode => r ← vfs_open (p ++ 0 :: j) fl mode; mret (match r with inl _ => files | inr vn => files ++ [vn] end)
  | CClose i => match files !! i with Some vn => vfs_close vn;; mret (delete i files) | None => mret files end
  | CRemove p j => _ ← vfs_remove (p ++ 0 :: j); mret files
  | CRename p j p' j' => _ ← vfs_rename (p ++ 0 :: j) (p' ++ 0 :: j'); mret files
  | CSymlink c p j => _ ← vfs_symlink c (p ++ 0 :: j); mret files
  | CMkdir p j mode => _ ← vfs_mkdir (p ++ 0 :: j) mode; mret files
  | CRmdir p j => _ ← vfs_rmdir (p ++ 0 :: j); mret files
  | CChdir p j => _ ← vfs_chdir (p ++ 0 :: j); mret files
  | CClearcurdir => _ ← vfs_clearcurdir; mret files
  | CSetbootfs n => _ ← vfs_setbootfs n; mret files
  | CClearbootfs => vfs_clearbootfs;; mret files
  end.
Fixpoint run_calls (cs : list vfs_call) (files : list Z) : M (vfs (W := W)) (list Z) :=
  match cs with
  | [] => mret files
  | c :: cs => files ← run_call c files; run_calls cs files
  end.

Definition count (files : list Z) (q : Z) : Z := Z.of_nat (length (filter (λ p, p = q) files)).
Lemma count_app files vn q : vn ≠ 0 → count (files ++ [vn]) q = count files q + one vn q.
Proof.
  intros Hn. unfold count, one. rewrite filter_app, length_app. simpl. rewrite filter_cons, filter_nil.
  repeat case_decide; simpl; naive_solver lia.
Qed.
Lemma count_delete files i vn q : files !! i = Some vn → vn ≠ 0 → count files q = count (delete i files) q + one vn q.
Proof.
  intros Hi Hn. rewrite <-count_app by done. unfold count. f_equal. apply Permutation_length, filter_Permutation.
  rewrite (delete_Permutation _ _ _ Hi) at 1. apply Permutation_cons_append.
Qed.
Lemma count_bound files q : 0 ≤ count files q ≤ Z.of_nat (length files).
Proof. unfold count. pose proof (length_filter (λ p, p = q) files). lia. Qed.

Lemma wp_run_call c files s : vfs_inv (count files) (count files) 0 s → call_ok c → Z.of_nat (length files) < 2147483000 →
  wp (run_call c files) (λ files' s', vfs_inv (count files') (count files') 0 s' ∧ (length files' ≤ length files + 1)%nat) s.
Proof.
  intros Hi Hc Hlen. set (X := count files). assert (roomy 2 X) as Hr2.
  { intros q. pose proof (count_bound files q). unfold X, REF_MAX. lia. }
  assert (roomy 1 X) as Hr by (eapply roomy_le; [exact Hr2|lia]).
  assert (∀ {A} (m : M vfs A), wp m (λ _, same X X 0 s) s →
    wp (_ ← m; mret files) (λ files' s', vfs_inv (count files') (count files') 0 s' ∧ (length files' ≤ length files + 1)%nat) s) as Hsame.
  { intros A m H. apply wp_bind_2. eapply wp_mono; [exact H|]. intros a s' [H' _]. apply wp_ret. split; [done|lia]. }
  destruct c; simpl in *; try apply Hsame.
  - apply wp_bind_2. eapply wp_mono; [by apply (wp_vfs_open X X 0)|]. intros [e|vn] s'.
    + intros [H _]. apply wp_ret. split; [done|lia].
    + intros (Hn & H & _). apply wp_ret. split; [|rewrite length_app; simpl; lia].
      eapply inv_ext; [exact H|..]; intros q; by apply count_app.
  - destruct (files !! i) as [vn|] eqn:E; [|apply wp_ret; split; [done|lia]].
    assert (vn ≠ 0) as Hn. { eapply (held_not_null X X); [exact Hi|]. unfold X, count. apply list_elem_of_lookup_2 in E.
      assert (vn ∈ filter (λ p, p = vn) files) as Hel by by apply list_elem_of_filter. destruct (filter _ _); [by apply elem_of_nil in Hel|simpl; lia]. }
    apply wp_bind_2. eapply wp_mono; [apply (wp_vfs_close (count (delete i files)) (count (delete i files)) 0 s vn)|].
    + eapply inv_ext; [exact Hi|..]; intros q; unfold X, plus; by rewrite (count_delete files i vn).
    + done.
    + intros q. pose proof (count_bound (delete i files) q). lia.
    + intros [] s' [H _]. apply wp_ret. split; [done|]. rewrite length_delete by eauto. lia.
  - apply wp_with_parent; [done|lia|done|done|]. intros. by apply law_remove.
  - destruct Hc. by apply (wp_vfs_rename X X 0).
  - apply wp_with_parent; [done|lia|done|done|]. intros. by apply law_symlink.
  - apply wp_with_parent; [done|lia|done|done|]. intros. by apply law_mkdir.
  - apply wp_with_parent; [done|lia|done|done|]. intros. by apply law_rmdir.
  - by apply wp_chdir.
  - by apply wp_clearcurdir.
  - by apply wp_setbootfs.
  - by apply wp_clearbootfs.
Qed.
Lemma wp_run_calls cs : ∀ files s, vfs_inv (count files) (count files) 0 s → Forall call_ok cs →
  Z.of_nat (length files + length cs) < 2147483000 → wp (run_calls cs files) (λ files', vfs_inv (count files') (count files') 0) s.
Proof.
  induction cs as [|c cs IH]; intros files s Hi Hc Hlen; cbn [run_calls]; [by apply wp_ret|].
  apply Forall_cons in Hc as [Hc Hcs]. simpl in Hlen. apply wp_bind_2. eapply wp_mono; [apply wp_run_call; [done|done|lia]|].
  intros files' s' [H' Hl]. apply IH; [done|done|lia].
Qed.
End refs.
