(* ===== verification/VfsDevs.v ===== *)
(** The device table: names are given to one device only, and a name leads to what the
    comment at the top of [kern/vfs/vfslist.c] says it leads to. *)

From stdpp Require Import base tactics numbers list gmap.
From S2P Require Import Prelude KernDefs CopyInOut Uio Array Vfs VfsPath VfsRefs.
Local Open Scope Z_scope.

(** What the table relies on: the volume name of a file system can be read, the vnode of a
    device can be initialised and its number stored, and neither changes a volume name or
    the number of another device. *)
Class DevLaws (W : Type) {FO : FsOps W} := {
  vols : W → Z → option (list Z);
  known_fs : Z → Prop;
  devnum : W → Z → option Z;
  dl_vol w f : known_fs f → fsop_getvolname f w = Ok (vols w f, w);
  dl_init w p d : ∃ w', dev_init_vnode p d w = Ok (tt, w') ∧ (∀ f, vols w' f = vols w f) ∧ ∀ d', devnum w' d' = devnum w d';
  dl_num w d n : is_Some (devnum w d) → ∃ w', set_devnumber d n w = Ok (tt, w') ∧ (∀ f, vols w' f = vols w f) ∧
    devnum w' d = Some n ∧ ∀ d', d' ≠ d → devnum w' d' = devnum w d';
}.

(** What a name leads to. *)
Inductive target := ToRoot (fs : Z) | ToDevice (vn : Z) | NotMounted.

Section devs.
Context {W : Type} {FO : FsOps W} {DL : DevLaws W}.
Implicit Types (s : vfs (W := W)).

Definition resolve (w : W) (name : list Z) (kd : knowndev) : option target :=
  if decide (kd_fs kd ≠ 0 ∧ (kd_name kd = name ∨ vols w (kd_fs kd) = Some name)) then Some (ToRoot (kd_fs kd))
  else if decide (kd_name kd = name) then Some (if decide (kd_rawname kd = None) then ToDevice (kd_vnode kd) else NotMounted)
  else if decide (kd_rawname kd = Some name) then Some (ToDevice (kd_vnode kd))
  else None.
Definition names_of (w : W) (kd : knowndev) : list (list Z) :=
  kd_name kd :: option_list (kd_rawname kd) ++ (if decide (kd_fs kd = 0) then [] else option_list (vols w (kd_fs kd))).

(** The table is the array of the entries [kds], each at an address of its own; the names of
    different entries are different, and a device has its position, from 1, as its number. *)
Record table_ok (s : vfs) (kds : list knowndev) : Prop := {
  to_arr : ∃ ps, arr_rep (knowndevs s) ps ∧ Forall2 (λ p kd, v_kds s !! p = Some kd) ps kds;
  to_kd : Forall (λ kd, (kd_fs kd ≠ 0 → known_fs (kd_fs kd)) ∧ (kd_fs kd = 0 ∨ is_Some (kd_rawname kd) → kd_device kd ≠ 0)) kds;
  to_names : ∀ i j kd kd' n, kds !! i = Some kd → kds !! j = Some kd' → n ∈ names_of (v_world s) kd → n ∈ names_of (v_world s) kd' → i = j;
  to_num : ∀ i kd, kds !! i = Some kd → kd_device kd ≠ 0 → devnum (v_world s) (kd_device kd) = Some (Z.of_nat i + 1);
}.

Lemma elem_of_opt (x : list Z) mx : x ∈ option_list mx ↔ mx = Some x.
Proof. destruct mx; simpl; [rewrite list_elem_of_singleton; naive_solver|by rewrite elem_of_nil]. Qed.
Lemma resolve_names w name kd t : resolve w name kd = Some t → name ∈ names_of w kd.
Proof.
  unfold resolve, names_of. rewrite elem_of_cons, elem_of_app, elem_of_opt. case_decide as H1.
  { destruct H1 as [Hf [->|Hv]]; [by left|]. intros _. right. right. rewrite decide_False by done. by apply elem_of_opt. }
  destruct (decide (kd_name kd = name)) as [H2|H2]; [by left|]. destruct (decide (kd_rawname kd = Some name)) as [H3|H3]; [intros _; right; by left|done].
Qed.
Lemma names_resolve w name kd : name ∈ names_of w kd → is_Some (resolve w name kd).
Proof.
  unfold names_of. rewrite elem_of_cons, elem_of_app, elem_of_opt. intros H. unfold resolve.
  destruct (decide (kd_fs kd ≠ 0 ∧ (kd_name kd = name ∨ vols w (kd_fs kd) = Some name))) as [H1|H1]; [eauto|].
  destruct (decide (kd_name kd = name)) as [H2|H2]; [eauto|]. destruct (decide (kd_rawname kd = Some name)) as [H3|H3]; [eauto|].
  destruct H as [H|[H|H]]; [by destruct H2|by destruct H3|].
  destruct (decide (kd_fs kd = 0)); [by apply elem_of_nil in H|]. apply elem_of_opt in H. tauto.
Qed.

(** ** The loop over the table *)
(** The first entry for which [f] has something to do decides. *)
Lemma for_ret_first {R} s (body : Z → M vfs (option R)) (f : knowndev → option (M vfs R)) kds : ∀ i,
  (∀ k kd, kds !! k = Some kd → body (i + Z.of_nat k) s = match f kd with Some m => (r ← m; mret (Some r)) s | None => Ok (None, s) end) →
  for_ret (length kds) i body s = match head (omap f kds) with Some m => (r ← m; mret (Some r)) s | None => Ok (None, s) end.
Proof.
  induction kds as [|kd kds IH]; intros i H; [done|]. cbn [length for_ret omap list_omap]. pose proof (H 0%nat kd eq_refl) as H0. rewrite Z.add_0_r in H0.
  destruct (f kd) as [m|].
  - simpl. unfold mbind at 1, M_bind at 1. rewrite H0. unfold mbind, M_bind. by destruct (m s) as [[]| | |].
  - rewrite (bind_ok _ _ _ _ _ H0). apply IH. intros k kd' Hk. rewrite <-(H (S k) kd' Hk). f_equal. lia.
Qed.
Lemma for_devs_first {R} s kds (body : Z → knowndev → M vfs (option R)) (f : knowndev → option (M vfs R)) dflt : table_ok s kds →
  (∀ p kd, kd ∈ kds → body p kd s = match f kd with Some m => (r ← m; mret (Some r)) s | None => Ok (None, s) end) →
  for_devs body dflt s = match head (omap f kds) with Some m => m s | None => Ok (dflt, s) end.
Proof.
  intros Ht Hb. destruct (to_arr _ _ Ht) as (ps & Hps & HF). pose proof (Forall2_length _ _ _ HF) as Hlen. unfold for_devs.
  assert (zoom array_num s = Ok (Z.of_nat (length kds), s)) as En.
  { unfold zoom, array_num, gets. simpl. rewrite (ar_num _ _ Hps), Hlen. by rewrite set_devs_same. }
  rewrite (bind_ok _ _ _ _ _ En), Nat2Z.id. unfold mbind at 1, M_bind at 1. rewrite (for_ret_first s _ f kds).
  - generalize (omap f kds). intros [|m l]; [done|]. simpl. unfold mbind, M_bind. by destruct (m s) as [[]| | |].
  - intros k kd Hk. destruct (lookup_lt_is_Some_2 ps k) as [p Hp]; [rewrite Hlen; by eapply lookup_lt_Some|].
    assert (zoom (array_get (0 + Z.of_nat k)) s = Ok (p, s)) as Eg.
    { rewrite Z.add_0_l. unfold zoom. cbn [sub_get vfs_devs]. pose proof (array_get_spec _ ps (v_heap s) Hps (Z.of_nat k) ltac:(lia)) as E.
      assert (zget ps (Z.of_nat k) = Some p) as Hz by (apply zget_Some; split; [lia|by rewrite Nat2Z.id]). rewrite Hz in E. rewrite E. simpl. by rewrite set_devs_same. }
    rewrite (bind_ok _ _ _ _ _ Eg). pose proof (Forall2_lookup_lr _ _ _ _ _ _ HF Hp Hk) as Hpk. simpl in Hpk.
    unfold get_kd. rewrite bind_assoc, (bind_ok _ _ _ s s) by done. rewrite (bind_of_opt _ _ kd) by done. apply Hb. by apply list_elem_of_lookup_2 in Hk.
Qed.

(** ** [vfs_getroot] *)
(** What is done with the target. *)
Definition arrive (t : option target) : M (vfs (W := W)) (result Z) :=
  match t with
  | Some (ToRoot f) => r ← below (fsop_getroot f); mret (inr r)
  | Some (ToDevice v) => below (vop_incref v);; mret (inr v)
  | Some NotMounted => mret (inl ENXIO)
  | None => mret (inl ENODEV)
  end.
Lemma getvolname_eq s f : known_fs f → below (fsop_getvolname f) s = Ok (vols (v_world s) f, s).
Proof. intros Hf. unfold below, zoom. simpl. rewrite dl_vol by done. simpl. by rewrite set_world_same. Qed.

Lemma getroot_body_eq s name kd : (kd_fs kd ≠ 0 → known_fs (kd_fs kd)) → (kd_fs kd = 0 ∨ is_Some (kd_rawname kd) → kd_device kd ≠ 0) →
  getroot_body name kd s = match resolve (v_world s) name kd with
  | Some t => (r ← arrive (Some t); mret (Some r)) s
  | None => Ok (None, s)
  end.
Proof.
  intros Hf Hd. assert (kd_device kd ≠ 0 → negb (kd_device kd =? 0) = true) as Hn by (intros; blia).
  assert (∀ s, (below (vop_incref (kd_vnode kd));; mret (Some (inr (kd_vnode kd) : result Z))) s =
    (r ← (below (vop_incref (kd_vnode kd));; mret (inr (kd_vnode kd) : result Z)); mret (Some r)) s) as Hinc.
  { intros s0. by rewrite bind_assoc. }
  unfold getroot_body, getroot_device, resolve. destruct (Z.eqb_spec (kd_fs kd) 0) as [E|E]; cbn [negb].
  - rewrite (decide_False (P := _ ∧ _)) by naive_solver. destruct (decide (kd_name kd = name)) as [En|En].
    + rewrite (bool_decide_true (kd_name kd = name)) by done. destruct (kd_rawname kd) as [rn|] eqn:Er; [done|]. change (bool_decide (is_Some (@None (list Z)))) with false. cbn [andb].
      rewrite bind_kassert by done. rewrite bind_kassert by done. rewrite bind_kassert by auto. apply Hinc.
    + rewrite (bool_decide_false (kd_name kd = name)) by done. rewrite andb_false_r. destruct (decide (kd_rawname kd = Some name)) as [Er|Er].
      * rewrite bool_decide_true by done. rewrite bind_kassert by auto. apply Hinc.
      * by rewrite bool_decide_false.
  - rewrite (bind_ok _ _ _ _ _ (getvolname_eq s _ (Hf E))). destruct (decide (kd_fs kd ≠ 0 ∧ _)) as [[_ Hor]|Hno].
    + destruct (bool_decide (kd_name kd = name) || bool_decide (vols (v_world s) (kd_fs kd) = Some name)) eqn:Eb.
      * unfold arrive. by rewrite bind_assoc.
      * apply orb_false_iff in Eb as [E1%bool_decide_eq_false E2%bool_decide_eq_false]. tauto.
    + rewrite (bool_decide_false (kd_name kd = name)), bool_decide_false by tauto. simpl.
      rewrite (decide_False (P := kd_name kd = name)) by tauto. destruct (decide (kd_rawname kd = Some name)) as [Er|Er].
      * rewrite bool_decide_true by done. rewrite bind_kassert by (rewrite Er in Hd; eauto). apply Hinc.
      * by rewrite bool_decide_false.
Qed.

Lemma hold_eq {A} s (f : bool → M vfs A) : (mbind f vfs_biglock_do_i_hold) s = f (biglock_mine s) s.
Proof. done. Qed.
Lemma getroot_first s kds name : table_ok s kds → biglock_mine s = true →
  vfs_getroot name s = arrive (head (omap (resolve (v_world s) name) kds)) s.
Proof.
  intros Ht Hm. unfold vfs_getroot. rewrite hold_eq, Hm. rewrite bind_kassert by done.
  rewrite (for_devs_first s kds _ (λ kd, arrive ∘ Some <$> resolve (v_world s) name kd) _ Ht).
  - assert (omap (λ kd, arrive ∘ Some <$> resolve (v_world s) name kd) kds = arrive ∘ Some <$> omap (resolve (v_world s) name) kds) as ->.
    { clear. induction kds as [|kd kds IH]; [done|]. cbn [omap list_omap]. destruct (resolve _ _ kd); simpl; [by rewrite IH|done]. }
    by destruct (omap (resolve (v_world s) name) kds).
  - intros p kd Hin. destruct (proj1 (Forall_forall _ _) (to_kd _ _ Ht) kd Hin) as [H1 H2]. rewrite getroot_body_eq by done.
    by destruct (resolve (v_world s) name kd).
Qed.
(** A name that is not given twice is resolved by its owner. *)
Lemma getroot_owner s kds name i kd : table_ok s kds → biglock_mine s = true → kds !! i = Some kd → name ∈ names_of (v_world s) kd →
  vfs_getroot name s = arrive (resolve (v_world s) name kd) s.
Proof.
  intros Ht Hm Hi Hn. rewrite (getroot_first s kds) by done. f_equal.
  assert (∀ j kd', kds !! j = Some kd' → j ≠ i → resolve (v_world s) name kd' = None) as Hoth.
  { intros j kd' Hj Hne. destruct (resolve (v_world s) name kd') eqn:E; [|done]. destruct Hne. eapply (to_names _ _ Ht j i); [done..|by eapply resolve_names|done]. }
  destruct (names_resolve _ _ _ Hn) as [t Et]. rewrite Et. clear Hn Ht Hm. revert i Hi Hoth.
  induction kds as [|k kds IH]; intros i Hi Hoth; [done|]. destruct i as [|i]; simplify_eq/=.
  - cbn [omap list_omap]. by rewrite Et.
  - cbn [omap list_omap]. rewrite (Hoth 0%nat k) by done. apply (IH i); [done|]. intros j kd' Hj Hne. apply (Hoth (S j)); [done|lia].
Qed.
Lemma getroot_unknown s kds name : table_ok s kds → biglock_mine s = true → (∀ kd, kd ∈ kds → name ∉ names_of (v_world s) kd) →
  vfs_getroot name s = Ok (inl ENODEV, s).
Proof.
  intros Ht Hm Hno. rewrite (getroot_first s kds) by done.
  assert (omap (resolve (v_world s) name) kds = []) as ->; [|done]. clear Ht. induction kds as [|kd kds IH]; [done|]. cbn [omap list_omap].
  destruct (resolve (v_world s) name kd) eqn:E; [|apply IH; intros k Hk; apply Hno; by right].
  destruct (Hno kd); [by left|by eapply resolve_names].
Qed.

(** ** [badnames] *)
Lemma samestring3_true a b c d : samestring3 a b c d = true ↔ ∃ n, a = Some n ∧ n ∈ option_list b ++ option_list c ++ option_list d.
Proof.
  assert (∀ x y, samestring x y = true ↔ ∃ n, x = Some n ∧ y = Some n) as H.
  { intros [x|] [y|]; simpl; rewrite ?bool_decide_eq_true; naive_solver. }
  unfold samestring3. rewrite !orb_true_iff, !H. setoid_rewrite elem_of_app. setoid_rewrite elem_of_app. setoid_rewrite elem_of_opt. naive_solver.
Qed.
Definition clashes (w : W) (new : list (list Z)) (kd : knowndev) : Prop := ∃ n, n ∈ new ∧ n ∈ names_of w kd.
Lemma badnames_eq s kds n1 n2 n3 : table_ok s kds → biglock_mine s = true →
  ∃ b, badnames n1 n2 n3 s = Ok (b, s) ∧
    (b = true ↔ ∃ kd, kd ∈ kds ∧ clashes (v_world s) (option_list n1 ++ option_list n2 ++ option_list n3) kd).
Proof.
  intros Ht Hm. set (new := option_list n1 ++ option_list n2 ++ option_list n3).
  set (c := λ kd, (if decide (kd_fs kd = 0) then false else samestring3 (vols (v_world s) (kd_fs kd)) n1 n2 n3)
    || samestring3 (kd_rawname kd) n1 n2 n3 || samestring3 (Some (kd_name kd)) n1 n2 n3).
  assert (∀ kd, c kd = true ↔ clashes (v_world s) new kd) as Hc.
  { intros kd. unfold c, clashes, names_of. rewrite !orb_true_iff. setoid_rewrite elem_of_cons. setoid_rewrite elem_of_app.
    destruct (decide (kd_fs kd = 0)); rewrite !samestring3_true; setoid_rewrite elem_of_opt; [setoid_rewrite elem_of_nil|]; naive_solver. }
  exists (existsb c kds). unfold badnames. rewrite hold_eq, Hm. rewrite bind_kassert by done. split.
  - rewrite (for_devs_first s kds _ (λ kd, if c kd then Some (mret true) else None) _ Ht).
    + clear. induction kds as [|kd kds IH]; [done|]. cbn [omap list_omap existsb]. by destruct (c kd).
    + intros p kd Hin. destruct (proj1 (Forall_forall _ _) (to_kd _ _ Ht) kd Hin) as [H1 _]. unfold badnames_body, c.
      destruct (Z.eqb_spec (kd_fs kd) 0) as [E|E]; cbn [negb].
      * rewrite decide_True by done. rewrite (bind_ok _ _ false s s) by done. by destruct (_ || _).
      * rewrite decide_False by done. rewrite bind_assoc, (bind_ok _ _ _ _ _ (getvolname_eq s _ (H1 E))).
        rewrite (bind_ok _ _ _ s s eq_refl). by destruct (_ || _).
  - rewrite existsb_exists. setoid_rewrite <-list_elem_of_In. by setoid_rewrite Hc.
Qed.

(** ** [vfs_doadd] *)
(** The heap hands out blocks that are not in use, each once. *)
Definition heap_ok (s : vfs (W := W)) : Prop :=
  NoDup (omap id (v_heap s)) ∧ ∀ a, Some a ∈ v_heap s → a ≠ 0 ∧ a ∉ v_live s ∧ v_kds s !! a = None.
(** The next [k] requests succeed. *)
Definition room (k : nat) (s : vfs (W := W)) : Prop := (k ≤ length (v_heap s))%nat ∧ Forall is_Some (take k (v_heap s)).
(** The pointers that are not null. *)
Definition nz (ps : list Z) : list Z := filter (λ p, p ≠ 0) ps.
(** Since [s] the blocks [ps] were taken from the heap, and the table is as it was. *)
Record took (ps : list Z) (s s' : vfs (W := W)) : Prop := {
  tk_table : knowndevs s' = knowndevs s ∧ ∀ p, p ∉ nz ps → v_kds s' !! p = v_kds s !! p;
  tk_lock : biglock_mine s' = biglock_mine s ∧ vfs_biglock_depth s' = vfs_biglock_depth s;
  tk_vnodes : bootfs_vnode s' = bootfs_vnode s ∧ t_cwd s' = t_cwd s;
  tk_heap : ∃ l, v_heap s = l ++ v_heap s' ∧ ∀ a, a ∈ nz ps → Some a ∈ l;
  tk_live : v_live s' = list_to_set (nz ps) ∪ v_live s;
  tk_fresh : NoDup (nz ps) ∧ ∀ p, p ∈ nz ps → p ∉ v_live s ∧ v_kds s !! p = None;
  tk_vols : ∀ f, vols (v_world s') f = vols (v_world s) f;
  tk_devs : ∀ d, devnum (v_world s') d = devnum (v_world s) d;
}.
Lemma nz_app ps qs : nz (ps ++ qs) = nz ps ++ nz qs.
Proof. apply filter_app. Qed.
Lemma nz_cons p ps : nz (p :: ps) = if decide (p = 0) then nz ps else p :: nz ps.
Proof. unfold nz. rewrite filter_cons. by destruct (decide (p = 0)); destruct (decide (p ≠ 0)). Qed.
Lemma took_nz ps qs s s' : nz ps = nz qs → took ps s s' → took qs s s'.
Proof. intros E []. constructor; by rewrite <-?E. Qed.
Lemma took_refl s : took [] s s.
Proof. constructor; try done; [exists []; split; [done|intros a Ha; by apply elem_of_nil in Ha]|simpl; set_solver|split; [constructor|intros p Hp; by apply elem_of_nil in Hp]]. Qed.

Lemma wp_kmalloc_took ps s0 s (Q : Z → vfs → Prop) : heap_ok s0 → took ps s0 s → 
  (∀ a s', took (ps ++ [a]) s0 s' → v_kds s' = v_kds s → (∀ k, room (S k) s → a ≠ 0 ∧ room k s') → Q a s') → wp kmalloc Q s.
Proof.
  intros [Hnd Hh] [G1 G2 G3 (l & El & Hl) G5 G6 G7 G8] HQ. assert (nz (ps ++ [0]) = nz ps) as E0 by (rewrite nz_app; apply app_nil_r).
  unfold kmalloc. apply wp_bind_2, wp_get. destruct (v_heap s) as [|[a|] h] eqn:E.
  - apply wp_ret, HQ; [|done|intros k [Hk _]; rewrite E in Hk; simpl in Hk; lia]. constructor; rewrite ?E0; try done. rewrite E. eauto.
  - apply wp_bind_2, wp_put, wp_ret. assert (Some a ∈ v_heap s0) as Hin by (rewrite El; set_solver). destruct (Hh a Hin) as (K1 & K2 & K3).
    assert (nz (ps ++ [a]) = nz ps ++ [a]) as Ea by (rewrite nz_app, nz_cons, decide_False by done; done).
    assert (a ∉ nz ps) as Hna.
    { intros HaL. rewrite El, omap_app in Hnd. apply NoDup_app in Hnd as (_ & Hd & _). apply (Hd a); apply list_elem_of_omap; exists (Some a).
      + split; [by apply Hl|done].
      + split; [constructor|done]. }
    apply HQ; [|done|].
    2: { intros k [Hk1 Hk2]. rewrite E in Hk1, Hk2. simpl in Hk1, Hk2. apply Forall_cons in Hk2 as [_ Hk2]. split; [done|split; simpl; [lia|done]]. }
    constructor; rewrite ?Ea; try done; simpl.
    + split; [apply G1|]. intros p Hp. apply G1. set_solver.
    + exists (l ++ [Some a]). split; [rewrite El, <-app_assoc; done|].
      intros b [Hb| ->%list_elem_of_singleton]%elem_of_app; apply elem_of_app; [left; by apply Hl|right; constructor].
    + rewrite G5, list_to_set_app_L. simpl. set_solver.
    + destruct G6 as [N1 N2]. split; [apply NoDup_app; split; [done|split; [set_solver|apply NoDup_singleton]]|]. intros p [Hp| ->%list_elem_of_singleton]%elem_of_app; auto.
  - apply wp_bind_2, wp_put, wp_ret, HQ; [|done|].
    2: { intros k [_ Hk]. rewrite E in Hk. simpl in Hk. apply Forall_cons in Hk as [[? ?] _]. done. }
    constructor; rewrite ?E0; try done; simpl. exists (l ++ [None]). split; [rewrite El, <-app_assoc; done|].
    intros b Hb. apply elem_of_app. left. by apply Hl.
Qed.
Lemma wp_kfree_took p ps s0 s (Q : unit → vfs → Prop) : took (p :: ps) s0 s → v_kds s !! p = v_kds s0 !! p → (∀ s', took ps s0 s' → v_kds s' = v_kds s → Q tt s') → wp (kfree_if p) Q s.
Proof.
  intros G Hp HQ. unfold kfree_if. destruct (Z.eqb_spec p 0) as [->|E].
  - apply wp_ret, HQ; [|done]. by eapply took_nz; [|exact G].
  - assert (nz (p :: ps) = p :: nz ps) as En by (by rewrite nz_cons, decide_False).
    destruct G as [G1 G2 G3 (l & El & Hl) G5 G6 G7 G8]. rewrite En in *. destruct G6 as [[N1 N2]%NoDup_cons N3]. unfold kfree. apply wp_bind_2, wp_get.
    rewrite decide_True by (rewrite G5; set_solver). apply wp_put, HQ; [|done]. constructor; try done; simpl.
    + split; [apply G1|]. intros q Hq. destruct (decide (q = p)) as [->|Hqp]; [done|]. apply G1. set_solver.
    + exists l. split; [done|]. intros a Ha. apply Hl. by right.
    + rewrite G5. simpl. destruct (N3 p ltac:(constructor)) as [N4 _]. assert (p ∉ (list_to_set (nz ps) : gset Z)) by (by rewrite elem_of_list_to_set). set_solver.
    + split; [done|]. intros q Hq. apply N3. by right.
Qed.

Lemma took_heap ps s0 s h : took ps s0 s → h = tail (v_heap s) → took ps s0 (set_devs (knowndevs s) h s).
Proof.
  intros [G1 G2 G3 (l & El & Hl) G5 G6 G7 G8] ->. constructor; try done. simpl. destruct (v_heap s) as [|x h]; [by exists l|]. exists (l ++ [x]).
  split; [by rewrite El, <-app_assoc|]. intros a Ha. apply elem_of_app. left. by apply Hl.
Qed.
Lemma took_world ps s0 s w : took ps s0 s → (∀ f, vols w f = vols (v_world s) f) → (∀ d, devnum w d = devnum (v_world s) d) → took ps s0 (set_world w s).
Proof.
  intros [G1 G2 G3 G4 G5 G6 G7 G8] H1 H2. constructor; try done; simpl; [intros f; by rewrite H1|intros d; by rewrite H2].
Qed.
Lemma took_put ps s0 s p kd : p ∈ nz ps → took ps s0 s → took ps s0 (set_kds (<[p := kd]> (v_kds s)) s).
Proof.
  intros Hp [[G0 G1] G2 G3 G4 G5 G6 G7 G8]. constructor; try done. split; [done|]. intros q Hq. simpl.
  rewrite lookup_insert_ne by (by intros ->). by apply G1.
Qed.
Lemma names_of_vols w w' kd : (∀ f, vols w' f = vols w f) → names_of w' kd = names_of w kd.
Proof. intros H. unfold names_of. by rewrite H. Qed.
Lemma took_table ps s0 s kds : took ps s0 s → table_ok s0 kds → table_ok s kds.
Proof.
  intros G [(l & A1 & A2) A3 A4 A5]. constructor; [|done| |].
  - exists l. destruct (tk_table _ _ _ G) as [G1 G2]. rewrite G1. split; [done|]. eapply Forall2_impl; [exact A2|]. intros p kd Hp. rewrite G2; [done|].
    intros Hin. destruct (proj2 (tk_fresh _ _ _ G) p Hin) as [_ Hno]. simpl in Hp. congruence.
  - intros i j kd kd' n. rewrite !(names_of_vols _ _ _ (tk_vols _ _ _ G)). apply A4.
  - intros i kd. rewrite (tk_devs _ _ _ G). apply A5.
Qed.
(** The end of the call: the lock is given back. *)
Lemma wp_unlock s (Q : unit → vfs → Prop) : biglock_mine s = true → vfs_biglock_depth s = 1 → Q tt (set_lock false 0 s) → wp vfs_biglock_release Q s.
Proof. intros H1 H2 HQ. unfold vfs_biglock_release. apply wp_bind_2, wp_get, wp_bind_2, wp_kassert; [done|]. rewrite H2. apply wp_bind_2, wp_kassert; [done|]. by apply wp_put. Qed.
Lemma set_lock_table b d s kds : table_ok s kds → table_ok (set_lock b d s) kds.
Proof. intros []. by constructor. Qed.

Lemma wp_nomem n r v k s0 s (Q : option errno → vfs → Prop) : biglock_mine s0 = true → vfs_biglock_depth s0 = 1 → took [n; r; v; k] s0 s → v_kds s = v_kds s0 →
  (∀ s', took [] s0 s' → Q (Some ENOMEM) (set_lock false 0 s')) → wp (doadd_nomem n r v k) Q s.
Proof.
  intros Hm Hd G Hk HQ. unfold doadd_nomem. do 4 (apply wp_bind_2; eapply wp_kfree_took; [eassumption|congruence|]; clear G; intros ? G ?).
  destruct (tk_lock _ _ _ G) as [L1 L2]. apply wp_bind_2, wp_unlock; [congruence..|]. by apply wp_ret, HQ.
Qed.

(** The entry that [vfs_doadd] is to make. *)
Definition new_kd (dname : list Z) (mountable : bool) (dev vn fs : Z) : knowndev :=
  Knowndev dname (if mountable then Some (dname ++ raw) else None) dev vn fs.
Definition taken (s : vfs (W := W)) (kds : list knowndev) (new : knowndev) : Prop :=
  ∃ kd, kd ∈ kds ∧ clashes (v_world s) (names_of (v_world s) new) kd.
(** The outcomes of [vfs_doadd]. *)
Definition doadd_post dname mountable dev fs kds (s : vfs (W := W)) (r : option errno) (s' : vfs (W := W)) : Prop :=
  biglock_mine s' = false ∧ vfs_biglock_depth s' = 0 ∧ bootfs_vnode s' = bootfs_vnode s ∧ t_cwd s' = t_cwd s ∧
  match r with
  | None => ∃ vn, table_ok s' (kds ++ [new_kd dname mountable dev vn fs]) ∧ ¬ taken s kds (new_kd dname mountable dev vn fs)
  | Some e => table_ok s' kds ∧
      (e = EEXIST ∧ taken s kds (new_kd dname mountable dev 0 fs) ∧
         (∃ L, NoDup L ∧ length L = (if mountable then 4 else 3)%nat ∧ (∀ p, p ∈ L → p ∉ v_live s) ∧ v_live s' = list_to_set L ∪ v_live s) ∨
       e = ENOMEM ∧ ¬ room (if mountable then 5 else 4) s)
  end.

(** A new entry whose names are free. *)
Lemma table_snoc s s' kds kd p : table_ok s kds → ¬ taken s kds kd → (kd_fs kd ≠ 0 → known_fs (kd_fs kd)) → (kd_fs kd = 0 ∨ is_Some (kd_rawname kd) → kd_device kd ≠ 0) →
  (∃ ps, arr_rep (knowndevs s) ps ∧ arr_rep (knowndevs s') (ps ++ [p])) → v_kds s' = v_kds s → v_kds s !! p = Some kd →
  (∀ f, vols (v_world s') f = vols (v_world s) f) → (∀ k, k ∈ kds → kd_device k ≠ kd_device kd ∨ kd_device k = 0) →
  (kd_device kd ≠ 0 → devnum (v_world s') (kd_device kd) = Some (Z.of_nat (length kds) + 1)) →
  (∀ d, d ≠ kd_device kd ∨ d = 0 → devnum (v_world s') d = devnum (v_world s) d) → table_ok s' (kds ++ [kd]).
Proof.
  intros [(l & A1 & A2) A3 A4 A5] Hc Hf Hd (ps & B1 & B2) Ek Hp Hv Hne Hn Hdn. destruct (arr_rep_inj _ _ _ A1 B1). constructor.
  - exists (l ++ [p]). rewrite Ek. split; [done|]. by apply Forall2_app; [|constructor].
  - apply Forall_app. by split; [|constructor].
  - assert (∀ i j kd' n, kds !! i = Some kd' → n ∈ names_of (v_world s) kd' → n ∈ names_of (v_world s) kd → i = j :> nat) as Hcl.
    { intros i j kd' n Hi H1 H2. destruct Hc. exists kd'. split; [by eapply list_elem_of_lookup_2|]. by exists n. }
    intros i j k1 k2 n Hi Hj. rewrite !(names_of_vols _ _ _ Hv). apply lookup_app_Some in Hi as [Hi|[Hi1 Hi]], Hj as [Hj|[Hj1 Hj]].
    + by apply (A4 i j).
    + apply list_lookup_singleton_Some in Hj as [Hj ->]. intros. by eapply (Hcl i j).
    + apply list_lookup_singleton_Some in Hi as [Hi ->]. intros. symmetry. by eapply (Hcl j i).
    + apply list_lookup_singleton_Some in Hi as [Hi ->], Hj as [Hj ->]. lia.
  - intros i k [Hi|[Hi1 Hi]]%lookup_app_Some Hk.
    + rewrite Hdn; [by apply A5|]. left. by destruct (Hne k (list_elem_of_lookup_2 _ _ _ Hi)).
    + apply list_lookup_singleton_Some in Hi as [Hi ->]. rewrite Hn by done. f_equal. lia.
Qed.

Lemma names_of_new w dname mountable dev vn fs :
  names_of w (new_kd dname mountable dev vn fs) =
  option_list (Some dname) ++ option_list (if mountable then Some (dname ++ raw) else None) ++ option_list (if decide (fs = 0) then None else vols w fs).
Proof. unfold names_of, new_kd. simpl. by destruct (decide (fs = 0)). Qed.

Lemma room_some (b : bool) s : room (if b then 5 else 4) s → room 1 s.
Proof.
  intros [H1 H2]. assert (1 ≤ (if b then 5 else 4))%nat by (destruct b; lia). split; [lia|].
  replace 1%nat with (1 `min` (if b then 5 else 4))%nat by lia. rewrite <-take_take. by apply Forall_take.
Qed.

Section doadd.
Context (dname : list Z) (mountable : bool) (dev fs : Z) (kds : list knowndev) (s : vfs (W := W)).
Hypothesis (Ht : table_ok s kds) (Hh : heap_ok s) (Hfree : biglock_mine s = false ∧ vfs_biglock_depth s = 0).
Hypothesis (Hlen : Z.of_nat (length kds) < 536870912).
Hypothesis (Hfs : fs ≠ 0 → known_fs fs) (Hdev : fs = 0 ∨ mountable = true → dev ≠ 0).
Hypothesis (Hnum : dev ≠ 0 → is_Some (devnum (v_world s) dev) ∧ ∀ k, k ∈ kds → kd_device k ≠ dev).

Let s0 := set_lock true 1 s.
Let post := doadd_post dname mountable dev fs kds s.

Lemma doadd_fail ps s1 e : took ps s0 s1 →
  (e = EEXIST ∧ taken s kds (new_kd dname mountable dev 0 fs) ∧ length (nz ps) = (if mountable then 4 else 3)%nat ∨
   e = ENOMEM ∧ ¬ room (if mountable then 5 else 4) s) → post (Some e) (set_lock false 0 s1).
Proof using Ht.
  intros G He. split; [done|]. split; [done|]. destruct (tk_vnodes _ _ _ G) as [G1 G2]. split; [done|]. split; [done|]. split.
  - apply set_lock_table. eapply took_table; [exact G|]. by apply set_lock_table.
  - destruct He as [(-> & Hc & Hl)|He]; [left|by right]. split; [done|]. split; [done|]. exists (nz ps). destruct (tk_fresh _ _ _ G) as [F1 F2].
    split; [done|]. split; [done|]. split; [intros p Hp; by apply F2|]. apply (tk_live _ _ _ G).
Qed.

Lemma wp_doadd_enter vn kd ps s1 : took ps s0 s1 → v_kds s1 !! kd = Some (new_kd dname mountable dev vn fs) → length (nz ps) = (if mountable then 4 else 3)%nat →
  (room (if mountable then 5 else 4) s → room 1 s1) →
  wp (doadd_enter dname (if mountable then Some (dname ++ raw) else None) kd dev fs) post s1.
Proof using All.
  intros G Hkd Hl Hr. destruct (tk_lock _ _ _ G) as [L1 L2]. simpl in L1, L2. pose proof (took_table _ _ _ _ G (set_lock_table _ _ _ _ Ht)) as Ht1.
  unfold doadd_enter. apply wp_bind_2.
  assert (∀ Q, Q (if decide (fs = 0) then None else vols (v_world s1) fs) s1 → wp (if negb (fs =? 0) then below (fsop_getvolname fs) else mret None) Q s1) as Hvol.
  { intros Q HQ. destruct (Z.eqb_spec fs 0) as [E|E]; cbn [negb]; [rewrite decide_True in HQ by done; by apply wp_ret|].
    rewrite decide_False in HQ by done. eapply wp_eq; [by apply getvolname_eq, Hfs|done]. }
  apply Hvol. clear Hvol. destruct (badnames_eq s1 kds (Some dname) (if mountable then Some (dname ++ raw) else None) (if decide (fs = 0) then None else vols (v_world s1) fs) Ht1 L1) as (b & Eb & Hb).
  rewrite <-(names_of_new (v_world s1) dname mountable dev vn fs) in Hb.
  assert (b = true ↔ taken s kds (new_kd dname mountable dev vn fs)) as Hb'.
  { rewrite Hb. unfold taken, clashes. pose proof (tk_vols _ _ _ G) as Hv. change (v_world s0) with (v_world s) in Hv. setoid_rewrite (names_of_vols _ _ _ Hv). done. }
  apply wp_bind_2. eapply wp_eq; [exact Eb|]. destruct b.
  { apply wp_bind_2, wp_unlock; [done..|]. apply wp_ret. eapply doadd_fail; [exact G|]. left. split; [done|]. split; [by apply Hb'|done]. }
  destruct (to_arr _ _ Ht1) as (l & A1 & A2). pose proof (Forall2_length _ _ _ A2) as Ell.
  assert (¬ taken s1 kds (new_kd dname mountable dev vn fs)) as Hno by (intros Hy; by apply Hb in Hy).
  apply wp_bind_2, wp_zoom. eapply wp_mono; [apply (wp_array_add (knowndevs s1) l (v_heap s1) kd A1); lia|]. intros [e|i] [a' h']; cbn [a_arr a_heap].
  { intros (-> & -> & _ & Hn & Eh). apply wp_bind_2, wp_unlock; [done..|]. apply wp_ret.
    apply (doadd_fail ps (set_devs (knowndevs s1) h' s1)); [by eapply took_heap|]. right. split; [done|]. intros Hro. destruct (Hr Hro) as [R1 R2].
    destruct (v_heap s1) as [|x h]; [simpl in R1; lia|]. simpl in R2. apply Forall_singleton in R2 as [y ->]. by eapply Hn. }
  intros (-> & Ha & _). rewrite Ell.
  assert (∀ w2, (∀ f, vols w2 f = vols (v_world s1) f) → (dev ≠ 0 → devnum w2 dev = Some (Z.of_nat (length kds) + 1)) → (∀ d, d ≠ dev ∨ d = 0 → devnum w2 d = devnum (v_world s1) d) →
    wp (vfs_biglock_release;; mret None) post (set_world w2 (set_devs a' h' s1))) as Hend.
  { intros w2 W1 W2 W3. apply wp_bind_2, wp_unlock; [done..|]. apply wp_ret. destruct (tk_vnodes _ _ _ G) as [G1 G2]. do 4 (split; [done|]).
    exists vn. split; [|by intros Hy%Hb']. apply (table_snoc s1 _ _ _ kd); simpl; try done; [destruct mountable; naive_solver|by exists l|].
    intros k Hk. destruct (decide (dev = 0)) as [->|E]; [|left; by apply Hnum]. destruct (decide (kd_device k = 0)); auto. }
  apply wp_bind_2. destruct (Z.eqb_spec dev 0) as [E|E]; cbn [negb].
  - apply wp_ret. apply (Hend (v_world s1)); done.
  - destruct (Hnum E) as [Hk _]. rewrite <-(tk_devs _ _ _ G) in Hk. destruct (dl_num _ _ (u32 (Z.of_nat (length kds) + 1)) Hk) as (w2 & Ew & W1 & W2 & W3).
    unfold below. apply wp_zoom. eapply wp_eq; [exact Ew|]. apply Hend; [done| |intros d [Hd| ->]; by apply W3]. intros _. rewrite W2, u32_id by lia. done.
Qed.

Lemma doadd_no_memory n r v k s1 : took [n; r; v; k] s0 s1 → v_kds s1 = v_kds s → ¬ room (if mountable then 5 else 4) s → wp (doadd_nomem n r v k) post s1.
Proof using Ht. intros G Hk Hr. apply (wp_nomem n r v k s0 s1); [done..|]. intros s' G'. apply (doadd_fail [] s'); auto. Qed.
Lemma nz_zero ps : nz (ps ++ [0]) = nz ps.
Proof using. rewrite nz_app. apply app_nil_r. Qed.
(** From the vnode on. *)
Lemma wp_doadd_vnode name rawname rawstr s1 : took [name; rawname] s0 s1 → v_kds s1 = v_kds s → name ≠ 0 →
  (if mountable then rawname ≠ 0 ∧ rawstr = dname ++ raw else rawname = 0) → (room (if mountable then 5 else 4) s → room 3 s1) →
  wp (vnode ← dev_create_vnode dev;
      if vnode =? 0 then doadd_nomem name rawname 0 0
      else
        kd ← kmalloc;
        if kd =? 0 then doadd_nomem name rawname vnode 0
        else
          let rawname := if mountable then Some rawstr else None in
          put_kd kd (Knowndev dname rawname dev vnode fs);;
          doadd_enter dname rawname kd dev fs) post s1.
Proof using All.
  intros G Hk Hn Hraw Hr. assert (heap_ok s0) as Hh0 by done. apply wp_bind_2. unfold dev_create_vnode. apply wp_bind_2; eapply (wp_kmalloc_took _ s0); [done|eassumption|].
  intros vn s2 G2 K2 R2. destruct (Z.eqb_spec vn 0) as [->|Ev].
  { apply wp_ret. simpl. apply doadd_no_memory; [|congruence|].
    - eapply took_nz; [|exact G2]. exact (eq_sym (nz_zero [name; rawname; 0])).
    - intros Hro. by destruct (R2 2%nat (Hr Hro)). }
  destruct (dl_init (v_world s2) vn dev) as (w3 & Ew & W1 & W2). apply wp_bind_2. unfold below. apply wp_zoom. eapply wp_eq; [exact Ew|]. apply wp_ret.
  rewrite (proj2 (Z.eqb_neq vn 0)) by done. set (s3 := sub_put w3 s2). assert (took [name; rawname; vn] s0 s3) as G3 by by apply took_world.
  apply wp_bind_2; eapply (wp_kmalloc_took _ s0); [done|eassumption|]. intros kd s4 G4 K4 R4. destruct (Z.eqb_spec kd 0) as [->|Ek].
  { apply doadd_no_memory; [exact G4|rewrite K4; simpl; congruence|]. intros Hro. destruct (R2 2%nat (Hr Hro)) as [_ Hro']. by destruct (R4 1%nat). }
  cbv zeta. apply wp_bind_2. unfold put_kd. apply wp_modify.
  assert (∀ o, (if mountable then Some rawstr else None) = o → o = if mountable then Some (dname ++ raw) else None) as Ho.
  { intros o <-. destruct mountable; [|done]. by destruct Hraw as [_ ->]. }
  rewrite (Ho _ eq_refl). apply (wp_doadd_enter vn kd ([name; rawname; vn] ++ [kd])).
  - apply took_put; [|done]. simpl. rewrite !nz_cons. repeat case_decide; set_solver.
  - simpl. by rewrite lookup_insert_eq.
  - simpl. rewrite !nz_cons. rewrite (decide_False (P := name = 0)), (decide_False (P := vn = 0)), (decide_False (P := kd = 0)) by done. revert Hraw. clear. destruct mountable; intros H.
    + by rewrite decide_False by tauto.
    + by rewrite decide_True by done.
  - intros Hro. destruct (R2 2%nat (Hr Hro)) as [_ Hro']. destruct (R4 1%nat) as [_ Hro2]; [done|]. exact Hro2.
Qed.
Lemma wp_doadd : wp (vfs_doadd dname mountable dev fs) post s.
Proof using All.
  unfold vfs_doadd. apply wp_bind_2, wp_modify. destruct Hfree as [_ ->]. change (set_lock true (u32 (0 + 1)) s) with s0.
  assert (heap_ok s0) as Hh0 by done. apply wp_bind_2, (wp_kmalloc_took [] s0); [done|apply took_refl|]. intros name s1 G1 K1 R1. destruct (Z.eqb_spec name 0) as [->|Hn].
  { apply doadd_no_memory; [|done|intros Hro; apply room_some in Hro; by destruct (R1 0%nat Hro)]. by eapply took_nz; [|exact G1]. }
  assert (mountable = true ∨ mountable = false) as [Em|Em] by (clear; destruct mountable; auto); rewrite Em; apply wp_bind_2.
  - unfold mkrawname. apply wp_bind_2; eapply (wp_kmalloc_took _ s0); [done|eassumption|]. intros rn s2 G2 K2 R2. apply wp_ret. cbn [andb]. destruct (Z.eqb_spec rn 0) as [->|Hrn].
    { apply doadd_no_memory; [|by rewrite K2|intros Hro; rewrite Em in Hro; destruct (R1 4%nat Hro) as [_ Hro']; by destruct (R2 3%nat Hro')]. eapply took_nz; [|exact G2].
      exact (eq_sym (eq_trans (nz_zero [name; 0; 0]) (nz_zero [name; 0]))). }
    pose proof (wp_doadd_vnode name rn (dname ++ raw) s2) as H. rewrite Em in H. apply H; [done|by rewrite K2|done|done|]. intros Hro. destruct (R1 4%nat Hro) as [_ Hro']. by apply (R2 3%nat).
  - apply wp_ret. cbn [andb]. pose proof (wp_doadd_vnode name 0 [] s1) as H. rewrite Em in H. apply H; [|done|done|done|intros Hro; by destruct (R1 3%nat Hro)].
    eapply took_nz; [|exact G1]. exact (eq_sym (nz_zero [name])).
Qed.
End doadd.
End devs.
