(* ===== verification/VfsSfs.v ===== *)
(** The virtual file system over a mounted simple file system and devices: the tables
    of vnode operations ([sfs_fileops] and [sfs_dirops] of [kern/fs/sfs/sfs_vnode.c],
    [dev_vnode_ops] of [kern/vfs/device.c]) and the dispatch of [VOP_*] and [FSOP_*],
    and a proof that they keep the promises of [FsLawful].

    One file system is mounted, at address [SFS_FS]; its root directory stays in
    memory, as it does while it is the current directory of some process. *)

From stdpp Require Import base tactics numbers list gmap.
From S2P Require Import Prelude KernDefs CopyInOut Bitmap Uio Array Sfs SfsInv SfsMap SfsIo SfsTrunc SfsDir SfsDirSpec SfsVn SfsVnOps SfsName SfsFs Device Vfs VfsPath VfsRefs.
Local Open Scope Z_scope.

(** * The tables *)
Record vnode_ops (S : Type) := VnodeOps {
  o_open : Z → Z → M S (option errno);
  o_close : Z → M S (option errno);
  o_reclaim : Z → M S (option errno);
  o_read : Z → uio → M S (option errno * uio);
  o_readlink : Z → uio → M S (option errno * uio);
  o_getdirentry : Z → uio → M S (option errno * uio);
  o_write : Z → uio → M S (option errno * uio);
  o_gettype : Z → M S (result Z);
  o_tryseek : Z → Z → M S (option errno);
  o_fsync : Z → M S (option errno);
  o_truncate : Z → Z → M S (option errno);
  o_namefile : Z → uio → M S (option errno * uio);
  o_creat : Z → list Z → bool → Z → M S (result Z);
  o_symlink : Z → list Z → list Z → M S (option errno);
  o_mkdir : Z → list Z → Z → M S (option errno);
  o_link : Z → list Z → Z → M S (option errno);
  o_remove : Z → list Z → M S (option errno);
  o_rmdir : Z → list Z → M S (option errno);
  o_rename : Z → list Z → Z → list Z → M S (option errno);
  o_lookup : Z → list Z → M S (result Z);
  o_lookparent : Z → list Z → Z → M S (result (Z * list Z));
}.
Arguments VnodeOps {S}.
Arguments o_open {S}. Arguments o_close {S}. Arguments o_reclaim {S}. Arguments o_read {S}. Arguments o_readlink {S}.
Arguments o_getdirentry {S}. Arguments o_write {S}. Arguments o_gettype {S}. Arguments o_tryseek {S}. Arguments o_fsync {S}.
Arguments o_truncate {S}. Arguments o_namefile {S}. Arguments o_creat {S}. Arguments o_symlink {S}. Arguments o_mkdir {S}.
Arguments o_link {S}. Arguments o_remove {S}. Arguments o_rmdir {S}. Arguments o_rename {S}. Arguments o_lookup {S}. Arguments o_lookparent {S}.

(** [sfs_notdir], [sfs_isdir] and [sfs_unimp], in the shapes they are cast to. *)
Definition fails {S} (e : errno) : M S (option errno) := mret (Some e).
Definition fails_uio {S} (e : errno) (u : uio) : M S (option errno * uio) := mret (Some e, u).
Definition fails_with {S A} (e : errno) : M S (result A) := mret (inl e).

Definition sfs_fileops : vnode_ops sfs := {|
  o_open _ fl := mret (sfs_open fl);
  o_close := sfs_close;
  o_reclaim := sfs_reclaim;
  o_read := sfs_read;
  o_readlink _ := fails_uio ENOTDIR;
  o_getdirentry _ := fails_uio ENOTDIR;
  o_write := sfs_write;
  o_gettype p := t ← sfs_gettype p; mret (inr t);
  o_tryseek _ pos := mret (sfs_tryseek pos);
  o_fsync := sfs_fsync;
  o_truncate := sfs_truncate;
  o_namefile _ := fails_uio ENOTDIR;
  o_creat _ _ _ _ := fails_with ENOTDIR;
  o_symlink _ _ _ := fails ENOTDIR;
  o_mkdir _ _ _ := fails ENOTDIR;
  o_link _ _ _ := fails ENOTDIR;
  o_remove _ _ := fails ENOTDIR;
  o_rmdir _ _ := fails ENOTDIR;
  o_rename _ _ _ _ := fails ENOTDIR;
  o_lookup _ _ := fails_with ENOTDIR;
  o_lookparent _ _ _ := fails_with ENOTDIR;
|}.
Definition sfs_dirops : vnode_ops sfs := {|
  o_open _ fl := mret (sfs_opendir fl);
  o_close := sfs_close;
  o_reclaim := sfs_reclaim;
  o_read _ := fails_uio EISDIR;
  o_readlink _ := fails_uio EISDIR;
  o_getdirentry _ := fails_uio EUNIMP;
  o_write _ := fails_uio EISDIR;
  o_gettype p := t ← sfs_gettype p; mret (inr t);
  o_tryseek _ _ := fails EUNIMP;
  o_fsync := sfs_fsync;
  o_truncate _ _ := fails EISDIR;
  o_namefile p u := r ← sfs_namefile p; mret (r, u);
  o_creat p name excl _ := sfs_creat p name excl;
  o_symlink _ _ _ := fails EUNIMP;
  o_mkdir _ _ _ := fails EUNIMP;
  o_link := sfs_link;
  o_remove := sfs_remove;
  o_rmdir _ _ := fails EUNIMP;
  o_rename := sfs_rename;
  o_lookup := sfs_lookup;
  o_lookparent := sfs_lookparent;
|}.
Definition dev_vnode_ops : vnode_ops (devs unit) := {|
  o_open := dev_open;
  o_close := dev_close;
  o_reclaim := dev_reclaim;
  o_read := dev_read;
  o_readlink := null_io;
  o_getdirentry := null_io;
  o_write := dev_write;
  o_gettype := dev_gettype;
  o_tryseek := dev_tryseek;
  o_fsync := null_fsync;
  o_truncate := dev_truncate;
  o_namefile := dev_namefile;
  o_creat := null_creat;
  o_symlink := null_symlink;
  o_mkdir := null_mkdir;
  o_link := null_link;
  o_remove := null_nameop;
  o_rmdir := null_nameop;
  o_rename := null_rename;
  o_lookup := dev_lookup;
  o_lookparent := dev_lookparent;
|}.

(** * The world below *)
(** The drivers are those without a state of their own. *)
Record kworld := KWorld { k_fs : sfs_fs; k_dev : devs unit }.
#[export] Instance kworld_fs : Sub kworld sfs_fs.
Proof. refine {| sub_get := k_fs; sub_put m w := KWorld m (k_dev w) |}; by intros []. Defined.
#[export] Instance kworld_dev : Sub kworld (devs unit).
Proof. refine {| sub_get := k_dev; sub_put d w := KWorld (k_fs w) d |}; by intros []. Defined.
Definition set_sfs (s : sfs) (w : kworld) : kworld := KWorld (SfsFs s (sfs_super (k_fs w)) (sfs_superdirty (k_fs w))) (k_dev w).
#[export] Instance kworld_sfs : Sub kworld sfs.
Proof. refine {| sub_get w := fs_sfs (k_fs w); sub_put := set_sfs |}; [done|by intros [[] []]|done]. Defined.
#[export] Instance kworld_mem : Sub kworld xmem.
Proof.
  refine {| sub_get w := s_mem (fs_sfs (k_fs w)); sub_put m w := set_sfs (set_mem m (fs_sfs (k_fs w))) w |}; [done|by intros [[[]] []]|done].
Defined.

Definition SFS_FS : Z := 1.

(** [v->vn_ops]: the table was chosen when the vnode was made, by the type of the
    inode, which does not change. *)
Definition vop {A} (p : Z) (dev : vnode_ops (devs unit) → M (devs unit) A) (op : vnode_ops sfs → M sfs A) : M kworld A :=
  w ← getS;
  if decide (is_Some (dv_vnodes (k_dev w) !! p)) then zoom (dev dev_vnode_ops)
  else zoom (sv ← get_sv p; op (if sfi_type (sv_i sv) =? SFS_TYPE_DIR then sfs_dirops else sfs_fileops)).
(** What is not in the tables: the counts of [kern/vfs/vnode.c]. *)
Definition counted {A} (p : Z) (dev : M (devs unit) A) (op : M sfs A) : M kworld A :=
  w ← getS; if decide (is_Some (dv_vnodes (k_dev w) !! p)) then zoom dev else zoom op.
Definition on_fs {A} (f : Z) (m : M kworld A) : M kworld A := if f =? SFS_FS then m else undef.

#[export] Instance sfs_ops : FsOps kworld := {
  fs_mem := kworld_mem;
  vn_fs p := counted p (_ ← get_dv p; mret 0) (_ ← get_sv p; mret SFS_FS);
  vop_incref p := counted p (dev_incref p) (vnode_incref p);
  vop_decref p := counted p (dev_decref p) (vnode_decref p);
  vop_incopen p := counted p (dev_incopen p) (vnode_incopen p);
  vop_decopen p := counted p (dev_decopen p) (vnode_decopen p);
  vop_open p fl := vop p (λ o, o_open o p fl) (λ o, o_open o p fl);
  vop_truncate p len := vop p (λ o, o_truncate o p len) (λ o, o_truncate o p len);
  vop_gettype p := vop p (λ o, o_gettype o p) (λ o, o_gettype o p);
  vop_namefile p u := vop p (λ o, o_namefile o p u) (λ o, o_namefile o p u);
  vop_readlink p u := vop p (λ o, o_readlink o p u) (λ o, o_readlink o p u);
  vop_creat p n x m := vop p (λ o, o_creat o p n x m) (λ o, o_creat o p n x m);
  vop_symlink p n c := vop p (λ o, o_symlink o p n c) (λ o, o_symlink o p n c);
  vop_mkdir p n m := vop p (λ o, o_mkdir o p n m) (λ o, o_mkdir o p n m);
  vop_link p n f := vop p (λ o, o_link o p n f) (λ o, o_link o p n f);
  vop_remove p n := vop p (λ o, o_remove o p n) (λ o, o_remove o p n);
  vop_rmdir p n := vop p (λ o, o_rmdir o p n) (λ o, o_rmdir o p n);
  vop_rename p n p' n' := vop p (λ o, o_rename o p n p' n') (λ o, o_rename o p n p' n');
  vop_lookup p n := vop p (λ o, o_lookup o p n) (λ o, o_lookup o p n);
  vop_lookparent p n l := vop p (λ o, o_lookparent o p n l) (λ o, o_lookparent o p n l);
  fsop_sync f := on_fs f (zoom sfs_sync);
  fsop_getvolname f := on_fs f (w ← getS; mret (Some (sfs_getvolname (k_fs w))));
  fsop_getroot f := on_fs f (zoom sfs_getroot);
  fsop_unmount f := on_fs f (zoom sfs_unmount);
  dev_init_vnode p d := zoom (dev_vnode_init p d);
  set_devnumber d n := zoom (put_devnumber d n);
  init_null_device d := zoom (devnull_init d);
}.

(** * What it promises *)
Definition s_of (w : kworld) : sfs := fs_sfs (k_fs w).
Definition dev_of (w : kworld) (p : Z) : option dev_vnode := dv_vnodes (k_dev w) !! p.
(** The reference that keeps the root directory in memory. *)
Definition base (s : sfs) (p : Z) : Z :=
  match vnodes s !! p with Some v => if decide (sv_ino v = SFS_ROOT_LOCATION) then 1 else 0 | None => 0 end.
(** The addresses the heap will hand out. *)
Definition heap_good (w : kworld) : Prop :=
  NoDup (omap id (s_heap (s_of w))) ∧
  ∀ a, Some a ∈ s_heap (s_of w) → a ≠ 0 ∧ vnodes (s_of w) !! a = None ∧ dev_of w a = None.
Definition driver_ok (d : device unit) : Prop :=
  (∀ fl, wp (d_open d fl) (λ _ _, True) tt) ∧ wp (d_close d) (λ _ _, True) tt.
Record k_inv (w : kworld) : Prop := {
  ki_tree : ∃ root F D, fs_tree root (s_of w) F D;
  ki_heap : heap_good w;
  ki_vn : ∀ p v, vnodes (s_of w) !! p = Some v → p ≠ 0 ∧ dev_of w p = None ∧
    (sfi_type (sv_i v) = SFS_TYPE_DIR → sv_ino v = SFS_ROOT_LOCATION);
  ki_dev : ∀ p v, dev_of w p = Some v → p ≠ 0 ∧ 1 ≤ dv_refcount v ∧
    ∃ d, dv_devices (k_dev w) !! dv_data v = Some d ∧ driver_ok d;
}.

#[export] Instance sfs_view : FsView kworld := {
  fs_inv := k_inv;
  refs w p := match dev_of w p with Some v => dv_refcount v - 1 | None => rc (s_of w) p - base (s_of w) p end;
  opens w p := match dev_of w p with Some v => dv_opencount v | None => oc (s_of w) p end;
  attr w p := match dev_of w p, vnodes (s_of w) !! p with
              | None, Some v => (SFS_FS, bool_decide (sfi_type (sv_i v) = SFS_TYPE_DIR))
              | _, _ => (0, false)
              end;
  live_fs w f := f = SFS_FS;
  dev_node w p := is_Some (dev_of w p);
}.

(** ** Steps of the file system *)
Section tree.
Context (root : Z) (s : sfs) (F : gmap Z sfs_inode) (D : gmap (list Z) Z).
Hypothesis Ht : fs_tree root s F D.

Lemma tree_vn : ∃ tbl, vn_ok s tbl F.
Proof using Ht. exact (da_vn _ _ _ _ (ft_at _ _ _ _ Ht)). Qed.
Lemma base_root p : base s p = ref1 root p.
Proof using Ht.
  destruct (root_inode _ _ _ _ (ft_at _ _ _ _ Ht)) as (rv & Hr & Er & _). destruct tree_vn as [tbl Hv]. unfold base, ref1.
  case_decide as Hp; [subst p; by rewrite Hr, decide_True|]. destruct (vnodes s !! p) as [v|] eqn:E; [|done]. rewrite decide_False; [done|].
  intros Ei. apply Hp. eapply (vo_one _ _ _ Hv); [done..|]. congruence.
Qed.
Lemma rc_loaded p : 1 ≤ rc s p ↔ is_Some (vnodes s !! p).
Proof using Ht.
  destruct tree_vn as [tbl Hv]. unfold rc. destruct (vnodes s !! p) as [v|] eqn:E; [|split; [lia|by intros []]].
  destruct (vo_vn _ _ _ Hv _ _ E). split; [eauto|lia].
Qed.
(** Inodes stay, and counts may change. *)
Lemma tree_move s' : (∃ tbl, vn_ok s' tbl F) → untouched (λ _, False) s F s' F →
  (∀ a, (λ v, (sv_ino v, sv_i v)) <$> vnodes s' !! a = (λ v, (sv_ino v, sv_i v)) <$> vnodes s !! a) → fs_tree root s' F D.
Proof using Ht.
  intros Hv' Hu Hid. pose proof Ht as [Hat Hl Ho]. destruct (root_inode _ _ _ _ Hat) as (rv & Hr & Er & HF & Htr).
  pose proof (Hid root) as E. rewrite Hr in E. destruct (vnodes s' !! root) as [rv'|] eqn:Hr'; [|done]. injection E as Ei Es.
  constructor; [constructor; [done|exists rv'; split; [done|congruence]|]|done|].
  - eapply (dir_rep_move s s' root root D rv rv'); [apply Hat|done|done|done|]. apply (Hu SFS_ROOT_LOCATION); [by intros []|done].
  - intros j i Hj Htj Hz. apply (Ho j i Hj Htj) in Hz as (q & v & Hq & Ev)%loaded_iff. apply loaded_iff. specialize (Hid q). rewrite Hq in Hid.
    destruct (vnodes s' !! q) as [v'|] eqn:Hq'; [|done]. injection Hid as E1 E2. exists q, v'. split; [done|congruence].
Qed.
(** The contents of a file change. *)
Lemma tree_file_step q sv sv' s' : vnodes s !! q = Some sv → sfi_type (sv_i sv) = SFS_TYPE_FILE → file_step q s s' →
  vnodes s' !! q = Some sv' → 0 ≤ sfi_size (sv_i sv') < 4294967296 → (∃ F', fs_tree root s' F' D) ∧ vstep ref0 s s'.
Proof using Ht.
  intros Hq Hft Hst Hq' Hsz. pose proof Ht as [Hat Hl Ho]. destruct tree_vn as [tbl Hv].
  destruct (not_root root s F D Hat q sv (sv_i sv) Hq) as [Hqr Hir]; [exact (proj1 (vo_vn _ _ _ Hv _ _ Hq))|done|].
  destruct (file_step_vn s s' tbl F q sv sv' Hv Hst Hq Hq' Hsz) as [V U]. pose proof (step_meta s s' q sv sv' Hst Hq Hq') as [M1 M2 M3 M4 M5 _ _].
  set (F' := <[sv_ino sv := sv_i sv']> F) in *. split.
  - exists F'. destruct (at_move root s F D Hat _ s' F' (ex_intro _ tbl V) (fst_others _ _ _ Hst root (not_eq_sym Hqr)) U (not_eq_sym Hir)) as (A & _).
    assert (F !! sv_ino sv = Some (sv_i sv)) as HF by exact (proj1 (vo_vn _ _ _ Hv _ _ Hq)).
    constructor; [done| |].
    + destruct Hl as [L1 L2]. split.
      * intros name j Hj. destruct (L1 name j Hj) as (i & Hi & Hti). destruct (decide (j = sv_ino sv)) as [->|Hne].
        { exists (sv_i sv'). unfold F'. rewrite lookup_insert_eq. split; [done|congruence]. }
        exists i. unfold F'. by rewrite lookup_insert_ne.
      * intros j i [[<- <-]|[_ Hi]]%lookup_insert_Some Hti; [|by apply L2]. rewrite M5. by apply L2.
    + intros j i Hj Hti Hz. destruct (decide (j = sv_ino sv)) as [->|Hne].
      { apply loaded_iff. exists q, sv'. split; [done|congruence]. }
      unfold F' in Hj. rewrite lookup_insert_ne in Hj by done. apply (Ho j i Hj Hti) in Hz as (a & v & Ha & Ev)%loaded_iff. apply loaded_iff.
      exists a, v. rewrite (fst_others _ _ _ Hst); [done|]. intros ->. congruence.
  - apply vstep_same; [apply (fst_geom _ _ _ Hst)|]. intros a. destruct (decide (a = q)) as [->|Ha]; [|by rewrite (fst_others _ _ _ Hst)].
    rewrite Hq, Hq'. simpl. congruence.
Qed.
End tree.

Lemma heap_good_step s' w : k_inv w → hstep (s_of w) s' → heap_good (set_sfs s' w).
Proof.
  intros Hw (l & El & Hl). destruct (ki_heap _ Hw) as [Hnd Hg]. rewrite El in Hnd, Hg. rewrite omap_app in Hnd. apply NoDup_app in Hnd as (Hn1 & Hn2 & Hn3).
  split; [exact Hn3|]. intros a Ha. change (s_heap (s_of (set_sfs s' w))) with (s_heap s') in Ha.
  destruct (Hg a) as (G1 & G2 & G3); [apply elem_of_app; by right|]. split_and!; [done| |done]. simpl.
  destruct (vnodes s' !! a) as [v|] eqn:E; [|done]. exfalso. destruct (Hl a) as [[v' Hv']|Hin]; [by eexists|by rewrite G2 in Hv'|].
  apply (Hn2 a); apply list_elem_of_omap; [by exists (Some a)|by exists (Some a)].
Qed.

(** A step of the file system, as the layer above sees it. *)
Lemma k_step d w s' root F D : k_inv w → fs_tree root (s_of w) F D → vstep d (s_of w) s' → (∃ F' D', fs_tree root s' F' D') →
  (∀ a v, vnodes (s_of w) !! a = None → vnodes s' !! a = Some v → sfi_type (sv_i v) = SFS_TYPE_FILE) →
  wstep d zero w (set_sfs s' w).
Proof.
  intros Hw Ht Hs (F' & D' & Ht') Hnew. destruct Hs as [R O I H].
  assert (∀ p, is_Some (dev_of w p) → vnodes (s_of w) !! p = None ∧ vnodes s' !! p = None) as Hdev.
  { intros p [v Hp]. assert (vnodes (s_of w) !! p = None) as E.
    { destruct (vnodes (s_of w) !! p) eqn:E; [|done]. destruct (ki_vn _ Hw _ _ E) as (_ & E' & _). congruence. }
    split; [done|]. destruct (vnodes s' !! p) eqn:E'; [|done]. destruct H as (l & El & Hl). destruct (Hl p) as [[? ?]|Hin]; [by eexists|congruence|].
    destruct (proj2 (ki_heap _ Hw) p) as (_ & _ & E3); [rewrite El; apply elem_of_app; by left|]. congruence. }
  constructor.
  - constructor.
    + by exists root, F', D'.
    + by apply heap_good_step.
    + intros p v Hp. simpl in Hp. destruct (vnodes (s_of w) !! p) as [v0|] eqn:E.
      * destruct (ki_vn _ Hw _ _ E) as (K1 & K2 & K3). destruct (I _ _ _ E Hp) as [E1 E2]. split_and!; [done..|]. rewrite E1, E2. done.
      * destruct H as (l & El & Hl). destruct (Hl p) as [[? ?]|Hin]; [by eexists|congruence|].
        destruct (proj2 (ki_heap _ Hw) p) as (K1 & _ & K3); [rewrite El; apply elem_of_app; by left|]. split_and!; [done..|].
        rewrite (Hnew p v E Hp). done.
    + exact (ki_dev _ Hw).
  - intros q. simpl. change (dev_of (set_sfs s' w) q) with (dev_of w q). change (s_of (set_sfs s' w)) with s'.
    pose proof (R q) as Rq. destruct (dev_of w q) as [v|] eqn:E.
    + destruct (Hdev q) as [E1 E2]; [by eexists|]. unfold rc in Rq. rewrite E1, E2 in Rq. lia.
    + rewrite (base_root root _ _ _ Ht), (base_root root _ _ _ Ht'). lia.
  - intros q. simpl. change (dev_of (set_sfs s' w) q) with (dev_of w q). change (s_of (set_sfs s' w)) with s'.
    unfold zero. destruct (dev_of w q); [lia|]. rewrite O. lia.
  - intros q. simpl. change (dev_of (set_sfs s' w) q) with (dev_of w q). change (s_of (set_sfs s' w)) with s'.
    destruct (dev_of w q) as [v|] eqn:E; [done|]. rewrite (base_root root _ _ _ Ht), (base_root root _ _ _ Ht'). intros H1 H2.
    assert (0 ≤ ref1 root q) by (unfold ref1; case_decide; lia).
    destruct (proj1 (rc_loaded root _ _ _ Ht q) ltac:(lia)) as [v Hv]. destruct (proj1 (rc_loaded root _ _ _ Ht' q) ltac:(lia)) as [v' Hv'].
    rewrite Hv, Hv'. destruct (I _ _ _ Hv Hv') as [_ E2]. by rewrite E2.
  - done.
  - done.
Qed.

(** ** Shared lemmas *)
Lemma wstep_ext dr dp dr' dp' (w w' : kworld) : wstep dr dp w w' → (∀ q, dr' q = dr q) → (∀ q, dp' q = dp q) → wstep dr' dp' w w'.
Proof. intros [H1 H2 H3 H4 H5 H6] Er Ep. constructor; try done; intros q; [rewrite Er|rewrite Ep]; done. Qed.
Lemma wstep_refl (w : kworld) : k_inv w → wstep zero zero w w.
Proof. intros Hw. constructor; try done; intros q; unfold zero; lia. Qed.
Lemma wstep_then dp1 dr2 dp2 dp (w w1 w2 : kworld) : wstep zero dp1 w w1 → wstep dr2 dp2 w1 w2 → (∀ q, dp q = dp1 q + dp2 q) → wstep dr2 dp w w2.
Proof.
  intros [A1 A2 A3 A4 A5 A6] [B1 B2 B3 B4 B5 B6] E. assert (∀ q, refs w1 q = refs w q) as Er by (intros q; rewrite A2; unfold zero; lia).
  constructor; auto.
  - intros q. by rewrite B2, Er.
  - intros q. rewrite B3, A3, E. lia.
  - intros q H1 H2. rewrite B4, A4; [done|done|by rewrite Er|by rewrite Er|done].
Qed.
Lemma ref1_one q a : q ≠ 0 → one q a = ref1 q a.
Proof. intros Hq. unfold one, ref1. repeat case_decide; naive_solver. Qed.

Lemma set_sfs_same w : set_sfs (s_of w) w = w.
Proof. by destruct w as [[] ?]. Qed.
Lemma set_dev_same w : KWorld (k_fs w) (k_dev w) = w.
Proof. by destruct w. Qed.

Section laws.
Context (w : kworld).
Hypothesis Hw : k_inv w.

Lemma wp_counted_dev {A} p v (dev : M (devs unit) A) op (Q : A → kworld → Prop) : dev_of w p = Some v →
  wp dev (λ a d', Q a (KWorld (k_fs w) d')) (k_dev w) → wp (counted p dev op) Q w.
Proof using. intros E H. unfold counted. apply wp_bind_2, wp_get. unfold dev_of in E. rewrite decide_True by (rewrite E; eauto). by apply wp_zoom. Qed.
Lemma wp_counted_sfs {A} p (dev : M (devs unit) A) op (Q : A → kworld → Prop) : dev_of w p = None →
  wp op (λ a s', Q a (set_sfs s' w)) (s_of w) → wp (counted p dev op) Q w.
Proof using.
  intros E H. unfold counted. apply wp_bind_2, wp_get. unfold dev_of in E. rewrite decide_False by (rewrite E; by intros []). by apply wp_zoom.
Qed.
Lemma wp_vop_dev {A} p v dev op (Q : A → kworld → Prop) : dev_of w p = Some v →
  wp (dev dev_vnode_ops) (λ a d', Q a (KWorld (k_fs w) d')) (k_dev w) → wp (vop p dev op) Q w.
Proof using. intros E H. unfold vop. apply wp_bind_2, wp_get. unfold dev_of in E. rewrite decide_True by (rewrite E; eauto). by apply wp_zoom. Qed.
Lemma wp_vop_sfs {A} p sv dev op (Q : A → kworld → Prop) : dev_of w p = None → vnodes (s_of w) !! p = Some sv →
  wp (op (if sfi_type (sv_i sv) =? SFS_TYPE_DIR then sfs_dirops else sfs_fileops)) (λ a s', Q a (set_sfs s' w)) (s_of w) → wp (vop p dev op) Q w.
Proof using.
  intros E Hp H. unfold vop. apply wp_bind_2, wp_get. unfold dev_of in E. rewrite decide_False by (rewrite E; by intros []). apply wp_zoom.
  apply wp_bind_2. by eapply wp_get_sv.
Qed.

Lemma held_node p : 1 ≤ refs w p → (∃ v, dev_of w p = Some v) ∨
  dev_of w p = None ∧ ∃ sv, vnodes (s_of w) !! p = Some sv ∧ refs w p = vn_refcount sv - base (s_of w) p.
Proof using.
  intros H. simpl in H. destruct (dev_of w p) as [v|] eqn:E; [left; eauto|right]. split; [done|]. simpl. rewrite E. unfold rc, base in *.
  destruct (vnodes (s_of w) !! p) as [sv|]; [by exists sv|lia].
Qed.

(** Counts of a device change. *)
Lemma dev_put p v v' : dev_of w p = Some v → 1 ≤ dv_refcount v' → dv_data v' = dv_data v →
  wstep (λ q, if decide (q = p) then dv_refcount v' - dv_refcount v else 0) (λ q, if decide (q = p) then dv_opencount v' - dv_opencount v else 0)
    w (KWorld (k_fs w) (Devs (<[p := v']> (dv_vnodes (k_dev w))) (dv_devices (k_dev w)) (dv_x (k_dev w)))).
Proof using Hw.
  intros Hp Hr Hd. set (w' := KWorld _ _). assert (∀ q, dev_of w' q = if decide (q = p) then Some v' else dev_of w q) as Edev.
  { intros q. unfold dev_of, w'. simpl. case_decide as E; [subst q; by rewrite lookup_insert_eq|by rewrite lookup_insert_ne]. }
  assert (s_of w' = s_of w) as Es by done.
  assert (∀ q, dev_of w q = None → dev_of w' q = None) as Hnone by (intros q E; rewrite Edev; case_decide; [subst; congruence|done]).
  constructor.
  - constructor.
    + exact (ki_tree _ Hw).
    + destruct (ki_heap _ Hw) as [H1 H2]. split; [done|]. intros a Ha. destruct (H2 a Ha) as (? & ? & ?). split_and!; auto.
    + intros q sv Hq. destruct (ki_vn _ Hw q sv Hq) as (? & ? & ?). split_and!; auto.
    + intros q x. rewrite Edev. case_decide as E; [intros [= <-]; subst q|apply (ki_dev _ Hw)].
      destruct (ki_dev _ Hw p v Hp) as (? & _ & d & ? & ?). split_and!; [done..|]. exists d. by rewrite Hd.
  - intros q. simpl. rewrite Edev, Es. case_decide as E; [subst q; rewrite Hp; lia|lia].
  - intros q. simpl. rewrite Edev, Es. case_decide as E; [subst q; rewrite Hp; lia|lia].
  - intros q _ _. simpl. rewrite Edev, Es. case_decide as E; [subst q; by rewrite Hp|done].
  - done.
  - intros q [x Hq]. simpl. rewrite Edev. case_decide; eauto.
Qed.

(** Counts of a vnode of the file system change. *)
Lemma k_put p sv r o : vnodes (s_of w) !! p = Some sv → base (s_of w) p < r + 1 → 1 ≤ r < 2147483648 →
  wstep (λ q, if decide (q = p) then r - vn_refcount sv else 0) (λ q, if decide (q = p) then o - vn_opencount sv else 0)
    w (set_sfs (set_vnodes (<[p := SfsVnode (sv_i sv) (sv_ino sv) (sv_dirty sv) r o]> (vnodes (s_of w))) (s_of w)) w).
Proof using Hw.
  intros Hp Hb Hr. set (s := s_of w) in *. set (s' := set_vnodes _ s). set (w' := set_sfs s' w).
  destruct (ki_tree _ Hw) as (root & F & D & Ht). fold s in Ht. destruct (tree_vn _ _ _ _ Ht) as [tbl Hv].
  assert (∀ q, vnodes s' !! q = if decide (q = p) then Some (SfsVnode (sv_i sv) (sv_ino sv) (sv_dirty sv) r o) else vnodes s !! q) as Evn.
  { intros q. unfold s'. simpl. case_decide as E; [subst q; by rewrite lookup_insert_eq|by rewrite lookup_insert_ne]. }
  assert (fs_tree root s' F D) as Ht'.
  { apply (tree_move root s F D Ht s').
    - exists tbl. pose proof (vn_put s tbl F Hv p sv (sfi_linkcount (sv_i sv)) (sv_dirty sv) r o Hp) as H.
      destruct (vn_ino _ _ _ Hv _ _ Hp) as (_ & _ & [_ _ W _ _ _]). destruct (vo_vn _ _ _ Hv _ _ Hp) as [HF _].
      replace (set_linkcount (sfi_linkcount (sv_i sv)) (sv_i sv)) with (sv_i sv) in H by (by destruct (sv_i sv)).
      rewrite (insert_id F) in H by done. apply H; [lia|lia|by right].
    - done.
    - intros a. rewrite Evn. case_decide as E; [subst a; by rewrite Hp|done]. }
  assert (∀ q, dev_of w' q = dev_of w q) as Edev by done. assert (s_of w' = s') as Es by done.
  assert (dev_of w p = None) as Hpd by by apply (ki_vn _ Hw p sv Hp).
  constructor.
  - constructor.
    + by exists root, F, D.
    + destruct (ki_heap _ Hw) as [H1 H2]. split; [done|]. intros a Ha. destruct (H2 a Ha) as (? & E & ?). split_and!; [done| |done].
      change (vnodes s' !! a = None). rewrite Evn, decide_False; [done|]. intros ->. fold s in E. congruence.
    + intros q x Hq. change (vnodes s' !! q = Some x) in Hq. rewrite Evn in Hq. case_decide as E; [|by apply (ki_vn _ Hw)]. subst q. injection Hq as <-. by apply (ki_vn _ Hw p sv Hp).
    + exact (ki_dev _ Hw).
  - intros q. cbn [refs sfs_view]. rewrite Edev, Es. fold s. rewrite (base_root root _ _ _ Ht), (base_root root _ _ _ Ht'). unfold rc. rewrite Evn.
    case_decide as E; [subst q; rewrite Hpd, Hp; simpl; lia|lia].
  - intros q. cbn [opens sfs_view]. rewrite Edev, Es. fold s. unfold oc. rewrite Evn. case_decide as E; [subst q; rewrite Hpd, Hp; simpl; lia|lia].
  - intros q _ _. cbn [attr sfs_view]. rewrite Edev, Es, Evn. fold s. case_decide as E; [subst q; by rewrite Hp|done].
  - done.
  - done.
Qed.

Lemma sfs_incref p : 1 ≤ refs w p ∨ dev_node w p → refs w p < REF_MAX → wp (vop_incref p) (λ _ w', p ≠ 0 ∧ wstep (one p) zero w w') w.
Proof using Hw.
  intros Hp Hr. assert ((∃ v, dev_of w p = Some v) ∨ dev_of w p = None ∧ ∃ sv, vnodes (s_of w) !! p = Some sv ∧ refs w p = vn_refcount sv - base (s_of w) p) as Hc.
  { destruct Hp as [Hp|[v Hp]]; [by apply held_node|left; eauto]. }
  unfold REF_MAX in Hr. destruct Hc as [[v E]|(E & sv & Hsv & Er)].
  - destruct (ki_dev _ Hw p v E) as (Hn & Hv & _). cbn [vop_incref sfs_ops]. eapply wp_counted_dev; [done|]. unfold dev_incref, get_dv.
    apply wp_bind_2, wp_bind_2, wp_get, (wp_of_opt _ v); [exact E|]. unfold put_dv. apply wp_modify. split; [done|].
    simpl in Hr. rewrite E in Hr. rewrite s32_id by lia.
    eapply wstep_ext; [by apply (dev_put p v (DevVnode (dv_refcount v + 1) (dv_opencount v) (dv_data v))); [|simpl; lia|]|..]; simpl.
    + intros q. rewrite ref1_one by done. unfold ref1. case_decide; lia.
    + intros q. unfold zero. case_decide; lia.
  - destruct (ki_vn _ Hw p sv Hsv) as (Hn & _). cbn [vop_incref sfs_ops]. apply wp_counted_sfs; [done|]. unfold vnode_incref, put_sv.
    apply wp_bind_2. eapply wp_get_sv; [done|]. apply wp_modify. split; [done|].
    destruct (ki_tree _ Hw) as (root & F & D & Ht). pose proof (proj2 (rc_loaded root _ _ _ Ht p) (ex_intro _ sv Hsv)) as Hrc. unfold rc in Hrc. rewrite Hsv in Hrc.
    assert (0 ≤ base (s_of w) p ≤ 1) as Hb. { unfold base. rewrite Hsv. case_decide; lia. }
    rewrite s32_id by lia. eapply wstep_ext; [apply (k_put p sv (vn_refcount sv + 1) (vn_opencount sv) Hsv); lia|..].
    + intros q. rewrite ref1_one by done. unfold ref1. case_decide; lia.
    + intros q. unfold zero. case_decide; lia.
Qed.

Lemma dir_is_root root F D p sv : fs_tree root (s_of w) F D → vnodes (s_of w) !! p = Some sv → sfi_type (sv_i sv) = SFS_TYPE_DIR → p = root.
Proof using Hw.
  intros Ht Hp Hty. destruct (root_inode _ _ _ _ (ft_at _ _ _ _ Ht)) as (rv & Hr & Er & _). destruct (tree_vn _ _ _ _ Ht) as [tbl Hv].
  destruct (ki_vn _ Hw _ _ Hp) as (_ & _ & E). eapply (vo_one _ _ _ Hv); [done..|]. rewrite (E Hty). congruence.
Qed.
Lemma vnode_type p sv : vnodes (s_of w) !! p = Some sv → sfi_type (sv_i sv) = SFS_TYPE_FILE ∨ sfi_type (sv_i sv) = SFS_TYPE_DIR.
Proof using Hw.
  intros Hp. destruct (ki_tree _ Hw) as (root & F & D & Ht). destruct (tree_vn _ _ _ _ Ht) as [tbl Hv].
  destruct (vo_vn _ _ _ Hv _ _ Hp) as [HF _]. by apply (vo_file _ _ _ Hv _ _ HF).
Qed.
Lemma file_base p sv : vnodes (s_of w) !! p = Some sv → sfi_type (sv_i sv) = SFS_TYPE_FILE → base (s_of w) p = 0.
Proof using Hw.
  intros Hp Hty. destruct (ki_tree _ Hw) as (root & F & D & Ht). rewrite (base_root root _ _ _ Ht). unfold ref1. rewrite decide_False; [done|].
  destruct (tree_vn _ _ _ _ Ht) as [tbl Hv]. by apply (not_root root _ F D (ft_at _ _ _ _ Ht) p sv (sv_i sv) Hp (proj1 (vo_vn _ _ _ Hv _ _ Hp)) Hty).
Qed.
Lemma dir_base root F D p sv : fs_tree root (s_of w) F D → vnodes (s_of w) !! p = Some sv → sfi_type (sv_i sv) = SFS_TYPE_DIR → base (s_of w) p = 1.
Proof using Hw. intros Ht Hp Hty. rewrite (base_root root _ _ _ Ht), (dir_is_root root F D p sv) by done. unfold ref1. by rewrite decide_True. Qed.

Lemma sfs_decref p : 1 ≤ refs w p → (refs w p = 1 → opens w p = 0) → wp (vop_decref p) (λ _ w', wstep (λ q, - one p q) zero w w') w.
Proof using Hw.
  intros Hp Hop. destruct (held_node p Hp) as [[v E]|(E & sv & Hsv & Er)]; cbn [vop_decref sfs_ops].
  - destruct (ki_dev _ Hw p v E) as (Hn & Hv & _). eapply wp_counted_dev; [done|]. unfold dev_decref, get_dv.
    simpl in Hp. rewrite E in Hp. apply wp_bind_2, wp_bind_2, wp_get, (wp_of_opt _ v); [exact E|]. apply wp_bind_2, wp_kassert; [blia|].
    rewrite (proj2 (Z.ltb_lt _ _)) by lia. unfold put_dv. apply wp_modify.
    eapply wstep_ext; [by apply (dev_put p v (DevVnode (dv_refcount v - 1) (dv_opencount v) (dv_data v))); [|simpl; lia|]|..]; simpl.
    + intros q. rewrite ref1_one by done. unfold ref1. case_decide; lia.
    + intros q. unfold zero. case_decide; lia.
  - destruct (ki_vn _ Hw p sv Hsv) as (Hn & _). apply wp_counted_sfs; [done|]. destruct (ki_tree _ Hw) as (root & F & D & Ht).
    destruct (vnode_type p sv Hsv) as [Hty|Hty].
    + rewrite (file_base p sv Hsv Hty) in Er. eapply wp_mono; [apply (wp_tree_decref root _ F D p sv Ht Hsv Hty)|].
      { intros E1. assert (refs w p = 1) as H1 by lia. specialize (Hop H1). simpl in Hop. rewrite E in Hop. unfold oc in Hop. by rewrite Hsv in Hop. }
      intros [] s' (_ & Hvs & Ht' & _). eapply wstep_ext; [apply (k_step _ w s' root F D Hw Ht Hvs); [by eauto|]|..].
      * intros a x Ha Hx. exfalso. pose proof (vs_rc _ _ _ Hvs a) as Hrc. pose proof (proj2 (rc_loaded root _ _ _ Ht' a) (ex_intro _ x Hx)).
        unfold rc at 2 in Hrc. rewrite Ha in Hrc. unfold ref1 in Hrc. case_decide; lia.
      * intros q. by rewrite ref1_one.
      * done.
    + rewrite (dir_base root F D p sv Ht Hsv Hty) in Er. unfold vnode_decref, put_sv. apply wp_bind_2. eapply wp_get_sv; [done|].
      apply wp_bind_2, wp_kassert; [blia|]. rewrite (proj2 (Z.ltb_lt _ _)) by lia. apply wp_modify.
      destruct (tree_vn _ _ _ _ Ht) as [tbl Hv]. destruct (vo_vn _ _ _ Hv _ _ Hsv).
      eapply wstep_ext; [apply (k_put p sv (vn_refcount sv - 1) (vn_opencount sv) Hsv); [rewrite (dir_base root F D p sv Ht Hsv Hty); lia|lia]|..].
      * intros q. rewrite ref1_one by done. unfold ref1. case_decide; lia.
      * intros q. unfold zero. case_decide; lia.
Qed.

Lemma wp_gd p v (Q : device unit → devs unit → Prop) d : dev_of w p = Some v → dv_devices (k_dev w) !! dv_data v = Some d → Q d (k_dev w) →
  wp (get_dev p) Q (k_dev w).
Proof using.
  intros E Hd HQ. unfold get_dev, get_dv. apply wp_bind_2, wp_bind_2, wp_get, (wp_of_opt _ v); [exact E|]. apply wp_bind_2, wp_get.
  by apply (wp_of_opt _ d).
Qed.
Lemma set_unit (d : devs unit) x : sub_put x d = d.
Proof using. destruct d as [? ? []]. by destruct x. Qed.

Lemma sfs_incopen p : 1 ≤ refs w p → 0 ≤ opens w p < REF_MAX → wp (vop_incopen p) (λ _ w', wstep zero (one p) w w') w.
Proof using Hw.
  intros Hp Hop. unfold REF_MAX in Hop. destruct (held_node p Hp) as [[v E]|(E & sv & Hsv & Er)]; cbn [vop_incopen sfs_ops]; simpl in Hop; rewrite E in Hop.
  - destruct (ki_dev _ Hw p v E) as (Hn & Hv & _). eapply wp_counted_dev; [done|]. unfold dev_incopen, get_dv.
    apply wp_bind_2, wp_bind_2, wp_get, (wp_of_opt _ v); [exact E|]. unfold put_dv. apply wp_modify. rewrite s32_id by lia.
    eapply wstep_ext; [by apply (dev_put p v (DevVnode (dv_refcount v) (dv_opencount v + 1) (dv_data v))); [|simpl; lia|]|..]; simpl.
    + intros q. unfold zero. case_decide; lia.
    + intros q. rewrite ref1_one by done. unfold ref1. case_decide; lia.
  - destruct (ki_vn _ Hw p sv Hsv) as (Hn & _). apply wp_counted_sfs; [done|]. unfold vnode_incopen, put_sv. unfold oc in Hop. rewrite Hsv in Hop.
    apply wp_bind_2. eapply wp_get_sv; [done|]. apply wp_modify. rewrite s32_id by lia.
    destruct (ki_tree _ Hw) as (root & F & D & Ht). destruct (tree_vn _ _ _ _ Ht) as [tbl Hv]. destruct (vo_vn _ _ _ Hv _ _ Hsv).
    eapply wstep_ext; [apply (k_put p sv (vn_refcount sv) (vn_opencount sv + 1) Hsv); [lia|lia]|..].
    + intros q. unfold zero. case_decide; lia.
    + intros q. rewrite ref1_one by done. unfold ref1. case_decide; lia.
Qed.

(** Writing an inode back. *)
Lemma wp_k_sync p sv : vnodes (s_of w) !! p = Some sv → wp (sfs_sync_inode p) (λ _ s', wstep zero zero w (set_sfs s' w)) (s_of w).
Proof using Hw.
  intros Hp. destruct (ki_tree _ Hw) as (root & F & D & Ht). destruct (tree_vn _ _ _ _ Ht) as [tbl Hv].
  eapply wp_mono; [apply (wp_sync_inode _ tbl F Hv p sv Hp)|]. intros r s' (-> & V & U & E & _ & _ & _ & Eh & _).
  assert (∀ a, vnodes s' !! a = if decide (a = p) then Some (set_dirty false sv) else vnodes (s_of w) !! a) as Evn.
  { intros a. rewrite E. case_decide as Ha; [subst a; by rewrite lookup_insert_eq|by rewrite lookup_insert_ne]. }
  apply (k_step _ w s' root F D Hw Ht).
  - apply vstep_same; [done|]. intros a. rewrite Evn. case_decide as Ha; [subst a; by rewrite Hp|done].
  - exists F, D. apply (tree_move root (s_of w) F D Ht); [by exists tbl|done|]. intros a. rewrite Evn. case_decide as Ha; [subst a; by rewrite Hp|done].
  - intros a x Ha Hx. rewrite Evn in Hx. case_decide; congruence.
Qed.
End laws.

Lemma sfs_decopen w p : k_inv w → 1 ≤ refs w p → 1 ≤ opens w p → wp (vop_decopen p) (λ _ w', wstep zero (λ q, - one p q) w w') w.
Proof.
  intros Hw Hp Hop. destruct (held_node w p Hp) as [[v E]|(E & sv & Hsv & Er)]; cbn [vop_decopen sfs_ops]; simpl in Hop; rewrite E in Hop.
  - destruct (ki_dev _ Hw p v E) as (Hn & Hv & d & Hd & Hok). eapply wp_counted_dev; [done|]. unfold dev_decopen, get_dv.
    apply wp_bind_2, wp_bind_2, wp_get, (wp_of_opt _ v); [exact E|]. apply wp_bind_2, wp_kassert; [blia|]. apply wp_bind_2. unfold put_dv. apply wp_modify.
    set (v' := DevVnode (dv_refcount v) (dv_opencount v - 1) (dv_data v)).
    assert (wstep zero (λ q, - one p q) w (KWorld (k_fs w) (Devs (<[p := v']> (dv_vnodes (k_dev w))) (dv_devices (k_dev w)) (dv_x (k_dev w))))) as Hs.
    { eapply wstep_ext; [by apply (dev_put w Hw p v v')|..]; simpl.
      - intros q. unfold zero. case_decide; lia.
      - intros q. rewrite ref1_one by done. unfold ref1. case_decide; lia. }
    destruct (0 <? _); [by apply wp_ret|]. apply wp_bind_2. unfold dev_close. apply wp_bind_2.
    set (w1 := KWorld _ _) in Hs. apply (wp_gd w1 p v' _ d); [unfold dev_of, w1; simpl; by rewrite lookup_insert_eq|done|].
    apply wp_zoom.
    destruct Hok as [_ Hc]. unfold wp in Hc |- *. simpl. destruct (dv_x (k_dev w)). destruct (d_close d tt) as [[r []]| | |]; try done.
  - destruct (ki_vn _ Hw p sv Hsv) as (Hn & _). apply wp_counted_sfs; [done|]. unfold vnode_decopen, put_sv. unfold oc in Hop. rewrite Hsv in Hop.
    apply wp_bind_2. eapply wp_get_sv; [done|]. apply wp_bind_2, wp_kassert; [blia|]. apply wp_bind_2, wp_modify.
    destruct (ki_tree _ Hw) as (root & F & D & Ht). destruct (tree_vn _ _ _ _ Ht) as [tbl Hv]. destruct (vo_vn _ _ _ Hv _ _ Hsv).
    set (s1 := set_vnodes _ (s_of w)).
    assert (wstep zero (λ q, - one p q) w (set_sfs s1 w)) as Hs.
    { assert (base (s_of w) p ≤ 1). { unfold base. rewrite Hsv. case_decide; lia. }
      eapply wstep_ext; [apply (k_put w Hw p sv (vn_refcount sv) (vn_opencount sv - 1) Hsv); [lia|lia]|..].
      - intros q. unfold zero. case_decide; lia.
      - intros q. rewrite ref1_one by done. unfold ref1. case_decide; lia. }
    destruct (0 <? _); [by apply wp_ret|]. apply wp_bind_2. unfold sfs_close, sfs_fsync.
    eapply wp_mono; [eapply (wp_k_sync (set_sfs s1 w) (ws_inv _ _ _ _ Hs) p); unfold s1; simpl; by rewrite lookup_insert_eq|].
    intros r s2 H2. apply wp_ret. eapply (wstep_then _ zero zero); [exact Hs|exact H2|intros q; unfold zero; lia].
Qed.

Section laws2.
Context (w : kworld).
Hypothesis Hw : k_inv w.

Lemma zero_sfs : wstep zero zero w (set_sfs (s_of w) w).
Proof using Hw. rewrite set_sfs_same. by apply wstep_refl. Qed.
Lemma zero_dev : wstep zero zero w (KWorld (k_fs w) (k_dev w)).
Proof using Hw. rewrite set_dev_same. by apply wstep_refl. Qed.
(** No counts change. *)
Lemma k_same s' root F D : fs_tree root (s_of w) F D → vstep ref0 (s_of w) s' → (∃ F' D', fs_tree root s' F' D') → wstep zero zero w (set_sfs s' w).
Proof using Hw.
  intros Ht Hvs Ht'. apply (k_step _ w s' root F D Hw Ht Hvs Ht'). intros a x Ha Hx. exfalso. destruct Ht' as (F' & D' & Ht').
  pose proof (vs_rc _ _ _ Hvs a) as Hrc. pose proof (proj2 (rc_loaded root _ _ _ Ht' a) (ex_intro _ x Hx)).
  unfold rc at 2 in Hrc. rewrite Ha in Hrc. unfold ref0 in Hrc. lia.
Qed.
(** One vnode has one reference more. *)
Lemma k_up s' root F D q : fs_tree root (s_of w) F D → vstep (ref1 q) (s_of w) s' → (∃ F' D', fs_tree root s' F' D') →
  (∀ x, vnodes (s_of w) !! q = None → vnodes s' !! q = Some x → sfi_type (sv_i x) = SFS_TYPE_FILE) →
  q ≠ 0 ∧ wstep (one q) zero w (set_sfs s' w).
Proof using Hw.
  intros Ht Hvs Ht' Hnew. pose proof Ht' as (F' & D' & Ht2). assert (∀ a x, vnodes (s_of w) !! a = None → vnodes s' !! a = Some x → a = q) as Hq.
  { intros a x Ha Hx. pose proof (vs_rc _ _ _ Hvs a) as Hrc. pose proof (proj2 (rc_loaded root _ _ _ Ht2 a) (ex_intro _ x Hx)).
    unfold rc at 2 in Hrc. rewrite Ha in Hrc. unfold ref1 in Hrc. case_decide; [done|lia]. }
  assert (wstep (ref1 q) zero w (set_sfs s' w)) as Hs.
  { apply (k_step _ w s' root F D Hw Ht Hvs Ht'). intros a x Ha Hx. assert (a = q) as -> by by eapply Hq. by apply Hnew. }
  assert (q ≠ 0) as Hq0.
  { assert (is_Some (vnodes s' !! q)) as [x Hx].
    { apply (rc_loaded root _ _ _ Ht2). pose proof (vs_rc _ _ _ Hvs q) as Hrc. unfold ref1 in Hrc. rewrite decide_True in Hrc by done. unfold rc at 2 in Hrc.
      destruct (vnodes (s_of w) !! q) as [x|] eqn:E; [|lia]. destruct (tree_vn _ _ _ _ Ht) as [tbl Hv]. destruct (vo_vn _ _ _ Hv _ _ E). lia. }
    by apply (ki_vn _ (ws_inv _ _ _ _ Hs) q x Hx). }
  split; [done|]. eapply wstep_ext; [exact Hs| |done]. intros a. by apply ref1_one.
Qed.
Lemma fresh_heap : heap_fresh (s_of w).
Proof using Hw. intros a h E. destruct (proj2 (ki_heap _ Hw) a) as (_ & H & _); [rewrite E; constructor|done]. Qed.
Lemma few_refs : (∀ q, refs w q < REF_MAX) → refs_ok (s_of w).
Proof using Hw.
  intros H p sv Hp. specialize (H p). simpl in H. destruct (ki_vn _ Hw p sv Hp) as (_ & E & _). rewrite E in H. unfold rc, base, REF_MAX in H. rewrite Hp in H.
  case_decide; lia.
Qed.

Lemma sfs_vn_fs p : 1 ≤ refs w p → wp (vn_fs p) (λ f w', w' = w ∧ f = (attr w p).1) w.
Proof using.
  intros Hp. destruct (held_node w p Hp) as [[v E]|(E & sv & Hsv & Er)]; cbn [vn_fs sfs_ops attr sfs_view]; rewrite E.
  - eapply wp_counted_dev; [done|]. unfold get_dv. apply wp_bind_2, wp_bind_2, wp_get, (wp_of_opt _ v); [exact E|]. apply wp_ret. by rewrite set_dev_same.
  - apply wp_counted_sfs; [done|]. apply wp_bind_2. eapply wp_get_sv; [done|]. apply wp_ret. rewrite set_sfs_same, Hsv. done.
Qed.
Lemma sfs_open_law p fl : 1 ≤ refs w p → wp (vop_open p fl) (λ _ w', wstep zero zero w w') w.
Proof using Hw.
  intros Hp. destruct (held_node w p Hp) as [[v E]|(E & sv & Hsv & Er)]; cbn [vop_open sfs_ops].
  - destruct (ki_dev _ Hw p v E) as (_ & _ & d & Hd & Hok). eapply wp_vop_dev; [done|]. simpl. unfold dev_open. apply wp_bind_2.
    apply (wp_gd w p v _ d); [done|done|]. destruct (negb _); [apply wp_ret, zero_dev|]. apply wp_zoom. destruct Hok as [Ho _]. specialize (Ho fl).
    pose proof zero_dev as Hz. unfold wp in Ho |- *. simpl. destruct (k_dev w) as [x1 x2 []]. simpl. destruct (d_open d fl tt) as [[r []]| | |]; done.
  - eapply wp_vop_sfs; [done..|]. destruct (_ =? _); simpl; apply wp_ret, zero_sfs.
Qed.
Lemma sfs_truncate_law p : 1 ≤ refs w p → wp (vop_truncate p 0) (λ _ w', wstep zero zero w w') w.
Proof using Hw.
  intros Hp. destruct (held_node w p Hp) as [[v E]|(E & sv & Hsv & Er)]; cbn [Vfs.vop_truncate sfs_ops].
  - destruct (ki_dev _ Hw p v E) as (_ & _ & d & Hd & Hok). eapply wp_vop_dev; [done|]. simpl. unfold dev_truncate. apply wp_bind_2.
    apply (wp_gd w p v _ d); [done|done|]. destruct (_ && _); apply wp_ret, zero_dev.
  - eapply wp_vop_sfs; [done..|]. destruct (Z.eqb_spec (sfi_type (sv_i sv)) SFS_TYPE_DIR) as [Hd|Hd]; simpl; [apply wp_ret, zero_sfs|].
    destruct (vnode_type w Hw p sv Hsv) as [Hty|]; [|done]. destruct (ki_tree _ Hw) as (root & F & D & Ht). destruct (tree_vn _ _ _ _ Ht) as [tbl Hv].
    eapply wp_mono; [apply (wp_sfs_truncate p _ sv 0 (vo_fs _ _ _ Hv) Hsv); lia|]. intros r s' (-> & Hsh & Hsz).
    pose proof (shrunk_file_step _ _ _ _ (vo_fs _ _ _ Hv) Hsh) as Hst. destruct (fst_file _ _ _ Hst) as (v & sv' & E0 & Hp' & _). simplify_eq.
    destruct (tree_file_step root _ F D Ht p sv sv' s' Hsv Hty Hst Hp') as [[F' Ht'] Hvs].
    { unfold size_of, inode_of in Hsz. rewrite Hp' in Hsz. simpl in Hsz. lia. }
    apply (k_same s' root F D); eauto.
Qed.
Lemma sfs_gettype_law p : 1 ≤ refs w p → wp (vop_gettype p) (λ r w', w' = w ∧ ∀ t, r = inr t → t = S_IFDIR ↔ (attr w p).2 = true) w.
Proof using Hw.
  intros Hp. destruct (held_node w p Hp) as [[v E]|(E & sv & Hsv & Er)]; cbn [vop_gettype sfs_ops attr sfs_view]; rewrite E.
  - destruct (ki_dev _ Hw p v E) as (_ & _ & d & Hd & Hok). eapply wp_vop_dev; [done|]. simpl. unfold dev_gettype. apply wp_bind_2.
    apply (wp_gd w p v _ d); [done|done|]. apply wp_ret. rewrite set_dev_same. split; [done|]. intros t [= <-]. by destruct (0 <? _).
  - eapply wp_vop_sfs; [done..|]. assert (∀ b : bool, wp (o_gettype (if b then sfs_dirops else sfs_fileops) p)
      (λ a s', set_sfs s' w = w ∧ ∀ t, a = inr t → t = S_IFDIR ↔ sfi_type (sv_i sv) = SFS_TYPE_DIR) (s_of w)) as H.
    { intros b. assert (o_gettype (if b then sfs_dirops else sfs_fileops) p = (t ← sfs_gettype p; mret (inr t))) as -> by by destruct b.
      unfold sfs_gettype. apply wp_bind_2, wp_bind_2. eapply wp_get_sv; [done|]. destruct (vnode_type w Hw p sv Hsv) as [Hty|Hty]; rewrite Hty; simpl;
        apply wp_ret, wp_ret; rewrite set_sfs_same; (split; [done|]); by intros t [= <-]. }
    eapply wp_mono; [apply H|]. intros r s' [H1 H2]. split; [done|]. intros t Et. rewrite Hsv. simpl. rewrite (H2 t Et). by rewrite bool_decide_eq_true.
Qed.

(** A directory is the root directory. *)
Lemma held_dir p : 1 ≤ refs w p → (attr w p).2 = true → ∃ F D, fs_tree p (s_of w) F D ∧ dev_of w p = None ∧
  ∃ sv, vnodes (s_of w) !! p = Some sv ∧ sfi_type (sv_i sv) = SFS_TYPE_DIR.
Proof using Hw.
  intros Hp Ha. destruct (held_node w p Hp) as [[v E]|(E & sv & Hsv & _)]; cbn [attr sfs_view] in Ha; rewrite E in Ha; [done|].
  rewrite Hsv in Ha. simpl in Ha. apply bool_decide_eq_true in Ha. destruct (ki_tree _ Hw) as (root & F & D & Ht).
  assert (p = root) as -> by by eapply dir_is_root. by exists F, D; eauto.
Qed.
Lemma wp_vop_dir {A} p dev (op : vnode_ops sfs → M sfs A) (Q : A → kworld → Prop) : 1 ≤ refs w p → (attr w p).2 = true →
  (∀ F D, fs_tree p (s_of w) F D → wp (op sfs_dirops) (λ a s', Q a (set_sfs s' w)) (s_of w)) → wp (vop p dev op) Q w.
Proof using Hw.
  intros Hp Ha H. destruct (held_dir p Hp Ha) as (F & D & Ht & E & sv & Hsv & Hty). eapply wp_vop_sfs; [done..|]. rewrite Hty. by apply (H F D).
Qed.

Lemma got_up root F D j i q s' : fs_tree root (s_of w) F D → got j i (s_of w) q s' → hstep (s_of w) s' → (∃ F' D', fs_tree root s' F' D') →
  sfi_type i = SFS_TYPE_FILE ∨ is_Some (vnodes (s_of w) !! q) → q ≠ 0 ∧ wstep (one q) zero w (set_sfs s' w).
Proof using Hw.
  intros Ht Hg Hh Ht' Hi. apply (k_up s' root F D q Ht); [by eapply got_vstep|done|]. intros x Hn Hx. destruct Hi as [Hi|[? ?]]; [|congruence].
  destruct Hg as (sv & E & _ & E2 & _). rewrite E, lookup_insert_eq in Hx. by simplify_eq.
Qed.

Lemma sfs_creat_law p name excl mode : 1 ≤ refs w p → (attr w p).2 = true → cstring name → (∀ q, refs w q < REF_MAX) →
  wp (vop_creat p name excl mode) (λ r w', match r with inl _ => wstep zero zero w w' | inr q => q ≠ 0 ∧ wstep (one q) zero w w' end) w.
Proof using Hw.
  intros Hp Ha Hn Hr. cbn [vop_creat sfs_ops]. apply wp_vop_dir; [done..|]. intros F D Ht. simpl.
  eapply wp_mono; [apply (wp_creat p _ F D name Ht fresh_heap (few_refs Hr) Hn excl)|]. intros [e|q] s'.
  - intros (Hvs & (F' & Ht' & _) & _). apply (k_same s' p F D); eauto.
  - intros (Hvs & H). destruct (D !! name) as [j|] eqn:ED.
    + destruct H as (_ & i & Hi & Hg & Ht' & _). apply (got_up p F D j i q s' Ht Hg (vs_heap _ _ _ Hvs)); [eauto|].
      destruct (proj1 (ft_links _ _ _ _ Ht) _ _ ED) as (i' & Hi' & Hty). left. congruence.
    + destruct H as (j & F' & _ & _ & _ & Ht' & _ & _ & Hq). apply (k_up s' p F D q Ht Hvs); [eauto|]. intros x _ Hx. by simplify_eq.
Qed.
Lemma sfs_remove_law p name : 1 ≤ refs w p → (attr w p).2 = true → cstring name → (∀ q, refs w q < REF_MAX) →
  wp (vop_remove p name) (λ _ w', wstep zero zero w w') w.
Proof using Hw.
  intros Hp Ha Hn Hr. cbn [vop_remove sfs_ops]. apply wp_vop_dir; [done..|]. intros F D Ht. simpl.
  eapply wp_mono; [apply (wp_remove p _ F D name Ht fresh_heap (few_refs Hr) Hn)|]. intros r s' [Hvs H]. apply (k_same s' p F D Ht Hvs).
  destruct r as [e|]; [destruct H as [(_ & _ & ->)|(_ & _ & H & _)]; eauto|]. destruct H as (j & i & F' & _ & _ & H & _). eauto.
Qed.
Lemma sfs_rename_law p n p' n' : 1 ≤ refs w p → 1 ≤ refs w p' → (attr w p).2 = true → (attr w p').2 = true → cstring n → cstring n' →
  (∀ q, refs w q < REF_MAX) → wp (vop_rename p n p' n') (λ _ w', wstep zero zero w w') w.
Proof using Hw.
  intros Hp Hp' Ha Ha' Hn Hn' Hr. cbn [vop_rename sfs_ops]. apply wp_vop_dir; [done..|]. intros F D Ht. simpl.
  destruct (held_dir p' Hp' Ha') as (F2 & D2 & _ & _ & sv & Hsv & Hty). assert (p' = p) as -> by exact (dir_is_root w Hw p F D p' sv Ht Hsv Hty).
  eapply wp_mono; [apply (wp_rename p _ F D n n' Ht fresh_heap (few_refs Hr) Hn Hn')|]. intros r s' [Hvs H]. apply (k_same s' p F D Ht Hvs).
  destruct r as [e|]; [destruct H as (_ & F' & H & _); eauto|]. destruct H as (j & i & F' & _ & _ & _ & H & _). eauto.
Qed.
Lemma sfs_lookup_law p path : 1 ≤ refs w p → cstring path → (∀ q, refs w q < REF_MAX) →
  wp (vop_lookup p path) (λ r w', match r with inl _ => wstep zero zero w w' | inr q => q ≠ 0 ∧ wstep (one q) zero w w' end) w.
Proof using Hw.
  intros Hp Hn Hr. destruct (held_node w p Hp) as [[v E]|(E & sv & Hsv & Er)]; cbn [vop_lookup sfs_ops].
  - eapply wp_vop_dev; [done|]. simpl. unfold dev_lookup. destruct (Z.ltb_spec 0 (Z.of_nat (length path))); [apply wp_ret, zero_dev|].
    pose proof (sfs_incref w Hw p (or_introl Hp) (Hr p)) as H0. cbn [vop_incref sfs_ops] in H0. unfold counted in H0. apply (proj1 (wp_bind _ _ _ _)) in H0.
    unfold wp at 1 in H0. simpl in H0. unfold dev_of in E. rewrite decide_True in H0 by (rewrite E; eauto).
    apply wp_bind_2. unfold wp, zoom in H0 |- *. simpl in H0. destruct (dev_incref p (k_dev w)) as [[[] d']| | |]; try done.
  - eapply wp_vop_sfs; [done..|]. destruct (Z.eqb_spec (sfi_type (sv_i sv)) SFS_TYPE_DIR) as [Hd|Hd]; simpl; [|apply wp_ret, zero_sfs].
    destruct (ki_tree _ Hw) as (root & F & D & Ht). assert (p = root) as -> by by eapply dir_is_root. unfold sfs_lookup. apply wp_bind_2.
    eapply wp_get_sv; [done|]. rewrite Hd. simpl. apply wp_bind_2. eapply wp_mono; [apply (wp_lookonce root _ F D Ht fresh_heap (few_refs Hr))|].
    intros [e|[q sl]] s' (Hss & Hhs & Ht' & H); apply wp_ret.
    + apply (k_same s' root F D Ht); [|eauto]. destruct H as [(_ & _ & ->)|(_ & Evn & _)]; [apply vstep_refl|by apply vstep_vnodes].
    + destruct H as (j & i & _ & _ & Hty & Hg & _). apply (got_up root F D j i q s' Ht Hg Hhs); eauto.
Qed.
Lemma sfs_lookparent_law p path n : 1 ≤ refs w p → cstring path → (∀ q, refs w q < REF_MAX) →
  wp (vop_lookparent p path n) (λ r w', match r with
    | inl _ => wstep zero zero w w'
    | inr (q, name) => q ≠ 0 ∧ cstring name ∧ (attr w' q).2 = true ∧ wstep (one q) zero w w'
    end) w.
Proof using Hw.
  intros Hp Hn Hr. destruct (held_node w p Hp) as [[v E]|(E & sv & Hsv & Er)]; cbn [vop_lookparent sfs_ops].
  - eapply wp_vop_dev; [done|]. apply wp_ret, zero_dev.
  - eapply wp_vop_sfs; [done..|]. destruct (Z.eqb_spec (sfi_type (sv_i sv)) SFS_TYPE_DIR) as [Hd|Hd]; simpl; [|apply wp_ret, zero_sfs].
    unfold sfs_lookparent. apply wp_bind_2. eapply wp_get_sv; [done|]. rewrite Hd. simpl. destruct (_ <? _); [apply wp_ret, zero_sfs|].
    pose proof (sfs_incref w Hw p (or_introl Hp) (Hr p)) as H0. cbn [vop_incref sfs_ops] in H0. unfold counted in H0. apply (proj1 (wp_bind _ _ _ _)) in H0.
    unfold wp at 1 in H0. simpl in H0. unfold dev_of in E. rewrite decide_False in H0 by (rewrite E; by intros []).
    apply wp_bind_2. unfold wp, zoom in H0 |- *. change (sub_get w) with (s_of w) in H0. destruct (vnode_incref p (s_of w)) as [[[] s']| | |]; try done.
    destruct H0 as [H1 H2]. simpl in H2. split_and!; [done|done| |done]. change ((attr (set_sfs s' w) p).2 = true). rewrite (ws_attr _ _ _ _ H2); [|done|rewrite (ws_refs _ _ _ _ H2); rewrite one_self by done; lia].
    cbn [attr sfs_view]. unfold dev_of. rewrite E, Hsv. simpl. by apply bool_decide_eq_true.
Qed.
Lemma sfs_getroot_law f : f = SFS_FS → (∀ q, refs w q < REF_MAX) → wp (fsop_getroot f) (λ p w', p ≠ 0 ∧ wstep (one p) zero w w') w.
Proof using Hw.
  intros -> Hr. cbn [fsop_getroot sfs_ops]. unfold on_fs. simpl. apply wp_zoom. change (sub_get w) with (s_of w). unfold sfs_getroot.
  destruct (ki_tree _ Hw) as (root & F & D & Ht). destruct (tree_vn _ _ _ _ Ht) as [tbl Hv].
  destruct (root_inode _ _ _ _ (ft_at _ _ _ _ Ht)) as (rv & Hrv & Er & HF & _). apply wp_bind_2.
  eapply wp_mono; [apply (wp_load_old _ tbl F SFS_ROOT_LOCATION (sv_i rv) Hv root rv HF Hrv Er)|].
  { by apply (few_refs Hr root rv). }
  intros r s' (-> & Hss & Hhs & Hv' & Hg). apply wp_ret. apply (got_up root F D _ _ root s' Ht Hg Hhs); [|right; by eexists].
  exists F, D. apply (tree_move root (s_of w) F D Ht); [by exists tbl|by apply same_store_untouched|].
  destruct Hg as (sv & E & E1 & E2 & _). intros a. rewrite E. destruct (decide (a = root)) as [->|Ha]; [|by rewrite lookup_insert_ne].
  rewrite lookup_insert_eq, Hrv. simpl. congruence.
Qed.
End laws2.

#[export] Instance sfs_lawful : FsLawful kworld.
Proof.
  constructor.
  - intros w Hw. simpl. destruct (dev_of w 0) as [v|] eqn:E; [by destruct (ki_dev _ Hw 0 v E)|]. unfold rc, base.
    destruct (vnodes (s_of w) !! 0) as [v|] eqn:E'; [by destruct (ki_vn _ Hw 0 v E')|done].
  - intros w p Hw. simpl. destruct (dev_of w p) as [v|] eqn:E; [destruct (ki_dev _ Hw p v E); lia|]. destruct (ki_tree _ Hw) as (root & F & D & Ht).
    unfold rc, base. destruct (vnodes (s_of w) !! p) as [v|] eqn:E'; [|lia]. destruct (tree_vn _ _ _ _ Ht) as [tbl Hv].
    destruct (vo_vn _ _ _ Hv _ _ E'). case_decide; lia.
  - intros w p Hw Hp. cbn [attr sfs_view]. destruct (dev_of w p); [done|]. by destruct (vnodes (s_of w) !! p).
  - intros w p Hw Hp. cbn [attr sfs_view live_fs]. destruct (dev_of w p); [done|]. by destruct (vnodes (s_of w) !! p).
  - intros. by apply sfs_incref.
  - intros. by apply sfs_decref.
  - intros. by apply sfs_incopen.
  - intros. by apply sfs_decopen.
  - intros. by apply sfs_open_law.
  - intros. by apply sfs_truncate_law.
  - intros. by apply sfs_gettype_law.
  - intros. by apply sfs_vn_fs.
  - intros. by apply sfs_creat_law.
  - intros w p name contents Hw Hp Ha _. cbn [vop_symlink sfs_ops]. apply wp_vop_dir; [done..|]. intros F D _. by apply wp_ret, zero_sfs.
  - intros w p name mode Hw Hp Ha _. cbn [vop_mkdir sfs_ops]. apply wp_vop_dir; [done..|]. intros F D _. by apply wp_ret, zero_sfs.
  - intros w p name Hw Hp Ha _. cbn [vop_rmdir sfs_ops]. apply wp_vop_dir; [done..|]. intros F D _. by apply wp_ret, zero_sfs.
  - intros. by apply sfs_remove_law.
  - intros. by apply sfs_rename_law.
  - intros. by apply sfs_lookup_law.
  - intros. by apply sfs_lookparent_law.
  - intros w f Hw ->. cbn [fsop_getvolname sfs_ops]. unfold on_fs. simpl. apply wp_bind_2, wp_get. by apply wp_ret.
  - intros. by apply sfs_getroot_law.
Qed.
