(* ===== verification/VfsSpec.v ===== *)
(** What the virtual file system shows its callers, over the mounted simple file system and
    the devices of [VfsSfs]: path names mean what a parser on strings says they mean, the
    device table gives every name to one device, and references are neither lost nor
    invented. *)

From stdpp Require Import base tactics numbers list gmap.
From S2P Require Import Prelude KernDefs CopyInOut Bitmap Uio Array Sfs SfsInv SfsDir SfsVn SfsVnOps SfsName SfsFs Device Vfs VfsPath VfsRefs VfsDevs VfsSfs.
Local Open Scope Z_scope.

(** * The world keeps the promises to the device table *)
#[export] Instance kworld_devs : DevLaws kworld.
Proof.
  refine {| vols w f := if decide (f = SFS_FS) then Some (sfs_getvolname (k_fs w)) else None;
            known_fs f := f = SFS_FS;
            devnum w d := d_devnumber <$> dv_devices (k_dev w) !! d |}.
  - by intros w f ->.
  - intros w p d. by eexists.
  - intros w d n [x (dv & Hd & _)%fmap_Some]. eexists. split_and!.
    + simpl. unfold zoom, put_devnumber. simpl. by rewrite (bind_ok _ _ (k_dev w) (k_dev w) (k_dev w) eq_refl), (bind_of_opt _ _ dv) by done.
    + done.
    + simpl. by rewrite lookup_insert_eq.
    + intros d' Hne. simpl. by rewrite lookup_insert_ne.
Defined.

(** * A system to look at *)
(** The devices [null] and [lhd0], with a file system mounted on the second, and a disk
    that has no name yet. *)
Module VfsDemo.
Definition disk_device : device unit := Device (λ _, mret None) (mret None) (λ u, mret (None, u)) (λ _ _, mret (Some EIOCTL)) 64 512 2.
Definition null_dev : device unit := Device nullopen nullclose nullio nullioctl 0 1 1.
Definition devices : devs unit := Devs (<[600 := DevVnode 1 0 700]> {[ 601 := DevVnode 1 0 701 ]}) (<[700 := null_dev]> (<[702 := disk_device]> {[ 701 := disk_device ]})) tt.
Definition world : kworld := KWorld MountDemo.fs devices.
Definition lhd0 : list Z := [108; 104; 100; 48].
Definition lhd1 : list Z := [108; 104; 100; 49].
Definition kd_null : knowndev := Knowndev null None 700 600 0.
Definition kd_lhd0 : knowndev := Knowndev lhd0 (Some (lhd0 ++ raw)) 701 601 SFS_FS.
Definition start (heap : list (option Z)) (locked : bool) : vfs :=
  Vfs (Array [Some 800; Some 801; None; None] 2 4) (<[800 := kd_null]> {[ 801 := kd_lhd0 ]}) heap ∅ locked (if locked then 1 else 0) 0 0 world.

Lemma table : arr_rep (Array [Some 800; Some 801; None; None] 2 4) [800; 801].
Proof. by constructor. Qed.
Lemma dev_lookup p v : dev_of world p = Some v ↔ p = 600 ∧ v = DevVnode 1 0 700 ∨ p = 601 ∧ v = DevVnode 1 0 701.
Proof. unfold dev_of, world, devices. simpl. rewrite lookup_insert_Some, lookup_singleton_Some. naive_solver. Qed.
Lemma world_inv : k_inv world.
Proof.
  constructor.
  - exists 2000, TreeDemo.files, TreeDemo.names. exact TreeDemo.tree.
  - split; [vm_compute; repeat constructor; set_solver|]. change (s_heap (s_of world)) with [Some 3000; Some 4000; Some 5000]. intros a Ha.
    assert (a = 3000 ∨ a = 4000 ∨ a = 5000) as Hc by set_solver. destruct Hc as [-> |[-> | ->]]; split_and!; done.
  - intros p v [-> ->]%TreeDemo.loaded. split_and!; done.
  - intros p v [[-> ->]|[-> ->]]%dev_lookup; (split; [done|split; [simpl; lia|eexists; split; [by vm_compute|]]]); split; intros; by vm_compute.
Qed.
Lemma demo_start_inv heap : vfs_inv (count []) (count []) 0 (start heap false).
Proof.
  constructor; try done.
  - exact world_inv.
  - intros p. unfold count, one. rewrite !decide_False by naive_solver. simpl. destruct (dev_of world p) as [v|] eqn:E.
    + by apply dev_lookup in E as [[_ ->]|[_ ->]].
    + rewrite (base_root 2000 _ _ _ TreeDemo.tree). unfold rc, ref1. change (vnodes (s_of world)) with ({[2000 := TreeDemo.root_vn]} : gmap Z sfs_vnode).
      case_decide as Hp; [subst p; done|by rewrite lookup_singleton_ne].
  - intros p. unfold count. simpl. destruct (dev_of world p) as [v|] eqn:E.
    + by apply dev_lookup in E as [[_ ->]|[_ ->]].
    + unfold oc. change (vnodes (s_of world)) with ({[2000 := TreeDemo.root_vn]} : gmap Z sfs_vnode).
      destruct (decide (p = 2000)) as [->|Hp]; [done|by rewrite lookup_singleton_ne].
  - exists [800; 801]. split; [exact table|]. repeat constructor; [exists kd_null|exists kd_lhd0]; (split; [done|]); split_and!; try done; intros _; by vm_compute; eexists.
Qed.
Lemma table_is_ok heap locked : table_ok (start heap locked) [kd_null; kd_lhd0].
Proof.
  constructor.
  - exists [800; 801]. split; [exact table|]. by repeat constructor.
  - repeat constructor; try done.
  - intros i j kd kd' n Hi Hj Hn Hn'. change (v_world (start heap locked)) with world in *.
    assert (names_of world kd_null = [null]) as E1 by done. assert (names_of world kd_lhd0 = [lhd0; lhd0 ++ raw; []]) as E2 by by vm_compute.
    assert (∀ x, x ∈ names_of world kd_null → x ∈ names_of world kd_lhd0 → False) as Hno.
    { rewrite E1, E2. intros x ->%list_elem_of_singleton Hx. repeat (apply elem_of_cons in Hx as [Hx|Hx]; [done|]). by apply elem_of_nil in Hx. }
    destruct i as [|[|i]], j as [|[|j]]; simplify_eq/=; try done; exfalso; by eapply Hno.
  - intros [|[|i]] kd Hi _; simplify_eq/=; by vm_compute.
Qed.
End VfsDemo.

(** * Path names *)
(** The reference for [vfs_lookup] and [vfs_lookparent]: parse, find the starting point,
    look up the rest. *)
Section lookups.
Context {W : Type} {FO : FsOps W}.
Implicit Types (st : vfs (W := W)).

Definition named_lookup (s : list Z) : M vfs (result Z) :=
  vfs_biglock_acquire;;
  r ← start_vnode (parse_path s).1;
  match r with
  | inl e => vfs_biglock_release;; mret (inl e)
  | inr vn =>
      if decide ((parse_path s).2 = []) then vfs_biglock_release;; mret (inr vn)
      else r ← below (vop_lookup vn (parse_path s).2); below (vop_decref vn);; vfs_biglock_release;; mret r
  end.
Definition named_parent (s : list Z) (buflen : Z) : M vfs (result (Z * list Z)) :=
  vfs_biglock_acquire;;
  r ← start_vnode (parse_path s).1;
  match r with
  | inl e => vfs_biglock_release;; mret (inl e)
  | inr vn =>
      r ← (if decide ((parse_path s).2 = []) then mret (inl EINVAL) else below (vop_lookparent vn (parse_path s).2 buflen));
      below (vop_decref vn);; vfs_biglock_release;; mret r
  end.
Lemma length_nil (l : list Z) : (Z.of_nat (length l) =? 0) = bool_decide (l = []).
Proof. by destruct l. Qed.
(** After the lock is taken, [getdevice] is the reference. *)
Lemma located {A} s junk st (f : result (list Z * Z * Z) → M vfs A) (g : result Z → M vfs A) : cstring s →
  (∀ e st', f (inl e) st' = g (inl e) st') → (∀ path i vn st', subpath path i = (parse_path s).2 → f (inr (path, i, vn)) st' = g (inr vn) st') →
  (vfs_biglock_acquire;; r ← getdevice (s ++ 0 :: junk); f r) st = (vfs_biglock_acquire;; r ← start_vnode (parse_path s).1; g r) st.
Proof.
  intros Hs He Hf. rewrite !(bind_ok vfs_biglock_acquire _ tt st (set_lock true (u32 (vfs_biglock_depth st + 1)) st) eq_refl). set (st1 := set_lock _ _ st).
  destruct (getdevice_eq s junk st1 Hs eq_refl) as (path & i & Esub & E). unfold mbind at 1, M_bind at 1. rewrite E. unfold mbind, M_bind, started.
  destruct (start_vnode _ st1) as [[[e|vn] st2]| | |]; simpl; auto.
Qed.
End lookups.

(** C14: Path names are read the way the comments of [vfslookup.c] describe them: [vfs_lookup]
    and [vfs_lookparent], which scan the buffer for a colon and a slash, cut it in place and
    skip slashes, do for every string exactly what the reference does, which splits the
    string into a starting point (current directory, named device, boot file system, root of
    the current file system) and the path from there; also in states where something
    fails. *)
Theorem lookups_parse_paths (W : Type) (FO : FsOps W) (s junk : list Z) (buflen : Z) (st : vfs (W := W)) : cstring s →
  vfs_lookup (s ++ 0 :: junk) st = named_lookup s st ∧ vfs_lookparent (s ++ 0 :: junk) buflen st = named_parent s buflen st.
Proof.
  intros Hs. split; (apply located; [done|done|]); intros path i vn st' E; cbv zeta; rewrite E, length_nil.
  all: destruct (decide ((parse_path s).2 = [])) as [Ep|Ep].
  all: by first [rewrite bool_decide_true by done|rewrite bool_decide_false by done].
Qed.
(** [lhd0:/a], looked up while nothing is open. *)
Lemma lookups_parse_paths_witness : let path := VfsDemo.lhd0 ++ [58; 47; 97] in
  vfs_lookup (path ++ [0; 9; 9]) (VfsDemo.start [] false) = named_lookup path (VfsDemo.start [] false) ∧
  parse_path path = (FromDevice VfsDemo.lhd0, [97]) ∧
  match vfs_lookup (path ++ [0; 9; 9]) (VfsDemo.start [] false) with Ok (inr vn, _) => vn = 3000 | _ => False end.
Proof.
  cbv zeta. destruct (lookups_parse_paths kworld _ (VfsDemo.lhd0 ++ [58; 47; 97]) [9; 9] 0 (VfsDemo.start [] false)) as [E _].
  { repeat (constructor; [done|]). constructor. }
  split; [exact E|]. split; [reflexivity|]. vm_compute. reflexivity.
Defined.

(** * References *)
(** C13: No sequence of opens, closes, removals, renames, directory changes and boot file
    system changes loses or invents a reference, whatever fails on the way: every call
    returns, the big lock is free again, and each vnode in memory has one reference for each
    file that is open on it, one if it is the current directory, one if it is the root of the
    boot file system, and the one that keeps the root directory or a device's vnode alive;
    its open count is the number of files open on it; and the file system is consistent. *)
Theorem vfs_references_balanced (cs : list vfs_call) (files : list Z) (s : vfs (W := kworld)) :
  vfs_inv (count files) (count files) 0 s → Forall call_ok cs → Z.of_nat (length files + length cs) < 2147483000 →
  ∃ files' s', run_calls cs files s = Ok (files', s') ∧ biglock_mine s' = false ∧ vfs_biglock_depth s' = 0 ∧
    let refs := λ p, count files' p + one (t_cwd s') p + one (bootfs_vnode s') p in
    (∀ p sv, vnodes (s_of (v_world s')) !! p = Some sv →
       vn_refcount sv = refs p + (if decide (sv_ino sv = SFS_ROOT_LOCATION) then 1 else 0) ∧ vn_opencount sv = count files' p) ∧
    (∀ p dv, dev_of (v_world s') p = Some dv → dv_refcount dv = refs p + 1 ∧ dv_opencount dv = count files' p) ∧
    ∃ root F D, fs_tree root (s_of (v_world s')) F D.
Proof.
  intros Hi Hc Hl. pose proof (wp_run_calls cs files s Hi Hc Hl) as (files' & s' & E & Hi')%wp_exists. exists files', s'. split; [exact E|].
  destruct Hi' as [(L1 & L2 & _) Hw Hr Ho _ _ _]. split; [exact L1|]. split; [exact L2|]. cbv zeta. split_and!; [| |exact (ki_tree _ Hw)].
  - intros p sv Hp. specialize (Hr p). specialize (Ho p). simpl in Hr, Ho. destruct (ki_vn _ Hw p sv Hp) as (_ & Hd & _). rewrite Hd in Hr, Ho.
    unfold rc, base in Hr. unfold oc in Ho. rewrite Hp in Hr, Ho. simpl in Hr, Ho. lia.
  - intros p dv Hp. specialize (Hr p). specialize (Ho p). simpl in Hr, Ho. rewrite Hp in Hr, Ho. lia.
Qed.
(** Change to the root of the disk, open [a] twice, close one, fail to open a directory for
    writing, remove [a]. *)
Lemma vfs_references_balanced_witness :
  let cs := [CChdir (VfsDemo.lhd0 ++ [58]) []; COpen [97] [] O_RDONLY 0; COpen [97] [] O_RDONLY 0; CClose 0; COpen [58] [] O_WRONLY 0; CRemove [97] []] in
  match run_calls cs [] (VfsDemo.start [] false) with Ok (files, s') => files = [3000] ∧ t_cwd s' = 2000 | _ => False end ∧
  ∃ files' s', run_calls cs [] (VfsDemo.start [] false) = Ok (files', s') ∧ biglock_mine s' = false ∧
    ∀ p sv, vnodes (s_of (v_world s')) !! p = Some sv → vn_opencount sv = count files' p.
Proof.
  cbv zeta. split; [vm_compute; split; reflexivity|].
  match goal with |- ∃ files' s', run_calls ?cs _ _ = _ ∧ _ => destruct (vfs_references_balanced cs [] _ (VfsDemo.demo_start_inv [])) as (files' & s' & E & L & _ & H & _) end.
  - repeat constructor; done.
  - simpl. lia.
  - exists files', s'. split; [exact E|]. split; [exact L|]. intros p sv Hp. by apply H.
Defined.

(** * The device table *)
(** C15: [vfs_doadd] keeps the device table well-formed: on success the new entry is the
    last of the table, no name of it (name, raw name, volume name) belongs to another entry,
    and the device has its position, from 1, as its number; a name that is taken gives
    [EEXIST], and only that does, with the table as it was and three or four blocks never
    given back; [ENOMEM] leaves the table as it was and happens only when one of the
    allocations fails. The lock is free at the end. *)
Theorem doadd_keeps_names_unique (dname : list Z) (mountable : bool) (dev fs : Z) (kds : list knowndev) (s : vfs (W := kworld)) :
  table_ok s kds → heap_ok s → biglock_mine s = false ∧ vfs_biglock_depth s = 0 → Z.of_nat (length kds) < 536870912 →
  (fs ≠ 0 → fs = SFS_FS) → (fs = 0 ∨ mountable = true → dev ≠ 0) →
  (dev ≠ 0 → is_Some (dv_devices (k_dev (v_world s)) !! dev) ∧ ∀ kd, kd ∈ kds → kd_device kd ≠ dev) →
  ∃ r s', vfs_doadd dname mountable dev fs s = Ok (r, s') ∧ doadd_post dname mountable dev fs kds s r s'.
Proof.
  intros Ht Hh Hl Hlen Hfs Hdev Hnum. apply wp_exists, wp_doadd; try done. intros Hd. destruct (Hnum Hd) as [[x Hx] H2]. split; [|done].
  simpl. rewrite Hx. by eexists.
Qed.
(** The second disk becomes [lhd1]; a name that another device has is refused. *)
Lemma doadd_keeps_names_unique_witness :
  let s := VfsDemo.start (Some <$> [901; 902; 903; 904; 905]) false in
  let kds := [VfsDemo.kd_null; VfsDemo.kd_lhd0] in
  (∃ vn s', vfs_doadd VfsDemo.lhd1 true 702 0 s = Ok (None, s') ∧ table_ok s' (kds ++ [new_kd VfsDemo.lhd1 true 702 vn 0])) ∧
  ∃ s', vfs_doadd VfsDemo.lhd0 true 702 0 s = Ok (Some EEXIST, s') ∧ table_ok s' kds.
Proof.
  cbv zeta. set (s := VfsDemo.start _ false). set (kds := [VfsDemo.kd_null; VfsDemo.kd_lhd0]).
  assert (heap_ok s) as Hh.
  { split; [vm_compute; repeat constructor; set_solver|]. intros a Ha. assert (a = 901 ∨ a = 902 ∨ a = 903 ∨ a = 904 ∨ a = 905) as Hc by set_solver.
    destruct Hc as [-> |[-> |[-> |[-> | ->]]]]; done. }
  assert (∀ dname : list Z, 702 ≠ 0 → is_Some (dv_devices (k_dev (v_world s)) !! 702) ∧ ∀ kd, kd ∈ kds → kd_device kd ≠ 702) as Hn.
  { intros _ _. split; [by vm_compute; eexists|]. intros kd [-> |[-> |Hk%elem_of_nil]%elem_of_cons]%elem_of_cons; done. }
  split.
  - destruct (doadd_keeps_names_unique VfsDemo.lhd1 true 702 0 kds s (VfsDemo.table_is_ok _ _) Hh (conj eq_refl eq_refl) ltac:(simpl; lia) ltac:(done) ltac:(done) (Hn []))
      as (r & s' & E & _ & _ & _ & _ & H).
    assert (match vfs_doadd VfsDemo.lhd1 true 702 0 s with Ok (r, _) => r = None | _ => False end) as Hr by (vm_compute; reflexivity).
    rewrite E in Hr. subst r. destruct H as (vn & H & _). exists vn, s'. split; [exact E|exact H].
  - destruct (doadd_keeps_names_unique VfsDemo.lhd0 true 702 0 kds s (VfsDemo.table_is_ok _ _) Hh (conj eq_refl eq_refl) ltac:(simpl; lia) ltac:(done) ltac:(done) (Hn []))
      as (r & s' & E & _ & _ & _ & _ & H).
    assert (match vfs_doadd VfsDemo.lhd0 true 702 0 s with Ok (r, _) => r = Some EEXIST | _ => False end) as Hr by (vm_compute; reflexivity).
    rewrite E in Hr. subst r. exists s'. split; [exact E|apply H].
Defined.

(** A name of a device table entry leads to what the head of [vfslist.c] says, and only to
    that: the name of a mounted device and the volume name of a file system to the root of the
    file system, the raw name and the name of a device that cannot be mounted to the vnode of
    the device, the name of a mountable device without a file system to [ENXIO]; a name that
    no entry has is [ENODEV]. *)
Theorem getroot_finds_owner (name : list Z) (kds : list knowndev) (s : vfs (W := kworld)) :
  table_ok s kds → biglock_mine s = true →
  (∀ i kd, kds !! i = Some kd → name ∈ names_of (v_world s) kd → vfs_getroot name s = arrive (resolve (v_world s) name kd) s) ∧
  ((∀ kd, kd ∈ kds → name ∉ names_of (v_world s) kd) → vfs_getroot name s = Ok (inl ENODEV, s)).
Proof. intros Ht Hl. split; [intros i kd; by apply getroot_owner|by apply getroot_unknown]. Qed.
Lemma getroot_finds_owner_witness : let s := VfsDemo.start [] true in
  vfs_getroot VfsDemo.lhd0 s = arrive (Some (ToRoot SFS_FS)) s ∧ vfs_getroot (VfsDemo.lhd0 ++ raw) s = arrive (Some (ToDevice 601)) s ∧
  vfs_getroot VfsDemo.lhd1 s = Ok (inl ENODEV, s).
Proof.
  cbv zeta. set (s := VfsDemo.start [] true). pose proof (VfsDemo.table_is_ok [] true : table_ok s _) as Ht. split_and!.
  - destruct (getroot_finds_owner VfsDemo.lhd0 _ s Ht eq_refl) as [H _]. apply (H 1%nat VfsDemo.kd_lhd0); [done|apply elem_of_cons; by left].
  - destruct (getroot_finds_owner (VfsDemo.lhd0 ++ raw) _ s Ht eq_refl) as [H _].
    apply (H 1%nat VfsDemo.kd_lhd0); [done|apply elem_of_cons; right; apply elem_of_cons; by left].
  - destruct (getroot_finds_owner VfsDemo.lhd1 _ s Ht eq_refl) as [_ H]. apply H.
    intros kd [-> |[-> |Hk%elem_of_nil]%elem_of_cons]%elem_of_cons; [| |done]; apply (bool_decide_unpack _); vm_compute; exact I.
Defined.
