(* ===== verification/CString.v ===== *)
(** The string functions that the kernel shares with the C library
    ([common/libc/string], [common/libc/stdlib/atoi.c]) and the loop of
    [kern/startup/menu.c] that splits a command into words.

    Memory is a partial map from addresses to bytes; an access outside it is
    [Undef]. Loops over strings have the size of the memory, and one step more, as
    fuel: each step reads another byte. *)

From stdpp Require Import base tactics numbers list gmap.
From S2P Require Import Prelude KernDefs.
Local Open Scope Z_scope.

Abbreviation cmem := (gmap Z Z).
Definition ld (a : Z) : M cmem Z := m ← getS; of_opt (m !! a).
Definition st (a v : Z) : M cmem unit := m ← getS; _ ← of_opt (m !! a); putS (<[a := v]> m).
(** [n] bytes in one access. *)
Fixpoint ldn (n : nat) (a : Z) : M cmem (list Z) :=
  match n with
  | O => mret []
  | S n => b ← ld a; l ← ldn n (a + 1); mret (b :: l)
  end.
Fixpoint stn (a : Z) (l : list Z) : M cmem unit :=
  match l with
  | [] => mret tt
  | b :: l => st a b;; stn (a + 1) l
  end.
Definition fuel : M cmem nat := m ← getS; mret (S (size m)).

Definition SIZEOF_LONG : Z := 4.

(** ** Blocks *)
(** [d[i] = s[i]], with elements of [w] bytes. *)
Definition copy_elem (w dst src i : Z) : M cmem unit := l ← ldn (Z.to_nat w) (src + i * w); stn (dst + i * w) l.
Definition aligned (dst src len : Z) : bool := (dst mod SIZEOF_LONG =? 0) && (src mod SIZEOF_LONG =? 0) && (len mod SIZEOF_LONG =? 0).
Definition memcpy (dst src len : Z) : M cmem Z :=
  (if aligned dst src len then for_do (Z.to_nat (len / SIZEOF_LONG)) 0 (copy_elem SIZEOF_LONG dst src)
   else for_do (Z.to_nat len) 0 (copy_elem 1 dst src));;
  mret dst.
(** [for (i=n; i>0; i--) d[i-1] = s[i-1]]. *)
Fixpoint copy_down (w dst src : Z) (n : nat) : M cmem unit :=
  match n with
  | O => mret tt
  | S n => copy_elem w dst src (Z.of_nat n);; copy_down w dst src n
  end.
Definition memmove (dst src len : Z) : M cmem Z :=
  if dst <? src then memcpy dst src len
  else
    (if aligned dst src len then copy_down SIZEOF_LONG dst src (Z.to_nat (len / SIZEOF_LONG))
     else copy_down 1 dst src (Z.to_nat len));;
    mret dst.
Definition bzero (block len : Z) : M cmem unit :=
  if (block mod SIZEOF_LONG =? 0) && (len mod SIZEOF_LONG =? 0)
  then for_do (Z.to_nat (len / SIZEOF_LONG)) 0 (λ i, stn (block + i * SIZEOF_LONG) (replicate (Z.to_nat SIZEOF_LONG) 0))
  else for_do (Z.to_nat len) 0 (λ i, st (block + i) 0).

(** ** Strings *)
Fixpoint strlen_loop (n : nat) (str ret : Z) : M cmem Z :=
  match n with
  | O => diverge
  | S n => c ← ld (str + ret); if c =? 0 then mret ret else strlen_loop n str (ret + 1)
  end.
Definition strlen (str : Z) : M cmem Z := n ← fuel; strlen_loop n str 0.

Fixpoint strcpy_loop (n : nat) (dest src i : Z) : M cmem Z :=
  match n with
  | O => diverge
  | S n => c ← ld (src + i); if c =? 0 then mret i else st (dest + i) c;; strcpy_loop n dest src (i + 1)
  end.
Definition strcpy (dest src : Z) : M cmem Z :=
  n ← fuel; i ← strcpy_loop n dest src 0; st (dest + i) 0;; mret dest.
Definition strcat (dest src : Z) : M cmem Z :=
  offset ← strlen dest; _ ← strcpy (dest + offset) src; mret dest.

Fixpoint strcmp_loop (n : nat) (a b i : Z) : M cmem Z :=
  match n with
  | O => diverge
  | S n =>
      x ← ld (a + i);
      if x =? 0 then mret i
      else y ← ld (b + i); if x =? y then strcmp_loop n a b (i + 1) else mret i
  end.
Definition strcmp (a b : Z) : M cmem Z :=
  n ← fuel;
  i ← strcmp_loop n a b 0;
  x ← ld (a + i); y ← ld (b + i);
  mret (if y <? x then 1 else if x =? y then 0 else -1).

Fixpoint strchr_loop (n : nat) (s ch : Z) : M cmem Z :=
  match n with
  | O => diverge
  | S n =>
      c ← ld s;
      if c =? 0 then mret (if c =? ch then s else 0)
      else if c =? ch then mret s else strchr_loop n (s + 1) ch
  end.
Definition strchr (s ch_arg : Z) : M cmem Z := n ← fuel; strchr_loop n s (u8 ch_arg).

Fixpoint strrchr_loop (s ch : Z) (i : nat) : M cmem Z :=
  match i with
  | O => mret 0
  | S i => c ← ld (s + Z.of_nat i); if c =? ch then mret (s + Z.of_nat i) else strrchr_loop s ch i
  end.
Definition strrchr (s ch_arg : Z) : M cmem Z := l ← strlen s; strrchr_loop s (u8 ch_arg) (Z.to_nat (l + 1)).

(** The two scans of [strtok_r]: while the character is ([want]) or is not a separator. *)
Fixpoint span_seps (n : nat) (want : bool) (p seps : Z) : M cmem Z :=
  match n with
  | O => diverge
  | S n =>
      c ← ld p;
      if c =? 0 then mret p
      else w ← strchr seps c; if Bool.eqb (negb (w =? 0)) want then span_seps n want (p + 1) seps else mret p
  end.
(** The word and the new context. *)
Definition strtok_r (string seps context : Z) : M cmem (Z * Z) :=
  let context := if string =? 0 then context else string in
  if context =? 0 then mret (0, context)
  else
    n ← fuel;
    head ← span_seps n true context seps;
    c ← ld head;
    if c =? 0 then mret (0, 0)
    else
      tail ← span_seps n false head seps;
      c ← ld tail;
      if c =? 0 then mret (head, 0)
      else st tail 0;; mret (head, tail + 1).

(** ** Words of a command *)
Definition MAXMENUARGS : Z := 16.
Fixpoint words_loop (n : nat) (word context seps : Z) (args : list Z) : M cmem (result (list Z)) :=
  match n with
  | O => diverge
  | S n =>
      if word =? 0 then mret (inr args)
      else if MAXMENUARGS <=? Z.of_nat (length args) then mret (inl E2BIG)
      else '(next, context) ← strtok_r 0 seps context; words_loop n next context seps (args ++ [word])
  end.
Definition cmd_words (cmd seps context : Z) : M cmem (result (list Z)) :=
  n ← fuel;
  '(word, context) ← strtok_r cmd seps context;
  words_loop n word context seps [].

(** ** Numbers *)
Fixpoint atoi_blank (n : nat) (s : Z) : M cmem Z :=
  match n with
  | O => diverge
  | S n => c ← ld s; if (c =? 32) || (c =? 9) then atoi_blank n (s + 1) else mret s
  end.
(** [strchr(digits, c) - digits] for the digits in order. *)
Definition digit_of (c : Z) : option Z := if (48 <=? c) && (c <=? 57) then Some (c - 48) else None.
Fixpoint atoi_loop (n : nat) (s val : Z) : M cmem Z :=
  match n with
  | O => diverge
  | S n =>
      c ← ld s;
      if c =? 0 then mret val
      else match digit_of c with
           | None => mret val
           | Some digit => atoi_loop n (s + 1) (u32 (val * 10 + digit))
           end
  end.
Definition atoi (s : Z) : M cmem Z :=
  n ← fuel;
  s ← atoi_blank n s;
  c ← ld s;
  let '(neg, s) := if c =? 45 then (true, s + 1) else if c =? 43 then (false, s + 1) else (false, s) in
  val ← atoi_loop n s 0;
  mret (if neg then s32 (u32 (- val)) else s32 val).

(** * Memory *)
(** The bytes [l] are at [a]. *)
Definition block (m : cmem) (a : Z) (l : list Z) : Prop := ∀ k x, l !! k = Some x → m !! (a + Z.of_nat k) = Some x.
Definition chars (s : list Z) : Prop := Forall (λ b, 0 < b < 256) s.
Definition str (m : cmem) (a : Z) (s : list Z) : Prop := block m a (s ++ [0]) ∧ chars s.
(** The memory after [l] was stored at [a]. *)
Fixpoint mput (a : Z) (l : list Z) (m : cmem) : cmem :=
  match l with
  | [] => m
  | b :: l => mput (a + 1) l (<[a := b]> m)
  end.
Definition mapped (m : cmem) (a len : Z) : Prop := ∀ b, a ≤ b < a + len → is_Some (m !! b).

Lemma mput_lookup l : ∀ a m b, mput a l m !! b = if decide (a ≤ b < a + Z.of_nat (length l)) then l !! Z.to_nat (b - a) else m !! b.
Proof.
  induction l as [|x l IH]; intros a m b; cbn [mput length]; [by rewrite decide_False by lia|]. rewrite IH.
  destruct (decide (b = a)) as [->|Hne].
  - rewrite decide_False, decide_True by lia. rewrite lookup_insert_eq. by rewrite Z.sub_diag.
  - rewrite lookup_insert_ne by done. destruct (decide (a + 1 ≤ b < a + 1 + Z.of_nat (length l))).
    + rewrite decide_True by lia. by replace (Z.to_nat (b - a)) with (S (Z.to_nat (b - (a + 1)))) by lia.
    + by rewrite decide_False by lia.
Qed.
Lemma mput_app l l' a m : mput a (l ++ l') m = mput (a + Z.of_nat (length l)) l' (mput a l m).
Proof.
  revert a m. induction l as [|x l IH]; intros a m; cbn [mput app length]; [by rewrite Z.add_0_r|]. rewrite IH. f_equal. lia.
Qed.
Lemma mput_mapped a l m b : is_Some (m !! b) → is_Some (mput a l m !! b).
Proof. intros H. rewrite mput_lookup. case_decide; [apply lookup_lt_is_Some; lia|done]. Qed.
Lemma mput_block a l m : block (mput a l m) a l.
Proof.
  intros k x Hk. pose proof (lookup_lt_Some _ _ _ Hk). rewrite mput_lookup, decide_True by lia. by replace (Z.to_nat (a + Z.of_nat k - a)) with k by lia.
Qed.
Lemma mput_other a l m a' l' : block m a' l' → (a + Z.of_nat (length l) ≤ a' ∨ a' + Z.of_nat (length l') ≤ a) → block (mput a l m) a' l'.
Proof. intros H Hd k x Hk. pose proof (lookup_lt_Some _ _ _ Hk). rewrite mput_lookup, decide_False by lia. by apply H. Qed.

Lemma mput_comm a l a' l' m : a + Z.of_nat (length l) ≤ a' ∨ a' + Z.of_nat (length l') ≤ a → mput a l (mput a' l' m) = mput a' l' (mput a l m).
Proof.
  intros H. apply map_eq. intros b. rewrite !mput_lookup. destruct (decide (a ≤ b < _)), (decide (a' ≤ b < _)); try done. lia.
Qed.

Lemma block_app m a l l' : block m a (l ++ l') ↔ block m a l ∧ block m (a + Z.of_nat (length l)) l'.
Proof.
  split.
  - intros H. split; intros k x Hk; [apply H; by apply lookup_app_l_Some|]. replace (a + _ + _) with (a + Z.of_nat (length l + k)) by lia.
    apply H. rewrite lookup_app_r by lia. by replace (length l + k - length l)%nat with k by lia.
  - intros [H1 H2] k x [Hk|[Hl Hk]]%lookup_app_Some; [by apply H1|]. apply H2 in Hk. rewrite <-Hk. f_equal. lia.
Qed.
Lemma block_cons m a x l : block m a (x :: l) ↔ m !! a = Some x ∧ block m (a + 1) l.
Proof.
  change (x :: l) with ([x] ++ l). rewrite block_app. change (Z.of_nat (length [x])) with 1. split; intros [H1 H2]; (split; [|done]).
  - rewrite <-(Z.add_0_r a). by apply (H1 0%nat).
  - intros [|k] y Hk; simplify_eq/=. by rewrite Z.add_0_r.
Qed.
Lemma block_mapped m a l : block m a l → mapped m a (Z.of_nat (length l)).
Proof.
  intros H b Hb. destruct (lookup_lt_is_Some_2 l (Z.to_nat (b - a)) ltac:(lia)) as [x Hx]. apply H in Hx.
  replace (a + Z.of_nat (Z.to_nat (b - a))) with b in Hx by lia. eauto.
Qed.
Lemma block_size m a l : block m a l → (length l ≤ size m)%nat.
Proof.
  revert m a. induction l as [|x l IH]; intros m a H; [simpl; lia|]. apply block_cons in H as [H1 H2].
  assert (block (delete a m) (a + 1) l) as H3.
  { intros k y Hk. rewrite lookup_delete_ne by lia. by apply H2. }
  apply IH in H3. rewrite map_size_delete, H1 in H3. simpl. assert (size m ≠ 0%nat); [|lia].
  apply map_size_ne_0_lookup. eauto.
Qed.

(** * Runs of the accesses *)
Lemma ld_eq m a v : m !! a = Some v → ld a m = Ok (v, m).
Proof. intros H. unfold ld. rewrite (bind_ok getS _ m m m eq_refl), H. done. Qed.
Lemma st_eq m a v : is_Some (m !! a) → st a v m = Ok (tt, <[a := v]> m).
Proof. intros [x H]. unfold st. by rewrite (bind_ok getS _ m m m eq_refl), (bind_of_opt _ _ x). Qed.
Lemma fuel_eq {A} (f : nat → M cmem A) m : (mbind f fuel) m = f (S (size m)) m.
Proof. done. Qed.
Lemma ldn_eq m l : ∀ a, block m a l → ldn (length l) a m = Ok (l, m).
Proof.
  induction l as [|x l IH]; intros a H; [done|]. apply block_cons in H as [H1 H2]. cbn [length ldn].
  by rewrite (bind_ok _ _ _ _ _ (ld_eq _ _ _ H1)), (bind_ok _ _ _ _ _ (IH _ H2)).
Qed.
Lemma stn_eq l : ∀ m a, mapped m a (Z.of_nat (length l)) → stn a l m = Ok (tt, mput a l m).
Proof.
  induction l as [|x l IH]; intros m a H; [done|]. cbn [stn mput]. cbn [length] in H. rewrite (bind_ok _ _ _ _ _ (st_eq _ _ x (H a ltac:(lia)))).
  apply IH. intros b Hb. rewrite lookup_insert_ne by lia. apply H. lia.
Qed.

(** * Copying blocks *)
Lemma block_part m a l i n : block m a l → block m (a + Z.of_nat i) (take n (drop i l)).
Proof.
  intros H k x [Hk Hn]%lookup_take_Some. rewrite lookup_drop in Hk. apply H in Hk. rewrite <-Hk. f_equal. lia.
Qed.
Lemma copy_elem_eq (wn : nat) w dst src i m l : w = Z.of_nat wn → length l = wn → block m (src + i * w) l → mapped m (dst + i * w) w →
  copy_elem w dst src i m = Ok (tt, mput (dst + i * w) l m).
Proof.
  intros -> <- Hs Hd. unfold copy_elem. rewrite Nat2Z.id, (bind_ok _ _ _ _ _ (ldn_eq _ _ _ Hs)). by apply stn_eq.
Qed.

Section copy.
Context (wn : nat) (w dst src : Z) (l : list Z) (m : cmem).
Hypothesis (Hw : w = Z.of_nat wn).
Hypothesis (Hs : block m src l) (Hd : mapped m dst (Z.of_nat (length l))).

Lemma copy_up_eq n : ∀ i, ((i + n) * wn)%nat = length l → (dst ≤ src ∨ src + Z.of_nat (length l) ≤ dst) →
  for_do n (Z.of_nat i) (copy_elem w dst src) (mput dst (take (i * wn) l) m) = Ok (tt, mput dst l m).
Proof using All.
  induction n as [|n IH]; intros i Hl Ho; cbn [for_do].
  { by rewrite take_ge by lia. }
  set (k := (i * wn)%nat). assert (Z.of_nat i * w = Z.of_nat k) as Ek by lia. assert (k + wn ≤ length l)%nat as Hk by lia.
  set (c := take wn (drop k l)). assert (length c = wn) as Hc by (unfold c; rewrite length_take, length_drop; lia).
  assert (length (take k l) = k) as Hlk by (rewrite length_take; lia).
  rewrite (bind_ok _ _ tt _ (mput (dst + Z.of_nat i * w) c (mput dst (take k l) m))).
  - replace (Z.of_nat i + 1) with (Z.of_nat (S i)) by lia. rewrite <-(IH (S i)) by lia. f_equal.
    replace (S i * wn)%nat with (k + wn)%nat by lia. rewrite <-take_take_drop, mput_app, Hlk, Ek. done.
  - apply (copy_elem_eq wn); [done|done| |].
    + rewrite Ek. apply mput_other; [by apply block_part|]. lia.
    + intros b Hb. apply mput_mapped, Hd. lia.
Qed.
Lemma copy_down_eq n : (n * wn ≤ length l)%nat → src ≤ dst →
  copy_down w dst src n (mput (dst + Z.of_nat (n * wn)) (drop (n * wn) l) m) = Ok (tt, mput dst l m).
Proof using All.
  intros Hl Ho. induction n as [|n IH]; cbn [copy_down].
  { by rewrite Z.add_0_r. }
  set (k := (n * wn)%nat). assert (Z.of_nat n * w = Z.of_nat k) as Ek by lia. assert (k + wn ≤ length l)%nat as Hk by lia.
  replace (S n * wn)%nat with (k + wn)%nat by lia. set (c := take wn (drop k l)).
  assert (length c = wn) as Hc by (unfold c; rewrite length_take, length_drop; lia).
  rewrite (bind_ok _ _ tt _ (mput (dst + Z.of_nat n * w) c (mput (dst + Z.of_nat (k + wn)) (drop (k + wn) l) m))).
  - rewrite <-IH by lia. f_equal. rewrite Ek. fold k. rewrite <-(take_drop wn (drop k l)), drop_drop. fold c. rewrite mput_app, Hc.
    replace (dst + Z.of_nat k + Z.of_nat wn) with (dst + Z.of_nat (k + wn)) by lia. apply mput_comm. rewrite length_drop, Hc. lia.
  - apply (copy_elem_eq wn); [done|done| |].
    + rewrite Ek. apply mput_other; [by apply block_part|]. rewrite Hc, length_drop. lia.
    + intros b Hb. apply mput_mapped, Hd. lia.
Qed.
End copy.

(** Words or bytes, the elements make up the block. *)
Lemma elements (b : bool) (l : list Z) : (b = true → Z.of_nat (length l) mod SIZEOF_LONG = 0) →
  ∃ wn n : nat, (n * wn)%nat = length l ∧
    (if b then wn = 4%nat ∧ Z.to_nat (Z.of_nat (length l) / SIZEOF_LONG) = n else wn = 1%nat ∧ Z.to_nat (Z.of_nat (length l)) = n).
Proof.
  intros H. unfold SIZEOF_LONG in *. destruct b.
  - specialize (H eq_refl). exists 4%nat, (Z.to_nat (Z.of_nat (length l) / 4)). split; [|done]. pose proof (Z.div_mod (Z.of_nat (length l)) 4). lia.
  - exists 1%nat, (length l). split; [lia|]. split; [done|lia].
Qed.
Lemma aligned_len dst src len : aligned dst src len = true → len mod SIZEOF_LONG = 0.
Proof. unfold aligned. rewrite !andb_true_iff. intros [_ H]. lia. Qed.

Lemma memcpy_eq dst src l m : block m src l → mapped m dst (Z.of_nat (length l)) → (dst ≤ src ∨ src + Z.of_nat (length l) ≤ dst) →
  memcpy dst src (Z.of_nat (length l)) m = Ok (dst, mput dst l m).
Proof.
  intros Hs Hd Ho. unfold memcpy. destruct (elements (aligned dst src (Z.of_nat (length l))) l (aligned_len _ _ _)) as (wn & n & Hn & Hb).
  rewrite (bind_ok _ _ tt _ (mput dst l m)); [done|].
  destruct (aligned _ _ _); destruct Hb as [-> ->]; [apply (copy_up_eq 4 4 dst src l m eq_refl Hs Hd n 0)|apply (copy_up_eq 1 1 dst src l m eq_refl Hs Hd n 0)]; auto.
Qed.
Lemma memmove_eq dst src l m : block m src l → mapped m dst (Z.of_nat (length l)) →
  memmove dst src (Z.of_nat (length l)) m = Ok (dst, mput dst l m).
Proof.
  intros Hs Hd. unfold memmove. destruct (Z.ltb_spec dst src); [apply memcpy_eq; [done..|lia]|].
  destruct (elements (aligned dst src (Z.of_nat (length l))) l (aligned_len _ _ _)) as (wn & n & Hn & Hb).
  rewrite (bind_ok _ _ tt _ (mput dst l m)); [done|].
  assert (∀ w, w = Z.of_nat wn → copy_down w dst src n m = Ok (tt, mput dst l m)) as E.
  { intros w Ew. rewrite <-(copy_down_eq wn w dst src l m Ew Hs Hd n) by lia. by rewrite Hn, drop_all. }
  destruct (aligned _ _ _); destruct Hb as [-> ->]; by apply E.
Qed.
Lemma bzero_eq a len m : 0 ≤ len → mapped m a len → bzero a len m = Ok (tt, mput a (replicate (Z.to_nat len) 0) m).
Proof.
  intros Hlen Hm. unfold bzero.
  assert (∀ (wn : nat) (body : Z → M cmem unit), (∀ i m', mapped m' (a + i * Z.of_nat wn) (Z.of_nat wn) → body i m' = Ok (tt, mput (a + i * Z.of_nat wn) (replicate wn 0) m')) →
    ∀ n i, ((i + n) * wn)%nat = Z.to_nat len → for_do n (Z.of_nat i) body (mput a (replicate (i * wn) 0) m) = Ok (tt, mput a (replicate (Z.to_nat len) 0) m)) as Hloop.
  { intros wn body Hb. induction n as [|n IH]; intros i Hi; cbn [for_do].
    { by rewrite <-Hi, Nat.add_0_r. }
    assert (mapped (mput a (replicate (i * wn) 0) m) (a + Z.of_nat i * Z.of_nat wn) (Z.of_nat wn)) as Hmi.
    { intros b Hbd. apply mput_mapped, Hm. assert (Z.of_nat i * Z.of_nat wn + Z.of_nat wn ≤ len) by nia. lia. }
    rewrite (bind_ok _ _ _ _ _ (Hb _ _ Hmi)). replace (Z.of_nat i + 1) with (Z.of_nat (S i)) by lia.
    rewrite <-(IH (S i)) by lia. f_equal. replace (S i * wn)%nat with (i * wn + wn)%nat by lia. rewrite replicate_add, mput_app, length_replicate.
    do 2 f_equal. lia. }
  destruct (_ && _) eqn:E.
  - apply andb_true_iff in E as [_ E%Z.eqb_eq]. unfold SIZEOF_LONG in *. pose proof (Z.div_mod len 4).
    apply (Hloop 4%nat (λ i, stn (a + i * 4) (replicate (Z.to_nat 4) 0)) ltac:(intros i m' Hm'; by apply stn_eq) (Z.to_nat (len / 4)) 0%nat). lia.
  - apply (Hloop 1%nat (λ i, st (a + i) 0)) with (i := 0%nat); [|lia]. intros i m' Hm'. rewrite st_eq by (apply Hm'; lia).
    simpl. by rewrite Z.mul_1_r.
Qed.

(** C29: [memmove] copies as if through a buffer of its own, however source and destination
    overlap and whether it goes by words or by bytes, up or down: afterwards the destination
    holds the old bytes of the source and every other byte is as it was. *)
Theorem memmove_any_overlap (dst src : Z) (l : list Z) (m : cmem) : block m src l → mapped m dst (Z.of_nat (length l)) →
  ∃ m', memmove dst src (Z.of_nat (length l)) m = Ok (dst, m') ∧ block m' dst l ∧
    ∀ a, a < dst ∨ dst + Z.of_nat (length l) ≤ a → m' !! a = m !! a.
Proof.
  intros Hs Hd. exists (mput dst l m). split; [by apply memmove_eq|]. split; [apply mput_block|]. intros a Ha. by rewrite mput_lookup, decide_False by lia.
Qed.
(** Eight bytes moved up by four, by words. *)
Lemma memmove_any_overlap_witness : let m := mput 100 [1; 2; 3; 4; 5; 6; 7; 8; 9; 9; 9; 9] ∅ in
  ∃ m', memmove 104 100 8 m = Ok (104, m') ∧ block m' 104 [1; 2; 3; 4; 5; 6; 7; 8] ∧ m' !! 100 = Some 1.
Proof.
  cbv zeta. destruct (memmove_any_overlap 104 100 [1; 2; 3; 4; 5; 6; 7; 8] (mput 100 [1; 2; 3; 4; 5; 6; 7; 8; 9; 9; 9; 9] ∅)) as (m' & E & H1 & H2).
  - apply (proj1 (block_app _ 100 [1; 2; 3; 4; 5; 6; 7; 8] [9; 9; 9; 9])), mput_block.
  - intros b Hb. simpl in Hb. apply (block_mapped _ _ _ (mput_block 100 [1; 2; 3; 4; 5; 6; 7; 8; 9; 9; 9; 9] ∅)). simpl. lia.
  - exists m'. split; [exact E|]. split; [exact H1|]. rewrite H2 by lia. reflexivity.
Defined.

(** * Strings *)
Lemma str_nil m a : str m a [] ↔ m !! a = Some 0.
Proof.
  unfold str. simpl. rewrite block_cons. split; [naive_solver|]. intros H. split; [split; [done|]|constructor]. intros k x Hk. by destruct k.
Qed.
Lemma str_cons m a c s : str m a (c :: s) ↔ m !! a = Some c ∧ 0 < c < 256 ∧ str m (a + 1) s.
Proof. unfold str, chars. cbn [app]. rewrite block_cons, Forall_cons. tauto. Qed.
Lemma str_app m a s t : str m a (s ++ t) ↔ block m a s ∧ chars s ∧ str m (a + Z.of_nat (length s)) t.
Proof. unfold str, chars. rewrite <-app_assoc, block_app, Forall_app. tauto. Qed.
Lemma str_size m a s : str m a s → (length s < size m)%nat.
Proof. intros [H _]. apply block_size in H. rewrite length_app in H. simpl in H. lia. Qed.
Lemma str_end m a s : str m a s → m !! (a + Z.of_nat (length s)) = Some 0.
Proof. intros [[_ H]%block_app _]. by apply block_cons in H as [H _]. Qed.
Lemma str_other m a s a' l : str m a s → a' + Z.of_nat (length l) ≤ a ∨ a + Z.of_nat (length s) < a' → str (mput a' l m) a s.
Proof. intros [H1 H2] Ho. split; [|done]. apply mput_other; [done|]. rewrite length_app. simpl. lia. Qed.

Ltac ld_step H := rewrite (bind_ok _ _ _ _ _ (ld_eq _ _ _ H)).

Lemma strlen_loop_eq m s : ∀ n a i, str m (a + i) s → (length s < n)%nat → strlen_loop n a i m = Ok (i + Z.of_nat (length s), m).
Proof.
  induction s as [|c s IH]; intros [|n] a i H Hn; simpl in Hn; try lia; cbn [strlen_loop].
  - apply str_nil in H. ld_step H. by rewrite Z.add_0_r.
  - apply str_cons in H as (H1 & H2 & H3). ld_step H1. rewrite (proj2 (Z.eqb_neq _ _)) by lia. rewrite IH; [|by rewrite Z.add_assoc|lia].
    do 2 f_equal. simpl. lia.
Qed.
Lemma strlen_eq m a s : str m a s → strlen a m = Ok (Z.of_nat (length s), m).
Proof.
  intros H. unfold strlen. rewrite fuel_eq. pose proof (str_size _ _ _ H). rewrite (strlen_loop_eq _ s); [done|by rewrite Z.add_0_r|lia].
Qed.

(** The position of a character, the terminating one included. *)
Fixpoint index (ch : Z) (l : list Z) : option Z :=
  match l with
  | [] => None
  | c :: l => if c =? ch then Some 0 else (Z.add 1) <$> index ch l
  end.
Definition at_index (a : Z) (o : option Z) : Z := match o with Some i => a + i | None => 0 end.
Lemma at_index_succ a o : at_index (a + 1) o = at_index a (Z.add 1 <$> o).
Proof. destruct o; simpl; [lia|done]. Qed.

Lemma strchr_loop_eq m ch s : ∀ n a, str m a s → (length s < n)%nat → strchr_loop n a ch m = Ok (at_index a (index ch (s ++ [0])), m).
Proof.
  induction s as [|c s IH]; intros [|n] a H Hn; simpl in Hn; try lia; cbn [strchr_loop].
  - apply str_nil in H. ld_step H. change (0 =? 0) with true. cbv iota. cbn [app index]. destruct (0 =? ch); simpl; by rewrite ?Z.add_0_r.
  - apply str_cons in H as (H1 & H2 & H3). ld_step H1. rewrite (proj2 (Z.eqb_neq _ _)) by lia. cbn [app index].
    destruct (c =? ch); [simpl; by rewrite Z.add_0_r|]. rewrite IH by (done || lia). by rewrite at_index_succ.
Qed.
Lemma strchr_eq m a s ch : str m a s → strchr a ch m = Ok (at_index a (index (u8 ch) (s ++ [0])), m).
Proof. intros H. unfold strchr. rewrite fuel_eq. pose proof (str_size _ _ _ H). apply strchr_loop_eq; [done|lia]. Qed.

(** The last position among the first [i]. *)
Fixpoint rindex (ch : Z) (l : list Z) : option Z :=
  match l with
  | [] => None
  | c :: l => match rindex ch l with Some i => Some (1 + i) | None => if c =? ch then Some 0 else None end
  end.
Lemma rindex_snoc ch l c : rindex ch (l ++ [c]) = if c =? ch then Some (Z.of_nat (length l)) else rindex ch l.
Proof.
  induction l as [|x l IH]; [done|]. cbn [app rindex length]. rewrite IH. destruct (c =? ch); [f_equal; lia|done].
Qed.
Lemma strrchr_loop_eq m a ch l : block m a l → strrchr_loop a ch (length l) m = Ok (at_index a (rindex ch l), m).
Proof.
  induction l as [|c l IH] using rev_ind; intros H; [done|]. apply block_app in H as [H1 H2]. apply block_cons in H2 as [H2 _].
  rewrite length_app, Nat.add_1_r. cbn [strrchr_loop]. ld_step H2. rewrite rindex_snoc. destruct (c =? ch); [done|]. by apply IH.
Qed.
Lemma strrchr_eq m a s ch : str m a s → strrchr a ch m = Ok (at_index a (rindex (u8 ch) (s ++ [0])), m).
Proof.
  intros H. unfold strrchr. rewrite (bind_ok _ _ _ _ _ (strlen_eq _ _ _ H)). replace (Z.to_nat _) with (length (s ++ [0])) by (rewrite length_app; simpl; lia).
  apply strrchr_loop_eq, H.
Qed.

(** Lexicographic order. *)
Fixpoint lex (s t : list Z) : Z :=
  match s, t with
  | [], [] => 0
  | [], _ => -1
  | _, [] => 1
  | x :: s, y :: t => if y <? x then 1 else if x =? y then lex s t else -1
  end.
Lemma str_head m a s : str m a s → m !! a = Some (default 0 (head s)) ∧ 0 ≤ default 0 (head s) ∧ (default 0 (head s) = 0 ↔ s = []).
Proof. destruct s as [|c s]; [by intros ?%str_nil|]. intros (H1 & H2 & _)%str_cons. simpl. naive_solver lia. Qed.
Lemma strcmp_tail m a b s : ∀ t n i, str m (a + i) s → str m (b + i) t → (length s < n)%nat →
  (i ← strcmp_loop n a b i; x ← ld (a + i); y ← ld (b + i); mret (if y <? x then 1 else if x =? y then 0 else -1)) m = Ok (lex s t, m).
Proof.
  induction s as [|x s IH]; intros t [|n] i Hs Hq Hn; simpl in Hn; try lia; cbn [strcmp_loop];
    pose proof (str_head _ _ _ Hq) as (Hy & Hy0 & Hyn); rewrite bind_assoc.
  - apply str_nil in Hs. ld_step Hs. rewrite (bind_ok _ _ i m m) by done. ld_step Hs. ld_step Hy.
    destruct t as [|y t]; [done|]. change (default 0 (head (y :: t))) with y in *. assert (y ≠ 0) by naive_solver.
    by rewrite (proj2 (Z.ltb_ge _ _)), (proj2 (Z.eqb_neq 0 y)) by lia.
  - apply str_cons in Hs as (Hx & Hx0 & Hs). ld_step Hx. rewrite (proj2 (Z.eqb_neq _ _)) by lia. rewrite bind_assoc. ld_step Hy.
    destruct (Z.eqb_spec x (default 0 (head t))) as [E|E].
    + destruct t as [|y t]; [simpl in E; lia|]. simpl in E. subst y. apply str_cons in Hq as (_ & _ & Hq).
      rewrite (IH t n (i + 1)) by (rewrite ?Z.add_assoc; done || lia). cbn [lex]. by rewrite Z.ltb_irrefl, Z.eqb_refl.
    + rewrite (bind_ok _ _ i m m) by done. ld_step Hx. ld_step Hy. rewrite (proj2 (Z.eqb_neq _ _) E). destruct t as [|y t].
      * change (default 0 (head [])) with 0. by rewrite (proj2 (Z.ltb_lt 0 x)) by lia.
      * change (default 0 (head (y :: t))) with y in *. cbn [lex]. by rewrite (proj2 (Z.eqb_neq _ _) E).
Qed.
Lemma strcmp_eq m a b s t : str m a s → str m b t → strcmp a b m = Ok (lex s t, m).
Proof.
  intros Hs Hq. unfold strcmp. rewrite fuel_eq. pose proof (str_size _ _ _ Hs). apply strcmp_tail; rewrite ?Z.add_0_r; done || lia.
Qed.
Lemma lex_zero s t : lex s t = 0 ↔ s = t.
Proof.
  revert t. induction s as [|x s IH]; intros [|y t]; simpl; try done. destruct (Z.ltb_spec y x); [naive_solver lia|].
  destruct (Z.eqb_spec x y); [rewrite IH; naive_solver|naive_solver].
Qed.

(** The source is read while the destination is written. *)
Lemma strcpy_loop_eq d a s : ∀ n i m, str m (a + i) s → mapped m (d + i) (Z.of_nat (length s)) → (length s < n)%nat →
  (d + i + Z.of_nat (length s) ≤ a + i ∨ a + i + Z.of_nat (length s) < d + i) →
  strcpy_loop n d a i m = Ok (i + Z.of_nat (length s), mput (d + i) s m).
Proof.
  induction s as [|c s IH]; intros [|n] i m H Hd Hn Ho; simpl in Hn; try lia; cbn [strcpy_loop].
  - apply str_nil in H. ld_step H. by rewrite Z.add_0_r.
  - apply str_cons in H as (H1 & H2 & H3). cbn [length] in Hd, Ho. ld_step H1. rewrite (proj2 (Z.eqb_neq _ _)) by lia.
    rewrite (bind_ok _ _ _ _ _ (st_eq _ (d + i) c (Hd (d + i) ltac:(lia)))). cbn [mput length].
    rewrite IH.
    + rewrite Z.add_assoc. f_equal. f_equal. lia.
    + rewrite Z.add_assoc. apply (str_other _ _ _ (d + i) [c]); [done|]. simpl. lia.
    + intros b Hb. rewrite lookup_insert_ne by lia. apply Hd. lia.
    + lia.
    + lia.
Qed.
Lemma strcpy_eq m d a s : str m a s → mapped m d (Z.of_nat (length s) + 1) →
  (d + Z.of_nat (length s) < a ∨ a + Z.of_nat (length s) < d) → strcpy d a m = Ok (d, mput d (s ++ [0]) m).
Proof.
  intros H Hd Ho. unfold strcpy. rewrite fuel_eq. pose proof (str_size _ _ _ H).
  rewrite (bind_ok _ _ (0 + Z.of_nat (length s)) m (mput (d + 0) s m)).
  - rewrite !Z.add_0_r, Z.add_0_l. rewrite (bind_ok _ _ _ _ _ (st_eq _ (d + Z.of_nat (length s)) 0 (mput_mapped _ _ _ _ (Hd (d + Z.of_nat (length s)) ltac:(lia))))).
    by rewrite mput_app.
  - apply strcpy_loop_eq; rewrite ?Z.add_0_r; [done| |lia|lia]. intros b Hb. apply Hd. lia.
Qed.
Lemma strcat_eq m d a s t : str m d s → str m a t → mapped m d (Z.of_nat (length s + length t) + 1) →
  (d + Z.of_nat (length s + length t) < a ∨ a + Z.of_nat (length t) < d) →
  strcat d a m = Ok (d, mput (d + Z.of_nat (length s)) (t ++ [0]) m).
Proof.
  intros Hs Hq Hd Ho. unfold strcat. rewrite (bind_ok _ _ _ _ _ (strlen_eq _ _ _ Hs)), (bind_ok _ _ (d + Z.of_nat (length s)) m (mput (d + Z.of_nat (length s)) (t ++ [0]) m)); [done|].
  apply strcpy_eq; [done| |lia]. intros b Hb. apply Hd. lia.
Qed.

(** On memory that holds strings the C functions are the operations on lists of
    characters: [strlen] is the length, [strcmp] the lexicographic order of unsigned characters,
    with 0 exactly for equal strings, [strchr] and [strrchr] the first and last position,
    the terminator included; [strcpy] and [strcat] make the copy and the concatenation and
    change no byte outside the new string, when there is room and the areas do not overlap. *)
Theorem strings_are_lists (m : cmem) (a b : Z) (s t : list Z) : str m a s → str m b t →
  strlen a m = Ok (Z.of_nat (length s), m) ∧
  strcmp a b m = Ok (lex s t, m) ∧ (lex s t = 0 ↔ s = t) ∧
  (∀ ch, strchr a ch m = Ok (at_index a (index (u8 ch) (s ++ [0])), m) ∧ strrchr a ch m = Ok (at_index a (rindex (u8 ch) (s ++ [0])), m)) ∧
  (∀ d, mapped m d (Z.of_nat (length t) + 1) → d + Z.of_nat (length t) < b ∨ b + Z.of_nat (length t) < d →
    ∃ m', strcpy d b m = Ok (d, m') ∧ str m' d t ∧ ∀ x, x < d ∨ d + Z.of_nat (length t) < x → m' !! x = m !! x) ∧
  (mapped m a (Z.of_nat (length s + length t) + 1) → a + Z.of_nat (length s + length t) < b ∨ b + Z.of_nat (length t) < a →
    ∃ m', strcat a b m = Ok (a, m') ∧ str m' a (s ++ t) ∧ ∀ x, x < a + Z.of_nat (length s) ∨ a + Z.of_nat (length s + length t) < x → m' !! x = m !! x).
Proof.
  intros Hs Hq. split; [by apply strlen_eq|]. split; [by apply strcmp_eq|]. split; [apply lex_zero|].
  split; [intros ch; split; [by apply strchr_eq|by apply strrchr_eq]|]. assert (length (t ++ [0]) = (length t + 1)%nat) as Hl by (rewrite length_app; done). split.
  - intros d Hd Ho. exists (mput d (t ++ [0]) m). split; [by apply strcpy_eq|]. split; [split; [apply mput_block|apply Hq]|].
    intros x Hx. by rewrite mput_lookup, decide_False by lia.
  - intros Hd Ho. exists (mput (a + Z.of_nat (length s)) (t ++ [0]) m). split; [by apply strcat_eq|]. split.
    + apply str_app. destruct Hs as [[Hs1 _]%block_app Hs2]. split; [apply mput_other; [done|lia]|]. split; [done|]. split; [apply mput_block|apply Hq].
    + intros x Hx. by rewrite mput_lookup, decide_False by lia.
Qed.
(** [ab] and [b], with room after the first. *)
Lemma strings_are_lists_witness : let m := mput 10 [97; 98; 0; 7; 7; 98; 0] ∅ in
  strcmp 10 15 m = Ok (-1, m) ∧ strrchr 10 98 m = Ok (11, m) ∧ ∃ m', strcat 10 15 m = Ok (10, m') ∧ str m' 10 [97; 98; 98].
Proof.
  cbv zeta. set (m := mput 10 _ ∅). destruct (strings_are_lists m 10 15 [97; 98] [98]) as (_ & H1 & _ & H2 & _ & H3).
  - split; [apply (proj1 (block_app _ 10 [97; 98; 0] [7; 7; 98; 0])), mput_block|repeat constructor; lia].
  - split; [apply (proj2 (proj1 (block_app _ 10 [97; 98; 0; 7; 7] [98; 0]) (mput_block 10 _ ∅)))|repeat constructor; lia].
  - split; [exact H1|]. split; [exact (proj2 (H2 98))|]. destruct H3 as (m' & E & H & _).
    + intros x Hx. simpl in Hx. apply (block_mapped _ _ _ (mput_block 10 [97; 98; 0; 7; 7; 98; 0] ∅)). simpl. lia.
    + simpl. lia.
    + exists m'. split; [exact E|exact H].
Defined.
