(* ===== verification/Tokens.v ===== *)
(** Splitting into words: [strtok_r] ([common/libc/string/strtok_r.c]), called until it has
    no more, gives the words of a string, and the loop of the kernel menu
    ([kern/startup/menu.c]) that does so ends. *)

From stdpp Require Import base tactics numbers list gmap.
From S2P Require Import Prelude KernDefs CString.
Local Open Scope Z_scope.

(** * The reference *)
(** The longest prefix whose characters satisfy [f], and the rest. *)
Fixpoint lead (f : Z → bool) (s : list Z) : list Z * list Z :=
  match s with
  | [] => ([], [])
  | c :: t => if f c then (c :: (lead f t).1, (lead f t).2) else ([], s)
  end.
(** The words of [s], when [cur] was read of the current one. *)
Fixpoint split_words (seps cur s : list Z) : list (list Z) :=
  let flush := if decide (cur = []) then [] else [cur] in
  match s with
  | [] => flush
  | c :: s => if bool_decide (c ∈ seps) then flush ++ split_words seps [] s else split_words seps (cur ++ [c]) s
  end.
Definition words (seps s : list Z) : list (list Z) := split_words seps [] s.
Definition is_sep (seps : list Z) (c : Z) : bool := bool_decide (c ∈ seps).
Definition not_sep (seps : list Z) (c : Z) : bool := negb (is_sep seps c).

Lemma lead_app f s : s = (lead f s).1 ++ (lead f s).2.
Proof. induction s as [|c s IH]; [done|]. simpl. destruct (f c); [|done]. simpl. by rewrite <-IH. Qed.
Lemma lead_stop f s c t : (lead f s).2 = c :: t → f c = false.
Proof. induction s as [|x s IH]; [done|]. simpl. destruct (f x) eqn:E; [done|]. by intros [= <- <-]. Qed.

Lemma split_words_skip seps s : split_words seps [] s = split_words seps [] (lead (is_sep seps) s).2.
Proof.
  induction s as [|c s IH]; [done|]. cbn [split_words lead]. change (bool_decide (c ∈ seps)) with (is_sep seps c).
  destruct (is_sep seps c) eqn:E; [exact IH|]. cbn [snd split_words]. unfold is_sep in E. by rewrite E.
Qed.
Lemma split_words_word seps s : ∀ cur, cur ++ (lead (not_sep seps) s).1 ≠ [] →
  split_words seps cur s = (cur ++ (lead (not_sep seps) s).1) :: split_words seps [] (tail (lead (not_sep seps) s).2).
Proof.
  induction s as [|c s IH]; intros cur H.
  - simpl in *. rewrite app_nil_r in *. rewrite (decide_False (P := cur = [])) by done. reflexivity.
  - assert (not_sep seps c = negb (bool_decide (c ∈ seps))) as En by done. cbn [split_words lead] in *.
    destruct (bool_decide (c ∈ seps)) eqn:E; cbn [negb] in En; rewrite En in *; cbn [fst snd tail] in *.
    + rewrite app_nil_r in *. rewrite (decide_False (P := cur = [])) by done. reflexivity.
    + rewrite IH; rewrite <-app_assoc; done.
Qed.
(** One word at a time. *)
Lemma words_step seps s : let r := (lead (is_sep seps) s).2 in let w := (lead (not_sep seps) r).1 in
  words seps s = if decide (r = []) then [] else w :: words seps (tail (lead (not_sep seps) r).2).
Proof.
  cbv zeta. unfold words. rewrite split_words_skip. pose proof (lead_stop (is_sep seps) s) as Hstop. set (r := (lead (is_sep seps) s).2) in *.
  destruct (decide (r = [])) as [->|Hr]; [done|]. apply (split_words_word seps r []). destruct r as [|c t]; [done|]. simpl.
  unfold not_sep. by rewrite (Hstop c t eq_refl).
Qed.

(** * [strtok_r] *)
Section tok.
Context (q : Z) (sp : list Z).
Hypothesis (Hq : 0 < q).

Lemma index_elem c l : bool_decide (is_Some (index c l)) = bool_decide (c ∈ l).
Proof using.
  apply bool_decide_ext. induction l as [|x l IH]; simpl; [split; [by intros []|by intros ?%elem_of_nil]|].
  rewrite elem_of_cons. destruct (Z.eqb_spec x c); [naive_solver|]. rewrite <-IH. rewrite fmap_is_Some. naive_solver.
Qed.
Lemma index_nonneg c l i : index c l = Some i → 0 ≤ i.
Proof using.
  revert i. induction l as [|x l IH]; intros i; simpl; [done|]. destruct (x =? c); [by intros [= <-]|]. destruct (index c l) as [j|]; [|done].
  simpl. intros [= <-]. specialize (IH j eq_refl). lia.
Qed.
Lemma is_sep_chr m c : str m q sp → 0 < c < 256 → ∃ w, strchr q c m = Ok (w, m) ∧ negb (w =? 0) = is_sep sp c.
Proof using Hq.
  intros Hs Hc. eexists. split; [by apply strchr_eq|]. assert (u8 c = c) as -> by (apply wrapu_id; lia).
  unfold is_sep. assert (bool_decide (c ∈ sp) = bool_decide (is_Some (index c (sp ++ [0])))) as ->.
  { rewrite index_elem. apply bool_decide_ext. rewrite elem_of_app, list_elem_of_singleton. naive_solver lia. }
  destruct (index c (sp ++ [0])) as [i|] eqn:E; simpl; [|done]. apply index_nonneg in E. by rewrite (proj2 (Z.eqb_neq _ _)) by lia.
Qed.
Lemma span_seps_eq m want s : str m q sp → ∀ n p, str m p s → (length s < n)%nat →
  span_seps n want p q m = Ok (p + Z.of_nat (length (lead (λ c, Bool.eqb (is_sep sp c) want) s).1), m).
Proof using Hq.
  intros Hsp. induction s as [|c s IH]; intros [|n] p H Hn; simpl in Hn; try lia; cbn [span_seps].
  - apply str_nil in H. ld_step H. by rewrite Z.add_0_r.
  - apply str_cons in H as (H1 & H2 & H3). ld_step H1. rewrite (proj2 (Z.eqb_neq _ _)) by lia. destruct (is_sep_chr m c Hsp H2) as (w & Ew & Hw).
    rewrite (bind_ok _ _ _ _ _ Ew), Hw. cbn [lead]. destruct (Bool.eqb (is_sep sp c) want); [|by rewrite Z.add_0_r].
    rewrite IH by (done || lia). cbn [fst length]. do 2 f_equal. lia.
Qed.

(** What is left of the string: nothing, or the string at [p]. *)
Definition rest (m : cmem) (p : Z) (r : list Z) : Prop := p = 0 ∧ r = [] ∨ 0 < p ∧ str m p r.
(** The string at [p] has become the word [w] at [h] and the rest at [p']. *)
Record took_word (p : Z) (r : list Z) (h p' : Z) (w : list Z) (ws : list (list Z)) (m m' : cmem) : Prop := {
  tw_word : 0 < h ∧ p ≤ h ∧ str m' h w ∧ h + Z.of_nat (length w) ≤ p + Z.of_nat (length r);
  tw_rest : ∃ r', rest m' p' r' ∧ words sp r' = ws ∧ (length r' < length r)%nat ∧
    (p' = 0 ∨ h + Z.of_nat (length w) < p' ∧ p' + Z.of_nat (length r') ≤ p + Z.of_nat (length r));
  tw_other : ∀ x, x < p ∨ p + Z.of_nat (length r) ≤ x → m' !! x = m !! x;
}.
Lemma str_keep m m' a s : str m a s → (∀ x, a ≤ x ≤ a + Z.of_nat (length s) → m' !! x = m !! x) → str m' a s.
Proof using.
  intros [H1 H2] H. split; [|done]. intros k x Hk. pose proof (lookup_lt_Some _ _ _ Hk) as Hl. rewrite length_app in Hl. simpl in Hl.
  rewrite H by lia. by apply H1.
Qed.
Lemma lead_ext f g s : (∀ c, f c = g c) → lead f s = lead g s.
Proof using. intros H. induction s as [|c s IH]; [done|]. simpl. by rewrite H, IH. Qed.
Lemma lead_sep s : lead (λ c, Bool.eqb (is_sep sp c) true) s = lead (is_sep sp) s.
Proof using. apply lead_ext. intros c. by destruct (is_sep sp c). Qed.
Lemma lead_word s : lead (λ c, Bool.eqb (is_sep sp c) false) s = lead (not_sep sp) s.
Proof using. apply lead_ext. intros c. unfold not_sep. by destruct (is_sep sp c). Qed.

Lemma wp_strtok string context m p r : p = (if string =? 0 then context else string) → rest m p r → str m q sp →
  wp (strtok_r string q context) (λ '(h, p') m', match words sp r with
    | [] => h = 0 ∧ m' = m
    | w :: ws => took_word p r h p' w ws m m'
    end) m.
Proof using Hq.
  intros Ep Hr Hsp. unfold strtok_r. rewrite <-Ep. destruct Hr as [[-> ->]|[Hp Hr]]; [by apply wp_ret|].
  rewrite (proj2 (Z.eqb_neq _ _)) by lia. pose proof (str_size _ _ _ Hr) as Hsz. apply wp_bind_2. unfold fuel. apply wp_bind_2, wp_get, wp_ret.
  pose proof (words_step sp r) as Hw. cbv zeta in Hw. rewrite Hw. clear Hw. pose proof (lead_app (is_sep sp) r) as Er.
  pose proof (span_seps_eq m true r Hsp (S (size m)) p Hr ltac:(lia)) as E1. rewrite lead_sep in E1.
  set (a := (lead (is_sep sp) r).1) in *. set (r1 := (lead (is_sep sp) r).2) in *. set (h := p + Z.of_nat (length a)) in *.
  apply wp_bind_2. eapply wp_eq; [exact E1|]. assert (str m h r1) as Hr1 by (rewrite Er in Hr; by apply str_app in Hr as (_ & _ & Hr)).
  pose proof (str_head _ _ _ Hr1) as (Hc & Hc0 & Hcn). apply wp_bind_2. eapply wp_eq; [by apply ld_eq|].
  destruct (Z.eqb_spec (default 0 (head r1)) 0) as [E0|E0].
  { apply wp_ret. rewrite decide_True by (by apply Hcn). done. }
  rewrite decide_False by (intros ->; done). pose proof (str_size _ _ _ Hr1) as Hsz1. pose proof (lead_app (not_sep sp) r1) as Er1.
  pose proof (span_seps_eq m false r1 Hsp (S (size m)) h Hr1 ltac:(lia)) as E2. rewrite lead_word in E2.
  set (w := (lead (not_sep sp) r1).1) in *. set (r2 := (lead (not_sep sp) r1).2) in *. apply wp_bind_2. eapply wp_eq; [exact E2|].
  assert (length r = length a + length w + length r2)%nat as Hlen by (rewrite Er, Er1, !length_app; lia).
  rewrite Er1 in Hr1. apply str_app in Hr1 as (Hw & Hwc & Hr2). pose proof (str_head _ _ _ Hr2) as (Hd & Hd0 & Hdn). apply wp_bind_2. eapply wp_eq; [by apply ld_eq|].
  destruct r2 as [|c r3].
  - apply wp_ret. constructor; [|exists []; split; [by left|]|done].
    + split; [lia|]. split; [lia|]. split; [|lia]. split; [|done]. apply block_app. split; [done|]. apply Hr2.
    + split; [done|]. split; [|by left]. rewrite Hlen. assert (0 < length r1)%nat by (destruct r1; [done|simpl; lia]). rewrite Er1, app_nil_r in H. simpl. lia.
  - rewrite (proj2 (Z.eqb_neq _ _)) by (intros E; by apply Hdn in E). apply str_cons in Hr2 as (Hc1 & Hc2 & Hr3). apply wp_bind_2. eapply wp_eq; [apply st_eq; eauto|].
    apply wp_ret. simpl in Hlen. constructor.
    + split; [lia|]. split; [lia|]. split; [|lia]. split; [|done]. apply block_app. split.
      * apply (mput_other (h + Z.of_nat (length w)) [0]); [done|simpl; lia].
      * intros [|k] x Hk; simplify_eq/=; by rewrite Z.add_0_r, lookup_insert_eq.
    + exists r3. split; [right; split; [lia|]|].
      * apply (str_other _ _ _ (h + Z.of_nat (length w)) [0]); [done|simpl; lia].
      * split; [done|]. split; [lia|right; lia].
    + intros x Hx. apply lookup_insert_ne. lia.
Qed.

(** The loop of the menu is about to look at [word], with the words [ws] from there on, all
    between [lo] and [hi]. *)
Definition pending (m : cmem) (lo hi word p : Z) (ws : list (list Z)) : Prop :=
  match ws with
  | [] => word = 0
  | w :: ws => 0 < word ∧ lo ≤ word ∧ str m word w ∧ word + Z.of_nat (length w) ≤ hi ∧
      ∃ r, rest m p r ∧ words sp r = ws ∧ (p = 0 ∨ word + Z.of_nat (length w) < p ∧ p + Z.of_nat (length r) ≤ hi)
  end.
Lemma pending_next p r h p' m m' ws lo hi : lo ≤ p → p + Z.of_nat (length r) ≤ hi →
  match ws with [] => h = 0 ∧ m' = m | w :: ws => took_word p r h p' w ws m m' end →
  pending m' lo hi h p' ws ∧ ∀ x, x < p ∨ p + Z.of_nat (length r) ≤ x → m' !! x = m !! x.
Proof using.
  intros Hlo Hhi. destruct ws as [|w ws]; [by intros [-> ->]|]. intros [(H1 & H2 & H3 & H4) (r' & R1 & R2 & _ & R3) H5]. split; [|done].
  split; [done|]. split; [lia|]. split; [done|]. split; [lia|]. exists r'. split; [done|]. split; [done|]. destruct R3; [by left|right; lia].
Qed.
Lemma wp_words_loop hi ws : ∀ n word p args m lo, pending m lo hi word p ws → (length ws < n)%nat → str m q sp →
  q + Z.of_nat (length sp) < lo ∨ hi < q → Z.of_nat (length args) ≤ MAXMENUARGS →
  wp (words_loop n word p q args) (λ r m', (∀ x, x < lo ∨ hi ≤ x → m' !! x = m !! x) ∧
    match r with
    | inr args' => Z.of_nat (length args + length ws) ≤ MAXMENUARGS ∧ ∃ ps, args' = args ++ ps ∧ Forall2 (str m') ps ws
    | inl e => e = E2BIG ∧ MAXMENUARGS < Z.of_nat (length args + length ws)
    end) m.
Proof using Hq.
  unfold MAXMENUARGS. induction ws as [|w ws IH]; intros [|n] word p args m lo Hp Hn Hsp Ho Hm; simpl in Hn; try lia; cbn [words_loop].
  { simpl in Hp. subst word. apply wp_ret. rewrite Nat.add_0_r. split; [done|]. split; [done|]. exists []. by rewrite app_nil_r. }
  destruct Hp as (P1 & P2 & P3 & P4 & r & Hr & <- & P5). rewrite (proj2 (Z.eqb_neq _ _)) by lia. unfold MAXMENUARGS. destruct (Z.leb_spec 16 (Z.of_nat (length args))) as [Hfull|Hroom].
  { apply wp_ret. split; [done|]. split; [done|]. simpl. lia. }
  apply wp_bind_2. eapply wp_mono; [apply (wp_strtok 0 p m p r eq_refl Hr Hsp)|]. intros [h p'] m1 Hpost.
  set (lo' := word + Z.of_nat (length w) + 1). assert (pending m1 lo' hi h p' (words sp r) ∧ ∀ x, x < lo' ∨ hi ≤ x → m1 !! x = m !! x) as [Hp1 Hk1].
  { destruct P5 as [->|[P5 P6]].
    - destruct Hr as [[_ ->]|[? _]]; [|lia]. destruct Hpost as [-> ->]. done.
    - destruct (pending_next p r h p' m m1 (words sp r) lo' hi ltac:(lia) P6 Hpost) as [H1 H2]. split; [done|]. intros x Hx. apply H2. lia. }
  eapply wp_mono; [apply (IH n h p' (args ++ [word]) m1 lo' Hp1 ltac:(lia))|].
  - eapply str_keep; [exact Hsp|]. intros x Hx. apply Hk1. lia.
  - lia.
  - rewrite length_app. simpl. lia.
  - intros res m2 [Hk2 H2]. split; [intros x Hx; rewrite Hk2, Hk1 by lia; done|].
    rewrite length_app in H2. simpl in H2. destruct res as [e|args']; [destruct H2; split; [done|simpl; lia]|].
    destruct H2 as (H2 & ps & -> & H3). split; [simpl; lia|]. exists (word :: ps). split; [by rewrite <-app_assoc|]. constructor; [|done].
    eapply str_keep; [exact P3|]. intros x Hx. rewrite Hk2, Hk1 by lia. done.
Qed.
End tok.

Lemma words_count sp s : (length (words sp s) ≤ length s)%nat.
Proof.
  unfold words. assert (∀ cur, length (split_words sp cur s) ≤ length s + length cur)%nat as H; [|specialize (H []); simpl in H; lia].
  induction s as [|c s IH]; intros cur; cbn [split_words].
  - destruct (decide (cur = [])); simpl; [lia|]. destruct cur; simpl; [done|lia].
  - destruct (bool_decide (c ∈ sp)); [|specialize (IH (cur ++ [c])); rewrite length_app in IH; simpl in *; lia].
    rewrite length_app. specialize (IH []). destruct (decide (cur = [])); [simpl in *; lia|]. destruct cur; [done|]. simpl in *. lia.
Qed.

(** C37: splitting a command into words ends for every string, after one call of [strtok_r] for
    each word and one more: the result are pointers to the words of the string, in order, each
    terminated in place, or [E2BIG] exactly when there are more than sixteen; no byte outside
    the string is changed. *)
Theorem command_split_into_words (m : cmem) (a q context : Z) (s sp : list Z) : str m a s → str m q sp → 0 < a → 0 < q →
  q + Z.of_nat (length sp) < a ∨ a + Z.of_nat (length s) < q →
  ∃ r m', cmd_words a q context m = Ok (r, m') ∧ (∀ x, x < a ∨ a + Z.of_nat (length s) ≤ x → m' !! x = m !! x) ∧
    match r with
    | inr ps => Z.of_nat (length (words sp s)) ≤ MAXMENUARGS ∧ Forall2 (str m') ps (words sp s)
    | inl e => e = E2BIG ∧ MAXMENUARGS < Z.of_nat (length (words sp s))
    end.
Proof.
  intros Hs Hsp Ha Hq Ho. apply wp_exists. unfold cmd_words. apply wp_bind_2. unfold fuel. apply wp_bind_2, wp_get, wp_ret, wp_bind_2.
  pose proof (words_count sp s) as Hl. pose proof (str_size _ _ _ Hs) as Hz.
  eapply wp_mono; [apply (wp_strtok q sp Hq a context m a s); [by rewrite (proj2 (Z.eqb_neq _ _)) by lia|by right|done]|]. intros [h p'] m1 Hpost.
  destruct (pending_next sp a s h p' m m1 (words sp s) a (a + Z.of_nat (length s)) ltac:(lia) ltac:(lia) Hpost) as [Hp Hk].
  eapply wp_mono; [apply (wp_words_loop q sp Hq (a + Z.of_nat (length s)) (words sp s) _ h p' [] m1 a Hp)|].
  - lia.
  - eapply str_keep; [exact Hsp|]. intros x Hx. apply Hk. lia.
  - done.
  - done.
  - intros r m' [Hk2 H]. split; [intros x Hx; rewrite Hk2, Hk by done; done|].
    destruct r as [e|args]; [exact H|]. destruct H as (H1 & ps & -> & H2). by split.
Qed.
(** [ls  -l], split at blanks. *)
Lemma command_split_into_words_witness : let m := mput 10 [108; 115; 32; 32; 45; 108; 0; 32; 9; 0] ∅ in
  words [32; 9] [108; 115; 32; 32; 45; 108] = [[108; 115]; [45; 108]] ∧
  ∃ ps m', cmd_words 10 17 0 m = Ok (inr ps, m') ∧ ps = [10; 14] ∧ Forall2 (str m') ps [[108; 115]; [45; 108]].
Proof.
  cbv zeta. set (m := mput 10 _ ∅). split; [reflexivity|].
  destruct (command_split_into_words m 10 17 0 [108; 115; 32; 32; 45; 108] [32; 9]) as (r & m' & E & _ & H).
  - split; [apply (proj1 (block_app _ 10 [108; 115; 32; 32; 45; 108; 0] [32; 9; 0])), mput_block|repeat constructor; lia].
  - split; [apply (proj2 (proj1 (block_app _ 10 [108; 115; 32; 32; 45; 108; 0] [32; 9; 0]) (mput_block 10 _ ∅)))|repeat constructor; lia].
  - lia.
  - lia.
  - simpl. lia.
  - assert (match cmd_words 10 17 0 m with Ok (inr ps, _) => ps = [10; 14] | _ => False end) as Hv by (vm_compute; reflexivity).
    rewrite E in Hv. destruct r as [e|ps]; [destruct Hv|]. exists ps, m'. split; [exact E|]. split; [exact Hv|apply H].
Defined.
