(* ===== verification/Printf.v ===== *)
(** Formatted output: [common/libc/printf/__printf.c] and [snprintf.c], which the kernel
    shares with the C library, and the backend of [kprintf] ([kern/lib/kprintf.c]).

    The variable arguments are a list; on this machine [int], [long] and pointers are
    words and [long long] has 64 bits. An argument of another kind than the format asks
    for is [Undef], as are signed overflows and accesses outside a buffer. *)

From stdpp Require Import base tactics numbers list gmap.
From S2P Require Import Prelude KernDefs CString.
Local Open Scope Z_scope.

Inductive arg := AWord (w : Z) | ALlong (w : Z) | AStr (s : option (list Z)).
Inductive intsize := INTSZ | LONGSZ | LLONGSZ.
#[export] Instance intsize_dec : EqDecision intsize.
Proof. solve_decision. Defined.

Record PF := Pf {
  ap : list arg;
  charcount : Z;
  in_pct : bool;
  sz : intsize;
  num : Z;
  sign : bool;
  spacing : Z;
  rightspc : bool;
  fillchar : Z;
  base : Z;
  baseprefix : bool;
  altformat : bool;
}.
Definition NUMBER_BUF_SIZE : Z := 8 * 8 / 3 + 2.

(** Where the text goes: [sendfunc] and its [clientdata]. *)
Class Sink (S : Type) := sendfunc : list Z → M S unit.
Record job (S : Type) := Job { pf : PF; client : S }.
Arguments Job {S}. Arguments pf {S}. Arguments client {S}.
#[export] Instance job_client S : Sub (job S) S.
Proof. refine {| sub_get := client; sub_put c j := Job (pf j) c |}; by intros []. Defined.

Section printf.
Context {S : Type} {SK : Sink S}.

Definition get_pf : M (job S) PF := gets pf.
Definition upd (f : PF → PF) : M (job S) unit := modify (λ j, Job (f (pf j)) (client j)).
(** Signed arithmetic of [int]. *)
Definition int_ (z : Z) : M (job S) Z := if (-2147483648 <=? z) && (z <=? 2147483647) then mret z else undef.

Definition __pf_print (txt : list Z) : M (job S) unit :=
  zoom (sendfunc txt);;
  upd (λ p, Pf (ap p) (s32 (charcount p + Z.of_nat (length txt))) (in_pct p) (sz p) (num p) (sign p) (spacing p) (rightspc p) (fillchar p) (base p) (baseprefix p) (altformat p)).
Definition endfield (p : PF) : PF := Pf (ap p) (charcount p) false INTSZ 0 false 0 false 32 0 false false.
Definition __pf_endfield : M (job S) unit := upd endfield.

Definition set_alt (p : PF) : PF := Pf (ap p) (charcount p) (in_pct p) (sz p) (num p) (sign p) (spacing p) (rightspc p) (fillchar p) (base p) (baseprefix p) true.
Definition set_right (p : PF) : PF := Pf (ap p) (charcount p) (in_pct p) (sz p) (num p) (sign p) (spacing p) true (fillchar p) (base p) (baseprefix p) (altformat p).
Definition set_size (s : intsize) (p : PF) : PF := Pf (ap p) (charcount p) (in_pct p) s (num p) (sign p) (spacing p) (rightspc p) (fillchar p) (base p) (baseprefix p) (altformat p).
Definition set_spacing (n : Z) (p : PF) : PF := Pf (ap p) (charcount p) (in_pct p) (sz p) (num p) (sign p) n (rightspc p) (fillchar p) (base p) (baseprefix p) (altformat p).
Definition set_fill (c : Z) (p : PF) : PF := Pf (ap p) (charcount p) (in_pct p) (sz p) (num p) (sign p) (spacing p) (rightspc p) c (base p) (baseprefix p) (altformat p).
Definition set_num (n : Z) (neg : bool) (p : PF) : PF := Pf (ap p) (charcount p) (in_pct p) (sz p) n neg (spacing p) (rightspc p) (fillchar p) (base p) (baseprefix p) (altformat p).
Definition set_base (b : Z) (p : PF) : PF := Pf (ap p) (charcount p) (in_pct p) (sz p) (num p) (sign p) (spacing p) (rightspc p) (fillchar p) b (baseprefix p) (altformat p).
Definition set_prefix (p : PF) : PF := Pf (ap p) (charcount p) (in_pct p) (sz p) (num p) (sign p) (spacing p) (rightspc p) (fillchar p) (base p) true (altformat p).
Definition set_ap (l : list arg) (p : PF) : PF := Pf l (charcount p) (in_pct p) (sz p) (num p) (sign p) (spacing p) (rightspc p) (fillchar p) (base p) (baseprefix p) (altformat p).
Definition set_pct (p : PF) : PF := Pf (ap p) (charcount p) true (sz p) (num p) (sign p) (spacing p) (rightspc p) (fillchar p) (base p) (baseprefix p) (altformat p).

Definition __pf_modifier (ch : Z) : M (job S) unit :=
  if ch =? 35 then upd set_alt
  else if ch =? 45 then upd set_right
  else if ch =? 108 then upd (λ p, set_size (if decide (sz p = LONGSZ) then LLONGSZ else LONGSZ) p)
  else if ch =? 48 then
    p ← get_pf;
    if 0 <? spacing p then n ← int_ (spacing p * 10); upd (set_spacing n) else upd (set_fill 48)
  else
    kassert ((48 <? ch) && (ch <=? 57));;
    p ← get_pf; n ← int_ (spacing p * 10); n ← int_ (n + (ch - 48)); upd (set_spacing n).

(** [va_arg]. *)
Definition va_arg : M (job S) arg :=
  p ← get_pf;
  match ap p with
  | [] => undef
  | a :: l => upd (set_ap l);; mret a
  end.
Definition va_word : M (job S) Z := a ← va_arg; match a with AWord w => mret w | _ => undef end.
Definition va_llong : M (job S) Z := a ← va_arg; match a with ALlong w => mret w | _ => undef end.
Definition va_str : M (job S) (option (list Z)) := a ← va_arg; match a with AStr s => mret s | _ => undef end.

Definition __pf_getnum (ch : Z) : M (job S) unit :=
  p ← get_pf;
  if ch =? 112 then w ← va_word; upd (set_num w (sign p))
  else if ch =? 100 then
    signednum ← (match sz p with INTSZ | LONGSZ => w ← va_word; mret (s32 w) | LLONGSZ => w ← va_llong; mret (s64 w) end);
    if signednum <? 0 then
      if signednum =? - 2 ^ 63 then undef else upd (set_num (- signednum) true)
    else upd (set_num signednum (sign p))
  else
    n ← (match sz p with INTSZ | LONGSZ => w ← va_word; mret (u32 w) | LLONGSZ => w ← va_llong; mret (wrapu 64 w) end);
    upd (set_num n (sign p)).

Definition __pf_setbase (ch : Z) : M (job S) unit :=
  (if (ch =? 100) || (ch =? 117) then upd (set_base 10)
   else if (ch =? 120) || (ch =? 112) then upd (set_base 16)
   else if ch =? 111 then upd (set_base 8) else mret tt);;
  p ← get_pf;
  if altformat p || (ch =? 112) then upd set_prefix else mret tt.

Definition __pf_fill (spc : Z) : M (job S) unit :=
  p ← get_pf; for_do (Z.to_nat spc) 0 (λ _, __pf_print [fillchar p]).

Definition __pf_printstuff (prefix prefix2 stuff : list Z) : M (job S) unit :=
  let len := Z.of_nat (length prefix + length prefix2 + length stuff) in
  p ← get_pf;
  let spc := if len <? spacing p then spacing p - len else 0 in
  (if (0 <? spc) && negb (rightspc p) && negb (fillchar p =? 48) then __pf_fill spc else mret tt);;
  __pf_print prefix;;
  __pf_print prefix2;;
  (if (0 <? spc) && negb (rightspc p) && (fillchar p =? 48) then __pf_fill spc else mret tt);;
  __pf_print stuff;;
  (if (0 <? spc) && rightspc p then __pf_fill spc else mret tt).

Definition digits : list Z := [48; 49; 50; 51; 52; 53; 54; 55; 56; 57; 97; 98; 99; 100; 101; 102].
(** The conversion, from right to left; [None] is a byte that was not written. *)
Fixpoint convert (n : nat) (b xnum x : Z) (buf : list (option Z)) : M (job S) (Z * list (option Z)) :=
  match n with
  | O => diverge
  | Datatypes.S n =>
      if b =? 0 then undef
      else
        d ← of_opt (zget digits (xnum mod b));
        buf ← of_opt (zset x (Some d) buf);
        if 0 <? xnum / b then convert n b (xnum / b) (x - 1) buf else mret (x - 1, buf)
  end.
Definition __pf_printnum : M (job S) unit :=
  p ← get_pf;
  let x := NUMBER_BUF_SIZE - 1 in
  buf ← of_opt (zset x (Some 0) (replicate (Z.to_nat NUMBER_BUF_SIZE) None));
  '(x, buf) ← convert 64 (base p) (num p) (x - 1) buf;
  let x := x + 1 in
  let bprefix := if baseprefix p && (base p =? 16) then [48; 120] else if baseprefix p && (base p =? 8) then [48] else [] in
  let sprefix := if sign p then [45] else [] in
  txt ← of_opt (mapM id (drop (Z.to_nat x) buf));
  __pf_printstuff sprefix bprefix (cstr txt).

Definition null_txt : list Z := [40; 110; 117; 108; 108; 41].
Definition __pf_send (ch : Z) : M (job S) unit :=
  kassert (negb (ch =? 0));;
  p ← get_pf;
  if negb (in_pct p) && negb (ch =? 37) then __pf_print [ch]
  else if negb (in_pct p) then upd set_pct
  else if bool_decide (ch ∈ [35; 45; 108; 48; 49; 50; 51; 52; 53; 54; 55; 56; 57]) then __pf_modifier ch
  else if bool_decide (ch ∈ [100; 111; 117; 112; 120]) then
    __pf_getnum ch;; __pf_setbase ch;; __pf_printnum;; __pf_endfield
  else if ch =? 115 then
    s ← va_str;
    __pf_printstuff [] [] (default null_txt s);; __pf_endfield
  else
    x ← (if ch =? 99 then w ← va_word; mret (u8 w) else mret ch);
    __pf_printstuff [] [] (cstr [x]);; __pf_endfield.

Fixpoint send_all (format : list Z) : M (job S) unit :=
  match format with
  | [] => mret tt
  | ch :: format => __pf_send ch;; send_all format
  end.
Definition start (l : list arg) : PF := endfield (Pf l 0 false INTSZ 0 false 0 false 0 0 false false).
Definition __vprintf (format : list Z) (l : list arg) : M S Z := λ c,
  match (send_all (cstr format);; gets (λ j, charcount (pf j))) (Job (start l) c) with
  | Ok (n, j) => Ok (n, client j)
  | Panic => Panic | Undef => Undef | Diverge => Diverge
  end.
End printf.

(** ** Into a buffer *)
Record SNP := Snp { buf : list Z; buflen : Z; bufpos : Z }.
#[export] Instance snprintf_send : Sink SNP := λ data,
  for_do (length data) 0 (λ i,
    s ← getS;
    if bufpos s <? buflen s then
      c ← of_opt (zget data i);
      b ← of_opt (zset (bufpos s) c (buf s));
      putS (Snp b (buflen s) (bufpos s + 1))
    else mret tt).
Definition vsnprintf (b : list Z) (len : Z) (fmt : list Z) (l : list arg) : res (Z * list Z) :=
  match __vprintf fmt l (Snp b (if len =? 0 then 0 else len - 1) 0) with
  | Ok (chars, s) =>
      if 0 <? len then match zset (bufpos s) 0 (buf s) with Some b => Ok (chars, b) | None => Undef end else Ok (chars, buf s)
  | Panic => Panic | Undef => Undef | Diverge => Diverge
  end.

(** ** To the console *)
#[export] Instance console_send : Sink (list Z) := λ data,
  for_do (length data) 0 (λ i, c ← of_opt (zget data i); modify (λ out, out ++ [c])).
