(* ===== verification/PrintfSpec.v ===== *)
(** What formatted output prints: the characters that [__pf_send] takes one at a time, with
    the state of a field in between, come out as the text of a renderer on lists; numbers
    are written in their base, fit the buffer, and [atoi] reads them back; [snprintf] stays
    inside its buffer. *)

From stdpp Require Import base tactics numbers list gmap.
From S2P Require Import Prelude KernDefs CString Printf.
Local Open Scope Z_scope.

(** * The reference *)
Record flags := Flags { f_alt : bool; f_left : bool; f_size : intsize; f_fill : Z; f_width : Z }.
Definition flags0 : flags := Flags false false INTSZ 32 0.

Definition digit_char (d : Z) : Z := if d <? 10 then 48 + d else 87 + d.
(** The digits of [x] in base [b], of which there are at most [n]. *)
Fixpoint numeral (n : nat) (b x : Z) : list Z :=
  match n with
  | O => []
  | S n => (if x <? b then [] else numeral n b (x / b)) ++ [digit_char (x mod b)]
  end.
(** A text in a field. *)
Definition field (fl : flags) (prefix body : list Z) : list Z :=
  let pad := replicate (Z.to_nat (f_width fl - Z.of_nat (length prefix + length body))) (f_fill fl) in
  if f_left fl then prefix ++ body ++ pad
  else if f_fill fl =? 48 then prefix ++ pad ++ body
  else pad ++ prefix ++ body.

Definition int_fits (z : Z) : bool := (-2147483648 <=? z) && (z <=? 2147483647).
Definition modified (ch : Z) (fl : flags) : option flags :=
  if ch =? 35 then Some (Flags true (f_left fl) (f_size fl) (f_fill fl) (f_width fl))
  else if ch =? 45 then Some (Flags (f_alt fl) true (f_size fl) (f_fill fl) (f_width fl))
  else if ch =? 108 then Some (Flags (f_alt fl) (f_left fl) (if decide (f_size fl = LONGSZ) then LLONGSZ else LONGSZ) (f_fill fl) (f_width fl))
  else if (ch =? 48) && negb (0 <? f_width fl) then Some (Flags (f_alt fl) (f_left fl) (f_size fl) 48 (f_width fl))
  else if int_fits (f_width fl * 10 + (ch - 48)) then Some (Flags (f_alt fl) (f_left fl) (f_size fl) (f_fill fl) (f_width fl * 10 + (ch - 48)))
  else None.
(** Sign and magnitude of the next argument. *)
Definition number (ch : Z) (size : intsize) (l : list arg) : option (bool * Z * list arg) :=
  match l with
  | AWord w :: l =>
      if ch =? 112 then Some (false, w, l)
      else if decide (size = LLONGSZ) then None
      else if ch =? 100 then Some (s32 w <? 0, Z.abs (s32 w), l) else Some (false, u32 w, l)
  | ALlong w :: l =>
      if ch =? 112 then None
      else if decide (size = LLONGSZ) then
        if ch =? 100 then (if s64 w =? - 2 ^ 63 then None else Some (s64 w <? 0, Z.abs (s64 w), l)) else Some (false, wrapu 64 w, l)
      else None
  | _ => None
  end.
Definition base_of (ch : Z) : Z := if (ch =? 120) || (ch =? 112) then 16 else if ch =? 111 then 8 else 10.
Definition prefix_of (ch : Z) (fl : flags) (neg : bool) : list Z :=
  (if neg then [45] else []) ++
  (if f_alt fl || (ch =? 112) then (if base_of ch =? 16 then [48; 120] else if base_of ch =? 8 then [48] else []) else []).
(** The text of a field, and the arguments that are left. *)
Definition render_field (ch : Z) (fl : flags) (l : list arg) : option (list Z * list arg) :=
  if bool_decide (ch ∈ [100; 111; 117; 112; 120]) then
    '(neg, n, l) ← number ch (f_size fl) l;
    Some (field fl (prefix_of ch fl neg) (numeral 64 (base_of ch) n), l)
  else if ch =? 115 then
    match l with AStr s :: l => Some (field fl [] (default null_txt s), l) | _ => None end
  else if ch =? 99 then
    match l with AWord w :: l => Some (field fl [] (cstr [u8 w]), l) | _ => None end
  else Some (field fl [] [ch], l).
Fixpoint render (st : option flags) (f : list Z) (l : list arg) : option (list Z) :=
  match f with
  | [] => Some []
  | ch :: f =>
      match st with
      | None => if ch =? 37 then render (Some flags0) f l else (app [ch]) <$> render None f l
      | Some fl =>
          if bool_decide (ch ∈ [35; 45; 108; 48; 49; 50; 51; 52; 53; 54; 55; 56; 57]) then fl ← modified ch fl; render (Some fl) f l
          else '(txt, l) ← render_field ch fl l; (app txt) <$> render None f l
      end
  end.

(** * Numbers *)
Definition digit_val (c : Z) : Z := if c <? 58 then c - 48 else c - 87.
Definition value (b : Z) (ds : list Z) : Z := foldl (λ v c, v * b + digit_val c) 0 ds.
Lemma value_snoc b ds c : value b (ds ++ [c]) = value b ds * b + digit_val c.
Proof. unfold value. by rewrite foldl_app. Qed.
Lemma digit_val_char d : 0 ≤ d < 16 → digit_val (digit_char d) = d.
Proof. intros Hd. unfold digit_val, digit_char. destruct (Z.ltb_spec d 10); [rewrite (proj2 (Z.ltb_lt _ _)) by lia|rewrite (proj2 (Z.ltb_ge _ _)) by lia]; lia. Qed.
Lemma digits_char d : 0 ≤ d < 16 → zget digits d = Some (digit_char d).
Proof.
  intros Hd. assert (d ∈ seqZ 0 16) as Hin by (apply elem_of_seqZ; lia). cbv in Hin. repeat (apply elem_of_cons in Hin as [->|Hin]; [done|]). by apply elem_of_nil in Hin.
Qed.

Section base.
Context (b : Z).
Hypothesis Hb : 2 ≤ b ≤ 16.
Lemma numeral_value n : ∀ x, 0 ≤ x < b ^ Z.of_nat n → value b (numeral n b x) = x.
Proof using Hb.
  induction n as [|n IH]; intros x Hx; cbn [numeral].
  { change (b ^ Z.of_nat 0) with 1 in Hx. assert (x = 0) as -> by lia. done. }
  rewrite Nat2Z.inj_succ, Z.pow_succ_r in Hx by lia. pose proof (Z.mod_pos_bound x b ltac:(lia)). rewrite value_snoc, digit_val_char by lia.
  pose proof (Z.div_mod x b ltac:(lia)). destruct (Z.ltb_spec x b).
  - rewrite Z.div_small in * by lia. change (value b []) with 0. lia.
  - rewrite IH; [lia|]. split; [apply Z.div_pos; lia|apply Z.div_lt_upper_bound; lia].
Qed.
Lemma numeral_length n : ∀ k x, 0 ≤ x < b ^ Z.of_nat k → (1 ≤ k)%nat → (length (numeral n b x) ≤ k)%nat.
Proof using Hb.
  induction n as [|n IH]; intros k x Hx Hk; cbn [numeral]; [simpl; lia|]. rewrite length_app. simpl. destruct (Z.ltb_spec x b); [simpl; lia|].
  destruct k as [|[|k]]; [lia|change (b ^ Z.of_nat 1) with (b * 1) in Hx; lia|]. assert (length (numeral n b (x / b)) ≤ S k)%nat; [|lia].
  apply IH; [|lia]. rewrite Nat2Z.inj_succ, Z.pow_succ_r in Hx by lia. split; [apply Z.div_pos; lia|apply Z.div_lt_upper_bound; lia].
Qed.
Lemma numeral_chars n x : Forall (λ c, 0 < c < 256) (numeral n b x).
Proof using Hb.
  revert x. induction n as [|n IH]; intros x; cbn [numeral]; [constructor|]. apply Forall_app. split; [destruct (x <? b); [constructor|apply IH]|].
  constructor; [|constructor]. pose proof (Z.mod_pos_bound x b ltac:(lia)). unfold digit_char. destruct (Z.ltb_spec (x mod b) 10); lia.
Qed.
(** The loop of [__pf_printnum] fills the buffer from the right. *)
Lemma convert_eq {S} (j : job S) n : ∀ x pre suf, 0 ≤ x < b ^ Z.of_nat n → (length (numeral n b x) ≤ length pre)%nat → (1 ≤ n)%nat →
  convert n b x (Z.of_nat (length pre) - 1) (pre ++ suf) j =
  Ok ((Z.of_nat (length pre - length (numeral n b x)) - 1, take (length pre - length (numeral n b x)) pre ++ (Some <$> numeral n b x) ++ suf), j).
Proof using Hb.
  induction n as [|n IH]; intros x pre suf Hx Hl Hn; [lia|]. cbn [convert]. rewrite (proj2 (Z.eqb_neq b 0)) by lia. pose proof (Z.mod_pos_bound x b ltac:(lia)) as Hm.
  rewrite (bind_of_opt _ _ (digit_char (x mod b))) by (apply digits_char; lia). cbn [numeral] in *. rewrite length_app in Hl. simpl in Hl.
  destruct pre as [|e pre' _] using rev_ind; [simpl in Hl; lia|].
  rewrite length_app in *. cbn [length] in *. set (d := digit_char (x mod b)).
  assert (zset (Z.of_nat (length pre' + 1) - 1) (Some d) ((pre' ++ [e]) ++ suf) = Some (pre' ++ Some d :: suf)) as Ez.
  { replace (Z.of_nat (length pre' + 1) - 1) with (Z.of_nat (length pre')) by lia. rewrite zset_nat by (rewrite !length_app; simpl; lia).
    rewrite <-app_assoc. simpl. by rewrite insert_mid. }
  rewrite (bind_of_opt _ _ _ _ Ez). destruct (Z.ltb_spec x b) as [Hs|Hs].
  - rewrite Z.div_small by lia. change (0 <? 0) with false. cbv iota. cbn [length app fmap list_fmap]. rewrite Nat.add_sub, take_app_length.
    by replace (Z.of_nat (length pre' + 1) - 1 - 1) with (Z.of_nat (length pre') - 1) by lia.
  - assert (1 ≤ x / b) by (apply Z.div_le_lower_bound; lia). rewrite (proj2 (Z.ltb_lt _ _)) by lia.
    assert (1 ≤ n)%nat. { destruct n as [|n]; [|lia]. change (b ^ Z.of_nat 1) with (b * 1) in Hx. lia. }
    rewrite Nat2Z.inj_succ, Z.pow_succ_r in Hx by lia. replace (Z.of_nat (length pre' + 1) - 1 - 1) with (Z.of_nat (length pre') - 1) by lia.
    rewrite IH; [|split; [lia|apply Z.div_lt_upper_bound; lia]|lia|done]. rewrite length_app. cbn [length].
    replace (length pre' + 1 - (length (numeral n b (x / b)) + 1))%nat with (length pre' - length (numeral n b (x / b)))%nat by lia.
    rewrite take_app_le by lia. by rewrite fmap_app, <-app_assoc.
Qed.
End base.

#[local] Opaque numeral convert.

(** * Sinks *)
(** A sink that has been sent [out]. *)
Class SinkOk (S : Type) {SK : Sink S} := {
  shows : list Z → S → Prop;
  send_shows out c txt : shows out c → wp (sendfunc txt) (λ _, shows (out ++ txt)) c;
}.

Section sim.
Context {S : Type} {SK : Sink S} {SO : SinkOk S}.

(** [out] was sent and [n] characters were counted; the rest of the state is that of [p]. *)
Definition cnt (n : nat) (p : PF) : PF :=
  Pf (ap p) (s32 (Z.of_nat n)) (in_pct p) (sz p) (num p) (sign p) (spacing p) (rightspc p) (fillchar p) (base p) (baseprefix p) (altformat p).
Definition told (out : list Z) (n : nat) (p : PF) (j : job S) : Prop := pf j = cnt n p ∧ shows out (client j).

Lemma s32_add a c : s32 (s32 a + c) = s32 (a + c).
Proof using. unfold wraps. f_equal. replace (_ - _ + c + _) with ((a + 2 ^ (32 - 1)) mod 2 ^ 32 + c) by lia. rewrite Z.add_mod_idemp_l by done. f_equal. lia. Qed.
Lemma told_cast out n p j out' n' : told out n p j → out = out' → n = n' → told out' n' p j.
Proof using. by intros H -> ->. Qed.

Lemma wp_pf_print out n p txt j : told out n p j → wp (__pf_print txt) (λ _, told (out ++ txt) (n + length txt) p) j.
Proof using.
  intros [E Hs]. unfold __pf_print. apply wp_bind_2, wp_zoom. eapply wp_mono; [by apply send_shows|]. intros [] c' Hc. unfold upd. apply wp_modify. split; [|done].
  simpl. rewrite E. unfold cnt. simpl. by rewrite s32_add, <-Nat2Z.inj_add.
Qed.
Lemma wp_pf_fill out n p j spc : told out n p j → 0 ≤ spc →
  wp (__pf_fill spc) (λ _, told (out ++ replicate (Z.to_nat spc) (fillchar p)) (n + Z.to_nat spc) p) j.
Proof using.
  intros Ht Hspc. unfold __pf_fill, get_pf. apply wp_bind_2, wp_gets. pose proof Ht as [-> _].
  apply (wp_for_do (λ i, told (out ++ replicate (Z.to_nat i) (fillchar p)) (n + Z.to_nat i) p)).
  - by rewrite app_nil_r, Nat.add_0_r.
  - intros i j' Hi Hj. eapply wp_mono; [by apply wp_pf_print|]. intros [] j'' Hj'. rewrite <-app_assoc in Hj'. simpl in Hj'.
    replace (Z.to_nat (i + 1)) with (Datatypes.S (Z.to_nat i)) by lia. rewrite replicate_S_end. by replace (n + Datatypes.S (Z.to_nat i))%nat with (n + Z.to_nat i + 1)%nat by lia.
  - intros j' Hj. by rewrite Z.add_0_l, Z2Nat.id in Hj.
Qed.
Lemma wp_fill_if out n p j (c : bool) spc : told out n p j → 0 ≤ spc →
  wp (if c then __pf_fill spc else mret tt) (λ _, told (out ++ (if c then replicate (Z.to_nat spc) (fillchar p) else [])) (n + length (if c then replicate (Z.to_nat spc) (fillchar p) else [])) p) j.
Proof using.
  intros Ht Hs. destruct c; [rewrite length_replicate; by apply wp_pf_fill|]. apply wp_ret. by rewrite app_nil_r, Nat.add_0_r.
Qed.
(** The flags of a field in the state. *)
Definition in_field (fl : flags) (p : PF) : Prop := spacing p = f_width fl ∧ rightspc p = f_left fl ∧ fillchar p = f_fill fl.
Lemma wp_printstuff out n p j fl pre pre2 stuff : told out n p j → in_field fl p →
  wp (__pf_printstuff pre pre2 stuff) (λ _, told (out ++ field fl (pre ++ pre2) stuff) (n + length (field fl (pre ++ pre2) stuff)) p) j.
Proof using.
  intros Ht (F1 & F2 & F3). unfold __pf_printstuff, get_pf. apply wp_bind_2, wp_gets. pose proof Ht as [-> _]. cbn [cnt spacing rightspc fillchar]. rewrite F1, F2, F3.
  set (len := Z.of_nat _). set (spc := if len <? f_width fl then f_width fl - len else 0).
  assert (0 ≤ spc ∧ Z.to_nat spc = Z.to_nat (f_width fl - Z.of_nat (length (pre ++ pre2) + length stuff))) as [Hspc Epad].
  { unfold spc, len. rewrite length_app. destruct (Z.ltb_spec (Z.of_nat (length pre + length pre2 + length stuff)) (f_width fl)); split; lia. }
  assert (∀ c : bool, (if (0 <? spc) && c then replicate (Z.to_nat spc) (f_fill fl) else []) = if c then replicate (Z.to_nat spc) (f_fill fl) else []) as Hif.
  { intros c. destruct (Z.ltb_spec 0 spc); [done|]. assert (spc = 0) as -> by lia. by destruct c. }
  do 6 (first [eapply wp_bind_2|idtac]; eapply wp_mono; [first [by eapply wp_fill_if|by eapply wp_pf_print]|clear Ht; intros [] ? Ht]).
  rewrite F3 in Ht. rewrite <-!andb_assoc in Ht. rewrite !Hif in Ht. unfold field. rewrite <-Epad. eapply told_cast; [exact Ht|..].
  - destruct (f_left fl); cbn [negb andb]; [|destruct (f_fill fl =? 48); cbn [negb]]; by rewrite ?app_nil_r, <-?app_assoc.
  - destruct (f_left fl); cbn [negb andb]; [|destruct (f_fill fl =? 48); cbn [negb]]; rewrite !length_app; simpl; lia.
Qed.

Lemma wp_upd out n p j f p' : told out n p j → f (cnt n p) = cnt n p' → wp (upd f) (λ _, told out n p') j.
Proof using. intros [E Hs] Hf. unfold upd. apply wp_modify. split; [simpl; by rewrite E|done]. Qed.

Definition bprefix (p : PF) : list Z := if baseprefix p && (base p =? 16) then [48; 120] else if baseprefix p && (base p =? 8) then [48] else [].
(** The text that the conversion leaves in the buffer. *)
Lemma convert_number j b x : 8 ≤ b ≤ 16 → 0 ≤ x < 2 ^ 64 →
  ∃ y l, convert (S := S) 64 b x 21 (replicate 22 None ++ [Some 0]) j = Ok ((y, l), j) ∧
    mapM id (drop (Z.to_nat (y + 1)) l) = Some (numeral 64 b x ++ [0]) ∧ cstr (numeral 64 b x ++ [0]) = numeral 64 b x.
Proof using.
  intros Hb Hx. assert (0 ≤ x < b ^ Z.of_nat 22) as H22.
  { pose proof (Z.pow_le_mono_l 8 b 22 ltac:(lia)) as H. change (Z.of_nat 22) with 22. change (2 ^ 64) with 18446744073709551616 in Hx.
    change (8 ^ 22) with 73786976294838206464 in H. lia. }
  assert (0 ≤ x < b ^ Z.of_nat 64) as H64.
  { pose proof (Z.pow_le_mono_r b 22 64 ltac:(lia) ltac:(lia)) as H. change (Z.of_nat 22) with 22 in H22. change (Z.of_nat 64) with 64. lia. }
  assert (2 ≤ b ≤ 16) as Hb2 by lia. pose proof (numeral_length b Hb2 64 22 x H22 ltac:(lia)) as Hlen. pose proof (numeral_chars b Hb2 64 x) as Hc.
  pose proof (convert_eq b Hb2 j 64 x (replicate 22 None) [Some 0] H64) as E. clear H22 H64. generalize dependent (numeral 64 b x). intros ds Hlen Hc E.
  rewrite length_replicate in E. eexists _, _. split; [apply E; lia|]. split.
  - replace (Z.to_nat _) with (22 - length ds)%nat by lia. rewrite take_replicate, drop_app_length' by (rewrite length_replicate; lia).
    apply mapM_Some. apply Forall2_app; [|by constructor]. apply Forall2_fmap_l, Forall_Forall2_diag. by apply Forall_true.
  - apply cstr_end. eapply Forall_impl; [exact Hc|]. intros c Hcc. simpl in Hcc. lia.
Qed.
Lemma wp_printnum out n p j fl txt : told out n p j → in_field fl p → 8 ≤ base p ≤ 16 → 0 ≤ num p < 2 ^ 64 →
  txt = field fl ((if sign p then [45] else []) ++ bprefix p) (numeral 64 (base p) (num p)) →
  wp __pf_printnum (λ _, told (out ++ txt) (n + length txt) p) j.
Proof using.
  intros Ht Hf Hb Hn ->. unfold __pf_printnum, get_pf. apply wp_bind_2, wp_gets. pose proof Ht as [-> _]. cbn [cnt base num sign baseprefix].
  destruct (convert_number j (base p) (num p) Hb Hn) as (y & l & E & El & Ec). generalize dependent (numeral 64 (base p) (num p)). intros ds El Ec.
  apply wp_bind_2. apply (wp_of_opt _ (replicate 22 None ++ [Some 0])); [done|]. apply wp_bind_2. eapply wp_eq; [exact E|]. cbv beta iota zeta.
  apply wp_bind_2. eapply wp_of_opt; [exact El|]. rewrite Ec. by apply wp_printstuff.
Qed.

(** ** Arguments *)
Definition arg_ok (a : arg) : Prop := match a with AWord w => 0 ≤ w < 2 ^ 32 | _ => True end.
(** The state between two characters. *)
Definition pf_of (st : option flags) (l : list arg) : PF :=
  match st with
  | None => Pf l 0 false INTSZ 0 false 0 false 32 0 false false
  | Some fl => Pf l 0 true (f_size fl) 0 false (f_width fl) (f_left fl) (f_fill fl) 0 false (f_alt fl)
  end.
Lemma wp_va_arg out n p j a l : told out n p j → ap p = a :: l → wp va_arg (λ r j', r = a ∧ told out n (set_ap l p) j') j.
Proof using.
  intros Ht E. unfold va_arg, get_pf. apply wp_bind_2, wp_gets. pose proof Ht as [-> _]. cbn [cnt ap]. rewrite E. apply wp_bind_2.
  eapply wp_mono; [by eapply (wp_upd _ _ _ _ _ (set_ap l p))|]. intros [] j' Hj. by apply wp_ret.
Qed.
Lemma wp_va_word out n p j w l : told out n p j → ap p = AWord w :: l → wp va_word (λ r j', r = w ∧ told out n (set_ap l p) j') j.
Proof using. intros Ht E. unfold va_word. apply wp_bind_2. eapply wp_mono; [by eapply wp_va_arg|]. intros r j' [-> Hj]. by apply wp_ret. Qed.
Lemma wp_va_llong out n p j w l : told out n p j → ap p = ALlong w :: l → wp va_llong (λ r j', r = w ∧ told out n (set_ap l p) j') j.
Proof using. intros Ht E. unfold va_llong. apply wp_bind_2. eapply wp_mono; [by eapply wp_va_arg|]. intros r j' [-> Hj]. by apply wp_ret. Qed.
Lemma number_range ch size l neg x l' : number ch size l = Some (neg, x, l') → Forall arg_ok l → 0 ≤ x < 2 ^ 64.
Proof using.
  unfold number. destruct l as [|[w|w|s] l]; [done| | |done]; intros H [Ha _]%Forall_cons; simpl in Ha.
  - repeat case_match; simplify_eq; [lia|pose proof (s32_range w); lia|pose proof (u32_range w); lia].
  - repeat case_match; simplify_eq; [|pose proof (wrapu_range 64 w ltac:(lia)); lia]. pose proof (wraps_range 64 w ltac:(lia)). change (2 ^ (64 - 1)) with (2 ^ 63) in *. lia.
Qed.
Lemma wp_getnum out n fl l j ch neg x l' : told out n (pf_of (Some fl) l) j → number ch (f_size fl) l = Some (neg, x, l') →
  wp (__pf_getnum ch) (λ _, told out n (set_num x neg (pf_of (Some fl) l'))) j.
Proof using.
  intros Ht Hn. unfold __pf_getnum, get_pf. apply wp_bind_2, wp_gets. pose proof Ht as [-> _]. change (sign (cnt n (pf_of (Some fl) l))) with false. change (sz (cnt n (pf_of (Some fl) l))) with (f_size fl).
  assert (∀ y s j', told out n (pf_of (Some fl) l') j' → y = x → s = neg → wp (upd (set_num y s)) (λ _, told out n (set_num x neg (pf_of (Some fl) l'))) j') as Hup.
  { intros y s j' Hj -> ->. by eapply wp_upd. }
  (** The two cases of a signed number. *)
  assert (∀ sn j', told out n (pf_of (Some fl) l') j' → sn ≠ - 2 ^ 63 → x = Z.abs sn → neg = (sn <? 0) →
    wp (if sn <? 0 then if sn =? - 2 ^ 63 then undef else upd (set_num (- sn) true) else upd (set_num sn false)) (λ _, told out n (set_num x neg (pf_of (Some fl) l'))) j') as Hsg.
  { intros sn j' Hj Hm -> ->. destruct (Z.ltb_spec sn 0); [rewrite (proj2 (Z.eqb_neq _ _)) by done|]; apply Hup; (done || lia). }
  unfold number in Hn. destruct l as [|[w|w|s] l]; [done| | |done].
  - assert (∀ (g : Z → Z) (m : M (job S) Z) Q, f_size fl ≠ LLONGSZ → (∀ j', told out n (pf_of (Some fl) l) j' → Q (g w) j') →
      wp (match f_size fl with INTSZ | LONGSZ => w ← va_word; mret (g w) | LLONGSZ => m end) Q j) as Hw.
    { intros g m Q Hs H. destruct (f_size fl) eqn:E; [| |done]; apply wp_bind_2; (eapply wp_mono; [by eapply wp_va_word|]); intros r j' [-> Hj]; by apply wp_ret, H. }
    destruct (ch =? 112); [simplify_eq; apply wp_bind_2; (eapply wp_mono; [by eapply wp_va_word|]); intros r j' [-> Hj]; by apply Hup|].
    destruct (decide (f_size fl = LLONGSZ)) as [|Hsz]; [done|]. pose proof (s32_range w).
    destruct (ch =? 100); simplify_eq; apply wp_bind_2; apply Hw; [done|intros j' Hj; apply Hsg; (done || lia)|done|intros j' Hj; by apply Hup].
  - destruct (ch =? 112); [done|]. destruct (decide (f_size fl = LLONGSZ)) as [Hsz|]; [|done]. rewrite Hsz.
    destruct (ch =? 100); [destruct (Z.eqb_spec (s64 w) (- 2 ^ 63)) as [|Hm]; [done|]|]; simplify_eq;
      apply wp_bind_2, wp_bind_2; (eapply wp_mono; [by eapply wp_va_llong|]); intros r j' [-> Hj]; apply wp_ret; [by apply Hsg|by apply Hup].
Qed.

(** ** One character *)
Definition prefixed (ch : Z) (fl : flags) (p : PF) : PF := (if f_alt fl || (ch =? 112) then set_prefix else id) (set_base (base_of ch) p).
Lemma wp_setbase out n p j ch fl : told out n p j → altformat p = f_alt fl → ch ∈ [100; 111; 117; 112; 120] →
  wp (__pf_setbase ch) (λ _, told out n (prefixed ch fl p)) j.
Proof using.
  intros Ht Ha Hin. unfold __pf_setbase. apply wp_bind_2.
  assert (wp (if (ch =? 100) || (ch =? 117) then upd (set_base 10) else if (ch =? 120) || (ch =? 112) then upd (set_base 16) else if ch =? 111 then upd (set_base 8) else mret tt)
    (λ _, told out n (set_base (base_of ch) p)) j) as Hb.
  { repeat (apply elem_of_cons in Hin as [->|Hin]; [by eapply wp_upd|]). by apply elem_of_nil in Hin. }
  eapply wp_mono; [exact Hb|]. intros [] j' Hj. apply wp_bind_2. unfold get_pf. apply wp_gets. pose proof Hj as [-> _]. cbn [cnt set_base altformat]. rewrite Ha.
  unfold prefixed. destruct (f_alt fl || (ch =? 112)); [by eapply wp_upd|by apply wp_ret].
Qed.
Lemma prefix_ok ch fl neg x l : bprefix (prefixed ch fl (set_num x neg (pf_of (Some fl) l))) =
  if f_alt fl || (ch =? 112) then (if base_of ch =? 16 then [48; 120] else if base_of ch =? 8 then [48] else []) else [].
Proof using. unfold prefixed, bprefix. by destruct (f_alt fl || (ch =? 112)). Qed.
Lemma base_of_range ch : 8 ≤ base_of ch ≤ 16.
Proof using. unfold base_of. repeat case_match; lia. Qed.

Lemma wp_endfield out n p j : told out n p j → wp __pf_endfield (λ _, told out n (pf_of None (ap p))) j.
Proof using. intros Ht. unfold __pf_endfield. by eapply wp_upd. Qed.
Lemma wp_int z (Q : Z → job S → Prop) j : int_fits z = true → Q z j → wp (int_ z) Q j.
Proof using. intros H HQ. unfold int_. unfold int_fits in H. rewrite H. by apply wp_ret. Qed.

Lemma wp_modifier out n fl l j ch fl' : told out n (pf_of (Some fl) l) j → modified ch fl = Some fl' → 0 ≤ f_width fl →
  ch ∈ [35; 45; 108; 48; 49; 50; 51; 52; 53; 54; 55; 56; 57] → wp (__pf_modifier ch) (λ _, told out n (pf_of (Some fl') l)) j ∧ 0 ≤ f_width fl'.
Proof using.
  intros Ht Hm Hw Hin. unfold modified in Hm. unfold __pf_modifier.
  destruct (Z.eqb_spec ch 35); [simplify_eq; split; [by eapply wp_upd|done]|]. destruct (Z.eqb_spec ch 45); [simplify_eq; split; [by eapply wp_upd|done]|].
  destruct (Z.eqb_spec ch 108); [simplify_eq; split; [by eapply wp_upd|done]|].
  assert (48 ≤ ch ≤ 57) as Hd by (repeat (apply elem_of_cons in Hin as [->|Hin]; [lia|]); by apply elem_of_nil in Hin).
  assert (∀ z, 0 ≤ z → int_fits (z * 10 + (ch - 48)) = true → int_fits (z * 10) = true) as Hfit by (unfold int_fits; intros; blia).
  assert (gets pf j = Ok (cnt n (pf_of (Some fl) l), j)) as Eg by (unfold gets; by destruct Ht as [-> _]).
  destruct (Z.eqb_spec ch 48) as [->|Hne]; cbn [andb] in Hm.
  - split; [apply wp_bind_2; eapply wp_eq; [exact Eg|]; change (spacing (cnt n (pf_of (Some fl) l))) with (f_width fl)|].
    + destruct (0 <? f_width fl); cbn [negb] in Hm; [|simplify_eq; by eapply wp_upd]. destruct (int_fits _) eqn:Ef; [|done]. simplify_eq.
      apply wp_bind_2, wp_int; [by apply Hfit|]. rewrite Z.add_0_r. by eapply wp_upd.
    + repeat case_match; simplify_eq/=; lia.
  - destruct (int_fits _) eqn:Ef; [|done]. simplify_eq. split; [|simpl; lia]. apply wp_bind_2, wp_kassert; [blia|]. apply wp_bind_2.
    eapply wp_eq; [exact Eg|]. change (spacing (cnt n (pf_of (Some fl) l))) with (f_width fl). apply wp_bind_2, wp_int; [by apply Hfit|].
    apply wp_bind_2, wp_int; [done|]. by eapply wp_upd.
Qed.

Lemma render_args ch fl l txt l' : render_field ch fl l = Some (txt, l') → Forall arg_ok l → Forall arg_ok l'.
Proof using.
  unfold render_field. intros H Ha. destruct (bool_decide _).
  - destruct (number ch (f_size fl) l) as [[[neg x] l1]|] eqn:E; [|done]. injection H as _ <-. unfold number in E. destruct l as [|a l]; [done|].
    apply Forall_cons in Ha as [_ Ha]. by repeat case_match; simplify_eq.
  - repeat case_match; simplify_eq; try done; by apply Forall_cons in Ha as [_ Ha].
Qed.
(** The end of a field. *)
Lemma wp_stuff_end out n p j fl pre stuff txt : told out n p j → in_field fl p → txt = field fl pre stuff →
  wp (__pf_printstuff [] pre stuff;; __pf_endfield) (λ _, told (out ++ txt) (n + length txt) (pf_of None (ap p))) j.
Proof using.
  intros Ht Hf ->. apply wp_bind_2. eapply wp_mono; [by apply (wp_printstuff out n p j fl)|]. intros [] j' Hj. by apply wp_endfield.
Qed.
Lemma wp_send_field out n fl l j ch txt l' : told out n (pf_of (Some fl) l) j → render_field ch fl l = Some (txt, l') → Forall arg_ok l → ch ≠ 0 →
  ch ∉ [35; 45; 108; 48; 49; 50; 51; 52; 53; 54; 55; 56; 57] → wp (__pf_send ch) (λ _, told (out ++ txt) (n + length txt) (pf_of None l')) j.
Proof using.
  intros Ht Hr Ha H0 Hnm. unfold __pf_send. apply wp_bind_2, wp_kassert; [blia|]. apply wp_bind_2. unfold get_pf. apply wp_gets. pose proof Ht as [-> _].
  cbn [cnt in_pct pf_of negb andb]. rewrite bool_decide_false by done. unfold render_field in Hr. destruct (bool_decide _) eqn:Ed.
  - apply bool_decide_eq_true in Ed. destruct (number ch (f_size fl) l) as [[[neg x] l1]|] eqn:En; [|done]. simpl in Hr. injection Hr as <- <-.
    apply wp_bind_2. eapply wp_mono; [by eapply wp_getnum|]. clear Ht. intros [] j1 Ht. apply wp_bind_2. eapply wp_mono; [by apply (wp_setbase out n _ j1 ch fl Ht)|].
    clear Ht. intros [] j2 Ht. set (p := prefixed ch fl (set_num x neg (pf_of (Some fl) l1))) in *.
    assert (in_field fl p ∧ base p = base_of ch ∧ num p = x ∧ sign p = neg ∧ ap p = l1) as (F1 & F2 & F3 & F4 & F5) by (unfold p, prefixed, in_field; by destruct (f_alt fl || (ch =? 112))).
    apply wp_bind_2. eapply wp_mono; [eapply (wp_printnum _ _ p j2 fl _ Ht F1)|].
    + rewrite F2. apply base_of_range.
    + rewrite F3. by eapply number_range.
    + rewrite F2, F3, F4. unfold p. by rewrite prefix_ok.
    + intros [] j3 Hj. rewrite <-F5. by apply wp_endfield.
  - destruct (ch =? 115).
    + destruct l as [|[| |s] l]; try done. injection Hr as <- <-. apply wp_bind_2. unfold va_str. apply wp_bind_2. eapply wp_mono; [by eapply wp_va_arg|].
      intros r j' [-> Hj]. apply wp_ret. by eapply (wp_stuff_end _ _ (pf_of (Some fl) l)).
    + apply wp_bind_2. destruct (ch =? 99).
      * destruct l as [|[w| |s] l]; try done. injection Hr as <- <-. apply wp_bind_2. eapply wp_mono; [by eapply wp_va_word|].
        intros r j' [-> Hj]. apply wp_ret. by eapply (wp_stuff_end _ _ (pf_of (Some fl) l)).
      * simplify_eq. apply wp_ret. eapply (wp_stuff_end _ _ (pf_of (Some fl) l')); [done|done|]. cbn [cstr]. by rewrite (proj2 (Z.eqb_neq _ _)).
Qed.

(** ** The whole format *)
Lemma wp_send_all f : ∀ st l out n j txt, told out n (pf_of st l) j → render st f l = Some txt → Forall (λ c, c ≠ 0) f → Forall arg_ok l →
  match st with Some fl => 0 ≤ f_width fl | None => True end →
  wp (send_all f) (λ _ j', ∃ p', told (out ++ txt) (n + length txt) p' j') j.
Proof using.
  induction f as [|ch f IH]; intros st l out n j txt Ht Hr Hf Ha Hw; cbn [send_all render] in *.
  { simplify_eq. apply wp_ret. exists (pf_of st l). by rewrite app_nil_r, Nat.add_0_r. }
  apply Forall_cons in Hf as [H0 Hf].
  assert (∀ out1 n1 j1 l1 txt1 rest, told out1 n1 (pf_of None l1) j1 → Forall arg_ok l1 → render None f l1 = Some rest → out1 = out ++ txt1 → n1 = (n + length txt1)%nat →
    wp (send_all f) (λ _ j', ∃ p', told (out ++ txt1 ++ rest) (n + length (txt1 ++ rest)) p' j') j1) as Hgo.
  { intros out1 n1 j1 l1 txt1 rest Hj Hl E -> ->. rewrite app_assoc, length_app, Nat.add_assoc. by eapply (IH None l1). }
  apply wp_bind_2. destruct st as [fl|].
  - destruct (bool_decide _) eqn:Eb.
    + apply bool_decide_eq_true in Eb. destruct (modified ch fl) as [fl'|] eqn:Em; [|done]. simpl in Hr. destruct (wp_modifier _ _ _ _ _ _ _ Ht Em Hw Eb) as [H1 H2].
      assert (wp (__pf_send ch) (λ _, told out n (pf_of (Some fl') l)) j) as Hs.
      { unfold __pf_send. apply wp_bind_2, wp_kassert; [blia|]. apply wp_bind_2. unfold get_pf. apply wp_gets. pose proof Ht as [-> _].
        cbn [cnt in_pct pf_of negb andb]. by rewrite bool_decide_true. }
      eapply wp_mono; [exact Hs|]. intros [] j1 Hj. by eapply (IH (Some fl') l).
    + apply bool_decide_eq_false in Eb. destruct (render_field ch fl l) as [[t1 l1]|] eqn:Er; [|done]. simpl in Hr. destruct (render None f l1) as [rest|] eqn:Er2; [|done].
      simpl in Hr. injection Hr as <-. eapply wp_mono; [by eapply wp_send_field|]. intros [] j1 Hj. eapply Hgo; [exact Hj|by eapply render_args|done..].
  - assert (∀ Q, (if ch =? 37 then ∀ j1, told out n (pf_of (Some flags0) l) j1 → Q tt j1 else ∀ j1, told (out ++ [ch]) (n + 1) (pf_of None l) j1 → Q tt j1) → wp (__pf_send ch) Q j) as Hs.
    { intros Q HQ. unfold __pf_send. apply wp_bind_2, wp_kassert; [blia|]. apply wp_bind_2. unfold get_pf. apply wp_gets. pose proof Ht as [-> _].
      cbn [cnt in_pct pf_of negb andb]. destruct (ch =? 37); cbn [negb].
      - eapply wp_mono; [by eapply (wp_upd _ _ _ _ _ (pf_of (Some flags0) l))|]. intros [] j1. apply HQ.
      - eapply wp_mono; [by apply wp_pf_print|]. intros [] j1. apply HQ. }
    apply Hs. destruct (ch =? 37).
    + intros j1 Hj. by eapply (IH (Some flags0) l).
    + intros j1 Hj. destruct (render None f l) as [rest|] eqn:Er; [|done]. simpl in Hr. injection Hr as <-. by eapply (Hgo _ _ _ l [ch]).
Qed.
(** The text goes to the sink, and its length is the result. *)
Lemma wp_vprintf f junk l out c txt : shows out c → render None f l = Some txt → Forall (λ c, c ≠ 0) f → Forall arg_ok l →
  wp (__vprintf (f ++ 0 :: junk) l) (λ r c', r = s32 (Z.of_nat (length txt)) ∧ shows (out ++ txt) c') c.
Proof using.
  intros Hs Hr Hf Ha. unfold wp, __vprintf.
  rewrite cstr_end by done.
  assert (told out 0 (pf_of None l) (Job (start l) c)) as Ht by done.
  pose proof (wp_send_all f None l out 0 _ txt Ht Hr Hf Ha I) as (u & j & E & p' & Ej & Hj)%wp_exists. rewrite (bind_ok _ _ _ _ _ E). unfold gets. rewrite Ej. done.
Qed.
End sim.

(** * Into a buffer *)
(** The buffer [b0], of which [L] bytes may be used, after [out] was sent. *)
Record snp_shows (b0 : list Z) (L : nat) (out : list Z) (s : SNP) : Prop := {
  sn_len : (L ≤ length b0)%nat ∧ buflen s = Z.of_nat L;
  sn_pos : bufpos s = Z.of_nat (length out `min` L);
  sn_buf : buf s = take L out ++ drop (length out `min` L) b0;
}.
Lemma take_length_min {A} (L : nat) (l : list A) : length (take L l) = (length l `min` L)%nat.
Proof. rewrite length_take. lia. Qed.
Lemma snp_step b0 L out s c : snp_shows b0 L out s →
  wp (s ← getS; if bufpos s <? buflen s then b ← of_opt (zset (bufpos s) c (buf s)); putS (Snp b (buflen s) (bufpos s + 1)) else mret tt)
    (λ _, snp_shows b0 L (out ++ [c])) s.
Proof.
  intros [[H1 H2] H3 H4]. apply wp_bind_2, wp_get. rewrite H2, H3. destruct (Z.ltb_spec (Z.of_nat (length out `min` L)) (Z.of_nat L)) as [Hlt|Hge].
  - assert (length out `min` L = length out)%nat as Em by lia. rewrite Em in *. assert (take L out = out) as Et by (apply take_ge; lia). rewrite Et in H4.
    destruct (drop (length out) b0) as [|y r] eqn:Ed; [apply (f_equal length) in Ed; rewrite length_drop in Ed; simpl in Ed; lia|].
    assert (zset (Z.of_nat (length out)) c (buf s) = Some (out ++ c :: r)) as Ez.
    { rewrite H4, zset_nat by (rewrite length_app; simpl; lia). by rewrite insert_mid. }
    apply wp_bind_2. eapply wp_of_opt; [exact Ez|]. apply wp_put. assert (length (out ++ [c]) = S (length out)) as El by (rewrite length_app; simpl; lia).
    assert (drop (S (length out)) b0 = r) as Er by (rewrite <-Nat.add_1_r, <-drop_drop, Ed; done).
    constructor; simpl; rewrite ?El.
    + done.
    + rewrite Nat.min_l by lia. lia.
    + rewrite Nat.min_l, take_ge, Er by lia. by rewrite <-app_assoc.
  - assert (length (out ++ [c]) = S (length out)) as El by (rewrite length_app; simpl; lia). apply wp_ret. constructor; rewrite ?El.
    + done.
    + rewrite H3. lia.
    + rewrite H4, take_app_le by lia. do 2 f_equal. lia.
Qed.
Definition snp_sink (b0 : list Z) (L : nat) : SinkOk SNP.
Proof.
  refine {| shows := snp_shows b0 L |}. intros out s txt Hs. unfold sendfunc, snprintf_send.
  apply (wp_for_do (λ i, snp_shows b0 L (out ++ take (Z.to_nat i) txt))).
  - by rewrite app_nil_r.
  - intros i s' Hi Hj. destruct (lookup_lt_is_Some_2 txt (Z.to_nat i)) as [c Hc]; [lia|].
    eapply wp_ext; [|eapply wp_mono; [apply (snp_step b0 L _ s' c Hj)|]].
    + intros t. unfold mbind, M_bind, getS. destruct (bufpos t <? buflen t); [|done]. unfold of_opt, zget. rewrite (proj2 (Z.leb_le _ _)) by lia. by rewrite Hc.
    + intros [] s2 H2. replace (Z.to_nat (i + 1)) with (S (Z.to_nat i)) by lia. rewrite (take_S_r _ _ _ Hc), app_assoc. exact H2.
  - intros s' Hj. by rewrite Z.add_0_l, Nat2Z.id, firstn_all in Hj.
Defined.
#[export] Instance console_sink : SinkOk (list Z).
Proof.
  refine {| shows out c := c = out |}. intros out c txt ->. unfold sendfunc, console_send.
  apply (wp_for_do (λ i s, s = out ++ take (Z.to_nat i) txt)).
  - by rewrite app_nil_r.
  - intros i s' Hi ->. destruct (lookup_lt_is_Some_2 txt (Z.to_nat i)) as [c Hc]; [lia|]. apply wp_bind_2. eapply wp_of_opt; [apply zget_Some; split; [lia|exact Hc]|].
    apply wp_modify. replace (Z.to_nat (i + 1)) with (S (Z.to_nat i)) by lia. by rewrite (take_S_r _ _ _ Hc), app_assoc.
  - intros s' ->. by rewrite Z.add_0_l, Nat2Z.id, firstn_all.
Defined.

(** What is in the buffer afterwards. *)
Definition printed (b : list Z) (len : Z) (txt : list Z) : list Z :=
  if len =? 0 then b
  else take (Z.to_nat (len - 1)) txt ++ [0] ++ drop (S (length txt `min` Z.to_nat (len - 1))) b.
Lemma vsnprintf_eq b len f junk l txt : render None f l = Some txt → Forall (λ c, c ≠ 0) f → Forall arg_ok l → 0 ≤ len ≤ Z.of_nat (length b) →
  vsnprintf b len (f ++ 0 :: junk) l = Ok (s32 (Z.of_nat (length txt)), printed b len txt).
Proof.
  intros Hr Hf Ha Hlen. unfold vsnprintf, printed. set (L := Z.to_nat (len - 1)).
  assert ((if len =? 0 then 0 else len - 1) = Z.of_nat L) as -> by (unfold L; destruct (Z.eqb_spec len 0); lia).
  assert (snp_shows b L [] (Snp b (Z.of_nat L) 0)) as H0 by (constructor; simpl; [split; [unfold L; lia|done]|done|by rewrite take_nil]).
  pose proof (wp_vprintf (SO := snp_sink b L) f junk l [] (Snp b (Z.of_nat L) 0) txt H0 Hr Hf Ha) as (r & s & E & -> & [[_ H1] H2 H3])%wp_exists. rewrite E. cbv beta iota.
  simpl in H2, H3. destruct (Z.eqb_spec len 0) as [E0|E0].
  - rewrite (proj2 (Z.ltb_ge _ _)) by lia. assert (L = 0%nat) as EL by (unfold L; lia). rewrite H3, EL, Nat.min_0_r. by destruct txt.
  - rewrite (proj2 (Z.ltb_lt _ _)) by lia. rewrite H2. assert (length txt `min` L < length b)%nat as Hlt by (unfold L; lia).
    destruct (drop (length txt `min` L) b) as [|y r] eqn:Ed; [apply (f_equal length) in Ed; rewrite length_drop in Ed; simpl in Ed; lia|].
    assert (drop (S (length txt `min` L)) b = r) as -> by (rewrite <-Nat.add_1_r, <-drop_drop, Ed; done).
    rewrite <-take_length_min at 1. rewrite H3, zset_nat by (rewrite length_app; simpl; lia). by rewrite insert_mid.
Qed.

(** C38: [snprintf] never writes outside the buffer it is given: for every format and arguments
    whose text the renderer gives, it stores the first [len - 1] characters of the text and a
    terminator, leaves the rest of the buffer alone, stores nothing at all for length 0, and
    returns the length of the whole text, so that truncation can be seen. *)
Theorem snprintf_stays_in_buffer (b : list Z) (len : Z) (f junk : list Z) (l : list arg) (txt : list Z) :
  render None f l = Some txt → Forall (λ c, c ≠ 0) f → Forall arg_ok l → 0 ≤ len ≤ Z.of_nat (length b) →
  ∃ b', vsnprintf b len (f ++ 0 :: junk) l = Ok (s32 (Z.of_nat (length txt)), b') ∧ length b' = length b ∧
    drop (Z.to_nat len) b' = drop (Z.to_nat len) b ∧ (len ≠ 0 → Forall (λ c, c ≠ 0) txt → cstr b' = take (Z.to_nat (len - 1)) txt).
Proof.
  intros Hr Hf Ha Hlen. exists (printed b len txt). split; [by apply vsnprintf_eq|]. unfold printed. destruct (Z.eqb_spec len 0) as [->|E]; [done|].
  split_and!.
  - rewrite !length_app, take_length_min, length_drop. simpl. lia.
  - rewrite app_assoc, drop_app_ge by (rewrite length_app, take_length_min; simpl; lia). rewrite drop_drop, length_app, take_length_min. simpl. f_equal. lia.
  - intros _ Ht. apply cstr_end. by apply Forall_take.
Qed.
(** [%5d|%s] into eight bytes. *)
Lemma snprintf_stays_in_buffer_witness : ∃ b', vsnprintf (replicate 10 9) 8 ([37; 53; 100; 124; 37; 115] ++ [0]) [AWord 42; AStr (Some [97; 98; 99])] = Ok (9, b') ∧
  cstr b' = [32; 32; 32; 52; 50; 124; 97] ∧ drop 8 b' = [9; 9].
Proof.
  assert (render None [37; 53; 100; 124; 37; 115] [AWord 42; AStr (Some [97; 98; 99])] = Some [32; 32; 32; 52; 50; 124; 97; 98; 99]) as Hr by (vm_compute; reflexivity).
  destruct (snprintf_stays_in_buffer (replicate 10 9) 8 _ [] _ _ Hr) as (b' & E & _ & H1 & H2).
  - repeat constructor; done.
  - repeat constructor; simpl; lia.
  - simpl. lia.
  - exists b'. split; [exact E|]. split; [apply H2; [done|repeat constructor; done]|exact H1].
Defined.

(** * Reading numbers back *)
Lemma numeral_dec n x : 0 ≤ x → Forall (λ c, 48 ≤ c ≤ 57) (numeral n 10 x).
Proof.
  Transparent numeral. revert x. induction n as [|n IH]; intros x Hx; cbn [numeral]; [constructor|]. apply Forall_app. split.
  - destruct (x <? 10); [constructor|]. apply IH. apply Z.div_pos; lia.
  - constructor; [|constructor]. pose proof (Z.mod_pos_bound x 10 ltac:(lia)). unfold digit_char. rewrite (proj2 (Z.ltb_lt _ _)) by lia. lia.
Qed.
Lemma numeral_first n x : (1 ≤ n)%nat → ∃ c ds, numeral n 10 x = c :: ds.
Proof. intros Hn. destruct n as [|n]; [lia|]. cbn [numeral]. destruct (_ ++ _) as [|c ds] eqn:E; [|eauto]. by destruct (app_cons_not_nil _ _ _ (eq_sym E)). Qed.
#[local] Opaque numeral.

Lemma value_grows ds : ∀ v, Forall (λ c, 48 ≤ c ≤ 57) ds → 0 ≤ v → v ≤ foldl (λ v c, v * 10 + digit_val c) v ds.
Proof.
  induction ds as [|c ds IH]; intros v Hd Hv; [simpl; lia|]. apply Forall_cons in Hd as [Hc Hd]. cbn [foldl].
  assert (0 ≤ digit_val c) by (unfold digit_val; rewrite (proj2 (Z.ltb_lt _ _)); lia). specialize (IH (v * 10 + digit_val c) Hd ltac:(lia)). lia.
Qed.
Lemma atoi_loop_eq m ds : ∀ n a v, str m a ds → Forall (λ c, 48 ≤ c ≤ 57) ds → (length ds < n)%nat → 0 ≤ v →
  foldl (λ v c, v * 10 + digit_val c) v ds < 4294967296 → atoi_loop n a v m = Ok (foldl (λ v c, v * 10 + digit_val c) v ds, m).
Proof.
  induction ds as [|c ds IH]; intros [|n] a v Hs Hd Hn Hv Hlt; simpl in Hn; try lia; cbn [atoi_loop foldl] in *.
  - apply str_nil in Hs. by ld_step Hs.
  - apply str_cons in Hs as (H1 & H2 & H3). apply Forall_cons in Hd as [Hc Hd]. ld_step H1. rewrite (proj2 (Z.eqb_neq _ _)) by lia. unfold digit_of.
    rewrite (proj2 (Z.leb_le 48 c)), (proj2 (Z.leb_le c 57)) by lia. cbn [andb]. assert (digit_val c = c - 48) as Ed by (unfold digit_val; by rewrite (proj2 (Z.ltb_lt _ _)) by lia).
    rewrite Ed in *. pose proof (value_grows ds (v * 10 + (c - 48)) Hd ltac:(lia)). rewrite u32_id by lia. apply IH; (done || lia).
Qed.
(** An optional sign and digits. *)
Lemma atoi_eq m a neg ds : str m a ((if neg : bool then [45] else []) ++ ds) → Forall (λ c, 48 ≤ c ≤ 57) ds → ds ≠ [] → value 10 ds < 4294967296 →
  atoi a m = Ok (if neg then s32 (u32 (- value 10 ds)) else s32 (value 10 ds), m).
Proof.
  intros Hs Hd Hne Hv. unfold atoi. rewrite fuel_eq. pose proof (str_size _ _ _ Hs) as Hz. rewrite length_app in Hz.
  assert (∃ c, m !! a = Some c ∧ c ≠ 32 ∧ c ≠ 9 ∧ (if neg then c = 45 else 48 ≤ c)) as (c & Hc & C1 & C2 & C3).
  { destruct neg; [apply str_cons in Hs as (Hs & _); exists 45; done|]. destruct ds as [|c ds]; [done|]. apply str_cons in Hs as (Hs & _). apply Forall_cons in Hd as [Hd _].
    exists c. split; [done|]. lia. }
  rewrite (bind_ok _ _ a m m).
  - ld_step Hc. destruct neg.
    + subst c. change (45 =? 45) with true. cbv iota beta. apply str_cons in Hs as (_ & _ & Hs). by rewrite (bind_ok _ _ _ _ _ (atoi_loop_eq m ds (S (size m)) (a + 1) 0 Hs Hd ltac:(lia) ltac:(lia) Hv)).
    + rewrite (proj2 (Z.eqb_neq c 45)), (proj2 (Z.eqb_neq c 43)) by lia. by rewrite (bind_ok _ _ _ _ _ (atoi_loop_eq m ds (S (size m)) a 0 Hs Hd ltac:(lia) ltac:(lia) Hv)).
  - cbn [atoi_blank]. ld_step Hc. by rewrite (proj2 (Z.eqb_neq c 32)), (proj2 (Z.eqb_neq c 9)) by done.
Qed.
(** The text of [%d]. *)
Lemma render_d w : render None [37; 100] [AWord w] = Some ((if s32 w <? 0 then [45] else []) ++ numeral 64 10 (Z.abs (s32 w))).
Proof.
  cbn [render]. change (37 =? 37) with true. cbv iota. change (bool_decide (100 ∈ _)) with false. cbv iota. unfold render_field.
  change (bool_decide (100 ∈ [100; 111; 117; 112; 120])) with true. cbv iota. unfold number. change (100 =? 112) with false. change (100 =? 100) with true.
  rewrite decide_False by done. cbv iota. cbn [mbind option_bind]. unfold field, prefix_of. cbn [f_alt f_left f_fill f_width flags0]. change (32 =? 48) with false. cbv iota.
  change (false || (100 =? 112)) with false. cbv iota. change (base_of 100) with 10. rewrite Z2Nat.nonpos by lia. cbn [replicate app fmap option_fmap option_map]. by rewrite !app_nil_r.
Qed.

(** C39: whatever [int] is printed with [%d] by [snprintf] into a buffer that has room for it,
    [atoi] reads back, the smallest one included. *)
Theorem printed_number_parses_back (n : Z) (b : list Z) (len : Z) (m : cmem) (a : Z) :
  -2147483648 ≤ n < 2147483648 → 12 ≤ len ≤ Z.of_nat (length b) →
  ∃ chars b', vsnprintf b len [37; 100; 0] [AWord (u32 n)] = Ok (chars, b') ∧ 1 ≤ chars ≤ 11 ∧ (block m a b' → atoi a m = Ok (n, m)).
Proof.
  intros Hn Hlen. assert (s32 (u32 n) = n) as Es by (unfold wraps, wrapu; rewrite Z.add_mod_idemp_l by done; fold (wraps 32 n); by apply s32_id).
  set (txt := (if n <? 0 then [45] else []) ++ numeral 64 10 (Z.abs n)). pose proof (render_d (u32 n)) as Hr. rewrite Es in Hr. fold txt in Hr.
  pose proof (u32_range n). pose proof (numeral_length 10 ltac:(lia) 64 10 (Z.abs n) ltac:(change (10 ^ Z.of_nat 10) with 10000000000; lia) ltac:(lia)) as Hl.
  pose proof (numeral_value 10 ltac:(lia) 64 (Z.abs n)) as Hv. pose proof (numeral_dec 64 (Z.abs n) ltac:(lia)) as Hd. pose proof (numeral_chars 10 ltac:(lia) 64 (Z.abs n)) as Hc.
  destruct (numeral_first 64 (Z.abs n) ltac:(lia)) as (c & ds' & Ef). set (ds := numeral 64 10 (Z.abs n)) in *. clearbody ds.
  assert (1 ≤ length txt ≤ 11)%nat as Ht by (unfold txt; rewrite length_app, Ef; rewrite Ef in Hl; simpl in *; destruct (n <? 0); simpl; lia).
  eexists _, _. split; [apply (vsnprintf_eq b len [37; 100] [] [AWord (u32 n)] txt Hr); [repeat constructor; done|repeat constructor; simpl; lia|lia]|].
  split; [rewrite s32_id by lia; lia|]. unfold printed. rewrite (proj2 (Z.eqb_neq _ _)), take_ge by lia. intros Hb. rewrite app_assoc in Hb. apply block_app in Hb as [Hb _].
  assert (value 10 ds = Z.abs n) as Ev by (apply Hv; split; [lia|]; assert (10 ^ 10 ≤ 10 ^ Z.of_nat 64) by (apply Z.pow_le_mono_r; lia); lia).
  rewrite (atoi_eq m a (n <? 0) ds).
  - rewrite Ev. do 2 f_equal. destruct (Z.ltb_spec n 0).
    + replace (- Z.abs n) with n by lia. exact Es.
    + rewrite Z.abs_eq by lia. apply s32_id. lia.
  - split; [exact Hb|]. unfold txt. apply Forall_app. split; [destruct (n <? 0); repeat constructor; lia|exact Hc].
  - done.
  - by rewrite Ef.
  - lia.
Qed.
Lemma printed_number_parses_back_witness : ∃ b', vsnprintf (replicate 16 9) 16 [37; 100; 0] [AWord (u32 (-2147483648))] = Ok (11, b') ∧
  atoi 100 (mput 100 b' ∅) = Ok (-2147483648, mput 100 b' ∅).
Proof.
  destruct (printed_number_parses_back (-2147483648) (replicate 16 9) 16 ∅ 100) as (k & b' & E & _ & _); [lia|simpl; lia|].
  destruct (printed_number_parses_back (-2147483648) (replicate 16 9) 16 (mput 100 b' ∅) 100) as (k2 & b2 & E2 & _ & H); [lia|simpl; lia|].
  assert (b2 = b') as -> by (rewrite E in E2; by injection E2). exists b'. split; [|apply H, mput_block].
  assert (match vsnprintf (replicate 16 9) 16 [37; 100; 0] [AWord (u32 (-2147483648))] with Ok (k, _) => k = 11 | _ => False end) as Hk by (vm_compute; reflexivity).
  rewrite E in Hk. subst k. exact E.
Defined.
