(* ===== verification/Elf.v ===== *)
(** Loading an executable: [kern/syscall/loadelf.c] and the headers of [kern/include/elf.h].

    The file is read and the address space is set up through the interface [ElfOps];
    [ElfSpec] implements it with the page tables of [AddrSpace]. The machine is
    big-endian, as are the files it accepts; the headers have no padding. *)

From stdpp Require Import base tactics numbers list.
From S2P Require Import Prelude KernDefs.
Local Open Scope Z_scope.

Record Elf_Ehdr := Ehdr {
  e_ident : list Z;
  e_type : Z;
  e_machine : Z;
  e_version : Z;
  e_entry : Z;
  e_phoff : Z;
  e_shoff : Z;
  e_flags : Z;
  e_ehsize : Z;
  e_phentsize : Z;
  e_phnum : Z;
  e_shentsize : Z;
  e_shnum : Z;
  e_shstrndx : Z;
}.
Record Elf_Phdr := Phdr {
  p_type : Z;
  p_offset : Z;
  p_vaddr : Z;
  p_paddr : Z;
  p_filesz : Z;
  p_memsz : Z;
  p_flags : Z;
  p_align : Z;
}.
Definition PT_NULL : Z := 0.
Definition PT_LOAD : Z := 1.
Definition PT_PHDR : Z := 6.
Definition PT_MIPS_REGINFO : Z := 0x70000000.
Definition PF_R : Z := 4.
Definition PF_W : Z := 2.
Definition PF_X : Z := 1.
(** [sizeof]. *)
Definition SZ_EHDR : Z := 52.
Definition SZ_PHDR : Z := 32.

(** The number in [n] bytes at [o]. *)
Definition field (n o : nat) (b : list Z) : Z := bytes_word (take n (drop o b)).
Definition ehdr_of (b : list Z) : Elf_Ehdr :=
  Ehdr (take 16 b) (field 2 16 b) (field 2 18 b) (field 4 20 b) (field 4 24 b) (field 4 28 b) (field 4 32 b)
    (field 4 36 b) (field 2 40 b) (field 2 42 b) (field 2 44 b) (field 2 46 b) (field 2 48 b) (field 2 50 b).
Definition phdr_of (b : list Z) : Elf_Phdr :=
  Phdr (field 4 0 b) (field 4 4 b) (field 4 8 b) (field 4 12 b) (field 4 16 b) (field 4 20 b) (field 4 24 b) (field 4 28 b).

(** [EI_MAG0] to [EI_VERSION], [EV_CURRENT], [ET_EXEC] and [EM_MIPS]. *)
Definition good_ident : list Z := [0x7f; 69; 76; 70; 1; 2; 1].
Definition good_header (eh : Elf_Ehdr) : bool :=
  bool_decide (take 7 (e_ident eh) = good_ident) && (e_version eh =? 1) && (e_type eh =? 2) && (e_machine eh =? 8).

Class ElfOps (W : Type) := {
  (** [VOP_READ] of [len] bytes at an offset into a kernel buffer: the bytes stored. *)
  vop_read_kern : Z → Z → Z → M W (result (list Z));
  (** [VOP_READ] at [offset] into the [memsize] bytes of user memory at [vaddr], with
      [uio_resid] set to [filesize] and as instructions or data; what is left of it. *)
  vop_read_user : Z → Z → Z → Z → Z → bool → M W (result Z);
  (** On the address space of the current thread. *)
  op_define_region : Z → Z → Z → Z → Z → M W (result unit);
  op_prepare_load : M W (result unit);
  op_complete_load : M W (result unit);
}.

Section loadelf.
Context {W : Type} {EO : ElfOps W}.

Definition load_segment (v offset vaddr memsize filesize : Z) (is_executable : bool) : M W (result unit) :=
  let filesize := if memsize <? filesize then memsize else filesize in
  r ← vop_read_user v offset vaddr memsize filesize is_executable;
  match r with
  | inl e => mret (inl e)
  | inr resid => if negb (resid =? 0) then mret (inl ENOEXEC) else mret (inr tt)
  end.

(** A header, which must be there in full. *)
Definition read_header (v len offset : Z) : M W (result (list Z)) :=
  r ← vop_read_kern v len offset;
  match r with
  | inl e => mret (inl e)
  | inr b => if negb (len - Z.of_nat (length b) =? 0) then mret (inl ENOEXEC) else mret (inr b)
  end.

(** [eh.e_phoff + i*eh.e_phentsize]: the product is an [int], the sum unsigned. *)
Definition phdr_offset (eh : Elf_Ehdr) (i : Z) : M W Z :=
  if i * e_phentsize eh <=? 2147483647 then mret (u32 (e_phoff eh + i * e_phentsize eh)) else undef.
(** Each of the two passes over the program headers. *)
Definition each_segment (v : Z) (eh : Elf_Ehdr) (body : Elf_Phdr → M W (result unit)) : M W (option errno) :=
  for_ret (Z.to_nat (e_phnum eh)) 0 (λ i,
    offset ← phdr_offset eh i;
    r ← read_header v SZ_PHDR offset;
    match r with
    | inl e => mret (Some e)
    | inr b =>
        let ph := phdr_of b in
        if (p_type ph =? PT_NULL) || (p_type ph =? PT_PHDR) || (p_type ph =? PT_MIPS_REGINFO) then mret None
        else if p_type ph =? PT_LOAD then
          r ← body ph;
          mret (match r with inl e => Some e | inr _ => None end)
        else mret (Some ENOEXEC)
    end).

Definition define_segment (ph : Elf_Phdr) : M W (result unit) :=
  op_define_region (p_vaddr ph) (p_memsz ph) (Z.land (p_flags ph) PF_R) (Z.land (p_flags ph) PF_W) (Z.land (p_flags ph) PF_X).
Definition fill_segment (v : Z) (ph : Elf_Phdr) : M W (result unit) :=
  load_segment v (p_offset ph) (p_vaddr ph) (p_memsz ph) (p_filesz ph) (negb (Z.land (p_flags ph) PF_X =? 0)).

Definition load_elf (v : Z) : M W (result Z) :=
  r ← read_header v SZ_EHDR 0;
  match r with
  | inl e => mret (inl e)
  | inr b =>
      let eh := ehdr_of b in
      if negb (good_header eh) then mret (inl ENOEXEC)
      else
        r ← each_segment v eh define_segment;
        match r with
        | Some e => mret (inl e)
        | None =>
            r ← op_prepare_load;
            match r with
            | inl e => mret (inl e)
            | inr _ =>
                r ← each_segment v eh (fill_segment v);
                match r with
                | Some e => mret (inl e)
                | None =>
                    r ← op_complete_load;
                    match r with
                    | inl e => mret (inl e)
                    | inr _ => mret (inr (e_entry eh))
                    end
                end
            end
        end
  end.
End loadelf.

(** * One reading of the file

    What the two passes over the program headers do on a file that does not change:
    the file is parsed once, into the segments to load and how the table ends. *)
Definition slice (f : list Z) (off len : Z) : list Z := take (Z.to_nat len) (drop (Z.to_nat off) f).
Inductive verdict := Fine | Refused | Overflow.
Fixpoint scan (f : list Z) (eh : Elf_Ehdr) (n : nat) (i : Z) : list Elf_Phdr * verdict :=
  match n with
  | O => ([], Fine)
  | S n =>
      if 2147483647 <? i * e_phentsize eh then ([], Overflow)
      else
        let b := slice f (u32 (e_phoff eh + i * e_phentsize eh)) SZ_PHDR in
        let ph := phdr_of b in
        if Z.of_nat (length b) <? SZ_PHDR then ([], Refused)
        else if bool_decide (p_type ph ∈ [PT_NULL; PT_PHDR; PT_MIPS_REGINFO]) then scan f eh n (i + 1)
        else if p_type ph =? PT_LOAD then let '(l, o) := scan f eh n (i + 1) in (ph :: l, o)
        else ([], Refused)
  end.
(** The entry point, the segments and the verdict; [None] for a bad file header. *)
Definition parse_elf (f : list Z) : option (Z * (list Elf_Phdr * verdict)) :=
  let b := slice f 0 SZ_EHDR in
  let eh := ehdr_of b in
  if (Z.of_nat (length b) =? SZ_EHDR) && good_header eh
  then Some (e_entry eh, scan f eh (Z.to_nat (e_phnum eh)) 0) else None.

Section once.
Context {W : Type} {EO : ElfOps W}.

Fixpoint each (ps : list Elf_Phdr) (body : Elf_Phdr → M W (result unit)) : M W (option errno) :=
  match ps with
  | [] => mret None
  | ph :: ps => r ← body ph; match r with inl e => mret (Some e) | inr _ => each ps body end
  end.
(** The end of a pass. *)
Definition close (o : verdict) : M W (option errno) :=
  match o with Fine => mret None | Refused => mret (Some ENOEXEC) | Overflow => undef end.
Definition load_image (v : Z) (img : option (Z * (list Elf_Phdr * verdict))) : M W (result Z) :=
  match img with
  | None => mret (inl ENOEXEC)
  | Some (entry, (ps, o)) =>
      r ← each ps define_segment;
      match r with
      | Some e => mret (inl e)
      | None =>
          r ← close o;
          match r with
          | Some e => mret (inl e)
          | None =>
              r ← op_prepare_load;
              match r with
              | inl e => mret (inl e)
              | inr _ =>
                  r ← each ps (fill_segment v);
                  match r with
                  | Some e => mret (inl e)
                  | None => r ← op_complete_load; mret (match r with inl e => inl e | inr _ => inr entry end)
                  end
              end
          end
      end
  end.

Context (v : Z) (f : list Z).
Hypothesis reads : ∀ len off s, vop_read_kern v len off s = Ok (inr (slice f off len), s).

Lemma slice_short off len : 0 ≤ len → Z.of_nat (length (slice f off len)) ≤ len.
Proof. intros. unfold slice. rewrite length_take. lia. Qed.

Lemma read_header_eq len off s : 0 ≤ len → read_header v len off s =
  Ok (if Z.of_nat (length (slice f off len)) <? len then inl ENOEXEC else inr (slice f off len), s).
Proof using reads.
  intros Hl. unfold read_header. rewrite (bind_ok _ _ _ _ _ (reads len off s)). pose proof (slice_short off len Hl).
  destruct (Z.ltb_spec (Z.of_nat (length (slice f off len))) len).
  - by rewrite (proj2 (Z.eqb_neq _ _)) by lia.
  - by rewrite (proj2 (Z.eqb_eq _ _)) by lia.
Qed.

Lemma each_segment_eq eh body s : each_segment v eh body s =
  (r ← each (scan f eh (Z.to_nat (e_phnum eh)) 0).1 body;
   match r with Some e => mret (Some e) | None => close (scan f eh (Z.to_nat (e_phnum eh)) 0).2 end) s.
Proof using reads.
  unfold each_segment. generalize (Z.to_nat (e_phnum eh)) as n. intros n. generalize 0 as i. revert s. induction n as [|n IH]; intros s i; [done|].
  cbn [for_ret scan]. rewrite bind_assoc. destruct (Z.ltb_spec 2147483647 (i * e_phentsize eh)) as [Ho|Ho].
  { assert (phdr_offset eh i s = @Undef (Z * W)) as E by (unfold phdr_offset; by rewrite (proj2 (Z.leb_gt _ _)) by lia). unfold mbind, M_bind. by rewrite E. }
  assert (phdr_offset eh i s = Ok (u32 (e_phoff eh + i * e_phentsize eh), s)) as E by (unfold phdr_offset; by rewrite (proj2 (Z.leb_le _ _)) by lia).
  rewrite (bind_ok _ _ _ _ _ E), bind_assoc, (bind_ok _ _ _ _ _ (read_header_eq SZ_PHDR _ s ltac:(done))).
  set (b := slice f _ _). destruct (Z.of_nat (length b) <? SZ_PHDR); [done|]. set (ph := phdr_of b).
  assert (bool_decide (p_type ph ∈ [PT_NULL; PT_PHDR; PT_MIPS_REGINFO]) = (p_type ph =? PT_NULL) || (p_type ph =? PT_PHDR) || (p_type ph =? PT_MIPS_REGINFO)) as ->.
  { apply eq_bool_prop_intro. rewrite bool_decide_spec, !orb_True, !Is_true_true, !Z.eqb_eq, !elem_of_cons, elem_of_nil. tauto. }
  destruct (_ || _); [exact (IH s (i + 1))|]. destruct (p_type ph =? PT_LOAD); [|done].
  specialize (λ s, IH s (i + 1)). destruct (scan f eh n (i + 1)) as [l o]. cbn [fst snd each] in *. rewrite !bind_assoc. apply bind_ext. intros [e|[]] s'; [done|].
  exact (IH s').
Qed.

(** Loading reads the headers twice; on a file that stays the same this is parsing it once,
    then defining and filling the segments found. *)
Lemma load_elf_once s : load_elf v s = load_image v (parse_elf f) s.
Proof using reads.
  unfold load_elf, load_image, parse_elf. rewrite (bind_ok _ _ _ _ _ (read_header_eq SZ_EHDR 0 s ltac:(done))). pose proof (slice_short 0 SZ_EHDR ltac:(done)) as Hs.
  set (b := slice f 0 SZ_EHDR) in *. destruct (Z.ltb_spec (Z.of_nat (length b)) SZ_EHDR).
  { by rewrite (proj2 (Z.eqb_neq _ _)) by lia. }
  rewrite (proj2 (Z.eqb_eq _ _)) by lia. cbn [andb]. set (eh := ehdr_of b). destruct (good_header eh); [|done]. cbn [negb].
  pose proof (each_segment_eq eh) as He. destruct (scan f eh (Z.to_nat (e_phnum eh)) 0) as [ps o]. cbn [fst snd] in He. unfold mbind, M_bind in *. rewrite He.
  destruct (each ps define_segment s) as [[[e|] s1]| | |]; try done. destruct o; [|done|done]. cbn [close mret M_ret].
  destruct (op_prepare_load s1) as [[[e|[]] s2]| | |]; try done. rewrite He. destruct (each ps (fill_segment v) s2) as [[[e|] s3]| | |]; try done. cbn [close mret M_ret].
  by destruct (op_complete_load s3) as [[[e|[]] s4]| | |].
Qed.
End once.
