(* ===== verification/UserMem.v ===== *)
(** User memory of the running process, as the processor sees it: stores go through the TLB,
    a miss calls [vm_fault] ([kern/vm/vm.c], [addrspace.c]), and [copyout]
    ([kern/vm/copyinout.c]) turns a fault that cannot be served into [EFAULT]. *)

From stdpp Require Import base tactics numbers list gmap.
From S2P Require Import Prelude KernDefs Spl Coremap AddrSpace AddrSpaceSpec CopyInOut.
Local Open Scope Z_scope.

Set Default Proof Using "Type".
Section hardware.
Context (junk : Z → nat → page_entry) (random_slot : vmstate → Z).

(** The frame a page is translated to. *)
Fixpoint tlb_lookup (page : Z) (t : list (Z * Z)) : option Z :=
  match t with
  | [] => None
  | (hi, lo) :: t =>
      if (hi =? page) && negb (Z.land lo TLBLO_VALID =? 0) then Some (Z.land lo PAGE_FRAME) else tlb_lookup page t
  end.
Definition mem_put (x b : Z) (m : Z → Z) : Z → Z := λ y, if y =? x then b else m y.
(** A byte is stored: on a miss the fault is served and the instruction restarted. *)
Definition user_store (addr b : Z) : M vmstate (result unit) :=
  let page := Z.land addr PAGE_FRAME in
  let put pa := modify (λ s, set_mem (mem_put (pa + addr mod PAGE_SIZE) b (vs_mem s)) s);; mret (inr tt) in
  s ← getS;
  match tlb_lookup page (vs_tlb s) with
  | Some pa => put pa
  | None =>
      r ← vm_fault junk random_slot VM_FAULT_WRITE addr;
      match r with
      | inl _ => mret (inl EFAULT)
      | inr _ => s ← getS; match tlb_lookup page (vs_tlb s) with Some pa => put pa | None => diverge end
      end
  end.
Fixpoint user_copy (addr : Z) (l : list Z) : M vmstate (result unit) :=
  match l with
  | [] => mret (inr tt)
  | b :: l =>
      r ← user_store addr b;
      match r with inl e => mret (inl e) | inr _ => user_copy (addr + 1) l end
  end.
Definition user_copyout (l : list Z) (userdest : Z) : M vmstate (result unit) :=
  match copycheck userdest (Z.of_nat (length l)) with
  | inl e => mret (inl e)
  | inr stoplen => if negb (stoplen =? Z.of_nat (length l)) then mret (inl EFAULT) else user_copy userdest l
  end.

(** * What a store does *)
(** The byte at a user address, by the page tables. *)
Definition ubyte (m : Z → Z) (a : addrspace) (x : Z) : option Z :=
  (λ e, m (page_paddr e + x mod PAGE_SIZE)) <$> find_page (Z.land x PAGE_FRAME) (chain a).
(** The TLB translates as the page tables do. *)
Definition tlb_ok (a : addrspace) (t : list (Z * Z)) : Prop := length t = 64%nat ∧ ∀ i hi lo, t !! i = Some (hi, lo) →
  Z.land lo TLBLO_VALID ≠ 0 → ∃ e, find_page hi (chain a) = Some e ∧ Z.land lo PAGE_FRAME = page_paddr e.
(** A state with another TLB and other memory. *)
Definition with_um (t : list (Z * Z)) (m : Z → Z) (s : vmstate) : vmstate := VmState (vs_cm s) m t (vs_as s) (t_addrspace s).
(** Only pages of the address space differ. *)
Definition same_outside (a : addrspace) (m m' : Z → Z) : Prop :=
  ∀ x, (∀ e, e ∈ live_chain (chain a) → ¬ page_paddr e ≤ x < page_paddr e + PAGE_SIZE) → m' x = m x.

Lemma tlb_lookup_Some page t pa : tlb_lookup page t = Some pa →
  ∃ i lo, t !! i = Some (page, lo) ∧ Z.land lo TLBLO_VALID ≠ 0 ∧ Z.land lo PAGE_FRAME = pa.
Proof.
  induction t as [|[hi lo] t IH]; [done|]. simpl. destruct (Z.eqb_spec hi page) as [->|]; simpl.
  - destruct (Z.eqb_spec (Z.land lo TLBLO_VALID) 0) as [|Hv]; simpl.
    + intros H. destruct (IH H) as (i & lo' & Hi & ?). by exists (S i), lo'.
    + intros [= <-]. by exists 0%nat, lo.
  - intros H. destruct (IH H) as (i & lo' & Hi & ?). by exists (S i), lo'.
Qed.
Lemma tlb_lookup_hit page t i lo : t !! i = Some (page, lo) → Z.land lo TLBLO_VALID ≠ 0 → is_Some (tlb_lookup page t).
Proof.
  revert i. induction t as [|[hi lo'] t IH]; intros [|i] Hi Hv; simpl in *; [done|done| |].
  - injection Hi as -> ->. rewrite Z.eqb_refl, (proj2 (Z.eqb_neq _ _) Hv). by eexists.
  - destruct (_ && _); [by eexists|]. by eapply IH.
Qed.

(** The entry [vm_fault] writes. *)
Lemma land_entry pa : 0 ≤ pa < 2 ^ 32 → pa mod PAGE_SIZE = 0 →
  Z.land (tlb_entry 0 pa).2 TLBLO_VALID ≠ 0 ∧ Z.land (tlb_entry 0 pa).2 PAGE_FRAME = pa.
Proof.
  intros Hpa Hm. unfold tlb_entry. cbn [snd]. rewrite !Z.land_lor_distr_l. change (Z.land TLBLO_DIRTY TLBLO_VALID) with 0.
  change (Z.land TLBLO_VALID TLBLO_VALID) with TLBLO_VALID. change (Z.land TLBLO_DIRTY PAGE_FRAME) with 0. change (Z.land TLBLO_VALID PAGE_FRAME) with 0.
  rewrite !Z.lor_0_r. rewrite land_PAGE_FRAME, Hm by done. split; [|lia].
  intros E. apply (f_equal (λ z, Z.testbit z 9)) in E. rewrite Z.lor_spec in E. by rewrite orb_comm in E.
Qed.

Section space.
Context (s : vmstate) (gs : list seg) (p : Z) (a : addrspace) (us js : list nat) (j0 : nat).
Hypothesis Hinv : as_inv s gs p a us js j0.

Lemma found_at v e : find_page v (chain a) = Some e → page_vaddr e = v ∧ ∃ k i, live_chain (chain a) !! k = Some e ∧ us !! k = Some i ∧ page_paddr e = pgaddr (vs_cm s) i.
Proof using Hinv.
  rewrite find_page_live. destruct Hinv as [_ _ _ [Hou _ _ _]]. intros Hf.
  assert (page_vaddr e = v ∧ ∃ k, live_chain (chain a) !! k = Some e) as (Hv & k & Hk).
  { clear Hou. revert Hf. induction (live_chain (chain a)) as [|e' l IH]; [done|]. simpl. destruct (Z.eqb_spec (page_vaddr e') v) as [Hv|].
    - intros [= ->]. split; [done|]. by exists 0%nat.
    - intros H. destruct (IH H) as (? & k & Hk). split; [done|]. by exists (S k). }
  split; [done|]. exists k. apply (f_equal (lookup k)) in Hou. rewrite !list_lookup_fmap, Hk in Hou. simpl in Hou.
  destruct (us !! k) as [i|] eqn:Hi; [|done]. injection Hou as Hou. by exists i.
Qed.
Lemma found_frame v e : find_page v (chain a) = Some e → 0 < page_paddr e < 2 ^ 31 ∧ page_paddr e mod PAGE_SIZE = 0.
Proof using Hinv.
  intros Hf. destruct (found_at v e Hf) as (_ & k & i & _ & Hi & ->). apply (pages_pgaddr _ gs); [apply Hinv|].
  destruct Hinv as [_ _ _ [_ _ _ [_ Hu]]]. destruct (Hu i) as [b Hb]; [unfold own_all; apply elem_of_app; left; by eapply list_elem_of_lookup_2|]. by eapply lookup_lt_Some.
Qed.
(** Different pages have frames of their own. *)
Lemma found_disjoint v e v' e' o : find_page v (chain a) = Some e → find_page v' (chain a) = Some e' → v ≠ v' → 0 ≤ o < PAGE_SIZE →
  ¬ page_paddr e' ≤ page_paddr e + o < page_paddr e' + PAGE_SIZE.
Proof using Hinv.
  intros H H' Hne Ho. destruct (found_at v e H) as (Hv & k & i & Hk & Hi & ->), (found_at v' e' H') as (Hv' & k' & i' & Hk' & Hi' & ->).
  apply pgaddr_disjoint; [|done]. intros ->. destruct Hinv as [_ _ _ [_ _ _ [Hnd _]]]. unfold own_all in Hnd. apply NoDup_app in Hnd as (Hnd & _).
  assert (k = k') as -> by (by eapply NoDup_lookup). congruence.
Qed.
(** Two user addresses are the same place only if they are equal. *)
Lemma same_place x y e e' : 0 ≤ x < 2 ^ 32 → 0 ≤ y < 2 ^ 32 → find_page (Z.land x PAGE_FRAME) (chain a) = Some e → find_page (Z.land y PAGE_FRAME) (chain a) = Some e' →
  page_paddr e + x mod PAGE_SIZE = page_paddr e' + y mod PAGE_SIZE → x = y.
Proof using Hinv.
  intros Hx Hy He He' E. pose proof (Z.mod_pos_bound x PAGE_SIZE ltac:(done)). pose proof (Z.mod_pos_bound y PAGE_SIZE ltac:(done)).
  destruct (decide (Z.land x PAGE_FRAME = Z.land y PAGE_FRAME)) as [Ep|Hne].
  - rewrite Ep, He' in He. injection He as <-. rewrite !land_PAGE_FRAME in Ep by done. lia.
  - exfalso. apply (found_disjoint _ _ _ _ (x mod PAGE_SIZE) He He' Hne); lia.
Qed.

Hypothesis Hcur : t_addrspace s = p.
Hypothesis Hquiet : quiet s.
Hypothesis Hslot : ∀ t, 0 ≤ random_slot t < NUM_TLB.

Lemma with_um_inv t m : as_inv (with_um t m s) gs p a us js j0.
Proof using Hinv. destruct Hinv as [? ? ? ?]. by constructor. Qed.
Lemma with_um_quiet t m : length t = 64%nat → quiet (with_um t m s).
Proof using Hquiet. destruct Hquiet as (? & ? & _). intros Hl. split; [done|]. by split. Qed.

Lemma wp_user_store t m addr b e : tlb_ok a t → 0 ≤ addr < 2 ^ 32 → user_range a (Z.land addr PAGE_FRAME) →
  find_page (Z.land addr PAGE_FRAME) (chain a) = Some e → isWrite e = true →
  wp (user_store addr b) (λ r s', r = inr tt ∧ ∃ t', tlb_ok a t' ∧ s' = with_um t' (mem_put (page_paddr e + addr mod PAGE_SIZE) b m) s) (with_um t m s).
Proof using Hinv Hcur Hquiet Hslot.
  intros [Hlen Ht] Ha Hr He Hw. set (page := Z.land addr PAGE_FRAME) in *. unfold user_store. fold page. apply wp_bind_2, wp_get. cbn [vs_tlb with_um].
  destruct (tlb_lookup page t) as [pa|] eqn:El.
  { destruct (tlb_lookup_Some _ _ _ El) as (i & lo & Hi & Hv & <-). destruct (Ht i page lo Hi Hv) as (e' & He' & ->). rewrite He in He'. injection He' as <-.
    apply wp_bind_2, wp_modify, wp_ret. split; [done|]. by exists t. }
  apply wp_bind_2. eapply wp_vm_fault_range; [cbn [vs_as t_addrspace with_um]; rewrite Hcur; apply Hinv|done|]. fold page. cbv zeta. rewrite He.
  change (VM_FAULT_WRITE =? VM_FAULT_READONLY) with false. change (VM_FAULT_WRITE =? VM_FAULT_READ) with false. change (VM_FAULT_WRITE =? VM_FAULT_WRITE) with true.
  cbv iota. rewrite Hw. cbn [negb]. apply wp_tlb_install; [by apply with_um_quiet|done|]. intros i Hi. apply wp_bind_2, wp_get. cbn [vs_tlb with_um set_tlb].
  destruct (found_frame page e He) as [Hp0 Hpm]. destruct (land_entry (page_paddr e) ltac:(lia) Hpm) as [Hv Hf].
  set (t' := <[i := tlb_entry page (page_paddr e)]> t).
  assert (tlb_ok a t') as Hok.
  { split; [unfold t'; by rewrite length_insert|]. intros k hi lo Hk Hlo. unfold t' in Hk. apply list_lookup_insert_Some in Hk as [(_ & Eq & _)|[_ Hk]]; [|by eapply Ht]. injection Eq as <- <-.
    exists e. split; [done|exact Hf]. }
  destruct (tlb_lookup_hit page t' i (tlb_entry page (page_paddr e)).2) as [pa Hpa]; [apply list_lookup_insert_eq; lia|exact Hv|].
  rewrite Hpa. destruct (tlb_lookup_Some _ _ _ Hpa) as (k & lo & Hk & Hkv & <-). destruct (proj2 Hok k page lo Hk Hkv) as (e' & He' & ->). rewrite He in He'. injection He' as <-.
  apply wp_bind_2, wp_modify, wp_ret. split; [done|]. by exists t'.
Qed.

(** The addresses can be written. *)
Definition writable (x : Z) : Prop := 0 ≤ x < 2 ^ 32 ∧ user_range a (Z.land x PAGE_FRAME) ∧ ∃ e, find_page (Z.land x PAGE_FRAME) (chain a) = Some e ∧ isWrite e = true.
(** Memory after storing [l] at [addr]. *)
Definition stored (addr : Z) (l : list Z) (m m' : Z → Z) : Prop := same_outside a m m' ∧
  ∀ x, 0 ≤ x < 2 ^ 32 → ubyte m' a x = if bool_decide (addr ≤ x < addr + Z.of_nat (length l)) then _ ← ubyte m a x; l !! Z.to_nat (x - addr) else ubyte m a x.

Lemma wp_user_copy l : ∀ t m addr, tlb_ok a t → (∀ x, addr ≤ x < addr + Z.of_nat (length l) → writable x) →
  wp (user_copy addr l) (λ r s', r = inr tt ∧ ∃ t' m', tlb_ok a t' ∧ stored addr l m m' ∧ s' = with_um t' m' s) (with_um t m s).
Proof using Hinv Hcur Hquiet Hslot.
  induction l as [|b l IH]; intros t m addr Ht Hw; cbn [user_copy].
  - apply wp_ret. split; [done|]. exists t, m. split; [done|]. split; [|done]. split; [done|]. intros x Hx. by rewrite bool_decide_eq_false_2 by (simpl; lia).
  - destruct (Hw addr ltac:(simpl; lia)) as (Ha & Hr & e & He & Hwr). apply wp_bind_2. eapply wp_mono; [by eapply wp_user_store|]. intros r s1 (-> & t1 & Ht1 & ->).
    eapply wp_mono; [apply IH; [done|intros x Hx; apply Hw; simpl; lia]|]. intros r s2 (-> & t2 & m2 & Ht2 & [Hout Hin] & ->). split; [done|].
    exists t2, m2. split; [done|]. split; [|done]. pose proof (Z.mod_pos_bound addr PAGE_SIZE ltac:(done)). split.
    + intros x Hx. rewrite Hout by done. unfold mem_put. rewrite (proj2 (Z.eqb_neq _ _)); [done|]. intros ->.
      destruct (found_at _ _ He) as (_ & k & i & Hk & _). apply (Hx e); [by eapply list_elem_of_lookup_2|lia].
    + intros x Hx. rewrite Hin by done. unfold ubyte. destruct (find_page (Z.land x PAGE_FRAME) (chain a)) as [e'|] eqn:He'; [|by repeat case_bool_decide]. cbn [fmap option_fmap option_map mbind option_bind].
      destruct (decide (x = addr)) as [->|Hne].
      * rewrite He in He'. injection He' as <-. rewrite bool_decide_eq_false_2, bool_decide_eq_true_2 by (simpl; lia). rewrite Z.sub_diag. simpl. unfold mem_put. by rewrite Z.eqb_refl.
      * assert (mem_put (page_paddr e + addr mod PAGE_SIZE) b m (page_paddr e' + x mod PAGE_SIZE) = m (page_paddr e' + x mod PAGE_SIZE)) as ->.
        { unfold mem_put. rewrite (proj2 (Z.eqb_neq _ _)); [done|]. intros E. by apply Hne, (same_place x addr e' e). }
        repeat case_bool_decide; simpl in *; try lia; [|done]. replace (Z.to_nat (x - addr)) with (S (Z.to_nat (x - (addr + 1)))) by lia. done.
Qed.
Lemma wp_user_copyout l t m addr : tlb_ok a t → (∀ x, addr ≤ x < addr + Z.of_nat (length l) → writable x) → l ≠ [] →
  wp (user_copyout l addr) (λ r s', r = inr tt ∧ ∃ t' m', tlb_ok a t' ∧ stored addr l m m' ∧ s' = with_um t' m' s) (with_um t m s).
Proof using Hinv Hcur Hquiet Hslot.
  intros Ht Hw Hl. unfold user_copyout. assert (0 < Z.of_nat (length l)) as Hpos by (destruct l; simpl; [done|lia]).
  assert (∀ x, addr ≤ x < addr + Z.of_nat (length l) → 0 ≤ x < USERSTACK) as Hb.
  { intros x Hx. destruct (Hw x Hx) as (Hx1 & [_ Hx2] & _). rewrite land_PAGE_FRAME in Hx2 by done. split; [lia|]. unfold USERSTACK, USERSPACETOP, MIPS_KSEG0, PAGE_SIZE in *.
    pose proof (Z.div_mod x 4096 ltac:(lia)). pose proof (Z.mod_pos_bound x 4096 ltac:(lia)). lia. }
  pose proof (Hb addr ltac:(lia)). pose proof (Hb (addr + Z.of_nat (length l) - 1) ltac:(lia)). unfold copycheck, USERSTACK, USERSPACETOP, MIPS_KSEG0 in *.
  rewrite (u32_id (_ - 1)) by lia. rewrite (proj2 (Z.ltb_ge _ _)), !(proj2 (Z.leb_gt _ _)), Z.eqb_refl by lia. cbn [negb]. by apply wp_user_copy.
Qed.
End space.
End hardware.
