(* ===== verification/ElfSpec.v ===== *)
(** Loading an executable into the page tables: [load_elf] ([Elf]) over the address spaces of
    [AddrSpace] and the memory accesses of [UserMem]. *)

From stdpp Require Import base tactics numbers list gmap.
From S2P Require Import Prelude KernDefs Spl Coremap AddrSpace AddrSpaceSpec CopyInOut UserMem Elf.
Local Open Scope Z_scope.

Set Default Proof Using "Type".
Section loading.
Context (junk : Z → nat → page_entry) (random_slot : vmstate → Z).
(** What each file holds. *)
Context (content : Z → list Z).

Definition vm_elf_ops : ElfOps vmstate := {|
  vop_read_kern v len off := mret (inr (slice (content v) off len));
  vop_read_user v off vaddr memsize filesize _ :=
    let l := slice (content v) off filesize in
    if decide (l = []) then mret (inr filesize)
    else
      r ← user_copyout junk random_slot l vaddr;
      mret (match r with inl e => inl e | inr _ => inr (filesize - Z.of_nat (length l)) end);
  op_define_region va sz _ _ _ := p ← gets t_addrspace; as_define_region p va sz;
  op_prepare_load := p ← gets t_addrspace; as_prepare_load junk p;
  op_complete_load := p ← gets t_addrspace; as_complete_load p;
|}.
#[local] Existing Instance vm_elf_ops.

(** * Pages of a segment *)
Lemma seg_page va sz x : AddrSpaceSpec.seg_ok va sz → va ≤ x < va + sz →
  0 ≤ x < USERSTACK ∧ ∃ k, (k < seg_pages va sz)%nat ∧ Z.land x PAGE_FRAME = seg_base va + PAGE_SIZE * Z.of_nat k.
Proof.
  intros (Hv & Hs & Hm) Hx. unfold USERSTACK, USERSPACETOP, MIPS_KSEG0 in *. split; [lia|]. rewrite land_PAGE_FRAME by lia. unfold seg_base, seg_pages, PAGE_SIZE.
  pose proof (Z.div_mod va 4096 ltac:(lia)). pose proof (Z.mod_pos_bound va 4096 ltac:(lia)). pose proof (Z.div_mod x 4096 ltac:(lia)). pose proof (Z.mod_pos_bound x 4096 ltac:(lia)).
  pose proof (Z.div_mod (va mod 4096 + sz + 4095) 4096 ltac:(lia)). pose proof (Z.mod_pos_bound (va mod 4096 + sz + 4095) 4096 ltac:(lia)).
  assert (va / 4096 ≤ x / 4096) by (apply Z.div_le_mono; lia). exists (Z.to_nat (x / 4096 - va / 4096)). lia.
Qed.

(** A segment before the pages are protected: writable and full of zeros. *)
Definition seg_blank (m : Z → Z) (a : addrspace) (va sz : Z) : Prop := ∀ x, va ≤ x < va + sz →
  ∃ e, find_page (Z.land x PAGE_FRAME) (chain a) = Some e ∧ isWrite e = true ∧ zeroed m (page_paddr e).

Lemma blank_segments a cv csz dv dsz m es1 es2 : image_ok cv csz dv dsz → live_chain (chain a) = es1 ++ es2 →
  length es1 = seg_pages cv csz → length es2 = seg_pages dv dsz → fresh_run (seg_base cv) m es1 → fresh_run (seg_base dv) m es2 →
  seg_blank m a cv csz ∧ seg_blank m a dv dsz.
Proof.
  intros [Hc Hd Ho Ht] Hl H1 H2 F1 F2. destruct (seg_arith _ _ Hc) as (_ & Nc & _ & _ & Hc0 & _), (seg_arith _ _ Hd) as (_ & Nd & _ & _ & Hd0 & _).
  unfold seg_blank, STACK_BASE, PAGE_SIZE in *. split; intros x Hx.
  - destruct (seg_page _ _ x Hc Hx) as (_ & k & Hk & ->). destruct (fresh_run_at _ _ _ k F1) as (e & Hi & He & Hv & Hz); [lia|unfold PAGE_SIZE; lia|lia|].
    exists e. unfold PAGE_SIZE in *. rewrite find_page_live, Hl, lookup_v_app, He. split; [done|]. split; [by eapply F1|done].
  - destruct (seg_page _ _ x Hd Hx) as (_ & k & Hk & ->). destruct (fresh_run_at _ _ _ k F2) as (e & Hi & He & Hv & Hz); [lia|unfold PAGE_SIZE; lia|lia|].
    exists e. unfold PAGE_SIZE in *. rewrite find_page_live, Hl, lookup_v_app, (fresh_run_below _ _ _ _ F1) by (unfold PAGE_SIZE; lia). rewrite He. split; [done|]. split; [by eapply F2|done].
Qed.

(** * Filling the segments *)
(** What a segment holds: the bytes of the file, then zeros. *)
Definition seg_byte (f : list Z) (ph : Elf_Phdr) (k : Z) : Z :=
  if k <? p_filesz ph then f !!! Z.to_nat (p_offset ph + k) else 0.
(** The file has all of its bytes. *)
Definition in_file (f : list Z) (ph : Elf_Phdr) : Prop :=
  0 ≤ p_offset ph ∧ 0 ≤ p_filesz ph ∧ p_offset ph + Z.min (p_filesz ph) (p_memsz ph) ≤ Z.of_nat (length f).

Section fill.
Context (s : vmstate) (gs : list seg) (p : Z) (a : addrspace) (us js : list nat) (j0 : nat).
Hypothesis Hinv : as_inv s gs p a us js j0.
Hypothesis Hcur : t_addrspace s = p.
Hypothesis Hquiet : quiet s.
Hypothesis Hslot : ∀ t, 0 ≤ random_slot t < NUM_TLB.

Lemma wp_fill_pages v ph t m : tlb_ok a t → in_file (content v) ph → AddrSpaceSpec.seg_ok (p_vaddr ph) (p_memsz ph) → vstart a ≤ seg_base (p_vaddr ph) →
  (∀ x, p_vaddr ph ≤ x < p_vaddr ph + p_memsz ph → ∃ e, find_page (Z.land x PAGE_FRAME) (chain a) = Some e ∧ isWrite e = true) →
  wp (fill_segment v ph) (λ r s', r = inr tt ∧ ∃ t' m', tlb_ok a t' ∧
    stored a (p_vaddr ph) (slice (content v) (p_offset ph) (Z.min (p_filesz ph) (p_memsz ph))) m m' ∧ s' = with_um t' m' s) (with_um t m s).
Proof using Hinv Hcur Hquiet Hslot.
  intros Ht (Ho & Hf & Hl) Hseg Hst Hw. unfold fill_segment, load_segment. cbn [vop_read_user vm_elf_ops].
  replace (if p_memsz ph <? p_filesz ph then p_memsz ph else p_filesz ph) with (Z.min (p_filesz ph) (p_memsz ph)) by (destruct (Z.ltb_spec (p_memsz ph) (p_filesz ph)); lia).
  set (n := Z.min _ _) in *. pose proof Hseg as (_ & Hsz & _). assert (0 ≤ n ≤ p_memsz ph) as Hn by lia. set (l := slice (content v) (p_offset ph) n).
  assert (Z.of_nat (length l) = n) as Hll by (unfold l, slice; rewrite length_take, length_drop; lia). apply wp_bind_2. case_decide as Hd.
  - rewrite Hd in Hll. simpl in Hll. apply wp_ret. rewrite <-Hll. apply wp_ret. split; [done|]. exists t, m. split; [done|]. split; [|done]. rewrite Hd. split; [done|].
    intros x Hx. by rewrite bool_decide_eq_false_2 by (simpl; lia).
  - apply wp_bind_2. eapply wp_mono; [apply (wp_user_copyout junk random_slot s gs p a us js j0 Hinv Hcur Hquiet Hslot l t m (p_vaddr ph) Ht); [|done]|].
    + intros x Hx. destruct (seg_page _ _ x Hseg ltac:(lia)) as (Hx1 & k & Hk & Ep). split; [unfold USERSTACK, USERSPACETOP, MIPS_KSEG0 in *; lia|]. split; [|apply Hw; lia].
      split; [rewrite Ep; unfold PAGE_SIZE; lia|]. rewrite land_PAGE_FRAME by (unfold USERSTACK, USERSPACETOP, MIPS_KSEG0 in *; lia). pose proof (Z.mod_pos_bound x PAGE_SIZE ltac:(done)). lia.
    + intros r s' (-> & H). apply wp_ret. rewrite Hll, Z.sub_diag. by apply wp_ret.
Qed.
End fill.

(** * The whole image *)
Definition seg_content (f : list Z) (m : Z → Z) (a : addrspace) (ph : Elf_Phdr) : Prop :=
  ∀ k, 0 ≤ k < p_memsz ph → ubyte m a (p_vaddr ph + k) = Some (seg_byte f ph k).
Definition seg_perm (a : addrspace) (ph : Elf_Phdr) (w x : bool) : Prop := ∀ y, p_vaddr ph ≤ y < p_vaddr ph + p_memsz ph →
  ∃ e, find_page (Z.land y PAGE_FRAME) (chain a) = Some e ∧ isRead e = true ∧ isWrite e = w ∧ isExe e = x.
Record image_in_memory (f : list Z) (c d : Elf_Phdr) (p : Z) (s : vmstate) (gs : list seg) (s' : vmstate) (gs' : list seg) (a' : addrspace) : Prop := {
  im_as : vs_as s' !! p = Some a';
  im_pages : pages (vs_cm s') gs';
  im_code : seg_content f (vs_mem s') a' c;
  im_data : seg_content f (vs_mem s') a' d;
  im_code_perm : seg_perm a' c false true;
  im_data_perm : seg_perm a' d true false;
  im_only : length (live_chain (chain a')) = (seg_pages (p_vaddr c) (p_memsz c) + seg_pages (p_vaddr d) (p_memsz d))%nat;
  im_break : vbreaktop a' = seg_base (p_vaddr d) + Z.of_nat (seg_pages (p_vaddr d) (p_memsz d)) * PAGE_SIZE;
  im_cur : t_addrspace s' = p;
  im_others : ∀ q, q ≠ p → vs_as s' !! q = vs_as s !! q;
  im_mem : ∀ j k, gs !! j = Some (Used 1 k) → same_page (vs_mem s) (vs_mem s') (pgaddr (vs_cm s) j) (pgaddr (vs_cm s) j);
}.

(** A part of memory full of zeros. *)
Definition seg_zero (m : Z → Z) (a : addrspace) (va sz : Z) : Prop := ∀ x, va ≤ x < va + sz → ubyte m a x = Some 0.
Lemma blank_zero m a va sz : seg_blank m a va sz → seg_zero m a va sz.
Proof. intros Hb x Hx. destruct (Hb x Hx) as (e & He & _ & Hz). unfold ubyte. rewrite He. simpl. f_equal. by apply Hz, Z.mod_pos_bound. Qed.
(** Storing elsewhere leaves bytes alone. *)
Lemma stored_apart m m' a va sz addr l x : AddrSpaceSpec.seg_ok va sz → stored a addr l m m' → va ≤ x < va + sz →
  addr + Z.of_nat (length l) ≤ va ∨ va + sz ≤ addr → ubyte m' a x = ubyte m a x.
Proof.
  intros Hseg [_ Hs] Hx Ho. destruct (seg_page _ _ x Hseg Hx) as (Hb & _). unfold USERSTACK, USERSPACETOP, MIPS_KSEG0 in Hb.
  rewrite Hs by lia. by rewrite bool_decide_eq_false_2 by lia.
Qed.
(** The bytes of a segment after it was filled. *)
Lemma filled_content f ph m m' a : in_file f ph → AddrSpaceSpec.seg_ok (p_vaddr ph) (p_memsz ph) → seg_zero m a (p_vaddr ph) (p_memsz ph) →
  stored a (p_vaddr ph) (slice f (p_offset ph) (Z.min (p_filesz ph) (p_memsz ph))) m m' → seg_content f m' a ph.
Proof.
  intros (Ho & Hf & Hl) Hseg Hb [_ Hs] k Hk. set (x := p_vaddr ph + k). destruct (seg_page _ _ x Hseg ltac:(lia)) as (Hx & _). unfold USERSTACK, USERSPACETOP, MIPS_KSEG0 in Hx.
  rewrite Hs, (Hb x) by lia.
  assert (Z.of_nat (length (slice f (p_offset ph) (Z.min (p_filesz ph) (p_memsz ph)))) = Z.min (p_filesz ph) (p_memsz ph)) as -> by (unfold slice; rewrite length_take, length_drop; lia).
  unfold seg_byte. destruct (Z.ltb_spec k (p_filesz ph)).
  - rewrite bool_decide_eq_true_2 by lia. cbn [mbind option_bind]. replace (x - p_vaddr ph) with k by lia. unfold slice. rewrite lookup_take_lt, lookup_drop by lia.
    replace (Z.to_nat (p_offset ph) + Z.to_nat k)%nat with (Z.to_nat (p_offset ph + k)) by lia. apply list_lookup_lookup_total_lt. lia.
  - by rewrite bool_decide_eq_false_2 by lia.
Qed.
(** Protecting the pages changes no byte. *)
Lemma ubyte_prot m a a' ct dt x : live_chain (chain a') = prot ct dt <$> live_chain (chain a) → ubyte m a' x = ubyte m a x.
Proof.
  intros Hl. unfold ubyte. rewrite !find_page_live, Hl, lookup_v_prot. destruct (lookup_v _ _) as [e|]; [|done]. simpl. by rewrite prot_paddr.
Qed.

Lemma free_all_lookup l i : ∀ gs, free_all l gs !! i = if decide (i ∈ l) then (λ _, Free) <$> gs !! i else gs !! i.
Proof.
  induction l as [|j l IH]; intros gs; [done|]. rewrite free_all_cons, IH. destruct (decide (i = j)) as [->|Hne].
  - rewrite (decide_True (P := j ∈ j :: l)) by set_solver. destruct (decide (j < length gs)%nat) as [Hj|Hj].
    + rewrite list_lookup_insert_eq by done. destruct (lookup_lt_is_Some_2 _ _ Hj) as [g ->]. by case_decide.
    + rewrite list_insert_ge, lookup_ge_None_2 by lia. by case_decide.
  - rewrite list_lookup_insert_ne by done. destruct (decide (i ∈ l)), (decide (i ∈ j :: l)); (done || set_solver).
Qed.
(** The pages of a freshly filled address space were free before. *)
Lemma fresh_pages gs gs' us js j0 i k : free_all (own_all us js j0) gs' = free_all [j0] gs → owned gs' (own_all us js j0) →
  i ∈ us → gs !! i ≠ Some (Used 1 k).
Proof.
  intros Hf [Hnd Hu] Hi Hg. apply (f_equal (lookup i)) in Hf. rewrite !free_all_lookup in Hf.
  assert (i ∈ own_all us js j0) as Hin by (unfold own_all; set_solver). assert (i ≠ j0) as Hne.
  { intros ->. unfold own_all in Hnd. apply NoDup_app in Hnd as (_ & Hnd & _). apply (Hnd j0 Hi). set_solver. }
  rewrite decide_True in Hf by done. rewrite decide_False, Hg in Hf by set_solver. destruct (Hu i Hin) as [k' Hk']. by rewrite Hk' in Hf.
Qed.

Lemma grow_quiet p s gs s' gs' : vm_grow p s gs s' gs' → quiet s → quiet s'.
Proof. intros [(l & E) Et _ _ _ _ _] (H1 & H2 & H3). unfold quiet. rewrite E, Et. split; [exact H1|]. by split. Qed.
Lemma tlb_empty a t : length t = 64%nat → Forall (λ e, Z.land e.2 TLBLO_VALID = 0) t → tlb_ok a t.
Proof. intros Hl Ht. split; [done|]. intros i hi lo Hi Hv. exfalso. apply Hv. exact (proj1 (Forall_lookup _ _) Ht i _ Hi). Qed.
Lemma image_apart cv csz dv dsz : image_ok cv csz dv dsz → cv + csz ≤ dv.
Proof.
  intros [Hc Hd Ho _]. pose proof Hc as (Hc0 & Hc1 & _). unfold seg_base, seg_pages, PAGE_SIZE in Ho. destruct Hd as (Hd0 & _).
  pose proof (Z.mod_pos_bound dv 4096 ltac:(lia)). pose proof (Z.mod_pos_bound cv 4096 ltac:(lia)). pose proof (Z.div_mod (cv mod 4096 + csz + 4095) 4096 ltac:(lia)).
  pose proof (Z.mod_pos_bound (cv mod 4096 + csz + 4095) 4096 ltac:(lia)). lia.
Qed.

(** Both segments filled, from the state after [as_prepare_load]. *)
Lemma wp_fill_both v c d s gs p us js j0 s3 gs3 a3 us3 js3 es1 es2 : (∀ t, 0 ≤ random_slot t < NUM_TLB) → quiet s → Forall (λ e, Z.land e.2 TLBLO_VALID = 0) (vs_tlb s) →
  image_ok (p_vaddr c) (p_memsz c) (p_vaddr d) (p_memsz d) → in_file (content v) c → in_file (content v) d → t_addrspace s3 = p →
  prepared s gs p us js j0 (p_vaddr c) (p_memsz c) (p_vaddr d) (p_memsz d) s3 gs3 a3 us3 js3 es1 es2 →
  wp (each [c; d] (fill_segment v)) (λ r s', r = None ∧ ∃ t m, s' = with_um t m s3 ∧ same_outside a3 (vs_mem s3) m ∧
    seg_content (content v) m a3 c ∧ seg_content (content v) m a3 d) s3.
Proof.
  intros Hslot Hq Ht Himg Fc Fd Hcur [Hinv Hg Hf Hl L1 L2 F1 F2 Rv Rb Rt Rh Rc]. pose proof (grow_quiet _ _ _ _ _ Hg Hq) as Hq3. pose proof (image_apart _ _ _ _ Himg) as Hap.
  destruct (blank_segments a3 _ _ _ _ (vs_mem s3) es1 es2 Himg Hl L1 L2 F1 F2) as [Bc Bd]. pose proof Himg as [Ic Id Io It].
  assert (tlb_ok a3 (vs_tlb s3)) as T3 by (apply tlb_empty; rewrite (g_tlb _ _ _ _ _ Hg); [apply Hq|done]). assert (s3 = with_um (vs_tlb s3) (vs_mem s3) s3) as Es by (by destruct s3).
  assert (∀ f ph, in_file f ph → Z.of_nat (length (slice f (p_offset ph) (Z.min (p_filesz ph) (p_memsz ph)))) ≤ Z.max 0 (p_memsz ph)) as Hlen.
  { intros f ph _. unfold slice. rewrite length_take. lia. }
  refine (eq_ind (with_um (vs_tlb s3) (vs_mem s3) s3) (λ st, wp (each [c; d] (fill_segment v)) _ st) _ s3 (eq_sym Es)). cbn [each]. apply wp_bind_2. eapply wp_mono.
  { apply (wp_fill_pages s3 gs3 p a3 us3 js3 j0 Hinv Hcur Hq3 Hslot v c _ _ T3 Fc Ic); [lia|]. intros x Hx. destruct (Bc x Hx) as (e & ? & ? & _). by exists e. }
  intros r s4 (-> & t4 & m4 & T4 & S4 & ->). apply wp_bind_2. pose proof Ic as (Hc0 & Hc1 & _). pose proof Id as (Hd0 & Hd1 & _). eapply wp_mono.
  { apply (wp_fill_pages s3 gs3 p a3 us3 js3 j0 Hinv Hcur Hq3 Hslot v d _ _ T4 Fd Id); [destruct (seg_arith _ _ Ic) as (_ & _ & _ & Hn & _); unfold PAGE_SIZE in *; lia|].
    intros x Hx. destruct (Bd x Hx) as (e & ? & ? & _). by exists e. }
  intros r s5 (-> & t5 & m5 & T5 & S5 & ->). apply wp_ret. split; [done|]. exists t5, m5. split; [done|]. split.
  { intros x Hx. rewrite (proj1 S5 x Hx). by apply (proj1 S4). }
  pose proof (Hlen _ c Fc) as Lc. split.
  - intros k Hk. rewrite (stored_apart m4 m5 a3 (p_vaddr c) (p_memsz c) _ _ (p_vaddr c + k) Ic S5) by lia. by apply (filled_content _ c _ _ _ Fc Ic (blank_zero _ _ _ _ Bc) S4).
  - apply (filled_content _ d m4 m5 a3 Fd Id); [|done]. intros x Hx. rewrite (stored_apart _ m4 a3 (p_vaddr d) (p_memsz d) _ _ x Id S4) by lia. exact (blank_zero _ _ _ _ Bd x Hx).
Qed.

(** C3: [load_elf] of a file with a code and a data segment puts the program into memory: it
    returns the entry point of the file; in the address space every byte of a segment
    is the byte of the file, and zero past the bytes the file has; code can be read and
    executed, data read and written; only pages of the segments are mapped; other address
    spaces and pages in use before are as they were. *)
Theorem elf_program_in_memory v entry c d s gs p a j0 : (∀ t, 0 ≤ random_slot t < NUM_TLB) →
  parse_elf (content v) = Some (entry, ([c; d], Fine)) → image_ok (p_vaddr c) (p_memsz c) (p_vaddr d) (p_memsz d) → in_file (content v) c → in_file (content v) d →
  as_inv s gs p a [] [] j0 → t_addrspace s = p → quiet s → Forall (λ e, Z.land e.2 TLBLO_VALID = 0) (vs_tlb s) →
  codeNPages a = 0 → dataNPages a = 0 → heapNPages a = 0 → (2 * (seg_pages (p_vaddr c) (p_memsz c) + seg_pages (p_vaddr d) (p_memsz d)) ≤ nfree gs)%nat →
  wp (load_elf v) (λ r s', r = inr entry ∧ ∃ gs' a', image_in_memory (content v) c d p s gs s' gs' a') s.
Proof.
  intros Hslot Hparse Himg Fc Fd Hinv Hcur Hq Ht Hc Hd Hh Hn. assert (live_chain (chain a) = []) as Hlive by (destruct Hinv as [_ _ _ [Hou _ _ _]]; by apply fmap_nil_inv in Hou).
  eapply wp_ext; [intros t; apply (load_elf_once v (content v)); done|]. rewrite Hparse. unfold load_image. apply wp_bind_2. cbn [each]. unfold define_segment. cbn [op_define_region vm_elf_ops].
  apply wp_bind_2, wp_bind_2, wp_gets. rewrite Hcur. eapply wp_mono; [by eapply wp_prepare_regions|]. intros r s1 (-> & Hs1 & H1).
  apply wp_bind_2, wp_bind_2, wp_gets. rewrite Hs1. eapply wp_mono; [exact H1|]. intros r s2 (-> & Hs2 & H2).
  apply wp_ret, wp_bind_2, wp_ret, wp_bind_2. cbn [op_prepare_load vm_elf_ops]. apply wp_bind_2, wp_gets. rewrite Hs2. eapply wp_mono; [exact H2|].
  intros r s3 (-> & Hs3 & gs3 & a3 & us3 & js3 & es1 & es2 & Hpr). apply wp_bind_2. eapply wp_mono; [by eapply wp_fill_both|].
  intros r s4 (-> & t & m & -> & Hout & Cc & Cd). destruct Hpr as [Hinv3 Hg3 Hf3 Hl3 L1 L2 F1 F2 Rv Rb Rt Rh Rc]. apply wp_bind_2. cbn [op_complete_load vm_elf_ops]. apply wp_bind_2, wp_gets.
  cbn [t_addrspace with_um]. rewrite Hs3. destruct (image_found _ _ _ _ (vs_mem s3) es1 es2 Himg L1 L2 F1 F2) as [Pc Pd]. pose proof Himg as [Ic Id Io It].
  eapply wp_as_complete_load; [by apply with_um_inv|]. destruct (seg_arith _ _ Ic) as (_ & _ & _ & _ & Hc0 & _), (seg_arith _ _ Id) as (_ & _ & _ & _ & Hd0 & _).
  unfold PAGE_SIZE, STACK_BASE in *. rewrite Rv, Rc, Rb. rewrite (u32_id (4096 * _)), u32_id, (Z.mul_comm 4096) by lia. cbv zeta. intros Hl4 Hinv4. apply wp_ret. split; [done|].
  eexists gs3, _. constructor; [apply Hinv4|apply Hinv4| | | | | |by simpl; rewrite Rt, Rb|done| |].
  - intros k Hk. cbn [vs_mem set_ases with_um]. rewrite (ubyte_prot m a3 _ _ _ _ Hl4). by apply Cc.
  - intros k Hk. cbn [vs_mem set_ases with_um]. rewrite (ubyte_prot m a3 _ _ _ _ Hl4). by apply Cd.
  - intros y Hy. destruct (seg_page _ _ y Ic Hy) as (_ & k & Hk & ->). destruct (Pc k Hk) as (e & He & ? & ? & ? & _). exists e. unfold PAGE_SIZE in *. rewrite find_page_live, Hl4, Hl3. by split_and!.
  - intros y Hy. destruct (seg_page _ _ y Id Hy) as (_ & k & Hk & ->). destruct (Pd k Hk) as (e & He & ? & ? & ? & _). exists e. unfold PAGE_SIZE in *. rewrite find_page_live, Hl4, Hl3. by split_and!.
  - by rewrite Hl4, length_fmap, Hl3, length_app, L1, L2.
  - intros q Hq'. cbn [vs_as set_ases with_um]. rewrite lookup_insert_ne by done. by apply (g_as _ _ _ _ _ Hg3).
  - intros j k Hj o Ho. cbn [vs_mem set_ases with_um]. rewrite (g_mem _ _ _ _ _ Hg3 j k Hj o Ho). symmetry. apply Hout. intros e He Hin.
    destruct Hinv3 as [_ _ _ [Hou _ _ Hown]]. apply list_elem_of_lookup_1 in He as [i Hi]. apply (f_equal (lookup i)) in Hou. rewrite !list_lookup_fmap, Hi in Hou. simpl in Hou.
    destruct (us3 !! i) as [u|] eqn:Hu; [|done]. injection Hou as Hou. assert (u ≠ j) as Hne.
    { intros ->. by apply (fresh_pages gs gs3 us3 js3 j0 j k Hf3 Hown (list_elem_of_lookup_2 _ _ _ Hu)). }
    rewrite (vm_grow_pgaddr _ _ _ _ _ u Hg3) in Hou. rewrite Hou in Hin. by apply (pgaddr_disjoint (vs_cm s) j u o).
Qed.
End loading.

(** A program of eight bytes of code and four of data, with a header that is skipped. *)
Module ElfDemo.
Definition half (w : Z) : list Z := [w / 256; w mod 256].
Definition header : list Z :=
  [0x7f; 69; 76; 70; 1; 2; 1] ++ replicate 9 0 ++ half 2 ++ half 8 ++ word_bytes 1 ++ word_bytes 0x400004 ++ word_bytes 52 ++
  word_bytes 0 ++ word_bytes 0 ++ half 52 ++ half 32 ++ half 3 ++ half 0 ++ half 0 ++ half 0.
Definition segment (ph : Elf_Phdr) : list Z :=
  word_bytes (p_type ph) ++ word_bytes (p_offset ph) ++ word_bytes (p_vaddr ph) ++ word_bytes (p_paddr ph) ++
  word_bytes (p_filesz ph) ++ word_bytes (p_memsz ph) ++ word_bytes (p_flags ph) ++ word_bytes (p_align ph).
Definition info : Elf_Phdr := Phdr PT_MIPS_REGINFO 0 0 0 0 0 0 0.
Definition code : Elf_Phdr := Phdr PT_LOAD 148 0x400000 0 8 6000 5 4096.
Definition data : Elf_Phdr := Phdr PT_LOAD 156 0x402100 0 4 100 6 4096.
Definition file : list Z := header ++ segment info ++ segment code ++ segment data ++ [60; 28; 0; 1; 3; 224; 0; 8] ++ [1; 2; 3; 4].
Definition ops : ElfOps vmstate := vm_elf_ops demo_junk demo_slot (λ _, file).
End ElfDemo.

Lemma elf_program_in_memory_witness : parse_elf ElfDemo.file = Some (0x400004, ([ElfDemo.code; ElfDemo.data], Fine)) ∧
  wp (load_elf (EO := ElfDemo.ops) 1) (λ r s', r = inr 0x400004 ∧ ∃ gs' a', image_in_memory ElfDemo.file ElfDemo.code ElfDemo.data demo_p (blank_vm 6) (demo_gs 6) s' gs' a') (blank_vm 6).
Proof.
  assert (parse_elf ElfDemo.file = Some (0x400004, ([ElfDemo.code; ElfDemo.data], Fine))) as Hp by (vm_compute; reflexivity). split; [exact Hp|].
  apply (elf_program_in_memory demo_junk demo_slot (λ _, ElfDemo.file) 1 0x400004 ElfDemo.code ElfDemo.data (blank_vm 6) (demo_gs 6) demo_p blank_as 0).
  - apply demo_slot_ok.
  - exact Hp.
  - apply demo_image.
  - split; [|split]; vm_compute; discriminate.
  - split; [|split]; vm_compute; discriminate.
  - apply blank_inv. lia.
  - reflexivity.
  - exact (demo_quiet 6).
  - by apply Forall_replicate.
  - reflexivity.
  - reflexivity.
  - reflexivity.
  - by rewrite demo_nfree.
Defined.

(** * A failed [execv] and the TLB

    The steps of [sys_execv] around a failing [load_elf]: the translations made while the
    segments were filled stay in the TLB after the old address space is current again. *)
Definition failing_exec (v : Z) : M vmstate (result Z) :=
  oldaddr ← gets t_addrspace;
  temp_as ← as_create demo_junk;
  AddrSpaceSpec.set_current temp_as;;
  as_activate;;
  r ← load_elf (EO := vm_elf_ops demo_junk demo_slot (λ _, take 157 ElfDemo.file)) v;
  AddrSpaceSpec.set_current oldaddr;;
  as_destroy temp_as;;
  mret r.
Lemma failed_exec_keeps_translations : match failing_exec 1 (demo_vm 8) with
  | Ok (r, s') => r = inl ENOEXEC ∧ t_addrspace s' = demo_p ∧
      ∃ frame e, tlb_lookup 0x400000 (vs_tlb s') = Some frame ∧ find_page 0x400000 (chain demo_as) = Some e ∧ page_paddr e = 0x2000 ∧ frame = 0x5000 ∧
        coremap (vs_cm s') !! 4%nat = Some free_entry ∧ pgaddr (vs_cm s') 4 = frame
  | _ => False
  end.
Proof. vm_compute. split; [reflexivity|]. split; [reflexivity|]. eexists _, _. repeat (split; [reflexivity|]). reflexivity. Qed.
