(* ===== verification/Exec.v ===== *)
(** Starting programs: [sys_execv] ([kern/syscall/process_syscalls.c]) and [runprogram]
    ([kern/syscall/runprogram.c]), up to [enter_new_process].

    The semaphore [execvSem] is its count, as in [ProcSys]; the kernel heap is
    [SynchObj.kheap]. Files and address spaces are used through [ElfOps] and [ExecOps]. *)

From stdpp Require Import base tactics numbers list gmap.
From S2P Require Import Prelude KernDefs SynchObj CopyInOut Elf.
Local Open Scope Z_scope.

(** * Arguments on the stack *)
(** [strlen(arg)+1] rounded up as the code does it. *)
Definition padded (len : Z) : Z :=
  if 4 <? len then
    let l1 := len mod 4 in
    if l1 =? 1 then len + 3 else if l1 =? 2 then len + 2 else if l1 =? 3 then len + 1 else len
  else 4.

(** [copyout] of [len] bytes of a kernel buffer; reading past the buffer is undefined. The
    callers ignore the result. *)
Definition uout (src : list Z) (userdest len : Z) : M umem (result unit) := λ m,
  if Z.of_nat (length src) <? len then Undef else let '(m, r) := copyout m src userdest len in Ok (r, m).

(** The loop from the last argument to the first: [stackptr] and the array [argvptr], of which
    [None] was not written yet. *)
Fixpoint push_strings (n : nat) (args : list (list Z)) (stackptr : Z) (argvptr : list (option Z)) : M umem (Z * list (option Z)) :=
  match n with
  | O => mret (stackptr, argvptr)
  | S i =>
      arg ← of_opt (args !! i);
      if bool_decide (0 ∈ arg) then
        let len := padded (Z.of_nat (length (cstr arg)) + 1) in
        let stackptr := u32 (stackptr - len) in
        argvptr ← of_opt (zset (Z.of_nat i) (Some stackptr) argvptr);
        _ ← uout arg stackptr len;
        push_strings i args stackptr argvptr
      else undef
  end.
(** The pointers, below the strings. *)
Definition push_pointers (argc stackptr : Z) (argvptr : list (option Z)) : M umem Z :=
  let stackptr := u32 (stackptr - u32 (4 * argc * 4)) in
  ptrs ← of_opt (mapM id (take (Z.to_nat (argc + 1)) argvptr));
  _ ← uout (ptrs ≫= word_bytes) stackptr (4 * (argc + 1));
  mret stackptr.

(** All of it, with [room n] words reserved for the array: what [runprogram] does, and [sys_execv]
    but for the freeing of its buffers in between. *)
Definition push_args (room : nat → nat) (args : list (list Z)) (stackptr : Z) : M umem Z :=
  let n := length args in
  '(stackptr, argvptr) ← push_strings n args stackptr (replicate (room n) None);
  argvptr ← of_opt (zset (Z.of_nat n) (Some 0) argvptr);
  push_pointers (Z.of_nat n) stackptr argvptr.

(** What [enter_new_process] is given. *)
Record entry_state := Enter { en_argc : Z; en_argv : Z; en_stack : Z; en_pc : Z }.

Class ExecOps (E : Type) := {
  xo_mem : E → umem;                     (* user memory of the current address space *)
  xo_set_mem : umem → E → E;
  xo_current : E → Z;                    (* curthread->t_addrspace *)
  xo_set_current : Z → E → E;
  xo_open : list Z → M E (result Z);     (* vfs_open for reading *)
  xo_close : Z → M E unit;
  xo_create : M E Z;
  xo_activate : Z → M E unit;
  xo_destroy : Z → M E unit;
  xo_define_stack : Z → M E (result Z);
}.

(** Sizes: the slots of [kargv], and the block [kmalloc] gives for [NAME_MAX] bytes and for one. *)
Definition KARGV_SLOTS : Z := 512.
Definition KARG_BLOCK : nat := 256.
Definition CHECK_BYTES : Z := 16.

Section exec.
Context {E : Type} {EO : ElfOps E} {XO : ExecOps E}.
(** The words the compiler reserves for the array [vaddr_t argvptr[n]], and what a new block holds. *)
Context (room : nat → nat) (junk : Z → nat → Z).

Record xsys := XSys { x_sem : Z; x_heap : kheap; x_env : E }.
#[export] Instance xsys_heap : Sub xsys kheap.
Proof. refine {| sub_get := x_heap; sub_put h x := XSys (x_sem x) h (x_env x) |}; by intros []. Defined.
#[export] Instance xsys_env : Sub xsys E.
Proof. refine {| sub_get := x_env; sub_put e x := XSys (x_sem x) (x_heap x) e |}; by intros []. Defined.

Definition sem_P : M xsys unit :=
  x ← getS; if 0 <? x_sem x then putS (XSys (x_sem x - 1) (x_heap x) (x_env x)) else diverge.
Definition sem_V : M xsys unit := modify (λ x, XSys (s32 (x_sem x + 1)) (x_heap x) (x_env x)).
Definition mem_do {A} (m : M umem A) : M E A := λ e,
  match m (xo_mem e) with
  | Ok (a, u) => Ok (a, xo_set_mem u e)
  | Panic => Panic | Undef => Undef | Diverge => Diverge
  end.
Definition umem_now : M xsys umem := gets (xo_mem ∘ x_env).
Definition set_current (p : Z) : M E unit := modify (xo_set_current p).

(** The kernel reads [*a] of user memory without [copyin]: a fault there is fatal. *)
Definition user_word (a : Z) : M xsys Z :=
  m ← umem_now;
  if USERSPACETOP <? a + 4 then undef
  else match memcpy_in m a 4 with Some l => mret (bytes_word l) | None => panic end.

(** [while(argv[argc] != NULL)]: the blocks with the arguments so far. *)
Fixpoint copy_args (n : nat) (kargv argv argc : Z) (kargs : list (Z * list Z)) : M xsys (result (list (Z * list Z))) :=
  match n with
  | O => diverge
  | S n =>
      w ← user_word (argv + 4 * argc);
      if (kargv =? 0) || (KARGV_SLOTS <=? argc) then undef
      else if w =? 0 then mret (inr kargs)
      else
        k ← zoom kmalloc;
        m ← umem_now;
        let '(stored, r) := copyinstr m w NAME_MAX in
        match (if k =? 0 then inl EFAULT else r) with
        | inl e => sem_V;; mret (inl e)
        | inr _ =>
            if ARG_MAX <=? argc + 1 then sem_V;; mret (inl E2BIG)
            else copy_args n kargv argv (argc + 1) (kargs ++ [(k, stored)])
        end
  end.
Definition karg_bytes (a : Z * list Z) : list Z :=
  a.2 ++ (junk a.1 <$> seq (length a.2) (KARG_BLOCK - length a.2)).

(** The check of [argv] as if it were a string, through a block of one byte. *)
Definition check_argv (argv : Z) : M xsys (option errno) :=
  check ← zoom kmalloc;
  m ← umem_now;
  let '(stored, r) := copyinstr m argv NAME_MAX in
  if check =? 0 then mret (Some EFAULT)
  else if CHECK_BYTES <? Z.of_nat (length stored) then undef
  else zoom (kfree check);; mret (match r with inl e => Some e | inr _ => None end).

(** From the new address space on. *)
Definition exec_load (vn : Z) (kargv : Z) (kargs : list (Z * list Z)) : M xsys (result entry_state) :=
  oldaddr ← gets (xo_current ∘ x_env);
  temp_as ← zoom xo_create;
  if temp_as =? 0 then sem_V;; zoom (xo_close vn);; mret (inl ENOMEM)
  else
    zoom (set_current temp_as);;
    zoom (xo_activate temp_as);;
    r ← zoom (load_elf vn);
    match r with
    | inl e => sem_V;; zoom (set_current oldaddr);; zoom (xo_close vn);; zoom (xo_destroy temp_as);; mret (inl e)
    | inr entrypoint =>
        zoom (xo_close vn);;
        r ← zoom (xo_define_stack temp_as);
        match r with
        | inl e => sem_V;; zoom (set_current oldaddr);; zoom (xo_destroy temp_as);; mret (inl e)
        | inr stackptr =>
            zoom (xo_destroy oldaddr);;
            let n := length kargs in
            '(stackptr, argvptr) ← zoom (mem_do (push_strings n (karg_bytes <$> kargs) stackptr (replicate (room n) None)));
            argvptr ← of_opt (zset (Z.of_nat n) (Some 0) argvptr);
            foldr (λ a m, zoom (kfree a.1);; m) (mret tt) kargs;;
            zoom (kfree kargv);;
            stackptr ← zoom (mem_do (push_pointers (Z.of_nat n) stackptr argvptr));
            mret (inr (Enter (Z.of_nat n) stackptr stackptr entrypoint))
        end
    end.

Definition sys_execv (progname argv : Z) : M xsys (result entry_state) :=
  sem_P;;
  if argv =? 0 then sem_V;; mret (inl EFAULT)
  else
    r ← check_argv argv;
    match r with
    | Some e => sem_V;; mret (inl e)
    | None =>
        m ← umem_now;
        match copyinstr m progname PATH_MAX with
        | (_, inl e) => sem_V;; mret (inl e)
        | (dest, inr _) =>
            r ← zoom (xo_open (removelast dest));
            match r with
            | inl e => sem_V;; mret (inl e)
            | inr vn =>
                kargv ← zoom kmalloc;
                r ← copy_args (S (Z.to_nat KARGV_SLOTS)) kargv argv 0 [];
                match r with
                | inl e => mret (inl e)
                | inr kargs => exec_load vn kargv kargs
                end
            end
        end
    end.

(** [runprogram]: the first program, started from the menu with kernel strings. *)
Definition runprogram (progname : list Z) (args : list (list Z)) : M E (result entry_state) :=
  r ← xo_open progname;
  match r with
  | inl e => mret (inl e)
  | inr v =>
      e ← getS;
      kassert (xo_current e =? 0);;
      a ← xo_create;
      set_current a;;
      if a =? 0 then xo_close v;; mret (inl ENOMEM)
      else
        xo_activate a;;
        r ← load_elf v;
        xo_close v;;
        match r with
        | inl e => mret (inl e)
        | inr entrypoint =>
            r ← xo_define_stack a;
            match r with
            | inl e => mret (inl e)
            | inr stackptr =>
                stackptr ← mem_do (push_args room args stackptr);
                mret (inr (Enter (Z.of_nat (length args)) stackptr stackptr entrypoint))
            end
        end
  end.
End exec.
