(* ===== verification/ExecSpec.v ===== *)
(** What a started program finds: its arguments on the stack; and which pointer and semaphore count a
    failed [execv] leaves. *)

From stdpp Require Import base tactics numbers list gmap.
From S2P Require Import Prelude KernDefs SynchObj CopyInOut Elf Exec.
Local Open Scope Z_scope.

(** * Stores of user memory *)
Definition can_write (m : umem) (lo hi : Z) : Prop := ∀ x, lo ≤ x < hi → is_Some (um_read m x) ∧ um_writable m x = true.
(** [m'] is [m] but for the bytes from [lo] to [hi]. *)
Record changed (m m' : umem) (lo hi : Z) : Prop := {
  ch_keep : ∀ x, x < lo ∨ hi ≤ x → um_read m' x = um_read m x;
  ch_some : ∀ x, is_Some (um_read m x) → is_Some (um_read m' x);
  ch_wr : ∀ x, um_writable m' x = um_writable m x;
}.
Lemma changed_trans m1 m2 m3 lo mid hi : changed m1 m2 mid hi → changed m2 m3 lo mid → lo ≤ mid ≤ hi → changed m1 m3 lo hi.
Proof.
  intros [K1 S1 W1] [K2 S2 W2] Hm. constructor.
  - intros x Hx. rewrite K2 by lia. apply K1. lia.
  - auto.
  - intros x. by rewrite W2, W1.
Qed.
Lemma changed_write m m' lo hi a b : changed m m' lo hi → can_write m a b → can_write m' a b.
Proof. intros [K S W] Hc x Hx. destruct (Hc x Hx) as [H1 H2]. split; [by apply S|by rewrite W]. Qed.
Lemma changed_bytes m m' lo hi a l : changed m m' lo hi → user_bytes m a l → a + Z.of_nat (length l) ≤ lo ∨ hi ≤ a → user_bytes m' a l.
Proof. intros [K _ _] Hb Ho i b Hi. pose proof (lookup_lt_Some _ _ _ Hi). rewrite K by lia. by apply Hb. Qed.

Lemma memcpy_out_total l : ∀ m a, can_write m a (a + Z.of_nat (length l)) →
  ∃ m', memcpy_out m a l = (m', true) ∧ changed m m' a (a + Z.of_nat (length l)) ∧ user_bytes m' a l.
Proof.
  induction l as [|b l IH]; intros m a Hc; cbn [memcpy_out length].
  - exists m. split; [done|]. split; [by constructor|by intros i x Hx].
  - destruct (Hc a ltac:(simpl; lia)) as [[x Hx] Hw]. rewrite Hx, Hw. assert (changed m (um_write m a b) a (a + 1)) as H1.
    { constructor; [|simpl; intros y; by destruct (y =? a)|done]. intros y Hy. simpl. by rewrite (proj2 (Z.eqb_neq _ _)) by lia. }
    destruct (IH (um_write m a b) (a + 1)) as (m' & -> & H2 & H3). { eapply changed_write; [exact H1|]. intros y Hy. apply Hc. simpl. lia. }
    exists m'. split; [done|]. split.
    + destruct H1 as [K1 S1 W1], H2 as [K2 S2 W2]. constructor; [|auto|intros y; by rewrite W2, W1]. intros y Hy. rewrite K2 by lia. apply K1. lia.
    + apply user_bytes_cons. split; [|done]. rewrite (ch_keep _ _ _ _ H2) by lia. simpl. by rewrite Z.eqb_refl.
Qed.
Lemma wp_uout m src a len : 0 ≤ a → 0 < len ≤ Z.of_nat (length src) → a + len ≤ USERSPACETOP → can_write m a (a + len) →
  wp (uout src a len) (λ _ m', changed m m' a (a + len) ∧ user_bytes m' a (take (Z.to_nat len) src)) m.
Proof.
  intros Ha Hl Ht Hc. unfold uout, wp. rewrite (proj2 (Z.ltb_ge _ _)) by lia. unfold copyout. unfold USERSPACETOP, MIPS_KSEG0 in *.
  rewrite copycheck_spec by (unfold uptr; lia). rewrite decide_False by (unfold USERSPACETOP, MIPS_KSEG0; lia). unfold USERSPACETOP, MIPS_KSEG0. rewrite (proj2 (Z.eqb_eq _ _)) by lia. cbn [negb].
  assert (Z.of_nat (length (take (Z.to_nat len) src)) = len) as El by (rewrite length_take; lia).
  destruct (memcpy_out_total (take (Z.to_nat len) src) m a) as (m' & -> & H1 & H2); [by rewrite El|]. by rewrite El in H1.
Qed.

(** * The strings *)
Lemma padded_spec len : 0 < len → len ≤ padded len < len + 4 ∧ padded len mod 4 = 0 ∧ 4 ≤ padded len.
Proof.
  intros Hl. unfold padded. pose proof (Z.div_mod len 4 ltac:(lia)). pose proof (Z.mod_pos_bound len 4 ltac:(lia)).
  destruct (Z.ltb_spec 4 len).
  - repeat case_match; zbool.
    all: match goal with |- _ ∧ ?e mod 4 = 0 ∧ _ => assert (e mod 4 = 0); [|lia] end.
    + replace (len + 3) with ((len / 4 + 1) * 4) by lia. apply Z.mod_mul. lia.
    + replace (len + 2) with ((len / 4 + 1) * 4) by lia. apply Z.mod_mul. lia.
    + replace (len + 1) with ((len / 4 + 1) * 4) by lia. apply Z.mod_mul. lia.
    + assert (len mod 4 = 0) by lia. done.
  - done || (split; [lia|]; split; [done|lia]).
Qed.
(** Room a string takes on the stack, and all of them. *)
Definition slot (s : list Z) : Z := padded (Z.of_nat (length s) + 1).
Definition slots (ss : list (list Z)) : Z := foldr (λ s n, slot s + n) 0 ss.
(** A kernel buffer that holds a string, and as many bytes after it as are copied. *)
Definition holds (s b : list Z) : Prop := Forall (λ c, c ≠ 0) s ∧ (∃ tail, b = s ++ 0 :: tail) ∧ slot s ≤ Z.of_nat (length b).

Lemma slots_cons s ss : slots (s :: ss) = slot s + slots ss.
Proof. done. Qed.
Lemma slots_app ss tt : slots (ss ++ tt) = slots ss + slots tt.
Proof. induction ss as [|s ss IH]; [done|]. cbn [app]. rewrite !slots_cons, IH. lia. Qed.
Lemma slots_mod ss : slots ss mod 4 = 0 ∧ 4 * Z.of_nat (length ss) ≤ slots ss.
Proof.
  induction ss as [|s ss [IH1 IH2]]; [done|]. rewrite slots_cons. cbn [length]. destruct (padded_spec (Z.of_nat (length s) + 1) ltac:(lia)) as (_ & Hm & H4). fold (slot s) in *.
  rewrite Z.add_mod, Hm, IH1 by lia. split; [done|lia].
Qed.

(** Each pointer leads to its string, inside the part of the stack given. *)
Definition points (m : umem) (lo hi : Z) (p : Z) (s : list Z) : Prop := lo ≤ p ∧ p + slot s ≤ hi ∧ p mod 4 = 0 ∧ user_bytes m p (s ++ [0]).

Lemma points_kept m m' lo hi lo' hi' p s : points m lo hi p s → changed m m' lo' hi' → hi' ≤ lo → points m' lo hi p s.
Proof. intros (H1 & H2 & H3 & H4) Hc Hle. split_and!; [done..|]. eapply changed_bytes; [exact Hc|done|lia]. Qed.
Lemma points_wider m lo hi lo' hi' p s : points m lo hi p s → lo' ≤ lo → hi ≤ hi' → points m lo' hi' p s.
Proof. intros (H1 & H2 & H3 & H4) Hl Hh. by split_and!; [lia|lia|..]. Qed.

Lemma drop_insert_here {A} (l : list A) i x : (i < length l)%nat → drop i (<[i := x]> l) = x :: drop (S i) l.
Proof. intros Hi. rewrite (drop_S _ x i) by (by apply list_lookup_insert_eq). f_equal. by rewrite drop_insert_lt by lia. Qed.

Lemma wp_push_strings args bufs : Forall2 holds args bufs → ∀ n sp ptrs m, (n ≤ length args)%nat → (n ≤ length ptrs)%nat →
  sp mod 4 = 0 → sp ≤ USERSPACETOP → 0 ≤ sp - slots (take n args) → can_write m (sp - slots (take n args)) sp →
  wp (push_strings n bufs sp ptrs) (λ r m', r.1 = sp - slots (take n args) ∧ changed m m' r.1 sp ∧
    ∃ ps, length ps = n ∧ r.2 = (Some <$> ps) ++ drop n ptrs ∧ Forall2 (points m' r.1 sp) ps (take n args)) m.
Proof.
  intros Hh. induction n as [|i IH]; intros sp ptrs m Hn Hp Hm Ht H0 Hc; cbn [push_strings].
  - apply wp_ret. cbn [fst snd]. simpl. split; [lia|]. split; [by constructor|]. exists []. split; [done|]. split; [done|constructor].
  - destruct (lookup_lt_is_Some_2 args i ltac:(lia)) as [s Hs]. destruct (Forall2_lookup_l _ _ _ _ _ Hh Hs) as (b & Hb & Hz & (tail & Eb) & Hlen).
    rewrite (take_S_r _ _ _ Hs), slots_app in *. cbn [slots foldr] in *. rewrite Z.add_0_r in *. destruct (slots_mod (take i args)) as [_ Hpos].
    destruct (padded_spec (Z.of_nat (length s) + 1) ltac:(lia)) as (Hpl & Hpm & Hp4). fold (slot s) in *.
    apply wp_bind_2. eapply wp_of_opt; [exact Hb|]. rewrite bool_decide_eq_true_2 by (rewrite Eb; apply elem_of_app; right; by left).
    assert (cstr b = s) as Ec by (rewrite Eb; by apply cstr_end). rewrite Ec. fold (slot s). unfold USERSPACETOP, MIPS_KSEG0 in *. rewrite u32_id by lia.
    set (sp1 := sp - slot s) in *. apply wp_bind_2. eapply wp_of_opt; [apply zset_nat; lia|]. apply wp_bind_2.
    eapply wp_mono; [apply (wp_uout m b sp1 (slot s)); [lia|lia|unfold USERSPACETOP, MIPS_KSEG0; lia|]|].
    { intros x Hx. apply Hc. lia. }
    intros _ m1 [C1 B1]. replace (sp1 + slot s) with sp in C1 by lia. assert (points m1 sp1 sp sp1 s) as P1.
    { split; [lia|]. split; [lia|]. split; [unfold sp1; by rewrite Zminus_mod, Hm, Hpm|]. intros k x Hk. apply B1. rewrite lookup_take_lt by (apply lookup_lt_Some in Hk; rewrite length_app in Hk; simpl in Hk; lia).
      rewrite Eb. change (0 :: tail) with ([0] ++ tail). rewrite app_assoc. by apply lookup_app_l_Some. }
    eapply wp_mono; [apply (IH sp1 (<[i := Some sp1]> ptrs) m1)|].
    + lia.
    + rewrite length_insert. lia.
    + unfold sp1. by rewrite Zminus_mod, Hm, Hpm.
    + lia.
    + lia.
    + eapply changed_write; [exact C1|]. intros x Hx. apply Hc. lia.
    + intros [sp' ptrs'] m' (-> & C2 & ps & Hl & -> & Hf). cbn [fst snd] in *. split; [lia|]. split; [eapply changed_trans; [exact C1|exact C2|lia]|].
      exists (ps ++ [sp1]). split; [rewrite length_app, Hl; simpl; lia|]. split; [rewrite drop_insert_here by lia; by rewrite fmap_app, <-app_assoc|].
      apply Forall2_app; [eapply Forall2_impl; [exact Hf|]; intros p q Hq; eapply points_wider; [exact Hq|lia|lia]|]. constructor; [|constructor].
      eapply points_wider; [eapply points_kept; [exact P1|exact C2|lia]|lia|lia].
Qed.

(** * The whole vector *)
Lemma mapM_ids (l : list Z) : mapM id (Some <$> l) = Some l.
Proof. apply mapM_Some_2, Forall2_fmap_l. by apply Forall_Forall2_diag, Forall_true. Qed.

Lemma words_bytes_length (l : list Z) : length (l ≫= word_bytes) = (4 * length l)%nat.
Proof. induction l as [|x l IH]; [done|]. rewrite bind_cons, length_app, IH. cbn [length word_bytes]. lia. Qed.

(** With room for the null word in the array. *)
Lemma wp_push_args (room : nat → nat) (args bufs : list (list Z)) (sp : Z) (m : umem) :
  args ≠ [] → Forall2 holds args bufs → (length args < room (length args))%nat → sp mod 4 = 0 → sp ≤ USERSPACETOP →
  let low := sp - slots args - 16 * Z.of_nat (length args) in 0 ≤ low → can_write m low sp →
  wp (push_args room bufs sp) (λ r m', r = low ∧ r mod 4 = 0 ∧ changed m m' low sp ∧
    ∃ ps, user_bytes m' r ((ps ++ [0]) ≫= word_bytes) ∧ Forall2 (points m' (r + 4 * Z.of_nat (length ps + 1)) sp) ps args) m.
Proof.
  intros Hne Hh Hroom Hm Ht low Hlow Hc. unfold push_args. rewrite <-(Forall2_length _ _ _ Hh). destruct (slots_mod args) as [Hsm Hs4].
  assert (0 < Z.of_nat (length args)) as Hn by (destruct args; simpl; [done|lia]). assert (low = sp - slots args - 16 * Z.of_nat (length args)) as Elow by done. clearbody low. remember (length args) as n eqn:En. apply wp_bind_2.
  eapply wp_mono; [apply (wp_push_strings args bufs Hh n sp (replicate (room n) None) m)|].
  { lia. } { rewrite length_replicate. lia. } { done. } { done. } { rewrite take_ge by lia. lia. }
  { rewrite take_ge by lia. intros x Hx. apply Hc. lia. }
  rewrite (take_ge args) by lia. intros [sp1 ptrs] m1 (E1 & C1 & ps & Hl & E2 & Hf). cbn [fst snd] in *. subst sp1 ptrs.
  apply wp_bind_2. rewrite drop_replicate. destruct (room n - n)%nat as [|k] eqn:Ek; [lia|]. cbn [replicate]. rewrite zset_nat by (rewrite length_app, length_fmap; simpl; lia).
  apply wp_ret. rewrite insert_app_r_alt, length_fmap, Hl, Nat.sub_diag by (rewrite length_fmap; lia). cbn [insert list_insert].
  unfold push_pointers, USERSPACETOP, MIPS_KSEG0 in *. rewrite (u32_id (_ * 4)), u32_id by lia. replace (sp - slots args - 4 * Z.of_nat n * 4) with low by lia.
  assert (take (Z.to_nat (Z.of_nat n + 1)) ((Some <$> ps) ++ Some 0 :: replicate k None) = Some <$> (ps ++ [0])) as ->.
  { rewrite fmap_app. change (Some 0 :: replicate k None) with ([Some 0] ++ replicate k (@None Z)). rewrite app_assoc, take_app_le by (rewrite length_app, length_fmap; simpl; lia).
    apply take_ge. rewrite length_app, length_fmap. simpl. lia. }
  apply wp_bind_2. eapply wp_of_opt; [apply mapM_ids|]. apply wp_bind_2.
  assert (length ((ps ++ [0]) ≫= word_bytes) = (4 * (n + 1))%nat) as Hwl by (rewrite words_bytes_length, length_app, Hl; simpl; lia).
  eapply wp_mono; [apply (wp_uout m1 _ low (4 * (Z.of_nat n + 1)))|].
  { done. } { lia. } { unfold USERSPACETOP, MIPS_KSEG0. lia. } { eapply changed_write; [exact C1|]. intros x Hx. apply Hc. lia. }
  intros _ m2 [C2 B2]. rewrite take_ge in B2 by lia. apply wp_ret. split; [done|]. split.
  { rewrite Elow, Zminus_mod, (Zminus_mod sp), Hm, Hsm. change 16 with (4 * 4). rewrite <-Z.mul_assoc, Z.mul_comm, Z.mod_mul by lia. done. }
  assert (changed m1 m2 low (sp - slots args)) as C2'.
  { destruct C2 as [K S' W]. constructor; [|done|done]. intros x Hx. apply K. lia. }
  split; [eapply changed_trans; [exact C1|exact C2'|lia]|]. exists ps. split; [done|].
  eapply Forall2_impl; [exact Hf|]. intros p s Hps. eapply points_wider; [eapply points_kept; [exact Hps|exact C2'|lia]| |lia]. rewrite Hl. lia.
Qed.

(** The strings alone, in the array as it is declared. *)
Lemma wp_strings_fit args bufs sp m : Forall2 holds args bufs → sp mod 4 = 0 → sp ≤ USERSPACETOP → 0 ≤ sp - slots args →
  can_write m (sp - slots args) sp →
  wp (push_strings (length args) bufs sp (replicate (length args) None)) (λ r m', r.1 = sp - slots args ∧ changed m m' r.1 sp ∧
    ∃ ps, r.2 = Some <$> ps ∧ Forall2 (points m' r.1 sp) ps args) m.
Proof.
  intros Hh Hm Ht H0 Hc. eapply wp_mono; [apply (wp_push_strings args bufs Hh (length args) sp (replicate (length args) None) m)|];
    rewrite ?length_replicate, ?(take_ge args) by lia; [done..|].
  intros r m' (E1 & C1 & ps & Hl & E2 & Hf). split; [done|]. split; [done|]. exists ps. split; [|done].
  by rewrite drop_replicate, Nat.sub_diag, app_nil_r in E2.
Qed.
(** The null word is stored past an array of exactly [n] words: the code has no defined behaviour
    unless the compiler happens to reserve more. *)
Lemma argv_array_overflows args bufs sp m : Forall2 holds args bufs → sp mod 4 = 0 → sp ≤ USERSPACETOP → 0 ≤ sp - slots args →
  can_write m (sp - slots args) sp → push_args (λ n, n) bufs sp m = Undef.
Proof.
  intros Hh Hm Ht H0 Hc. pose proof (wp_strings_fit _ _ _ _ Hh Hm Ht H0 Hc) as Hw.
  apply wp_exists in Hw as ([sp' ptrs] & m' & Hrun & _ & _ & ps & E2 & Hf). cbn [fst snd] in *. subst ptrs.
  unfold push_args. rewrite <-(Forall2_length _ _ _ Hh), (bind_ok _ _ _ _ _ Hrun). unfold zset.
  rewrite (proj2 (Z.ltb_ge _ _)), andb_false_r; [done|]. rewrite length_fmap, (Forall2_length _ _ _ Hf). lia.
Qed.
(** Without arguments the vector would lie above the stack: nothing is stored, and [argv] is the
    first address of the kernel. *)
Lemma exec_without_arguments (room : nat → nat) m : (0 < room 0)%nat → push_args room [] USERSPACETOP m = Ok (USERSPACETOP, m).
Proof. intros Hr. unfold push_args. cbn [length]. destruct (room 0%nat) as [|k]; [lia|]. done. Qed.

(** C30: how the arguments of a program reach its stack. The strings are stored from the top of
    the stack down, each null-terminated, aligned and in a slot of its own, and the array of
    their addresses, as large as it is declared, is filled in order. Then the code stores the
    null word at the index one past the end of that array: with the declared size it has no
    defined behaviour from there on, whatever the arguments. If the compiler reserves at least
    one word more and there is at least one argument, the stack pointer that results is aligned
    and points to one word for each argument and a null word; the words are pointers, in order,
    to the strings, which lie above the vector; and nothing outside the part of the stack taken
    is changed. With the extra word and no argument nothing is stored, and the vector is given
    as [USERSPACETOP]. *)
Theorem exec_arguments_on_stack (args bufs : list (list Z)) (sp : Z) (m : umem) :
  Forall2 holds args bufs → sp mod 4 = 0 → sp ≤ USERSPACETOP →
  let n := length args in
  let low := sp - slots args - 16 * Z.of_nat n in 0 ≤ low → can_write m low sp →
  wp (push_strings n bufs sp (replicate n None)) (λ r m', r.1 = sp - slots args ∧ changed m m' r.1 sp ∧
    ∃ ps, r.2 = Some <$> ps ∧ Forall2 (points m' r.1 sp) ps args) m ∧
  push_args (λ n, n) bufs sp m = Undef ∧
  (∀ room, (n < room n)%nat → args ≠ [] →
     wp (push_args room bufs sp) (λ r m', r = low ∧ r mod 4 = 0 ∧ changed m m' low sp ∧
       ∃ ps, user_bytes m' r ((ps ++ [0]) ≫= word_bytes) ∧ Forall2 (points m' (r + 4 * Z.of_nat (length ps + 1)) sp) ps args) m) ∧
  (∀ room, (n < room n)%nat → args = [] → sp = USERSPACETOP → push_args room bufs sp m = Ok (USERSPACETOP, m)).
Proof.
  intros Hh Hm Ht n low Hlow Hc.
  assert (can_write m (sp - slots args) sp) as Hc' by (intros x Hx; apply Hc; lia).
  split_and!; [apply wp_strings_fit; (done || lia)|eapply argv_array_overflows; (done || lia)|..].
  - intros room Hroom Hne. by apply wp_push_args.
  - intros room Hroom -> ->. apply Forall2_nil_inv_l in Hh as ->. by apply exec_without_arguments.
Qed.
(** [ls -l], on a stack page below [USERSPACETOP]. *)
Module ExecDemo.
Definition mem : umem := UMem (λ x, if (0x7ffff000 <=? x) && (x <? 0x80000000) then Some 7 else None) (λ _, true).
Definition args : list (list Z) := [[108; 115]; [45; 108]].
Definition bufs : list (list Z) := [[108; 115; 0; 9]; [45; 108; 0; 9]].
Lemma holds_all : Forall2 holds args bufs.
Proof.
  assert (∀ s, s ∈ args → holds s (s ++ [0; 9])) as H.
  { intros s Hs. repeat (apply elem_of_cons in Hs as [->|Hs]; [split; [by repeat constructor|]; split; [by exists [9]|by vm_compute]|]). by apply elem_of_nil in Hs. }
  constructor; [apply (H [108; 115]); set_solver|]. constructor; [apply (H [45; 108]); set_solver|]. constructor.
Qed.
Lemma stack_ok : can_write mem (0x80000000 - slots args - 32) 0x80000000.
Proof.
  intros x Hx. assert (slots args = 8) as E by by vm_compute. rewrite E in Hx. simpl. rewrite (proj2 (Z.leb_le _ _)), (proj2 (Z.ltb_lt _ _)) by lia. simpl. split; [by eexists|done].
Qed.
End ExecDemo.
Lemma exec_arguments_on_stack_witness : push_args (λ n, n) ExecDemo.bufs 0x80000000 ExecDemo.mem = Undef ∧
  wp (push_args S ExecDemo.bufs 0x80000000) (λ r m', r = 0x80000000 - 40 ∧
  ∃ ps, user_bytes m' r ((ps ++ [0]) ≫= word_bytes) ∧ Forall2 (points m' (r + 4 * Z.of_nat (length ps + 1)) 0x80000000) ps ExecDemo.args) ExecDemo.mem.
Proof.
  destruct (exec_arguments_on_stack ExecDemo.args ExecDemo.bufs 0x80000000 ExecDemo.mem) as (_ & Hu & Hw & _).
  - apply ExecDemo.holds_all.
  - reflexivity.
  - unfold USERSPACETOP, MIPS_KSEG0. lia.
  - vm_compute. discriminate.
  - apply ExecDemo.stack_ok.
  - split; [exact Hu|]. eapply wp_mono; [apply (Hw S); [simpl; lia|discriminate]|].
    intros r m' (-> & _ & _ & ps & H1 & H2). split; [reflexivity|]. exists ps. split; [exact H1|exact H2].
Defined.

(** * A failed [execv] *)
Definition wlp {S A} (m : M S A) (Q : A → S → Prop) (s : S) : Prop := ∀ a s', m s = Ok (a, s') → Q a s'.
Lemma wlp_ret {S A} (a : A) (Q : A → S → Prop) s : Q a s → wlp (mret a) Q s.
Proof. by intros H ? ? [= <- <-]. Qed.
Lemma wlp_bind {S A B} (m : M S A) (f : A → M S B) Q s : wlp m (λ a, wlp (f a) Q) s → wlp (mbind f m) Q s.
Proof. intros H b s2. unfold mbind, M_bind. destruct (m s) as [[a s1]| | |] eqn:E; try done. apply (H _ _ E). Qed.
Lemma wlp_mono {S A} (m : M S A) (P Q : A → S → Prop) s : wlp m P s → (∀ a s', P a s' → Q a s') → wlp m Q s.
Proof. intros H HQ a s' E. by apply HQ, H. Qed.

(** [m] does not change what [g] tells. *)
Definition keeps {S A B} (g : S → B) (m : M S A) : Prop := ∀ s, wlp m (λ _ s', g s' = g s) s.
Create HintDb keeps.
Section keeping.
Context {S B : Type} (g : S → B).
Lemma keeps_ret {A} (a : A) : keeps g (mret a).
Proof. intros s. by apply wlp_ret. Qed.
Lemma keeps_bind {A C} (m : M S A) (f : A → M S C) : keeps g m → (∀ a, keeps g (f a)) → keeps g (mbind f m).
Proof. intros Hm Hf s. apply wlp_bind. eapply wlp_mono; [apply Hm|]. intros a s1 <-. apply Hf. Qed.
Lemma keeps_gets {A} (f : S → A) : keeps g (gets f).
Proof. by intros s ? ? [= <- <-]. Qed.
Lemma keeps_undef {A} : keeps g (@undef S A).
Proof. by intros s ? ?. Qed.
Lemma keeps_of_opt {A} (o : option A) : keeps g (of_opt o).
Proof. destruct o; [apply keeps_ret|apply keeps_undef]. Qed.
Lemma keeps_for_ret {R} (body : Z → M S (option R)) : (∀ i, keeps g (body i)) → ∀ n i, keeps g (for_ret n i body).
Proof. intros Hb. induction n as [|n IH]; intros i; cbn [for_ret]; [apply keeps_ret|]. apply keeps_bind; [done|]. intros [r|]; [apply keeps_ret|done]. Qed.
End keeping.
#[export] Hint Resolve keeps_ret keeps_gets keeps_undef keeps_of_opt keeps_for_ret : keeps.
Ltac keeping := repeat (match goal with
  | |- keeps _ (mbind _ _) => apply keeps_bind
  | |- keeps _ (for_ret _ _ _) => apply keeps_for_ret
  | |- keeps _ (match ?x with _ => _ end) => destruct x
  | |- ∀ _, _ => intro
  end || solve [eauto with keeps]).

(** The layers below do not switch address spaces. *)
Class ExecLaws (E : Type) {EO : ElfOps E} {XO : ExecOps E} : Prop := {
  current_set p e : xo_current (xo_set_current p e) = p;
  current_mem m e : xo_current (xo_set_mem m e) = xo_current e;
  keep_open n : keeps xo_current (xo_open n);
  keep_close v : keeps xo_current (xo_close v);
  keep_create : keeps xo_current xo_create;
  keep_activate p : keeps xo_current (xo_activate p);
  keep_destroy p : keeps xo_current (xo_destroy p);
  keep_stack p : keeps xo_current (xo_define_stack p);
  keep_read v len off : keeps xo_current (vop_read_kern v len off);
  keep_fill v o a n f x : keeps xo_current (vop_read_user v o a n f x);
  keep_region v n r w x : keeps xo_current (op_define_region v n r w x);
  keep_prepare : keeps xo_current op_prepare_load;
  keep_complete : keeps xo_current op_complete_load;
}.
#[export] Hint Resolve keep_open keep_close keep_create keep_activate keep_destroy keep_stack keep_read keep_fill keep_region keep_prepare keep_complete : keeps.

Section failing.
Context {E : Type} {EO : ElfOps E} {XO : ExecOps E} {XL : ExecLaws E}.
Context (room : nat → nat) (junk : Z → nat → Z).

Lemma keep_load_elf v : keeps xo_current (load_elf v).
Proof using XL. unfold load_elf, each_segment, read_header, define_segment, fill_segment, load_segment, phdr_offset. keeping. Qed.

(** The count of [execvSem] and the current address space. *)
Definition at_ (n c : Z) (x : @xsys E) : Prop := x_sem x = n ∧ xo_current (x_env x) = c.
Implicit Types x : @xsys E.

Lemma wlp_heap {A} (m : M kheap A) n c x : at_ n c x → wlp (zoom m) (λ _, at_ n c) x.
Proof using. intros [H1 H2] a x' Hx. unfold zoom in Hx. destruct (m (sub_get x)) as [[b h]| | |]; try done. injection Hx as <- <-. by split. Qed.
Lemma wlp_env {A} (m : M E A) n c x : keeps xo_current m → at_ n c x → wlp (zoom m) (λ _, at_ n c) x.
Proof using.
  intros Hm [H1 H2] a x' Hx. unfold zoom in Hx. destruct (m (sub_get x)) as [[b e]| | |] eqn:Em; try done. injection Hx as <- <-. split; [done|]. cbn [sub_put xsys_env x_env].
  rewrite <-H2. exact (Hm _ _ _ Em).
Qed.
Lemma wlp_V n c x : at_ n c x → wlp sem_V (λ _, at_ (s32 (n + 1)) c) x.
Proof using. intros [H1 H2] a x' [= <- <-]. split; [simpl; by rewrite H1|done]. Qed.
Lemma wlp_current n c p x : at_ n c x → wlp (zoom (set_current p)) (λ _, at_ n p) x.
Proof using XL. intros [H1 H2] a x' [= <- <-]. split; [done|]. apply current_set. Qed.
Lemma wlp_umem n c x : at_ n c x → wlp umem_now (λ _, at_ n c) x.
Proof using. by intros H a x' [= <- <-]. Qed.
Lemma keep_mem {A} (m : M umem A) : keeps xo_current (mem_do m).
Proof using XL. intros e a e' Hm. unfold mem_do in Hm. destruct (m (xo_mem e)) as [[b u]| | |]; try done. injection Hm as <- <-. apply current_mem. Qed.
Lemma wlp_panic {A} (Q : A → xsys → Prop) x : wlp panic Q x.
Proof using. by intros ? ?. Qed.
Lemma wlp_undef {A} (Q : A → xsys → Prop) x : wlp undef Q x.
Proof using. by intros ? ?. Qed.
Lemma wlp_of_opt {A} (o : option A) (P : A → xsys → Prop) x : (∀ a, P a x) → wlp (of_opt o) P x.
Proof using. intros H. destruct o; [by apply wlp_ret|apply wlp_undef]. Qed.

Tactic Notation "wlp_next" uconstr(lem) := apply wlp_bind; eapply wlp_mono; [eapply lem; eassumption|]; cbv beta.
Tactic Notation "wlp_down" uconstr(lem) := apply wlp_bind; eapply wlp_mono; [eapply wlp_env; [apply lem|eassumption]|]; cbv beta.
Lemma wlp_user_word n c a x : at_ n c x → wlp (user_word a) (λ _, at_ n c) x.
Proof using.
  intros H. unfold user_word. wlp_next wlp_umem. intros m x1 H1. destruct (_ <? _); [apply wlp_undef|].
  destruct (memcpy_in _ _ _); [by apply wlp_ret|apply wlp_panic].
Qed.
(** [V], then the error. *)
Lemma wlp_fail {A} (e : errno) n c x (Q : result A → xsys → Prop) : at_ n c x → (∀ x', at_ (s32 (n + 1)) c x' → Q (inl e) x') → wlp (sem_V;; mret (inl e)) Q x.
Proof using. intros H HQ. wlp_next wlp_V. intros ? x1 H1. by apply wlp_ret, HQ. Qed.

Ltac fail_here := eapply wlp_fail; [eassumption|intros ? Hv; exact Hv].
(** After an error everything is as before the [P]; otherwise the unit is still held. *)
Definition undone {A} (n c : Z) (r : result A) (x : xsys) : Prop := match r with inl _ => at_ (s32 (n + 1)) c x | inr _ => at_ n c x end.
Lemma wlp_copy_args n c kargv argv f : ∀ argc l x, at_ n c x → wlp (copy_args f kargv argv argc l) (undone n c) x.
Proof using.
  induction f as [|f IH]; intros argc l x H; cbn [copy_args]; [by intros ? ?|]. wlp_next wlp_user_word. intros w x1 H1.
  destruct (_ || _); [apply wlp_undef|]. destruct (w =? 0); [by apply wlp_ret|]. wlp_next wlp_heap. intros k x2 H2.
  wlp_next wlp_umem. intros m x3 H3. destruct (copyinstr m w NAME_MAX) as [stored r]. destruct (if k =? 0 then _ else _); [fail_here|].
  destruct (ARG_MAX <=? argc + 1); [fail_here|by apply IH].
Qed.
Lemma wlp_frees n c l x : at_ n c x → wlp (foldr (λ (a : Z * list Z) m, zoom (kfree a.1);; m) (mret tt) l) (λ _, at_ n c) x.
Proof using. revert x. induction l as [|a l IH]; intros x H; simpl; [by apply wlp_ret|]. wlp_next wlp_heap. intros ? x1 H1. by apply IH. Qed.
Lemma wlp_exec_load n c vn kargv kargs x : at_ n c x →
  wlp (exec_load room junk vn kargv kargs) (λ r x', match r with inl _ => at_ (s32 (n + 1)) c x' | inr _ => x_sem x' = n end) x.
Proof using XL.
  intros H. unfold exec_load. apply wlp_bind. intros old x0 [= <- <-]. cbn [compose]. replace (xo_current (x_env x)) with c by (by destruct H).
  wlp_down keep_create. intros p x1 H1. destruct (p =? 0).
  { wlp_next wlp_V. intros ? x2 H2. wlp_down keep_close. intros ? x3 H3. by apply wlp_ret. }
  wlp_next wlp_current. intros ? x2 H2. wlp_down keep_activate. intros ? x3 H3.
  wlp_down keep_load_elf. intros [e|pc] x4 H4.
  { wlp_next wlp_V. intros ? x5 H5. wlp_next wlp_current. intros ? x6 H6.
    wlp_down keep_close. intros ? x7 H7. wlp_down keep_destroy. intros ? x8 H8. by apply wlp_ret. }
  wlp_down keep_close. intros ? x5 H5. wlp_down keep_stack. intros [e|sp] x6 H6.
  { wlp_next wlp_V. intros ? x7 H7. wlp_next wlp_current. intros ? x8 H8.
    wlp_down keep_destroy. intros ? x9 H9. by apply wlp_ret. }
  wlp_down keep_destroy. intros ? x7 H7. wlp_down keep_mem. intros [sp1 ptrs] x8 H8.
  apply wlp_bind, wlp_of_opt. intros ptrs1. wlp_next wlp_frees. intros ? x9 H9. wlp_next wlp_heap. intros ? x10 H10.
  wlp_down keep_mem. intros sp2 x11 H11. apply wlp_ret. apply H11.
Qed.

(** When [sys_execv] returns an error the pointer [t_addrspace] is what it was and the unit of
    [execvSem] is given back, whichever step failed; a call that starts the new program keeps the
    unit. The translations are not restored with the pointer: see [failed_exec_keeps_translations]. *)
Lemma failed_exec_pointer (progname argv : Z) x x' (r : result entry_state) : 0 < x_sem x < 2147483648 → sys_execv room junk progname argv x = Ok (r, x') →
  match r with
  | inl _ => x_sem x' = x_sem x ∧ xo_current (x_env x') = xo_current (x_env x)
  | inr _ => x_sem x' = x_sem x - 1
  end.
Proof using XL.
  intros Hs Hx. set (n := x_sem x - 1). set (c := xo_current (x_env x)). assert (s32 (n + 1) = x_sem x) as En by (unfold n; rewrite s32_id; lia).
  enough (wlp (sys_execv room junk progname argv) (λ r x', match r with inl _ => at_ (s32 (n + 1)) c x' | inr _ => x_sem x' = n end) x) as Hw.
  { apply Hw in Hx. destruct r; [|done]. destruct Hx as [H1 H2]. by rewrite En in H1. }
  clear Hx. unfold sys_execv. apply wlp_bind. intros [] x1 Hp. unfold sem_P in Hp. rewrite (bind_ok getS _ x x x eq_refl), (proj2 (Z.ltb_lt _ _)) in Hp by lia. injection Hp as <-.
  set (x1 := XSys _ _ _). assert (at_ n c x1) as H1 by done. clearbody x1. destruct (argv =? 0); [fail_here|]. apply wlp_bind.
  eapply wlp_mono with (P := λ _, at_ n c).
  { unfold check_argv. wlp_next wlp_heap. intros k x2 H2. wlp_next wlp_umem. intros m x3 H3.
    destruct (copyinstr m argv NAME_MAX) as [stored q]. destruct (k =? 0); [by apply wlp_ret|]. destruct (_ <? _); [apply wlp_undef|]. wlp_next wlp_heap. intros ? x4 H4. by apply wlp_ret. }
  intros [e|] x2 H2; [fail_here|]. wlp_next wlp_umem. intros m x3 H3. destruct (copyinstr m progname PATH_MAX) as [dest [e|k]]; [fail_here|].
  wlp_down keep_open. intros [e|vn] x4 H4; [fail_here|]. wlp_next wlp_heap. intros kargv x5 H5.
  wlp_next wlp_copy_args. intros [e|kargs] x6 H6; [by apply wlp_ret|by apply wlp_exec_load].
Qed.
End failing.

(** A file too short to be a program: [execv] fails in [load_elf], after the switch to a new
    address space. *)
Module FailDemo.
Record env := Env { de_mem : umem; de_cur : Z }.
Definition elf : ElfOps env := {|
  vop_read_kern _ _ _ := mret (inr []);
  vop_read_user _ _ _ _ n _ := mret (inr n);
  op_define_region _ _ _ _ _ := mret (inr tt);
  op_prepare_load := mret (inr tt);
  op_complete_load := mret (inr tt);
|}.
Definition ops : ExecOps env := {|
  xo_mem := de_mem;
  xo_set_mem m e := Env m (de_cur e);
  xo_current := de_cur;
  xo_set_current p e := Env (de_mem e) p;
  xo_open _ := mret (inr 1);
  xo_close _ := mret tt;
  xo_create := mret 5;
  xo_activate _ := mret tt;
  xo_destroy _ := mret tt;
  xo_define_stack _ := mret (inr 0x2000);
|}.
Lemma laws : @ExecLaws env elf ops.
Proof. constructor; try done; intros; by intros s ? ? [= <- <-]. Qed.
(** [argv] at 0x1000, with one argument at 0x1200; the name of the program at 0x1100. *)
Definition mem : umem := UMem (λ x, if (0x1000 <=? x) && (x <? 0x2000) then
  Some (if x =? 0x1002 then 0x12 else if (x =? 0x1100) || (x =? 0x1200) then 120 else 0) else None) (λ _, true).
Definition start : @xsys env := XSys 2 (KHeap 1 ∅ (replicate 10 true)) (Env mem 3).
Definition run := sys_execv (EO := elf) (XO := ops) S (λ _ _, 0) 0x1100 0x1000 start.
End FailDemo.
Lemma failed_exec_pointer_example : ∃ x', FailDemo.run = Ok (inl ENOEXEC, x') ∧ x_sem x' = 2 ∧ FailDemo.de_cur (x_env x') = 3.
Proof.
  assert (match FailDemo.run with Ok (inl ENOEXEC, _) => True | _ => False end) as Hr by (vm_compute; exact I).
  destruct FailDemo.run as [[[e|en] x']| | |] eqn:Er; try destruct Hr. destruct e; try destruct Hr. exists x'. split; [reflexivity|].
  assert (0 < x_sem FailDemo.start < 2147483648) as Hs by (split; vm_compute; reflexivity).
  exact (failed_exec_pointer (EO := FailDemo.elf) (XO := FailDemo.ops) (XL := FailDemo.laws) S (λ _ _, 0) 0x1100 0x1000 FailDemo.start x' (inl ENOEXEC) Hs Er).
Qed.
