(* ===== verification/Trap.v ===== *)
(** Traps and the system call dispatcher: [kern/arch/mips/locore/trap.c],
    [kern/arch/mips/syscall/syscall.c] and [kern/syscall/time_syscalls.c].

    The calls themselves, the page fault handler and the interrupt handlers are used through
    the interface [SysCalls]; the interrupt level is that of [Spl]. Of the trap frame the
    registers no handler looks at are a list. *)

From stdpp Require Import base tactics numbers list.
From S2P Require Import Prelude KernDefs Spl CopyInOut Elf Exec.
Local Open Scope Z_scope.

Record trapframe := Trapframe {
  tf_vaddr : Z;
  tf_status : Z;
  tf_cause : Z;
  tf_v0 : Z;
  tf_v1 : Z;
  tf_a0 : Z;
  tf_a1 : Z;
  tf_a2 : Z;
  tf_a3 : Z;
  tf_sp : Z;
  tf_epc : Z;
  tf_saved : list Z;      (* lo, hi, ra, at, t0-t9, s0-s8, k0, k1, gp *)
}.
Definition set_v1 (v : Z) (tf : trapframe) : trapframe :=
  Trapframe (tf_vaddr tf) (tf_status tf) (tf_cause tf) (tf_v0 tf) v (tf_a0 tf) (tf_a1 tf) (tf_a2 tf) (tf_a3 tf) (tf_sp tf) (tf_epc tf) (tf_saved tf).
Definition set_reply (v0 a3 : Z) (tf : trapframe) : trapframe :=
  Trapframe (tf_vaddr tf) (tf_status tf) (tf_cause tf) v0 (tf_v1 tf) (tf_a0 tf) (tf_a1 tf) (tf_a2 tf) a3 (tf_sp tf) (tf_epc tf) (tf_saved tf).
Definition set_epc (v : Z) (tf : trapframe) : trapframe :=
  Trapframe (tf_vaddr tf) (tf_status tf) (tf_cause tf) (tf_v0 tf) (tf_v1 tf) (tf_a0 tf) (tf_a1 tf) (tf_a2 tf) (tf_a3 tf) (tf_sp tf) v (tf_saved tf).
(** The frame of [enter_new_process]; [CST_IRQMASK | CST_IEp | CST_KUp]. *)
Definition new_frame (en : entry_state) : trapframe :=
  Trapframe 0 (Z.lor (Z.lor 0xff00 0x4) 0x8) 0 0 0 (u32 (en_argc en)) (en_argv en) 0 0 (en_stack en) (en_pc en) (replicate 26 0).

(** The frame the child of a [fork] starts with. *)
Definition forked_frame (tf : trapframe) : trapframe := set_epc (u32 (tf_epc tf + 4)) (set_reply 0 0 tf).

(** The numbers of [kern/errno.h]. *)
Definition errnos : list errno := [
  ENOSYS; EUNIMP; ENOMEM; EAGAIN; EINTR; EFAULT; ENAMETOOLONG; EINVAL; EPERM; EACCES; EMPROC; ENPROC; ENOEXEC; E2BIG; ESRCH; ECHILD;
  ENOTDIR; EISDIR; ENOENT; ELOOP; ENOTEMPTY; EEXIST; EMLINK; EXDEV; ENODEV; ENXIO; EBUSY; EMFILE; ENFILE; EBADF; EIOCTL; EIO;
  ESPIPE; EPIPE; EROFS; ENOSPC; EDQUOT; EFBIG; EFTYPE; EDOM; ERANGE; EILSEQ; ENOTSOCK; EISSOCK; EISCONN; ENOTCONN; ESHUTDOWN;
  EPFNOSUPPORT; ESOCKTNOSUPPORT; EPROTONOSUPPORT; EPROTOTYPE; EAFNOSUPPORT; ENOPROTOOPT; EADDRINUSE; EADDRNOTAVAIL; ENETDOWN; ENETUNREACH; EHOSTDOWN;
  EHOSTUNREACH; ECONNREFUSED; ETIMEDOUT; ECONNRESET; EMSGSIZE; ENOTSUP].
Definition errno_code (e : errno) : Z := match list_find (e =.) errnos with Some (i, _) => Z.of_nat i + 1 | None => 0 end.

Definition SYS_fork : Z := 0.
Definition SYS_execv : Z := 2.
Definition SYS__exit : Z := 3.
Definition SYS_waitpid : Z := 4.
Definition SYS_getpid : Z := 5.
Definition SYS_sbrk : Z := 7.
Definition SYS_open : Z := 45.
Definition SYS_dup2 : Z := 48.
Definition SYS_close : Z := 49.
Definition SYS_read : Z := 50.
Definition SYS_write : Z := 55.
Definition SYS_lseek : Z := 59.
Definition SYS_chdir : Z := 74.
Definition SYS___getcwd : Z := 76.
Definition SYS___time : Z := 113.
Definition SYS_reboot : Z := 119.

Definition EX_IRQ : Z := 0.
Definition EX_MOD : Z := 1.
Definition EX_TLBL : Z := 2.
Definition EX_TLBS : Z := 3.
Definition EX_ADEL : Z := 4.
Definition EX_ADES : Z := 5.
Definition EX_IBE : Z := 6.
Definition EX_DBE : Z := 7.
Definition EX_SYS : Z := 8.
Definition EX_BP : Z := 9.
Definition EX_RI : Z := 10.
Definition EX_CPU : Z := 11.
Definition EX_OVF : Z := 12.
Definition NTRAPCODES : Z := 13.
Definition STACK_SIZE : Z := 4096.
Definition same_stack (p q : Z) : bool := Z.land p PAGE_FRAME =? Z.land q PAGE_FRAME.

Class SysCalls (E : Type) := {
  sc_mem : E → umem;
  sc_set_mem : umem → E → E;
  sc_gettime : M E (Z * Z);
  sc_reboot : Z → M E (result unit);
  sc_open : Z → Z → M E (result Z);
  sc_close : Z → M E (result unit);
  sc_write : Z → Z → Z → M E (result Z);
  sc_read : Z → Z → Z → M E (result Z);
  sc_lseek : Z → Z → Z → M E (result Z);
  sc_dup2 : Z → Z → M E (result Z);
  sc_chdir : Z → M E (result unit);
  sc_getcwd : Z → Z → M E (result Z);
  sc_fork : trapframe → M E (result Z);
  sc_getpid : M E Z;
  sc_waitpid : Z → Z → Z → M E (result Z);
  sc_exit : Z → M E unit;                     (* does not return *)
  sc_execv : Z → Z → M E (result entry_state);  (* up to [enter_new_process] *)
  sc_sbrk : Z → M E (result Z);
  sc_vm_fault : Z → Z → M E (result unit);
  sc_interrupt : M E unit;                    (* mainbus_interrupt *)
  sc_kfree : Z → M E unit;
  sc_frame : Z → M E trapframe;               (* the frame [sys_fork] left in a block *)
}.

(** How a trap ends: back through the frame, in user mode with another frame, or not at all. *)
Inductive outcome := Back (tf : trapframe) | Usermode (tf : trapframe) | Gone.

Section traps.
Context {E : Type} {CPU : Sub E cpustate} {SC : SysCalls E}.

Record tsys := TSys {
  t_self : Z;             (* curthread *)
  t_kstack : Z;           (* t_stack, 0 for the boot thread *)
  t_in_interrupt : Z;
  tm_badfaultfunc : Z;
  c_number : Z;
  cputhreads : list Z;
  cpustacks : list Z;
  t_env : E;
}.
#[export] Instance tsys_env : Sub tsys E.
Proof.
  refine {| sub_get := t_env; sub_put e t := TSys (t_self t) (t_kstack t) (t_in_interrupt t) (tm_badfaultfunc t) (c_number t) (cputhreads t) (cpustacks t) e |}; by intros [].
Defined.
Definition get_cpu : M tsys cpustate := gets (λ t, sub_get (t_env t)).
Definition on_cpu {A} (m : M cpustate A) : M tsys A := zoom (S := tsys) (T := E) (zoom m).
Definition set_in (n : Z) (t : tsys) : tsys := TSys (t_self t) (t_kstack t) n (tm_badfaultfunc t) (c_number t) (cputhreads t) (cpustacks t) (t_env t).

(** ** System calls *)
Definition unit0 (r : result unit) : result Z := match r with inl e => inl e | inr _ => inr 0 end.
Definition sys___time (user_seconds user_nanoseconds : Z) : M E (result unit) :=
  '(seconds, nanoseconds) ← sc_gettime;
  e ← getS;
  let '(m, r) := copyout (sc_mem e) (word_bytes (Z.shiftr seconds 32) ++ word_bytes seconds) user_seconds 8 in
  modify (sc_set_mem m);;
  match r with
  | inl er => mret (inl er)
  | inr _ =>
      e ← getS;
      let '(m, r) := copyout (sc_mem e) (word_bytes nanoseconds) user_nanoseconds 4 in
      modify (sc_set_mem m);;
      mret r
  end.

(** The value for [v0], or the error, and the frame, of which [lseek] sets [v1]. *)
Definition call_lseek (tf : trapframe) : M E (result Z * trapframe) :=
  let pos := s64 (Z.lor (s64 (Z.shiftl (tf_a2 tf) 32)) (tf_a3 tf)) in
  e ← getS;
  match copyin (sc_mem e) (u32 (tf_sp tf + 16)) 4 with
  | inl er => mret (inl er, tf)
  | inr b =>
      r ← sc_lseek (s32 (tf_a0 tf)) pos (s32 (bytes_word b));
      match r with
      | inl er => mret (inl er, tf)
      | inr ret =>
          let ret := s32 ret in               (* through [retval], an [int32_t] *)
          mret (inr (s32 (Z.shiftr ret 32)), set_v1 (u32 ret) tf)
      end
  end.

(** Whether a call came back, with the frame it leaves. *)
Inductive reply := Reply (r : result Z) (tf : trapframe) | NoReply | Enters (en : entry_state).
Definition same_frame (tf : trapframe) (m : M E (result Z)) : M E reply := r ← m; mret (Reply r tf).
Definition dispatch (tf : trapframe) : M E reply :=
  let callno := s32 (tf_v0 tf) in
  let a0 := tf_a0 tf in let a1 := tf_a1 tf in let a2 := tf_a2 tf in
  let ret := same_frame tf in
  if callno =? SYS_reboot then ret (r ← sc_reboot (s32 a0); mret (unit0 r))
  else if callno =? SYS___time then ret (r ← sys___time a0 a1; mret (unit0 r))
  else if callno =? SYS_open then ret (sc_open a0 (s32 a1))
  else if callno =? SYS_close then ret (r ← sc_close (s32 a0); mret (unit0 r))
  else if callno =? SYS_write then ret (sc_write (s32 a0) a1 a2)
  else if callno =? SYS_lseek then '(r, tf) ← call_lseek tf; mret (Reply r tf)
  else if callno =? SYS_dup2 then ret (sc_dup2 (s32 a0) (s32 a1))
  else if callno =? SYS_chdir then ret (r ← sc_chdir a0; mret (unit0 r))
  else if callno =? SYS___getcwd then ret (sc_getcwd a0 a1)
  else if callno =? SYS_read then ret (sc_read (s32 a0) a1 a2)
  else if callno =? SYS_fork then ret (sc_fork tf)
  else if callno =? SYS_getpid then ret (n ← sc_getpid; mret (inr n))
  else if callno =? SYS_waitpid then ret (sc_waitpid (s32 a0) a1 (s32 a2))
  else if callno =? SYS__exit then sc_exit (s32 a0);; mret NoReply
  else if callno =? SYS_execv then
    r ← sc_execv a0 a1; mret (match r with inl e => Reply (inl e) tf | inr en => Enters en end)
  else if callno =? SYS_sbrk then ret (sc_sbrk (s32 a0))
  else mret (Reply (inl ENOSYS) tf).

(** [cputhreads[..] = curthread; cpustacks[..] = t_stack + STACK_SIZE], and the check that the
    frame lies on that stack. *)
Definition set_stacks (addr : Z) : M tsys unit :=
  t ← getS;
  th ← of_opt (zset (c_number t) (t_self t) (cputhreads t));
  st ← of_opt (zset (c_number t) (u32 (t_kstack t + STACK_SIZE)) (cpustacks t));
  putS (TSys (t_self t) (t_kstack t) (t_in_interrupt t) (tm_badfaultfunc t) (c_number t) th st (t_env t));;
  kassert (same_stack (u32 (u32 (t_kstack t + STACK_SIZE) - 1)) addr).
Definition mips_usermode (addr : Z) (tf : trapframe) : M tsys outcome :=
  _ ← on_cpu spl0;
  on_cpu (modify (set_irq false));;
  set_stacks addr;;
  mret (Usermode tf).
Definition enter_new_process (addr : Z) (en : entry_state) : M tsys outcome := mips_usermode addr (new_frame en).
(** The child of a [fork], with its copy of the parent's frame. *)
Definition enter_forked_process (addr mytf : Z) : M tsys outcome :=
  tf ← zoom (sc_frame mytf);
  zoom (sc_kfree mytf);;
  mips_usermode addr (forked_frame tf).

Definition level0 : M tsys unit :=
  c ← get_cpu; kassert (t_curspl c =? 0);; kassert (t_iplhigh_count c =? 0).
(** [local] is where [enter_new_process] has its frame. *)
Definition syscall (local : Z) (tf : trapframe) : M tsys outcome :=
  level0;;
  rp ← zoom (dispatch tf);
  match rp with
  | NoReply => mret Gone
  | Enters en => enter_new_process local en
  | Reply r tf =>
      let tf := match r with
                | inl e => set_reply (errno_code e) 1 tf
                | inr v => set_reply (u32 v) 0 tf
                end in
      let tf := set_epc (u32 (tf_epc tf + 4)) tf in
      level0;;
      mret (Back tf)
  end.

(** ** Traps *)
Definition SIGILL : Z := 4.
Definition SIGTRAP : Z := 5.
Definition SIGFPE : Z := 8.
Definition SIGBUS : Z := 10.
Definition SIGSEGV : Z := 11.
Definition kill_curthread (code : Z) : M E unit :=
  kassert (code <? NTRAPCODES);;
  if bool_decide (code ∈ [EX_IRQ; EX_IBE; EX_DBE; EX_SYS]) then panic
  else
    sc_exit (if bool_decide (code ∈ [EX_MOD; EX_TLBL; EX_TLBS]) then SIGSEGV
             else if bool_decide (code ∈ [EX_ADEL; EX_ADES]) then SIGBUS
             else if code =? EX_BP then SIGTRAP
             else if code =? EX_RI then SIGILL
             else if code =? EX_CPU then SIGSEGV
             else if code =? EX_OVF then SIGFPE else 0).

(** The interrupt: the level the interrupted code had is put back afterwards. *)
Definition handle_irq : M tsys unit :=
  old_in ← gets t_in_interrupt;
  modify (set_in 1);;
  c ← get_cpu;
  doadjust ← (if t_curspl c =? 0 then
                kassert (t_curspl c =? 0);;
                kassert (t_iplhigh_count c =? 0);;
                on_cpu (modify (set_curspl IPL_HIGH));;
                on_cpu (modify (λ c, set_iplhigh (t_iplhigh_count c + 1) c));;
                mret true
              else mret false);
  zoom sc_interrupt;;
  (if doadjust : bool then
     c ← get_cpu;
     kassert (t_curspl c =? IPL_HIGH);;
     kassert (t_iplhigh_count c =? 1);;
     on_cpu (modify (λ c, set_iplhigh (t_iplhigh_count c - 1) c));;
     on_cpu (modify (set_curspl 0))
   else mret tt);;
  modify (set_in old_in).

(** The fault handler serves the exception, or not. *)
Definition try_fault (code vaddr : Z) : M E bool :=
  let fault ft := r ← sc_vm_fault ft vaddr; mret (match r with inr _ => true | inl _ => false end) in
  if code =? EX_MOD then fault 2
  else if code =? EX_TLBL then fault 0
  else if code =? EX_TLBS then fault 1
  else if (code =? EX_IBE) || (code =? EX_DBE) then panic
  else mret false.

(** [done] and [done2]. *)
Definition trap_done2 (addr : Z) (tf : trapframe) : M tsys outcome :=
  t ← getS;
  if t_kstack t =? 0 then mret (Back tf) else set_stacks addr;; mret (Back tf).
Definition trap_done (addr : Z) (tf : trapframe) : M tsys outcome :=
  on_cpu (modify (set_irq false));; trap_done2 addr tf.

(** A trap with its frame at [addr]. *)
Definition mips_trap (local addr : Z) (tf : trapframe) : M tsys outcome :=
  let code := Z.shiftr (Z.land (tf_cause tf) 0x3c) 2 in
  let iskern := Z.land (tf_status tf) 0x8 =? 0 in
  kassert (code <? NTRAPCODES);;
  t ← getS;
  (if t_kstack t =? 0 then mret tt
   else kassert (t_kstack t <? addr);; kassert (addr <? u32 (t_kstack t + STACK_SIZE)));;
  if code =? EX_IRQ then handle_irq;; trap_done2 addr tf
  else
    spl ← on_cpu splhigh;
    _ ← on_cpu (splx spl);
    if code =? EX_SYS then
      level0;;
      o ← syscall local tf;
      match o with
      | Back tf => trap_done addr tf
      | o => mret o
      end
    else
      served ← zoom (try_fault code (tf_vaddr tf));
      if served : bool then trap_done addr tf
      else if negb iskern then zoom (kill_curthread code);; mret Gone
      else
        bf ← gets tm_badfaultfunc;
        if negb (bf =? 0) then trap_done addr (set_epc bf tf) else panic.
End traps.
