(* ===== verification/TrapSpec.v ===== *)
(** The system call convention and the handling of traps. *)

From stdpp Require Import base tactics numbers list.
From S2P Require Import Prelude KernDefs Spl CopyInOut Elf Exec ExecSpec Trap.
Local Open Scope Z_scope.

Lemma errno_code_range e : 1 ≤ errno_code e ≤ 64.
Proof. destruct e; vm_compute; split; discriminate. Qed.
Lemma errno_code_inj e e' : errno_code e = errno_code e' → e = e'.
Proof.
  intros H. assert (∀ e, errnos !! Z.to_nat (errno_code e - 1) = Some e) as Hl by (intros []; reflexivity).
  apply (inj Some). by rewrite <-(Hl e), <-(Hl e'), H.
Qed.

Section spec.
Context {E : Type} {CPU : Sub E cpustate} {SC : SysCalls E}.
Implicit Types t : @tsys E.

Definition quiet_cpu (e : E) : Prop := t_curspl (sub_get e) = 0 ∧ t_iplhigh_count (sub_get e) = 0.
Definition with_env (e : E) t : @tsys E :=
  TSys (t_self t) (t_kstack t) (t_in_interrupt t) (tm_badfaultfunc t) (c_number t) (cputhreads t) (cpustacks t) e.
Definition callno (tf : trapframe) : Z := s32 (tf_v0 tf).
Definition known : list Z := [SYS_fork; SYS_execv; SYS__exit; SYS_waitpid; SYS_getpid; SYS_sbrk; SYS_open; SYS_dup2; SYS_close; SYS_read; SYS_write; SYS_lseek; SYS_chdir; SYS___getcwd; SYS___time; SYS_reboot].

(** ** What each call number stands for

    The calls that only succeed or fail, and those that give a value, with the
    arguments they take from the registers. *)
Definition status_calls (tf : trapframe) : list (Z * M E (result unit)) := [
  (SYS_reboot, sc_reboot (s32 (tf_a0 tf)));
  (SYS___time, sys___time (tf_a0 tf) (tf_a1 tf));
  (SYS_close, sc_close (s32 (tf_a0 tf)));
  (SYS_chdir, sc_chdir (tf_a0 tf))].
Definition value_calls (tf : trapframe) : list (Z * M E (result Z)) := [
  (SYS_open, sc_open (tf_a0 tf) (s32 (tf_a1 tf)));
  (SYS_read, sc_read (s32 (tf_a0 tf)) (tf_a1 tf) (tf_a2 tf));
  (SYS_write, sc_write (s32 (tf_a0 tf)) (tf_a1 tf) (tf_a2 tf));
  (SYS_dup2, sc_dup2 (s32 (tf_a0 tf)) (s32 (tf_a1 tf)));
  (SYS___getcwd, sc_getcwd (tf_a0 tf) (tf_a1 tf));
  (SYS_fork, sc_fork tf);
  (SYS_waitpid, sc_waitpid (s32 (tf_a0 tf)) (tf_a1 tf) (s32 (tf_a2 tf)));
  (SYS_sbrk, sc_sbrk (s32 (tf_a0 tf)))].

(** The 64-bit number in two registers, high half first. *)
Definition in_regs (hi lo n : Z) : Prop :=
  0 ≤ hi < 2 ^ 32 ∧ 0 ≤ lo < 2 ^ 32 ∧ hi * 2 ^ 32 + lo = u64 n.
(** [whence] is on the user's stack. *)
Definition whence_arg (tf : trapframe) (e : E) : result (list Z) := copyin (sc_mem e) (u32 (tf_sp tf + 16)) 4.

(** The call of the frame ends with a result: an error, or a value. *)
Inductive served (tf : trapframe) (e : E) : result Z → E → Prop :=
  | sv_status c m r e' : (c, m) ∈ status_calls tf → callno tf = c → m e = Ok (r, e') → served tf e (unit0 r) e'
  | sv_value c m r e' : (c, m) ∈ value_calls tf → callno tf = c → m e = Ok (r, e') → served tf e r e'
  | sv_getpid n e' : callno tf = SYS_getpid → sc_getpid e = Ok (n, e') → served tf e (inr n) e'
  | sv_execv er e' : callno tf = SYS_execv → sc_execv (tf_a0 tf) (tf_a1 tf) e = Ok (inl er, e') → served tf e (inl er) e'
  | sv_lseek_arg er : callno tf = SYS_lseek → whence_arg tf e = inl er → served tf e (inl er) e
  | sv_lseek_err pos b er e' : callno tf = SYS_lseek → - 2 ^ 63 ≤ pos < 2 ^ 63 → in_regs (tf_a2 tf) (tf_a3 tf) pos →
      whence_arg tf e = inr b → sc_lseek (s32 (tf_a0 tf)) pos (s32 (bytes_word b)) e = Ok (inl er, e') → served tf e (inl er) e'
  | sv_lseek pos b n e' : callno tf = SYS_lseek → - 2 ^ 63 ≤ pos < 2 ^ 63 → in_regs (tf_a2 tf) (tf_a3 tf) pos →
      whence_arg tf e = inr b → sc_lseek (s32 (tf_a0 tf)) pos (s32 (bytes_word b)) e = Ok (inr n, e') → served tf e (inr (s32 n)) e'
  | sv_unknown : callno tf ∉ known → served tf e (inl ENOSYS) e.

(** Only [v0], [a3], the program counter and, for [lseek], [v1] differ; the program counter is
    past the instruction. *)
Record convention (tf tf' : trapframe) : Prop := {
  cv_epc : tf_epc tf' = u32 (tf_epc tf + 4);
  cv_v1 : tf_v1 tf' = tf_v1 tf ∨ s32 (tf_v0 tf) = SYS_lseek;
  cv_reply : tf_a3 tf' = 0 ∨ tf_a3 tf' = 1 ∧ ∃ e, tf_v0 tf' = errno_code e;
  cv_vaddr : tf_vaddr tf' = tf_vaddr tf;
  cv_status : tf_status tf' = tf_status tf;
  cv_cause : tf_cause tf' = tf_cause tf;
  cv_args : tf_a0 tf' = tf_a0 tf ∧ tf_a1 tf' = tf_a1 tf ∧ tf_a2 tf' = tf_a2 tf;
  cv_sp : tf_sp tf' = tf_sp tf;
  cv_saved : tf_saved tf' = tf_saved tf;
}.
(** The frame the caller goes on with: [a3] tells an error from a value. *)
Record replied (tf : trapframe) (r : result Z) (tf' : trapframe) : Prop := {
  rp_result : match r with
    | inl er => tf_a3 tf' = 1 ∧ tf_v0 tf' = errno_code er ∧ tf_v1 tf' = tf_v1 tf
    | inr v => tf_a3 tf' = 0 ∧
        if callno tf =? SYS_lseek then in_regs (tf_v0 tf') (tf_v1 tf') v else tf_v0 tf' = u32 v ∧ tf_v1 tf' = tf_v1 tf
    end;
  rp_rest : convention tf tf';
}.

Lemma level0_eq t : quiet_cpu (t_env t) → level0 t = Ok (tt, t).
Proof using. intros [H1 H2]. unfold level0. rewrite (bind_ok get_cpu _ (sub_get (t_env t)) t t eq_refl), H1, H2. done. Qed.
Lemma wlp_level0 t : wlp level0 (λ _ t', t' = t ∧ quiet_cpu (t_env t)) t.
Proof using.
  intros [] t' H. unfold level0 in H. rewrite (bind_ok get_cpu _ (sub_get (t_env t)) t t eq_refl) in H. unfold quiet_cpu. cbv beta in H.
  destruct (Z.eqb_spec (t_curspl (sub_get (t_env t))) 0), (Z.eqb_spec (t_iplhigh_count (sub_get (t_env t))) 0); m_simpl in H; by simplify_eq.
Qed.

(** Joining and splitting 64-bit numbers over two registers. *)
Lemma join_regs pos : - 2 ^ 63 ≤ pos < 2 ^ 63 → s64 (Z.lor (s64 (Z.shiftl (u32 (Z.shiftr pos 32)) 32)) (u32 pos)) = pos.
Proof using.
  intros Hp. assert (Z.lor (Z.shiftl (Z.shiftr pos 32) 32) (u32 pos) = pos) as Ej.
  { unfold wrapu. rewrite <-Z.land_ones by lia. apply Z.bits_inj'. intros i Hi. rewrite Z.lor_spec, Z.land_spec, Z.testbit_ones by lia.
    destruct (Z.lt_ge_cases i 32).
    - rewrite Z.shiftl_spec_low by lia. rewrite (proj2 (Z.leb_le 0 i)), (proj2 (Z.ltb_lt i 32)) by lia. by rewrite andb_true_r.
    - rewrite Z.shiftl_spec, Z.shiftr_spec by lia. rewrite (proj2 (Z.ltb_ge i 32)), andb_false_r, andb_false_r, orb_false_r by lia. f_equal. lia. }
  assert (s64 (Z.shiftl (u32 (Z.shiftr pos 32)) 32) = Z.shiftl (Z.shiftr pos 32) 32) as ->.
  { rewrite !Z.shiftl_mul_pow2, Z.shiftr_div_pow2 by lia. set (h := pos / 2 ^ 32). assert (- 2 ^ 31 ≤ h < 2 ^ 31) as Hh.
    { unfold h. split; [apply Z.div_le_lower_bound; lia|apply Z.div_lt_upper_bound; lia]. }
    assert (u32 h = h ∨ u32 h = h + 2 ^ 32) as [->| ->].
    { destruct (Z.lt_ge_cases h 0); [right|left; apply u32_id; lia]. unfold wrapu. rewrite <-(Z.mod_add h 1) by lia. apply Z.mod_small. lia. }
    - apply s64_id. lia.
    - unfold wraps. replace ((h + 2 ^ 32) * 2 ^ 32 + 2 ^ (64 - 1)) with (h * 2 ^ 32 + 2 ^ (64 - 1) + 1 * 2 ^ 64) by lia. rewrite Z.mod_add by lia. apply (s64_id (h * 2 ^ 32)). lia. }
  rewrite Ej. apply s64_id. lia.
Qed.
Lemma split_regs n : - 2 ^ 31 ≤ n < 2 ^ 31 → u32 (s32 (Z.shiftr n 32)) * 2 ^ 32 + u32 n = u64 n.
Proof using.
  intros Hn. rewrite Z.shiftr_div_pow2 by lia. destruct (Z.lt_ge_cases n 0).
  - assert (n / 2 ^ 32 = -1) as -> by (symmetry; apply Z.div_unique with (n + 2 ^ 32); lia). change (u32 (s32 (-1))) with 4294967295.
    assert (u32 n = n + 2 ^ 32) as -> by (unfold wrapu; rewrite <-(Z.mod_add n 1) by lia; apply Z.mod_small; lia).
    assert (u64 n = n + 2 ^ 64) as -> by (unfold wrapu; rewrite <-(Z.mod_add n 1) by lia; apply Z.mod_small; lia). lia.
  - rewrite Z.div_small by lia. rewrite (u32_id n) by lia. change (u32 (s32 0)) with 0. unfold wrapu. rewrite Z.mod_small by lia. lia.
Qed.

Lemma zoom_env {A} (m : M E A) t a e' : m (t_env t) = Ok (a, e') → zoom m t = Ok (a, with_env e' t).
Proof using. intros H. unfold zoom. cbn [sub_get tsys_env]. by rewrite H. Qed.
(** The frame of a reply. *)
Definition answered (r : result Z) (tf : trapframe) : trapframe :=
  set_epc (u32 (tf_epc tf + 4)) (match r with inl e => set_reply (errno_code e) 1 tf | inr v => set_reply (u32 v) 0 tf end).
Lemma syscall_replies local tf t r tf' e' : quiet_cpu (t_env t) → dispatch tf (t_env t) = Ok (Reply r tf', e') → quiet_cpu e' →
  syscall local tf t = Ok (Back (answered r tf'), with_env e' t).
Proof using.
  intros Hq Hd Hq'. unfold syscall. rewrite (bind_ok _ _ _ _ _ (level0_eq t Hq)), (bind_ok _ _ _ _ _ (zoom_env _ _ _ _ Hd)).
  rewrite (bind_ok _ _ _ _ _ (level0_eq (with_env e' t) Hq')). by destruct r.
Qed.

(** ** The dispatcher *)
Lemma in_regs_join hi lo n : - 2 ^ 63 ≤ n < 2 ^ 63 → in_regs hi lo n → s64 (Z.lor (s64 (Z.shiftl hi 32)) lo) = n.
Proof using.
  intros Hn (Hhi & Hlo & E1). assert (hi = u32 (Z.shiftr n 32) ∧ lo = u32 n) as [-> ->]; [|by apply join_regs].
  rewrite Z.shiftr_div_pow2 by lia. assert (u64 n = n ∨ u64 n = n + 2 ^ 64) as Hu.
  { unfold wrapu. destruct (Z.lt_ge_cases n 0); [right|left; apply Z.mod_small; lia].
    rewrite <-(Z.mod_add n 1) by lia. apply Z.mod_small. lia. }
  assert (∃ k, n = (hi + k * 2 ^ 32) * 2 ^ 32 + lo) as [k ->] by (destruct Hu; [exists 0|exists (-1)]; lia).
  rewrite Z.div_add_l, (Z.div_small lo), Z.add_0_r by lia. unfold wrapu.
  rewrite Z.mod_add, (Z.add_comm _ lo), Z.mod_add, !Z.mod_small by lia. done.
Qed.
Lemma in_regs_split n : - 2 ^ 31 ≤ n < 2 ^ 31 → in_regs (u32 (s32 (Z.shiftr n 32))) (u32 n) n.
Proof using. intros Hn. split_and!; [apply u32_range..|by apply split_regs]. Qed.
Lemma in_regs_exists hi lo : 0 ≤ hi < 2 ^ 32 → 0 ≤ lo < 2 ^ 32 → ∃ n, - 2 ^ 63 ≤ n < 2 ^ 63 ∧ in_regs hi lo n.
Proof using.
  intros Hhi Hlo. exists (s64 (hi * 2 ^ 32 + lo)). unfold in_regs, wraps. set (x := hi * 2 ^ 32 + lo).
  pose proof (Z.mod_pos_bound (x + 2 ^ (64 - 1)) (2 ^ 64) ltac:(lia)). split_and!; [lia|lia|lia..|].
  unfold wrapu. rewrite Zminus_mod_idemp_l. replace (x + 2 ^ (64 - 1) - 2 ^ (64 - 1)) with x by lia.
  symmetry. apply Z.mod_small. unfold x. lia.
Qed.
(** An offset survives the way through an [int32_t] when it fits one. *)
Lemma in_regs_s32 hi lo n : - 2 ^ 63 ≤ n < 2 ^ 63 → in_regs hi lo (s32 n) → in_regs hi lo n ↔ - 2 ^ 31 ≤ n < 2 ^ 31.
Proof using.
  intros Hn Hs. split; [|intros Hr; by rewrite <-(s32_id n) by lia]. intros Hr.
  assert (- 2 ^ 31 ≤ s32 n < 2 ^ 31) as Hs' by apply s32_range.
  pose proof (in_regs_join hi lo (s32 n) ltac:(lia) Hs) as E1. rewrite (in_regs_join _ _ _ Hn Hr) in E1. lia.
Qed.

(** The result of a call as the dispatcher passes it on. *)
Definition framed (tf : trapframe) (v r : result Z) (tf' : trapframe) : Prop :=
  match v with
  | inl er => r = inl er ∧ tf' = tf
  | inr n => if callno tf =? SYS_lseek
             then - 2 ^ 31 ≤ n < 2 ^ 31 ∧ r = inr (s32 (Z.shiftr n 32)) ∧ tf' = set_v1 (u32 n) tf
             else r = inr n ∧ tf' = tf
  end.
Lemma framed_same tf r : callno tf ≠ SYS_lseek → framed tf r r tf.
Proof using. intros Hc. destruct r; [done|]. unfold framed. by rewrite (proj2 (Z.eqb_neq _ _)). Qed.
Lemma answered_convention r tf tf' : tf' = tf ∨ callno tf = SYS_lseek ∧ (∃ v, tf' = set_v1 v tf) → convention tf (answered r tf').
Proof using.
  intros [->|[Hl [v ->]]]; destruct r as [e|n]; constructor; try done; try (by left); try (by right); right; (split; [done|]); by exists e.
Qed.
Lemma framed_replied tf v r tf' : framed tf v r tf' → replied tf v (answered r tf').
Proof using.
  intros Hf. constructor.
  - destruct v as [er|n]; simpl in Hf; [by destruct Hf as [-> ->]|]. split; [|destruct (callno tf =? SYS_lseek)].
    + by destruct (callno tf =? SYS_lseek); destruct_and!; simplify_eq.
    + destruct Hf as (Hn & -> & ->). by apply in_regs_split.
    + by destruct Hf as [-> ->].
  - apply answered_convention. destruct v as [er|n]; simpl in Hf; [left; by destruct Hf|]. destruct (Z.eqb_spec (callno tf) SYS_lseek); [right|left; by destruct Hf].
    split; [done|]. destruct Hf as (_ & _ & ->). by eexists.
Qed.

(** Deciding the comparisons of a known call number. *)
Ltac pick_call Hc := unfold dispatch; rewrite Hc;
  repeat match goal with |- context [?a =? ?b] => let v := eval vm_compute in (a =? b) in change (a =? b) with v end; cbv iota.
Ltac find_call := unfold status_calls, value_calls; repeat (first [left|right]).
Ltac in_table H := repeat (apply elem_of_cons in H as [H|H]); [..|by apply elem_of_nil in H]; injection H as -> ->.

Lemma call_lseek_eq tf (e e' : E) pos b r : - 2 ^ 63 ≤ pos < 2 ^ 63 → in_regs (tf_a2 tf) (tf_a3 tf) pos → whence_arg tf e = inr b →
  sc_lseek (s32 (tf_a0 tf)) pos (s32 (bytes_word b)) e = Ok (r, e') →
  call_lseek tf e = Ok (match r with inl er => (inl er, tf) | inr n => (inr (s32 (Z.shiftr (s32 n) 32)), set_v1 (u32 (s32 n)) tf) end, e').
Proof using.
  intros Hp Hr Hb Hs. unfold call_lseek, whence_arg in *. rewrite (bind_ok getS _ e e e eq_refl), Hb, (in_regs_join _ _ _ Hp Hr), (bind_ok _ _ _ _ _ Hs).
  by destruct r.
Qed.

Lemma served_dispatch tf (e e' : E) v : served tf e v e' → ∃ r tf', dispatch tf e = Ok (Reply r tf', e') ∧ framed tf v r tf'.
Proof using.
  intros Hs. destruct Hs as [c m r e' Hin Hc Hm|c m r e' Hin Hc Hm|n e' Hc Hm|er e' Hc Hm|er Hc Hb|pos b er e' Hc Hp Hr Hb Hm|pos b n e' Hc Hp Hr Hb Hm|Hc].
  - exists (unit0 r), tf. unfold status_calls in Hin. in_table Hin; (split; [unfold callno in Hc; pick_call Hc|apply framed_same; by rewrite Hc]);
      unfold same_frame; by rewrite (bind_ok _ _ (unit0 r) _ e') by (by rewrite (bind_ok _ _ _ _ _ Hm)).
  - exists r, tf. unfold value_calls in Hin. in_table Hin; (split; [unfold callno in Hc; pick_call Hc|apply framed_same; by rewrite Hc]);
      unfold same_frame; by rewrite (bind_ok _ _ _ _ _ Hm).
  - exists (inr n), tf. split; [unfold callno in Hc; pick_call Hc|apply framed_same; by rewrite Hc].
    unfold same_frame. by rewrite (bind_ok _ _ (inr n) _ e') by (by rewrite (bind_ok _ _ _ _ _ Hm)).
  - exists (inl er), tf. split; [unfold callno in Hc; pick_call Hc|done]. by rewrite (bind_ok _ _ _ _ _ Hm).
  - exists (inl er), tf. split; [unfold callno in Hc; pick_call Hc|done].
    assert (call_lseek tf e = Ok ((inl er, tf), e)) as E1; [|by rewrite (bind_ok _ _ _ _ _ E1)].
    unfold call_lseek, whence_arg in *. by rewrite (bind_ok getS _ e e e eq_refl), Hb.
  - exists (inl er), tf. split; [|done]. unfold callno in Hc. pick_call Hc.
    by rewrite (bind_ok _ _ _ _ _ (call_lseek_eq _ _ _ _ _ _ Hp Hr Hb Hm)).
  - exists (inr (s32 (Z.shiftr (s32 n) 32))), (set_v1 (u32 (s32 n)) tf). split.
    + unfold callno in Hc. pick_call Hc. by rewrite (bind_ok _ _ _ _ _ (call_lseek_eq _ _ _ _ _ _ Hp Hr Hb Hm)).
    + unfold framed. rewrite Hc. split; [apply s32_range|done].
  - exists (inl ENOSYS), tf. split; [|done]. unfold dispatch, known, callno in *. repeat rewrite not_elem_of_cons in Hc. destruct_and!.
    by repeat (rewrite (proj2 (Z.eqb_neq _ _)) by done).
Qed.

(** What the dispatcher can come to. *)
Definition ended (tf : trapframe) (e : E) (rp : reply) (e' : E) : Prop :=
  match rp with
  | Reply r tf' => ∃ v, served tf e v e' ∧ framed tf v r tf'
  | NoReply => callno tf = SYS__exit ∧ sc_exit (s32 (tf_a0 tf)) e = Ok (tt, e')
  | Enters en => callno tf = SYS_execv ∧ sc_execv (tf_a0 tf) (tf_a1 tf) e = Ok (inr en, e')
  end.
Lemma wlp_status tf (m : M E (result unit)) c (e : E) : (c, m) ∈ status_calls tf → callno tf = c →
  wlp (same_frame tf (r ← m; mret (unit0 r))) (ended tf e) e.
Proof using.
  intros Hin Hc. apply wlp_bind. apply wlp_bind. intros r e' Hm. apply wlp_ret. apply wlp_ret. exists (unit0 r).
  split; [by eapply sv_status|]. apply framed_same. rewrite Hc. unfold status_calls in Hin. by in_table Hin.
Qed.
Lemma wlp_value tf (m : M E (result Z)) c (e : E) : (c, m) ∈ value_calls tf → callno tf = c → wlp (same_frame tf m) (ended tf e) e.
Proof using.
  intros Hin Hc. apply wlp_bind. intros r e' Hm. apply wlp_ret. exists r.
  split; [by eapply sv_value|]. apply framed_same. rewrite Hc. unfold value_calls in Hin. by in_table Hin.
Qed.
Definition regs_ok (tf : trapframe) : Prop := 0 ≤ tf_a2 tf < 2 ^ 32 ∧ 0 ≤ tf_a3 tf < 2 ^ 32.

Lemma wlp_dispatch tf (e : E) : regs_ok tf → wlp (dispatch tf) (ended tf e) e.
Proof using.
  intros [H2 H3]. unfold dispatch. fold (callno tf).
  repeat (match goal with |- wlp (if callno tf =? ?c then _ else _) _ _ => destruct (Z.eqb_spec (callno tf) c) as [Hc|?Hno] end;
    [first [eapply wlp_status; [by find_call|exact Hc]|eapply wlp_value; [by find_call|exact Hc]|idtac]|]).
  - apply wlp_bind. unfold call_lseek. apply wlp_bind. intros e1 e2 [= <- <-]. fold (whence_arg tf e).
    destruct (whence_arg tf e) as [er|b] eqn:Hb; [apply wlp_ret, wlp_ret; exists (inl er); split; [by apply sv_lseek_arg|done]|].
    destruct (in_regs_exists _ _ H2 H3) as (pos & Hp & Hr). rewrite (in_regs_join _ _ _ Hp Hr).
    apply wlp_bind. intros [er|n] e3 Hm; apply wlp_ret, wlp_ret.
    + exists (inl er). split; [by eapply sv_lseek_err|done].
    + exists (inr (s32 n)). split; [by eapply sv_lseek|]. unfold framed. rewrite Hc. split; [apply s32_range|done].
  - apply wlp_bind. apply wlp_bind. intros n e' Hm. apply wlp_ret, wlp_ret. exists (inr n).
    split; [by apply sv_getpid|]. apply framed_same. by rewrite Hc.
  - apply wlp_bind. intros [] e' Hm. by apply wlp_ret.
  - apply wlp_bind. intros [er|en] e' Hm; apply wlp_ret; [|done]. exists (inl er). split; [by apply sv_execv|done].
  - apply wlp_ret. exists (inl ENOSYS). split; [|done]. apply sv_unknown. unfold known.
    repeat (apply not_elem_of_cons; split; [done|]). apply not_elem_of_nil.
Qed.

(** C31: the system call convention. Whenever the call of the frame ends with an error or a
    value, [syscall] comes back, and the caller's frame has the error's number in [v0] and 1 in
    [a3], or the value in [v0] and 0 in [a3]; besides [v0], [a3] and, for [lseek], [v1] only the
    program counter has changed, which is past the instruction. This is the case of every call
    number with the handler [served] lists for it, of a failed [execv] and, with [ENOSYS], of
    every number without a handler; and whenever [syscall] comes back it is for this reason. It
    does not come back from [_exit], and a successful [execv] goes on in the new program.
    [lseek] takes its 64-bit position from two registers and [whence] from the user's stack, and
    gives its result in two registers; but the result comes through an [int32_t], so that the two
    registers hold the new offset just when it lies between -2^31 and 2^31. *)
Theorem syscall_convention (local : Z) (tf : trapframe) t : quiet_cpu (t_env t) → regs_ok tf →
  (∀ v e', served tf (t_env t) v e' → quiet_cpu e' →
     ∃ tf', syscall local tf t = Ok (Back tf', with_env e' t) ∧ replied tf v tf') ∧
  (∀ e', callno tf = SYS__exit → sc_exit (s32 (tf_a0 tf)) (t_env t) = Ok (tt, e') → syscall local tf t = Ok (Gone, with_env e' t)) ∧
  (∀ en e', callno tf = SYS_execv → sc_execv (tf_a0 tf) (tf_a1 tf) (t_env t) = Ok (inr en, e') →
     syscall local tf t = enter_new_process local en (with_env e' t)) ∧
  (∀ o t', syscall local tf t = Ok (o, t') → match o with
     | Back tf' => ∃ v, served tf (t_env t) v (t_env t') ∧ quiet_cpu (t_env t') ∧ replied tf v tf'
     | Usermode f => callno tf = SYS_execv ∧ ∃ en e', sc_execv (tf_a0 tf) (tf_a1 tf) (t_env t) = Ok (inr en, e') ∧ f = new_frame en
     | Gone => callno tf = SYS__exit ∧ sc_exit (s32 (tf_a0 tf)) (t_env t) = Ok (tt, t_env t')
     end) ∧
  (∀ pos b n e', callno tf = SYS_lseek → - 2 ^ 63 ≤ pos < 2 ^ 63 → in_regs (tf_a2 tf) (tf_a3 tf) pos → whence_arg tf (t_env t) = inr b →
     sc_lseek (s32 (tf_a0 tf)) pos (s32 (bytes_word b)) (t_env t) = Ok (inr n, e') → quiet_cpu e' → - 2 ^ 63 ≤ n < 2 ^ 63 →
     ∃ tf', syscall local tf t = Ok (Back tf', with_env e' t) ∧ tf_a3 tf' = 0 ∧ (in_regs (tf_v0 tf') (tf_v1 tf') n ↔ - 2 ^ 31 ≤ n < 2 ^ 31)).
Proof using.
  intros Hq Hregs.
  assert (∀ v e', served tf (t_env t) v e' → quiet_cpu e' → ∃ tf', syscall local tf t = Ok (Back tf', with_env e' t) ∧ replied tf v tf') as Hback.
  { intros v e' (r & tf' & Hd & Hf)%served_dispatch Hq'. exists (answered r tf'). split; [by apply syscall_replies|by apply framed_replied]. }
  split_and!; [done|..].
  - intros e' Hc Hx. unfold syscall. rewrite (bind_ok _ _ _ _ _ (level0_eq t Hq)), (bind_ok (zoom (dispatch tf)) _ NoReply _ (with_env e' t)); [done|].
    apply zoom_env. unfold callno in Hc. pick_call Hc. by rewrite (bind_ok _ _ _ _ _ Hx).
  - intros en e' Hc Hx. unfold syscall. rewrite (bind_ok _ _ _ _ _ (level0_eq t Hq)), (bind_ok (zoom (dispatch tf)) _ (Enters en) _ (with_env e' t)); [done|].
    apply zoom_env. unfold callno in Hc. pick_call Hc. by rewrite (bind_ok _ _ _ _ _ Hx).
  - intros o t' Hrun. unfold syscall in Hrun. rewrite (bind_ok _ _ _ _ _ (level0_eq t Hq)) in Hrun. revert o t' Hrun.
    apply wlp_bind. intros rp t2 Hd. unfold zoom in Hd. cbn [sub_get tsys_env] in Hd. destruct (dispatch tf (t_env t)) as [[rp' e']| | |] eqn:Ed; try done.
    injection Hd as <- <-. pose proof (wlp_dispatch tf _ Hregs _ _ Ed) as Hrp. destruct rp' as [r tf'| |en].
    + destruct Hrp as (v & Hs & Hf). apply wlp_bind. eapply wlp_mono; [apply wlp_level0|]. intros [] t3 [-> Hq3]. apply wlp_ret. exists v.
      split_and!; [done|done|]. pose proof (framed_replied _ _ _ _ Hf) as Hr. by destruct r.
    + by apply wlp_ret.
    + destruct Hrp as [Hc Hx]. unfold enter_new_process, mips_usermode. do 3 (apply wlp_bind; intros ? ? _). apply wlp_ret. split; [done|]. by exists en, e'.
  - intros pos b n e' Hc Hp Hr Hb Hm Hq' Hn. destruct (Hback _ _ (sv_lseek _ _ _ _ _ _ Hc Hp Hr Hb Hm) Hq') as (tf' & Hrun & Hrep).
    exists tf'. destruct Hrep as [[Ha3 Hv] _]. split_and!; [done|done|]. rewrite Hc in Hv. by apply in_regs_s32.
Qed.

(** * Faults and interrupts *)
Definition cpu_of t : cpustate := sub_get (t_env t).
Definition with_cpu (c : cpustate) t : @tsys E := with_env (sub_put c (t_env t)) t.
Lemma on_cpu_eq {A} (m : M cpustate A) t a c : m (cpu_of t) = Ok (a, c) → on_cpu m t = Ok (a, with_cpu c t).
Proof using. intros H. unfold on_cpu. apply zoom_env. unfold zoom. unfold cpu_of in H. by rewrite H. Qed.
Lemma with_cpu_twice c c' t : with_cpu c (with_cpu c' t) = with_cpu c t.
Proof using. unfold with_cpu, with_env. cbn. by rewrite sub_put_put. Qed.
Lemma cpu_with c t : cpu_of (with_cpu c t) = c.
Proof using. apply sub_get_put. Qed.

(** A thread on its kernel stack, the frame at [addr]. *)
Record on_stack (addr : Z) t : Prop := {
  os_stack : 0 < t_kstack t ∧ t_kstack t + STACK_SIZE < 2 ^ 32 ∧ t_kstack t mod STACK_SIZE = 0;
  os_frame : t_kstack t < addr < t_kstack t + STACK_SIZE;
  os_cpu : 0 ≤ c_number t < Z.of_nat (length (cputhreads t)) ∧ c_number t < Z.of_nat (length (cpustacks t));
}.
(** Ready to return to the interrupted code: its stack is noted for the next trap, and the
    processor has interrupts off. *)
Definition returning t : @tsys E :=
  TSys (t_self t) (t_kstack t) (t_in_interrupt t) (tm_badfaultfunc t) (c_number t) (<[Z.to_nat (c_number t) := t_self t]> (cputhreads t))
    (<[Z.to_nat (c_number t) := t_kstack t + STACK_SIZE]> (cpustacks t)) (t_env t).
Lemma trap_done2_eq addr tf t : on_stack addr t → trap_done2 addr tf t = Ok (Back tf, returning t).
Proof using.
  intros [(H1 & H2 & H3) H4 (H5 & H6)]. unfold STACK_SIZE in *. unfold trap_done2. rewrite (bind_ok getS _ t t t eq_refl), (proj2 (Z.eqb_neq _ _)) by lia.
  assert (set_stacks addr t = Ok (tt, returning t)) as E1; [|by rewrite (bind_ok _ _ _ _ _ E1)].
  unfold set_stacks, STACK_SIZE. rewrite (bind_ok getS _ t t t eq_refl), (bind_of_opt _ _ _ _ (zset_Some _ _ _ H5)), (bind_of_opt _ _ _ _ (zset_Some _ _ _ (conj (proj1 H5) H6))).
  rewrite !(u32_id (t_kstack t + 4096)), u32_id by lia. unfold same_stack. rewrite !land_PAGE_FRAME by lia. unfold PAGE_SIZE.
  pose proof (Z.div_mod (t_kstack t) 4096 ltac:(lia)) as Hd. assert ((t_kstack t + 4096 - 1) mod 4096 = 4095) as ->.
  { symmetry. apply Z.mod_unique with (t_kstack t / 4096); lia. }
  assert (addr mod 4096 = addr - t_kstack t) as -> by (symmetry; apply Z.mod_unique with (t_kstack t / 4096); lia).
  rewrite (proj2 (Z.eqb_eq _ _)) by lia. done.
Qed.
Lemma trap_done_eq addr tf t : on_stack addr t → trap_done addr tf t = Ok (Back tf, returning (with_cpu (set_irq false (cpu_of t)) t)).
Proof using.
  intros Ho. unfold trap_done. rewrite (bind_ok _ _ _ _ _ (on_cpu_eq (modify (set_irq false)) t tt _ eq_refl)). apply trap_done2_eq. destruct Ho. by constructor.
Qed.
(** The processor turns interrupts off on a trap; they come back on while it is handled. *)
Definition opened t : @tsys E := with_cpu (CpuState true (c_self (cpu_of t)) true 0 0) t.
Lemma spl_dance {A} (k : Z → M (@tsys E) A) t : quiet_cpu (t_env t) → c_exists (cpu_of t) = true →
  (spl ← on_cpu splhigh; _ ← on_cpu (splx spl); k spl) t = k 0 (opened t).
Proof using.
  intros [Hc Hn] He. unfold cpu_of in *. assert (splhigh (cpu_of t) = Ok (0, CpuState true (c_self (cpu_of t)) false 1 1)) as E1.
  { unfold splhigh, cpu_of. destruct (sub_get (t_env t)) as [ex me irq n cur]. simpl in *. by subst. }
  rewrite (bind_ok _ _ _ _ _ (on_cpu_eq splhigh t _ _ E1)).
  assert (splx 0 (cpu_of (with_cpu (CpuState true (c_self (cpu_of t)) false 1 1) t)) = Ok (1, CpuState true (c_self (cpu_of t)) true 0 0)) as E2 by (by rewrite cpu_with).
  rewrite (bind_ok _ _ _ _ _ (on_cpu_eq (splx 0) _ _ _ E2)), with_cpu_twice. done.
Qed.

Definition fault_type (code : Z) : Z := if code =? EX_MOD then 2 else if code =? EX_TLBL then 0 else 1.
Definition trap_code (tf : trapframe) : Z := Z.shiftr (Z.land (tf_cause tf) 0x3c) 2.
Definition from_user (tf : trapframe) : bool := negb (Z.land (tf_status tf) 0x8 =? 0).

(** C32: what a page fault comes to. When the fault handler serves it, the frame is unchanged, so
    that the instruction is restarted. When it does not, a process at user level is ended; a
    kernel function that copies user memory is resumed in its recovery function; any other
    fault of the kernel stops the machine. On a return the interrupt level is what it was,
    interrupts are off on the processor, and the thread's stack is noted for the next trap. *)
Theorem trap_serves_faults (local addr : Z) (tf : trapframe) t r e' : quiet_cpu (t_env t) → c_exists (cpu_of t) = true → on_stack addr t →
  trap_code tf ∈ [EX_MOD; EX_TLBL; EX_TLBS] → sc_vm_fault (fault_type (trap_code tf)) (tf_vaddr tf) (t_env (opened t)) = Ok (r, e') →
  let done := returning (with_cpu (set_irq false (sub_get e')) (with_env e' t)) in
  match r with
  | inr _ => mips_trap local addr tf t = Ok (Back tf, done)
  | inl _ =>
      if from_user tf then ∀ e'', sc_exit SIGSEGV e' = Ok (tt, e'') → mips_trap local addr tf t = Ok (Gone, with_env e'' t)
      else if tm_badfaultfunc t =? 0 then mips_trap local addr tf t = Panic
      else mips_trap local addr tf t = Ok (Back (set_epc (tm_badfaultfunc t) tf), done)
  end.
Proof using.
  intros Hq He Ho Hcode Hf done.
  assert (try_fault (trap_code tf) (tf_vaddr tf) (t_env (opened t)) = Ok (match r with inr _ => true | inl _ => false end, e')) as Htry.
  { unfold try_fault, fault_type in *. repeat (apply elem_of_cons in Hcode as [Hcode|Hcode]; [rewrite Hcode in *; cbn in *; by rewrite (bind_ok _ _ _ _ _ Hf)|]). by apply elem_of_nil in Hcode. }
  assert (∀ (k : bool → M (@tsys E) outcome), (served ← zoom (try_fault (trap_code tf) (tf_vaddr tf)); k served) (opened t) = k (match r with inr _ => true | inl _ => false end) (with_env e' t)) as Hk.
  { intros k. by rewrite (bind_ok _ _ _ _ _ (zoom_env _ _ _ _ Htry)). }
  assert (mips_trap local addr tf t = (if match r with inr _ => true | inl _ => false end then trap_done addr tf
    else if from_user tf then zoom (kill_curthread (trap_code tf));; mret Gone
    else bf ← gets tm_badfaultfunc; if negb (bf =? 0) then trap_done addr (set_epc bf tf) else panic) (with_env e' t)) as ->.
  { unfold mips_trap. fold (trap_code tf). fold (from_user tf). pose proof Ho as [(H1 & H2 & H3) H4 _]. unfold STACK_SIZE in *. rewrite (bind_kassert (trap_code tf <? NTRAPCODES)).
    2:{ repeat (apply elem_of_cons in Hcode as [->|Hcode]; [done|]). by apply elem_of_nil in Hcode. }
    rewrite (bind_ok getS _ t t t eq_refl), (proj2 (Z.eqb_neq (t_kstack t) 0)) by lia. unfold STACK_SIZE. rewrite (u32_id (t_kstack t + 4096)) by lia.
    rewrite (bind_ok (kassert (t_kstack t <? addr);; kassert (addr <? t_kstack t + 4096)) _ tt t t).
    2:{ rewrite (proj2 (Z.ltb_lt _ _)), (proj2 (Z.ltb_lt _ _)) by lia. done. }
    assert (trap_code tf =? EX_IRQ = false ∧ trap_code tf =? EX_SYS = false) as [-> ->].
    { repeat (apply elem_of_cons in Hcode as [->|Hcode]; [done|]). by apply elem_of_nil in Hcode. }
    rewrite spl_dance by done. apply Hk. }
  assert (on_stack addr (with_env e' t)) as Ho' by (destruct Ho; by constructor).
  destruct r as [er|[]]; [|by rewrite trap_done_eq].
  destruct (from_user tf).
  - intros e'' Hx. assert (kill_curthread (trap_code tf) e' = Ok (tt, e'')) as Hkill.
    { unfold kill_curthread. repeat (apply elem_of_cons in Hcode as [->|Hcode]; [exact Hx|]). by apply elem_of_nil in Hcode. }
    by rewrite (bind_ok _ _ _ _ _ (zoom_env (kill_curthread (trap_code tf)) (with_env e' t) tt e'' Hkill)).
  - destruct (Z.eqb_spec (tm_badfaultfunc t) 0) as [Hb|Hb].
    + rewrite (bind_ok (gets tm_badfaultfunc) _ _ _ _ eq_refl). cbn [tm_badfaultfunc with_env]. by rewrite Hb.
    + rewrite (bind_ok (gets tm_badfaultfunc) _ _ _ _ eq_refl). cbn [tm_badfaultfunc with_env]. rewrite (proj2 (Z.eqb_neq _ _) Hb). cbn [negb]. by rewrite trap_done_eq.
Qed.

(** An interrupt leaves no trace in the interrupted thread: its frame, level and interrupt flag
    are what they were. *)
Lemma interrupt_is_transparent (local addr : Z) (tf : trapframe) t e' : quiet_cpu (t_env t) → on_stack addr t → trap_code tf = EX_IRQ →
  let high := CpuState (c_exists (cpu_of t)) (c_self (cpu_of t)) (irq_on (cpu_of t)) 1 IPL_HIGH in
  sc_interrupt (t_env (with_cpu high t)) = Ok (tt, e') → sub_get e' = high →
  mips_trap local addr tf t = Ok (Back tf, returning (with_cpu (cpu_of t) (with_env e' t))).
Proof using.
  intros [Hc Hn] Ho Hcode high Hi Hh. assert (cpu_of t = CpuState (c_exists (cpu_of t)) (c_self (cpu_of t)) (irq_on (cpu_of t)) 0 0) as Ec.
  { unfold cpu_of. destruct (sub_get (t_env t)). simpl in *. by subst. }
  set (t1 := set_in 1 t). assert (handle_irq t = Ok (tt, with_cpu (cpu_of t) (with_env e' t))) as E1.
  { unfold handle_irq. rewrite (bind_ok (gets t_in_interrupt) _ _ t t eq_refl), (bind_ok (modify (set_in 1)) _ tt t t1 eq_refl), (bind_ok get_cpu _ (cpu_of t) t1 t1 eq_refl).
    assert ((if t_curspl (cpu_of t) =? 0 then kassert (t_curspl (cpu_of t) =? 0);; kassert (t_iplhigh_count (cpu_of t) =? 0);; on_cpu (modify (set_curspl IPL_HIGH));;
      on_cpu (modify (λ c, set_iplhigh (t_iplhigh_count c + 1) c));; mret true else mret false) t1 = Ok (true, with_cpu high t1)) as E2.
    { unfold cpu_of at 1 2 3. rewrite Hc, Hn. cbn [Z.eqb]. rewrite !(bind_kassert true) by done.
      rewrite (bind_ok _ _ _ _ _ (on_cpu_eq (modify (set_curspl IPL_HIGH)) t1 tt _ eq_refl)), (bind_ok _ _ _ _ _ (on_cpu_eq (modify _) _ tt _ eq_refl)), with_cpu_twice, cpu_with.
      change (cpu_of t1) with (cpu_of t). by rewrite Ec. }
    rewrite (bind_ok _ _ _ _ _ E2), (bind_ok _ _ _ _ _ (zoom_env sc_interrupt (with_cpu high t1) tt e' Hi)).
    set (t2 := with_env e' (with_cpu high t1)). assert (cpu_of t2 = high) as Ec2 by exact Hh.
    rewrite (bind_ok _ _ tt t2 (with_cpu (cpu_of t) t2)); [by rewrite Ec|].
    rewrite (bind_ok get_cpu _ (cpu_of t2) t2 t2 eq_refl), Ec2. rewrite !(bind_kassert true) by done. rewrite (bind_ok _ _ _ _ _ (on_cpu_eq (modify _) t2 tt _ eq_refl)), (on_cpu_eq (modify (set_curspl 0)) _ tt _ eq_refl), with_cpu_twice, cpu_with, Ec2.
    by rewrite Ec. }
  unfold mips_trap. fold (trap_code tf). rewrite Hcode, (bind_kassert true) by done. pose proof Ho as [(H1 & H2 & H3) H4 H5]. unfold STACK_SIZE in *.
  rewrite (bind_ok getS _ t t t eq_refl), (proj2 (Z.eqb_neq (t_kstack t) 0)) by lia. unfold STACK_SIZE. rewrite (u32_id (t_kstack t + 4096)) by lia.
  rewrite (bind_ok (kassert (t_kstack t <? addr);; kassert (addr <? t_kstack t + 4096)) _ tt t t) by (by rewrite (proj2 (Z.ltb_lt _ _)), (proj2 (Z.ltb_lt _ _)) by lia).
  change (EX_IRQ =? EX_IRQ) with true. cbv iota. rewrite (bind_ok _ _ _ _ _ E1). apply trap_done2_eq. constructor; done.
Qed.
End spec.

(** A kernel in which only [lseek] and page faults do something. *)
Module TrapDemo.
Record env := Env { d_cpu : cpustate; d_mem : umem }.
#[global] Instance env_cpu : Sub env cpustate.
Proof. refine {| sub_get := d_cpu; sub_put c e := Env c (d_mem e) |}; by intros []. Defined.
#[global] Instance calls : SysCalls env := {|
  sc_mem := d_mem;
  sc_set_mem m e := Env (d_cpu e) m;
  sc_gettime := mret (0, 0);
  sc_reboot _ := mret (inl ENOSYS);
  sc_open _ _ := mret (inl ENOENT);
  sc_close _ := mret (inl EBADF);
  sc_write _ _ _ := mret (inl EBADF);
  sc_read _ _ _ := mret (inl EBADF);
  sc_lseek _ pos whence := mret (if whence =? 0 then inr (s32 pos) else inl EINVAL);
  sc_dup2 _ _ := mret (inl EBADF);
  sc_chdir _ := mret (inl ENOENT);
  sc_getcwd _ _ := mret (inl ENOENT);
  sc_fork _ := mret (inl ENOMEM);
  sc_getpid := mret 7;
  sc_waitpid _ _ _ := mret (inl ECHILD);
  sc_exit _ := mret tt;
  sc_execv _ _ := mret (inl ENOENT);
  sc_sbrk _ := mret (inl ENOMEM);
  sc_vm_fault _ va := mret (if va =? 0 then inl EFAULT else inr tt);
  sc_interrupt := mret tt;
  sc_kfree _ := mret tt;
  sc_frame _ := undef;
|}.
Definition start : @tsys env := TSys 0x80001000 0x80004000 0 0x80000500 0 [0] [0]
  (Env (CpuState true 0 false 0 0) (UMem (λ x, if (0x1000 <=? x) && (x <? 0x2000) then Some 0 else None) (λ _, true))).
(** [lseek(3, -5, SEEK_SET)] with the stack at 0x1800. *)
Definition seek : trapframe := Trapframe 0 0xc 32 SYS_lseek 9 3 9 (u32 (Z.shiftr (-5) 32)) (u32 (-5)) 0x1800 0x400000 (replicate 26 9).
(** A kernel access to address 0. *)
Definition fault : trapframe := Trapframe 0 0 8 9 9 9 9 9 9 0x80004800 0x80000100 (replicate 26 9).
End TrapDemo.
Lemma syscall_convention_witness : ∃ tf', syscall 0x80004f00 TrapDemo.seek TrapDemo.start = Ok (Back tf', TrapDemo.start) ∧ tf_a3 tf' = 0 ∧
  (in_regs (tf_v0 tf') (tf_v1 tf') (-5) ↔ - 2 ^ 31 ≤ -5 < 2 ^ 31).
Proof.
  destruct (syscall_convention 0x80004f00 TrapDemo.seek TrapDemo.start) as (_ & _ & _ & _ & H); [by split|by repeat split|].
  apply (H (-5) [0; 0; 0; 0] (-5) (t_env TrapDemo.start)); [reflexivity|lia|by repeat split|reflexivity|reflexivity|by split|lia].
Defined.
Lemma trap_serves_faults_witness : mips_trap 0x80004f00 0x80004e00 TrapDemo.fault TrapDemo.start =
  Ok (Back (set_epc 0x80000500 TrapDemo.fault), returning (with_cpu (CpuState true 0 false 0 0) TrapDemo.start)).
Proof.
  assert (on_stack 0x80004e00 TrapDemo.start) as Hs by (constructor; vm_compute; repeat split; (discriminate || reflexivity)).
  assert (trap_code TrapDemo.fault ∈ [EX_MOD; EX_TLBL; EX_TLBS]) as Hc by (right; left).
  exact (trap_serves_faults 0x80004f00 0x80004e00 TrapDemo.fault TrapDemo.start (inl EFAULT) (t_env (opened TrapDemo.start)) (conj eq_refl eq_refl) eq_refl Hs Hc eq_refl).
Defined.
