(* ===== verification/Fork.v ===== *)
(** [sys_fork] and [sys__exit] of [kern/syscall/process_syscalls.c], and the start of the child in
    [enter_forked_process] ([kern/arch/mips/syscall/syscall.c]), over the processes of [ProcSys].

    The semaphores [forkSem] and [execvSem] are their counts; the blocks that hold the copied trap
    frames are a map, and the threads made runnable are a list with the blocks they are given. *)

From stdpp Require Import base tactics numbers list gmap.
From S2P Require Import Prelude KernDefs Spl SynchObj ProcSys ProcSysSpec CopyInOut Elf Exec ExecSpec Trap TrapSpec.
Local Open Scope Z_scope.

Section fork.
Context {E : Type} {FE : ForkEnv E}.

Record forksys := ForkSys {
  forkSem : Z;
  execvSem : Z;
  frames : gmap Z trapframe;
  ready : list (thread * Z);
  procs : psys E;
}.
#[export] Instance forksys_procs : Sub forksys (psys E).
Proof. refine {| sub_get := procs; sub_put p s := ForkSys (forkSem s) (execvSem s) (frames s) (ready s) p |}; by intros []. Defined.

Definition fork_P : M forksys unit :=
  s ← getS; if 0 <? forkSem s then putS (ForkSys (forkSem s - 1) (execvSem s) (frames s) (ready s) (procs s)) else diverge.
Definition fork_V : M forksys unit :=
  modify (λ s, ForkSys (s32 (forkSem s + 1)) (execvSem s) (frames s) (ready s) (procs s)).
Definition exec_V : M forksys unit :=
  modify (λ s, ForkSys (forkSem s) (s32 (execvSem s + 1)) (frames s) (ready s) (procs s)).
Definition exec_reset : M forksys unit :=
  modify (λ s, ForkSys (forkSem s) 2 (frames s) (ready s) (procs s)).
Definition set_frames (f : gmap Z trapframe) : M forksys unit :=
  modify (λ s, ForkSys (forkSem s) (execvSem s) f (ready s) (procs s)).
Definition start_thread (t : thread) (data1 : Z) : M forksys unit :=
  modify (λ s, ForkSys (forkSem s) (execvSem s) (frames s) (ready s ++ [(t, data1)]) (procs s)).
Definition heap_do {A} (m : M kheap A) : M forksys A := zoom (S := forksys) (T := psys E) (zoom m).
(** [kfree] of a block that holds a frame. *)
Definition free_frame (k : Z) : M forksys unit :=
  s ← getS; set_frames (delete k (frames s));; heap_do (kfree k).

Definition sys_fork (junk : Z) (parenttf : trapframe) : M forksys (result Z) :=
  fork_P;;
  childtf ← heap_do kmalloc;
  if childtf =? 0 then fork_V;; mret (inl ENOMEM)
  else
    s ← getS;
    set_frames (<[childtf := parenttf]> (frames s));;
    r ← zoom (thread_fork junk);
    match r with
    | inl e => fork_V;; free_frame childtf;; mret (inl e)
    | inr child => start_thread child childtf;; mret (inr (t_pid child))
    end.

(** [enter_forked_process] up to [mips_usermode]: the frame the child is started with. *)
Definition child_frame (mytf : Z) : M forksys trapframe :=
  s ← getS;
  tf ← of_opt (frames s !! mytf);
  free_frame mytf;;
  mret (forked_frame tf).

(** Up to [thread_exit]. *)
Definition sys__exit (exitcode : Z) : M forksys unit :=
  fork_V;;
  exec_V;;
  exec_reset;;
  zoom (exit_process exitcode).

(** * A fork returns twice *)
Lemma heap_do_eq {A} (m : M kheap A) s a h : m (heap (procs s)) = Ok (a, h) →
  heap_do m s = Ok (a, ForkSys (forkSem s) (execvSem s) (frames s) (ready s) (PSys h (process_table (procs s)) (pid_counter (procs s)) (curthread (procs s)) (env (procs s)))).
Proof. intros H. unfold heap_do, zoom. simpl. by rewrite H. Qed.

Lemma without_new (L H : gset Z) (k : Z) : k ∉ H → k ∉ L → (L ∪ (list_to_set [k] ∪ H)) ∖ {[k]} = L ∪ H.
Proof. clear. set_solver. Qed.

(** C28: with memory, a free process entry and a unit of [forkSem], [sys_fork] returns twice: the
    caller gets the pid of the new process, which no other process has, and the new thread is
    started with a copy of the caller's frame, in which the call has succeeded with 0 and which
    is otherwise the caller's; the process table gains exactly the child, with the caller as its
    parent; the block of the frame is freed when the child starts. *)
Theorem fork_returns_twice (s : forksys) (i : nat) (junk : Z) o a e1 e2 (tf : trapframe) : pinv (procs s) → 0 < forkSem s →
  (1 ≤ i)%nat → Z.of_nat i < PROC_MAX → process_table (procs s) !! i = Some None → (∀ j : nat, (1 ≤ j < i)%nat → process_table (procs s) !! j ≠ Some None) →
  kh_oracle (heap (procs s)) = replicate 8 true ++ o → 0 ≤ pid_counter (procs s) → pid_counter (procs s) + 1 < PID_MAX → t_pid (curthread (procs s)) ≠ 0 →
  env_as_copy (env (procs s)) = Ok (inr a, e1) → env_share_files e1 = Ok (tt, e2) →
  ∃ t k s1 s2, sys_fork junk tf s = Ok (inr (t_pid t), s1) ∧ ready s1 = ready s ++ [(t, k)] ∧ forkSem s1 = forkSem s - 1 ∧
    (∀ j q, process_table (procs s) !! j = Some (Some q) → p_pid q ≠ t_pid t) ∧
    process_table (procs s1) = <[i := Some (child_entry (th_addr t) (t_pid t) (t_pid (curthread (procs s))))]> (process_table (procs s)) ∧
    child_frame k s1 = Ok (answered (inr 0) tf, s2) ∧ convention tf (answered (inr 0) tf) ∧ frames s2 = delete k (frames s) ∧
    kh_live (heap (procs s2)) = list_to_set (seqZ (kh_next (heap (procs s)) + 1) 7) ∪ kh_live (heap (procs s)) ∧ pinv (procs s1).
Proof.
  intros HI Hsem Hi1 HiM Hi Hlow Ho Hc0 Hc Hpid Hcopy Hshare. set (p := procs s) in *. pose proof (pi_heap _ HI) as Hh. pose proof Hh as [Hn0 Hl0].
  destruct (thread_fork_ok (with_heap p 1) i junk o a e1 e2) as (t & p' & Ef & Ht1 & Ht2 & Ht3 & Htab & Hfresh & Hlive & _ & HI').
  { by apply pinv_with_heap. } { done. } { done. } { done. } { done. } { cbn [heap with_heap heap_after kh_oracle]. by rewrite Ho. } { done. } { done. } { done. } { done. } { done. }
  set (k := kh_next (heap p)). unfold sys_fork.
  set (s0 := ForkSys (forkSem s - 1) (execvSem s) (frames s) (ready s) p).
  assert (fork_P s = Ok (tt, s0)) as E0 by (unfold fork_P; rewrite (bind_ok getS _ s s s eq_refl), (proj2 (Z.ltb_lt _ _)) by done; done).
  pose proof (kmalloc_after (heap p) 0 (replicate 7 true ++ o) Hh ltac:(by rewrite drop_0, Ho)) as [Ek Ek0]. rewrite heap_after_0, Z.add_0_r in Ek. rewrite Z.add_0_r in Ek0.
  eexists t, k, _, _. split.
  { rewrite (bind_ok _ _ _ _ _ E0), (bind_ok _ _ _ _ _ (heap_do_eq kmalloc s0 _ _ Ek)), Ek0, (bind_ok getS _ _ _ _ eq_refl), (bind_ok (set_frames _) _ tt _ _ eq_refl).
    cbn [frames s0 procs process_table pid_counter curthread env forkSem execvSem ready].
    match goal with |- mbind _ _ ?st = _ => assert (zoom (thread_fork junk) st = Ok (inr t, ForkSys (forkSem s - 1) (execvSem s) (<[k := tf]> (frames s)) (ready s) p')) as E1 end.
    { unfold zoom. cbn [sub_get forksys_procs procs]. fold (with_heap p 1). by rewrite Ef. }
    rewrite (bind_ok _ _ _ _ _ E1). reflexivity. }
  cbn [ready forkSem procs]. split; [done|]. split; [done|]. split; [exact Hfresh|]. split; [exact Htab|].
  assert (k ∈ kh_live (heap p')) as Hk.
  { rewrite Hlive. cbn [heap with_heap heap_after kh_live]. apply elem_of_union_r, elem_of_union_l, elem_of_list_to_set, elem_of_seqZ. unfold k. lia. }
  split.
  { unfold child_frame. rewrite (bind_ok getS _ _ _ _ eq_refl). cbn [frames]. rewrite (bind_of_opt _ _ tf) by apply lookup_insert_eq.
    unfold free_frame. rewrite bind_assoc, (bind_ok getS _ _ _ _ eq_refl), bind_assoc, (bind_ok (set_frames _) _ tt _ _ eq_refl).
    match goal with |- mbind _ _ ?st = _ => rewrite (bind_ok _ _ _ _ _ (heap_do_eq (kfree k) st _ _ (kfree_live (heap p') k (pi_heap _ HI') Hk))) end. reflexivity. }
  split; [apply answered_convention; by left|]. cbn [frames procs heap kh_live]. split; [by rewrite delete_insert_eq|]. split; [|exact HI'].
  rewrite Hlive. cbn [heap with_heap heap_after kh_live kh_next]. fold k. change (seqZ k (Z.of_nat 1)) with [k]. change (k + Z.of_nat 1) with (k + 1).
  assert (k ∉ kh_live (heap p)) as Hk1 by (intros Hx; specialize (Hl0 k Hx); unfold k in *; lia).
  assert (k ∉ (list_to_set (seqZ (k + 1) 7) : gset Z)) as Hk2 by (rewrite elem_of_list_to_set, elem_of_seqZ; lia). by apply without_new.
Qed.
End fork.

(** Process 5 forks. *)
Module ForkDemo.
Definition start : @forksys unit := ForkSys 8 2 ∅ [] (PSys (KHeap 10 (list_to_set [1; 2; 3]) (replicate 8 true)) (replicate 100 None) 5 SmallProc.parent tt).
Definition frame : trapframe := Trapframe 0 0xc 32 SYS_fork 9 9 9 9 9 0x7fff0000 0x400100 (replicate 26 9).
Lemma start_ok : pinv (procs start).
Proof.
  destruct SmallProc.start_inv as [H1 H2 H3 H4 H5 H6 H7]. constructor; try done. intros j p Hj. destruct (H4 j p Hj) as [P1 P2 P3 P4 P5]. by constructor.
Qed.
End ForkDemo.
Lemma fork_returns_twice_witness : ∃ s1 s2 k, sys_fork (FE := SmallProc.unit_env) 0 ForkDemo.frame ForkDemo.start = Ok (inr 6, s1) ∧
  child_frame k s1 = Ok (answered (inr 0) ForkDemo.frame, s2) ∧ forkSem s1 = 7.
Proof.
  destruct (fork_returns_twice (FE := SmallProc.unit_env) ForkDemo.start 1 0 [] 77 tt tt ForkDemo.frame) as (t & k & s1 & s2 & E1 & _ & E3 & _ & _ & E4 & _).
  - exact ForkDemo.start_ok.
  - reflexivity.
  - lia.
  - reflexivity.
  - reflexivity.
  - intros j Hj. lia.
  - reflexivity.
  - simpl. lia.
  - reflexivity.
  - simpl. lia.
  - reflexivity.
  - reflexivity.
  - exists s1, s2, k. split; [|split; [exact E4|exact E3]].
    assert (match sys_fork (FE := SmallProc.unit_env) 0 ForkDemo.frame ForkDemo.start with Ok (inr n, _) => n = 6 | _ => False end) as Hn by (vm_compute; reflexivity).
    rewrite E1 in Hn. by rewrite Hn in E1.
Defined.
