(* ===== verification/Cpu.v ===== *)
(** Processors and the switch between threads: the rest of [kern/thread/thread.c] (creation and
    startup of processors, [thread_make_runnable], [thread_switch], [thread_startup],
    [thread_exit], wait channels and interprocessor interrupts), [kern/thread/clock.c], and the
    entry and exit of an interrupt in [kern/arch/mips/locore/trap.c].

    Processors run interleaved, one action of one processor at a time. An action is what a
    processor does up to the release of the last lock it takes: where the code gives up all its
    locks in the middle ([cpu_idle], or a waker between the wait channel and the run queue) it is
    split into several actions. A function that switches threads ends in the context of another
    thread; what the thread it left does next is in [th_context].

    Thread lists are used through [Sched.ThreadLists]. The interrupt level of a thread
    ([t_curspl] and [t_iplhigh_count]) and the locks are tables of their own. *)

From stdpp Require Import base tactics numbers functions list gmap.
From S2P Require Import Prelude KernDefs Spl Threadlist Sched.
Local Open Scope Z_scope.

(** * Data *)
Inductive threadstate := S_RUN | S_READY | S_SLEEP | S_ZOMBIE.
#[export] Instance threadstate_eq : EqDecision threadstate.
Proof. solve_decision. Defined.

(** Where a thread goes on when it is switched to: a boot thread has no saved context before its
    first switch; a new one goes to [thread_startup]; others are inside [thread_switch], whose
    variable [spl] they have, called from a function that goes on or from [thread_exit]. *)
Inductive context := NoContext | Startup | InSwitch (spl : Z) (returns : bool).

Record thr := Thr {
  th_state : threadstate;
  th_cpu : nat;
  th_context : context;
  th_as : Z;                  (* t_addrspace, 0 for none *)
  th_in : bool;               (* t_in_interrupt *)
}.
Definition set_state (st : threadstate) (h : thr) : thr := Thr st (th_cpu h) (th_context h) (th_as h) (th_in h).
Definition set_cpu (c : nat) (h : thr) : thr := Thr (th_state h) c (th_context h) (th_as h) (th_in h).
Definition set_context (x : context) (h : thr) : thr := Thr (th_state h) (th_cpu h) x (th_as h) (th_in h).
Definition set_as (a : Z) (h : thr) : thr := Thr (th_state h) (th_cpu h) (th_context h) a (th_in h).
Definition set_in_irq (b : bool) (h : thr) : thr := Thr (th_state h) (th_cpu h) (th_context h) (th_as h) b.

Record cpu := Cpu {
  c_curthread : nat;
  c_hardclocks : Z;
  c_idle : bool;              (* c_isidle *)
  c_ipi_pending : Z;
  c_shootdown : list Z;
  c_numshootdown : Z;
  c_tlb : list Z;             (* the address spaces the TLB has translations of *)
  c_woken : bool;             (* [cpu_idle] was interrupted since the run queue was looked at *)
}.
Definition set_cur (t : nat) (k : cpu) : cpu := Cpu t (c_hardclocks k) (c_idle k) (c_ipi_pending k) (c_shootdown k) (c_numshootdown k) (c_tlb k) (c_woken k).
Definition set_hardclocks (n : Z) (k : cpu) : cpu := Cpu (c_curthread k) n (c_idle k) (c_ipi_pending k) (c_shootdown k) (c_numshootdown k) (c_tlb k) (c_woken k).
Definition set_idle (b w : bool) (k : cpu) : cpu := Cpu (c_curthread k) (c_hardclocks k) b (c_ipi_pending k) (c_shootdown k) (c_numshootdown k) (c_tlb k) w.
Definition set_pending (n : Z) (k : cpu) : cpu := Cpu (c_curthread k) (c_hardclocks k) (c_idle k) n (c_shootdown k) (c_numshootdown k) (c_tlb k) (c_woken k).
Definition set_shoot (l : list Z) (n : Z) (k : cpu) : cpu := Cpu (c_curthread k) (c_hardclocks k) (c_idle k) (c_ipi_pending k) l n (c_tlb k) (c_woken k).
Definition set_tlb (l : list Z) (k : cpu) : cpu := Cpu (c_curthread k) (c_hardclocks k) (c_idle k) (c_ipi_pending k) (c_shootdown k) (c_numshootdown k) l (c_woken k).
Definition set_woken (k : cpu) : cpu := Cpu (c_curthread k) (c_hardclocks k) (c_idle k) (c_ipi_pending k) (c_shootdown k) (c_numshootdown k) (c_tlb k) true.

(** The thread lists: the run queue, the zombies and the private list [victims] of a processor, the
    threads on a channel, and what a thread has taken off a channel and not made runnable yet
    ([target] in [wchan_wakeone], [list] in [wchan_wakeall]). *)
Inductive tlid := Runq (c : nat) | Zombies (c : nat) | Victims (c : nat) | Chan (w : nat) | Hand (t : nat).
#[export] Instance tlid_eq : EqDecision tlid.
Proof. solve_decision. Defined.
Definition lid (x : tlid) : nat :=
  match x with Runq c => 5 * c | Zombies c => 5 * c + 1 | Victims c => 5 * c + 2 | Chan w => 5 * w + 3 | Hand t => 5 * t + 4 end.
(** The locks, in one table. *)
Definition runq_lock (c : nat) : nat := (3 * c)%nat.
Definition ipi_lock (c : nat) : nat := (3 * c + 1)%nat.
Definition chan_lock (w : nat) : nat := (3 * w + 2)%nat.

Definition IPI_PANIC : Z := 0.
Definition IPI_OFFLINE : Z := 1.
Definition IPI_UNIDLE : Z := 2.
Definition IPI_TLBSHOOTDOWN : Z := 3.
Definition TLBSHOOTDOWN_MAX : Z := 16.
Definition TLBSHOOTDOWN_ALL : Z := -1.
Definition SCHEDULE_HARDCLOCKS : Z := 4.
Definition MIGRATE_HARDCLOCKS : Z := 16.

Record low := Low { levels : gmap nat (Z * Z); irqs : gmap nat bool; locks : gmap nat spinlock }.

Section cpus.
Context {L : Type} {TL : ThreadLists L}.

Record core := Core { ncpus : nat; threads : gmap nat thr; cpus : nat → cpu; tlists : L }.
Record sys := Sys { co : core; lo : low }.
#[export] Instance sys_lists : Sub sys L.
Proof.
  refine {| sub_get s := tlists (co s); sub_put l s := Sys (Core (ncpus (co s)) (threads (co s)) (cpus (co s)) l) (lo s) |}; by intros [[] ?].
Defined.

Definition cpu_of (c : nat) : M sys cpu := gets (λ s, cpus (co s) c).
Definition cur (c : nat) : M sys nat := gets (λ s, c_curthread (cpus (co s) c)).
Definition upd_cpu (c : nat) (f : cpu → cpu) : M sys unit :=
  modify (λ s, Sys (Core (ncpus (co s)) (threads (co s)) (<[c := f (cpus (co s) c)]> (cpus (co s))) (tlists (co s))) (lo s)).
(** An access to a thread that was destroyed is undefined. *)
Definition thread_of (t : nat) : M sys thr := s ← getS; of_opt (threads (co s) !! t).
Definition upd_thread (t : nat) (f : thr → thr) : M sys unit :=
  h ← thread_of t;
  modify (λ s, Sys (Core (ncpus (co s)) (<[t := f h]> (threads (co s))) (cpus (co s)) (tlists (co s))) (lo s)).
Definition add_tail (x : tlid) (t : nat) : M sys unit := zoom (tl_addtail (lid x) t).
Definition add_head (x : tlid) (t : nat) : M sys unit := zoom (tl_addhead (lid x) t).
Definition rem_head (x : tlid) : M sys (option nat) := zoom (tl_remhead (lid x)).
Definition rem_tail (x : tlid) : M sys (option nat) := zoom (tl_remtail (lid x)).
Definition is_empty (x : tlid) : M sys bool := gets (λ s, tl_num (lid x) (tlists (co s)) =? 0).

(** The functions of [spl.c] on processor [c], with the level of its current thread. *)
Definition on_spl {A} (c : nat) (m : M cpustate A) : M sys A := λ s,
  let t := c_curthread (cpus (co s) c) in
  match levels (lo s) !! t, irqs (lo s) !! c with
  | Some (n, l), Some i =>
      match m (CpuState true (Z.of_nat c) i n l) with
      | Ok (a, k) => Ok (a, Sys (co s) (Low (<[t := (t_iplhigh_count k, t_curspl k)]> (levels (lo s))) (<[c := irq_on k]> (irqs (lo s))) (locks (lo s))))
      | Panic => Panic | Undef => Undef | Diverge => Diverge
      end
  | _, _ => Undef
  end.
Definition set_lock (k : nat) (lk : spinlock) : M sys unit :=
  modify (λ s, Sys (co s) (Low (levels (lo s)) (irqs (lo s)) (<[k := lk]> (locks (lo s))))).
Definition lock_at (k : nat) : M sys spinlock := s ← getS; of_opt (locks (lo s) !! k).
Definition acquire (c k : nat) : M sys unit := lk ← lock_at k; lk ← on_spl c (spinlock_acquire lk); set_lock k lk.
Definition release (c k : nat) : M sys unit := lk ← lock_at k; lk ← on_spl c (spinlock_release lk); set_lock k lk.
Definition locked {A} (c k : nat) (m : M sys A) : M sys A := acquire c k;; a ← m; release c k;; mret a.

(** * Interprocessor interrupts *)
Definition send_bit (code : Z) (k : cpu) : cpu := set_pending (Z.lor (c_ipi_pending k) (Z.shiftl 1 code)) k.
Definition ipi_send (c target : nat) (code : Z) : M sys unit :=
  kassert ((0 <=? code) && (code <? 32));;
  locked c (ipi_lock target) (upd_cpu target (send_bit code)).
(** The loop over all other processors. *)
Fixpoint each_other (c : nat) (body : nat → M sys unit) (n i : nat) : M sys unit :=
  match n with
  | O => mret tt
  | S n => (if decide (i = c) then mret tt else body i);; each_other c body n (i + 1)
  end.
Definition ipi_broadcast (c : nat) (code : Z) : M sys unit :=
  s ← getS; each_other c (λ d, ipi_send c d code) (ncpus (co s)) 0.
Definition tlb_broadcast (c : nat) : M sys unit :=
  s ← getS;
  each_other c (λ d,
    upd_cpu d (λ k, set_shoot (c_shootdown k) TLBSHOOTDOWN_ALL k);;
    ipi_send c d 3) (ncpus (co s)) 0.
Definition ipi_tlbshootdown (c target : nat) (mapping : Z) : M sys unit :=
  locked c (ipi_lock target) (
    k ← cpu_of target;
    let n := c_numshootdown k in
    (if n =? TLBSHOOTDOWN_MAX then upd_cpu target (λ k, set_shoot (c_shootdown k) TLBSHOOTDOWN_ALL k)
     else l ← of_opt (zset n mapping (c_shootdown k)); upd_cpu target (set_shoot l (n + 1)));;
    upd_cpu target (send_bit IPI_TLBSHOOTDOWN)).
(** [vm_tlbshootdown_all] and [vm_tlbshootdown] of [kern/vm/addrspace.c]; the second panics. *)
Definition tlb_flush (c : nat) : M sys unit :=
  spl ← on_spl c splhigh; upd_cpu c (set_tlb []);; _ ← on_spl c (splx spl); mret tt.
Definition interprocessor_interrupt (c : nat) : M sys unit :=
  acquire c (ipi_lock c);;
  k ← cpu_of c;
  let bits := c_ipi_pending k in
  if Z.testbit bits IPI_PANIC then diverge              (* cpu_halt *)
  else if Z.testbit bits IPI_OFFLINE then locked c (runq_lock c) (mret tt);; diverge
  else
    (if Z.testbit bits IPI_TLBSHOOTDOWN then
       (if c_numshootdown k =? TLBSHOOTDOWN_ALL then tlb_flush c
        else if 0 <? c_numshootdown k then panic else mret tt);;
       upd_cpu c (λ k, set_shoot (c_shootdown k) 0 k)
     else mret tt);;
    upd_cpu c (set_pending 0);;
    release c (ipi_lock c).
(** [as_activate]: it takes no notice of its argument. *)
Definition as_activate (c : nat) : M sys unit :=
  spl ← on_spl c splhigh; upd_cpu c (set_tlb []);; tlb_broadcast c;; _ ← on_spl c (splx spl); mret tt.

(** * Threads *)
Definition thread_make_runnable (c target : nat) (already_have_lock : bool) : M sys unit :=
  h ← thread_of target;
  let d := th_cpu h in
  let enqueue :=
    k ← cpu_of d;
    add_tail (Runq d) target;;
    (if c_idle k then ipi_send c d IPI_UNIDLE else mret tt) in
  if already_have_lock then
    lk ← lock_at (runq_lock d);
    kassert (spinlock_do_i_hold (CpuState true (Z.of_nat c) false 0 0) lk);;
    enqueue
  else locked c (runq_lock d) enqueue.

Definition thread_destroy (c z : nat) : M sys unit :=
  t ← cur c;
  kassert (bool_decide (z ≠ t));;
  h ← thread_of z;
  kassert (bool_decide (th_state h ≠ S_RUN));;
  kassert (th_as h =? 0);;
  modify (λ s, Sys (Core (ncpus (co s)) (delete z (threads (co s))) (cpus (co s)) (tlists (co s)))
                   (Low (delete z (levels (lo s))) (irqs (lo s)) (locks (lo s)))).
(** At most as many rounds as there are zombies, and one. *)
Fixpoint exorcise_loop (fuel c : nat) : M sys unit :=
  match fuel with
  | O => diverge
  | S fuel =>
      z ← rem_head (Zombies c);
      match z with
      | None => mret tt
      | Some z =>
          t ← cur c;
          kassert (bool_decide (z ≠ t));;
          h ← thread_of z;
          kassert (bool_decide (th_state h = S_ZOMBIE));;
          thread_destroy c z;;
          exorcise_loop fuel c
      end
  end.
Definition exorcise (c : nat) : M sys unit :=
  n ← gets (λ s, tl_num (lid (Zombies c)) (tlists (co s)));
  exorcise_loop (S (Z.to_nat n)) c.

(** What [thread_switch], after the switch, and [thread_startup] have in common. *)
Definition come_in (c : nat) : M sys unit :=
  t ← cur c;
  upd_thread t (set_state S_RUN);;
  release c (runq_lock c);;
  h ← thread_of t;
  (if th_as h =? 0 then mret tt else as_activate c);;
  exorcise c.
Definition thread_startup (c : nat) : M sys unit := come_in c;; _ ← on_spl c spl0; mret tt.
(** In the context of the thread switched to. *)
Definition arrive (c : nat) : M sys unit :=
  t ← cur c;
  h ← thread_of t;
  match th_context h with
  | NoContext => undef
  | Startup => thread_startup c
  | InSwitch spl returns =>
      come_in c;;
      _ ← on_spl c (splx spl);
      if returns then mret tt else panic                (* The zombie walks! *)
  end.
(** The loop of [thread_switch] with the run queue locked, up to [cpu_idle]. (The guard words of the
    kernel stacks are not modelled, and [thread_checkstack] with them.) *)
Definition pick (c : nat) : M sys unit :=
  next ← rem_head (Runq c);
  match next with
  | None => release c (runq_lock c)
  | Some t => upd_cpu c (λ k, set_cur t (set_idle false false k));; arrive c
  end.
(** [cpu_idle] comes back. *)
Definition unidle (c : nat) : M sys unit := acquire c (runq_lock c);; pick c.

Definition thread_switch (c : nat) (newstate : threadstate) (wc : nat) : M sys unit :=
  spl ← on_spl c splhigh;
  k ← cpu_of c;
  if c_idle k then _ ← on_spl c (splx spl); mret tt
  else
    t ← cur c;
    acquire c (runq_lock c);;
    empty ← is_empty (Runq c);
    if bool_decide (newstate = S_READY) && empty then
      release c (runq_lock c);; _ ← on_spl c (splx spl); mret tt
    else
      (match newstate with
       | S_RUN => panic
       | S_READY => thread_make_runnable c t true
       | S_SLEEP => add_tail (Chan wc) t;; release c (chan_lock wc)
       | S_ZOMBIE => add_tail (Zombies c) t
       end);;
      upd_thread t (set_state newstate);;
      upd_thread t (set_context (InSwitch spl (bool_decide (newstate ≠ S_ZOMBIE))));;
      upd_cpu c (set_idle true false);;
      pick c.

Definition thread_yield (c : nat) : M sys unit := thread_switch c S_READY 0.
(** The current directory and the open files are given back before; [as_destroy] frees the
    address space. *)
Definition thread_exit (c : nat) : M sys unit :=
  t ← cur c;
  h ← thread_of t;
  (if th_as h =? 0 then mret tt else upd_thread t (set_as 0);; as_activate c);;
  _ ← on_spl c splhigh;
  thread_switch c S_ZOMBIE 0.

(** The end of [thread_fork]: [n] is the block of the new thread and [a] its address space;
    [thread_create] has set the level to [IPL_HIGH] with a count of 1. *)
Definition start_thread (c n : nat) (a : Z) : M sys unit :=
  t ← cur c;
  h ← thread_of t;
  s ← getS;
  (if decide (is_Some (threads (co s) !! n)) then undef else mret tt);;
  putS (Sys (Core (ncpus (co s)) (<[n := Thr S_READY (th_cpu h) Startup a false]> (threads (co s))) (cpus (co s)) (tlists (co s)))
            (Low (<[n := (1 + 1, IPL_HIGH)]> (levels (lo s))) (irqs (lo s)) (locks (lo s))));;
  thread_make_runnable c n false.

(** * Wait channels *)
Definition wchan_sleep (c wc : nat) : M sys unit :=
  t ← cur c;
  h ← thread_of t;
  kassert (negb (th_in h));;
  thread_switch c S_SLEEP wc.
(** The round of [clocksleep]. *)
Definition lock_and_sleep (c wc : nat) : M sys unit := acquire c (chan_lock wc);; wchan_sleep c wc.
Definition take_one (c wc : nat) : M sys unit :=
  t ← cur c;
  target ← locked c (chan_lock wc) (rem_head (Chan wc));
  match target with None => mret tt | Some x => add_tail (Hand t) x end.
Fixpoint take_loop (fuel t wc : nat) : M sys unit :=
  match fuel with
  | O => diverge
  | S fuel =>
      target ← rem_head (Chan wc);
      match target with None => mret tt | Some x => add_tail (Hand t) x;; take_loop fuel t wc end
  end.
Definition take_all (c wc : nat) : M sys unit :=
  t ← cur c;
  locked c (chan_lock wc) (
    n ← gets (λ s, tl_num (lid (Chan wc)) (tlists (co s)));
    take_loop (S (Z.to_nat n)) t wc).
Definition deliver (c : nat) : M sys bool :=
  t ← cur c;
  target ← rem_head (Hand t);
  match target with
  | None => mret false
  | Some x => thread_make_runnable c x false;; mret true
  end.
Definition wchan_wakeone (c wc : nat) : M sys unit := take_one c wc;; _ ← deliver c; mret tt.
Fixpoint deliver_all (fuel c : nat) : M sys unit :=
  match fuel with O => diverge | S fuel => b ← deliver c; if b : bool then deliver_all fuel c else mret tt end.
Definition wchan_wakeall (c wc : nat) : M sys unit :=
  take_all c wc;;
  t ← cur c;
  n ← gets (λ s, tl_num (lid (Hand t)) (tlists (co s)));
  deliver_all (S (Z.to_nat n)) c.

(** The clock wakes everything on [lbolt] once a second. *)
Definition timerclock (c lbolt : nat) : M sys unit := wchan_wakeall c lbolt.

(** * Migration: the rounds of the three loops of [thread_consider_migration] *)
Definition grab (c : nat) : M sys unit :=
  locked c (runq_lock c) (
    t ← rem_tail (Runq c);
    t ← of_opt t;
    add_head (Victims c) t).
Definition give (c d : nat) : M sys unit :=
  me ← cur c;
  locked c (runq_lock d) (
    t ← rem_head (Victims c);
    t ← of_opt t;
    if decide (t = me) then add_tail (Victims c) t
    else
      upd_thread t (set_cpu d);;
      add_tail (Runq d) t;;
      k ← cpu_of d;
      if c_idle k then ipi_send c d IPI_UNIDLE else mret tt).
Definition give_back (c : nat) : M sys unit :=
  locked c (runq_lock c) (
    t ← rem_head (Victims c);
    match t with
    | None => mret tt
    | Some t => add_tail (Runq c) t
    end).

(** * The clock *)
Definition schedule : M sys unit := mret tt.
(** [migrate] is [thread_consider_migration], for which see [Sched]. *)
Definition hardclock (migrate : M sys unit) (c : nat) : M sys unit :=
  upd_cpu c (λ k, set_hardclocks (u32 (c_hardclocks k + 1)) k);;
  k ← cpu_of c;
  (if c_hardclocks k mod SCHEDULE_HARDCLOCKS =? 0 then schedule else mret tt);;
  (if c_hardclocks k mod MIGRATE_HARDCLOCKS =? 0 then migrate else mret tt);;
  thread_yield c.

(** * Interrupts: before and after the handler *)
Definition irq_enter (c : nat) : M sys unit :=
  t ← cur c;
  upd_thread t (set_in_irq true);;
  upd_cpu c set_woken;;
  on_spl c (
    k ← getS;
    if t_curspl k =? 0 then
      kassert (t_iplhigh_count k =? 0);;
      modify (λ k, set_irq false (set_iplhigh (t_iplhigh_count k + 1) (set_curspl IPL_HIGH k)))
    else mret tt).
(** [adjust] is [doadjust]; the return from the exception turns interrupts on again. *)
Definition irq_leave (c : nat) (adjust : bool) : M sys unit :=
  t ← cur c;
  (if adjust then on_spl c (
     k ← getS;
     kassert (t_curspl k =? IPL_HIGH);;
     kassert (t_iplhigh_count k =? 1);;
     modify (λ k, set_irq true (set_curspl 0 (set_iplhigh (t_iplhigh_count k - 1) k))))
   else mret tt);;
  upd_thread t (set_in_irq false).

(** * Starting up *)
(** [cpu_create] with the memory it needs; [n] is the block of its first thread. *)
Definition cpu_create (n : nat) : M sys unit :=
  modify (λ s,
    let c := ncpus (co s) in
    Sys (Core (S c) (<[n := Thr S_READY c NoContext 0 false]> (threads (co s))) (<[c := Cpu n 0 false 0 (replicate 16 0) 0 [] false]> (cpus (co s))) (tlists (co s)))
        (Low (<[n := (1, IPL_HIGH)]> (levels (lo s))) (<[c := false]> (irqs (lo s)))
             (<[runq_lock c := spinlock_init]> (<[ipi_lock c := spinlock_init]> (locks (lo s)))))).
Definition thread_shutdown (c : nat) : M sys unit := ipi_broadcast c IPI_OFFLINE.
End cpus.
