(* ===== verification/CpuInv.v ===== *)
(** The invariant of [Cpu]: where each thread is, what its level is, and which processor has been called.
    The actions of a processor, when the code takes them, and how the invariant changes with them. *)

From stdpp Require Import base tactics numbers functions fin_map_dom list gmap.
From S2P Require Import Prelude KernDefs Spl Threadlist Sched Cpu.
Local Open Scope Z_scope.

(** * Actions *)
Inductive action :=
  | Yield | Sleep (w : nat) | Exit | Fork (n : nat) (a : Z)
  | TakeOne (w : nat) | TakeAll (w : nat) | Deliver
  | Grab | Give (d : nat) | GiveBack
  | Enter | Leave | Unidle | Ipi | Tick | Touch | Raise | Lower.

(** ** Thread lists by name *)
Lemma lid_inj x y : lid x = lid y → x = y.
Proof. destruct x, y; simpl; intros; try lia; f_equal; lia. Qed.
Lemma lid_surj n : ∃ x, lid x = n.
Proof.
  assert (n = 5 * (n / 5) + n mod 5)%nat as H by (apply Nat.div_mod; lia). assert (n mod 5 < 5)%nat as Hb by (apply Nat.mod_upper_bound; lia).
  remember (n mod 5)%nat as r. destruct r as [|[|[|[|[|]]]]]; [exists (Runq (n / 5))|exists (Zombies (n / 5))|exists (Victims (n / 5))|exists (Chan (n / 5))|exists (Hand (n / 5))|lia]; unfold lid; lia.
Qed.

Section spec.
Context {L : Type} {TL : ThreadLists L}.
Implicit Types (s : @sys L) (A : tlid → list nat) (h : thr) (k : cpu).

Definition act (c : nat) (a : action) : M (@sys L) unit :=
  match a with
  | Yield => thread_yield c
  | Sleep w => lock_and_sleep c w
  | Exit => thread_exit c
  | Fork n a => start_thread c n a
  | TakeOne w => take_one c w
  | TakeAll w => take_all c w
  | Deliver => _ ← deliver c; mret tt
  | Grab => grab c
  | Give d => give c d
  | GiveBack => give_back c
  | Enter => irq_enter c
  | Leave => k ← cpu_of c; irq_leave c (negb (c_idle k))
  | Unidle => unidle c
  | Ipi => interprocessor_interrupt c
  | Tick => upd_cpu c (λ k, set_hardclocks (u32 (c_hardclocks k + 1)) k)
  | Touch => t ← cur c; h ← thread_of t; upd_cpu c (λ k, set_tlb (th_as h :: c_tlb k) k)
  | Raise => _ ← on_spl c splhigh; mret tt
  | Lower => _ ← on_spl c spl0; mret tt
  end.

(** When the code takes an action: threads sleep and exit with nothing in hand and outside of
    interrupt handlers, migration happens in a handler and is completed there, a processor that
    idles runs handlers only, memory is translated for the address space of the thread. *)
Definition legal s (c : nat) (a : action) : bool :=
  let k := cpus (co s) c in
  let empty x := tl_num (lid x) (tlists (co s)) =? 0 in
  bool_decide (c < ncpus (co s))%nat &&
  match threads (co s) !! c_curthread k with
  | None => false
  | Some h =>
      let free := negb (c_idle k) && negb (th_in h) in
      let chan w := bool_decide (is_Some (locks (lo s) !! chan_lock w)) in
      let settled := empty (Hand (c_curthread k)) && empty (Victims c) in
      match a with
      | Yield => empty (Victims c) && (negb (c_idle k) || th_in h)
      | Sleep w => free && settled && chan w
      | Exit => free && settled
      | Fork n _ => free && bool_decide (threads (co s) !! n = None) && (Z.of_nat (size (threads (co s))) + 2 <? 2 ^ 32)
      | TakeOne w | TakeAll w => (negb (c_idle k) || th_in h) && chan w
      | Deliver | Tick => negb (c_idle k) || th_in h
      | Grab => th_in h && negb (empty (Runq c))
      | Give d => th_in h && negb (empty (Victims c)) && bool_decide (d < ncpus (co s) ∧ d ≠ c)%nat
      | GiveBack => th_in h
      | Enter => if c_idle k then negb (th_in h) else bool_decide (irqs (lo s) !! c = Some true)
      | Leave => th_in h && empty (Victims c) && (negb (c_idle k) || empty (Hand (c_curthread k)))
      | Unidle => c_idle k && negb (th_in h)
      | Ipi => th_in h
      | Touch => negb (c_idle k) && negb (th_as h =? 0)
      | Raise | Lower => free
      end
  end.

(** * The invariant *)
Inductive place := On (x : tlid) | Running (c : nat).
Definition holds (l : L) A : Prop := ∃ B, tl_holds l B ∧ ∀ x, B (lid x) = A x.

(** [b] is the processor in the middle of a switch, which holds the lock of its run queue. *)
Definition queued h : Prop := th_state h = S_READY ∨ th_state h = S_SLEEP.
Definition sits s (x : tlid) h : Prop :=
  match x with
  | Runq c | Victims c => th_cpu h = c ∧ queued h
  | Zombies c => th_cpu h = c ∧ th_state h = S_ZOMBIE ∧ th_as h = 0
  | Chan _ => th_state h = S_SLEEP
  | Hand y => th_state h = S_SLEEP ∧ is_Some (threads (co s) !! y)
  end.
Definition saved (b : option nat) k (t : nat) h : Prop :=
  match th_context h with
  | NoContext => False
  | Startup => th_in h = false ∧ th_state h ≠ S_ZOMBIE ∧ c_curthread k ≠ t
  | InSwitch spl r => (spl = 0 ∨ spl = 1) ∧ r = bool_decide (th_state h ≠ S_ZOMBIE) ∧ (th_in h = true → spl = 1 ∨ (c_curthread k = t ∧ b ≠ Some (th_cpu h)))
  end.
Definition idle_level (b : option nat) (c : nat) : Z := if decide (b = Some c) then 2 else 1.
Record parked (b : option nat) s A k (t : nat) h (x : tlid) : Prop := {
  pk_on : t ∈ A x;
  pk_sits : sits s x h;
  pk_saved : saved b k t h;
  pk_idle : c_curthread k = t → c_idle k = true;
  pk_level : levels (lo s) !! t = Some (if decide (c_curthread k = t) then idle_level b (th_cpu h) else 2, 1);
  pk_hand : th_state h = S_ZOMBIE → A (Hand t) = [] ∨ (c_curthread k = t ∧ th_in h = true ∧ b ≠ Some (th_cpu h));
}.
Record running s k (t : nat) h (c : nat) : Prop := {
  rn_cpu : c = th_cpu h;
  rn_cur : c_curthread k = t;
  rn_idle : c_idle k = false;
  rn_state : th_state h = S_RUN ∨ th_state h = S_READY;
  rn_level : ∃ l, levels (lo s) !! t = Some (l, l) ∧ irqs (lo s) !! c = Some (l =? 0) ∧ (l = 0 ∨ l = 1) ∧ (th_in h = true → l = 1);
  rn_tlb : th_as h ≠ 0 → Forall (λ a, a = th_as h) (c_tlb k);
}.
Definition thr_ok (b : option nat) s A (pl : nat → place) (t : nat) h : Prop :=
  (th_cpu h < ncpus (co s))%nat ∧
  match pl t with
  | On x => parked b s A (cpus (co s) (th_cpu h)) t h x
  | Running c => running s (cpus (co s) (th_cpu h)) t h c
  end.
Record cpu_ok (b : option nat) s A (c : nat) k h : Prop := {
  ck_cur : threads (co s) !! c_curthread k = Some h;
  ck_cpu : th_cpu h = c;
  ck_irq : c_idle k = true → irqs (lo s) !! c = Some false;
  ck_victims : A (Victims c) ≠ [] → th_in h = true;
  ck_woken : c_idle k = true → th_in h = true → if decide (b = Some c) then A (Runq c) ≠ [] else c_woken k = true;
  ck_called : c_idle k = true → A (Runq c) ≠ [] → b ≠ Some c → Z.testbit (c_ipi_pending k) IPI_UNIDLE = true ∨ c_woken k = true;
  ck_busy : b = Some c → c_idle k = true ∧ A (Victims c) = [];
  ck_bits : Z.testbit (c_ipi_pending k) IPI_PANIC = false ∧ Z.testbit (c_ipi_pending k) IPI_OFFLINE = false;
  ck_shoot : c_numshootdown k = 0 ∨ (c_numshootdown k = TLBSHOOTDOWN_ALL ∧ Z.testbit (c_ipi_pending k) IPI_TLBSHOOTDOWN = true);
}.
Definition lock_state (b : option nat) (k : nat) : spinlock :=
  match b with Some c => if decide (k = runq_lock c) then Spinlock true (Some (Z.of_nat c)) else spinlock_init | None => spinlock_init end.
Record inv (b : option nat) s A (pl : nat → place) : Prop := {
  i_lists : holds (tlists (co s)) A;
  i_listed x t : t ∈ A x → is_Some (threads (co s) !! t) ∧ pl t = On x;
  i_thr t h : threads (co s) !! t = Some h → thr_ok b s A pl t h;
  i_cpu c : (c < ncpus (co s))%nat → ∃ h, cpu_ok b s A c (cpus (co s) c) h;
  i_locks (j : nat) lk : locks (lo s) !! j = Some lk → lk = lock_state b j;
  i_have c : (c < ncpus (co s))%nat → is_Some (locks (lo s) !! runq_lock c) ∧ is_Some (locks (lo s) !! ipi_lock c);
  i_size : Z.of_nat (size (threads (co s))) + 1 < 2 ^ 32;
}.

(** * Thread lists *)
Definition with_lists (l : L) s : sys := Sys (Core (ncpus (co s)) (threads (co s)) (cpus (co s)) l) (lo s).
Lemma holds_insert l' A B x v : (∀ y, B (lid y) = A y) → tl_holds l' (<[lid x := v]> B) → holds l' (<[x := v]> A).
Proof.
  intros HB H'. eexists. split; [exact H'|]. intros y. destruct (decide (x = y)) as [->|Hne]; [by rewrite !fn_lookup_insert|].
  rewrite !fn_lookup_insert_ne; [done|done|]. intros E. by apply Hne, lid_inj.
Qed.
Lemma holds_disjoint l A x y t : holds l A → t ∈ A x → t ∈ A y → x = y.
Proof. intros (B & H & HB) Hx Hy. rewrite <-HB in Hx, Hy. apply lid_inj. by eapply tl_disjoint. Qed.
Lemma holds_nodup l A x : holds l A → NoDup (A x).
Proof. intros (B & H & HB). rewrite <-HB. by eapply tl_nodup. Qed.
Lemma holds_num l A x : holds l A → tl_num (lid x) l = Z.of_nat (length (A x)).
Proof. intros (B & H & HB). rewrite <-HB. by apply tl_num_law. Qed.
Lemma holds_empty l A x : holds l A → (tl_num (lid x) l =? 0) = bool_decide (A x = []).
Proof. intros H. rewrite (holds_num _ _ _ H). destruct (A x) as [|t q]; [done|]. rewrite (bool_decide_eq_false_2 (t :: q = [])) by done. apply Z.eqb_neq. simpl. lia. Qed.

Lemma wp_add_tail x t s A (Q : unit → sys → Prop) : holds (tlists (co s)) A → (∀ y, t ∉ A y) → Z.of_nat (length (A x)) + 1 < 2 ^ 32 →
  (∀ l, holds l (<[x := A x ++ [t]]> A) → Q tt (with_lists l s)) → wp (add_tail x t) Q s.
Proof.
  intros (B & H & HB) Ht Hl HQ. apply wp_zoom. eapply wp_mono; [apply (tl_addtail_law _ B)|].
  - done.
  - intros n. destruct (lid_surj n) as [y <-]. by rewrite HB.
  - by rewrite HB.
  - intros [] l Hl'. apply HQ. rewrite HB in Hl'. by eapply holds_insert.
Qed.
Lemma wp_add_head x t s A (Q : unit → sys → Prop) : holds (tlists (co s)) A → (∀ y, t ∉ A y) → Z.of_nat (length (A x)) + 1 < 2 ^ 32 →
  (∀ l, holds l (<[x := t :: A x]> A) → Q tt (with_lists l s)) → wp (add_head x t) Q s.
Proof.
  intros (B & H & HB) Ht Hl HQ. apply wp_zoom. eapply wp_mono; [apply (tl_addhead_law _ B)|].
  - done.
  - intros n. destruct (lid_surj n) as [y <-]. by rewrite HB.
  - by rewrite HB.
  - intros [] l Hl'. apply HQ. rewrite HB in Hl'. by eapply holds_insert.
Qed.
Lemma wp_rem_head x s A (Q : option nat → sys → Prop) : holds (tlists (co s)) A →
  (∀ l, match A x with [] => holds l A → Q None (with_lists l s) | t :: q => holds l (<[x := q]> A) → Q (Some t) (with_lists l s) end) → wp (rem_head x) Q s.
Proof.
  intros (B & H & HB) HQ. apply wp_zoom. eapply wp_mono; [by apply (tl_remhead_law _ B)|]. rewrite HB. destruct (A x) as [|t q]; intros r l [-> Hl].
  - apply HQ. by exists B.
  - apply HQ. by eapply holds_insert.
Qed.
Lemma wp_rem_tail x s A q t (Q : option nat → sys → Prop) : holds (tlists (co s)) A → A x = q ++ [t] →
  (∀ l, holds l (<[x := q]> A) → Q (Some t) (with_lists l s)) → wp (rem_tail x) Q s.
Proof.
  intros (B & H & HB) Hx HQ. apply wp_zoom. eapply wp_mono; [apply (tl_remtail_law _ B _ q t); [done|by rewrite HB]|].
  intros r l [-> Hl]. apply HQ. by eapply holds_insert.
Qed.
Lemma list_bound b s A pl x : inv b s A pl → Z.of_nat (length (A x)) + 1 < 2 ^ 32.
Proof.
  intros HI. pose proof (holds_nodup _ _ x (i_lists _ _ _ _ HI)) as Hn. pose proof (i_size _ _ _ _ HI).
  assert (length (A x) ≤ size (threads (co s)))%nat; [|lia]. rewrite <-size_dom, <-(size_list_to_set (C := gset nat) (A x) Hn). apply subseteq_size.
  intros t Ht. apply elem_of_list_to_set in Ht. apply elem_of_dom. by apply (i_listed _ _ _ _ HI) in Ht as [? _].
Qed.

(** * Levels and locks *)
Definition with_cpu (c : nat) (f : cpu → cpu) s : sys :=
  Sys (Core (ncpus (co s)) (threads (co s)) (<[c := f (cpus (co s) c)]> (cpus (co s))) (tlists (co s))) (lo s).
(** The current thread of [c] has raised the level [n] times and its [t_curspl] is [l]. *)
Record at_level s (c : nat) (n l : Z) : Prop := {
  al_level : levels (lo s) !! c_curthread (cpus (co s) c) = Some (n, l);
  al_irq : irqs (lo s) !! c = Some (n =? 0);
  al_nonneg : 0 ≤ n;
}.
Definition to_level (c : nat) (n l : Z) s : sys :=
  Sys (co s) (Low (<[c_curthread (cpus (co s) c) := (n, l)]> (levels (lo s))) (<[c := n =? 0]> (irqs (lo s))) (locks (lo s))).
Definition to_lock (j : nat) (lk : spinlock) s : sys := Sys (co s) (Low (levels (lo s)) (irqs (lo s)) (<[j := lk]> (locks (lo s)))).
Definition taken (c : nat) : spinlock := Spinlock true (Some (Z.of_nat c)).

Lemma to_level_at s c n l n' l' : at_level s c n l → 0 ≤ n' → at_level (to_level c n' l' s) c n' l'.
Proof. intros _ Hn. by constructor; simpl; rewrite ?lookup_insert_eq. Qed.
Lemma to_level_twice s c n l n' l' : to_level c n' l' (to_level c n l s) = to_level c n' l' s.
Proof. unfold to_level. simpl. by rewrite !insert_insert_eq. Qed.
Lemma to_level_same s c n l : at_level s c n l → to_level c n l s = s.
Proof. destruct s as [? []]. intros [H1 H2 _]. unfold to_level. simpl in *. by rewrite !insert_id. Qed.
Lemma to_lock_same s j lk : locks (lo s) !! j = Some lk → to_lock j lk s = s.
Proof. destruct s as [? []]. simpl. intros H. unfold to_lock. simpl. by rewrite insert_id. Qed.
Lemma to_lock_twice s j lk lk' : to_lock j lk' (to_lock j lk s) = to_lock j lk' s.
Proof. unfold to_lock. simpl. by rewrite insert_insert_eq. Qed.

Lemma on_spl_eq {B} c (m : M cpustate B) s n l a n' l' : at_level s c n l →
  m (CpuState true (Z.of_nat c) (n =? 0) n l) = Ok (a, CpuState true (Z.of_nat c) (n' =? 0) n' l') → on_spl c m s = Ok (a, to_level c n' l' s).
Proof. intros [H1 H2 _] Hm. unfold on_spl. by rewrite H1, H2, Hm. Qed.
Lemma wp_on_spl {B} c (m : M cpustate B) s n l a n' l' (Q : B → sys → Prop) : at_level s c n l →
  m (CpuState true (Z.of_nat c) (n =? 0) n l) = Ok (a, CpuState true (Z.of_nat c) (n' =? 0) n' l') → Q a (to_level c n' l' s) → wp (on_spl c m) Q s.
Proof. intros H Hm HQ. eapply wp_eq; [by eapply on_spl_eq|done]. Qed.

Lemma splraise_eq c n l : 0 ≤ n → splraise IPL_NONE IPL_HIGH (CpuState true c (n =? 0) n l) = Ok (tt, CpuState true c (n + 1 =? 0) (n + 1) l).
Proof.
  intros Hn. rewrite (proj2 (Z.eqb_neq (n + 1) 0)) by lia. cbv [splraise]. m_simpl. destruct (Z.eqb_spec n 0) as [->|]; done.
Qed.
Lemma spllower_eq c n l : spllower IPL_HIGH IPL_NONE (CpuState true c false n l) = Ok (tt, CpuState true c (n - 1 =? 0) (n - 1) l).
Proof. cbv [spllower]. m_simpl. by destruct (n - 1 =? 0). Qed.

Lemma wp_cpu_acquire c j s n l (Q : unit → sys → Prop) : at_level s c n l → locks (lo s) !! j = Some spinlock_init →
  Q tt (to_lock j (taken c) (to_level c (n + 1) l s)) → wp (acquire c j) Q s.
Proof.
  intros Hl Hk HQ. unfold acquire, lock_at. apply wp_bind_2, wp_bind_2, wp_get. eapply wp_of_opt; [exact Hk|]. apply wp_bind_2. eapply wp_on_spl; [exact Hl| |apply wp_modify; exact HQ].
  unfold spinlock_acquire. rewrite (bind_ok _ _ _ _ _ (splraise_eq _ _ _ (al_nonneg _ _ _ _ Hl))). done.
Qed.
Lemma wp_cpu_release c j s n l (Q : unit → sys → Prop) : at_level s c n l → 1 ≤ n → locks (lo s) !! j = Some (taken c) →
  Q tt (to_lock j spinlock_init (to_level c (n - 1) l s)) → wp (release c j) Q s.
Proof.
  intros Hl Hn Hk HQ. unfold release, lock_at. apply wp_bind_2, wp_bind_2, wp_get. eapply wp_of_opt; [exact Hk|]. apply wp_bind_2. eapply wp_on_spl; [exact Hl| |apply wp_modify; exact HQ].
  unfold spinlock_release. rewrite (bind_ok getS _ _ _ _ eq_refl). cbn [c_exists c_self lk_holder taken]. rewrite bool_decide_eq_true_2 by done. rewrite (bind_ok (kassert true) _ _ _ _ eq_refl).
  rewrite (proj2 (Z.eqb_neq n 0)) by lia. by rewrite (bind_ok _ _ _ _ _ (spllower_eq _ _ _)).
Qed.
(** A section under a lock that leaves the levels and the locks alone. *)
Lemma wp_locked {B} c j (m : M sys B) s n l (Q : B → sys → Prop) : at_level s c n l → locks (lo s) !! j = Some spinlock_init →
  wp m (λ a s', lo s' = lo (to_lock j (taken c) (to_level c (n + 1) l s)) ∧ c_curthread (cpus (co s') c) = c_curthread (cpus (co s) c) ∧ Q a (Sys (co s') (lo s)))
    (to_lock j (taken c) (to_level c (n + 1) l s)) → wp (locked c j m) Q s.
Proof.
  intros Hl Hk Hm. pose proof Hl as [H1 H2 H3]. unfold locked. apply wp_bind_2. eapply wp_cpu_acquire; [done..|]. apply wp_bind_2. eapply wp_mono; [exact Hm|]. clear Hm.
  intros a s' (E & Ec & HQ). apply wp_bind_2. eapply (wp_cpu_release c j s' (n + 1) l).
  - constructor; [rewrite Ec, E; apply lookup_insert_eq|rewrite E; apply lookup_insert_eq|lia].
  - lia.
  - rewrite E. apply lookup_insert_eq.
  - apply wp_ret. replace (n + 1 - 1) with n by lia. assert (to_lock j spinlock_init (to_level c n l s') = Sys (co s') (lo s)) as ->; [|exact HQ].
    destruct s as [co0 [lv ir lk]], s' as [co' lo']. unfold to_lock, to_level in *. simpl in *. subst lo'. simpl. by rewrite Ec, !insert_insert_eq, !insert_id.
Qed.
Lemma wp_cpu_splhigh c s n l (Q : Z → sys → Prop) : at_level s c n l → l = 0 ∨ l = 1 →
  Q l (to_level c (if l =? 0 then n + 1 else n) 1 s) → wp (on_spl c splhigh) Q s.
Proof.
  intros Hl Hb HQ. eapply wp_on_spl; [exact Hl| |exact HQ]. unfold splhigh, splx. rewrite (bind_ok getS _ _ _ _ eq_refl). destruct Hb as [->| ->]; [|done].
  cbn [t_curspl]. change (0 <? IPL_HIGH) with true. cbv iota. by rewrite (bind_ok _ _ _ _ _ (splraise_eq _ _ _ (al_nonneg _ _ _ _ Hl))).
Qed.
Lemma wp_splx c s n spl (Q : Z → sys → Prop) : at_level s c n 1 → 1 ≤ n → spl = 0 ∨ spl = 1 →
  (∀ r, Q r (to_level c (if spl =? 0 then n - 1 else n) spl s)) → wp (on_spl c (splx spl)) Q s.
Proof.
  intros Hl Hn Hb HQ. destruct Hb as [->| ->].
  - eapply (wp_on_spl c _ s n 1 1 (n - 1) 0); [exact Hl| |apply HQ]. rewrite (proj2 (Z.eqb_neq n 0)) by lia. unfold splx. rewrite (bind_ok getS _ _ _ _ eq_refl).
    cbn [t_curspl Z.ltb Z.compare]. rewrite (bind_ok (modify _) _ tt _ _ eq_refl). cbn [set_curspl t_curspl c_exists c_self irq_on t_iplhigh_count].
    by rewrite (bind_ok (spllower 1 0) _ tt _ _ (spllower_eq (Z.of_nat c) n 0)).
  - eapply (wp_on_spl c _ s n 1 1 n 1); [exact Hl|done|apply HQ].
Qed.

(** * Changes other processors make to a processor *)
Definition shoot_ok k : Prop := c_numshootdown k = 0 ∨ (c_numshootdown k = TLBSHOOTDOWN_ALL ∧ Z.testbit (c_ipi_pending k) IPI_TLBSHOOTDOWN = true).
Record nudge k k' : Prop := {
  nu_cur : c_curthread k' = c_curthread k;
  nu_idle : c_idle k' = c_idle k;
  nu_tlb : c_tlb k' = c_tlb k;
  nu_woken : c_woken k' = c_woken k;
  nu_unidle : Z.testbit (c_ipi_pending k) IPI_UNIDLE = true → Z.testbit (c_ipi_pending k') IPI_UNIDLE = true;
  nu_panic : Z.testbit (c_ipi_pending k') IPI_PANIC = Z.testbit (c_ipi_pending k) IPI_PANIC;
  nu_offline : Z.testbit (c_ipi_pending k') IPI_OFFLINE = Z.testbit (c_ipi_pending k) IPI_OFFLINE;
  nu_shoot : shoot_ok k → shoot_ok k';
}.
Lemma nudge_refl k : nudge k k.
Proof. by constructor. Qed.
Lemma nudge_trans k k1 k2 : nudge k k1 → nudge k1 k2 → nudge k k2.
Proof. intros [] []. constructor; try congruence; auto. Qed.
Lemma send_bit_nudge code k : code = IPI_UNIDLE ∨ code = IPI_TLBSHOOTDOWN → nudge k (send_bit code k).
Proof.
  intros Hc. constructor; try done; unfold send_bit, shoot_ok; cbn [set_pending set_shoot c_ipi_pending c_numshootdown]; rewrite ?Z.lor_spec.
  - by intros ->.
  - destruct Hc as [->| ->]; apply orb_false_r.
  - destruct Hc as [->| ->]; apply orb_false_r.
  - intros [?|[? ->]]; [by left|right; by split].
Qed.
Lemma shoot_nudge k : nudge k (send_bit 3 (set_shoot (c_shootdown k) TLBSHOOTDOWN_ALL k)).
Proof.
  constructor; try done; unfold send_bit, shoot_ok; cbn [set_pending set_shoot c_ipi_pending c_numshootdown]; rewrite ?Z.lor_spec.
  - by intros ->.
  - apply orb_false_r.
  - apply orb_false_r.
  - intros _. right. split; [done|]. by rewrite orb_true_r.
Qed.

Definition with_cpus (cp : nat → cpu) s : sys := Sys (Core (ncpus (co s)) (threads (co s)) cp (tlists (co s))) (lo s).
Definition nudged s (cp : nat → cpu) : Prop := ∀ d, nudge (cpus (co s) d) (cp d).
Lemma nudged_one s d f : nudge (cpus (co s) d) (f (cpus (co s) d)) → nudged s (<[d := f (cpus (co s) d)]> (cpus (co s))).
Proof. intros H e. destruct (decide (d = e)) as [->|]; [by rewrite fn_lookup_insert|rewrite fn_lookup_insert_ne by done; apply nudge_refl]. Qed.
Lemma nudged_level s c n l cp : at_level s c n l → nudged s cp → at_level (with_cpus cp s) c n l.
Proof. intros [H1 H2 H3] Hn. constructor; try done. simpl. by rewrite (nu_cur _ _ (Hn c)). Qed.

Lemma wp_ipi_send c d code s n l (Q : unit → sys → Prop) : at_level s c n l → locks (lo s) !! ipi_lock d = Some spinlock_init → 0 ≤ code < 32 →
  Q tt (with_cpu d (send_bit code) s) → wp (ipi_send c d code) Q s.
Proof.
  intros Hl Hk Hc HQ. unfold ipi_send. apply wp_bind_2. apply wp_kassert; [apply andb_true_intro; split; [apply Z.leb_le|apply Z.ltb_lt]; lia|].
  eapply wp_locked; [done..|]. apply wp_modify. split; [done|]. split; [|exact HQ]. simpl.
  destruct (decide (d = c)) as [->|]; [by rewrite fn_lookup_insert|by rewrite fn_lookup_insert_ne].
Qed.
Lemma wp_each_other c body (I : sys → Prop) n i s : (∀ d s', i ≤ d < i + n → d ≠ c → I s' → wp (body d) (λ _, I) s')%nat → I s → wp (each_other c body n i) (λ _, I) s.
Proof.
  revert i s. induction n as [|n IH]; intros i s Hb HI; cbn [each_other]; [by apply wp_ret|]. apply wp_bind_2.
  eapply wp_mono with (P := λ _, I); [destruct (decide (i = c)); [by apply wp_ret|apply Hb; [lia|done|done]]|]. intros _ s' HI'. apply IH; [|done]. intros d s2 Hd. apply Hb. lia.
Qed.
Lemma wp_tlb_broadcast c s n l (Q : unit → sys → Prop) : at_level s c n l → (∀ d, (d < ncpus (co s))%nat → locks (lo s) !! ipi_lock d = Some spinlock_init) →
  (∀ cp, nudged s cp → cp c = cpus (co s) c → Q tt (with_cpus cp s)) → wp (tlb_broadcast c) Q s.
Proof.
  intros Hl Hk HQ. unfold tlb_broadcast. apply wp_bind_2, wp_get. eapply wp_mono; [apply (wp_each_other c _ (λ s', ∃ cp, nudged s cp ∧ cp c = cpus (co s) c ∧ s' = with_cpus cp s))|].
  - intros d s' Hd Hne (cp & Hn & Hc & ->). apply wp_bind_2, wp_modify. eapply wp_ipi_send.
    + assert (at_level (with_cpus cp s) c n l) as H1 by (by apply nudged_level). constructor; try apply H1. simpl. rewrite fn_lookup_insert_ne by done. apply H1.
    + apply Hk. lia.
    + lia.
    + eexists. split; [|split; [|reflexivity]]; simpl.
      * intros e. destruct (decide (d = e)) as [->|]; [|rewrite !fn_lookup_insert_ne by done; apply Hn].
        rewrite fn_lookup_insert. eapply nudge_trans; [apply Hn|]. rewrite fn_lookup_insert. apply shoot_nudge.
      * by rewrite !fn_lookup_insert_ne.
  - exists (cpus (co s)). split; [intros d; apply nudge_refl|]. split; [done|]. by destruct s as [[] ?].
  - intros [] s' (cp & Hn & Hc & ->). by apply HQ.
Qed.
Lemma wp_as_activate c s n l (Q : unit → sys → Prop) : at_level s c n l → (l = 0 ∨ (l = 1 ∧ 1 ≤ n)) →
  (∀ d, (d < ncpus (co s))%nat → locks (lo s) !! ipi_lock d = Some spinlock_init) →
  (∀ cp, (∀ d, nudge (if decide (d = c) then set_tlb [] (cpus (co s) c) else cpus (co s) d) (cp d)) → Q tt (with_cpus cp s)) → wp (as_activate c) Q s.
Proof.
  intros Hl Hb Hk HQ. unfold as_activate. apply wp_bind_2. eapply wp_cpu_splhigh; [exact Hl|intuition|]. set (n' := if l =? 0 then n + 1 else n). pose proof (al_nonneg _ _ _ _ Hl).
  assert (1 ≤ n') by (unfold n'; destruct Hb as [->|[-> ?]]; simpl; lia). apply wp_bind_2, wp_modify, wp_bind_2. set (s1 := Sys _ _).
  assert (at_level s1 c n' 1) as H1. { constructor; simpl; rewrite ?fn_lookup_insert; cbn [set_tlb c_curthread]; rewrite ?lookup_insert_eq; try done. lia. }
  eapply wp_tlb_broadcast; [exact H1|exact Hk|]. intros cp Hn Hc. apply wp_bind_2. eapply wp_splx; [by apply nudged_level|done|intuition|]. intros r. apply wp_ret.
  assert (to_level c (if l =? 0 then n' - 1 else n') l (with_cpus cp s1) = with_cpus cp s) as ->.
  - replace (if l =? 0 then n' - 1 else n') with n by (unfold n'; destruct (l =? 0); lia). unfold to_level, with_cpus, s1. simpl. rewrite (nu_cur _ _ (Hn c)). unfold s1. simpl. rewrite fn_lookup_insert.
    cbn [set_tlb c_curthread]. rewrite !insert_insert_eq. destruct s as [? []], Hl as [L1 L2 _]. simpl in *. by rewrite !insert_id.
  - apply HQ. intros d. specialize (Hn d). unfold s1 in Hn. simpl in Hn. destruct (decide (d = c)) as [->|]; [by rewrite fn_lookup_insert in Hn|by rewrite fn_lookup_insert_ne in Hn].
Qed.

(** * The current thread *)
Lemma inv_cur b s A pl c : inv b s A pl → (c < ncpus (co s))%nat → ∃ h, cpu_ok b s A c (cpus (co s) c) h ∧
  (c_idle (cpus (co s) c) = false → pl (c_curthread (cpus (co s) c)) = Running c ∧ running s (cpus (co s) c) (c_curthread (cpus (co s) c)) h c) ∧
  (c_idle (cpus (co s) c) = true → ∃ x, pl (c_curthread (cpus (co s) c)) = On x ∧ parked b s A (cpus (co s) c) (c_curthread (cpus (co s) c)) h x).
Proof.
  intros HI Hc. destruct (i_cpu _ _ _ _ HI c Hc) as [h Hk]. exists h. split; [done|]. destruct (i_thr _ _ _ _ HI _ _ (ck_cur _ _ _ _ _ _ Hk)) as [_ Ht]. rewrite (ck_cpu _ _ _ _ _ _ Hk) in Ht.
  destruct (pl _) as [x|d]; split; intros Hi.
  - rewrite (pk_idle _ _ _ _ _ _ _ Ht eq_refl) in Hi. done.
  - by exists x.
  - pose proof (rn_cpu _ _ _ _ _ Ht) as E. rewrite (ck_cpu _ _ _ _ _ _ Hk) in E. by subst d.
  - by rewrite (rn_idle _ _ _ _ _ Ht) in Hi.
Qed.
Lemma cur_unique b s A pl c d : inv b s A pl → (c < ncpus (co s))%nat → (d < ncpus (co s))%nat → c_curthread (cpus (co s) c) = c_curthread (cpus (co s) d) → c = d.
Proof. intros HI Hc Hd E. destruct (i_cpu _ _ _ _ HI c Hc) as [h H], (i_cpu _ _ _ _ HI d Hd) as [h' H']. destruct H as [H <- _ _ _ _ _ _ _], H' as [H' <- _ _ _ _ _ _ _]. congruence. Qed.
Lemma cur_level b s A pl c : inv b s A pl → (c < ncpus (co s))%nat → ∃ n l, at_level s c n l ∧ (l = 0 ∨ (l = 1 ∧ 1 ≤ n)) ∧
  (c_idle (cpus (co s) c) = true → l = 1 ∧ n = idle_level b c) ∧ (c_idle (cpus (co s) c) = false → n = l).
Proof.
  intros HI Hc. destruct (inv_cur _ _ _ _ _ HI Hc) as (h & Hk & Hr & Hp). destruct (c_idle (cpus (co s) c)) eqn:Ei.
  - destruct (Hp eq_refl) as (x & _ & P). exists (idle_level b c), 1. assert (1 ≤ idle_level b c) as Hge by (unfold idle_level; case_decide; lia). pose proof (pk_level _ _ _ _ _ _ _ P) as Hl. rewrite decide_True, (ck_cpu _ _ _ _ _ _ Hk) in Hl by done.
    split; [|split; [by right|done]]. constructor; [done| |lia]. rewrite (proj2 (Z.eqb_neq _ _)) by lia. by apply (ck_irq _ _ _ _ _ _ Hk).
  - destruct (Hr eq_refl) as (_ & R). destruct (rn_level _ _ _ _ _ R) as (l & H1 & H2 & H3 & _). exists l, l. split; [constructor; [done|done|lia]|]. split; [lia|done].
Qed.
Lemma free_lock s A pl j : inv None s A pl → is_Some (locks (lo s) !! j) → locks (lo s) !! j = Some spinlock_init.
Proof. intros HI [lk E]. by rewrite (i_locks _ _ _ _ HI _ _ E) in E. Qed.
Lemma ipi_free b s A pl d : inv b s A pl → (d < ncpus (co s))%nat → locks (lo s) !! ipi_lock d = Some spinlock_init.
Proof.
  intros HI Hd. destruct (proj2 (i_have _ _ _ _ HI d Hd)) as [lk E]. rewrite E. f_equal. rewrite (i_locks _ _ _ _ HI _ _ E). destruct b as [c|]; [|done]. simpl. rewrite decide_False; [done|]. unfold ipi_lock, runq_lock. lia.
Qed.
Lemma runq_free s A pl d : inv None s A pl → (d < ncpus (co s))%nat → locks (lo s) !! runq_lock d = Some spinlock_init.
Proof. intros HI Hd. eapply free_lock; [done|]. by apply (i_have _ _ _ _ HI d). Qed.

(** * Moves between lists *)
Lemma sits_more s s' x h : (∀ y, is_Some (threads (co s) !! y) → is_Some (threads (co s') !! y)) → sits s x h → sits s' x h.
Proof. intros Hm. destruct x; try done. intros [? ?]. split; auto. Qed.
Lemma parked_frame b s s' A A' k k' u h x : parked b s A k u h x → u ∈ A' x → sits s' x h → c_curthread k' = c_curthread k → c_idle k' = c_idle k →
  levels (lo s') !! u = levels (lo s) !! u → (th_state h = S_ZOMBIE → A' (Hand u) = A (Hand u) ∨ (c_curthread k = u ∧ th_in h = true ∧ b ≠ Some (th_cpu h))) → parked b s' A' k' u h x.
Proof.
  intros [P1 P2 P3 P4 P5 P6] Hu Hs Hc Hi Hl Hz. constructor; try done.
  - unfold saved in *. by rewrite Hc.
  - rewrite Hc, Hi. done.
  - by rewrite Hl, Hc, P5.
  - intros Hst. rewrite Hc. destruct (Hz Hst) as [->|?]; [by apply P6|by right].
Qed.
Lemma running_frame s s' k k' u h c : running s k u h c → c_curthread k' = c_curthread k → c_idle k' = c_idle k → c_tlb k' = c_tlb k →
  levels (lo s') !! u = levels (lo s) !! u → irqs (lo s') !! c = irqs (lo s) !! c → running s' k' u h c.
Proof. intros [R1 R2 R3 R4 R5 R6] Hc Hi Ht Hl Hq. constructor; try congruence. - by rewrite Hl, Hq. - by rewrite Ht. Qed.

Lemma inv_lists b s A pl l : inv b s A pl → holds l A → inv b (with_lists l s) A pl.
Proof.
  intros HI Hl. constructor; try apply HI; [done| |].
  - intros t h Ht. destruct (i_thr _ _ _ _ HI t h Ht) as [Hc P]. split; [done|]. destruct (pl t).
    + eapply parked_frame; [exact P|apply P|apply P|done|done|done|by left].
    + by eapply running_frame.
  - intros c Hc. destruct (i_cpu _ _ _ _ HI c Hc) as [h []]. exists h. by constructor.
Qed.

Lemma insert_some (m : gmap nat thr) t h y : is_Some (m !! y) → is_Some (<[t := h]> m !! y).
Proof. intros. apply lookup_insert_is_Some'. by right. Qed.

Lemma inv_move s A pl t h y d A' cp l' : inv None s A pl → threads (co s) !! t = Some h → (∃ x, pl t = On x) → th_state h ≠ S_ZOMBIE →
  holds l' A' → (∀ z u, u ∈ A' z ↔ if decide (u = t) then z = y else u ∈ A z) →
  (d < ncpus (co s))%nat → (d ≠ th_cpu h → c_curthread (cpus (co s) (th_cpu h)) ≠ t) → sits s y (set_cpu d h) → nudged s cp →
  (∀ c h', cpu_ok None s A c (cpus (co s) c) h' → A' (Victims c) ≠ [] → th_in h' = true) →
  (∀ c, (c < ncpus (co s))%nat → c_idle (cp c) = true → A' (Runq c) ≠ [] → Z.testbit (c_ipi_pending (cp c)) IPI_UNIDLE = true ∨ c_woken (cp c) = true) →
  (∀ z hz, threads (co s) !! z = Some hz → th_state hz = S_ZOMBIE → A' (Hand z) = A (Hand z) ∨ (c_curthread (cpus (co s) (th_cpu hz)) = z ∧ th_in hz = true)) →
  inv None (Sys (Core (ncpus (co s)) (<[t := set_cpu d h]> (threads (co s))) cp l') (lo s)) A' (<[t := On y]> pl).
Proof.
  intros HI Ht [x Hx] Hz Hl HA Hd Hne Hs Hn Hv Hq Hh. constructor; cbn [co lo tlists threads ncpus cpus].
  - done.
  - intros z u Hu. apply HA in Hu. destruct (decide (u = t)) as [->|Hut].
    + subst z. rewrite lookup_insert_eq, fn_lookup_insert. by eauto.
    + rewrite lookup_insert_ne, fn_lookup_insert_ne by done. by apply (i_listed _ _ _ _ HI).
  - intros u hu. destruct (decide (u = t)) as [->|Hut].
    + rewrite lookup_insert_eq. intros [= <-]. destruct (i_thr _ _ _ _ HI t h Ht) as [Hcl P]. rewrite Hx in P. split; [done|]. rewrite fn_lookup_insert. cbn [set_cpu th_cpu co cpus].
      assert (c_curthread (cpus (co s) d) = t → d = th_cpu h) as Hcd by (intros E; destruct (i_cpu _ _ _ _ HI d Hd) as [h' [K1 K2 _ _ _ _ _ _ _]]; congruence).
      destruct P as [P1 P2 P3 P4 P5 P6]. pose proof (nu_cur _ _ (Hn d)) as Ec. pose proof (nu_idle _ _ (Hn d)) as Ei. constructor.
      * apply HA. by rewrite decide_True.
      * eapply sits_more; [|exact Hs]. intros z. apply insert_some.
      * unfold saved in *. cbn [set_cpu th_context th_in th_state]. destruct (th_context h) as [| |spl r]; [done| |]; rewrite Ec; destruct P3 as (? & ? & P3); (split; [done|]).
        { split; [done|]. intros E. specialize (Hcd E). by subst d. }
        split; [done|]. intros Hin.
        destruct (decide (d = th_cpu h)) as [->|Hdh]; [by apply P3|]. destruct (P3 Hin) as [?|[? _]]; [by left|]. by destruct (Hne Hdh).
      * rewrite Ec, Ei. intros E. specialize (Hcd E). subst d. by apply P4.
      * cbn [lo]. rewrite Ec, P5. destruct (decide (d = th_cpu h)) as [->|Hdh]; [done|]. by rewrite !decide_False by auto.
      * done.
    + rewrite lookup_insert_ne by done. intros Hu. destruct (i_thr _ _ _ _ HI u hu Hu) as [Hcl P]. split; [done|]. rewrite fn_lookup_insert_ne by done. cbn [co cpus]. pose proof (Hn (th_cpu hu)) as [N1 N2 N3 N4 _ _ _ _]. destruct (pl u) as [z|c].
      * eapply parked_frame; [exact P| | |done|done|done|].
        -- apply HA. rewrite decide_False by done. apply P.
        -- eapply sits_more; [|apply P]. intros ?. apply insert_some.
        -- intros Hst. destruct (Hh u hu Hu Hst) as [?|[? ?]]; [by left|by right].
      * by eapply running_frame.
  - intros c Hc. destruct (i_cpu _ _ _ _ HI c Hc) as [hc K]. pose proof (Hn c) as N. pose proof K as [K1 K2 K3 K4 K5 K6 K7 K8 K9].
    exists (if decide (c_curthread (cpus (co s) c) = t) then set_cpu d h else hc).
    assert (c_curthread (cpus (co s) c) = t → hc = h ∧ d = c) as Hct.
    { intros E. rewrite E in K1. assert (hc = h) as -> by congruence. split; [done|]. destruct (decide (d = th_cpu h)) as [->|Hdh]; [done|]. subst c. by destruct (Hne Hdh). }
    assert (th_in (if decide (c_curthread (cpus (co s) c) = t) then set_cpu d h else hc) = th_in hc) as Ein by (destruct (decide (c_curthread (cpus (co s) c) = t)) as [E|E]; [by destruct (Hct E) as [-> ->]|done]).
    constructor; cbn [co lo threads cpus]; rewrite ?Ein, ?(nu_cur _ _ N), ?(nu_idle _ _ N), ?(nu_woken _ _ N), ?(nu_panic _ _ N), ?(nu_offline _ _ N); try done.
    + destruct (decide (c_curthread (cpus (co s) c) = t)) as [E|E]; [by rewrite E, lookup_insert_eq|by rewrite lookup_insert_ne].
    + destruct (decide (c_curthread (cpus (co s) c) = t)) as [E|E]; [by destruct (Hct E) as [-> ->]|done].
    + by apply Hv.
    + rewrite <-(nu_idle _ _ N), <-(nu_woken _ _ N). intros. by apply Hq.
    + by apply (nu_shoot _ _ N).
  - apply HI.
  - apply HI.
  - rewrite map_size_insert_Some by done. apply HI.
Qed.

(** * Changes in place *)
Lemma inv_cpus b s A pl cp : inv b s A pl →
  (∀ d, (d < ncpus (co s))%nat → c_curthread (cp d) = c_curthread (cpus (co s) d) ∧ c_idle (cp d) = c_idle (cpus (co s) d) ∧ (c_woken (cpus (co s) d) = true → c_woken (cp d) = true)) →
  (∀ d, (d < ncpus (co s))%nat → (Z.testbit (c_ipi_pending (cp d)) IPI_PANIC = false ∧ Z.testbit (c_ipi_pending (cp d)) IPI_OFFLINE = false) ∧ shoot_ok (cp d)) →
  (∀ d h, (d < ncpus (co s))%nat → threads (co s) !! c_curthread (cpus (co s) d) = Some h → running s (cpus (co s) d) (c_curthread (cpus (co s) d)) h d → th_as h ≠ 0 → Forall (λ a, a = th_as h) (c_tlb (cp d))) →
  (∀ d, (d < ncpus (co s))%nat → c_idle (cp d) = true → A (Runq d) ≠ [] → b ≠ Some d → Z.testbit (c_ipi_pending (cp d)) IPI_UNIDLE = true ∨ c_woken (cp d) = true) →
  inv b (with_cpus cp s) A pl.
Proof.
  intros HI Hs Hb Ht Hq. constructor; try apply HI.
  - intros t h Hth. destruct (i_thr _ _ _ _ HI t h Hth) as [Hc P]. split; [done|]. cbn [with_cpus co cpus]. destruct (Hs _ Hc) as (E1 & E2 & _). destruct (pl t) as [x|c].
    + eapply parked_frame; [exact P|apply P|apply P|done|done|done|by left].
    + pose proof P as [-> R2 R3 R4 R5 R6]. constructor; try done; try congruence. intros Ha. apply Ht; [done|by rewrite R2|by rewrite R2|done].
  - intros c Hc. destruct (i_cpu _ _ _ _ HI c Hc) as [h [K1 K2 K3 K4 K5 K6 K7 K8 K9]]. exists h. destruct (Hs c Hc) as (E1 & E2 & E3). constructor; cbn [with_cpus co cpus threads lo]; rewrite ?E1, ?E2; try done.
    + intros Hi Hin. specialize (K5 Hi Hin). case_decide; [done|auto].
    + rewrite <-E2. by apply Hq.
    + by apply Hb.
    + by apply Hb.
Qed.
Lemma inv_nudge b s A pl cp : inv b s A pl → nudged s cp → inv b (with_cpus cp s) A pl.
Proof.
  intros HI Hn. apply inv_cpus; [done|..].
  - intros d _. destruct (Hn d). split; [done|]. split; [done|congruence].
  - intros d Hd. destruct (Hn d). destruct (i_cpu _ _ _ _ HI d Hd) as [h [K1 K2 K3 K4 K5 K6 K7 [K8 K8'] K9]]. split; [split; congruence|auto].
  - intros d h Hd _ R Ha. rewrite (nu_tlb _ _ (Hn d)). by apply R.
  - intros d Hd. destruct (Hn d), (i_cpu _ _ _ _ HI d Hd) as [h [K1 K2 K3 K4 K5 K6 K7 K8 K9]]. intros Hi Hr Hb. rewrite nu_woken0. destruct K6; [congruence|done|done|auto|auto].
Qed.
(** The level of a running thread. *)
Lemma inv_level s A pl c h l : inv None s A pl → (c < ncpus (co s))%nat → cpu_ok None s A c (cpus (co s) c) h → c_idle (cpus (co s) c) = false →
  l = 0 ∨ l = 1 → (th_in h = true → l = 1) → inv None (to_level c l l s) A pl.
Proof.
  intros HI Hc K Hi Hl Hin. set (t := c_curthread (cpus (co s) c)). pose proof (ck_cur _ _ _ _ _ _ K) as Ht. fold t in Ht. constructor; try apply HI.
  - intros u hu Hu. change (threads (co s) !! u = Some hu) in Hu. destruct (i_thr _ _ _ _ HI u hu Hu) as [Hcl P]. split; [done|]. cbn [to_level co cpus]. destruct (pl u) as [x|d].
    + eapply parked_frame; [exact P|apply P|apply P|done|done| |by left]. cbn [to_level lo levels]. apply lookup_insert_ne. intros E. fold t in E. subst u.
      assert (hu = h) as -> by congruence. pose proof (pk_idle _ _ _ _ _ _ _ P) as Hid. rewrite (ck_cpu _ _ _ _ _ _ K), Hi in Hid. by specialize (Hid eq_refl).
    + destruct (decide (u = t)) as [->|Hne].
      * assert (hu = h) as -> by congruence. destruct P as [-> R2 R3 R4 R5 R6]. constructor; try done. exists l. cbn [to_level lo levels irqs]. rewrite (ck_cpu _ _ _ _ _ _ K). fold t. by rewrite !lookup_insert_eq.
      * eapply running_frame; [exact P|done|done|done| |]; cbn [to_level lo levels irqs]; [by rewrite lookup_insert_ne|]. apply lookup_insert_ne. intros <-. pose proof P as [R1 R2 _ _ _ _]. by rewrite <-R1 in R2.
  - intros d Hd. destruct (i_cpu _ _ _ _ HI d Hd) as [hd [K1 K2 K3 K4 K5 K6 K7 K8 K9]]. exists hd. constructor; try done. cbn [to_level lo irqs co cpus]. intros Hid. rewrite lookup_insert_ne; [auto|]. intros <-. congruence.
Qed.
(** [t_in_interrupt] of a current thread. *)
Lemma inv_set_in s A pl c h v : inv None s A pl → (c < ncpus (co s))%nat → cpu_ok None s A c (cpus (co s) c) h →
  (v = false → A (Victims c) = [] ∧ (c_idle (cpus (co s) c) = true → A (Hand (c_curthread (cpus (co s) c))) = [])) →
  (v = true → c_idle (cpus (co s) c) = true → c_woken (cpus (co s) c) = true) →
  (v = true → c_idle (cpus (co s) c) = false → levels (lo s) !! c_curthread (cpus (co s) c) = Some (1, 1)) →
  inv None (Sys (Core (ncpus (co s)) (<[c_curthread (cpus (co s) c) := set_in_irq v h]> (threads (co s))) (cpus (co s)) (tlists (co s))) (lo s)) A pl.
Proof.
  intros HI Hc K Hf Hw Hr. set (t := c_curthread (cpus (co s) c)) in *. pose proof (ck_cur _ _ _ _ _ _ K) as Ht. fold t in Ht. constructor; cbn [co lo threads cpus ncpus tlists]; try apply HI.
  - intros x u Hu. destruct (i_listed _ _ _ _ HI x u Hu) as [? ?]. split; [by apply insert_some|done].
  - intros u hu. destruct (decide (u = t)) as [->|Hne].
    + rewrite lookup_insert_eq. intros [= <-]. destruct (i_thr _ _ _ _ HI t h Ht) as [Hcl P]. split; [done|]. cbn [set_in_irq th_cpu co cpus] in *. rewrite (ck_cpu _ _ _ _ _ _ K) in *. destruct (pl t) as [x|d].
      * destruct P as [P1 P2 P3 P4 P5 P6]. constructor; try done.
        -- eapply sits_more; [|]; [intros y; apply insert_some|]. exact P2.
        -- unfold saved in *. cbn [set_in_irq th_context th_in th_state] in *. destruct (th_context h) as [| |spl r]; [done|by destruct P3 as (_ & _ & [])|]. destruct P3 as (? & ? & _). split; [done|]. split; [done|]. by right.
        -- cbn [set_in_irq th_state th_in]. intros Hz. destruct v; [by right|]. left. apply Hf; [done|]. by apply P4.
      * destruct P as [R1 R2 R3 R4 (l & L1 & L2 & L3 & L4) R6]. constructor; try done. cbn [set_in_irq th_in]. exists l. split; [done|]. split; [done|]. split; [done|]. intros ->. rewrite (Hr eq_refl R3) in L1. congruence.
    + rewrite lookup_insert_ne by done. intros Hu. destruct (i_thr _ _ _ _ HI u hu Hu) as [Hcl P]. split; [done|]. destruct (pl u) as [x|d].
      * eapply parked_frame; [exact P|apply P| |done|done|done|by left]. eapply sits_more; [|apply P]. intros y. apply insert_some.
      * by eapply running_frame.
  - intros d Hd. destruct (i_cpu _ _ _ _ HI d Hd) as [hd Kd]. destruct (decide (d = c)) as [->|Hdc].
    + destruct K as [K1 K2 K3 K4 K5 K6 K7 K8 K9]. exists (set_in_irq v h). constructor; cbn [co threads cpus lo set_in_irq th_in th_cpu]; try done.
      * apply lookup_insert_eq.
      * destruct v; [done|]. intros Hv. by destruct (Hf eq_refl).
      * intros ? ->. rewrite decide_False by done. by apply Hw.
    + destruct Kd as [K1 K2 K3 K4 K5 K6 K7 K8 K9]. exists hd. constructor; try done. cbn [co threads cpus]. rewrite lookup_insert_ne; [done|]. intros E. apply Hdc. by eapply cur_unique.
  - rewrite map_size_insert_Some by done. apply HI.
Qed.

(** * Switching *)
Lemma parked_switch b b' s s' A A' k k' u h x c : parked b s A k u h x → u ∈ A' x → sits s' x h → levels (lo s') !! u = levels (lo s) !! u → A' (Hand u) = A (Hand u) →
  (∀ d, d ≠ c → b = Some d ↔ b' = Some d) → (th_cpu h ≠ c → c_curthread k' = c_curthread k ∧ c_idle k' = c_idle k) →
  (th_cpu h = c → c_curthread k' ≠ u ∧ (c_curthread k = u → b = Some c)) → parked b' s' A' k' u h x.
Proof.
  intros [P1 P2 P3 P4 P5 P6] Hu Hs Hl Hh Hb Hne Heq. destruct (decide (th_cpu h = c)) as [E|E].
  - destruct (Heq E) as [N1 N2]. constructor; [done|done| |done| |].
    + unfold saved in *. destruct (th_context h) as [| |spl r]; [done|naive_solver|]. destruct P3 as (? & ? & P3). split; [done|]. split; [done|]. intros Hin. left. destruct (P3 Hin) as [?|[? Hbb]]; [done|]. destruct Hbb. rewrite E. auto.
    + rewrite Hl, P5, (decide_False (P := c_curthread k' = u)) by done. destruct (decide (c_curthread k = u)) as [Eu|]; [|done]. unfold idle_level. by rewrite decide_True by (rewrite E; auto).
    + intros Hz. left. rewrite Hh. destruct (P6 Hz) as [?|(Eu & _ & Hbb)]; [done|]. destruct Hbb. rewrite E. auto.
  - destruct (Hne E) as [N1 N2]. specialize (Hb _ E). constructor; [done|done| | | |].
    + unfold saved in *. rewrite N1. destruct (th_context h); [done|done|]. by rewrite <-Hb.
    + by rewrite N1, N2.
    + rewrite Hl, P5, N1. unfold idle_level. by rewrite (decide_ext _ _ _ _ Hb).
    + rewrite N1, Hh, <-Hb. done.
Qed.
(** The state of the lock and the level of processor [c] in the middle of a switch. *)
Definition mid (c : nat) (n : Z) (lk : spinlock) (l : low) (t : nat) : low :=
  Low (<[t := (n, 1)]> (levels l)) (<[c := false]> (irqs l)) (<[runq_lock c := lk]> (locks l)).
Definition near (b : option nat) (c : nat) : Prop := b = None ∨ b = Some c.
Lemma near_agree b b' c d : near b c → near b' c → d ≠ c → b = Some d ↔ b' = Some d.
Proof. intros [->| ->] [->| ->] Hd; naive_solver. Qed.
Lemma near_lock b c j : near b c → j ≠ runq_lock c → lock_state b j = spinlock_init.
Proof. intros [->| ->] Hj; simpl; [done|by rewrite decide_False]. Qed.
Lemma mid_locks b b' s A pl c n t j lk : inv b s A pl → near b c → near b' c →
  locks (mid c n (lock_state b' (runq_lock c)) (lo s) t) !! j = Some lk → lk = lock_state b' j.
Proof.
  intros HI Hb Hb'. simpl. destruct (decide (runq_lock c = j)) as [<-|Hj]; [by rewrite lookup_insert_eq; intros [= <-]|].
  rewrite lookup_insert_ne by done. intros E. by rewrite (i_locks _ _ _ _ HI _ _ E), !(near_lock _ c).
Qed.
Lemma mid_have b s A pl c n t lk d : inv b s A pl → (d < ncpus (co s))%nat →
  is_Some (locks (mid c n lk (lo s) t) !! runq_lock d) ∧ is_Some (locks (mid c n lk (lo s) t) !! ipi_lock d).
Proof. intros HI Hd. destruct (i_have _ _ _ _ HI d Hd). split; simpl; apply lookup_insert_is_Some'; by right. Qed.

(** The running thread [t] of [c] is put on a list. *)
Lemma inv_park s A pl c h x st spl l' : inv None s A pl → (c < ncpus (co s))%nat → cpu_ok None s A c (cpus (co s) c) h → c_idle (cpus (co s) c) = false →
  let t := c_curthread (cpus (co s) c) in let h' := set_context (InSwitch spl (bool_decide (st ≠ S_ZOMBIE))) (set_state st h) in
  (∀ y, x ≠ Hand y) → (∀ d, x = Runq d → d = c) → (∀ d, x ≠ Victims d) → sits s x h' → spl = 0 ∨ spl = 1 → (th_in h = true → spl = 1 ∧ x = Runq c) →
  A (Victims c) = [] → (st = S_ZOMBIE → A (Hand t) = []) → holds l' (<[x := A x ++ [t]]> A) →
  inv (Some c) (Sys (Core (ncpus (co s)) (<[t := h']> (threads (co s))) (<[c := set_idle true false (cpus (co s) c)]> (cpus (co s))) l') (mid c 2 (taken c) (lo s) t))
    (<[x := A x ++ [t]]> A) (<[t := On x]> pl).
Proof.
  intros HI Hc K Hi t h' Hxh Hxr Hxv Hs Hspl Hin Hv Hz Hl. pose proof (ck_cur _ _ _ _ _ _ K) as Ht. fold t in Ht. set (A' := <[x := A x ++ [t]]> A) in *.
  assert (∀ y u, u ∈ A' y ↔ (u = t ∧ y = x) ∨ u ∈ A y) as HA.
  { intros y u. unfold A'. destruct (decide (x = y)) as [->|]; [rewrite fn_lookup_insert, elem_of_app, list_elem_of_singleton|rewrite fn_lookup_insert_ne by done]; naive_solver. }
  assert (∀ y, A' (Hand y) = A (Hand y)) as Hhand by (intros y; unfold A'; by rewrite fn_lookup_insert_ne).
  destruct (inv_cur _ _ _ _ _ HI Hc) as (h0 & K0 & Hr & _). fold t in Hr. destruct (Hr Hi) as [Hpl _].
  assert (∀ y, t ∉ A y) as Hfree by (intros y Hy; apply (i_listed _ _ _ _ HI) in Hy as [_ Hy]; congruence).
  constructor; cbn [co lo threads cpus ncpus tlists].
  - done.
  - intros y u Hu. apply HA in Hu as [[-> ->]|Hu]; [rewrite lookup_insert_eq, fn_lookup_insert; by eauto|]. rewrite fn_lookup_insert_ne by (intros <-; by apply (Hfree y)).
    destruct (i_listed _ _ _ _ HI y u Hu). split; [by apply insert_some|done].
  - intros u hu. destruct (decide (u = t)) as [->|Hne].
    + rewrite lookup_insert_eq. intros [= <-]. split; [simpl; by rewrite (ck_cpu _ _ _ _ _ _ K)|]. rewrite fn_lookup_insert. assert (th_cpu h' = c) as -> by apply K. cbn [co cpus]. rewrite fn_lookup_insert. constructor; cbn [set_idle c_curthread c_idle lo mid levels].
      * apply HA. by left.
      * eapply sits_more; [|exact Hs]. intros y. apply insert_some.
      * unfold saved. simpl. split; [done|]. split; [done|]. intros E. left. by apply Hin.
      * done.
      * rewrite lookup_insert_eq. rewrite decide_True by done. unfold idle_level. assert (th_cpu h' = c) as -> by apply K. by rewrite decide_True.
      * simpl. intros E. left. rewrite Hhand. auto.
    + rewrite lookup_insert_ne by done. intros Hu. destruct (i_thr _ _ _ _ HI u hu Hu) as [Hcl P]. split; [done|]. rewrite fn_lookup_insert_ne by done. cbn [co cpus]. destruct (pl u) as [y|d].
      * eapply (parked_switch None (Some c) s _ A A'); [exact P| | | |by apply Hhand| | |].
        -- apply HA. right. apply P.
        -- eapply sits_more; [|apply P]. intros ?. apply insert_some.
        -- simpl. by apply lookup_insert_ne.
        -- intros d Hd. apply (near_agree _ _ c); [by left|by right|done].
        -- intros Hd. by rewrite fn_lookup_insert_ne.
        -- intros E. rewrite E, fn_lookup_insert. simpl. fold t. split; [done|]. intros E'. by destruct Hne.
      * assert (th_cpu hu ≠ c) as Hd. { intros E. pose proof (rn_cur _ _ _ _ _ P) as E'. rewrite E in E'. by destruct Hne. }
        rewrite fn_lookup_insert_ne by done. pose proof (rn_cpu _ _ _ _ _ P). eapply running_frame; [exact P|done|done|done| |]; simpl; rewrite lookup_insert_ne; congruence.
  - intros d Hd. destruct (i_cpu _ _ _ _ HI d Hd) as [hd Kd]. destruct (decide (d = c)) as [->|Hdc].
    + exists h'. rewrite fn_lookup_insert. destruct K as [K1 K2 K3 K4 K5 K6 K7 K8 K9]. constructor; cbn [set_idle c_curthread c_idle c_woken c_ipi_pending c_numshootdown co lo threads]; try done.
      * apply lookup_insert_eq.
      * intros _. simpl. apply lookup_insert_eq.
      * intros Hvv. destruct Hvv. unfold A'. by rewrite fn_lookup_insert_ne by done.
      * intros _ E. rewrite decide_True by done. destruct (Hin E) as [_ ->]. unfold A'. rewrite fn_lookup_insert. by destruct (A (Runq c)).
      * intros _. split; [done|]. unfold A'. by rewrite fn_lookup_insert_ne by done.
    + exists hd. rewrite fn_lookup_insert_ne by done. destruct Kd as [K1 K2 K3 K4 K5 K6 K7 K8 K9].
      assert (A' (Victims d) = A (Victims d)) as Ev by (unfold A'; by rewrite fn_lookup_insert_ne). assert (A' (Runq d) = A (Runq d)) as Er by (unfold A'; rewrite fn_lookup_insert_ne; [done|]; intros E; by destruct Hdc; apply Hxr).
      constructor; cbn [co lo threads mid irqs]; rewrite ?Ev, ?Er; try done.
      * rewrite lookup_insert_ne; [done|]. intros E. apply Hdc. symmetry. by eapply cur_unique.
      * by rewrite lookup_insert_ne.
      * rewrite decide_False in K5 by done. by rewrite decide_False by congruence.
      * intros ? ? _. by apply K6.
      * congruence.
  - intros j lk Hj. eapply (mid_locks None (Some c) _ _ _ _ 2 t); [done|by left|by right|]. simpl. rewrite decide_True by done. exact Hj.
  - intros d Hd. by eapply mid_have.
  - rewrite map_size_insert_Some by done. apply HI.
Qed.

(** The first thread of the run queue takes over. *)
Lemma inv_arrive s A pl c t q h T cp l' : inv (Some c) s A pl → (c < ncpus (co s))%nat → A (Runq c) = t :: q → threads (co s) !! t = Some h →
  (th_as h ≠ 0 → T = []) → nudge (set_cur t (set_idle false false (set_tlb T (cpus (co s) c)))) (cp c) → (∀ d, d ≠ c → nudge (cpus (co s) d) (cp d)) →
  holds l' (<[Runq c := q]> A) →
  inv None (Sys (Core (ncpus (co s)) (<[t := set_state S_RUN h]> (threads (co s))) cp l') (mid c 1 spinlock_init (lo s) t)) (<[Runq c := q]> A) (<[t := Running c]> pl).
Proof.
  intros HI Hc Hq Ht HT Hn Hno Hl. set (A' := <[Runq c := q]> A) in *.
  assert (t ∈ A (Runq c)) as Hin by (rewrite Hq; by left). assert (NoDup (t :: q)) as Hnd by (rewrite <-Hq; eapply holds_nodup, HI). apply NoDup_cons in Hnd as [Htq _].
  destruct (i_listed _ _ _ _ HI _ _ Hin) as [_ Hpl]. destruct (i_thr _ _ _ _ HI t h Ht) as [_ P]. rewrite Hpl in P. pose proof (pk_sits _ _ _ _ _ _ _ P) as [Hcpu Hst]. rewrite Hcpu in P.
  assert (∀ y u, u ∈ A' y ↔ u ∈ A y ∧ u ≠ t) as HA.
  { intros y u. unfold A'. destruct (decide (Runq c = y)) as [<-|Hy].
    - rewrite fn_lookup_insert, Hq, elem_of_cons. split; [intros Hu; split; [by right|by intros ->]|naive_solver].
    - rewrite fn_lookup_insert_ne by done. split; [|naive_solver]. intros Hu. split; [done|]. intros ->. apply Hy. eapply holds_disjoint; [apply HI|done|done]. }
  assert (∀ y, A' (Hand y) = A (Hand y)) as Hhand by (intros y; unfold A'; by rewrite fn_lookup_insert_ne).
  constructor; cbn [co lo threads cpus ncpus tlists].
  - done.
  - intros y u [Hu Hne]%HA. rewrite fn_lookup_insert_ne by done. destruct (i_listed _ _ _ _ HI y u Hu). split; [by apply insert_some|done].
  - intros u hu. destruct (decide (u = t)) as [->|Hne].
    + rewrite lookup_insert_eq. intros [= <-]. split; [simpl; by rewrite Hcpu|]. rewrite fn_lookup_insert. assert (th_cpu (set_state S_RUN h) = c) as -> by done. cbn [co cpus]. destruct Hn. constructor; try done.
      * by left.
      * exists 1. simpl. rewrite !lookup_insert_eq. split; [done|]. split; [done|]. split; [by right|done].
      * simpl. intros Ha. rewrite nu_tlb0. simpl. by rewrite HT.
    + rewrite lookup_insert_ne by done. intros Hu. destruct (i_thr _ _ _ _ HI u hu Hu) as [Hcl Pu]. split; [done|]. rewrite fn_lookup_insert_ne by done. cbn [co cpus]. destruct (pl u) as [y|d].
      * eapply (parked_switch (Some c) None s _ A A'); [exact Pu| | | |by apply Hhand| | |].
        -- apply HA. split; [apply Pu|done].
        -- eapply sits_more; [|apply Pu]. intros ?. apply insert_some.
        -- simpl. by apply lookup_insert_ne.
        -- intros d Hd. apply (near_agree _ _ c); [by right|by left|done].
        -- intros Hd. destruct (Hno _ Hd). done.
        -- intros E. rewrite E. destruct Hn. rewrite nu_cur0. simpl. by split.
      * assert (th_cpu hu ≠ c) as Hd. { intros E. pose proof (rn_idle _ _ _ _ _ Pu) as E'. rewrite E in E'. destruct (i_cpu _ _ _ _ HI c Hc) as [? K]. destruct (ck_busy _ _ _ _ _ _ K eq_refl). congruence. }
        destruct (Hno _ Hd). pose proof (rn_cpu _ _ _ _ _ Pu). eapply running_frame; [exact Pu|done|done|done| |]; simpl; rewrite lookup_insert_ne; congruence.
  - intros d Hd. destruct (i_cpu _ _ _ _ HI d Hd) as [hd Kd]. destruct (decide (d = c)) as [->|Hdc].
    + exists (set_state S_RUN h). destruct Hn, Kd as [K1 K2 K3 K4 K5 K6 K7 [K8 K8'] K9]. cbn [set_cur set_idle set_tlb c_curthread c_idle c_ipi_pending c_numshootdown c_woken c_tlb] in *. constructor; cbn [co lo threads]; try congruence; try done.
      * rewrite nu_cur0. apply lookup_insert_eq.
      * unfold A'. rewrite fn_lookup_insert_ne by done. destruct (K7 eq_refl) as [_ ->]. done.
      * split; congruence.
      * by apply nu_shoot0.
    + exists hd. destruct (Hno _ Hdc), Kd as [K1 K2 K3 K4 K5 K6 K7 [K8 K8'] K9].
      assert (A' (Victims d) = A (Victims d)) as Ev by (unfold A'; by rewrite fn_lookup_insert_ne). assert (A' (Runq d) = A (Runq d)) as Er by (unfold A'; rewrite fn_lookup_insert_ne; [done|]; congruence).
      assert (c_curthread (cpus (co s) d) ≠ t) as Hcd. { intros E. rewrite E, Ht in K1. injection K1 as <-. congruence. }
      constructor; cbn [co lo threads mid irqs]; rewrite ?Ev, ?Er, ?nu_cur0, ?nu_idle0, ?nu_woken0; try done.
      * by rewrite lookup_insert_ne.
      * by rewrite lookup_insert_ne.
      * rewrite decide_False in K5 by congruence. by rewrite decide_False.
      * intros ? ? _. destruct K6; [done|done|congruence|auto|auto].
      * split; congruence.
      * by apply nu_shoot0.
  - intros j lk Hj. eapply (mid_locks (Some c) None _ _ _ _ 1 t); [done|by right|by left|exact Hj].
  - intros d Hd. by eapply mid_have.
  - rewrite map_size_insert_Some by done. apply HI.
Qed.
(** A processor goes idle, and comes back. *)
Lemma inv_idle b b' s A pl c h : inv b s A pl → (c < ncpus (co s))%nat → cpu_ok b s A c (cpus (co s) c) h → c_idle (cpus (co s) c) = true → th_in h = false → near b c → near b' c →
  (b' = Some c → A (Victims c) = []) → (b' = None → A (Runq c) = []) →
  let t := c_curthread (cpus (co s) c) in inv b' (Sys (co s) (mid c (idle_level b' c) (lock_state b' (runq_lock c)) (lo s) t)) A pl.
Proof.
  intros HI Hc K Hi Hin Hb Hb' Hv Hr t. pose proof (ck_cur _ _ _ _ _ _ K) as Ht. fold t in Ht. destruct (inv_cur _ _ _ _ _ HI Hc) as (h0 & K0 & _ & Hp). fold t in Hp. destruct (Hp Hi) as (x & Hpl & P0).
  assert (h0 = h) as -> by (pose proof (ck_cur _ _ _ _ _ _ K0) as E; fold t in E; congruence). constructor; cbn [co lo]; try apply HI.
  - intros u hu Hu. destruct (i_thr _ _ _ _ HI u hu Hu) as [Hcl P]. split; [done|]. cbn [co]. destruct (decide (u = t)) as [->|Hne].
    + assert (hu = h) as -> by congruence. rewrite Hpl in *. rewrite (ck_cpu _ _ _ _ _ _ K) in *. destruct P as [P1 P2 P3 P4 P5 P6]. constructor; try done.
      * unfold saved in *. destruct (th_context h); [done|done|]. destruct P3 as (? & ? & _). split; [done|]. split; [done|]. congruence.
      * simpl. rewrite lookup_insert_eq, decide_True by done. by rewrite (ck_cpu _ _ _ _ _ _ K).
      * intros Hz. destruct (P6 Hz) as [?|(_ & ? & _)]; [by left|congruence].
    + destruct (pl u) as [y|d].
      * eapply (parked_switch b b' s _ A A _ _ u hu y c); [exact P|apply P|apply P| |done| |done|].
        -- simpl. by apply lookup_insert_ne.
        -- intros d Hd. exact (near_agree _ _ c d Hb Hb' Hd).
        -- intros E. rewrite E. fold t. split; [done|]. intros E'. by destruct Hne.
      * pose proof (rn_cpu _ _ _ _ _ P). pose proof (rn_idle _ _ _ _ _ P). eapply running_frame; [exact P|done|done|done| |]; simpl; rewrite lookup_insert_ne; congruence.
  - intros d Hd. destruct (i_cpu _ _ _ _ HI d Hd) as [hd Kd]. destruct (decide (d = c)) as [->|Hdc].
    + exists h. destruct K as [K1 K2 K3 K4 K5 K6 K7 K8 K9]. constructor; cbn [co lo]; try done.
      * intros _. simpl. apply lookup_insert_eq.
      * intros _ E. congruence.
      * intros _ Hq Hne. destruct Hb' as [->| ->]; [|done]. by destruct Hq; apply Hr.
      * intros E. split; [done|]. by apply Hv.
    + exists hd. pose proof (near_agree _ _ c d Hb Hb' Hdc) as Ha. destruct Kd as [K1 K2 K3 K4 K5 K6 K7 K8 K9]. constructor; cbn [co lo]; try done.
      * simpl. by rewrite lookup_insert_ne.
      * intros Hid E. specialize (K5 Hid E). destruct (decide (b = Some d)) as [Eb|Eb]; [rewrite decide_True by (by apply Ha); done|rewrite decide_False by (by rewrite <-Ha); done].
      * intros ? ? Hne. apply K6; [done|done|by rewrite Ha].
      * intros E. apply K7. by apply Ha.
  - intros j lk Hj. by eapply (mid_locks b b' _ _ _ _ (idle_level b' c) t).
  - intros d Hd. by eapply mid_have.
Qed.
(** A zombie is destroyed. *)
Lemma inv_destroy s A pl c z q l' : inv None s A pl → (c < ncpus (co s))%nat → c_idle (cpus (co s) c) = false → A (Zombies c) = z :: q → holds l' (<[Zombies c := q]> A) →
  inv None (Sys (Core (ncpus (co s)) (delete z (threads (co s))) (cpus (co s)) l') (Low (delete z (levels (lo s))) (irqs (lo s)) (locks (lo s)))) (<[Zombies c := q]> A) pl.
Proof.
  intros HI Hc Hi Hq Hl. set (A' := <[Zombies c := q]> A) in *.
  assert (z ∈ A (Zombies c)) as Hin by (rewrite Hq; by left). assert (NoDup (z :: q)) as Hnd by (rewrite <-Hq; eapply holds_nodup, HI). apply NoDup_cons in Hnd as [Hzq _].
  destruct (i_listed _ _ _ _ HI _ _ Hin) as [[h Hz] Hpl]. destruct (i_thr _ _ _ _ HI z h Hz) as [_ P]. rewrite Hpl in P. pose proof (pk_sits _ _ _ _ _ _ _ P) as (Hcpu & Hst & _). rewrite Hcpu in P.
  assert (∀ d, (d < ncpus (co s))%nat → c_curthread (cpus (co s) d) ≠ z) as Hcur.
  { intros d Hd E. destruct (i_cpu _ _ _ _ HI d Hd) as [hd [K1 K2 _ _ _ _ _ _ _]]. rewrite E, Hz in K1. injection K1 as <-. assert (d = c) as -> by congruence. rewrite (pk_idle _ _ _ _ _ _ _ P E) in Hi. done. }
  assert (A (Hand z) = []) as Hhz. { destruct (pk_hand _ _ _ _ _ _ _ P Hst) as [?|[E _]]; [done|]. by destruct (Hcur c Hc). }
  assert (∀ y u, u ∈ A' y ↔ u ∈ A y ∧ u ≠ z) as HA.
  { intros y u. unfold A'. destruct (decide (Zombies c = y)) as [<-|Hy].
    - rewrite fn_lookup_insert, Hq, elem_of_cons. split; [intros Hu; split; [by right|by intros ->]|naive_solver].
    - rewrite fn_lookup_insert_ne by done. split; [|naive_solver]. intros Hu. split; [done|]. intros ->. apply Hy. eapply holds_disjoint; [apply HI|done|done]. }
  constructor; cbn [co lo threads cpus ncpus tlists locks]; try apply HI.
  - done.
  - intros y u [Hu Hne]%HA. rewrite lookup_delete_ne by done. by apply (i_listed _ _ _ _ HI).
  - intros u hu [Hne Hu]%lookup_delete_Some. destruct (i_thr _ _ _ _ HI u hu Hu) as [Hcl Pu]. split; [done|]. cbn [co cpus]. destruct (pl u) as [y|d].
    + eapply parked_frame; [exact Pu| | |done|done| |].
      * apply HA. split; [apply Pu|done].
      * destruct Pu as [U1 U2 _ _ _ _]. destruct y; try done. destruct U2 as [? [h' U2]]. split; [done|]. exists h'. cbn [co threads]. apply lookup_delete_Some. split; [|done]. intros <-. rewrite Hhz in U1. by apply elem_of_nil in U1.
      * simpl. by apply lookup_delete_ne.
      * intros _. left. unfold A'. by rewrite fn_lookup_insert_ne.
    + eapply running_frame; [exact Pu|done|done|done| |done]. simpl. by apply lookup_delete_ne.
  - intros d Hd. destruct (i_cpu _ _ _ _ HI d Hd) as [hd [K1 K2 K3 K4 K5 K6 K7 K8 K9]]. exists hd. constructor; cbn [co lo threads irqs]; try done.
    rewrite lookup_delete_ne; [done|]. intros E. by destruct (Hcur d Hd).
  - pose proof (i_size _ _ _ _ HI). rewrite map_size_delete_Some by eauto. lia.
Qed.
End spec.
