(* ===== verification/CpuSpec.v ===== *)
(** Every action of a processor keeps the invariant of [CpuInv], and what follows from it: no
    thread is lost, doubled or used after it was destroyed, no two processors share a stack, no
    runnable thread waits for an idle processor that has not been called. *)

From stdpp Require Import base tactics numbers functions list gmap.
From S2P Require Import Prelude KernDefs Spl Threadlist Sched Cpu CpuInv.
Local Open Scope Z_scope.

Section spec.
Context {L : Type} {TL : ThreadLists L}.
Implicit Types (s : @sys L) (A : tlid → list nat) (h : thr) (k : cpu).

(** * Destroying zombies *)
Lemma wp_exorcise_loop c n s A pl : inv None s A pl → (c < ncpus (co s))%nat → c_idle (cpus (co s) c) = false → (length (A (Zombies c)) < n)%nat →
  wp (exorcise_loop n c) (λ _ s', ∃ A', inv None s' A' pl ∧ (∀ x, x ≠ Zombies c → A' x = A x) ∧ ncpus (co s') = ncpus (co s) ∧ cpus (co s') = cpus (co s) ∧ (∀ n l, at_level s c n l → at_level s' c n l) ∧
    (∀ t h, th_state h ≠ S_ZOMBIE → threads (co s) !! t = Some h → threads (co s') !! t = Some h)) s.
Proof.
  revert s A. induction n as [|n IH]; intros s A HI Hc Hi Hn; [lia|]. cbn [exorcise_loop]. apply wp_bind_2. eapply wp_rem_head; [apply HI|]. intros l. destruct (A (Zombies c)) as [|z q] eqn:Hz; intros Hl.
  - apply wp_ret. exists A. split; [by apply inv_lists|]. split; [done|]. split; [done|]. split; [done|]. split; [|done]. intros m v []. by constructor.
  - assert (z ∈ A (Zombies c)) as Hin by (rewrite Hz; by left). destruct (i_listed _ _ _ _ HI _ _ Hin) as [[h Ht] Hpl]. destruct (i_thr _ _ _ _ HI z h Ht) as [_ P]. rewrite Hpl in P. destruct (pk_sits _ _ _ _ _ _ _ P) as (Hcpu & Hst & Has).
    assert (z ≠ c_curthread (cpus (co s) c)) as Hne. { intros ->. pose proof (pk_idle _ _ _ _ _ _ _ P) as E. rewrite Hcpu in E. rewrite (E eq_refl) in Hi. done. }
    apply wp_bind_2, wp_gets, wp_bind_2. apply wp_kassert; [by apply bool_decide_eq_true_2|]. unfold thread_destroy, thread_of. apply wp_bind_2, wp_bind_2, wp_get. eapply wp_of_opt; [exact Ht|].
    apply wp_bind_2, wp_kassert; [by apply bool_decide_eq_true_2|]. apply wp_bind_2, wp_bind_2, wp_gets, wp_bind_2, wp_kassert; [by apply bool_decide_eq_true_2|].
    apply wp_bind_2, wp_bind_2, wp_get. eapply wp_of_opt; [exact Ht|]. apply wp_bind_2, wp_kassert; [by rewrite Hst|]. apply wp_bind_2, wp_kassert; [by rewrite Has|]. apply wp_modify.
    eapply wp_mono; [apply (IH _ (<[Zombies c := q]> A))|].
    + exact (inv_destroy s A pl c z q l HI Hc Hi Hz Hl).
    + done.
    + done.
    + rewrite fn_lookup_insert. simpl in Hn. lia.
    + intros [] s' (A' & HI' & HA & Hn' & Hc' & Hlv & Hth). exists A'. split; [done|]. split; [intros x Hx; rewrite HA by done; by apply fn_lookup_insert_ne|]. split; [done|]. split; [done|]. split.
      { intros m v [L1 L2 L3]. apply Hlv. constructor; [|done|done]. cbn [co lo levels cpus with_lists]. by rewrite lookup_delete_ne. }
      intros t ht Hz' Hh. apply Hth; [done|]. cbn [co threads with_lists]. rewrite lookup_delete_ne; [done|]. intros ->. congruence.
Qed.
Lemma wp_exorcise c s A pl : inv None s A pl → (c < ncpus (co s))%nat → c_idle (cpus (co s) c) = false →
  wp (exorcise c) (λ _ s', ∃ A', inv None s' A' pl ∧ (∀ x, x ≠ Zombies c → A' x = A x) ∧ ncpus (co s') = ncpus (co s) ∧ cpus (co s') = cpus (co s) ∧ (∀ n l, at_level s c n l → at_level s' c n l) ∧
    (∀ t h, th_state h ≠ S_ZOMBIE → threads (co s) !! t = Some h → threads (co s') !! t = Some h)) s.
Proof. intros HI Hc Hi. unfold exorcise. apply wp_bind_2, wp_gets, wp_exorcise_loop; [done..|]. rewrite (holds_num _ _ _ (i_lists _ _ _ _ HI)). lia. Qed.

(** * Taking over *)
Record picked (c : nat) s A s' A' : Prop := {
  pi_ncpus : ncpus (co s') = ncpus (co s);
  pi_rest x : x ≠ Runq c → x ≠ Zombies c → A' x = A x;
  pi_what : match A (Runq c) with
            | [] => c_idle (cpus (co s') c) = true ∧ A' (Runq c) = []
            | t :: q => c_idle (cpus (co s') c) = false ∧ c_curthread (cpus (co s') c) = t ∧ A' (Runq c) = q
            end;
}.
Lemma wp_thread_of t s h (Q : thr → sys → Prop) : threads (co s) !! t = Some h → Q h s → wp (thread_of t) Q s.
Proof. intros Ht HQ. unfold thread_of. apply wp_bind_2, wp_get. by eapply wp_of_opt. Qed.
Definition with_thread (t : nat) (h : thr) s : @sys L := Sys (Core (ncpus (co s)) (<[t := h]> (threads (co s))) (cpus (co s)) (tlists (co s))) (lo s).
Lemma wp_upd_thread t f s h (Q : unit → sys → Prop) : threads (co s) !! t = Some h → Q tt (with_thread t (f h) s) → wp (upd_thread t f) Q s.
Proof. intros Ht HQ. unfold upd_thread. apply wp_bind_2. by eapply wp_thread_of. Qed.

(** [s] is the state before the switch; in [with_cpus] the next thread is current. *)
Lemma wp_come_in c t q h s A pl l : inv (Some c) s A pl → (c < ncpus (co s))%nat → A (Runq c) = t :: q → threads (co s) !! t = Some h → holds l (<[Runq c := q]> A) →
  wp (come_in c) (λ _ s', ∃ A' pl', inv None s' A' pl' ∧ picked c s A s' A' ∧ at_level s' c 1 1 ∧ threads (co s') !! t = Some (set_state S_RUN h))
    (with_cpus (<[c := set_cur t (set_idle false false (cpus (co s) c))]> (cpus (co s))) (with_lists l s)).
Proof.
  intros HI Hc Hq Ht Hl. assert (t ∈ A (Runq c)) as Hin by (rewrite Hq; by left). destruct (i_listed _ _ _ _ HI _ _ Hin) as [_ Hpl]. destruct (i_thr _ _ _ _ HI t h Ht) as [_ P]. rewrite Hpl in P.
  pose proof (pk_sits _ _ _ _ _ _ _ P) as [Hcpu Hst]. rewrite Hcpu in P. pose proof (pk_level _ _ _ _ _ _ _ P) as Hlv.
  assert ((if decide (c_curthread (cpus (co s) c) = t) then idle_level (Some c) (th_cpu h) else 2) = 2) as E2 by (case_decide; [|done]; unfold idle_level; by rewrite decide_True by congruence). rewrite E2 in Hlv.
  destruct (i_cpu _ _ _ _ HI c Hc) as [hc K]. destruct (ck_busy _ _ _ _ _ _ K eq_refl) as [Hi Hv]. pose proof (ck_irq _ _ _ _ _ _ K Hi) as Hirq.
  assert (locks (lo s) !! runq_lock c = Some (taken c)) as Hlk.
  { destruct (proj1 (i_have _ _ _ _ HI c Hc)) as [lk E]. rewrite E. rewrite (i_locks _ _ _ _ HI _ _ E). simpl. by rewrite decide_True. }
  set (k1 := set_cur t (set_idle false false (cpus (co s) c))). set (cp1 := <[c := k1]> (cpus (co s))). assert (c_curthread (cp1 c) = t) as Ecur by (unfold cp1; by rewrite fn_lookup_insert). unfold come_in. apply wp_bind_2, wp_gets. cbn [with_cpus co cpus]. rewrite Ecur.
  apply wp_bind_2. eapply wp_upd_thread; [exact Ht|]. apply wp_bind_2. eapply (wp_cpu_release c _ _ 2 1).
  { constructor; cbn [with_thread with_cpus with_lists co lo cpus]; rewrite ?Ecur; done. } { lia. } { done. }
  apply wp_bind_2. eapply (wp_thread_of t _ (set_state S_RUN h)); [apply lookup_insert_eq|]. cbn [set_state th_as].
  set (s2 := to_lock _ _ _). assert (s2 = Sys (Core (ncpus (co s)) (<[t := set_state S_RUN h]> (threads (co s))) cp1 l) (mid c 1 spinlock_init (lo s) t)) as Es2.
  { unfold s2, to_lock, to_level, mid. cbn [with_thread with_cpus with_lists co lo cpus levels irqs locks ncpus threads tlists]. by rewrite Ecur. }
  assert (at_level s2 c 1 1) as Hl2. { rewrite Es2. constructor; cbn [co lo cpus mid levels irqs]; rewrite ?Ecur, ?lookup_insert_eq; done. }
  clearbody s2. subst s2. apply wp_bind_2.
  eapply wp_mono with (P := λ _ s3, ∃ cp T, (th_as h ≠ 0 → T = []) ∧ nudge (set_cur t (set_idle false false (set_tlb T (cpus (co s) c)))) (cp c) ∧ (∀ d, d ≠ c → nudge (cpus (co s) d) (cp d)) ∧
    s3 = Sys (Core (ncpus (co s)) (<[t := set_state S_RUN h]> (threads (co s))) cp l) (mid c 1 spinlock_init (lo s) t)).
  { destruct (Z.eqb_spec (th_as h) 0) as [Ea|Ea].
    - apply wp_ret. exists cp1, (c_tlb (cpus (co s) c)). split; [done|]. unfold cp1. rewrite fn_lookup_insert. split; [by destruct (cpus (co s) c)|]. split; [|done]. intros d Hd. rewrite fn_lookup_insert_ne by done. apply nudge_refl.
    - eapply wp_as_activate; [exact Hl2|by right| |].
      + intros d Hd. cbn [lo mid locks]. rewrite lookup_insert_ne by (unfold runq_lock, ipi_lock; lia). by eapply ipi_free.
      + intros cp Hcp. exists cp, []. cbn [co cpus] in Hcp. split; [done|]. split; [|split; [|done]].
        * specialize (Hcp c). rewrite decide_True in Hcp by done. unfold cp1 in Hcp. by rewrite fn_lookup_insert in Hcp.
        * intros d Hd. specialize (Hcp d). rewrite decide_False in Hcp by done. unfold cp1 in Hcp. by rewrite fn_lookup_insert_ne in Hcp. }
  intros [] s3 (cp & T & HT & Hn & Hno & ->). eapply wp_mono; [eapply wp_exorcise|].
  { by eapply inv_arrive. } { done. } { cbn [co cpus]. by rewrite (nu_idle _ _ Hn). }
  intros [] s' (A' & HI' & HA & Hnc & Hcp & Hlw & Hth). exists A'. eexists. split; [exact HI'|].
  split; [|split; [apply Hlw; constructor; [|apply lookup_insert_eq|done]; cbn [co lo cpus]; rewrite (nu_cur _ _ Hn); apply lookup_insert_eq|apply Hth; [done|apply lookup_insert_eq]]].
  constructor; [done|intros x Hx Hz; rewrite HA by done; by apply fn_lookup_insert_ne|]. rewrite Hq, Hcp. cbn [co cpus]. rewrite (nu_cur _ _ Hn), (nu_idle _ _ Hn). split; [done|]. split; [done|]. rewrite HA by done. apply fn_lookup_insert.
Qed.

Definition settles (c : nat) s A (s' : @sys L) : Prop := ∃ A' pl', inv None s' A' pl' ∧ picked c s A s' A'.
Lemma picked_from c s s1 A s' A' : ncpus (co s1) = ncpus (co s) → picked c s1 A s' A' → picked c s A s' A'.
Proof. intros E []. constructor; [congruence|done|done]. Qed.
Lemma wp_come_out c s A s' A' pl' t q h spl : inv None s' A' pl' → picked c s A s' A' → at_level s' c 1 1 → (c < ncpus (co s))%nat → A (Runq c) = t :: q → threads (co s') !! t = Some h →
  spl = 0 ∨ spl = 1 → (th_in h = true → spl = 1) → wp (on_spl c (splx spl)) (λ _, settles c s A) s'.
Proof.
  intros HI P Hl Hc Hq Ht Hspl Hin. pose proof P as [P1 P2 P3]. rewrite Hq in P3. destruct P3 as (Hi & Hcur & Hrq). rewrite <-P1 in Hc. destruct (inv_cur _ _ _ _ _ HI Hc) as (h' & K & _ & _).
  assert (h' = h) as -> by (pose proof (ck_cur _ _ _ _ _ _ K) as E; rewrite Hcur in E; congruence).
  eapply wp_splx; [exact Hl|lia|done|]. intros r. replace (if spl =? 0 then 1 - 1 else 1) with spl by (by destruct Hspl as [->| ->]). exists A', pl'. split; [by eapply inv_level|].
  constructor; [done|done|]. by rewrite Hq.
Qed.
Lemma wp_arrive c t q s A pl l : inv (Some c) s A pl → (c < ncpus (co s))%nat → A (Runq c) = t :: q → holds l (<[Runq c := q]> A) →
  wp (arrive c) (λ _, settles c s A) (with_cpus (<[c := set_cur t (set_idle false false (cpus (co s) c))]> (cpus (co s))) (with_lists l s)).
Proof.
  intros HI Hc Hq Hl. assert (t ∈ A (Runq c)) as Hin by (rewrite Hq; by left). destruct (i_listed _ _ _ _ HI _ _ Hin) as [[h Ht] Hpl]. destruct (i_thr _ _ _ _ HI t h Ht) as [_ P]. rewrite Hpl in P.
  pose proof (pk_sits _ _ _ _ _ _ _ P) as [Hcpu Hst]. pose proof (pk_saved _ _ _ _ _ _ _ P) as Hs. unfold arrive. apply wp_bind_2, wp_gets. cbn [with_cpus co cpus]. rewrite fn_lookup_insert. cbn [set_cur c_curthread].
  apply wp_bind_2. eapply wp_thread_of; [exact Ht|]. unfold saved in Hs. destruct (th_context h) as [| |spl r]; [done| |].
  - unfold thread_startup. apply wp_bind_2. eapply wp_mono; [by eapply wp_come_in|]. intros [] s' (A' & pl' & HI' & Hp & Hl' & Ht'). apply wp_bind_2. eapply wp_mono; [eapply (wp_come_out c s A s' A' pl' t q _ 0); try done|].
    + by left.
    + simpl. destruct Hs as (-> & _). done.
    + intros r s2 H2. by apply wp_ret.
  - destruct Hs as (Hspl & -> & Hsp). apply wp_bind_2. eapply wp_mono; [by eapply wp_come_in|]. intros [] s' (A' & pl' & HI' & Hp & Hl' & Ht'). apply wp_bind_2. eapply wp_mono; [eapply (wp_come_out c s A s' A' pl' t q _ spl); try done|].
    + simpl. intros Hin'. destruct (Hsp Hin') as [?|[_ Hb]]; [done|]. destruct Hb. by rewrite Hcpu.
    + intros r s2 H2. rewrite bool_decide_eq_true_2 by (destruct Hst as [->| ->]; done). by apply wp_ret.
Qed.
Lemma wp_pick c s A pl : inv (Some c) s A pl → (c < ncpus (co s))%nat → wp (pick c) (λ _, settles c s A) s.
Proof.
  intros HI Hc. unfold pick. apply wp_bind_2. eapply wp_rem_head; [apply HI|]. intros l. destruct (A (Runq c)) as [|t q] eqn:Hq; intros Hl.
  - destruct (i_cpu _ _ _ _ HI c Hc) as [h K]. destruct (ck_busy _ _ _ _ _ _ K eq_refl) as [Hi Hv]. destruct (cur_level _ _ _ _ _ HI Hc) as (n & v & Hlv & _ & Hid & _). destruct (Hid Hi) as [-> ->]. unfold idle_level in Hlv. rewrite decide_True in Hlv by done.
    assert (th_in h = false) as Hin. { destruct (th_in h) eqn:E; [|done]. pose proof (ck_woken _ _ _ _ _ _ K Hi E) as Hw. rewrite decide_True in Hw by done. by rewrite Hq in Hw. }
    eapply (wp_cpu_release c _ _ 2 1); [destruct Hlv; by constructor|lia| |].
    + destruct (proj1 (i_have _ _ _ _ HI c Hc)) as [lk E]. cbn [with_lists lo]. rewrite E, (i_locks _ _ _ _ HI _ _ E). simpl. by rewrite decide_True.
    + exists A, pl. split; [|constructor; [done|done|by rewrite Hq]]. apply (inv_lists _ _ _ _ l) in HI; [|done].
      assert (cpu_ok (Some c) (with_lists l s) A c (cpus (co (with_lists l s)) c) h) as K' by (destruct K; by constructor).
      exact (inv_idle (Some c) None _ A pl c h HI Hc K' Hi Hin (or_intror eq_refl) (or_introl eq_refl) ltac:(done) (λ _, Hq)).
  - apply wp_bind_2, wp_modify. exact (wp_arrive c t q s A pl l HI Hc Hq Hl).
Qed.

(** * Giving up the processor *)
Lemma with_thread_twice t h h' s : with_thread t h' (with_thread t h s) = with_thread t h' s.
Proof. unfold with_thread. simpl. by rewrite insert_insert_eq. Qed.
Lemma wp_switch_out s A pl c h x st spl l' : inv None s A pl → (c < ncpus (co s))%nat → cpu_ok None s A c (cpus (co s) c) h → c_idle (cpus (co s) c) = false →
  let t := c_curthread (cpus (co s) c) in let h' := set_context (InSwitch spl (bool_decide (st ≠ S_ZOMBIE))) (set_state st h) in
  (∀ y, x ≠ Hand y) → (∀ d, x = Runq d → d = c) → (∀ d, x ≠ Victims d) → sits s x h' → spl = 0 ∨ spl = 1 → (th_in h = true → spl = 1 ∧ x = Runq c) →
  A (Victims c) = [] → (st = S_ZOMBIE → A (Hand t) = []) → holds l' (<[x := A x ++ [t]]> A) →
  wp (upd_thread t (set_state st);; upd_thread t (set_context (InSwitch spl (bool_decide (st ≠ S_ZOMBIE))));; upd_cpu c (set_idle true false);; pick c)
    (λ _, settles c s (<[x := A x ++ [t]]> A)) (Sys (co (with_lists l' s)) (mid c 2 (taken c) (lo s) t)).
Proof.
  intros HI Hc K Hi t h' Hxh Hxr Hxv Hs Hspl Hin Hv Hz Hl. pose proof (ck_cur _ _ _ _ _ _ K) as Ht. fold t in Ht.
  apply wp_bind_2. eapply wp_upd_thread; [exact Ht|]. apply wp_bind_2. eapply wp_upd_thread; [apply lookup_insert_eq|]. rewrite with_thread_twice. apply wp_bind_2, wp_modify.
  eapply wp_mono; [apply (wp_pick c _ (<[x := A x ++ [t]]> A) (<[t := On x]> pl)); [exact (inv_park s A pl c h x st spl l' HI Hc K Hi Hxh Hxr Hxv Hs Hspl Hin Hv Hz Hl)|done]|].
  intros [] s' (A' & pl' & HI' & Hp). exists A', pl'. split; [done|]. eapply picked_from; [|exact Hp]. done.
Qed.
(** The way in: interrupts off and the run queue locked. *)
Lemma splhigh_in s c l : at_level s c l l → l = 0 ∨ l = 1 → ∀ Q : Z → sys → Prop, Q l (to_level c 1 1 s) → wp (on_spl c splhigh) Q s.
Proof. intros Hl Hb Q HQ. eapply wp_cpu_splhigh; [exact Hl|done|]. destruct Hb as [->| ->]; exact HQ. Qed.
Lemma mid_eq s c : Sys (co s) (mid c 2 (taken c) (lo s) (c_curthread (cpus (co s) c))) = to_lock (runq_lock c) (taken c) (to_level c 2 1 (to_level c 1 1 s)).
Proof. rewrite to_level_twice. done. Qed.
Lemma wp_enter c s A pl h st w (Q : unit → sys → Prop) : inv None s A pl → (c < ncpus (co s))%nat → cpu_ok None s A c (cpus (co s) c) h → c_idle (cpus (co s) c) = false →
  let t := c_curthread (cpus (co s) c) in
  (∀ l, l = 0 ∨ l = 1 → (th_in h = true → l = 1) →
    if bool_decide (st = S_READY) && bool_decide (A (Runq c) = []) then Q tt s
    else wp ((match st with
       | S_RUN => panic
       | S_READY => thread_make_runnable c t true
       | S_SLEEP => add_tail (Chan w) t;; release c (chan_lock w)
       | S_ZOMBIE => add_tail (Zombies c) t
       end);;
      upd_thread t (set_state st);;
      upd_thread t (set_context (InSwitch l (bool_decide (st ≠ S_ZOMBIE))));;
      upd_cpu c (set_idle true false);;
      pick c) Q (Sys (co s) (mid c 2 (taken c) (lo s) t))) → wp (thread_switch c st w) Q s.
Proof.
  intros HI Hc K Hi t HQ. destruct (inv_cur _ _ _ _ _ HI Hc) as (h0 & K0 & Hr & _). assert (h0 = h) as -> by (pose proof (ck_cur _ _ _ _ _ _ K0); pose proof (ck_cur _ _ _ _ _ _ K); congruence).
  destruct (Hr Hi) as [_ R]. destruct (rn_level _ _ _ _ _ R) as (l & L1 & L2 & L3 & L4). assert (at_level s c l l) as Hl by (constructor; [done|done|lia]).
  unfold thread_switch. apply wp_bind_2. eapply splhigh_in; [exact Hl|done|]. apply wp_bind_2, wp_gets. cbn [to_level co]. rewrite Hi. apply wp_bind_2, wp_gets. cbn [to_level co]. fold t.
  apply wp_bind_2. eapply (wp_cpu_acquire c _ _ 1 1); [eapply to_level_at; [exact Hl|lia]|exact (runq_free _ _ _ _ HI Hc)|]. change (1 + 1) with 2. rewrite <-mid_eq. fold t.
  apply wp_bind_2, wp_gets. cbn [co]. rewrite (holds_empty _ _ _ (i_lists _ _ _ _ HI)). specialize (HQ l L3 L4). destruct (bool_decide (st = S_READY) && bool_decide (A (Runq c) = [])); [|exact HQ].
  apply wp_bind_2. eapply (wp_cpu_release c _ _ 2 1); [constructor; simpl; fold t; by rewrite ?lookup_insert_eq|lia|apply lookup_insert_eq|]. apply wp_bind_2. eapply (wp_splx c _ 1 l).
  - constructor; simpl; fold t; by rewrite ?lookup_insert_eq.
  - lia.
  - done.
  - intros r. apply wp_ret. assert (to_level c (if l =? 0 then 1 - 1 else 1) l (to_lock (runq_lock c) spinlock_init (to_level c (2 - 1) 1 (Sys (co s) (mid c 2 (taken c) (lo s) t)))) = s) as ->; [|exact HQ].
    pose proof (runq_free _ _ _ _ HI Hc) as Hf. destruct s as [co0 [lv ir lk]]. unfold to_level, to_lock, mid. simpl in *. fold t. rewrite !insert_insert_eq, !insert_id; [done|done| |].
    + rewrite L2. by destruct L3 as [->| ->].
    + fold t in L1. rewrite L1. by destruct L3 as [->| ->].
Qed.
Lemma wp_yield c s A pl h : inv None s A pl → (c < ncpus (co s))%nat → cpu_ok None s A c (cpus (co s) c) h → c_idle (cpus (co s) c) = false → A (Victims c) = [] →
  wp (thread_yield c) (λ _ s', if bool_decide (A (Runq c) = []) then s' = s else settles c s (<[Runq c := A (Runq c) ++ [c_curthread (cpus (co s) c)]]> A) s') s.
Proof.
  intros HI Hc K Hi Hv. set (t := c_curthread (cpus (co s) c)). destruct (inv_cur _ _ _ _ _ HI Hc) as (h0 & K0 & Hr & _). destruct (Hr Hi) as [Hpl R]. pose proof (ck_cur _ _ _ _ _ _ K) as Ht.
  assert (h0 = h) as -> by (pose proof (ck_cur _ _ _ _ _ _ K0); congruence). clear K0.
  eapply wp_enter; [done..|]. intros l Hl Hin. cbn [bool_decide]. rewrite (bool_decide_eq_true_2 (S_READY = S_READY)) by done. cbn [andb]. destruct (bool_decide (A (Runq c) = [])); [done|]. fold t.
  apply wp_bind_2. unfold thread_make_runnable. apply wp_bind_2. eapply wp_thread_of; [exact Ht|]. rewrite (ck_cpu _ _ _ _ _ _ K). unfold lock_at. apply wp_bind_2, wp_bind_2, wp_get. eapply wp_of_opt; [apply lookup_insert_eq|].
  apply wp_bind_2, wp_kassert; [by apply bool_decide_eq_true_2|]. apply wp_bind_2, wp_gets. cbn [co]. rewrite Hi. apply wp_bind_2. eapply (wp_add_tail _ _ _ A); [apply HI| |by eapply list_bound|].
  { intros y Hy. destruct (i_listed _ _ _ _ HI y t Hy) as [_ E]. unfold t in E. congruence. }
  intros l' Hl'. apply wp_ret. apply (wp_switch_out s A pl c h (Runq c) S_READY l l'); try done.
  - congruence.
  - split; [apply K|by left].
  - intros E. split; [by apply Hin|done].
Qed.
Lemma wp_yield_idle c s A pl h : inv None s A pl → (c < ncpus (co s))%nat → cpu_ok None s A c (cpus (co s) c) h → c_idle (cpus (co s) c) = true → wp (thread_yield c) (λ _ s', s' = s) s.
Proof.
  intros HI Hc K Hi. destruct (cur_level _ _ _ _ _ HI Hc) as (n & l & Hl & _ & Hid & _). destruct (Hid Hi) as [-> ->]. change (idle_level None c) with 1 in Hl.
  unfold thread_yield, thread_switch. apply wp_bind_2. eapply splhigh_in; [exact Hl|by right|]. rewrite (to_level_same _ _ _ _ Hl). apply wp_bind_2, wp_gets. rewrite Hi. apply wp_bind_2. eapply wp_splx; [exact Hl|lia|by right|].
  intros r. apply wp_ret. by apply to_level_same.
Qed.
Lemma wp_unidle c s A pl h : inv None s A pl → (c < ncpus (co s))%nat → cpu_ok None s A c (cpus (co s) c) h → c_idle (cpus (co s) c) = true → th_in h = false →
  wp (unidle c) (λ _, settles c s A) s.
Proof.
  intros HI Hc K Hi Hin. destruct (cur_level _ _ _ _ _ HI Hc) as (n & l & Hl & _ & Hid & _). destruct (Hid Hi) as [-> ->]. change (idle_level None c) with 1 in Hl.
  assert (A (Victims c) = []) as Hv. { destruct (decide (A (Victims c) = [])) as [|Hne]; [done|]. by rewrite (ck_victims _ _ _ _ _ _ K Hne) in Hin. }
  unfold unidle. apply wp_bind_2. eapply wp_cpu_acquire; [exact Hl|exact (runq_free _ _ _ _ HI Hc)|].
  pose proof (inv_idle None (Some c) s A pl c h HI Hc K Hi Hin (or_introl eq_refl) (or_intror eq_refl) (λ _, Hv) ltac:(done)) as HI'. unfold idle_level in HI'. cbn [lock_state] in HI'. rewrite !decide_True in HI' by done.
  eapply wp_mono; [exact (wp_pick c _ A pl HI' Hc)|]. intros [] s' (A' & pl' & H' & Hp). exists A', pl'. split; [done|]. eapply picked_from; [|exact Hp]. done.
Qed.

Lemma inv_drop_as s A pl c h : inv None s A pl → (c < ncpus (co s))%nat → cpu_ok None s A c (cpus (co s) c) h → c_idle (cpus (co s) c) = false →
  inv None (with_thread (c_curthread (cpus (co s) c)) (set_as 0 h) s) A pl ∧ cpu_ok None (with_thread (c_curthread (cpus (co s) c)) (set_as 0 h) s) A c (cpus (co s) c) (set_as 0 h).
Proof.
  intros HI Hc K Hi. set (t := c_curthread (cpus (co s) c)) in *. pose proof (ck_cur _ _ _ _ _ _ K) as Ht. fold t in Ht. destruct (inv_cur _ _ _ _ _ HI Hc) as (h0 & K0 & Hr & _). fold t in Hr. destruct (Hr Hi) as [Hpl R].
  assert (h0 = h) as -> by (pose proof (ck_cur _ _ _ _ _ _ K0) as E; fold t in E; congruence). clear K0.
  assert (cpu_ok None (with_thread t (set_as 0 h) s) A c (cpus (co s) c) (set_as 0 h)) as K'. { destruct K. constructor; try done. cbn [with_thread co threads]. apply lookup_insert_eq. }
  split; [|done]. constructor; cbn [with_thread co lo threads cpus ncpus tlists]; try apply HI.
  - intros x u Hu. destruct (i_listed _ _ _ _ HI x u Hu) as [? ?]. split; [by apply insert_some|done].
  - intros u hu. destruct (decide (u = t)) as [->|Hne].
    + rewrite lookup_insert_eq. intros [= <-]. split; [simpl; by rewrite (ck_cpu _ _ _ _ _ _ K)|]. rewrite Hpl. cbn [set_as th_cpu]. rewrite (ck_cpu _ _ _ _ _ _ K). destruct R. by constructor.
    + rewrite lookup_insert_ne by done. intros Hu. destruct (i_thr _ _ _ _ HI u hu Hu) as [Hcl P]. split; [done|]. destruct (pl u) as [x|d].
      * eapply parked_frame; [exact P|apply P| |done|done|done|by left]. eapply sits_more; [|apply P]. intros y. apply insert_some.
      * by eapply running_frame.
  - intros d Hd. destruct (decide (d = c)) as [->|Hdc]; [by exists (set_as 0 h)|]. destruct (i_cpu _ _ _ _ HI d Hd) as [hd [K1 K2 K3 K4 K5 K6 K7 K8 K9]]. exists hd. constructor; try done. cbn [with_thread co threads cpus].
    rewrite lookup_insert_ne; [done|]. intros E. apply Hdc. by eapply cur_unique.
  - rewrite map_size_insert_Some by done. apply HI.
Qed.
Lemma inv_flush s A pl c cp : inv None s A pl → (∀ d, nudge (if decide (d = c) then set_tlb [] (cpus (co s) c) else cpus (co s) d) (cp d)) → inv None (with_cpus cp s) A pl.
Proof.
  intros HI Hn. assert (∀ d, c_curthread (cp d) = c_curthread (cpus (co s) d) ∧ c_idle (cp d) = c_idle (cpus (co s) d) ∧ c_woken (cp d) = c_woken (cpus (co s) d) ∧
    (c_tlb (cp d) = c_tlb (cpus (co s) d) ∨ c_tlb (cp d) = []) ∧ (Z.testbit (c_ipi_pending (cpus (co s) d)) IPI_UNIDLE = true → Z.testbit (c_ipi_pending (cp d)) IPI_UNIDLE = true) ∧
    Z.testbit (c_ipi_pending (cp d)) IPI_PANIC = Z.testbit (c_ipi_pending (cpus (co s) d)) IPI_PANIC ∧ Z.testbit (c_ipi_pending (cp d)) IPI_OFFLINE = Z.testbit (c_ipi_pending (cpus (co s) d)) IPI_OFFLINE ∧
    (shoot_ok (cpus (co s) d) → shoot_ok (cp d))) as H.
  { intros d. specialize (Hn d). case_decide as E; [subst d|]; destruct Hn; cbn [set_tlb c_curthread c_idle c_woken c_ipi_pending c_tlb] in *; split_and!; auto. }
  clear Hn. apply inv_cpus; [done|..].
  - intros d _. destruct (H d) as (E1 & E2 & E3 & _). split; [done|]. split; [done|congruence].
  - intros d Hd. destruct (H d) as (_ & _ & _ & _ & _ & E1 & E2 & E3). destruct (i_cpu _ _ _ _ HI d Hd) as [h []]. rewrite E1, E2. auto.
  - intros d h Hd _ R Ha. destruct (H d) as (_ & _ & _ & [->| ->] & _); [by apply R|done].
  - intros d Hd Hi Hq Hb. destruct (H d) as (_ & E1 & E2 & _ & E3 & _). rewrite E1 in Hi. destruct (i_cpu _ _ _ _ HI d Hd) as [h K]. rewrite E2. destruct (ck_called _ _ _ _ _ _ K Hi Hq Hb); auto.
Qed.
Lemma cpu_ok_again b s s' A c k k' h h' : cpu_ok b s A c k h → cpu_ok b s' A c k' h' → threads (co s') !! c_curthread k' = Some h → h' = h.
Proof. intros _ K E. pose proof (ck_cur _ _ _ _ _ _ K). congruence. Qed.

Definition safe (s' : @sys L) : Prop := ∃ A' pl', inv None s' A' pl'.
Lemma settles_safe c s A s' : settles c s A s' → safe s'.
Proof. intros (A' & pl' & H & _). by exists A', pl'. Qed.

(** From outside an interrupt handler. *)
Lemma wp_exit_switch c s A pl h : inv None s A pl → (c < ncpus (co s))%nat → cpu_ok None s A c (cpus (co s) c) h → c_idle (cpus (co s) c) = false → th_in h = false → th_as h = 0 →
  A (Victims c) = [] → A (Hand (c_curthread (cpus (co s) c))) = [] → wp (_ ← on_spl c splhigh; thread_switch c S_ZOMBIE 0) (λ _, safe) s.
Proof.
  intros HI Hc K Hi Hin Has Hv Hh. set (t := c_curthread (cpus (co s) c)) in *. destruct (inv_cur _ _ _ _ _ HI Hc) as (h0 & K0 & Hr & _). fold t in Hr. destruct (Hr Hi) as [Hpl R]. clear K0.
  destruct (rn_level _ _ _ _ _ R) as (l & L1 & L2 & L3 & _). apply wp_bind_2. eapply (splhigh_in s c l); [constructor; [done|done|lia]|done|].
  assert (inv None (to_level c 1 1 s) A pl) as HI1 by (eapply inv_level; [done|done|exact K|done|by right|done]).
  assert (cpu_ok None (to_level c 1 1 s) A c (cpus (co s) c) h) as K1. { destruct K. constructor; try done. intros E. congruence. }
  eapply (wp_enter c _ A pl h); [done..|]. intros l' Hl' _. rewrite (bool_decide_eq_false_2 (S_ZOMBIE = S_READY)) by done. cbn [andb]. apply wp_bind_2. eapply (wp_add_tail _ _ _ A); [apply HI| |by eapply list_bound|].
  { intros y Hy. destruct (i_listed _ _ _ _ HI y t Hy) as [_ E]. congruence. }
  intros lx Hlx. eapply wp_mono; [apply (wp_switch_out (to_level c 1 1 s) A pl c h (Zombies c) S_ZOMBIE l' lx); try done|].
  - split; [apply K|]. by split.
  - congruence.
  - intros [] s'. apply settles_safe.
Qed.
Lemma wp_exit c s A pl h : inv None s A pl → (c < ncpus (co s))%nat → cpu_ok None s A c (cpus (co s) c) h → c_idle (cpus (co s) c) = false → th_in h = false →
  A (Victims c) = [] → A (Hand (c_curthread (cpus (co s) c))) = [] → wp (thread_exit c) (λ _, safe) s.
Proof.
  intros HI Hc K Hi Hin Hv Hh. set (t := c_curthread (cpus (co s) c)) in *. pose proof (ck_cur _ _ _ _ _ _ K) as Ht. fold t in Ht. unfold thread_exit. apply wp_bind_2, wp_gets. fold t. apply wp_bind_2. eapply wp_thread_of; [exact Ht|].
  apply wp_bind_2. destruct (Z.eqb_spec (th_as h) 0) as [Ea|Ea]; [by apply wp_ret; eapply wp_exit_switch|].
  apply wp_bind_2. eapply wp_upd_thread; [exact Ht|]. destruct (inv_drop_as s A pl c h HI Hc K Hi) as [HI1 K1]. fold t in HI1, K1. destruct (cur_level _ _ _ _ _ HI1 Hc) as (n & l & Hl & Hb & _). eapply wp_as_activate; [exact Hl|done| |].
  { intros d Hd. exact (ipi_free _ _ _ _ _ HI1 Hd). }
  intros cp Hcp. pose proof (inv_flush _ _ _ _ _ HI1 Hcp) as HI2. specialize (Hcp c). rewrite decide_True in Hcp by done. destruct Hcp as [Ecur Eidle _ _ _ _ _ _]. cbn [with_thread co cpus set_tlb c_curthread c_idle] in *.
  destruct (i_cpu _ _ _ _ HI2 c Hc) as [h2 K2]. assert (h2 = set_as 0 h) as ->. { pose proof (ck_cur _ _ _ _ _ _ K2) as E. cbn [with_cpus with_thread co cpus threads] in E. rewrite Ecur in E. fold t in E. rewrite lookup_insert_eq in E. congruence. }
  eapply wp_exit_switch; [exact HI2|done|exact K2| |done|done|done|]; cbn [with_cpus with_thread co cpus]; [by rewrite Eidle|by rewrite Ecur].
Qed.
Lemma wp_sleep c w s A pl h : inv None s A pl → (c < ncpus (co s))%nat → cpu_ok None s A c (cpus (co s) c) h → c_idle (cpus (co s) c) = false → th_in h = false →
  A (Victims c) = [] → is_Some (locks (lo s) !! chan_lock w) → wp (lock_and_sleep c w) (λ _, settles c s (<[Chan w := A (Chan w) ++ [c_curthread (cpus (co s) c)]]> A)) s.
Proof.
  intros HI Hc K Hi Hin Hv Hw. set (t := c_curthread (cpus (co s) c)) in *. pose proof (ck_cur _ _ _ _ _ _ K) as Ht. fold t in Ht. destruct (inv_cur _ _ _ _ _ HI Hc) as (h0 & K0 & Hr & _). fold t in Hr. destruct (Hr Hi) as [Hpl R]. clear K0.
  destruct (rn_level _ _ _ _ _ R) as (l & L1 & L2 & L3 & _). clear h0 R Hr. assert (at_level s c l l) as Hl by (constructor; [done|done|lia]).
  pose proof (free_lock _ _ _ _ HI Hw) as Hfw. pose proof (runq_free _ _ _ _ HI Hc) as Hfr. unfold lock_and_sleep. apply wp_bind_2. eapply wp_cpu_acquire; [exact Hl|exact Hfw|].
  unfold wchan_sleep. apply wp_bind_2, wp_gets. cbn [to_lock to_level co]. fold t. apply wp_bind_2. eapply wp_thread_of; [exact Ht|]. apply wp_bind_2, wp_kassert; [by rewrite Hin|].
  unfold thread_switch. apply wp_bind_2. eapply (wp_cpu_splhigh c _ (l + 1) l); [constructor; cbn [to_lock to_level co lo levels irqs]; fold t; rewrite ?lookup_insert_eq; [done|done|lia]|done|].
  set (s1 := to_level c _ 1 _). assert (at_level s1 c 2 1) as Hl1.
  { unfold s1. constructor; cbn [to_lock to_level co lo levels irqs]; fold t; rewrite ?lookup_insert_eq; [| |lia]; by destruct L3 as [->| ->]. }
  assert (co s1 = co s) as Ec by done. assert (runq_lock c ≠ chan_lock w) as Hne by (unfold runq_lock, chan_lock; lia).
  apply wp_bind_2, wp_gets. rewrite Ec, Hi. apply wp_bind_2, wp_gets. rewrite Ec. fold t. apply wp_bind_2. eapply wp_cpu_acquire; [exact Hl1|cbn [s1 to_level to_lock lo locks]; by rewrite lookup_insert_ne|].
  apply wp_bind_2, wp_gets. rewrite (bool_decide_eq_false_2 (S_SLEEP = S_READY)) by done. cbn [andb]. apply wp_bind_2, wp_bind_2.
  eapply (wp_add_tail _ _ _ A); [apply HI| |by eapply list_bound|].
  { intros y Hy. destruct (i_listed _ _ _ _ HI y t Hy) as [_ E]. congruence. }
  intros lx Hlx. eapply (wp_cpu_release c _ _ 3 1).
  { constructor; cbn [with_lists to_lock to_level co lo levels irqs]; rewrite ?Ec; fold t; rewrite ?lookup_insert_eq; [done|done|lia]. } { lia. }
  { cbn [with_lists to_lock to_level lo locks s1]. rewrite lookup_insert_ne by done. apply lookup_insert_eq. }
  assert (∀ st', st' = Sys (co (with_lists lx s)) (mid c 2 (taken c) (lo s) t) → wp (upd_thread t (set_state S_SLEEP);; upd_thread t (set_context (InSwitch l (bool_decide (S_SLEEP ≠ S_ZOMBIE))));; upd_cpu c (set_idle true false);; pick c)
    (λ _, settles c s (<[Chan w := A (Chan w) ++ [t]]> A)) st') as Hgo.
  { intros st' ->. apply (wp_switch_out s A pl c h (Chan w) S_SLEEP l lx); try done. congruence. }
  apply Hgo. clear Hgo. unfold s1, to_lock, to_level, mid, with_lists. cbn [co lo cpus levels irqs locks]. fold t. rewrite !insert_insert_eq. f_equal. f_equal.
  rewrite insert_insert_ne, insert_insert_eq by done. f_equal. by rewrite insert_id.
Qed.

(** * Lists *)
Lemma moved_elem l A y z x q1 q2 : holds l A → A y = q1 ++ x :: q2 → let B := <[y := q1 ++ q2]> A in
  ∀ v u, u ∈ (<[z := B z ++ [x]]> B) v ↔ if decide (u = x) then v = z else u ∈ A v.
Proof.
  intros Hl Hy B v u. assert (∀ v u, u ∈ B v ↔ u ∈ A v ∧ u ≠ x) as HB.
  { intros v' u'. unfold B. destruct (decide (y = v')) as [<-|Hv].
    - rewrite fn_lookup_insert, Hy. pose proof (holds_nodup _ _ y Hl) as Hn. rewrite Hy in Hn. apply NoDup_app in Hn as (_ & Hd & Hn). apply NoDup_cons in Hn as [Hn _].
      rewrite !elem_of_app, elem_of_cons. split; [|naive_solver]. intros [H|H]; (split; [naive_solver|]); intros ->; [|done]. apply (Hd x H). by left.
    - rewrite fn_lookup_insert_ne by done. split; [|naive_solver]. intros H. split; [done|]. intros ->. apply Hv. eapply holds_disjoint; [exact Hl| |exact H]. rewrite Hy. apply elem_of_app. right. by left. }
  destruct (decide (z = v)) as [<-|Hv].
  - rewrite fn_lookup_insert, elem_of_app, HB, list_elem_of_singleton. case_decide; naive_solver.
  - rewrite fn_lookup_insert_ne, HB by done. case_decide; naive_solver.
Qed.
Lemma with_thread_id t h s : threads (co s) !! t = Some h → with_thread t h s = s.
Proof. intros Ht. destruct s as [[] ?]. unfold with_thread. simpl in *. by rewrite insert_id. Qed.
Lemma set_cpu_id h : set_cpu (th_cpu h) h = h.
Proof. by destruct h. Qed.
Lemma off_list l A y x q1 q2 v : holds l A → A y = q1 ++ x :: q2 → x ∉ (<[y := q1 ++ q2]> A) v.
Proof.
  intros Hl Hy Hx. pose proof (moved_elem l A y (Hand 0) x q1 q2 Hl Hy v x) as H. rewrite decide_True in H by done.
  pose proof (moved_elem l A y (Hand 1) x q1 q2 Hl Hy v x) as H'. rewrite decide_True in H' by done.
  assert (∀ z, x ∈ (<[z := (<[y := q1 ++ q2]> A) z ++ [x]]> (<[y := q1 ++ q2]> A)) v) as Hz.
  { intros z. destruct (decide (z = v)) as [->|]; [rewrite fn_lookup_insert; apply elem_of_app; by left|by rewrite fn_lookup_insert_ne]. }
  pose proof (proj1 H (Hz _)). pose proof (proj1 H' (Hz _)). congruence.
Qed.
Lemma off_bound b s A pl y q z : inv b s A pl → (length q ≤ length (A y))%nat → Z.of_nat (length ((<[y := q]> A) z)) + 1 < 2 ^ 32.
Proof.
  intros HI Hq. pose proof (list_bound _ _ _ _ y HI). pose proof (list_bound _ _ _ _ z HI). destruct (decide (y = z)) as [<-|]; [rewrite fn_lookup_insert; lia|by rewrite fn_lookup_insert_ne].
Qed.
(** A thread that is moved with its processor unchanged. *)
Lemma inv_shift s A pl x h y z q1 q2 cp l' : inv None s A pl → threads (co s) !! x = Some h → A y = q1 ++ x :: q2 → th_state h ≠ S_ZOMBIE →
  let B := <[y := q1 ++ q2]> A in let A' := <[z := B z ++ [x]]> B in
  holds l' A' → sits s z h → nudged s cp →
  (∀ c h', cpu_ok None s A c (cpus (co s) c) h' → A' (Victims c) ≠ [] → th_in h' = true) →
  (∀ c, (c < ncpus (co s))%nat → c_idle (cp c) = true → A' (Runq c) ≠ [] → Z.testbit (c_ipi_pending (cp c)) IPI_UNIDLE = true ∨ c_woken (cp c) = true) →
  (∀ u hu, threads (co s) !! u = Some hu → th_state hu = S_ZOMBIE → A' (Hand u) = A (Hand u) ∨ (c_curthread (cpus (co s) (th_cpu hu)) = u ∧ th_in hu = true)) →
  inv None (with_cpus cp (with_lists l' s)) A' (<[x := On z]> pl).
Proof.
  intros HI Hx Hy Hz B A' Hl Hs Hn Hv Hq Hh. assert (x ∈ A y) as Hin by (rewrite Hy; apply elem_of_app; right; by left). destruct (i_listed _ _ _ _ HI _ _ Hin) as [_ Hpl].
  pose proof (inv_move s A pl x h z (th_cpu h) A' cp l' HI Hx (ex_intro _ y Hpl) Hz Hl (moved_elem _ _ _ z _ _ _ (i_lists _ _ _ _ HI) Hy)) as H.
  rewrite set_cpu_id, insert_id in H by done. apply H; try done. apply (i_thr _ _ _ _ HI _ _ Hx).
Qed.
Lemma called_same s A pl c : inv None s A pl → (c < ncpus (co s))%nat → ∀ cp, nudged s cp → c_idle (cp c) = true → A (Runq c) ≠ [] →
  Z.testbit (c_ipi_pending (cp c)) IPI_UNIDLE = true ∨ c_woken (cp c) = true.
Proof.
  intros HI Hc cp Hn Hi Hq. destruct (Hn c) as [_ E2 _ E4 E5 _ _ _]. rewrite E2 in Hi. rewrite E4. destruct (i_cpu _ _ _ _ HI c Hc) as [h K]. destruct (ck_called _ _ _ _ _ _ K Hi Hq); auto.
Qed.
Lemma nudged_refl s : nudged s (cpus (co s)).
Proof. intros d. apply nudge_refl. Qed.
Lemma with_cpus_id s : with_cpus (cpus (co s)) s = s.
Proof. by destruct s as [[] ?]. Qed.

(** * Wait channels *)
(** A current thread that is a zombie is in an interrupt handler, if the processor does anything. *)
Lemma cur_zombie s A pl c h : inv None s A pl → (c < ncpus (co s))%nat → cpu_ok None s A c (cpus (co s) c) h → (c_idle (cpus (co s) c) = true → th_in h = true) →
  ∀ u hu (X : Prop), threads (co s) !! u = Some hu → th_state hu = S_ZOMBIE → (u ≠ c_curthread (cpus (co s) c) → X) → X ∨ (c_curthread (cpus (co s) (th_cpu hu)) = u ∧ th_in hu = true).
Proof.
  intros HI Hc K Hb u hu X Hu Hz HX. destruct (decide (u = c_curthread (cpus (co s) c))) as [->|]; [|by left; apply HX]. right.
  assert (hu = h) as -> by (pose proof (ck_cur _ _ _ _ _ _ K); congruence). rewrite (ck_cpu _ _ _ _ _ _ K). split; [done|]. apply Hb. destruct (c_idle _) eqn:Hi; [done|].
  destruct (inv_cur _ _ _ _ _ HI Hc) as (h' & K' & Hr & _). destruct (Hr Hi) as [_ R]. assert (h' = h) as -> by (pose proof (ck_cur _ _ _ _ _ _ K'); congruence). destruct (rn_state _ _ _ _ _ R); congruence.
Qed.
Lemma inv_take s A pl c h w x q l' : inv None s A pl → (c < ncpus (co s))%nat → cpu_ok None s A c (cpus (co s) c) h → (c_idle (cpus (co s) c) = true → th_in h = true) → A (Chan w) = x :: q →
  let t := c_curthread (cpus (co s) c) in let B := <[Chan w := q]> A in holds l' (<[Hand t := B (Hand t) ++ [x]]> B) → inv None (with_lists l' s) (<[Hand t := B (Hand t) ++ [x]]> B) (<[x := On (Hand t)]> pl).
Proof.
  intros HI Hc K Hb Hq t B Hl. assert (x ∈ A (Chan w)) as Hin by (rewrite Hq; by left). destruct (i_listed _ _ _ _ HI _ _ Hin) as [[hx Hx] Hpl]. destruct (i_thr _ _ _ _ HI _ _ Hx) as [_ P]. rewrite Hpl in P. pose proof (pk_sits _ _ _ _ _ _ _ P) as Hs. simpl in Hs.
  rewrite <-(with_cpus_id (with_lists l' s)). apply (inv_shift s A pl x hx (Chan w) (Hand t) [] q (cpus (co s)) l'); try done.
  - by rewrite Hs.
  - split; [done|]. exists h. apply K.
  - intros d hd Kd. exact (ck_victims _ _ _ _ _ _ Kd).
  - intros d Hd. apply (called_same s A pl); [done|done|apply nudged_refl].
  - intros u hu Hu Hz. apply (cur_zombie s A pl c h HI Hc K Hb u hu _ Hu Hz). intros Hne. fold t in Hne. simpl. rewrite fn_lookup_insert_ne by congruence. done.
Qed.
(** The current thread and its processor are as before. *)
Definition steady (c : nat) s (s' : @sys L) : Prop :=
  ncpus (co s') = ncpus (co s) ∧ c_curthread (cpus (co s') c) = c_curthread (cpus (co s) c) ∧ c_idle (cpus (co s') c) = c_idle (cpus (co s) c) ∧
  threads (co s') !! c_curthread (cpus (co s) c) = threads (co s) !! c_curthread (cpus (co s) c) ∧ lo s' = lo s.
Lemma wp_take_loop c w n : ∀ s A pl h lw, inv None (Sys (co s) lw) A pl → (c < ncpus (co s))%nat → cpu_ok None (Sys (co s) lw) A c (cpus (co s) c) h → (c_idle (cpus (co s) c) = true → th_in h = true) →
  (length (A (Chan w)) < n)%nat → wp (take_loop n (c_curthread (cpus (co s) c)) w) (λ _ s', steady c s s' ∧ safe (Sys (co s') lw)) s.
Proof.
  induction n as [|n IH]; intros s A pl h lw HI Hc K Hb Hn; [lia|]. cbn [take_loop]. apply wp_bind_2. eapply (wp_rem_head _ s A); [apply HI|]. intros l. destruct (A (Chan w)) as [|x q] eqn:Hq; intros Hl.
  - apply wp_ret. split; [by split_and!|]. exists A, pl. exact (inv_lists None (Sys (co s) lw) A pl l HI Hl).
  - apply wp_bind_2. eapply (wp_add_tail _ _ _ (<[Chan w := q]> A)); [done| |eapply off_bound; [exact HI|rewrite Hq; simpl; lia]|].
    { intros y. exact (off_list _ A (Chan w) x [] q y (i_lists _ _ _ _ HI) Hq). }
    intros l' Hl'. pose proof (inv_take (Sys (co s) lw) A pl c h w x q l' HI Hc K Hb Hq Hl') as HI'.
    destruct (i_cpu _ _ _ _ HI' c Hc) as [h' K']. assert (h' = h) as -> by (pose proof (ck_cur _ _ _ _ _ _ K'); pose proof (ck_cur _ _ _ _ _ _ K); simpl in *; congruence).
    eapply wp_mono; [apply (IH (with_lists l' (with_lists l s)) _ _ h lw HI' Hc K' Hb)|].
    { rewrite fn_lookup_insert_ne, fn_lookup_insert by done. simpl in Hn. lia. }
    intros [] s' ((E1 & E2 & E3 & E4 & E5) & Hs). split; [by split_and!|done].
Qed.
Lemma sys_eta s : Sys (co s) (lo s) = s.
Proof. by destruct s. Qed.
Lemma wp_take_all c w s A pl h : inv None s A pl → (c < ncpus (co s))%nat → cpu_ok None s A c (cpus (co s) c) h → (c_idle (cpus (co s) c) = true → th_in h = true) →
  is_Some (locks (lo s) !! chan_lock w) → wp (take_all c w) (λ _, safe) s.
Proof.
  intros HI Hc K Hb Hw. destruct (cur_level _ _ _ _ _ HI Hc) as (n & l & Hl & _). unfold take_all. apply wp_bind_2, wp_gets. eapply wp_locked; [exact Hl|by eapply free_lock|]. apply wp_bind_2, wp_gets.
  eapply wp_mono; [eapply (wp_take_loop c w _ (to_lock (chan_lock w) (taken c) (to_level c (n + 1) l s)) A pl h (lo s))|].
  - cbn [to_lock to_level co]. by rewrite sys_eta.
  - done.
  - cbn [to_lock to_level co]. by rewrite sys_eta.
  - done.
  - cbn [to_lock to_level co]. rewrite (holds_num _ _ _ (i_lists _ _ _ _ HI)). lia.
  - intros [] s' ((E1 & E2 & _ & _ & E5) & Hs). done.
Qed.
Lemma wp_take_one c w s A pl h : inv None s A pl → (c < ncpus (co s))%nat → cpu_ok None s A c (cpus (co s) c) h → (c_idle (cpus (co s) c) = true → th_in h = true) →
  is_Some (locks (lo s) !! chan_lock w) → wp (take_one c w) (λ _, safe) s.
Proof.
  intros HI Hc K Hb Hw. destruct (cur_level _ _ _ _ _ HI Hc) as (n & l & Hl & _). unfold take_one. apply wp_bind_2, wp_gets. apply wp_bind_2. eapply wp_locked; [exact Hl|by eapply free_lock|].
  eapply (wp_rem_head _ _ A); [apply HI|]. intros lx. destruct (A (Chan w)) as [|x q] eqn:Hq; intros Hlx; (split; [done|split; [done|]]).
  - apply wp_ret. exists A, pl. exact (inv_lists None s A pl lx HI Hlx).
  - eapply (wp_add_tail _ _ _ (<[Chan w := q]> A)); [done| |eapply off_bound; [exact HI|rewrite Hq; simpl; lia]|].
    { intros y. exact (off_list _ A (Chan w) x [] q y (i_lists _ _ _ _ HI) Hq). }
    intros l' Hl'. eexists _, _. exact (inv_take s A pl c h w x q l' HI Hc K Hb Hq Hl').
Qed.
(** [thread_make_runnable] of a thread that is on no list. *)
Lemma wp_make_runnable c x s A h n l (Q : unit → sys → Prop) : at_level s c n l → threads (co s) !! x = Some h → let d := th_cpu h in
  locks (lo s) !! runq_lock d = Some spinlock_init → locks (lo s) !! ipi_lock d = Some spinlock_init → holds (tlists (co s)) A → (∀ y, x ∉ A y) → Z.of_nat (length (A (Runq d))) + 1 < 2 ^ 32 →
  (∀ l' cp, holds l' (<[Runq d := A (Runq d) ++ [x]]> A) → nudged s cp → (c_idle (cp d) = true → Z.testbit (c_ipi_pending (cp d)) IPI_UNIDLE = true) → Q tt (with_cpus cp (with_lists l' s))) →
  wp (thread_make_runnable c x false) Q s.
Proof.
  intros Hl Hx d Hr Hi HA Hn Hb HQ. unfold thread_make_runnable. apply wp_bind_2. eapply wp_thread_of; [exact Hx|]. fold d. eapply wp_locked; [exact Hl|exact Hr|]. apply wp_bind_2, wp_gets. apply wp_bind_2.
  eapply (wp_add_tail _ _ _ A); [done..|]. intros l' Hl'. cbn [to_lock to_level co]. destruct (c_idle (cpus (co s) d)) eqn:Hid.
  - eapply (wp_ipi_send c d IPI_UNIDLE _ (n + 1) l).
    + constructor; cbn [with_lists to_lock to_level co lo cpus levels irqs]; rewrite ?lookup_insert_eq; [done|done|]. pose proof (al_nonneg _ _ _ _ Hl). lia.
    + cbn [with_lists to_lock to_level lo locks]. rewrite lookup_insert_ne by (unfold runq_lock, ipi_lock; lia). exact Hi.
    + unfold IPI_UNIDLE. lia.
    + assert (nudged s (<[d := send_bit IPI_UNIDLE (cpus (co s) d)]> (cpus (co s)))) as Hnd by (apply (nudged_one s d (send_bit IPI_UNIDLE)), send_bit_nudge; by left).
      split; [done|]. split; [exact (nu_cur _ _ (Hnd c))|]. apply (HQ l' (<[d := send_bit IPI_UNIDLE (cpus (co s) d)]> (cpus (co s)))); [done|done|].
      intros _. rewrite fn_lookup_insert. unfold send_bit. cbn [set_pending c_ipi_pending]. rewrite Z.lor_spec. apply orb_true_r.
  - apply wp_ret. split; [done|]. split; [done|]. apply (HQ l' (cpus (co s))); [done|apply nudged_refl|]. by rewrite Hid.
Qed.
Lemma wp_deliver c s A pl h : inv None s A pl → (c < ncpus (co s))%nat → cpu_ok None s A c (cpus (co s) c) h → (c_idle (cpus (co s) c) = true → th_in h = true) → wp (deliver c) (λ _, safe) s.
Proof.
  intros HI Hc K Hb. destruct (cur_level _ _ _ _ _ HI Hc) as (n & l & Hl & _). unfold deliver. set (t := c_curthread (cpus (co s) c)). apply wp_bind_2, wp_gets. fold t. apply wp_bind_2. eapply (wp_rem_head _ _ A); [apply HI|]. intros lx.
  destruct (A (Hand t)) as [|x q] eqn:Hq; intros Hlx; [apply wp_ret; exists A, pl; by apply inv_lists|].
  assert (x ∈ A (Hand t)) as Hin by (rewrite Hq; by left). destruct (i_listed _ _ _ _ HI _ _ Hin) as [[hx Hx] Hpl]. destruct (i_thr _ _ _ _ HI _ _ Hx) as [Hd P]. rewrite Hpl in P. pose proof (pk_sits _ _ _ _ _ _ _ P) as [Hst _].
  apply wp_bind_2. eapply (wp_make_runnable c x _ (<[Hand t := q]> A) hx n l); [destruct Hl; by constructor|done|exact (runq_free _ _ _ _ HI Hd)|exact (ipi_free _ _ _ _ _ HI Hd)|done| |eapply off_bound; [exact HI|rewrite Hq; simpl; lia]|].
  { intros y. exact (off_list _ A (Hand t) x [] q y (i_lists _ _ _ _ HI) Hq). }
  intros l' cp Hl' Hn Hcall. apply wp_ret. eexists _, _. apply (inv_shift s A pl x hx (Hand t) (Runq (th_cpu hx)) [] q cp l' HI Hx Hq); try done.
  - by rewrite Hst.
  - split; [done|]. by right.
  - intros d hd Kd. exact (ck_victims _ _ _ _ _ _ Kd).
  - intros d Hd' Hi Hr. destruct (decide (d = th_cpu hx)) as [->|Hne]; [left; by apply Hcall|]. rewrite !fn_lookup_insert_ne in Hr by congruence. by apply (called_same s A pl).
  - intros u hu Hu Hz. apply (cur_zombie s A pl c h HI Hc K Hb u hu _ Hu Hz). intros Hne. fold t in Hne. rewrite !fn_lookup_insert_ne by congruence. done.
Qed.

(** * Migration *)
Lemma queued_live h : queued h → th_state h ≠ S_ZOMBIE.
Proof. by intros [->| ->]. Qed.
Lemma moved_head l A y z x q1 q2 : holds l A → A y = q1 ++ x :: q2 → let B := <[y := q1 ++ q2]> A in
  ∀ v u, u ∈ (<[z := x :: B z]> B) v ↔ if decide (u = x) then v = z else u ∈ A v.
Proof.
  intros Hl Hy B v u. rewrite <-(moved_elem l A y z x q1 q2 Hl Hy v u). fold B. destruct (decide (z = v)) as [->|]; [|by rewrite !fn_lookup_insert_ne].
  rewrite !fn_lookup_insert, elem_of_cons, elem_of_app, list_elem_of_singleton. tauto.
Qed.
Lemma wp_grab c s A pl h : inv None s A pl → (c < ncpus (co s))%nat → cpu_ok None s A c (cpus (co s) c) h → th_in h = true → A (Runq c) ≠ [] → wp (grab c) (λ _, safe) s.
Proof.
  intros HI Hc K Hin Hq. destruct (cur_level _ _ _ _ _ HI Hc) as (n & l & Hl & _). destruct (exists_last Hq) as (q & x & Eq). unfold grab. eapply wp_locked; [exact Hl|by eapply runq_free|]. apply wp_bind_2.
  eapply (wp_rem_tail _ _ A q x); [apply HI|done|]. intros lx Hlx. apply wp_bind_2. eapply wp_of_opt; [done|].
  assert (A (Runq c) = q ++ x :: []) as Eq' by done. rewrite <-(app_nil_r q) in Hlx. assert (x ∈ A (Runq c)) as Hx by (rewrite Eq; apply elem_of_app; right; by left).
  destruct (i_listed _ _ _ _ HI _ _ Hx) as [[hx Ht] Hpl]. destruct (i_thr _ _ _ _ HI _ _ Ht) as [Hd P]. rewrite Hpl in P. pose proof (pk_sits _ _ _ _ _ _ _ P) as Hst.
  eapply (wp_add_head _ _ _ (<[Runq c := q ++ []]> A)); [done| |eapply off_bound; [exact HI|rewrite Eq, !length_app; simpl; lia]|].
  { intros y. exact (off_list _ A (Runq c) x q [] y (i_lists _ _ _ _ HI) Eq'). }
  intros l' Hl'. split; [done|]. split; [done|]. eexists _, _.
  pose proof (inv_move s A pl x hx (Victims c) (th_cpu hx) _ (cpus (co s)) l' HI Ht (ex_intro _ _ Hpl) (queued_live _ (proj2 Hst)) Hl' (moved_head _ A (Runq c) (Victims c) x q [] (i_lists _ _ _ _ HI) Eq') Hd ltac:(done)) as H.
  rewrite set_cpu_id, insert_id in H by done. apply H; try done.
  - intros d hd Kd Hv. destruct (decide (d = c)) as [->|Hne]; [by rewrite (cpu_ok_again _ _ _ _ _ _ _ _ _ K Kd (ck_cur _ _ _ _ _ _ K))|]. apply (ck_victims _ _ _ _ _ _ Kd). by rewrite !fn_lookup_insert_ne in Hv by congruence.
  - intros d Hd' Hi Hr. apply (called_same s A pl); [done|done|apply nudged_refl|done|]. destruct (decide (d = c)) as [->|Hne]; [done|]. by rewrite !fn_lookup_insert_ne in Hr by congruence.
  - intros u hu Hu Hz. left. by rewrite !fn_lookup_insert_ne.
Qed.
Lemma head_victim s A pl c x q : inv None s A pl → A (Victims c) = x :: q → ∃ hx, threads (co s) !! x = Some hx ∧ (th_cpu hx < ncpus (co s))%nat ∧ th_cpu hx = c ∧ queued hx ∧ pl x = On (Victims c).
Proof.
  intros HI Hq. assert (x ∈ A (Victims c)) as Hx by (rewrite Hq; by left). destruct (i_listed _ _ _ _ HI _ _ Hx) as [[hx Ht] Hpl]. destruct (i_thr _ _ _ _ HI _ _ Ht) as [Hd P]. rewrite Hpl in P.
  destruct (pk_sits _ _ _ _ _ _ _ P). by exists hx.
Qed.
Lemma wp_give_back c s A pl h : inv None s A pl → (c < ncpus (co s))%nat → cpu_ok None s A c (cpus (co s) c) h → th_in h = true → wp (give_back c) (λ _, safe) s.
Proof.
  intros HI Hc K Hin. destruct (cur_level _ _ _ _ _ HI Hc) as (n & l & Hl & _). unfold give_back. eapply wp_locked; [exact Hl|exact (runq_free _ _ _ _ HI Hc)|]. apply wp_bind_2. eapply (wp_rem_head _ _ A); [apply HI|]. intros lx.
  destruct (A (Victims c)) as [|x q] eqn:Hq; intros Hlx; [apply wp_ret; split; [done|]; split; [done|]; exists A, pl; exact (inv_lists None s A pl lx HI Hlx)|]. destruct (head_victim _ _ _ _ _ _ HI Hq) as (hx & Ht & Hd & Hcpu & Hst & _).
  eapply (wp_add_tail _ _ _ (<[Victims c := q]> A)); [done| |eapply off_bound; [exact HI|rewrite Hq; simpl; lia]|].
  { intros y. exact (off_list _ A (Victims c) x [] q y (i_lists _ _ _ _ HI) Hq). }
  intros l' Hl'. split; [done|]. split; [done|]. eexists _, _. apply (inv_shift s A pl x hx (Victims c) (Runq c) [] q (cpus (co s)) l' HI Ht Hq); try done.
  - by apply queued_live.
  - intros d hd Kd Hv. destruct (decide (d = c)) as [->|Hne]; [by rewrite (cpu_ok_again _ _ _ _ _ _ _ _ _ K Kd (ck_cur _ _ _ _ _ _ K))|]. apply (ck_victims _ _ _ _ _ _ Kd). by rewrite !fn_lookup_insert_ne in Hv by congruence.
  - intros d Hd' Hi Hr. destruct (decide (d = c)) as [->|Hne]; [right; pose proof (ck_woken _ _ _ _ _ _ K Hi Hin) as Hw; by rewrite decide_False in Hw|].
    apply (called_same s A pl); [done|done|apply nudged_refl|done|]. by rewrite !fn_lookup_insert_ne in Hr by congruence.
  - intros u hu Hu Hz. left. by rewrite !fn_lookup_insert_ne.
Qed.
Lemma wp_give c d s A pl h : inv None s A pl → (c < ncpus (co s))%nat → cpu_ok None s A c (cpus (co s) c) h → th_in h = true → A (Victims c) ≠ [] → (d < ncpus (co s))%nat → d ≠ c → wp (give c d) (λ _, safe) s.
Proof.
  intros HI Hc K Hin Hv Hd Hdc. destruct (cur_level _ _ _ _ _ HI Hc) as (n & l & Hl & _). unfold give. set (me := c_curthread (cpus (co s) c)). apply wp_bind_2, wp_gets. fold me. eapply wp_locked; [exact Hl|exact (runq_free _ _ _ _ HI Hd)|]. apply wp_bind_2. eapply (wp_rem_head _ _ A); [apply HI|]. intros lx.
  destruct (A (Victims c)) as [|x q] eqn:Hq; intros Hlx; [done|]. destruct (head_victim _ _ _ _ _ _ HI Hq) as (hx & Ht & Hdx & Hcpu & Hst & Hpl). apply wp_bind_2. eapply wp_of_opt; [done|].
  assert (∀ y, x ∉ (<[Victims c := q]> A) y) as Hoff by (intros y; exact (off_list _ A (Victims c) x [] q y (i_lists _ _ _ _ HI) Hq)).
  assert (∀ z, Z.of_nat (length ((<[Victims c := q]> A) z)) + 1 < 2 ^ 32) as Hbd by (intros z; eapply off_bound; [exact HI|rewrite Hq; simpl; lia]).
  assert (∀ e he v, cpu_ok None s A e (cpus (co s) e) he → (e ≠ c → v = A (Victims e)) → v ≠ [] → th_in he = true) as Hvic.
  { intros e he v Ke Ev Hne. destruct (decide (e = c)) as [->|Hec]; [by rewrite (cpu_ok_again _ _ _ _ _ _ _ _ _ K Ke (ck_cur _ _ _ _ _ _ K))|]. apply (ck_victims _ _ _ _ _ _ Ke). by rewrite <-Ev. }
  case_decide as Hme.
  - eapply (wp_add_tail _ _ _ (<[Victims c := q]> A)); [done..|]. intros l' Hl'. split; [done|]. split; [done|]. eexists _, _. apply (inv_shift s A pl x hx (Victims c) (Victims c) [] q (cpus (co s)) l' HI Ht Hq); try done.
    + by apply queued_live.
    + intros e he Ke. apply (Hvic e he _ Ke). intros Hec. rewrite !fn_lookup_insert_ne by congruence. done.
    + intros e He Hi Hr. apply (called_same s A pl); [done|done|apply nudged_refl|done|]. by rewrite !fn_lookup_insert_ne in Hr.
    + intros u hu Hu Hz. left. by rewrite !fn_lookup_insert_ne.
  - apply wp_bind_2. eapply wp_upd_thread; [exact Ht|]. apply wp_bind_2. eapply (wp_add_tail _ _ _ (<[Victims c := q]> A)); [done|done|apply Hbd|].
    intros l' Hl'. apply wp_bind_2, wp_gets. cbn [with_lists with_thread to_lock to_level co cpus].
    assert (∀ cp, nudged s cp → (c_idle (cp d) = true → Z.testbit (c_ipi_pending (cp d)) IPI_UNIDLE = true) → safe (Sys (Core (ncpus (co s)) (<[x := set_cpu d hx]> (threads (co s))) cp l') (lo s))) as Hend.
    { intros cp Hn Hcall. eexists _, _. eapply (inv_move s A pl x hx (Runq d) d _ cp l' HI Ht (ex_intro _ _ Hpl) (queued_live _ Hst) Hl').
      - exact (moved_elem _ A (Victims c) (Runq d) x [] q (i_lists _ _ _ _ HI) Hq).
      - done.
      - intros _. rewrite Hcpu. fold me. congruence.
      - by split.
      - done.
      - intros e he Ke. apply (Hvic e he _ Ke). intros Hec. rewrite !fn_lookup_insert_ne by congruence. done.
      - intros e He Hi Hr. destruct (decide (e = d)) as [->|Hed]; [left; by apply Hcall|]. rewrite !fn_lookup_insert_ne in Hr by congruence. by apply (called_same s A pl).
      - intros u hu Hu Hz. left. by rewrite !fn_lookup_insert_ne. }
    destruct (c_idle (cpus (co s) d)) eqn:Hid.
    + eapply (wp_ipi_send c d IPI_UNIDLE _ (n + 1) l).
      * constructor; cbn [with_lists with_thread to_lock to_level co lo cpus levels irqs]; rewrite ?lookup_insert_eq; [done|done|]. pose proof (al_nonneg _ _ _ _ Hl). lia.
      * cbn [with_lists with_thread to_lock to_level lo locks]. rewrite lookup_insert_ne by (unfold runq_lock, ipi_lock; lia). exact (ipi_free _ _ _ _ _ HI Hd).
      * unfold IPI_UNIDLE. lia.
      * assert (nudged s (<[d := send_bit IPI_UNIDLE (cpus (co s) d)]> (cpus (co s)))) as Hnd by (apply (nudged_one s d (send_bit IPI_UNIDLE)), send_bit_nudge; by left).
        split; [done|]. split; [exact (nu_cur _ _ (Hnd c))|]. apply Hend; [done|]. intros _. rewrite fn_lookup_insert. unfold send_bit. cbn [set_pending c_ipi_pending]. rewrite Z.lor_spec. apply orb_true_r.
    + apply wp_ret. split; [done|]. split; [done|]. apply (Hend (cpus (co s))); [apply nudged_refl|]. by rewrite Hid.
Qed.

(** * New threads *)
Lemma inv_fork s A pl c h n a cp l' : inv None s A pl → (c < ncpus (co s))%nat → cpu_ok None s A c (cpus (co s) c) h → threads (co s) !! n = None → Z.of_nat (size (threads (co s))) + 2 < 2 ^ 32 → nudged s cp →
  (c_idle (cp c) = true → Z.testbit (c_ipi_pending (cp c)) IPI_UNIDLE = true) → holds l' (<[Runq c := A (Runq c) ++ [n]]> A) →
  inv None (Sys (Core (ncpus (co s)) (<[n := Thr S_READY c Startup a false]> (threads (co s))) cp l') (Low (<[n := (2, 1)]> (levels (lo s))) (irqs (lo s)) (locks (lo s))))
    (<[Runq c := A (Runq c) ++ [n]]> A) (<[n := On (Runq c)]> pl).
Proof.
  intros HI Hc K Hn Hsz Hnu Hcall Hl. set (A' := <[Runq c := A (Runq c) ++ [n]]> A) in *.
  assert (∀ y u, u ∈ A' y ↔ (u = n ∧ y = Runq c) ∨ u ∈ A y) as HA.
  { intros y u. unfold A'. destruct (decide (Runq c = y)) as [<-|]; [rewrite fn_lookup_insert, elem_of_app, list_elem_of_singleton|rewrite fn_lookup_insert_ne by done]; naive_solver. }
  assert (∀ d, (d < ncpus (co s))%nat → c_curthread (cpus (co s) d) ≠ n) as Hcur. { intros d Hd E. destruct (i_cpu _ _ _ _ HI d Hd) as [hd Kd]. pose proof (ck_cur _ _ _ _ _ _ Kd). congruence. }
  constructor; cbn [co lo threads cpus ncpus tlists locks]; try apply HI.
  - done.
  - intros y u Hu. apply HA in Hu as [[-> ->]|Hu]; [rewrite lookup_insert_eq, fn_lookup_insert; by eauto|]. destruct (i_listed _ _ _ _ HI y u Hu) as [[hu Hu'] ?]. assert (n ≠ u) by congruence. rewrite fn_lookup_insert_ne by done. split; [by apply insert_some|done].
  - intros u hu. destruct (decide (u = n)) as [->|Hne].
    + rewrite lookup_insert_eq. intros [= <-]. split; [done|]. rewrite fn_lookup_insert. cbn [th_cpu co cpus]. constructor; cbn [lo levels th_state th_in]; rewrite ?(nu_cur _ _ (Hnu c)).
      * apply HA. by left.
      * split; [done|]. by left.
      * unfold saved. simpl. rewrite (nu_cur _ _ (Hnu c)). split; [done|]. split; [done|]. by apply Hcur.
      * intros E. by destruct (Hcur c Hc).
      * rewrite lookup_insert_eq, decide_False; [done|]. by apply Hcur.
      * done.
    + rewrite lookup_insert_ne by done. intros Hu. destruct (i_thr _ _ _ _ HI u hu Hu) as [Hcl P]. split; [done|]. rewrite fn_lookup_insert_ne by done. cbn [co cpus]. destruct (Hnu (th_cpu hu)) as [N1 N2 N3 _ _ _ _ _]. destruct (pl u) as [y|d].
      * eapply parked_frame; [exact P| | |done|done| |].
        -- apply HA. right. apply P.
        -- eapply sits_more; [|apply P]. intros ?. apply insert_some.
        -- simpl. by apply lookup_insert_ne.
        -- intros _. left. unfold A'. by rewrite fn_lookup_insert_ne.
      * eapply running_frame; [exact P|done|done|done| |done]. simpl. by apply lookup_insert_ne.
  - intros d Hd. destruct (i_cpu _ _ _ _ HI d Hd) as [hd Kd]. exists hd. destruct (Hnu d) as [N1 N2 N3 N4 N5 N6 N7 N8], Kd as [K1 K2 K3 K4 K5 K6 K7 [K8 K8'] K9]. constructor; cbn [co lo threads cpus irqs]; rewrite ?N1, ?N2, ?N4, ?N6, ?N7; try done.
    + rewrite lookup_insert_ne by (intros E; by destruct (Hcur d Hd)). done.
    + intros Hi Hr _. destruct (decide (d = c)) as [->|Hdc]; [left; apply Hcall; congruence|]. unfold A' in Hr. rewrite fn_lookup_insert_ne in Hr by congruence. destruct K6; auto.
    + by apply N8.
  - rewrite map_size_insert_None by done. lia.
Qed.
Lemma wp_fork c n a s A pl h : inv None s A pl → (c < ncpus (co s))%nat → cpu_ok None s A c (cpus (co s) c) h → threads (co s) !! n = None → Z.of_nat (size (threads (co s))) + 2 < 2 ^ 32 → wp (start_thread c n a) (λ _, safe) s.
Proof.
  intros HI Hc K Hn Hsz. destruct (cur_level _ _ _ _ _ HI Hc) as (m & l & Hl & _). unfold start_thread. apply wp_bind_2, wp_gets, wp_bind_2. eapply wp_thread_of; [apply K|]. rewrite (ck_cpu _ _ _ _ _ _ K). apply wp_bind_2, wp_get, wp_bind_2.
  rewrite decide_False by (rewrite Hn; by intros []). apply wp_ret. apply wp_bind_2, wp_put. assert (c_curthread (cpus (co s) c) ≠ n) as Hcn by (pose proof (ck_cur _ _ _ _ _ _ K); congruence).
  eapply (wp_make_runnable c n _ A (Thr S_READY c Startup a false) m l); cbn [co lo threads cpus locks tlists th_cpu].
  - destruct Hl. constructor; try done. cbn [co lo cpus levels]. by rewrite lookup_insert_ne.
  - apply lookup_insert_eq.
  - by eapply runq_free.
  - by eapply ipi_free.
  - apply HI.
  - intros y Hy. destruct (i_listed _ _ _ _ HI y n Hy) as [[? ?] _]. congruence.
  - by eapply list_bound.
  - intros l' cp Hl' Hnu Hcall. eexists _, _. by apply (inv_fork s A pl c h n a cp l').
Qed.

(** * Interrupts *)
Lemma inv_one s A pl c f : inv None s A pl → let k := cpus (co s) c in
  c_curthread (f k) = c_curthread k → c_idle (f k) = c_idle k → (c_woken k = true → c_woken (f k) = true) →
  (Z.testbit (c_ipi_pending k) IPI_PANIC = false ∧ Z.testbit (c_ipi_pending k) IPI_OFFLINE = false → Z.testbit (c_ipi_pending (f k)) IPI_PANIC = false ∧ Z.testbit (c_ipi_pending (f k)) IPI_OFFLINE = false) →
  (shoot_ok k → shoot_ok (f k)) → (∀ h, threads (co s) !! c_curthread k = Some h → running s k (c_curthread k) h c → th_as h ≠ 0 → Forall (λ a, a = th_as h) (c_tlb (f k))) →
  (Z.testbit (c_ipi_pending k) IPI_UNIDLE = true ∨ c_woken k = true → Z.testbit (c_ipi_pending (f k)) IPI_UNIDLE = true ∨ c_woken (f k) = true) →
  inv None (with_cpu c f s) A pl.
Proof.
  intros HI k H1 H2 H3 H4 H5 H6 H7. apply (inv_cpus None s A pl (<[c := f k]> (cpus (co s))) HI).
  - intros d _. destruct (decide (c = d)) as [<-|]; [by rewrite fn_lookup_insert|by rewrite fn_lookup_insert_ne].
  - intros d Hd. destruct (i_cpu _ _ _ _ HI d Hd) as [h K]. destruct (decide (c = d)) as [<-|]; [rewrite fn_lookup_insert|rewrite fn_lookup_insert_ne by done; split; apply K]. split; [apply H4, K|apply H5, K].
  - intros d h Hd Ht R Ha. destruct (decide (c = d)) as [<-|]; [rewrite fn_lookup_insert; by apply H6|rewrite fn_lookup_insert_ne by done; by apply R].
  - intros d Hd Hi Hr _. destruct (i_cpu _ _ _ _ HI d Hd) as [h K]. destruct (decide (c = d)) as [<-|].
    + rewrite fn_lookup_insert in *. apply H7. exact (ck_called _ _ _ _ _ _ K (eq_trans (eq_sym H2) Hi) Hr ltac:(done)).
    + rewrite fn_lookup_insert_ne in * by done. by apply (ck_called _ _ _ _ _ _ K).
Qed.
Lemma inv_woken s A pl c : inv None s A pl → inv None (with_cpu c set_woken s) A pl.
Proof. intros HI. apply inv_one; try done. - intros h _ R. apply R. - intros _. by right. Qed.

Lemma wp_irq_enter c s A pl h : inv None s A pl → (c < ncpus (co s))%nat → cpu_ok None s A c (cpus (co s) c) h →
  (c_idle (cpus (co s) c) = false → irqs (lo s) !! c = Some true) → wp (irq_enter c) (λ _, safe) s.
Proof.
  intros HI Hc K Hb. set (t := c_curthread (cpus (co s) c)). pose proof (ck_cur _ _ _ _ _ _ K) as Ht. fold t in Ht. unfold irq_enter. apply wp_bind_2, wp_gets. fold t. apply wp_bind_2. eapply wp_upd_thread; [exact Ht|]. apply wp_bind_2, wp_modify.
  destruct (cur_level _ _ _ _ _ HI Hc) as (n & l & Hl & _ & Hid & Hac).
  assert (∀ s1, inv None s1 A pl → co s1 = co s → levels (lo s1) !! t = Some (1, 1) → safe (Sys (Core (ncpus (co s)) (<[t := set_in_irq true h]> (threads (co s))) (<[c := set_woken (cpus (co s) c)]> (cpus (co s))) (tlists (co s))) (lo s1))) as Hend.
  { intros s1 HI1 E1 Hlv. exists A, pl. pose proof (inv_woken s1 A pl c HI1) as HI2. destruct (i_cpu _ _ _ _ HI2 c ltac:(simpl; by rewrite E1)) as [h2 K2].
    assert (c_curthread (cpus (co (with_cpu c set_woken s1)) c) = t) as Ec by (simpl; rewrite fn_lookup_insert, E1; done).
    assert (h2 = h) as -> by (pose proof (ck_cur _ _ _ _ _ _ K2) as E; rewrite Ec in E; simpl in E; rewrite E1 in E; congruence).
    pose proof (inv_set_in _ A pl c h true HI2 ltac:(simpl; by rewrite E1) K2 ltac:(done)) as H3. rewrite Ec in H3. simpl in H3. rewrite E1, fn_lookup_insert in H3. apply H3; done. }
  destruct (c_idle (cpus (co s) c)) eqn:Hi.
  - destruct (Hid eq_refl) as [-> ->]. change (idle_level None c) with 1 in Hl. eapply (wp_on_spl c _ _ 1 1 tt 1 1); [|reflexivity|].
    + constructor; [|apply Hl|done]. cbn [with_thread co lo cpus]. rewrite fn_lookup_insert. apply Hl.
    + pose proof (Hend s HI eq_refl (al_level _ _ _ _ Hl)) as H. destruct s as [co0 [lv ir lk]]. unfold to_level. cbn [with_thread co lo cpus levels irqs locks] in *. rewrite fn_lookup_insert. cbn [set_woken c_curthread]. rewrite (insert_id lv), (insert_id ir); [exact H|apply Hl|apply Hl].
  - rewrite (Hac eq_refl) in *. assert (l = 0) as ->. { pose proof (al_irq _ _ _ _ Hl) as E. rewrite (Hb eq_refl) in E. injection E as E. symmetry in E. by apply Z.eqb_eq in E. }
    eapply (wp_on_spl c _ _ 0 0 tt 1 1); [|reflexivity|].
    + constructor; [|apply Hl|done]. cbn [with_thread co lo cpus]. rewrite fn_lookup_insert. apply Hl.
    + pose proof (inv_level s A pl c h 1 HI Hc K Hi ltac:(by right) ltac:(done)) as HI1. pose proof (Hend _ HI1 eq_refl ltac:(apply lookup_insert_eq)) as H. unfold to_level in *. cbn [with_thread co lo cpus levels irqs locks] in *. rewrite fn_lookup_insert. exact H.
Qed.
Lemma wp_irq_leave c s A pl h : inv None s A pl → (c < ncpus (co s))%nat → cpu_ok None s A c (cpus (co s) c) h → th_in h = true → A (Victims c) = [] →
  (c_idle (cpus (co s) c) = true → A (Hand (c_curthread (cpus (co s) c))) = []) → wp (irq_leave c (negb (c_idle (cpus (co s) c)))) (λ _, safe) s.
Proof.
  intros HI Hc K Hin Hv Hh. set (t := c_curthread (cpus (co s) c)) in *. pose proof (ck_cur _ _ _ _ _ _ K) as Ht. fold t in Ht. unfold irq_leave. apply wp_bind_2, wp_gets. fold t.
  pose proof (inv_set_in s A pl c h false HI Hc K (λ _, conj Hv Hh) ltac:(done) ltac:(done)) as HI'. fold t in HI'. destruct (c_idle (cpus (co s) c)) eqn:Hi; cbn [negb]; apply wp_bind_2.
  - apply wp_ret. eapply wp_upd_thread; [exact Ht|]. exists A, pl. exact HI'.
  - destruct (inv_cur _ _ _ _ _ HI Hc) as (h0 & K0 & Hr & _). destruct (Hr Hi) as [_ R]. assert (h0 = h) as -> by (pose proof (ck_cur _ _ _ _ _ _ K0) as E; fold t in E; congruence).
    destruct (rn_level _ _ _ _ _ R) as (l & L1 & L2 & L3 & L4). rewrite (L4 Hin) in *. eapply (wp_on_spl c _ _ 1 1 tt 0 0); [by constructor|reflexivity|]. eapply wp_upd_thread; [exact Ht|]. exists A, pl.
    assert (cpu_ok None (with_thread t (set_in_irq false h) s) A c (cpus (co s) c) (set_in_irq false h)) as K'. { destruct K. constructor; try done. apply lookup_insert_eq. }
    exact (inv_level _ A pl c _ 0 HI' Hc K' Hi ltac:(by left) ltac:(done)).
Qed.
Lemma wp_raise c s A pl h spl : inv None s A pl → (c < ncpus (co s))%nat → cpu_ok None s A c (cpus (co s) c) h → c_idle (cpus (co s) c) = false → th_in h = false → spl = 0 ∨ spl = 1 → wp (on_spl c (splx spl)) (λ _, safe) s.
Proof.
  intros HI Hc K Hi Hin Hspl. destruct (cur_level _ _ _ _ _ HI Hc) as (n & l & Hl & Hb & _ & Hac). rewrite (Hac Hi) in *. assert (l = 0 ∨ l = 1) as Hl01 by lia.
  assert (safe (to_level c spl spl s)) as Hs by (exists A, pl; eapply inv_level; [done|done|exact K|done|done|congruence]).
  destruct Hl01 as [->| ->].
  - destruct Hspl as [->| ->]; [eapply (wp_on_spl c _ _ 0 0 0 0 0); [done|reflexivity|done]|]. eapply (splhigh_in s c 0); [done|by left|done].
  - eapply wp_splx; [done|lia|done|]. intros r. by destruct Hspl as [->| ->].
Qed.
Lemma wp_tlb_flush c s n (Q : unit → sys → Prop) : at_level s c n 1 → 1 ≤ n → Q tt (with_cpu c (set_tlb []) s) → wp (tlb_flush c) Q s.
Proof.
  intros Hl Hn HQ. unfold tlb_flush. apply wp_bind_2. eapply wp_cpu_splhigh; [exact Hl|by right|]. change (1 =? 0) with false. cbv iota. rewrite (to_level_same _ _ _ _ Hl). apply wp_bind_2, wp_modify.
  assert (at_level (with_cpu c (set_tlb []) s) c n 1) as Hl'. { destruct Hl. constructor; try done. cbn [with_cpu co lo cpus]. by rewrite fn_lookup_insert. }
  apply wp_bind_2. eapply wp_splx; [exact Hl'|done|by right|]. intros r. apply wp_ret. change (1 =? 0) with false. cbv iota. change (Q tt (to_level c n 1 (with_cpu c (set_tlb []) s))). by rewrite (to_level_same _ _ _ _ Hl').
Qed.
Lemma in_level s A pl c h : inv None s A pl → (c < ncpus (co s))%nat → cpu_ok None s A c (cpus (co s) c) h → th_in h = true → at_level s c 1 1.
Proof.
  intros HI Hc K Hin. destruct (cur_level _ _ _ _ _ HI Hc) as (n & l & Hl & _ & Hid & _). destruct (c_idle (cpus (co s) c)) eqn:Hi; [by destruct (Hid eq_refl) as [-> ->]|].
  destruct (inv_cur _ _ _ _ _ HI Hc) as (h0 & K0 & Hr & _). destruct (Hr Hi) as [_ R]. assert (h0 = h) as -> by (pose proof (ck_cur _ _ _ _ _ _ K0); pose proof (ck_cur _ _ _ _ _ _ K); congruence).
  destruct (rn_level _ _ _ _ _ R) as (l' & L1 & L2 & _ & L4). rewrite (L4 Hin) in *. by constructor.
Qed.
Lemma wp_ipi c s A pl h : inv None s A pl → (c < ncpus (co s))%nat → cpu_ok None s A c (cpus (co s) c) h → th_in h = true → wp (interprocessor_interrupt c) (λ _, safe) s.
Proof.
  intros HI Hc K Hin. set (k := cpus (co s) c). pose proof (in_level _ _ _ _ _ HI Hc K Hin) as Hl. destruct (ck_bits _ _ _ _ _ _ K) as [B0 B1]. pose proof (ck_shoot _ _ _ _ _ _ K) as Hsh. fold k in B0, B1, Hsh.
  assert (c_idle k = true → c_woken k = true) as Hw by (intros Hi; pose proof (ck_woken _ _ _ _ _ _ K Hi Hin) as W; by rewrite decide_False in W).
  assert (∀ cp, (∀ d, d ≠ c → cp d = cpus (co s) d) → c_curthread (cp c) = c_curthread k → c_idle (cp c) = c_idle k → c_woken (cp c) = c_woken k → c_ipi_pending (cp c) = 0 → c_numshootdown (cp c) = 0 →
    (c_tlb (cp c) = c_tlb k ∨ c_tlb (cp c) = []) → safe (with_cpus cp s)) as Hend.
  { intros cp Ho E1 E2 E3 E4 E5 E6. exists A, pl. apply inv_cpus; [done|..].
    - intros d _. destruct (decide (d = c)) as [->|]; [by rewrite E1, E2, E3|by rewrite Ho].
    - intros d Hd. destruct (i_cpu _ _ _ _ HI d Hd) as [hd Kd]. destruct (decide (d = c)) as [->|]; [|rewrite Ho by done; split; apply Kd]. rewrite E4. split; [done|by left].
    - intros d hd Hd _ R Ha. destruct (decide (d = c)) as [->|]; [|rewrite Ho by done; by apply R]. destruct E6 as [->| ->]; [by apply R|done].
    - intros d Hd Hi Hr _. destruct (i_cpu _ _ _ _ HI d Hd) as [hd Kd]. destruct (decide (d = c)) as [->|]; [right; rewrite E2 in Hi; rewrite E3; by apply Hw|rewrite Ho in * by done; by apply (ck_called _ _ _ _ _ _ Kd)]. }
  unfold interprocessor_interrupt. apply wp_bind_2. eapply wp_cpu_acquire; [exact Hl|exact (ipi_free _ _ _ _ _ HI Hc)|]. apply wp_bind_2, wp_gets. cbn [to_lock to_level co]. fold k. rewrite B0, B1. change (1 + 1) with 2.
  set (s1 := to_lock _ _ _). assert (at_level s1 c 2 1) as Hl1 by (constructor; [apply lookup_insert_eq|apply lookup_insert_eq|done]).
  assert (∀ cp s2, s2 = with_cpus cp s1 → (∀ d, d ≠ c → cp d = cpus (co s) d) → c_curthread (cp c) = c_curthread k → c_idle (cp c) = c_idle k → c_woken (cp c) = c_woken k → c_numshootdown (cp c) = 0 →
    (c_tlb (cp c) = c_tlb k ∨ c_tlb (cp c) = []) → wp (upd_cpu c (set_pending 0);; release c (ipi_lock c)) (λ _, safe) s2) as Hfin.
  { intros cp s2 -> Ho E1 E2 E3 E5 E6. apply wp_bind_2, wp_modify. eapply (wp_cpu_release c _ _ 2 1).
    - destruct Hl1. constructor; try done. cbn [with_cpus co lo cpus]. rewrite fn_lookup_insert. cbn [set_pending c_curthread]. by rewrite E1.
    - lia.
    - apply lookup_insert_eq.
    - assert (to_lock (ipi_lock c) spinlock_init (to_level c (2 - 1) 1 (Sys (Core (ncpus (co (with_cpus cp s1))) (threads (co (with_cpus cp s1))) (<[c := set_pending 0 (cpus (co (with_cpus cp s1)) c)]> (cpus (co (with_cpus cp s1)))) (tlists (co (with_cpus cp s1)))) (lo (with_cpus cp s1)))) =
        with_cpus (<[c := set_pending 0 (cp c)]> cp) s) as ->.
      + pose proof (ipi_free _ _ _ _ _ HI Hc) as Hf. destruct Hl as [L1 L2 _]. unfold s1, to_lock, to_level, with_cpus. cbn [co lo cpus levels irqs locks ncpus threads tlists]. rewrite fn_lookup_insert. cbn [set_pending c_curthread]. rewrite E1. unfold k.
        destruct s as [co0 [lv ir lk]]. cbn [co lo levels irqs locks] in *. by rewrite !insert_insert_eq, !insert_id.
      + apply Hend; rewrite ?fn_lookup_insert; try done. intros d Hd. rewrite fn_lookup_insert_ne by done. by apply Ho. }
  destruct (Z.testbit (c_ipi_pending k) IPI_TLBSHOOTDOWN) eqn:Hbit.
  - apply wp_bind_2, wp_bind_2. destruct (Z.eqb_spec (c_numshootdown k) TLBSHOOTDOWN_ALL) as [Ea|Ea].
    + eapply wp_tlb_flush; [exact Hl1|lia|]. apply wp_modify. eapply Hfin; [reflexivity|..]; cbn [with_cpu co cpus]; rewrite ?fn_lookup_insert; try done; [|by right]. intros d Hd. by rewrite !fn_lookup_insert_ne.
    + assert (c_numshootdown k = 0) as -> by (destruct Hsh as [?|[? _]]; [done|by destruct Ea]). apply wp_ret, wp_modify. eapply Hfin; [reflexivity|..]; cbn [with_cpu co cpus]; rewrite ?fn_lookup_insert; try done; [|by left]. intros d Hd. by rewrite !fn_lookup_insert_ne.
  - apply wp_bind_2, wp_ret. apply (Hfin (cpus (co s))); try done; [by destruct s as [[] ?]| |by left]. destruct Hsh as [?|[_ ?]]; [done|congruence].
Qed.

(** * Runs *)
Ltac legal_case H := repeat (apply andb_prop in H as [H ?]); repeat match goal with
  | E : _ && _ = true |- _ => apply andb_prop in E as [? ?]
  | E : negb _ = true |- _ => apply negb_true_iff in E
  | E : bool_decide _ = true |- _ => apply bool_decide_eq_true in E
  | E : bool_decide _ = false |- _ => apply bool_decide_eq_false in E
  end.
Lemma wp_act s A pl c a : inv None s A pl → legal s c a = true → wp (act c a) (λ _, safe) s.
Proof.
  intros HI Hg. unfold legal in Hg. apply andb_prop in Hg as [Hc Hg]. apply bool_decide_eq_true in Hc. destruct (inv_cur _ _ _ _ _ HI Hc) as (h & K & Hr & Hp). rewrite (ck_cur _ _ _ _ _ _ K) in Hg.
  rewrite !(holds_empty _ _ _ (i_lists _ _ _ _ HI)) in Hg. assert (∀ b : bool, negb (c_idle (cpus (co s) c)) || b = true → c_idle (cpus (co s) c) = true → b = true) as Hor by (intros b; by destruct (c_idle _), b).
  destruct a; cbn [act]; rewrite ?(holds_empty _ _ _ (i_lists _ _ _ _ HI)) in Hg; legal_case Hg.
  - destruct (c_idle (cpus (co s) c)) eqn:Hi.
    + eapply wp_mono; [by eapply wp_yield_idle|]. intros [] s' ->. by exists A, pl.
    + eapply wp_mono; [by eapply wp_yield|]. intros [] s'. case_bool_decide; [intros ->; by exists A, pl|apply settles_safe].
  - eapply wp_mono; [by eapply wp_sleep|]. intros [] s'. apply settles_safe.
  - by eapply wp_exit.
  - eapply wp_fork; [done..|]. by apply Z.ltb_lt.
  - eapply wp_take_one; [done..| |done]. by apply Hor.
  - eapply wp_take_all; [done..| |done]. by apply Hor.
  - apply wp_bind_2. eapply wp_mono; [eapply wp_deliver; [done..|by apply Hor]|]. intros b s' Hs. by apply wp_ret.
  - by eapply wp_grab.
  - destruct_and!. by eapply wp_give.
  - by eapply wp_give_back.
  - eapply wp_irq_enter; [done..|]. intros Hi. rewrite Hi in Hg. by apply bool_decide_eq_true in Hg.
  - apply wp_bind_2, wp_gets. eapply wp_irq_leave; [done..|]. intros Hi. rewrite Hi in *. cbn [negb orb] in *. by legal_case Hg.
  - eapply wp_mono; [by eapply wp_unidle|]. intros [] s'. apply settles_safe.
  - by eapply wp_ipi.
  - apply wp_modify. exists A, pl. apply (inv_one s A pl c (λ k, set_hardclocks (u32 (c_hardclocks k + 1)) k)); try done. intros h' _ R. apply R.
  - apply wp_bind_2, wp_gets, wp_bind_2. eapply wp_thread_of; [apply K|]. apply wp_modify. exists A, pl. apply (inv_one s A pl c (λ k, set_tlb (th_as h :: c_tlb k) k)); try done. intros h' Hh R Ha.
    assert (h' = h) as -> by (pose proof (ck_cur _ _ _ _ _ _ K); congruence).
    constructor; [done|]. by apply R.
  - apply wp_bind_2. eapply wp_mono; [eapply (wp_raise c s A pl h IPL_HIGH); try done; by right|]. intros r s' Hs. by apply wp_ret.
  - apply wp_bind_2. eapply wp_mono; [eapply (wp_raise c s A pl h IPL_NONE); try done; by left|]. intros r s' Hs. by apply wp_ret.
Qed.

(** The machine before its processors are made: no thread, empty lists, the channels [chs]. *)
Definition blank (l : L) (chs : list nat) : @sys L :=
  Sys (Core 0 ∅ (λ _, Cpu 0 0 false 0 [] 0 [] false) l) (Low ∅ ∅ (list_to_map ((λ w, (chan_lock w, spinlock_init)) <$> chs))).
Fixpoint create_all (ns : list nat) : M (@sys L) unit :=
  match ns with [] => mret tt | n :: ns => cpu_create n;; create_all ns end.
(** One processor for each of the threads [ns]; then any sequence of actions of any processors. *)
Inductive reachable (l : L) (chs ns : list nat) : sys → Prop :=
  | reach_boot s : create_all ns (blank l chs) = Ok (tt, s) → reachable l chs ns s
  | reach_act s c a s' : reachable l chs ns s → legal s c a = true → act c a s = Ok (tt, s') → reachable l chs ns s'.

Lemma inv_blank l chs : holds l (λ _, []) → inv None (blank l chs) (λ _, []) (λ _, Running 0).
Proof.
  intros Hl. constructor; cbn [blank co lo threads ncpus tlists locks].
  - done.
  - intros x t Ht. by apply elem_of_nil in Ht.
  - intros t h. by rewrite lookup_empty.
  - lia.
  - intros j lk Hj. apply elem_of_list_to_map_2, list_elem_of_fmap in Hj as (w & [= -> ->] & _). done.
  - lia.
  - by rewrite map_size_empty.
Qed.
Lemma inv_create n s A pl : inv None s A pl → threads (co s) !! n = None → Z.of_nat (size (threads (co s))) + 2 < 2 ^ 32 →
  wp (cpu_create n) (λ _ s', inv None s' A (<[n := Running (ncpus (co s))]> pl) ∧ threads (co s') = <[n := Thr S_READY (ncpus (co s)) NoContext 0 false]> (threads (co s))) s.
Proof.
  intros HI Hn Hsz. apply wp_modify. split; [|done]. set (c := ncpus (co s)). assert (∀ x t, t ∈ A x → t ≠ n) as Hne by (intros x t Ht ->; destruct (i_listed _ _ _ _ HI _ _ Ht) as [[] _]; congruence).
  constructor; cbn [co lo threads cpus ncpus tlists locks].
  - apply HI.
  - intros x t Ht. destruct (i_listed _ _ _ _ HI _ _ Ht). rewrite fn_lookup_insert_ne by (symmetry; by eapply Hne). split; [by apply insert_some|done].
  - intros t h. destruct (decide (t = n)) as [->|Ht].
    + rewrite lookup_insert_eq. intros [= <-]. split; [simpl; lia|]. rewrite fn_lookup_insert. cbn [co cpus th_cpu]. rewrite fn_lookup_insert. constructor; try done; [by right|]. exists 1. simpl. rewrite !lookup_insert_eq. split; [done|]. split; [done|]. split; [by right|done].
    + rewrite lookup_insert_ne by done. intros Hh. destruct (i_thr _ _ _ _ HI t h Hh) as [Hc P]. split; [simpl; lia|]. rewrite fn_lookup_insert_ne by done. cbn [co cpus]. rewrite fn_lookup_insert_ne by (unfold c; lia). destruct (pl t) as [x|d].
      * eapply parked_frame; [exact P|apply P| |done|done| |by left]; [eapply sits_more; [|apply P]; intros ?; apply insert_some|simpl; by apply lookup_insert_ne].
      * pose proof (rn_cpu _ _ _ _ _ P). eapply running_frame; [exact P|done|done|done| |]; simpl; apply lookup_insert_ne; [done|unfold c; lia].
  - intros d Hd. destruct (decide (d = c)) as [->|Hdc].
    + eexists. rewrite fn_lookup_insert. constructor; cbn [co lo threads c_curthread c_idle c_ipi_pending c_numshootdown]; try done; [apply lookup_insert_eq|done| |by left].
      intros Hv. destruct (A (Victims c)) as [|t q] eqn:E; [done|]. destruct (head_victim _ _ _ _ _ _ HI E) as (hx & _ & H1 & H2 & _). unfold c in *. lia.
    + assert (d < ncpus (co s))%nat as Hd' by (unfold c in *; lia). destruct (i_cpu _ _ _ _ HI d Hd') as [h K]. exists h. rewrite fn_lookup_insert_ne by done. destruct K as [K1 K2 K3 K4 K5 K6 K7 K8 K9]. constructor; cbn [co lo threads irqs]; try done; [rewrite lookup_insert_ne by congruence; done|by rewrite lookup_insert_ne].
  - intros j lk Hj. apply lookup_insert_Some in Hj as [[_ <-]|[_ Hj]]; [done|]. apply lookup_insert_Some in Hj as [[_ <-]|[_ Hj]]; [done|]. by apply (i_locks _ _ _ _ HI).
  - intros d Hd. destruct (decide (d = c)) as [->|Hdc].
    + split; [rewrite lookup_insert_eq; by eauto|]. apply lookup_insert_is_Some'. right. rewrite lookup_insert_eq. by eauto.
    + destruct (i_have _ _ _ _ HI d) as [H1 H2]; [unfold c in *; lia|]. split; apply lookup_insert_is_Some'; right; apply lookup_insert_is_Some'; by right.
  - rewrite map_size_insert_None by done. lia.
Qed.
Lemma wp_create_all ns : ∀ s A pl, inv None s A pl → NoDup ns → (∀ n, n ∈ ns → threads (co s) !! n = None) → Z.of_nat (size (threads (co s))) + Z.of_nat (length ns) + 1 < 2 ^ 32 →
  wp (create_all ns) (λ _, safe) s.
Proof.
  induction ns as [|n ns IH]; intros s A pl HI Hnd Hf Hsz; [apply wp_ret; by exists A, pl|]. apply NoDup_cons in Hnd as [Hn Hnd]. simpl in Hsz. cbn [create_all]. apply wp_bind_2. eapply wp_mono; [eapply inv_create; [done|apply Hf; by left|lia]|].
  intros [] s' [HI' Et]. eapply IH; [done|done| |].
  - intros m Hm. rewrite Et, lookup_insert_ne by (intros ->; done). apply Hf. by right.
  - rewrite Et, map_size_insert_None by (apply Hf; by left). lia.
Qed.
Lemma reachable_safe l chs ns s : holds l (λ _, []) → NoDup ns → Z.of_nat (length ns) + 1 < 2 ^ 32 → reachable l chs ns s → safe s.
Proof.
  intros Hl Hnd Hsz. induction 1 as [s Hb|s c a s' _ (A & pl & HI) Hg Ha].
  - pose proof (wp_create_all ns _ _ _ (inv_blank l chs Hl) Hnd) as Hw. unfold wp in Hw. rewrite Hb in Hw. apply Hw; [intros; apply lookup_empty|]. cbn [blank co threads]. rewrite map_size_empty. lia.
  - pose proof (wp_act s A pl c a HI Hg) as Hw. unfold wp in Hw. by rewrite Ha in Hw.
Qed.

(** A sequence of actions, if each is one the code takes. *)
Fixpoint run_acts (tr : list (nat * action)) s : option (@sys L) :=
  match tr with
  | [] => Some s
  | (c, a) :: tr => if legal s c a then match act c a s with Ok (_, s') => run_acts tr s' | _ => None end else None
  end.
Lemma run_reachable l chs ns tr : ∀ s s', reachable l chs ns s → run_acts tr s = Some s' → reachable l chs ns s'.
Proof.
  induction tr as [|[c a] tr IH]; intros s s' Hr; cbn [run_acts]; [by intros [= <-]|]. destruct (legal s c a) eqn:Hg; [|done]. destruct (act c a s) as [[[] s1]| | |] eqn:Ha; try done. apply IH. by eapply reach_act.
Qed.

(** * What this means *)
Definition runs s (c t : nat) : Prop := (c < ncpus (co s))%nat ∧ c_idle (cpus (co s) c) = false ∧ c_curthread (cpus (co s) c) = t.
(** Every thread that exists runs on one processor or is on one list, once. *)
Record one_place s A : Prop := {
  op_holds : holds (tlists (co s)) A;
  op_somewhere t : is_Some (threads (co s) !! t) ↔ (∃ c, runs s c t) ∨ (∃ x, t ∈ A x);
  op_running t c d : runs s c t → runs s d t → c = d;
  op_either t c x : runs s c t → t ∉ A x;
  op_list t x y : t ∈ A x → t ∈ A y → x = y;
  op_once x : NoDup (A x);
}.
(** The stack a processor is on, also one that idles, is that of a thread that exists and
    belongs to it. *)
Definition own_stack s : Prop := ∀ c, (c < ncpus (co s))%nat → ∃ h, threads (co s) !! c_curthread (cpus (co s) c) = Some h ∧ th_cpu h = c.
(** A thread with an address space runs with translations of that address space only. *)
Definition isolated s : Prop := ∀ c t h, runs s c t → threads (co s) !! t = Some h → th_as h ≠ 0 → Forall (λ a, a = th_as h) (c_tlb (cpus (co s) c)).
(** A running thread holds no lock, and has interrupts on unless it raised its level. *)
Definition levelled s : Prop := ∀ c t, runs s c t → ∃ l, levels (lo s) !! t = Some (l, l) ∧ irqs (lo s) !! c = Some (l =? 0).

Lemma safe_one_place s A pl : inv None s A pl → one_place s A.
Proof.
  intros HI. assert (∀ c t, runs s c t → pl t = Running c ∧ is_Some (threads (co s) !! t)) as Hrun.
  { intros c t (Hc & Hi & <-). destruct (inv_cur _ _ _ _ _ HI Hc) as (h & K & Hr & _). split; [by apply Hr|]. exists h. apply K. }
  constructor.
  - apply HI.
  - intros t. split.
    + intros [h Ht]. destruct (i_thr _ _ _ _ HI t h Ht) as [Hc P]. destruct (pl t) as [x|c]; [right; exists x; apply P|]. left. exists (th_cpu h). destruct P as [-> P1 P2 _ _ _]. done.
    + intros [[c Hr]|[x Hx]]; [by eapply Hrun|by eapply (i_listed _ _ _ _ HI)].
  - intros t c d H1 H2. destruct (Hrun _ _ H1), (Hrun _ _ H2). congruence.
  - intros t c x H1 Hx. destruct (Hrun _ _ H1), (i_listed _ _ _ _ HI _ _ Hx). congruence.
  - intros t x y. eapply holds_disjoint, HI.
  - intros x. eapply holds_nodup, HI.
Qed.

(** C22: whatever the processors do, in any order: every thread is running on exactly one
    processor or on exactly one list; each processor is on the stack of a living thread of its
    own, so that no stack is shared or freed under a processor; user code runs with
    translations of its own address space only; interrupts are on in a running thread
    exactly if it has not raised its level; and every action the code takes comes to an end,
    without a failed assertion, a use of a destroyed thread or a lock that stays taken. *)
Theorem threads_in_one_place (l : L) (chs ns : list nat) s : holds l (λ _, []) → NoDup ns → Z.of_nat (length ns) + 1 < 2 ^ 32 → reachable l chs ns s →
  (∃ A, one_place s A) ∧ own_stack s ∧ isolated s ∧ levelled s ∧ (∀ c a, legal s c a = true → ∃ s', act c a s = Ok (tt, s')).
Proof.
  intros Hl Hnd Hsz Hr. destruct (reachable_safe _ _ _ _ Hl Hnd Hsz Hr) as (A & pl & HI). split; [exists A; by eapply safe_one_place|]. split_and!.
  - intros c Hc. destruct (i_cpu _ _ _ _ HI c Hc) as [h K]. exists h. split; apply K.
  - intros c t h (Hc & Hi & <-) Ht Ha. destruct (inv_cur _ _ _ _ _ HI Hc) as (h' & K & Hrn & _). destruct (Hrn Hi) as [_ R]. assert (h' = h) as -> by (pose proof (ck_cur _ _ _ _ _ _ K); congruence). by apply R.
  - intros c t (Hc & Hi & <-). destruct (inv_cur _ _ _ _ _ HI Hc) as (h' & K & Hrn & _). destruct (Hrn Hi) as [_ R]. destruct (rn_level _ _ _ _ _ R) as (v & ? & ? & _). by exists v.
  - intros c a Hg. destruct (proj1 (wp_exists _ _ _) (wp_act s A pl c a HI Hg)) as ([] & s' & E & _). by exists s'.
Qed.

(** ** Progress *)
Fixpoint yields (n c : nat) : M (@sys L) unit := match n with O => mret tt | S n => thread_yield c;; yields n c end.
Lemma wp_yields c n : ∀ s A pl q1 t q2, inv None s A pl → (c < ncpus (co s))%nat → c_idle (cpus (co s) c) = false → A (Victims c) = [] → A (Runq c) = q1 ++ t :: q2 → length q1 = n →
  wp (yields (S n) c) (λ _ s', runs s' c t) s.
Proof.
  induction n as [|n IH]; intros s A pl q1 t q2 HI Hc Hi Hv Hq Hn; cbn [yields]; destruct (inv_cur _ _ _ _ _ HI Hc) as (h & K & _ & _); apply wp_bind_2; (eapply wp_mono; [by eapply wp_yield|]); intros [] s';
    rewrite bool_decide_eq_false_2 by (rewrite Hq; by destruct q1); intros (A' & pl' & HI' & [P1 P2 P3]); rewrite fn_lookup_insert, Hq in P3; rewrite <-P1 in Hc.
  - destruct q1; [|done]. simpl in P3. apply wp_ret. by destruct P3 as (? & ? & _).
  - destruct q1 as [|u q1]; [done|]. simpl in P3. destruct P3 as (Hi' & _ & Hq'). rewrite <-app_assoc in Hq'. eapply (IH s' A' pl' q1 t); [done|done|done| |exact Hq'|by injection Hn]. rewrite P2 by done. by rewrite fn_lookup_insert_ne.
Qed.
(** C23: runnable threads run. An idle processor with a thread on its run queue has been called:
    an interrupt is pending or has been taken since it last looked; and when [cpu_idle]
    comes back the first thread of the queue runs. On a processor that is not idle
    the thread with [n] others before it in the queue runs after [n + 1] yields. *)
Theorem runnable_threads_run (l : L) (chs ns : list nat) s : holds l (λ _, []) → NoDup ns → Z.of_nat (length ns) + 1 < 2 ^ 32 → reachable l chs ns s →
  ∃ A, one_place s A ∧ ∀ c q1 t q2, (c < ncpus (co s))%nat → A (Runq c) = q1 ++ t :: q2 →
    let k := cpus (co s) c in
    if c_idle k then
      (Z.testbit (c_ipi_pending k) IPI_UNIDLE = true ∨ c_woken k = true) ∧
      (legal s c Unidle = true → q1 = [] → ∃ s', unidle c s = Ok (tt, s') ∧ runs s' c t)
    else A (Victims c) = [] → ∃ s', yields (S (length q1)) c s = Ok (tt, s') ∧ runs s' c t.
Proof.
  intros Hl Hnd Hsz Hr. destruct (reachable_safe _ _ _ _ Hl Hnd Hsz Hr) as (A & pl & HI). exists A. split; [by eapply safe_one_place|]. intros c q1 t q2 Hc Hq k. destruct (inv_cur _ _ _ _ _ HI Hc) as (h & K & _ & _). destruct (c_idle k) eqn:Hi.
  - split; [apply (ck_called _ _ _ _ _ _ K); [done|rewrite Hq; by destruct q1|done]|]. intros Hg ->. unfold legal in Hg. apply andb_prop in Hg as [_ Hg]. rewrite (ck_cur _ _ _ _ _ _ K) in Hg. apply andb_prop in Hg as [_ Hin]. apply negb_true_iff in Hin.
    destruct (proj1 (wp_exists _ _ _) (wp_unidle c s A pl h HI Hc K Hi Hin)) as ([] & s' & E & A' & pl' & _ & [P1 _ P3]). rewrite Hq in P3. exists s'. split; [done|]. destruct P3 as (? & ? & _). split; [congruence|done].
  - intros Hv. destruct (proj1 (wp_exists _ _ _) (wp_yields c (length q1) s A pl q1 t q2 HI Hc Hi Hv Hq eq_refl)) as ([] & s' & E & H). by exists s'.
Qed.

(** A request to forget one translation, after [tlb_broadcast] has asked for all of them and
    before the interrupt is taken, stores in front of the array. *)
Lemma shootdown_overruns c d mapping s n l : at_level s c n l → locks (lo s) !! ipi_lock d = Some spinlock_init → c_numshootdown (cpus (co s) d) = TLBSHOOTDOWN_ALL → ipi_tlbshootdown c d mapping s = Undef.
Proof.
  intros Hl Hk Hn. unfold ipi_tlbshootdown, locked. destruct (proj1 (wp_exists (acquire c (ipi_lock d)) (λ _ s', s' = to_lock (ipi_lock d) (taken c) (to_level c (n + 1) l s)) s)) as ([] & s' & E & ->); [by eapply wp_cpu_acquire|].
  rewrite (bind_ok _ _ _ _ _ E). unfold mbind, M_bind, cpu_of, gets. cbn [to_lock to_level co]. by rewrite Hn.
Qed.
End spec.

(** Two processors. Thread 5 is forked, touches memory and sleeps on channel 7; processor 1 goes
    idle; thread 0 forks 6, gives it to processor 1 in a clock interrupt, and wakes thread 5. *)
Module CpuDemo.
Definition trace : list (nat * action) := [
  (0, Lower); (0, Fork 5 42); (0, Yield); (0, Touch); (0, Sleep 7); (1, Exit); (0, Fork 6 43); (0, Enter); (0, Tick); (0, Grab); (0, Give 1);
  (0, Leave); (0, TakeOne 7); (0, Deliver)]%nat.
Definition booted : sys := match create_all [0; 1]%nat (blank empty_lists [7%nat]) with Ok (_, s) => s | _ => blank empty_lists [] end.
Definition final : sys := default booted (run_acts trace booted).
Lemma boots : create_all [0; 1]%nat (blank empty_lists [7%nat]) = Ok (tt, booted).
Proof. by unfold booted; cbn [create_all]. Qed.
Lemma ran : is_Some (run_acts trace booted).
Proof.
  assert (match run_acts trace booted with Some _ => true | None => false end = true) as H by (vm_compute; reflexivity).
  destruct (run_acts trace booted); [by eexists|done].
Qed.
Lemma final_reachable : reachable empty_lists [7%nat] [0; 1]%nat final.
Proof.
  destruct ran as [s' E]. unfold final. rewrite E. exact (run_reachable empty_lists [7%nat] [0; 1]%nat trace booted s' (reach_boot _ _ _ _ boots) E).
Qed.
Lemma lists_empty : holds empty_lists (λ _, []).
Proof. exists (λ _, []). split; [exact empty_lists_rep|done]. Qed.
End CpuDemo.
Lemma threads_in_one_place_witness : (∃ A, one_place CpuDemo.final A) ∧ own_stack CpuDemo.final ∧ isolated CpuDemo.final ∧ runs CpuDemo.final 0 0 ∧ size (threads (co CpuDemo.final)) = 4%nat.
Proof.
  destruct (threads_in_one_place empty_lists [7%nat] [0; 1]%nat CpuDemo.final) as (H1 & H2 & H3 & _ & _).
  - exact CpuDemo.lists_empty.
  - refine (bool_decide_unpack _ _). by vm_compute.
  - by vm_compute.
  - exact CpuDemo.final_reachable.
  - split_and!; [done|done|done| |by vm_compute]. split_and!; [|by vm_compute|by vm_compute]. refine (bool_decide_unpack _ _). by vm_compute.
Defined.
Lemma runnable_threads_run_witness : ∃ A t s', one_place CpuDemo.final A ∧ A (Runq 0) = [t] ∧ yields 1 0 CpuDemo.final = Ok (tt, s') ∧ runs s' 0 t.
Proof.
  destruct (runnable_threads_run empty_lists [7%nat] [0; 1]%nat CpuDemo.final) as (A & H1 & H2).
  - exact CpuDemo.lists_empty.
  - refine (bool_decide_unpack _ _). by vm_compute.
  - by vm_compute.
  - exact CpuDemo.final_reachable.
  - assert (c_idle (cpus (co CpuDemo.final) 0) = false) as Hi by (vm_compute; reflexivity). assert (ncpus (co CpuDemo.final) = 2%nat) as Hn by (vm_compute; reflexivity).
    assert (tl_num (lid (Victims 0)) (tlists (co CpuDemo.final)) = 0) as Hv by (vm_compute; reflexivity). assert (tl_num (lid (Runq 0)) (tlists (co CpuDemo.final)) = 1) as Hr by (vm_compute; reflexivity).
    rewrite (holds_num _ _ (Victims 0) (op_holds _ _ H1)) in Hv. rewrite (holds_num _ _ (Runq 0) (op_holds _ _ H1)) in Hr.
    destruct (A (Runq 0)) as [|t [|t' q]] eqn:Hq; [discriminate Hr| |exfalso; clear - Hr; cbn [length] in Hr; lia].
    specialize (H2 0%nat [] t [] ltac:(rewrite Hn; lia) Hq). cbv zeta in H2. rewrite Hi in H2. destruct H2 as (s' & E & Hs).
    + destruct (A (Victims 0)); [reflexivity|]. exfalso. clear - Hv. cbn [length] in Hv. lia.
    + exists A, t, s'. split; [exact H1|]. split; [exact Hq|]. split; [exact E|exact Hs].
Defined.
